(* ===== verification/_CoqProject ===== *)
-Q . S2P
Prelude.v
DomainErrors.v
Counter.v
RateLimit.v
Failover.v
GoLib.v
NetIP.v
GoNum.v
GoJson.v
Domain.v
Keys.v
ManagedBlock.v
Blocklist.v
Sha256.v
Tokens.v
Authz.v
Database.v
StoreLogic.v
AuditLog.v
KeyRepos.v
AccessKey.v
KeySets.v
Handles.v
DeviceKeys.v
Publish.v
TokenService.v
Migrate.v
PairingCode.v
PairingRepo.v
Authenticator.v
Enrollment.v
Erasure.v
Administrators.v
ListAdmin.v
Onboarding.v
Sweep.v
Secrets.v
Config.v
RedisStore.v
ConfigEnv.v
Logging.v
HttpEdge.v
HttpApi.v
Isolation.v
HttpRouter.v
Startup.v
SafeText.v
Program.v
Dns01.v
Sha1.v
DnsRecords.v
DnsSets.v
DnsXml.v
DnsUpdate.v
DnsSolver.v
DnsTrips.v
CertFiles.v
Acme.v
AcmeSafety.v
OriginCA.v
Tls.v
CertCache.v
