(* ===== verification/Prelude.v ===== *)
(** * sshpilot-vallet: a verification development

    sshpilot-vallet is a Go server that publishes users' SSH public keys, with a
    helper that installs them into authorized_keys files.  This library models the
    parts of it that carry its guarantees and proves them.

    ** The program and its parts

    A request reaches [internal/transport/http], is rate limited ([internal/ratelimit]
    over [internal/counter]), authenticated by a signed access token and authorized
    against its scopes and a revocation denylist ([internal/auth]); services then read
    and write through repositories ([internal/storage/sqlite], [.../postgres]) whose
    schema [internal/migrate] brings up to date.  Submitted keys are parsed and
    printed by [internal/keys]; on the machines the keys are for, [internal/managedblock]
    writes them between two markers of the user's file.

    ** Files and what they model

    - [Prelude]: Go strings, errors and their wrapping, int64 arithmetic, durations,
      the error and state monads, sequences of steps, shared lemmas and automation.
    - [DomainErrors]: the sentinel errors of [internal/domain/errors.go].
    - [GoLib]: the functions of Go's library the code calls (bytes, strings, utf8,
      unicode classes, base64, hex).  [Sha256]: SHA-256 and HMAC, with the published
      test vectors.
    - [GoJson]: Go's [encoding/json]: what it writes and reads, and that it reads back
      what it wrote.
    - [Domain]: [internal/domain] - enumerations, entities, text validators, scopes.
    - [Counter]: [internal/counter/counter.go, memory.go].  The port is the class
      [Store], its contract the class [StoreLaws]; [MemoryStore] is an instance.
    - [Failover]: [internal/counter/failover.go]: the decorator over two stores, and
      the reprobe goroutine, its clients and Close as a step relation.
    - [RedisStore]: [internal/redisstore] and [cmd/valletd/counterstore.go]: the same port
      over a Redis server, and the store that falls back from it.
    - [RateLimit]: [internal/ratelimit]: [Limiter.Allow], [AuthLimiter.Check],
      [RecordFailure], [RecordSuccess], over any [Store].
    - [Keys]: [internal/keys]: [Parse], [ParseAuthorizedKeys], [AuthorizedKeyLineFrom].
    - [ManagedBlock]: [internal/managedblock]: [Render], [Merge], and [Apply] with
      [writeAtomic] over a file system in which each call can fail.
    - [Tokens]: [internal/auth/token.go, accesstoken.go]: token formats and signing.
    - [Authz]: [internal/auth/denylist.go, authorization.go]: [Denylist] over any
      [Store], [Guard.Authorize], the scope matrix.
    - [Database]: [internal/storage/sqlite] store.go, errors.go, owner.go and
      refreshcred.go: tables as maps, one definition per statement, [WithTx].
    - [StoreLogic]: a weakest-precondition calculus for code over the database, in
      which any statement may fail; the services are proved with it.
    - [TokenService]: [internal/auth/tokenservice.go]: [Issue], [Exchange] with its
      transaction, replay detection and lineage revocation.
    - [PairingCode], [PairingRepo], [Authenticator], [Enrollment]: [internal/auth]
      pairingcode.go, apitoken.go, registry.go, authenticator.go and enrollment.go with
      [internal/storage/sqlite/pairing.go, linkedidentity.go]: device enrolment.
    - [Blocklist]: [internal/blocklist] and [internal/nameguard]: the name policy.
    - [AuditLog]: [internal/audit] and [internal/storage/sqlite/audit.go].
    - [KeyRepos]: [internal/storage/sqlite] device.go, publickey.go, keyset.go and
      accesskey.go: one definition per statement.
    - [AccessKey], [KeySets], [Handles]: the services [internal/service/accesskey],
      [.../keyset] and [.../handle] (the last with its repository).
    - [DeviceKeys], [Publish]: [internal/service/device], [.../publickey] and
      [.../publish]: devices, their keys, and the document of a handle.
    - [Administrators]: [internal/auth/admintoken.go] and [internal/storage/sqlite]
      admin.go and listoverride.go.  [ListAdmin]: [internal/service/listadmin].
    - [Onboarding]: [internal/service/bootstrap] and [.../onboarding].
    - [NetIP]: the parts of Go's [net] and [net/netip] the server uses.  [HttpEdge]:
      [internal/transport/http] authz.go, clientip.go, trustedproxy.go, ratelimit.go,
      hsts.go, requestid.go and publish.go: what surrounds the handlers, and publishing.
      [HttpApi]: its API handlers.  [HttpRouter]: router.go and options.go over a model
      of [http.ServeMux]: [NewHandler], the whole server.  [Isolation]: a frame calculus
      that says which rows each service can touch.
    - [GoNum]: numbers and durations as Go's [strconv] and [time] read them, with doubles
      from the Standard Library's [SpecFloat].  [Secrets]: [internal/secrets].  [Config]:
      [internal/config] config.go, defaults.go, validate.go and secretsref.go.
      [ConfigEnv]: its duration.go, env.go and load.go.
    - [Logging]: [internal/logging]: what of a record reaches the log.
    - [Sweep]: [internal/sweep].  [Startup]: [cmd/valletd]: how a configuration becomes a
      server, its periodic jobs and its first administrator.
    - [Erasure]: [internal/erasure] with [internal/storage/sqlite/ownersalt.go]: the
      erasure of an owner from the audit log, and its retention.
    - [SafeText]: [internal/safetext].  [Program]: programs that talk to the outside, as
      trees of questions and answers.  [Dns01]: [internal/dns01] dns01.go, credentials.go
      and propagation.go, URLs and names; [DnsRecords]: its providers whose API has single
      records (cloudflare.go, digitalocean.go, dnsimple.go, arvancloud.go, ovh.go);
      [DnsSets]: those with sets of records (gandi.go, godaddy.go, azure.go, gcp.go);
      [DnsXml]: those that speak XML (awssigv4.go, route53.go, namecheap.go); [DnsUpdate]:
      the one that sends DNS updates (rfc2136.go); [Sha1]: the hash OVH's signatures use.  [DnsSolver]: [NewAPIProvider], manual.go and
      [internal/transport/http/certacmedns01.go].  [DnsTrips]: challenges against a model
      of a provider's service.
    - [CertFiles]: [internal/transport/http] certcsr.go, certprovider.go and errors.go: which
      certificates may be presented, and the files of keys.  [Acme], [AcmeSafety]: certacme.go
      and what it does whatever the authority answers.  [OriginCA]: certcloudflare.go.
      [Tls]: certselfsigned.go and tls.go.  [CertCache]: certificates across a restart.
    - [Migrate]: [internal/migrate]: [NewRegistry], [verify], [Up], [Down], [Status].

    ** Conventions

    A Go string or byte slice is a list of bytes.  An instant or a duration is an
    integer of nanoseconds; arithmetic the code does on int64 wraps where that
    matters ([lockout], [nextInterval], counters).  A fallible function returns
    [result]; one that also changes state is a state-passing function [stM].  The
    clock, random bytes and injected failures are arguments: a theorem about them
    holds for every clock reading, every random value and every pattern of failing
    statements or system calls.  An operation the code runs under a lock or in one
    transaction is one step.  A transaction whose commit fails has no effect: a commit
    that took effect and was reported as failed is not represented.  [Script.Run] is one
    call of the server.  Cutting a run short is the death of the process, not a loss of
    power: what was written stays.  A work that a job does is a relation that may block
    or never end; a request follows redirects as the client it is made with does.

    ** What the theorems show

    - Sessions ([TokenService], [Authz], [Tokens]): an exchange retires exactly the
      presented credential and mints exactly one successor with the same owner,
      lineage, scopes and expiry; in every reachable database a lineage has at most
      one active credential and never widens; a replay revokes the whole lineage; a
      revoked lineage is refused until its access tokens have expired, for any lawful
      counter store and clocks off by the allowed skew; the guard's decision agrees
      with a declarative reading of scopes; token formats round-trip.
    - Enrolment ([PairingCode] to [Enrollment]): a pairing is redeemed at most once
      under any interleaving, only after the approval of an active owner; it only moves
      forward; codes round-trip as people transcribe them.
    - Owners' data ([AccessKey], [KeySets], [Handles], [Blocklist]): which access
      tokens open a set, for how long, and that a revoked one never does again; the
      catalogue of sets stays consistent whatever fails and renames are all or nothing;
      names and stored folds are never shared, so that handles look alike only when one was
      put aside for it, and change hands only after quarantine;
      the name matcher decides exactly what its lists and folding say.
    - Publishing ([DeviceKeys], [Publish], [Onboarding]): a document is served exactly
      to those entitled to it and holds exactly the keys in force; a revoked key never
      appears again; a seeded key is published; provisioning is all or nothing.
    - Requests ([HttpEdge], [HttpRouter], [Isolation]): whatever is sent to the server,
      only rows of the bearer's owner change, and only under a token that permits it; a
      fetch is exact on the wire and its refusal says nothing; every name an owner can
      have is routed to its document; no header chooses the address a client is counted
      under.
    - Configuration and start ([Secrets] to [ConfigEnv], [Sweep], [Startup]): a
      configuration that validates exposes nothing by accident and has the secrets it
      needs; the environment sets exactly the fields it names; durations do not overflow;
      a server never starts with a configured guard missing, nor a guard without the secret
      its reference names; periodic jobs survive their failures, begin no pass once told to
      stop, and end if their passes do; the first administrator's token is accepted; a log
      line depends on no value under an undeclared key and shows no URL with a password that
      is written as a URL's.
    - Administration ([Administrators], [ListAdmin]): admin tokens verify exactly as
      issued; a list edit is authorized, recorded and exact; a restart never permits a
      name the running policy refused.
    - Records ([AuditLog], [Erasure]): only screened text under known keys enters the
      log; paging reads it exactly; a purge removes exactly the oldest records due; a
      successful erasure puts keyed pseudonyms for the identifiers of the owner's present
      rows, and a failed one never loses the salt.
    - Files ([ManagedBlock], [Keys]): a crash or an error at any point of [Apply]
      leaves the target whole, old or new, with permissions not widened; [Merge]
      touches only the block and is idempotent; published lines are one line each and
      parse back to the key they were printed from.
    - Limits ([Counter], [RateLimit], [Failover], [RedisStore]): the memory store refines a
      map of fixed windows that is never swept, and so does the shared store whatever is lost
      on the network; a key gets at most its limit per window and
      twice the limit in any window-long interval; the lockout curve and its
      enforcement; where failover routes a call; no interleaving loses the wake-up of
      a degraded store, and it can always recover.
    - DNS challenges ([Dns01] to [DnsTrips]): whatever a DNS service answers, redirects
      included, a provider's requests, and so its secrets, go to its own addresses; it removes only records that
      it made, and puts back the neighbours of a set that it rewrites; when it may have
      written, it returns a cleanup (Cloudflare excepted, [cloudflare_leak]); a challenge is
      reported as published only after every listed name server that has an address has shown
      its value;
      against a service that does what its API says, a challenge adds its value and takes
      it out again.
    - Certificates ([CertFiles] to [CertCache]): a handshake is given only a certificate that
      matches its key and is inside its window, and one for validation only under the
      validation protocol; an origin certificate goes to trusted proxies only; challenges are
      accepted when they can be answered, and no challenge certificate is held between
      attempts; orders and requests are at least a minute apart, redirects of a request
      excepted, which the origin CA's client follows ([service_key_follows]); private keys are written to private files, which are replaced
      whole; a stored certificate is found again by the next start; a credential never comes
      back in an error; the listener uses the configured mode and no weaker one.
    - Schema ([Migrate]): [verify] accepts exactly the matching prefixes; [Up] and
      [Down] keep ledger and schema in agreement whatever fails.

    Some theorems record where the code does less than its comments or documents
    promise, such as [Revoke_never_reaches_credentials], [Delete_refused_after_minting],
    [purge_pass_never_recorded], [held_name_reclaimed], [probe_delay_backoff],
    [password_tail_kept], [service_key_follows] and [submillisecond_never_counts].

    ** Parameters

    Code outside the repository is a parameter.  [golang.org/x/crypto/ssh] is the class
    [Ssh] with its laws [SshLaws] (what it prints it parses back, a key has one wire
    form); the effect of a SQL statement on the schema is a function; the character tables of Go's library are the classes [UnicodeData], [UnicodeFold] and
    [UnicodeCase] with their laws; [encoding/xml], PEM, PKCS #8 and RSA signatures are
    functions that the DNS providers take, the functions of [github.com/miekg/dns] that one of
    them calls the class [Miekg], a Redis server the class [Redis] with its laws [RedisLaws], and certificates and keys the class [X509] with its laws
    [X509Laws]; the embedded list of offensive terms is an argument; so are the static
    pages of the server, the YAML decoder, [url.Parse], the process environment and the files that hold secrets.  Each
    theorem that assumes such a law has a witness with a concrete instance.

    ** Fuel

    Loops that consume their input take its length as fuel ([lineSpans], [Sha256]'s
    blocks, the scanners of [GoLib]); each turn removes at least one byte, so the fuel
    is never exhausted before the input.  The retention purge takes its per-run limit
    as fuel, which each turn lowers, and a walk over the pages of the log the number of
    its records.  A walk up a record's name stops after the 32 labels of [maxZoneLabels], the
    listings of Azure and Namecheap after their 100 pages, and the wait for propagation
    after as many ticks as fit before its deadline: bounds of the code.  A request is
    redirected at most nine times, as [net/http] has it.  A chain of PEM
    blocks takes its length as fuel, and a renewal loop the number of its turns, for any number.  All other recursion
    is structural.

    ** Not modelled

    The order of events inside a statement of the database, [fsync] and the creation of
    several directories by one [MkdirAll] are not represented, nor is the [Referer] of a
    redirected request.  The handshake itself, static pages, telemetry, flags and the lifetime of listeners are I/O around
    these parts; the Postgres adapters implement the same contracts as the SQLite ones.  Formatting wrappers that redact secrets in
    logs, and the text encodings of table rows, are left out. *)

From Stdlib Require Export Ascii String ZArith Lia.
From stdpp Require Export base tactics option strings gmap sets numbers.
From stdpp Require Export list.

(** ** Go strings and byte slices

    A Go [string] and a Go [[]byte] are both finite byte sequences; both are
    modelled as [list ascii] (an [ascii] is one byte).  [go "..."] is the
    literal notation for such a sequence. *)

Abbreviation gostring := (list ascii).
Abbreviation bytes := (list ascii).

Definition go (s : string) : gostring := list_ascii_of_string s.
Arguments go : simpl never.

(** The numeric value of a byte and the byte of a value modulo 256. *)
Definition byte_val (a : ascii) : Z := Z.of_N (N_of_ascii a).
Definition byte_of (z : Z) : ascii := ascii_of_N (Z.to_N (z mod 256)).

Lemma byte_val_range a : (0 ≤ byte_val a < 256)%Z.
Proof. unfold byte_val. pose proof (N_ascii_bounded a). lia. Qed.

Lemma byte_of_val a : byte_of (byte_val a) = a.
Proof.
  unfold byte_of. pose proof (byte_val_range a).
  rewrite Z.mod_small by lia. unfold byte_val.
  rewrite N2Z.id. apply ascii_N_embedding.
Qed.

Lemma byte_val_of z : byte_val (byte_of z) = (z mod 256)%Z.
Proof.
  unfold byte_val, byte_of. pose proof (Z.mod_pos_bound z 256 eq_refl).
  rewrite N_ascii_embedding by lia. lia.
Qed.

Lemma byte_val_inj a b : byte_val a = byte_val b → a = b.
Proof. intros H. rewrite <- (byte_of_val a), <- (byte_of_val b). congruence. Qed.

(** ** Go errors

    An error value carries its message and the errors it wraps ([%w] of
    [fmt.Errorf], possibly several).  A package-level sentinel made with
    [errors.New] wraps nothing; its message is unique in the repository, so
    equality of values stands for the pointer identity that [errors.Is] tests. *)

#[warnings="-register-all"]
Inductive goerror := GoErr (msg : string) (wraps : list goerror).

Fixpoint goerror_eqb (e1 e2 : goerror) {struct e1} : bool :=
  match e1, e2 with
  | GoErr m1 ws1, GoErr m2 ws2 =>
      String.eqb m1 m2 &&
      (fix go_list (l1 l2 : list goerror) {struct l1} : bool :=
         match l1, l2 with
         | [], [] => true
         | a :: r, b :: s => goerror_eqb a b && go_list r s
         | _, _ => false
         end) ws1 ws2
  end.

(** [errors.Is]: the error itself or anything in its tree of wrapped errors. *)
Fixpoint errors_is (e target : goerror) {struct e} : bool :=
  goerror_eqb e target ||
  match e with
  | GoErr _ ws => existsb (λ e', errors_is e' target) ws
  end.

(** [errors.New(msg)] and [fmt.Errorf("msg: %w ...", ws...)]. *)
Definition errors_new (msg : string) : goerror := GoErr msg [].
Definition errorf (msg : string) (ws : list goerror) : goerror := GoErr msg ws.

(** ** Results: a Go [(T, error)] pair of which exactly one is meaningful *)

Inductive result (A : Type) :=
| Ok (a : A)
| Err (e : goerror).
Arguments Ok {A} a.
Arguments Err {A} e.

#[export] Instance result_ret : MRet result := λ A a, Ok a.
#[export] Instance result_bind : MBind result := λ A B f r,
  match r with Ok a => f a | Err e => Err e end.
#[export] Instance result_fmap : FMap result := λ A B f r,
  match r with Ok a => Ok (f a) | Err e => Err e end.

Definition is_ok {A} (r : result A) : bool :=
  match r with Ok _ => true | Err _ => false end.

(** [if err := check; err != nil { return err }]: a check that yields an
    error or nothing, in front of the rest of the function. *)
Definition guard_err {A} (check : option goerror) (k : result A) : result A :=
  match check with Some e => Err e | None => k end.

(** ** State and error: code that updates a store and may fail

    The state survives an error: whatever was written before the failing call
    stays written unless the code undoes it (see the transactions below). *)

Definition stM (S A : Type) : Type := S → result A * S.

Definition st_ret {S A} (a : A) : stM S A := λ s, (Ok a, s).
Definition st_fail {S A} (e : goerror) : stM S A := λ s, (Err e, s).
Definition st_bind {S A B} (m : stM S A) (f : A → stM S B) : stM S B := λ s,
  match m s with
  | (Ok a, s') => f a s'
  | (Err e, s') => (Err e, s')
  end.
(** [x, err := m(); switch on err]: the caller inspects the error itself. *)
Definition st_try {S A B} (m : stM S A) (f : result A → stM S B) : stM S B := λ s,
  let '(r, s') := m s in f r s'.

Declare Scope stm_scope.
Delimit Scope stm_scope with stm.
Notation "'let!' x ':=' m 'in' k" := (st_bind m (λ x, k))
  (at level 10, x name, m at level 100, k at level 200, only parsing) : stm_scope.
Notation "'try!' x ':=' m 'in' k" := (st_try m (λ x, k))
  (at level 10, x name, m at level 100, k at level 200, only parsing) : stm_scope.

Lemma st_bind_ok {S A B} (m : stM S A) (f : A → stM S B) s b s' :
  st_bind m f s = (Ok b, s') →
  ∃ a s1, m s = (Ok a, s1) ∧ f a s1 = (Ok b, s').
Proof. unfold st_bind. destruct (m s) as [[a|e] s1]; naive_solver. Qed.

(** ** Machine integers, durations and instants

    [int64] values are [Z] with the two's-complement wrap-around written out.
    A [time.Duration] is an [int64] count of nanoseconds.  A [time.Time] is the
    number of nanoseconds since the Unix epoch; its monotonic reading and its
    location play no part in the modelled code ([UTC()] is the identity on
    instants). *)

Definition int64_min : Z := - 2 ^ 63.
Definition int64_max : Z := 2 ^ 63 - 1.
Definition int64_range (z : Z) : Prop := (int64_min ≤ z ≤ int64_max)%Z.
Definition wrap64 (z : Z) : Z := ((z + 2 ^ 63) mod 2 ^ 64 - 2 ^ 63)%Z.

Lemma wrap64_range z : int64_range (wrap64 z).
Proof.
  unfold int64_range, int64_min, int64_max, wrap64.
  pose proof (Z.mod_pos_bound (z + 2 ^ 63) (2 ^ 64) eq_refl). lia.
Qed.

Lemma wrap64_id z : int64_range z → wrap64 z = z.
Proof.
  unfold int64_range, int64_min, int64_max, wrap64. intros H.
  rewrite Z.mod_small; lia.
Qed.

(** [x << uint(n)] on an [int64]: a count of 64 or more (a negative [n]
    converts to one) shifts every bit out. *)
Definition shl64 (x n : Z) : Z :=
  if ((n <? 0) || (64 <=? n))%Z then 0%Z else wrap64 (Z.shiftl x n).

Abbreviation duration := Z.
Abbreviation time := Z.

Definition Nanosecond : duration := 1.
Definition Microsecond : duration := 1000 * Nanosecond.
Definition Millisecond : duration := 1000 * Microsecond.
Definition Second : duration := 1000 * Millisecond.
Definition Minute : duration := 60 * Second.
Definition Hour : duration := 60 * Minute.

(** [t.Add(d)], [t.Before(u)], [t.After(u)]; [t.Sub(u)] saturates at the bounds
    of [Duration]; [t.Unix()] is the second the instant falls in. *)
Definition time_add (t : time) (d : duration) : time := (t + d)%Z.
Definition time_before (t u : time) : bool := (t <? u)%Z.
Definition time_after (t u : time) : bool := (u <? t)%Z.
Definition time_sub (t u : time) : duration := Z.max int64_min (Z.min int64_max (t - u)).
Definition time_unix (t : time) : Z := (t / Second)%Z.
Definition unix_time (s : Z) : time := (s * Second)%Z.

Lemma time_sub_exact t u : int64_range (t - u) → time_sub t u = (t - u)%Z.
Proof. unfold time_sub, int64_range. lia. Qed.

(** ** Automation shared by the components *)

Create HintDb vallet.
Create Rewrite HintDb vallet.
#[export] Hint Resolve byte_val_range wrap64_range : vallet.
#[export] Hint Rewrite byte_of_val byte_val_of : vallet.

(** Split every [if]/[match] of the goal and hypotheses on a test, turning
    boolean tests into facts, and close what is then contradictory. *)
Ltac reflect_bools :=
  repeat match goal with
  | H : (_ && _) = true |- _ => apply andb_prop in H as [? ?]
  | H : (_ || _) = false |- _ => apply orb_false_iff in H as [? ?]
  | H : negb _ = true |- _ => apply negb_true_iff in H
  | H : negb _ = false |- _ => apply negb_false_iff in H
  | H : (_ <? _)%Z = true |- _ => apply Z.ltb_lt in H
  | H : (_ <? _)%Z = false |- _ => apply Z.ltb_ge in H
  | H : (_ <=? _)%Z = true |- _ => apply Z.leb_le in H
  | H : (_ <=? _)%Z = false |- _ => apply Z.leb_gt in H
  | H : (_ =? _)%Z = true |- _ => apply Z.eqb_eq in H
  | H : (_ =? _)%Z = false |- _ => apply Z.eqb_neq in H
  | H : bool_decide _ = true |- _ => apply bool_decide_eq_true in H
  | H : bool_decide _ = false |- _ => apply bool_decide_eq_false in H
  end.

Ltac split_code :=
  repeat (case_match; simplify_eq/=; reflect_bools; try done).

(** The same on one hypothesis only. *)
Ltac split_hyp H :=
  repeat (match type of H with
          | context [match ?x with _ => _ end] => destruct x eqn:?
          end; simplify_eq/=; reflect_bools; try done).

(** ** Reachability

    A component that runs as a sequence of atomic steps is a relation; its
    reachable states are those of the reflexive-transitive closure, and an
    invariant is proved by induction on it. *)

Inductive steps {A : Type} (R : A → A → Prop) : A → A → Prop :=
| steps_nil a : steps R a a
| steps_cons a b c : R a b → steps R b c → steps R a c.

Lemma steps_invariant {A} (R : A → A → Prop) (I : A → Prop) a b :
  (∀ x y, I x → R x y → I y) → I a → steps R a b → I b.
Proof. intros Hstep Ha H. induction H; eauto. Qed.

Lemma steps_one {A} (R : A → A → Prop) a b : R a b → steps R a b.
Proof. eauto using @steps. Qed.

Lemma steps_app {A} (R : A → A → Prop) a b c : steps R a b → steps R b c → steps R a c.
Proof. induction 1; eauto using @steps. Qed.

Lemma steps_snoc {A} (R : A → A → Prop) a b c :
  steps R a b → R b c → steps R a c.
Proof. induction 1; eauto using @steps. Qed.
