(* ===== verification/DomainErrors.v ===== *)
(** * Sentinel errors of the domain package (internal/domain/errors.go) *)

From S2P Require Import Prelude.

(** src/internal/domain/errors.go:16-17, ErrNotFound *)
Definition ErrNotFound : goerror := errors_new "domain: not found".

(** src/internal/domain/errors.go:18-19, ErrConflict *)
Definition ErrConflict : goerror := errors_new "domain: conflict".

(** src/internal/domain/errors.go:20-21, ErrInvalidInput *)
Definition ErrInvalidInput : goerror := errors_new "domain: invalid input".

(** src/internal/domain/errors.go:22-23, ErrUnauthorized *)
Definition ErrUnauthorized : goerror := errors_new "domain: unauthorized".

(** src/internal/domain/errors.go:24-25, ErrForbidden *)
Definition ErrForbidden : goerror := errors_new "domain: forbidden".

(** src/internal/domain/errors.go:26-27, ErrQuarantined *)
Definition ErrQuarantined : goerror := errors_new "domain: quarantined".

(** src/internal/domain/errors.go:28-29, ErrBlockedName *)
Definition ErrBlockedName : goerror := errors_new "domain: blocked name".

(** src/internal/domain/errors.go:30-31, ErrRevoked *)
Definition ErrRevoked : goerror := errors_new "domain: revoked".

(** src/internal/domain/errors.go:32-33, ErrExpired *)
Definition ErrExpired : goerror := errors_new "domain: expired".

(** src/internal/domain/errors.go:34-35, ErrImmutable *)
Definition ErrImmutable : goerror := errors_new "domain: immutable".

(** src/internal/domain/errors.go:36-37, ErrLimitExceeded *)
Definition ErrLimitExceeded : goerror := errors_new "domain: limit exceeded".

(** src/internal/domain/errors.go:38-39, ErrDefaultKeySet *)
Definition ErrDefaultKeySet : goerror := errors_new "domain: default key set".

(** src/internal/domain/errors.go:40-46, ErrFoldStale *)
Definition ErrFoldStale : goerror := errors_new "domain: fold table stale".
