(* ===== verification/Counter.v ===== *)
(** * The counter store (internal/counter/counter.go, memory.go)

    The shared counter port behind the rate limiter and the revocation denylist,
    and its in-process implementation.  [Store] is the port: the three
    operations a client calls.  [StoreLaws] is what the port promises, stated on
    an abstraction of the store to the live counter of every key at an instant.
    [MemoryStore] is the map behind a mutex; every operation runs under one lock
    acquisition, so an operation is one atomic state transition and [now] is the
    clock reading it takes while holding the lock. *)

From S2P Require Import Prelude.
From S2P Require Import DomainErrors.

(** ** The port *)

(** src/internal/counter/counter.go:41-50, ErrInvalidKey *)
Definition ErrInvalidKey : goerror := errors_new "counter: invalid key".

(** src/internal/counter/counter.go:52-59, ErrStoreUnavailable *)
Definition ErrStoreUnavailable : goerror := errors_new "counter: store unavailable".

(** src/internal/counter/counter.go:61-73, Count *)
Record Count := MkCount {
  Value : Z;        (* int64 *)
  TTL : duration;
}.

(** The zero [Count]: the answer for an absent or expired key. *)
Definition zero_Count : Count := MkCount 0 0.

#[export] Instance Count_eq_dec : EqDecision Count.
Proof. solve_decision. Defined.

(** The context of a call, reduced to what the stores read of it: what
    [ctx.Err()] answers. *)
Abbreviation context := (option goerror).

(** src/internal/counter/counter.go:75-147, Store *)
Class Store (S : Type) := {
  Increment : context → time → gostring → Z → duration → S → result Count * S;
  Get : context → time → gostring → S → result Count * S;
  Delete : context → time → gostring → S → result unit * S;
}.

Arguments Increment {S _} ctx now key delta ttl s : rename.
Arguments Get {S _} ctx now key s : rename.
Arguments Delete {S _} ctx now key s : rename.

(** ** What the port promises

    [live s t k] is the counter of [k] as seen at instant [t]: its value and
    the instant its window closes.  A counter is a fixed window: it appears when
    it is first incremented, its expiry never moves, and it is gone from the
    expiry on. *)

Definition count_at (t : time) (o : option (Z * time)) : Count :=
  match o with
  | Some (v, x) => MkCount v (time_sub x t)
  | None => zero_Count
  end.

(** The window an increment of [k] at [now] lands in: the live one, or a new
    one of length [ttl]. *)
Definition window_after (now : time) (delta : Z) (ttl : duration) (o : option (Z * time)) : Z * time :=
  match o with
  | Some (v, x) => (wrap64 (v + delta), x)
  | None => (wrap64 (0 + delta), time_add now ttl)
  end.

Definition shown_at (t : time) (e : Z * time) : option (Z * time) :=
  if time_before t (snd e) then Some e else None.

Class StoreLaws (S : Type) `{!Store S} := {
  live : S → time → gostring → option (Z * time);
  live_fixed s t t' k : (t ≤ t')%Z →
    live s t' k = (e ← live s t k; shown_at t' e);
  Increment_law ctx now k delta ttl s c s' :
    Increment ctx now k delta ttl s = (Ok c, s') →
    let e := window_after now delta ttl (live s now k) in
    (0 < delta)%Z ∧ (0 < ttl)%Z ∧
    c = MkCount (fst e) (time_sub (snd e) now) ∧
    (∀ t k', (now ≤ t)%Z →
       live s' t k' = if decide (k' = k) then shown_at t e else live s t k');
  Get_law ctx now k s c s' :
    Get ctx now k s = (Ok c, s') →
    c = count_at now (live s now k) ∧
    (∀ t k', (now ≤ t)%Z → live s' t k' = live s t k');
  Delete_law ctx now k s s' :
    Delete ctx now k s = (Ok tt, s') →
    ∀ t k', (now ≤ t)%Z →
      live s' t k' = if decide (k' = k) then None else live s t k';
}.

Arguments live {S _ _} s t k : rename.

(** ** MemoryStore *)

(** src/internal/counter/memory.go:12-21, sweepInterval *)
Definition sweepInterval : Z := 256.

(** src/internal/counter/memory.go:55-60, entry *)
Record entry := MkEntry {
  value : Z;          (* int64 *)
  expiresAt : time;
}.

(** src/internal/counter/memory.go:23-53, MemoryStore *)
Record MemoryStore := MkMemoryStore {
  entries : gmap gostring entry;
  ops : Z;
}.

(** src/internal/counter/memory.go:62-73, NewMemoryStore *)
Definition NewMemoryStore (clock : option unit) : result MemoryStore :=
  match clock with
  | None => Err (errorf "counter: nil clock" [ErrInvalidInput])
  | Some _ => Ok (MkMemoryStore ∅ 0)
  end.

(** src/internal/counter/memory.go:205-211, validKey *)
Definition validKey (key : gostring) : option goerror :=
  if bool_decide (key = []) then Some (errorf "counter: empty key" [ErrInvalidKey; ErrInvalidInput])
  else None.

(** src/internal/counter/memory.go:196-203, MemoryStore.purgeLocked *)
Definition purgeLocked (now : time) (s : MemoryStore) : MemoryStore :=
  MkMemoryStore (filter (λ ke, time_before now (expiresAt (snd ke)) = true) (entries s)) (ops s).

(** src/internal/counter/memory.go:184-194, MemoryStore.sweepLocked *)
Definition sweepLocked (now : time) (s : MemoryStore) : MemoryStore :=
  let n := (ops s + 1)%Z in
  if (n <? sweepInterval)%Z then MkMemoryStore (entries s) n
  else purgeLocked now (MkMemoryStore (entries s) 0).

(** src/internal/counter/memory.go:103-110, MemoryStore.Increment
    (the entry the increment is applied to: the live one, or a fresh one in
    place of an absent or expired one) *)
Definition current_entry (now : time) (ttl : duration) (o : option entry) : entry :=
  match o with
  | Some e => if time_before now (expiresAt e) then e else MkEntry 0 (time_add now ttl)
  | None => MkEntry 0 (time_add now ttl)
  end.

(** src/internal/counter/memory.go:75-118, MemoryStore.Increment *)
Definition mem_Increment (ctx : context) (now : time) (key : gostring) (delta : Z) (ttl : duration)
    (s : MemoryStore) : result Count * MemoryStore :=
  match validKey key with
  | Some err => (Err err, s)
  | None =>
  if (delta <=? 0)%Z then (Err (errorf "counter: delta must be positive" [ErrInvalidInput]), s)
  else if (ttl <=? 0)%Z then (Err (errorf "counter: ttl must be positive" [ErrInvalidInput]), s)
  else match ctx with
  | Some err => (Err (errorf "counter" [ErrStoreUnavailable; err]), s)
  | None =>
    let e := current_entry now ttl (entries s !! key) in
    let e := MkEntry (wrap64 (value e + delta)) (expiresAt e) in
    let s := MkMemoryStore (<[key := e]> (entries s)) (ops s) in
    let s := sweepLocked now s in
    (Ok (MkCount (value e) (time_sub (expiresAt e) now)), s)
  end end.

(** src/internal/counter/memory.go:120-140, MemoryStore.Get *)
Definition mem_Get (ctx : context) (now : time) (key : gostring) (s : MemoryStore)
    : result Count * MemoryStore :=
  match validKey key with
  | Some err => (Err err, s)
  | None =>
  match ctx with
  | Some err => (Err (errorf "counter" [ErrStoreUnavailable; err]), s)
  | None =>
    match entries s !! key with
    | Some e =>
        if time_before now (expiresAt e)
        then (Ok (MkCount (value e) (time_sub (expiresAt e) now)), s)
        else (Ok zero_Count, s)
    | None => (Ok zero_Count, s)
    end
  end end.

(** src/internal/counter/memory.go:142-157, MemoryStore.Delete *)
Definition mem_Delete (ctx : context) (now : time) (key : gostring) (s : MemoryStore)
    : result unit * MemoryStore :=
  match validKey key with
  | Some err => (Err err, s)
  | None =>
  match ctx with
  | Some err => (Err (errorf "counter" [ErrStoreUnavailable; err]), s)
  | None => (Ok tt, sweepLocked now (MkMemoryStore (delete key (entries s)) (ops s)))
  end end.

(** src/internal/counter/memory.go:159-170, MemoryStore.Len *)
Definition Len (s : MemoryStore) : nat := size (entries s).

(** src/internal/counter/memory.go:172-182, MemoryStore.Sweep *)
Definition Sweep (now : time) (s : MemoryStore) : Z * MemoryStore :=
  let before := Len s in
  let s' := purgeLocked now s in
  ((Z.of_nat before - Z.of_nat (Len s'))%Z, s').

#[export] Instance MemoryStore_Store : Store MemoryStore := {
  Increment := mem_Increment;
  Get := mem_Get;
  Delete := mem_Delete;
}.

(** The live counter of a key of a [MemoryStore]. *)
Definition mem_live (s : MemoryStore) (t : time) (k : gostring) : option (Z * time) :=
  e ← entries s !! k; shown_at t (value e, expiresAt e).

(** ** Lemmas *)

Lemma shown_at_idem t t' e : (t ≤ t')%Z →
  (x ← shown_at t e; shown_at t' x) = shown_at t' e.
Proof.
  intros Hle. unfold shown_at, time_before.
  destruct (t <? snd e)%Z eqn:H; [done|]. simpl.
  destruct (t' <? snd e)%Z eqn:H'; [|done]. lia.
Qed.

Lemma purgeLocked_live now s t k : (now ≤ t)%Z → mem_live (purgeLocked now s) t k = mem_live s t k.
Proof.
  intros Hle. unfold mem_live, purgeLocked; simpl.
  destruct (entries s !! k) as [e|] eqn:He; simpl.
  - destruct (time_before now (expiresAt e)) eqn:Hb.
    + rewrite (map_lookup_filter_Some_2 _ _ k e); done.
    + rewrite map_lookup_filter_None_2 by (right; intros x Hx ?; simplify_eq/=; congruence).
      unfold shown_at; simpl. unfold time_before in *. by replace (t <? expiresAt e)%Z with false by lia.
  - by rewrite map_lookup_filter_None_2 by (by left).
Qed.

Lemma sweepLocked_live now s t k : (now ≤ t)%Z → mem_live (sweepLocked now s) t k = mem_live s t k.
Proof.
  intros Hle. unfold sweepLocked. case_match; [done|]. by rewrite purgeLocked_live.
Qed.

#[export] Hint Rewrite purgeLocked_live sweepLocked_live using (done || lia) : vallet.

Lemma mem_live_insert s k e n t k' :
  mem_live (MkMemoryStore (<[k := e]> (entries s)) n) t k' =
  if decide (k' = k) then shown_at t (value e, expiresAt e) else mem_live s t k'.
Proof. unfold mem_live; simpl. case_decide; subst; by simplify_map_eq. Qed.

Lemma mem_live_delete s k n t k' :
  mem_live (MkMemoryStore (delete k (entries s)) n) t k' =
  if decide (k' = k) then None else mem_live s t k'.
Proof. unfold mem_live; simpl. case_decide; subst; by simplify_map_eq. Qed.

(** The entry an increment writes is the window of the abstraction. *)
Lemma mem_window s now k delta ttl :
  let e := current_entry now ttl (entries s !! k) in
  (wrap64 (value e + delta), expiresAt e) = window_after now delta ttl (mem_live s now k).
Proof.
  unfold mem_live, window_after, shown_at, current_entry.
  destruct (entries s !! k) as [e|]; simpl; [|done].
  by destruct (time_before now (expiresAt e)).
Qed.

Lemma mem_Increment_law ctx now k delta ttl s c s' :
  mem_Increment ctx now k delta ttl s = (Ok c, s') →
  let e := window_after now delta ttl (mem_live s now k) in
  (0 < delta)%Z ∧ (0 < ttl)%Z ∧
  c = MkCount (fst e) (time_sub (snd e) now) ∧
  (∀ t k', (now ≤ t)%Z →
     mem_live s' t k' = if decide (k' = k) then shown_at t e else mem_live s t k').
Proof.
  unfold mem_Increment. intros H. split_hyp H. rewrite <- mem_window. simpl. split_and!; try done.
  intros t k' Hle. by rewrite sweepLocked_live, mem_live_insert.
Qed.

Lemma mem_Get_law ctx now k s c s' :
  mem_Get ctx now k s = (Ok c, s') → c = count_at now (mem_live s now k) ∧ s' = s.
Proof.
  unfold mem_Get, mem_live, shown_at, count_at. intros H.
  destruct (entries s !! k) as [e|]; simpl in *; split_code.
Qed.

Lemma mem_Delete_law ctx now k s s' :
  mem_Delete ctx now k s = (Ok tt, s') →
  ∀ t k', (now ≤ t)%Z → mem_live s' t k' = if decide (k' = k) then None else mem_live s t k'.
Proof.
  unfold mem_Delete. intros H t k' Hle. split_hyp H. by rewrite sweepLocked_live, mem_live_delete.
Qed.

Lemma mem_live_fixed s t t' k : (t ≤ t')%Z →
  mem_live s t' k = (e ← mem_live s t k; shown_at t' e).
Proof.
  intros Hle. unfold mem_live.
  destruct (entries s !! k) as [e|]; simpl; [|done]. by rewrite shown_at_idem.
Qed.

#[export, refine] Instance MemoryStore_Laws : StoreLaws MemoryStore := { live := mem_live }.
Proof.
  - apply mem_live_fixed.
  - apply mem_Increment_law.
  - intros ctx now k s c s' H. by destruct (mem_Get_law _ _ _ _ _ _ H) as [-> ->].
  - apply mem_Delete_law.
Defined.

(** ** The sweep is unobservable

    A client drives the store with a sequence of calls, each with the clock
    reading it takes.  The reference store is the same interface over a plain
    map that is never swept: expired entries stay forever and only the expiry
    test hides them. *)

Inductive call :=
| CallIncrement (ctx : context) (key : gostring) (delta : Z) (ttl : duration)
| CallGet (ctx : context) (key : gostring)
| CallDelete (ctx : context) (key : gostring).

Definition run_call (now : time) (c : call) (s : MemoryStore) : result Count * MemoryStore :=
  match c with
  | CallIncrement ctx k d ttl => mem_Increment ctx now k d ttl s
  | CallGet ctx k => mem_Get ctx now k s
  | CallDelete ctx k => let '(r, s') := mem_Delete ctx now k s in ((λ _, zero_Count) <$> r, s')
  end.

(** Whether a call is refused before it reaches the map, and with what. *)
Definition call_refused (c : call) : option goerror :=
  let unavailable (ctx : context) :=
    match ctx with Some e => Some (errorf "counter" [ErrStoreUnavailable; e]) | None => None end in
  match c with
  | CallIncrement ctx k d ttl =>
      match validKey k with
      | Some e => Some e
      | None =>
        if (d <=? 0)%Z then Some (errorf "counter: delta must be positive" [ErrInvalidInput])
        else if (ttl <=? 0)%Z then Some (errorf "counter: ttl must be positive" [ErrInvalidInput])
        else unavailable ctx
      end
  | CallGet ctx k | CallDelete ctx k =>
      match validKey k with Some e => Some e | None => unavailable ctx end
  end.

(** The specification machine: windows by key, no sweep, no operation count. *)
Definition spec_live (m : gmap gostring (Z * time)) (t : time) (k : gostring) : option (Z * time) :=
  e ← m !! k; shown_at t e.

Definition spec_call (now : time) (c : call) (m : gmap gostring (Z * time))
    : result Count * gmap gostring (Z * time) :=
  match call_refused c with
  | Some e => (Err e, m)
  | None =>
    match c with
    | CallIncrement _ k d ttl =>
        let e := window_after now d ttl (spec_live m now k) in
        (Ok (MkCount (fst e) (time_sub (snd e) now)), <[k := e]> m)
    | CallGet _ k => (Ok (count_at now (spec_live m now k)), m)
    | CallDelete _ k => (Ok zero_Count, delete k m)
    end
  end.

Fixpoint run_calls {S} (step : time → call → S → result Count * S) (cs : list (time * call)) (s : S)
    : list (result Count) * S :=
  match cs with
  | [] => ([], s)
  | (t, c) :: cs => let '(r, s) := step t c s in
                    let '(rs, s) := run_calls step cs s in (r :: rs, s)
  end.

(** The clock does not run backwards between calls. *)
Fixpoint clock_from (t0 : time) (cs : list (time * call)) : Prop :=
  match cs with
  | [] => True
  | (t, _) :: cs => (t0 ≤ t)%Z ∧ clock_from t cs
  end.

Definition agree_from (t0 : time) (s : MemoryStore) (m : gmap gostring (Z * time)) : Prop :=
  ∀ t k, (t0 ≤ t)%Z → mem_live s t k = spec_live m t k.

Lemma run_call_refused now c s e : call_refused c = Some e → run_call now c s = (Err e, s).
Proof.
  destruct c; simpl; unfold mem_Increment, mem_Get, mem_Delete; intros H; split_code.
Qed.

Lemma spec_live_insert m k e t k' :
  spec_live (<[k := e]> m) t k' = if decide (k' = k) then shown_at t e else spec_live m t k'.
Proof. unfold spec_live. case_decide; subst; by simplify_map_eq. Qed.

Lemma spec_live_delete m k t k' :
  spec_live (delete k m) t k' = if decide (k' = k) then None else spec_live m t k'.
Proof. unfold spec_live. case_decide; subst; by simplify_map_eq. Qed.

Lemma run_call_accepted now c s : call_refused c = None → ∃ v s', run_call now c s = (Ok v, s').
Proof.
  destruct c; simpl; unfold mem_Increment, mem_Get, mem_Delete; intros H; split_code; eauto.
Qed.

Lemma run_call_spec t0 now c s m : (t0 ≤ now)%Z → agree_from t0 s m →
  ∃ r s' m', run_call now c s = (r, s') ∧ spec_call now c m = (r, m') ∧ agree_from now s' m'.
Proof.
  intros Hle Hag. destruct (call_refused c) as [e|] eqn:Hr.
  { unfold spec_call. rewrite (run_call_refused _ _ _ e Hr), Hr. eexists _, _, _.
    split_and!; [done..|]. intros t k ?. apply Hag. lia. }
  destruct (run_call_accepted now c s Hr) as (v & s' & Hrun). unfold spec_call. rewrite Hr, Hrun.
  destruct c as [ctx k d ttl|ctx k|ctx k]; simpl in Hrun.
  - apply mem_Increment_law in Hrun as (_ & _ & -> & Hlive).
    rewrite <- (Hag now k Hle). eexists _, _, _. split_and!; [done..|].
    intros t k' Ht. rewrite Hlive, spec_live_insert by done. case_decide; [done|].
    apply Hag. lia.
  - apply mem_Get_law in Hrun as (-> & ->).
    rewrite <- (Hag now k Hle). eexists _, _, _. split_and!; [done..|].
    intros t k' Ht. apply Hag. lia.
  - destruct (mem_Delete ctx now k s) as [[[]|?] s1] eqn:Hd; simplify_eq/=.
    pose proof (mem_Delete_law _ _ _ _ _ Hd) as Hlive.
    eexists _, _, _. split_and!; [done..|].
    intros t k' Ht. rewrite Hlive, spec_live_delete by done. case_decide; [done|]. apply Hag. lia.
Qed.

Lemma run_calls_agree cs t0 s m : agree_from t0 s m → clock_from t0 cs →
  fst (run_calls run_call cs s) = fst (run_calls spec_call cs m).
Proof.
  revert t0 s m. induction cs as [|[t c] cs IH]; intros t0 s m Hag Hclk; simpl in *; [done|].
  destruct Hclk as [Hle Hclk].
  destruct (run_call_spec t0 t c s m Hle Hag) as (r & s' & m' & -> & -> & Hag').
  specialize (IH t s' m' Hag' Hclk).
  destruct (run_calls run_call cs s') as [rs s1], (run_calls spec_call cs m') as [rs' m1].
  simpl in *. by subst.
Qed.

(** ** Memory held by the store *)

(** The entries of the store that have expired by [now] but are still resident. *)
Definition expired_resident (now : time) (s : MemoryStore) : nat :=
  size (filter (λ ke, time_before now (expiresAt (snd ke)) = false) (entries s)).

Definition all_live (now : time) (s : MemoryStore) : Prop :=
  ∀ k e, entries s !! k = Some e → (now < expiresAt e)%Z.

Lemma purgeLocked_all_live now s : all_live now (purgeLocked now s).
Proof.
  intros k e H. unfold purgeLocked in H; simpl in H.
  apply map_lookup_filter_Some in H as [_ H]. unfold time_before in H; simpl in H. lia.
Qed.

(** A sweep point either leaves only entries live at its instant and the
    operation count at zero, or counts the operation. *)
Lemma sweepLocked_growth now m s : (0 ≤ ops s < sweepInterval)%Z → (size m ≤ S (size (entries s)))%nat →
  let s' := sweepLocked now (MkMemoryStore m (ops s)) in
  (all_live now s' ∧ ops s' = 0%Z) ∨
  ((0 ≤ ops s' < sweepInterval)%Z ∧ (Z.of_nat (Len s') - ops s' ≤ Z.of_nat (Len s) - ops s)%Z).
Proof.
  intros Hops Hm. unfold sweepLocked; simpl. case_match; reflect_bools.
  - right. unfold Len; simpl. lia.
  - left. split; [apply purgeLocked_all_live|done].
Qed.

(** So one call sweeps, or adds at most one entry per operation it counts. *)
Lemma run_call_growth now c s r s' : (0 ≤ ops s < sweepInterval)%Z → run_call now c s = (r, s') →
  (all_live now s' ∧ ops s' = 0%Z) ∨
  ((0 ≤ ops s' < sweepInterval)%Z ∧ (Z.of_nat (Len s') - ops s' ≤ Z.of_nat (Len s) - ops s)%Z).
Proof.
  intros Hops Hrun.
  destruct c; simpl in Hrun; unfold mem_Increment, mem_Get, mem_Delete in Hrun; split_code;
    try (right; split; [done|lia]); apply sweepLocked_growth; try done.
  - rewrite map_size_insert. case_match; simpl; lia.
  - rewrite map_size_delete. case_match; simpl; lia.
Qed.

Lemma run_calls_app {S} (step : time → call → S → result Count * S) cs1 cs2 s :
  snd (run_calls step (cs1 ++ cs2) s) = snd (run_calls step cs2 (snd (run_calls step cs1 s))).
Proof.
  revert s. induction cs1 as [|[t c] cs1 IH]; intros s; simpl; [done|].
  destruct (step t c s) as [r s']. specialize (IH s').
  destruct (run_calls step (cs1 ++ cs2) s'), (run_calls step cs1 s'). done.
Qed.

Lemma run_calls_snoc {S} (step : time → call → S → result Count * S) cs t c s :
  snd (run_calls step (cs ++ [(t, c)]) s) = snd (step t c (snd (run_calls step cs s))).
Proof. rewrite run_calls_app. simpl. by destruct (step t c _). Qed.

(** The instant of the last call of a run. *)
Definition last_time (t0 : time) (cs : list (time * call)) : time :=
  match list.last cs with Some (t, _) => t | None => t0 end.

(** ** Claims *)

(** C27. The amortised sweep of [MemoryStore] is unobservable: for every sequence
    of [Increment], [Get] and [Delete] calls whose clock readings never run
    backwards, every call answers exactly what it answers on the specification
    machine, a map of fixed windows that is never swept -- the value after the
    addition, the time left in a window whose expiry no later increment moves,
    and the same error for every refused call. *)
Theorem MemoryStore_refines_windows (cs : list (time * call)) (t0 : time) :
  clock_from t0 cs →
  fst (run_calls run_call cs (MkMemoryStore ∅ 0)) = fst (run_calls spec_call cs ∅).
Proof.
  intros Hclk. apply (run_calls_agree cs t0); [|done].
  intros t k _. unfold mem_live, spec_live; simpl. by rewrite !lookup_empty.
Qed.

Definition sample_calls : list (time * call) :=
  [(0, CallIncrement None (go "a") 1 10); (3, CallIncrement None (go "a") 2 10);
   (5, CallGet None (go "a")); (10, CallGet None (go "a")); (11, CallIncrement None (go "a") 1 10);
   (12, CallDelete None (go "a")); (12, CallGet None (go "a")); (13, CallIncrement None [] 1 10)]%Z.

Lemma MemoryStore_refines_windows_witness :
  clock_from 0 sample_calls ∧
  fst (run_calls run_call sample_calls (MkMemoryStore ∅ 0)) =
    [Ok (MkCount 1 10); Ok (MkCount 3 7); Ok (MkCount 3 5); Ok zero_Count; Ok (MkCount 1 10);
     Ok zero_Count; Ok zero_Count; Err (errorf "counter: empty key" [ErrInvalidKey; ErrInvalidInput])].
Proof.
  assert (clock_from 0 sample_calls) as Hclk by (simpl; lia). split; [done|].
  rewrite (MemoryStore_refines_windows sample_calls 0 Hclk). vm_compute. reflexivity.
Defined.

(** What the store keeps in memory is bounded by what was live at its last
    sweep: after any sequence of calls there is an earlier point of the sequence
    -- its start, or a sweep, after which every resident entry was live -- such
    that the store has grown since by at most the number of operations counted
    since, which is below [sweepInterval]. *)
Theorem resident_entries_bounded (cs : list (time * call)) (t0 : time) :
  let s := snd (run_calls run_call cs (MkMemoryStore ∅ 0)) in
  ∃ cs1 cs2, cs = cs1 ++ cs2 ∧
    let s1 := snd (run_calls run_call cs1 (MkMemoryStore ∅ 0)) in
    all_live (last_time t0 cs1) s1 ∧
    (0 ≤ ops s < sweepInterval)%Z ∧ (Z.of_nat (Len s) ≤ Z.of_nat (Len s1) + ops s)%Z.
Proof.
  simpl. induction cs as [|[t c] cs IH] using rev_ind.
  { exists [], []. simpl. by split_and!. }
  destruct IH as (cs1 & cs2 & -> & Hl & Hops & Hlen). rewrite run_calls_snoc.
  set (s := snd (run_calls run_call (cs1 ++ cs2) _)) in *.
  destruct (run_call t c s) as [r s'] eqn:Hrun; simpl.
  destruct (run_call_growth _ _ _ _ _ Hops Hrun) as [[Hall H0]|[Hr Hg]].
  - exists ((cs1 ++ cs2) ++ [(t, c)]), []. rewrite app_nil_r, run_calls_snoc.
    fold s. rewrite Hrun. unfold last_time. rewrite last_snoc. simpl. rewrite H0.
    unfold sweepInterval. split_and!; try done; lia.
  - exists cs1, (cs2 ++ [(t, c)]). rewrite app_assoc. split_and!; try done; lia.
Qed.

(** The number of expired entries still resident is NOT bounded by
    [sweepInterval] (the comment on the constant says it is): 300 keys created in
    one window and then left alone are all resident and expired once the window
    closes, since the sweeps run while they were live removed nothing. *)
Theorem expired_resident_exceeds_sweepInterval :
  let cs := (λ i, (0%Z, CallIncrement None [ascii_of_nat (i / 256); ascii_of_nat (i mod 256)] 1 10)) <$> seq 0 300 in
  let s := snd (run_calls run_call cs (MkMemoryStore ∅ 0)) in
  expired_resident 10 s = 300 ∧ (sweepInterval < Z.of_nat (expired_resident 10 s))%Z.
Proof. vm_compute. split; reflexivity. Qed.
