(* ===== verification/RateLimit.v ===== *)
(** * Rate limiting (internal/ratelimit)

    The request limiter (a fixed-window count per key) and the authentication
    limiter (a failure count with an escalating lockout), both clients of the
    counter port: they are modelled and their theorems are proved against the
    [Store] interface and its laws, never against one implementation.  Every
    store call of an operation takes its own clock reading. *)

From stdpp Require Import pretty.
From S2P Require Import Prelude DomainErrors Counter.

(** [strconv.FormatInt(n, 10)]. *)
Definition FormatInt (n : Z) : gostring := go (pretty n).

(** ** Configuration *)

(** src/internal/ratelimit/ratelimit.go:38-67, Tier *)
Record Tier := MkTier {
  Tier_Limit : Z;            (* int64 *)
  Tier_Window : duration;
  Tier_FailOpen : bool;
}.

(** src/internal/ratelimit/ratelimit.go:69-78, Tier.validate *)
Definition Tier_validate (t : Tier) : option goerror :=
  if (Tier_Limit t <=? 0)%Z then Some (errorf "ratelimit: limit must be positive" [ErrInvalidInput])
  else if (Tier_Window t <=? 0)%Z then Some (errorf "ratelimit: window must be positive" [ErrInvalidInput])
  else None.

(** src/internal/ratelimit/ratelimit.go:80-96, Decision *)
Record Decision := MkDecision {
  Allowed : bool;
  RetryAfter : duration;
  Decision_Count : Z;        (* int64 *)
  Decision_Limit : Z;        (* int64 *)
}.

(** src/internal/ratelimit/ratelimit.go:98-113, Decision.RetryAfterSeconds *)
Definition RetryAfterSeconds (d : Decision) : Z :=
  if (RetryAfter d <=? 0)%Z then 1
  else Z.quot (wrap64 (wrap64 (RetryAfter d + Second) - 1)) Second.

(** src/internal/ratelimit/backoff.go:44-61, AuthTier *)
Record AuthTier := MkAuthTier {
  Auth_Limit : Z;            (* int64 *)
  Auth_Window : duration;
  Auth_Horizon : duration;
  Auth_Cap : duration;
}.

(** src/internal/ratelimit/backoff.go:63-87, AuthTier.validate *)
Definition AuthTier_validate (t : AuthTier) : option goerror :=
  if (Auth_Limit t <=? 0)%Z then Some (errorf "ratelimit: auth limit must be positive" [ErrInvalidInput])
  else if (Auth_Window t <=? 0)%Z then Some (errorf "ratelimit: auth window must be positive" [ErrInvalidInput])
  else if (Auth_Horizon t <=? 0)%Z then Some (errorf "ratelimit: auth horizon must be positive" [ErrInvalidInput])
  else if (Auth_Cap t <=? 0)%Z then Some (errorf "ratelimit: auth cap must be positive" [ErrInvalidInput])
  else if (Auth_Horizon t <=? Auth_Cap t)%Z
  then Some (errorf "ratelimit: auth horizon must exceed cap, else backoff resets by waiting" [ErrInvalidInput])
  else None.

(** src/internal/ratelimit/backoff.go:89-94, maxShift *)
Definition maxShift : Z := 62.

(** src/internal/ratelimit/backoff.go:96-113, AuthTier.lockout *)
Definition lockout (t : AuthTier) (n : Z) : duration :=
  if (n <=? Auth_Limit t)%Z then 0
  else
    let shift := wrap64 (wrap64 (n - Auth_Limit t) - 1) in
    if (maxShift <? shift)%Z then Auth_Cap t
    else
      let d := shl64 (Auth_Window t) shift in
      if ((d <=? 0) || (Auth_Cap t <? d))%Z then Auth_Cap t
      else d.

(** src/internal/ratelimit/defaults.go:15-35, Tiers *)
Record Tiers := MkTiers {
  Auth : AuthTier;
  Publish : Tier;
  Management : Tier;
  Admin : Tier;
}.

(** src/internal/ratelimit/defaults.go:37-97, DefaultTiers *)
Definition DefaultTiers : Tiers := MkTiers
  (MkAuthTier 5 Minute (24 * Hour) Hour)
  (MkTier 60 Minute true)
  (MkTier 120 Minute false)
  (MkTier 60 Minute false).

(** src/internal/ratelimit/defaults.go:99-111, Tiers.Validate *)
Definition Tiers_Validate (t : Tiers) : option goerror :=
  match AuthTier_validate (Auth t) with
  | Some err => Some err
  | None =>
  match Tier_validate (Publish t) with
  | Some err => Some err
  | None =>
  match Tier_validate (Management t) with
  | Some err => Some err
  | None => Tier_validate (Admin t)
  end end end.

(** src/internal/ratelimit/ratelimit.go:115-121, Limiter *)
Record Limiter := MkLimiter { Limiter_tier : Tier; Limiter_name : gostring }.

(** src/internal/ratelimit/ratelimit.go:123-141, NewLimiter
    (the store is the state the operations run on; [store] is whether the caller
    supplied one) *)
Definition NewLimiter (store : option unit) (name : gostring) (tier : Tier) : result Limiter :=
  match store with
  | None => Err (errorf "ratelimit: nil counter store" [ErrInvalidInput])
  | Some _ =>
    if bool_decide (name = []) then Err (errorf "ratelimit: empty tier name" [ErrInvalidInput])
    else match Tier_validate tier with
         | Some err => Err err
         | None => Ok (MkLimiter tier name)
         end
  end.

(** src/internal/ratelimit/ratelimit.go:208-209, Limiter.key *)
Definition Limiter_key (l : Limiter) (k : gostring) : gostring :=
  go "rl:" ++ Limiter_name l ++ go ":" ++ k.

(** src/internal/ratelimit/ratelimit.go:195-206, Limiter.storeFailure *)
Definition storeFailure (l : Limiter) (err : goerror) : Decision :=
  if Tier_FailOpen (Limiter_tier l) then MkDecision true 0 0 (Tier_Limit (Limiter_tier l))
  else MkDecision false (Tier_Window (Limiter_tier l)) 0 (Tier_Limit (Limiter_tier l)).

(** src/internal/ratelimit/ratelimit.go:211-214, Unavailable *)
Definition Unavailable (err : goerror) : bool := errors_is err ErrStoreUnavailable.

(** src/internal/ratelimit/backoff.go:115-131, AuthLimiter *)
Record AuthLimiter := MkAuthLimiter { AuthLimiter_tier : AuthTier; AuthLimiter_name : gostring }.

(** src/internal/ratelimit/backoff.go:133-146, NewAuthLimiter *)
Definition NewAuthLimiter (store : option unit) (name : gostring) (tier : AuthTier) : result AuthLimiter :=
  match store with
  | None => Err (errorf "ratelimit: nil counter store" [ErrInvalidInput])
  | Some _ =>
    if bool_decide (name = []) then Err (errorf "ratelimit: empty tier name" [ErrInvalidInput])
    else match AuthTier_validate tier with
         | Some err => Err err
         | None => Ok (MkAuthLimiter tier name)
         end
  end.

(** src/internal/ratelimit/backoff.go:268-269, AuthLimiter.failKey *)
Definition failKey (a : AuthLimiter) (k : gostring) : gostring :=
  go "rl:" ++ AuthLimiter_name a ++ go ":f:" ++ k.

(** src/internal/ratelimit/backoff.go:271-273, AuthLimiter.lockKey *)
Definition lockKey (a : AuthLimiter) (k : gostring) (level : Z) : gostring :=
  go "rl:" ++ AuthLimiter_name a ++ go ":l" ++ FormatInt level ++ go ":" ++ k.

Section with_store.
Context {S : Type} `{!Store S}.

(** src/internal/ratelimit/ratelimit.go:146-184, Limiter.Allow *)
Definition Allow (l : Limiter) (ctx : context) (now : time) (key : gostring) (s : S)
    : (Decision * option goerror) * S :=
  let tier := Limiter_tier l in
  if bool_decide (key = []) then
    (MkDecision false (Tier_Window tier) 0 (Tier_Limit tier),
     Some (errorf "ratelimit: empty key for tier" [ErrInvalidInput]), s)
  else
    match Increment ctx now (Limiter_key l key) 1 (Tier_Window tier) s with
    | (Err err, s) => (storeFailure l err, Some err, s)
    | (Ok count, s) =>
      if (Tier_Limit tier <? Value count)%Z
      then (MkDecision false (TTL count) (Value count) (Tier_Limit tier), None, s)
      else (MkDecision true 0 (Value count) (Tier_Limit tier), None, s)
    end.

(** src/internal/ratelimit/ratelimit.go:186-193, Limiter.Reset *)
Definition Reset (l : Limiter) (ctx : context) (now : time) (key : gostring) (s : S) : option goerror * S :=
  if bool_decide (key = []) then (Some (errorf "ratelimit: empty key for tier" [ErrInvalidInput]), s)
  else match Delete ctx now (Limiter_key l key) s with
       | (Err err, s) => (Some err, s)
       | (Ok _, s) => (None, s)
       end.

(** src/internal/ratelimit/backoff.go:151-212, AuthLimiter.Check *)
Definition Check (a : AuthLimiter) (ctx : context) (now1 now2 : time) (key : gostring) (s : S)
    : (Decision * option goerror) * S :=
  let tier := AuthLimiter_tier a in
  let refused := MkDecision false (Auth_Window tier) 0 (Auth_Limit tier) in
  if bool_decide (key = []) then
    (refused, Some (errorf "ratelimit: empty key for tier" [ErrInvalidInput]), s)
  else
    match Get ctx now1 (failKey a key) s with
    | (Err err, s) => (refused, Some err, s)
    | (Ok failures, s) =>
      if (Value failures <=? Auth_Limit tier)%Z
      then (MkDecision true 0 (Value failures) (Auth_Limit tier), None, s)
      else
        match Get ctx now2 (lockKey a key (Value failures)) s with
        | (Err err, s) => (refused, Some err, s)
        | (Ok lock, s) =>
          if (Value lock =? 0)%Z
          then (MkDecision true 0 (Value failures) (Auth_Limit tier), None, s)
          else (MkDecision false (TTL lock) (Value failures) (Auth_Limit tier), None, s)
        end
    end.

(** src/internal/ratelimit/backoff.go:214-252, AuthLimiter.RecordFailure *)
Definition RecordFailure (a : AuthLimiter) (ctx : context) (now1 now2 : time) (key : gostring) (s : S)
    : (Decision * option goerror) * S :=
  let tier := AuthLimiter_tier a in
  let refused := MkDecision false (Auth_Window tier) 0 (Auth_Limit tier) in
  if bool_decide (key = []) then
    (refused, Some (errorf "ratelimit: empty key for tier" [ErrInvalidInput]), s)
  else
    match Increment ctx now1 (failKey a key) 1 (Auth_Horizon tier) s with
    | (Err err, s) => (refused, Some err, s)
    | (Ok failures, s) =>
      let d := lockout tier (Value failures) in
      if (d =? 0)%Z
      then (MkDecision true 0 (Value failures) (Auth_Limit tier), None, s)
      else
        match Increment ctx now2 (lockKey a key (Value failures)) 1 d s with
        | (Err err, s) => (MkDecision false d 0 (Auth_Limit tier), Some err, s)
        | (Ok lock, s) => (MkDecision false (TTL lock) (Value failures) (Auth_Limit tier), None, s)
        end
    end.

(** src/internal/ratelimit/backoff.go:254-266, AuthLimiter.RecordSuccess *)
Definition RecordSuccess (a : AuthLimiter) (ctx : context) (now : time) (key : gostring) (s : S)
    : option goerror * S :=
  if bool_decide (key = []) then (Some (errorf "ratelimit: empty key for tier" [ErrInvalidInput]), s)
  else match Delete ctx now (failKey a key) s with
       | (Err err, s) => (Some err, s)
       | (Ok _, s) => (None, s)
       end.

End with_store.

(** ** Lemmas: the lockout curve *)

Lemma shl64_exact x n : (0 ≤ x)%Z → (0 ≤ n < 64)%Z → (x * 2 ^ n ≤ int64_max)%Z →
  shl64 x n = (x * 2 ^ n)%Z.
Proof.
  intros Hx Hn Hle. unfold shl64.
  replace ((n <? 0) || (64 <=? n))%Z with false by lia.
  rewrite Z.shiftl_mul_pow2 by lia. apply wrap64_id.
  unfold int64_range, int64_min in *. nia.
Qed.

(** The exponent of the curve, with no wrap-around for [int64] arguments. *)
Lemma lockout_shift n l : (0 < l < n)%Z → (n ≤ int64_max)%Z →
  wrap64 (wrap64 (n - l) - 1) = (n - l - 1)%Z.
Proof.
  intros Hl Hn. unfold int64_max in Hn.
  rewrite (wrap64_id (n - l)), wrap64_id; unfold int64_range, int64_min, int64_max; lia.
Qed.

Lemma AuthTier_validate_None t : AuthTier_validate t = None →
  (0 < Auth_Limit t)%Z ∧ (0 < Auth_Window t)%Z ∧ (0 < Auth_Cap t < Auth_Horizon t)%Z.
Proof. unfold AuthTier_validate. intros H. split_hyp H; lia. Qed.

Lemma lockout_bounds t n : AuthTier_validate t = None → (n ≤ int64_max)%Z →
  (lockout t n = 0 ∧ n ≤ Auth_Limit t ∨ 0 < lockout t n ≤ Auth_Cap t ∧ Auth_Limit t < n)%Z.
Proof.
  intros Hv Hn. destruct (AuthTier_validate_None t Hv) as (? & ? & ?). unfold lockout.
  repeat case_match; reflect_bools; lia.
Qed.

Lemma lockout_formula t n : AuthTier_validate t = None → (Auth_Limit t < n ≤ int64_max)%Z →
  (Auth_Cap t ≤ int64_max)%Z →
  (Auth_Window t * 2 ^ (n - Auth_Limit t - 1) ≤ int64_max ∨ maxShift < n - Auth_Limit t - 1)%Z →
  lockout t n = Z.min (Auth_Cap t) (Auth_Window t * 2 ^ (n - Auth_Limit t - 1)).
Proof.
  intros Hv Hn Hcap Hexp. destruct (AuthTier_validate_None t Hv) as (? & HW & ?). unfold lockout.
  replace (n <=? Auth_Limit t)%Z with false by lia. rewrite lockout_shift by lia.
  set (k := (n - Auth_Limit t - 1)%Z) in *.
  assert (0 < 2 ^ k)%Z as Hpow by (apply Z.pow_pos_nonneg; lia).
  destruct (maxShift <? k)%Z eqn:Hk; reflect_bools; unfold maxShift in *.
  - assert (2 ^ 63 ≤ 2 ^ k)%Z by (apply Z.pow_le_mono_r; lia). unfold int64_max in *. nia.
  - destruct Hexp as [Hexp|]; [|lia]. rewrite shl64_exact by lia.
    destruct ((_ <=? 0) || _)%Z eqn:Hd; [apply orb_true_iff in Hd as [?|?]|]; reflect_bools; nia.
Qed.

(** ** Lemmas: key spaces *)

Lemma Limiter_key_inj l k k' : Limiter_key l k = Limiter_key l k' → k = k'.
Proof. unfold Limiter_key. intros H. by simplify_list_eq. Qed.

Lemma failKey_lockKey a k k' n : failKey a k ≠ lockKey a k' n.
Proof. unfold failKey, lockKey. intros H. simplify_list_eq. Qed.

(** ** Runs of the request limiter *)

Section request_runs.
Context {S : Type} `{HS : !Store S, !StoreLaws S}.

Fixpoint allow_run (l : Limiter) (cs : list (time * gostring)) (s : S)
    : list (gostring * (Decision * option goerror)) * S :=
  match cs with
  | [] => ([], s)
  | (t, k) :: cs =>
      let '(r, s) := Allow l None t k s in
      let '(rs, s) := allow_run l cs s in ((k, r) :: rs, s)
  end.

(** The requests of [k] the run let through, and whether the store answered
    every request. *)
Definition allowed_for (k : gostring) (rs : list (gostring * (Decision * option goerror))) : Z :=
  Z.of_nat (length (filter (λ r, fst r = k ∧ Allowed (fst (snd r)) = true) rs)).
Definition answered (rs : list (gostring * (Decision * option goerror))) : Prop :=
  Forall (λ r, snd (snd r) = None) rs.

(** Requests at non-decreasing instants of the interval from [a] up to [b]. *)
Fixpoint requests_in (a b : time) (cs : list (time * gostring)) : Prop :=
  match cs with
  | [] => True
  | (t, _) :: cs => (a ≤ t < b)%Z ∧ requests_in t b cs
  end.

Lemma Allow_answered l t k s d s' : Allow l None t k s = ((d, None), s') →
  let e := window_after t 1 (Tier_Window (Limiter_tier l)) (live s t (Limiter_key l k)) in
  Allowed d = (fst e <=? Tier_Limit (Limiter_tier l))%Z ∧
  ∀ t' k', (t ≤ t')%Z →
    live s' t' (Limiter_key l k') =
      if decide (k' = k) then shown_at t' e else live s t' (Limiter_key l k').
Proof.
  unfold Allow. case_bool_decide; [done|].
  destruct (Increment _ _ _ _ _ _) as [[c|e] s1] eqn:Hi; [|done].
  apply Increment_law in Hi as (_ & _ & -> & Hlive). cbn zeta in *. intros Hd.
  assert (s1 = s') as ->.
  { destruct (_ <? _)%Z in Hd; by simplify_eq. }
  split.
  - cbn [Value] in Hd. destruct (_ <? _)%Z eqn:Hlt in Hd; simplify_eq; simpl; lia.
  - intros t' k' Hle. rewrite Hlive by done.
    repeat case_decide; subst; try done; by apply Limiter_key_inj in H0.
Qed.

Lemma allowed_for_cons k k0 r rs :
  allowed_for k ((k0, r) :: rs) =
    ((if decide (k = k0) then if Allowed (fst r) then 1 else 0 else 0) + allowed_for k rs)%Z.
Proof.
  unfold allowed_for. rewrite filter_cons. simpl.
  destruct (decide (k = k0)), (Allowed (fst r)) eqn:Ha; case_decide; simpl in *; try lia.
  - by destruct H.
  - by destruct H as [-> _].
Qed.

(** A request splits its run into its own answer and the rest. *)
Lemma allow_run_cons l t k0 cs s rs s' : allow_run l ((t, k0) :: cs) s = (rs, s') → answered rs →
  ∃ d s1 rs1, Allow l None t k0 s = ((d, None), s1) ∧ allow_run l cs s1 = (rs1, s') ∧
    answered rs1 ∧ rs = (k0, (d, None)) :: rs1.
Proof.
  simpl. destruct (Allow l None t k0 s) as [[d err] s1]. destruct (allow_run l cs s1) as [rs1 s2] eqn:Hr.
  intros [= <- <-] Ha. unfold answered in *. rewrite Forall_cons in Ha. destruct Ha as [Hn Ha].
  simpl in Hn. subst. eauto 10.
Qed.

(** While one window of [k] stays open, what is left of the limit is all that
    gets through. *)
Lemma open_window_bound l k cs s a x v rs s' :
  requests_in a x cs → live s a (Limiter_key l k) = Some (v, x) →
  (0 ≤ v)%Z → (v + Z.of_nat (length cs) ≤ int64_max)%Z →
  allow_run l cs s = (rs, s') → answered rs →
  (allowed_for k rs ≤ Z.max 0 (Tier_Limit (Limiter_tier l) - v))%Z.
Proof.
  revert s a v rs s'. induction cs as [|[t k0] cs IH]; intros s a v rs s' Hin Hlive Hv Hmax Hrun Hans.
  { simpl in Hrun. simplify_eq. unfold allowed_for; simpl. lia. }
  destruct Hin as [Ht Hin].
  destruct (allow_run_cons _ _ _ _ _ _ _ Hrun Hans) as (d & s1 & rs1 & Ha & Hrun1 & Hans1 & ->).
  assert (live s t (Limiter_key l k) = Some (v, x)) as Hlt.
  { rewrite (live_fixed s a t) by lia. rewrite Hlive. simpl. unfold shown_at, time_before; simpl.
    by replace (t <? x)%Z with true by lia. }
  apply Allow_answered in Ha as [Hd Hl1]. rewrite allowed_for_cons. simpl length in Hmax.
  specialize (Hl1 t k (Z.le_refl t)). destruct (decide (k = k0)) as [<-|Hne].
  - rewrite Hlt in Hd, Hl1. cbn [window_after fst snd] in Hd, Hl1.
    rewrite wrap64_id in Hd, Hl1 by (unfold int64_range, int64_min, int64_max in *; lia).
    unfold shown_at, time_before in Hl1; simpl in Hl1. replace (t <? x)%Z with true in Hl1 by lia.
    specialize (IH s1 t (v + 1)%Z rs1 s' Hin Hl1 ltac:(lia) ltac:(lia) Hrun1 Hans1). simpl.
    rewrite Hd. case_match; reflect_bools; lia.
  - rewrite Hlt in Hl1.
    specialize (IH s1 t v rs1 s' Hin Hl1 Hv ltac:(lia) Hrun1 Hans1). lia.
Qed.

Lemma requests_in_weaken a b b' cs : (b ≤ b')%Z → requests_in a b cs → requests_in a b' cs.
Proof. revert a. induction cs as [|[t k] cs IH]; simpl; intros a ?; [done|]. intros [??]. eauto with lia. Qed.

Lemma requests_in_start a a' b cs : (a' ≤ a)%Z → requests_in a b cs → requests_in a' b cs.
Proof. destruct cs as [|[t k] cs]; simpl; [done|]. intros ? [??]. eauto with lia. Qed.

(** From a point where [k] has no open window, one limit's worth gets through
    within the next window length. *)
Lemma fresh_window_bound l k cs s a b rs s' :
  (0 < Tier_Limit (Limiter_tier l))%Z → (b ≤ a + Tier_Window (Limiter_tier l))%Z →
  requests_in a b cs → live s a (Limiter_key l k) = None →
  (Z.of_nat (length cs) ≤ int64_max)%Z →
  allow_run l cs s = (rs, s') → answered rs →
  (allowed_for k rs ≤ Tier_Limit (Limiter_tier l))%Z.
Proof.
  intros HL. revert s a rs s'. induction cs as [|[t k0] cs IH]; intros s a rs s' Hb Hin Hlive Hmax Hrun Hans.
  { simpl in Hrun. simplify_eq. unfold allowed_for; simpl. lia. }
  destruct Hin as [Ht Hin].
  destruct (allow_run_cons _ _ _ _ _ _ _ Hrun Hans) as (d & s1 & rs1 & Ha & Hrun1 & Hans1 & ->).
  assert (live s t (Limiter_key l k) = None) as Hlt.
  { rewrite (live_fixed s a t) by lia. by rewrite Hlive. }
  apply Allow_answered in Ha as [Hd Hl1]. rewrite allowed_for_cons. simpl length in Hmax.
  specialize (Hl1 t k (Z.le_refl t)). destruct (decide (k = k0)) as [<-|Hne].
  - rewrite Hlt in Hd, Hl1. cbn [window_after fst snd] in Hd, Hl1.
    rewrite wrap64_id in Hd, Hl1 by (unfold int64_range, int64_min, int64_max in *; lia).
    unfold shown_at, time_before, time_add in Hl1; simpl in Hl1.
    destruct (t <? t + Tier_Window (Limiter_tier l))%Z eqn:Hw; reflect_bools; [|lia].
    pose proof (open_window_bound l k cs s1 t (t + Tier_Window (Limiter_tier l)) 1 rs1 s'
      (requests_in_weaken t b (t + Tier_Window (Limiter_tier l)) cs ltac:(lia) Hin) Hl1 ltac:(lia) ltac:(lia) Hrun1 Hans1).
    simpl. case_match; lia.
  - rewrite Hlt in Hl1.
    specialize (IH s1 t rs1 s' ltac:(lia) Hin Hl1 ltac:(lia) Hrun1 Hans1). lia.
Qed.

(** In general an interval of one window length meets at most two windows. *)
Lemma any_window_bound l k cs s a b v x rs s' :
  (0 < Tier_Limit (Limiter_tier l))%Z → (b ≤ a + Tier_Window (Limiter_tier l))%Z →
  requests_in a b cs → live s a (Limiter_key l k) = Some (v, x) →
  (0 ≤ v)%Z → (v + Z.of_nat (length cs) ≤ int64_max)%Z →
  allow_run l cs s = (rs, s') → answered rs →
  (allowed_for k rs ≤ Z.max 0 (Tier_Limit (Limiter_tier l) - v) + Tier_Limit (Limiter_tier l))%Z.
Proof.
  intros HL. revert s a v rs s'. induction cs as [|[t k0] cs IH];
    intros s a v rs s' Hb Hin Hlive Hv Hmax Hrun Hans.
  { simpl in Hrun. simplify_eq. unfold allowed_for; simpl. lia. }
  pose proof Hin as [Ht Hin1].
  assert (live s t (Limiter_key l k) = shown_at t (v, x)) as Hlt.
  { rewrite (live_fixed s a t) by lia. by rewrite Hlive. }
  destruct (t <? x)%Z eqn:Hx; reflect_bools.
  2: { (* the window has closed: from here on a fresh one bounds the rest *)
    assert (live s t (Limiter_key l k) = None) as Hn.
    { rewrite Hlt. unfold shown_at, time_before; simpl. by replace (t <? x)%Z with false by lia. }
    assert (requests_in t b ((t, k0) :: cs)) as Hin' by (split; [lia|done]).
    pose proof (fresh_window_bound l k ((t, k0) :: cs) s t b rs s' HL ltac:(lia)
      Hin' Hn ltac:(lia) Hrun Hans). lia. }
  unfold shown_at, time_before in Hlt; simpl in Hlt. replace (t <? x)%Z with true in Hlt by lia.
  destruct (allow_run_cons _ _ _ _ _ _ _ Hrun Hans) as (d & s1 & rs1 & Ha & Hrun1 & Hans1 & ->).
  apply Allow_answered in Ha as [Hd Hl1]. rewrite allowed_for_cons. simpl length in Hmax.
  specialize (Hl1 t k (Z.le_refl t)). destruct (decide (k = k0)) as [<-|Hne].
  - rewrite Hlt in Hd, Hl1. cbn [window_after fst snd] in Hd, Hl1.
    rewrite wrap64_id in Hd, Hl1 by (unfold int64_range, int64_min, int64_max in *; lia).
    unfold shown_at, time_before in Hl1; simpl in Hl1. replace (t <? x)%Z with true in Hl1 by lia.
    specialize (IH s1 t (v + 1)%Z rs1 s' ltac:(lia) Hin1 Hl1 ltac:(lia) ltac:(lia) Hrun1 Hans1).
    simpl. rewrite Hd. case_match; reflect_bools; lia.
  - rewrite Hlt in Hl1.
    specialize (IH s1 t v rs1 s' ltac:(lia) Hin1 Hl1 Hv ltac:(lia) Hrun1 Hans1). lia.
Qed.

End request_runs.

(** What the limiter answers to the [n]-th request of a window that closes at
    [x], made at [t]. *)
Definition window_decision (l : Limiter) (n : Z) (x t : time) : Decision :=
  let lim := Tier_Limit (Limiter_tier l) in
  if (n <=? lim)%Z then MkDecision true 0 n lim else MkDecision false (time_sub x t) n lim.

Section request_answers.
Context {S : Type} `{HS : !Store S, !StoreLaws S}.

(** Every request of [k] answered inside its open window, whatever other keys
    do in between. *)
Fixpoint window_answers (l : Limiter) (k : gostring) (n : Z) (x : time) (cs : list (time * gostring))
    : list Decision :=
  match cs with
  | [] => []
  | (t, k0) :: cs =>
      if decide (k0 = k) then window_decision l (n + 1) x t :: window_answers l k (n + 1) x cs
      else window_answers l k n x cs
  end.

Definition answers_of (k : gostring) (rs : list (gostring * (Decision * option goerror))) : list Decision :=
  (λ r, fst (snd r)) <$> filter (λ r, fst r = k) rs.

Lemma Allow_decision l t k s d s' v x : Allow l None t k s = ((d, None), s') →
  window_after t 1 (Tier_Window (Limiter_tier l)) (live s t (Limiter_key l k)) = (v, x) →
  d = window_decision l v x t.
Proof.
  unfold Allow, window_decision. case_bool_decide; [done|].
  destruct (Increment _ _ _ _ _ _) as [[c|e] s1] eqn:Hi; [|done].
  apply Increment_law in Hi as (_ & _ & -> & _). cbn zeta. intros Hd Hw. rewrite Hw in Hd. simpl in Hd.
  destruct (_ <? v)%Z eqn:Hlt; simplify_eq; by rewrite Z.leb_antisym, Hlt.
Qed.

Lemma open_window_answers l k cs s a x v rs s' :
  requests_in a x cs → live s a (Limiter_key l k) = Some (v, x) →
  (0 ≤ v)%Z → (v + Z.of_nat (length cs) ≤ int64_max)%Z →
  allow_run l cs s = (rs, s') → answered rs →
  answers_of k rs = window_answers l k v x cs.
Proof.
  revert s a v rs s'. induction cs as [|[t k0] cs IH]; intros s a v rs s' Hin Hlive Hv Hmax Hrun Hans.
  { simpl in Hrun. by simplify_eq. }
  destruct Hin as [Ht Hin].
  destruct (allow_run_cons _ _ _ _ _ _ _ Hrun Hans) as (d & s1 & rs1 & Ha & Hrun1 & Hans1 & ->).
  assert (live s t (Limiter_key l k) = Some (v, x)) as Hlt.
  { rewrite (live_fixed s a t) by lia. rewrite Hlive. simpl. unfold shown_at, time_before; simpl.
    by replace (t <? x)%Z with true by lia. }
  pose proof (Allow_answered _ _ _ _ _ _ Ha) as [_ Hl1]. specialize (Hl1 t k (Z.le_refl t)).
  simpl length in Hmax. unfold answers_of. rewrite filter_cons. simpl.
  destruct (decide (k0 = k)) as [->|Hne].
  - rewrite Hlt in Hl1. cbn [window_after fst snd] in Hl1. rewrite decide_True in Hl1 by done.
    unfold shown_at, time_before in Hl1; simpl in Hl1. replace (t <? x)%Z with true in Hl1 by lia.
    rewrite wrap64_id in Hl1 by (unfold int64_range, int64_min, int64_max in *; lia). simpl. f_equal.
    + apply (Allow_decision _ _ _ _ _ _ (v + 1) x) in Ha; [done|]. rewrite Hlt; simpl.
      by rewrite wrap64_id by (unfold int64_range, int64_min, int64_max in *; lia).
    + apply (IH s1 t (v + 1)%Z rs1 s'); try done; lia.
  - rewrite decide_False, Hlt in Hl1 by done. apply (IH s1 t v rs1 s'); try done; lia.
Qed.

End request_answers.

(** ** Claims: the request limiter *)

(** C29. At most twice the limit gets through in any interval of one window
    length, and at most the limit when the interval starts with no window open:
    for any counter store that keeps the port's promises, any mix of requests of
    all keys at non-decreasing instants of such an interval and any key, provided
    the store answers every request (one that it does not is decided by policy:
    [store_failure_policy]) and the key's count stays within its 64 bits. *)
Theorem Allow_rate_bound {S} `{!Store S, !StoreLaws S} (l : Limiter) (k : gostring) (a : time)
    (cs : list (time * gostring)) (s s' : S) rs :
  Tier_validate (Limiter_tier l) = None →
  requests_in a (a + Tier_Window (Limiter_tier l)) cs →
  (0 ≤ Value (count_at a (live s a (Limiter_key l k))))%Z →
  (Value (count_at a (live s a (Limiter_key l k))) + Z.of_nat (length cs) ≤ int64_max)%Z →
  allow_run l cs s = (rs, s') → answered rs →
  (allowed_for k rs ≤ 2 * Tier_Limit (Limiter_tier l))%Z ∧
  (live s a (Limiter_key l k) = None → (allowed_for k rs ≤ Tier_Limit (Limiter_tier l))%Z).
Proof.
  intros Hv Hin H0 Hmax Hrun Hans.
  assert (0 < Tier_Limit (Limiter_tier l))%Z as HL.
  { unfold Tier_validate in Hv. split_hyp Hv; lia. }
  destruct (live s a (Limiter_key l k)) as [[v x]|] eqn:Hlive; simpl in *.
  - split; [|done].
    pose proof (any_window_bound l k cs s a _ v x rs s' HL (Z.le_refl _) Hin Hlive H0 Hmax Hrun Hans). lia.
  - pose proof (fresh_window_bound l k cs s a _ rs s' HL (Z.le_refl _) Hin Hlive ltac:(lia) Hrun Hans). lia.
Qed.

Definition sample_limiter : Limiter := MkLimiter (MkTier 2 10 false) (go "publish").
Definition sample_requests : list (time * gostring) :=
  [(0, go "a"); (1, go "b"); (4, go "a"); (9, go "a"); (9, go "b")]%Z.

Lemma Allow_rate_bound_witness :
  let rs := fst (allow_run sample_limiter sample_requests (MkMemoryStore ∅ 0)) in
  Tier_validate (Limiter_tier sample_limiter) = None ∧
  allowed_for (go "a") rs = 2%Z ∧ (allowed_for (go "a") rs ≤ 2)%Z.
Proof.
  split; [reflexivity|]. split; [vm_compute; reflexivity|].
  eapply (Allow_rate_bound sample_limiter (go "a") 0 sample_requests (MkMemoryStore ∅ 0));
    [reflexivity | vm_compute; intuition congruence | vm_compute; congruence | vm_compute; congruence
    | apply surjective_pairing | repeat constructor | reflexivity].
Defined.

(** Inside one window the limiter is an exact counter: the answers to the
    requests of [k], whatever other keys do in between, are the decisions numbered
    on from the count at the start -- allowed up to the limit, and from the
    [Limit+1]-st on refused with a Retry-After that points at the instant the
    window closes, which no request moves. *)
Theorem Allow_exact {S} `{!Store S, !StoreLaws S} (l : Limiter) (k : gostring) (t : time)
    (cs : list (time * gostring)) (s s' : S) rs :
  Tier_validate (Limiter_tier l) = None →
  requests_in t (t + Tier_Window (Limiter_tier l)) cs → live s t (Limiter_key l k) = None →
  (1 + Z.of_nat (length cs) ≤ int64_max)%Z →
  allow_run l ((t, k) :: cs) s = (rs, s') → answered rs →
  answers_of k rs = window_answers l k 0 (t + Tier_Window (Limiter_tier l)) ((t, k) :: cs).
Proof.
  set (x := (t + Tier_Window (Limiter_tier l))%Z). intros Hv Hin Hlive Hmax Hrun Hans.
  assert (0 < Tier_Window (Limiter_tier l))%Z as HW.
  { unfold Tier_validate in Hv. split_hyp Hv; lia. }
  destruct (allow_run_cons _ _ _ _ _ _ _ Hrun Hans) as (d & s1 & rs1 & Ha & Hrun1 & Hans1 & ->).
  pose proof (Allow_answered _ _ _ _ _ _ Ha) as [_ Hl1]. specialize (Hl1 t k (Z.le_refl t)).
  rewrite decide_True, Hlive in Hl1 by done.
  unfold answers_of. rewrite filter_cons. simpl. rewrite !decide_True by done. simpl.
  f_equal.
  - apply (Allow_decision _ _ _ _ _ _ 1 x) in Ha; [done|]. by rewrite Hlive.
  - apply (open_window_answers l k cs s1 t x 1 rs1 s'); try done.
    rewrite Hl1. unfold shown_at, time_before; simpl. fold x.
    change (time_add t (Tier_Window (Limiter_tier l))) with x.
    by replace (t <? x)%Z with true by lia.
Qed.

Lemma Allow_exact_witness :
  answers_of (go "a") (fst (allow_run sample_limiter sample_requests (MkMemoryStore ∅ 0))) =
  [MkDecision true 0 1 2; MkDecision true 0 2 2; MkDecision false 1 3 2].
Proof.
  transitivity (window_answers sample_limiter (go "a") 0 10 sample_requests); [|vm_compute; reflexivity].
  apply (Allow_exact sample_limiter (go "a") 0 (tail sample_requests) (MkMemoryStore ∅ 0)
    (snd (allow_run sample_limiter sample_requests (MkMemoryStore ∅ 0))));
    [reflexivity | vm_compute; intuition congruence | reflexivity
    | vm_compute; congruence | apply surjective_pairing | repeat constructor].
Defined.

(** ** Claims: the authentication limiter *)

(** The lockout curve.  For every valid tier the lockout is zero exactly up
    to the free limit and otherwise positive and at most the cap, so no failure
    count, however large, switches it off; and it is the documented
    [min(Cap, Window * 2^(n-Limit-1))] whenever that product fits [int64] or the
    exponent is past [maxShift]. *)
Theorem lockout_curve (t : AuthTier) (n : Z) :
  AuthTier_validate t = None → (n ≤ int64_max)%Z → (Auth_Cap t ≤ int64_max)%Z →
  (lockout t n = 0 ↔ n ≤ Auth_Limit t)%Z ∧ (0 ≤ lockout t n ≤ Auth_Cap t)%Z ∧
  ((Auth_Limit t < n)%Z →
   (Auth_Window t * 2 ^ (n - Auth_Limit t - 1) ≤ int64_max ∨ maxShift < n - Auth_Limit t - 1)%Z →
   lockout t n = Z.min (Auth_Cap t) (Auth_Window t * 2 ^ (n - Auth_Limit t - 1))).
Proof.
  intros Hv Hn Hcap. destruct (AuthTier_validate_None t Hv) as (? & ? & ?).
  pose proof (lockout_bounds t n Hv Hn). split; [lia|]. split; [lia|].
  intros. by apply lockout_formula.
Qed.

Lemma lockout_curve_witness :
  AuthTier_validate (Auth DefaultTiers) = None ∧ lockout (Auth DefaultTiers) 9 = (8 * Minute)%Z.
Proof.
  split; [reflexivity|].
  rewrite (proj2 (proj2 (lockout_curve (Auth DefaultTiers) 9 eq_refl
    ltac:(vm_compute; congruence) ltac:(vm_compute; congruence))));
    [reflexivity | reflexivity | left; vm_compute; congruence].
Defined.

Lemma default_shifts_capped :
  forallb (λ k, bool_decide (lockout (Auth DefaultTiers) (Z.of_nat k + 6) =
                             Z.min Hour (Minute * 2 ^ Z.of_nat k))) (seq 0 63) = true.
Proof. vm_compute. reflexivity. Qed.

(** The shipped auth tier follows the documented curve for every failure
    count an [int64] can hold, overflow of the doubling included: five free
    failures, then one minute doubling up to the hour. *)
Theorem default_lockout_curve (n : Z) : (n ≤ int64_max)%Z →
  lockout (Auth DefaultTiers) n = if (n <=? 5)%Z then 0%Z else Z.min Hour (Minute * 2 ^ (n - 6)).
Proof.
  intros Hn. destruct (n <=? 5)%Z eqn:Hle; reflect_bools.
  - destruct (lockout_bounds (Auth DefaultTiers) n eq_refl Hn) as [[-> _]|[_ H]]; [done|].
    simpl in H. lia.
  - destruct (decide (62 < n - 6)%Z) as [Hbig|Hsmall].
    + rewrite lockout_formula; [simpl; by replace (n - 5 - 1)%Z with (n - 6)%Z by lia | done | simpl; lia
        | vm_compute; congruence | right; unfold maxShift; simpl; lia].
    + pose proof default_shifts_capped as Hall. rewrite forallb_forall in Hall.
      specialize (Hall (Z.to_nat (n - 6))). rewrite bool_decide_eq_true in Hall.
      rewrite Z2Nat.id in Hall by lia. replace (n - 6 + 6)%Z with n in Hall by lia.
      apply Hall. apply in_seq. lia.
Qed.

Lemma default_lockout_curve_witness : lockout (Auth DefaultTiers) 1000000 = Hour.
Proof. rewrite (default_lockout_curve 1000000); [reflexivity | vm_compute; congruence]. Defined.

(** The curve can fall for a tier that validates: with a window of 47279
    seconds the doubling overflows [int64] into a small positive duration, so the
    29th failure locks for the one-hour cap and the 30th for under two minutes.
    [maxShift] and the sign test exclude only overflow to a non-positive value. *)
Theorem lockout_curve_can_fall :
  let t := MkAuthTier 5 (47279 * Second) (24 * Hour) Hour in
  AuthTier_validate t = None ∧ lockout t 29 = Hour ∧ (0 < lockout t 30 < 2 * Minute)%Z.
Proof. vm_compute. intuition congruence. Qed.

(** Fail-open and fail-closed.  On any store at all, a failed store call
    decides by policy and never reads as a count: a request limiter allows exactly
    when its tier fails open; the authentication limiter refuses, both when it
    checks and when it records; and an empty key is refused by all three. *)
Theorem store_failure_policy {S} `{!Store S} (l : Limiter) (a : AuthLimiter) ctx now now' key (s : S) :
  (∀ d e s', Allow l ctx now key s = ((d, Some e), s') →
     Allowed d = if bool_decide (key = []) then false else Tier_FailOpen (Limiter_tier l)) ∧
  (∀ d e s', Check a ctx now now' key s = ((d, Some e), s') → Allowed d = false) ∧
  (∀ d e s', RecordFailure a ctx now now' key s = ((d, Some e), s') → Allowed d = false).
Proof.
  unfold Allow, Check, RecordFailure, storeFailure.
  split_and!; intros d e s' H; split_hyp H; by case_match.
Qed.

Lemma store_failure_policy_witness :
  let lim := MkLimiter (Publish DefaultTiers) (go "publish") in
  let auth := MkAuthLimiter (Auth DefaultTiers) (go "auth") in
  let down := Some (errors_new "context canceled") in
  Allowed (fst (fst (Allow lim down 0 (go "ip") (MkMemoryStore ∅ 0)))) = true ∧
  Allowed (fst (fst (Check auth down 0 0 (go "ip") (MkMemoryStore ∅ 0)))) = false.
Proof.
  split.
  - eapply (store_failure_policy (MkLimiter (Publish DefaultTiers) (go "publish"))
      (MkAuthLimiter (Auth DefaultTiers) (go "auth")) (Some (errors_new "context canceled")) 0 0
      (go "ip") (MkMemoryStore ∅ 0)); reflexivity.
  - eapply (store_failure_policy (MkLimiter (Publish DefaultTiers) (go "publish"))
      (MkAuthLimiter (Auth DefaultTiers) (go "auth")) (Some (errors_new "context canceled")) 0 0
      (go "ip") (MkMemoryStore ∅ 0)); reflexivity.
Defined.

(** A lockout is served.  On any store that keeps the port's promises: when
    a recorded failure reaches a level [n] past the limit whose lock is not
    already armed, the answer names the whole lockout of [n]; and for as long as
    the failure count itself is still remembered, a later check is refused with
    exactly the rest of that lockout, and once it has elapsed is allowed with the
    count still [n], so the next failure escalates. *)
Theorem lockout_enforced {S} `{!Store S, !StoreLaws S} (a : AuthLimiter) ctx now1 now2 key n (s s1 : S) d :
  let tier := AuthLimiter_tier a in
  AuthTier_validate tier = None → (Auth_Cap tier ≤ int64_max)%Z → (now1 ≤ now2)%Z →
  (Auth_Limit tier < n ≤ int64_max)%Z → live s now2 (lockKey a key n) = None →
  RecordFailure a ctx now1 now2 key s = ((d, None), s1) → Decision_Count d = n →
  d = MkDecision false (lockout tier n) n (Auth_Limit tier) ∧
  ∀ ctx' t1 t2 r s2, (now2 ≤ t1 ≤ t2)%Z → is_Some (live s1 t1 (failKey a key)) →
    Check a ctx' t1 t2 key s1 = ((r, None), s2) →
    r = if (t2 <? now2 + lockout tier n)%Z
        then MkDecision false (now2 + lockout tier n - t2) n (Auth_Limit tier)
        else MkDecision true 0 n (Auth_Limit tier).
Proof.
  cbn zeta. intros Hv Hcap Hle Hn Hfree Hrec Hcnt. unfold RecordFailure in Hrec.
  destruct (lockout_bounds _ n Hv ltac:(lia)) as [|[HL _]]; [lia|].
  set (L := lockout (AuthLimiter_tier a) n) in *.
  assert (∀ t, (t ≤ now2 + L)%Z → (now2 ≤ t)%Z → time_sub (now2 + L) t = (now2 + L - t)%Z) as Hsub.
  { intros t ??. apply time_sub_exact. unfold int64_range, int64_min, int64_max in *. lia. }
  case_bool_decide; [done|].
  destruct (Increment _ now1 _ _ _ _) as [[c|e] s0] eqn:Hi; [|done].
  apply Increment_law in Hi as (_ & _ & Hc & Hl0). cbn zeta in Hc, Hl0.
  destruct (lockout _ (Value c) =? 0)%Z eqn:Hz; simplify_eq/=; reflect_bools.
  { exfalso. unfold L in *. simpl in Hz. lia. }
  destruct (Increment _ now2 _ _ _ _) as [[lk|e] s3] eqn:Hi2; simplify_eq/=.
  set (w := window_after now1 1 _ _) in *. fold L in Hi2 |- *.
  apply Increment_law in Hi2 as (_ & _ & -> & Hl1). cbn zeta in Hl1 |- *.
  rewrite Hl0, decide_False in Hl1 |- * by (try done; intros Heq; by apply eq_sym, failKey_lockKey in Heq).
  rewrite Hfree in Hl1 |- *. simpl in Hl1 |- *. unfold time_add in *.
  split; [by rewrite Hsub by lia; f_equal; lia|].
  intros ctx' t1 t2 r s2 Ht [[v x] Hx] Hchk. unfold Check in Hchk. case_bool_decide; [done|].
  destruct (Get _ t1 _ _) as [[f|e] s4] eqn:Hg; [|done].
  apply Get_law in Hg as [-> Hl4].
  assert (v = fst w) as ->.
  { rewrite Hl1, decide_False in Hx by (try lia; apply failKey_lockKey).
    rewrite Hl0, decide_True in Hx by (done || lia). unfold shown_at in Hx.
    destruct (time_before t1 (snd w)); [|done]. apply (inj Some) in Hx. by rewrite Hx. }
  rewrite Hx in Hchk. simpl in Hchk. destruct (_ <=? _)%Z eqn:Hlim in Hchk; reflect_bools; [lia|].
  destruct (Get _ t2 _ _) as [[g|e] s5] eqn:Hg2; [|done].
  apply Get_law in Hg2 as [-> _]. rewrite Hl4, Hl1, decide_True in Hchk by (done || lia).
  unfold shown_at, time_before in Hchk. simpl in Hchk.
  destruct (t2 <? now2 + L)%Z eqn:Ht2; reflect_bools; simpl in Hchk; simplify_eq; [|done].
  by rewrite Hsub by lia.
Qed.

Definition auth_limiter : AuthLimiter := MkAuthLimiter (Auth DefaultTiers) (go "auth").

(** Failed attempts of one caller at the given instants, each made only when
    [Check] allows it; [None] when one was not. *)
Fixpoint attempts (ts : list time) (s : MemoryStore) : option MemoryStore :=
  match ts with
  | [] => Some s
  | t :: ts =>
      if Allowed (fst (fst (Check auth_limiter None t t (go "ip") s)))
      then attempts ts (snd (RecordFailure auth_limiter None t t (go "ip") s))
      else None
  end.

Definition five_failures : MemoryStore :=
  default (MkMemoryStore ∅ 0) (attempts (replicate 5 0%Z) (MkMemoryStore ∅ 0)).

Definition six_failures : MemoryStore :=
  default (MkMemoryStore ∅ 0) (attempts (replicate 6 0%Z) (MkMemoryStore ∅ 0)).

Lemma lockout_enforced_witness :
  Check auth_limiter None (20 * Second) (20 * Second) (go "ip") six_failures =
    ((MkDecision false (40 * Second) 6 5, None), six_failures) ∧
  MkDecision false (40 * Second) 6 5 =
    (if (20 * Second <? 0 + lockout (Auth DefaultTiers) 6)%Z
     then MkDecision false (0 + lockout (Auth DefaultTiers) 6 - 20 * Second) 6 5
     else MkDecision true 0 6 5).
Proof.
  assert (Check auth_limiter None (20 * Second) (20 * Second) (go "ip") six_failures =
    ((MkDecision false (40 * Second) 6 5, None), six_failures)) as Hc by (vm_compute; reflexivity).
  split; [exact Hc|].
  assert (RecordFailure auth_limiter None 0 0 (go "ip") five_failures =
    ((MkDecision false Minute 6 5, None), six_failures)) as Hr by (vm_compute; reflexivity).
  assert (is_Some (live six_failures (20 * Second) (failKey auth_limiter (go "ip")))) as Hs
    by (vm_compute; eauto).
  assert (live five_failures 0 (lockKey auth_limiter (go "ip") 6) = None) as Hl by (vm_compute; reflexivity).
  assert (Auth_Cap (AuthLimiter_tier auth_limiter) ≤ int64_max)%Z as Hcap by (vm_compute; congruence).
  assert (Auth_Limit (AuthLimiter_tier auth_limiter) < 6 ≤ int64_max)%Z as Hn
    by (vm_compute; intuition congruence).
  assert (0 ≤ 20 * Second ≤ 20 * Second)%Z as Ht by (vm_compute; intuition congruence).
  exact (proj2 (lockout_enforced auth_limiter None 0 0 (go "ip") 6 five_failures six_failures _
    eq_refl Hcap (Z.le_refl 0) Hn Hl Hr eq_refl) None _ _ _ _ Ht Hs Hc).
Defined.

(** A lockout is not always served in full: the failure count lives in a
    fixed window of [Horizon] from its first failure, so it can expire while a
    lockout armed late in that window still runs, and [Check] then reads a count
    of zero.  With the shipped tier, a caller who waits out every lockout and
    fails again at 23h59m is locked for an hour and allowed one minute later. *)
Theorem lockout_cut_short_at_horizon :
  let m := (λ i, Z.of_nat i * Minute)%Z in
  let ts := replicate 6 0%Z ++ (m <$> [1; 3; 7; 15; 31; 63; 1439]) in
  match attempts (removelast ts) (MkMemoryStore ∅ 0) with
  | None => False
  | Some s =>
      Allowed (fst (fst (Check auth_limiter None (m 1439) (m 1439) (go "ip") s))) = true ∧
      let '(d, s) := RecordFailure auth_limiter None (m 1439) (m 1439) (go "ip") s in
      d = (MkDecision false Hour 13 5, None) ∧
      fst (Check auth_limiter None (m 1440) (m 1440) (go "ip") s) = (MkDecision true 0 0 5, None)
  end.
Proof. vm_compute. repeat split. Qed.
