(* ===== verification/Failover.v ===== *)
(** * The failover counter store (internal/counter/failover.go)

    A store that prefers a network-backed primary and degrades to an in-process
    fallback, with a background loop that probes the primary and switches back.
    The client operations are state transitions of the whole store and make it an
    instance of the counter port, whatever the two stores behind it.  The
    [degraded] flag, the one-slot wake-up channel, the clients inside
    [markDegraded] and the reprobe goroutine are modelled separately as a step
    relation, one step per atomic operation of the code, to prove that no
    interleaving loses a wake-up. *)

From S2P Require Import Prelude DomainErrors Counter.

(** src/internal/counter/failover.go:14-17, defaultReprobeInterval *)
Definition defaultReprobeInterval : duration := (5 * Minute)%Z.

(** src/internal/counter/failover.go:19-23, maxReprobeInterval *)
Definition maxReprobeInterval : duration := Hour.

(** src/internal/counter/failover.go:289-297, nextInterval *)
Definition nextInterval (cur max : duration) : duration :=
  let next := wrap64 (cur * 2) in
  if ((max <? next) || (next <=? 0))%Z then max else next.

(** ** The store *)

(** src/internal/counter/failover.go:82-92, FailoverStore *)
Record FailoverStore (P F : Type) := MkFailover {
  primary : P;
  fallback : F;
  degraded : bool;
  baseInterval : duration;
  maxInterval : duration;
}.
Arguments MkFailover {P F} _ _ _ _ _.
Arguments primary {P F} _.
Arguments fallback {P F} _.
Arguments degraded {P F} _.
Arguments baseInterval {P F} _.
Arguments maxInterval {P F} _.

(** src/internal/counter/failover.go:113-125, WithReprobeInterval *)
Definition WithReprobeInterval {P F} (d : duration) (f : FailoverStore P F) : FailoverStore P F :=
  if (0 <? d)%Z then MkFailover (primary f) (fallback f) (degraded f) d (maxInterval f) else f.

(** src/internal/counter/failover.go:127-160, NewFailoverStore *)
Definition NewFailoverStore {P F} (primary : option P) (fallback : option F)
    (opts : list (option (FailoverStore P F → FailoverStore P F))) : result (FailoverStore P F) :=
  match primary, fallback with
  | None, _ => Err (errorf "counter: nil primary store" [ErrInvalidInput])
  | _, None => Err (errorf "counter: nil fallback store" [ErrInvalidInput])
  | Some p, Some m =>
      let f := MkFailover p m false defaultReprobeInterval maxReprobeInterval in
      Ok (foldl (λ f opt, match opt with Some o => o f | None => f end) f opts)
  end.

(** src/internal/counter/failover.go:212-214, FailoverStore.Degraded *)
Definition Degraded {P F} (f : FailoverStore P F) : bool := degraded f.

(** src/internal/counter/failover.go:236-246, FailoverStore.markDegraded
    (the effect on the flag; the wake-up it sends is [client_step] below) *)
Definition markDegraded {P F} (f : FailoverStore P F) : FailoverStore P F :=
  MkFailover (primary f) (fallback f) true (baseInterval f) (maxInterval f).

Definition set_primary {P F} (p : P) (f : FailoverStore P F) : FailoverStore P F :=
  MkFailover p (fallback f) (degraded f) (baseInterval f) (maxInterval f).
Definition set_fallback {P F} (m : F) (f : FailoverStore P F) : FailoverStore P F :=
  MkFailover (primary f) m (degraded f) (baseInterval f) (maxInterval f).

Section operations.
Context {P F : Type} `{!Store P, !Store F}.

(** The shape the three operations share (src lines 165-210): try the primary
    while healthy, pass on its answer or a client error, and on an outage mark
    the store degraded and answer from the fallback. *)
Definition with_failover {A} (on_primary : P → result A * P) (on_fallback : F → result A * F)
    (f : FailoverStore P F) : result A * FailoverStore P F :=
  let from_fallback (f : FailoverStore P F) :=
    let '(r, m) := on_fallback (fallback f) in (r, set_fallback m f) in
  if degraded f then from_fallback f
  else
    match on_primary (primary f) with
    | (Ok c, p) => (Ok c, set_primary p f)
    | (Err err, p) =>
        if negb (errors_is err ErrStoreUnavailable) then (Err err, set_primary p f)
        else from_fallback (markDegraded (set_primary p f))
    end.

(** src/internal/counter/failover.go:162-180, FailoverStore.Increment *)
Definition failover_Increment (ctx : context) (now : time) (key : gostring) (delta : Z) (ttl : duration)
    : FailoverStore P F → result Count * FailoverStore P F :=
  with_failover (Increment ctx now key delta ttl) (Increment ctx now key delta ttl).

(** src/internal/counter/failover.go:182-195, FailoverStore.Get *)
Definition failover_Get (ctx : context) (now : time) (key : gostring)
    : FailoverStore P F → result Count * FailoverStore P F :=
  with_failover (Get ctx now key) (Get ctx now key).

(** src/internal/counter/failover.go:197-210, FailoverStore.Delete *)
Definition failover_Delete (ctx : context) (now : time) (key : gostring)
    : FailoverStore P F → result unit * FailoverStore P F :=
  with_failover (Delete ctx now key) (Delete ctx now key).

#[export] Instance FailoverStore_Store : Store (FailoverStore P F) := {
  Increment := failover_Increment;
  Get := failover_Get;
  Delete := failover_Delete;
}.

End operations.

(** ** The reprobe loop *)

(** Where the goroutine of [reprobe] is: waiting in the outer [select]; testing
    the loop condition; sleeping on the timer; probing; about to clear the flag
    after a healthy probe; returned.  [i] is its current interval. *)
Inductive reprobe_pc :=
| AtSelect
| AtTest (i : duration)
| AtTimer (i : duration)
| AtProbe (i : duration)
| AtClear
| Exited.

(** The state the loop and its clients share: the atomic flag, the one-slot
    channel [degradedCh], the number of clients between the compare-and-swap and
    the send of [markDegraded], the goroutine, and whether [Close] was called. *)
Record loop := MkLoop {
  flag : bool;
  signal : bool;
  sending : nat;
  pc : reprobe_pc;
  done_closed : bool;
}.

(** src/internal/counter/failover.go:241-244, markDegraded (the send on degradedCh) *)
Inductive send_step : loop → loop → Prop :=
| client_send fl sg n p c :                  (* a full channel takes the default branch *)
    send_step (MkLoop fl sg (S n) p c) (MkLoop fl true n p c).

(** src/internal/counter/failover.go:236-246, FailoverStore.markDegraded *)
Inductive client_step : loop → loop → Prop :=
| client_cas sg n p c :
    client_step (MkLoop false sg n p c) (MkLoop true sg (S n) p c)
| client_cas_lost sg n p c :
    client_step (MkLoop true sg n p c) (MkLoop true sg n p c)
| client_sends w w' : send_step w w' → client_step w w'.

(** src/internal/counter/failover.go:248-280, FailoverStore.reprobe *)
Inductive reprobe_step (base max : duration) : loop → loop → Prop :=
| r_done fl sg n : reprobe_step base max (MkLoop fl sg n AtSelect true) (MkLoop fl sg n Exited true)
| r_recv fl n c : reprobe_step base max (MkLoop fl true n AtSelect c) (MkLoop fl false n (AtTest base) c)
| r_test_degraded sg n i c : reprobe_step base max (MkLoop true sg n (AtTest i) c) (MkLoop true sg n (AtTimer i) c)
| r_test_healthy sg n i c : reprobe_step base max (MkLoop false sg n (AtTest i) c) (MkLoop false sg n AtSelect c)
| r_timer_done fl sg n i : reprobe_step base max (MkLoop fl sg n (AtTimer i) true) (MkLoop fl sg n Exited true)
| r_timer_fires fl sg n i c : reprobe_step base max (MkLoop fl sg n (AtTimer i) c) (MkLoop fl sg n (AtProbe i) c)
| r_probe_ok fl sg n i c : reprobe_step base max (MkLoop fl sg n (AtProbe i) c) (MkLoop fl sg n AtClear c)
| r_probe_failed fl sg n i c :
    reprobe_step base max (MkLoop fl sg n (AtProbe i) c) (MkLoop fl sg n (AtTest (nextInterval i max)) c)
| r_clear fl sg n c : reprobe_step base max (MkLoop fl sg n AtClear c) (MkLoop false sg n AtSelect c).

(** src/internal/counter/failover.go:216-225, FailoverStore.Close *)
Inductive close_step : loop → loop → Prop :=
| close_done fl sg n p c : close_step (MkLoop fl sg n p c) (MkLoop fl sg n p true).

Definition loop_step (base max : duration) (w w' : loop) : Prop :=
  client_step w w' ∨ reprobe_step base max w w' ∨ close_step w w'.

Definition loop_init : loop := MkLoop false false 0 AtSelect false.

(** The delay before the [k]-th probe of an outage, counted from zero. *)
Definition probe_delay (base max : duration) (k : nat) : duration :=
  Nat.iter k (λ i, nextInterval i max) base.

(** ** Lemmas *)

Lemma nextInterval_min cur max : (0 < cur ≤ int64_max)%Z → (0 < max ≤ int64_max)%Z →
  nextInterval cur max = Z.min max (2 * cur).
Proof.
  intros Hc Hm. unfold nextInterval, wrap64, int64_max in *.
  destruct (decide (cur * 2 < 2 ^ 63)%Z).
  - rewrite Z.mod_small by lia. case_match eqn:H; [apply orb_true_iff in H as [?|?]|]; reflect_bools; lia.
  - replace (cur * 2 + 2 ^ 63)%Z with (cur * 2 - 2 ^ 63 + 1 * 2 ^ 64)%Z by lia.
    rewrite Z.mod_add, Z.mod_small by lia. replace (_ || _)%Z with true by lia. lia.
Qed.

(** A degraded store always has its wake-up on the way or its loop running. *)
Definition woken (w : loop) : Prop :=
  (flag w = true → signal w = true ∨ sending w ≠ 0 ∨ (pc w ≠ AtSelect)) ∧
  (pc w = Exited → done_closed w = true).

Lemma woken_step base max w w' : woken w → loop_step base max w w' → woken w'.
Proof.
  unfold woken. intros [Hw He] Hs.
  destruct Hs as [Hs|[Hs|Hs]]; [destruct Hs as [| |?? Hs]; [| |destruct Hs]|destruct Hs|destruct Hs];
    simpl in *; split; intros; try done; try (by apply He); try (by right; left);
    try (by right; right); try (by left); destruct Hw as [?|[?|?]]; try done; auto.
Qed.

Lemma woken_reachable base max w : steps (loop_step base max) loop_init w → woken w.
Proof. apply steps_invariant; [apply woken_step|]. split; by intros. Qed.

(** The steps of a recovery: a send that was pending, or the goroutine. *)
Definition recovery_step (base max : duration) (x y : loop) : Prop :=
  send_step x y ∨ reprobe_step base max x y.

(** Drive the loop forward, always taking the branch in which the probe answers. *)
Ltac run_recovery :=
  lazymatch goal with
  | |- steps _ (MkLoop _ false (S _) AtSelect _) _ => eapply steps_cons; [left; apply client_send|]; run_recovery
  | |- steps _ (MkLoop true true _ AtSelect _) _ => eapply steps_cons; [right; apply r_recv|]; run_recovery
  | |- steps _ (MkLoop true _ _ (AtTest _) _) _ => eapply steps_cons; [right; apply r_test_degraded|]; run_recovery
  | |- steps _ (MkLoop _ _ _ (AtTimer _) _) _ => eapply steps_cons; [right; apply r_timer_fires|]; run_recovery
  | |- steps _ (MkLoop _ _ _ (AtProbe _) _) _ => eapply steps_cons; [right; apply r_probe_ok|]; run_recovery
  | |- steps _ (MkLoop _ _ _ AtClear _) _ => eapply steps_cons; [right; apply r_clear|]; apply steps_nil
  end.

(** ** Claims *)

(** Routing.  Whatever the two stores are: while degraded an operation is
    the fallback's and the primary is not touched; while healthy the primary's
    answer and its client errors are passed on without degrading, and a primary
    outage is answered by the fallback and leaves the store degraded, so the
    caller sees [ErrStoreUnavailable] only when the fallback itself reports it. *)
Theorem failover_routing {P F} `{!Store P, !Store F} ctx now key delta ttl (f f' : FailoverStore P F) r :
  failover_Increment ctx now key delta ttl f = (r, f') →
  let '(rp, p) := Increment ctx now key delta ttl (primary f) in
  let '(rf, m) := Increment ctx now key delta ttl (fallback f) in
  if degraded f then r = rf ∧ primary f' = primary f ∧ fallback f' = m ∧ degraded f' = true
  else match rp with
       | Ok c => r = Ok c ∧ primary f' = p ∧ fallback f' = fallback f ∧ degraded f' = false
       | Err e =>
           if errors_is e ErrStoreUnavailable
           then r = rf ∧ primary f' = p ∧ fallback f' = m ∧ degraded f' = true
           else r = Err e ∧ primary f' = p ∧ fallback f' = fallback f ∧ degraded f' = false
       end.
Proof.
  unfold failover_Increment, with_failover. intros H.
  destruct (Increment ctx now key delta ttl (primary f)) as [rp p] eqn:Hp.
  destruct f as [fp fm [|] b mx]; simpl in *; rewrite ?Hp in *;
    destruct (Increment ctx now key delta ttl fm) as [rf m]; simplify_eq/=; [done|].
  destruct rp as [c|e]; simplify_eq/=; [done|].
  destruct (errors_is e ErrStoreUnavailable); by simplify_eq/=.
Qed.

(** A primary that is down: every operation fails with an outage. *)
Inductive down_store := Down.
#[local] Instance Down_Store : Store down_store := {
  Increment _ _ _ _ _ s := (Err (errorf "redis: dial" [ErrStoreUnavailable]), s);
  Get _ _ _ s := (Err (errorf "redis: dial" [ErrStoreUnavailable]), s);
  Delete _ _ _ s := (Err (errorf "redis: dial" [ErrStoreUnavailable]), s);
}.

Definition failing_over : FailoverStore down_store MemoryStore :=
  MkFailover Down (MkMemoryStore ∅ 0) false defaultReprobeInterval maxReprobeInterval.

Lemma failover_routing_witness :
  fst (failover_Increment None 0 (go "k") 1 10 failing_over) = Ok (MkCount 1 10) ∧
  degraded (snd (failover_Increment None 0 (go "k") 1 10 failing_over)) = true.
Proof.
  pose proof (failover_routing None 0 (go "k") 1 10 failing_over _ _ (surjective_pairing _)) as H.
  vm_compute in H |- *. intuition congruence.
Defined.

(** C30. No interleaving loses a wake-up: in every state reachable by clients
    hitting an outage, the reprobe goroutine and [Close], a degraded store has its
    signal in the channel, a client about to send it, or the loop past the
    channel; and the goroutine returns only after [Close]. *)
Theorem reprobe_never_lost base max w :
  steps (loop_step base max) loop_init w →
  (flag w = true → signal w = true ∨ sending w ≠ 0 ∨ pc w ≠ AtSelect) ∧
  (pc w = Exited → done_closed w = true).
Proof. apply woken_reachable. Qed.

Lemma reprobe_never_lost_witness :
  let w := MkLoop true false 1 AtSelect false in
  steps (loop_step Minute Hour) loop_init w ∧ (sending w ≠ 0 ∨ signal w = true ∨ pc w ≠ AtSelect).
Proof.
  assert (steps (loop_step Minute Hour) loop_init (MkLoop true false 1 AtSelect false)) as H.
  { eapply steps_cons; [left; constructor|]. constructor. }
  split; [exact H|]. destruct (proj1 (reprobe_never_lost _ _ _ H) eq_refl) as [?|[?|?]]; tauto.
Defined.

(** A degraded store recovers: from every reachable degraded state of a
    store that was not closed there is a run of pending sends and goroutine steps
    -- the timer fires and the probe answers -- that clears the flag. *)
Theorem reprobe_recovers base max w :
  steps (loop_step base max) loop_init w → flag w = true → done_closed w = false →
  ∃ w', steps (recovery_step base max) w w' ∧ flag w' = false.
Proof.
  intros [Hw He]%woken_reachable Hf Hc. destruct w as [fl sg n p c]; simpl in *; subst.
  destruct p; try (eexists; split; [run_recovery|reflexivity]); try by specialize (He eq_refl).
  destruct sg; [eexists; split; [run_recovery|reflexivity]|].
  destruct n; [by destruct (Hw eq_refl) as [?|[?|?]]|].
  eexists; split; [run_recovery|reflexivity].
Qed.

Lemma reprobe_recovers_witness :
  ∃ w', steps (recovery_step Minute Hour) (MkLoop true false 1 AtSelect false) w' ∧ flag w' = false.
Proof.
  assert (steps (loop_step Minute Hour) loop_init (MkLoop true false 1 AtSelect false)) as H.
  { eapply steps_cons; [left; constructor|]. constructor. }
  exact (reprobe_recovers _ _ _ H eq_refl eq_refl).
Defined.

(** The back-off between probes: for every base and cap, also when doubling
    overflows, the probe [k >= 1] of an outage waits [min cap (base * 2^k)], so the
    delays never decrease until they stay at the cap; the first one waits the base
    itself, which the cap does not limit. *)
Theorem probe_delay_backoff base max k : (0 < base ≤ int64_max)%Z → (0 < max ≤ int64_max)%Z →
  probe_delay base max k = if decide (k = 0) then base else Z.min max (base * 2 ^ Z.of_nat k).
Proof.
  intros Hb Hm. induction k as [|k IH]; [done|].
  change (probe_delay base max (S k)) with (nextInterval (probe_delay base max k) max).
  assert (0 < 2 ^ Z.of_nat k)%Z by lia. rewrite IH. destruct (decide (S k = 0)); [lia|].
  rewrite Nat2Z.inj_succ, Z.pow_succ_r by lia.
  destruct (decide (k = 0)) as [->|]; rewrite nextInterval_min; nia.
Qed.

Lemma probe_delay_backoff_witness :
  probe_delay (24 * Hour)%Z maxReprobeInterval 0 = (24 * Hour)%Z ∧
  probe_delay (24 * Hour)%Z maxReprobeInterval 1 = maxReprobeInterval.
Proof.
  split.
  - refine (eq_trans (probe_delay_backoff _ _ 0 _ _) eq_refl); vm_compute; split; congruence.
  - refine (eq_trans (probe_delay_backoff _ _ 1 _ _) eq_refl); vm_compute; split; congruence.
Defined.
