(* ===== verification/GoLib.v ===== *)
(** * The Go standard library, as far as the modelled code uses it

    [bytes] and [strings] (searching, cutting and trimming), [unicode/utf8] and the
    [range] loop over a string, the character classes of [unicode] that the
    validators consult, [encoding/base64] and [encoding/hex].  Cut sets and
    separators are ASCII in every call the code makes, so those functions work
    byte by byte here as they do there. *)

From S2P Require Import Prelude.

Open Scope Z_scope.

(** ** bytes and strings *)

(** [bytes.IndexByte], with [None] for -1. *)
Fixpoint index_byte (c : ascii) (s : bytes) : option nat :=
  match s with
  | [] => None
  | b :: s' => if decide (b = c) then Some 0%nat else S <$> index_byte c s'
  end.

(** [strings.Cut(s, sep)] with a one-byte separator. *)
Definition cut (c : ascii) (s : gostring) : gostring * gostring * bool :=
  match index_byte c s with
  | Some i => (take i s, drop (S i) s, true)
  | None => (s, [], false)
  end.

Fixpoint has_prefix (p s : bytes) : bool :=
  match p, s with
  | [], _ => true
  | a :: p', b :: s' => bool_decide (a = b) && has_prefix p' s'
  | _ :: _, [] => false
  end.

Definition has_suffix (p s : bytes) : bool := has_prefix (rev p) (rev s).

(** [strings.CutPrefix] and [strings.TrimSuffix]. *)
Definition cut_prefix (p s : gostring) : option gostring :=
  if has_prefix p s then Some (drop (length p) s) else None.
Definition trim_suffix (p s : gostring) : gostring :=
  if has_suffix p s then take (length s - length p) s else s.

Fixpoint contains (p s : bytes) : bool :=
  has_prefix p s || match s with [] => false | _ :: s' => contains p s' end.

Definition mem_byte (c : ascii) (cs : bytes) : bool := existsb (λ d, bool_decide (c = d)) cs.

(** [strings.ContainsAny], [TrimLeft], [TrimRight] and [Trim] with an ASCII cut set. *)
Definition contains_any (cs s : bytes) : bool := existsb (λ c, mem_byte c cs) s.
Fixpoint trim_left (cs s : bytes) : bytes :=
  match s with
  | [] => []
  | c :: s' => if mem_byte c cs then trim_left cs s' else s
  end.
Definition trim_right (cs s : bytes) : bytes := rev (trim_left cs (rev s)).
Definition trim (cs s : bytes) : bytes := trim_right cs (trim_left cs s).

(** [strings.Split] at a separator of one byte. *)
Fixpoint split_byte (c : ascii) (s : bytes) : list bytes :=
  match s with
  | [] => [[]]
  | x :: t =>
      if bool_decide (x = c) then [] :: split_byte c t
      else match split_byte c t with
           | p :: ps => (x :: p) :: ps
           | [] => [[x]]
           end
  end.

(** ** unicode/utf8 *)

Definition RuneError : Z := 65533.

(** The bounds of the second byte of a sequence that starts with [b0]. *)
Definition second_byte_ok (b0 b1 : Z) : bool :=
  let lo := if b0 =? 0xE0 then 0xA0 else if b0 =? 0xF0 then 0x90 else 0x80 in
  let hi := if b0 =? 0xED then 0x9F else if b0 =? 0xF4 then 0x8F else 0xBF in
  (lo <=? b1) && (b1 <=? hi).
Definition continuation (b : Z) : bool := (0x80 <=? b) && (b <=? 0xBF).

(** [utf8.DecodeRune]: the first code point of [s] and its width, [(RuneError, 1)]
    for a byte that starts no valid sequence and [(RuneError, 0)] for the empty
    string. *)
Definition decode_rune (s : bytes) : Z * nat :=
  match byte_val <$> s with
  | [] => (RuneError, 0%nat)
  | b0 :: t =>
    if b0 <? 0x80 then (b0, 1%nat)
    else if (b0 <? 0xC2) || (0xF4 <? b0) then (RuneError, 1%nat)
    else match t with
    | [] => (RuneError, 1%nat)
    | b1 :: t =>
      if negb (second_byte_ok b0 b1) then (RuneError, 1%nat)
      else if b0 <? 0xE0 then ((b0 mod 32) * 64 + b1 mod 64, 2%nat)
      else match t with
      | [] => (RuneError, 1%nat)
      | b2 :: t =>
        if negb (continuation b2) then (RuneError, 1%nat)
        else if b0 <? 0xF0 then ((b0 mod 16) * 4096 + (b1 mod 64) * 64 + b2 mod 64, 3%nat)
        else match t with
        | [] => (RuneError, 1%nat)
        | b3 :: _ =>
          if negb (continuation b3) then (RuneError, 1%nat)
          else ((b0 mod 8) * 262144 + (b1 mod 64) * 4096 + (b2 mod 64) * 64 + b3 mod 64, 4%nat)
        end
      end
    end
  end.

(** The code points a [range] loop over the string visits, with their widths. *)
Fixpoint runes_from (fuel : nat) (s : bytes) : list (Z * nat) :=
  match fuel, s with
  | O, _ | _, [] => []
  | S fuel, _ => let '(r, w) := decode_rune s in (r, w) :: runes_from fuel (drop w s)
  end.
Definition runes (s : bytes) : list (Z * nat) := runes_from (length s) s.

(** [utf8.ValidString]: no visited position is an encoding error. *)
Definition valid_utf8 (s : bytes) : bool :=
  forallb (λ '(r, w), negb ((r =? RuneError) && (w =? 1)%nat)) (runes s).

(** [utf8.DecodeLastRune]: the widest start among the last four bytes whose
    sequence reaches the end, and an error of width 1 when there is none. *)
Definition decode_last_rune (s : bytes) : Z * nat :=
  match rev s with
  | [] => (RuneError, 0%nat)
  | _ :: _ =>
    let n := length s in
    let try k := if (k <=? n)%nat then
                   let '(r, w) := decode_rune (drop (n - k) s) in
                   if (w =? k)%nat then Some (r, w) else None
                 else None in
    match try 4%nat, try 3%nat, try 2%nat with
    | Some x, _, _ | None, Some x, _ | None, None, Some x => x
    | None, None, None => match try 1%nat with Some x => x | None => (RuneError, 1%nat) end
    end
  end.

(** ** unicode *)

Definition in_ranges (rs : list (Z * Z)) (r : Z) : bool :=
  existsb (λ '(lo, hi), (lo <=? r) && (r <=? hi)) rs.

Definition is_control (r : Z) : bool := in_ranges [(0, 0x1F); (0x7F, 0x9F)] r.
Definition is_space (r : Z) : bool :=
  in_ranges [(9, 13); (32, 32); (0x85, 0x85); (0xA0, 0xA0); (0x1680, 0x1680); (0x2000, 0x200A);
             (0x2028, 0x2029); (0x202F, 0x202F); (0x205F, 0x205F); (0x3000, 0x3000)] r.

(** The Unicode 15 categories [Cf], [Zl] and [Zp]. *)
Definition in_Cf (r : Z) : bool :=
  in_ranges [(0xAD, 0xAD); (0x600, 0x605); (0x61C, 0x61C); (0x6DD, 0x6DD); (0x70F, 0x70F);
             (0x890, 0x891); (0x8E2, 0x8E2); (0x180E, 0x180E); (0x200B, 0x200F); (0x202A, 0x202E);
             (0x2060, 0x2064); (0x2066, 0x206F); (0xFEFF, 0xFEFF); (0xFFF9, 0xFFFB);
             (0x110BD, 0x110BD); (0x110CD, 0x110CD); (0x13430, 0x1343F); (0x1BCA0, 0x1BCA3);
             (0x1D173, 0x1D17A); (0xE0001, 0xE0001); (0xE0020, 0xE007F)] r.
Definition in_Zl (r : Z) : bool := r =? 0x2028.
Definition in_Zp (r : Z) : bool := r =? 0x2029.

(** [TrimSpace]: white space off both ends, code point by code point. *)
Fixpoint trim_space_left (fuel : nat) (s : bytes) : bytes :=
  match fuel, s with
  | O, _ | _, [] => s
  | S fuel, _ =>
      let '(r, w) := decode_rune s in
      if is_space r then trim_space_left fuel (drop w s) else s
  end.
Fixpoint trim_space_right (fuel : nat) (s : bytes) : bytes :=
  match fuel, s with
  | O, _ | _, [] => s
  | S fuel, _ =>
      let '(r, w) := decode_last_rune s in
      if is_space r then trim_space_right fuel (take (length s - w) s) else s
  end.
Definition trim_space (s : bytes) : bytes :=
  let t := trim_space_left (length s) s in trim_space_right (length t) t.

(** [unicode.IsPrint]: up to U+00FF as the library has it; which later code points are
    printable is data of the Unicode version the toolchain carries, a parameter. *)
Class UnicodeData := { printable_above : Z → bool }.
Definition is_print `{UnicodeData} (r : Z) : bool :=
  if r <? 0x100 then in_ranges [(0x20, 0x7E); (0xA1, 0xAC); (0xAE, 0xFF)] r else printable_above r.

(** [utf8.RuneCountInString] *)
Definition rune_count (s : bytes) : Z := Z.of_nat (length (runes s)).

(** [bytes.ToLower], exact where the result is ASCII: besides [A]-[Z] only U+0130
    and U+212A lower to ASCII letters.  Any other code point stays itself here and
    lowers to something outside ASCII there, which a search for an ASCII needle
    cannot tell apart. *)
Fixpoint to_lower_from (fuel : nat) (s : bytes) : bytes :=
  match fuel, s with
  | O, _ | _, [] => []
  | S fuel, _ =>
      let '(r, w) := decode_rune s in
      (if (65 <=? r) && (r <=? 90) then [byte_of (r + 32)]
       else if r =? 0x130 then [byte_of 0x69]
       else if r =? 0x212A then [byte_of 0x6B]
       else take w s) ++ to_lower_from fuel (drop w s)
  end.
Definition to_lower (s : bytes) : bytes := to_lower_from (length s) s.

(** ** encoding/hex and encoding/base64 *)

Definition hex_digit (z : Z) : ascii := byte_of (if z <? 10 then 48 + z else 87 + z).
Definition hex_encode (s : bytes) : gostring :=
  b ← s; [hex_digit (byte_val b / 16); hex_digit (byte_val b mod 16)].

(** The two alphabets: they differ in their last two characters. *)
Definition b64_alphabet (c62 c63 : Z) (v : Z) : ascii :=
  byte_of (if v <? 26 then 65 + v else if v <? 52 then 97 + (v - 26)
           else if v <? 62 then 48 + (v - 52) else if v =? 62 then c62 else c63).
Definition b64_value (c62 c63 : Z) (a : ascii) : option Z :=
  let c := byte_val a in
  if (65 <=? c) && (c <=? 90) then Some (c - 65)
  else if (97 <=? c) && (c <=? 122) then Some (c - 71)
  else if (48 <=? c) && (c <=? 57) then Some (c + 4)
  else if c =? c62 then Some 62
  else if c =? c63 then Some 63
  else None.

Fixpoint b64_encode (enc : Z → ascii) (pad : bytes) (s : bytes) : gostring :=
  match byte_val <$> s, s with
  | x :: y :: z :: _, _ :: _ :: _ :: s' =>
      enc (x / 4) :: enc ((x mod 4) * 16 + y / 16) :: enc ((y mod 16) * 4 + z / 64) :: enc (z mod 64)
      :: b64_encode enc pad s'
  | [x; y], _ => [enc (x / 4); enc ((x mod 4) * 16 + y / 16); enc ((y mod 16) * 4)] ++ pad
  | [x], _ => [enc (x / 4); enc ((x mod 4) * 16)] ++ pad ++ pad
  | _, _ => []
  end.

(** [base64.StdEncoding.EncodeToString] and [base64.RawURLEncoding]'s pair.  The
    decoder skips line breaks, ignores the unused bits of a short last group, as
    the non-strict encodings do, and refuses a lone last character. *)
Definition std_b64 (s : bytes) : gostring := b64_encode (b64_alphabet 43 47) [byte_of 61] s.
Definition rawurl_b64 (s : bytes) : gostring := b64_encode (b64_alphabet 45 95) [] s.

Fixpoint b64_groups (vs : list Z) : option bytes :=
  match vs with
  | a :: b :: c :: d :: vs' =>
      rest ← b64_groups vs';
      Some (byte_of (a * 4 + b / 16) :: byte_of ((b mod 16) * 16 + c / 4)
            :: byte_of ((c mod 4) * 64 + d) :: rest)
  | [a; b; c] => Some [byte_of (a * 4 + b / 16); byte_of ((b mod 16) * 16 + c / 4)]
  | [a; b] => Some [byte_of (a * 4 + b / 16)]
  | [_] => None
  | [] => Some []
  end.
Definition rawurl_decode (s : gostring) : option bytes :=
  vs ← mapM (b64_value 45 95) (filter (λ c, ¬ (c = byte_of 10 ∨ c = byte_of 13)) s);
  b64_groups vs.

(** ** What the client proofs use *)

(** Bring the range of every byte of the context in. *)
Ltac byte_ranges :=
  repeat match goal with
  | x : ascii |- _ =>
      lazymatch goal with H : 0 ≤ byte_val x < 256 |- _ => fail | _ => pose proof (byte_val_range x) end
  end.

(** A code point is a byte of ASCII or spans bytes that are all outside it. *)
Lemma decode_rune_cases c t r w : decode_rune (c :: t) = (r, w) →
  (w = 1%nat ∧ r = byte_val c ∧ byte_val c < 128) ∨
  ((1 ≤ w ≤ length (c :: t))%nat ∧ 128 ≤ r ∧ Forall (λ b, 128 ≤ byte_val b) (take w (c :: t))).
Proof.
  unfold decode_rune. rewrite fmap_cons.
  destruct (byte_val c <? 128) eqn:H0; [intros; simplify_eq; reflect_bools; auto|].
  assert (∀ v, (v = (RuneError, 1%nat)) → v = (r, w) →
    (w = 1%nat ∧ r = byte_val c ∧ byte_val c < 128) ∨
    ((1 ≤ w ≤ length (c :: t))%nat ∧ 128 ≤ r ∧ Forall (λ b, 128 ≤ byte_val b) (take w (c :: t)))) as Herr.
  { intros ? -> ?. simplify_eq. right. reflect_bools. unfold RuneError.
    split_and!; simpl; try lia. repeat constructor. lia. }
  destruct (_ || _) eqn:H1; [by apply Herr|]. apply orb_false_iff in H1 as [H1 H1']. reflect_bools.
  destruct t as [|c1 t]; [by apply Herr|]. cbn [fmap list_fmap].
  destruct (second_byte_ok _ _) eqn:H2; [|by apply Herr].
  assert (128 ≤ byte_val c1 < 192 ∧ (byte_val c = 224 → 160 ≤ byte_val c1) ∧
          (byte_val c = 240 → 144 ≤ byte_val c1)) as H2'.
  { unfold second_byte_ok in H2. reflect_bools.
    repeat match goal with H : context [if ?b then _ else _] |- _ => destruct b eqn:?; reflect_bools end; lia. }
  clear H2. simpl negb. cbv iota.
  destruct (_ <? 224) eqn:H3; reflect_bools.
  { intros. simplify_eq. right. split_and!; simpl; try lia; [Z.to_euclidean_division_equations; lia|].
    repeat constructor; lia. }
  destruct t as [|c2 t]; [by apply Herr|]. cbn [fmap list_fmap].
  destruct (continuation (byte_val c2)) eqn:H4; [|by apply Herr]. unfold continuation in H4. reflect_bools.
  simpl negb. cbv iota.
  destruct (_ <? 240) eqn:H5; reflect_bools.
  { intros. simplify_eq. right. split_and!; simpl; try lia; [Z.to_euclidean_division_equations; lia|].
    repeat constructor; lia. }
  destruct t as [|c3 t]; [by apply Herr|]. cbn [fmap list_fmap].
  destruct (continuation (byte_val c3)) eqn:H6; [|by apply Herr]. unfold continuation in H6. reflect_bools.
  simpl negb. cbv iota. intros. simplify_eq. right.
  split_and!; simpl; try lia; [Z.to_euclidean_division_equations; lia|]. repeat constructor; lia.
Qed.

(** Every ASCII byte of a string is one of the code points the range loop visits. *)
Lemma runes_ascii fuel s c : (length s ≤ fuel)%nat → c ∈ s → byte_val c < 128 →
  ∃ w, (byte_val c, w) ∈ runes_from fuel s.
Proof.
  revert s. induction fuel as [|fuel IH]; intros s Hf Hc Ha.
  { destruct s; [by apply elem_of_nil in Hc|simpl in Hf; lia]. }
  destruct s as [|b t]; [by apply elem_of_nil in Hc|]. cbn [runes_from].
  destruct (decode_rune (b :: t)) as [r w] eqn:Hd.
  destruct (decode_rune_cases _ _ _ _ Hd) as [(-> & -> & Hb)|(Hw & Hr & Hall)].
  - apply elem_of_cons in Hc as [->|Hc]; [by exists 1%nat; left|].
    destruct (IH t) as [w Hin]; [simpl in Hf; lia|done..|]. exists w. by right.
  - rewrite <- (take_drop w (b :: t)) in Hc. apply elem_of_app in Hc as [Hc|Hc].
    { rewrite Forall_forall in Hall. specialize (Hall _ Hc). lia. }
    destruct (IH (drop w (b :: t))) as [w' Hin]; [rewrite length_drop; lia|done..|]. exists w'. by right.
Qed.

(** Decoding does not look past the end of the code point it finds. *)
Lemma decode_rune_app p u r w : p ≠ [] → decode_rune p = (r, w) → r ≠ RuneError →
  decode_rune (p ++ u) = (r, w).
Proof.
  unfold decode_rune. rewrite fmap_app. intros Hp Hd Hr.
  destruct p as [|c0 [|c1 [|c2 [|c3 p]]]]; [done|..]; simpl in *;
    repeat match goal with
    | H : context [if ?b then _ else _] |- _ => destruct b; try congruence
    end.
Qed.

Lemma decode_rune_width c t : (1 ≤ snd (decode_rune (c :: t)) ≤ length (c :: t))%nat.
Proof.
  destruct (decode_rune (c :: t)) as [r w] eqn:H. simpl.
  destruct (decode_rune_cases _ _ _ _ H) as [(-> & _)|[? _]]; simpl in *; lia.
Qed.

Lemma decode_last_rune_width s : s ≠ [] → (1 ≤ snd (decode_last_rune s) ≤ length s)%nat.
Proof.
  intros Hs. destruct s as [|c t] using rev_ind; [done|]. clear IHt Hs. unfold decode_last_rune.
  rewrite rev_app_distr, length_app. simpl.
  repeat case_match; simplify_eq; simpl; reflect_bools; try lia;
    repeat match goal with H : (_ =? _)%nat = true |- _ => apply Nat.eqb_eq in H
    | H : (_ <=? _)%nat = true |- _ => apply Nat.leb_le in H end; lia.
Qed.

Definition starts_nonspace (s : bytes) : Prop := s = [] ∨ is_space (fst (decode_rune s)) = false.
Definition ends_nonspace (s : bytes) : Prop := s = [] ∨ is_space (fst (decode_last_rune s)) = false.

Lemma trim_space_left_starts fuel s : (length s ≤ fuel)%nat → starts_nonspace (trim_space_left fuel s).
Proof.
  revert s. induction fuel as [|fuel IH]; intros [|c t] H; try (by left); [simpl in H; lia|].
  pose proof (decode_rune_width c t) as Hw. cbn [trim_space_left].
  destruct (decode_rune (c :: t)) as [r w] eqn:Hd.
  destruct (is_space r) eqn:Hsp; [|right; by rewrite Hd].
  apply IH. rewrite length_drop. simpl in *. lia.
Qed.

Lemma trim_space_right_ends fuel s : (length s ≤ fuel)%nat →
  ends_nonspace (trim_space_right fuel s) ∧ ∃ n, trim_space_right fuel s = take n s.
Proof.
  revert s. induction fuel as [|fuel IH]; intros [|c t] H; try (by split; [left|exists 0%nat]); [simpl in H; lia|].
  pose proof (decode_last_rune_width (c :: t) ltac:(done)) as Hw. cbn [trim_space_right].
  destruct (decode_last_rune (c :: t)) as [r w] eqn:Hd.
  destruct (is_space r) eqn:Hsp.
  - destruct (IH (take (length (c :: t) - w) (c :: t))) as [Hl [n Hn]].
    { rewrite length_take. simpl in *. lia. }
    split; [done|]. eexists. by rewrite Hn, take_take.
  - split; [right; by rewrite Hd|]. exists (length (c :: t)). by rewrite firstn_all.
Qed.

Lemma starts_nonspace_take n s : starts_nonspace s → starts_nonspace (take n s).
Proof.
  intros [->|Hs]; [left; by destruct n|]. destruct (decide (take n s = [])) as [|Hn]; [by left|]. right.
  destruct (decode_rune (take n s)) as [r w] eqn:Hd. simpl.
  destruct (is_space r) eqn:Hr; [|done]. rewrite <- (take_drop n s) in Hs.
  rewrite (decode_rune_app _ _ _ _ Hn Hd) in Hs; [simpl in Hs; congruence|]. by intros ->.
Qed.

Lemma trim_space_left_id fuel s : starts_nonspace s → trim_space_left fuel s = s.
Proof.
  intros [->|H]; destruct fuel as [|fuel]; try done. destruct s; [done|]. cbn [trim_space_left].
  destruct (decode_rune _) as [r w]. simpl in H. by rewrite H.
Qed.

Lemma trim_space_right_id fuel s : ends_nonspace s → trim_space_right fuel s = s.
Proof.
  intros [->|H]; destruct fuel as [|fuel]; try done. destruct s; [done|]. cbn [trim_space_right].
  destruct (decode_last_rune _) as [r w]. simpl in H. by rewrite H.
Qed.

Lemma trim_space_idemp s : trim_space (trim_space s) = trim_space s.
Proof.
  unfold trim_space at 2 3. set (t := trim_space_left _ s).
  destruct (trim_space_right_ends (length t) t) as [He [n Hn]]; [done|].
  unfold trim_space. rewrite (trim_space_left_id _ (trim_space_right _ t)).
  - by apply trim_space_right_id.
  - rewrite Hn. by apply starts_nonspace_take, trim_space_left_starts.
Qed.

(** The text encodings are visible ASCII without blanks. *)
Definition visible (c : ascii) : Prop := 33 ≤ byte_val c ≤ 126.

Lemma b64_alphabet_visible c62 c63 v : 33 ≤ c62 ≤ 126 → 33 ≤ c63 ≤ 126 → 0 ≤ v < 64 →
  visible (b64_alphabet c62 c63 v).
Proof.
  intros ???. unfold visible, b64_alphabet. rewrite byte_val_of.
  repeat case_match; reflect_bools; rewrite Z.mod_small; lia.
Qed.

Lemma b64_encode_all (P : ascii → Prop) enc pad s :
  (∀ v, 0 ≤ v < 64 → P (enc v)) → Forall P pad → Forall P (b64_encode enc pad s).
Proof.
  intros He Hp. induction s as [s IH] using (induction_ltof1 _ length). unfold ltof in IH.
  destruct s as [|x [|y [|z s]]]; byte_ranges; simpl; [constructor|..].
  - repeat apply Forall_cons_2; [apply He; Z.to_euclidean_division_equations; lia..|].
    by apply Forall_app_2.
  - repeat apply Forall_cons_2; [apply He; Z.to_euclidean_division_equations; lia..|done].
  - repeat apply Forall_cons_2; [apply He; Z.to_euclidean_division_equations; lia..|].
    apply IH. simpl. lia.
Qed.

Lemma std_b64_visible s : Forall visible (std_b64 s).
Proof.
  apply b64_encode_all; [intros; by apply b64_alphabet_visible|].
  repeat constructor; vm_compute; congruence.
Qed.

(** Decoding undoes encoding for the unpadded URL alphabet. *)
Lemma b64_value_alphabet v : 0 ≤ v < 64 → b64_value 45 95 (b64_alphabet 45 95 v) = Some v.
Proof.
  intros Hv. unfold b64_value, b64_alphabet. rewrite byte_val_of.
  repeat case_match; reflect_bools; simplify_eq;
    rewrite ?Z.mod_small in * by lia; try congruence; try lia; f_equal; lia.
Qed.

(** Three bytes are four digits and back. *)
Lemma byte_of_eq v c : v mod 256 = byte_val c → byte_of v = c.
Proof. intros H. apply byte_val_inj. by rewrite byte_val_of. Qed.

Lemma rawurl_values s : ∃ vs,
  mapM (b64_value 45 95) (rawurl_b64 s) = Some vs ∧ b64_groups vs = Some s.
Proof.
  unfold rawurl_b64. induction s as [s IH] using (induction_ltof1 _ length). unfold ltof in IH.
  destruct s as [|x [|y [|z s]]]; byte_ranges; cbn -[b64_value b64_alphabet Z.div Z.modulo]; [by exists []|..];
    rewrite ?b64_value_alphabet by (Z.to_euclidean_division_equations; lia); cbn -[Z.div Z.modulo].
  - eexists. split; [done|]. cbn -[Z.div Z.modulo]. do 2 f_equal.
    apply byte_of_eq. Z.to_euclidean_division_equations; lia.
  - eexists. split; [done|]. cbn -[Z.div Z.modulo].
    do 2 f_equal; [|f_equal]; apply byte_of_eq; Z.to_euclidean_division_equations; lia.
  - destruct (IH s) as (vs & Hm & Hg); [simpl; lia|].
    rewrite Hm.
    eexists. split; [done|]. cbn -[Z.div Z.modulo]. rewrite Hg. cbn -[Z.div Z.modulo].
    do 2 f_equal; [|f_equal; [|f_equal]]; apply byte_of_eq; Z.to_euclidean_division_equations; lia.
Qed.

Lemma rawurl_b64_visible s : Forall visible (rawurl_b64 s).
Proof. apply b64_encode_all; [intros; by apply b64_alphabet_visible|constructor]. Qed.

Lemma filter_all {A} (P : A → Prop) `{!∀ x, Decision (P x)} (l : list A) :
  Forall P l → filter P l = l.
Proof. induction 1; [done|]. rewrite filter_cons_True; congruence. Qed.

Lemma rawurl_decode_encode s : rawurl_decode (rawurl_b64 s) = Some s.
Proof.
  unfold rawurl_decode. destruct (rawurl_values s) as (vs & Hm & Hg).
  rewrite filter_all; [by rewrite Hm|].
  eapply Forall_impl; [apply rawurl_b64_visible|]. intros c [Hl Hu] [H|H]; subst c; by vm_compute in Hl.
Qed.

(** White space is trimmed up to a visible character, never past it. *)
Lemma decode_last_rune_suffix s r w : decode_last_rune s = (r, w) →
  r = RuneError ∨ decode_rune (drop (length s - w) s) = (r, w).
Proof.
  unfold decode_last_rune. intros H. repeat case_match; simplify_eq; auto;
    right; repeat match goal with E : (_ =? _)%nat = true |- _ => apply Nat.eqb_eq in E end; by subst.
Qed.

Lemma visible_not_space c : visible c → is_space (byte_val c) = false.
Proof.
  intros [? ?]. unfold is_space, in_ranges. simpl.
  repeat (apply orb_false_iff; split); try done; lia.
Qed.

Lemma trim_space_visible c t : visible c → ∃ t', trim_space (c :: t) = c :: t'.
Proof.
  intros Hc. assert (∀ t, decode_rune (c :: t) = (byte_val c, 1%nat)) as Hdec.
  { intros u. unfold decode_rune. rewrite fmap_cons. destruct Hc. by rewrite (proj2 (Z.ltb_lt _ 128)) by lia. }
  unfold trim_space. rewrite trim_space_left_id.
  2:{ right. rewrite Hdec. by apply visible_not_space. }
  generalize (length (c :: t)). intros fuel. revert t. induction fuel as [|fuel IH]; intros t; [by exists t|].
  cbn [trim_space_right]. destruct (decode_last_rune (c :: t)) as [r w] eqn:Hd.
  destruct (is_space r) eqn:Hr; [|by exists t].
  destruct (decode_last_rune_suffix _ _ _ Hd) as [->|Hs]; [done|].
  destruct (length (c :: t) - w)%nat as [|m] eqn:Hm.
  - change (drop 0 (c :: t)) with (c :: t) in Hs. rewrite Hdec in Hs. simplify_eq.
    by rewrite visible_not_space in Hr.
  - apply IH.
Qed.

(** ** Cutting at a separator *)

Lemma index_byte_app c a b : c ∉ a → index_byte c (a ++ c :: b) = Some (length a).
Proof.
  induction a as [|x a IH]; simpl; intros H; [by rewrite decide_True|].
  apply not_elem_of_cons in H as [? ?]. by rewrite decide_False, IH by done.
Qed.

Lemma cut_app c a b : c ∉ a → cut c (a ++ c :: b) = (a, b, true).
Proof.
  intros H. unfold cut. rewrite index_byte_app by done. rewrite take_app_length.
  replace (S (length a)) with (length (a ++ [c])) by (rewrite length_app; simpl; lia).
  replace (a ++ c :: b) with ((a ++ [c]) ++ b) by (by rewrite <- app_assoc). by rewrite drop_app_length.
Qed.

Lemma cut_sound c s a b : cut c s = (a, b, true) → s = a ++ c :: b.
Proof.
  unfold cut. destruct (index_byte c s) as [i|] eqn:H; [|done]. intros E. simplify_eq.
  revert i H. induction s as [|x s IH]; intros i; simpl; [done|]. destruct (decide (x = c)) as [->|].
  - intros [= <-]. done.
  - destruct (index_byte c s) as [j|]; [|done]. intros [= <-]. simpl. f_equal. by apply IH.
Qed.

Lemma contains_byte c s : contains [c] s = false ↔ c ∉ s.
Proof.
  induction s as [|x s IH]; simpl; [split; [intros _; apply not_elem_of_nil|done]|].
  rewrite not_elem_of_cons. case_bool_decide; simpl; [split; [done|by intros []]|]. rewrite IH.
  split; [by split|by intros []].
Qed.

Lemma cut_prefix_app p s : cut_prefix p (p ++ s) = Some s.
Proof.
  unfold cut_prefix. assert (has_prefix p (p ++ s) = true) as ->; [|by rewrite drop_app_length].
  induction p as [|c p IH]; simpl; [done|]. by rewrite bool_decide_eq_true_2, IH.
Qed.

Lemma has_prefix_sound p s : has_prefix p s = true → s = p ++ drop (length p) s.
Proof.
  revert s. induction p as [|c p IH]; intros [|x s]; simpl; try done.
  case_bool_decide; [|done]. subst. intros H. f_equal. by apply IH.
Qed.

Lemma cut_prefix_sound p s t : cut_prefix p s = Some t → s = p ++ t.
Proof. unfold cut_prefix. destruct (has_prefix p s) eqn:H; [|done]. intros [= <-]. by apply has_prefix_sound. Qed.

(** The [range] loop over an ASCII string visits its bytes. *)
Lemma runes_all_ascii s : Forall (λ c, byte_val c < 128) s → runes s = (λ c, (byte_val c, 1%nat)) <$> s.
Proof.
  unfold runes. induction 1 as [|c s Hc Hs IH]; [done|]. cbn [length runes_from]. unfold decode_rune. csimpl.
  rewrite (proj2 (Z.ltb_lt _ _) Hc). simpl. by rewrite drop_0, IH.
Qed.
