(* ===== verification/NetIP.v ===== *)
(** * Addresses

    The parts of Go's [net] and [net/netip] packages the transport layer calls:
    [netip.ParseAddr], [Addr.Unmap], [Addr.String], [netip.ParsePrefix],
    [Prefix.Masked], [Prefix.Contains], [net.SplitHostPort], [net.ParseIP] and
    [net.ParseCIDR], and [strings.EqualFold] against an ASCII string. *)

From S2P Require Import Prelude GoLib RateLimit.

Open Scope Z_scope.

(** A valid address: 32 bits, or 128 bits with a zone. *)
Inductive Addr := V4 (a : Z) | V6 (a : Z) (zone : gostring).

#[export] Instance Addr_eq_dec : EqDecision Addr.
Proof. solve_decision. Defined.

Definition DOT : ascii := byte_of 46.
Definition COLON : ascii := byte_of 58.
Definition PERCENT : ascii := byte_of 37.
Definition SLASH : ascii := byte_of 47.
Definition LBRACKET : ascii := byte_of 91.
Definition RBRACKET : ascii := byte_of 93.

(** ** Parsing *)

Definition digit (c : ascii) : option Z := let v := byte_val c in if (48 <=? v) && (v <=? 57) then Some (v - 48) else None.

Definition hexdigit (c : ascii) : option Z :=
  let v := byte_val c in
  if (48 <=? v) && (v <=? 57) then Some (v - 48)
  else if (97 <=? v) && (v <=? 102) then Some (v - 87)
  else if (65 <=? v) && (v <=? 70) then Some (v - 55)
  else None.

(** Decimal digits, most significant first. *)
Definition decimal (s : bytes) : option Z :=
  match s with
  | [] => None
  | _ => foldl (λ acc c, v ← acc; d ← digit c; Some (10 * v + d)) (Some 0) s
  end.

(** A number of at most [max] without a sign or leading zeros. *)
Definition plain_decimal (max : Z) (s : bytes) : option Z :=
  match s with
  | c :: _ :: _ => if bool_decide (c = byte_of 48) then None else v ← decimal s; if v <=? max then Some v else None
  | _ => v ← decimal s; if v <=? max then Some v else None
  end.

Definition parse_fields4 (s : bytes) : option (list Z) :=
  match split_byte DOT s with
  | [a; b; c; d] => a ← plain_decimal 255 a; b ← plain_decimal 255 b; c ← plain_decimal 255 c; d ← plain_decimal 255 d; Some [a; b; c; d]
  | _ => None
  end.

(** Fields of [w] bits, the first the most significant. *)
Definition pack (w : Z) (l : list Z) : Z := foldl (λ acc x, Z.lor (Z.shiftl acc w) x) 0 l.

Definition parseIPv4 (s : bytes) : option Addr := V4 ∘ pack 8 <$> parse_fields4 s.

(** The hexadecimal digits at the front, their value, and what follows. *)
Fixpoint take_hex (s : bytes) : list Z * bytes :=
  match s with
  | [] => ([], [])
  | c :: s' => match hexdigit c with Some d => let '(ds, r) := take_hex s' in (d :: ds, r) | None => ([], s) end
  end.

(** The loop of [parseIPv6]: [gs] are the 16-bit groups read so far, [ell] how many there
    were at the "::"; at most [n] more groups are read. *)
Fixpoint groups6 (n : nat) (gs : list Z) (ell : option nat) (s : bytes) : option (list Z * option nat * bytes) :=
  match n with
  | O => Some (gs, ell, s)
  | S n' =>
      let '(ds, rest) := take_hex s in
      if bool_decide (ds = []) || (4 <? Z.of_nat (length ds)) then None else
      match rest with
      | [] => Some (gs ++ [pack 4 ds], ell, [])
      | c :: rest' =>
          if bool_decide (c = DOT) then
            if bool_decide (ell = None) && negb (bool_decide (length gs = 6%nat)) then None else
            if bool_decide (6 < length gs)%nat then None else
            match parse_fields4 s with
            | Some [a; b; c; d] => Some (gs ++ [pack 8 [a; b]; pack 8 [c; d]], ell, [])
            | _ => None
            end
          else if bool_decide (c = COLON) then
            match rest' with
            | [] => None
            | c' :: rest'' =>
                if bool_decide (c' = COLON) then
                  if bool_decide (ell = None) then
                    match rest'' with
                    | [] => Some (gs ++ [pack 4 ds], Some (S (length gs)), [])
                    | _ => groups6 n' (gs ++ [pack 4 ds]) (Some (S (length gs))) rest''
                    end
                  else None
                else groups6 n' (gs ++ [pack 4 ds]) ell rest'
            end
          else None
      end
  end.

(** Zero groups in place of the "::". *)
Definition expand6 (gs : list Z) (ell : option nat) : option (list Z) :=
  if bool_decide (length gs < 8)%nat then
    e ← ell; Some (take e gs ++ repeat 0 (8 - length gs) ++ drop e gs)
  else if bool_decide (ell = None) then Some gs else None.

Definition finish6 (r : option (list Z * option nat * bytes)) : option Z :=
  '(gs, ell, rest) ← r; if bool_decide (rest = []) then pack 16 <$> expand6 gs ell else None.

Definition body6 (s : bytes) : option Z :=
  match s with
  | c1 :: c2 :: s' =>
      if bool_decide (c1 = COLON ∧ c2 = COLON) then
        match s' with
        | [] => Some 0
        | _ => finish6 (groups6 8 [] (Some 0%nat) s')
        end
      else finish6 (groups6 8 [] None s)
  | _ => finish6 (groups6 8 [] None s)
  end.

Definition parseIPv6 (s : bytes) : option Addr :=
  let '(b, zone, zoned) := cut PERCENT s in
  if zoned && bool_decide (zone = []) then None else (λ a, V6 a zone) <$> body6 b.

Fixpoint family (s : bytes) : option ascii :=
  match s with
  | [] => None
  | c :: s' => if bool_decide (c = DOT ∨ c = COLON ∨ c = PERCENT) then Some c else family s'
  end.

Definition ParseAddr (s : bytes) : option Addr :=
  match family s with
  | Some c => if bool_decide (c = DOT) then parseIPv4 s else if bool_decide (c = COLON) then parseIPv6 s else None
  | None => None
  end.

Definition Is4In6 (a : Z) : bool := Z.shiftr a 32 =? 0xffff.

Definition Unmap (x : Addr) : Addr :=
  match x with
  | V6 a _ => if Is4In6 a then V4 (Z.land a 0xffffffff) else x
  | V4 _ => x
  end.

Definition BitLen (x : Addr) : Z := match x with V4 _ => 32 | V6 _ _ => 128 end.

(** ** Printing *)

Definition field (w : Z) (n i : nat) (a : Z) : Z := Z.land (Z.shiftr a (w * Z.of_nat (n - 1 - i))) (Z.ones w).
Definition fields (w : Z) (n : nat) (a : Z) : list Z := (λ i, field w n i a) <$> seq 0 n.

Fixpoint join (c : ascii) (l : list gostring) : gostring :=
  match l with
  | [] => []
  | [x] => x
  | x :: l' => x ++ c :: join c l'
  end.

Definition string4 (a : Z) : gostring := join DOT (FormatInt <$> fields 8 4 a).

Definition hex16 (x : Z) : gostring :=
  let ds := (λ i, Z.land (Z.shiftr x (4 * i)) 15) <$> [3; 2; 1; 0] in
  hex_digit <$> (if x <? 16 then drop 3 ds else if x <? 256 then drop 2 ds else if x <? 4096 then drop 1 ds else ds).

Fixpoint zeros (l : list Z) : nat := match l with x :: l' => if x =? 0 then S (zeros l') else 0%nat | [] => 0%nat end.

(** The first of the longest runs of at least two zero groups: where it starts and its length. *)
Fixpoint best_run (i : nat) (l : list Z) (best : option (nat * nat)) : option (nat * nat) :=
  match l with
  | [] => best
  | x :: l' =>
      let n := zeros l in
      let better := (2 <=? n)%nat && match best with Some (_, m) => (m <? n)%nat | None => true end in
      best_run (S i) l' (if better then Some (i, n) else best)
  end.

Definition string6 (a : Z) : gostring :=
  let gs := fields 16 8 a in
  match best_run 0 gs None with
  | Some (i, n) => join COLON (hex16 <$> take i gs) ++ COLON :: COLON :: join COLON (hex16 <$> drop (i + n) gs)
  | None => join COLON (hex16 <$> gs)
  end.

Definition Addr_String (x : Addr) : gostring :=
  match x with
  | V4 a => string4 a
  | V6 a zone =>
      (if Is4In6 a then go "::ffff:" ++ string4 (Z.land a 0xffffffff) else string6 a) ++
      (if bool_decide (zone = []) then [] else PERCENT :: zone)
  end.

(** ** Prefixes *)

Record Prefix := MkPrefix { pfx_addr : Addr; pfx_bits : Z }.

Definition withoutZone (x : Addr) : Addr := match x with V6 a _ => V6 a [] | V4 _ => x end.
Definition PrefixFrom (x : Addr) (bits : Z) : Prefix := MkPrefix (withoutZone x) bits.

Definition has_zone (x : Addr) : bool := match x with V6 _ zone => negb (bool_decide (zone = [])) | V4 _ => false end.

(** [strings.LastIndexByte]. *)
Definition last_index (c : ascii) (s : bytes) : option nat := (λ i, length s - 1 - i)%nat <$> index_byte c (rev s).

Definition ParsePrefix (s : bytes) : option Prefix :=
  i ← last_index SLASH s;
  x ← ParseAddr (take i s);
  if has_zone x then None else
  PrefixFrom x <$> plain_decimal (BitLen x) (drop (S i) s).

Definition addr_bits (x : Addr) : Z := match x with V4 a => a | V6 a _ => a end.
Definition with_bits (x : Addr) (a : Z) : Addr := match x with V4 _ => V4 a | V6 _ zone => V6 a zone end.

Definition Masked (p : Prefix) : Prefix :=
  let low := BitLen (pfx_addr p) - pfx_bits p in
  MkPrefix (with_bits (pfx_addr p) (Z.shiftl (Z.shiftr (addr_bits (pfx_addr p)) low) low)) (pfx_bits p).

Definition Contains (p : Prefix) (x : Addr) : bool :=
  negb (has_zone x) && (BitLen (pfx_addr p) =? BitLen x) &&
  (Z.shiftr (Z.lxor (addr_bits x) (addr_bits (pfx_addr p))) (BitLen x - pfx_bits p) =? 0).

(** [net.SplitHostPort]: host and port. *)
Definition split_host_port (s : bytes) : option (bytes * bytes) :=
  i ← last_index COLON s;
  match s with
  | c :: _ =>
      if bool_decide (c = LBRACKET) then
        e ← index_byte RBRACKET s;
        if bool_decide (S e = i) then
          if mem_byte LBRACKET (drop 1 s) || mem_byte RBRACKET (drop (S e) s) then None else Some (take (e - 1) (drop 1 s), drop (S i) s)
        else None
      else
        let host := take i s in
        if mem_byte COLON host || mem_byte LBRACKET s || mem_byte RBRACKET s then None else Some (host, drop (S i) s)
  | [] => None
  end.
Definition SplitHostPort (s : bytes) : option bytes := fst <$> split_host_port s.

(** [net.ParseIP], which takes no zone; an address in either of its two forms. *)
Definition ParseIP (s : bytes) : option Addr := a ← ParseAddr s; if has_zone a then None else Some (Unmap a).

(** [net.ParseCIDR]: unlike [ParsePrefix] it takes leading zeros in the length. *)
Definition ParseCIDR (s : bytes) : option (Addr * Z) :=
  let '(addr, mask, found) := cut SLASH s in
  if negb found then None else
  a ← ParseAddr addr; if has_zone a then None else
  n ← decimal mask; if n <=? BitLen a then Some (a, n) else None.

Definition IsUnspecified (a : Addr) : bool := match a with V4 a => a =? 0 | V6 a _ => a =? 0 end.
Definition IsLoopback (a : Addr) : bool := match a with V4 a => Z.shiftr a 24 =? 127 | V6 a _ => a =? 1 end.
Definition IsPrivate (a : Addr) : bool :=
  match a with
  | V4 a => (Z.shiftr a 24 =? 10) || (Z.shiftr a 20 =? 0xac1) || (Z.shiftr a 16 =? 0xc0a8)
  | V6 a _ => Z.land (Z.shiftr a 120) 0xfe =? 0xfc
  end.

(** [strings.EqualFold(s, t)] for an ASCII [t] in lower case: only k and s have partners
    outside ASCII. *)
Definition fold_rune (r : Z) : Z :=
  if (65 <=? r) && (r <=? 90) then r + 32 else if r =? 0x17F then 115 else if r =? 0x212A then 107 else r.
Definition equal_fold (s t : gostring) : bool := bool_decide ((fold_rune ∘ fst <$> runes s) = (byte_val <$> t)).


(** ** Lemmas *)

Lemma join_cons2 c x y l : join c (x :: y :: l) = x ++ c :: join c (y :: l).
Proof. done. Qed.

Lemma fields_four w a : fields w 4 a = [field w 4 0 a; field w 4 1 a; field w 4 2 a; field w 4 3 a].
Proof. done. Qed.

Lemma Addr_String_nonempty x : Addr_String x ≠ [].
Proof.
  assert (∀ a, string4 a ≠ []) as H4.
  { intros a. unfold string4. rewrite fields_four, !fmap_cons, join_cons2. by intros [_ ?]%app_eq_nil. }
  destruct x as [a|a zone]; [apply H4|]. cbn [Addr_String]. intros [H _]%app_eq_nil. destruct (Is4In6 a); [done|].
  unfold string6 in H. destruct (best_run _ _ _) as [[i n]|]; [by apply app_eq_nil in H as [_ ?]|].
  change (fields 16 8 a) with (field 16 8 0 a :: field 16 8 1 a :: tail (tail (fields 16 8 a))) in H.
  rewrite !fmap_cons, join_cons2 in H. by apply app_eq_nil in H as [_ ?].
Qed.
