(* ===== verification/GoNum.v ===== *)
(** * Numbers in text

    The conversions of Go's [strconv] and [time] that read configuration values:
    [strconv.ParseBool], [strconv.Atoi], [strconv.ParseFloat] with the rounding of IEEE
    754 double precision, and [time.ParseDuration].  A double is a [spec_float]; its
    order is that of the numbers it stands for. *)

From Stdlib Require Import SpecFloat.
From S2P Require Import Prelude GoLib RateLimit NetIP.

Open Scope Z_scope.

(** ** Integers and booleans *)

Definition MINUS : ascii := byte_of 45.
Definition PLUS : ascii := byte_of 43.
Definition UNDERSCORE : ascii := byte_of 95.

(** An optional sign. *)
Definition take_sign (s : bytes) : bool * bytes :=
  match s with
  | c :: s' => if bool_decide (c = MINUS) then (true, s') else if bool_decide (c = PLUS) then (false, s') else (false, s)
  | [] => (false, s)
  end.

Definition Atoi (s : bytes) : option Z :=
  let '(neg, digits) := take_sign s in
  n ← decimal digits;
  let n := if neg then - n else n in
  if (int64_min <=? n) && (n <=? int64_max) then Some n else None.

Definition ParseBool (s : bytes) : option bool :=
  if existsb (λ l, bool_decide (s = go l)) ["1"; "t"; "T"; "true"; "TRUE"; "True"]%string then Some true
  else if existsb (λ l, bool_decide (s = go l)) ["0"; "f"; "F"; "false"; "FALSE"; "False"]%string then Some false
  else None.

(** ** Doubles *)

Abbreviation prec := 53.
Abbreviation emax := 1024.

Definition float_of_Z (n : Z) : spec_float := binary_normalize prec emax n 0 false.

(** The double nearest to [num / den]. *)
Definition float_of_ratio (neg : bool) (num den : Z) : spec_float :=
  if num =? 0 then S754_zero neg else
  let '(q, e, loc) := SFdiv_core_binary prec emax num 0 den 0 in binary_round_aux prec emax neg q e loc.

(** The sign and the magnitude of a number as an integer over a power of two. *)
Definition float_lt (x y : spec_float) : bool :=
  let cmp m1 e1 m2 e2 := let e := Z.min e1 e2 in Z.shiftl m1 (e1 - e) <? Z.shiftl m2 (e2 - e) in
  match x, y with
  | S754_nan, _ | _, S754_nan => false
  | S754_infinity a, S754_infinity b => a && negb b
  | S754_infinity a, _ => a
  | _, S754_infinity b => negb b
  | _, _ =>
      let num f := match f with S754_finite s m e => (if s then - Zpos m else Zpos m, e) | _ => (0, 0) end in
      cmp (num x).1 (num x).2 (num y).1 (num y).2
  end.
Definition float_le (x y : spec_float) : bool :=
  match x, y with S754_nan, _ | _, S754_nan => false | _, _ => negb (float_lt y x) end.

Definition is_nan (x : spec_float) : bool := match x with S754_nan => true | _ => false end.
Definition is_inf (x : spec_float) : bool := match x with S754_infinity _ => true | _ => false end.

(** The conversion of a double to an integer: what is after the point is dropped. *)
Definition float_trunc (x : spec_float) : Z :=
  match x with
  | S754_finite s m e => let n := if 0 <=? e then Z.shiftl (Zpos m) e else Z.shiftr (Zpos m) (- e) in if s then - n else n
  | _ => 0
  end.

(** *** Reading a double *)

(** The digits of a mantissa in some base, with at most one point and underscores: their
    value, how many there were, how many came after the point, and the rest. *)
Fixpoint mantissa (base : Z) (s : bytes) (dot : bool) (m : Z) (n frac : Z) : Z * Z * Z * bytes :=
  match s with
  | [] => (m, n, frac, [])
  | c :: s' =>
      if bool_decide (c = UNDERSCORE) then mantissa base s' dot m n frac
      else if bool_decide (c = DOT) then if dot then (m, n, frac, s) else mantissa base s' true m n frac
      else match (if base =? 16 then hexdigit c else digit c) with
           | Some d => mantissa base s' dot (base * m + d) (n + 1) (if dot then frac + 1 else frac)
           | None => (m, n, frac, s)
           end
  end.

Fixpoint exponent_digits (s : bytes) (e : Z) : Z * bytes :=
  match s with
  | [] => (e, [])
  | c :: s' =>
      if bool_decide (c = UNDERSCORE) then exponent_digits s' e
      else match digit c with
           | Some d => exponent_digits s' (if e <? 10000 then 10 * e + d else e)
           | None => (e, s)
           end
  end.

(** The exponent after its letter, if there is one. *)
Definition exponent (letter : ascii) (s : bytes) : option (option Z * bytes) :=
  match s with
  | c :: s' =>
      if bool_decide (c = letter ∨ c = byte_of (byte_val letter - 32)) then
        let '(neg, s'') := take_sign s' in
        match s'' with
        | d :: _ =>
            match digit d with
            | Some _ => let '(e, rest) := exponent_digits s'' 0 in Some (Some (if neg then - e else e), rest)
            | None => None
            end
        | [] => None
        end
      else Some (None, s)
  | [] => Some (None, [])
  end.

(** Underscores only separate digits; a base prefix counts as one. *)
Inductive saw := SawStart | SawDigit | SawUnderscore | SawOther.
Fixpoint underscores_ok (hex : bool) (last : saw) (s : bytes) : bool :=
  match s with
  | [] => match last with SawUnderscore => false | _ => true end
  | c :: s' =>
      if bool_decide (is_Some (if hex then hexdigit c else digit c)) then underscores_ok hex SawDigit s'
      else if bool_decide (c = UNDERSCORE) then match last with SawDigit => underscores_ok hex SawUnderscore s' | _ => false end
      else match last with SawUnderscore => false | _ => underscores_ok hex SawOther s' end
  end.

Definition strip_hex (s : bytes) : option bytes :=
  match s with
  | z :: x :: s' => if bool_decide (z = byte_of 48 ∧ (x = byte_of 120 ∨ x = byte_of 88)) then Some s' else None
  | _ => None
  end.

(** Words for the values that are not numbers. *)
Definition ascii_lower (s : bytes) : bytes := (λ c, let v := byte_val c in if (65 <=? v) && (v <=? 90) then byte_of (v + 32) else c) <$> s.
Definition special (s : bytes) : option spec_float :=
  let '(neg, t) := take_sign s in
  if bool_decide (ascii_lower s = go "nan") then Some S754_nan
  else if existsb (λ l, bool_decide (ascii_lower t = go l)) ["inf"; "infinity"]%string then Some (S754_infinity neg)
  else None.

(** [strconv.ParseFloat(s, 64)]; a value out of range is an error. *)
Definition ParseFloat (s : bytes) : option spec_float :=
  match special s with
  | Some v => Some v
  | None =>
      let '(neg, t) := take_sign s in
      let body := default t (strip_hex t) in
      let hex := bool_decide (is_Some (strip_hex t)) in
      let base := if hex then 16 else 10 in
      let '(m, n, frac, rest) := mantissa base body false 0 0 0 in
      if n =? 0 then None else
      '(e, rest') ← exponent (byte_of (if hex then 112 else 101)) rest;
      if hex && bool_decide (e = None) || negb (bool_decide (rest' = [])) then None else
      if bool_decide (UNDERSCORE ∈ t) && negb (underscores_ok hex (if hex then SawDigit else SawStart) body) then None else
      let e := default 0 e in
      let x := if hex then
                 let e := e - 4 * frac in
                 if 0 <=? e then float_of_ratio neg (Z.shiftl m e) 1 else float_of_ratio neg m (Z.shiftl 1 (- e))
               else
                 let e := e - frac in
                 if 0 <=? e then float_of_ratio neg (m * 10 ^ e) 1 else float_of_ratio neg m (10 ^ (- e)) in
      if is_inf x then None else Some x
  end.

(** ** Durations *)

Definition two63 : Z := 2 ^ 63.

Fixpoint leadingInt (s : bytes) (x : Z) : option (Z * bytes) :=
  match s with
  | [] => Some (x, [])
  | c :: s' =>
      match digit c with
      | None => Some (x, s)
      | Some d =>
          if two63 / 10 <? x then None else
          let x := 10 * x + d in if two63 <? x then None else leadingInt s' x
      end
  end.

(** The digits after a point: their value and the power of ten they are over; digits that
    do not fit are dropped. *)
Fixpoint leadingFraction (s : bytes) (x : Z) (scale : spec_float) (overflow : bool) : Z * spec_float * bytes :=
  match s with
  | [] => (x, scale, [])
  | c :: s' =>
      match digit c with
      | None => (x, scale, s)
      | Some d =>
          if overflow || (int64_max / 10 <? x) then leadingFraction s' x scale true else
          let y := 10 * x + d in
          if two63 <? y then leadingFraction s' x scale true
          else leadingFraction s' y (SFmul prec emax scale (float_of_Z 10)) overflow
      end
  end.

Definition unit_char (c : ascii) : bool := negb (bool_decide (c = DOT)) && negb (bool_decide (is_Some (digit c))).
Fixpoint take_unit (s : bytes) : bytes * bytes :=
  match s with
  | c :: s' => if unit_char c then let '(u, r) := take_unit s' in (c :: u, r) else ([], s)
  | [] => ([], [])
  end.

(** The micro sign and the Greek mu, in UTF-8. *)
Definition unitMap (u : bytes) : option duration :=
  if bool_decide (u = go "ns") then Some 1
  else if bool_decide (u = go "us" ∨ u = [byte_of 0xC2; byte_of 0xB5; byte_of 115] ∨ u = [byte_of 0xCE; byte_of 0xBC; byte_of 115]) then Some 1000
  else if bool_decide (u = go "ms") then Some 1000000
  else if bool_decide (u = go "s") then Some Second
  else if bool_decide (u = go "m") then Some Minute
  else if bool_decide (u = go "h") then Some Hour
  else None.

(** The part after the point, if there is one: its digits, their scale, whether there
    were any, and the rest. *)
Definition duration_fraction (rest : bytes) : Z * spec_float * bool * bytes :=
  match rest with
  | d :: rest' =>
      if bool_decide (d = DOT) then
        let '(f, scale, rest'') := leadingFraction rest' 0 (float_of_Z 1) false in (f, scale, negb (length rest' =? length rest'')%nat, rest'')
      else (0, float_of_Z 1, false, rest)
  | [] => (0, float_of_Z 1, false, rest)
  end.

(** One number and its unit, in nanoseconds. *)
Definition duration_term (s : bytes) : option (Z * bytes) :=
  match s with
  | [] => None
  | c :: _ =>
      if unit_char c then None else
      '(v, rest) ← leadingInt s 0;
      let pre := negb (length s =? length rest)%nat in
      let '(f, scale, post, rest) := duration_fraction rest in
      if negb pre && negb post then None else
      let '(u, rest) := take_unit rest in
      if bool_decide (u = []) then None else
      unit ← unitMap u;
      if two63 / unit <? v then None else
      let v := v * unit in
      if 0 <? f then
        let v := v + float_trunc (SFmul prec emax (float_of_Z f) (SFdiv prec emax (float_of_Z unit) scale)) in
        if two63 <? v then None else Some (v, rest)
      else Some (v, rest)
  end.

Fixpoint duration_terms (fuel : nat) (s : bytes) (d : Z) : option Z :=
  match s with
  | [] => Some d
  | _ =>
      match fuel with
      | O => None
      | S fuel => '(v, rest) ← duration_term s; let d := d + v in if two63 <? d then None else duration_terms fuel rest d
      end
  end.

(** [time.ParseDuration]; each term takes at least one byte. *)
Definition ParseDuration (s : bytes) : option duration :=
  let '(neg, t) := take_sign s in
  if bool_decide (t = go "0") then Some 0 else
  if bool_decide (t = []) then None else
  d ← duration_terms (length t) t 0;
  if neg then Some (- d) else if int64_max <? d then None else Some d.

Example parse_duration_1 : ParseDuration (go "1h30m") = Some (90 * Minute).
Proof. vm_compute. reflexivity. Qed.
Example parse_duration_2 : ParseDuration (go "-1.5s") = Some (- (1500000000)).
Proof. vm_compute. reflexivity. Qed.
Example parse_duration_3 : ParseDuration (go "9223372036854775808ns") = None.
Proof. vm_compute. reflexivity. Qed.
Example parse_float_1 : ParseFloat (go "0.1") = Some (S754_finite false 7205759403792794 (-56)).
Proof. vm_compute. reflexivity. Qed.
Example parse_float_2 : ParseFloat (go "1_0.5e-1") = ParseFloat (go "1.05") ∧ ParseFloat (go "1__0") = None ∧ ParseFloat (go "1e400") = None.
Proof. vm_compute. auto. Qed.
Example parse_float_3 : ParseFloat (go "0x1.8p1") = Some (S754_finite false 6755399441055744 (-51)).
Proof. vm_compute. reflexivity. Qed.

(** ** Lemmas *)

(** Not below zero. *)
Definition float_nonneg (x : spec_float) : Prop := match x with S754_finite s _ _ => s = false | _ => True end.

Lemma binary_round_aux_nonneg m e l : float_nonneg (binary_round_aux prec emax false m e l).
Proof. unfold binary_round_aux. destruct (shr_fexp _ _ _ _ _) as [r1 e1]. destruct (shr_fexp _ _ _ _ _) as [r2 e2]. destruct (shr_m r2); [done| |done]. by destruct (_ <=? _). Qed.

Lemma float_of_Z_nonneg n : 0 ≤ n → float_nonneg (float_of_Z n).
Proof.
  intros Hn. unfold float_of_Z, binary_normalize. destruct n as [|p|p]; [done| |lia]. unfold binary_round. destruct (shl_align _ _ _). apply binary_round_aux_nonneg.
Qed.

Lemma SFmul_nonneg x y : float_nonneg x → float_nonneg y → float_nonneg (SFmul prec emax x y).
Proof. destruct x, y; try done. simpl. intros -> ->. apply binary_round_aux_nonneg. Qed.

Lemma SFdiv_nonneg x y : float_nonneg x → float_nonneg y → float_nonneg (SFdiv prec emax x y).
Proof. destruct x, y; try done. simpl. intros -> ->. destruct (SFdiv_core_binary _ _ _ _ _ _) as [[q e'] l]. apply binary_round_aux_nonneg. Qed.

Lemma float_trunc_nonneg x : float_nonneg x → 0 ≤ float_trunc x.
Proof. destruct x as [| | |s m e]; simpl; try lia. intros ->. destruct (0 <=? e); [apply Z.shiftl_nonneg|apply Z.shiftr_nonneg]; lia. Qed.

(** Below two to the 63rd, the integer part fits. *)
Lemma float_trunc_fits x : float_nonneg x → float_le (float_of_Z int64_max) x = false → float_trunc x ≤ int64_max.
Proof.
  assert (float_of_Z int64_max = S754_finite false 4503599627370496 11) as -> by (vm_compute; reflexivity).
  change int64_max with (2 ^ 63 - 1). destruct x as [| [] | |s m e]; simpl; try lia; try done. intros ->. unfold float_le, float_lt.
  intros H%negb_false_iff%Z.ltb_lt. cbn [fst snd] in H. 
  destruct (Z.leb_spec 0 e) as [He|He].
  - rewrite Z.shiftl_mul_pow2 by done. destruct (Z.le_gt_cases e 11).
    + rewrite Z.min_l, Z.sub_diag, Z.shiftl_0_r in H by done. rewrite Z.shiftl_mul_pow2 in H by lia.
      assert (Z.pos m * 2 ^ e < 4503599627370496 * 2 ^ (11 - e) * 2 ^ e); [apply Z.mul_lt_mono_pos_r; [apply Z.pow_pos_nonneg; lia|done]|].
      rewrite <- Z.mul_assoc, <- Z.pow_add_r in H1 by lia. replace (11 - e + e) with 11 in H1 by lia. lia.
    + rewrite Z.min_r, Z.sub_diag, Z.shiftl_0_r in H by lia. rewrite Z.shiftl_mul_pow2 in H by lia.
      replace e with (e - 11 + 11) by lia. rewrite Z.pow_add_r by lia. rewrite Z.mul_assoc. lia.
  - rewrite Z.min_l, Z.sub_diag, Z.shiftl_0_r in H by lia. rewrite Z.shiftl_mul_pow2 in H by lia.
    rewrite Z.shiftr_div_pow2 by lia. replace (11 - e) with (11 + - e) in H by lia. rewrite Z.pow_add_r, Z.mul_assoc in H by lia.
    rewrite (Z.mul_comm _ (2 ^ (- e))) in H. apply Z.div_lt_upper_bound in H; [lia|]. apply Z.pow_pos_nonneg; lia.
Qed.

Lemma float_lt_zero x : is_nan x = false → is_inf x = false → float_lt x (S754_zero false) = false → float_nonneg x.
Proof.
  destruct x as [| | |[] m e]; try done. intros _ _ H. unfold float_lt in H. cbn [fst snd] in H. exfalso. apply Z.ltb_ge in H.
  rewrite Z.shiftl_0_l in H. rewrite Z.shiftl_mul_pow2 in H by lia. pose proof (Z.pow_pos_nonneg 2 (e - Z.min e 0)) as Hp. nia.
Qed.

Lemma leadingInt_nonneg s x v rest : 0 ≤ x → leadingInt s x = Some (v, rest) → 0 ≤ v.
Proof.
  revert x. induction s as [|c s IH]; intros x Hx; simpl; [by intros [= <- _]|]. destruct (digit c) as [d|] eqn:Ed; [|by intros [= <- _]].
  destruct (_ <? x); [done|]. destruct (two63 <? _); [done|]. apply IH. unfold digit in Ed. destruct (_ && _) eqn:E; [|done]. injection Ed as <-.
  apply andb_true_iff in E as [E%Z.leb_le _]. lia.
Qed.

Lemma leadingFraction_nonneg s x scale o f scale' rest : float_nonneg scale → leadingFraction s x scale o = (f, scale', rest) → float_nonneg scale'.
Proof.
  revert x scale o. induction s as [|c s IH]; intros x scale o Hs; simpl; [by intros [= _ <- _]|]. destruct (digit c); [|by intros [= _ <- _]].
  destruct (o || _); [by apply IH|]. destruct (two63 <? _); [by apply IH|]. apply IH. by apply SFmul_nonneg.
Qed.

Lemma unitMap_positive u d : unitMap u = Some d → 0 < d.
Proof. unfold unitMap. repeat (destruct (bool_decide _); [intros [= <-]; vm_compute; reflexivity|]). done. Qed.

Lemma duration_term_nonneg s v rest : duration_term s = Some (v, rest) → 0 ≤ v.
Proof.
  destruct s as [|c s]; [done|]. unfold duration_term. destruct (unit_char c); [done|]. intros ([v0 r0] & Hi & H)%bind_Some. apply leadingInt_nonneg in Hi; [|done].
  revert H. destruct (duration_fraction r0) as [[[f scale] post] r1] eqn:Ef.
  assert (float_nonneg scale) as Hs.
  { unfold duration_fraction in Ef. destruct r0 as [|d r0]; [by injection Ef as _ <- _ _|]. destruct (bool_decide _); [|by injection Ef as _ <- _ _].
    destruct (leadingFraction r0 0 _ false) as [[f' scale'] r'] eqn:El. injection Ef as _ <- _ _. eapply leadingFraction_nonneg; [|exact El]. by vm_compute. }
  destruct (_ && _); [done|]. destruct (take_unit r1) as [u r2]. destruct (bool_decide _); [done|]. intros (unit & Hu%unitMap_positive & H)%bind_Some. revert H.
  destruct (_ <? v0); [done|]. destruct (Z.ltb_spec 0 f); [|intros [= <- _]; nia].
  destruct (two63 <? _); [done|]. intros [= <- _]. enough (0 ≤ float_trunc (SFmul prec emax (float_of_Z f) (SFdiv prec emax (float_of_Z unit) scale))) by nia.
  apply float_trunc_nonneg, SFmul_nonneg; [apply float_of_Z_nonneg; lia|]. apply SFdiv_nonneg; [apply float_of_Z_nonneg; lia|done].
Qed.

Lemma duration_terms_nonneg fuel s d d' : 0 ≤ d → duration_terms fuel s d = Some d' → 0 ≤ d'.
Proof.
  revert s d. induction fuel as [|fuel IH]; intros [|c s] d Hd; [by intros [= <-]|done|by intros [= <-]|]. cbn [duration_terms].
  intros ([v rest] & Hv%duration_term_nonneg & H)%bind_Some. revert H. destruct (two63 <? _); [done|]. apply IH. lia.
Qed.

(** A duration with no sign fits. *)
Lemma ParseDuration_fits s d : ParseDuration s = Some d → d ≤ int64_max.
Proof.
  unfold ParseDuration. destruct (take_sign s) as [neg t]. destruct (bool_decide _); [by intros [= <-]|]. destruct (bool_decide _); [done|].
  intros (d0 & H%duration_terms_nonneg & H')%bind_Some; [|done]. revert H'. destruct neg; [intros [= <-]; change int64_max with (2 ^ 63 - 1); lia|].
  destruct (Z.ltb_spec int64_max d0); [done|]. intros [= <-]. done.
Qed.

(** ** Dates *)

(** The civil date of a day count since 1970, and a number with zeros in front. *)
Definition civil (days : Z) : Z * Z * Z :=
  let z := days + 719468 in
  let era := z / 146097 in
  let doe := z mod 146097 in
  let yoe := (doe - doe / 1460 + doe / 36524 - doe / 146096) / 365 in
  let doy := doe - (365 * yoe + yoe / 4 - yoe / 100) in
  let mp := (5 * doy + 2) / 153 in
  let m := if mp <? 10 then mp + 3 else mp - 9 in
  (yoe + era * 400 + (if m <=? 2 then 1 else 0), m, doy - (153 * mp + 2) / 5 + 1).
Definition padded (width : nat) (n : Z) : gostring :=
  let s := FormatInt n in replicate (width - length s) (byte_of 48) ++ s.
