(* ===== verification/GoJson.v ===== *)
(** * JSON

    Go's [encoding/json], as far as the program uses it: the text that [json.Marshal]
    writes, the values that [json.Unmarshal] and [json.Decoder.Decode] read from a text,
    and how a value is stored into Go's types.  What is written is read back
    ([parse_print]). *)

From stdpp Require Import pretty.
From S2P Require Import Prelude GoLib RateLimit NetIP GoNum.

Open Scope Z_scope.

(** ** Characters *)

Definition QUOTE : ascii := byte_of 34.
Definition BACKSLASH : ascii := byte_of 92.
Definition COMMA : ascii := byte_of 44.
Definition LBRACE : ascii := byte_of 123.
Definition RBRACE : ascii := byte_of 125.

(** [utf8.AppendRune] *)
Definition encode_rune (r : Z) : bytes :=
  let three r := [byte_of (224 + r / 4096); byte_of (128 + r / 64 mod 64); byte_of (128 + r mod 64)] in
  if (r <? 0) || (0x10FFFF <? r) || ((0xD800 <=? r) && (r <=? 0xDFFF)) then three RuneError else
  if r <? 0x80 then [byte_of r] else
  if r <? 0x800 then [byte_of (192 + r / 64); byte_of (128 + r mod 64)] else
  if r <? 0x10000 then three r else
  [byte_of (240 + r / 262144); byte_of (128 + r / 4096 mod 64); byte_of (128 + r / 64 mod 64); byte_of (128 + r mod 64)].

(** ** Values and their text *)

(** A number is known by its literal. *)
#[warnings="-register-all"]
Inductive jvalue :=
  | VNull
  | VBool (b : bool)
  | VNum (lit : gostring)
  | VStr (s : gostring)
  | VArr (l : list jvalue)
  | VObj (ms : list (gostring * jvalue)).

Definition json_hex (r : Z) : gostring :=
  go "\u" ++ [hex_digit (r / 4096 mod 16); hex_digit (r / 256 mod 16); hex_digit (r / 16 mod 16); hex_digit (r mod 16)].

(** The text of one character: those that JSON and HTML need are escaped, encoding errors
    become the replacement character. *)
Definition json_rune (r : Z) (w : nat) (s : bytes) : gostring :=
  if (r =? 34) || (r =? 92) then [byte_of 92; byte_of r]
  else if r =? 8 then go "\b" else if r =? 12 then go "\f" else if r =? 10 then go "\n"
  else if r =? 13 then go "\r" else if r =? 9 then go "\t"
  else if (r <? 32) || (r =? 60) || (r =? 62) || (r =? 38) || (r =? 0x2028) || (r =? 0x2029)
       || ((r =? RuneError) && (w =? 1)%nat) then json_hex r
  else take w s.
Fixpoint json_chars (fuel : nat) (s : bytes) : gostring :=
  match fuel, s with
  | O, _ | _, [] => []
  | S fuel, _ => let '(r, w) := decode_rune s in json_rune r w s ++ json_chars fuel (drop w s)
  end.
Definition json_string (s : gostring) : gostring := QUOTE :: json_chars (length s) s ++ [QUOTE].
Definition json_int (z : Z) : gostring := FormatInt z.

(** A sequence between two brackets. *)
Fixpoint json_tail (close : ascii) (vs : list gostring) : gostring :=
  match vs with [] => [close] | v :: vs => COMMA :: v ++ json_tail close vs end.
Definition json_seq (open close : ascii) (vs : list gostring) : gostring :=
  open :: match vs with [] => [close] | v :: vs => v ++ json_tail close vs end.
Definition json_member (name v : gostring) : gostring := json_string name ++ COLON :: v.

(** [json.Marshal] of a value. *)
Fixpoint print (v : jvalue) : gostring :=
  match v with
  | VNull => go "null"
  | VBool b => go (if b then "true" else "false")
  | VNum lit => lit
  | VStr s => json_string s
  | VArr l => json_seq LBRACKET RBRACKET (print <$> l)
  | VObj ms => json_seq LBRACE RBRACE ((λ m, json_member m.1 (print m.2)) <$> ms)
  end.

(** ** Reading *)

Definition json_blanks : list ascii := [byte_of 32; byte_of 9; byte_of 13; byte_of 10].
Definition skip_blanks (s : bytes) : bytes := trim_left json_blanks s.

(** Four hexadecimal digits. *)
Definition getu4 (s : bytes) : option (Z * bytes) :=
  match s with
  | a :: b :: c :: d :: rest => a ← hexdigit a; b ← hexdigit b; c ← hexdigit c; d ← hexdigit d; Some (4096 * a + 256 * b + 16 * c + d, rest)
  | _ => None
  end.

(** [utf16.DecodeRune], [None] for what is not a pair. *)
Definition utf16_pair (r1 r2 : Z) : option Z :=
  if (0xD800 <=? r1) && (r1 <? 0xDC00) && (0xDC00 <=? r2) && (r2 <? 0xE000) then Some ((r1 - 0xD800) * 1024 + (r2 - 0xDC00) + 0x10000) else None.

(** The code point of an escape whose first unit is [r]; half a pair alone becomes the
    replacement character, and what follows it stays to be read. *)
Definition escaped_rune (r : Z) (rest : bytes) : Z * bytes :=
  if (0xD800 <=? r) && (r <? 0xE000) then
    match cut_prefix (go "\u") rest with
    | Some s => match getu4 s with
                | Some (r2, rest') => match utf16_pair r r2 with Some x => (x, rest') | None => (RuneError, rest) end
                | None => (RuneError, rest)
                end
    | None => (RuneError, rest)
    end
  else (r, rest).

Definition simple_escape (c : ascii) : option ascii :=
  let v := byte_val c in
  if (v =? 34) || (v =? 92) || (v =? 47) then Some c
  else if v =? 98 then Some (byte_of 8) else if v =? 102 then Some (byte_of 12) else if v =? 110 then Some (byte_of 10)
  else if v =? 114 then Some (byte_of 13) else if v =? 116 then Some (byte_of 9) else None.

(** The string up to its closing quote, and what follows it. *)
Fixpoint unquote (fuel : nat) (s : bytes) : option (bytes * bytes) :=
  match fuel, s with
  | O, _ | _, [] => None
  | S fuel, c :: t =>
      if bool_decide (c = QUOTE) then Some ([], t)
      else if bool_decide (c = BACKSLASH) then
        match t with
        | [] => None
        | e :: t =>
            if byte_val e =? 117 then
              '(r, rest) ← getu4 t;
              let '(r, rest) := escaped_rune r rest in
              '(x, rest) ← unquote fuel rest; Some (encode_rune r ++ x, rest)
            else b ← simple_escape e; '(x, rest) ← unquote fuel t; Some (b :: x, rest)
        end
      else if byte_val c <? 32 then None
      else let '(r, w) := decode_rune s in '(x, rest) ← unquote fuel (drop w s); Some (encode_rune r ++ x, rest)
  end.

(** The digits at the front. *)
Fixpoint take_digits (s : bytes) : bytes * bytes :=
  match s with
  | c :: s' => match digit c with Some _ => let '(ds, rest) := take_digits s' in (c :: ds, rest) | None => ([], s) end
  | [] => ([], [])
  end.
Definition some_digits (s : bytes) : option (bytes * bytes) := match take_digits s with ([], _) => None | p => Some p end.

Definition scan_int (s : bytes) : option (bytes * bytes) :=
  match s with
  | c :: s' => if bool_decide (c = byte_of 48) then Some ([c], s') else some_digits s
  | [] => None
  end.
Definition scan_frac (s : bytes) : option (bytes * bytes) :=
  match s with
  | c :: s' => if bool_decide (c = DOT) then '(ds, rest) ← some_digits s'; Some (c :: ds, rest) else Some ([], s)
  | [] => Some ([], [])
  end.
Definition scan_exp (s : bytes) : option (bytes * bytes) :=
  match s with
  | c :: s' =>
      if (byte_val c =? 101) || (byte_val c =? 69) then
        match s' with
        | sg :: s'' => if bool_decide (sg = PLUS) || bool_decide (sg = MINUS) then '(ds, rest) ← some_digits s''; Some (c :: sg :: ds, rest)
                       else '(ds, rest) ← some_digits s'; Some (c :: ds, rest)
        | [] => None
        end
      else Some ([], s)
  | [] => Some ([], [])
  end.
Definition scan_sign (s : bytes) : bytes * bytes :=
  match s with c :: s' => if bool_decide (c = MINUS) then ([c], s') else ([], s) | [] => ([], []) end.
Definition scan_number (s : bytes) : option (gostring * bytes) :=
  let '(sign, s) := scan_sign s in
  '(i, s) ← scan_int s; '(f, s) ← scan_frac s; '(e, s) ← scan_exp s; Some (sign ++ i ++ f ++ e, s).

(** [maxNestingDepth] *)
Definition max_depth : nat := Z.to_nat 10000.

(** One value, after blanks, and what follows it; [room]: how many brackets may still be
    opened. *)
Fixpoint parse_value (fuel room : nat) (s : bytes) : option (jvalue * bytes) :=
  match fuel with
  | O => None
  | S fuel =>
      match skip_blanks s with
      | [] => None
      | c :: t =>
          if bool_decide (c = QUOTE) then '(x, rest) ← unquote (length t) t; Some (VStr x, rest)
          else if bool_decide (c = LBRACKET) then
            match room with
            | O => None
            | S room =>
                match skip_blanks t with
                | d :: rest => if bool_decide (d = RBRACKET) then Some (VArr [], rest) else '(l, rest) ← parse_elements fuel room t; Some (VArr l, rest)
                | [] => None
                end
            end
          else if bool_decide (c = LBRACE) then
            match room with
            | O => None
            | S room =>
                match skip_blanks t with
                | d :: rest => if bool_decide (d = RBRACE) then Some (VObj [], rest) else '(ms, rest) ← parse_members fuel room t; Some (VObj ms, rest)
                | [] => None
                end
            end
          else match cut_prefix (go "null") (c :: t), cut_prefix (go "true") (c :: t), cut_prefix (go "false") (c :: t) with
               | Some rest, _, _ => Some (VNull, rest)
               | None, Some rest, _ => Some (VBool true, rest)
               | None, None, Some rest => Some (VBool false, rest)
               | None, None, None => '(lit, rest) ← scan_number (c :: t); Some (VNum lit, rest)
               end
      end
  end
with parse_elements (fuel room : nat) (s : bytes) : option (list jvalue * bytes) :=
  match fuel with
  | O => None
  | S fuel =>
      '(v, rest) ← parse_value fuel room s;
      match skip_blanks rest with
      | d :: rest => if bool_decide (d = RBRACKET) then Some ([v], rest)
                     else if bool_decide (d = COMMA) then '(l, rest) ← parse_elements fuel room rest; Some (v :: l, rest) else None
      | [] => None
      end
  end
with parse_members (fuel room : nat) (s : bytes) : option (list (gostring * jvalue) * bytes) :=
  match fuel with
  | O => None
  | S fuel =>
      match skip_blanks s with
      | q :: t =>
          if negb (bool_decide (q = QUOTE)) then None else
          '(k, rest) ← unquote (length t) t;
          match skip_blanks rest with
          | d :: rest =>
              if negb (bool_decide (d = COLON)) then None else
              '(v, rest) ← parse_value fuel room rest;
              match skip_blanks rest with
              | d :: rest => if bool_decide (d = RBRACE) then Some ([(k, v)], rest)
                             else if bool_decide (d = COMMA) then '(ms, rest) ← parse_members fuel room rest; Some ((k, v) :: ms, rest) else None
              | [] => None
              end
          | [] => None
          end
      | [] => None
      end
  end.

(** The next value of a stream, and what is left of it. *)
Definition decode_value (s : bytes) : option (jvalue * bytes) := parse_value (2 * length s + 2) max_depth s.
(** A text that is one value. *)
Definition whole_value (s : bytes) : option jvalue :=
  '(v, rest) ← decode_value s; if bool_decide (skip_blanks rest = []) then Some v else None.

(** ** Storing values

    A value is stored over what the destination held: [null] leaves it alone, members that
    are not there too.  [None] is an error. *)

Definition store (A : Type) : Type := jvalue → A → option A.

Definition into_string : store gostring := λ v old, match v with VNull => Some old | VStr s => Some s | _ => None end.
Definition into_bool : store bool := λ v old, match v with VNull => Some old | VBool b => Some b | _ => None end.
(** A number without fraction or exponent that fits. *)
Definition into_int64 : store Z := λ v old, match v with VNull => Some old | VNum lit => Atoi lit | _ => None end.
(** A slice; its elements start from [zero]. *)
Definition into_list {A} (zero : A) (elem : store A) : store (list A) := λ v old,
  match v with VNull => Some [] | VArr l => mapM (λ x, elem x zero) l | _ => None end.
Definition into_map {A} (zero : A) (elem : store A) : store (gmap gostring A) := λ v old,
  match v with
  | VNull => Some ∅
  | VObj ms => foldl (λ acc m, acc ← acc; x ← elem m.2 zero; Some (<[m.1 := x]> acc)) (Some old) ms
  | _ => None
  end.
(** [json.RawMessage], as the value it will be read as. *)
Definition into_raw : store (option jvalue) := λ v old, Some (Some v).

(** Names compare exactly first, then up to case.  The two letters outside ASCII that fold
    into it are the long s and the Kelvin sign. *)
Definition json_fold_rune (r : Z) : Z :=
  if (97 <=? r) && (r <=? 122) then r - 32 else if r =? 0x17F then 83 else if r =? 0x212A then 75 else r.
Definition fold_name (s : gostring) : list Z := json_fold_rune ∘ fst <$> runes s.

Section struct.
Context {A : Type} (strict : bool) (fields : list (string * store A)).

Definition find_field (name : gostring) : option (store A) :=
  match List.find (λ f, bool_decide (go f.1 = name)) fields with
  | Some f => Some f.2
  | None => snd <$> List.find (λ f, bool_decide (fold_name (go f.1) = fold_name name)) fields
  end.

Fixpoint store_members (ms : list (gostring * jvalue)) (a : A) : option A :=
  match ms with
  | [] => Some a
  | (k, v) :: ms =>
      match find_field k with
      | Some st => a ← st v a; store_members ms a
      | None => if strict then None else store_members ms a
      end
  end.

(** A struct with these fields; [strict]: unknown members are errors. *)
Definition into_struct : store A := λ v a, match v with VNull => Some a | VObj ms => store_members ms a | _ => None end.
End struct.

(** [json.Unmarshal] *)
Definition Unmarshal {A} (st : store A) (s : bytes) (zero : A) : option A := v ← whole_value s; st v zero.
(** [json.Decoder.Decode] *)
Definition Decode {A} (st : store A) (s : bytes) (zero : A) : option (A * bytes) := '(v, rest) ← decode_value s; a ← st v zero; Some (a, rest).

(** ** What is written is read back: characters *)

Lemma encode_decode c t r w : decode_rune (c :: t) = (r, w) → ¬ (r = RuneError ∧ w = 1%nat) →
  encode_rune r = take w (c :: t) ∧ ∀ u, decode_rune (take w (c :: t) ++ u) = (r, w).
Proof.
  intros Hd Hne. 
  assert (∀ b, byte_of (byte_val b) = b) as Hb by apply byte_of_val. 
  unfold decode_rune in Hd. rewrite fmap_cons in Hd. pose proof (byte_val_range c) as Hc.
  destruct (byte_val c <? 128) eqn:H0.
  { injection Hd as <- <-. split; [|intros u; unfold decode_rune; cbn [take app fmap list_fmap]; by rewrite H0].
    unfold encode_rune. cbn [take]. repeat (case_match; reflect_bools; try lia). by rewrite Hb. }
  destruct ((byte_val c <? 194) || (244 <? byte_val c)) eqn:H1; [injection Hd as <- <-; by destruct Hne|].
  destruct t as [|c1 t]; [injection Hd as <- <-; by destruct Hne|]. cbn [fmap list_fmap] in Hd.
  destruct (second_byte_ok (byte_val c) (byte_val c1)) eqn:H2; [|injection Hd as <- <-; by destruct Hne]. cbn [negb] in Hd.
  assert (128 ≤ byte_val c1 < 192 ∧ (byte_val c = 224 → 160 ≤ byte_val c1) ∧ (byte_val c = 237 → byte_val c1 ≤ 159) ∧
          (byte_val c = 240 → 144 ≤ byte_val c1) ∧ (byte_val c = 244 → byte_val c1 ≤ 143)) as H2'.
  { unfold second_byte_ok in H2. reflect_bools.
    repeat match goal with H : context [if ?b then _ else _] |- _ => destruct b eqn:?; reflect_bools end; lia. }
  destruct (byte_val c <? 224) eqn:H3.
  { injection Hd as <- <-. split; [|intros u; unfold decode_rune; cbn [take app fmap list_fmap]; by rewrite H0, H1, H2, H3].
    reflect_bools. unfold encode_rune. cbn [take]. set (r := byte_val c mod 32 * 64 + byte_val c1 mod 64).
    assert (128 ≤ r < 2048) by (unfold r; Z.to_euclidean_division_equations; lia).
    repeat (case_match; reflect_bools; try lia). f_equal; [|f_equal]; apply byte_of_eq; unfold r; Z.to_euclidean_division_equations; lia. }
  destruct t as [|c2 t]; [injection Hd as <- <-; by destruct Hne|]. cbn [fmap list_fmap] in Hd.
  destruct (continuation (byte_val c2)) eqn:H4; [|injection Hd as <- <-; by destruct Hne]. cbn [negb] in Hd.
  destruct (byte_val c <? 240) eqn:H5.
  { injection Hd as <- <-. split; [|intros u; unfold decode_rune; cbn [take app fmap list_fmap]; by rewrite H0, H1, H2, H3, H4, H5].
    unfold continuation in H4. reflect_bools. unfold encode_rune. cbn [take]. set (r := byte_val c mod 16 * 4096 + byte_val c1 mod 64 * 64 + byte_val c2 mod 64).
    assert (2048 ≤ r < 65536 ∧ ¬ (55296 ≤ r ≤ 57343)) by (unfold r; Z.to_euclidean_division_equations; lia).
    repeat (case_match; reflect_bools; try lia). f_equal; [|f_equal; [|f_equal]]; apply byte_of_eq; unfold r; Z.to_euclidean_division_equations; lia. }
  destruct t as [|c3 t]; [injection Hd as <- <-; by destruct Hne|]. cbn [fmap list_fmap] in Hd.
  destruct (continuation (byte_val c3)) eqn:H6; [|injection Hd as <- <-; by destruct Hne]. cbn [negb] in Hd.
  injection Hd as <- <-. split; [|intros u; unfold decode_rune; cbn [take app fmap list_fmap]; by rewrite H0, H1, H2, H3, H4, H5, H6].
  unfold continuation in H4, H6. reflect_bools. unfold encode_rune. cbn [take].
  set (r := byte_val c mod 8 * 262144 + byte_val c1 mod 64 * 4096 + byte_val c2 mod 64 * 64 + byte_val c3 mod 64).
  assert (65536 ≤ r ≤ 1114111) by (unfold r; Z.to_euclidean_division_equations; lia).
  repeat (case_match; reflect_bools; try lia). f_equal; [|f_equal; [|f_equal; [|f_equal]]]; apply byte_of_eq; unfold r; Z.to_euclidean_division_equations; lia.
Qed.

Lemma hexdigit_hex_digit d : 0 ≤ d < 16 → hexdigit (hex_digit d) = Some d.
Proof.
  intros Hd. unfold hex_digit. destruct (Z.ltb_spec d 10).
  - unfold hexdigit. rewrite byte_val_of, Z.mod_small by lia. repeat (case_match; reflect_bools; try lia). f_equal. lia.
  - unfold hexdigit. rewrite byte_val_of, Z.mod_small by lia. repeat (case_match; reflect_bools; try lia). f_equal. lia.
Qed.

Lemma getu4_hex r u : 0 ≤ r < 65536 →
  getu4 ([hex_digit (r / 4096 mod 16); hex_digit (r / 256 mod 16); hex_digit (r / 16 mod 16); hex_digit (r mod 16)] ++ u) = Some (r, u).
Proof.
  intros Hr. cbn [app getu4]. rewrite !hexdigit_hex_digit by (apply Z.mod_pos_bound; lia). cbn [mbind option_bind].
  do 2 f_equal. Z.to_euclidean_division_equations. lia.
Qed.

Lemma runes_from_enough n s : (length s ≤ n)%nat → runes_from n s = runes s.
Proof.
  unfold runes. remember (length s) as m eqn:Em. assert (length s ≤ m)%nat as Hm by lia. clear Em. intros Hn.
  revert n s Hm Hn. induction m as [|m IH]; intros n s Hm Hn.
  - destruct s; [|simpl in Hm; lia]. by destruct n.
  - destruct s as [|c t]; [by destruct n|]. destruct n as [|n]; [lia|]. cbn [runes_from].
    destruct (decode_rune (c :: t)) as [r w] eqn:E. f_equal. pose proof (decode_rune_width c t) as Hw. rewrite E in Hw. cbn [snd] in Hw.
    apply IH; [rewrite length_drop; lia|lia].
Qed.

Lemma valid_utf8_cons c t r w : decode_rune (c :: t) = (r, w) → valid_utf8 (c :: t) = true →
  ¬ (r = RuneError ∧ w = 1%nat) ∧ valid_utf8 (drop w (c :: t)) = true.
Proof.
  intros E. unfold valid_utf8. unfold runes at 1. cbn [length runes_from]. rewrite E. cbn [forallb]. rewrite andb_true_iff.
  pose proof (decode_rune_width c t) as Hw. rewrite E in Hw. cbn [snd] in Hw.
  rewrite runes_from_enough by (rewrite length_drop; cbn [length] in *; lia). intros [H1 H2]. split; [|done].
  intros [-> ->]. done.
Qed.

Lemma unquote_hex fuel r u x rest : 0 ≤ r < 55296 → unquote fuel u = Some (x, rest) → unquote (S fuel) (json_hex r ++ u) = Some (encode_rune r ++ x, rest).
Proof.
  intros Hr Hu. unfold json_hex. change (go "\u") with [BACKSLASH; byte_of 117]. pose proof (getu4_hex r u ltac:(lia)) as Hg. cbn [app] in Hg |- *.
  cbn [unquote]. rewrite bool_decide_eq_false_2, bool_decide_eq_true_2 by done. change (byte_val (byte_of 117) =? 117) with true. cbv iota.
  rewrite Hg. cbn [mbind option_bind]. unfold escaped_rune. destruct ((55296 <=? r) && (r <? 57344)) eqn:Es; [reflect_bools; lia|].
  rewrite Hu. done.
Qed.

(** One step of reading a string: the text of a character gives it back. *)
Lemma unquote_rune fuel c t r w u x rest : decode_rune (c :: t) = (r, w) → ¬ (r = RuneError ∧ w = 1%nat) →
  unquote fuel u = Some (x, rest) → unquote (S fuel) (json_rune r w (c :: t) ++ u) = Some (take w (c :: t) ++ x, rest).
Proof.
  intros Hd Hne Hu. destruct (encode_decode _ _ _ _ Hd Hne) as [He Happ]. 
  destruct (decode_rune_cases _ _ _ _ Hd) as [(-> & -> & Hlt)|(Hw & Hr & Hall)].
  - assert (byte_of (byte_val c) = c) as Hb by apply byte_of_val. pose proof (byte_val_range c) as Hc. unfold json_rune. cbn [take] in *.
    assert (∀ v b, simple_escape v = Some b → byte_val v ≠ 117 → byte_val c = byte_val b → unquote (S fuel) (BACKSLASH :: v :: u) = Some ([c] ++ x, rest)) as Hesc.
    { intros v b Hv Hv' E. cbn [unquote]. rewrite bool_decide_eq_false_2 by done. rewrite bool_decide_eq_true_2 by done.
      apply Z.eqb_neq in Hv'. rewrite Hv', Hv. cbn [mbind option_bind]. rewrite Hu. cbn [mbind option_bind app]. do 3 f_equal. by apply byte_val_inj. }
    assert (∀ v, byte_val c = v → 0 ≤ v < 256 → c = byte_of v) as Hval by (intros v <- _; done).
    destruct ((byte_val c =? 34) || (byte_val c =? 92)) eqn:E1.
    { rewrite Hb. cbn [app]. apply (Hesc c c); [|reflect_bools; lia|done]. unfold simple_escape. apply orb_true_iff in E1 as [E1|E1]; rewrite E1; by rewrite ?orb_true_r. }
    destruct (byte_val c =? 8) eqn:E2; [apply Z.eqb_eq in E2; apply (Hesc (byte_of 98) (byte_of 8)); [done|done|by rewrite E2]|].
    destruct (byte_val c =? 12) eqn:E3; [apply Z.eqb_eq in E3; apply (Hesc (byte_of 102) (byte_of 12)); [done|done|by rewrite E3]|].
    destruct (byte_val c =? 10) eqn:E4; [apply Z.eqb_eq in E4; apply (Hesc (byte_of 110) (byte_of 10)); [done|done|by rewrite E4]|].
    destruct (byte_val c =? 13) eqn:E5; [apply Z.eqb_eq in E5; apply (Hesc (byte_of 114) (byte_of 13)); [done|done|by rewrite E5]|].
    destruct (byte_val c =? 9) eqn:E6; [apply Z.eqb_eq in E6; apply (Hesc (byte_of 116) (byte_of 9)); [done|done|by rewrite E6]|].
    match goal with |- context [if ?b then json_hex _ else _] => destruct b eqn:E7 end.
    + rewrite (unquote_hex _ _ _ x rest) by (done || lia). by rewrite He.
    + cbn [app unquote]. rewrite bool_decide_eq_false_2 by (intros ->; done). rewrite bool_decide_eq_false_2 by (intros ->; done).
      destruct (byte_val c <? 32) eqn:E8; [rewrite !orb_false_iff in E7; destruct E7 as ((((((? & _) & _) & _) & _) & _) & _); congruence|].
      specialize (Happ u). cbn [app] in Happ. rewrite Happ. cbn [drop]. rewrite take_0. cbn [app]. rewrite drop_0, Hu. cbn [mbind option_bind]. by rewrite He.
  - unfold json_rune. replace ((r =? 34) || (r =? 92)) with false by (symmetry; apply orb_false_iff; split; apply Z.eqb_neq; lia).
    repeat (rewrite (proj2 (Z.eqb_neq r _)) by lia). rewrite (proj2 (Z.ltb_ge r 32)) by lia. 
    match goal with |- context [if ?b then json_hex _ else _] => destruct b eqn:E7 end.
    + assert (0 ≤ r < 65536 ∧ r < 55296) as [Hr1 Hr2].
      { cbn [orb] in E7. rewrite !orb_true_iff, !Z.eqb_eq, andb_true_iff, Z.eqb_eq, Nat.eqb_eq in E7. destruct E7 as [[->| ->]|?]; [lia|lia|done]. }
      rewrite (unquote_hex _ _ _ x rest) by (done || lia). by rewrite He.
    + destruct w as [|w]; [lia|]. cbn [take app] in Hall |- *. apply Forall_cons in Hall as [Hc _]. cbn [unquote].
      rewrite bool_decide_eq_false_2 by (intros ->; done). rewrite bool_decide_eq_false_2 by (intros ->; done).
      rewrite (proj2 (Z.ltb_ge _ _)) by lia. specialize (Happ u). cbn [take app] in Happ. rewrite Happ. cbn [drop].
      rewrite drop_app_length' by (rewrite length_take; cbn [length] in Hw; lia). rewrite Hu. cbn [mbind option_bind]. by rewrite He.
Qed.

Lemma json_rune_nonempty c t r w : decode_rune (c :: t) = (r, w) → (1 ≤ length (json_rune r w (c :: t)))%nat.
Proof.
  intros Hd. pose proof (decode_rune_width c t) as Hw. rewrite Hd in Hw. cbn [snd] in Hw. destruct w as [|w]; [lia|].
  unfold json_rune, json_hex, go. repeat case_match; cbn; lia.
Qed.

Lemma unquote_chars n s u fuel : (length s ≤ n)%nat → valid_utf8 s = true → (length (json_chars n s) < fuel)%nat →
  unquote fuel (json_chars n s ++ QUOTE :: u) = Some (s, u).
Proof.
  revert s fuel. induction n as [|n IH]; intros s fuel Hn Hv Hf.
  { destruct s; [|simpl in Hn; lia]. by destruct fuel; [simpl in Hf; lia|]. }
  destruct s as [|c t]; [by destruct fuel; [simpl in Hf; lia|]|]. cbn [json_chars] in *.
  destruct (decode_rune (c :: t)) as [r w] eqn:E. pose proof (decode_rune_width c t) as Hw. rewrite E in Hw. cbn [snd] in Hw.
  destruct (valid_utf8_cons _ _ _ _ E Hv) as [Hne Hv']. pose proof (json_rune_nonempty _ _ _ _ E) as Hj.
  destruct fuel as [|fuel]; [lia|]. rewrite length_app in Hf. rewrite <- app_assoc.
  rewrite (unquote_rune _ _ _ _ _ _ (drop w (c :: t)) u E Hne); [by rewrite take_drop|].
  apply IH; [rewrite length_drop; lia|done|lia].
Qed.

(** The text of a string, read back. *)
Lemma read_string s u : valid_utf8 s = true → let t := json_chars (length s) s ++ QUOTE :: u in unquote (length t) t = Some (s, u).
Proof. intros Hv t. apply unquote_chars; [lia|done|]. unfold t. rewrite length_app. cbn [length]. lia. Qed.

(** ** Numbers *)

Definition is_digit (c : ascii) : Prop := is_Some (digit c).

(** The decimal digits of a natural number. *)
Lemma pretty_N_go_digits n acc : ∃ ds, list_ascii_of_string (pretty_N_go n acc) = ds ++ list_ascii_of_string acc ∧ Forall is_digit ds ∧
  (∀ v, foldl (λ acc c, v ← acc; d ← digit c; Some (10 * v + d)) (Some v) ds = Some (v * 10 ^ Z.of_nat (length ds) + Z.of_N n)) ∧
  (n ≠ 0%N → ∃ d ds', ds = d :: ds' ∧ d ≠ byte_of 48) ∧ (n = 0%N → ds = []).
Proof.
  revert acc. induction (N.lt_wf_0 n) as [n _ IH]. intros acc. destruct (decide (n = 0%N)) as [->|Hn].
  { exists []. rewrite pretty_N_go_0. split_and!; [done|by constructor| |done|done]. intros v. cbn. f_equal. lia. }
  assert (0 < n)%N as Hpos by lia. rewrite pretty_N_go_step by done.
  destruct (IH (n `div` 10)%N ltac:(apply N.div_lt; lia) (String (pretty_N_char (n `mod` 10)) acc)) as (ds & E & Hall & Hv & Hnz & Hz).
  set (c := pretty_N_char (n `mod` 10)) in *.
  assert (digit c = Some (Z.of_N (n `mod` 10)) ∧ ((n `mod` 10)%N ≠ 0%N → c ≠ byte_of 48)) as [Hc Hc0].
  { unfold c. pose proof (N.mod_lt n 10 ltac:(lia)) as Hm. set (k := (n `mod` 10)%N) in *. clearbody k.
    assert (k = 0 ∨ k = 1 ∨ k = 2 ∨ k = 3 ∨ k = 4 ∨ k = 5 ∨ k = 6 ∨ k = 7 ∨ k = 8 ∨ k = 9)%N as Hk by lia.
    repeat destruct Hk as [->|Hk]; [done..|subst k; done]. }
  exists (ds ++ [c]). split_and!.
  - rewrite E. cbn [list_ascii_of_string]. by rewrite <- app_assoc.
  - apply Forall_app. split; [done|]. constructor; [by eexists|constructor].
  - intros v. rewrite foldl_app, Hv. cbn [foldl mbind option_bind]. rewrite Hc. cbn [mbind option_bind]. f_equal.
    rewrite length_app, Nat2Z.inj_add. cbn [length]. rewrite Z.pow_add_r by lia. 
    assert (Z.of_N n = 10 * Z.of_N (n `div` 10) + Z.of_N (n `mod` 10)) as -> by (pose proof (N.div_mod n 10 ltac:(lia)); lia).
    change (Z.of_nat 1) with 1. lia.
  - intros _. destruct (decide ((n `div` 10)%N = 0%N)) as [E0|E0].
    + rewrite (Hz E0). cbn [app]. exists c, []. split; [done|]. apply Hc0. rewrite N.mod_small; [done|]. apply N.div_small_iff in E0; [done|lia].
    + destruct (Hnz E0) as (d & ds' & -> & Hd). exists d, (ds' ++ [c]). done.
  - lia.
Qed.

(** The digits that [FormatInt] writes. *)
Lemma pretty_N_digits n : ∃ d ds, list_ascii_of_string (pretty n) = d :: ds ∧ Forall is_digit (d :: ds) ∧ decimal (d :: ds) = Some (Z.of_N n) ∧ (d = byte_of 48 → ds = []).
Proof.
  destruct (decide (n = 0%N)) as [->|Hn].
  { exists (byte_of 48), []. split_and!; [done| |done|done]. constructor; [by eexists|constructor]. }
  unfold pretty, pretty_N. rewrite decide_False by done. destruct (pretty_N_go_digits n "") as (ds & E & Hall & Hv & Hnz & _).
  destruct (Hnz Hn) as (d & ds' & -> & Hd). exists d, ds'. cbn in E. rewrite app_nil_r in E. split_and!; [done|done| |done].
  unfold decimal. rewrite Hv. f_equal.
Qed.

Lemma digit_not_minus c : is_digit c → c ≠ MINUS.
Proof. intros [? H] ->. done. Qed.

Lemma FormatInt_digits z : ∃ d ds, FormatInt z = (if z <? 0 then [MINUS] else []) ++ d :: ds ∧ Forall is_digit (d :: ds) ∧
  decimal (d :: ds) = Some (Z.abs z) ∧ (d = byte_of 48 → ds = []).
Proof.
  destruct z as [|p|p].
  - exists (byte_of 48), []. split_and!; [done| |done|done]. constructor; [by eexists|constructor].
  - destruct (pretty_N_digits (Npos p)) as (d & ds & E & ? & ? & ?). exists d, ds. by split_and!.
  - destruct (pretty_N_digits (Npos p)) as (d & ds & E & ? & ? & ?). exists d, ds. split_and!; [|done..].
    unfold FormatInt, go. change (pretty (Zneg p)) with (String "-" (pretty (Npos p))). cbn [list_ascii_of_string]. by rewrite E.
Qed.

(** A number that is written is read as itself. *)
Lemma Atoi_FormatInt z : int64_range z → Atoi (FormatInt z) = Some z.
Proof.
  intros Hz. destruct (FormatInt_digits z) as (d & ds & -> & Hall & Hd & _). pose proof (Forall_inv Hall) as Hd0. unfold Atoi.
  destruct (Z.ltb_spec z 0).
  - cbn [app take_sign]. rewrite bool_decide_eq_true_2 by done. rewrite Hd. cbn [mbind option_bind]. replace (- Z.abs z) with z by lia.
    unfold int64_range in Hz. destruct ((_ <=? z) && _) eqn:E; [done|]. apply andb_false_iff in E as [E|E]; reflect_bools; lia.
  - cbn [app take_sign]. rewrite bool_decide_eq_false_2 by (by apply digit_not_minus). rewrite bool_decide_eq_false_2 by (intros ->; by destruct Hd0).
    rewrite Hd. cbn [mbind option_bind]. replace (Z.abs z) with z by lia.
    unfold int64_range in Hz. destruct ((_ <=? z) && _) eqn:E; [done|]. apply andb_false_iff in E as [E|E]; reflect_bools; lia.
Qed.

(** What may follow a number: nothing that would continue it. *)
Definition ends_number (rest : bytes) : Prop := match rest with [] => True | c :: _ => digit c = None ∧ c ≠ DOT ∧ byte_val c ≠ 101 ∧ byte_val c ≠ 69 end.

Lemma take_digits_all ds rest : Forall is_digit ds → (match rest with [] => True | c :: _ => digit c = None end) → take_digits (ds ++ rest) = (ds, rest).
Proof.
  intros Hall Hr. induction Hall as [|d ds [v Hd] _ IH]; cbn [app take_digits].
  - destruct rest as [|c rest]; [done|]. cbn [take_digits]. by rewrite Hr.
  - by rewrite Hd, IH.
Qed.

Lemma scan_number_FormatInt z rest : ends_number rest → scan_number (FormatInt z ++ rest) = Some (FormatInt z, rest).
Proof.
  intros Hr. destruct (FormatInt_digits z) as (d & ds & E & Hall & _ & H0). pose proof (Forall_inv Hall) as Hd0.
  assert (scan_int ((d :: ds) ++ rest) = Some (d :: ds, rest)) as Hi.
  { cbn [app scan_int]. case_bool_decide as Ed; [by rewrite (H0 Ed)|]. unfold some_digits. change (d :: ds ++ rest) with ((d :: ds) ++ rest).
    rewrite take_digits_all; [done|done|]. destruct rest; [done|]. by destruct Hr. }
  assert (scan_frac rest = Some ([], rest) ∧ scan_exp rest = Some ([], rest)) as [Hf He].
  { destruct rest as [|c rest]; [done|]. destruct Hr as (_ & H1 & H2 & H3). cbn [scan_frac scan_exp]. rewrite bool_decide_eq_false_2 by done.
    apply Z.eqb_neq in H2, H3. by rewrite H2, H3. }
  assert (scan_sign (FormatInt z ++ rest) = (if z <? 0 then [MINUS] else [], (d :: ds) ++ rest)) as Hs.
  { rewrite E. destruct (z <? 0); [done|]. cbn [app scan_sign]. rewrite bool_decide_eq_false_2; [done|]. by apply digit_not_minus. }
  unfold scan_number. rewrite Hs, Hi. cbn [mbind option_bind]. rewrite Hf. cbn [mbind option_bind]. rewrite He. cbn [mbind option_bind].
  by rewrite app_nil_r, E.
Qed.

(** ** Values *)

Section ind.
Context (P : jvalue → Prop) (Hnull : P VNull) (Hbool : ∀ b, P (VBool b)) (Hnum : ∀ n, P (VNum n)) (Hstr : ∀ s, P (VStr s))
  (Harr : ∀ l, Forall P l → P (VArr l)) (Hobj : ∀ ms, Forall (λ m, P m.2) ms → P (VObj ms)).

Fixpoint jvalue_nested_ind (v : jvalue) : P v :=
  match v with
  | VNull => Hnull | VBool b => Hbool b | VNum n => Hnum n | VStr s => Hstr s
  | VArr l => Harr l ((fix all l := match l return Forall P l with [] => Forall_nil_2 _ | x :: l => Forall_cons_2 _ _ _ (jvalue_nested_ind x) (all l) end) l)
  | VObj ms => Hobj ms ((fix all ms := match ms return Forall (λ m, P m.2) ms with [] => Forall_nil_2 _ | x :: ms => Forall_cons_2 _ x _ (jvalue_nested_ind x.2) (all ms) end) ms)
  end.
End ind.

(** Values whose text stands for them: strings are UTF-8 and numbers are integers. *)
Fixpoint writable (v : jvalue) : Prop :=
  match v with
  | VNull | VBool _ => True
  | VNum lit => ∃ z, lit = FormatInt z
  | VStr s => valid_utf8 s = true
  | VArr l => foldr (λ v P, writable v ∧ P) True l
  | VObj ms => foldr (λ m P, (valid_utf8 m.1 = true ∧ writable m.2) ∧ P) True ms
  end.

Lemma writable_arr l : writable (VArr l) ↔ Forall writable l.
Proof. cbn [writable]. induction l as [|v l IH]; cbn [foldr]; [by rewrite Forall_nil|]. by rewrite Forall_cons, IH. Qed.
Lemma writable_obj ms : writable (VObj ms) ↔ Forall (λ m, valid_utf8 m.1 = true ∧ writable m.2) ms.
Proof. cbn [writable]. induction ms as [|m ms IH]; cbn [foldr]; [by rewrite Forall_nil|]. by rewrite Forall_cons, IH. Qed.

(** The brackets a value opens at once, and the calls its reading takes. *)
Fixpoint depth (v : jvalue) : nat :=
  match v with
  | VArr l => S (foldr (λ v n, Nat.max (depth v) n) O l)
  | VObj ms => S (foldr (λ m n, Nat.max (depth m.2) n) O ms)
  | _ => O
  end.
Fixpoint calls (v : jvalue) : nat :=
  match v with
  | VArr l => S (foldr (λ v n, S (Nat.max (calls v) n)) O l)
  | VObj ms => S (foldr (λ m n, S (Nat.max (calls m.2) n)) O ms)
  | _ => 1
  end.

Definition starts_value (s : bytes) : Prop := match s with [] => False | c :: _ => c ∉ json_blanks end.

Lemma skip_blanks_value s u : starts_value s → skip_blanks (s ++ u) = s ++ u.
Proof.
  destruct s as [|c s]; [done|]. intros Hc. unfold skip_blanks. cbn [app trim_left]. unfold mem_byte.
  destruct (existsb _ _) eqn:E; [|done]. apply existsb_exists in E as (d & Hd & E). apply bool_decide_eq_true in E as ->. by apply list_elem_of_In in Hd.
Qed.

Lemma digit_not_blank c : is_digit c → c ∉ json_blanks.
Proof. intros [v Hv] Hc. unfold json_blanks in Hc. rewrite !elem_of_cons, elem_of_nil in Hc. destruct Hc as [->|[->|[->|[->|[]]]]]; done. Qed.

Ltac not_blank := refine (bool_decide_unpack _ _); vm_compute; exact I.

Lemma FormatInt_starts z : starts_value (FormatInt z).
Proof.
  destruct (FormatInt_digits z) as (d & ds & -> & Hall & _). destruct (z <? 0); cbn [app starts_value]; [not_blank|].
  apply digit_not_blank. by apply Forall_inv in Hall.
Qed.

Lemma print_starts v : writable v → starts_value (print v).
Proof. destruct v as [|[]| | | |]; [intros _; not_blank..| | | |]; [intros [z ->]; apply FormatInt_starts|intros _; not_blank..]. Qed.

(** What the reader does at the first byte of a value that is no bracket. *)
Lemma parse_scalar_start c t : c ≠ QUOTE → c ≠ LBRACKET → c ≠ LBRACE → c ∉ json_blanks → ∀ fuel room,
  parse_value (S fuel) room (c :: t) = match cut_prefix (go "null") (c :: t), cut_prefix (go "true") (c :: t), cut_prefix (go "false") (c :: t) with
    | Some rest, _, _ => Some (VNull, rest)
    | None, Some rest, _ => Some (VBool true, rest)
    | None, None, Some rest => Some (VBool false, rest)
    | None, None, None => '(lit, rest) ← scan_number (c :: t); Some (VNum lit, rest)
    end.
Proof.
  intros H1 H2 H3 Hb fuel room. cbn [parse_value]. pose proof (skip_blanks_value [c] t Hb) as Hs. cbn [app] in Hs. rewrite Hs.
  by rewrite !bool_decide_eq_false_2 by done.
Qed.

Lemma parse_number z rest fuel room : ends_number rest → parse_value (S fuel) room (FormatInt z ++ rest) = Some (VNum (FormatInt z), rest).
Proof.
  intros Hr. pose proof (scan_number_FormatInt z rest Hr) as Hn. pose proof (FormatInt_starts z) as Hst.
  destruct (FormatInt_digits z) as (d & ds & E & Hall & _). apply Forall_inv in Hall.
  assert (∃ c t, FormatInt z = c :: t ∧ (c = MINUS ∨ is_digit c)) as (c & t & E' & Hc).
  { rewrite E. destruct (z <? 0); [by exists MINUS, (d :: ds); split; [|left]|by exists d, ds; split; [|right]]. }
  rewrite E' in Hst, Hn |- *. cbn [app] in Hn |- *.
  assert (∀ b, byte_val b ≠ 45 → digit b = None → c ≠ b) as Hnot. { intros b Hb Hd ->. destruct Hc as [->|[? Hc]]; [done|congruence]. }
  rewrite parse_scalar_start; [|by apply Hnot..|exact Hst].
  assert (∀ p lit, byte_val p ≠ 45 → digit p = None → cut_prefix (p :: lit) (c :: t ++ rest) = None) as Hcut.
  { intros p lit Hp Hd. unfold cut_prefix. cbn [has_prefix]. rewrite bool_decide_eq_false_2; [done|]. intros <-. by apply (Hnot p Hp Hd). }
  unfold go. cbn [list_ascii_of_string]. rewrite !Hcut by done. by rewrite Hn.
Qed.

Lemma json_seq_cons o c v vs : json_seq o c (v :: vs) = o :: v ++ json_tail c vs.
Proof. done. Qed.

Definition elements_ok (l : list jvalue) : Prop := Forall (λ v, writable v → ∀ fuel room rest, (calls v ≤ fuel)%nat → (depth v ≤ room)%nat → 
  (∀ lit, v = VNum lit → ends_number rest) → parse_value fuel room (print v ++ rest) = Some (v, rest)) l.

Lemma parse_elements_print l fuel room rest : elements_ok l → Forall writable l → l ≠ [] →
  (foldr (λ v n, S (Nat.max (calls v) n)) O l ≤ fuel)%nat → (foldr (λ v n, Nat.max (depth v) n) O l ≤ room)%nat →
  ∀ v vs, print <$> l = v :: vs → parse_elements fuel room (v ++ json_tail RBRACKET vs ++ rest) = Some (l, rest).
Proof.
  intros Hok Hp. revert fuel. induction Hok as [|x l Hx Hok IH]; intros fuel Hne Hf Hr v vs E; [done|]. apply Forall_cons in Hp as [Hpx Hp].
  cbn [fmap list_fmap] in E. injection E as <- <-. cbn [foldr] in Hf, Hr. destruct fuel as [|fuel]; [lia|]. cbn [parse_elements].
  destruct l as [|y l].
  - cbn [fmap list_fmap json_tail]. rewrite (Hx Hpx fuel room); [|lia|lia|done]. cbn [mbind option_bind app].
    pose proof (skip_blanks_value [RBRACKET] rest ltac:(not_blank)) as Hs. cbn [app] in Hs. rewrite Hs. by rewrite bool_decide_eq_true_2.
  - cbn [fmap list_fmap json_tail]. rewrite (Hx Hpx fuel room); [|lia|lia|done]. cbn [mbind option_bind app].
    match goal with |- context [skip_blanks (COMMA :: ?u)] => pose proof (skip_blanks_value [COMMA] u ltac:(not_blank)) as Hs end. cbn [app] in Hs. rewrite Hs.
    rewrite bool_decide_eq_false_2, bool_decide_eq_true_2 by done. rewrite <- app_assoc.
    rewrite (IH Hp fuel) with (v := print y) (vs := print <$> l); [done|done|lia|lia|done].
Qed.

Lemma parse_members_print ms fuel room rest : elements_ok ms.*2 → Forall (λ m, valid_utf8 m.1 = true ∧ writable m.2) ms → ms ≠ [] →
  (foldr (λ m n, S (Nat.max (calls m.2) n)) O ms ≤ fuel)%nat → (foldr (λ m n, Nat.max (depth m.2) n) O ms ≤ room)%nat →
  ∀ v vs, (λ m, json_member m.1 (print m.2)) <$> ms = v :: vs → parse_members fuel room (v ++ json_tail RBRACE vs ++ rest) = Some (ms, rest).
Proof.
  revert fuel. induction ms as [|[k x] ms IH]; intros fuel Hok Hp Hne Hf Hr v vs E; [done|]. apply Forall_cons in Hp as [[Hk Hpx] Hp]. cbn [fst snd] in Hk, Hpx.
  cbn [fmap list_fmap snd] in Hok. apply Forall_cons in Hok as [Hx Hok].
  cbn [fmap list_fmap fst snd] in E. injection E as <- <-. cbn [foldr snd] in Hf, Hr. destruct fuel as [|fuel]; [lia|]. cbn [parse_members].
  unfold json_member at 1, json_string at 1. cbn [app]. rewrite <- !app_assoc. cbn [app].
  match goal with |- context [skip_blanks (QUOTE :: ?u)] => pose proof (skip_blanks_value [QUOTE] u ltac:(not_blank)) as Hs end. cbn [app] in Hs. rewrite Hs.
  rewrite bool_decide_eq_true_2 by done. cbn [negb]. rewrite (read_string k) by done. cbn [mbind option_bind].
  match goal with |- context [skip_blanks (COLON :: ?u)] => pose proof (skip_blanks_value [COLON] u ltac:(not_blank)) as Hs' end. cbn [app] in Hs'. rewrite Hs'.
  rewrite bool_decide_eq_true_2 by done. cbn [negb].
  destruct ms as [|m ms].
  - cbn [fmap list_fmap json_tail]. rewrite (Hx Hpx fuel room); [|lia|lia|done]. cbn [mbind option_bind app].
    pose proof (skip_blanks_value [RBRACE] rest ltac:(not_blank)) as Hs2. cbn [app] in Hs2. rewrite Hs2. by rewrite bool_decide_eq_true_2.
  - cbn [fmap list_fmap json_tail]. rewrite (Hx Hpx fuel room); [|lia|lia|done]. cbn [mbind option_bind app].
    match goal with |- context [skip_blanks (COMMA :: ?u)] => pose proof (skip_blanks_value [COMMA] u ltac:(not_blank)) as Hs2 end. cbn [app] in Hs2. rewrite Hs2.
    rewrite bool_decide_eq_false_2, bool_decide_eq_true_2 by done. rewrite <- app_assoc.
    rewrite (IH fuel) with (v := json_member m.1 (print m.2)) (vs := (λ m, json_member m.1 (print m.2)) <$> ms); [done|done|done|done|lia|lia|done].
Qed.

Lemma parse_print v : writable v → ∀ fuel room rest, (calls v ≤ fuel)%nat → (depth v ≤ room)%nat → (∀ lit, v = VNum lit → ends_number rest) →
  parse_value fuel room (print v ++ rest) = Some (v, rest).
Proof.
  induction v as [|b|n|s|l IH|ms IH] using jvalue_nested_ind; intros Hp fuel room rest Hf Hr Hend; (destruct fuel as [|fuel]; [cbn in Hf; lia|]).
  - done.
  - by destruct b.
  - destruct Hp as [z ->]. cbn [print]. apply parse_number. by eapply Hend.
  - cbn [print parse_value]. unfold json_string. cbn [app]. rewrite <- app_assoc. cbn [app].
    match goal with |- context [skip_blanks (QUOTE :: ?u)] => pose proof (skip_blanks_value [QUOTE] u ltac:(not_blank)) as Hs end. cbn [app] in Hs. rewrite Hs.
    rewrite bool_decide_eq_true_2 by done. by rewrite (read_string s rest Hp).
  - apply writable_arr in Hp. destruct l as [|x l].
    { destruct room as [|room]; [cbn in Hr; lia|]. done. }
    cbn [print parse_value]. rewrite fmap_cons, json_seq_cons. cbn [app]. rewrite <- app_assoc.
    match goal with |- context [skip_blanks (LBRACKET :: ?u)] => pose proof (skip_blanks_value [LBRACKET] u ltac:(not_blank)) as Hs end. cbn [app] in Hs. rewrite Hs.
    rewrite bool_decide_eq_false_2, bool_decide_eq_true_2 by done. destruct room as [|room]; [cbn in Hr; lia|].
    pose proof (Forall_inv Hp) as Hpx. pose proof (print_starts x Hpx) as Hst. rewrite (skip_blanks_value (print x)) by done.
    assert (∃ c t, print x = c :: t ∧ c ≠ RBRACKET) as (c & t & Ex & Hc).
    { destruct x as [|[]|n|s|l'|ms']; [by do 2 eexists..| | | |]; [|by do 2 eexists..]. destruct Hpx as [z ->]. cbn [print].
      destruct (FormatInt_digits z) as (d & ds & -> & Hall & _). apply Forall_inv in Hall as [? Hd]. 
      destruct (z <? 0); cbn [app]; do 2 eexists; (split; [reflexivity|]); [done|]. by intros ->. }
    rewrite Ex at 1. cbn [app]. rewrite bool_decide_eq_false_2 by done.
    rewrite (parse_elements_print (x :: l) fuel room rest) with (v := print x) (vs := print <$> l); [done|exact IH|done|done|..|done].
    + cbn [calls foldr] in *. lia.
    + cbn [depth foldr] in *. lia.
  - apply writable_obj in Hp. destruct ms as [|[k x] ms].
    { destruct room as [|room]; [cbn in Hr; lia|]. done. }
    cbn [print parse_value]. rewrite fmap_cons, json_seq_cons. cbn [app fst snd]. rewrite <- app_assoc.
    match goal with |- context [skip_blanks (LBRACE :: ?u)] => pose proof (skip_blanks_value [LBRACE] u ltac:(not_blank)) as Hs end. cbn [app] in Hs. rewrite Hs.
    rewrite !bool_decide_eq_false_2, bool_decide_eq_true_2 by done. destruct room as [|room]; [cbn in Hr; lia|].
    rewrite (skip_blanks_value (json_member k (print x))) by not_blank. unfold json_member at 1, json_string at 1. cbn [app].
    rewrite bool_decide_eq_false_2 by done.
    rewrite (parse_members_print ((k, x) :: ms) fuel room rest) with (v := json_member k (print x)) (vs := (λ m, json_member m.1 (print m.2)) <$> ms); [done| |done|done|..|done].
    + by apply Forall_fmap.
    + cbn [calls foldr snd] in *. lia.
    + cbn [depth foldr snd] in *. lia.
Qed.

Lemma calls_seq {A} (p : A → gostring) (f : A → nat) (o c : ascii) l : Forall (λ x, f x ≤ 2 * length (p x))%nat l →
  (S (foldr (λ x n, S (Nat.max (f x) n)) O l) ≤ 2 * length (json_seq o c (p <$> l)))%nat.
Proof.
  intros H. assert (S (foldr (λ x n, S (Nat.max (f x) n)) O l) ≤ 2 * length (json_tail c (p <$> l)))%nat as Ht.
  { induction H as [|x l Hx _ IH]; cbn [fmap list_fmap foldr json_tail length]; [lia|]. rewrite length_app. lia. }
  destruct H as [|x l Hx H]; cbn [fmap list_fmap foldr json_seq length]; [cbn; lia|]. cbn [fmap list_fmap foldr json_tail length] in Ht.
  rewrite length_app in *. lia.
Qed.

Lemma calls_print v : writable v → (calls v ≤ 2 * length (print v))%nat.
Proof.
  induction v as [|b|n|s|l IH|ms IH] using jvalue_nested_ind; intros Hp.
  - unfold print, go. cbn. lia.
  - destruct b; unfold print, go; cbn; lia.
  - pose proof (print_starts _ Hp) as Hs. cbn [print calls] in *. destruct n; [done|]. cbn. lia.
  - cbn [calls print json_string length]. lia.
  - apply writable_arr in Hp. cbn [calls print]. apply calls_seq. rewrite Forall_forall in IH, Hp |- *. auto.
  - apply writable_obj in Hp. cbn [calls print]. apply (calls_seq (λ m, json_member m.1 (print m.2)) (λ m, calls m.2)).
    rewrite Forall_forall in IH, Hp |- *. intros m Hm. specialize (IH m Hm (proj2 (Hp m Hm))). unfold json_member. rewrite length_app. cbn [length]. lia.
Qed.

(** A stream that begins with a written value gives it back and goes on after it. *)
Lemma decode_print v rest : writable v → (depth v ≤ max_depth)%nat → (∀ lit, v = VNum lit → ends_number rest) → decode_value (print v ++ rest) = Some (v, rest).
Proof. intros Hp Hd He. unfold decode_value. apply parse_print; [done| |done|done]. pose proof (calls_print v Hp). rewrite length_app. lia. Qed.

Lemma whole_print v : writable v → (depth v ≤ max_depth)%nat → whole_value (print v) = Some v.
Proof.
  intros Hp Hd. unfold whole_value. rewrite <- (app_nil_r (print v)), decode_print; [|done|done|done]. done.
Qed.

(** A member under the exact name of a field is stored there. *)
Lemma store_exact {A} strict (fields : list (string * store A)) k v ms a n st :
  List.find (λ f, bool_decide (go f.1 = k)) fields = Some (n, st) →
  store_members strict fields ((k, v) :: ms) a = (a ← st v a; store_members strict fields ms a).
Proof. intros H. cbn [store_members]. unfold find_field. by rewrite H. Qed.

(** Storing a struct member by member, under exact names: one member, with [tac] for what
    its value needs, and all of them. *)
Ltac store_field tac := erewrite store_exact; [|reflexivity]; cbn [into_string into_bool into_int64 mbind option_bind]; try tac; cbn [mbind option_bind].
Tactic Notation "store_struct" "with" tactic3(tac) := unfold into_struct; repeat (store_field tac); cbn [store_members].
Tactic Notation "store_struct" := store_struct with idtac.

Lemma mapM_print {A} (p : A → jvalue) (elem : store A) zero l : (∀ x, x ∈ l → elem (p x) zero = Some x) → mapM (λ v, elem v zero) (p <$> l) = Some l.
Proof.
  intros H. induction l as [|x l IH]; [done|]. cbn [fmap list_fmap mapM]. rewrite H by left. cbn [mbind option_bind]. rewrite IH; [done|]. intros y Hy. apply H. by right.
Qed.
