(* ===== verification/Domain.v ===== *)
(** * The domain: entities, enumerations and the validators of text input

    [internal/domain].  A Go enumeration is a defined string type; it becomes an
    inductive type with the source's constants as constructors and one more,
    [...Other], for any string that is none of them, which [IsValid] refuses.
    Identifiers are strings; a pointer field is an [option].  The validators read
    their input as UTF-8 through [GoLib]. *)

From S2P Require Import Prelude DomainErrors GoLib.

Open Scope Z_scope.

(** src/internal/domain/owner.go:8-9, OwnerStatus *)
Inductive OwnerStatus := OwnerStatusActive | OwnerStatusSuspended | OwnerStatusDeleted | OwnerStatusOther (s : gostring).

(** src/internal/domain/owner.go:18-26, OwnerStatus.IsValid *)
Definition OwnerStatus_IsValid (s : OwnerStatus) : bool :=
  match s with OwnerStatusOther _ => false | _ => true end.

#[export] Instance OwnerStatus_eq_dec : EqDecision OwnerStatus.
Proof. solve_decision. Defined.

(** src/internal/domain/owner.go:28-36, Owner *)
Record Owner := MkOwner {
  Owner_ID : gostring;
  Owner_Status : OwnerStatus;
  Owner_CreatedAt : time;
  Owner_UpdatedAt : time;
  Owner_DeletedAt : option time;
}.

(** src/internal/domain/handle.go:8-10, NameState *)
Inductive NameState := NameStateActive | NameStateQuarantined | NameStateRetired | NameStateOther (s : gostring).

(** src/internal/domain/handle.go:19-27, NameState.IsValid *)
Definition NameState_IsValid (s : NameState) : bool :=
  match s with NameStateOther _ => false | _ => true end.

#[export] Instance NameState_eq_dec : EqDecision NameState.
Proof. solve_decision. Defined.

(** src/internal/domain/handle.go:29-49, Handle *)
Record Handle := MkHandle {
  Handle_ID : gostring;
  Handle_OwnerID : gostring;
  Handle_Name : gostring;
  Handle_State : NameState;
  Handle_QuarantineUntil : option time;
  Handle_FlaggedForReview : bool;
  Handle_QuarantineOnRelease : bool;
  Handle_CreatedAt : time;
  Handle_UpdatedAt : time;
}.

(** src/internal/domain/device.go:8-9, DeviceStatus *)
Inductive DeviceStatus := DeviceStatusActive | DeviceStatusRevoked | DeviceStatusOther (s : gostring).

(** src/internal/domain/device.go:17-25, DeviceStatus.IsValid *)
Definition DeviceStatus_IsValid (s : DeviceStatus) : bool :=
  match s with DeviceStatusOther _ => false | _ => true end.

#[export] Instance DeviceStatus_eq_dec : EqDecision DeviceStatus.
Proof. solve_decision. Defined.

(** src/internal/domain/device.go:27-36, Device *)
Record Device := MkDevice {
  Device_ID : gostring;
  Device_OwnerID : gostring;
  Device_Name : gostring;
  Device_Status : DeviceStatus;
  Device_CreatedAt : time;
  Device_UpdatedAt : time;
  Device_RevokedAt : option time;
}.

(** src/internal/domain/publickey.go:8-9, Algorithm *)
Inductive Algorithm := AlgEd25519 | AlgECDSA256 | AlgECDSA384 | AlgECDSA521 | AlgRSA | AlgSKEd25519 | AlgSKECDSA256 | AlgOther (s : gostring).

(** src/internal/domain/publickey.go:22-30, Algorithm.IsValid *)
Definition Algorithm_IsValid (s : Algorithm) : bool :=
  match s with AlgOther _ => false | _ => true end.

#[export] Instance Algorithm_eq_dec : EqDecision Algorithm.
Proof. solve_decision. Defined.

(** src/internal/domain/publickey.go:11-20, AlgEd25519 (the constants' values) *)
Definition Algorithm_string (a : Algorithm) : gostring :=
  match a with
  | AlgEd25519 => go "ssh-ed25519"
  | AlgECDSA256 => go "ecdsa-sha2-nistp256"
  | AlgECDSA384 => go "ecdsa-sha2-nistp384"
  | AlgECDSA521 => go "ecdsa-sha2-nistp521"
  | AlgRSA => go "ssh-rsa"
  | AlgSKEd25519 => go "sk-ssh-ed25519@openssh.com"
  | AlgSKECDSA256 => go "sk-ecdsa-sha2-nistp256@openssh.com"
  | AlgOther s => s
  end.

(** The conversion [Algorithm(s)] of a string. *)
Definition Algorithm_of (s : gostring) : Algorithm :=
  if bool_decide (s = go "ssh-ed25519") then AlgEd25519 else
  if bool_decide (s = go "ecdsa-sha2-nistp256") then AlgECDSA256 else
  if bool_decide (s = go "ecdsa-sha2-nistp384") then AlgECDSA384 else
  if bool_decide (s = go "ecdsa-sha2-nistp521") then AlgECDSA521 else
  if bool_decide (s = go "ssh-rsa") then AlgRSA else
  if bool_decide (s = go "sk-ssh-ed25519@openssh.com") then AlgSKEd25519 else
  if bool_decide (s = go "sk-ecdsa-sha2-nistp256@openssh.com") then AlgSKECDSA256 else
  AlgOther s.

(** src/internal/domain/publickey.go:32-33, MinRSABits *)
Definition MinRSABits : Z := 3072.

(** src/internal/domain/publickey.go:35-36, KeyStatus *)
Inductive KeyStatus := KeyStatusActive | KeyStatusRevoked | KeyStatusOther (s : gostring).

(** src/internal/domain/publickey.go:44-52, KeyStatus.IsValid *)
Definition KeyStatus_IsValid (s : KeyStatus) : bool :=
  match s with KeyStatusOther _ => false | _ => true end.

#[export] Instance KeyStatus_eq_dec : EqDecision KeyStatus.
Proof. solve_decision. Defined.

(** src/internal/domain/publickey.go:71-78, KeySignature *)
Record KeySignature := MkKeySignature {
  KeySignature_Format : gostring;
  KeySignature_Blob : bytes;
  KeySignature_SignedAt : time;
  KeySignature_SignerID : gostring;
}.

(** src/internal/domain/publickey.go:54-69, PublicKey *)
Record PublicKey := MkPublicKey {
  PublicKey_ID : gostring;
  PublicKey_OwnerID : gostring;
  PublicKey_DeviceID : gostring;
  PublicKey_Algorithm : Algorithm;
  PublicKey_Blob : bytes;
  PublicKey_Comment : gostring;
  PublicKey_Fingerprint : gostring;
  PublicKey_BitLen : Z;
  PublicKey_Status : KeyStatus;
  PublicKey_CreatedAt : time;
  PublicKey_UpdatedAt : time;
  PublicKey_RevokedAt : option time;
  PublicKey_Signature : option KeySignature;
}.

(** src/internal/domain/keyset.go:8-9, Visibility *)
Inductive Visibility := VisibilityPublic | VisibilityProtected | VisibilityOther (s : gostring).

(** src/internal/domain/keyset.go:17-25, Visibility.IsValid *)
Definition Visibility_IsValid (s : Visibility) : bool :=
  match s with VisibilityOther _ => false | _ => true end.

#[export] Instance Visibility_eq_dec : EqDecision Visibility.
Proof. solve_decision. Defined.

(** src/internal/domain/keyset.go:27-41, KeySet *)
Record KeySet := MkKeySet {
  KeySet_ID : gostring;
  KeySet_OwnerID : gostring;
  KeySet_Name : gostring;
  KeySet_Visibility : Visibility;
  KeySet_IsDefault : bool;
  KeySet_State : NameState;
  KeySet_QuarantineUntil : option time;
  KeySet_FlaggedForReview : bool;
  KeySet_QuarantineOnRelease : bool;
  KeySet_CreatedAt : time;
  KeySet_UpdatedAt : time;
}.

(** src/internal/domain/keyset.go:43-48, KeySetMembership *)
Record KeySetMembership := MkKeySetMembership {
  KeySetMembership_KeySetID : gostring;
  KeySetMembership_PublicKeyID : gostring;
  KeySetMembership_AddedAt : time;
}.

(** src/internal/domain/accesskey.go:8-9, AccessKeyStatus *)
Inductive AccessKeyStatus := AccessKeyStatusActive | AccessKeyStatusGrace | AccessKeyStatusRevoked | AccessKeyStatusOther (s : gostring).

(** src/internal/domain/accesskey.go:18-26, AccessKeyStatus.IsValid *)
Definition AccessKeyStatus_IsValid (s : AccessKeyStatus) : bool :=
  match s with AccessKeyStatusOther _ => false | _ => true end.

#[export] Instance AccessKeyStatus_eq_dec : EqDecision AccessKeyStatus.
Proof. solve_decision. Defined.

(** src/internal/domain/accesskey.go:28-41, AccessKey *)
Record AccessKey := MkAccessKey {
  AccessKey_ID : gostring;
  AccessKey_OwnerID : gostring;
  AccessKey_KeySetID : gostring;
  AccessKey_Name : gostring;
  AccessKey_SecretHash : bytes;
  AccessKey_Status : AccessKeyStatus;
  AccessKey_CreatedAt : time;
  AccessKey_RevokedAt : option time;
  AccessKey_GraceUntil : option time;
  AccessKey_ReplacedByID : option gostring;
}.

(** src/internal/domain/scope.go:5-6, ScopeKind *)
Inductive ScopeKind := ScopeFullOwner | ScopeReadOnly | ScopeSingleSet | ScopeSingleDevice | ScopeKindOther (s : gostring).

(** src/internal/domain/scope.go:16-24, ScopeKind.IsValid *)
Definition ScopeKind_IsValid (s : ScopeKind) : bool :=
  match s with ScopeKindOther _ => false | _ => true end.

#[export] Instance ScopeKind_eq_dec : EqDecision ScopeKind.
Proof. solve_decision. Defined.

(** src/internal/domain/scope.go:8-14, ScopeFullOwner (the constants' values) *)
Definition ScopeKind_string (k : ScopeKind) : gostring :=
  match k with
  | ScopeFullOwner => go "full-owner"
  | ScopeReadOnly => go "read-only"
  | ScopeSingleSet => go "single-set"
  | ScopeSingleDevice => go "single-device"
  | ScopeKindOther s => s
  end.

(** The conversion [ScopeKind(s)] of a string. *)
Definition ScopeKind_of (s : gostring) : ScopeKind :=
  if bool_decide (s = go "full-owner") then ScopeFullOwner else
  if bool_decide (s = go "read-only") then ScopeReadOnly else
  if bool_decide (s = go "single-set") then ScopeSingleSet else
  if bool_decide (s = go "single-device") then ScopeSingleDevice else
  ScopeKindOther s.

Lemma ScopeKind_of_string k : ScopeKind_IsValid k = true → ScopeKind_of (ScopeKind_string k) = k.
Proof. by destruct k. Qed.

(** src/internal/domain/scope.go:26-29, ScopeKind.bindsResource *)
Definition bindsResource (k : ScopeKind) : bool :=
  bool_decide (k = ScopeSingleSet) || bool_decide (k = ScopeSingleDevice).

(** src/internal/domain/scope.go:31-37, Scope *)
Record Scope := MkScope {
  Scope_Kind : ScopeKind;
  Scope_ResourceID : gostring;
}.

#[export] Instance Scope_eq_dec : EqDecision Scope.
Proof. solve_decision. Defined.

(** src/internal/domain/scope.go:39-54, Scope.Validate *)
Definition Scope_Validate (s : Scope) : option goerror :=
  if negb (ScopeKind_IsValid (Scope_Kind s)) then
    Some (errorf "domain: unknown scope kind" [ErrInvalidInput])
  else if bindsResource (Scope_Kind s) && bool_decide (Scope_ResourceID s = []) then
    Some (errorf "domain: scope kind requires a resource id" [ErrInvalidInput])
  else if negb (bindsResource (Scope_Kind s)) && negb (bool_decide (Scope_ResourceID s = [])) then
    Some (errorf "domain: scope kind must not carry a resource id" [ErrInvalidInput])
  else None.

(** src/internal/domain/auth.go:12-13, CredentialStatus *)
Inductive CredentialStatus := CredentialStatusActive | CredentialStatusRotated | CredentialStatusRevoked | CredentialStatusExpired | CredentialStatusOther (s : gostring).

(** src/internal/domain/auth.go:23-31, CredentialStatus.IsValid *)
Definition CredentialStatus_IsValid (s : CredentialStatus) : bool :=
  match s with CredentialStatusOther _ => false | _ => true end.

#[export] Instance CredentialStatus_eq_dec : EqDecision CredentialStatus.
Proof. solve_decision. Defined.

(** src/internal/domain/auth.go:33-47, RefreshCredential *)
Record RefreshCredential := MkRefreshCredential {
  Cred_ID : gostring;
  Cred_OwnerID : gostring;
  Cred_LineageID : gostring;
  Cred_SecretHash : bytes;
  Cred_Scopes : list Scope;
  Cred_ClientLabel : gostring;
  Cred_RotatedFromID : option gostring;
  Cred_IssuedAt : time;
  Cred_ExpiresAt : time;
  Cred_Status : CredentialStatus;
  Cred_RevokedAt : option time;
}.

(** src/internal/domain/auth.go:49-58, AccessToken *)
Record AccessToken := MkAccessToken {
  AccessToken_ID : gostring;
  AccessToken_OwnerID : gostring;
  AccessToken_RefreshCredentialID : gostring;
  AccessToken_Scopes : list Scope;
  AccessToken_IssuedAt : time;
  AccessToken_ExpiresAt : time;
}.

(** src/internal/domain/pairing.go:13-21, PairingStatus *)
Inductive PairingStatus := PairingStatusPending | PairingStatusApproved | PairingStatusRedeemed | PairingStatusRevoked | PairingStatusOther (s : gostring).

(** src/internal/domain/pairing.go:39-47, PairingStatus.IsValid *)
Definition PairingStatus_IsValid (s : PairingStatus) : bool :=
  match s with PairingStatusOther _ => false | _ => true end.

#[export] Instance PairingStatus_eq_dec : EqDecision PairingStatus.
Proof. solve_decision. Defined.

(** src/internal/domain/pairing.go:49-111, DevicePairing
    (an absent owner, lineage or user-code digest is the empty string) *)
Record DevicePairing := MkDevicePairing {
  Pair_ID : gostring;
  Pair_OwnerID : gostring;
  Pair_DeviceCodeHash : bytes;
  Pair_UserCodeHash : bytes;
  Pair_ClientLabel : gostring;
  Pair_Scopes : list Scope;
  Pair_Status : PairingStatus;
  Pair_LineageID : gostring;
  Pair_NextPollAt : time;
  Pair_CreatedAt : time;
  Pair_ExpiresAt : time;
  Pair_ApprovedAt : option time;
  Pair_RedeemedAt : option time;
  Pair_RevokedAt : option time;
}.

(** src/internal/domain/auth.go:60-74, LinkedIdentity *)
Record LinkedIdentity := MkLinkedIdentity {
  Link_ID : gostring;
  Link_OwnerID : gostring;
  Link_Provider : gostring;
  Link_Subject : gostring;
  Link_Email : option gostring;
  Link_CreatedAt : time;
  Link_UpdatedAt : time;
}.

(** src/internal/domain/admin.go:8-9, AdminStatus *)
Inductive AdminStatus := AdminStatusActive | AdminStatusDisabled | AdminStatusOther (s : gostring).

(** src/internal/domain/admin.go:17-25, AdminStatus.IsValid *)
Definition AdminStatus_IsValid (s : AdminStatus) : bool :=
  match s with AdminStatusOther _ => false | _ => true end.

#[export] Instance AdminStatus_eq_dec : EqDecision AdminStatus.
Proof. solve_decision. Defined.

(** src/internal/domain/admin.go:27-34, Administrator *)
Record Administrator := MkAdministrator {
  Admin_ID : gostring;
  Admin_Label : gostring;
  Admin_Status : AdminStatus;
  Admin_CreatedAt : time;
  Admin_UpdatedAt : time;
}.

(** src/internal/domain/listoverride.go:5-11, ListKind *)
Inductive ListKind := ListKindAllowlist | ListKindBlocklistTerm | ListKindOther (s : gostring).

(** src/internal/domain/listoverride.go:13-21, ListKind (the stored text) *)
Definition ListKind_string (k : ListKind) : gostring :=
  match k with ListKindAllowlist => go "allowlist" | ListKindBlocklistTerm => go "blocklist_term" | ListKindOther s => s end.

(** src/internal/domain/listoverride.go:23-31, ListKind.IsValid *)
Definition ListKind_IsValid (k : ListKind) : bool :=
  match k with ListKindOther _ => false | _ => true end.

#[export] Instance ListKind_eq_dec : EqDecision ListKind.
Proof. solve_decision. Defined.

(** src/internal/domain/listoverride.go:33-61, ListOverrideState *)
Inductive ListOverrideState := ListOverridePresent | ListOverrideRemoved | ListOverrideOther (s : gostring).

(** src/internal/domain/listoverride.go:63-71, ListOverrideState.IsValid *)
Definition ListOverrideState_IsValid (s : ListOverrideState) : bool :=
  match s with ListOverrideOther _ => false | _ => true end.

#[export] Instance ListOverrideState_eq_dec : EqDecision ListOverrideState.
Proof. solve_decision. Defined.

(** src/internal/domain/listoverride.go:73-104, ListOverride *)
Record ListOverride := MkListOverride {
  LO_List : ListKind;
  LO_Skeleton : gostring;
  LO_Entry : gostring;
  LO_State : ListOverrideState;
  LO_ActorID : gostring;
  LO_UpdatedAt : time;
}.

(** src/internal/domain/audit.go:8-9, ActorType *)
Inductive ActorType := ActorTypeOwner | ActorTypeAdministrator | ActorTypeSystem | ActorTypeOther (s : gostring).

(** src/internal/domain/audit.go:18-26, ActorType.IsValid *)
Definition ActorType_IsValid (t : ActorType) : bool :=
  match t with ActorTypeOther _ => false | _ => true end.

#[export] Instance ActorType_eq_dec : EqDecision ActorType.
Proof. solve_decision. Defined.

(** src/internal/domain/audit.go:29-47, TargetType *)
Inductive TargetType :=
| TargetTypeOwner | TargetTypeHandle | TargetTypeDevice | TargetTypePublicKey | TargetTypeKeySet | TargetTypeAccessKey
| TargetTypeRefreshCredential | TargetTypeBlocklistEntry | TargetTypeAllowlistEntry | TargetTypeAuditLog
| TargetTypeOther (s : gostring).

(** src/internal/domain/audit.go:55-65, TargetType.IsValid *)
Definition TargetType_IsValid (t : TargetType) : bool :=
  match t with TargetTypeOther _ => false | _ => true end.

#[export] Instance TargetType_eq_dec : EqDecision TargetType.
Proof. solve_decision. Defined.

(** src/internal/domain/audit.go:49-53, AuditLogTargetID *)
Definition AuditLogTargetID : gostring := go "audit_log".

(** src/internal/domain/audit.go:136-149, AuditRecord
    (an absent metadata map is the empty one: the store reads both back alike) *)
Record AuditRecord := MkAuditRecord {
  Audit_ID : gostring;
  Audit_ActorType : ActorType;
  Audit_ActorID : gostring;
  Audit_Action : gostring;
  Audit_TargetType : TargetType;
  Audit_TargetID : gostring;
  Audit_OccurredAt : time;
  Audit_Metadata : gmap gostring gostring;
  Audit_Pseudonymized : bool;
}.

(** ** Validators *)

(** src/internal/domain/validate.go:10-17, MaxSlugLen *)
Definition MaxSlugLen : Z := 64.
Definition MaxDeviceNameLen : Z := 64.
Definition MaxLabelLen : Z := 64.
Definition MaxCommentLen : Z := 256.

Definition len (s : bytes) : Z := Z.of_nat (length s).

Definition alnum (c : ascii) : bool :=
  let v := byte_val c in ((97 <=? v) && (v <=? 122)) || ((48 <=? v) && (v <=? 57)).

(** src/internal/domain/validate.go:19-22, slugRe
    (a first character, and when there are more, a last one, from [a-z0-9]; in
    between hyphens too) *)
Definition slugRe (s : gostring) : bool :=
  match s with
  | [] => false
  | c :: t =>
      alnum c &&
      match rev t with
      | [] => true
      | d :: m => alnum d && forallb (λ x, alnum x || bool_decide (x = byte_of 45)) m
      end
  end.

(** src/internal/domain/validate.go:24-26, fingerprintRe *)
Definition fingerprintRe (s : gostring) : bool :=
  match cut_prefix (go "SHA256:") s with
  | Some t => (length t =? 43)%nat && forallb (λ c, bool_decide (is_Some (b64_value 43 47 c))) t
  | None => false
  end.

(** src/internal/domain/validate.go:40-51, validateSlug *)
Definition validateSlug (field : string) (name : gostring) : option goerror :=
  if bool_decide (name = []) then
    Some (errorf ("domain: " ++ field ++ " must not be empty") [ErrInvalidInput])
  else if MaxSlugLen <? len name then
    Some (errorf ("domain: " ++ field ++ " exceeds 64 characters") [ErrInvalidInput])
  else if negb (slugRe name) then
    Some (errorf ("domain: " ++ field ++ " must be lowercase [a-z0-9-] with no leading or trailing hyphen")
            [ErrInvalidInput])
  else None.

(** src/internal/domain/validate.go:28-32, ValidateSetName *)
Definition ValidateSetName (name : gostring) : option goerror := validateSlug "set name" name.

(** src/internal/domain/validate.go:34-38, ValidateHandle *)
Definition ValidateHandle (name : gostring) : option goerror := validateSlug "handle" name.

(** src/internal/domain/unicode.go:59-72, isDisallowedFormatRune *)
Definition isDisallowedFormatRune (r : Z) : bool :=
  if in_Cf r then negb (r =? 0x200C) && negb (r =? 0x200D)
  else in_Zl r || in_Zp r.

(** The loop both validators run over the code points: the first character
    refused, or the number of them. *)
Fixpoint count_runes (field : string) (rs : list (Z * nat)) (n : Z) : result Z :=
  match rs with
  | [] => Ok n
  | (r, _) :: rs' =>
      if is_control r then
        Err (errorf ("domain: " ++ field ++ " must not contain control characters") [ErrInvalidInput])
      else if isDisallowedFormatRune r then
        Err (errorf ("domain: " ++ field ++ " must not contain the disallowed formatting or invisible character")
               [ErrInvalidInput])
      else count_runes field rs' (n + 1)
  end.

Definition printable_runes (field : string) (s : gostring) (maxLen : Z) : option goerror :=
  match count_runes field (runes s) 0 with
  | Err e => Some e
  | Ok n => if maxLen <? n then
              Some (errorf ("domain: " ++ field ++ " exceeds the maximum number of characters") [ErrInvalidInput])
            else None
  end.

Definition blank (c : ascii) : bool := bool_decide (c = byte_of 32) || bool_decide (c = byte_of 9).

(** src/internal/domain/validate.go:71-97, validatePrintable *)
Definition validatePrintable (field : string) (s : gostring) (maxLen : Z) : option goerror :=
  match s with
  | [] => Some (errorf ("domain: " ++ field ++ " must not be empty") [ErrInvalidInput])
  | c :: _ =>
      if negb (valid_utf8 s) then
        Some (errorf ("domain: " ++ field ++ " must be valid UTF-8") [ErrInvalidInput])
      else if blank c || blank (List.last s c) then
        Some (errorf ("domain: " ++ field ++ " must not have leading or trailing whitespace") [ErrInvalidInput])
      else printable_runes field s maxLen
  end.

(** src/internal/domain/validate.go:53-57, ValidateDeviceName *)
Definition ValidateDeviceName (name : gostring) : option goerror :=
  validatePrintable "device name" name MaxDeviceNameLen.

(** src/internal/domain/validate.go:59-63, ValidateAccessKeyName *)
Definition ValidateAccessKeyName (name : gostring) : option goerror :=
  validatePrintable "access key name" name MaxLabelLen.

(** src/internal/domain/validate.go:65-69, ValidateClientLabel *)
Definition ValidateClientLabel (label : gostring) : option goerror :=
  validatePrintable "client label" label MaxLabelLen.

(** src/internal/domain/validate.go:99-123, ValidateKeyComment *)
Definition ValidateKeyComment (comment : gostring) : option goerror :=
  if bool_decide (comment = []) then None
  else if negb (valid_utf8 comment) then
    Some (errorf "domain: key comment must be valid UTF-8" [ErrInvalidInput])
  else printable_runes "key comment" comment MaxCommentLen.

(** src/internal/domain/validate.go:125-132, ValidateFingerprint *)
Definition ValidateFingerprint (fp : gostring) : option goerror :=
  if negb (fingerprintRe fp) then
    Some (errorf "domain: fingerprint must be SHA256: followed by 43 unpadded base64 characters" [ErrInvalidInput])
  else None.

(** ** What an accepted text contains *)

Lemma count_runes_ok field rs n m : count_runes field rs n = Ok m →
  m = n + Z.of_nat (length rs) ∧
  Forall (λ '(r, _), is_control r = false ∧ isDisallowedFormatRune r = false) rs.
Proof.
  revert n. induction rs as [|[r w] rs IH]; simpl; intros n H; [simplify_eq; split; [lia|constructor]|].
  destruct (is_control r) eqn:?; [done|]. destruct (isDisallowedFormatRune r) eqn:?; [done|].
  destruct (IH _ H) as [-> ?]. split; [lia|]. by constructor.
Qed.

(** Not a C0 control and not DEL. *)
Definition printable (c : ascii) : Prop := 32 ≤ byte_val c ∧ byte_val c ≠ 127.

Lemma printable_runes_bytes field s maxLen : printable_runes field s maxLen = None → Forall printable s.
Proof.
  unfold printable_runes. destruct (count_runes _ _ _) as [n|] eqn:Hc; [|done]. intros _.
  apply count_runes_ok in Hc as [_ Hall]. apply Forall_forall. intros c Hin.
  pose proof (byte_val_range c). unfold printable.
  destruct (decide (byte_val c < 128)) as [Ha|]; [|lia].
  destruct (runes_ascii (length s) s c ltac:(done) Hin Ha) as [w Hr].
  rewrite Forall_forall in Hall. destruct (Hall _ Hr) as [Hctl _].
  unfold is_control, in_ranges in Hctl. simpl in Hctl.
  repeat (apply orb_false_iff in Hctl as [? Hctl]). lia.
Qed.

Lemma ValidateKeyComment_bytes c : ValidateKeyComment c = None → Forall printable c.
Proof.
  unfold ValidateKeyComment. case_bool_decide as Hc; [subst; constructor|].
  destruct (valid_utf8 c); [|done]. apply printable_runes_bytes.
Qed.

Lemma validatePrintable_bytes field s maxLen : validatePrintable field s maxLen = None →
  s ≠ [] ∧ Forall printable s.
Proof.
  unfold validatePrintable. destruct s; [done|]. destruct (valid_utf8 _); [|done].
  destruct (_ || _); [done|]. simpl negb. cbv iota. intros H. split; [done|]. exact (printable_runes_bytes _ _ _ H).
Qed.

Lemma Algorithm_string_of s : Algorithm_string (Algorithm_of s) = s.
Proof. unfold Algorithm_of. repeat (case_bool_decide; [by subst|]). done. Qed.

Lemma Algorithm_of_string a : Algorithm_IsValid a = true → Algorithm_of (Algorithm_string a) = a.
Proof. by destruct a. Qed.

Lemma Algorithm_string_visible a : Algorithm_IsValid a = true →
  Algorithm_string a ≠ [] ∧ Forall visible (Algorithm_string a).
Proof.
  intros Ha. split; [by destruct a|].
  destruct a; try done; repeat constructor; vm_compute; congruence.
Qed.
