(* ===== verification/Keys.v ===== *)
(** * Public keys: parsing what users submit, printing what is published

    [internal/keys].  The SSH wire format itself is [golang.org/x/crypto/ssh],
    which the code only calls: its operations are the class [Ssh] and what the code
    relies on of them the class [SshLaws].  [Parse] accepts one key,
    [ParseAuthorizedKeys] a file of them, and [AuthorizedKeyLineFrom] prints the
    canonical authorized_keys line of a stored key. *)

From S2P Require Import Prelude DomainErrors GoLib Domain.

Open Scope Z_scope.

(** ** The SSH library *)

(** [ParsedLine] is what [ssh.ParseAuthorizedKey] returns without an error: the
    key, the comment, the options and the unread rest.  [RSABits] is the size of
    the modulus when the key is an [*rsa.PublicKey]. *)
Record ParsedLine (K : Type) := MkParsedLine {
  PL_pub : K;
  PL_comment : gostring;
  PL_options : list gostring;
  PL_rest : bytes;
}.
Arguments MkParsedLine {K}.
Arguments PL_pub {K}.
Arguments PL_comment {K}.
Arguments PL_options {K}.
Arguments PL_rest {K}.

Class Ssh (K : Type) := {
  ParseAuthorizedKey : bytes → option (ParsedLine K);
  ParsePublicKey : bytes → option K;
  KeyType : K → gostring;
  Marshal : K → bytes;
  FingerprintSHA256 : K → gostring;
  RSABits : K → option Z;
}.

(** The line form of the documentation: the key type, the base64 of the wire
    format and, if any, the comment. *)
Definition authorized_line (ty : gostring) (blob : bytes) (comment : gostring) : gostring :=
  ty ++ [byte_of 32] ++ std_b64 blob ++ (if decide (comment = []) then [] else byte_of 32 :: comment).

(** "To unmarshal the returned data, use the ParsePublicKey function"; an
    authorized_keys line of a key reads back as that key with its trimmed comment,
    no options and nothing left over. *)
Class SshLaws (K : Type) `{!Ssh K} : Prop := {
  ParsePublicKey_Marshal k : ParsePublicKey (Marshal k) = Some k;
  ParseAuthorizedKey_line k c :
    trim_space c = c → contains_any [byte_of 10; byte_of 13] c = false →
    ParseAuthorizedKey (authorized_line (KeyType k) (Marshal k) c) = Some (MkParsedLine k c [] []);
}.

(** ** Errors and limits *)

(** src/internal/keys/errors.go:22-28, MaxLineBytes *)
Definition MaxLineBytes : Z := 16 * 1024.
Definition MaxFileBytes : Z := Z.shiftl 1 20.

(** src/internal/keys/errors.go:30-55, ErrMalformed *)
Definition ErrMalformed : goerror := errorf "keys: malformed public key" [ErrInvalidInput].
Definition ErrOptionsPresent : goerror :=
  errorf "keys: authorized_keys options are not permitted" [ErrInvalidInput].
Definition ErrUnsupportedAlgorithm : goerror :=
  errorf "keys: unsupported key algorithm" [ErrInvalidInput].
Definition ErrWeakKey : goerror := errorf "keys: key is too weak" [ErrInvalidInput].
Definition ErrMultipleKeys : goerror := errorf "keys: exactly one key is required" [ErrInvalidInput].
Definition ErrBadComment : goerror := errorf "keys: invalid key comment" [ErrInvalidInput].
Definition ErrTooLarge : goerror :=
  errorf "keys: input exceeds the maximum permitted size" [ErrInvalidInput].
Definition ErrPrivateKey : goerror :=
  errorf "keys: private key material detected; submit only the .pub file" [ErrInvalidInput].

(** src/internal/keys/batch.go:96-98, errDuplicate *)
Definition errDuplicate : goerror :=
  errorf "keys: duplicate key fingerprint in batch" [ErrConflict].

(** src/internal/keys/keys.go:13-22, ParsedKey *)
Record ParsedKey := MkParsedKey {
  PK_Algorithm : Algorithm;
  PK_Blob : bytes;
  PK_Comment : gostring;
  PK_Fingerprint : gostring;
  PK_BitLen : Z;
}.

(** src/internal/keys/keys.go:24-30, privateKeyMarkers *)
Definition privateKeyMarkers : list bytes := [go "private key"; go "putty-user-key-file"].

(** src/internal/keys/keys.go:32-42, containsPrivateKeyMaterial *)
Definition containsPrivateKeyMaterial (raw : bytes) : bool :=
  existsb (λ m, contains m (to_lower raw)) privateKeyMarkers.

Definition LF : ascii := byte_of 10.
Definition CR : ascii := byte_of 13.
Definition TAB : ascii := byte_of 9.
Definition SP : ascii := byte_of 32.

(** The comment test of both parsers: the first character that is not a blank is
    a number sign. *)
Definition comment_line (line : bytes) : bool :=
  match trim_left [SP; TAB] line with
  | c :: _ => bool_decide (c = byte_of 35)
  | [] => false
  end.

(** src/internal/keys/keys.go:129-143, checkInvariants *)
Definition checkInvariants (k : ParsedKey) : option goerror :=
  if negb (Algorithm_IsValid (PK_Algorithm k)) then Some ErrUnsupportedAlgorithm
  else if bool_decide (ValidateFingerprint (PK_Fingerprint k) ≠ None) then Some ErrMalformed
  else if bool_decide (ValidateKeyComment (PK_Comment k) ≠ None) then Some ErrBadComment
  else None.

Section Keys.
Context {K : Type} `{!Ssh K}.

(** src/internal/keys/keys.go:145-176, strength *)
Definition strength (alg : Algorithm) (pub : K) : result Z :=
  match alg with
  | AlgRSA =>
      match RSABits pub with
      | None => Err ErrMalformed
      | Some n => if n <? MinRSABits then Err ErrWeakKey else Ok n
      end
  | AlgECDSA384 => Ok 384
  | AlgECDSA521 => Ok 521
  | AlgEd25519 | AlgECDSA256 | AlgSKEd25519 | AlgSKECDSA256 => Ok 256
  | AlgOther _ => Err ErrUnsupportedAlgorithm
  end.

(** src/internal/keys/keys.go:103-127, finalize
    (the key that accompanies an error is dropped by every caller) *)
Definition finalize (pub : K) (comment : gostring) : result ParsedKey :=
  let alg := Algorithm_of (KeyType pub) in
  if negb (Algorithm_IsValid alg) then Err ErrUnsupportedAlgorithm else
  bitLen ← strength alg pub;
  let k := MkParsedKey alg (Marshal pub) (trim_space comment) (FingerprintSHA256 pub) bitLen in
  guard_err (checkInvariants k) (Ok k).

(** src/internal/keys/keys.go:83-101, parseKeyLine *)
Definition parseKeyLine (line : bytes) : result ParsedKey :=
  match ParseAuthorizedKey line with
  | None => Err ErrMalformed
  | Some p =>
      if (0 <? length (PL_options p))%nat then Err ErrOptionsPresent
      else if 0 <? len (trim_space (PL_rest p)) then Err ErrMultipleKeys
      else finalize (PL_pub p) (PL_comment p)
  end.

(** One line terminator, LF or CRLF, off the end. *)
Definition strip_terminator (raw : bytes) : bytes :=
  match rev raw with
  | c :: t =>
      if bool_decide (c = LF) then
        match t with
        | d :: t' => if bool_decide (d = CR) then rev t' else rev t
        | [] => []
        end
      else raw
  | [] => raw
  end.

(** src/internal/keys/keys.go:44-81, Parse *)
Definition Parse (raw : bytes) : result ParsedKey :=
  if MaxLineBytes <? len raw then Err ErrTooLarge else
  if containsPrivateKeyMaterial raw then Err ErrPrivateKey else
  if len (trim_space raw) =? 0 then Err ErrMalformed else
  let line := strip_terminator raw in
  if contains_any [LF; CR] line then Err ErrMultipleKeys else
  if comment_line line then Err ErrMalformed else
  parseKeyLine line.

(** src/internal/keys/reconstruct.go:20-77, AuthorizedKeyLineFrom *)
Definition AuthorizedKeyLineFrom (alg : Algorithm) (blob : bytes) (comment : gostring) : result gostring :=
  if negb (Algorithm_IsValid alg) then Err ErrUnsupportedAlgorithm else
  match ParsePublicKey blob with
  | None => Err ErrMalformed
  | Some pub =>
      if negb (bool_decide (KeyType pub = Algorithm_string alg)) then Err ErrMalformed else
      _ ← strength alg pub;
      if contains_any [LF; CR] comment then Err ErrBadComment else
      let comment := trim_space comment in
      if bool_decide (ValidateKeyComment comment ≠ None) then Err ErrBadComment else
      let marshaled := Marshal pub in
      Ok (Algorithm_string alg ++ [SP] ++ std_b64 marshaled ++
          (if bool_decide (comment = []) then [] else SP :: comment) ++ [LF])
  end.

(** src/internal/keys/reconstruct.go:12-18, AuthorizedKeyLine *)
Definition AuthorizedKeyLine (k : ParsedKey) : result gostring :=
  AuthorizedKeyLineFrom (PK_Algorithm k) (PK_Blob k) (PK_Comment k).

(** src/internal/keys/batch.go:10-17, LineError *)
Record LineError := MkLineError { LE_Line : Z; LE_Err : goerror }.

(** The state of the batch loop: the keys and errors so far (newest first) and the
    fingerprints seen. *)
Record batch := MkBatch { b_keys : list ParsedKey; b_errs : list LineError; b_seen : gset gostring }.

Definition add_err (n : Z) (e : goerror) (b : batch) : batch :=
  MkBatch (b_keys b) (MkLineError n e :: b_errs b) (b_seen b).

(** src/internal/keys/batch.go:63-91, ParseAuthorizedKeys (the body of the loop for one line) *)
Definition batch_line (lineNo : Z) (line : bytes) (b : batch) : batch :=
  let line := trim_right [CR] line in
  if len (trim_space line) =? 0 then b else
  if comment_line line then b else
  if MaxLineBytes <? len line then add_err lineNo ErrTooLarge b else
  match parseKeyLine line with
  | Err e => add_err lineNo e b
  | Ok k =>
      if bool_decide (PK_Fingerprint k ∈ b_seen b) then add_err lineNo errDuplicate b
      else MkBatch (k :: b_keys b) (b_errs b) ({[PK_Fingerprint k]} ∪ b_seen b)
  end.

(** src/internal/keys/batch.go:53-62, ParseAuthorizedKeys (the loop; every turn
    consumes a byte, so the length of the input is enough fuel) *)
Fixpoint batch_loop (fuel : nat) (lineNo : Z) (rest : bytes) (b : batch) : batch :=
  match fuel, rest with
  | O, _ | _, [] => b
  | S fuel, _ =>
      let lineNo := lineNo + 1 in
      match index_byte LF rest with
      | Some i => batch_loop fuel lineNo (drop (S i) rest) (batch_line lineNo (take i rest) b)
      | None => batch_line lineNo rest b
      end
  end.

(** src/internal/keys/batch.go:28-94, ParseAuthorizedKeys *)
Definition ParseAuthorizedKeys (raw : bytes) : list ParsedKey * list LineError :=
  if MaxFileBytes <? len raw then ([], [MkLineError 0 ErrTooLarge]) else
  if containsPrivateKeyMaterial raw then ([], [MkLineError 0 ErrPrivateKey]) else
  let b := batch_loop (length raw) 0 raw (MkBatch [] [] ∅) in
  (rev (b_keys b), rev (b_errs b)).
End Keys.

(** ** Shape of the printed line *)

Lemma visible_printable c : visible c → printable c.
Proof. unfold visible, printable. lia. Qed.

Lemma printable_no_any l : Forall printable l → contains_any [LF; CR] l = false.
Proof.
  unfold contains_any. intros H. apply not_true_iff_false. intros (c & Hin & Hc)%existsb_exists.
  apply list_elem_of_In in Hin. rewrite Forall_forall in H. destruct (H _ Hin) as [H1 H2].
  unfold mem_byte in Hc. simpl in Hc. rewrite orb_false_r in Hc.
  apply orb_true_iff in Hc as [Hc|Hc]; apply bool_decide_eq_true in Hc; subst c; by vm_compute in H1.
Qed.

Lemma authorized_line_printable alg blob c : Algorithm_IsValid alg = true → Forall printable c →
  Forall printable (authorized_line (Algorithm_string alg) blob c).
Proof.
  intros Ha Hc. unfold authorized_line. destruct (Algorithm_string_visible alg Ha) as [_ Hv].
  assert (printable (byte_of 32)) by (split; vm_compute; congruence).
  repeat apply Forall_app_2; [eapply Forall_impl; [done|apply visible_printable]|by constructor| |].
  - eapply Forall_impl; [apply std_b64_visible|apply visible_printable].
  - destruct (decide _); by try constructor.
Qed.

Lemma AuthorizedKeyLineFrom_ok {K} `{!Ssh K} alg blob comment line :
  AuthorizedKeyLineFrom (K:=K) alg blob comment = Ok line →
  ∃ pub, ParsePublicKey blob = Some pub ∧ KeyType pub = Algorithm_string alg ∧
    Algorithm_IsValid alg = true ∧ (∃ bits, strength alg pub = Ok bits) ∧
    ValidateKeyComment (trim_space comment) = None ∧
    line = authorized_line (Algorithm_string alg) (Marshal pub) (trim_space comment) ++ [LF].
Proof.
  unfold AuthorizedKeyLineFrom. destruct (Algorithm_IsValid alg); [|done].
  destruct (ParsePublicKey blob) as [pub|]; [|done]. simpl.
  case_bool_decide as Ht; [|done]. simpl. destruct (strength alg pub) as [bits|] eqn:Hst; [|done]. simpl.
  destruct (contains_any _ _); [done|]. case_bool_decide as Hc; [done|]. intros. simplify_eq.
  exists pub. split_and!; [done|done|done|by eexists|done|].
  unfold authorized_line. rewrite <- !app_assoc. do 3 f_equal. simpl. f_equal.
  case_bool_decide; by rewrite ?decide_True, ?decide_False by done.
Qed.

(** The tests of [Parse] that precede the parser pass on a printed line. *)
Lemma strip_terminator_line l : Forall printable l → strip_terminator (l ++ [LF]) = l.
Proof.
  intros H. unfold strip_terminator. rewrite rev_app_distr. cbn [rev app]. rewrite bool_decide_eq_true_2 by done.
  destruct l as [|c l] using rev_ind; [done|]. clear IHl. rewrite rev_app_distr. cbn [rev app].
  rewrite bool_decide_eq_false_2; [by rewrite rev_involutive|]. intros ->.
  apply Forall_app in H as [_ H]. apply Forall_cons in H as [[H _] _]. by vm_compute in H.
Qed.

Lemma comment_line_visible c l : visible c → c ≠ byte_of 35 → comment_line (c :: l) = false.
Proof.
  intros [H1 H2] Hc. unfold comment_line. cbn [trim_left].
  assert (mem_byte c [SP; TAB] = false) as ->; [|by rewrite bool_decide_eq_false_2].
  unfold mem_byte. cbn [existsb]. rewrite orb_false_r.
  apply orb_false_iff; split; apply bool_decide_eq_false_2; intros ->; by vm_compute in H1.
Qed.

Lemma Algorithm_string_head a : Algorithm_IsValid a = true →
  ∃ c t, Algorithm_string a = c :: t ∧ visible c ∧ c ≠ byte_of 35.
Proof.
  intros Ha. destruct (Algorithm_string_visible a Ha) as [Hne Hv].
  destruct a; try done; eexists _, _; (split; [reflexivity|]); (split; [|by vm_compute]);
    vm_compute; split; congruence.
Qed.

Lemma comment_line_authorized ty blob c h t : ty = h :: t → visible h → h ≠ byte_of 35 →
  comment_line (authorized_line ty blob c) = false.
Proof. intros ->. apply comment_line_visible. Qed.

Lemma trim_space_authorized ty blob c h t : ty = h :: t → visible h →
  ∃ n, (len (trim_space (authorized_line ty blob c ++ [LF])) =? 0) = (Z.pos n =? 0).
Proof.
  intros -> Hv. edestruct (trim_space_visible h) as [t' Ht]; [exact Hv|]. exists (Pos.of_succ_nat (length t')).
  unfold authorized_line. simpl. by rewrite Ht.
Qed.

Lemma finalize_ok {K} `{!Ssh K} pub comment k : finalize (K:=K) pub comment = Ok k →
  ∃ bits, strength (PK_Algorithm k) pub = Ok bits ∧ checkInvariants k = None ∧
    k = MkParsedKey (Algorithm_of (KeyType pub)) (Marshal pub) (trim_space comment) (FingerprintSHA256 pub) bits.
Proof.
  unfold finalize. destruct (Algorithm_IsValid _); [|done]. simpl.
  destruct (strength _ pub) as [bits|] eqn:Hs; [|done]. simpl. unfold guard_err.
  destruct (checkInvariants _) eqn:Hc; [done|]. intros. simplify_eq. eauto.
Qed.

Lemma checkInvariants_ok k : checkInvariants k = None →
  Algorithm_IsValid (PK_Algorithm k) = true ∧ ValidateFingerprint (PK_Fingerprint k) = None ∧
  ValidateKeyComment (PK_Comment k) = None.
Proof.
  unfold checkInvariants. destruct (Algorithm_IsValid _); [|done].
  repeat (case_bool_decide; [done|]). done.
Qed.

Lemma parseKeyLine_ok {K} `{!Ssh K} line k : parseKeyLine (K:=K) line = Ok k →
  ∃ pub comment, finalize (K:=K) pub comment = Ok k.
Proof. unfold parseKeyLine. repeat case_match; naive_solver. Qed.

Lemma Parse_ok {K} `{!Ssh K} raw k : Parse (K:=K) raw = Ok k → ∃ pub comment, finalize (K:=K) pub comment = Ok k.
Proof. unfold Parse. repeat (case_match; [done|]). apply parseKeyLine_ok. Qed.

(** Every key that was finalized can be printed. *)
Lemma finalize_prints {K} `{!Ssh K, !SshLaws K} pub comment k : finalize (K:=K) pub comment = Ok k →
  AuthorizedKeyLine (K:=K) k = Ok (authorized_line (KeyType pub) (Marshal pub) (PK_Comment k) ++ [LF]).
Proof.
  intros (bits & Hst & Hinv & Hk)%finalize_ok. apply checkInvariants_ok in Hinv as (Ha & _ & Hc). subst k.
  unfold AuthorizedKeyLine, AuthorizedKeyLineFrom. simpl in *. rewrite Ha, ParsePublicKey_Marshal. simpl.
  rewrite bool_decide_eq_true_2, Hst by (by rewrite Algorithm_string_of). simpl.
  rewrite printable_no_any by (by apply ValidateKeyComment_bytes). rewrite trim_space_idemp, Hc. simpl.
  f_equal. unfold authorized_line. rewrite Algorithm_string_of, <- !app_assoc. do 3 f_equal. simpl. f_equal.
  case_bool_decide; by rewrite ?decide_True, ?decide_False by done.
Qed.

Lemma Parse_prints {K} `{!Ssh K, !SshLaws K} raw k : Parse (K:=K) raw = Ok k →
  ∃ line, AuthorizedKeyLine (K:=K) k = Ok line.
Proof. intros (pub & c & H)%Parse_ok. eexists. by eapply finalize_prints. Qed.

(** ** The batch, line by line *)

Lemma elem_of_rev_list {A} (x : A) l : x ∈ rev l ↔ x ∈ l.
Proof. rewrite !list_elem_of_In, <- in_rev. done. Qed.
Lemma fmap_rev_list {A B} (f : A → B) l : f <$> rev l = rev (f <$> l).
Proof. apply map_rev. Qed.
Lemma NoDup_rev_list {A} (l : list A) : NoDup l → NoDup (rev l).
Proof. rewrite !NoDup_ListNoDup. apply NoDup_rev. Qed.

(** The lines of a file: a terminator at the end starts no further line. *)
Fixpoint split_lines (s : bytes) : list bytes :=
  match s with
  | [] => []
  | c :: s' =>
      if decide (c = LF) then [] :: split_lines s'
      else match split_lines s' with [] => [[c]] | l :: ls => (c :: l) :: ls end
  end.

(** A line that has to end up as a key or as an error. *)
Definition candidate (l : bytes) : bool :=
  negb (len (trim_space (trim_right [CR] l)) =? 0) && negb (comment_line (trim_right [CR] l)).

Lemma split_lines_index s : s ≠ [] → split_lines s =
  match index_byte LF s with
  | Some i => take i s :: split_lines (drop (S i) s)
  | None => [s]
  end.
Proof.
  induction s as [|c s IH]; intros Hs; [done|]. simpl. destruct (decide (c = LF)); [done|].
  destruct s as [|d s]; [done|]. rewrite IH by done. by destruct (index_byte LF (d :: s)).
Qed.

Section Batch.
Context {K : Type} `{!Ssh K}.

Fixpoint batch_lines (n : Z) (ls : list bytes) (b : batch) : batch :=
  match ls with
  | [] => b
  | l :: ls' => batch_lines (n + 1) ls' (batch_line (K:=K) (n + 1) l b)
  end.

Lemma batch_loop_lines fuel n rest b : (length rest ≤ fuel)%nat →
  batch_loop (K:=K) fuel n rest b = batch_lines n (split_lines rest) b.
Proof.
  revert n rest b. induction fuel as [|fuel IH]; intros n rest b H.
  { destruct rest; [done|simpl in H; lia]. }
  destruct rest as [|c t]; [done|]. rewrite split_lines_index by done. cbn [batch_loop].
  destruct (index_byte LF (c :: t)) as [i|]; [|done]. rewrite IH; [done|].
  rewrite length_drop. simpl in *. lia.
Qed.

Lemma batch_lines_snoc n ls l b :
  batch_lines n (ls ++ [l]) b = batch_line (K:=K) (n + Z.of_nat (length ls) + 1) l (batch_lines n ls b).
Proof.
  revert n b. induction ls as [|l' ls IH]; intros n b; simpl.
  - f_equal. lia.
  - rewrite IH. f_equal. lia.
Qed.

(** What one line does: nothing, one error under its number, or one new key. *)
Lemma batch_line_cases n l b :
  (candidate l = false ∧ batch_line (K:=K) n l b = b) ∨
  (candidate l = true ∧
   ((∃ e, batch_line (K:=K) n l b = add_err n e b) ∨
    (∃ k, parseKeyLine (K:=K) (trim_right [CR] l) = Ok k ∧ (PK_Fingerprint k ∉ b_seen b) ∧
       batch_line (K:=K) n l b = MkBatch (k :: b_keys b) (b_errs b) ({[PK_Fingerprint k]} ∪ b_seen b)))).
Proof.
  unfold candidate, batch_line. destruct (_ =? 0); [by left|]. destruct (comment_line _); [by left|].
  right. split; [done|]. destruct (_ <? _); [by left; eexists|].
  destruct (parseKeyLine _) as [k|e]; [|by left; eexists].
  case_bool_decide; [by left; eexists|]. right. by eexists.
Qed.

(** The invariant of the loop after the lines [ls]. *)
Record batch_inv (ls : list bytes) (b : batch) : Prop := {
  bi_nodup : NoDup (PK_Fingerprint <$> b_keys b);
  bi_seen : ∀ k, k ∈ b_keys b → PK_Fingerprint k ∈ b_seen b;
  bi_valid : ∀ k, k ∈ b_keys b → checkInvariants k = None;
  bi_count : (length (b_keys b) + length (b_errs b) = length (filter (λ l, candidate l = true) ls))%nat;
  bi_keys : ∀ k, k ∈ b_keys b → ∃ l, l ∈ ls ∧ candidate l = true ∧ parseKeyLine (K:=K) (trim_right [CR] l) = Ok k;
  bi_all : ∀ i l, ls !! i = Some l → candidate l = true →
    (∃ k, k ∈ b_keys b ∧ parseKeyLine (K:=K) (trim_right [CR] l) = Ok k) ∨
    (∃ e, MkLineError (Z.of_nat i + 1) e ∈ b_errs b);
  bi_errs : ∀ x, x ∈ b_errs b → ∃ i l, LE_Line x = Z.of_nat i + 1 ∧ ls !! i = Some l ∧ candidate l = true;
}.

Lemma parseKeyLine_valid l k : parseKeyLine (K:=K) l = Ok k → checkInvariants k = None.
Proof. intros (pub & c & H)%parseKeyLine_ok. by apply finalize_ok in H as (? & _ & ? & _). Qed.

Lemma batch_inv_lines ls : batch_inv ls (batch_lines 0 ls (MkBatch [] [] ∅)).
Proof.
  induction ls as [|l ls [Hnd Hs Hv Hc Hk Ha He]] using rev_ind.
  { split; simpl; try done; [constructor|..]; intros; set_solver. }
  rewrite batch_lines_snoc. set (b := batch_lines 0 ls _) in *. set (n := 0 + _ + 1).
  assert (∀ i l', (ls ++ [l]) !! i = Some l' → ls !! i = Some l' ∨ (i = length ls ∧ l' = l)) as Hat.
  { intros i l' [?|[? Hl]]%lookup_app_Some; [by left|right].
    apply list_lookup_singleton_Some in Hl as [? ->]. split; [lia|done]. }
  assert (∀ i l', ls !! i = Some l' → (ls ++ [l]) !! i = Some l') as Hup
    by (intros; by apply lookup_app_l_Some).
  destruct (batch_line_cases n l b) as [[Hcand ->]|[Hcand [[e ->]|(k & Hp & Hfp & ->)]]].
  - split; try done.
    + rewrite filter_app, filter_cons_False by congruence. rewrite length_app. simpl. lia.
    + intros k (l' & ? & ?)%Hk. exists l'. split; [apply elem_of_app; by left|done].
    + intros i l' [Hi|[_ ->]]%Hat Hl'; [eauto|congruence].
    + intros x (i & l' & ? & ? & ?)%He. eauto 6.
  - split; try done; simpl.
    + rewrite filter_app, filter_cons_True by congruence. rewrite length_app. simpl. lia.
    + intros k (l' & ? & ?)%Hk. exists l'. split; [apply elem_of_app; by left|done].
    + intros i l' [Hi|[-> ->]]%Hat Hl'.
      * destruct (Ha i l' Hi Hl') as [?|[e' ?]]; [by left|right; exists e'; by right].
      * right. exists e. left; try f_equal; lia.
    + intros x [->|(i & l' & ? & ? & ?)%He]%elem_of_cons; [|eauto 6].
      exists (length ls), l. split_and!; [simpl; lia|by rewrite list_lookup_middle|done].
  - split; simpl.
    + apply NoDup_cons. split; [|done]. intros (k' & Heq & Hin)%list_elem_of_fmap.
      apply Hfp. rewrite Heq. by apply Hs.
    + intros k' [->|Hin]%elem_of_cons; [set_solver|]. specialize (Hs _ Hin). set_solver.
    + intros k' [->|Hin]%elem_of_cons; [by eapply parseKeyLine_valid|auto].
    + rewrite filter_app, filter_cons_True by congruence. rewrite length_app. simpl. lia.
    + intros k' [->|(l' & ? & ?)%Hk]%elem_of_cons; [exists l|exists l'];
        (split; [apply elem_of_app|done]); [right; by left|by left].
    + intros i l' [Hi|[-> ->]]%Hat Hl'.
      * destruct (Ha i l' Hi Hl') as [(k' & ? & ?)|?]; [left; exists k'; set_solver|by right].
      * left. exists k. set_solver.
    + intros x (i & l' & ? & ? & ?)%He. eauto 6.
Qed.
End Batch.

(** ** Claims *)

(** A published line is one line and means one key: whenever
    [AuthorizedKeyLineFrom] prints, the stored blob is a key of the stated, permitted
    algorithm, and the output is the algorithm, a blank, the base64 of the key's own
    wire form, the trimmed comment if there is one, and a line feed.  The first two
    fields are visible ASCII, so no comment can move them, and no byte before the
    final line feed is a control character, so no comment can add a line. *)
Theorem AuthorizedKeyLineFrom_one_line {K} `{!Ssh K} alg blob comment line :
  AuthorizedKeyLineFrom (K:=K) alg blob comment = Ok line →
  ∃ pub l, ParsePublicKey blob = Some pub ∧ KeyType pub = Algorithm_string alg ∧
    Algorithm_IsValid alg = true ∧ line = l ++ [LF] ∧
    l = authorized_line (Algorithm_string alg) (Marshal pub) (trim_space comment) ∧
    Forall visible (Algorithm_string alg) ∧ Forall visible (std_b64 (Marshal pub)) ∧
    Forall (λ c, 32 ≤ byte_val c ∧ byte_val c ≠ 127) l.
Proof.
  intros (pub & Hp & Ht & Ha & _ & Hc & ->)%AuthorizedKeyLineFrom_ok. eexists pub, _.
  split_and!; try done; [by apply Algorithm_string_visible|apply std_b64_visible|].
  apply authorized_line_printable; [done|by apply ValidateKeyComment_bytes].
Qed.

(** An SSH library with one key, for the witnesses. *)
Definition one_line : bytes := go "ssh-ed25519 YmxvYg==".
#[local] Instance OneKey : Ssh unit := {
  ParseAuthorizedKey line :=
    match cut_prefix one_line line with
    | Some [] => Some (MkParsedLine tt [] [] [])
    | Some (_ :: c) => Some (MkParsedLine tt (trim_space c) [] [])
    | None => None
    end;
  ParsePublicKey b := if bool_decide (b = go "blob") then Some tt else None;
  KeyType _ := go "ssh-ed25519";
  Marshal _ := go "blob";
  FingerprintSHA256 _ := go "SHA256:AAAAAAAAAAAAAAAAAAAAAAAAAAAAAAAAAAAAAAAAAAA";
  RSABits _ := None;
}.

Lemma OneKey_laws : SshLaws unit.
Proof.
  split; [by intros []|]. intros [] c Hc _.
  assert (authorized_line (KeyType tt) (Marshal tt) c =
          one_line ++ (if decide (c = []) then [] else byte_of 32 :: c)) as ->.
  { unfold authorized_line. rewrite !app_assoc. f_equal. }
  cbn [ParseAuthorizedKey OneKey]. rewrite cut_prefix_app.
  destruct (decide (c = [])) as [->|]; [done|]. by rewrite Hc.
Qed.

Lemma AuthorizedKeyLineFrom_one_line_witness : ∃ pub l,
  ParsePublicKey (Ssh:=OneKey) (go "blob") = Some pub ∧
  go "ssh-ed25519 YmxvYg== me@laptop" ++ [LF] = l ++ [LF] ∧
  Forall (λ c, 32 ≤ byte_val c ∧ byte_val c ≠ 127) l.
Proof.
  assert (AuthorizedKeyLineFrom (K:=unit) AlgEd25519 (go "blob") (go " me@laptop ") =
          Ok (go "ssh-ed25519 YmxvYg== me@laptop" ++ [LF])) as H by (vm_compute; reflexivity).
  destruct (AuthorizedKeyLineFrom_one_line _ _ _ _ H) as (pub & l & ? & _ & _ & ? & _ & _ & _ & ?).
  by exists pub, l.
Defined.

(** Submit, print, submit again: every key [Parse] accepts can be printed --
    the line exists, whatever the submission looked like -- and parsing that line
    gives back exactly the same key, as long as the line itself passes the two
    tests on raw input, its length and the private-key markers. *)
Theorem Parse_print_Parse {K} `{!Ssh K, !SshLaws K} raw k :
  Parse (K:=K) raw = Ok k →
  ∃ line, AuthorizedKeyLine (K:=K) k = Ok line ∧
    (len line ≤ MaxLineBytes → containsPrivateKeyMaterial line = false → Parse (K:=K) line = Ok k).
Proof.
  intros (pub & comment & Hf)%Parse_ok. pose proof Hf as (bits & Hst & Hinv & Hk)%finalize_ok.
  apply checkInvariants_ok in Hinv as (Ha & _ & Hc). subst k. simpl in *.
  set (c := trim_space comment) in *. set (alg := Algorithm_of (KeyType pub)) in *.
  assert (Algorithm_string alg = KeyType pub) as Halg by apply Algorithm_string_of.
  assert (trim_space c = c) as Htr by apply trim_space_idemp.
  pose proof (ValidateKeyComment_bytes _ Hc) as Hpr.
  pose proof (finalize_prints _ _ _ Hf) as Hline. cbn [PK_Comment] in Hline. fold c in Hline.
  rewrite <- Halg in Hline.
  eexists. split; [exact Hline|]. intros Hlen Hpm.
  pose proof (authorized_line_printable alg (Marshal pub) c Ha Hpr) as Hprint.
  destruct (Algorithm_string_head alg Ha) as (h & t & Hh & Hvis & Hnum).
  unfold Parse. rewrite (proj2 (Z.ltb_ge _ _) Hlen), Hpm, strip_terminator_line, printable_no_any by done.
  rewrite (comment_line_authorized _ _ _ _ _ Hh) by done.
  destruct (trim_space_authorized _ (Marshal pub) c _ _ Hh Hvis) as [n ->]. simpl.
  unfold parseKeyLine. rewrite Halg, ParseAuthorizedKey_line by (done || by apply printable_no_any).
  cbn -[finalize trim_space]. unfold finalize in *. by fold c alg in Hf |- *; rewrite Htr.
Qed.

Lemma Parse_print_Parse_witness :
  ∃ line, AuthorizedKeyLine (K:=unit) (MkParsedKey AlgEd25519 (go "blob") (go "me") (FingerprintSHA256 tt) 256) = Ok line ∧
    (len line ≤ MaxLineBytes → containsPrivateKeyMaterial line = false →
     Parse (K:=unit) line = Ok (MkParsedKey AlgEd25519 (go "blob") (go "me") (FingerprintSHA256 tt) 256)).
Proof.
  assert (Parse (K:=unit) (go "ssh-ed25519 YmxvYg==  me ") =
          Ok (MkParsedKey AlgEd25519 (go "blob") (go "me") (FingerprintSHA256 tt) 256)) as H
    by (vm_compute; reflexivity).
  exact (@Parse_print_Parse unit OneKey OneKey_laws _ _ H).
Defined.

(** A submitted file is accounted for line by line.  An oversized file or one
    with private-key material yields no key at all.  Otherwise the keys have
    pairwise different fingerprints, are valid, and each is the parse of a line of
    the file; every line that is neither blank nor a comment became a key or is
    named by an error under its 1-based number, and there are exactly as many keys
    and errors as such lines. *)
Theorem ParseAuthorizedKeys_accounts {K} `{!Ssh K} raw ks errs :
  ParseAuthorizedKeys (K:=K) raw = (ks, errs) →
  if (MaxFileBytes <? len raw) || containsPrivateKeyMaterial raw
  then ks = [] ∧ (LE_Line <$> errs) = [0]
  else
    NoDup (PK_Fingerprint <$> ks) ∧ (∀ k, k ∈ ks → checkInvariants k = None) ∧
    (length ks + length errs = length (filter (λ l, candidate l = true) (split_lines raw)))%nat ∧
    (∀ k, k ∈ ks → ∃ l, l ∈ split_lines raw ∧ parseKeyLine (K:=K) (trim_right [CR] l) = Ok k) ∧
    (∀ i l, split_lines raw !! i = Some l → candidate l = true →
       (∃ k, k ∈ ks ∧ parseKeyLine (K:=K) (trim_right [CR] l) = Ok k) ∨
       (∃ e, MkLineError (Z.of_nat i + 1) e ∈ errs)) ∧
    (∀ x, x ∈ errs → ∃ i l, LE_Line x = Z.of_nat i + 1 ∧ split_lines raw !! i = Some l ∧ candidate l = true).
Proof.
  unfold ParseAuthorizedKeys. destruct (_ <? _); [intros; by simplify_eq|].
  destruct (containsPrivateKeyMaterial raw); intros; simplify_eq; [done|].
  rewrite batch_loop_lines by done. destruct (batch_inv_lines (K:=K) (split_lines raw)) as [Hnd _ Hv Hc Hk Ha He].
  set (b := batch_lines _ _ _) in *. cbn [orb]. cbv iota. rewrite !length_rev. split_and!.
  - rewrite fmap_rev_list. by apply NoDup_rev_list.
  - intros k Hin. by apply Hv, elem_of_rev_list.
  - done.
  - intros k Hin. destruct (Hk k) as (l & ? & _ & ?); [by apply elem_of_rev_list|eauto].
  - intros i l Hi Hl. destruct (Ha i l Hi Hl) as [(k & ? & ?)|[e ?]]; [left; exists k|right; exists e];
      by rewrite elem_of_rev_list.
  - intros x Hin. by apply He, elem_of_rev_list.
Qed.

Lemma ParseAuthorizedKeys_accounts_witness :
  let raw := go "# mine" ++ [LF; LF] ++ go "ssh-ed25519 YmxvYg== a" ++ [LF] ++ go "rsa" ++ [CR; LF] ++ go "ssh-ed25519 YmxvYg== b" in
  let r := ParseAuthorizedKeys (K:=unit) raw in
  NoDup (PK_Fingerprint <$> fst r) ∧ length (fst r) = 1%nat ∧ (LE_Line <$> snd r) = [4; 5].
Proof.
  intros raw r. pose proof (ParseAuthorizedKeys_accounts (K:=unit) raw (fst r) (snd r) (surjective_pairing _)) as H.
  assert ((MaxFileBytes <? len raw) || containsPrivateKeyMaterial raw = false) as E by (vm_compute; reflexivity).
  rewrite E in H. split; [exact (proj1 H)|]. vm_compute. split; reflexivity.
Defined.
