(* ===== verification/ManagedBlock.v ===== *)
(** * The managed block of an authorized_keys file

    [internal/managedblock/block.go] and [apply.go]: rendering the block of managed
    keys between two marker lines, merging it into the user's file without touching
    anything outside the markers, and replacing that file atomically.

    The file system is a map from directory paths to directories.  Every system
    call can fail: [faults] gives, for each call of one run, the error it returns,
    if any.  The state keeps every intermediate file system, so that what a crash
    between two calls leaves behind can be stated. *)

From stdpp Require Import pretty.
From S2P Require Import Prelude DomainErrors GoLib Domain Keys.

Open Scope Z_scope.

(** ** Text: block.go *)

(** src/internal/managedblock/block.go:64-72, BeginMarker *)
Definition BeginMarker : gostring := go "# >>> sshpilot-vallet managed keys BEGIN >>>".
Definition EndMarker : gostring := go "# <<< sshpilot-vallet managed keys END <<<".

(** src/internal/managedblock/block.go:78-80, ErrMalformedBlock *)
Definition ErrMalformedBlock : goerror :=
  errors_new "managedblock: ambiguous BEGIN/END markers; refusing to modify the file".

(** src/internal/managedblock/block.go:136-142, isMarker *)
Definition isMarker (line marker : gostring) : bool :=
  let line := trim_suffix [LF] line in
  let line := trim_suffix [CR] line in
  bool_decide (trim [SP; TAB] line = marker).

Definition NUL : ascii := byte_of 0.

(** src/internal/managedblock/block.go:122-134, checkEmitted *)
Definition checkEmitted (line : gostring) : option goerror :=
  if negb (has_suffix [LF] line) || contains_any [LF; CR; NUL] (take (length line - 1) line) then
    Some ErrMalformedBlock
  else if isMarker line BeginMarker || isMarker line EndMarker then Some ErrMalformedBlock
  else None.

Section Render.
Context {K : Type} `{!Ssh K}.

(** The loop of [Render] over the keys from position [i] on, after [buf]. *)
Fixpoint render_keys (i : Z) (pubkeys : list gostring) (buf : bytes) : result bytes :=
  match pubkeys with
  | [] => Ok buf
  | raw :: pubkeys' =>
      let wrap e := errorf ("managedblock: key " ++ pretty (i + 1)) [e] in
      match Parse (K:=K) raw with
      | Err e => Err (wrap e)
      | Ok k =>
          match AuthorizedKeyLine (K:=K) k with
          | Err e => Err (wrap e)
          | Ok line =>
              match checkEmitted line with
              | Some e => Err (wrap e)
              | None => render_keys (i + 1) pubkeys' (buf ++ line)
              end
          end
      end
  end.

(** src/internal/managedblock/block.go:89-120, Render *)
Definition Render (pubkeys : list gostring) : result bytes :=
  buf ← render_keys 0 pubkeys (BeginMarker ++ [LF]);
  Ok (buf ++ EndMarker ++ [LF]).
End Render.

(** src/internal/managedblock/block.go:144-145, span *)
Record span := MkSpan { start : nat; stop : nat }.

(** src/internal/managedblock/block.go:147-161, lineSpans
    (every turn consumes a byte, so the length is enough fuel) *)
Fixpoint lineSpans_from (fuel : nat) (b : bytes) (off : nat) : list span :=
  match fuel with
  | O => []
  | S fuel =>
      if (off <? length b)%nat then
        match index_byte LF (drop off b) with
        | None => [MkSpan off (length b)]
        | Some i => MkSpan off (off + i + 1) :: lineSpans_from fuel b (off + i + 1)
        end
      else []
  end.
Definition lineSpans (b : bytes) : list span := lineSpans_from (length b) b 0.

(** [b[s.start:s.end]] *)
Definition slice (b : bytes) (s : span) : bytes := take (stop s - start s) (drop (start s) b).

(** src/internal/managedblock/block.go:163-186, locate
    (the offsets when [found], [None] otherwise) *)
Definition locate (existing : bytes) : result (option (nat * nat)) :=
  let line s := slice existing s in
  let begins := List.filter (λ s, isMarker (line s) BeginMarker) (lineSpans existing) in
  let ends := List.filter (λ s, negb (isMarker (line s) BeginMarker) && isMarker (line s) EndMarker)
                (lineSpans existing) in
  match begins, ends with
  | [], [] => Ok None
  | [b], [e] => if (start b <? start e)%nat then Ok (Some (start b, stop e)) else Err ErrMalformedBlock
  | _, _ => Err ErrMalformedBlock
  end.

(** src/internal/managedblock/block.go:188-212, blockKeyCount *)
Definition blockKeyCount (b : bytes) : Z :=
  match locate b with
  | Ok (Some (lo, hi)) =>
      let inner := slice b (MkSpan lo hi) in
      let counts s :=
        let line := slice inner s in
        if isMarker line BeginMarker || isMarker line EndMarker then false
        else negb (bool_decide (trim [SP; TAB] (trim_suffix [CR] (trim_suffix [LF] line)) = [])) in
      Z.of_nat (length (List.filter counts (lineSpans inner)))
  | _ => 0
  end.

(** src/internal/managedblock/block.go:214-240, Merge *)
Definition Merge (existing block : bytes) : result bytes :=
  match locate existing with
  | Err e => Err e
  | Ok (Some (lo, hi)) => Ok (take lo existing ++ block ++ drop hi existing)
  | Ok None =>
      let nl := match rev existing with
                | c :: _ => if bool_decide (c ≠ LF) then [LF] else []
                | [] => []
                end in
      Ok (existing ++ nl ++ block)
  end.

(** ** Files: apply.go *)

(** src/internal/managedblock/apply.go:15-21, fileMode *)
Definition fileMode : Z := 6 * 64.                  (* 0o600 *)
Definition dirMode : Z := 7 * 64.                   (* 0o700 *)

(** src/internal/managedblock/apply.go:23-41, ErrNotRegularFile *)
Definition ErrNotRegularFile : goerror :=
  errors_new "managedblock: target is not a regular file; refusing to replace it".
Definition ErrFileTooLarge : goerror :=
  errors_new "managedblock: existing file exceeds the maximum permitted size".
Definition ErrBadPath : goerror := errors_new "managedblock: target path must name a file".
Definition ErrWouldEmpty : goerror := errors_new "managedblock: refusing to empty the managed block".
Definition ErrNotExist : goerror := errors_new "file does not exist".
Definition ErrExist : goerror := errors_new "file already exists".

(** A directory entry: a regular file with its permission bits, or anything else
    (a symbolic link, a directory, a device). *)
Inductive node := RegularFile (mode : Z) (content : bytes) | OtherNode.
Record directory := MkDirectory { dir_mode : Z; entries : gmap gostring node }.
Abbreviation filesystem := (gmap gostring directory).

(** The file system now and, newest first, every one it was before. *)
Record world := MkWorld { cur : filesystem; past : list filesystem }.

Definition file (s : filesystem) (dir name : gostring) : option node :=
  match s !! dir with Some d => entries d !! name | None => None end.

(** src/internal/managedblock/apply.go:43-58, hooks
    (what each call of one run returns: [None] for success; [h_write] also says how
    much was written, [h_rand] is the random bytes) *)
Record hooks := MkHooks {
  h_stat : option goerror;
  h_mkdir : option goerror;
  h_chmodPath : option goerror;
  h_openRoot : option goerror;
  h_lstat : option goerror;
  h_open : option goerror;
  h_readAll : option goerror;
  h_rand : result bytes;
  h_umask : Z;
  h_create : option goerror;
  h_chmodFile : option goerror;
  h_write : option (nat * goerror);
  h_sync : option goerror;
  h_close : option goerror;
  h_rename : option goerror;
  h_remove : option goerror;
  h_syncDir : option goerror;
}.

(** src/internal/managedblock/apply.go:72-84, Options *)
Record Options := MkOptions { Opt_Path : gostring; Opt_DryRun : bool; Opt_AllowEmpty : bool }.

(** src/internal/managedblock/apply.go:86-99, Report *)
Record Report := MkReport {
  Rep_Path : gostring;
  Rep_Existed : bool;
  Rep_Changed : bool;
  Rep_Mode : Z;
  Rep_Size : Z;
}.

(** *** path/filepath, on Unix *)

Definition slash : ascii := byte_of 47.

Fixpoint split_slash (s : gostring) : list gostring :=
  match s with
  | [] => [[]]
  | c :: s' =>
      if decide (c = slash) then [] :: split_slash s'
      else match split_slash s' with [] => [[c]] | l :: ls => (c :: l) :: ls end
  end.

(** [filepath.Clean]: the elements left after dropping empty ones and dots and
    resolving double dots, innermost first. *)
Definition clean_step (rooted : bool) (st : list gostring) (e : gostring) : list gostring :=
  if bool_decide (e = []) || bool_decide (e = go ".") then st
  else if bool_decide (e = go "..") then
    match st with
    | p :: st' => if bool_decide (p = go "..") then e :: st else st'
    | [] => if rooted then [] else [e]
    end
  else e :: st.
Definition filepath_Clean (p : gostring) : gostring :=
  let rooted := match p with c :: _ => bool_decide (c = slash) | [] => false end in
  let st := rev (foldl (clean_step rooted) [] (split_slash p)) in
  let body := match st with [] => [] | e :: es => foldl (λ acc x, acc ++ slash :: x) e es end in
  if rooted then slash :: body
  else if bool_decide (body = []) then go "." else body.

(** [filepath.Split]: up to and with the last separator, and the rest. *)
Definition filepath_Split (p : gostring) : gostring * gostring :=
  match index_byte slash (rev p) with
  | Some i => (take (length p - i) p, drop (length p - i) p)
  | None => ([], p)
  end.

(** *** The calls *)

Definition set_fs (s : filesystem) : stM world unit := λ w, (Ok tt, MkWorld s (cur w :: past w)).
Definition get_fs : stM world filesystem := λ w, (Ok (cur w), w).
Definition fail_if (f : option goerror) : stM world unit := λ w,
  match f with Some e => (Err e, w) | None => (Ok tt, w) end.

(** Replace or remove one entry of an existing directory. *)
Definition set_entry (dir name : gostring) (n : option node) : stM world unit := λ w,
  match cur w !! dir with
  | Some d => set_fs (<[dir := MkDirectory (dir_mode d) (partial_alter (λ _, n) name (entries d))]> (cur w)) w
  | None => (Err ErrNotExist, w)
  end.

Open Scope stm_scope.

Definition os_Stat (H : hooks) (dir : gostring) : stM world unit :=
  let! _ := fail_if (h_stat H) in
  let! s := get_fs in
  if bool_decide (is_Some (s !! dir)) then st_ret tt else st_fail ErrNotExist.

Definition os_MkdirAll (H : hooks) (dir : gostring) (mode : Z) : stM world unit :=
  let! _ := fail_if (h_mkdir H) in
  let! s := get_fs in
  match s !! dir with
  | Some _ => st_ret tt
  | None => set_fs (<[dir := MkDirectory (Z.land mode (Z.lnot (h_umask H))) ∅]> s)
  end.

Definition os_Chmod (H : hooks) (dir : gostring) (mode : Z) : stM world unit :=
  let! _ := fail_if (h_chmodPath H) in
  let! s := get_fs in
  match s !! dir with
  | Some d => set_fs (<[dir := MkDirectory mode (entries d)]> s)
  | None => st_fail ErrNotExist
  end.

Definition wrap_err {A} (msg : string) (m : stM world A) : stM world A := λ w,
  match m w with (Ok a, w') => (Ok a, w') | (Err e, w') => (Err (errorf msg [e]), w') end.

(** src/internal/managedblock/apply.go:188-205, ensureDir *)
Definition ensureDir (H : hooks) (dir : gostring) : stM world unit :=
  try! r := os_Stat H dir in
  match r with
  | Ok _ => st_ret tt
  | Err e =>
      if negb (errors_is e ErrNotExist) then st_fail (errorf "managedblock: stat directory" [e]) else
      let! _ := wrap_err "managedblock: create directory" (os_MkdirAll H dir dirMode) in
      wrap_err "managedblock: set directory mode" (os_Chmod H dir dirMode)
  end.

(** [os.OpenRoot]: the directory has to be there. *)
Definition os_OpenRoot (H : hooks) (dir : gostring) : stM world unit :=
  let! _ := fail_if (h_openRoot H) in
  let! s := get_fs in
  match s !! dir with Some _ => st_ret tt | None => st_fail ErrNotExist end.

(** src/internal/managedblock/apply.go:207-235, readExisting
    (content, permissions and whether the file existed) *)
Definition readExisting (H : hooks) (dir base : gostring) : stM world (bytes * Z * bool) :=
  let! s := get_fs in
  match h_lstat H, file s dir base with
  | Some e, _ => if errors_is e ErrNotExist then st_ret ([], 0, false)
                 else st_fail (errorf "managedblock: stat target" [e])
  | None, None => st_ret ([], 0, false)
  | None, Some OtherNode => st_fail ErrNotRegularFile
  | None, Some (RegularFile mode stored) =>
      let! _ := wrap_err "managedblock: open target" (fail_if (h_open H)) in
      let! _ := wrap_err "managedblock: read target" (fail_if (h_readAll H)) in
      let content := take (Z.to_nat (MaxFileBytes + 1)) stored in
      if MaxFileBytes <? len content then st_fail ErrFileTooLarge
      else st_ret (content, mode, true)
  end.

(** src/internal/managedblock/apply.go:237-245, finalMode *)
Definition finalMode (mode : Z) (existed : bool) : Z :=
  if negb existed then fileMode else Z.land mode fileMode.

(** src/internal/managedblock/apply.go:293-302, tempName *)
Definition tempName (H : hooks) (base : gostring) : result gostring :=
  match h_rand H with
  | Err e => Err (errorf "managedblock: generate temp name" [e])
  | Ok b => Ok (go "." ++ base ++ go "." ++ hex_encode b ++ go ".tmp")
  end.

(** [root.OpenFile(tmp, O_WRONLY|O_CREATE|O_EXCL, mode)] *)
Definition create_excl (H : hooks) (dir tmp : gostring) (mode : Z) : stM world unit :=
  let! _ := fail_if (h_create H) in
  let! s := get_fs in
  match file s dir tmp with
  | Some _ => st_fail ErrExist
  | None => set_entry dir tmp (Some (RegularFile (Z.land mode (Z.lnot (h_umask H))) []))
  end.

(** The open temporary file: change its mode, append to its content. *)
Definition on_temp (dir tmp : gostring) (f : Z → bytes → node) : stM world unit :=
  let! s := get_fs in
  match file s dir tmp with
  | Some (RegularFile m c) => set_entry dir tmp (Some (f m c))
  | _ => st_fail ErrNotExist
  end.

Definition chmod_temp (H : hooks) (dir tmp : gostring) (mode : Z) : stM world unit :=
  let! _ := fail_if (h_chmodFile H) in
  on_temp dir tmp (λ _ c, RegularFile mode c).

Definition write_temp (H : hooks) (dir tmp : gostring) (content : bytes) : stM world unit :=
  match h_write H with
  | None => on_temp dir tmp (λ m c, RegularFile m (c ++ content))
  | Some (n, e) =>
      let! _ := on_temp dir tmp (λ m c, RegularFile m (c ++ take n content)) in st_fail e
  end.

(** [root.Rename]: the entry replaces the other in one step. *)
Definition rename (H : hooks) (dir tmp base : gostring) : stM world unit :=
  let! _ := fail_if (h_rename H) in
  λ w, match cur w !! dir with
       | Some d =>
           match entries d !! tmp with
           | Some n => set_fs (<[dir := MkDirectory (dir_mode d) (<[base := n]> (delete tmp (entries d)))]> (cur w)) w
           | None => (Err ErrNotExist, w)
           end
       | None => (Err ErrNotExist, w)
       end.

(** [_ = root.Remove(tmp)]: its error is dropped. *)
Definition remove_quietly (H : hooks) (dir tmp : gostring) : stM world unit :=
  try! _ := (let! _ := fail_if (h_remove H) in set_entry dir tmp None) in st_ret tt.

(** src/internal/managedblock/apply.go:247-291, writeAtomic *)
Definition writeAtomic (H : hooks) (base : gostring) (content : bytes) (mode : Z) (dir : gostring) : stM world unit :=
  match tempName H base with
  | Err e => st_fail e
  | Ok tmp =>
      let! _ := wrap_err "managedblock: create temp file" (create_excl H dir tmp mode) in
      let abandon cause := let! _ := remove_quietly H dir tmp in st_fail cause in
      try! r := chmod_temp H dir tmp mode in
      match r with
      | Err e => abandon (errorf "managedblock: set temp file mode" [e])
      | Ok _ =>
          try! r := write_temp H dir tmp content in
          match r with
          | Err e => abandon (errorf "managedblock: write temp file" [e])
          | Ok _ =>
              try! r := fail_if (h_sync H) in
              match r with
              | Err e => abandon (errorf "managedblock: sync temp file" [e])
              | Ok _ =>
                  try! r := fail_if (h_close H) in
                  match r with
                  | Err e => abandon (errorf "managedblock: close temp file" [e])
                  | Ok _ =>
                      try! r := rename H dir tmp base in
                      match r with
                      | Err e =>
                          let! _ := remove_quietly H dir tmp in
                          st_fail (errorf "managedblock: rename temp file" [e])
                      | Ok _ => wrap_err "managedblock: sync directory" (fail_if (h_syncDir H))
                      end
                  end
              end
          end
      end
  end.

(** The directory and the file name [Apply] works on. *)
Definition target (opts : Options) : gostring * gostring :=
  let '(dir, base) := filepath_Split (filepath_Clean (Opt_Path opts)) in
  (if bool_decide (dir = []) then go "." else dir, base).

Section Apply.
Context {K : Type} `{!Ssh K}.

(** src/internal/managedblock/apply.go:144-186, Apply (from opening the directory on) *)
Definition apply_in (H : hooks) (opts : Options) (block : bytes) (dir base : gostring) (rep : Report) (w : world)
    : (Report * option goerror) * world :=
  match os_OpenRoot H dir w with
  | (Err e, w) => ((rep, Some (errorf "managedblock: open directory" [e])), w)
  | (Ok _, w) =>
    match readExisting H dir base w with
    | (Err e, w) => ((rep, Some e), w)
    | (Ok (existing, mode, existed), w) =>
      let rep := MkReport (Rep_Path rep) existed (Rep_Changed rep) (finalMode mode existed) (Rep_Size rep) in
      match Merge existing block with
      | Err e => ((rep, Some e), w)
      | Ok merged =>
        let rep := MkReport (Rep_Path rep) existed (negb existed || negb (bool_decide (existing = merged)))
                     (Rep_Mode rep) (len merged) in
        if negb (Opt_AllowEmpty opts) && (0 <? blockKeyCount existing) && (blockKeyCount block =? 0) then
          ((rep, Some (errorf "managedblock: now 0 keys; re-run with --allow-empty" [ErrWouldEmpty])), w)
        else if Opt_DryRun opts || negb (Rep_Changed rep) then ((rep, None), w)
        else match writeAtomic H base merged (Rep_Mode rep) dir w with
             | (Err e, w) => ((rep, Some e), w)
             | (Ok _, w) => ((rep, None), w)
             end
      end
    end
  end.

(** src/internal/managedblock/apply.go:101-186, Apply *)
Definition Apply (H : hooks) (pubkeys : list gostring) (opts : Options) (w : world)
    : (Report * option goerror) * world :=
  let none := MkReport [] false false 0 0 in
  match Render (K:=K) pubkeys with
  | Err e => ((none, Some e), w)
  | Ok block =>
      let path := filepath_Clean (Opt_Path opts) in
      let '(dir, base) := target opts in
      if bool_decide (base = []) || bool_decide (base = go ".") || bool_decide (base = go "..") then
        ((none, Some ErrBadPath), w)
      else
        let rep := MkReport path false false 0 0 in
        if Opt_DryRun opts then
          match os_Stat H dir w with
          | (Err e, w) =>
              if errors_is e ErrNotExist then ((MkReport path false true fileMode (len block), None), w)
              else apply_in H opts block dir base rep w
          | (Ok _, w) => apply_in H opts block dir base rep w
          end
        else match ensureDir H dir w with
             | (Err e, w) => ((rep, Some e), w)
             | (Ok _, w) => apply_in H opts block dir base rep w
             end
  end.
End Apply.

Close Scope stm_scope.

(** ** Lines *)

(** The lines of a file with their terminators. *)
Fixpoint keep_lines (s : bytes) : list bytes :=
  match s with
  | [] => []
  | c :: s' =>
      if decide (c = LF) then [c] :: keep_lines s'
      else match keep_lines s' with [] => [[c]] | l :: ls => (c :: l) :: ls end
  end.

Lemma keep_lines_concat s : concat (keep_lines s) = s.
Proof.
  induction s as [|c s IH]; simpl; [done|]. destruct (decide _); simpl; [by rewrite IH|].
  destruct (keep_lines s); simpl in *; by rewrite <- IH.
Qed.

Lemma keep_lines_index s : s ≠ [] → keep_lines s =
  match index_byte LF s with
  | Some i => take (S i) s :: keep_lines (drop (S i) s)
  | None => [s]
  end.
Proof.
  induction s as [|c s IH]; intros Hs; [done|]. simpl. destruct (decide (c = LF)); [by subst|].
  destruct s as [|d s]; [done|]. rewrite IH by done. by destruct (index_byte LF (d :: s)).
Qed.

(** The empty text, or one whose last line is terminated. *)
Definition terminated (s : bytes) : Prop := s = [] ∨ ∃ t, s = t ++ [LF].

Lemma keep_lines_app a b : terminated a → keep_lines (a ++ b) = keep_lines a ++ keep_lines b.
Proof.
  intros [->|[t ->]]; [done|]. induction t as [|c t IH]; simpl; [done|].
  rewrite IH. destruct (decide (c = LF)); [done|].
  destruct (keep_lines (t ++ [LF])) eqn:E; [|done].
  exfalso. pose proof (keep_lines_concat (t ++ [LF])) as Hc. rewrite E in Hc. by destruct t.
Qed.

(** A line: not empty, and a line feed at most at its end. *)
Definition is_line (l : bytes) : Prop := keep_lines l = [l].

Lemma keep_lines_lines s : Forall is_line (keep_lines s).
Proof.
  unfold is_line. induction s as [|c s IH]; simpl; [constructor|]. destruct (decide (c = LF)) as [->|Hc].
  - constructor; [|done]. by vm_compute.
  - destruct (keep_lines s) as [|l ls]; (constructor; [|by inversion IH]).
    + simpl. by rewrite decide_False.
    + simpl. rewrite decide_False by done. inversion IH as [|?? Hl]. by rewrite Hl.
Qed.

Fixpoint spans_of (off : nat) (ls : list bytes) : list span :=
  match ls with
  | [] => []
  | l :: ls' => MkSpan off (off + length l) :: spans_of (off + length l) ls'
  end.

Fixpoint spans_where (P : bytes → bool) (off : nat) (ls : list bytes) : list span :=
  match ls with
  | [] => []
  | l :: ls' =>
      let rest := spans_where P (off + length l) ls' in
      if P l then MkSpan off (off + length l) :: rest else rest
  end.

Lemma index_byte_lt c s i : index_byte c s = Some i → (i < length s)%nat.
Proof.
  revert i. induction s as [|b s IH]; intros i; simpl; [done|]. destruct (decide _).
  - intros [= <-]. lia.
  - destruct (index_byte c s) as [j|]; [|done]. intros [= <-]. specialize (IH j eq_refl). lia.
Qed.

Lemma lineSpans_from_keep fuel b off : (length b - off ≤ fuel)%nat → (off ≤ length b)%nat →
  lineSpans_from fuel b off = spans_of off (keep_lines (drop off b)).
Proof.
  revert off. induction fuel as [|fuel IH]; intros off Hf Ho.
  { rewrite drop_ge by lia. done. }
  cbn [lineSpans_from]. destruct (off <? length b)%nat eqn:Hlt.
  2:{ apply Nat.ltb_ge in Hlt. rewrite drop_ge by lia. done. }
  apply Nat.ltb_lt in Hlt. assert (drop off b ≠ []) as Hne.
  { intros E. apply (f_equal length) in E. rewrite length_drop in E. simpl in E. lia. }
  rewrite keep_lines_index by done. destruct (index_byte LF (drop off b)) as [i|] eqn:Hi; simpl.
  - apply index_byte_lt in Hi. rewrite length_drop in Hi. rewrite IH by lia.
    rewrite length_take, length_drop, drop_drop. replace (S i `min` (length b - off))%nat with (i + 1)%nat by lia.
    replace (off + S i)%nat with (off + i + 1)%nat by lia. by replace (off + (i + 1))%nat with (off + i + 1)%nat by lia.
  - rewrite length_drop. by replace (off + (length b - off))%nat with (length b) by lia.
Qed.

Lemma lineSpans_keep b : lineSpans b = spans_of 0 (keep_lines b).
Proof. unfold lineSpans. rewrite lineSpans_from_keep by lia. by rewrite drop_0. Qed.

Lemma filter_spans P pre ls b : b = pre ++ concat ls →
  List.filter (λ s, P (slice b s)) (spans_of (length pre) ls) = spans_where P (length pre) ls.
Proof.
  revert pre. induction ls as [|l ls IH]; intros pre Hb; [done|]. simpl.
  assert (slice b (MkSpan (length pre) (length pre + length l)) = l) as ->.
  { unfold slice. simpl. rewrite Hb, drop_app_length. simpl.
    replace (length pre + length l - length pre)%nat with (length l) by lia. by rewrite take_app_length. }
  rewrite <- length_app, IH; [done|]. rewrite Hb. simpl. by rewrite app_assoc.
Qed.

Lemma filter_lineSpans P b :
  List.filter (λ s, P (slice b s)) (lineSpans b) = spans_where P 0 (keep_lines b).
Proof. rewrite lineSpans_keep. apply (filter_spans P [] _ b). by rewrite keep_lines_concat. Qed.

Lemma spans_where_app P off A B :
  spans_where P off (A ++ B) = spans_where P off A ++ spans_where P (off + length (concat A)) B.
Proof.
  revert off. induction A as [|l A IH]; intros off; simpl; [by rewrite Nat.add_0_r|].
  rewrite IH, length_app, Nat.add_assoc. by destruct (P l).
Qed.

Lemma spans_where_nil P off ls : Forall (λ l, P l = false) ls ↔ spans_where P off ls = [].
Proof.
  split.
  - intros H. revert off. induction H as [|l ls Hl H IH]; intros off; simpl; [done|]. by rewrite Hl, IH.
  - revert off. induction ls as [|l ls IH]; intros off; simpl; [constructor|].
    destruct (P l) eqn:Hl; [done|]. intros H. constructor; [done|]. by eapply IH.
Qed.

Lemma spans_where_one P off ls s : spans_where P off ls = [s] →
  ∃ A l B, ls = A ++ l :: B ∧ P l = true ∧ Forall (λ l, P l = false) A ∧ Forall (λ l, P l = false) B ∧
    s = MkSpan (off + length (concat A)) (off + length (concat A) + length l).
Proof.
  revert off. induction ls as [|l ls IH]; intros off; simpl; [done|]. destruct (P l) eqn:Hl.
  - intros H. injection H as <- H. exists [], l, ls. simpl. rewrite Nat.add_0_r.
    split_and!; try done. by eapply spans_where_nil.
  - intros (A & l' & B & -> & ? & ? & ? & ->)%IH. exists (l :: A), l', B. simpl. rewrite length_app, Nat.add_assoc.
    split_and!; try done. by constructor.
Qed.

(** ** Locating the block *)

Definition is_begin (l : bytes) : bool := isMarker l BeginMarker.
Definition is_end (l : bytes) : bool := negb (isMarker l BeginMarker) && isMarker l EndMarker.
(** A line the file may hold outside and inside the block. *)
Definition plain (l : bytes) : Prop := is_begin l = false ∧ is_end l = false.

Lemma begin_not_end l : is_begin l = true → is_end l = false.
Proof. unfold is_begin, is_end. intros ->. done. Qed.

Lemma plain_iff l : plain l ↔ isMarker l BeginMarker = false ∧ isMarker l EndMarker = false.
Proof. unfold plain, is_begin, is_end. destruct (isMarker l BeginMarker), (isMarker l EndMarker); simpl; tauto. Qed.

Lemma Forall_plain ls :
  Forall (λ l, is_begin l = false) ls → Forall (λ l, is_end l = false) ls → Forall plain ls.
Proof. intros. by apply Forall_and. Qed.

(** Exactly one BEGIN line followed by exactly one END line. *)
Record block_lines (ls P : list bytes) (bl : bytes) (M : list bytes) (el : bytes) (Q : list bytes) : Prop := {
  bl_eq : ls = P ++ bl :: M ++ el :: Q;
  bl_begin : is_begin bl = true;
  bl_end : is_end el = true;
  bl_before : Forall plain P;
  bl_inside : Forall plain M;
  bl_after : Forall plain Q;
}.

Lemma locate_lines b : locate b =
  match spans_where is_begin 0 (keep_lines b), spans_where is_end 0 (keep_lines b) with
  | [], [] => Ok None
  | [b], [e] => if (start b <? start e)%nat then Ok (Some (start b, stop e)) else Err ErrMalformedBlock
  | _, _ => Err ErrMalformedBlock
  end.
Proof. by rewrite <- !filter_lineSpans. Qed.

Lemma locate_none b : locate b = Ok None ↔ Forall plain (keep_lines b).
Proof.
  rewrite locate_lines. split.
  - intros H. apply Forall_plain; eapply spans_where_nil; by repeat case_match.
  - intros [Hb He]%Forall_and. apply (spans_where_nil _ 0) in Hb, He. by rewrite Hb, He.
Qed.

Lemma locate_some b P bl M el Q : block_lines (keep_lines b) P bl M el Q →
  locate b = Ok (Some (length (concat P), length (concat (P ++ bl :: M ++ [el])))).
Proof.
  intros [Heq Hb He [HPb HPe]%Forall_and [HMb HMe]%Forall_and [HQb HQe]%Forall_and].
  rewrite locate_lines, Heq. pose proof (begin_not_end _ Hb) as Hbe.
  assert (is_begin el = false) as Heb.
  { destruct (is_begin el) eqn:E; [|done]. apply begin_not_end in E. congruence. }
  rewrite !spans_where_app. simpl. rewrite !spans_where_app. simpl. rewrite Hb, He, Hbe, Heb.
  rewrite !(proj1 (spans_where_nil _ _ _)) by done. simpl.
  rewrite !concat_app, !length_app. simpl. rewrite !concat_app, !length_app. simpl.
  assert (0 < length bl)%nat as Hl. { destruct bl; [by vm_compute in Hb|simpl; lia]. }
  rewrite (proj2 (Nat.ltb_lt _ _)) by lia. do 2 f_equal. rewrite app_nil_r. apply pair_equal_spec; lia.
Qed.

Lemma locate_found b lo hi : locate b = Ok (Some (lo, hi)) →
  ∃ P bl M el Q, block_lines (keep_lines b) P bl M el Q ∧
    lo = length (concat P) ∧ hi = length (concat (P ++ bl :: M ++ [el])).
Proof.
  intros Hl. pose proof Hl as Hl'. rewrite locate_lines in Hl.
  destruct (spans_where is_begin 0 (keep_lines b)) as [|sb [|]] eqn:Hsb;
    destruct (spans_where is_end 0 (keep_lines b)) as [|se [|]] eqn:Hse; try done.
  destruct (start sb <? start se)%nat eqn:Hlt; [|done]. apply Nat.ltb_lt in Hlt.
  apply spans_where_one in Hsb as (A & bl & B & HA & Hbl & HAb & HBb & ->).
  apply spans_where_one in Hse as (C & el & D & HC & Hel & HCe & HDe & ->). simpl in Hlt.
  assert (∃ M, C = A ++ bl :: M ∧ B = M ++ el :: D) as (M & -> & ->).
  { rewrite HA in HC. apply app_eq_app in HC as [k [[-> Hk]|[-> Hk]]].
    - rewrite concat_app, length_app in Hlt. lia.
    - destruct k as [|x k]; simplify_eq/=.
      + by rewrite begin_not_end in Hel.
      + by exists k. }
  apply Forall_app in HBb as [HMb [_ HDb]%Forall_cons]. apply Forall_app in HCe as [HAe [_ HMe]%Forall_cons].
  assert (block_lines (keep_lines b) A bl M el D) as Hbls by (split; by try apply Forall_plain).
  exists A, bl, M, el, D. split; [done|]. rewrite (locate_some _ _ _ _ _ _ Hbls) in Hl'. by simplify_eq.
Qed.

(** ** The file around the block *)

Lemma index_byte_take c s i : index_byte c s = Some i → ∃ t, take (S i) s = t ++ [c].
Proof.
  revert i. induction s as [|b s IH]; intros i; simpl; [done|]. destruct (decide (b = c)) as [->|].
  - intros [= <-]. by exists [].
  - destruct (index_byte c s) as [j|]; [|done]. intros [= <-]. destruct (IH j eq_refl) as [t Ht].
    exists (b :: t). simpl in *. by rewrite Ht.
Qed.

Lemma keep_lines_cons_inv b l ls : keep_lines b = l :: ls →
  keep_lines l = [l] ∧ keep_lines (concat ls) = ls ∧ (ls ≠ [] → terminated l).
Proof.
  intros Hb. pose proof (keep_lines_lines b) as Hl. rewrite Hb in Hl. apply Forall_cons in Hl as [Hl _].
  split; [done|]. assert (b ≠ []) as Hne by (by intros ->). rewrite keep_lines_index in Hb by done.
  destruct (index_byte LF b) as [i|] eqn:Hi; simplify_eq; [|done].
  rewrite keep_lines_concat. split; [done|]. intros _. right. by apply index_byte_take.
Qed.

Lemma terminated_app a b : terminated a → terminated b → terminated (a ++ b).
Proof. intros Ha [->|[t ->]]; [by rewrite app_nil_r|]. right. exists (a ++ t). by rewrite app_assoc. Qed.

Lemma keep_lines_split P R : ∀ b, keep_lines b = P ++ R →
  b = concat P ++ concat R ∧ keep_lines (concat P) = P ∧ keep_lines (concat R) = R ∧ (R ≠ [] → terminated (concat P)).
Proof.
  intros b Hb. split; [by rewrite <- concat_app, <- Hb, keep_lines_concat|]. revert b Hb.
  induction P as [|l P IH]; intros b Hb.
  { simpl in *. split_and!; [done| |by left]. rewrite <- Hb at 2. by rewrite <- Hb, keep_lines_concat. }
  apply keep_lines_cons_inv in Hb as (Hl & Hr & Ht). destruct (IH _ Hr) as (HP & HR & HT).
  split_and!; [|done|].
  - simpl. destruct P as [|l' P]; [simpl; by rewrite app_nil_r|].
    rewrite keep_lines_app by (by apply Ht). by rewrite Hl, HP.
  - intros HRn. apply terminated_app; [|by apply HT]. apply Ht. by destruct P, R.
Qed.

(** A text that is one marked block, from its BEGIN line to its END line. *)
Definition managed (blk : bytes) : Prop :=
  ∃ bl M el, keep_lines blk = bl :: M ++ [el] ∧ is_begin bl = true ∧ is_end el = true ∧ Forall plain M.

(** A file cut at its managed block. *)
Record around (pre blk post : bytes) : Prop := {
  ar_pre : Forall plain (keep_lines pre);
  ar_post : Forall plain (keep_lines post);
  ar_blk : managed blk;
  ar_cut : terminated pre;
  ar_cut2 : terminated blk ∨ post = [];
}.

Lemma locate_around pre blk post : around pre blk post →
  locate (pre ++ blk ++ post) = Ok (Some (length pre, (length pre + length blk)%nat)).
Proof.
  intros [Hpre Hpost (bl & M & el & Hk & Hb & He & HM) Hc1 Hc2].
  rewrite (locate_some _ (keep_lines pre) bl M el (keep_lines post)).
  - rewrite concat_app, <- Hk, !keep_lines_concat, length_app. done.
  - split; try done. rewrite keep_lines_app by done. f_equal.
    destruct Hc2 as [Hc2| ->]; [rewrite keep_lines_app by done|rewrite app_nil_r]; rewrite Hk; simpl.
    + by rewrite <- app_assoc.
    + done.
Qed.

Lemma locate_around_inv b lo hi : locate b = Ok (Some (lo, hi)) →
  ∃ pre blk post, b = pre ++ blk ++ post ∧ around pre blk post ∧
    lo = length pre ∧ hi = (length pre + length blk)%nat.
Proof.
  intros (P & bl & M & el & Q & [Heq Hb He HP HM HQ] & -> & ->)%locate_found.
  destruct (keep_lines_split P (bl :: M ++ el :: Q) b Heq) as (Hbeq & HkP & HkR & Ht).
  destruct (keep_lines_split (bl :: M ++ [el]) Q (concat (bl :: M ++ el :: Q))) as (Hbeq2 & HkB & HkQ & Ht2).
  { rewrite HkR. simpl. by rewrite <- app_assoc. }
  exists (concat P), (concat (bl :: M ++ [el])), (concat Q). split_and!.
  - by rewrite <- Hbeq2.
  - split; rewrite ?HkP, ?HkQ; try done; [|by apply Ht|].
    + exists bl, M, el. by rewrite HkB.
    + destruct Q as [|q Q]; [by right|left; by apply Ht2].
  - done.
  - by rewrite concat_app, length_app.
Qed.

(** ** What [Merge] computes *)

Definition newline_if (existing : bytes) : bytes :=
  match rev existing with
  | c :: _ => if bool_decide (c ≠ LF) then [LF] else []
  | [] => []
  end.

Lemma newline_terminated s : terminated (s ++ newline_if s).
Proof.
  unfold newline_if. destruct s as [|c s _] using rev_ind; [by left|]. rewrite rev_app_distr. simpl.
  right. case_bool_decide as Hc; [by eexists|]. subst c. exists s. by rewrite app_nil_r.
Qed.


Lemma trim_suffix_hit c l : trim_suffix [c] (l ++ [c]) = l.
Proof.
  unfold trim_suffix, has_suffix. rewrite rev_app_distr. cbn [rev app has_prefix].
  rewrite bool_decide_eq_true_2 by done. cbn [andb]. cbv iota.
  rewrite length_app. simpl. replace (length l + 1 - 1)%nat with (length l) by lia. by rewrite take_app_length.
Qed.

Lemma trim_suffix_miss c d l : d ≠ c → trim_suffix [c] (l ++ [d]) = l ++ [d].
Proof.
  intros Hd. unfold trim_suffix, has_suffix. rewrite rev_app_distr. cbn [rev app has_prefix].
  by rewrite bool_decide_eq_false_2 by congruence.
Qed.

Lemma plain_newline_line l d : d ≠ LF → plain (l ++ [d]) → plain ((l ++ [d]) ++ [LF]).
Proof.
  intros Hd. unfold plain, is_begin, is_end, isMarker. by rewrite trim_suffix_hit, trim_suffix_miss.
Qed.

Lemma keep_lines_add_newline s c : c ≠ LF → ∃ L l d, d ≠ LF ∧
  keep_lines (s ++ [c]) = L ++ [l ++ [d]] ∧ keep_lines ((s ++ [c]) ++ [LF]) = L ++ [(l ++ [d]) ++ [LF]].
Proof.
  intros Hc. induction s as [|b s (L & l & d & Hd & H1 & H2)].
  - exists [], [], c. simpl. by rewrite !decide_False.
  - cbn [app keep_lines]. rewrite H1, H2. destruct (decide (b = LF)).
    + by exists ([b] :: L), l, d.
    + destruct L as [|l' L]; [by exists [], (b :: l), d|by exists ((b :: l') :: L), l, d].
Qed.

Lemma plain_newline s : Forall plain (keep_lines s) → Forall plain (keep_lines (s ++ newline_if s)).
Proof.
  unfold newline_if. destruct s as [|c s _] using rev_ind; [done|]. rewrite rev_app_distr. cbn [rev app].
  case_bool_decide as Hc; [|by rewrite app_nil_r]. intros H.
  destruct (keep_lines_add_newline s c Hc) as (L & l & d & Hd & H1 & H2).
  rewrite H1 in H. rewrite H2. apply Forall_app in H as [? [? _]%Forall_cons]. apply Forall_app_2; [done|].
  constructor; [by apply plain_newline_line|done].
Qed.

Lemma Merge_around pre old post block : around pre old post →
  Merge (pre ++ old ++ post) block = Ok (pre ++ block ++ post).
Proof.
  intros Har. unfold Merge. rewrite (locate_around _ _ _ Har), take_app_length. do 2 f_equal.
  f_equal. by rewrite app_assoc, <- length_app, drop_app_length.
Qed.

(** The three outcomes of [Merge], for a well-formed new block. *)
Lemma Merge_cases existing block : managed block → terminated block →
  (∃ pre old post, existing = pre ++ old ++ post ∧ around pre old post ∧ around pre block post ∧
     Merge existing block = Ok (pre ++ block ++ post)) ∨
  (Forall plain (keep_lines existing) ∧ around (existing ++ newline_if existing) block [] ∧
     Merge existing block = Ok (existing ++ newline_if existing ++ block)) ∨
  (locate existing = Err ErrMalformedBlock ∧ Merge existing block = Err ErrMalformedBlock).
Proof.
  intros Hm Ht. unfold Merge. destruct (locate existing) as [[[lo hi]|]|e] eqn:Hloc.
  - left. destruct (locate_around_inv _ _ _ Hloc) as (pre & old & post & -> & Har & -> & ->).
    exists pre, old, post. split_and!; try done.
    + destruct Har. split; auto.
    + pose proof (Merge_around pre old post block Har) as E. unfold Merge in E. by rewrite Hloc in E.
  - right; left. apply locate_none in Hloc. split; [done|]. split; [|done].
    split; [by apply plain_newline|constructor|done|apply newline_terminated|by right].
  - right; right. rewrite locate_lines in Hloc. by repeat case_match; simplify_eq.
Qed.

(** ** What [Render] emits *)

Lemma trim_left_keeps cs x h : mem_byte h cs = false → ∃ y, trim_left cs (x ++ [h]) = y ++ [h].
Proof.
  intros Hh. induction x as [|c x [y IH]]; simpl; [rewrite Hh; by exists []|].
  destruct (mem_byte c cs); [by exists y|by exists (c :: x)].
Qed.

Lemma trim_head cs h t : mem_byte h cs = false → ∃ t', trim cs (h :: t) = h :: t'.
Proof.
  intros Hh. unfold trim, trim_right. cbn [trim_left]. rewrite Hh. cbn [rev].
  destruct (trim_left_keeps cs (rev t) h Hh) as [y ->]. rewrite rev_app_distr. by exists (rev y).
Qed.

Lemma trim_suffix_head c h t : h ≠ c → ∃ t', trim_suffix [c] (h :: t) = h :: t'.
Proof.
  intros Hc. destruct t as [|d t _] using rev_ind; [exists []; by apply (trim_suffix_miss c h [])|].
  change (h :: t ++ [d]) with ((h :: t) ++ [d]).
  destruct (decide (d = c)) as [->|]; [rewrite trim_suffix_hit|rewrite trim_suffix_miss by done]; by eexists.
Qed.

(** A line whose first character is visible keeps it through all the trimming. *)
Lemma stripped_head h t : visible h → ∃ t', trim [SP; TAB] (trim_suffix [CR] (trim_suffix [LF] (h :: t))) = h :: t'.
Proof.
  intros [Hv _]. destruct (trim_suffix_head LF h t) as [t1 ->]; [intros ->; by vm_compute in Hv|].
  destruct (trim_suffix_head CR h t1) as [t2 ->]; [intros ->; by vm_compute in Hv|].
  apply trim_head. unfold mem_byte. cbn [existsb]. rewrite orb_false_r.
  apply orb_false_iff; split; apply bool_decide_eq_false_2; intros ->; by vm_compute in Hv.
Qed.

Lemma keep_lines_one l : LF ∉ l → keep_lines (l ++ [LF]) = [l ++ [LF]].
Proof.
  induction l as [|c l IH]; simpl; intros H; [done|]. apply not_elem_of_cons in H as [H1 H2].
  rewrite decide_False by done. by rewrite IH.
Qed.

(** What one key contributes: a terminated line, not a marker and not blank. *)
Definition counted (line : bytes) : bool :=
  if isMarker line BeginMarker || isMarker line EndMarker then false
  else negb (bool_decide (trim [SP; TAB] (trim_suffix [CR] (trim_suffix [LF] line)) = [])).

Record key_line (line : bytes) : Prop := {
  kl_line : keep_lines line = [line];
  kl_term : terminated line;
  kl_plain : plain line;
  kl_counted : counted line = true;
  kl_emitted : checkEmitted line = None;
}.

Lemma marked_line_key_line h t : visible h → h ≠ byte_of 35 → Forall printable (h :: t) → key_line ((h :: t) ++ [LF]).
Proof.
  intros Hv Hn Hp. destruct (stripped_head h (t ++ [LF]) Hv) as [t' Hstrip].
  change (h :: t ++ [LF]) with ((h :: t) ++ [LF]) in Hstrip.
  assert (∀ m, isMarker ((h :: t) ++ [LF]) (byte_of 35 :: m) = false) as Hmark.
  { intros m. unfold isMarker. rewrite Hstrip. apply bool_decide_eq_false_2. congruence. }
  assert (isMarker ((h :: t) ++ [LF]) BeginMarker = false) as HB by apply Hmark.
  assert (isMarker ((h :: t) ++ [LF]) EndMarker = false) as HE by apply Hmark.
  split.
  - apply keep_lines_one. intros Hin. rewrite Forall_forall in Hp. destruct (Hp _ Hin) as [H1 _]. by vm_compute in H1.
  - right. by eexists.
  - by apply plain_iff.
  - unfold counted. rewrite HB, HE, Hstrip. done.
  - unfold checkEmitted. rewrite HB, HE, length_app. simpl length.
    replace (S (length t) + 1 - 1)%nat with (length (h :: t)) by (simpl; lia). rewrite take_app_length.
    unfold has_suffix. rewrite rev_app_distr. cbn [rev app has_prefix]. rewrite bool_decide_eq_true_2 by done.
    cbn [negb andb orb]. destruct (contains_any _ _) eqn:Hc; [|done]. exfalso.
    apply existsb_exists in Hc as (c & Hin & Hc). apply list_elem_of_In in Hin. rewrite Forall_forall in Hp.
    destruct (Hp _ Hin) as [H1 _]. unfold mem_byte in Hc. cbn [existsb] in Hc.
    repeat (apply orb_true_iff in Hc as [Hc|Hc]; [apply bool_decide_eq_true in Hc; subst c; by vm_compute in H1|]).
    done.
Qed.

Lemma AuthorizedKeyLine_key_line {K} `{!Ssh K} k line : AuthorizedKeyLine (K:=K) k = Ok line → key_line line.
Proof.
  intros (pub & _ & _ & Ha & _ & Hc & ->)%AuthorizedKeyLineFrom_ok.
  pose proof (authorized_line_printable _ (Marshal pub) _ Ha (ValidateKeyComment_bytes _ Hc)) as Hp.
  destruct (Algorithm_string_head _ Ha) as (h & t & Hh & Hv & Hn).
  unfold authorized_line in *. rewrite Hh in *. by apply marked_line_key_line.
Qed.

Section RenderLemmas.
Context {K : Type} `{!Ssh K}.

(** The line a submitted key is rendered as. *)
Definition renders_as (raw line : bytes) : Prop :=
  ∃ k, Parse (K:=K) raw = Ok k ∧ AuthorizedKeyLine (K:=K) k = Ok line.

Lemma render_keys_ok i pubkeys buf out : render_keys (K:=K) i pubkeys buf = Ok out →
  ∃ lines, out = buf ++ concat lines ∧ Forall2 renders_as pubkeys lines.
Proof.
  revert i buf. induction pubkeys as [|raw pubkeys IH]; simpl; intros i buf H.
  { simplify_eq. exists []. by rewrite app_nil_r. }
  destruct (Parse raw) as [k|] eqn:Hp; [|done]. destruct (AuthorizedKeyLine k) as [line|] eqn:Hl; [|done].
  destruct (checkEmitted line); [done|]. apply IH in H as (lines & -> & HF).
  exists (line :: lines). rewrite <- app_assoc. split; [done|]. constructor; [by exists k|done].
Qed.

Lemma render_keys_total `{!SshLaws K} i pubkeys buf :
  Forall (λ raw, is_ok (Parse (K:=K) raw) = true) pubkeys → is_ok (render_keys (K:=K) i pubkeys buf) = true.
Proof.
  intros H. revert i buf. induction H as [|raw pubkeys Hr _ IH]; intros i buf; [done|]. simpl.
  destruct (Parse raw) as [k|] eqn:Hp; [|done]. destruct (Parse_prints _ _ Hp) as [line Hl]. rewrite Hl.
  by rewrite (kl_emitted _ (AuthorizedKeyLine_key_line _ _ Hl)).
Qed.
End RenderLemmas.

Lemma keep_lines_of_lines ls : Forall key_line ls → keep_lines (concat ls) = ls ∧ terminated (concat ls).
Proof.
  induction 1 as [|l ls [Hl Ht _ _ _] _ [IH IHt]]; [by split; [|left]|]. simpl.
  rewrite keep_lines_app, Hl, IH by done. split; [done|]. by apply terminated_app.
Qed.

Lemma filter_all_true {A} (P : A → bool) l : Forall (λ x, P x = true) l → List.filter P l = l.
Proof. induction 1 as [|x l Hx _ IH]; simpl; [done|]. by rewrite Hx, IH. Qed.

Lemma spans_where_count P off ls : length (spans_where P off ls) = length (List.filter P ls).
Proof. revert off. induction ls as [|l ls IH]; intros off; simpl; [done|]. destruct (P l); simpl; by rewrite IH. Qed.

(** A block written as marker, key lines, marker. *)
Lemma block_of_lines lines : Forall key_line lines →
  let block := (BeginMarker ++ [LF]) ++ concat lines ++ EndMarker ++ [LF] in
  keep_lines block = (BeginMarker ++ [LF]) :: lines ++ [EndMarker ++ [LF]] ∧
  managed block ∧ terminated block ∧ blockKeyCount block = Z.of_nat (length lines).
Proof.
  intros Hl block. destruct (keep_lines_of_lines lines Hl) as [Hk Ht].
  assert (keep_lines block = (BeginMarker ++ [LF]) :: lines ++ [EndMarker ++ [LF]]) as Hkb.
  { unfold block. rewrite keep_lines_app by (right; by eexists). rewrite (keep_lines_app (concat lines)) by exact Ht.
    rewrite Hk. reflexivity. }
  assert (managed block) as Hm.
  { exists (BeginMarker ++ [LF]), lines, (EndMarker ++ [LF]). split_and!; [done|by vm_compute|by vm_compute|].
    eapply Forall_impl; [exact Hl|]. by intros ? []. }
  assert (terminated block) as Htb.
  { right. unfold block. exists ((BeginMarker ++ [LF]) ++ concat lines ++ EndMarker). by rewrite <- !app_assoc. }
  clearbody block. split_and!; try done. unfold blockKeyCount.
  pose proof (locate_around [] block []) as Hloc. rewrite app_nil_r in Hloc. simpl in Hloc.
  rewrite Hloc by (split; [constructor|constructor|done|by left|by left]).
  assert (slice block (MkSpan 0 (length block)) = block) as ->.
  { unfold slice. cbn [start stop]. by rewrite Nat.sub_0_r, drop_0, firstn_all. }
  f_equal.
  change (length (List.filter (λ s, counted (slice block s)) (lineSpans block)) = length lines).
  rewrite filter_lineSpans, spans_where_count, Hkb. cbn [List.filter].
  assert (counted (BeginMarker ++ [LF]) = false) as -> by reflexivity.
  rewrite List.filter_app, length_app.
  assert (List.filter counted [EndMarker ++ [LF]] = []) as -> by reflexivity. simpl.
  rewrite filter_all_true, Nat.add_0_r; [done|]. eapply Forall_impl; [exact Hl|]. by intros ? [].
Qed.

Lemma Render_block {K} `{!Ssh K} pubkeys block : Render (K:=K) pubkeys = Ok block →
  managed block ∧ terminated block ∧ blockKeyCount block = Z.of_nat (length pubkeys) ∧
  ∃ lines, keep_lines block = (BeginMarker ++ [LF]) :: lines ++ [EndMarker ++ [LF]] ∧
    Forall2 (renders_as (K:=K)) pubkeys lines.
Proof.
  unfold Render. destruct (render_keys 0 _ _) as [out|] eqn:H; [|done]. simpl. intros. simplify_eq.
  apply render_keys_ok in H as (lines & -> & HF). rewrite <- app_assoc.
  assert (Forall key_line lines) as Hl.
  { eapply Forall2_Forall_r; [exact HF|]. apply Forall_true.
    intros raw line (k & _ & Hk). by eapply AuthorizedKeyLine_key_line. }
  destruct (block_of_lines lines Hl) as (Hk & Hm & Ht & Hc). rewrite (Forall2_length _ _ _ HF). eauto 6.
Qed.

(** ** What [Apply] does to the file system *)

Lemma file_insert s dir m E d n :
  file (<[dir := MkDirectory m E]> s) d n = if decide (d = dir) then E !! n else file s d n.
Proof.
  unfold file. destruct (decide (d = dir)) as [->|Hd]; [by rewrite lookup_insert_eq|].
  by rewrite lookup_insert_ne.
Qed.

(** Every file system since [p0] satisfies [P]. *)
Definition good (P : filesystem → Prop) (p0 : list filesystem) (w : world) : Prop :=
  ∃ hist, past w = hist ++ p0 ∧ Forall P (cur w :: hist).

Lemma good_start P w : P (cur w) → good P (past w) w.
Proof. intros H. exists []. by repeat constructor. Qed.

Lemma good_cur P p0 w : good P p0 w → P (cur w).
Proof. intros (hist & _ & H). by inversion H. Qed.

Lemma good_set_fs P p0 w s : good P p0 w → P s → good P p0 (MkWorld s (cur w :: past w)).
Proof.
  intros (hist & Hp & H) Hs. exists (cur w :: hist). simpl. rewrite Hp. split; [done|]. by constructor.
Qed.

(** Running [m] keeps [Q]. *)
Definition stays {A} (Q : world → Prop) (m : stM world A) : Prop := ∀ w r w', Q w → m w = (r, w') → Q w'.

Lemma stays_ret {A} Q (a : A) : stays Q (st_ret a).
Proof. intros w r w' Hq H. unfold st_ret in H. by simplify_eq. Qed.
Lemma stays_fail {A} Q e : stays Q (@st_fail world A e).
Proof. intros w r w' Hq H. unfold st_fail in H. by simplify_eq. Qed.
Lemma stays_fail_if Q f : stays Q (fail_if f).
Proof. intros w r w' Hq H. unfold fail_if in H. by destruct f; simplify_eq. Qed.
Lemma stays_get (Q : world → Prop) {B} (f : filesystem → stM world B) :
  (∀ w r w', Q w → f (cur w) w = (r, w') → Q w') → stays Q (st_bind get_fs f).
Proof. intros Hf w r w' Hq H. by eapply Hf. Qed.
Lemma stays_bind {A B} Q (m : stM world A) (f : A → stM world B) :
  stays Q m → (∀ a, stays Q (f a)) → stays Q (st_bind m f).
Proof.
  intros Hm Hf w r w' Hq H. unfold st_bind in H. destruct (m w) as [[a|e] w1] eqn:E.
  - eapply Hf, H. by eapply Hm.
  - simplify_eq. by eapply Hm.
Qed.
Lemma stays_try {A B} Q (m : stM world A) (f : result A → stM world B) :
  stays Q m → (∀ a, stays Q (f a)) → stays Q (st_try m f).
Proof.
  intros Hm Hf w r w' Hq H. unfold st_try in H. destruct (m w) as [x w1] eqn:E.
  eapply Hf, H. by eapply Hm.
Qed.
Lemma stays_wrap {A} Q msg (m : stM world A) : stays Q m → stays Q (wrap_err msg m).
Proof.
  intros Hm w r w' Hq H. unfold wrap_err in H. destruct (m w) as [[a|e] w1] eqn:E; simplify_eq; by eapply Hm.
Qed.
Lemma stays_read Q : stays Q get_fs.
Proof. intros w r w' Hq H. unfold get_fs in H. by simplify_eq. Qed.

(** Reduce a [stays] goal to the calls that write. *)
Ltac stay := repeat first
  [ apply stays_ret | apply stays_fail | apply stays_fail_if | apply stays_read | apply stays_wrap
  | apply stays_bind; [|intros ?] | apply stays_try; [|intros ?] | progress cbv beta | case_match ].

Section Atomic.
Context (dir base tmp : gostring) (s0 : filesystem) (new : node).
Hypothesis tmp_base : tmp ≠ base.

(** Everything but the target and the temporary file is as it was; the target is
    as it was or complete. *)
Definition safe (s : filesystem) : Prop :=
  (∀ d n, (d, n) ≠ (dir, base) → (d, n) ≠ (dir, tmp) → file s d n = file s0 d n) ∧
  (file s dir base = file s0 dir base ∨ file s dir base = Some new).

Lemma safe_temp s d E : safe s → s !! dir = Some d →
  (∀ n, n ≠ tmp → E !! n = entries d !! n) → safe (<[dir := MkDirectory (dir_mode d) E]> s).
Proof.
  intros [H1 H2] Hd HE. assert (∀ n, file s dir n = entries d !! n) as Hf by (intros n; unfold file; by rewrite Hd).
  split.
  - intros d' n Hb Ht. rewrite file_insert. destruct (decide (d' = dir)) as [->|]; [|by apply H1].
    rewrite HE, <- Hf by congruence. by apply H1.
  - rewrite file_insert, decide_True, HE, <- Hf by done. done.
Qed.

Lemma set_entry_temp p0 n w r w' : good safe p0 w → set_entry dir tmp n w = (r, w') →
  good safe p0 w' ∧ file (cur w') dir base = file (cur w) dir base ∧
  (r = Ok tt → file (cur w') dir tmp = n).
Proof.
  intros Hg. unfold set_entry. destruct (cur w !! dir) as [d|] eqn:Hd; intros; simplify_eq; [|done].
  assert (∀ x, file (cur w) dir x = entries d !! x) as Hf by (intros x; unfold file; by rewrite Hd).
  unfold set_fs in *. simplify_eq. split_and!.
  - apply good_set_fs; [done|]. apply safe_temp; [by eapply good_cur|done|].
    intros x Hx. by rewrite lookup_partial_alter_ne.
  - simpl. rewrite file_insert, decide_True, Hf by done. by rewrite lookup_partial_alter_ne.
  - simpl. intros _. rewrite file_insert, decide_True by done. by rewrite lookup_partial_alter_eq.
Qed.

(** What the calls on the temporary file leave of [good] and of the target. *)
Definition keeps {A} (m : stM world A) : Prop := ∀ p0 x,
  stays (λ w, good safe p0 w ∧ file (cur w) dir base = x) m.

Lemma keeps_set n p0 x : stays (λ w, good safe p0 w ∧ file (cur w) dir base = x) (set_entry dir tmp n).
Proof. intros w r w' [Hg Hx] H. destruct (set_entry_temp _ _ _ _ _ Hg H) as (? & ? & _). split; congruence. Qed.

Lemma keeps_good {A} (m : stM world A) p0 w r w' : keeps m → good safe p0 w → m w = (r, w') → good safe p0 w'.
Proof. intros Hm Hg H. by destruct (Hm p0 (file (cur w) dir base) w r w' (conj Hg eq_refl) H). Qed.

Lemma keeps_on_temp f : keeps (on_temp dir tmp f).
Proof. intros p0 x. unfold on_temp. stay. all: apply keeps_set. Qed.
Lemma keeps_create H mode : keeps (create_excl H dir tmp mode).
Proof. intros p0 x. unfold create_excl. stay. all: apply keeps_set. Qed.
Lemma keeps_chmod H mode : keeps (chmod_temp H dir tmp mode).
Proof. intros p0 x. unfold chmod_temp. stay. all: apply keeps_set. Qed.
Lemma keeps_write H c : keeps (write_temp H dir tmp c).
Proof. intros p0 x. unfold write_temp. stay. all: apply keeps_set. Qed.
Lemma keeps_remove H : keeps (remove_quietly H dir tmp).
Proof. intros p0 x. unfold remove_quietly. stay. all: apply keeps_set. Qed.

(** What the open temporary file holds after each call that succeeds. *)
Lemma temp_written H mode content p0 w w1 w2 w3 :
  create_excl H dir tmp mode w = (Ok tt, w1) → chmod_temp H dir tmp mode w1 = (Ok tt, w2) →
  write_temp H dir tmp content w2 = (Ok tt, w3) → good safe p0 w →
  file (cur w3) dir tmp = Some (RegularFile mode content).
Proof.
  unfold create_excl, chmod_temp, write_temp, on_temp, st_bind, fail_if, get_fs, st_fail. intros Hc Hm Hw Hg.
  destruct (h_create H); [done|]. destruct (file (cur w) dir tmp); [done|].
  destruct (set_entry_temp _ _ _ _ _ Hg Hc) as (Hg1 & _ & Ht1). destruct (h_chmodFile H); [done|].
  rewrite Ht1 in Hm by done.
  destruct (set_entry_temp _ _ _ _ _ Hg1 Hm) as (Hg2 & _ & Ht2).
  destruct (h_write H) as [[n e]|]; cbn in Hw; rewrite Ht2 in Hw by done.
  - destruct (set_entry dir tmp _ w2) as [[|] ?] in Hw; done.
  - destruct (set_entry_temp _ _ _ _ _ Hg2 Hw) as (_ & _ & Ht3). by rewrite Ht3.
Qed.

Lemma rename_safe H p0 w r w' : good safe p0 w → file (cur w) dir tmp = Some new →
  rename H dir tmp base w = (r, w') →
  good safe p0 w' ∧ (is_ok r = true → file (cur w') dir base = Some new ∧ file (cur w') dir tmp = None) ∧
  (is_ok r = false → w' = w).
Proof.
  intros Hg Ht. unfold rename, st_bind, fail_if. destruct (h_rename H); [intros; by simplify_eq|].
  unfold file in Ht. destruct (cur w !! dir) as [d|] eqn:Hd; [|done]. rewrite Ht. unfold set_fs. intros. simplify_eq.
  assert (∀ x, file (cur w) dir x = entries d !! x) as Hf by (intros x; unfold file; by rewrite Hd).
  split_and!; [|intros _; simpl|done].
  - apply good_set_fs; [done|]. destruct (good_cur _ _ _ Hg) as [H1 H2]. split.
    + intros d' n Hb Hn. rewrite file_insert. destruct (decide (d' = dir)) as [->|]; [|by apply H1].
      rewrite lookup_insert_ne, lookup_delete_ne, <- Hf by congruence. by apply H1.
    + right. by rewrite file_insert, decide_True, lookup_insert_eq.
  - rewrite !file_insert, !decide_True, lookup_insert_eq, lookup_insert_ne, lookup_delete_eq by done. done.
Qed.

(** [m] keeps the file system good and never succeeds. *)
Lemma abandon_fails {A} H cause p0 w r w' : good safe p0 w →
  st_bind (remove_quietly H dir tmp) (λ _, @st_fail world A cause) w = (r, w') →
  good safe p0 w' ∧ is_ok r = false.
Proof.
  intros Hg E. unfold st_bind, st_fail in E.
  destruct (remove_quietly H dir tmp w) as [[|] w1] eqn:E1;
    pose proof (keeps_good _ _ _ _ _ (keeps_remove H) Hg E1); by simplify_eq.
Qed.

Lemma writeAtomic_safe H p0 content mode w r w' :
  new = RegularFile mode content → tempName H base = Ok tmp → good safe p0 w →
  writeAtomic H base content mode dir w = (r, w') →
  good safe p0 w' ∧ (is_ok r = true → file (cur w') dir base = Some new).
Proof.
  intros Hnew Htmp Hg. unfold writeAtomic. rewrite Htmp. unfold st_try, wrap_err. unfold st_bind at 1.
  destruct (create_excl H dir tmp mode w) as [[[]|e] w1] eqn:E1;
    pose proof (keeps_good _ _ _ _ _ (keeps_create H mode) Hg E1) as Hg1; [|intros; by simplify_eq].
  destruct (chmod_temp H dir tmp mode w1) as [[[]|e] w2] eqn:E2;
    pose proof (keeps_good _ _ _ _ _ (keeps_chmod H mode) Hg1 E2) as Hg2;
    [|intros E; by destruct (abandon_fails _ _ _ _ _ _ Hg2 E) as [? ->]].
  destruct (write_temp H dir tmp content w2) as [[[]|e] w3] eqn:E3;
    pose proof (keeps_good _ _ _ _ _ (keeps_write H content) Hg2 E3) as Hg3;
    [|intros E; by destruct (abandon_fails _ _ _ _ _ _ Hg3 E) as [? ->]].
  pose proof (temp_written _ _ _ _ _ _ _ _ E1 E2 E3 Hg) as Ht. rewrite <- Hnew in Ht.
  unfold fail_if at 1. destruct (h_sync H);
    [intros E; by destruct (abandon_fails _ _ _ _ _ _ Hg3 E) as [? ->]|].
  unfold fail_if at 1. destruct (h_close H);
    [intros E; by destruct (abandon_fails _ _ _ _ _ _ Hg3 E) as [? ->]|].
  destruct (rename H dir tmp base w3) as [[[]|e] w4] eqn:E4;
    destruct (rename_safe _ _ _ _ _ Hg3 Ht E4) as (Hg4 & Hok & _);
    [|intros E; by destruct (abandon_fails _ _ _ _ _ _ Hg4 E) as [? ->]].
  destruct (Hok eq_refl) as [Hb _]. unfold fail_if. destruct (h_syncDir H); intros; by simplify_eq.
Qed.
End Atomic.

(** Preparing the directory changes no file. *)
Definition same_files (s0 s : filesystem) : Prop := ∀ d n, file s d n = file s0 d n.

Lemma same_files_safe dir base tmp s0 new s : same_files s0 s → safe dir base tmp s0 new s.
Proof. intros H. split; [intros; apply H|left; apply H]. Qed.

Lemma good_mono (P Q : filesystem → Prop) p0 w : (∀ s, P s → Q s) → good P p0 w → good Q p0 w.
Proof. intros HPQ (hist & Hp & H). exists hist. split; [done|]. by eapply Forall_impl. Qed.

Lemma ensureDir_same H dir w r w' : ensureDir H dir w = (r, w') → good (same_files (cur w)) (past w) w'.
Proof.
  intros E. set (Q := good (same_files (cur w)) (past w)).
  assert (stays Q (ensureDir H dir)) as Hs; [|by eapply Hs, E; apply good_start].
  assert (∀ w1 s, Q w1 → same_files (cur w1) s → Q (MkWorld s (cur w1 :: past w1))) as Hset.
  { intros w1 s Hq Hsame. apply good_set_fs; [done|]. pose proof (good_cur _ _ _ Hq) as Hc. intros d n.
    by rewrite (Hsame d n), (Hc d n). }
  unfold ensureDir, os_Stat, os_MkdirAll, os_Chmod.
  apply stays_try; [stay|]. intros [|e]; [stay|]. case_match; [stay|].
  apply stays_bind; [apply stays_wrap|intros _; apply stays_wrap]; (apply stays_bind; [stay|intros _]);
    apply stays_get; intros w1 r1 w1' Hq; destruct (cur w1 !! dir) as [d|] eqn:Hd; unfold set_fs, st_ret, st_fail;
    intros; simplify_eq; try done; apply Hset; try done; intros d' n; rewrite file_insert;
    (destruct (decide (d' = dir)) as [->|]; [|done]); unfold file; rewrite Hd; [|done].
  by rewrite lookup_empty.
Qed.

Definition content_of (n : option node) : bytes :=
  match n with Some (RegularFile _ c) => c | _ => [] end.

(** Not finding a file is never reported for one that is there. *)
Definition honest_lstat (H : hooks) : Prop := ∀ e, h_lstat H = Some e → errors_is e ErrNotExist = false.

Lemma readExisting_inv H dir base w r w' : honest_lstat H → readExisting H dir base w = (r, w') →
  w' = w ∧ ∀ ex mode existed, r = Ok (ex, mode, existed) →
    ex = content_of (file (cur w) dir base) ∧
    if existed then file (cur w) dir base = Some (RegularFile mode ex) else file (cur w) dir base = None.
Proof.
  intros Hh. unfold readExisting, st_bind, get_fs, wrap_err, fail_if, st_ret, st_fail. simpl.
  destruct (h_lstat H) as [e|] eqn:Hl.
  { specialize (Hh e Hl). rewrite Hh. intros. by simplify_eq. }
  destruct (file (cur w) dir base) as [[mode stored|]|]; simpl;
    [|intros; simplify_eq; split; [done|]; intros; by simplify_eq..].
  destruct (h_open H); [intros; by simplify_eq|]. destruct (h_readAll H); [intros; by simplify_eq|].
  destruct (MaxFileBytes <? len _) eqn:Hlt; intros; simplify_eq; (split; [done|]); intros; simplify_eq.
  reflect_bools. unfold len in Hlt. rewrite length_take in Hlt.
  rewrite take_ge by lia. done.
Qed.

Lemma ldiff_land a b : Z.ldiff (Z.land a b) b = 0.
Proof. apply Z.bits_inj'. intros n Hn. rewrite Z.ldiff_spec, Z.land_spec, Z.bits_0. by destruct (Z.testbit a n), (Z.testbit b n). Qed.

Lemma finalMode_narrow mode existed :
  Z.ldiff (finalMode mode existed) fileMode = 0 ∧ (existed = true → Z.ldiff (finalMode mode existed) mode = 0).
Proof.
  unfold finalMode. destruct existed; simpl; [|by split]. split; [apply ldiff_land|].
  intros _. rewrite Z.land_comm. apply ldiff_land.
Qed.

(** The emptying test did not fire. *)
Definition not_emptied (opts : Options) (old block : bytes) : Prop :=
  Opt_AllowEmpty opts = false → 0 < blockKeyCount old → blockKeyCount block ≠ 0.

Lemma apply_in_inv H opts block dir base rep w rep' err w' : honest_lstat H →
  apply_in H opts block dir base rep w = ((rep', err), w') →
  let old := file (cur w) dir base in
  (w' = w ∧ (err = None → ∃ merged, Merge (content_of old) block = Ok merged ∧ Rep_Size rep' = len merged ∧
     not_emptied opts (content_of old) block ∧ (Opt_DryRun opts = true ∨ ∃ m, old = Some (RegularFile m merged)))) ∨
  (Opt_DryRun opts = false ∧ ∃ merged r, Merge (content_of old) block = Ok merged ∧ Rep_Size rep' = len merged ∧
     not_emptied opts (content_of old) block ∧ writeAtomic H base merged (Rep_Mode rep') dir w = (r, w') ∧
     (err = None → is_ok r = true) ∧ Z.ldiff (Rep_Mode rep') fileMode = 0 ∧
     ∀ m c, old = Some (RegularFile m c) → Z.ldiff (Rep_Mode rep') m = 0).
Proof.
  intros Hh. unfold apply_in, os_OpenRoot, st_bind, fail_if, get_fs, st_ret, st_fail. cbv zeta.
  destruct (h_openRoot H); [intros; simplify_eq; by left|].
  destruct (cur w !! dir); [|intros; simplify_eq; by left].
  destruct (readExisting H dir base w) as [r1 w1] eqn:E1. destruct (readExisting_inv _ _ _ _ _ _ Hh E1) as [-> Hr].
  destruct r1 as [[[ex mode] existed]|]; [|intros; simplify_eq; by left].
  destruct (Hr _ _ _ eq_refl) as [-> Hfile]. clear Hr E1.
  destruct (Merge _ block) as [merged|] eqn:Hm; [|intros; simplify_eq; by left]. simpl.
  destruct (_ && _ && _) eqn:Hempty; [intros; simplify_eq; by left|].
  assert (not_emptied opts (content_of (file (cur w) dir base)) block) as Hne.
  { intros Ha Hk. rewrite Ha in Hempty. intros Hz. rewrite Hz in Hempty.
    rewrite (proj2 (Z.ltb_lt _ _) Hk) in Hempty. done. }
  destruct (Opt_DryRun opts) eqn:Hdry; simpl.
  { intros. simplify_eq. left. split; [done|]. intros _. exists merged. simpl. by auto. }
  destruct (negb existed || _) eqn:Hch; simpl.
  - destruct (writeAtomic _ _ _ _ _ _) as [r2 w2] eqn:Hw. right. split; [done|]. exists merged, r2.
    destruct (finalMode_narrow mode existed) as [Hn1 Hn2].
    destruct r2; simplify_eq/=; split_and!; try done; intros m c Hold; destruct existed; simplify_eq; auto; congruence.
  - intros. simplify_eq. left. split; [done|]. intros _. exists merged. split_and!; try done. right.
    destruct existed; [|done]. simpl in Hch. case_bool_decide as Heq; [|done]. rewrite Heq in Hfile. eauto.
Qed.

Lemma tempName_base H base tmp : tempName H base = Ok tmp → tmp ≠ base.
Proof.
  unfold tempName. destruct (h_rand H) as [b|]; [|done]. intros E ->.
  assert (go "." ++ base ++ go "." ++ hex_encode b ++ go ".tmp" = base) as E' by congruence.
  apply (f_equal length) in E'. rewrite !length_app in E'. simpl in E'. lia.
Qed.

Lemma writeAtomic_no_name H base content mode dir e w :
  tempName H base = Err e → writeAtomic H base content mode dir w = (Err e, w).
Proof. unfold writeAtomic. by intros ->. Qed.

(** A merged file holds the new block, and counting its keys counts the block's. *)
Lemma Merge_located existing block out : managed block → terminated block → Merge existing block = Ok out →
  ∃ pre post, around pre block post ∧ out = pre ++ block ++ post.
Proof.
  intros Hm Ht Hout. destruct (Merge_cases existing block Hm Ht) as [H|[H|[_ H]]]; [..|congruence].
  - destruct H as (pre & old & post & -> & _ & Har & E). rewrite E in Hout. simplify_eq. eauto.
  - destruct H as (_ & Har & E). rewrite E in Hout. simplify_eq.
    eexists _, []. split; [done|]. by rewrite app_nil_r, app_assoc.
Qed.

Lemma blockKeyCount_around pre block post : around pre block post → terminated block →
  blockKeyCount (pre ++ block ++ post) = blockKeyCount block.
Proof.
  intros Har Ht. unfold blockKeyCount. rewrite (locate_around _ _ _ Har).
  pose proof (locate_around [] block []) as Hl. rewrite app_nil_r in Hl. simpl in Hl.
  rewrite Hl by (destruct Har; split; [constructor|constructor|done|by left|by left]).
  assert (slice block (MkSpan 0 (length block)) = block) as ->.
  { unfold slice. cbn [start stop]. by rewrite Nat.sub_0_r, drop_0, firstn_all. }
  assert (slice (pre ++ block ++ post) (MkSpan (length pre) (length pre + length block)) = block) as ->; [|done].
  unfold slice. cbn [start stop]. rewrite drop_app_length.
  replace (length pre + length block - length pre)%nat with (length block) by lia. by rewrite take_app_length.
Qed.


Section ApplyLemmas.
Context {K : Type} `{!Ssh K}.

Lemma os_Stat_same H dir w r w' : os_Stat H dir w = (r, w') → w' = w.
Proof.
  unfold os_Stat, st_bind, fail_if, get_fs, st_ret, st_fail.
  destruct (h_stat H); [intros; by simplify_eq|]. case_bool_decide; intros; by simplify_eq.
Qed.

Lemma same_files_file s0 s dir base : same_files s0 s → file s dir base = file s0 dir base.
Proof. intros H. apply H. Qed.

(** [Apply] either touches no file, or writes the merge. *)
Lemma Apply_inv H pubkeys opts w rep err w' dir base : honest_lstat H → target opts = (dir, base) →
  Apply (K:=K) H pubkeys opts w = ((rep, err), w') →
  good (same_files (cur w)) (past w) w' ∨
  ∃ block merged w1 r, Render (K:=K) pubkeys = Ok block ∧
    Merge (content_of (file (cur w) dir base)) block = Ok merged ∧
    good (same_files (cur w)) (past w) w1 ∧ writeAtomic H base merged (Rep_Mode rep) dir w1 = (r, w') ∧
    Z.ldiff (Rep_Mode rep) fileMode = 0 ∧
    ∀ m c, file (cur w) dir base = Some (RegularFile m c) → Z.ldiff (Rep_Mode rep) m = 0.
Proof.
  intros Hh Ht. unfold Apply. pose proof (good_start (same_files (cur w)) w (λ _ _, eq_refl)) as Hg0.
  destruct (Render pubkeys) as [block|]; [|intros; simplify_eq; by left]. rewrite Ht.
  destruct (_ || _ || _); [intros; simplify_eq; by left|].
  assert (∀ rep0 w1, good (same_files (cur w)) (past w) w1 →
    apply_in H opts block dir base rep0 w1 = ((rep, err), w') →
    good (same_files (cur w)) (past w) w' ∨
    ∃ block' merged w1 r, Ok block = Ok block' ∧
      Merge (content_of (file (cur w) dir base)) block' = Ok merged ∧
      good (same_files (cur w)) (past w) w1 ∧ writeAtomic H base merged (Rep_Mode rep) dir w1 = (r, w') ∧
      Z.ldiff (Rep_Mode rep) fileMode = 0 ∧
      ∀ m c, file (cur w) dir base = Some (RegularFile m c) → Z.ldiff (Rep_Mode rep) m = 0) as Hin.
  { intros rep0 w1 Hg E. pose proof (good_cur _ _ _ Hg dir base) as Hf.
    destruct (apply_in_inv _ _ _ _ _ _ _ _ _ _ Hh E) as [[-> _]|(_ & merged & r & HM & _ & _ & HW & _ & Hm1 & Hm2)];
      [by left|right]. rewrite Hf in HM, Hm2. exists block, merged, w1, r. by split_and!. }
  destruct (Opt_DryRun opts).
  - destruct (os_Stat H dir w) as [[]  w1] eqn:E; apply os_Stat_same in E as ->; [by apply Hin|].
    destruct (errors_is _ _); [intros; simplify_eq; by left|by apply Hin].
  - destruct (ensureDir H dir w) as [[] w1] eqn:E; apply ensureDir_same in E; [by apply Hin|].
    intros; simplify_eq. by left.
Qed.

Lemma Apply_ok_inv H pubkeys opts w rep w' dir base : honest_lstat H → target opts = (dir, base) →
  Apply (K:=K) H pubkeys opts w = ((rep, None), w') →
  (Opt_DryRun opts = true ∧ w' = w) ∨
  ∃ block m merged, Render (K:=K) pubkeys = Ok block ∧ file (cur w') dir base = Some (RegularFile m merged) ∧
    Merge (content_of (file (cur w) dir base)) block = Ok merged ∧ Rep_Size rep = len merged ∧
    not_emptied opts (content_of (file (cur w) dir base)) block ∧ Opt_DryRun opts = false.
Proof.
  intros Hh Ht. unfold Apply. destruct (Render pubkeys) as [block|]; [|done]. rewrite Ht.
  destruct (_ || _ || _); [done|]. destruct (Opt_DryRun opts) eqn:Hdry.
  - destruct (os_Stat H dir w) as [[]  w1] eqn:E; apply os_Stat_same in E as ->.
    + intros E. destruct (apply_in_inv _ _ _ _ _ _ _ _ _ _ Hh E) as [[-> _]|[? _]]; [by left|congruence].
    + destruct (errors_is _ _); [intros; simplify_eq; by left|].
      intros E. destruct (apply_in_inv _ _ _ _ _ _ _ _ _ _ Hh E) as [[-> _]|[? _]]; [by left|congruence].
  - destruct (ensureDir H dir w) as [[] w1] eqn:E; [|done]. apply ensureDir_same in E. intros E'. right.
    pose proof (good_cur _ _ _ E dir base) as Hf.
    destruct (apply_in_inv _ _ _ _ _ _ _ _ _ _ Hh E') as [[-> Hok]|(_ & merged & r & HM & Hsz & Hne & HW & Hok & _)].
    + destruct (Hok eq_refl) as (merged & HM & Hsz & Hne & [?|[m Hold]]); [congruence|].
      rewrite Hf in HM, Hne. exists block, m, merged. by split_and!.
    + rewrite Hf in HM, Hne. exists block, (Rep_Mode rep), merged. split_and!; try done.
      destruct (tempName H base) as [tmp|e] eqn:Htmp.
      * apply (good_mono _ (safe dir base tmp (cur w) (RegularFile (Rep_Mode rep) merged))) in E;
          [|intros; by apply same_files_safe].
        destruct (writeAtomic_safe _ _ _ _ _ (tempName_base _ _ _ Htmp) H _ merged _ _ _ _ eq_refl Htmp E HW) as [_ Hd].
        by apply Hd, Hok.
      * rewrite (writeAtomic_no_name _ _ _ _ _ _ _ Htmp) in HW. simplify_eq. by specialize (Hok eq_refl).
Qed.
End ApplyLemmas.

(** A line feed is missing after a text that does not end with one. *)
Lemma newline_if_last existing : newline_if existing = if decide (existing = [] ∨ last existing = Some LF) then [] else [LF].
Proof.
  unfold newline_if. destruct existing as [|c l _] using rev_ind; [done|]. rewrite rev_app_distr, last_snoc. cbn [rev app].
  case_bool_decide as Hc; case_decide as Hd; try done.
  - destruct Hd as [Hd|Hd]; [destruct l; discriminate Hd|]. congruence.
  - destruct Hd. right. f_equal. destruct (decide (c = LF)); [done|]. by destruct Hc.
Qed.

(** ** Claims *)

(** C26. [Merge] touches the managed block and nothing else.  Given a well-formed
    new block, a merge that succeeds either replaced the text from the one BEGIN line
    to the one END line after it -- the file is [pre ++ old ++ post], the result
    [pre ++ block ++ post], byte for byte -- or, when the file has no marker line at
    all, appended the block to the untouched file, after one line feed exactly if its
    last line was unterminated.  It succeeds on exactly these two kinds of file; any other
    arrangement of markers is refused. *)
Theorem Merge_preserves_outside existing block :
  managed block → terminated block →
  (∀ out, Merge existing block = Ok out →
    (∃ pre old post, existing = pre ++ old ++ post ∧ out = pre ++ block ++ post ∧ managed old ∧
       Forall plain (keep_lines pre) ∧ Forall plain (keep_lines post)) ∨
    (out = existing ++ (if decide (existing = [] ∨ last existing = Some LF) then [] else [LF]) ++ block ∧
       Forall plain (keep_lines existing))) ∧
  (is_ok (Merge existing block) = true ↔
    Forall plain (keep_lines existing) ∨ ∃ P bl M el Q, block_lines (keep_lines existing) P bl M el Q).
Proof.
  intros Hm Ht. split; [intros out Hout|].
  - destruct (Merge_cases existing block Hm Ht) as [H|[H|[_ H]]].
    + destruct H as (pre & old & post & -> & [] & _ & E). left. exists pre, old, post.
      rewrite E in Hout. by simplify_eq.
    + destruct H as (Hp & _ & E). right. rewrite E in Hout. simplify_eq. split; [|done]. by rewrite newline_if_last.
    + congruence.
  - unfold Merge. destruct (locate existing) as [[[lo hi]|]|e] eqn:Hl.
    + split; [intros _|done]. right. apply locate_found in Hl as (P & bl & M & el & Q & ? & _). eauto 8.
    + split; [intros _|done]. left. by apply locate_none.
    + split; [done|].
      intros [H|(P & bl & M & el & Q & H)]; [apply locate_none in H|apply locate_some in H]; congruence.
Qed.

(** Applying is idempotent and the last writer wins.  After a merge the block
    is found again exactly where it was put; merging the same block once more
    changes nothing; and merging any other well-formed block gives what merging it
    into the original file would have given, so no sequence of merges leaves a
    second block or residue of an earlier one. *)
Theorem Merge_last_writer existing block block' out :
  managed block → terminated block → managed block' → terminated block' →
  Merge existing block = Ok out →
  (∃ lo, locate out = Ok (Some (lo, (lo + length block)%nat)) ∧ take (length block) (drop lo out) = block) ∧
  Merge out block = Ok out ∧ Merge out block' = Merge existing block'.
Proof.
  intros Hm Ht Hm' Ht' Hout.
  assert (∃ pre post, around pre block post ∧ around pre block' post ∧ out = pre ++ block ++ post ∧
    Merge existing block' = Ok (pre ++ block' ++ post)) as (pre & post & Har & Har' & -> & E).
  { destruct (Merge_cases existing block Hm Ht) as [H|[H|[_ H]]].
    - destruct H as (pre & old & post & -> & Ho & Har & E). exists pre, post. rewrite E in Hout. simplify_eq.
      split_and!; try done; [destruct Har; split; auto|]. by apply Merge_around.
    - destruct H as (Hp & Har & E). exists (existing ++ newline_if existing), []. rewrite E in Hout. simplify_eq.
      split_and!; try done; [destruct Har; split; auto|by rewrite app_nil_r, app_assoc|].
      unfold Merge. rewrite (proj2 (locate_none _) Hp), app_nil_r. by rewrite <- app_assoc.
    - congruence. }
  rewrite E. split_and!; [|by apply Merge_around..]. exists (length pre). split; [by apply locate_around|].
  by rewrite drop_app_length, take_app_length.
Qed.

(** What is rendered.  [Render] succeeds exactly when every submitted key
    parses, and then gives a well-formed block: the BEGIN line, for each key in
    order the one line it prints as, the END line -- no key can smuggle in a second
    line or a marker, and counting the block's keys gives their number. *)
Theorem Render_well_formed {K} `{!Ssh K, !SshLaws K} pubkeys :
  (is_ok (Render (K:=K) pubkeys) = true ↔ Forall (λ raw, is_ok (Parse (K:=K) raw) = true) pubkeys) ∧
  ∀ block, Render (K:=K) pubkeys = Ok block →
    managed block ∧ terminated block ∧ blockKeyCount block = Z.of_nat (length pubkeys) ∧
    ∃ lines, keep_lines block = (BeginMarker ++ [LF]) :: lines ++ [EndMarker ++ [LF]] ∧
      Forall2 (renders_as (K:=K)) pubkeys lines.
Proof.
  split.
  - unfold Render. split.
    + destruct (render_keys 0 _ _) as [out|] eqn:H; [|done]. intros _.
      apply render_keys_ok in H as (lines & _ & HF). eapply Forall2_Forall_l; [exact HF|].
      apply Forall_true. by intros line raw (k & -> & _).
    + intros H. pose proof (render_keys_total (K:=K) 0 pubkeys (BeginMarker ++ [LF]) H).
      by destruct (render_keys 0 _ _).
  - intros block H. destruct (Render_block _ _ H) as (? & ? & ? & ?). eauto 6.
Qed.

(** C25. Replacing the file is atomic, whatever fails and wherever it is cut short.
    Every file system that exists at any moment of an [Apply] -- each call may fail,
    a write may be partial, and the run may be cut off after any call -- has all
    other files as they were, up to the one temporary name, and the target either as
    it was or complete: the merge of the user's file and the new block, with
    permissions that are within 0600 and, if the file existed, within its own. *)
Theorem Apply_atomic {K} `{!Ssh K} H pubkeys opts w rep err w' dir base :
  honest_lstat H → target opts = (dir, base) → Apply (K:=K) H pubkeys opts w = ((rep, err), w') →
  ∃ hist, past w' = hist ++ past w ∧ ∀ s, s ∈ cur w' :: hist →
    (∀ d n, (d, n) ≠ (dir, base) → ¬ (d = dir ∧ tempName H base = Ok n) → file s d n = file (cur w) d n) ∧
    (file s dir base = file (cur w) dir base ∨
     ∃ block merged, Render (K:=K) pubkeys = Ok block ∧
       Merge (content_of (file (cur w) dir base)) block = Ok merged ∧
       file s dir base = Some (RegularFile (Rep_Mode rep) merged) ∧ Z.ldiff (Rep_Mode rep) fileMode = 0 ∧
       ∀ m c, file (cur w) dir base = Some (RegularFile m c) → Z.ldiff (Rep_Mode rep) m = 0).
Proof.
  intros Hh Htgt HA. destruct (Apply_inv _ _ _ _ _ _ _ _ _ Hh Htgt HA) as [Hsame|Hwrite].
  - destruct Hsame as (hist & Hp & Hall). exists hist. split; [done|]. intros s Hs.
    rewrite Forall_forall in Hall. specialize (Hall s Hs). split; [intros; apply Hall|left; apply Hall].
  - destruct Hwrite as (block & merged & w1 & r & HR & HM & Hg1 & HW & Hm1 & Hm2).
    destruct (tempName H base) as [tmp|e] eqn:Htmp.
    + apply (good_mono _ (safe dir base tmp (cur w) (RegularFile (Rep_Mode rep) merged))) in Hg1;
        [|intros; by apply same_files_safe].
      destruct (writeAtomic_safe _ _ _ _ _ (tempName_base _ _ _ Htmp) H _ merged (Rep_Mode rep) _ _ _ eq_refl Htmp Hg1 HW)
        as [(hist & Hp & Hall) _].
      exists hist. split; [done|]. intros s Hs. rewrite Forall_forall in Hall. destruct (Hall s Hs) as [H1 H2].
      split; [intros d n Hb Hn; apply H1; [done|]; intros [= -> ->]; by apply Hn|]. destruct H2; [by left|right]. eauto 10.
    + rewrite (writeAtomic_no_name _ _ _ _ _ _ _ Htmp) in HW. simplify_eq.
      destruct Hg1 as (hist & Hp & Hall). exists hist. split; [done|]. intros s Hs.
      rewrite Forall_forall in Hall. specialize (Hall s Hs). split; [intros; apply Hall|left; apply Hall].
Qed.

(** What success means.  A dry run changes nothing at all.  Otherwise the
    target holds the merge of its old content and the rendered block, of the
    reported size; counting its managed keys gives the number of keys passed in; and
    unless emptying was asked for, a file that had managed keys was never emptied of
    them. *)
Theorem Apply_success {K} `{!Ssh K, !SshLaws K} H pubkeys opts w rep w' dir base :
  honest_lstat H → target opts = (dir, base) → Apply (K:=K) H pubkeys opts w = ((rep, None), w') →
  if Opt_DryRun opts then w' = w else
  ∃ block m merged, Render (K:=K) pubkeys = Ok block ∧
    file (cur w') dir base = Some (RegularFile m merged) ∧
    Merge (content_of (file (cur w) dir base)) block = Ok merged ∧ Rep_Size rep = len merged ∧
    blockKeyCount merged = Z.of_nat (length pubkeys) ∧
    (Opt_AllowEmpty opts = false → 0 < blockKeyCount (content_of (file (cur w) dir base)) → pubkeys ≠ []).
Proof.
  intros Hh Htgt HA.
  destruct (Apply_ok_inv _ _ _ _ _ _ _ _ Hh Htgt HA) as [[Hd ->]|(block & m & merged & HR & Hf & HM & Hsz & Hne & Hdry)].
  { by rewrite Hd. }
  rewrite Hdry. exists block, m, merged.
  destruct (Render_block _ _ HR) as (Hm & Ht & Hc & _).
  destruct (Merge_located _ _ _ Hm Ht HM) as (pre & post & Har & ->).
  split_and!; try done.
  - by rewrite (blockKeyCount_around _ _ _ Har Ht).
  - intros Ha Hk ->. apply (Hne Ha Hk). by rewrite Hc.
Qed.

(** ** Witnesses *)

#[local] Existing Instance OneKey.
#[local] Existing Instance OneKey_laws.

Definition hand_written : bytes :=
  go "ssh-rsa AAAA mine" ++ [LF] ++ BeginMarker ++ [LF] ++ go "ssh-ed25519 old" ++ [LF] ++ EndMarker ++ [LF] ++ go "# tail".
Definition one_key_block : bytes :=
  BeginMarker ++ [LF] ++ go "ssh-ed25519 YmxvYg==" ++ [LF] ++ EndMarker ++ [LF].
Definition empty_block : bytes := BeginMarker ++ [LF] ++ EndMarker ++ [LF].

Lemma one_key_block_managed : managed one_key_block ∧ terminated one_key_block.
Proof.
  destruct (Render_block (K:=unit) [go "ssh-ed25519 YmxvYg=="] one_key_block) as (? & ? & _); [|done].
  vm_compute. reflexivity.
Qed.
Lemma empty_block_managed : managed empty_block ∧ terminated empty_block.
Proof.
  destruct (Render_block (K:=unit) [] empty_block) as (? & ? & _); [|done]. vm_compute. reflexivity.
Qed.

Lemma Merge_preserves_outside_witness :
  (∃ pre old post, hand_written = pre ++ old ++ post ∧
     go "ssh-rsa AAAA mine" ++ [LF] ++ empty_block ++ go "# tail" = pre ++ empty_block ++ post ∧ managed old ∧
     Forall plain (keep_lines pre) ∧ Forall plain (keep_lines post)) ∨
  (go "ssh-rsa AAAA mine" ++ [LF] ++ empty_block ++ go "# tail" =
     hand_written ++ (if decide (hand_written = [] ∨ last hand_written = Some LF) then [] else [LF]) ++ empty_block ∧
     Forall plain (keep_lines hand_written)).
Proof.
  assert (Merge hand_written empty_block = Ok (go "ssh-rsa AAAA mine" ++ [LF] ++ empty_block ++ go "# tail")) as E
    by (vm_compute; reflexivity).
  exact (proj1 (Merge_preserves_outside _ _ (proj1 empty_block_managed) (proj2 empty_block_managed)) _ E).
Defined.

Lemma Merge_last_writer_witness :
  let out := go "ssh-rsa AAAA mine" ++ [LF] ++ one_key_block ++ go "# tail" in
  Merge out one_key_block = Ok out ∧ Merge out empty_block = Merge hand_written empty_block.
Proof.
  intros out. assert (Merge hand_written one_key_block = Ok out) as E by (vm_compute; reflexivity).
  exact (proj2 (Merge_last_writer _ _ empty_block _ (proj1 one_key_block_managed) (proj2 one_key_block_managed)
    (proj1 empty_block_managed) (proj2 empty_block_managed) E)).
Defined.

Lemma Render_well_formed_witness :
  is_ok (Render (K:=unit) [go "ssh-ed25519 YmxvYg=="; go "rsa"]) = false ∧
  blockKeyCount one_key_block = 1.
Proof.
  destruct (Render_well_formed (K:=unit) [go "ssh-ed25519 YmxvYg=="]) as [_ H]. split; [vm_compute; reflexivity|].
  assert (Render (K:=unit) [go "ssh-ed25519 YmxvYg=="] = Ok one_key_block) as E by (vm_compute; reflexivity).
  destruct (H _ E) as (_ & _ & Hc & _). exact Hc.
Defined.

(** The write fails after three bytes and so does the clean-up. *)
Definition disk_full : hooks :=
  MkHooks None None None None None None None (Ok (go "01234567")) 18 None None
    (Some (3%nat, errors_new "no space left on device")) None None None (Some (errors_new "i/o error")) None.
Definition all_well : hooks :=
  MkHooks None None None None None None None (Ok (go "01234567")) 18 None None None None None None None None.
Definition ssh_dir : world :=
  MkWorld {[ go "/u/" := MkDirectory dirMode {[ go "k" := RegularFile 420 hand_written ]} ]} [].
Definition to_k : Options := MkOptions (go "/u/k") false false.

Lemma Apply_atomic_witness :
  let w' := snd (Apply (K:=unit) disk_full [go "ssh-ed25519 YmxvYg=="] to_k ssh_dir) in
  (∃ hist, past w' = hist ++ [] ∧ ∀ s, s ∈ cur w' :: hist →
    file s (go "/u/") (go "k") = Some (RegularFile 420 hand_written) ∨
    ∃ merged, file s (go "/u/") (go "k") = Some (RegularFile fileMode merged)) ∧ length (past w') = 3%nat.
Proof.
  intros w'. split; [|vm_compute; reflexivity].
  assert (honest_lstat disk_full) as Hh by (intros e; discriminate).
  assert (target to_k = (go "/u/", go "k")) as Ht by (vm_compute; reflexivity).
  destruct (Apply (K:=unit) disk_full [go "ssh-ed25519 YmxvYg=="] to_k ssh_dir) as [[rep err] w1] eqn:E.
  destruct (Apply_atomic _ _ _ _ _ _ _ _ _ Hh Ht E) as (hist & Hp & Hall). subst w'. simpl.
  exists hist. split; [exact Hp|]. intros s Hs. destruct (Hall s Hs) as [_ [H|(b & m & _ & _ & H & _)]].
  - left. rewrite H. reflexivity.
  - right. exists m. rewrite H. vm_compute in E. injection E as <- _ _. reflexivity.
Defined.

Lemma Apply_success_witness :
  let w' := snd (Apply (K:=unit) all_well [go "ssh-ed25519 YmxvYg=="] to_k ssh_dir) in
  ∃ m merged, file (cur w') (go "/u/") (go "k") = Some (RegularFile m merged) ∧ blockKeyCount merged = 1.
Proof.
  intros w'. assert (honest_lstat all_well) as Hh by (intros e; discriminate).
  assert (target to_k = (go "/u/", go "k")) as Ht by (vm_compute; reflexivity).
  assert (snd (fst (Apply (K:=unit) all_well [go "ssh-ed25519 YmxvYg=="] to_k ssh_dir)) = None) as Herr
    by (vm_compute; reflexivity).
  destruct (Apply (K:=unit) all_well [go "ssh-ed25519 YmxvYg=="] to_k ssh_dir) as [[rep err] w1] eqn:E.
  simpl in Herr. subst err. destruct (Apply_success _ _ _ _ _ _ _ _ Hh Ht E) as (b & m & merged & _ & Hf & _ & _ & Hc & _).
  exists m, merged. split; [exact Hf|exact Hc].
Defined.
