(* ===== verification/Blocklist.v ===== *)
(** * The name policy: skeletons and the reserved-word matcher

    [internal/blocklist]: [Skeleton], which reduces an identifier to the form it is
    compared in, the matcher with its lists, its allowlist and the terms an
    administrator adds ([match.go], [allowlist.go], [lists.go]), and [internal/nameguard],
    which the services ask.  Normalisation form KD is [golang.org/x/text], a
    parameter; so is what the Unicode tables say of code points past ASCII.  A
    matcher's atomic pointers are fields: each call sees one value of them. *)

From S2P Require Import Prelude DomainErrors GoLib Domain.

Open Scope Z_scope.

(** ** Unicode *)

Class UnicodeFold := {
  nfkd : list Z → list Z;             (* [norm.NFKD], on code points *)
  lower_above : Z → Z;                (* [unicode.ToLower] past ASCII *)
  Mn_above : Z → bool;                (* nonspacing marks *)
  Pd_above : Z → bool;                (* dashes *)
  Pc_above : Z → bool;                (* connectors *)
}.

(** "NFKD ... ASCII text is normalised already", the quick check of the package. *)
Class UnicodeFoldLaws `{!UnicodeFold} : Prop := { nfkd_ascii l : Forall (λ r, 0 ≤ r < 128) l → nfkd l = l }.

Definition lower_rune `{!UnicodeFold} (r : Z) : Z :=
  if r <? 128 then (if (65 <=? r) && (r <=? 90) then r + 32 else r) else lower_above r.
Definition in_Mn `{!UnicodeFold} (r : Z) : bool := (128 <=? r) && Mn_above r.
Definition in_Pd `{!UnicodeFold} (r : Z) : bool := if r <? 128 then r =? 45 else Pd_above r.
Definition in_Pc `{!UnicodeFold} (r : Z) : bool := if r <? 128 then r =? 95 else Pc_above r.

(** [WriteRune]: the UTF-8 of a code point. *)
Definition utf8_rune (r : Z) : bytes :=
  if r <? 0x80 then [byte_of r]
  else if r <? 0x800 then [byte_of (0xC0 + r / 0x40); byte_of (0x80 + r mod 0x40)]
  else if r <? 0x10000 then [byte_of (0xE0 + r / 0x1000); byte_of (0x80 + r / 0x40 mod 0x40); byte_of (0x80 + r mod 0x40)]
  else [byte_of (0xF0 + r / 0x40000); byte_of (0x80 + r / 0x1000 mod 0x40); byte_of (0x80 + r / 0x40 mod 0x40); byte_of (0x80 + r mod 0x40)].
Definition utf8_encode (rs : list Z) : bytes := mjoin (utf8_rune <$> rs).

(** ** Tables *)

(** The code points of an ASCII literal. *)
Definition code_points (s : string) : list Z := byte_val <$> go s.

Fixpoint assoc {B} (k : Z) (l : list (Z * B)) : option B :=
  match l with [] => None | (a, b) :: l' => if k =? a then Some b else assoc k l' end.

(** src/internal/blocklist/skeleton.go:94-94, TableVersion *)
Definition TableVersion : Z := 6.

(** src/internal/blocklist/tables.go:28-87, confusables *)
Definition confusables : list (Z * string) :=
  [(0x0430, "a"); (0x0432, "b"); (0x0441, "c"); (0x0501, "d"); (0x0435, "e"); (0x0455, "s");
   (0x043D, "h"); (0x0456, "i"); (0x0457, "i"); (0x0458, "j"); (0x04BB, "h"); (0x043A, "k");
   (0x043C, "m"); (0x043E, "o"); (0x0440, "p"); (0x0442, "t"); (0x0443, "y"); (0x0445, "x");
   (0x0461, "w"); (0x03B1, "a"); (0x03B5, "e"); (0x03B7, "n"); (0x03B9, "i"); (0x03BA, "k");
   (0x03BC, "m"); (0x03BD, "v"); (0x03BF, "o"); (0x03C1, "p"); (0x03C4, "t"); (0x03C5, "u");
   (0x03C7, "x"); (0x03C9, "w"); (0x03F2, "c"); (0x03C2, "c"); (0x0131, "i"); (0x0237, "j");
   (0x0142, "l"); (0x0111, "d"); (0x00F8, "o"); (0x00DF, "ss"); (0x00E6, "ae"); (0x0153, "oe")]%string.

(** src/internal/blocklist/tables.go:105-114, leetspeak *)
Definition leetspeak : list (Z * Z) :=
  [(48, 111); (49, 105); (51, 101); (52, 97); (53, 115); (55, 116); (64, 97); (36, 115)].

(** src/internal/blocklist/tables.go:194-196, ambiguousReadings *)
Definition ambiguousReadings : list (Z * list ascii) := [(105, [byte_of 108])].

(** src/internal/blocklist/tables.go:214-217, maxAmbiguousRunes *)
Definition maxAmbiguousRunes : nat := 12.
Definition maxCandidateSkeletons : Z := Z.shiftl 1 (Z.of_nat maxAmbiguousRunes).

(** ** Skeletons *)

Section skeleton.
Context {UF : UnicodeFold}.

(** src/internal/blocklist/tables.go:219-243, isSeparator *)
Definition isSeparator (r : Z) : bool :=
  (r =? 95) || (r =? 46) || (r =? 45) || is_space r || in_Pd r || in_Pc r.

(** What stage 0 writes for a code point. *)
Definition sanitize_rune (r : Z) : list Z :=
  if r =? RuneError then []
  else match assoc (lower_rune r) confusables with
       | Some mapped => code_points mapped
       | None => [r]
       end.

(** src/internal/blocklist/skeleton.go:163-226, sanitize
    (the code points of the well-formed text it writes) *)
Definition sanitize (s : gostring) : list Z := mjoin (sanitize_rune <$> (runes s).*1).

(** src/internal/blocklist/skeleton.go:228-239, writeFolded *)
Definition writeFolded (r : Z) : list Z :=
  match assoc r leetspeak with
  | Some mapped => [mapped]
  | None => if isSeparator r then [] else [r]
  end.

Definition fold_rune (r : Z) : list Z :=
  if in_Mn r || in_Cf r then [] else
  let r := lower_rune r in
  match assoc r confusables with
  | Some mapped => mjoin (writeFolded <$> code_points mapped)
  | None => writeFolded r
  end.

(** The characters the fast path lets through. *)
Definition canonical (c : ascii) : bool :=
  let v := byte_val c in ((97 <=? v) && (v <=? 122)) || (v =? 50) || (v =? 54) || (v =? 56) || (v =? 57).

(** src/internal/blocklist/skeleton.go:96-161, Skeleton *)
Definition Skeleton (s : gostring) : gostring :=
  if forallb canonical s && negb (bool_decide (s = [])) then s
  else utf8_encode (mjoin (fold_rune <$> nfkd (sanitize s))).
End skeleton.

(** ** Candidates *)

Definition readings (table : list (Z * list ascii)) (c : ascii) : option (list ascii) := assoc (byte_val c) table.

Fixpoint positions_from (table : list (Z * list ascii)) (i : nat) (s : gostring) (positions : list nat) : option (list nat) :=
  match s with
  | [] => Some positions
  | c :: s' =>
      match readings table c with
      | None => positions_from table (S i) s' positions
      | Some _ => if (length positions =? maxAmbiguousRunes)%nat then None else positions_from table (S i) s' (positions ++ [i])
      end
  end.

(** The readings of the character at a position. *)
Definition readings_at (table : list (Z * list ascii)) (sk : gostring) (pos : nat) : list ascii :=
  default [] (sk !! pos ≫= readings table).

Definition within_ceiling (table : list (Z * list ascii)) (sk : gostring) : list nat → Z → bool := fix loop ps total :=
  match ps with
  | [] => true
  | p :: ps' =>
      let total := total * (1 + Z.of_nat (length (readings_at table sk p))) in
      if maxCandidateSkeletons <? total then false else loop ps' total
  end.

Definition grow (table : list (Z * list ascii)) (sk : gostring) (candidates : list gostring) (pos : nat) : list gostring :=
  candidates ++ mjoin ((λ reading, (λ c, <[pos := reading]> c) <$> candidates) <$> readings_at table sk pos).

(** src/internal/blocklist/match.go:601-659, expandCandidates *)
Definition expandCandidates (sk : gostring) (table : list (Z * list ascii)) : option (list gostring) :=
  match positions_from table 0 sk [] with
  | None => None
  | Some positions =>
      if within_ceiling table sk positions 1 then Some (foldl (grow table sk) [sk] positions) else None
  end.

(** src/internal/blocklist/match.go:568-599, candidateSkeletons *)
Definition candidateSkeletons (sk : gostring) : option (list gostring) := expandCandidates sk ambiguousReadings.

(** ** The matcher *)

(** src/internal/blocklist/match.go:23-35, MaxInputBytes *)
Definition MaxInputBytes : Z := 256.

(** src/internal/blocklist/match.go:37-93, MatchMode *)
Inductive MatchMode := MatchModeInvalid | MatchWholeSkeleton | MatchSubstring | MatchModeOther (n : Z).

#[export] Instance MatchMode_eq_dec : EqDecision MatchMode.
Proof. solve_decision. Defined.

(** src/internal/blocklist/match.go:110-170, Reason *)
Inductive Reason :=
| ReasonEngineUnavailable | ReasonAllowed | ReasonEmptySkeleton | ReasonTooLong | ReasonBlockedTerm | ReasonTooAmbiguous | ReasonAllowlisted.

(** src/internal/blocklist/match.go:194-233, Result *)
Record Result := MkResult {
  Res_Allowed : bool;
  Res_Reason : Reason;
  Res_List : gostring;
  Res_Term : gostring;
  Res_Mode : MatchMode;
}.

(** src/internal/blocklist/match.go:254-275, List *)
Record TermList := MkTermList { List_Name : gostring; List_Mode : MatchMode; List_Terms : list gostring }.

(** src/internal/blocklist/match.go:277-281, compiledTerm *)
Record compiledTerm := MkCompiledTerm { ct_skeleton : gostring; ct_raw : gostring }.

(** src/internal/blocklist/match.go:283-301, compiledList *)
Record compiledList := MkCompiledList {
  cl_name : gostring;
  cl_mode : MatchMode;
  cl_whole : gmap gostring compiledTerm;
  cl_substrings : list compiledTerm;
}.

(** src/internal/blocklist/match.go:303-361, Matcher *)
Record Matcher := MkMatcher {
  m_ready : bool;
  m_lists : list compiledList;
  m_allow : option (gmap gostring gostring);
  m_extra : option compiledList;
}.

(** src/internal/blocklist/allowlist.go:8-11, AllowlistName *)
Definition AllowlistName : gostring := go "allowlist".

(** src/internal/blocklist/allowlist.go:107-112, ExtraListName *)
Definition ExtraListName : gostring := go "administrator".

Section matcher.
Context {UF : UnicodeFold}.

(** The terms by skeleton: none is empty, no two are the same. *)
Fixpoint compile_terms (terms : list gostring) (seen : gmap gostring compiledTerm) (out : list compiledTerm) :
    result (gmap gostring compiledTerm * list compiledTerm) :=
  match terms with
  | [] => Ok (seen, out)
  | raw :: terms' =>
      let sk := Skeleton raw in
      if bool_decide (sk = []) then Err (errors_new "blocklist: term has an empty skeleton") else
      match seen !! sk with
      | Some _ => Err (errors_new "blocklist: terms share a skeleton")
      | None => let t := MkCompiledTerm sk raw in compile_terms terms' (<[sk := t]> seen) (out ++ [t])
      end
  end.

Fixpoint compile_lists (lists : list TermList) (seenNames : list gostring) : result (list compiledList) :=
  match lists with
  | [] => Ok []
  | l :: lists' =>
      if bool_decide (List_Name l = []) then Err (errors_new "blocklist: list has no name") else
      if bool_decide (List_Name l ∈ seenNames) then Err (errors_new "blocklist: duplicate list name") else
      if negb (bool_decide (List_Mode l = MatchWholeSkeleton)) && negb (bool_decide (List_Mode l = MatchSubstring))
      then Err (errors_new "blocklist: list has invalid match mode") else
      match compile_terms (List_Terms l) ∅ [] with
      | Err e => Err e
      | Ok (whole, subs) =>
          match compile_lists lists' (List_Name l :: seenNames) with
          | Err e => Err e
          | Ok cs =>
              Ok ((if bool_decide (List_Mode l = MatchWholeSkeleton) then MkCompiledList (List_Name l) (List_Mode l) whole []
                   else MkCompiledList (List_Name l) (List_Mode l) ∅ subs) :: cs)
          end
      end
  end.

(** src/internal/blocklist/match.go:363-452, NewMatcher *)
Definition NewMatcher (lists : list TermList) : result Matcher :=
  match compile_lists lists [] with
  | Err e => Err e
  | Ok compiled =>
      Ok (MkMatcher true
            (filter (λ cl, cl_mode cl = MatchWholeSkeleton) compiled ++ filter (λ cl, cl_mode cl = MatchSubstring) compiled) None None)
  end.

Fixpoint compile_entries (entries : list gostring) (compiled : gmap gostring gostring) : result (gmap gostring gostring) :=
  match entries with
  | [] => Ok compiled
  | raw :: entries' =>
      let sk := Skeleton raw in
      if bool_decide (sk = []) then Err (errors_new "blocklist: allowlist entry has an empty skeleton") else
      match compiled !! sk with
      | Some _ => Err (errors_new "blocklist: allowlist entries share a skeleton")
      | None => compile_entries entries' (<[sk := raw]> compiled)
      end
  end.

(** src/internal/blocklist/allowlist.go:28-81, Matcher.SetAllowlist *)
Definition SetAllowlist (m : Matcher) (entries : list gostring) : option goerror * Matcher :=
  if negb (m_ready m) then (Some (errors_new "blocklist: allowlist set on an unbuilt matcher"), m) else
  match compile_entries entries ∅ with
  | Err e => (Some e, m)
  | Ok compiled => (None, MkMatcher (m_ready m) (m_lists m) (Some compiled) (m_extra m))
  end.

(** src/internal/blocklist/allowlist.go:114-155, Matcher.SetExtraTerms *)
Definition SetExtraTerms (m : Matcher) (terms : list gostring) : option goerror * Matcher :=
  if negb (m_ready m) then (Some (errors_new "blocklist: extra terms set on an unbuilt matcher"), m) else
  match compile_terms terms ∅ [] with
  | Err e => (Some e, m)
  | Ok (whole, _) =>
      (None, MkMatcher (m_ready m) (m_lists m) (m_allow m) (Some (MkCompiledList ExtraListName MatchWholeSkeleton whole [])))
  end.

(** src/internal/blocklist/allowlist.go:175-206, Matcher.allowlisted *)
Definition allowlisted (m : Matcher) (skeleton : gostring) : option gostring := m_allow m ≫= (λ set, set !! skeleton).

(** src/internal/blocklist/match.go:661-670, blockedBy *)
Definition blockedBy (cl : compiledList) (term : compiledTerm) : Result :=
  MkResult false ReasonBlockedTerm (cl_name cl) (ct_raw term) (cl_mode cl).

(** The first answer along a list. *)
Definition first_some {A B} (f : A → option B) : list A → option B := fix loop l :=
  match l with [] => None | a :: l' => match f a with Some b => Some b | None => loop l' end end.

Definition list_hit (candidates : list gostring) (cl : compiledList) : option Result :=
  if bool_decide (cl_mode cl = MatchWholeSkeleton)
  then first_some (λ c, blockedBy cl <$> cl_whole cl !! c) candidates
  else first_some (λ c, first_some (λ t, if contains (ct_skeleton t) c then Some (blockedBy cl t) else None) (cl_substrings cl)) candidates.

Definition refused (r : Reason) : Result := MkResult false r [] [] MatchModeInvalid.

(** src/internal/blocklist/match.go:454-566, Matcher.Check *)
Definition Matcher_Check (m : option Matcher) (input : gostring) : Result :=
  match m with
  | None => refused ReasonEngineUnavailable
  | Some m =>
      if negb (m_ready m) then refused ReasonEngineUnavailable else
      if MaxInputBytes <? len input then refused ReasonTooLong else
      let skeleton := Skeleton input in
      if bool_decide (skeleton = []) then refused ReasonEmptySkeleton else
      match allowlisted m skeleton with
      | Some entry => MkResult true ReasonAllowlisted AllowlistName entry MatchModeInvalid
      | None =>
          match candidateSkeletons skeleton with
          | None => refused ReasonTooAmbiguous
          | Some candidates =>
              match m_extra m ≫= (λ extra, first_some (λ c, blockedBy extra <$> cl_whole extra !! c) candidates) with
              | Some r => r
              | None =>
                  match first_some (list_hit candidates) (m_lists m) with
                  | Some r => r
                  | None => MkResult true ReasonAllowed [] [] MatchModeInvalid
                  end
              end
          end
      end
  end.

(** ** nameguard *)

(** src/internal/nameguard/nameguard.go:40-67, Kind *)
Inductive Kind := KindInvalid | KindHandle | KindKeySetName | KindDeviceName | KindOther (n : Z).

(** src/internal/nameguard/nameguard.go:85-103, Op *)
Inductive Op := OpInvalid | OpCreate | OpRename | OpOther (n : Z).

#[export] Instance Op_eq_dec : EqDecision Op.
Proof. solve_decision. Defined.

(** src/internal/nameguard/nameguard.go:210-228, validateSyntax *)
Definition validateSyntax (k : Kind) (name : gostring) : option goerror :=
  match k with
  | KindHandle => ValidateHandle name
  | KindKeySetName => ValidateSetName name
  | KindDeviceName => ValidateDeviceName name
  | KindInvalid => Some (errorf "nameguard: identifier kind not set" [ErrInvalidInput])
  | KindOther _ => Some (errorf "nameguard: unknown identifier kind" [ErrInvalidInput])
  end.

(** src/internal/nameguard/nameguard.go:156-208, Guard.Check
    (a guard is its matcher; none at all refuses) *)
Definition Guard_Check (g : option (option Matcher)) (k : Kind) (op : Op) (name : gostring) : option goerror :=
  match g with
  | None => Some (errorf "nameguard: no guard configured" [ErrBlockedName])
  | Some matcher =>
      if negb (bool_decide (op = OpCreate)) && negb (bool_decide (op = OpRename)) then
        Some (errorf "nameguard: unknown operation" [ErrInvalidInput]) else
      match validateSyntax k name with
      | Some e => Some e
      | None =>
          if negb (Res_Allowed (Matcher_Check matcher name)) then
            Some (errorf "nameguard: this identifier is not available; please choose another" [ErrBlockedName])
          else None
      end
  end.
End matcher.

(** ** The built-in lists *)

(** src/internal/blocklist/lists.go:82-153, routingTerms *)
Definition routingTerms : list gostring := go <$>
  ["sshpilot"; "vallet"; "vallete"; "sshpilot-vallete"; "sshpilot-vallet"; ".well-known"; "robots.txt"; 
   "favicon.ico"; "sitemap.xml"; "healthz"; "readyz"; "livez"; "health"; "status"; "metrics"; "ping"; 
   "static"; "assets"; "public"; "cdn"; "media"; "img"; "images"; "css"; "js"; "fonts"; "api"; "apis"; 
   "graphql"; "rpc"; "webhook"; "webhooks"; "login"; "logout"; "signin"; "signout"; "signup"; "register"; 
   "auth"; "oauth"; "sso"; "saml"; "session"; "sessions"; "token"; "tokens"; "password"; "passwords"; 
   "reset"; "verify"; "confirm"; "enroll"; "enrollment"; "admin"; "account"; "accounts"; "settings"; 
   "preferences"; "dashboard"; "console"; "portal"; "manage"; "management"; "docs"; "documentation"; "help"; 
   "support"; "faq"; "about"; "contact"; "blog"; "news"; "pricing"; "terms"; "privacy"; "legal"; "security"; 
   "changelog"; "www"; "ftp"; "mail"; "smtp"; "imap"; "pop"; "ns"; "mx"; "dns"; "localhost"; "server"; 
   "host"; "node"; "proxy"; "gateway"; "null"; "nil"; "none"; "undefined"; "nan"; "true"; "false"; "test"; 
   "testing"; "example"; "sample"; "demo"; "default"; "unknown"; "anonymous"; "guest"]%string.

(** src/internal/blocklist/lists.go:155-199, impersonationTerms *)
Definition impersonationTerms : list gostring := go <$>
  ["root"; "toor"; "superuser"; "sudo"; "wheel"; "daemon"; "operator"; "sysadmin"; "sysop"; "administrator"; 
   "administration"; "admins"; "moderator"; "moderators"; "owner"; "staff"; "team"; "employee"; "official"; 
   "officials"; "helpdesk"; "customer-service"; "customer-support"; "servicedesk"; "noreply"; "donotreply"; 
   "postmaster"; "webmaster"; "hostmaster"; "abuse"; "info"; "contact-us"; "verified"; "verify-account"; 
   "trust"; "safety"; "trustandsafety"; "authentic"; "genuine"; "certified"; "billing"; "payment"; 
   "payments"; "invoice"; "invoices"; "refund"; "refunds"; "checkout"; "wallet"; "payout"; "payouts"; 
   "security-team"; "secops"; "soc"; "cert"; "incident"; "csirt"; "system"; "service"; "notifications"; 
   "alerts"; "announcement"; "announcements"]%string.

(** src/internal/blocklist/lists.go:30-48, DefaultLists
    (the words of the third list are left out of this file: they are an argument) *)
Definition DefaultLists (offensiveTerms : list gostring) : list TermList :=
  [MkTermList (go "routing") MatchWholeSkeleton routingTerms;
   MkTermList (go "impersonation") MatchWholeSkeleton impersonationTerms;
   MkTermList (go "offensive") MatchSubstring offensiveTerms].

(** ** Candidates are exactly the readings *)

(** A character and what it may be read as. *)
Definition reads (table : list (Z * list ascii)) (a b : ascii) : Prop := b = a ∨ b ∈ default [] (readings table a).

Section candidates.
Context (table : list (Z * list ascii)).

(** The positions of ambiguous characters, from the [i]-th on. *)
Fixpoint ambiguous (i : nat) (s : gostring) : list nat :=
  match s with
  | [] => []
  | c :: s' => match readings table c with Some _ => i :: ambiguous (S i) s' | None => ambiguous (S i) s' end
  end.

Lemma positions_from_ambiguous i s acc : (length acc ≤ maxAmbiguousRunes)%nat →
  positions_from table i s acc =
  if (length acc + length (ambiguous i s) <=? maxAmbiguousRunes)%nat then Some (acc ++ ambiguous i s) else None.
Proof.
  revert i acc. induction s as [|c s IH]; intros i acc Hl; simpl.
  - rewrite Nat.add_0_r, app_nil_r. by rewrite (proj2 (Nat.leb_le _ _)).
  - destruct (readings table c); [|by apply IH]. destruct (Nat.eqb_spec (length acc) maxAmbiguousRunes) as [E|E].
    + rewrite (proj2 (Nat.leb_gt _ _)); [done|]. simpl. lia.
    + rewrite IH by (rewrite length_app; simpl; lia). rewrite length_app. simpl. rewrite <- app_assoc. simpl.
      by replace (length acc + 1 + length (ambiguous (S i) s))%nat with (length acc + S (length (ambiguous (S i) s)))%nat by lia.
Qed.

Lemma elem_of_ambiguous i s p : p ∈ ambiguous i s ↔ ∃ c, (i ≤ p)%nat ∧ s !! (p - i)%nat = Some c ∧ is_Some (readings table c).
Proof.
  revert i p. induction s as [|c s IH]; intros i p; simpl.
  - split; [by intros ?%not_elem_of_nil|]. intros (c & _ & H & _). by rewrite lookup_nil in H.
  - assert (∀ q, (q ∈ ambiguous (S i) s) ↔ ∃ d, (i < q)%nat ∧ (c :: s) !! (q - i)%nat = Some d ∧ is_Some (readings table d)) as Hrest.
    { intros q. rewrite IH. split; intros (d & Hle & Hd & Hr); exists d; (split; [lia|split; [|done]]).
      - by replace (q - i)%nat with (S (q - S i)) by lia.
      - replace (q - i)%nat with (S (q - S i)) in Hd by lia. done. }
    destruct (readings table c) eqn:Er; [rewrite elem_of_cons|]; rewrite Hrest.
    + split; [intros [->|(d & ? & ?)]; [exists c; rewrite Nat.sub_diag; eauto|exists d; split; [lia|done]]|].
      intros (d & Hle & Hd & Hr). destruct (decide (p = i)) as [|Hne]; [by left|right]. exists d. split; [lia|done].
    + split; [intros (d & ? & ?); exists d; split; [lia|done]|]. intros (d & Hle & Hd & Hr). exists d. split; [|done].
      destruct (decide (p = i)) as [->|]; [|lia]. rewrite Nat.sub_diag in Hd. simpl in Hd. simplify_eq. rewrite Er in Hr. by destruct Hr.
Qed.

Lemma NoDup_ambiguous i s : NoDup (ambiguous i s).
Proof.
  revert i. induction s as [|c s IH]; intros i; simpl; [constructor|]. destruct (readings table c); [|done].
  constructor; [|done]. rewrite elem_of_ambiguous. intros (d & ? & _). lia.
Qed.

(** The readings of [sk] that differ from it at most at the positions [ps]. *)
Definition alternative (sk : gostring) (ps : list nat) (c : gostring) : Prop :=
  length c = length sk ∧
  ∀ i a b, sk !! i = Some a → c !! i = Some b → b = a ∨ (i ∈ ps) ∧ b ∈ readings_at table sk i.

Lemma elem_of_grow sk cs pos c :
  c ∈ grow table sk cs pos ↔ c ∈ cs ∨ ∃ r c0, r ∈ readings_at table sk pos ∧ c0 ∈ cs ∧ c = <[pos := r]> c0.
Proof.
  unfold grow. rewrite elem_of_app, list_elem_of_join. split.
  - intros [?|(l & Hc & Hl)]; [by left|right]. apply list_elem_of_fmap in Hl as (r & -> & Hr).
    apply list_elem_of_fmap in Hc as (c0 & -> & Hc0). eauto.
  - intros [?|(r & c0 & Hr & Hc0 & ->)]; [by left|right]. exists ((λ c, <[pos := r]> c) <$> cs).
    split; apply list_elem_of_fmap; eauto.
Qed.

Lemma alternative_grow sk ps pos c : (pos < length sk)%nat → (pos ∉ ps) →
  alternative sk (ps ++ [pos]) c ↔
  alternative sk ps c ∨ ∃ r c0, r ∈ readings_at table sk pos ∧ alternative sk ps c0 ∧ c = <[pos := r]> c0.
Proof.
  intros Hpos Hnew. split.
  - intros [Hl Hc]. destruct (lookup_lt_is_Some_2 sk pos Hpos) as [a Ha].
    destruct (lookup_lt_is_Some_2 c pos ltac:(lia)) as [b Hb].
    destruct (decide (b = a)) as [->|Hne].
    + left. split; [done|]. intros i a' b' Ha' Hb'. destruct (Hc _ _ _ Ha' Hb') as [?|[[?|Hi]%elem_of_app Hr]]; [by left|by right|].
      apply list_elem_of_singleton in Hi as ->. left. congruence.
    + right. destruct (Hc _ _ _ Ha Hb) as [?|[_ Hr]]; [done|]. exists b, (<[pos := a]> c). split; [done|]. split.
      * split; [by rewrite length_insert|]. intros i a' b' Ha' Hb'. destruct (decide (i = pos)) as [->|Hi].
        -- rewrite list_lookup_insert_eq in Hb' by lia. left. congruence.
        -- rewrite list_lookup_insert_ne in Hb' by done. destruct (Hc _ _ _ Ha' Hb') as [?|[[?|?%list_elem_of_singleton]%elem_of_app ?]];
             [by left|by right|done].
      * rewrite list_insert_insert_eq. by rewrite list_insert_id.
  - intros [[Hl Hc]|(r & c0 & Hr & [Hl Hc] & ->)].
    + split; [done|]. intros i a b Ha Hb. destruct (Hc _ _ _ Ha Hb) as [?|[? ?]]; [by left|right]. split; [|done]. apply elem_of_app. by left.
    + split; [by rewrite length_insert|]. intros i a b Ha Hb. destruct (decide (i = pos)) as [->|Hi].
      * rewrite list_lookup_insert_eq in Hb by lia. injection Hb as <-. right. split; [|done]. apply elem_of_app. right. by apply list_elem_of_singleton.
      * rewrite list_lookup_insert_ne in Hb by done. destruct (Hc _ _ _ Ha Hb) as [?|[? ?]]; [by left|right]. split; [|done]. apply elem_of_app. by left.
Qed.

Lemma foldl_grow sk ps : NoDup ps → Forall (λ p, p < length sk)%nat ps →
  ∀ c, c ∈ foldl (grow table sk) [sk] ps ↔ alternative sk ps c.
Proof.
  induction ps as [|pos ps IH] using rev_ind; intros Hnd Hin c.
  - simpl. rewrite list_elem_of_singleton. split.
    + intros ->. split; [done|]. intros i a b Ha Hb. left. congruence.
    + intros [Hl Hc]. apply list_eq. intros i. destruct (sk !! i) as [a|] eqn:Ha.
      * destruct (lookup_lt_is_Some_2 c i) as [b Hb]; [apply lookup_lt_Some in Ha; lia|].
        rewrite Hb. destruct (Hc _ _ _ Ha Hb) as [E|[Hn _]]; [congruence|by apply not_elem_of_nil in Hn].
      * apply lookup_ge_None in Ha. apply lookup_ge_None. lia.
  - apply NoDup_app in Hnd as (Hnd & Hdis & _). apply Forall_app in Hin as [Hin Hpos]. inversion_clear Hpos as [|? ? Hp _].
    rewrite foldl_app. simpl. rewrite elem_of_grow. rewrite alternative_grow; [|exact Hp|].
    2:{ intros Hps. apply (Hdis _ Hps). by apply list_elem_of_singleton. }
    rewrite (IH Hnd Hin). split; (intros [?|(r & c0 & Hr & Hc0 & ->)]; [by left|right; exists r, c0; split; [done|split; [by apply IH|done]]]).
Qed.
End candidates.

Abbreviation both := ambiguousReadings.

Lemma readings_both c : readings both c = if byte_val c =? 105 then Some [byte_of 108] else None.
Proof. reflexivity. Qed.

Lemma alternative_all table sk c : alternative table sk (ambiguous table 0 sk) c ↔ Forall2 (reads table) sk c.
Proof.
  rewrite Forall2_same_length_lookup. unfold alternative. split.
  - intros [Hl H]. split; [done|]. intros i a b Ha Hb. destruct (H i a b Ha Hb) as [?|[_ Hr]]; [by left|right].
    unfold readings_at in Hr. by rewrite Ha in Hr.
  - intros [Hl H]. split; [done|]. intros i a b Ha Hb. destruct (H i a b Ha Hb) as [?|Hr]; [by left|right]. split.
    + apply elem_of_ambiguous. exists a. rewrite Nat.sub_0_r. split_and!; [lia|done|]. destruct (readings table a); [by eexists|].
      by apply not_elem_of_nil in Hr.
    + unfold readings_at. by rewrite Ha.
Qed.

Lemma within_ceiling_both sk ps total : 0 < total → Forall (λ p, p ∈ ambiguous both 0 sk) ps →
  total * 2 ^ Z.of_nat (length ps) ≤ maxCandidateSkeletons → within_ceiling both sk ps total = true.
Proof.
  revert total. induction ps as [|p ps IH]; intros total Ht Hps Hle; [done|]. simpl within_ceiling. inversion_clear Hps as [|? ? Hp Hps'].
  apply elem_of_ambiguous in Hp as (c & _ & Hc & Hr). rewrite Nat.sub_0_r in Hc. unfold readings_at at 1 2. rewrite Hc. simpl.
  rewrite readings_both in Hr |- *. destruct (byte_val c =? 105); [|by destruct Hr]. simpl.
  change (Z.of_nat (length (p :: ps))) with (Z.of_nat (S (length ps))) in Hle. rewrite Nat2Z.inj_succ, Z.pow_succ_r in Hle by lia.
  assert (1 ≤ 2 ^ Z.of_nat (length ps)) by (pose proof (Z.pow_pos_nonneg 2 (Z.of_nat (length ps)) ltac:(lia) ltac:(lia)); lia).
  rewrite (proj2 (Z.ltb_ge _ _)) by nia. apply IH; [lia|done|lia].
Qed.

Lemma length_grow_both sk cs p : p ∈ ambiguous both 0 sk → length (grow both sk cs p) = (2 * length cs)%nat.
Proof.
  intros (c & _ & Hc & Hr)%elem_of_ambiguous. rewrite Nat.sub_0_r in Hc. unfold grow, readings_at. rewrite Hc. simpl.
  rewrite readings_both in Hr |- *. destruct (byte_val c =? 105); [|by destruct Hr]. simpl. rewrite length_app, app_nil_r, length_fmap. lia.
Qed.

Lemma foldl_grow_both sk ps cs : Forall (λ p, p ∈ ambiguous both 0 sk) ps →
  length (foldl (grow both sk) cs ps) = (2 ^ length ps * length cs)%nat ∧
  (∀ c, head cs = Some c → head (foldl (grow both sk) cs ps) = Some c).
Proof.
  revert cs. induction ps as [|p ps IH]; intros cs Hps; simpl; [split; [lia|done]|]. inversion_clear Hps as [|? ? Hp Hps'].
  destruct (IH (grow both sk cs p) Hps') as [Hl Hh]. rewrite Hl, length_grow_both by done. split; [lia|].
  intros c Hc. apply Hh. unfold grow. destruct cs; [done|]. done.
Qed.

Lemma candidateSkeletons_spec sk :
  let n := length (ambiguous both 0 sk) in
  match candidateSkeletons sk with
  | Some cs => (n ≤ maxAmbiguousRunes)%nat ∧ length cs = (2 ^ n)%nat ∧ head cs = Some sk ∧ ∀ c, c ∈ cs ↔ Forall2 (reads both) sk c
  | None => (maxAmbiguousRunes < n)%nat
  end.
Proof.
  unfold candidateSkeletons, expandCandidates. rewrite positions_from_ambiguous by (simpl; lia). simpl app. simpl length.
  destruct (Nat.leb_spec (0 + length (ambiguous both 0 sk)) maxAmbiguousRunes) as [Hle|Hgt]; [|lia].
  assert (Forall (λ p, p ∈ ambiguous both 0 sk) (ambiguous both 0 sk)) as Hall by by apply Forall_forall.
  rewrite within_ceiling_both; [|lia|done|].
  2:{ rewrite Z.mul_1_l. unfold maxCandidateSkeletons. rewrite Z.shiftl_mul_pow2, Z.mul_1_l by lia. apply Z.pow_le_mono_r; lia. }
  destruct (foldl_grow_both sk (ambiguous both 0 sk) [sk] Hall) as [Hl Hh]. split_and!; [lia| |by apply Hh|].
  - rewrite Hl. simpl. lia.
  - intros c. rewrite <- alternative_all. apply foldl_grow; [apply NoDup_ambiguous|]. apply Forall_forall. intros p Hp.
    apply elem_of_ambiguous in Hp as (a & _ & Ha & _). rewrite Nat.sub_0_r in Ha. by eapply lookup_lt_Some.
Qed.

(** ** What the matcher blocks *)

(** A form the name can be read as is on a list. *)
Definition listed (m : Matcher) (c : gostring) : Prop :=
  (∃ extra, m_extra m = Some extra ∧ is_Some (cl_whole extra !! c)) ∨
  ∃ cl, cl ∈ m_lists m ∧
    if bool_decide (cl_mode cl = MatchWholeSkeleton) then is_Some (cl_whole cl !! c)
    else ∃ t, t ∈ cl_substrings cl ∧ contains (ct_skeleton t) c = true.

Lemma first_some_None {A B} (f : A → option B) l : first_some f l = None ↔ ∀ a, a ∈ l → f a = None.
Proof.
  induction l as [|a l IH]; simpl; [split; [intros _ ? ?%not_elem_of_nil|]; done|].
  destruct (f a) eqn:E.
  - split; [done|]. intros H. specialize (H a ltac:(by left)). congruence.
  - rewrite IH. split; [intros H b [->|Hb]%elem_of_cons; auto|]. intros H b Hb. apply H. by right.
Qed.

Lemma first_some_Some {A B} (f : A → option B) l b : first_some f l = Some b → ∃ a, a ∈ l ∧ f a = Some b.
Proof.
  induction l as [|a l IH]; simpl; [done|]. destruct (f a) eqn:E.
  - intros [= <-]. exists a. split; [by left|done].
  - intros H. destruct (IH H) as (a' & ? & ?). exists a'. split; [by right|done].
Qed.

Lemma list_hit_None cs cl : list_hit cs cl = None ↔ ∀ c, c ∈ cs →
  ¬ (if bool_decide (cl_mode cl = MatchWholeSkeleton) then is_Some (cl_whole cl !! c)
     else ∃ t, t ∈ cl_substrings cl ∧ contains (ct_skeleton t) c = true).
Proof.
  unfold list_hit. case_bool_decide as Hm; rewrite first_some_None; split; intros H c Hc; specialize (H c Hc).
  - intros [t Ht]. by rewrite Ht in H.
  - destruct (cl_whole cl !! c); [|done]. destruct H. by eexists.
  - rewrite first_some_None in H. intros (t & Ht & E). specialize (H t Ht). by rewrite E in H.
  - apply first_some_None. intros t Ht. destruct (contains _ c) eqn:E; [|done]. destruct H. by exists t.
Qed.

Lemma list_hit_blocked cs cl r : list_hit cs cl = Some r → Res_Allowed r = false.
Proof.
  unfold list_hit. case_bool_decide as Hm; intros (c & _ & H)%first_some_Some.
  - destruct (cl_whole cl !! c); [|done]. by injection H as <-.
  - apply first_some_Some in H as (t & _ & H). destruct (contains _ c); [|done]. by injection H as <-.
Qed.

Lemma extra_hit_None m cs :
  m_extra m ≫= (λ extra, first_some (λ c, blockedBy extra <$> cl_whole extra !! c) cs) = None ↔
  ∀ c, c ∈ cs → ¬ ∃ extra, m_extra m = Some extra ∧ is_Some (cl_whole extra !! c).
Proof.
  destruct (m_extra m) as [extra|]; simpl; [|split; [intros _ c _ (? & ? & _)|]; done]. rewrite first_some_None.
  split; intros H c Hc; specialize (H c Hc).
  - intros (? & [= <-] & t & Ht). by rewrite Ht in H.
  - destruct (cl_whole extra !! c) eqn:E; [|done]. destruct H. exists extra. split; [done|by eexists].
Qed.

Lemma extra_hit_blocked m cs r :
  m_extra m ≫= (λ extra, first_some (λ c, blockedBy extra <$> cl_whole extra !! c) cs) = Some r → Res_Allowed r = false.
Proof.
  destruct (m_extra m) as [extra|]; simpl; [|done]. intros (c & _ & H)%first_some_Some.
  destruct (cl_whole extra !! c); [|done]. by injection H as <-.
Qed.

Section exact.
Context {UF : UnicodeFold}.

Lemma Matcher_Check_iff (m : option Matcher) (input : gostring) :
  Res_Allowed (Matcher_Check m input) = true ↔
  ∃ m', m = Some m' ∧ m_ready m' = true ∧ len input ≤ MaxInputBytes ∧ Skeleton input ≠ [] ∧
    (is_Some (allowlisted m' (Skeleton input)) ∨
     (length (ambiguous both 0 (Skeleton input)) ≤ maxAmbiguousRunes)%nat ∧
     ∀ c, Forall2 (reads both) (Skeleton input) c → ¬ listed m' c).
Proof.
  destruct m as [m|]; simpl; [|split; [done|by intros (? & ? & _)]].
  destruct (m_ready m) eqn:Er; simpl; [|split; [done|intros (? & [= <-] & ? & _); congruence]].
  destruct (MaxInputBytes <? len input) eqn:El; [apply Z.ltb_lt in El|apply Z.ltb_ge in El]; [split; [done|intros (? & [= <-] & _ & ? & _); lia]|].
  case_bool_decide as Hs; [split; [done|by intros (? & [= <-] & _ & _ & ? & _)]|].
  destruct (allowlisted m (Skeleton input)) as [e|] eqn:Ea; simpl.
  { split; [intros _|done]. exists m. split_and!; try done. rewrite Ea. left. by eexists. }
  pose proof (candidateSkeletons_spec (Skeleton input)) as Hcs. cbn zeta in Hcs.
  destruct (candidateSkeletons (Skeleton input)) as [cs|].
  2:{ split; [done|]. intros (? & [= <-] & _ & _ & _ & [[? Hal]|[? _]]); [congruence|lia]. }
  destruct Hcs as (Hn & _ & _ & Hcs).
  assert ((∀ c, Forall2 (reads both) (Skeleton input) c → ¬ listed m c) ↔
    (∀ c, c ∈ cs → ¬ ∃ extra, m_extra m = Some extra ∧ is_Some (cl_whole extra !! c)) ∧ ∀ cl, cl ∈ m_lists m → list_hit cs cl = None) as Hno.
  { split.
    - intros H. split; [intros c Hc Hex; apply (H c); [by apply Hcs|by left]|]. intros cl Hcl. apply list_hit_None. intros c Hc Hit.
      apply (H c); [by apply Hcs|right; by exists cl].
    - intros [He Hl] c Hc [?|(cl & Hcl & Hit)]; [by apply (He c); [apply Hcs|]|]. apply Hcs in Hc.
      by apply (proj1 (list_hit_None cs cl) (Hl cl Hcl) c Hc). }
  destruct (m_extra m ≫= _) as [r|] eqn:Ee.
  { rewrite (extra_hit_blocked _ _ _ Ee). split; [done|]. intros (? & [= <-] & _ & _ & _ & [[? Hal]|[_ H]]); [congruence|].
    apply Hno in H as [H _]. apply extra_hit_None in H. congruence. }
  destruct (first_some (list_hit cs) (m_lists m)) as [r|] eqn:Eh; simpl.
  { apply first_some_Some in Eh as (cl & Hcl & Hr). rewrite (list_hit_blocked _ _ _ Hr). split; [done|].
    intros (? & [= <-] & _ & _ & _ & [[? Hal]|[_ H]]); [congruence|]. apply Hno in H as [_ H]. specialize (H cl Hcl). congruence. }
  split; [intros _|done]. exists m. split_and!; try done. right. split; [done|]. apply Hno. split; [by apply extra_hit_None|].
  by apply first_some_None.
Qed.

(** The matcher is exact, and closed by default.  It allows a name when and only
    when the name is within the length limit, does not fold to nothing, and either its
    skeleton is on the allowlist or the skeleton has at most twelve ambiguous characters
    and no form it can be read as - any of its i's taken for l's - is a reserved word or
    contains a forbidden one; without a built matcher it allows nothing. *)
Theorem Matcher_Check_exact (m : option Matcher) (input : gostring) :
  Res_Allowed (Matcher_Check m input) = true ↔
  ∃ m', m = Some m' ∧ m_ready m' = true ∧ len input ≤ MaxInputBytes ∧ Skeleton input ≠ [] ∧
    (is_Some (allowlisted m' (Skeleton input)) ∨
     (length (ambiguous both 0 (Skeleton input)) ≤ maxAmbiguousRunes)%nat ∧
     ∀ c, Forall2 (reads both) (Skeleton input) c → ¬ listed m' c).
Proof. apply Matcher_Check_iff. Qed.
End exact.

(** ** Skeletons of ASCII names *)

Definition is_ascii (c : ascii) : Prop := byte_val c < 128.

(** What one ASCII character folds to. *)
Definition fold_ascii (c : ascii) : bytes :=
  let v := byte_val c in
  let v := if (65 <=? v) && (v <=? 90) then v + 32 else v in
  match assoc v leetspeak with
  | Some m => [byte_of m]
  | None => if (v =? 95) || (v =? 46) || (v =? 45) || is_space v then [] else [byte_of v]
  end.

Section ascii.
Context {UF : UnicodeFold} {UL : UnicodeFoldLaws}.

Lemma assoc_above {B} (l : list (Z * B)) r : Forall (λ kv, 128 ≤ kv.1) l → r < 128 → assoc r l = None.
Proof. intros Hl Hr. induction Hl as [|[k v] l Hk _ IH]; [done|]. simpl in *. rewrite (proj2 (Z.eqb_neq _ _)) by lia. apply IH. Qed.

Lemma confusables_ascii r : r < 128 → assoc r confusables = None.
Proof. apply assoc_above. apply (bool_decide_unpack _). vm_compute. exact I. Qed.

Lemma lower_rune_ascii r : r < 128 → lower_rune r < 128.
Proof. intros Hr. unfold lower_rune. rewrite (proj2 (Z.ltb_lt _ _)) by lia. destruct (_ && _) eqn:E; reflect_bools; lia. Qed.

Opaque confusables.

Lemma sanitize_ascii s : Forall is_ascii s → sanitize s = byte_val <$> s.
Proof.
  intros Hs. unfold sanitize. rewrite runes_all_ascii by done. rewrite <- list_fmap_compose.
  induction Hs as [|c s Hc _ IH]; [done|]. rewrite !fmap_cons, <- IH. unfold is_ascii in Hc. pose proof (byte_val_range c).
  change (mjoin (?a :: ?l)) with (a ++ mjoin l). f_equal. simpl. unfold sanitize_rune.
  rewrite (proj2 (Z.eqb_neq _ _)) by (unfold RuneError; lia). by rewrite confusables_ascii by by apply lower_rune_ascii.
Qed.

Lemma fold_rune_ascii c : is_ascii c → utf8_encode (fold_rune (byte_val c)) = fold_ascii c.
Proof.
  intros Hc. unfold fold_rune. rewrite confusables_ascii by (apply lower_rune_ascii; exact Hc). cbv zeta.
  destruct c as [[] [] [] [] [] [] [] []]; first [discriminate Hc|vm_compute; reflexivity].
Qed.

Lemma utf8_encode_app a b : utf8_encode (a ++ b) = utf8_encode a ++ utf8_encode b.
Proof. unfold utf8_encode. by rewrite fmap_app, join_app. Qed.

Lemma canonical_fold c : canonical c = true → fold_ascii c = [c].
Proof. destruct c as [[] [] [] [] [] [] [] []]; first [discriminate 1|reflexivity]. Qed.

Lemma Skeleton_ascii s : Forall is_ascii s → Skeleton s = mjoin (fold_ascii <$> s).
Proof.
  intros Hs. unfold Skeleton. destruct (forallb canonical s && _) eqn:Ef.
  - apply andb_prop in Ef as [Hc _]. clear Hs. induction s as [|c s IH]; [done|]. simpl in Hc. apply andb_prop in Hc as [Hc Hs].
    rewrite fmap_cons. change (mjoin (?a :: ?l)) with (a ++ mjoin l). rewrite canonical_fold, <- IH by done. done.
  - rewrite sanitize_ascii by done. rewrite nfkd_ascii.
    2:{ apply Forall_fmap. eapply Forall_impl; [exact Hs|]. intros c Hc. unfold is_ascii in Hc. pose proof (byte_val_range c). simpl. lia. }
    clear Ef. rewrite <- list_fmap_compose. induction Hs as [|c s Hc _ IH]; [done|]. rewrite !fmap_cons.
    change (mjoin (?a :: ?l)) with (a ++ mjoin l). rewrite utf8_encode_app, IH. f_equal. by apply fold_rune_ascii.
Qed.

(** Folded characters stay as they are. *)
Lemma fold_ascii_closed c : is_ascii c → Forall (λ b, is_ascii b ∧ fold_ascii b = [b]) (fold_ascii c).
Proof.
  intros Hc. assert (forallb (λ b, (byte_val b <? 128) && bool_decide (fold_ascii b = [b])) (fold_ascii c) = true) as H
    by (destruct c as [[] [] [] [] [] [] [] []]; first [discriminate Hc|vm_compute; reflexivity]).
  apply Forall_forall. intros b Hb. apply list_elem_of_In in Hb. rewrite forallb_forall in H. specialize (H b Hb).
  apply andb_prop in H as [H1%Z.ltb_lt H2%bool_decide_eq_true]. done.
Qed.

Lemma join_fold_fixed l : Forall (λ b, is_ascii b ∧ fold_ascii b = [b]) l → mjoin (fold_ascii <$> l) = l.
Proof. induction 1 as [|b l [_ Hb] _ IH]; [done|]. rewrite fmap_cons. change (mjoin (?a :: ?l)) with (a ++ mjoin l). by rewrite Hb, IH. Qed.

Lemma Skeleton_ascii_closed s : Forall is_ascii s → Forall (λ b, is_ascii b ∧ fold_ascii b = [b]) (Skeleton s).
Proof.
  intros Hs. rewrite Skeleton_ascii by done. induction Hs as [|c s Hc _ IH]; [constructor|]. rewrite fmap_cons.
  change (mjoin (?a :: ?l)) with (a ++ mjoin l). apply Forall_app. split; [by apply fold_ascii_closed|done].
Qed.

(** Folding is idempotent on names: the skeleton of an ASCII name is a name of
    ASCII characters whose skeleton is itself, so comparing skeletons is comparing
    normal forms.  (Handles and key-set names are ASCII.) *)
Theorem Skeleton_idempotent s : Forall is_ascii s → Forall is_ascii (Skeleton s) ∧ Skeleton (Skeleton s) = Skeleton s.
Proof.
  intros Hs. pose proof (Skeleton_ascii_closed s Hs) as H.
  assert (Forall is_ascii (Skeleton s)) as Ha by (eapply Forall_impl; [exact H|]; by intros ? []).
  split; [done|]. rewrite (Skeleton_ascii (Skeleton s)) by done. by apply join_fold_fixed.
Qed.
End ascii.

(** ** Reserved words *)

Section reserved.
Context {UF : UnicodeFold}.

Lemma compile_terms_ok terms seen out whole subs : compile_terms terms seen out = Ok (whole, subs) →
  seen ⊆ whole ∧ (∀ t, t ∈ out → t ∈ subs) ∧
  ∀ raw, raw ∈ terms → Skeleton raw ≠ [] ∧ whole !! Skeleton raw = Some (MkCompiledTerm (Skeleton raw) raw) ∧ MkCompiledTerm (Skeleton raw) raw ∈ subs.
Proof.
  revert seen out. induction terms as [|raw terms IH]; intros seen out; simpl.
  - intros [= <- <-]. split_and!; [done|done|]. by intros ? ?%not_elem_of_nil.
  - case_bool_decide as Hne; [done|]. destruct (seen !! Skeleton raw) eqn:Es; [done|]. intros H. destruct (IH _ _ H) as (Hsub & Hout & Hall).
    assert (∀ t, t ∈ out → t ∈ subs) as Hout' by (intros t Ht; apply Hout, elem_of_app; by left).
    split_and!; [|done|].
    + etransitivity; [|exact Hsub]. by apply insert_subseteq.
    + intros raw' [->|Hin]%elem_of_cons; [|by apply Hall]. split_and!; [done| |].
      * eapply lookup_weaken; [apply lookup_insert_eq|done].
      * apply Hout, elem_of_app. right. by apply list_elem_of_singleton.
Qed.

Lemma compile_lists_ok lists seen cs l : compile_lists lists seen = Ok cs → l ∈ lists →
  ∃ cl, cl ∈ cs ∧ cl_name cl = List_Name l ∧ cl_mode cl = List_Mode l ∧ (List_Mode l = MatchWholeSkeleton ∨ List_Mode l = MatchSubstring) ∧
    ∀ raw, raw ∈ List_Terms l → Skeleton raw ≠ [] ∧
      if bool_decide (List_Mode l = MatchWholeSkeleton) then is_Some (cl_whole cl !! Skeleton raw)
      else MkCompiledTerm (Skeleton raw) raw ∈ cl_substrings cl.
Proof.
  revert seen cs. induction lists as [|l0 lists IH]; intros seen cs; simpl; [intros _ []%not_elem_of_nil|].
  destruct (bool_decide (List_Name l0 = [])); [done|]. destruct (bool_decide (List_Name l0 ∈ seen)); [done|].
  destruct (negb (bool_decide (List_Mode l0 = MatchWholeSkeleton)) && negb (bool_decide (List_Mode l0 = MatchSubstring))) eqn:Em; [done|].
  destruct (compile_terms (List_Terms l0) ∅ []) as [[whole subs]|] eqn:Et; [|done].
  destruct (compile_lists lists _) as [cs'|] eqn:El; [|done]. intros [= <-] [->|Hl]%elem_of_cons.
  - eexists. split; [by left|]. apply compile_terms_ok in Et as (_ & _ & Hall).
    assert (List_Mode l0 = MatchWholeSkeleton ∨ List_Mode l0 = MatchSubstring) as Hmode.
    { apply andb_false_iff in Em as [Em|Em]; apply negb_false_iff, bool_decide_eq_true in Em; auto. }
    split_and!; [by case_match|by case_match|done|]. intros raw Hraw. destruct (Hall raw Hraw) as (? & Hwh & ?). split; [done|].
    destruct (bool_decide (List_Mode l0 = MatchWholeSkeleton)); simpl; [by eexists|done].
  - destruct (IH _ _ El Hl) as (cl & Hcl & Hrest). exists cl. split; [by right|done].
Qed.

(** Administration changes only the allowlist and the extra terms. *)
Inductive matcher_step : Matcher → Matcher → Prop :=
| step_SetAllowlist m entries e m' : SetAllowlist m entries = (e, m') → matcher_step m m'
| step_SetExtraTerms m terms e m' : SetExtraTerms m terms = (e, m') → matcher_step m m'.

Lemma matcher_step_lists m m' : steps matcher_step m m' → m_lists m' = m_lists m ∧ m_ready m' = m_ready m.
Proof.
  induction 1 as [|m1 m2 m3 H _ [IHl IHr]]; [done|]. rewrite IHl, IHr. destruct H as [m entries e m' H|m terms e m' H].
  - unfold SetAllowlist in H. destruct (m_ready m) eqn:Er; simpl in H; [destruct (compile_entries _ _)|]; by injection H as <- <-.
  - unfold SetExtraTerms in H. destruct (m_ready m) eqn:Er; simpl in H; [destruct (compile_terms _ _ _) as [[]|]|]; by injection H as <- <-.
Qed.

Lemma listed_word_refused lists m0 m l raw k op name c :
  NewMatcher lists = Ok m0 → steps matcher_step m0 m → l ∈ lists → raw ∈ List_Terms l →
  Forall2 (reads both) (Skeleton name) c →
  (if bool_decide (List_Mode l = MatchWholeSkeleton) then c = Skeleton raw else contains (Skeleton raw) c = true) →
  allowlisted m (Skeleton name) = None →
  Guard_Check (Some (Some m)) k op name ≠ None.
Proof.
  intros Hnew Hst Hl Hraw Hc Hhit Hallow. unfold NewMatcher in Hnew. destruct (compile_lists lists []) as [cs|] eqn:Ecs; [|done].
  injection Hnew as <-. destruct (matcher_step_lists _ _ Hst) as [Hlists Hready]. simpl in Hlists.
  destruct (compile_lists_ok _ _ _ _ Ecs Hl) as (cl & Hcl & _ & Hmode & Hok & Hall). destruct (Hall raw Hraw) as [_ Hterm].
  assert (listed m c) as Hlisted.
  { right. exists cl. rewrite Hlists, Hmode. split.
    - apply elem_of_app. rewrite !list_elem_of_filter, Hmode. destruct Hok; [left|right]; done.
    - destruct (bool_decide (List_Mode l = MatchWholeSkeleton)); [by rewrite Hhit|]. by eexists. }
  unfold Guard_Check. destruct (_ && _); [done|]. destruct (validateSyntax k name); [done|].
  destruct (Res_Allowed (Matcher_Check (Some m) name)) eqn:Ea; [exfalso|done]. apply Matcher_Check_iff in Ea as (m' & [= <-] & _ & _ & _ & H).
  destruct H as [[e He]|[_ H]]; [congruence|]. by apply (H c).
Qed.

(** Reserved words hold against every spelling.  Whatever an administrator has set
    since, the guard refuses any name that folds - through case, separators, look-alike
    letters and digits - to a form readable as a term of a whole-word list, or as one
    containing a term of a substring list; only an allowlist entry with the name's own
    skeleton lets it through. *)
Theorem reserved_words_refused lists m0 m l raw k op name c :
  NewMatcher lists = Ok m0 → steps matcher_step m0 m → l ∈ lists → raw ∈ List_Terms l →
  Forall2 (reads both) (Skeleton name) c →
  (if bool_decide (List_Mode l = MatchWholeSkeleton) then c = Skeleton raw else contains (Skeleton raw) c = true) →
  allowlisted m (Skeleton name) = None →
  Guard_Check (Some (Some m)) k op name ≠ None.
Proof. apply listed_word_refused. Qed.
End reserved.

(** ** Evaluating *)

Module FoldSample.
#[export] Instance plain : UnicodeFold :=
  {| nfkd := λ l, l; lower_above := λ r, r; Mn_above := λ _, false; Pd_above := λ _, false; Pc_above := λ _, false |}.
#[export] Instance plain_laws : UnicodeFoldLaws.
Proof. constructor. done. Qed.
Definition lists : list TermList := DefaultLists [go "forbidden"].
Definition matcher : result Matcher := NewMatcher lists.
End FoldSample.
#[local] Existing Instance FoldSample.plain.
#[local] Existing Instance FoldSample.plain_laws.

Example built_in_lists_compile : is_ok FoldSample.matcher = true.
Proof. vm_compute. reflexivity. Qed.

Lemma Skeleton_idempotent_witness : Skeleton (go "4d-M1n") = go "admin" ∧ Skeleton (Skeleton (go "4d-M1n")) = Skeleton (go "4d-M1n").
Proof. split; [vm_compute; reflexivity|]. apply Skeleton_idempotent. apply (bool_decide_unpack _). vm_compute. exact I. Defined.

(** "1ogin" folds to "iogin", which reads as "login". *)
Lemma reserved_words_refused_witness : ∃ m, FoldSample.matcher = Ok m ∧ Guard_Check (Some (Some m)) KindHandle OpCreate (go "1ogin") ≠ None.
Proof.
  assert (is_ok FoldSample.matcher = true) as H by (vm_compute; reflexivity).
  destruct FoldSample.matcher as [m|] eqn:E; [|discriminate]. exists m. split; [reflexivity|].
  assert (m_allow m = None) as Ha.
  { assert (match FoldSample.matcher with Ok m => m_allow m = None | Err _ => True end) as Hm by (vm_compute; reflexivity). by rewrite E in Hm. }
  apply (reserved_words_refused FoldSample.lists m m (MkTermList (go "routing") MatchWholeSkeleton routingTerms) (go "login")) with (c := go "login").
  - exact E.
  - apply steps_nil.
  - left.
  - apply (bool_decide_unpack _). vm_compute. exact I.
  - assert (Skeleton (go "1ogin") = go "iogin") as -> by (vm_compute; reflexivity).
    constructor; [right; vm_compute; left|]. repeat (constructor; [left; reflexivity|]). constructor.
  - vm_compute. reflexivity.
  - unfold allowlisted. by rewrite Ha.
Defined.
