(* ===== verification/Sha256.v ===== *)
(** * crypto/sha256 and crypto/hmac

    SHA-256 (FIPS 180-4) and HMAC-SHA256 (FIPS 198-1) as the code uses them, on byte
    lists, so that the token formats built on them can be evaluated.  Words are [Z]
    kept below [2^32]; the published test vectors are checked below. *)

From S2P Require Import Prelude GoLib.

Open Scope Z_scope.

Definition w32 (z : Z) : Z := Z.land z 0xFFFFFFFF.
Definition add32 (a b : Z) : Z := w32 (a + b).
Definition rotr (n x : Z) : Z := Z.lor (Z.shiftr x n) (w32 (Z.shiftl x (32 - n))).

Definition bsig0 (x : Z) : Z := Z.lxor (rotr 2 x) (Z.lxor (rotr 13 x) (rotr 22 x)).
Definition bsig1 (x : Z) : Z := Z.lxor (rotr 6 x) (Z.lxor (rotr 11 x) (rotr 25 x)).
Definition ssig0 (x : Z) : Z := Z.lxor (rotr 7 x) (Z.lxor (rotr 18 x) (Z.shiftr x 3)).
Definition ssig1 (x : Z) : Z := Z.lxor (rotr 17 x) (Z.lxor (rotr 19 x) (Z.shiftr x 10)).
Definition ch (x y z : Z) : Z := Z.lxor (Z.land x y) (Z.land (w32 (Z.lnot x)) z).
Definition maj (x y z : Z) : Z := Z.lxor (Z.land x y) (Z.lxor (Z.land x z) (Z.land y z)).

(** The constants, from their definition: the first 32 bits of the fractional parts
    of the cube (square) roots of the first 64 (8) primes. *)
Definition primes : list Z :=
  filter (λ n, forallb (λ d, negb (n mod d =? 0)) (seqZ 2 (n - 2)) = true) (seqZ 2 310).

(** The largest [r] below [2^35] whose cube is at most [n], bit by bit. *)
Definition cube_root (n : Z) : Z :=
  foldl (λ r i, let r' := r + 2 ^ (34 - Z.of_nat i) in if r' ^ 3 <=? n then r' else r) 0 (seq 0 35).

Definition round_constants : list Z := Eval vm_compute in (λ p, w32 (cube_root (p * 2 ^ 96))) <$> take 64 primes.
Definition initial_hash : list Z := Eval vm_compute in (λ p, w32 (Z.sqrt (p * 2 ^ 64))) <$> take 8 primes.

(** A word as four bytes and back, most significant first. *)
Definition word_bytes (x : Z) : bytes :=
  [byte_of (Z.shiftr x 24); byte_of (Z.shiftr x 16); byte_of (Z.shiftr x 8); byte_of x].
Fixpoint words (s : bytes) : list Z :=
  match s with
  | a :: b :: c :: d :: s' =>
      (byte_val a * 2 ^ 24 + byte_val b * 2 ^ 16 + byte_val c * 2 ^ 8 + byte_val d) :: words s'
  | _ => []
  end.

(** The message, a one bit, zeros and the bit length, a multiple of 64 bytes. *)
Definition pad (s : bytes) : bytes :=
  let n := length s in
  let bits := 8 * Z.of_nat n in
  s ++ byte_of 128 :: replicate ((119 - n mod 64) mod 64) (byte_of 0)
    ++ word_bytes (Z.shiftr bits 32) ++ word_bytes bits.

(** The message schedule, kept newest first: [w(t)] from the last sixteen. *)
Fixpoint schedule (n : nat) (ws : list Z) : list Z :=
  match n with
  | O => ws
  | S n =>
      let at_ i := default 0 (ws !! i) in
      let w := add32 (add32 (ssig1 (at_ 1%nat)) (at_ 6%nat)) (add32 (ssig0 (at_ 14%nat)) (at_ 15%nat)) in
      schedule n (w :: ws)
  end.

Definition round (st : list Z) (kw : Z * Z) : list Z :=
  match st with
  | [a; b; c; d; e; f; g; h] =>
      let t1 := add32 (add32 (add32 h (bsig1 e)) (add32 (ch e f g) (fst kw))) (snd kw) in
      let t2 := add32 (bsig0 a) (maj a b c) in
      [add32 t1 t2; a; b; c; add32 d t1; e; f; g]
  | _ => st
  end.

Definition compress (h : list Z) (block : list Z) : list Z :=
  let ws := rev (schedule 48 (rev block)) in
  zip_with add32 h (foldl round h (zip round_constants ws)).

Fixpoint blocks (fuel : nat) (ws : list Z) (h : list Z) : list Z :=
  match fuel, ws with
  | O, _ | _, [] => h
  | S fuel, _ => blocks fuel (drop 16 ws) (compress h (take 16 ws))
  end.

(** [sha256.Sum256] *)
Definition sha256 (s : bytes) : bytes :=
  let p := pad s in
  x ← blocks (length p) (words p) initial_hash; word_bytes x.

(** [hmac.New(sha256.New, key)] written [msg] and summed. *)
Definition hmac_sha256 (key msg : bytes) : bytes :=
  let key := if (64 <? length key)%nat then sha256 key else key in
  let key := key ++ replicate (64 - length key) (byte_of 0) in
  let xor_with v := (λ c, byte_of (Z.lxor (byte_val c) v)) <$> key in
  sha256 (xor_with 0x5c ++ sha256 (xor_with 0x36 ++ msg)).

(** The NIST examples and RFC 4231, case 2. *)
Example sha256_abc :
  hex_encode (sha256 (go "abc")) = go "ba7816bf8f01cfea414140de5dae2223b00361a396177a9cb410ff61f20015ad".
Proof. vm_compute. reflexivity. Qed.
Example sha256_two_blocks :
  hex_encode (sha256 (go "abcdbcdecdefdefgefghfghighijhijkijkljklmklmnlmnomnopnopq")) =
  go "248d6a61d20638b8e5c026930c3e6039a33ce45964ff2167f6ecedd419db06c1".
Proof. vm_compute. reflexivity. Qed.
Example hmac_rfc4231 :
  hex_encode (hmac_sha256 (go "Jefe") (go "what do ya want for nothing?")) =
  go "5bdcc146bf60754e6a042426089575c75a003f089d2739839dec58b964ec3843".
Proof. vm_compute. reflexivity. Qed.

Arguments sha256 : simpl never.
Arguments hmac_sha256 : simpl never.
