(* ===== verification/Tokens.v ===== *)
(** * Token formats: refresh tokens, signed access tokens, scope sets

    [internal/auth/token.go] and [accesstoken.go].  Random bytes are arguments
    ([crypto/rand] either fills the buffer or the process stops); SHA-256, HMAC,
    base64 and JSON are concrete, so tokens can be evaluated. *)

From stdpp Require Import pretty.
From S2P Require Import Prelude DomainErrors GoLib GoJson Domain Sha256.

Open Scope Z_scope.

(** src/internal/auth/errors.go:5-23, ErrAuthFailed *)
Definition ErrAuthFailed : goerror := errors_new "auth: authentication failed".

(** src/internal/auth/token.go:18-38, AccessTokenLifetime *)
Definition AccessTokenLifetime : duration := 15 * Minute.
Definition RefreshLineageLifetime : duration := 90 * 24 * Hour.

(** src/internal/auth/token.go:40-69, credentialIDBytes *)
Definition credentialIDBytes : Z := 16.
Definition refreshSecretBytes : Z := 32.
Definition credentialIDChars : Z := 22.
Definition MaxClientLabelLen : Z := 64.
Definition MaxScopes : Z := 32.

(** src/internal/auth/token.go:71-86, refreshTokenPrefix *)
Definition refreshTokenPrefix : gostring := go "svr_".
Definition accessTokenPrefix : gostring := go "sva_".
Definition tokenSeparator : ascii := byte_of 46.

(** src/internal/auth/token.go:106-109, newCredentialID *)
Definition newCredentialID (rnd : bytes) : gostring := rawurl_b64 rnd.

(** src/internal/auth/token.go:111-131, hashRefreshSecret *)
Definition hashRefreshSecret (secret : bytes) : bytes := sha256 secret.

(** src/internal/auth/token.go:133-144, secretMatches *)
Definition secretMatches (stored secret : bytes) : bool := bool_decide (stored = hashRefreshSecret secret).

(** src/internal/auth/token.go:146-155, formatRefreshToken *)
Definition formatRefreshToken (id : gostring) (secret : bytes) : gostring :=
  refreshTokenPrefix ++ id ++ [tokenSeparator] ++ rawurl_b64 secret.

(** src/internal/auth/token.go:157-184, parseRefreshToken *)
Definition parseRefreshToken (presented : gostring) : result (gostring * bytes) :=
  match cut_prefix refreshTokenPrefix presented with
  | None => Err ErrAuthFailed
  | Some body =>
      let '(idPart, secretPart, ok) := cut tokenSeparator body in
      if negb ok || contains [tokenSeparator] secretPart then Err ErrAuthFailed else
      if negb (len idPart =? credentialIDChars) then Err ErrAuthFailed else
      match rawurl_decode idPart with
      | None => Err ErrAuthFailed
      | Some _ =>
          match rawurl_decode secretPart with
          | None => Err ErrAuthFailed
          | Some secret =>
              if negb (len secret =? refreshSecretBytes) then Err ErrAuthFailed
              else Ok (idPart, secret)
          end
      end
  end.

(** src/internal/auth/token.go:250-256, resourceBinding *)
Definition resourceBinding (k : ScopeKind) : bool :=
  bool_decide (k = ScopeSingleSet) || bool_decide (k = ScopeSingleDevice).

(** The loop of [ValidateScopes]: [n] is the size of the whole set, [seen] the
    scopes before. *)
Fixpoint scopes_loop (n : nat) (scopes seen : list Scope) (bindings : Z) : result Z :=
  match scopes with
  | [] => Ok bindings
  | s :: scopes' =>
      match Scope_Validate s with
      | Some e => Err e
      | None =>
          if bool_decide (s ∈ seen) then Err (errorf "auth: duplicate scope" [ErrInvalidInput]) else
          if bool_decide (Scope_Kind s = ScopeFullOwner) && (1 <? n)%nat then
            Err (errorf "auth: scope kind must be the only scope in the set" [ErrInvalidInput]) else
          scopes_loop n scopes' (s :: seen)
            (if resourceBinding (Scope_Kind s) then bindings + 1 else bindings)
      end
  end.

(** src/internal/auth/token.go:186-248, ValidateScopes *)
Definition ValidateScopes (scopes : list Scope) : option goerror :=
  if bool_decide (scopes = []) then Some (errorf "auth: scope set must not be empty" [ErrInvalidInput]) else
  if MaxScopes <? Z.of_nat (length scopes) then
    Some (errorf "auth: scope set exceeds 32 entries" [ErrInvalidInput]) else
  match scopes_loop (length scopes) scopes [] 0 with
  | Err e => Some e
  | Ok bindings =>
      if 1 <? bindings then Some (errorf "auth: at most one resource binding per scope set" [ErrInvalidInput])
      else None
  end.

(** src/internal/auth/token.go:271-288, validateClientLabel *)
Definition validateClientLabel (label : gostring) : option goerror :=
  if MaxClientLabelLen <? len label then
    Some (errorf "auth: client label exceeds 64 bytes" [ErrInvalidInput]) else
  if negb (valid_utf8 label) then
    Some (errorf "auth: client label must be valid UTF-8" [ErrInvalidInput]) else
  if existsb (λ '(r, _), is_control r) (runes label) then
    Some (errorf "auth: client label must not contain control characters" [ErrInvalidInput])
  else None.

(** src/internal/auth/accesstoken.go:139-143, wireScope *)
Record wireScope := MkWireScope { ws_Kind : gostring; ws_Resource : gostring }.

(** src/internal/auth/accesstoken.go:127-137, accessClaims *)
Record accessClaims := MkClaims {
  cl_Ver : Z;
  cl_ID : gostring;
  cl_Owner : gostring;
  cl_Refresh : gostring;
  cl_Scopes : list wireScope;
  cl_IssuedAt : Z;
  cl_Expires : Z;
}.

(** [json.Marshal] of the claims, with the tags of the two types. *)
Definition scope_json (s : wireScope) : jvalue :=
  VObj ((go "k", VStr (ws_Kind s)) :: if bool_decide (ws_Resource s = []) then [] else [(go "r", VStr (ws_Resource s))]).
Definition claims_json (c : accessClaims) : jvalue :=
  VObj [(go "v", VNum (json_int (cl_Ver c))); (go "jti", VStr (cl_ID c)); (go "own", VStr (cl_Owner c)); (go "ref", VStr (cl_Refresh c));
        (go "scp", VArr (scope_json <$> cl_Scopes c)); (go "iat", VNum (json_int (cl_IssuedAt c))); (go "exp", VNum (json_int (cl_Expires c)))].
Definition marshal_claims (c : accessClaims) : gostring := print (claims_json c).

(** [json.NewDecoder(...)] with [DisallowUnknownFields], decoding into the claims. *)
Definition scope_fields : list (string * store wireScope) :=
  [("k", λ v s, x ← into_string v (ws_Kind s); Some (MkWireScope x (ws_Resource s)));
   ("r", λ v s, x ← into_string v (ws_Resource s); Some (MkWireScope (ws_Kind s) x))]%string.
Definition zero_claims : accessClaims := MkClaims 0 [] [] [] [] 0 0.
Definition claims_fields : list (string * store accessClaims) :=
  [("v", λ v c, x ← into_int64 v (cl_Ver c); Some (MkClaims x (cl_ID c) (cl_Owner c) (cl_Refresh c) (cl_Scopes c) (cl_IssuedAt c) (cl_Expires c)));
   ("jti", λ v c, x ← into_string v (cl_ID c); Some (MkClaims (cl_Ver c) x (cl_Owner c) (cl_Refresh c) (cl_Scopes c) (cl_IssuedAt c) (cl_Expires c)));
   ("own", λ v c, x ← into_string v (cl_Owner c); Some (MkClaims (cl_Ver c) (cl_ID c) x (cl_Refresh c) (cl_Scopes c) (cl_IssuedAt c) (cl_Expires c)));
   ("ref", λ v c, x ← into_string v (cl_Refresh c); Some (MkClaims (cl_Ver c) (cl_ID c) (cl_Owner c) x (cl_Scopes c) (cl_IssuedAt c) (cl_Expires c)));
   ("scp", λ v c, x ← into_list (MkWireScope [] []) (into_struct true scope_fields) v (cl_Scopes c);
                  Some (MkClaims (cl_Ver c) (cl_ID c) (cl_Owner c) (cl_Refresh c) x (cl_IssuedAt c) (cl_Expires c)));
   ("iat", λ v c, x ← into_int64 v (cl_IssuedAt c); Some (MkClaims (cl_Ver c) (cl_ID c) (cl_Owner c) (cl_Refresh c) (cl_Scopes c) x (cl_Expires c)));
   ("exp", λ v c, x ← into_int64 v (cl_Expires c); Some (MkClaims (cl_Ver c) (cl_ID c) (cl_Owner c) (cl_Refresh c) (cl_Scopes c) (cl_IssuedAt c) x))]%string.
Definition decode_claims (payload : bytes) : option accessClaims := fst <$> Decode (into_struct true claims_fields) payload zero_claims.

(** src/internal/auth/accesstoken.go:17-26, accessTokenVersion *)
Definition MinSigningKeyLen : Z := 32.
Definition accessTokenVersion : Z := 1.

(** src/internal/auth/accesstoken.go:28-68, AccessTokenSigner *)
Record AccessTokenSigner := MkSigner { signer_key : bytes }.

(** src/internal/auth/accesstoken.go:70-84, NewAccessTokenSigner *)
Definition NewAccessTokenSigner (key : bytes) : result AccessTokenSigner :=
  if len key <? MinSigningKeyLen then
    Err (errorf "auth: access token signing key must be at least 32 bytes" [ErrInvalidInput])
  else Ok (MkSigner key).

(** src/internal/auth/accesstoken.go:268-273, AccessTokenSigner.mac *)
Definition mac (s : AccessTokenSigner) (msg : bytes) : bytes := hmac_sha256 (signer_key s) msg.

Definition claims_of (tok : AccessToken) : accessClaims :=
  MkClaims accessTokenVersion (AccessToken_ID tok) (AccessToken_OwnerID tok) (AccessToken_RefreshCredentialID tok)
    ((λ s, MkWireScope (ScopeKind_string (Scope_Kind s)) (Scope_ResourceID s)) <$> AccessToken_Scopes tok)
    (time_unix (AccessToken_IssuedAt tok)) (time_unix (AccessToken_ExpiresAt tok)).

(** src/internal/auth/accesstoken.go:145-181, AccessTokenSigner.Issue
    ([json.Marshal] cannot fail on these types) *)
Definition signer_Issue (s : AccessTokenSigner) (tok : AccessToken) : result gostring :=
  if bool_decide (AccessToken_ID tok = []) || bool_decide (AccessToken_OwnerID tok = [])
     || bool_decide (AccessToken_RefreshCredentialID tok = []) then
    Err (errorf "auth: access token is missing an identifier" [ErrInvalidInput]) else
  guard_err (ValidateScopes (AccessToken_Scopes tok)) (
  if negb (time_before (AccessToken_IssuedAt tok) (AccessToken_ExpiresAt tok)) then
    Err (errorf "auth: access token expires at or before it is issued" [ErrInvalidInput]) else
  let encoded := rawurl_b64 (marshal_claims (claims_of tok)) in
  Ok (accessTokenPrefix ++ encoded ++ [tokenSeparator] ++ rawurl_b64 (mac s encoded))).

(** src/internal/auth/accesstoken.go:183-266, AccessTokenSigner.Verify *)
Definition signer_Verify (s : AccessTokenSigner) (presented : gostring) (now : time) : result AccessToken :=
  match cut_prefix accessTokenPrefix presented with
  | None => Err ErrAuthFailed
  | Some body =>
    let '(encoded, macPart, ok) := cut tokenSeparator body in
    if negb ok || contains [tokenSeparator] macPart then Err ErrAuthFailed else
    match rawurl_decode macPart with
    | None => Err ErrAuthFailed
    | Some presentedMAC =>
      if negb (bool_decide (presentedMAC = mac s encoded)) then Err ErrAuthFailed else
      match rawurl_decode encoded with
      | None => Err ErrAuthFailed
      | Some payload =>
        match decode_claims payload with
        | None => Err ErrAuthFailed
        | Some claims =>
          if negb (cl_Ver claims =? accessTokenVersion) then Err ErrAuthFailed else
          if bool_decide (cl_ID claims = []) || bool_decide (cl_Owner claims = [])
             || bool_decide (cl_Refresh claims = []) then Err ErrAuthFailed else
          let scopes := (λ ws, MkScope (ScopeKind_of (ws_Kind ws)) (ws_Resource ws)) <$> cl_Scopes claims in
          match ValidateScopes scopes with
          | Some _ => Err ErrAuthFailed
          | None =>
            let issued := unix_time (cl_IssuedAt claims) in
            let expires := unix_time (cl_Expires claims) in
            if time_before now issued || negb (time_before now expires) then Err ErrAuthFailed
            else Ok (MkAccessToken (cl_ID claims) (cl_Owner claims) (cl_Refresh claims) scopes issued expires)
          end
        end
      end
    end
  end.

(** ** Lemmas *)

Lemma rawurl_no_sep s : tokenSeparator ∉ rawurl_b64 s.
Proof.
  intros H. assert (Forall (λ c, c ≠ tokenSeparator) (rawurl_b64 s)) as Hall.
  { apply b64_encode_all; [|constructor]. intros v Hv E. apply (f_equal byte_val) in E. revert E.
    unfold b64_alphabet. rewrite byte_val_of. change (byte_val tokenSeparator) with 46.
    repeat case_match; reflect_bools; rewrite Z.mod_small; lia. }
  rewrite Forall_forall in Hall. by apply (Hall _ H).
Qed.

Lemma newCredentialID_len rnd : length rnd = 16%nat → len (newCredentialID rnd) = credentialIDChars.
Proof. intros H. do 16 (destruct rnd as [|? rnd]; [done|]). by destruct rnd. Qed.

(** What the loop over a scope set established when it ends. *)
Lemma scopes_loop_ok n scopes seen b b' : scopes_loop n scopes seen b = Ok b' →
  Forall (λ s, Scope_Validate s = None) scopes ∧ NoDup scopes ∧ (∀ s, s ∈ scopes → s ∉ seen) ∧
  (∀ s, s ∈ scopes → Scope_Kind s = ScopeFullOwner → (n ≤ 1)%nat) ∧
  b' = b + Z.of_nat (length (List.filter (λ s, resourceBinding (Scope_Kind s)) scopes)).
Proof.
  revert seen b. induction scopes as [|s scopes IH]; intros seen b; simpl.
  { intros [= <-]. split_and!; [by apply Forall_nil|by apply NoDup_nil|intros s Hs; by apply elem_of_nil in Hs..|simpl; lia]. }
  destruct (Scope_Validate s) eqn:Hv; [done|]. case_bool_decide as Hs; [done|].
  destruct (bool_decide (Scope_Kind s = ScopeFullOwner) && _) eqn:Hf; [done|].
  intros (Hall & Hnd & Hseen & Hfull & ->)%IH. split_and!.
  - by constructor.
  - constructor; [|done]. intros Hin. apply (Hseen s Hin). by left.
  - intros s' [->|Hin]%elem_of_cons; [done|]. intros Hin'. apply (Hseen s' Hin). by right.
  - intros s' [->|Hin]%elem_of_cons Hk; [|by eapply Hfull].
    rewrite bool_decide_eq_true_2 in Hf by done. apply Nat.ltb_ge in Hf. done.
  - destruct (resourceBinding (Scope_Kind s)); simpl; lia.
Qed.

(** A scope set the code accepts. *)
Record valid_scopes (scopes : list Scope) : Prop := {
  vs_nonempty : scopes ≠ [];
  vs_each : Forall (λ s, Scope_Validate s = None) scopes;
  vs_nodup : NoDup scopes;
  vs_full : ∀ s, s ∈ scopes → Scope_Kind s = ScopeFullOwner → scopes = [s];
  vs_bound : (length (List.filter (λ s, resourceBinding (Scope_Kind s)) scopes) ≤ 1)%nat;
}.

Lemma ValidateScopes_ok scopes : ValidateScopes scopes = None → valid_scopes scopes.
Proof.
  unfold ValidateScopes. case_bool_decide as Hne; [done|]. destruct (_ <? _); [done|].
  destruct (scopes_loop _ _ _ _) as [b|] eqn:Hl; [|done]. destruct (1 <? b) eqn:Hb; [done|]. intros _. reflect_bools.
  apply scopes_loop_ok in Hl as (Hall & Hnd & _ & Hfull & ->). split; try done; [|lia].
  intros s Hin Hk. specialize (Hfull s Hin Hk). destruct scopes as [|x [|y scopes]]; [done| |simpl in Hfull; lia].
  apply list_elem_of_singleton in Hin. by subst.
Qed.

Lemma Scope_Validate_kind s : Scope_Validate s = None → ScopeKind_IsValid (Scope_Kind s) = true.
Proof. unfold Scope_Validate. by destruct (ScopeKind_IsValid _). Qed.

(** Scopes survive their wire form. *)
Lemma wire_scopes scopes : ValidateScopes scopes = None →
  (λ ws, MkScope (ScopeKind_of (ws_Kind ws)) (ws_Resource ws)) <$>
    ((λ s, MkWireScope (ScopeKind_string (Scope_Kind s)) (Scope_ResourceID s)) <$> scopes) = scopes.
Proof.
  intros Hv%ValidateScopes_ok. destruct Hv as [_ Hall _ _ _].
  induction Hall as [|[k r] l Hs _ IH]; [done|]. rewrite !fmap_cons, IH. simpl. do 2 f_equal.
  apply Scope_Validate_kind in Hs. by apply ScopeKind_of_string.
Qed.

Lemma Issue_ok s tok t : signer_Issue s tok = Ok t →
  AccessToken_ID tok ≠ [] ∧ AccessToken_OwnerID tok ≠ [] ∧ AccessToken_RefreshCredentialID tok ≠ [] ∧
  ValidateScopes (AccessToken_Scopes tok) = None ∧ AccessToken_IssuedAt tok < AccessToken_ExpiresAt tok ∧
  let encoded := rawurl_b64 (marshal_claims (claims_of tok)) in
  t = accessTokenPrefix ++ encoded ++ tokenSeparator :: rawurl_b64 (mac s encoded).
Proof.
  unfold signer_Issue, guard_err. destruct (_ || _ || _) eqn:Hid; [done|].
  destruct (ValidateScopes _); [done|]. destruct (negb _) eqn:Ht; [done|]. intros. simplify_eq.
  unfold time_before in Ht. reflect_bools. repeat match goal with H : bool_decide _ = false |- _ => apply bool_decide_eq_false in H end.
  by split_and!.
Qed.

(** Claims that JSON can carry: text in UTF-8 and numbers that fit. *)
Definition carried (c : accessClaims) : Prop :=
  int64_range (cl_Ver c) ∧ valid_utf8 (cl_ID c) = true ∧ valid_utf8 (cl_Owner c) = true ∧ valid_utf8 (cl_Refresh c) = true ∧
  Forall (λ s, valid_utf8 (ws_Kind s) = true ∧ valid_utf8 (ws_Resource s) = true) (cl_Scopes c) ∧ int64_range (cl_IssuedAt c) ∧ int64_range (cl_Expires c).

Lemma scope_json_writable s : valid_utf8 (ws_Kind s) = true → valid_utf8 (ws_Resource s) = true → writable (scope_json s) ∧ depth (scope_json s) = 1%nat.
Proof. intros. unfold scope_json. by case_bool_decide; cbn. Qed.

Lemma scope_json_stored s : into_struct true scope_fields (scope_json s) (MkWireScope [] []) = Some s.
Proof. unfold scope_json. destruct s as [k r]. cbn [ws_Kind ws_Resource]. case_bool_decide as E; [subst r|]; store_struct; done. Qed.

(** Claims that are written are read back. *)
Lemma decode_marshal_claims c : carried c → decode_claims (marshal_claims c) = Some c.
Proof.
  intros (Hv & Hid & Ho & Hr & Hs & Hi & He). unfold decode_claims, Decode, marshal_claims.
  rewrite <- (app_nil_r (print _)), decode_print; [|..|done].
  - cbn [mbind option_bind]. unfold claims_json, json_int.
    store_struct with (first [rewrite Atoi_FormatInt by done | unfold into_list at 1; rewrite (mapM_print scope_json (into_struct true scope_fields)) by (intros; apply scope_json_stored)]).
    by destruct c.
  - cbn. split_and!; try done; try (by eexists). apply (writable_arr (scope_json <$> cl_Scopes c)). apply Forall_fmap. eapply Forall_impl; [exact Hs|].
    intros s [? ?]. by apply scope_json_writable.
  - cbn [depth claims_json foldr snd]. assert (foldr (λ v n, Nat.max (depth v) n) 0%nat (scope_json <$> cl_Scopes c) ≤ 1)%nat as H1.
    { clear -Hs. induction Hs as [|s l [? ?] _ IH]; cbn [fmap list_fmap foldr]; [lia|]. destruct (scope_json_writable s) as [_ ->]; [done..|]. lia. }
    unfold max_depth. lia.
Qed.

Lemma Verify_Issue s tok t now :
  carried (claims_of tok) → signer_Issue s tok = Ok t →
  signer_Verify s t now =
     let issued := unix_time (time_unix (AccessToken_IssuedAt tok)) in
     let expires := unix_time (time_unix (AccessToken_ExpiresAt tok)) in
     if (issued <=? now) && (now <? expires)
     then Ok (MkAccessToken (AccessToken_ID tok) (AccessToken_OwnerID tok) (AccessToken_RefreshCredentialID tok)
                (AccessToken_Scopes tok) issued expires)
     else Err ErrAuthFailed.
Proof.
  intros Hjson%decode_marshal_claims (H1 & H2 & H3 & Hsc & _ & ->)%Issue_ok. unfold signer_Verify. rewrite cut_prefix_app.
  rewrite cut_app by apply rawurl_no_sep. cbn [negb orb].
  rewrite (proj2 (contains_byte _ _)) by apply rawurl_no_sep. rewrite !rawurl_decode_encode.
  rewrite bool_decide_eq_true_2 by done. cbn [negb]. rewrite Hjson. cbn [cl_Ver cl_ID cl_Owner cl_Refresh cl_Scopes claims_of].
  rewrite !bool_decide_eq_false_2 by done. rewrite Z.eqb_refl. cbn [negb orb].
  rewrite wire_scopes, Hsc by done. cbn [cl_IssuedAt cl_Expires claims_of]. unfold time_before.
  rewrite Z.leb_antisym. by destruct (now <? _), (now <? _).
Qed.

Lemma Verify_sound s presented got now :
  signer_Verify s presented now = Ok got →
     (∃ encoded m, presented = accessTokenPrefix ++ encoded ++ tokenSeparator :: m ∧
        rawurl_decode m = Some (hmac_sha256 (signer_key s) encoded)) ∧
     ValidateScopes (AccessToken_Scopes got) = None ∧ AccessToken_OwnerID got ≠ [] ∧
     AccessToken_RefreshCredentialID got ≠ [] ∧
     AccessToken_IssuedAt got ≤ now < AccessToken_ExpiresAt got.
Proof.
  unfold signer_Verify. destruct (cut_prefix _ presented) as [body|] eqn:Hp; [|done].
  destruct (cut tokenSeparator body) as [[encoded m] ok] eqn:Hc. destruct ok; [|done].
  destruct (contains _ _); [done|]. cbn [negb orb]. destruct (rawurl_decode m) as [pm|] eqn:Hm; [|done].
  case_bool_decide as Hmac; [|done]. cbn [negb]. destruct (rawurl_decode encoded); [|done].
  destruct (decode_claims _) as [cl|]; [|done]. destruct (cl_Ver cl =? _); [|done]. cbn [negb].
  destruct (_ || _ || _) eqn:Hid; [done|]. destruct (ValidateScopes _) eqn:Hs; [done|].
  destruct (time_before now _ || _) eqn:Ht; [done|]. intros. simplify_eq. cbn [AccessToken_Scopes AccessToken_OwnerID AccessToken_RefreshCredentialID AccessToken_IssuedAt AccessToken_ExpiresAt].
  unfold time_before in Ht. reflect_bools. repeat match goal with H : bool_decide _ = false |- _ => apply bool_decide_eq_false in H end.
  split_and!; try done; try lia. exists encoded, m. split; [|by rewrite Hm].
  by rewrite (cut_prefix_sound _ _ _ Hp), (cut_sound _ _ _ _ Hc).
Qed.

(** ** Claims *)

(** A refresh token reads back as what it was made of: for every credential id
    drawn from 16 random bytes and every 32-byte secret. *)
Theorem refresh_token_roundtrip rnd secret : length rnd = 16%nat → length secret = 32%nat →
  parseRefreshToken (formatRefreshToken (newCredentialID rnd) secret) = Ok (newCredentialID rnd, secret).
Proof.
  intros Hr Hs. unfold parseRefreshToken, formatRefreshToken. rewrite cut_prefix_app. simpl app.
  rewrite cut_app by apply rawurl_no_sep. simpl.
  rewrite (proj2 (contains_byte _ _)) by apply rawurl_no_sep.
  rewrite newCredentialID_len by done. unfold newCredentialID. rewrite !rawurl_decode_encode. unfold len. by rewrite Hs.
Qed.

Lemma refresh_token_roundtrip_witness :
  parseRefreshToken (go "svr_MDEyMzQ1Njc4OWFiY2RlZg.MDEyMzQ1Njc4OWFiY2RlZjAxMjM0NTY3ODlhYmNkZWY") =
  Ok (go "MDEyMzQ1Njc4OWFiY2RlZg", go "0123456789abcdef0123456789abcdef").
Proof.
  exact (refresh_token_roundtrip (go "0123456789abcdef") (go "0123456789abcdef0123456789abcdef") eq_refl eq_refl).
Defined.

(** C6. Access tokens: what is issued verifies, and what verifies was signed.
    An issued token whose identifiers are text verifies exactly while the clock is in
    its validity interval, cut to whole seconds, and yields the issued fields.  Any accepted
    token carries the HMAC of its payload under the signer's key, a valid scope set,
    all its identifiers, and is inside the interval it states. *)
Theorem access_token_sound_complete s tok t presented got now :
  carried (claims_of tok) →
  signer_Issue s tok = Ok t →
  (signer_Verify s t now =
     let issued := unix_time (time_unix (AccessToken_IssuedAt tok)) in
     let expires := unix_time (time_unix (AccessToken_ExpiresAt tok)) in
     if (issued <=? now) && (now <? expires)
     then Ok (MkAccessToken (AccessToken_ID tok) (AccessToken_OwnerID tok) (AccessToken_RefreshCredentialID tok)
                (AccessToken_Scopes tok) issued expires)
     else Err ErrAuthFailed) ∧
  (signer_Verify s presented now = Ok got →
     (∃ encoded m, presented = accessTokenPrefix ++ encoded ++ tokenSeparator :: m ∧
        rawurl_decode m = Some (hmac_sha256 (signer_key s) encoded)) ∧
     ValidateScopes (AccessToken_Scopes got) = None ∧ AccessToken_OwnerID got ≠ [] ∧
     AccessToken_RefreshCredentialID got ≠ [] ∧
     AccessToken_IssuedAt got ≤ now < AccessToken_ExpiresAt got).
Proof.
  intros Hjson Hissue. split; [by apply Verify_Issue|apply Verify_sound].
Qed.

Definition sample_token : AccessToken :=
  MkAccessToken (go "tok") (go "owner") (go "cred") [MkScope ScopeSingleSet (go "web")] (10 * Second + 7) (910 * Second + 7).
Definition sample_signer : AccessTokenSigner := MkSigner (go "0123456789abcdef0123456789abcdef").

Lemma sample_carried : carried (claims_of sample_token).
Proof. repeat split; try (vm_compute; done). repeat constructor. Qed.

Lemma access_token_sound_complete_witness : ∃ t,
  signer_Issue sample_signer sample_token = Ok t ∧
  is_ok (signer_Verify sample_signer t (10 * Second)) = true ∧ signer_Verify sample_signer t (910 * Second) = Err ErrAuthFailed.
Proof.
  assert (is_ok (signer_Issue sample_signer sample_token) = true) as Hok by (vm_compute; reflexivity).
  destruct (signer_Issue sample_signer sample_token) as [t|] eqn:E; [|discriminate]. exists t. split; [reflexivity|]. split.
  - rewrite (proj1 (access_token_sound_complete _ _ _ [] sample_token (10 * Second) sample_carried E)). vm_compute. reflexivity.
  - rewrite (proj1 (access_token_sound_complete _ _ _ [] sample_token (910 * Second) sample_carried E)). vm_compute. reflexivity.
Defined.
