(* ===== verification/Authz.v ===== *)
(** * Authorization: the denylist and the guard

    [internal/auth/denylist.go] and [authorization.go].  The denylist is a client of
    the counter port, so its operations and theorems are over any [Store]; the guard
    decides a request from a verified access token, the denylist and the scopes. *)

From S2P Require Import Prelude DomainErrors Counter GoLib Domain Sha256 Tokens.

Open Scope Z_scope.

(** ** The denylist *)

(** src/internal/auth/denylist.go:13-27, DenylistSkew *)
Definition DenylistSkew : duration := Minute.

(** src/internal/auth/denylist.go:29-38, denylistKeyPrefix *)
Definition denylistKeyPrefix : gostring := go "vallet.auth.denylist.v1".
Definition denylistSubjectCredential : gostring := go "cred".

(** src/internal/auth/denylist.go:224-228, denylistEntryTTL *)
Definition denylistEntryTTL : duration := AccessTokenLifetime + DenylistSkew.

(** src/internal/auth/denylist.go:230-241, credentialKey *)
Definition credentialKey (id : gostring) : gostring :=
  rawurl_b64 (sha256 (denylistKeyPrefix ++ [byte_of 0] ++ denylistSubjectCredential ++ [byte_of 0] ++ id)).

Section Denylist.
Context {S : Type} `{!Store S}.

(** src/internal/auth/denylist.go:97-152, Denylist.Check
    ([tok] is never nil in the callers; [now] is the store's clock) *)
Definition denylist_Check (ctx : context) (now : time) (tok : AccessToken) (s : S) : option goerror * S :=
  if bool_decide (AccessToken_RefreshCredentialID tok = []) then (Some ErrAuthFailed, s) else
  match Get ctx now (credentialKey (AccessToken_RefreshCredentialID tok)) s with
  | (Err e, s) => (Some (errorf "auth: denylist unavailable" [e]), s)
  | (Ok got, s) => (if 0 <? Value got then Some ErrAuthFailed else None, s)
  end.

(** src/internal/auth/denylist.go:154-171, Denylist.RevokeCredential *)
Definition RevokeCredential (ctx : context) (now : time) (id : gostring) (s : S) : option goerror * S :=
  if bool_decide (id = []) then
    (Some (errorf "auth: empty refresh credential id" [ErrInvalidInput]), s) else
  match Increment ctx now (credentialKey id) 1 denylistEntryTTL s with
  | (Err e, s) => (Some (errorf "auth: listing refresh credential" [e]), s)
  | (Ok _, s) => (None, s)
  end.

(** src/internal/auth/denylist.go:173-222, Denylist.RevokeLineage
    ([clock i] is the store's clock at the [i]-th credential) *)
Fixpoint RevokeLineage (ctx : context) (clock : nat → time) (creds : list RefreshCredential) (now : time) (s : S)
    : option goerror * S :=
  match creds with
  | [] => (None, s)
  | c :: creds' =>
      let cutoff := time_add now (- denylistEntryTTL) in
      let next := RevokeLineage ctx (λ i, clock (Datatypes.S i)) creds' now in
      if negb (time_after (Cred_IssuedAt c) cutoff) then next s else
      if bool_decide (Cred_ID c = []) then
        (Some (errorf "auth: refresh credential with an empty id in lineage" [ErrInvalidInput]), s) else
      match RevokeCredential ctx (clock 0%nat) (Cred_ID c) s with
      | (Some e, s) => (Some e, s)
      | (None, s) => next s
      end
  end.
End Denylist.

(** ** The guard *)

(** src/internal/auth/authorization.go:15-32, ErrForbidden *)
Definition ErrForbidden : goerror := errors_new "auth: not authorized".

(** src/internal/auth/authorization.go:34-47, ResourceKind *)
Inductive ResourceKind := ResourceNone | ResourceKeySet | ResourceDevice | ResourceOther (s : gostring).

#[export] Instance ResourceKind_eq_dec : EqDecision ResourceKind.
Proof. solve_decision. Defined.

(** src/internal/auth/authorization.go:49-59, ResourceKind.isValid *)
Definition ResourceKind_isValid (k : ResourceKind) : bool :=
  match k with ResourceOther _ => false | _ => true end.

(** src/internal/auth/authorization.go:61-92, Access *)
Record Access := MkAccess {
  Acc_Owner : gostring;
  Acc_Resource : ResourceKind;
  Acc_ResourceID : gostring;
  Acc_Mutating : bool;
}.

(** src/internal/auth/authorization.go:94-105, Access.validate *)
Definition Access_validate (a : Access) : option goerror :=
  if negb (ResourceKind_isValid (Acc_Resource a)) then
    Some (errorf "auth: unknown resource kind" [ErrInvalidInput])
  else if negb (eqb (bool_decide (Acc_Resource a = ResourceNone)) (bool_decide (Acc_ResourceID a = []))) then
    Some (errorf "auth: resource kind and id must be set together" [ErrInvalidInput])
  else None.

(** src/internal/auth/authorization.go:107-145, Authorization *)
Record Authorization := MkAuthorization {
  Auth_owner : gostring;
  Auth_tokenID : gostring;
  Auth_credential : gostring;
  Auth_scopes : list Scope;
}.

(** src/internal/auth/authorization.go:484-489, constantTimeEqual *)
Definition constantTimeEqual (a b : gostring) : bool := bool_decide (a = b).

(** src/internal/auth/authorization.go:465-482, boundScopePermits *)
Definition boundScopePermits (s : Scope) (acc : Access) (want : ResourceKind) : bool :=
  if negb (bool_decide (Acc_Resource acc = want)) || bool_decide (Acc_ResourceID acc = [])
     || bool_decide (Scope_ResourceID s = []) then false
  else constantTimeEqual (Scope_ResourceID s) (Acc_ResourceID acc).

(** src/internal/auth/authorization.go:440-463, scopePermits *)
Definition scopePermits (s : Scope) (acc : Access) : bool :=
  match Scope_Kind s with
  | ScopeFullOwner => true
  | ScopeSingleSet => boundScopePermits s acc ResourceKeySet
  | ScopeSingleDevice => boundScopePermits s acc ResourceDevice
  | _ => false
  end.

Definition is_read_only (s : Scope) : bool := bool_decide (Scope_Kind s = ScopeReadOnly).

(** src/internal/auth/authorization.go:376-438, permitsAccess *)
Definition permitsAccess (scopes : list Scope) (acc : Access) : bool :=
  let readOnly := existsb is_read_only scopes in
  let grants := length (List.filter (λ s, negb (is_read_only s)) scopes) in
  if readOnly && Acc_Mutating acc then false
  else if readOnly && (grants =? 0)%nat then true
  else existsb (λ s, negb (is_read_only s) && scopePermits s acc) scopes.

Section Guard.
Context {S : Type} `{!Store S}.

(** src/internal/auth/authorization.go:321-374, Guard.decide *)
Definition decide_access (ctx : context) (clock : time) (tok : AccessToken) (acc : Access) (s : S)
    : option goerror * S :=
  if bool_decide (AccessToken_OwnerID tok = []) then (Some ErrAuthFailed, s) else
  match denylist_Check ctx clock tok s with
  | (Some _, s) => (Some ErrAuthFailed, s)
  | (None, s) =>
      if negb (bool_decide (Acc_Owner acc = [])) && negb (constantTimeEqual (Acc_Owner acc) (AccessToken_OwnerID tok))
      then (Some ErrForbidden, s)
      else if negb (permitsAccess (AccessToken_Scopes tok) acc) then (Some ErrForbidden, s)
      else (None, s)
  end.

(** src/internal/auth/authorization.go:273-319, Guard.Authorize *)
Definition Authorize (signer : AccessTokenSigner) (ctx : context) (clock : time) (presented : gostring) (acc : Access)
    (now : time) (s : S) : result Authorization * S :=
  match Access_validate acc with
  | Some _ => (Err ErrAuthFailed, s)
  | None =>
      match signer_Verify signer presented now with
      | Err _ => (Err ErrAuthFailed, s)
      | Ok tok =>
          match decide_access ctx clock tok acc s with
          | (Some e, s) => (Err e, s)
          | (None, s) =>
              (Ok (MkAuthorization (AccessToken_OwnerID tok) (AccessToken_ID tok)
                     (AccessToken_RefreshCredentialID tok) (AccessToken_Scopes tok)), s)
          end
      end
  end.
End Guard.

(** ** Lemmas on the denylist *)

Section DenylistLemmas.
Context {S : Type} `{!Store S, !StoreLaws S}.
Context (t x : time).                         (* the instant of a check; a deadline after it *)
Hypothesis before_deadline : t < x.

(** Any window of [k] at [u] reaches the deadline and has room for [n] more. *)
Definition fits (s : S) (u : time) (k : gostring) (n : Z) : Prop :=
  ∀ v y, live s u k = Some (v, y) → 0 ≤ v ∧ v + n ≤ int64_max ∧ x ≤ y.

(** [k] is listed as seen at [t]. *)
Definition listed (s : S) (k : gostring) (n : Z) : Prop :=
  ∃ v y, live s t k = Some (v, y) ∧ 0 < v ∧ v + n ≤ int64_max ∧ x ≤ y.

Lemma live_back (s : S) u k v y : u ≤ t → live s t k = Some (v, y) → live s u k = Some (v, y).
Proof.
  intros Hu H. rewrite (live_fixed s u t k Hu) in H. destruct (live s u k) as [e|]; [|done]. simpl in H.
  unfold shown_at in H. by case_match.
Qed.

Lemma live_later (s : S) u u' k v y : u ≤ u' → live s u' k = Some (v, y) → live s u k = Some (v, y).
Proof.
  intros Hu H. rewrite (live_fixed s u u' k Hu) in H. destruct (live s u k) as [e|]; [|done]. simpl in H.
  unfold shown_at in H. by case_match.
Qed.

Lemma wrap_room v n : 0 ≤ v → v + (n + 1) ≤ int64_max → 0 ≤ n → wrap64 (v + 1) = v + 1.
Proof. intros. apply wrap64_id. unfold int64_range, int64_min, int64_max in *. lia. Qed.

Context (ctx : context).

(** What one listing does: the key it lists, and every other key. *)
Lemma revoke_lists u id (s s' : S) n : 0 ≤ n → 1 + n ≤ int64_max → u ≤ t → x ≤ u + denylistEntryTTL →
  fits s u (credentialKey id) (n + 1) → RevokeCredential ctx u id s = (None, s') → listed s' (credentialKey id) n.
Proof.
  intros Hn Hmax Hu Hx Hfit. unfold RevokeCredential. case_bool_decide; [done|].
  destruct (Increment _ _ _ _ _ _) as [[c|e] s1] eqn:E; [|done]. intros. simplify_eq.
  apply Increment_law in E as (_ & _ & _ & Hlive). specialize (Hlive t (credentialKey id) Hu).
  rewrite decide_True in Hlive by done. unfold window_after, shown_at, time_before, time_add in Hlive.
  destruct (live s u (credentialKey id)) as [[v y]|] eqn:Hl; simpl in Hlive.
  - destruct (Hfit _ _ Hl) as (H1 & H2 & H3). rewrite (wrap_room v n) in Hlive by lia.
    rewrite (proj2 (Z.ltb_lt t y)) in Hlive by lia. eexists _, _. split; [exact Hlive|]. lia.
  - rewrite (wrap_room 0 n) in Hlive by lia. rewrite (proj2 (Z.ltb_lt t _)) in Hlive by lia.
    eexists _, _. split; [exact Hlive|]. lia.
Qed.

Lemma revoke_keeps_listed u id k (s s' : S) n : 0 ≤ n → u ≤ t →
  listed s k (n + 1) → RevokeCredential ctx u id s = (None, s') → listed s' k n.
Proof.
  intros Hn Hu (v & y & Hl & H1 & H2 & H3). unfold RevokeCredential. case_bool_decide; [done|].
  destruct (Increment _ _ _ _ _ _) as [[c|e] s1] eqn:E; [|done]. intros. simplify_eq.
  apply Increment_law in E as (_ & _ & _ & Hlive). specialize (Hlive t k Hu).
  destruct (decide (k = credentialKey id)) as [->|]; [|eexists v, y; rewrite Hlive; split; [done|lia]].
  rewrite (live_back _ _ _ _ _ Hu Hl) in Hlive. unfold window_after, shown_at, time_before in Hlive. simpl in Hlive.
  rewrite (wrap_room v n) in Hlive by lia. rewrite (proj2 (Z.ltb_lt t y)) in Hlive by lia.
  eexists _, _. split; [exact Hlive|]. lia.
Qed.

Lemma revoke_keeps_fits u u' id k (s s' : S) n : 0 ≤ n → 1 + n ≤ int64_max → u ≤ u' → x ≤ u + denylistEntryTTL →
  fits s u k (n + 1) → RevokeCredential ctx u id s = (None, s') → fits s' u' k n.
Proof.
  intros Hn Hmax Hu Hx Hfit. unfold RevokeCredential. case_bool_decide; [done|].
  destruct (Increment _ _ _ _ _ _) as [[c|e] s1] eqn:E; [|done]. intros. simplify_eq.
  apply Increment_law in E as (_ & _ & _ & Hlive). specialize (Hlive u' k Hu). intros v y Hv. rewrite Hlive in Hv.
  destruct (decide (k = credentialKey id)) as [->|].
  - unfold window_after, shown_at, time_add in Hv.
    destruct (live s u (credentialKey id)) as [[v0 y0]|] eqn:Hl; case_match; simplify_eq.
    + destruct (Hfit _ _ Hl) as (H1 & H2 & H3). rewrite (wrap_room v0 n) by lia. lia.
    + rewrite (wrap_room 0 n) by lia. lia.
  - apply (live_later _ u u') in Hv; [|done]. destruct (Hfit _ _ Hv) as (H1 & H2 & H3). lia.
Qed.

Lemma listed_less (s : S) k n m : m ≤ n → listed s k n → listed s k m.
Proof. intros Hm (v & y & ? & ? & ? & ?). exists v, y. split_and!; try done. lia. Qed.

Lemma fits_later (s : S) u u' k n m : u ≤ u' → m ≤ n → fits s u k n → fits s u' k m.
Proof.
  intros Hu Hm Hf v y Hv. apply (live_later _ u u') in Hv; [|done]. destruct (Hf _ _ Hv) as (? & ? & ?).
  split_and!; lia.
Qed.

(** The whole loop, for a key that is listed already or belongs to one of the
    credentials the cut-off keeps. *)
Lemma RevokeLineage_lists creds : ∀ clock now (s s' : S) n c,
  (∀ i j, (i ≤ j)%nat → clock i ≤ clock j) → (∀ i, x ≤ clock i + denylistEntryTTL) → (∀ i, clock i ≤ t) →
  Z.of_nat (length creds) ≤ n → n < int64_max →
  RevokeLineage ctx clock creds now s = (None, s') →
  (listed s (credentialKey (Cred_ID c)) n → listed s' (credentialKey (Cred_ID c)) 0) ∧
  (c ∈ creds → now - denylistEntryTTL < Cred_IssuedAt c → fits s (clock 0%nat) (credentialKey (Cred_ID c)) n →
     listed s' (credentialKey (Cred_ID c)) 0).
Proof.
  induction creds as [|c0 creds IH]; intros clock now s s' n c Hmono Hx Ht Hlen Hn; simpl in Hlen.
  { simpl. intros. simplify_eq. split; [apply listed_less; lia|]. intros Hin. by apply elem_of_nil in Hin. }
  set (clock' := λ i, clock (Datatypes.S i)).
  assert (∀ i j, (i ≤ j)%nat → clock' i ≤ clock' j) as Hmono' by (intros; apply Hmono; lia).
  cbn [RevokeLineage]. fold clock'. unfold time_after, time_add.
  destruct (negb _) eqn:Hcut.
  - intros E. destruct (IH clock' now s s' (n - 1) c Hmono' (λ i, Hx _) (λ i, Ht _) ltac:(lia) ltac:(lia) E) as [H1 H2].
    reflect_bools. split.
    + intros Hl. apply H1. by apply (listed_less _ _ n); [lia|].
    + intros [->|Hin]%elem_of_cons Hiss Hf; [lia|]. apply H2; try done.
      apply (fits_later _ (clock 0%nat) _ _ n); [by apply Hmono; lia|lia|done].
  - case_bool_decide; [done|]. destruct (RevokeCredential _ _ _ s) as [[e|] s1] eqn:Er; [done|]. intros E.
    destruct (IH clock' now s1 s' (n - 1) c Hmono' (λ i, Hx _) (λ i, Ht _) ltac:(lia) ltac:(lia) E) as [H1 H2].
    assert (n = (n - 1) + 1) as Hn1 by lia. split.
    + intros Hl. apply H1. eapply revoke_keeps_listed; [|apply Ht| |exact Er]; [lia|]. by rewrite <- Hn1.
    + intros [->|Hin]%elem_of_cons Hiss Hf.
      * apply H1. eapply revoke_lists; [| |apply Ht|apply Hx| |exact Er]; [lia..|]. by rewrite <- Hn1.
      * apply H2; try done. eapply revoke_keeps_fits; [| |by apply (Hmono 0%nat 1%nat); lia|apply Hx| |exact Er]; [lia..|].
        by rewrite <- Hn1.
Qed.
End DenylistLemmas.

(** ** Lemmas on scopes *)

Lemma existsb_false {A} (f : A → bool) l : existsb f l = false ↔ ∀ x, x ∈ l → f x = false.
Proof.
  rewrite <- not_true_iff_false, existsb_exists. split.
  - intros H x Hx. apply not_true_iff_false. intros Hf. apply H. exists x. by rewrite <- list_elem_of_In.
  - intros H (x & Hx & Hf). apply list_elem_of_In in Hx. rewrite H in Hf; done.
Qed.

(** The declarative reading of a scope set: what it may touch, and whether it may
    change it. *)
Definition may_reach (scopes : list Scope) (acc : Access) : Prop :=
  (∃ s, scopes = [s] ∧ Scope_Kind s = ScopeFullOwner) ∨
  (∃ s, scopes = [s] ∧ Scope_Kind s = ScopeReadOnly) ∨
  (∃ s, s ∈ scopes ∧ Scope_ResourceID s = Acc_ResourceID acc ∧
     (Scope_Kind s = ScopeSingleSet ∧ Acc_Resource acc = ResourceKeySet ∨
      Scope_Kind s = ScopeSingleDevice ∧ Acc_Resource acc = ResourceDevice)).

Lemma bound_id s : Scope_Validate s = None → resourceBinding (Scope_Kind s) = true → Scope_ResourceID s ≠ [].
Proof.
  unfold Scope_Validate. change (bindsResource (Scope_Kind s)) with (resourceBinding (Scope_Kind s)).
  destruct (ScopeKind_IsValid _); [|done]. intros H Hb. rewrite Hb in H. intros E.
  rewrite bool_decide_eq_true_2 in H by done. done.
Qed.

Lemma boundScopePermits_iff s acc want : Scope_ResourceID s ≠ [] →
  boundScopePermits s acc want = true ↔ Acc_Resource acc = want ∧ Scope_ResourceID s = Acc_ResourceID acc.
Proof.
  intros Hne. unfold boundScopePermits, constantTimeEqual. rewrite (bool_decide_eq_false_2 (Scope_ResourceID s = [])) by done.
  repeat case_bool_decide; simpl; split; try done; intros []; congruence.
Qed.

Lemma permits_grant scopes s acc : valid_scopes scopes → s ∈ scopes →
  (negb (is_read_only s) && scopePermits s acc = true ↔
   (scopes = [s] ∧ Scope_Kind s = ScopeFullOwner) ∨
   (Scope_ResourceID s = Acc_ResourceID acc ∧
     (Scope_Kind s = ScopeSingleSet ∧ Acc_Resource acc = ResourceKeySet ∨
      Scope_Kind s = ScopeSingleDevice ∧ Acc_Resource acc = ResourceDevice))).
Proof.
  intros [_ Hall _ Hfull _] Hin. rewrite Forall_forall in Hall. specialize (Hall s Hin).
  pose proof (bound_id s Hall) as Hid. pose proof (Hfull s Hin) as Hone. pose proof (Scope_Validate_kind s Hall) as Hk.
  unfold is_read_only, scopePermits, resourceBinding in *.
  destruct (Scope_Kind s) eqn:E; simpl in *; [| | | |done].
  - split; [|done]. intros _. left. split; [by apply Hone|done].
  - split; [done|]. by intros [[_ ?]|[_ [[? _]|[? _]]]].
  - rewrite boundScopePermits_iff by (by apply Hid). split; [|by intros [[_ ?]|[? [[_ ?]|[? _]]]]].
    intros [? ?]. right. split; [done|by left].
  - rewrite boundScopePermits_iff by (by apply Hid). split; [|by intros [[_ ?]|[? [[? _]|[_ ?]]]]].
    intros [? ?]. right. split; [done|by right].
Qed.

(** With a read-only scope in the set, what is left after it decides. *)
Lemma grants_zero scopes : (length (List.filter (λ s, negb (is_read_only s)) scopes) =? 0)%nat = true ↔
  ∀ s, s ∈ scopes → Scope_Kind s = ScopeReadOnly.
Proof.
  rewrite Nat.eqb_eq. induction scopes as [|s l IH]; simpl.
  - split; [|done]. intros _ s Hs. by apply elem_of_nil in Hs.
  - unfold is_read_only at 1. case_bool_decide as Hk; simpl.
    + rewrite IH. split; [|intros H s' Hs'; apply H; by right].
      intros H s' [->|Hs']%elem_of_cons; [done|by apply H].
    + split; [done|]. intros H. exfalso. apply Hk, H. by left.
Qed.

Lemma all_read_only scopes : valid_scopes scopes → (∀ s, s ∈ scopes → Scope_Kind s = ScopeReadOnly) →
  ∃ s, scopes = [s] ∧ Scope_Kind s = ScopeReadOnly.
Proof.
  intros [Hne Hall Hnd _ _] Hro. destruct scopes as [|a [|b l]]; [done|exists a; split; [done|by apply Hro; left]|].
  exfalso. assert (∀ s, s ∈ a :: b :: l → s = MkScope ScopeReadOnly []) as Heq.
  { intros s Hs. rewrite Forall_forall in Hall. specialize (Hall s Hs). specialize (Hro s Hs).
    destruct s as [k r]. simpl in Hro. subst k. unfold Scope_Validate in Hall. simpl in Hall.
    by destruct r. }
  apply NoDup_cons in Hnd as [Hn _]. apply Hn. rewrite (Heq a), (Heq b) by set_solver. by left.
Qed.

Lemma permits_read_only scopes r acc : valid_scopes scopes → r ∈ scopes → Scope_Kind r = ScopeReadOnly →
  (if (length (List.filter (λ s, negb (is_read_only s)) scopes) =? 0)%nat then true
   else existsb (λ s, negb (is_read_only s) && scopePermits s acc) scopes) = true ↔ may_reach scopes acc.
Proof.
  intros Hv Hr Hk. destruct (_ =? 0)%nat eqn:Hz.
  - rewrite grants_zero in Hz. split; [|done]. intros _. right; left. by apply all_read_only.
  - rewrite existsb_exists. split.
    + intros (s & Hs & Hp). apply list_elem_of_In in Hs. apply (permits_grant scopes s acc Hv Hs) in Hp.
      destruct Hp as [[-> Hf]|H]; [|right; right; by exists s].
      apply list_elem_of_singleton in Hr. congruence.
    + intros [(s & -> & Hf)|[(s & -> & Hf)|(s & Hs & H)]].
      * apply list_elem_of_singleton in Hr. congruence.
      * exfalso. apply not_true_iff_false in Hz. apply Hz, grants_zero. intros s' Hs'.
        apply list_elem_of_singleton in Hs'. congruence.
      * exists s. split; [by apply list_elem_of_In|]. apply (permits_grant scopes s acc Hv Hs). by right.
Qed.

(** ** Claims *)

(** C4. A revoked lineage is denied.  On any store that keeps the port's
    promises: once listing a lineage has succeeded, no access token of any of its
    credentials passes the denylist again before it expires -- also when the clocks
    of the service and of the store disagree by up to the skew allowance -- provided
    the credentials were issued before the revocation and an entry that was already
    there outlives the token. *)
Theorem revoked_lineage_denied {S} `{!Store S, !StoreLaws S} ctx ctx' clock creds c tok now t (s s' : S) :
  c ∈ creds → AccessToken_RefreshCredentialID tok = Cred_ID c →
  AccessToken_ExpiresAt tok ≤ Cred_IssuedAt c + AccessTokenLifetime → Cred_IssuedAt c ≤ now →
  (∀ i j, (i ≤ j)%nat → clock i ≤ clock j) → (∀ i, now - DenylistSkew ≤ clock i ≤ t) →
  t < AccessToken_ExpiresAt tok → Z.of_nat (length creds) < int64_max →
  (∀ v y, live s (clock 0%nat) (credentialKey (Cred_ID c)) = Some (v, y) →
     0 ≤ v ∧ v + Z.of_nat (length creds) ≤ int64_max ∧ AccessToken_ExpiresAt tok ≤ y) →
  RevokeLineage ctx clock creds now s = (None, s') →
  fst (denylist_Check ctx' t tok s') ≠ None.
Proof.
  intros Hin Hid Hexp Hiss Hmono Hclk Ht Hlen Hfit E.
  assert (denylistEntryTTL = AccessTokenLifetime + DenylistSkew) as HT by done.
  destruct (RevokeLineage_lists t (AccessToken_ExpiresAt tok) Ht ctx creds clock now s s' (Z.of_nat (length creds)) c)
    as [_ Hl]; [done|intros i; specialize (Hclk i); lia|intros i; specialize (Hclk i); lia|lia|done|done|].
  specialize (Hclk 0%nat). destruct Hl as (v & y & Hv & Hpos & _); [done|lia|done|].
  unfold denylist_Check. case_bool_decide; [done|]. rewrite Hid.
  destruct (Get _ _ _ s') as [[g|e] s2] eqn:Eg; [|done]. apply Get_law in Eg as [-> _]. rewrite Hv. simpl.
  by rewrite (proj2 (Z.ltb_lt 0 v)).
Qed.

(** What a scope set permits.  For every scope set the service can issue:
    [permitsAccess] allows an access exactly when the set is full-owner alone,
    read-only alone, or binds the very resource accessed -- kind and identifier --
    and no read-only scope is present or nothing would be changed. *)
Theorem permitsAccess_matrix scopes acc : ValidateScopes scopes = None →
  permitsAccess scopes acc = true ↔
  may_reach scopes acc ∧ (∀ s, s ∈ scopes → Scope_Kind s = ScopeReadOnly → Acc_Mutating acc = false).
Proof.
  intros Hv%ValidateScopes_ok. pose proof (permits_grant scopes) as Hg. unfold permitsAccess.
  destruct (existsb is_read_only scopes) eqn:Hro; simpl.
  - apply existsb_exists in Hro as (r & Hr & Hk). apply list_elem_of_In in Hr. apply bool_decide_eq_true in Hk.
    destruct (Acc_Mutating acc) eqn:Hm.
    { split; [done|]. intros [_ H]. by specialize (H r Hr Hk). }
    rewrite (permits_read_only scopes r acc Hv Hr Hk). split; [|tauto]. by intros.
  - rewrite existsb_false in Hro. rewrite existsb_exists. split.
    + intros (s & Hs & Hp). apply list_elem_of_In in Hs. apply (Hg s acc Hv Hs) in Hp. split.
      * destruct Hp as [[? ?]|[? ?]]; [left; eauto|right; right; eauto].
      * intros s' Hs' Hk. specialize (Hro s' Hs'). by apply bool_decide_eq_false in Hro.
    + intros [[(s & -> & Hk)|[(s & -> & Hk)|(s & Hs & Hr)]] _].
      * exists s. split; [by left|]. apply (Hg s acc Hv); [by left|]. by left.
      * assert (is_read_only s = false) as Hr by (apply Hro; by left). by apply bool_decide_eq_false in Hr.
      * exists s. split; [by apply list_elem_of_In|]. apply (Hg s acc Hv Hs). by right.
Qed.

Lemma permitsAccess_matrix_witness :
  let set_web := [MkScope ScopeReadOnly []; MkScope ScopeSingleSet (go "web")] in
  permitsAccess set_web (MkAccess (go "o") ResourceKeySet (go "web") false) = true ∧
  permitsAccess set_web (MkAccess (go "o") ResourceKeySet (go "web") true) ≠ true.
Proof.
  intros set_web. assert (ValidateScopes set_web = None) as Hv by (vm_compute; reflexivity). split.
  - apply (permitsAccess_matrix _ _ Hv). split.
    + right; right. exists (MkScope ScopeSingleSet (go "web")). split; [right; left|]. split; [reflexivity|left; split; reflexivity].
    + intros. reflexivity.
  - intros H. apply (permitsAccess_matrix _ _ Hv) in H as [_ H]. specialize (H (MkScope ScopeReadOnly [])).
    cbn in H. discriminate H; [left|reflexivity].
Defined.

(** C5. The guard.  An authorization is handed out only for a well-formed request
    whose token verified under the signer's key at that instant, whose credential the
    denylist answered to be unlisted, whose owner is the owner addressed, and whose
    scopes permit the access; it carries that token's owner and scopes.  Every refusal
    is one of two errors, and the one that says "not authorized" is given only to the
    bearer of a token that verified and is not listed. *)
Theorem Authorize_sound {S} `{!Store S} signer ctx clock presented acc now (s s' : S) r :
  Authorize signer ctx clock presented acc now s = (r, s') →
  match r with
  | Ok a => ∃ tok, signer_Verify signer presented now = Ok tok ∧
      fst (denylist_Check ctx clock tok s) = None ∧ Access_validate acc = None ∧
      (Acc_Owner acc = [] ∨ Acc_Owner acc = AccessToken_OwnerID tok) ∧ AccessToken_OwnerID tok ≠ [] ∧
      permitsAccess (AccessToken_Scopes tok) acc = true ∧
      a = MkAuthorization (AccessToken_OwnerID tok) (AccessToken_ID tok) (AccessToken_RefreshCredentialID tok)
            (AccessToken_Scopes tok)
  | Err e => e = ErrAuthFailed ∨
      (e = ErrForbidden ∧ ∃ tok, signer_Verify signer presented now = Ok tok ∧
         fst (denylist_Check ctx clock tok s) = None)
  end.
Proof.
  unfold Authorize, decide_access, constantTimeEqual. destruct (Access_validate acc) eqn:Hacc; [intros; simplify_eq; by left|].
  destruct (signer_Verify _ _ _) as [tok|] eqn:Hv; [|intros; simplify_eq; by left].
  case_bool_decide as Ho; [intros; simplify_eq; by left|].
  destruct (denylist_Check ctx clock tok s) as [[e|] s1] eqn:Hd; [intros; simplify_eq; by left|].
  destruct (_ && _) eqn:Hown; [intros; simplify_eq; right; split; [done|]; exists tok; by rewrite Hd|].
  destruct (permitsAccess _ acc) eqn:Hp; simpl; intros; simplify_eq;
    [|right; split; [done|]; exists tok; by rewrite Hd].
  exists tok. rewrite Hd. split_and!; try done. repeat case_bool_decide; auto; done.
Qed.

Lemma Authorize_sound_witness : ∃ t a,
  fst (Authorize sample_signer None 0 t (MkAccess (go "owner") ResourceKeySet (go "web") true)
         (20 * Second) (MkMemoryStore ∅ 0)) = Ok a ∧ Auth_owner a = go "owner".
Proof.
  assert (is_ok (signer_Issue sample_signer sample_token) = true) as Hok by (vm_compute; reflexivity).
  destruct (signer_Issue sample_signer sample_token) as [t|] eqn:E; [|discriminate].
  exists t. vm_compute in E. injection E as <-.
  destruct (Authorize sample_signer None 0 _ (MkAccess (go "owner") ResourceKeySet (go "web") true)
    (20 * Second) (MkMemoryStore ∅ 0)) as [r s'] eqn:EA.
  assert (is_ok r = true) as Hr by (replace r with (fst (r, s')) by reflexivity; rewrite <- EA; vm_compute; reflexivity).
  pose proof (Authorize_sound _ _ _ _ _ _ _ _ _ EA) as H. destruct r as [a|]; [|discriminate].
  exists a. split; [reflexivity|]. destruct H as (tok & Hv & _ & _ & [Ho|Ho] & _ & _ & ->); [discriminate|].
  simpl. symmetry. exact Ho.
Defined.

Lemma revoked_lineage_denied_witness :
  let c := MkRefreshCredential (go "cred") (go "owner") (go "cred") [] [] [] None 0 Hour CredentialStatusActive None in
  let tok := MkAccessToken (go "t") (go "owner") (go "cred") [] 0 AccessTokenLifetime in
  let s' := snd (RevokeLineage None (λ _, Minute) [c] Minute (MkMemoryStore ∅ 0)) in
  fst (denylist_Check None (2 * Minute) tok s') ≠ None.
Proof.
  intros c tok s'.
  assert (RevokeLineage None (λ _, Minute) [c] Minute (MkMemoryStore ∅ 0) = (None, s')) as E by (vm_compute; reflexivity).
  refine (revoked_lineage_denied None None (λ _, Minute) [c] c tok Minute (2 * Minute) _ s' _ _ _ _ _ _ _ _ _ E).
  - left.
  - reflexivity.
  - vm_compute. congruence.
  - vm_compute. congruence.
  - intros. vm_compute. congruence.
  - intros. vm_compute. split; congruence.
  - vm_compute. reflexivity.
  - vm_compute. reflexivity.
  - intros v y H. vm_compute in H. discriminate.
Defined.
