(* ===== verification/Database.v ===== *)
(** * Storage: the SQLite store, owners and refresh credentials

    [internal/storage/sqlite]: errors.go, store.go, owner.go and refreshcred.go.  A
    table is a map from primary keys to rows; a row is the domain value it decodes to
    (instants are stored with nanoseconds, scope sets as JSON text, both read back as
    written; [rotated_at] is written and never read, and is left out).  Every
    statement can fail: [faults] lists, statement by statement, the driver error it
    returns, if any.  Transactions take the write lock when they begin
    ([_txlock=immediate]), so a transaction is one step of the database. *)

From stdpp Require Import sorting.
From S2P Require Import Prelude DomainErrors GoLib Domain.

Open Scope Z_scope.

(** ** The driver *)

Inductive driver_error := ErrNoRows | UniqueViolation | Driver (e : goerror).

(** src/internal/storage/sqlite/errors.go:31-53, mapError *)
Definition mapError (e : driver_error) : goerror :=
  match e with
  | ErrNoRows => ErrNotFound
  | UniqueViolation => ErrConflict
  | Driver e => errorf "sqlite" [e]
  end.

(** A handle's row has two columns the entity has not: the name's skeleton and the
    version of the tables it was folded with. *)
Record HandleRow := MkHandleRow { hr_handle : Handle; hr_fold : gostring; hr_version : Z }.

(** The tables. *)
Record db := MkDb {
  owners : gmap gostring Owner;
  creds : gmap gostring RefreshCredential;
  pairings : gmap gostring DevicePairing;
  links : gmap gostring LinkedIdentity;
  handles : gmap gostring HandleRow;
  devices : gmap gostring Device;
  pubkeys : gmap gostring PublicKey;
  keysets : gmap gostring KeySet;
  members : gmap (gostring * gostring) KeySetMembership;
  accesskeys : gmap gostring AccessKey;
  audits : gmap gostring AuditRecord;
  salts : gmap gostring bytes;
  admins : gmap gostring Administrator;
  overrides : gmap (gostring * gostring) ListOverride;
}.

Definition empty_db : db := MkDb ∅ ∅ ∅ ∅ ∅ ∅ ∅ ∅ ∅ ∅ ∅ ∅ ∅ ∅.

(** One table replaced. *)
Definition set_owners f (d : db) : db :=
  MkDb (f (owners d)) (creds d) (pairings d) (links d) (handles d) (devices d) (pubkeys d) (keysets d) (members d) (accesskeys d) (audits d) (salts d) (admins d) (overrides d).
Definition set_creds f (d : db) : db :=
  MkDb (owners d) (f (creds d)) (pairings d) (links d) (handles d) (devices d) (pubkeys d) (keysets d) (members d) (accesskeys d) (audits d) (salts d) (admins d) (overrides d).
Definition set_pairings f (d : db) : db :=
  MkDb (owners d) (creds d) (f (pairings d)) (links d) (handles d) (devices d) (pubkeys d) (keysets d) (members d) (accesskeys d) (audits d) (salts d) (admins d) (overrides d).
Definition set_links f (d : db) : db :=
  MkDb (owners d) (creds d) (pairings d) (f (links d)) (handles d) (devices d) (pubkeys d) (keysets d) (members d) (accesskeys d) (audits d) (salts d) (admins d) (overrides d).
Definition set_handles f (d : db) : db :=
  MkDb (owners d) (creds d) (pairings d) (links d) (f (handles d)) (devices d) (pubkeys d) (keysets d) (members d) (accesskeys d) (audits d) (salts d) (admins d) (overrides d).
Definition set_devices f (d : db) : db :=
  MkDb (owners d) (creds d) (pairings d) (links d) (handles d) (f (devices d)) (pubkeys d) (keysets d) (members d) (accesskeys d) (audits d) (salts d) (admins d) (overrides d).
Definition set_pubkeys f (d : db) : db :=
  MkDb (owners d) (creds d) (pairings d) (links d) (handles d) (devices d) (f (pubkeys d)) (keysets d) (members d) (accesskeys d) (audits d) (salts d) (admins d) (overrides d).
Definition set_keysets f (d : db) : db :=
  MkDb (owners d) (creds d) (pairings d) (links d) (handles d) (devices d) (pubkeys d) (f (keysets d)) (members d) (accesskeys d) (audits d) (salts d) (admins d) (overrides d).
Definition set_members f (d : db) : db :=
  MkDb (owners d) (creds d) (pairings d) (links d) (handles d) (devices d) (pubkeys d) (keysets d) (f (members d)) (accesskeys d) (audits d) (salts d) (admins d) (overrides d).
Definition set_accesskeys f (d : db) : db :=
  MkDb (owners d) (creds d) (pairings d) (links d) (handles d) (devices d) (pubkeys d) (keysets d) (members d) (f (accesskeys d)) (audits d) (salts d) (admins d) (overrides d).
Definition set_audits f (d : db) : db :=
  MkDb (owners d) (creds d) (pairings d) (links d) (handles d) (devices d) (pubkeys d) (keysets d) (members d) (accesskeys d) (f (audits d)) (salts d) (admins d) (overrides d).
Definition set_salts f (d : db) : db :=
  MkDb (owners d) (creds d) (pairings d) (links d) (handles d) (devices d) (pubkeys d) (keysets d) (members d) (accesskeys d) (audits d) (f (salts d)) (admins d) (overrides d).
Definition set_admins f (d : db) : db :=
  MkDb (owners d) (creds d) (pairings d) (links d) (handles d) (devices d) (pubkeys d) (keysets d) (members d) (accesskeys d) (audits d) (salts d) (f (admins d)) (overrides d).
Definition set_overrides f (d : db) : db :=
  MkDb (owners d) (creds d) (pairings d) (links d) (handles d) (devices d) (pubkeys d) (keysets d) (members d) (accesskeys d) (audits d) (salts d) (admins d) (f (overrides d)).

Record conn := MkConn { data : db; faults : list (option goerror) }.

Open Scope stm_scope.

(** The next statement reaches the database, or fails. *)
Definition next_fault : stM conn unit := λ c,
  match faults c with
  | Some e :: fs => (Err (mapError (Driver e)), MkConn (data c) fs)
  | None :: fs => (Ok tt, MkConn (data c) fs)
  | [] => (Ok tt, c)
  end.

(** [QueryContext] and [QueryRowContext(...).Scan] *)
Definition query {A} (f : db → A) : stM conn A :=
  let! _ := next_fault in λ c, (Ok (f (data c)), c).
Definition query_row {A} (f : db → option A) : stM conn A :=
  let! _ := next_fault in
  λ c, match f (data c) with Some a => (Ok a, c) | None => (Err (mapError ErrNoRows), c) end.

(** [ExecContext]: the number of rows affected, or a constraint refused. *)
Definition exec (f : db → driver_error + (Z * db)) : stM conn Z :=
  let! _ := next_fault in
  λ c, match f (data c) with
       | inl e => (Err (mapError e), c)
       | inr (n, d) => (Ok n, MkConn d (faults c))
       end.

(** src/internal/storage/sqlite/store.go:70-106, Store.WithTx
    (the nesting test on the context is the caller's: the services never nest) *)
Definition WithTx {A} (fn : stM conn A) : stM conn A := λ c,
  match next_fault c with
  | (Err e, c) => (Err e, c)
  | (Ok _, c) =>
      match fn c with
      | (Err e, c') => (Err e, MkConn (data c) (faults c'))
      | (Ok a, c') =>
          match faults c' with
          | Some e :: fs => (Err (errorf "sqlite: commit transaction" [e]), MkConn (data c) fs)
          | None :: fs => (Ok a, MkConn (data c') fs)
          | [] => (Ok a, c')
          end
      end
  end.

(** [ORDER BY id]: bytes compare lexicographically. *)
Fixpoint bytes_le (a b : bytes) : bool :=
  match a, b with
  | [], _ => true
  | _ :: _, [] => false
  | x :: a', y :: b' => (byte_val x <? byte_val y) || (bool_decide (x = y) && bytes_le a' b')
  end.
Definition ordered_by {A} (le : A → A → bool) (l : list A) : list A := 
  @merge_sort _ (λ a b, le a b = true) (λ a b, decide (le a b = true)) l.

(** The rows of a table, with their keys. *)
Definition rows {A} (t : gmap gostring A) : list A := snd <$> map_to_list t.

(** src/internal/storage/sqlite/owner.go:153-166, requireAffected *)
Definition requireAffected (n : Z) : stM conn unit :=
  if n =? 0 then st_fail ErrNotFound else st_ret tt.

(** ** owners *)

(** src/internal/storage/sqlite/owner.go:27-45, ownerRepo.Create *)
Definition owner_Create (o : Owner) : stM conn unit :=
  let! _ := exec (λ d, match owners d !! Owner_ID o with
                       | Some _ => inl UniqueViolation
                       | None => inr (1, set_owners <[Owner_ID o := o]> d)
                       end) in st_ret tt.

(** src/internal/storage/sqlite/owner.go:47-53, ownerRepo.Get *)
Definition owner_Get (id : gostring) : stM conn Owner := query_row (λ d, owners d !! id).

(** src/internal/storage/sqlite/owner.go:55-64, ownerRepo.UpdateStatus *)
Definition owner_UpdateStatus (id : gostring) (status : OwnerStatus) (now : time) : stM conn unit :=
  let! n := exec (λ d, match owners d !! id with
                       | Some o => inr (1, set_owners <[id := MkOwner (Owner_ID o) status (Owner_CreatedAt o) now (Owner_DeletedAt o)]> d)
                       | None => inr (0, d)
                       end) in requireAffected n.

(** src/internal/storage/sqlite/owner.go:66-76, ownerRepo.SoftDelete *)
Definition owner_SoftDelete (id : gostring) (now : time) : stM conn unit :=
  let! n := exec (λ d, match owners d !! id with
                       | Some o => inr (1, set_owners <[id := MkOwner (Owner_ID o) (Owner_Status o) (Owner_CreatedAt o) now (Some now)]> d)
                       | None => inr (0, d)
                       end) in requireAffected n.

(** ** refresh_credentials *)

Definition set_status (st : CredentialStatus) (rev : option time) (c : RefreshCredential) : RefreshCredential :=
  MkRefreshCredential (Cred_ID c) (Cred_OwnerID c) (Cred_LineageID c) (Cred_SecretHash c) (Cred_Scopes c)
    (Cred_ClientLabel c) (Cred_RotatedFromID c) (Cred_IssuedAt c) (Cred_ExpiresAt c) st rev.

(** src/internal/storage/sqlite/refreshcred.go:40-72, refreshCredRepo.Create
    (the primary key and the reference to owners are enforced) *)
Definition cred_Create (c : RefreshCredential) : stM conn unit :=
  let! _ := exec (λ d, match creds d !! Cred_ID c, owners d !! Cred_OwnerID c with
                       | Some _, _ => inl UniqueViolation
                       | None, None => inl (Driver (errors_new "FOREIGN KEY constraint failed"))
                       | None, Some _ =>
                           if CredentialStatus_IsValid (Cred_Status c) then inr (1, set_creds <[Cred_ID c := c]> d)
                           else inl (Driver (errors_new "CHECK constraint failed"))
                       end) in st_ret tt.

(** src/internal/storage/sqlite/refreshcred.go:74-84, refreshCredRepo.GetByID *)
Definition cred_GetByID (id : gostring) : stM conn RefreshCredential := query_row (λ d, creds d !! id).

Definition owned_cred (ownerID id : gostring) (d : db) : option RefreshCredential :=
  match creds d !! id with
  | Some c => if bool_decide (Cred_OwnerID c = ownerID) then Some c else None
  | None => None
  end.

(** src/internal/storage/sqlite/refreshcred.go:86-92, refreshCredRepo.Get *)
Definition cred_Get (ownerID id : gostring) : stM conn RefreshCredential := query_row (owned_cred ownerID id).

Definition by_id (a b : RefreshCredential) : bool := bytes_le (Cred_ID a) (Cred_ID b).

(** src/internal/storage/sqlite/refreshcred.go:94-103, refreshCredRepo.ListByOwner *)
Definition cred_ListByOwner (ownerID : gostring) : stM conn (list RefreshCredential) :=
  query (λ d, ordered_by by_id (filter (λ c, Cred_OwnerID c = ownerID) (rows (creds d)))).

Definition in_lineage (ownerID lineageID : gostring) (c : RefreshCredential) : Prop :=
  Cred_OwnerID c = ownerID ∧ Cred_LineageID c = lineageID.

(** src/internal/storage/sqlite/refreshcred.go:105-117, refreshCredRepo.ListByLineage *)
Definition cred_ListByLineage (ownerID lineageID : gostring) : stM conn (list RefreshCredential) :=
  query (λ d, ordered_by by_id
    (filter (λ c, Cred_OwnerID c = ownerID ∧ Cred_LineageID c = lineageID) (rows (creds d)))).

(** src/internal/storage/sqlite/refreshcred.go:241-272, refreshCredRepo.classifyConditional *)
Definition classifyConditional (n : Z) (ownerID id : gostring) : stM conn unit :=
  if 0 <? n then st_ret tt else
  let! _ := query_row (owned_cred ownerID id) in st_fail ErrConflict.

(** src/internal/storage/sqlite/refreshcred.go:119-154, refreshCredRepo.MarkRotated *)
Definition cred_MarkRotated (ownerID id : gostring) (now : time) : stM conn unit :=
  let! n := exec (λ d, match owned_cred ownerID id d with
                       | Some c =>
                           if bool_decide (Cred_Status c = CredentialStatusActive)
                           then inr (1, set_creds <[id := set_status CredentialStatusRotated (Cred_RevokedAt c) c]> d)
                           else inr (0, d)
                       | None => inr (0, d)
                       end) in classifyConditional n ownerID id.

(** src/internal/storage/sqlite/refreshcred.go:156-178, refreshCredRepo.Revoke *)
Definition cred_Revoke (ownerID id : gostring) (now : time) : stM conn unit :=
  let! n := exec (λ d, match owned_cred ownerID id d with
                       | Some c => inr (1, set_creds <[id := set_status CredentialStatusRevoked (Some now) c]> d)
                       | None => inr (0, d)
                       end) in requireAffected n.

(** The rows of a lineage that are not revoked yet, revoked. *)
Definition revoke_row (ownerID lineageID : gostring) (now : time) (c : RefreshCredential) : RefreshCredential :=
  if bool_decide (Cred_OwnerID c = ownerID) && bool_decide (Cred_LineageID c = lineageID)
     && negb (bool_decide (Cred_Status c = CredentialStatusRevoked))
  then set_status CredentialStatusRevoked (Some now) c else c.

(** src/internal/storage/sqlite/refreshcred.go:180-207, refreshCredRepo.RevokeLineage *)
Definition cred_RevokeLineage (ownerID lineageID : gostring) (now : time) : stM conn Z :=
  exec (λ d, inr (Z.of_nat (length (filter (λ c, Cred_OwnerID c = ownerID ∧ Cred_LineageID c = lineageID ∧
                                              Cred_Status c ≠ CredentialStatusRevoked) (rows (creds d)))),
                  set_creds (fmap (revoke_row ownerID lineageID now)) d)).

Definition by_expiry (a b : RefreshCredential) : bool :=
  (Cred_ExpiresAt a <? Cred_ExpiresAt b) || ((Cred_ExpiresAt a =? Cred_ExpiresAt b) && by_id a b).

(** src/internal/storage/sqlite/refreshcred.go:209-229, refreshCredRepo.DeleteExpired *)
Definition cred_DeleteExpired (cutoff : time) (limit : Z) : stM conn Z :=
  if limit <=? 0 then st_fail (errorf "sqlite: delete limit must be positive" [ErrInvalidInput]) else
  exec (λ d,
    let doomed := Cred_ID <$> take (Z.to_nat limit)
                    (ordered_by by_expiry (filter (λ c, Cred_ExpiresAt c ≤ cutoff) (rows (creds d)))) in
    inr (Z.of_nat (length doomed), set_creds (filter (λ kc, kc.1 ∉ doomed)) d)).

Close Scope stm_scope.

(** ** What statements and transactions do to the data *)

Lemma next_fault_inv c r c' : next_fault c = (r, c') →
  data c' = data c ∧ (∀ e, r = Err e → ∃ d, e = mapError (Driver d)) ∧ (faults c = [] → r = Ok tt ∧ c' = c).
Proof.
  unfold next_fault. destruct (faults c) as [|[e|] fs]; intros; simplify_eq; split_and!; try done; naive_solver.
Qed.

Lemma query_row_inv {A} (f : db → option A) c r c' : query_row f c = (r, c') →
  data c' = data c ∧ (∀ a, r = Ok a → f (data c) = Some a) ∧
  (faults c = [] → c' = c ∧ r = match f (data c) with Some a => Ok a | None => Err ErrNotFound end).
Proof.
  unfold query_row, st_bind. destruct (next_fault c) as [[[]|e] c1] eqn:E;
    destruct (next_fault_inv _ _ _ E) as (Hd & _ & Hnf).
  - rewrite Hd. destruct (f (data c)) as [a|] eqn:Hf; intros; simplify_eq; split_and!; try done;
      try (intros Hfs; destruct (Hnf Hfs) as [_ ->]; done). intros; by simplify_eq.
  - intros. simplify_eq. split_and!; try done. intros Hfs. by destruct (Hnf Hfs).
Qed.

Lemma query_inv {A} (f : db → A) c r c' : query f c = (r, c') →
  data c' = data c ∧ (∀ a, r = Ok a → a = f (data c)) ∧ (faults c = [] → c' = c ∧ r = Ok (f (data c))).
Proof.
  unfold query, st_bind. destruct (next_fault c) as [[[]|e] c1] eqn:E;
    destruct (next_fault_inv _ _ _ E) as (Hd & _ & Hnf); intros; simplify_eq; rewrite ?Hd.
  - split_and!; [done|intros; by simplify_eq|]. intros Hfs. by destruct (Hnf Hfs) as [_ ->].
  - split_and!; try done. intros Hfs. by destruct (Hnf Hfs).
Qed.

Lemma exec_inv f c r c' : exec f c = (r, c') →
  ((∃ n d, r = Ok n ∧ f (data c) = inr (n, d) ∧ data c' = d) ∨ (∃ e, r = Err e ∧ data c' = data c)) ∧
  (faults c = [] → faults c' = [] ∧ (∀ n d, f (data c) = inr (n, d) → r = Ok n ∧ data c' = d)).
Proof.
  unfold exec, st_bind. destruct (next_fault c) as [[[]|e] c1] eqn:E;
    destruct (next_fault_inv _ _ _ E) as (Hd & _ & Hnf).
  - rewrite Hd. destruct (f (data c)) as [e|[n d]] eqn:Hf; intros; simplify_eq; simpl; (split; [eauto 8|]);
      intros Hfs; destruct (Hnf Hfs) as [_ ->]; split; try done; intros; by simplify_eq.
  - intros. simplify_eq. split; [eauto 8|]. intros Hfs. by destruct (Hnf Hfs).
Qed.

(** A transaction that fails leaves the data as it was; one that succeeds leaves
    what its body made of it. *)
Lemma WithTx_inv {A} (fn : stM conn A) c r c' : WithTx fn c = (r, c') →
  (is_ok r = false ∧ data c' = data c) ∨
  (∃ a c0 c1, r = Ok a ∧ data c0 = data c ∧ fn c0 = (Ok a, c1) ∧ data c' = data c1).
Proof.
  unfold WithTx. destruct (next_fault c) as [[[]|e] c0] eqn:E; destruct (next_fault_inv _ _ _ E) as (Hd & _);
    [|intros; simplify_eq; by left].
  destruct (fn c0) as [[a|e] c1] eqn:Ef; [|intros; simplify_eq; by left].
  destruct (faults c1) as [|[e|] fs]; intros; simplify_eq; [right|by left|right]; by eexists a, c0, _.
Qed.

Lemma WithTx_no_faults {A} (fn : stM conn A) c : faults c = [] →
  ∀ a c1, fn c = (Ok a, c1) → faults c1 = [] → WithTx fn c = (Ok a, c1).
Proof. intros Hf a c1 E H1. unfold WithTx, next_fault. rewrite Hf, E, H1. done. Qed.

Lemma elem_of_rows {A} (t : gmap gostring A) a : a ∈ rows t ↔ ∃ k, t !! k = Some a.
Proof.
  unfold rows. rewrite list_elem_of_fmap. split.
  - intros ([k v] & -> & H). exists k. by apply elem_of_map_to_list in H.
  - intros [k H]. exists (k, a). by rewrite elem_of_map_to_list.
Qed.

Lemma elem_of_ordered {A} (le : A → A → bool) l a : a ∈ ordered_by le l ↔ a ∈ l.
Proof. unfold ordered_by. by rewrite merge_sort_Permutation. Qed.

(** Rows are stored under their own id. *)
Definition keyed {A} (id_of : A → gostring) (t : gmap gostring A) : Prop := ∀ id a, t !! id = Some a → id_of a = id.

Lemma keyed_ids {A} (id_of : A → gostring) (t : gmap gostring A) : keyed id_of t → id_of <$> rows t = fst <$> map_to_list t.
Proof.
  intros Hk. unfold rows. rewrite <- list_fmap_compose. apply list_fmap_ext. intros i [k a] Hi. simpl. apply Hk.
  apply elem_of_map_to_list. by eapply list_elem_of_lookup_2.
Qed.

Lemma keyed_NoDup {A} (id_of : A → gostring) (t : gmap gostring A) : keyed id_of t → NoDup (id_of <$> rows t).
Proof. intros Hk. rewrite keyed_ids by done. apply NoDup_fst_map_to_list. Qed.

Lemma keyed_eq {A} (id_of : A → gostring) (t : gmap gostring A) a b : keyed id_of t → a ∈ rows t → b ∈ rows t → id_of a = id_of b → a = b.
Proof. intros Hk [i Ha]%elem_of_rows [j Hb]%elem_of_rows E. rewrite (Hk _ _ Ha), (Hk _ _ Hb) in E. congruence. Qed.

(** ** Ordered results *)

Lemma bytes_le_refl a : bytes_le a a = true.
Proof. induction a as [|x a IH]; simpl; [done|]. rewrite bool_decide_eq_true_2, IH by done. by rewrite orb_true_r. Qed.

Lemma bytes_le_cons x a y b : bytes_le (x :: a) (y :: b) = true ↔
  byte_val x < byte_val y ∨ (x = y ∧ bytes_le a b = true).
Proof. simpl. by rewrite orb_true_iff, andb_true_iff, Z.ltb_lt, bool_decide_eq_true. Qed.

Lemma bytes_le_trans a b c : bytes_le a b = true → bytes_le b c = true → bytes_le a c = true.
Proof.
  revert b c. induction a as [|x a IH]; intros [|y b] [|z c]; try done. rewrite !bytes_le_cons.
  intros [H1|[-> H1]] [H2|[-> H2]]; [left; lia|by left|by left|]. right. split; [done|]. by eapply IH.
Qed.

Lemma bytes_le_total a b : bytes_le a b = false → bytes_le b a = true ∧ a ≠ b.
Proof.
  revert b. induction a as [|x a IH]; intros [|y b]; simpl; try done.
  intros [H1 H2]%orb_false_iff. apply Z.ltb_ge in H1.
  destruct (decide (x = y)) as [->|Hxy].
  - rewrite bool_decide_eq_true_2 in H2 by done. simpl in H2. apply IH in H2 as [H2 Hne].
    rewrite (bool_decide_eq_true_2 (y = y)), H2 by done. split; [by rewrite orb_true_r|congruence].
  - split; [|congruence]. apply orb_true_iff. left. apply Z.ltb_lt.
    assert (byte_val x ≠ byte_val y) by (by intros ?%byte_val_inj). lia.
Qed.

Lemma bytes_le_antisym a b : bytes_le a b = true → bytes_le b a = true → a = b.
Proof.
  revert b. induction a as [|x a IH]; intros [|y b]; try done. rewrite !bytes_le_cons.
  intros [H1|[-> H1]] [H2|[E H2]]; [lia|subst; lia|lia|]. f_equal. by apply IH.
Qed.

Lemma StronglySorted_filter {A} (R : A → A → Prop) (P : A → Prop) `{!∀ x, Decision (P x)} l : StronglySorted R l → StronglySorted R (filter P l).
Proof.
  induction 1 as [|a l _ IH Ha]; [constructor|]. rewrite filter_cons. case_decide; [|done]. constructor; [done|].
  rewrite Forall_forall in Ha |- *. intros x [_ Hx]%list_elem_of_filter. by apply Ha.
Qed.

(** A result set in a total order: the rows it is made of determine it. *)
Record total_order {A} (le : A → A → bool) (l : list A) : Prop := MkTotalOrder {
  to_trans : ∀ a b c, le a b = true → le b c = true → le a c = true;
  to_total : ∀ a b, le a b = true ∨ le b a = true;
  to_antisym : ∀ a b, a ∈ l → b ∈ l → le a b = true → le b a = true → a = b;
}.

Lemma ordered_sorted {A} (le : A → A → bool) l l' : total_order le l → StronglySorted (λ a b, le a b = true) (ordered_by le l').
Proof.
  intros [Ht Hc _]. unfold ordered_by. apply StronglySorted_merge_sort; [intros a b c; apply Ht|intros a b; apply Hc].
Qed.

Lemma ordered_unique {A} (le : A → A → bool) l l' : total_order le l → l' ≡ₚ l → StronglySorted (λ a b, le a b = true) l' → ordered_by le l = l'.
Proof.
  intros Hto Hp Hs. eapply StronglySorted_unique_strong; [|by eapply ordered_sorted|exact Hs|].
  - intros a b Ha Hb. apply (to_antisym _ _ Hto); [by apply elem_of_ordered in Ha|by rewrite <- Hp].
  - unfold ordered_by. by rewrite merge_sort_Permutation.
Qed.

Lemma ordered_filter {A} (le : A → A → bool) (P : A → Prop) `{!∀ x, Decision (P x)} l : total_order le l →
  ordered_by le (filter P l) = filter P (ordered_by le l).
Proof.
  intros Hto. apply ordered_unique.
  - destruct Hto as [H1 H2 H3]. constructor; try done. intros a b [_ Ha]%list_elem_of_filter [_ Hb]%list_elem_of_filter. by apply H3.
  - unfold ordered_by. by rewrite merge_sort_Permutation.
  - apply StronglySorted_filter. by eapply ordered_sorted.
Qed.

(** ** Calls that only read *)

Definition quiet {A} (m : stM conn A) : Prop := ∀ c r c', m c = (r, c') → data c' = data c.

Lemma quiet_ret {A} (a : A) : quiet (st_ret a).
Proof. intros c r c' H. unfold st_ret in H. by simplify_eq. Qed.
Lemma quiet_fail {A} e : quiet (@st_fail conn A e).
Proof. intros c r c' H. unfold st_fail in H. by simplify_eq. Qed.
Lemma quiet_query {A} (f : db → A) : quiet (query f).
Proof. intros c r c' H. by apply query_inv in H as [? _]. Qed.
Lemma quiet_query_row {A} (f : db → option A) : quiet (query_row f).
Proof. intros c r c' H. by apply query_row_inv in H as [? _]. Qed.
Lemma quiet_bind {A B} (m : stM conn A) (f : A → stM conn B) : quiet m → (∀ a, quiet (f a)) → quiet (st_bind m f).
Proof.
  intros Hm Hf c r c' H. unfold st_bind in H. destruct (m c) as [[a|e] c1] eqn:E; rewrite <- (Hm _ _ _ E).
  - by eapply Hf.
  - by simplify_eq.
Qed.
Lemma quiet_try {A B} (m : stM conn A) (f : result A → stM conn B) : quiet m → (∀ a, quiet (f a)) → quiet (st_try m f).
Proof.
  intros Hm Hf c r c' H. unfold st_try in H. destruct (m c) as [x c1] eqn:E. rewrite <- (Hm _ _ _ E). by eapply Hf.
Qed.

Create HintDb quiet.
#[export] Hint Resolve quiet_ret quiet_fail quiet_query quiet_query_row : quiet.
#[export] Hint Extern 2 (quiet (st_bind _ _)) => apply quiet_bind; [|intros ?] : quiet.
#[export] Hint Extern 2 (quiet (st_try _ _)) => apply quiet_try; [|intros ?] : quiet.
#[export] Hint Extern 3 (quiet _) => case_match : quiet.
