(* ===== verification/StoreLogic.v ===== *)
(** * A program logic for code over the store

    Weakest preconditions for the state-passing programs of [Database]: [wp calm m d Q]
    says that [m], run on any connection holding the tables [d], ends with a result
    and tables that satisfy [Q] - whichever statements the driver fails, or, when
    [calm] is true, on a connection where no statement fails.  One rule per construct;
    the tactic [wp_go] applies them.  Services are specified and verified with it. *)

From S2P Require Import Prelude DomainErrors GoLib Domain Database.

Open Scope Z_scope.

Definition wp {A} (calm : bool) (m : stM conn A) (d : db) (Q : result A → db → Prop) : Prop :=
  ∀ c r c', data c = d → (calm = true → faults c = []) → m c = (r, c') →
    Q r (data c') ∧ (calm = true → faults c' = []).

(** The error a failing statement is reported as. *)
Abbreviation fault e := (mapError (Driver e)).

Lemma wp_mono {A} b (m : stM conn A) d (Q Q' : result A → db → Prop) :
  wp b m d Q → (∀ r d', Q r d' → Q' r d') → wp b m d Q'.
Proof. intros H HQ c r c' Hd Hf E. destruct (H _ _ _ Hd Hf E). eauto. Qed.

(** What holds whichever statements fail also holds when none does. *)
Lemma wp_calm {A} b (m : stM conn A) d Q Q' : wp false m d Q → wp b m d Q' → wp b m d (λ r d', Q r d' ∧ Q' r d').
Proof.
  intros H H' c r c' Hd Hf E. destruct (H' _ _ _ Hd Hf E) as [HQ' Hc]. destruct (H c r c' Hd ltac:(done) E) as [HQ _]. done.
Qed.

Lemma wp_ret {A} b (a : A) d Q : Q (Ok a) d → wp b (st_ret a) d Q.
Proof. intros H c r c' <- Hf E. unfold st_ret in E. simplify_eq. done. Qed.

Lemma wp_fail {A} b e d (Q : result A → db → Prop) : Q (Err e) d → wp b (st_fail e) d Q.
Proof. intros H c r c' <- Hf E. unfold st_fail in E. simplify_eq. done. Qed.

Lemma wp_bind {A B} b (m : stM conn A) (f : A → stM conn B) d Q :
  wp b m d (λ r d', match r with Ok a => wp b (f a) d' Q | Err e => Q (Err e) d' end) → wp b (st_bind m f) d Q.
Proof.
  intros H c r c' Hd Hf E. unfold st_bind in E. destruct (m c) as [[a|e] c1] eqn:Em;
    destruct (H _ _ _ Hd Hf Em) as [H1 Hf1]; [by apply (H1 _ _ _ eq_refl Hf1 E)|by simplify_eq].
Qed.

Lemma wp_try {A B} b (m : stM conn A) (f : result A → stM conn B) d Q :
  wp b m d (λ r d', wp b (f r) d' Q) → wp b (st_try m f) d Q.
Proof.
  intros H c r c' Hd Hf E. unfold st_try in E. destruct (m c) as [x c1] eqn:Em.
  destruct (H _ _ _ Hd Hf Em) as [H1 Hf1]. by apply (H1 _ _ _ eq_refl Hf1 E).
Qed.

Lemma wp_next_fault b d Q : (∀ e, b = false → Q (Err (fault e)) d) → Q (Ok tt) d → wp b next_fault d Q.
Proof.
  intros He H c r c' <- Hf E. unfold next_fault in E. destruct (faults c) as [|[e|] fs] eqn:Efs; simplify_eq; simpl.
  - done.
  - destruct b; [by specialize (Hf eq_refl)|]. split; [by apply He|done].
  - destruct b; [by specialize (Hf eq_refl)|]. done.
Qed.

Lemma wp_query {A} b (f : db → A) d Q : (∀ e, b = false → Q (Err (fault e)) d) → Q (Ok (f d)) d → wp b (query f) d Q.
Proof.
  intros He H. unfold query. apply wp_bind, wp_next_fault; [done|]. intros c r c' <- Hf E. by simplify_eq.
Qed.

Lemma wp_query_row {A} b (f : db → option A) d Q :
  (∀ e, b = false → Q (Err (fault e)) d) →
  match f d with Some a => Q (Ok a) d | None => Q (Err ErrNotFound) d end → wp b (query_row f) d Q.
Proof.
  intros He H. unfold query_row. apply wp_bind, wp_next_fault; [done|]. intros c r c' <- Hf E.
  destruct (f (data c)); by simplify_eq.
Qed.

Lemma wp_exec b (f : db → driver_error + (Z * db)) d Q :
  (∀ e, b = false → Q (Err (fault e)) d) →
  match f d with inl e => Q (Err (mapError e)) d | inr (n, d') => Q (Ok n) d' end → wp b (exec f) d Q.
Proof.
  intros He H. unfold exec. apply wp_bind, wp_next_fault; [done|]. intros c r c' <- Hf E.
  destruct (f (data c)) as [e|[n d']]; by simplify_eq.
Qed.

Lemma wp_requireAffected b n d Q : (n = 0 → Q (Err ErrNotFound) d) → (n ≠ 0 → Q (Ok tt) d) → wp b (requireAffected n) d Q.
Proof.
  intros H0 H1. unfold requireAffected. destruct (n =? 0) eqn:E; reflect_bools; [apply wp_fail|apply wp_ret]; auto.
Qed.

(** A transaction: its body's tables if it succeeds and commits, the old ones otherwise. *)
Lemma wp_WithTx {A} b (fn : stM conn A) d Q :
  (∀ e, b = false → Q (Err (fault e)) d) →
  wp b fn d (λ r d', match r with
                     | Ok a => Q (Ok a) d' ∧ (b = false → ∀ e, Q (Err (errorf "sqlite: commit transaction" [e])) d)
                     | Err e => Q (Err e) d
                     end) →
  wp b (WithTx fn) d Q.
Proof.
  intros He H c r c' Hd Hf E. unfold WithTx in E.
  assert (wp b next_fault d (λ r d', d' = d ∧ match r with Ok _ => True | Err e => Q (Err e) d end)) as Hn
    by (apply wp_next_fault; eauto).
  destruct (next_fault c) as [[[]|e] c0] eqn:En; destruct (Hn _ _ _ Hd Hf En) as [[Hd0 HQ] Hf0]; [|simplify_eq; by rewrite Hd0].
  destruct (fn c0) as [[a|e] c1] eqn:Efn; destruct (H _ _ _ Hd0 Hf0 Efn) as [H1 Hf1];
    [destruct H1 as [HQa Hcommit]|simplify_eq; simpl; by rewrite Hd0].
  destruct (faults c1) as [|[e|] fs] eqn:Efs; simplify_eq; simpl.
  - done.
  - destruct b; [by specialize (Hf1 eq_refl)|]. rewrite Hd0. split; [by apply Hcommit|done].
  - destruct b; [by specialize (Hf1 eq_refl)|]. done.
Qed.

(** [withLocalTx]: a method of several statements opens a transaction of its own when
    it is not already inside one ([tx]). *)

(** src/internal/storage/sqlite/execer.go:24-69, withLocalTx *)
Definition withLocalTx {A} (tx : bool) (fn : stM conn A) : stM conn A := if tx then fn else WithTx fn.

Lemma wp_withLocalTx {A} b tx (fn : stM conn A) d Q :
  wp b (WithTx fn) d Q → wp b fn d Q → wp b (withLocalTx tx fn) d Q.
Proof. by destruct tx. Qed.

(** Calls that only read keep the tables. *)
Lemma quiet_wp {A} (m : stM conn A) d : quiet m → wp false m d (λ _ d', d' = d).
Proof. intros H c r c' Hd _ E. rewrite (H _ _ _ E). done. Qed.

(** Reading a specification at a run. *)
Lemma wp_run {A} b (m : stM conn A) d Q c r c' :
  wp b m d Q → data c = d → (b = true → faults c = []) → m c = (r, c') → Q r (data c').
Proof. intros H Hd Hf E. by destruct (H _ _ _ Hd Hf E). Qed.

(** ** Automation *)

(** The program is [st_bind], [st_try] or a primitive: apply its rule. *)
Ltac wp_rule :=
  lazymatch goal with
  | |- wp _ (st_ret _) _ _ => apply wp_ret
  | |- wp _ (st_fail _) _ _ => apply wp_fail
  | |- wp _ (st_bind _ _) _ _ => apply wp_bind
  | |- wp _ (st_try _ _) _ _ => apply wp_try
  | |- wp _ (query_row _) _ _ => apply wp_query_row; [intros ? ?|]
  | |- wp _ (query _) _ _ => apply wp_query; [intros ? ?|]
  | |- wp _ (exec _) _ _ => apply wp_exec; [intros ? ?|]
  | |- wp _ (requireAffected _) _ _ => apply wp_requireAffected; intros ?
  | |- wp _ (WithTx _) _ _ => apply wp_WithTx; [intros ? ?|]
  | |- wp _ (if bool_decide ?P then _ else _) _ _ => destruct (decide P); [rewrite bool_decide_eq_true_2 by done|rewrite bool_decide_eq_false_2 by done]
  | |- wp _ (if ?x then _ else _) _ _ => destruct x eqn:?; reflect_bools
  | |- wp _ (match ?x with _ => _ end) _ _ => destruct x eqn:?
  end.
Ltac wp_step := cbn beta iota; wp_rule; cbn beta iota.
Tactic Notation "wp_go" := repeat wp_step.
