(* ===== verification/AuditLog.v ===== *)
(** * The audit log

    [internal/audit] - the allowlisted, screened details of an event, its validation
    and [Emitter.Emit] - and the audit table of [internal/storage/sqlite/audit.go],
    one definition per statement.  The record's identifier and instant, which the
    emitter draws itself, are one argument, the [stamp].  A query's cursor is the pair
    it encodes, the instant and the identifier of the last record shown. *)

From stdpp Require Import sorting.
From S2P Require Import Prelude DomainErrors GoLib Domain Database StoreLogic.

Open Scope Z_scope.

(** ** Details *)

(** The keys of details.go, by their constants. *)
Definition DetailFingerprint : gostring := go "fingerprint".
Definition DetailAlgorithm : gostring := go "algorithm".
Definition DetailDeviceName : gostring := go "device_name".
Definition DetailHandle : gostring := go "handle".
Definition DetailKeySetName : gostring := go "key_set_name".
Definition DetailFrom : gostring := go "from".
Definition DetailTo : gostring := go "to".
Definition DetailVisibility : gostring := go "visibility".
Definition DetailScope : gostring := go "scope".
Definition DetailReason : gostring := go "reason".
Definition DetailResult : gostring := go "result".
Definition DetailRequestID : gostring := go "request_id".
Definition DetailClientLabel : gostring := go "client_label".
Definition DetailCount : gostring := go "count".

(** src/internal/audit/details.go:68-86, allowedDetailKeys *)
Definition allowedDetailKeys : list gostring :=
  [DetailFingerprint; DetailAlgorithm; DetailDeviceName; DetailHandle; DetailKeySetName; DetailFrom; DetailTo;
   DetailVisibility; DetailScope; DetailReason; DetailResult; DetailRequestID; DetailClientLabel; DetailCount].

(** src/internal/audit/details.go:88-120, keptDetailKeys *)
Definition keptDetailKeys : list gostring :=
  [DetailAlgorithm; DetailVisibility; DetailScope; DetailReason; DetailResult; DetailRequestID; DetailCount].

(** src/internal/audit/details.go:122-129, IsErasableDetail *)
Definition IsErasableDetail (key : gostring) : bool := negb (bool_decide (key ∈ keptDetailKeys)).

(** src/internal/audit/details.go:131-134, maxDetailValueLen *)
Definition maxDetailValueLen : Z := 256.

(** src/internal/audit/details.go:229-234, redactionMarker *)
Definition redactionMarker : gostring := go "[REDACTED]".

(** src/internal/audit/details.go:236-252, credentialMarkers *)
Definition credentialMarkers : list gostring :=
  [go "-----begin"; go "private key"; go "bearer "; go "authorization:"; go "proxy-authorization:"; go "basic ";
   go "aws_secret"; go "begin openssh"; go "putty-user-key"; go "x-api-key"; go "set-cookie:"].

(** src/internal/audit/details.go:300-318, looksLikeJWT *)
Definition looksLikeJWT (value : gostring) : bool :=
  let parts := split_byte (byte_of 46) value in
  (length parts =? 3)%nat && has_prefix (go "eyJ") (default [] (head parts)) &&
  forallb (λ p, negb (bool_decide (p = []))) parts.

Section screen.
Context {U : UnicodeData}.

Definition screen_runes (field : string) : list (Z * nat) → option goerror := fix loop rs :=
  match rs with
  | [] => None
  | (r, _) :: rs' =>
      if r =? RuneError then Some (errorf ("audit: " ++ field ++ " is not valid UTF-8") [ErrInvalidInput])
      else if negb (is_print r) then Some (errorf ("audit: " ++ field ++ " contains a non-printable character") [ErrInvalidInput])
      else loop rs'
  end.

(** src/internal/audit/details.go:282-298, screenPrintable *)
Definition screenPrintable (field : string) (value : gostring) : option goerror := screen_runes field (runes value).

(** src/internal/audit/details.go:254-280, screenValue *)
Definition screenValue (field : string) (value : gostring) : option goerror :=
  if bool_decide (value = []) then None else
  if contains redactionMarker value then
    Some (errorf ("audit: " ++ field ++ " carries a redacted secret; audit records must never be given secret values") [ErrInvalidInput])
  else if existsb (λ m, contains m (to_lower value)) credentialMarkers then
    Some (errorf ("audit: " ++ field ++ " looks like key material or a credential") [ErrInvalidInput])
  else if looksLikeJWT value then Some (errorf ("audit: " ++ field ++ " looks like a token") [ErrInvalidInput])
  else screenPrintable field value.

(** src/internal/audit/details.go:206-227, screenDetailValue *)
Definition screenDetailValue (key value : gostring) : option goerror :=
  if bool_decide (value = []) then Some (errorf "audit: empty detail value" [ErrInvalidInput]) else
  if maxDetailValueLen <? len value then Some (errorf "audit: detail value too long" [ErrInvalidInput]) else
  match screenValue "detail value" value with
  | Some e => Some e
  | None =>
      if bool_decide (key = DetailFingerprint) then
        match ValidateFingerprint value with
        | Some _ => Some (errorf "audit: malformed fingerprint detail" [ErrInvalidInput])
        | None => None
        end
      else None
  end.

(** src/internal/audit/details.go:145-154, Details *)
Record Details := MkDetails { D_pairs : gmap gostring gostring; D_err : option goerror }.

Definition no_details : Details := MkDetails ∅ None.

(** src/internal/audit/details.go:156-185, Details.Set *)
Definition Details_Set (d : Details) (key value : gostring) : Details :=
  match D_err d with
  | Some _ => d
  | None =>
      if negb (bool_decide (key ∈ allowedDetailKeys)) then
        MkDetails ∅ (Some (errorf "audit: detail key is not on the allowlist" [ErrInvalidInput]))
      else match screenDetailValue key value with
           | Some e => MkDetails ∅ (Some e)
           | None => MkDetails (<[key := value]> (D_pairs d)) None
           end
  end.

(** src/internal/audit/details.go:190-204, Details.metadata *)
Definition Details_metadata (d : Details) : result (gmap gostring gostring) :=
  match D_err d with Some e => Err e | None => Ok (D_pairs d) end.

(** ** Events *)

Definition action_segment (s : gostring) : bool :=
  let lower c := (97 <=? byte_val c) && (byte_val c <=? 122) in
  let digit c := (48 <=? byte_val c) && (byte_val c <=? 57) in
  match s with
  | [] => false
  | c :: t => lower c && forallb (λ c, lower c || digit c || bool_decide (c = byte_of 95)) t
  end.

(** src/internal/audit/audit.go:63-67, actionRe
    (two or more segments between dots) *)
Definition actionRe (s : gostring) : bool :=
  let segments := split_byte (byte_of 46) s in
  (2 <=? length segments)%nat && forallb action_segment segments.

(** src/internal/audit/audit.go:69-72, maxIDLen *)
Definition maxIDLen : Z := 256.

(** src/internal/audit/audit.go:74-93, Event *)
Record Event := MkEvent {
  Ev_ActorType : ActorType;
  Ev_ActorID : gostring;
  Ev_Action : gostring;
  Ev_TargetType : TargetType;
  Ev_TargetID : gostring;
  Ev_Details : Details;
}.

(** src/internal/audit/audit.go:228-270, Event.validate *)
Definition Event_validate (ev : Event) : option goerror :=
  if negb (ActorType_IsValid (Ev_ActorType ev)) then Some (errorf "audit: unknown actor type" [ErrInvalidInput]) else
  if negb (TargetType_IsValid (Ev_TargetType ev)) then Some (errorf "audit: unknown target type" [ErrInvalidInput]) else
  if negb (actionRe (Ev_Action ev)) then Some (errorf "audit: malformed action" [ErrInvalidInput]) else
  let actor :=
    if bool_decide (Ev_ActorType ev = ActorTypeSystem) then
      if negb (bool_decide (Ev_ActorID ev = [])) && (maxIDLen <? len (Ev_ActorID ev))
      then Some (errorf "audit: actor id too long" [ErrInvalidInput]) else None
    else if bool_decide (Ev_ActorID ev = []) then Some (errorf "audit: missing actor id" [ErrInvalidInput])
    else if maxIDLen <? len (Ev_ActorID ev) then Some (errorf "audit: actor id too long" [ErrInvalidInput])
    else None in
  match actor with
  | Some e => Some e
  | None =>
      if bool_decide (Ev_TargetID ev = []) then Some (errorf "audit: missing target id" [ErrInvalidInput]) else
      if maxIDLen <? len (Ev_TargetID ev) then Some (errorf "audit: target id too long" [ErrInvalidInput]) else
      match screenValue "actor id" (Ev_ActorID ev) with
      | Some e => Some e
      | None => screenValue "target id" (Ev_TargetID ev)
      end
  end.

(** What the emitter draws for a record: its identifier ([crypto/rand.Text]) and the
    instant. *)
Record stamp := MkStamp { stamp_id : gostring; stamp_at : time }.

(** src/internal/audit/audit.go:203-226, Emitter.record *)
Definition Emitter_record (st : stamp) (ev : Event) : result AuditRecord :=
  match Event_validate ev with
  | Some e => Err e
  | None =>
      match Details_metadata (Ev_Details ev) with
      | Err e => Err e
      | Ok metadata =>
          Ok (MkAuditRecord (stamp_id st) (Ev_ActorType ev) (Ev_ActorID ev) (Ev_Action ev) (Ev_TargetType ev)
                (Ev_TargetID ev) (stamp_at st) metadata false)
      end
  end.
End screen.

Open Scope stm_scope.

(** ** The table *)

(** The CHECK on [target_type]: the kinds the table was created with. *)

(** src/internal/schema/schema.go:414-424, audit_records *)
Definition audit_target_check (t : TargetType) : bool :=
  match t with
  | TargetTypeOwner | TargetTypeHandle | TargetTypeDevice | TargetTypePublicKey | TargetTypeKeySet | TargetTypeAccessKey
  | TargetTypeRefreshCredential | TargetTypeBlocklistEntry | TargetTypeAllowlistEntry => true
  | TargetTypeAuditLog | TargetTypeOther _ => false
  end.

(** src/internal/storage/sqlite/audit.go:55-82, auditRepo.Append *)
Definition audit_Append (rec : AuditRecord) : stM conn unit :=
  let! _ := exec (λ d, match audits d !! Audit_ID rec with
                       | Some _ => inl UniqueViolation
                       | None =>
                           if ActorType_IsValid (Audit_ActorType rec) && audit_target_check (Audit_TargetType rec)
                           then inr (1, set_audits <[Audit_ID rec := rec]> d)
                           else inl (Driver (errors_new "CHECK constraint failed"))
                       end) in st_ret tt.

(** src/internal/audit/audit.go:162-173, Emitter.Emit
    (the sink is the table; [EmitTo] is the same call on the caller's transaction) *)
Definition Emit {U : UnicodeData} (st : stamp) (ev : Event) : stM conn unit :=
  match Emitter_record st ev with
  | Err e => st_fail e
  | Ok rec => audit_Append rec
  end.

(** src/internal/storage/sqlite/audit.go:84-93, auditRepo.Get *)
Definition audit_Get (id : gostring) : stM conn AuditRecord := query_row (λ d, audits d !! id).

(** src/internal/repository/audit.go:20-30, AuditQuery
    (a field left at its zero value is [None]) *)
Record AuditQuery := MkAuditQuery {
  Q_ActorType : option ActorType;
  Q_ActorID : option gostring;
  Q_Action : option gostring;
  Q_TargetType : option TargetType;
  Q_TargetID : option gostring;
  Q_From : option time;
  Q_To : option time;
}.

Definition unless_set {A} (o : option A) (test : A → bool) : bool := match o with Some a => test a | None => true end.

(** [ORDER BY occurred_at DESC, id DESC], and what comes after a record in it. *)
Definition newer (a b : AuditRecord) : bool :=
  (Audit_OccurredAt b <? Audit_OccurredAt a) || ((Audit_OccurredAt a =? Audit_OccurredAt b) && bytes_le (Audit_ID b) (Audit_ID a)).
Definition past_cursor (cursor : time * gostring) (r : AuditRecord) : bool :=
  (Audit_OccurredAt r <? cursor.1) ||
  ((Audit_OccurredAt r =? cursor.1) && bytes_le (Audit_ID r) cursor.2 && negb (bool_decide (Audit_ID r = cursor.2))).

(** src/internal/storage/sqlite/audit.go:139-191, auditWhere *)
Definition auditWhere (q : AuditQuery) (cursor : option (time * gostring)) (r : AuditRecord) : bool :=
  unless_set (Q_ActorType q) (λ t, bool_decide (Audit_ActorType r = t)) &&
  unless_set (Q_ActorID q) (λ i, bool_decide (Audit_ActorID r = i)) &&
  unless_set (Q_Action q) (λ a, bool_decide (Audit_Action r = a)) &&
  unless_set (Q_TargetType q) (λ t, bool_decide (Audit_TargetType r = t)) &&
  unless_set (Q_TargetID q) (λ i, bool_decide (Audit_TargetID r = i)) &&
  unless_set (Q_From q) (λ t, t <=? Audit_OccurredAt r) &&
  unless_set (Q_To q) (λ t, Audit_OccurredAt r <=? t) &&
  unless_set cursor (λ c, past_cursor c r).

(** src/internal/storage/sqlite/owner.go:13-15, defaultPageLimit *)
Definition defaultPageLimit : Z := 50.

(** src/internal/storage/sqlite/audit.go:95-137, auditRepo.List *)
Definition audit_List (q : AuditQuery) (limit : Z) (cursor : option (time * gostring)) :
    stM conn (list AuditRecord * option (time * gostring)) :=
  let limit := if limit <=? 0 then defaultPageLimit else limit in
  let! records := query (λ d, take (Z.to_nat (limit + 1))
      (ordered_by newer (filter (λ r, auditWhere q cursor r = true) (rows (audits d))))) in
  if limit <? Z.of_nat (length records) then
    st_ret (take (Z.to_nat limit) records,
            (λ last, (Audit_OccurredAt last, Audit_ID last)) <$> records !! Z.to_nat (limit - 1))
  else st_ret (records, None).

Definition oldest (a b : AuditRecord) : bool :=
  (Audit_OccurredAt a <? Audit_OccurredAt b) || ((Audit_OccurredAt a =? Audit_OccurredAt b) && bytes_le (Audit_ID a) (Audit_ID b)).

Definition aged (cutoff : time) (d : db) : list AuditRecord :=
  ordered_by oldest (filter (λ r, Audit_OccurredAt r ≤ cutoff) (rows (audits d))).

(** src/internal/storage/sqlite/audit.go:315-365, auditRepo.PurgeOlderThan *)
Definition audit_PurgeOlderThan (cutoff : time) (limit : Z) : stM conn Z :=
  if limit <=? 0 then st_fail (errorf "sqlite: purge limit must be positive" [ErrInvalidInput]) else
  exec (λ d,
    let doomed := Audit_ID <$> take (Z.to_nat limit) (aged cutoff d) in
    inr (Z.of_nat (length doomed), set_audits (filter (λ kr, kr.1 ∉ doomed)) d)).

(** src/internal/storage/sqlite/audit.go:308-313, maxPseudonymizeBatch *)
Definition maxPseudonymizeBatch : nat := 400.

Definition names (ids : list gostring) (r : AuditRecord) : Prop := Audit_ActorID r ∈ ids ∨ Audit_TargetID r ∈ ids.

#[export] Instance names_dec ids r : Decision (names ids r).
Proof. unfold names. apply _. Defined.

Definition pseudonymize_row (ids : list gostring) (pseudonym : gostring) (r : AuditRecord) : AuditRecord :=
  if bool_decide (Audit_ActorID r ∈ ids ∨ Audit_TargetID r ∈ ids) then
    MkAuditRecord (Audit_ID r) (Audit_ActorType r)
      (if bool_decide (Audit_ActorID r ∈ ids) then pseudonym else Audit_ActorID r) (Audit_Action r) (Audit_TargetType r)
      (if bool_decide (Audit_TargetID r ∈ ids) then pseudonym else Audit_TargetID r) (Audit_OccurredAt r) (Audit_Metadata r) true
  else r.

(** src/internal/storage/sqlite/audit.go:439-477, pseudonymizeBatch *)
Definition pseudonymizeBatch (ids : list gostring) (pseudonym : gostring) : stM conn Z :=
  exec (λ d, inr (Z.of_nat (length (filter (λ r, Audit_ActorID r ∈ ids ∨ Audit_TargetID r ∈ ids) (rows (audits d)))),
                  set_audits (fmap (pseudonymize_row ids pseudonym)) d)).

(** [for start := 0; start < len(ids); start += batch]: the slices [ids[start:end]]. *)
Fixpoint chunks {A} (fuel n : nat) (l : list A) : list (list A) :=
  match fuel, l with
  | O, _ | _, [] => []
  | S fuel, _ => take n l :: chunks fuel n (drop n l)
  end.
Definition batches (ids : list gostring) : list (list gostring) := chunks (length ids) maxPseudonymizeBatch ids.

Definition pseudonymize_loop (pseudonym : gostring) : list (list gostring) → Z → stM conn Z := fix loop bs total :=
  match bs with
  | [] => st_ret total
  | b :: bs' => let! n := pseudonymizeBatch b pseudonym in loop bs' (total + n)
  end.

(** src/internal/storage/sqlite/audit.go:367-437, auditRepo.Pseudonymize *)
Definition audit_Pseudonymize (tx : bool) (ids : list gostring) (pseudonym : gostring) : stM conn Z :=
  if bool_decide (pseudonym = []) then st_fail (errorf "sqlite: empty pseudonym" [ErrInvalidInput]) else
  if bool_decide ([] ∈ ids) then st_fail (errorf "sqlite: empty id in pseudonymize set" [ErrInvalidInput]) else
  if bool_decide (ids = []) then st_ret 0 else
  withLocalTx tx (pseudonymize_loop pseudonym (batches ids) 0).

(** The records already seen, in the order they came. *)
Definition add_new (out recs : list AuditRecord) : list AuditRecord :=
  foldl (λ out r, if bool_decide (Audit_ID r ∈ Audit_ID <$> out) then out else out ++ [r]) out recs.

Definition erasure_loop : list (list gostring) → list AuditRecord → stM conn (list AuditRecord) := fix loop bs out :=
  match bs with
  | [] => st_ret out
  | b :: bs' =>
      let! recs := query (λ d, filter (λ r, Audit_ActorID r ∈ b ∨ Audit_TargetID r ∈ b) (rows (audits d))) in
      loop bs' (add_new out recs)
  end.

(** src/internal/storage/sqlite/audit.go:479-528, auditRepo.RecordsForErasure *)
Definition audit_RecordsForErasure (ids : list gostring) : stM conn (list AuditRecord) :=
  if bool_decide (ids = []) then st_ret [] else erasure_loop (batches ids) [].

Definition set_metadata (m : gmap gostring gostring) (r : AuditRecord) : AuditRecord :=
  MkAuditRecord (Audit_ID r) (Audit_ActorType r) (Audit_ActorID r) (Audit_Action r) (Audit_TargetType r) (Audit_TargetID r)
    (Audit_OccurredAt r) m (Audit_Pseudonymized r).

Definition scrub_loop : list (gostring * gmap gostring gostring) → Z → stM conn Z := fix loop us total :=
  match us with
  | [] => st_ret total
  | (id, m) :: us' =>
      if bool_decide (id = []) then st_fail (errorf "sqlite: empty record id in metadata scrub" [ErrInvalidInput]) else
      let! n := exec (λ d, match audits d !! id with
                           | Some r => inr (1, set_audits <[id := set_metadata m r]> d)
                           | None => inr (0, d)
                           end) in
      loop us' (total + n)
  end.

(** src/internal/storage/sqlite/audit.go:530-567, auditRepo.ScrubMetadata *)
Definition audit_ScrubMetadata (tx : bool) (updates : list (gostring * gmap gostring gostring)) : stM conn Z :=
  if bool_decide (updates = []) then st_ret 0 else withLocalTx tx (scrub_loop updates 0).

Close Scope stm_scope.

(** ** What a record may hold *)

(** Text fit for the log: no control byte, nothing that reads as a credential. *)
Definition screened (v : gostring) : Prop :=
  Forall printable v ∧ contains redactionMarker v = false ∧
  (∀ m, m ∈ credentialMarkers → contains m (to_lower v) = false) ∧ looksLikeJWT v = false.

Record record_ok (r : AuditRecord) : Prop := MkRecordOk {
  ok_actor : ActorType_IsValid (Audit_ActorType r) = true;
  ok_target : audit_target_check (Audit_TargetType r) = true;
  ok_action : actionRe (Audit_Action r) = true;
  ok_actor_id : (Audit_ActorID r = [] → Audit_ActorType r = ActorTypeSystem) ∧ len (Audit_ActorID r) ≤ maxIDLen;
  ok_target_id : Audit_TargetID r ≠ [] ∧ len (Audit_TargetID r) ≤ maxIDLen;
  ok_ids : screened (Audit_ActorID r) ∧ screened (Audit_TargetID r);
  ok_details : ∀ k v, Audit_Metadata r !! k = Some v →
    k ∈ allowedDetailKeys ∧ v ≠ [] ∧ len v ≤ maxDetailValueLen ∧ screened v;
}.

Lemma screen_runes_ok {U : UnicodeData} field rs : screen_runes field rs = None →
  ∀ r w, (r, w) ∈ rs → r ≠ RuneError ∧ is_print r = true.
Proof.
  induction rs as [|[r w] rs IH]; simpl; [intros _ ? ? []%not_elem_of_nil|].
  destruct (r =? RuneError) eqn:E1; [done|]. destruct (is_print r) eqn:E2; [|done]. reflect_bools. simpl.
  intros H r' w' [[= -> ->]|Hin]%elem_of_cons; [done|by eapply IH].
Qed.

Lemma screenPrintable_bytes {U : UnicodeData} field v : screenPrintable field v = None → Forall printable v.
Proof.
  intros H. apply Forall_forall. intros c Hc. pose proof (byte_val_range c).
  destruct (decide (byte_val c < 128)) as [Hlt|Hge]; [|unfold printable; lia].
  destruct (runes_ascii (length v) v c) as [w Hw]; [done|done|done|].
  destruct (screen_runes_ok _ _ H _ _ Hw) as [_ Hp].
  unfold is_print, in_ranges in Hp. rewrite (proj2 (Z.ltb_lt _ _)) in Hp by lia. simpl in Hp.
  unfold printable. repeat (apply orb_true_iff in Hp as [Hp|Hp]; reflect_bools; try lia; try done).
Qed.

Lemma screened_nil : screened [].
Proof. split_and!; [constructor|done| |done]. intros m Hm. repeat (apply elem_of_cons in Hm as [->|Hm]; [done|]). by apply not_elem_of_nil in Hm. Qed.

Lemma screenValue_ok {U : UnicodeData} field v : screenValue field v = None → screened v.
Proof.
  unfold screenValue. destruct (decide (v = [])) as [->|Hv]; [intros _; apply screened_nil|].
  rewrite bool_decide_eq_false_2 by done. destruct (contains redactionMarker v) eqn:E1; [done|].
  destruct (existsb _ _) eqn:E2; [done|]. destruct (looksLikeJWT v) eqn:E3; [done|]. intros H.
  split_and!; [by eapply screenPrintable_bytes|done| |done]. intros m Hm. apply not_true_iff_false. intros Hc.
  apply not_true_iff_false in E2. apply E2, existsb_exists. exists m. split; [by apply list_elem_of_In|done].
Qed.

Definition details_ok (m : gmap gostring gostring) : Prop := ∀ k v, m !! k = Some v →
  k ∈ allowedDetailKeys ∧ v ≠ [] ∧ len v ≤ maxDetailValueLen ∧ screened v.

Lemma details_ok_empty : details_ok ∅.
Proof. intros k v H. by rewrite lookup_empty in H. Qed.

(** Details are built by [Set] from the empty ones, so they only ever hold screened
    values under allowlisted keys. *)
Inductive built {U : UnicodeData} : Details → Prop :=
| built_empty : built no_details
| built_Set d k v : built d → built (Details_Set d k v).
#[export] Hint Constructors built : vallet.

Lemma screenDetailValue_ok {U : UnicodeData} k v : screenDetailValue k v = None →
  v ≠ [] ∧ len v ≤ maxDetailValueLen ∧ screened v.
Proof.
  unfold screenDetailValue. destruct (decide (v = [])) as [->|Hv]; [done|]. rewrite bool_decide_eq_false_2 by done.
  destruct (maxDetailValueLen <? len v) eqn:E1; [done|]. destruct (screenValue _ _) eqn:E2; [done|]. intros _.
  reflect_bools. split_and!; [done|lia|by eapply screenValue_ok].
Qed.

Lemma built_ok {U : UnicodeData} d : built d → details_ok (D_pairs d).
Proof.
  induction 1 as [|d k v _ IH]; [apply details_ok_empty|].
  unfold Details_Set. destruct (D_err d); [done|]. case_bool_decide as Hk; simpl; [|apply details_ok_empty].
  destruct (screenDetailValue k v) eqn:Es; simpl; [apply details_ok_empty|].
  intros k' v' [[-> ->]|[_ H]]%lookup_insert_Some; [|by eapply IH]. split; [done|by eapply screenDetailValue_ok].
Qed.

Lemma Emitter_record_ok {U : UnicodeData} st ev rec : built (Ev_Details ev) → Emitter_record st ev = Ok rec →
  audit_target_check (Audit_TargetType rec) = true →
  record_ok rec ∧ rec = MkAuditRecord (stamp_id st) (Ev_ActorType ev) (Ev_ActorID ev) (Ev_Action ev) (Ev_TargetType ev)
                (Ev_TargetID ev) (stamp_at st) (D_pairs (Ev_Details ev)) false.
Proof.
  unfold Emitter_record. intros Hb. destruct (Event_validate ev) eqn:Ev; [done|]. unfold Details_metadata.
  destruct (D_err _); [done|]. intros [= <-] Ht. split; [|done]. unfold Event_validate in Ev.
  destruct (ActorType_IsValid _) eqn:E1; [|done]. destruct (TargetType_IsValid _) eqn:E2; [|done].
  destruct (actionRe _) eqn:E3; [|done]. cbn [negb] in Ev. destruct (if bool_decide (Ev_ActorType ev = _) then _ else _) eqn:Ea; [done|].
  destruct (decide (Ev_TargetID ev = [])) as [|Hti]; [by rewrite bool_decide_eq_true_2 in Ev|]. rewrite (bool_decide_eq_false_2 _ Hti) in Ev.
  destruct (maxIDLen <? len (Ev_TargetID ev)) eqn:E5; [done|]. destruct (screenValue "actor id" _) eqn:E6; [done|].
  assert (((Ev_ActorID ev = [] → Ev_ActorType ev = ActorTypeSystem) ∧ len (Ev_ActorID ev) ≤ maxIDLen)) as Hactor.
  { destruct (decide (Ev_ActorType ev = ActorTypeSystem)) as [Hs|Hs]; [rewrite (bool_decide_eq_true_2 _ Hs) in Ea|rewrite (bool_decide_eq_false_2 _ Hs) in Ea];
      (destruct (decide (Ev_ActorID ev = [])) as [Hi|Hi]; [rewrite (bool_decide_eq_true_2 _ Hi) in Ea|rewrite (bool_decide_eq_false_2 _ Hi) in Ea]);
      simpl in Ea; try done; try (destruct (maxIDLen <? _) eqn:E7; [done|]; reflect_bools; split; [done|lia]).
    split; [done|]. rewrite Hi. done. }
  constructor; simpl; try done.
  - split; [done|reflect_bools; lia].
  - split; [by eapply screenValue_ok|by eapply screenValue_ok].
  - by apply built_ok.
Qed.

Lemma wp_Append b rec d Q :
  (∀ e, b = false → Q (Err (fault e)) d) →
  (∀ e, audits d !! Audit_ID rec ≠ None ∨ ActorType_IsValid (Audit_ActorType rec) && audit_target_check (Audit_TargetType rec) = false →
     Q (Err e) d) →
  (audits d !! Audit_ID rec = None → audit_target_check (Audit_TargetType rec) = true → Q (Ok tt) (set_audits <[Audit_ID rec := rec]> d)) →
  wp b (audit_Append rec) d Q.
Proof.
  intros Hf He Ho. unfold audit_Append. wp_step. wp_step; [by apply Hf|]. destruct (audits d !! Audit_ID rec) eqn:E.
  - apply He. by left.
  - destruct (_ && _) eqn:Ec; [|apply He; by right]. wp_step. apply Ho; [done|]. by reflect_bools.
Qed.

(** Every failure of [Emit] leaves the tables; success appends exactly its record. *)
Definition emitted (st : stamp) (ev : Event) : AuditRecord :=
  MkAuditRecord (stamp_id st) (Ev_ActorType ev) (Ev_ActorID ev) (Ev_Action ev) (Ev_TargetType ev) (Ev_TargetID ev) (stamp_at st)
    (D_pairs (Ev_Details ev)) false.

Lemma wp_Emit {U : UnicodeData} b st ev d Q :
  (∀ e, Q (Err e) d) →
  (audits d !! stamp_id st = None → audit_target_check (Ev_TargetType ev) = true →
     (built (Ev_Details ev) → record_ok (emitted st ev)) → Q (Ok tt) (set_audits <[stamp_id st := emitted st ev]> d)) →
  wp b (Emit st ev) d Q.
Proof.
  intros He Ho. unfold Emit. destruct (Emitter_record st ev) as [rec|e] eqn:Er; [|apply wp_fail, He].
  assert (rec = emitted st ev) as ->.
  { unfold Emitter_record, Details_metadata in Er. destruct (Event_validate ev); [done|]. destruct (D_err _); [done|]. by injection Er as <-. }
  apply wp_Append; [intros; apply He|intros; apply He|]. intros Hn Ht. apply Ho; [done|done|].
  intros Hb. by apply (Emitter_record_ok st ev).
Qed.

(** On a store that answers, an event the emitter accepts is recorded. *)
Lemma wp_Emit_ok {U : UnicodeData} st ev d Q : is_ok (Emitter_record st ev) = true → audits d !! stamp_id st = None → audit_target_check (Ev_TargetType ev) = true →
  Q (Ok tt) (set_audits <[stamp_id st := emitted st ev]> d) → wp true (Emit st ev) d Q.
Proof.
  intros Hr Hn Ht Ho. unfold Emit. destruct (Emitter_record st ev) as [rec|] eqn:Er; [|done].
  assert (rec = emitted st ev ∧ ActorType_IsValid (Ev_ActorType ev) = true) as [-> Hv].
  { unfold Emitter_record, Details_metadata in Er. destruct (Event_validate ev) eqn:Ev; [done|]. destruct (D_err _); [done|]. injection Er as <-. split; [done|].
    unfold Event_validate in Ev. by destruct (ActorType_IsValid _). }
  apply wp_Append; [done| |done]. simpl. rewrite Hv, Ht. intros e [?|?]; done.
Qed.

(** ** The log as a typed store *)

Definition log_ok (t : gmap gostring AuditRecord) : Prop := map_Forall (λ id r, Audit_ID r = id ∧ record_ok r) t.

(** What writes to the log in the ordinary course: components that emit, and the
    retention purge.  Details are opaque outside their package, so every event's are
    [built]. *)
Inductive log_step {U : UnicodeData} (c c' : conn) : Prop :=
| log_Emit st ev r : built (Ev_Details ev) → Emit st ev c = (r, c') → log_step c c'
| log_Purge cutoff limit r : audit_PurgeOlderThan cutoff limit c = (r, c') → log_step c c'
| log_other : audits (data c') = audits (data c) → log_step c c'.

(** C23. Only screened text under known keys ever enters the audit log.  Whatever is
    emitted, by any interleaving of components and purges and whichever statements
    fail, every stored record has a known actor and target kind, a well-formed action,
    bounded identifiers, and details that are non-empty, bounded, under allowlisted
    keys, free of control bytes, of the redaction marker, of credential markers in any
    case and of token shapes - and so are its identifiers. *)
Theorem audit_log_well_formed {U : UnicodeData} c c' :
  steps log_step c c' → log_ok (audits (data c)) → log_ok (audits (data c')).
Proof.
  intros H Hok. eapply (steps_invariant _ (λ c, log_ok (audits (data c)))); [|exact Hok|exact H]. clear. intros c c' Hok [st ev r Hb E|cutoff limit r E|E].
  - refine (wp_run false _ _ (λ _ d', log_ok (audits d')) _ _ _ _ eq_refl ltac:(done) E). apply wp_Emit; [done|]. intros _ _ Hr.
    apply map_Forall_insert_2; [split; [done|by apply Hr]|done].
  - refine (wp_run false _ _ (λ _ d', log_ok (audits d')) _ _ _ _ eq_refl ltac:(done) E). unfold audit_PurgeOlderThan.
    wp_step; [by wp_step|]. wp_step; [done|]. intros id r' [Hr _]%map_lookup_filter_Some. by apply Hok.
  - by rewrite E.
Qed.

(** ** Reading the log page by page *)

Open Scope stm_scope.
(** A reader that follows the cursors; [None] is an exhausted [fuel]. *)
Fixpoint audit_pages (fuel : nat) (q : AuditQuery) (limit : Z) (cursor : option (time * gostring)) : stM conn (option (list AuditRecord)) :=
  match fuel with
  | O => st_ret None
  | S fuel =>
      let! page := audit_List q limit cursor in
      match page with
      | (records, None) => st_ret (Some records)
      | (records, Some next) => let! rest := audit_pages fuel q limit (Some next) in st_ret (app records <$> rest)
      end
  end.
Close Scope stm_scope.

Definition matching (q : AuditQuery) (d : db) : list AuditRecord := ordered_by newer (filter (λ r, auditWhere q None r = true) (rows (audits d))).

Definition cursor_of (r : AuditRecord) : time * gostring := (Audit_OccurredAt r, Audit_ID r).

Lemma newer_iff a b : newer a b = true ↔
  Audit_OccurredAt b < Audit_OccurredAt a ∨ Audit_OccurredAt a = Audit_OccurredAt b ∧ bytes_le (Audit_ID b) (Audit_ID a) = true.
Proof. unfold newer. by rewrite orb_true_iff, andb_true_iff, Z.ltb_lt, Z.eqb_eq. Qed.

Lemma newer_order d : keyed Audit_ID (audits d) → total_order newer (rows (audits d)).
Proof.
  intros Hk. constructor.
  - intros a b c. rewrite !newer_iff. intros [H1|[E1 H1]] [H2|[E2 H2]]; [left; lia|left; lia|left; lia|right]. split; [lia|by eapply bytes_le_trans].
  - intros a b. rewrite !newer_iff. destruct (decide (Audit_OccurredAt a = Audit_OccurredAt b)) as [E|E]; [|lia].
    destruct (bytes_le (Audit_ID b) (Audit_ID a)) eqn:Eb; [by left; right|]. apply bytes_le_total in Eb as [Eb _]. right. right. done.
  - intros a b Ha Hb. rewrite !newer_iff. intros [H1|[E1 H1]] [H2|[E2 H2]]; try lia. eapply keyed_eq; eauto. by apply bytes_le_antisym.
Qed.

Lemma past_cursor_iff x r : past_cursor (cursor_of x) r = true ↔ newer x r = true ∧ ¬ (Audit_OccurredAt x = Audit_OccurredAt r ∧ Audit_ID r = Audit_ID x).
Proof.
  unfold past_cursor, cursor_of. simpl. rewrite newer_iff, orb_true_iff, !andb_true_iff, Z.ltb_lt, Z.eqb_eq, negb_true_iff, bool_decide_eq_false.
  split; [intros [H|[[E H] Hn]]; [split; [by left|lia]|split; [right; auto|tauto]]|]. intros [[H|[E H]] Hn]; [by left|right]. split; [split; [lia|done]|]. intros Hi. apply Hn. done.
Qed.

Lemma matching_NoDup q d : keyed Audit_ID (audits d) → NoDup (Audit_ID <$> matching q d).
Proof.
  intros Hk. unfold matching. assert (ordered_by newer (filter (λ r, auditWhere q None r = true) (rows (audits d))) ≡ₚ filter (λ r, auditWhere q None r = true) (rows (audits d))) as ->
    by (unfold ordered_by; by rewrite merge_sort_Permutation).
  eapply sublist_NoDup; [exact (keyed_NoDup _ _ Hk)|]. apply fmap_sublist, sublist_filter.
Qed.

(** After a record, the cursor shows what follows it. *)
Lemma after_cursor q d l1 x l2 : keyed Audit_ID (audits d) → matching q d = l1 ++ x :: l2 →
  ordered_by newer (filter (λ r, auditWhere q (Some (cursor_of x)) r = true) (rows (audits d))) = l2.
Proof.
  intros Hk E. pose proof (newer_order d Hk) as Hto. pose proof (matching_NoDup q d Hk) as Hnd.
  assert (StronglySorted (λ a b, newer a b = true) (matching q d)) as Hs by (by eapply ordered_sorted).
  rewrite E in Hs, Hnd. apply StronglySorted_app in Hs as (Hl & _ & Hx). apply StronglySorted_cons in Hx as [Hx _].
  rewrite fmap_app, fmap_cons in Hnd. apply NoDup_app in Hnd as (_ & Hd & Hnx). apply NoDup_cons in Hnx as [Hnx _].
  transitivity (filter (λ r, past_cursor (cursor_of x) r = true) (matching q d)).
  { unfold matching. rewrite <- ordered_filter.
    - f_equal. rewrite list_filter_filter. apply list_filter_iff. intros r. unfold auditWhere. rewrite !andb_true_iff. simpl. tauto.
    - destruct Hto as [H1 H2 H3]. constructor; try done. intros a b [_ Ha]%list_elem_of_filter [_ Hb]%list_elem_of_filter. by apply H3. }
  rewrite E, filter_app, filter_cons. rewrite decide_False by (rewrite past_cursor_iff; tauto).
  assert (filter (λ r, past_cursor (cursor_of x) r = true) l1 = []) as ->.
  { apply elem_of_nil_inv. intros a [Hp Ha]%list_elem_of_filter. apply past_cursor_iff in Hp as [Hp Hne].
    assert (newer a x = true) as Hax by (apply Hl; [done|by left]). apply newer_iff in Hp, Hax.
    destruct Hp as [?|[E1 ?]], Hax as [?|[E2 ?]]; try lia. apply Hne. split; [done|]. by apply bytes_le_antisym. }
  simpl. apply filter_all. rewrite Forall_forall in Hx |- *. intros b Hb. apply past_cursor_iff. split; [by apply Hx|]. intros [_ Ei].
  apply Hnx. apply list_elem_of_fmap. exists b. split; done.
Qed.

Definition page_limit (limit : Z) : Z := if limit <=? 0 then defaultPageLimit else limit.

Lemma page_limit_pos limit : 0 < page_limit limit.
Proof. unfold page_limit, defaultPageLimit. destruct (limit <=? 0) eqn:E; reflect_bools; lia. Qed.

(** One page of [L], what the query yields at the cursor. *)
Lemma audit_List_page q limit cursor d L :
  ordered_by newer (filter (λ r, auditWhere q cursor r = true) (rows (audits d))) = L →
  wp true (audit_List q limit cursor) d (λ r d', d' = d ∧
    r = Ok (if bool_decide (page_limit limit < Z.of_nat (length L))
            then (take (Z.to_nat (page_limit limit)) L, cursor_of <$> L !! Z.to_nat (page_limit limit - 1)) else (L, None))).
Proof.
  intros HL. pose proof (page_limit_pos limit). unfold audit_List. fold (page_limit limit). wp_step. wp_step; [done|]. rewrite HL, length_take.
  case_bool_decide as Hb.
  - rewrite (proj2 (Z.ltb_lt _ _)) by lia. wp_step. split; [done|]. do 2 f_equal.
    + rewrite take_take. f_equal. lia.
    + rewrite lookup_take_lt by lia. done.
  - rewrite (proj2 (Z.ltb_ge _ _)) by lia. wp_step. split; [done|]. rewrite take_ge by lia. done.
Qed.

Lemma pages_from q limit d fuel cursor l0 L : keyed Audit_ID (audits d) → matching q d = l0 ++ L →
  ordered_by newer (filter (λ r, auditWhere q cursor r = true) (rows (audits d))) = L → (length L < fuel)%nat →
  wp true (audit_pages fuel q limit cursor) d (λ r d', d' = d ∧ r = Ok (Some L)).
Proof.
  intros Hk. pose proof (page_limit_pos limit) as Hlim. revert cursor l0 L. induction fuel as [|fuel IH]; intros cursor l0 L HM HL Hf; [lia|]. simpl.
  wp_step. eapply wp_mono; [by eapply audit_List_page|]. intros r ? [-> ->]. case_bool_decide as Hb; [|by wp_step].
  set (n := Z.to_nat (page_limit limit)) in *. replace (Z.to_nat (page_limit limit - 1)) with (n - 1)%nat by lia.
  destruct (L !! (n - 1)%nat) as [x|] eqn:Ex; [|apply lookup_ge_None in Ex; lia]. simpl.
  assert (L = take (n - 1) L ++ x :: drop n L) as EL.
  { rewrite <- (take_drop_middle _ _ _ Ex) at 1. by replace (S (n - 1)) with n by lia. }
  wp_step. eapply wp_mono.
  - apply (IH _ (l0 ++ take n L) (drop n L)).
    + rewrite HM, <- app_assoc. by rewrite take_drop.
    + apply (after_cursor q d (l0 ++ take (n - 1) L)); [done|]. rewrite HM, <- app_assoc. by rewrite <- EL.
    + rewrite length_drop. lia.
  - intros r ? [-> ->]. wp_step. split; [done|]. simpl. by rewrite take_drop.
Qed.

(** Following the cursors reads the log exactly: page after page, whatever the page
    size, yields every record the query selects once, newest first, and ends. *)
Theorem audit_pages_exact q limit c fuel :
  keyed Audit_ID (audits (data c)) → faults c = [] → (length (matching q (data c)) < fuel)%nat →
  fst (audit_pages fuel q limit None c) = Ok (Some (matching q (data c))) ∧
  NoDup (Audit_ID <$> matching q (data c)) ∧ StronglySorted (λ a b, newer a b = true) (matching q (data c)) ∧
  ∀ r, r ∈ matching q (data c) ↔ auditWhere q None r = true ∧ audits (data c) !! Audit_ID r = Some r.
Proof.
  intros Hk Hf Hfuel. destruct (audit_pages fuel q limit None c) as [r c'] eqn:E. split_and!.
  - destruct (wp_run true _ _ _ _ _ _ (pages_from q limit (data c) fuel None [] (matching q (data c)) Hk eq_refl eq_refl Hfuel) eq_refl (λ _, Hf) E) as [_ ->]. done.
  - by apply matching_NoDup.
  - eapply ordered_sorted. by apply newer_order.
  - intros x. unfold matching. rewrite elem_of_ordered, list_elem_of_filter, elem_of_rows. split; intros [Hw H]; (split; [done|]); [|eauto].
    destruct H as [k Hx]. by rewrite (Hk _ _ Hx).
Qed.

Module LogSample.
#[export] Instance ascii_only : UnicodeData := {| printable_above := λ _, false |}.
Definition ev (target : string) : Event :=
  MkEvent ActorTypeOwner (go "o") (go "key_set.created") TargetTypeKeySet (go target) (Details_Set no_details DetailKeySetName (go "prod")).
Definition c0 : conn := MkConn empty_db [].
Definition c1 := Emit (MkStamp (go "r1") 5) (ev "s1") c0.
Definition c2 := Emit (MkStamp (go "r2") 9) (ev "s2") (snd c1).
Definition c3 := Emit (MkStamp (go "r3") 9) (ev "s3") (snd c2).
Definition every : AuditQuery := MkAuditQuery None None None None None None None.
Lemma empty_ok : log_ok (audits (data c0)).
Proof. apply map_Forall_empty. Qed.
Lemma three : audits (data (snd c3)) = <[go "r3" := emitted (MkStamp (go "r3") 9) (ev "s3")]> (<[go "r2" := emitted (MkStamp (go "r2") 9) (ev "s2")]>
  {[ go "r1" := emitted (MkStamp (go "r1") 5) (ev "s1") ]}).
Proof. vm_compute. reflexivity. Qed.
End LogSample.
#[local] Existing Instance LogSample.ascii_only.

Lemma audit_log_well_formed_witness : fst LogSample.c1 = Ok tt ∧ log_ok (audits (data (snd LogSample.c1))).
Proof.
  split; [vm_compute; reflexivity|]. apply (audit_log_well_formed LogSample.c0 (snd LogSample.c1)); [|exact LogSample.empty_ok].
  apply steps_one. apply (log_Emit _ _ (MkStamp (go "r1") 5) (LogSample.ev "s1") (fst LogSample.c1)); [unfold LogSample.ev; repeat constructor|].
  unfold LogSample.c1. apply surjective_pairing.
Defined.

(** Two records of the same instant, one per page. *)
Lemma audit_pages_exact_witness : ∃ l, fst (audit_pages 4 LogSample.every 1 None (snd LogSample.c3)) = Ok (Some l) ∧
  Audit_ID <$> l = [go "r3"; go "r2"; go "r1"].
Proof.
  destruct (audit_pages_exact LogSample.every 1 (snd LogSample.c3) 4) as [H _].
  - rewrite LogSample.three. intros i r Hr. repeat (apply lookup_insert_Some in Hr as [[<- <-]|[_ Hr]]; [reflexivity|]).
    apply lookup_singleton_Some in Hr as [<- <-]. reflexivity.
  - vm_compute. reflexivity.
  - vm_compute. apply le_n.
  - eexists. split; [exact H|]. vm_compute. reflexivity.
Defined.
