(* ===== verification/KeyRepos.v ===== *)
(** * Storage: devices, public keys, key sets and access keys

    [internal/storage/sqlite] device.go, publickey.go, keyset.go and accesskey.go, one
    definition per statement over the tables of [Database].  The constraints of the
    schema are part of the statements: primary and unique keys, CHECKs on the
    enumerations, references between tables. *)

From stdpp Require Import sorting.
From S2P Require Import Prelude DomainErrors GoLib Domain Database StoreLogic.

Open Scope Z_scope.
Open Scope stm_scope.

Abbreviation fk_failed := (Driver (errors_new "FOREIGN KEY constraint failed")).
Abbreviation check_failed := (Driver (errors_new "CHECK constraint failed")).

(** [WHERE id = ? AND owner_id = ?]: a row, if that owner has it. *)
Definition of_owner {A} (owner_of : A → gostring) (ownerID : gostring) (o : option A) : option A :=
  match o with
  | Some a => if bool_decide (owner_of a = ownerID) then Some a else None
  | None => None
  end.

(** [UPDATE ... WHERE id = ? AND owner_id = ? AND cond]: the row a selection yields,
    replaced by [upd] of it. *)
Definition update_row {A} (set : (gmap gostring A → gmap gostring A) → db → db) (sel : db → option A)
    (cond : A → bool) (upd : A → A) (id : gostring) : stM conn Z :=
  exec (λ d, match sel d with
             | Some a => if cond a then inr (1, set <[id := upd a]> d) else inr (0, d)
             | None => inr (0, d)
             end).

(** ** devices *)

(** src/internal/storage/sqlite/device.go:27-47, deviceRepo.Create *)
Definition device_Create (v : Device) : stM conn unit :=
  let! _ := exec (λ d, match devices d !! Device_ID v, owners d !! Device_OwnerID v with
                       | Some _, _ => inl UniqueViolation
                       | None, None => inl fk_failed
                       | None, Some _ =>
                           if DeviceStatus_IsValid (Device_Status v) then inr (1, set_devices <[Device_ID v := v]> d)
                           else inl check_failed
                       end) in st_ret tt.

Definition owned_device (ownerID id : gostring) (d : db) : option Device := of_owner Device_OwnerID ownerID (devices d !! id).

(** src/internal/storage/sqlite/device.go:49-54, deviceRepo.Get *)
Definition device_Get (ownerID id : gostring) : stM conn Device := query_row (owned_device ownerID id).

(** src/internal/storage/sqlite/device.go:56-65, deviceRepo.ListByOwner *)
Definition device_ListByOwner (ownerID : gostring) : stM conn (list Device) :=
  query (λ d, ordered_by (λ a b, bytes_le (Device_ID a) (Device_ID b)) (filter (λ v, Device_OwnerID v = ownerID) (rows (devices d)))).

(** src/internal/storage/sqlite/device.go:67-77, deviceRepo.Rename *)
Definition device_Rename (ownerID id name : gostring) (now : time) : stM conn unit :=
  let! n := update_row set_devices (owned_device ownerID id) (λ _, true)
    (λ v, MkDevice (Device_ID v) (Device_OwnerID v) name (Device_Status v) (Device_CreatedAt v) now (Device_RevokedAt v)) id in
  requireAffected n.

(** src/internal/storage/sqlite/device.go:79-96, deviceRepo.Revoke *)
Definition device_Revoke (ownerID id : gostring) (now : time) : stM conn unit :=
  let! n := update_row set_devices (owned_device ownerID id) (λ _, true)
    (λ v, MkDevice (Device_ID v) (Device_OwnerID v) (Device_Name v) DeviceStatusRevoked (Device_CreatedAt v) now (Some now)) id in
  requireAffected n.

(** ** public_keys *)

Definition same_fingerprint (k : PublicKey) (d : db) : list PublicKey :=
  filter (λ j, PublicKey_OwnerID j = PublicKey_OwnerID k ∧ PublicKey_Fingerprint j = PublicKey_Fingerprint k) (rows (pubkeys d)).

(** The columns have no signature: a key is read back without one. *)
Definition unsigned (k : PublicKey) : PublicKey :=
  MkPublicKey (PublicKey_ID k) (PublicKey_OwnerID k) (PublicKey_DeviceID k) (PublicKey_Algorithm k) (PublicKey_Blob k)
    (PublicKey_Comment k) (PublicKey_Fingerprint k) (PublicKey_BitLen k) (PublicKey_Status k) (PublicKey_CreatedAt k)
    (PublicKey_UpdatedAt k) (PublicKey_RevokedAt k) None.

(** src/internal/storage/sqlite/publickey.go:31-58, publicKeyRepo.Create
    (the key's device must be one of the same owner) *)
Definition pubkey_Create (k : PublicKey) : stM conn unit :=
  let! _ := exec (λ d,
    match pubkeys d !! PublicKey_ID k, same_fingerprint k d with
    | Some _, _ | None, _ :: _ => inl UniqueViolation
    | None, [] =>
        match owners d !! PublicKey_OwnerID k, owned_device (PublicKey_OwnerID k) (PublicKey_DeviceID k) d with
        | Some _, Some _ =>
            if KeyStatus_IsValid (PublicKey_Status k) then inr (1, set_pubkeys <[PublicKey_ID k := unsigned k]> d) else inl check_failed
        | _, _ => inl fk_failed
        end
    end) in st_ret tt.

Definition owned_pubkey (ownerID id : gostring) (d : db) : option PublicKey := of_owner PublicKey_OwnerID ownerID (pubkeys d !! id).
Definition by_key_id (a b : PublicKey) : bool := bytes_le (PublicKey_ID a) (PublicKey_ID b).

(** src/internal/storage/sqlite/publickey.go:60-66, publicKeyRepo.Get *)
Definition pubkey_Get (ownerID id : gostring) : stM conn PublicKey := query_row (owned_pubkey ownerID id).

(** src/internal/storage/sqlite/publickey.go:68-77, publicKeyRepo.ListByOwner *)
Definition pubkey_ListByOwner (ownerID : gostring) : stM conn (list PublicKey) :=
  query (λ d, ordered_by by_key_id (filter (λ k, PublicKey_OwnerID k = ownerID) (rows (pubkeys d)))).

(** src/internal/storage/sqlite/publickey.go:79-88, publicKeyRepo.ListByDevice *)
Definition pubkey_ListByDevice (ownerID deviceID : gostring) : stM conn (list PublicKey) :=
  query (λ d, ordered_by by_key_id (filter (λ k, PublicKey_OwnerID k = ownerID ∧ PublicKey_DeviceID k = deviceID) (rows (pubkeys d)))).

(** src/internal/storage/sqlite/publickey.go:90-96, publicKeyRepo.GetByFingerprint *)
Definition pubkey_GetByFingerprint (ownerID fingerprint : gostring) : stM conn PublicKey :=
  query_row (λ d, head (filter (λ k, PublicKey_OwnerID k = ownerID ∧ PublicKey_Fingerprint k = fingerprint) (rows (pubkeys d)))).

Definition revoked_key (now : time) (k : PublicKey) : PublicKey :=
  MkPublicKey (PublicKey_ID k) (PublicKey_OwnerID k) (PublicKey_DeviceID k) (PublicKey_Algorithm k) (PublicKey_Blob k)
    (PublicKey_Comment k) (PublicKey_Fingerprint k) (PublicKey_BitLen k) KeyStatusRevoked (PublicKey_CreatedAt k) now
    (Some now) (PublicKey_Signature k).

(** src/internal/storage/sqlite/publickey.go:98-115, publicKeyRepo.Revoke *)
Definition pubkey_Revoke (ownerID id : gostring) (now : time) : stM conn unit :=
  let! n := update_row set_pubkeys (owned_pubkey ownerID id) (λ _, true) (revoked_key now) id in requireAffected n.

Definition on_device (ownerID deviceID : gostring) (k : PublicKey) : Prop :=
  PublicKey_OwnerID k = ownerID ∧ PublicKey_DeviceID k = deviceID ∧ PublicKey_Status k = KeyStatusActive.

#[export] Instance on_device_dec ownerID deviceID k : Decision (on_device ownerID deviceID k).
Proof. unfold on_device. apply _. Defined.

(** src/internal/storage/sqlite/publickey.go:117-140, publicKeyRepo.RevokeByDevice *)
Definition pubkey_RevokeByDevice (ownerID deviceID : gostring) (now : time) : stM conn Z :=
  exec (λ d, inr (Z.of_nat (length (filter (on_device ownerID deviceID) (rows (pubkeys d)))),
                  set_pubkeys (fmap (λ k, if decide (on_device ownerID deviceID k) then revoked_key now k else k)) d)).

(** The keys of a set: those a membership row joins to it. *)
Definition joined (setID : gostring) (d : db) (k : PublicKey) : Prop := is_Some (members d !! (setID, PublicKey_ID k)).

(** src/internal/storage/sqlite/publickey.go:142-159, publicKeyRepo.ListActiveByKeySet *)
Definition pubkey_ListActiveByKeySet (ownerID setID : gostring) : stM conn (list PublicKey) :=
  query (λ d, ordered_by by_key_id
    (filter (λ k, PublicKey_OwnerID k = ownerID ∧ is_Some (members d !! (setID, PublicKey_ID k)) ∧ PublicKey_Status k = KeyStatusActive)
       (rows (pubkeys d)))).

(** ** key_sets *)

Definition named_set (ownerID name : gostring) (d : db) : list KeySet :=
  filter (λ s, KeySet_OwnerID s = ownerID ∧ KeySet_Name s = name) (rows (keysets d)).
Definition default_set (ownerID : gostring) (d : db) : list KeySet :=
  filter (λ s, KeySet_OwnerID s = ownerID ∧ KeySet_IsDefault s = true) (rows (keysets d)).

(** src/internal/storage/sqlite/keyset.go:38-64, keySetRepo.Create
    (unique: the id; the owner and name; the owner, among default sets) *)
Definition keyset_Create (s : KeySet) : stM conn unit :=
  let! _ := exec (λ d,
    match keysets d !! KeySet_ID s, named_set (KeySet_OwnerID s) (KeySet_Name s) d with
    | Some _, _ | None, _ :: _ => inl UniqueViolation
    | None, [] =>
        if KeySet_IsDefault s && negb (bool_decide (default_set (KeySet_OwnerID s) d = [])) then inl UniqueViolation else
        if negb (Visibility_IsValid (KeySet_Visibility s) && NameState_IsValid (KeySet_State s)) then inl check_failed else
        match owners d !! KeySet_OwnerID s with
        | Some _ => inr (1, set_keysets <[KeySet_ID s := s]> d)
        | None => inl fk_failed
        end
    end) in st_ret tt.

Definition owned_set (ownerID id : gostring) (d : db) : option KeySet := of_owner KeySet_OwnerID ownerID (keysets d !! id).

(** src/internal/storage/sqlite/keyset.go:66-71, keySetRepo.Get *)
Definition keyset_Get (ownerID id : gostring) : stM conn KeySet := query_row (owned_set ownerID id).

(** src/internal/storage/sqlite/keyset.go:73-78, keySetRepo.GetByName *)
Definition keyset_GetByName (ownerID name : gostring) : stM conn KeySet := query_row (λ d, head (named_set ownerID name d)).

(** src/internal/storage/sqlite/keyset.go:80-86, keySetRepo.GetDefault *)
Definition keyset_GetDefault (ownerID : gostring) : stM conn KeySet := query_row (λ d, head (default_set ownerID d)).

Definition sets_of (ownerID : gostring) (d : db) : list KeySet := filter (λ s, KeySet_OwnerID s = ownerID) (rows (keysets d)).
Definition by_set_id (a b : KeySet) : bool := bytes_le (KeySet_ID a) (KeySet_ID b).

(** src/internal/storage/sqlite/keyset.go:88-97, keySetRepo.ListByOwner *)
Definition keyset_ListByOwner (ownerID : gostring) : stM conn (list KeySet) := query (λ d, ordered_by by_set_id (sets_of ownerID d)).

(** src/internal/storage/sqlite/keyset.go:99-107, keySetRepo.CountByOwner *)
Definition keyset_CountByOwner (ownerID : gostring) : stM conn Z := query (λ d, Z.of_nat (length (sets_of ownerID d))).

(** src/internal/storage/sqlite/keyset.go:109-124, keySetRepo.LockOwnerForCreate *)
Definition keyset_LockOwnerForCreate (ownerID : gostring) : stM conn unit := st_ret tt.

(** The columns UPDATE sets; name, default flag and creation stay. *)
Definition updated_set (s old : KeySet) : KeySet :=
  MkKeySet (KeySet_ID old) (KeySet_OwnerID old) (KeySet_Name old) (KeySet_Visibility s) (KeySet_IsDefault old) (KeySet_State s)
    (KeySet_QuarantineUntil s) (KeySet_FlaggedForReview s) (KeySet_QuarantineOnRelease s) (KeySet_CreatedAt old) (KeySet_UpdatedAt s).

(** src/internal/storage/sqlite/keyset.go:126-158, keySetRepo.Update *)
Definition keyset_Update (s : KeySet) : stM conn unit :=
  let! n := exec (λ d, match owned_set (KeySet_OwnerID s) (KeySet_ID s) d with
                       | Some old =>
                           if Visibility_IsValid (KeySet_Visibility s) && NameState_IsValid (KeySet_State s)
                           then inr (1, set_keysets <[KeySet_ID s := updated_set s old]> d) else inl check_failed
                       | None => inr (0, d)
                       end) in requireAffected n.

Definition with_default (b : bool) (s : KeySet) : KeySet :=
  MkKeySet (KeySet_ID s) (KeySet_OwnerID s) (KeySet_Name s) (KeySet_Visibility s) b (KeySet_State s)
    (KeySet_QuarantineUntil s) (KeySet_FlaggedForReview s) (KeySet_QuarantineOnRelease s) (KeySet_CreatedAt s) (KeySet_UpdatedAt s).
Definition clear_default (ownerID : gostring) (s : KeySet) : KeySet :=
  if bool_decide (KeySet_OwnerID s = ownerID) && KeySet_IsDefault s then with_default false s else s.

(** src/internal/storage/sqlite/keyset.go:160-184, keySetRepo.SetDefault *)
Definition keyset_SetDefault (tx : bool) (ownerID id : gostring) : stM conn unit :=
  withLocalTx tx (
    let! _ := exec (λ d, inr (Z.of_nat (length (default_set ownerID d)), set_keysets (fmap (clear_default ownerID)) d)) in
    let! n := update_row set_keysets (owned_set ownerID id) (λ _, true) (with_default true) id in
    requireAffected n).

(** Rows of other tables that refer to a set. *)
Definition keys_of_set (setID : gostring) (d : db) : list AccessKey := filter (λ k, AccessKey_KeySetID k = setID) (rows (accesskeys d)).
Definition members_of (setID : gostring) (d : db) : list KeySetMembership :=
  filter (λ m, KeySetMembership_KeySetID m = setID) (snd <$> map_to_list (members d)).

(** src/internal/storage/sqlite/keyset.go:186-219, keySetRepo.Delete
    (access keys refer to their set: the row cannot go while there is one) *)
Definition keyset_Delete (tx : bool) (ownerID id : gostring) : stM conn unit :=
  withLocalTx tx (
    let! isDefault := query_row (λ d, KeySet_IsDefault <$> owned_set ownerID id d) in
    if (isDefault : bool) then st_fail ErrDefaultKeySet else
    let! _ := exec (λ d, inr (Z.of_nat (length (members_of id d)), set_members (filter (λ km, km.1.1 ≠ id)) d)) in
    let! n := exec (λ d, match owned_set ownerID id d with
                         | Some _ =>
                             if bool_decide (keys_of_set id d = []) && bool_decide (members_of id d = [])
                             then inr (1, set_keysets (delete id) d) else inl fk_failed
                         | None => inr (0, d)
                         end) in
    requireAffected n).

(** src/internal/storage/sqlite/keyset.go:221-254, keySetRepo.AddMember *)
Definition keyset_AddMember (ownerID setID keyID : gostring) (now : time) : stM conn unit :=
  let! n := exec (λ d, match owned_set ownerID setID d, owned_pubkey ownerID keyID d with
                       | Some _, Some _ =>
                           match members d !! (setID, keyID) with
                           | Some _ => inl UniqueViolation
                           | None => inr (1, set_members <[(setID, keyID) := MkKeySetMembership setID keyID now]> d)
                           end
                       | _, _ => inr (0, d)
                       end) in requireAffected n.

(** src/internal/storage/sqlite/keyset.go:256-271, keySetRepo.RemoveMember *)
Definition keyset_RemoveMember (ownerID setID keyID : gostring) : stM conn unit :=
  let! n := exec (λ d, match owned_set ownerID setID d, owned_pubkey ownerID keyID d, members d !! (setID, keyID) with
                       | Some _, Some _, Some _ => inr (1, set_members (delete (setID, keyID)) d)
                       | _, _, _ => inr (0, d)
                       end) in requireAffected n.

(** src/internal/storage/sqlite/keyset.go:273-307, keySetRepo.ListMembers *)
Definition keyset_ListMembers (ownerID setID : gostring) : stM conn (list KeySetMembership) :=
  query (λ d, match owned_set ownerID setID d with
              | Some _ => ordered_by (λ a b, bytes_le (KeySetMembership_PublicKeyID a) (KeySetMembership_PublicKeyID b)) (members_of setID d)
              | None => []
              end).

(** src/internal/storage/sqlite/keyset.go:309-326, keySetRepo.ListSetsForKey *)
Definition keyset_ListSetsForKey (ownerID keyID : gostring) : stM conn (list KeySet) :=
  query (λ d, match owned_pubkey ownerID keyID d with
              | Some _ => ordered_by by_set_id (filter (λ s, KeySet_OwnerID s = ownerID ∧ is_Some (members d !! (KeySet_ID s, keyID))) (rows (keysets d)))
              | None => []
              end).

Definition by_quarantine (a b : KeySet) : bool :=
  let t s := default 0 (KeySet_QuarantineUntil s) in (t a <? t b) || ((t a =? t b) && by_set_id a b).

(** src/internal/storage/sqlite/keyset.go:328-352, keySetRepo.ListExpiredQuarantine *)
Definition keyset_ListExpiredQuarantine (now : time) (limit : Z) : stM conn (list KeySet) :=
  if limit <=? 0 then st_fail (errorf "sqlite: list limit must be positive" [ErrInvalidInput]) else
  query (λ d, take (Z.to_nat limit) (ordered_by by_quarantine
    (filter (λ s, KeySet_State s = NameStateQuarantined ∧ match KeySet_QuarantineUntil s with Some t => t <=? now | None => false end = true)
       (rows (keysets d))))).

(** ** access_keys *)

(** src/internal/storage/sqlite/accesskey.go:43-71, accessKeyRepo.Create *)
Definition accesskey_Create (k : AccessKey) : stM conn unit :=
  let! _ := exec (λ d, match accesskeys d !! AccessKey_ID k, owners d !! AccessKey_OwnerID k, keysets d !! AccessKey_KeySetID k with
                       | Some _, _, _ => inl UniqueViolation
                       | None, Some _, Some _ =>
                           if AccessKeyStatus_IsValid (AccessKey_Status k) then inr (1, set_accesskeys <[AccessKey_ID k := k]> d)
                           else inl check_failed
                       | None, _, _ => inl fk_failed
                       end) in st_ret tt.

Definition owned_key (ownerID id : gostring) (d : db) : option AccessKey := of_owner AccessKey_OwnerID ownerID (accesskeys d !! id).
Definition by_access_id (a b : AccessKey) : bool := bytes_le (AccessKey_ID a) (AccessKey_ID b).

(** src/internal/storage/sqlite/accesskey.go:73-85, accessKeyRepo.Get *)
Definition accesskey_Get (ownerID id : gostring) : stM conn AccessKey := query_row (owned_key ownerID id).

(** src/internal/storage/sqlite/accesskey.go:87-101, accessKeyRepo.ListByKeySet *)
Definition accesskey_ListByKeySet (ownerID setID : gostring) : stM conn (list AccessKey) :=
  query (λ d, ordered_by by_access_id (filter (λ k, AccessKey_OwnerID k = ownerID ∧ AccessKey_KeySetID k = setID) (rows (accesskeys d)))).

(** src/internal/storage/sqlite/accesskey.go:103-114, accessKeyRepo.ListByOwner *)
Definition accesskey_ListByOwner (ownerID : gostring) : stM conn (list AccessKey) :=
  query (λ d, ordered_by by_access_id (filter (λ k, AccessKey_OwnerID k = ownerID) (rows (accesskeys d)))).

Definition grace_key (replacedBy : gostring) (graceUntil : time) (k : AccessKey) : AccessKey :=
  MkAccessKey (AccessKey_ID k) (AccessKey_OwnerID k) (AccessKey_KeySetID k) (AccessKey_Name k) (AccessKey_SecretHash k)
    AccessKeyStatusGrace (AccessKey_CreatedAt k) (AccessKey_RevokedAt k) (Some graceUntil) (Some replacedBy).

(** src/internal/storage/sqlite/accesskey.go:116-146, accessKeyRepo.MarkRotated *)
Definition accesskey_MarkRotated (ownerID id replacedBy : gostring) (graceUntil : time) : stM conn unit :=
  let! n := update_row set_accesskeys (owned_key ownerID id)
    (λ k, negb (bool_decide (AccessKey_Status k = AccessKeyStatusRevoked))) (grace_key replacedBy graceUntil) id in
  requireAffected n.

Definition retired_key (now : time) (k : AccessKey) : AccessKey :=
  MkAccessKey (AccessKey_ID k) (AccessKey_OwnerID k) (AccessKey_KeySetID k) (AccessKey_Name k) (AccessKey_SecretHash k)
    AccessKeyStatusRevoked (AccessKey_CreatedAt k) (Some (default now (AccessKey_RevokedAt k))) None None.

(** src/internal/storage/sqlite/accesskey.go:148-186, accessKeyRepo.Revoke *)
Definition accesskey_Revoke (ownerID id : gostring) (now : time) : stM conn unit :=
  let! n := update_row set_accesskeys (owned_key ownerID id) (λ _, true) (retired_key now) id in requireAffected n.

Definition past_grace (now : time) (k : AccessKey) : bool :=
  bool_decide (AccessKey_Status k = AccessKeyStatusGrace) && match AccessKey_GraceUntil k with Some t => t <=? now | None => false end.
Definition by_grace (a b : AccessKey) : bool :=
  let t k := default 0 (AccessKey_GraceUntil k) in (t a <? t b) || ((t a =? t b) && by_access_id a b).

(** src/internal/storage/sqlite/accesskey.go:188-218, accessKeyRepo.ListExpiredGrace *)
Definition accesskey_ListExpiredGrace (now : time) (limit : Z) : stM conn (list AccessKey) :=
  if limit <=? 0 then st_fail (errorf "sqlite: list limit must be positive" [ErrInvalidInput]) else
  query (λ d, take (Z.to_nat limit) (ordered_by by_grace (filter (λ k, past_grace now k = true) (rows (accesskeys d))))).

Close Scope stm_scope.

(** ** Rules *)

Lemma of_owner_Some {A} (owner_of : A → gostring) ownerID o a :
  of_owner owner_of ownerID o = Some a ↔ o = Some a ∧ owner_of a = ownerID.
Proof. unfold of_owner. destruct o as [x|]; [case_bool_decide|]; (split; [|intros []]); try done; intros; by simplify_eq. Qed.

Lemma wp_update_row {A} (b : bool) (set : (gmap gostring A → gmap gostring A) → db → db) (sel : db → option A) (cond : A → bool) (upd : A → A) (id : gostring) (d : db) Q :
  (∀ e, b = false → Q (Err (fault e)) d) →
  match sel d with
  | Some a => if cond a then Q (Ok 1) (set <[id := upd a]> d) else Q (Ok 0) d
  | None => Q (Ok 0) d
  end → wp b (update_row set sel cond upd id) d Q.
Proof.
  intros Hf H. unfold update_row. wp_step; [by apply Hf|]. destruct (sel d) as [a|]; [destruct (cond a)|]; done.
Qed.

(** An update followed by [requireAffected]: the row changed, or nothing did. *)
Lemma wp_update_required {A} (b : bool) (set : (gmap gostring A → gmap gostring A) → db → db) (sel : db → option A) (cond : A → bool) (upd : A → A) (id : gostring) (d : db) Q :
  (∀ e, b = false → Q (Err (fault e)) d) →
  match sel d with
  | Some a => if cond a then Q (Ok tt) (set <[id := upd a]> d) else Q (Err ErrNotFound) d
  | None => Q (Err ErrNotFound) d
  end → wp b (st_bind (update_row set sel cond upd id) requireAffected) d Q.
Proof.
  intros Hf H. wp_step. apply wp_update_row; [by apply Hf|].
  destruct (sel d) as [a|]; [destruct (cond a)|]; by wp_step.
Qed.
