(* ===== verification/AccessKey.v ===== *)
(** * Access keys

    [internal/service/accesskey]: the credentials a consumer presents to read a
    protected key set.  Token format (token.go), minting, listing and revocation
    (accesskey.go), rotation with its grace window (rotate.go), verification
    (verify.go) and the sweep that retires keys past their grace (expire.go).  The
    clock readings, random bytes and audit stamps of a call are its arguments; the
    auditor appends to the audit table of the same store. *)

From stdpp Require Import sorting.
From S2P Require Import Prelude DomainErrors GoLib Domain Sha256 Tokens Database StoreLogic AuditLog KeyRepos.

Open Scope Z_scope.

(** ** Tokens *)

(** src/internal/service/accesskey/token.go:31-34, tokenPrefix *)
Definition ak_tokenPrefix : gostring := go "vak_".
Definition ak_tokenSeparator : ascii := byte_of 46.

(** src/internal/service/accesskey/token.go:42-46, maxTokenLen *)
Definition maxTokenLen : Z := 256.

(** src/internal/service/accesskey/token.go:53-57, MinPepperLen *)
Definition MinPepperLen : Z := 32.

(** src/internal/service/accesskey/accesskey.go:101-105, ErrMissingDependency *)
Definition ak_ErrMissingDependency : goerror := errors_new "accesskey: missing dependency".

(** src/internal/service/accesskey/accesskey.go:92-99, ErrNotFound *)
Definition ak_ErrNotFound : goerror := errorf "accesskey: not found" [ErrNotFound].

(** src/internal/service/accesskey/token.go:94-103, newHasher *)
Definition newHasher (pepper : bytes) : result bytes :=
  if len pepper <? MinPepperLen then Err (errorf "pepper must be at least 32 bytes" [ak_ErrMissingDependency]) else Ok pepper.

(** src/internal/service/accesskey/token.go:105-114, hasher.hash *)
Definition hasher_hash (pepper : bytes) (id secret : gostring) : bytes := hmac_sha256 pepper (id ++ [byte_of 0] ++ secret).

(** src/internal/service/accesskey/token.go:116-126, hasher.equal *)
Definition hasher_equal (pepper stored : bytes) (id secret : gostring) : bool := bool_decide (stored = hasher_hash pepper id secret).

(** src/internal/service/accesskey/token.go:128-147, newToken
    ([raw]: the secret's 32 random bytes; [text]: [rand.Text()]) *)
Definition newToken (raw : bytes) (text : gostring) : gostring * gostring * gostring :=
  let secret := rawurl_b64 raw in (ak_tokenPrefix ++ text ++ [ak_tokenSeparator] ++ secret, text, secret).

Definition token_of (raw : bytes) (text : gostring) : gostring := (newToken raw text).1.1.

(** src/internal/service/accesskey/token.go:149-179, parseToken *)
Definition parseToken (presented : gostring) : option (gostring * gostring) :=
  if maxTokenLen <? len presented then None else
  match cut_prefix ak_tokenPrefix presented with
  | None => None
  | Some body =>
      let '(id, secret, ok) := cut ak_tokenSeparator body in
      if negb ok || bool_decide (id = []) || bool_decide (secret = []) then None else
      if contains [ak_tokenSeparator] secret then None else Some (id, secret)
  end.

(** ** The service *)

(** src/internal/service/accesskey/accesskey.go:112-116, defaultGraceWindow *)
Definition defaultGraceWindow : duration := 24 * Hour.

(** src/internal/service/accesskey/accesskey.go:107-110, maxNameLen *)
Definition ak_maxNameLen : Z := 64.

(** src/internal/service/accesskey/accesskey.go:125-144, Service
    (store, repositories and auditor are the connection the methods run on) *)
Record ak_service := MkAkService { ak_pepper : bytes; ak_graceWindow : duration }.

(** src/internal/service/accesskey/accesskey.go:181-251, New
    (with the one option that carries a value, [WithGraceWindow]) *)
Definition ak_New (pepper : bytes) (graceWindow : option duration) : result ak_service :=
  match newHasher pepper with
  | Err e => Err e
  | Ok h =>
      let w := default defaultGraceWindow graceWindow in
      if w <=? 0 then Err (errorf "grace window must be positive" [ak_ErrMissingDependency]) else Ok (MkAkService h w)
  end.

(** src/internal/service/accesskey/accesskey.go:433-451, cleanName *)
Definition cleanName (name : gostring) : result gostring :=
  let clean := trim_space name in
  if bool_decide (clean = []) then Err (errorf "accesskey: name is required" [ErrInvalidInput])
  else if ak_maxNameLen <? rune_count clean then Err (errorf "accesskey: name is longer than 64 characters" [ErrInvalidInput])
  else if negb (valid_utf8 clean) then Err (errorf "accesskey: name is not valid UTF-8" [ErrInvalidInput])
  else Ok clean.

(** An error of the store that means absence becomes the package's own verdict. *)
Definition ak_verdict (e : goerror) : goerror := if errors_is e ErrNotFound then ak_ErrNotFound else e.

Definition missing_owner : goerror := errorf "accesskey: missing owner" [ErrInvalidInput].
Definition unrecordable : goerror := errors_new "accesskey: stored key cannot be recorded".

Section service.
Context {U : UnicodeData} (s : ak_service).

(** [d.Set(key, value)] when the value is there. *)
Definition set_if (d : Details) (key value : gostring) : Details := if bool_decide (value = []) then d else Details_Set d key value.

(** src/internal/service/accesskey/accesskey.go:453-472, keyDetails *)
Definition ak_keyDetails (name setName requestID : gostring) : result Details :=
  let d := Details_Set no_details DetailClientLabel name in
  let d := set_if d DetailKeySetName setName in
  let d := set_if d DetailRequestID requestID in
  match D_err d with
  | Some _ => Err (errorf "accesskey: key cannot be recorded" [ErrInvalidInput])
  | None => Ok d
  end.

(** src/internal/service/accesskey/rotate.go:251-276, rotationDetails *)
Definition rotationDetails (old : AccessKey) (replacement setName requestID : gostring) : result Details :=
  let d := Details_Set no_details DetailClientLabel (AccessKey_Name old) in
  let d := Details_Set d DetailFrom (AccessKey_ID old) in
  let d := Details_Set d DetailTo replacement in
  let d := set_if d DetailKeySetName setName in
  let d := set_if d DetailRequestID requestID in
  match D_err d with
  | Some _ => Err (errorf "accesskey: rotation cannot be recorded" [ErrInvalidInput])
  | None => Ok d
  end.

Open Scope stm_scope.

(** src/internal/service/accesskey/accesskey.go:474-487, Service.emit *)
Definition ak_emit (st : stamp) (action ownerID id : gostring) (details : Details) : stM conn unit :=
  Emit st (MkEvent ActorTypeOwner ownerID action TargetTypeAccessKey id details).

(** src/internal/service/accesskey/expire.go:143-157, Service.emitSystem *)
Definition ak_emitSystem (st : stamp) (action id : gostring) (details : Details) : stM conn unit :=
  Emit st (MkEvent ActorTypeSystem [] action TargetTypeAccessKey id details).

(** src/internal/service/accesskey/accesskey.go:317-341, Service.keySet
    ([keySetIn] is the same on the transaction's repositories) *)
Definition ak_keySet (ownerID setID : gostring) : stM conn KeySet :=
  if bool_decide (setID = []) then st_fail ak_ErrNotFound else
  try! r := keyset_Get ownerID setID in
  match r with
  | Err e => st_fail (ak_verdict e)
  | Ok set => if bool_decide (KeySet_State set = NameStateActive) then st_ret set else st_fail ak_ErrNotFound
  end.

Definition ret_or {A} (r : result A) : stM conn A := match r with Ok a => st_ret a | Err e => st_fail e end.

Definition fresh_key (id ownerID setID name secret : gostring) (now : time) : AccessKey :=
  MkAccessKey id ownerID setID name (hasher_hash (ak_pepper s) id secret) AccessKeyStatusActive now None None None.

(** src/internal/service/accesskey/accesskey.go:253-315, Service.Mint *)
Definition ak_Mint (now : time) (raw : bytes) (text : gostring) (st : stamp) (ownerID setID name requestID : gostring) :
    stM conn (AccessKey * gostring) :=
  if bool_decide (ownerID = []) then st_fail missing_owner else
  let! clean := ret_or (cleanName name) in
  let! set := ak_keySet ownerID setID in
  let! details := ret_or (ak_keyDetails clean (KeySet_Name set) requestID) in
  let '(token, id, secret) := newToken raw text in
  let k := fresh_key id ownerID (KeySet_ID set) clean secret now in
  let! _ := accesskey_Create k in
  let! _ := ak_emit st (go "access_key.created") ownerID (AccessKey_ID k) details in
  st_ret (k, token).

(** src/internal/service/accesskey/accesskey.go:343-361, Service.List *)
Definition ak_List (ownerID : gostring) : stM conn (list AccessKey) :=
  if bool_decide (ownerID = []) then st_fail missing_owner else accesskey_ListByOwner ownerID.

(** src/internal/service/accesskey/accesskey.go:363-378, Service.ListBySet *)
Definition ak_ListBySet (ownerID setID : gostring) : stM conn (list AccessKey) :=
  if bool_decide (ownerID = []) then st_fail missing_owner else
  if bool_decide (setID = []) then st_fail (errorf "accesskey: missing key set" [ErrInvalidInput]) else
  accesskey_ListByKeySet ownerID setID.

(** src/internal/service/accesskey/accesskey.go:380-431, Service.Revoke *)
Definition ak_Revoke (now : time) (st : stamp) (ownerID id requestID : gostring) : stM conn unit :=
  if bool_decide (ownerID = []) then st_fail missing_owner else
  if bool_decide (id = []) then st_fail ak_ErrNotFound else
  try! r := accesskey_Get ownerID id in
  match r with
  | Err e => st_fail (ak_verdict e)
  | Ok k =>
      if bool_decide (AccessKey_Status k = AccessKeyStatusRevoked) then st_fail ak_ErrNotFound else
      match ak_keyDetails (AccessKey_Name k) [] requestID with
      | Err _ => st_fail unrecordable
      | Ok details =>
          try! r := accesskey_Revoke ownerID id now in
          match r with
          | Err e => st_fail (ak_verdict e)
          | Ok _ => ak_emit st (go "access_key.revoked") ownerID id details
          end
      end
  end.

(** src/internal/service/accesskey/rotate.go:208-229, Service.newRotatedKey *)
Definition newRotatedKey (raw : bytes) (text : gostring) (old : AccessKey) (set : KeySet) (now : time) : gostring * AccessKey :=
  let '(token, id, secret) := newToken raw text in
  (token, fresh_key id (AccessKey_OwnerID old) (KeySet_ID set) (AccessKey_Name old) secret now).

(** What the transaction of [Rotate] hands out. *)
Record rotation := MkRotation { rot_key : AccessKey; rot_token : gostring; rot_created : Details; rot_details : Details }.

Definition rotate_tx (now : time) (raw : bytes) (text ownerID id requestID : gostring) : stM conn rotation :=
  let! old := accesskey_Get ownerID id in
  if negb (bool_decide (AccessKey_Status old = AccessKeyStatusActive)) then st_fail ak_ErrNotFound else
  let! set := ak_keySet ownerID (AccessKey_KeySetID old) in
  let '(plaintext, newKey) := newRotatedKey raw text old set now in
  match ak_keyDetails (AccessKey_Name old) (KeySet_Name set) requestID, rotationDetails old (AccessKey_ID newKey) (KeySet_Name set) requestID with
  | Ok createdDetails, Ok rotateDetails =>
      let! _ := accesskey_Create newKey in
      let! _ := accesskey_MarkRotated ownerID id (AccessKey_ID newKey) (time_add now (ak_graceWindow s)) in
      st_ret (MkRotation newKey plaintext createdDetails rotateDetails)
  | _, _ => st_fail unrecordable
  end.

(** src/internal/service/accesskey/rotate.go:96-206, Service.Rotate *)
Definition ak_Rotate (now : time) (raw : bytes) (text : gostring) (st1 st2 : stamp) (ownerID id requestID : gostring) :
    stM conn (AccessKey * gostring) :=
  if bool_decide (ownerID = []) then st_fail missing_owner else
  if bool_decide (id = []) then st_fail ak_ErrNotFound else
  if ak_graceWindow s <=? 0 then st_fail (errorf "accesskey: grace window is not configured" [ErrInvalidInput]) else
  try! r := WithTx (rotate_tx now raw text ownerID id requestID) in
  match r with
  | Err e => st_fail (ak_verdict e)
  | Ok x =>
      let! _ := ak_emit st1 (go "access_key.created") ownerID (AccessKey_ID (rot_key x)) (rot_created x) in
      let! _ := ak_emit st2 (go "access_key.rotated") ownerID id (rot_details x) in
      st_ret (rot_key x, rot_token x)
  end.

(** src/internal/service/accesskey/verify.go:89-123, Service.usable *)
Definition ak_usable (now : time) (k : AccessKey) : bool :=
  match AccessKey_Status k with
  | AccessKeyStatusActive => true
  | AccessKeyStatusGrace => match AccessKey_GraceUntil k with Some t => negb (time_after now t) | None => false end
  | _ => false
  end.

(** src/internal/service/accesskey/verify.go:11-87, Service.Verify *)
Definition ak_Verify (now : time) (ownerID setID presented : gostring) : stM conn AccessKey :=
  if bool_decide (ownerID = []) || bool_decide (setID = []) then st_fail ak_ErrNotFound else
  match parseToken presented with
  | None => st_fail ak_ErrNotFound
  | Some (id, secret) =>
      try! r := accesskey_Get ownerID id in
      match r with
      | Err e => st_fail (ak_verdict e)
      | Ok k =>
          if negb (bool_decide (AccessKey_KeySetID k = setID)) then st_fail ak_ErrNotFound else
          if negb (ak_usable now k) then st_fail ak_ErrNotFound else
          if negb (hasher_equal (ak_pepper s) (AccessKey_SecretHash k) id secret) then st_fail ak_ErrNotFound else
          st_ret k
      end
  end.

(** The loop of [ExpireGrace]: [sts] are the stamps of the records it writes. *)
Definition expire_loop (now : time) : list stamp → list AccessKey → Z → stM conn (Z * option goerror) := fix loop sts ks retired :=
  match ks with
  | [] => st_ret (retired, None)
  | k :: ks' =>
      let st := default (MkStamp [] 0) (head sts) in
      match ak_keyDetails (AccessKey_Name k) [] [] with
      | Err _ => st_ret (retired, Some unrecordable)
      | Ok details =>
          try! r := accesskey_Revoke (AccessKey_OwnerID k) (AccessKey_ID k) now in
          match r with
          | Err e => if errors_is e ErrNotFound then loop (tail sts) ks' retired
                     else st_ret (retired, Some (errorf "accesskey: retire" [e]))
          | Ok _ =>
              try! r := ak_emitSystem st (go "access_key.revoked") (AccessKey_ID k) details in
              match r with
              | Err e => st_ret (retired, Some e)
              | Ok _ => loop (tail sts) ks' (retired + 1)
              end
          end
      end
  end.

(** src/internal/service/accesskey/expire.go:12-141, Service.ExpireGrace
    (the count is meaningful next to an error too) *)
Definition ak_ExpireGrace (now : time) (sts : list stamp) (limit : Z) : stM conn (Z * option goerror) :=
  if limit <? 1 then st_ret (0, Some (errorf "accesskey: expire grace batch must be >= 1" [ErrInvalidInput])) else
  try! r := accesskey_ListExpiredGrace now limit in
  match r with
  | Err e => st_ret (0, Some (errorf "accesskey: list expired grace" [e]))
  | Ok expired => expire_loop now sts expired 0
  end.

Close Scope stm_scope.
End service.

(** ** Rules for the service *)

Lemma wp_ret_or {A} b (r : result A) d (Q : result A → db → Prop) : Q r d → wp b (ret_or r) d Q.
Proof. unfold ret_or. destruct r; intros; by wp_step. Qed.

Lemma wp_keySet b ownerID setID d Q :
  (∀ e, Q (Err e) d) →
  (∀ set, owned_set ownerID setID d = Some set → KeySet_State set = NameStateActive → setID ≠ [] → Q (Ok set) d) →
  wp b (ak_keySet ownerID setID) d Q.
Proof.
  intros He Ho. unfold ak_keySet, keyset_Get. wp_step; [by wp_step|]. do 2 wp_step; [by wp_step|].
  destruct (owned_set ownerID setID d) as [set|] eqn:Es; [|by wp_step]. wp_step; wp_step; auto.
Qed.

Lemma set_if_built {U : UnicodeData} d k v : built d → built (set_if d k v).
Proof. intros. unfold set_if. case_match; auto with vallet. Qed.
#[export] Hint Resolve set_if_built : vallet.

Lemma keyDetails_built {U : UnicodeData} name setName requestID d : ak_keyDetails name setName requestID = Ok d → built d.
Proof. unfold ak_keyDetails. case_match; [done|]. intros [= <-]. auto with vallet. Qed.

(** ** The life of a key

    The table changes by three kinds of writes only; each is one statement or one
    transaction, so any interleaving of calls is a sequence of them. *)

Definition newborn (k : AccessKey) : Prop :=
  AccessKey_Status k = AccessKeyStatusActive ∧ AccessKey_GraceUntil k = None ∧ AccessKey_RevokedAt k = None ∧ AccessKey_ReplacedByID k = None.

Inductive key_step : gmap gostring AccessKey → gmap gostring AccessKey → Prop :=
| ks_mint t k : t !! AccessKey_ID k = None → newborn k → key_step t (<[AccessKey_ID k := k]> t)
| ks_retire t id k now : t !! id = Some k → key_step t (<[id := retired_key now k]> t)
| ks_rotate t id k k' until :
    t !! id = Some k → AccessKey_Status k = AccessKeyStatusActive → t !! AccessKey_ID k' = None → newborn k' →
    AccessKey_OwnerID k' = AccessKey_OwnerID k → AccessKey_Name k' = AccessKey_Name k →
    key_step t (<[id := grace_key (AccessKey_ID k') until k]> (<[AccessKey_ID k' := k']> t)).

(** What may become of a key. *)
Definition key_forward (a b : AccessKey) : Prop :=
  AccessKey_ID b = AccessKey_ID a ∧ AccessKey_OwnerID b = AccessKey_OwnerID a ∧ AccessKey_KeySetID b = AccessKey_KeySetID a ∧
  AccessKey_Name b = AccessKey_Name a ∧ AccessKey_SecretHash b = AccessKey_SecretHash a ∧ AccessKey_CreatedAt b = AccessKey_CreatedAt a ∧
  (AccessKey_Status a = AccessKeyStatusRevoked → AccessKey_Status b = AccessKeyStatusRevoked ∧
     (is_Some (AccessKey_RevokedAt a) → AccessKey_RevokedAt b = AccessKey_RevokedAt a)) ∧
  (AccessKey_Status a = AccessKeyStatusGrace →
     AccessKey_Status b = AccessKeyStatusRevoked ∨
     AccessKey_Status b = AccessKeyStatusGrace ∧ AccessKey_GraceUntil b = AccessKey_GraceUntil a ∧ AccessKey_ReplacedByID b = AccessKey_ReplacedByID a).

Lemma key_forward_refl a : key_forward a a.
Proof. unfold key_forward. split_and!; auto. Qed.

Lemma key_forward_trans a b c : key_forward a b → key_forward b c → key_forward a c.
Proof.
  intros (E1 & E2 & E3 & E4 & E5 & E6 & R1 & G1) (F1 & F2 & F3 & F4 & F5 & F6 & R2 & G2).
  split_and!; try congruence.
  - intros H. destruct (R1 H) as [Hb Hat]. destruct (R2 Hb) as [Hc Hat']. split; [done|]. intros Hs.
    rewrite Hat' by (rewrite Hat by done; done). by apply Hat.
  - intros H. destruct (G1 H) as [Hb|(Hb & Eg & Er)]; [left; by apply R2|].
    destruct (G2 Hb) as [Hc|(Hc & Eg' & Er')]; [by left|right]. split_and!; congruence.
Qed.

Lemma key_step_forward t t' id k : key_step t t' → t !! id = Some k → ∃ k', t' !! id = Some k' ∧ key_forward k k'.
Proof.
  intros H Hk. destruct H as [t j Hj _|t id' j now Hj|t id' j j' until Hj Ha Hj' _ _ _].
  - exists k. split; [|apply key_forward_refl]. rewrite lookup_insert_ne by (intros E; congruence). done.
  - destruct (decide (id = id')) as [<-|Hne]; [|exists k; split; [by rewrite lookup_insert_ne|apply key_forward_refl]].
    rewrite lookup_insert_eq. simplify_eq. eexists. split; [done|]. unfold key_forward, retired_key; simpl. split_and!; auto.
    intros _. split; [done|]. by intros [at' ->].
  - destruct (decide (id = id')) as [<-|Hne].
    + rewrite lookup_insert_eq. simplify_eq. eexists. split; [done|]. unfold key_forward, grace_key; simpl. split_and!; auto; congruence.
    + exists k. split; [|apply key_forward_refl]. rewrite lookup_insert_ne by done.
      rewrite lookup_insert_ne by (intros E; congruence). done.
Qed.

Lemma key_steps_forward t t' id k : steps key_step t t' → t !! id = Some k → ∃ k', t' !! id = Some k' ∧ key_forward k k'.
Proof.
  intros H. revert k. induction H as [t|t1 t2 t3 H1 _ IH]; intros k Hk; [eauto using key_forward_refl|].
  destruct (key_step_forward _ _ _ _ H1 Hk) as (k2 & Hk2 & F2). destruct (IH _ Hk2) as (k3 & Hk3 & F3).
  exists k3. split; [done|by eapply key_forward_trans].
Qed.

(** The shape of stored rows. *)
Definition key_ok (id : gostring) (k : AccessKey) : Prop :=
  AccessKey_ID k = id ∧
  match AccessKey_Status k with
  | AccessKeyStatusActive => AccessKey_GraceUntil k = None ∧ AccessKey_RevokedAt k = None ∧ AccessKey_ReplacedByID k = None
  | AccessKeyStatusGrace => is_Some (AccessKey_GraceUntil k) ∧ AccessKey_RevokedAt k = None ∧ is_Some (AccessKey_ReplacedByID k)
  | AccessKeyStatusRevoked => AccessKey_GraceUntil k = None ∧ is_Some (AccessKey_RevokedAt k) ∧ AccessKey_ReplacedByID k = None
  | AccessKeyStatusOther _ => False
  end.

Definition keys_ok (t : gmap gostring AccessKey) : Prop := map_Forall key_ok t.

Lemma newborn_ok k : newborn k → key_ok (AccessKey_ID k) k.
Proof. intros (H1 & H2 & H3 & H4). split; [done|]. rewrite H1. done. Qed.

Lemma key_step_ok t t' : key_step t t' → keys_ok t → keys_ok t'.
Proof.
  intros H Ht. destruct H as [t k _ Hn|t id k now Hk|t id k k' until Hk Ha _ Hn _ _].
  - apply map_Forall_insert_2; [by apply newborn_ok|done].
  - apply map_Forall_insert_2; [|done]. destruct (Ht _ _ Hk) as [E _]. split; [done|]. simpl. split_and!; eauto.
  - apply map_Forall_insert_2; [|apply map_Forall_insert_2; [by apply newborn_ok|done]]. destruct (Ht _ _ Hk) as [E Hs]. split; [done|].
    rewrite Ha in Hs. simpl. destruct Hs as (_ & Hr & _). split_and!; eauto.
Qed.

(** ** What the operations do *)

Section specs.
Context {U : UnicodeData} (s : ak_service).

Definition key_event (actor : ActorType) (who action id : gostring) (details : Details) : Event :=
  MkEvent actor who action TargetTypeAccessKey id details.

Lemma wp_accesskey_Create b k d Q :
  (∀ e, Q (Err e) d) →
  (accesskeys d !! AccessKey_ID k = None → is_Some (keysets d !! AccessKey_KeySetID k) → is_Some (owners d !! AccessKey_OwnerID k) →
     Q (Ok tt) (set_accesskeys <[AccessKey_ID k := k]> d)) →
  wp b (accesskey_Create k) d Q.
Proof.
  intros He Ho. unfold accesskey_Create. wp_step. wp_step; [apply He|].
  destruct (accesskeys d !! _) eqn:E; [apply He|]. destruct (owners d !! _) eqn:Eo; [|apply He].
  destruct (keysets d !! _) eqn:Es; [|apply He]. destruct (AccessKeyStatus_IsValid _); [|apply He]. wp_step. eauto.
Qed.

(** A new key is stored, or nothing is; the record of it follows, and the token is
    handed out only with the record written. *)
Lemma Mint_spec b now raw text st ownerID setID name requestID d :
  wp b (ak_Mint s now raw text st ownerID setID name requestID) d (λ r d',
    (∃ e, r = Err e ∧ d' = d) ∨
    ∃ set clean, let k := fresh_key s text ownerID (KeySet_ID set) clean (rawurl_b64 raw) now in
      ownerID ≠ [] ∧ setID ≠ [] ∧ owned_set ownerID setID d = Some set ∧ KeySet_State set = NameStateActive ∧ cleanName name = Ok clean ∧
      accesskeys d !! text = None ∧
      ((∃ e, r = Err e ∧ d' = set_accesskeys <[text := k]> d) ∨
       ∃ details, built details ∧ r = Ok (k, (token_of raw text)) ∧
         d' = set_audits <[stamp_id st := emitted st (key_event ActorTypeOwner ownerID (go "access_key.created") text details)]>
                (set_accesskeys <[text := k]> d))).
Proof.
  unfold ak_Mint. wp_step; [wp_step; eauto|]. wp_step. apply wp_ret_or. destruct (cleanName name) as [clean|e] eqn:Ec; [|eauto].
  wp_step. apply wp_keySet; [eauto|]. intros set Hs Ha Hne. wp_step. apply wp_ret_or.
  destruct (ak_keyDetails _ _ _) as [details|e] eqn:Ed; [|eauto]. unfold newToken. wp_step. apply wp_accesskey_Create; [eauto|].
  simpl. intros Hn _ _. wp_step. unfold ak_emit. apply wp_Emit.
  - intros e. right. exists set, clean. split_and!; try done. left. eauto.
  - intros _ _ _. wp_step. right. exists set, clean. split_and!; try done. right. exists details. split_and!; try done.
    by eapply keyDetails_built.
Qed.

Lemma wp_accesskey_Revoke b ownerID id now d Q :
  (∀ e, (b = true → owned_key ownerID id d = None) → Q (Err e) d) →
  (∀ k, accesskeys d !! id = Some k → AccessKey_OwnerID k = ownerID → Q (Ok tt) (set_accesskeys <[id := retired_key now k]> d)) →
  wp b (accesskey_Revoke ownerID id now) d Q.
Proof.
  intros He Ho. unfold accesskey_Revoke. apply wp_update_required; [intros; apply He; by intros ->|].
  destruct (owned_key ownerID id d) as [k|] eqn:E; [|by apply He]. apply of_owner_Some in E as [? ?]. auto.
Qed.

Lemma Revoke_spec b now st ownerID id requestID d :
  wp b (ak_Revoke now st ownerID id requestID) d (λ r d',
    (∃ e, r = Err e ∧ d' = d) ∨
    ∃ k, accesskeys d !! id = Some k ∧ AccessKey_OwnerID k = ownerID ∧ AccessKey_Status k ≠ AccessKeyStatusRevoked ∧
      ((∃ e, r = Err e ∧ d' = set_accesskeys <[id := retired_key now k]> d) ∨
       ∃ details, built details ∧ r = Ok tt ∧
         d' = set_audits <[stamp_id st := emitted st (key_event ActorTypeOwner ownerID (go "access_key.revoked") id details)]>
                (set_accesskeys <[id := retired_key now k]> d))).
Proof.
  unfold ak_Revoke. wp_step; [wp_step; eauto|]. wp_step; [wp_step; eauto|]. wp_step. unfold accesskey_Get. wp_step; [wp_step; eauto|].
  destruct (owned_key ownerID id d) as [k|] eqn:Ek; [|wp_step; eauto]. apply of_owner_Some in Ek as [Hk Ho].
  wp_step; [wp_step; eauto|]. destruct (ak_keyDetails _ _ _) as [details|] eqn:Ed; [|wp_step; eauto].
  wp_step. apply wp_accesskey_Revoke; [intros; wp_step; eauto|]. intros k' Hk' _. simplify_eq. unfold ak_emit. apply wp_Emit.
  - intros e. right. exists k. split_and!; try done. left. eauto.
  - intros _ _ _. right. exists k. split_and!; try done. right. exists details. split_and!; try done. by eapply keyDetails_built.
Qed.

(** The tables after a rotation. *)
Definition rotated (id : gostring) (old new : AccessKey) (until : time) : db → db :=
  λ d, set_accesskeys <[id := grace_key (AccessKey_ID new) until old]> (set_accesskeys <[AccessKey_ID new := new]> d).

Lemma rotate_tx_spec b now raw text ownerID id requestID d :
  wp b (rotate_tx s now raw text ownerID id requestID) d (λ r d',
    (∃ e, r = Err e) ∨
    ∃ old set x, let new := fresh_key s text ownerID (KeySet_ID set) (AccessKey_Name old) (rawurl_b64 raw) now in
      accesskeys d !! id = Some old ∧ AccessKey_OwnerID old = ownerID ∧ AccessKey_Status old = AccessKeyStatusActive ∧
      AccessKey_KeySetID old ≠ [] ∧ owned_set ownerID (AccessKey_KeySetID old) d = Some set ∧ KeySet_State set = NameStateActive ∧ accesskeys d !! text = None ∧
      r = Ok x ∧ rot_key x = new ∧ rot_token x = (token_of raw text) ∧ built (rot_created x) ∧ built (rot_details x) ∧
      d' = rotated id old new (now + ak_graceWindow s) d).
Proof.
  unfold rotate_tx, accesskey_Get. wp_step. wp_step; [eauto|]. destruct (owned_key ownerID id d) as [old|] eqn:Ek; [|eauto].
  apply of_owner_Some in Ek as [Hk Ho]. case_bool_decide as Ha; simpl negb; cbn iota; [|apply wp_fail; eauto]. wp_step.
  apply wp_keySet; [eauto|]. intros set Hs Hact Hne. unfold newRotatedKey, newToken. cbn beta iota zeta.
  destruct (ak_keyDetails _ _ _) as [cd|] eqn:Ec; [|wp_step; eauto].
  destruct (rotationDetails _ _ _ _) as [rd|] eqn:Er; [|wp_step; eauto]. wp_step.
  apply wp_accesskey_Create; [eauto|]. simpl. intros Hn _ _. wp_step. unfold accesskey_MarkRotated.
  apply wp_update_required; [eauto|]. unfold owned_key at 1. simpl. rewrite lookup_insert_ne by congruence. rewrite Hk. simpl.
  rewrite bool_decide_eq_true_2 by done. rewrite (bool_decide_eq_false_2 (AccessKey_Status old = _)) by congruence. simpl. wp_step.
  right. exists old, set, (MkRotation (fresh_key s text ownerID (KeySet_ID set) (AccessKey_Name old) (rawurl_b64 raw) now)
    (token_of raw text) cd rd). rewrite Ho. split_and!; try done; [by eapply keyDetails_built|].
  simpl. unfold rotationDetails in Er. destruct (D_err _); [done|]. injection Er as <-. auto 10 with vallet.
Qed.

Lemma Rotate_spec b now raw text st1 st2 ownerID id requestID d :
  wp b (ak_Rotate s now raw text st1 st2 ownerID id requestID) d (λ r d',
    (∃ e, r = Err e ∧ d' = d) ∨
    ∃ old set, let new := fresh_key s text ownerID (KeySet_ID set) (AccessKey_Name old) (rawurl_b64 raw) now in
      accesskeys d !! id = Some old ∧ AccessKey_OwnerID old = ownerID ∧ AccessKey_Status old = AccessKeyStatusActive ∧
      AccessKey_KeySetID old ≠ [] ∧ owned_set ownerID (AccessKey_KeySetID old) d = Some set ∧ KeySet_State set = NameStateActive ∧ accesskeys d !! text = None ∧
      (∃ au, d' = set_audits au (rotated id old new (now + ak_graceWindow s) d)) ∧
      (∀ x, r = Ok x → x = (new, (token_of raw text)) ∧ ∃ d1 d2, built d1 ∧ built d2 ∧
         d' = set_audits <[stamp_id st2 := emitted st2 (key_event ActorTypeOwner ownerID (go "access_key.rotated") id d2)]>
               (set_audits <[stamp_id st1 := emitted st1 (key_event ActorTypeOwner ownerID (go "access_key.created") text d1)]>
                 (rotated id old new (now + ak_graceWindow s) d)))).
Proof.
  unfold ak_Rotate. do 3 (wp_step; [wp_step; eauto|]). wp_step. wp_step; [wp_step; eauto|].
  eapply wp_mono; [apply rotate_tx_spec|]. intros r d' [[e ->]|(old & set & x & Hk & Ho & Ha & Hne & Hs & Hact & Hn & -> & Hx & Ht & Hc & Hr & ->)].
  - wp_step. eauto.
  - split; [|intros _ e; wp_step; eauto]. wp_step. unfold ak_emit. rewrite Hx. simpl. apply wp_Emit.
    + intros e. right. exists old, set. split_and!; try done. by exists (λ t, t).
    + intros _ _ _. wp_step. apply wp_Emit.
      * intros e. right. exists old, set. split_and!; try done. eexists. reflexivity.
      * intros _ _ _. wp_step. right. exists old, set. split_and!; try done.
        -- exists (λ t, <[stamp_id st2 := emitted st2 (key_event ActorTypeOwner ownerID (go "access_key.rotated") id (rot_details x))]>
             (<[stamp_id st1 := emitted st1 (key_event ActorTypeOwner ownerID (go "access_key.created") text (rot_created x))]> t)). done.
        -- intros y [= <-]. split; [by rewrite Ht|]. by exists (rot_created x), (rot_details x).
Qed.

(** A pass that stops: keys of the list retired one by one, nothing else touched; on
    a store that answers, a pass that reports no error has retired them all. *)
Definition expire_post (b : bool) (n : Z) (ks : list AccessKey) (d : db) (r : result (Z * option goerror)) (d' : db) : Prop :=
  ∃ m e, r = Ok (m, e) ∧ n ≤ m ≤ n + Z.of_nat (length ks) ∧ steps key_step (accesskeys d) (accesskeys d') ∧ keysets d' = keysets d ∧
    (∀ id, id ∉ AccessKey_ID <$> ks → accesskeys d' !! id = accesskeys d !! id) ∧
    (b = true → e = None → ∀ k, k ∈ ks → is_Some (owned_key (AccessKey_OwnerID k) (AccessKey_ID k) d) →
       ∃ k', accesskeys d' !! AccessKey_ID k = Some k' ∧ AccessKey_Status k' = AccessKeyStatusRevoked).

Lemma expire_stop b n ks d e : e ≠ None ∨ ks = [] → expire_post b n ks d (Ok (n, e)) d.
Proof.
  intros He. exists n, e. split_and!; try done; [lia|constructor|]. intros _ ->. destruct He as [?|E]; [done|rewrite E]. by intros ? ?%not_elem_of_nil.
Qed.

(** The effect of the turn of the loop for [k]. *)
Definition turned (b : bool) (k : AccessKey) (d d1 : db) : Prop :=
  keysets d1 = keysets d ∧
  ((accesskeys d1 = accesskeys d ∧ (b = true → owned_key (AccessKey_OwnerID k) (AccessKey_ID k) d = None)) ∨
   ∃ k' now, accesskeys d !! AccessKey_ID k = Some k' ∧ accesskeys d1 = <[AccessKey_ID k := retired_key now k']> (accesskeys d)).

Lemma turned_owned b k j d d1 : turned b k d d1 → is_Some (owned_key (AccessKey_OwnerID j) (AccessKey_ID j) d) →
  is_Some (owned_key (AccessKey_OwnerID j) (AccessKey_ID j) d1).
Proof.
  intros [_ [ [E _] | (k' & now & Hk & E)]]; unfold owned_key; rewrite E; [done|]. destruct (decide (AccessKey_ID k = AccessKey_ID j)) as [Ej|Ej].
  - rewrite Ej, lookup_insert_eq. rewrite Ej in Hk. rewrite Hk. simpl. by case_bool_decide; [eauto|].
  - by rewrite lookup_insert_ne.
Qed.

Lemma expire_more b (i n : Z) k ks d d1 r d' : 0 ≤ i ≤ 1 → turned b k d d1 → expire_post b (n + i) ks d1 r d' → expire_post b n (k :: ks) d r d'.
Proof.
  intros Hi Ht (m & e & -> & Hm & Hst & Hks & Hoth & Hall). pose proof Ht as [Hk Hd]. exists m, e. simpl length.
  split_and!; [done|lia|lia| |congruence| |].
  - destruct Hd as [ [<- _]|(k' & now & Hk' & E)]; [done|]. rewrite E in Hst. eapply steps_cons; [by apply ks_retire|done].
  - intros id Hid. rewrite fmap_cons in Hid. apply not_elem_of_cons in Hid as [Hne Hid]. rewrite Hoth by done.
    destruct Hd as [ [-> _]|(k' & now & Hk' & ->)]; [done|]. by rewrite lookup_insert_ne.
  - intros Hb He j [->|Hj]%elem_of_cons Ho; [|apply Hall; eauto using turned_owned].
    destruct Hd as [ [_ Hno]|(k' & now & Hk' & E)]; [rewrite (Hno Hb) in Ho; by destruct Ho|]. rewrite E in Hst.
    destruct (key_steps_forward _ _ (AccessKey_ID k) (retired_key now k') Hst) as (k2 & Hk2 & _ & _ & _ & _ & _ & _ & Hr & _);
      [by rewrite lookup_insert_eq|]. exists k2. split; [done|by apply Hr].
Qed.

Lemma expire_loop_spec b now sts ks n d : wp b (expire_loop now sts ks n) d (expire_post b n ks d).
Proof.
  revert sts n d. induction ks as [|k ks IH]; intros sts n d; simpl; [wp_step; apply expire_stop; by right|].
  destruct (ak_keyDetails _ _ _) as [details|]; [|wp_step; apply expire_stop; by left]. wp_step. apply wp_accesskey_Revoke.
  - intros e Hno. destruct (errors_is e ErrNotFound); [|wp_step; apply expire_stop; by left]. eapply wp_mono; [apply IH|].
    intros r d' H. apply (expire_more b 0) with d; [lia|split; auto|]. by rewrite Z.add_0_r.
  - intros k' Hk' _. wp_step. unfold ak_emitSystem. apply wp_Emit.
    + intros e. wp_step. exists n, (Some e). simpl length. split_and!; try done; try lia; [apply steps_one; by apply ks_retire|].
      intros id Hid. rewrite fmap_cons in Hid. apply not_elem_of_cons in Hid as [Hne _]. simpl. by rewrite lookup_insert_ne.
    + intros _ _ _. eapply wp_mono; [apply IH|]. intros r d' H. eapply (expire_more b 1) in H; [exact H|lia|].
      split; [done|]. right. by exists k', now.
Qed.

(** The keys a sweep at [now] is for. *)
Definition due (now : time) (d : db) : list AccessKey := filter (λ k, past_grace now k = true) (rows (accesskeys d)).

Lemma ExpireGrace_spec b now sts limit d :
  wp b (ak_ExpireGrace now sts limit) d (λ r d', ∃ ks,
    Z.of_nat (length ks) ≤ Z.max 0 limit ∧ Forall (λ k, k ∈ due now d) ks ∧ expire_post b 0 ks d r d' ∧
    ((∃ e, r = Ok (0, Some e)) ∨ (Z.of_nat (length (due now d)) ≤ limit → ∀ k, k ∈ due now d → k ∈ ks))).
Proof.
  unfold ak_ExpireGrace, accesskey_ListExpiredGrace.
  assert (∀ e, ∃ ks, Z.of_nat (length ks) ≤ Z.max 0 limit ∧ Forall (λ k, k ∈ due now d) ks ∧ expire_post b 0 ks d (Ok (0, Some e)) d ∧
    ((∃ e', Ok (0, Some e) = Ok (0, Some e')) ∨ (Z.of_nat (length (due now d)) ≤ limit → ∀ k, k ∈ due now d → k ∈ ks))) as Hstop.
  { intros e. exists []. split_and!; [simpl; lia|done|apply expire_stop; by right|eauto]. }
  wp_step; [wp_step; apply Hstop|]. wp_step. rewrite (proj2 (Z.leb_gt _ _)) by lia. wp_step; [wp_step; apply Hstop|].
  eapply wp_mono; [apply expire_loop_spec|]. intros r d' H. eexists. split_and!; [| |exact H|right].
  - rewrite length_take. lia.
  - apply Forall_take, Forall_forall. intros k Hk. by apply elem_of_ordered in Hk.
  - intros Hl k Hk. rewrite take_ge; [by apply elem_of_ordered|]. unfold ordered_by. rewrite merge_sort_Permutation. unfold due in Hl. lia.
Qed.
End specs.

(** ** Theorems *)

Lemma rawurl_nonempty raw : raw ≠ [] → rawurl_b64 raw ≠ [].
Proof. intros H E. pose proof (rawurl_decode_encode raw) as R. rewrite E in R. by injection R as <-. Qed.

Lemma parseToken_newToken raw text :
  text ≠ [] → ak_tokenSeparator ∉ text → raw ≠ [] → len (token_of raw text) ≤ maxTokenLen →
  parseToken (token_of raw text) = Some (text, rawurl_b64 raw).
Proof.
  intros Ht Hs Hr Hl. unfold parseToken. rewrite (proj2 (Z.ltb_ge _ _)) by lia.
  unfold token_of, newToken. cbn [fst snd]. rewrite cut_prefix_app. change ([?x] ++ ?l) with (x :: l). rewrite cut_app by done. rewrite (bool_decide_eq_false_2 _ Ht), (bool_decide_eq_false_2 _ (rawurl_nonempty _ Hr)). simpl.
  rewrite (proj2 (contains_byte _ _)); [done|]. apply rawurl_no_sep.
Qed.

(** When a key opens its set. *)
Definition opens (now : time) (k : AccessKey) : Prop :=
  AccessKey_Status k = AccessKeyStatusActive ∨
  AccessKey_Status k = AccessKeyStatusGrace ∧ ∃ t, AccessKey_GraceUntil k = Some t ∧ now ≤ t.

Lemma ak_usable_iff now k : ak_usable now k = true ↔ opens now k.
Proof.
  unfold ak_usable, opens, time_after. destruct (AccessKey_Status k); split; try done; try (by intros [?|[? _]]); try (by left).
  - destruct (AccessKey_GraceUntil k) as [t|]; [|done]. intros H. reflect_bools. right. eauto.
  - intros [|(_ & t & -> & Ht)]; [done|]. apply negb_true_iff, Z.ltb_ge. lia.
Qed.

(** The key a presented token names, if it is one of that owner's set and opens. *)
Definition accepts (s : ak_service) (now : time) (ownerID setID presented : gostring) (d : db) (k : AccessKey) : Prop :=
  ownerID ≠ [] ∧ setID ≠ [] ∧ ∃ id secret, parseToken presented = Some (id, secret) ∧ accesskeys d !! id = Some k ∧
    AccessKey_OwnerID k = ownerID ∧ AccessKey_KeySetID k = setID ∧ opens now k ∧ AccessKey_SecretHash k = hasher_hash (ak_pepper s) id secret.

Lemma Verify_spec b s now ownerID setID presented d :
  wp b (ak_Verify s now ownerID setID presented) d (λ r d', d' = d ∧
    match r with
    | Ok k => accepts s now ownerID setID presented d k
    | Err e => b = true → ∀ k, ¬ accepts s now ownerID setID presented d k
    end).
Proof.
  unfold ak_Verify, accesskey_Get. destruct (decide (ownerID = [])) as [->|Ho].
  { rewrite bool_decide_eq_true_2 by done. simpl orb. wp_step. split; [done|]. by intros _ k []. }
  destruct (decide (setID = [])) as [->|Hs].
  { rewrite (bool_decide_eq_false_2 _ Ho), (bool_decide_eq_true_2 ([] = [])) by done. simpl orb. wp_step. split; [done|]. by intros _ k (_ & ? & _). }
  rewrite (bool_decide_eq_false_2 _ Ho), (bool_decide_eq_false_2 _ Hs). simpl orb. cbn iota.
  destruct (parseToken presented) as [[id secret]|] eqn:Ep; [|wp_step; split; [done|]; by intros _ k (_ & _ & ? & ? & ? & _); simplify_eq].
  wp_step. wp_step; [wp_step; by subst b|]. destruct (owned_key ownerID id d) as [k|] eqn:Ek.
  2:{ wp_step. split; [done|]. intros _ k (_ & _ & ? & ? & ? & Hk & Hk' & _). simplify_eq. unfold owned_key in Ek. rewrite Hk in Ek. simpl in Ek.
      by rewrite bool_decide_eq_true_2 in Ek. }
  apply of_owner_Some in Ek as [Hk Hko].
  assert (∀ k', accepts s now ownerID setID presented d k' → k' = k ∧ AccessKey_KeySetID k = setID ∧ opens now k ∧
    AccessKey_SecretHash k = hasher_hash (ak_pepper s) id secret) as Hacc.
  { intros k' (_ & _ & ? & ? & ? & ? & ? & ? & ? & ?). by simplify_eq. }
  destruct (decide (AccessKey_KeySetID k = setID)) as [Hset|Hset]; [rewrite (bool_decide_eq_true_2 _ Hset)|rewrite (bool_decide_eq_false_2 _ Hset)]; simpl negb; cbn iota.
  2:{ wp_step. split; [done|]. by intros _ k' (_ & ? & _)%Hacc. }
  destruct (ak_usable now k) eqn:Eu; simpl negb; cbn iota.
  2:{ wp_step. split; [done|]. intros _ k' (_ & _ & Hop & _)%Hacc. apply ak_usable_iff in Hop. congruence. }
  unfold hasher_equal. destruct (decide (AccessKey_SecretHash k = hasher_hash (ak_pepper s) id secret)) as [Hh|Hh];
    [rewrite (bool_decide_eq_true_2 _ Hh)|rewrite (bool_decide_eq_false_2 _ Hh)]; simpl negb; cbn iota; wp_step.
  - split; [done|]. split_and!; try done. exists id, secret. split_and!; try done. by apply ak_usable_iff.
  - split; [done|]. by intros _ k' (_ & _ & _ & ?)%Hacc.
Qed.

(** Reading [Verify_spec] at a run. *)
Lemma Verify_Ok s now ownerID setID presented c k c' :
  ak_Verify s now ownerID setID presented c = (Ok k, c') → accepts s now ownerID setID presented (data c) k.
Proof. intros E. apply (wp_run _ _ _ _ c _ c' (Verify_spec false s now ownerID setID presented (data c)) eq_refl ltac:(done) E). Qed.

Lemma accepts_unique s now ownerID setID presented d k k' :
  accepts s now ownerID setID presented d k → accepts s now ownerID setID presented d k' → k = k'.
Proof. intros (_ & _ & ? & ? & ? & ? & _) (_ & _ & ? & ? & ? & ? & _). by simplify_eq. Qed.

Lemma Verify_accepts s now ownerID setID presented c k : faults c = [] →
  accepts s now ownerID setID presented (data c) k → fst (ak_Verify s now ownerID setID presented c) = Ok k.
Proof.
  intros Hf Hk. destruct (ak_Verify _ _ _ _ _ c) as [r c'] eqn:E.
  destruct (wp_run _ _ _ _ c r c' (Verify_spec true s now ownerID setID presented (data c)) eq_refl (λ _, Hf) E) as [_ H].
  destruct r as [k'|e]; [|by destruct (H eq_refl k)]. simpl. f_equal. by eapply accepts_unique.
Qed.

(** C16. Verification is exact.  Whatever the store does, a success returns a stored key
    of exactly that owner and that set that is active or within its grace window and
    whose stored digest is that of the presented secret, and nothing is written; when the store
    answers, every such key is accepted. *)
Theorem Verify_exact s now ownerID setID presented c r c' :
  ak_Verify s now ownerID setID presented c = (r, c') →
  data c' = data c ∧
  (∀ k, r = Ok k → accepts s now ownerID setID presented (data c) k) ∧
  (faults c = [] → ∀ k, accepts s now ownerID setID presented (data c) k → r = Ok k).
Proof.
  intros E. split; [|split].
  - by destruct (wp_run _ _ _ _ c r c' (Verify_spec false s now ownerID setID presented (data c)) eq_refl ltac:(done) E).
  - intros k ->. by eapply Verify_Ok.
  - intros Hf k Hk. apply (Verify_accepts _ _ _ _ _ c k Hf) in Hk. by rewrite E in Hk.
Qed.

(** One step of the system, as the access keys see it: a call of the service, or the
    single UPDATE of a revocation whose other parts are still to run or have run
    before, or anything that leaves the table of access keys alone. *)
Inductive ak_step {U : UnicodeData} (s : ak_service) : conn → conn → Prop :=
| step_Mint c now raw text st ownerID setID name requestID r c' :
    ak_Mint s now raw text st ownerID setID name requestID c = (r, c') → ak_step s c c'
| step_Revoke c now st ownerID id requestID r c' : ak_Revoke now st ownerID id requestID c = (r, c') → ak_step s c c'
| step_Rotate c now raw text st1 st2 ownerID id requestID r c' :
    ak_Rotate s now raw text st1 st2 ownerID id requestID c = (r, c') → ak_step s c c'
| step_ExpireGrace c now sts limit r c' : ak_ExpireGrace now sts limit c = (r, c') → ak_step s c c'
| step_retire c ownerID id now r c' : accesskey_Revoke ownerID id now c = (r, c') → ak_step s c c'
| step_other c c' : accesskeys (data c') = accesskeys (data c) → ak_step s c c'.

Lemma fresh_newborn s id ownerID setID name secret now : newborn (fresh_key s id ownerID setID name secret now).
Proof. done. Qed.

Lemma ak_step_keys {U : UnicodeData} s c c' : ak_step s c c' → steps key_step (accesskeys (data c)) (accesskeys (data c')).
Proof.
  intros [c0 now raw text st ownerID setID name requestID r c1 E|c0 now st ownerID id requestID r c1 E
    |c0 now raw text st1 st2 ownerID id requestID r c1 E|c0 now sts limit r c1 E|c0 ownerID id now r c1 E|c0 c1 E].
  - apply (wp_run false _ _ _ _ _ _ (Mint_spec s false now raw text st ownerID setID name requestID _) eq_refl) in E; [|done].
    destruct E as [(e & _ & ->)|(set & clean & _ & _ & _ & _ & _ & Hn & [(e & _ & ->)|(de & _ & _ & ->)])]; [constructor| |];
      apply steps_one; by apply (ks_mint _ (fresh_key s text ownerID (KeySet_ID set) clean (rawurl_b64 raw) now)).
  - apply (wp_run false _ _ _ _ _ _ (Revoke_spec false now st ownerID id requestID _) eq_refl) in E; [|done].
    destruct E as [(e & _ & ->)|(k & Hk & _ & _ & [(e & _ & ->)|(de & _ & _ & ->)])]; [constructor| |]; apply steps_one; by apply ks_retire.
  - apply (wp_run false _ _ _ _ _ _ (Rotate_spec s false now raw text st1 st2 ownerID id requestID _) eq_refl) in E; [|done].
    destruct E as [(e & _ & ->)|(old & set & Hk & Ho & Ha & _ & _ & _ & Hn & [au ->] & _)]; [constructor|].
    apply steps_one. by apply (ks_rotate _ id old (fresh_key s text ownerID (KeySet_ID set) (AccessKey_Name old) (rawurl_b64 raw) now)).
  - apply (wp_run false _ _ _ _ _ _ (ExpireGrace_spec false now sts limit _) eq_refl) in E; [|done].
    by destruct E as (ks & _ & _ & (m & e & _ & _ & Hst & _) & _).
  - apply (wp_run false _ (data c0) (λ _ d', d' = data c0 ∨ ∃ k, accesskeys (data c0) !! id = Some k ∧ d' = set_accesskeys <[id := retired_key now k]> (data c0)) _ _ _) in E;
      [|apply wp_accesskey_Revoke; eauto|done|done]. destruct E as [->|(k & Hk & ->)]; [constructor|]. apply steps_one. by apply ks_retire.
  - rewrite E. constructor.
Qed.

Lemma steps_map {A B} (R : A → A → Prop) (S : B → B → Prop) (f : A → B) a b :
  (∀ x y, R x y → steps S (f x) (f y)) → steps R a b → steps S (f a) (f b).
Proof. intros H. induction 1 as [|a b c Hab _ IH]; [constructor|]. eapply steps_app; eauto. Qed.

Lemma ak_steps_ok {U : UnicodeData} s c c' : steps (ak_step s) c c' → keys_ok (accesskeys (data c)) → keys_ok (accesskeys (data c')).
Proof.
  intros H Hok. apply (steps_map _ key_step (λ c, accesskeys (data c))) in H; [|apply ak_step_keys].
  eapply steps_invariant; [|exact Hok|exact H]. intros x y Hx Hxy. by eapply key_step_ok.
Qed.

(** C17. The life of an access key.  Under any sequence of calls, interleaved with one
    another and with anything else, stored rows keep their shape (only a key in grace
    has a deadline and a successor, only a revoked one a revocation instant), no row
    disappears or changes owner, set, name or secret, a revoked key stays revoked with
    the instant it was revoked at, and a key in grace keeps its deadline until it is
    revoked: a grace window is never extended. *)
Theorem access_key_lifecycle {U : UnicodeData} s c c' :
  steps (ak_step s) c c' → keys_ok (accesskeys (data c)) →
  keys_ok (accesskeys (data c')) ∧
  ∀ id k, accesskeys (data c) !! id = Some k → ∃ k', accesskeys (data c') !! id = Some k' ∧ key_forward k k'.
Proof.
  intros H Hok. split; [by eapply ak_steps_ok|]. apply (steps_map _ key_step (λ c, accesskeys (data c))) in H; [|apply ak_step_keys].
  intros id k Hk. by eapply key_steps_forward.
Qed.

(** Revocation is final: once [Revoke] has succeeded, no sequence of calls makes any
    token that names the key open anything again, whoever presents it, for whichever
    set and at whatever time. *)
Theorem revoked_access_key_is_dead {U : UnicodeData} s now st ownerID id requestID c c1 c2 :
  ak_Revoke now st ownerID id requestID c = (Ok tt, c1) → steps (ak_step s) c1 c2 →
  ∀ later ownerID' setID presented secret, parseToken presented = Some (id, secret) →
    is_ok (fst (ak_Verify s later ownerID' setID presented c2)) = false.
Proof.
  intros E H later ownerID' setID presented secret Hp.
  apply (wp_run false _ _ _ _ _ _ (Revoke_spec false now st ownerID id requestID _) eq_refl) in E; [|done].
  destruct E as [(e & ? & _)|(k & Hk & _ & _ & [(e & ? & _)|(de & _ & _ & Hd)])]; [done|done|].
  apply (steps_map _ key_step (λ c, accesskeys (data c))) in H; [|apply ak_step_keys]. rewrite Hd in H. simpl in H.
  destruct (key_steps_forward _ _ id (retired_key now k) H) as (k' & Hk' & _ & _ & _ & _ & _ & _ & Hr & _); [by rewrite lookup_insert_eq|].
  destruct (Hr eq_refl) as [Hrev _]. destruct (ak_Verify _ _ _ _ _ c2) as [[k2|] c3] eqn:Ev; [|done].
  apply Verify_Ok in Ev as (_ & _ & id2 & sec2 & Hp2 & Hk2 & _ & _ & Hop & _). simplify_eq. by destruct Hop as [?|[? _]]; congruence.
Qed.

(** What [crypto/rand] supplies: 32 random bytes, and a text of base32 characters. *)
Definition token_entropy (raw text : bytes) : Prop :=
  raw ≠ [] ∧ text ≠ [] ∧ (ak_tokenSeparator ∉ text) ∧ len (token_of raw text) ≤ maxTokenLen.

Lemma fresh_accepted s now t raw text ownerID setID name d : token_entropy raw text → ownerID ≠ [] → setID ≠ [] →
  let k := fresh_key s text ownerID setID name (rawurl_b64 raw) now in
  accesskeys d !! text = Some k → accepts s t ownerID setID (token_of raw text) d k.
Proof.
  intros (Hr & Ht & Hs & Hl) Ho Hset k Hk. split_and!; try done. exists text, (rawurl_b64 raw).
  split_and!; try done; [by apply parseToken_newToken|by left].
Qed.

(** A minted token works: after [Mint] the token it returned verifies, at any time,
    for exactly the owner and the set it was minted for, and yields the stored key; the
    set was an active one of that owner, and the audit log holds the record of it. *)
Theorem minted_token_verifies {U : UnicodeData} s now raw text st ownerID setID name requestID c k token c' :
  token_entropy raw text → keyed KeySet_ID (keysets (data c)) →
  ak_Mint s now raw text st ownerID setID name requestID c = (Ok (k, token), c') →
  AccessKey_OwnerID k = ownerID ∧ AccessKey_KeySetID k = setID ∧
  (∃ set, keysets (data c) !! setID = Some set ∧ KeySet_OwnerID set = ownerID ∧ KeySet_State set = NameStateActive) ∧
  (∃ r, audits (data c') !! stamp_id st = Some r ∧ Audit_ActorID r = ownerID ∧ Audit_TargetID r = AccessKey_ID k) ∧
  ∀ t o' set' c'', data c'' = data c' → faults c'' = [] →
    (fst (ak_Verify s t o' set' token c'') = Ok k ↔ o' = ownerID ∧ set' = setID).
Proof.
  intros He Hkd E. apply (wp_run false _ _ _ _ _ _ (Mint_spec s false now raw text st ownerID setID name requestID _) eq_refl) in E; [|done].
  destruct E as [(e & ? & _)|(set & clean & Hown & Hne & [Hs Hso]%of_owner_Some & Hsa & _ & Hn & [(e & ? & _)|(de & _ & Hr & Hd)])]; [done|done|].
  injection Hr as -> ->. pose proof (Hkd _ _ Hs) as <-. split_and!; try done; [by exists set| |].
  { rewrite Hd. simpl. rewrite lookup_insert_eq. by eexists. }
  intros t o' set' c'' Hc Hf. split.
  - destruct (ak_Verify s t o' set' _ c'') as [r c3] eqn:Ev. simpl. intros ->.
    by apply Verify_Ok in Ev as (_ & _ & ? & ? & _ & _ & Ho & Hset & _).
  - intros [-> ->]. apply Verify_accepts; [done|]. apply fresh_accepted; [done..|]. rewrite Hc, Hd. simpl. by rewrite lookup_insert_eq.
Qed.

(** Rotation.  Whatever fails, either no access key changes, or both writes happen:
    the outgoing key, which was active, goes into grace until the end of the window,
    pointing at its successor, and the successor exists, active, with the same owner, set
    and name.  Then the new token opens the set at any time, and a token of the old key
    that opened it before the rotation still does, exactly until the deadline. *)
Theorem Rotate_overlap {U : UnicodeData} s now raw text st1 st2 ownerID id requestID c r c' :
  token_entropy raw text → keyed KeySet_ID (keysets (data c)) → keys_ok (accesskeys (data c)) →
  ak_Rotate s now raw text st1 st2 ownerID id requestID c = (r, c') →
  (is_ok r = false ∧ data c' = data c) ∨
  ∃ old new, let setID := AccessKey_KeySetID old in let deadline := now + ak_graceWindow s in
    accesskeys (data c) !! id = Some old ∧ AccessKey_Status old = AccessKeyStatusActive ∧
    AccessKey_OwnerID old = ownerID ∧ AccessKey_OwnerID new = ownerID ∧ AccessKey_KeySetID new = setID ∧ AccessKey_Name new = AccessKey_Name old ∧
    accesskeys (data c') = <[id := grace_key (AccessKey_ID new) deadline old]> (<[AccessKey_ID new := new]> (accesskeys (data c))) ∧
    (∀ x, r = Ok x → x = (new, token_of raw text)) ∧
    ∀ c'', data c'' = data c' → faults c'' = [] →
      (∀ t, fst (ak_Verify s t ownerID setID (token_of raw text) c'') = Ok new) ∧
      (∀ t t0 presented, fst (ak_Verify s t0 ownerID setID presented c) = Ok old →
         is_ok (fst (ak_Verify s t ownerID setID presented c'')) = (t <=? deadline)).
Proof.
  intros He Hkd Hok E. pose proof E as E0. apply (wp_run false _ _ _ _ _ _ (Rotate_spec s false now raw text st1 st2 ownerID id requestID _) eq_refl) in E; [|done].
  destruct E as [(e & -> & Hd)|(old & set & Hk & Ho & Ha & Hne & [Hs Hso]%of_owner_Some & Hact & Hn & [au Hd] & Hr)]; [by left|right].
  pose proof (Hkd _ _ Hs) as Hsid. exists old, (fresh_key s text ownerID (KeySet_ID set) (AccessKey_Name old) (rawurl_b64 raw) now). cbn zeta.
  assert (text ≠ id) as Hti by congruence.
  assert (ownerID ≠ []) as Hoe. { intros ->. unfold ak_Rotate in E0. rewrite bool_decide_eq_true_2 in E0 by done. unfold st_fail in E0. injection E0 as _ <-.
    apply (f_equal (λ d, accesskeys d !! text)) in Hd. simpl in Hd. rewrite lookup_insert_ne, lookup_insert_eq in Hd by done. congruence. }
  split_and!; try done; [by rewrite Hd|intros x Hx; by apply Hr|].
  intros c'' Hc Hf. split.
  - intros t. apply Verify_accepts; [done|]. rewrite <- Hsid at 1. apply fresh_accepted; [done|done|congruence|].
    rewrite Hc, Hd. simpl. by rewrite lookup_insert_ne, lookup_insert_eq.
  - intros t t0 presented Hv. destruct (ak_Verify s t0 _ _ _ c) as [r0 c0] eqn:Ev0. simpl in Hv. subst r0.
    apply Verify_Ok in Ev0 as (_ & _ & id0 & sec & Hp & Hk0 & _ & _ & _ & Hh).
    assert (id0 = id) as -> by (destruct (Hok _ _ Hk0), (Hok _ _ Hk); congruence).
    assert (accesskeys (data c'') !! id = Some (grace_key text (now + ak_graceWindow s) old)) as Hg
      by (rewrite Hc, Hd; simpl; by rewrite lookup_insert_eq).
    destruct (t <=? now + ak_graceWindow s) eqn:Et; reflect_bools.
    + erewrite Verify_accepts; [reflexivity|done|]. split_and!; try done. exists id, sec. split_and!; try done. right. split; [done|]. by eexists.
    + destruct (ak_Verify s t _ _ _ c'') as [[k|] c3] eqn:Ev; [exfalso|done].
      apply Verify_Ok in Ev as (_ & _ & id2 & sec2 & ? & ? & _ & _ & Hop & _). simplify_eq. destruct Hop as [?|(_ & t2 & [= <-] & ?)]; [done|lia].
Qed.

(** The sweep.  A pass retires at most [limit] keys and changes no key that is not
    in grace with its deadline at or before the pass's clock; the count it reports is
    within the limit.  When the store answers and the pass reports no error and the
    limit was not the bound, no key is left past its grace. *)
Theorem ExpireGrace_exact {U : UnicodeData} now sts limit c r c' :
  keys_ok (accesskeys (data c)) → ak_ExpireGrace now sts limit c = (r, c') →
  ∃ n e, r = Ok (n, e) ∧ 0 ≤ n ≤ Z.max 0 limit ∧
    (∀ id k, accesskeys (data c) !! id = Some k → past_grace now k = false → accesskeys (data c') !! id = Some k) ∧
    (faults c = [] → e = None → Z.of_nat (length (due now (data c))) ≤ limit → due now (data c') = []).
Proof.
  intros Hok E. pose proof (wp_run false _ _ _ _ _ _ (ExpireGrace_spec false now sts limit _) eq_refl ltac:(done) E) as
    (ks & Hl & Hdue & (n & e & -> & Hn & _ & _ & Hoth & _) & _).
  exists n, e. split_and!; try done; try lia.
  - intros id k Hk Hp. rewrite Hoth; [done|]. intros (j & -> & Hj)%list_elem_of_fmap. rewrite Forall_forall in Hdue.
    apply Hdue, list_elem_of_filter in Hj as [Hp' [id' Hj]%elem_of_rows]. destruct (Hok _ _ Hj) as [Hid _]. rewrite Hid in Hk. congruence.
  - intros Hf -> Hlim. pose proof (wp_run true _ _ _ _ _ _ (ExpireGrace_spec true now sts limit _) eq_refl (λ _, Hf) E) as
      (ks' & _ & Hdue' & (n' & e' & [= <- <-] & _ & Hst & _ & Hoth' & Hall) & [[e ?]|Hin]); [done|].
    rewrite Forall_forall in Hdue'. apply elem_of_nil_inv. intros k [Hp [id Hk]%elem_of_rows]%list_elem_of_filter.
    destruct (decide (id ∈ AccessKey_ID <$> ks')) as [Hid|Hid].
    + apply list_elem_of_fmap in Hid as (j & -> & Hj). pose proof (Hdue' _ Hj) as [_ [id' Hj']%elem_of_rows]%list_elem_of_filter.
      destruct (Hok _ _ Hj') as [<- _]. destruct (Hall eq_refl eq_refl j Hj) as (k' & Hk' & Hr).
      { exists j. apply of_owner_Some. done. }
      simplify_eq. unfold past_grace in Hp. rewrite Hr in Hp. done.
    + pose proof Hk as Hk0. rewrite Hoth' in Hk0 by done. destruct (Hok _ _ Hk0) as [<- _]. apply Hid, list_elem_of_fmap.
      exists k. split; [done|]. apply Hin; [done|]. apply list_elem_of_filter. split; [done|]. apply elem_of_rows. by eexists.
Qed.

(** The sweep and the check disagree at one instant: a key is still accepted at its
    deadline, and a pass at that very instant already counts it as past its grace. *)
Lemma deadline_both_ways k t : AccessKey_Status k = AccessKeyStatusGrace → AccessKey_GraceUntil k = Some t →
  ak_usable t k = true ∧ past_grace t k = true.
Proof.
  intros Hs Hg. split; [apply ak_usable_iff; right; split; [done|]; exists t; split; [done|lia]|].
  unfold past_grace. rewrite Hs, Hg, bool_decide_eq_true_2 by done. simpl. apply Z.leb_le. lia.
Qed.

(** ** A store with one owner and one protected set *)

Module AkSample.
#[export] Instance ascii_only : UnicodeData := {| printable_above := λ _, false |}.
Definition svc : ak_service := MkAkService (go "0123456789abcdef0123456789abcdef") (24 * Hour).
Definition owner : Owner := MkOwner (go "o") OwnerStatusActive 0 0 None.
Definition set : KeySet := MkKeySet (go "set") (go "o") (go "prod") VisibilityProtected true NameStateActive None false false 0 0.
Definition d0 : db := set_keysets (λ _, {[ go "set" := set ]}) (set_owners (λ _, {[ go "o" := owner ]}) empty_db).
Definition c0 : conn := MkConn d0 [].
Definition raw1 : bytes := go "abcdefghijklmnopqrstuvwxyz012345".
Definition raw2 : bytes := go "ABCDEFGHIJKLMNOPQRSTUVWXYZ012345".
Definition id1 : gostring := go "AAAAAAAAAAAAAAAAAAAAAAAAAA".
Definition id2 : gostring := go "BBBBBBBBBBBBBBBBBBBBBBBBBB".
Definition st (n : string) : stamp := MkStamp (go n) 0.

Definition minted := ak_Mint svc 0 raw1 id1 (st "r1") (go "o") (go "set") (go "ci") [] c0.
Definition rotated := ak_Rotate svc 10 raw2 id2 (st "r2") (st "r3") (go "o") id1 [] (snd minted).
Definition revoked := ak_Revoke 20 (st "r4") (go "o") id1 [] (snd rotated).
Definition expired := ak_ExpireGrace (10 + 24 * Hour) [st "r5"] 10 (snd rotated).

Lemma keyed_sets : keyed KeySet_ID (keysets d0).
Proof. intros id a H. unfold d0 in H. simpl in H. apply lookup_singleton_Some in H as [<- <-]. reflexivity. Qed.
Lemma no_keys : keys_ok (accesskeys (data c0)).
Proof. change (keys_ok ∅). apply map_Forall_empty. Qed.
Lemma entropy1 : token_entropy raw1 id1.
Proof. split_and!; try done. apply (bool_decide_unpack _). vm_compute. exact I. Qed.
Lemma entropy2 : token_entropy raw2 id2.
Proof. split_and!; try done. apply (bool_decide_unpack _). vm_compute. exact I. Qed.
Lemma run_minted : steps (ak_step svc) c0 (snd minted).
Proof. apply steps_one, (step_Mint svc c0 0 raw1 id1 (st "r1") (go "o") (go "set") (go "ci") [] (fst minted)). apply surjective_pairing. Qed.
Lemma run_rotated : steps (ak_step svc) (snd minted) (snd rotated).
Proof. apply steps_one, (step_Rotate svc _ 10 raw2 id2 (st "r2") (st "r3") (go "o") id1 [] (fst rotated)). unfold rotated. apply surjective_pairing. Qed.
Lemma run_revoked : steps (ak_step svc) (snd rotated) (snd revoked).
Proof. apply steps_one, (step_Revoke svc _ 20 (st "r4") (go "o") id1 [] (fst revoked)). unfold revoked. apply surjective_pairing. Qed.
End AkSample.
#[local] Existing Instance AkSample.ascii_only.

Lemma Verify_exact_witness : ∃ k, fst (ak_Verify AkSample.svc 5 (go "o") (go "set") (token_of AkSample.raw1 AkSample.id1) (snd AkSample.minted)) = Ok k ∧
  accepts AkSample.svc 5 (go "o") (go "set") (token_of AkSample.raw1 AkSample.id1) (data (snd AkSample.minted)) k.
Proof.
  destruct (ak_Verify AkSample.svc 5 (go "o") (go "set") (token_of AkSample.raw1 AkSample.id1) (snd AkSample.minted)) as [r c'] eqn:E.
  assert (is_ok (fst (ak_Verify AkSample.svc 5 (go "o") (go "set") (token_of AkSample.raw1 AkSample.id1) (snd AkSample.minted))) = true) as H
    by (vm_compute; reflexivity).
  destruct (Verify_exact _ _ _ _ _ _ _ _ E) as (_ & Hs & _). rewrite E in H. destruct r as [k|]; [|discriminate]. exists k. split; [reflexivity|by apply Hs].
Defined.

Lemma access_key_lifecycle_witness : keys_ok (accesskeys (data (snd AkSample.revoked))) ∧
  is_Some (accesskeys (data (snd AkSample.revoked)) !! AkSample.id2).
Proof.
  destruct (access_key_lifecycle AkSample.svc AkSample.c0 (snd AkSample.rotated)) as [Hok _].
  { eapply steps_app; [apply AkSample.run_minted|apply AkSample.run_rotated]. }
  { apply AkSample.no_keys. }
  assert (is_Some (accesskeys (data (snd AkSample.rotated)) !! AkSample.id2)) as [k Hk] by (vm_compute; by eexists).
  destruct (access_key_lifecycle AkSample.svc _ _ AkSample.run_revoked Hok) as [H Hf]. split; [exact H|].
  destruct (Hf _ _ Hk) as (k' & Hk' & _). exists k'. exact Hk'.
Defined.

Lemma revoked_access_key_is_dead_witness : fst AkSample.revoked = Ok tt ∧
  is_ok (fst (ak_Verify AkSample.svc 5 (go "o") (go "set") (token_of AkSample.raw1 AkSample.id1) (snd AkSample.rotated))) = true ∧
  is_ok (fst (ak_Verify AkSample.svc 5 (go "o") (go "set") (token_of AkSample.raw1 AkSample.id1) (snd AkSample.revoked))) = false.
Proof.
  assert (fst AkSample.revoked = Ok tt) as H by (vm_compute; reflexivity). split; [exact H|]. split; [vm_compute; reflexivity|].
  apply (revoked_access_key_is_dead AkSample.svc 20 (AkSample.st "r4") (go "o") AkSample.id1 [] (snd AkSample.rotated) (snd AkSample.revoked) (snd AkSample.revoked))
    with (secret := rawurl_b64 AkSample.raw1); [|apply steps_nil|].
  - rewrite <- H. unfold AkSample.revoked. apply surjective_pairing.
  - vm_compute. reflexivity.
Defined.

Lemma minted_token_verifies_witness : ∃ k token, fst AkSample.minted = Ok (k, token) ∧
  fst (ak_Verify AkSample.svc 7 (go "o") (go "set") token (snd AkSample.minted)) = Ok k.
Proof.
  assert (is_ok (fst AkSample.minted) = true) as H by (vm_compute; reflexivity).
  assert (faults (snd AkSample.minted) = []) as Hf by (vm_compute; reflexivity).
  destruct AkSample.minted as [[[k token]|e] c'] eqn:E; [|discriminate]. exists k, token. split; [reflexivity|].
  destruct (minted_token_verifies AkSample.svc 0 AkSample.raw1 AkSample.id1 (AkSample.st "r1") (go "o") (go "set") (go "ci") [] AkSample.c0 k token c'
    AkSample.entropy1 AkSample.keyed_sets E) as (_ & _ & _ & _ & Hv).
  apply Hv; [reflexivity|exact Hf|by split].
Defined.

Lemma Rotate_overlap_witness :
  is_ok (fst (ak_Verify AkSample.svc (10 + 24 * Hour) (go "o") (go "set") (token_of AkSample.raw1 AkSample.id1) (snd AkSample.rotated))) = true ∧
  is_ok (fst (ak_Verify AkSample.svc (11 + 24 * Hour) (go "o") (go "set") (token_of AkSample.raw1 AkSample.id1) (snd AkSample.rotated))) = false.
Proof.
  assert (is_ok (fst AkSample.rotated) = true) as Hr by (vm_compute; reflexivity).
  assert (faults (snd AkSample.rotated) = []) as Hf by (vm_compute; reflexivity).
  pose proof (ak_steps_ok AkSample.svc AkSample.c0 (snd AkSample.minted) AkSample.run_minted AkSample.no_keys) as Hok.
  assert (keyed KeySet_ID (keysets (data (snd AkSample.minted)))) as Hk
    by (replace (keysets (data (snd AkSample.minted))) with (keysets AkSample.d0) by (vm_compute; reflexivity); apply AkSample.keyed_sets).
  destruct (Rotate_overlap AkSample.svc 10 AkSample.raw2 AkSample.id2 (AkSample.st "r2") (AkSample.st "r3") (go "o") AkSample.id1 []
    (snd AkSample.minted) (fst AkSample.rotated) (snd AkSample.rotated) AkSample.entropy2 Hk Hok) as [[Hno _]|(old & new & Hold & _ & Ho & _ & _ & _ & _ & _ & Hv)].
  { unfold AkSample.rotated. apply surjective_pairing. }
  { congruence. }
  assert (fst (ak_Verify AkSample.svc 5 (go "o") (go "set") (token_of AkSample.raw1 AkSample.id1) (snd AkSample.minted)) = Ok old) as Hv0.
  { assert (match accesskeys (data (snd AkSample.minted)) !! AkSample.id1 with
            | Some k => fst (ak_Verify AkSample.svc 5 (go "o") (go "set") (token_of AkSample.raw1 AkSample.id1) (snd AkSample.minted)) = Ok k
            | None => False end) as H by (vm_compute; reflexivity). rewrite Hold in H. exact H. }
  assert (AccessKey_KeySetID old = go "set") as Hset.
  { assert ((AccessKey_KeySetID <$> accesskeys (data (snd AkSample.minted)) !! AkSample.id1) = Some (go "set")) as H by (vm_compute; reflexivity).
    rewrite Hold in H. by injection H. }
  destruct (Hv (snd AkSample.rotated) eq_refl Hf) as [_ Hold']. rewrite Hset in Hold'. split; rewrite (Hold' _ 5 _ Hv0); reflexivity.
Defined.

Lemma ExpireGrace_exact_witness : fst AkSample.expired = Ok (1, None) ∧ due (10 + 24 * Hour) (data (snd AkSample.expired)) = [].
Proof.
  assert (fst AkSample.expired = Ok (1, None)) as H by (vm_compute; reflexivity). split; [exact H|].
  pose proof (ak_steps_ok AkSample.svc AkSample.c0 (snd AkSample.rotated)
    (steps_app _ _ _ _ AkSample.run_minted AkSample.run_rotated) AkSample.no_keys) as Hok.
  destruct (ExpireGrace_exact (10 + 24 * Hour) [AkSample.st "r5"] 10 (snd AkSample.rotated) (fst AkSample.expired) (snd AkSample.expired) Hok)
    as (n & e & E & _ & _ & Hall). { unfold AkSample.expired. apply surjective_pairing. }
  rewrite H in E. injection E as <- <-. apply Hall; [vm_compute; reflexivity|reflexivity|]. vm_compute. discriminate.
Defined.
