(* ===== verification/KeySets.v ===== *)
(** * Key sets

    [internal/service/keyset]: creating, listing, renaming and deleting an owner's key
    sets, designating the default one and choosing who may read a set.  Each mutation
    is one transaction followed by its audit record. *)

From stdpp Require Import sorting.
From S2P Require Import Prelude DomainErrors GoLib Domain Blocklist Database StoreLogic AuditLog KeyRepos AccessKey.

Open Scope Z_scope.

(** src/internal/service/keyset/keyset.go:63-67, DefaultMaxSets *)
Definition DefaultMaxSets : Z := 100.

(** src/internal/service/keyset/keyset.go:69-73, DefaultQuarantineWindow *)
Definition ks_DefaultQuarantineWindow : duration := 30 * 24 * Hour.

(** src/internal/service/keyset/keyset.go:75-80, ErrNotFound *)
Definition ks_ErrNotFound : goerror := errorf "keyset: not found" [ErrNotFound].

(** src/internal/service/keyset/keyset.go:82-87, ErrDuplicate *)
Definition ks_ErrDuplicate : goerror := errorf "keyset: name already in use" [ErrConflict].

(** src/internal/service/keyset/keyset.go:89-95, ErrLimitExceeded *)
Definition ks_ErrLimitExceeded : goerror := errorf "keyset: key set limit reached" [ErrLimitExceeded].

(** src/internal/service/keyset/keyset.go:97-100, ErrDefaultSet *)
Definition ErrDefaultSet : goerror := errorf "keyset: the default key set cannot be deleted" [ErrDefaultKeySet].

(** src/internal/service/keyset/keyset.go:102-106, ErrConfirmationRequired *)
Definition ErrConfirmationRequired : goerror := errorf "keyset: deleting a non-empty key set requires confirmation" [ErrConflict].

(** src/internal/service/keyset/keyset.go:120-130, Service *)
Record ks_service := MkKsService {
  ks_guard : option (option Matcher);
  ks_maxSets : Z;
  ks_quarantine : duration;
}.

Definition ks_missing_owner : goerror := errorf "keyset: missing owner" [ErrInvalidInput].

(** [string(v)] *)
Definition Visibility_string (v : Visibility) : gostring :=
  match v with VisibilityPublic => go "public" | VisibilityProtected => go "protected" | VisibilityOther s => s end.

Section service.
Context {UF : UnicodeFold} {U : UnicodeData} (s : ks_service).

(** src/internal/service/keyset/keyset.go:711-738, live *)
Definition ks_live (r : result KeySet) : result KeySet :=
  match r with
  | Err e => if errors_is e ErrNotFound then Err ks_ErrNotFound else Err e
  | Ok set => if bool_decide (KeySet_State set = NameStateActive) then Ok set else Err ks_ErrNotFound
  end.

Definition unless_err (msg : string) (d : Details) : result Details :=
  match D_err d with Some _ => Err (errorf msg [ErrInvalidInput]) | None => Ok d end.

(** src/internal/service/keyset/keyset.go:740-756, setDetails *)
Definition setDetails (name requestID : gostring) : result Details :=
  unless_err "keyset: name cannot be recorded" (set_if (Details_Set no_details DetailKeySetName name) DetailRequestID requestID).

(** src/internal/service/keyset/keyset.go:758-773, renameDetails *)
Definition ks_renameDetails (from to requestID : gostring) : result Details :=
  match setDetails to requestID with
  | Err e => Err e
  | Ok d => unless_err "keyset: name cannot be recorded" (Details_Set (Details_Set d DetailFrom from) DetailTo to)
  end.

(** src/internal/service/keyset/keyset.go:775-797, defaultDetails *)
Definition defaultDetails (from to requestID : gostring) : result Details :=
  match setDetails to requestID with
  | Err e => Err e
  | Ok d => unless_err "keyset: name cannot be recorded" (Details_Set (set_if d DetailFrom from) DetailTo to)
  end.

(** src/internal/service/keyset/keyset.go:799-817, visibilityDetails *)
Definition visibilityDetails (from to : Visibility) (name requestID : gostring) : result Details :=
  match setDetails name requestID with
  | Err e => Err e
  | Ok d => unless_err "keyset: visibility cannot be recorded"
              (Details_Set (Details_Set (Details_Set d DetailVisibility (Visibility_string to)) DetailFrom (Visibility_string from))
                 DetailTo (Visibility_string to))
  end.

Open Scope stm_scope.

(** src/internal/service/keyset/keyset.go:819-831, Service.emit *)
Definition ks_emit (st : stamp) (action ownerID id : gostring) (details : Details) : stM conn unit :=
  Emit st (MkEvent ActorTypeOwner ownerID action TargetTypeKeySet id details).

(** src/internal/service/keyset/keyset.go:292-324, Service.createLocked *)
Definition createLocked (ownerID : gostring) (set : KeySet) : stM conn unit :=
  let! _ := keyset_LockOwnerForCreate ownerID in
  let! n := keyset_CountByOwner ownerID in
  if ks_maxSets s <=? n then st_fail ks_ErrLimitExceeded else
  try! r := keyset_Create set in
  match r with
  | Err e => st_fail (if errors_is e ErrConflict then ks_ErrDuplicate else e)
  | Ok _ => st_ret tt
  end.

(** src/internal/service/keyset/keyset.go:231-290, Service.Create *)
Definition ks_Create (now : time) (newID : gostring) (st : stamp) (ownerID name requestID : gostring) : stM conn KeySet :=
  if bool_decide (ownerID = []) then st_fail ks_missing_owner else
  match Guard_Check (ks_guard s) KindKeySetName OpCreate name with
  | Some e => st_fail e
  | None =>
      let! details := ret_or (setDetails name requestID) in
      let set := MkKeySet newID ownerID name VisibilityProtected false NameStateActive None false false now now in
      let! _ := WithTx (createLocked ownerID set) in
      let! _ := ks_emit st (go "key_set.created") ownerID newID details in
      st_ret set
  end.

(** src/internal/service/keyset/keyset.go:326-351, Service.List *)
Definition ks_List (ownerID : gostring) : stM conn (list KeySet) :=
  if bool_decide (ownerID = []) then st_fail ks_missing_owner else
  let! all := keyset_ListByOwner ownerID in
  st_ret (filter (λ set, KeySet_State set = NameStateActive) all).

Definition copy_members (ownerID newID : gostring) (now : time) : list KeySetMembership → stM conn unit := fix loop ms :=
  match ms with
  | [] => st_ret tt
  | m :: ms' => let! _ := keyset_AddMember ownerID newID (KeySetMembership_PublicKeyID m) now in loop ms'
  end.

Definition tombstoned (until : time) (now : time) (old : KeySet) : KeySet :=
  MkKeySet (KeySet_ID old) (KeySet_OwnerID old) (KeySet_Name old) (KeySet_Visibility old) (KeySet_IsDefault old) NameStateQuarantined
    (Some until) (KeySet_FlaggedForReview old) (KeySet_QuarantineOnRelease old) (KeySet_CreatedAt old) now.

Definition ks_rename_tx (now : time) (newID ownerID id name requestID : gostring) : stM conn (KeySet * Details) :=
  try! r := keyset_Get ownerID id in
  let! old := ret_or (ks_live r) in
  let! details := ret_or (ks_renameDetails (KeySet_Name old) name requestID) in
  let renamed := MkKeySet newID ownerID name (KeySet_Visibility old) false NameStateActive None false false now now in
  let! _ := createLocked ownerID renamed in
  let! ms := keyset_ListMembers ownerID id in
  let! _ := copy_members ownerID newID now ms in
  let! _ := keyset_Update (tombstoned (time_add now (ks_quarantine s)) now old) in
  if KeySet_IsDefault old then
    let! _ := keyset_SetDefault true ownerID newID in
    st_ret (with_default true renamed, details)
  else st_ret (renamed, details).

Definition ks_verdict (e : goerror) : goerror := if errors_is e ErrNotFound then ks_ErrNotFound else e.

(** src/internal/service/keyset/keyset.go:353-476, Service.Rename *)
Definition ks_Rename (now : time) (newID : gostring) (st : stamp) (ownerID id name requestID : gostring) : stM conn KeySet :=
  if bool_decide (ownerID = []) then st_fail ks_missing_owner else
  if bool_decide (id = []) then st_fail ks_ErrNotFound else
  match Guard_Check (ks_guard s) KindKeySetName OpRename name with
  | Some e => st_fail e
  | None =>
      try! r := WithTx (ks_rename_tx now newID ownerID id name requestID) in
      match r with
      | Err e => st_fail (ks_verdict e)
      | Ok (renamed, details) =>
          let! _ := ks_emit st (go "key_set.renamed") ownerID (KeySet_ID renamed) details in
          st_ret renamed
      end
  end.

Definition ks_delete_tx (ownerID id : gostring) (confirm : bool) (requestID : gostring) : stM conn Details :=
  try! r := keyset_Get ownerID id in
  let! set := ret_or (ks_live r) in
  let! ms := keyset_ListMembers ownerID id in
  if bool_decide (0 < length ms)%nat && negb confirm then st_fail ErrConfirmationRequired else
  let! details := ret_or (setDetails (KeySet_Name set) requestID) in
  try! r := keyset_Delete true ownerID id in
  match r with
  | Err e => st_fail (if errors_is e ErrDefaultKeySet then ErrDefaultSet else e)
  | Ok _ => st_ret details
  end.

(** src/internal/service/keyset/keyset.go:478-545, Service.Delete *)
Definition ks_Delete (st : stamp) (ownerID id : gostring) (confirm : bool) (requestID : gostring) : stM conn unit :=
  if bool_decide (ownerID = []) then st_fail ks_missing_owner else
  if bool_decide (id = []) then st_fail ks_ErrNotFound else
  try! r := WithTx (ks_delete_tx ownerID id confirm requestID) in
  match r with
  | Err e => st_fail (ks_verdict e)
  | Ok details => ks_emit st (go "key_set.deleted") ownerID id details
  end.

Definition stamped_default (now : time) (set : KeySet) : KeySet :=
  MkKeySet (KeySet_ID set) (KeySet_OwnerID set) (KeySet_Name set) (KeySet_Visibility set) true (KeySet_State set)
    (KeySet_QuarantineUntil set) (KeySet_FlaggedForReview set) (KeySet_QuarantineOnRelease set) (KeySet_CreatedAt set) now.

Definition default_tx (now : time) (ownerID id requestID : gostring) : stM conn (KeySet * Details) :=
  try! r := keyset_Get ownerID id in
  let! target := ret_or (ks_live r) in
  try! p := keyset_GetDefault ownerID in
  let! from := match p with
               | Ok previous => st_ret (KeySet_Name previous)
               | Err e => if errors_is e ErrNotFound then st_ret [] else st_fail e
               end in
  let! details := ret_or (defaultDetails from (KeySet_Name target) requestID) in
  let! _ := keyset_SetDefault true ownerID id in
  st_ret (stamped_default now target, details).

(** src/internal/service/keyset/keyset.go:547-637, Service.SetDefault *)
Definition ks_SetDefault (now : time) (st : stamp) (ownerID id requestID : gostring) : stM conn KeySet :=
  if bool_decide (ownerID = []) then st_fail ks_missing_owner else
  if bool_decide (id = []) then st_fail ks_ErrNotFound else
  try! r := WithTx (default_tx now ownerID id requestID) in
  match r with
  | Err e => st_fail (ks_verdict e)
  | Ok (set, details) =>
      let! _ := ks_emit st (go "key_set.default_changed") ownerID id details in
      st_ret set
  end.

Definition with_visibility (v : Visibility) (now : time) (set : KeySet) : KeySet :=
  MkKeySet (KeySet_ID set) (KeySet_OwnerID set) (KeySet_Name set) v (KeySet_IsDefault set) (KeySet_State set)
    (KeySet_QuarantineUntil set) (KeySet_FlaggedForReview set) (KeySet_QuarantineOnRelease set) (KeySet_CreatedAt set) now.

Definition visibility_tx (now : time) (ownerID id : gostring) (v : Visibility) (requestID : gostring) : stM conn (KeySet * Details) :=
  try! r := keyset_Get ownerID id in
  let! target := ret_or (ks_live r) in
  let! details := ret_or (visibilityDetails (KeySet_Visibility target) v (KeySet_Name target) requestID) in
  let! _ := keyset_Update (with_visibility v now target) in
  st_ret (with_visibility v now target, details).

(** src/internal/service/keyset/keyset.go:639-709, Service.SetVisibility *)
Definition ks_SetVisibility (now : time) (st : stamp) (ownerID id : gostring) (v : Visibility) (requestID : gostring) : stM conn KeySet :=
  if bool_decide (ownerID = []) then st_fail ks_missing_owner else
  if bool_decide (id = []) then st_fail ks_ErrNotFound else
  if negb (Visibility_IsValid v) then st_fail (errorf "keyset: unknown visibility" [ErrInvalidInput]) else
  try! r := WithTx (visibility_tx now ownerID id v requestID) in
  match r with
  | Err e => st_fail (ks_verdict e)
  | Ok (set, details) =>
      let! _ := ks_emit st (go "key_set.visibility_changed") ownerID id details in
      st_ret set
  end.

Close Scope stm_scope.
End service.

(** ** Rules *)

(** What a selection of rows says of the table. *)
Lemma named_set_elem ownerID name d set :
  set ∈ named_set ownerID name d ↔ (KeySet_OwnerID set = ownerID ∧ KeySet_Name set = name) ∧ ∃ id, keysets d !! id = Some set.
Proof. unfold named_set. by rewrite list_elem_of_filter, elem_of_rows. Qed.

Lemma named_set_nil ownerID name d : named_set ownerID name d = [] ↔
  ∀ id set, keysets d !! id = Some set → KeySet_OwnerID set = ownerID → KeySet_Name set = name → False.
Proof.
  split.
  - intros E id set Hs Ho Hn. apply (not_elem_of_nil set). rewrite <- E. apply named_set_elem. eauto.
  - intros H. apply elem_of_nil_inv. intros set [[Ho Hn] [id Hs]]%named_set_elem. by eapply H.
Qed.

Section rules.
Context {UF : UnicodeFold} {U : UnicodeData}.

(** [live(r.KeySets.Get(...))]: an active set of that owner, or an error. *)
Lemma wp_live {A} b ownerID id d (k : KeySet → stM conn A) Q :
  (∀ e, Q (Err e) d) →
  (∀ set, keysets d !! id = Some set → KeySet_OwnerID set = ownerID → KeySet_State set = NameStateActive → wp b (k set) d Q) →
  wp b (st_try (keyset_Get ownerID id) (λ r, st_bind (ret_or (ks_live r)) k)) d Q.
Proof.
  intros He Ho. assert (∀ e, wp b (st_bind (ret_or (ks_live (Err e))) k) d Q) as Herr.
  { intros e. unfold ks_live. wp_step. apply wp_ret_or. case_match eqn:E; destruct (errors_is e ErrNotFound); simplify_eq; apply He. }
  wp_step. unfold keyset_Get. wp_step; [apply Herr|]. destruct (owned_set ownerID id d) as [set|] eqn:Es; [|apply Herr].
  apply of_owner_Some in Es as [Hs Hown]. wp_step. apply wp_ret_or. unfold ks_live.
  case_bool_decide as Ha; [by apply Ho|apply He].
Qed.

Lemma wp_keyset_Create b set d Q :
  (∀ e, Q (Err e) d) →
  (keysets d !! KeySet_ID set = None → named_set (KeySet_OwnerID set) (KeySet_Name set) d = [] → Q (Ok tt) (set_keysets <[KeySet_ID set := set]> d)) →
  wp b (keyset_Create set) d Q.
Proof.
  intros He Ho. unfold keyset_Create. wp_step. wp_step; [apply He|].
  destruct (keysets d !! _) eqn:E; [apply He|]. destruct (named_set _ _ d) eqn:En; [|apply He].
  destruct (KeySet_IsDefault set && _); [apply He|]. destruct (negb _); [apply He|]. destruct (owners d !! _); [|apply He]. wp_step. auto.
Qed.

(** A set is stored below the owner's limit, under a name and an id not in use. *)
Lemma wp_createLocked b s ownerID set d Q :
  (∀ e, Q (Err e) d) →
  (Z.of_nat (length (sets_of ownerID d)) < ks_maxSets s → keysets d !! KeySet_ID set = None →
     named_set (KeySet_OwnerID set) (KeySet_Name set) d = [] → Q (Ok tt) (set_keysets <[KeySet_ID set := set]> d)) →
  wp b (createLocked s ownerID set) d Q.
Proof.
  intros He Ho. unfold createLocked, keyset_LockOwnerForCreate, keyset_CountByOwner. do 3 wp_step. wp_step; [apply He|].
  wp_step; [by wp_step|]. wp_step. apply wp_keyset_Create; [intros e; by wp_step|]. intros. wp_step. auto.
Qed.

Lemma wp_keyset_Update b set d Q :
  (∀ e, Q (Err e) d) →
  (∀ old, keysets d !! KeySet_ID set = Some old → KeySet_OwnerID old = KeySet_OwnerID set →
     Q (Ok tt) (set_keysets <[KeySet_ID set := updated_set set old]> d)) →
  wp b (keyset_Update set) d Q.
Proof.
  intros He Ho. unfold keyset_Update. wp_step. wp_step; [apply He|]. destruct (owned_set _ _ d) as [old|] eqn:E; [|by wp_step].
  apply of_owner_Some in E as [? ?]. destruct (_ && _); [|apply He]. wp_step; [done|]. eauto.
Qed.

(** The owner's designation moves to [id]. *)
Definition designate (ownerID id : gostring) (set : KeySet) (t : gmap gostring KeySet) : gmap gostring KeySet :=
  <[id := with_default true set]> (clear_default ownerID <$> t).

Lemma with_default_clear ownerID set b : with_default b (clear_default ownerID set) = with_default b set.
Proof. unfold clear_default. by destruct (_ && _). Qed.

Lemma clear_default_owner ownerID set : KeySet_OwnerID (clear_default ownerID set) = KeySet_OwnerID set.
Proof. unfold clear_default. by destruct (_ && _). Qed.

Lemma wp_keyset_SetDefault b ownerID id d (Q : result unit → db → Prop) :
  (∀ e d', Q (Err e) d') →
  (∀ set, keysets d !! id = Some set → KeySet_OwnerID set = ownerID → Q (Ok tt) (set_keysets (designate ownerID id set) d)) →
  wp b (keyset_SetDefault true ownerID id) d Q.
Proof.
  intros He Ho. unfold keyset_SetDefault, withLocalTx. wp_step. wp_step; [apply He|]. apply wp_update_required; [intros; apply He|].
  unfold owned_set, of_owner. simpl. rewrite lookup_fmap. destruct (keysets d !! id) as [set|] eqn:E; simpl; [|apply He].
  rewrite clear_default_owner. case_bool_decide as Hown; [|apply He]. rewrite with_default_clear.
  by apply Ho.
Qed.

(** Memberships of the new set for every key of a list. *)
Definition enrolled (setID : gostring) (now : time) (ms : list KeySetMembership) (t : gmap (gostring * gostring) KeySetMembership) :
    gmap (gostring * gostring) KeySetMembership :=
  foldl (λ t m, <[(setID, KeySetMembership_PublicKeyID m) := MkKeySetMembership setID (KeySetMembership_PublicKeyID m) now]> t) t ms.

Lemma wp_AddMember b ownerID setID keyID now d Q :
  (∀ e, Q (Err e) d) →
  (members d !! (setID, keyID) = None → is_Some (owned_set ownerID setID d) → is_Some (owned_pubkey ownerID keyID d) →
     Q (Ok tt) (set_members <[(setID, keyID) := MkKeySetMembership setID keyID now]> d)) →
  wp b (keyset_AddMember ownerID setID keyID now) d Q.
Proof.
  intros He Ho. unfold keyset_AddMember. wp_step. wp_step; [apply He|]. destruct (owned_set _ _ d) as [set|]; [|by wp_step].
  destruct (owned_pubkey _ _ d); [|by wp_step]. destruct (members d !! _) eqn:E; [apply He|]. wp_step; [done|]. eauto.
Qed.

Lemma wp_copy_members b ownerID newID now ms d (Q : result unit → db → Prop) :
  (∀ e d', Q (Err e) d') → Q (Ok tt) (set_members (enrolled newID now ms) d) → wp b (copy_members ownerID newID now ms) d Q.
Proof.
  intros He. revert d. induction ms as [|m ms IH]; intros d Ho; simpl; [wp_step; by destruct d|].
  wp_step. apply wp_AddMember; [intros; apply He|]. intros _ _ _. by apply IH.
Qed.

Lemma wp_ks_emit b st action ownerID id details d Q :
  (∀ e, Q (Err e) d) →
  (Q (Ok tt) (set_audits <[stamp_id st := emitted st (MkEvent ActorTypeOwner ownerID action TargetTypeKeySet id details)]> d)) →
  wp b (ks_emit st action ownerID id details) d Q.
Proof. intros He Ho. unfold ks_emit. apply wp_Emit; [done|]. by intros. Qed.
End rules.

(** ** What the operations do

    Each has no effect and reports an error, or commits its whole transaction and then
    records it; when only the record fails the caller sees an error although the change
    stands. *)

Definition set_event (ownerID action id : gostring) (details : Details) : Event := MkEvent ActorTypeOwner ownerID action TargetTypeKeySet id details.

Definition committed {A} (a : A) (st : stamp) (ev : Event) (d1 : db) (r : result A) (d' : db) : Prop :=
  (r = Ok a ∧ d' = set_audits <[stamp_id st := emitted st ev]> d1) ∨ ∃ e, r = Err e ∧ d' = d1.

(** The set a call of [Create] or [Rename] makes. *)
Definition fresh_set (newID ownerID name : gostring) (v : Visibility) (now : time) : KeySet :=
  MkKeySet newID ownerID name v false NameStateActive None false false now now.

(** The table after a rename: the old row holds its name in quarantine, the new one is
    active and takes over the default. *)
Definition renamed_sets (ownerID newID name : gostring) (until now : time) (old : KeySet) (t : gmap gostring KeySet) : gmap gostring KeySet :=
  let t1 := <[KeySet_ID old := tombstoned until now old]> (<[newID := fresh_set newID ownerID name (KeySet_Visibility old) now]> t) in
  if KeySet_IsDefault old then designate ownerID newID (fresh_set newID ownerID name (KeySet_Visibility old) now) t1 else t1.

Section specs.
Context {UF : UnicodeFold} {U : UnicodeData} (s : ks_service).

(** A set that may be added to the table. *)
Definition admissible (ownerID newID name : gostring) (d : db) : Prop :=
  Z.of_nat (length (sets_of ownerID d)) < ks_maxSets s ∧ keysets d !! newID = None ∧ named_set ownerID name d = [].

Lemma Create_spec b now newID st ownerID name requestID d :
  wp b (ks_Create s now newID st ownerID name requestID) d (λ r d',
    (∃ e, r = Err e ∧ d' = d) ∨
    let set := fresh_set newID ownerID name VisibilityProtected now in
    Guard_Check (ks_guard s) KindKeySetName OpCreate name = None ∧ admissible ownerID newID name d ∧
    ∃ details, committed set st (set_event ownerID (go "key_set.created") newID details) (set_keysets <[newID := set]> d) r d').
Proof.
  unfold ks_Create. wp_step; [wp_step; eauto|]. destruct (Guard_Check _ _ _ name) eqn:Eg; [wp_step; eauto|]. wp_step. apply wp_ret_or.
  destruct (setDetails name requestID) as [details|e]; [|eauto]. wp_step. wp_step; [eauto|]. apply wp_createLocked; [eauto|]. simpl.
  intros Hc Hf Hn. split; [|eauto]. wp_step. apply wp_ks_emit.
  - intros e. right. split_and!; try done. exists details. right. eauto.
  - wp_step. right. split_and!; try done. exists details. by left.
Qed.

Lemma rename_tx_spec b now newID ownerID id name requestID d :
  wp b (ks_rename_tx s now newID ownerID id name requestID) d (λ r d',
    (∃ e, r = Err e) ∨
    ∃ old ms details, keysets d !! id = Some old ∧ KeySet_OwnerID old = ownerID ∧ KeySet_State old = NameStateActive ∧
      admissible ownerID newID name d ∧ id ≠ newID ∧ (∀ m, m ∈ ms ↔ m ∈ members_of id d) ∧
      (KeySet_ID old = id →
       r = Ok (with_default (KeySet_IsDefault old) (fresh_set newID ownerID name (KeySet_Visibility old) now), details) ∧
       d' = set_keysets (renamed_sets ownerID newID name (now + ks_quarantine s) now old) (set_members (enrolled newID now ms) d))).
Proof.
  unfold ks_rename_tx. apply wp_live; [eauto|]. intros old Hold Hown Hact. wp_step. apply wp_ret_or.
  destruct (ks_renameDetails _ _ _) as [details|e]; [|eauto]. wp_step. apply wp_createLocked; [eauto|]. simpl. intros Hc Hf Hn.
  assert (id ≠ newID) as Hne by congruence.
  wp_step. unfold keyset_ListMembers. wp_step; [eauto|]. unfold owned_set at 1. simpl. rewrite lookup_insert_ne by done. rewrite Hold. simpl.
  rewrite bool_decide_eq_true_2 by done.
  set (ms := ordered_by _ _). wp_step. apply wp_copy_members; [eauto|]. wp_step. apply wp_keyset_Update; [eauto|]. simpl.
  intros old' Hold' _.
  assert (∀ m, m ∈ ms ↔ m ∈ members_of id d) as Hms by (intros m; unfold ms; by rewrite elem_of_ordered).
  destruct (KeySet_IsDefault old) eqn:Ed.
  - wp_step. apply wp_keyset_SetDefault; [eauto|]. simpl. intros set Hset _. wp_step. right. exists old, ms, details. split_and!; try done.
    intros Hid. rewrite Hid in *. rewrite lookup_insert_ne in Hold', Hset by done. rewrite Hold in Hold'. rewrite lookup_insert_eq in Hset. injection Hold' as <-. injection Hset as <-.
    unfold renamed_sets. rewrite Ed. split; [done|]. unfold set_keysets, set_members; simpl. f_equal. unfold tombstoned, updated_set; simpl. by rewrite Hid.
  - wp_step. right. exists old, ms, details. split_and!; try done. intros Hid. rewrite Hid in *. rewrite lookup_insert_ne in Hold' by done. rewrite Hold in Hold'. injection Hold' as <-.
    unfold renamed_sets. rewrite Ed. split; [done|]. unfold set_keysets, set_members; simpl. f_equal. unfold tombstoned, updated_set; simpl. by rewrite Hid.
Qed.

Lemma Rename_spec b now newID st ownerID id name requestID d :
  keyed KeySet_ID (keysets d) →
  wp b (ks_Rename s now newID st ownerID id name requestID) d (λ r d',
    (∃ e, r = Err e ∧ d' = d) ∨
    ∃ old ms details, keysets d !! id = Some old ∧ KeySet_OwnerID old = ownerID ∧ KeySet_State old = NameStateActive ∧
      Guard_Check (ks_guard s) KindKeySetName OpRename name = None ∧ admissible ownerID newID name d ∧ id ≠ newID ∧ (∀ m, m ∈ ms ↔ m ∈ members_of id d) ∧
      committed (with_default (KeySet_IsDefault old) (fresh_set newID ownerID name (KeySet_Visibility old) now)) st
        (set_event ownerID (go "key_set.renamed") newID details)
        (set_keysets (renamed_sets ownerID newID name (now + ks_quarantine s) now old) (set_members (enrolled newID now ms) d)) r d').
Proof.
  intros Hkeyed. unfold ks_Rename. do 2 (wp_step; [wp_step; eauto|]). destruct (Guard_Check _ _ _ name) eqn:Eg; [wp_step; eauto|].
  wp_step. wp_step; [wp_step; eauto|]. eapply wp_mono; [apply rename_tx_spec|].
  intros r d' [[e ->]|(old & ms & details & Hold & Hown & Hact & Hadm & Hne & Hms & H)]; [wp_step; eauto|].
  destruct (H (Hkeyed _ _ Hold)) as [-> ->]. split; [|intros; wp_step; eauto]. wp_step. apply wp_ks_emit.
  - intros e. right. exists old, ms, details. split_and!; try done. right. eauto.
  - wp_step. right. exists old, ms, details. split_and!; try done. by left.
Qed.

(** The memberships of a set, removed. *)
Definition disband (id : gostring) : gmap (gostring * gostring) KeySetMembership → gmap (gostring * gostring) KeySetMembership :=
  filter (λ km, km.1.1 ≠ id).

Lemma delete_tx_spec b ownerID id confirm requestID d :
  wp b (ks_delete_tx ownerID id confirm requestID) d (λ r d',
    (∃ e, r = Err e) ∨
    ∃ set details, keysets d !! id = Some set ∧ KeySet_OwnerID set = ownerID ∧ KeySet_State set = NameStateActive ∧
      KeySet_IsDefault set = false ∧ (members_of id d = [] ∨ confirm = true) ∧ keys_of_set id d = [] ∧
      r = Ok details ∧ d' = set_keysets (delete id) (set_members (disband id) d)).
Proof.
  unfold ks_delete_tx. apply wp_live; [eauto|]. intros set Hset Hown Hact. wp_step. unfold keyset_ListMembers.
  assert (owned_set ownerID id d = Some set) as Hos by (by apply of_owner_Some).
  wp_step; [eauto|]. rewrite Hos. destruct (bool_decide (0 < length _)%nat && negb confirm) eqn:Econf; [apply wp_fail; eauto|].
  wp_step. apply wp_ret_or. destruct (setDetails _ _) as [details|]; [|eauto]. wp_step. unfold keyset_Delete, withLocalTx.
  wp_step. wp_step; [wp_step; eauto|]. rewrite Hos. simpl.
  destruct (KeySet_IsDefault set) eqn:Edef; [apply wp_fail; wp_step; eauto|]. wp_step. wp_step; [wp_step; eauto|].
  wp_step. wp_step; [wp_step; eauto|]. unfold owned_set at 1. simpl. rewrite Hset. simpl. rewrite bool_decide_eq_true_2 by done.
  destruct (bool_decide (keys_of_set id _ = []) && _) eqn:Ek; [|wp_step; eauto]. apply andb_true_iff in Ek as [Ek _]. apply bool_decide_eq_true_1 in Ek.
  wp_step; [done|]. wp_step. right. exists set, details. split_and!; try done.
  apply andb_false_iff in Econf as [E|E]; [left|right; by destruct confirm].
  apply bool_decide_eq_false_1 in E. unfold ordered_by in E. rewrite merge_sort_Permutation in E. by destruct (members_of id d); [|simpl in E; lia].
Qed.

Lemma Delete_spec b st ownerID id confirm requestID d :
  wp b (ks_Delete st ownerID id confirm requestID) d (λ r d',
    (∃ e, r = Err e ∧ d' = d) ∨
    ∃ set details, keysets d !! id = Some set ∧ KeySet_OwnerID set = ownerID ∧ KeySet_State set = NameStateActive ∧
      KeySet_IsDefault set = false ∧ (members_of id d = [] ∨ confirm = true) ∧ keys_of_set id d = [] ∧
      committed tt st (set_event ownerID (go "key_set.deleted") id details) (set_keysets (delete id) (set_members (disband id) d)) r d').
Proof.
  unfold ks_Delete. do 2 (wp_step; [wp_step; eauto|]). wp_step. wp_step; [wp_step; eauto|]. eapply wp_mono; [apply delete_tx_spec|].
  intros r d' [[e ->]|(set & details & Hset & Hown & Hact & Hdef & Hconf & Hkeys & -> & ->)]; [wp_step; eauto|].
  split; [|intros; wp_step; eauto]. apply wp_ks_emit.
  - intros e. right. exists set, details. split_and!; try done. right. eauto.
  - right. exists set, details. split_and!; try done. by left.
Qed.

Lemma default_tx_spec b now ownerID id requestID d :
  wp b (default_tx now ownerID id requestID) d (λ r d',
    (∃ e, r = Err e) ∨
    ∃ set details, keysets d !! id = Some set ∧ KeySet_OwnerID set = ownerID ∧ KeySet_State set = NameStateActive ∧
      r = Ok (stamped_default now set, details) ∧ d' = set_keysets (designate ownerID id set) d).
Proof.
  unfold default_tx. apply wp_live; [eauto|]. intros set Hset Hown Hact. wp_step.
  eapply (wp_mono _ _ _ (λ _ d', d' = d)).
  { unfold keyset_GetDefault. wp_step; [done|]. by destruct (head _). }
  intros p ? ->. wp_step. eapply (wp_mono _ _ _ (λ _ d', d' = d)); [destruct p as [?|e]; [|destruct (errors_is e _)]; by wp_step|].
  intros [from|e] ? ->; [|eauto]. wp_step. apply wp_ret_or. destruct (defaultDetails _ _ _) as [details|]; [|eauto]. wp_step.
  apply wp_keyset_SetDefault; [eauto|]. intros set' Hset' _. rewrite Hset in Hset'. injection Hset' as <-.
  wp_step. right. by exists set, details.
Qed.

Lemma SetDefault_spec b now st ownerID id requestID d :
  wp b (ks_SetDefault now st ownerID id requestID) d (λ r d',
    (∃ e, r = Err e ∧ d' = d) ∨
    ∃ set details, keysets d !! id = Some set ∧ KeySet_OwnerID set = ownerID ∧ KeySet_State set = NameStateActive ∧
      committed (stamped_default now set) st (set_event ownerID (go "key_set.default_changed") id details)
        (set_keysets (designate ownerID id set) d) r d').
Proof.
  unfold ks_SetDefault. do 2 (wp_step; [wp_step; eauto|]). wp_step. wp_step; [wp_step; eauto|].
  eapply wp_mono; [apply default_tx_spec|].
  intros r d' [[e ->]|(set & details & Hset & Hown & Hact & -> & ->)]; [wp_step; eauto|].
  split; [|intros; wp_step; eauto]. wp_step. apply wp_ks_emit.
  - intros e. right. exists set, details. split_and!; try done. right. eauto.
  - wp_step. right. exists set, details. split_and!; try done. by left.
Qed.

Lemma SetVisibility_spec b now st ownerID id v requestID d :
  keyed KeySet_ID (keysets d) →
  wp b (ks_SetVisibility now st ownerID id v requestID) d (λ r d',
    (∃ e, r = Err e ∧ d' = d) ∨
    ∃ set details, keysets d !! id = Some set ∧ KeySet_OwnerID set = ownerID ∧ KeySet_State set = NameStateActive ∧ Visibility_IsValid v = true ∧
      committed (with_visibility v now set) st (set_event ownerID (go "key_set.visibility_changed") id details)
        (set_keysets <[id := with_visibility v now set]> d) r d').
Proof.
  intros Hkeyed. unfold ks_SetVisibility. do 2 (wp_step; [wp_step; eauto|]). destruct (Visibility_IsValid v) eqn:Ev; simpl negb; cbn iota; [|apply wp_fail; eauto].
  wp_step. wp_step; [wp_step; eauto|]. unfold visibility_tx. apply wp_live; [intros; wp_step; eauto|]. intros set Hset Hown Hact.
  wp_step. apply wp_ret_or. destruct (visibilityDetails _ _ _ _) as [details|]; [|wp_step; eauto]. wp_step.
  apply wp_keyset_Update; [intros; wp_step; eauto|]. simpl. rewrite (Hkeyed _ _ Hset). intros old Hold _. rewrite Hset in Hold. injection Hold as <-.
  wp_step. split; [|intros; wp_step; eauto]. wp_step. apply wp_ks_emit.
  - intros e. right. exists set, details. split_and!; try done. right. eauto.
  - wp_step. right. exists set, details. split_and!; try done. by left.
Qed.
End specs.

(** ** The catalogue

    The tables of sets, memberships and access keys together, and what every call
    keeps of them. *)

(** Rows are under their id, an owner's names differ, at most one set is the default. *)
Record sets_shape (t : gmap gostring KeySet) : Prop := MkSetsShape {
  sh_keyed : keyed KeySet_ID t;
  sh_names : ∀ i j a b, t !! i = Some a → t !! j = Some b → KeySet_OwnerID a = KeySet_OwnerID b → KeySet_Name a = KeySet_Name b → i = j;
  sh_default : ∀ i j a b, t !! i = Some a → t !! j = Some b → KeySet_OwnerID a = KeySet_OwnerID b →
    KeySet_IsDefault a = true → KeySet_IsDefault b = true → i = j;
}.

(** The defaults of the owners in [P] are active sets. *)
Definition defaults_live (P : gostring → Prop) (t : gmap gostring KeySet) : Prop :=
  ∀ i a, t !! i = Some a → KeySet_IsDefault a = true → P (KeySet_OwnerID a) → KeySet_State a = NameStateActive.

Definition sets_ok (t : gmap gostring KeySet) : Prop := sets_shape t ∧ defaults_live (λ _, True) t.

Definition has_default (o : gostring) (t : gmap gostring KeySet) : Prop :=
  ∃ i a, t !! i = Some a ∧ KeySet_OwnerID a = o ∧ KeySet_IsDefault a = true.

(** A change of a row that keeps its identity. *)
Definition same_identity (a b : KeySet) : Prop :=
  KeySet_ID b = KeySet_ID a ∧ KeySet_OwnerID b = KeySet_OwnerID a ∧ KeySet_Name b = KeySet_Name a ∧ KeySet_IsDefault b = KeySet_IsDefault a.

Lemma shape_update t id a b : sets_shape t → t !! id = Some a → same_identity a b → sets_shape (<[id := b]> t).
Proof.
  intros [Hk Hn Hd] Ha (E1 & E2 & E3 & E4).
  assert (∀ i x, <[id := b]> t !! i = Some x → ∃ y, t !! i = Some y ∧ same_identity y x) as Hback.
  { intros i x [[<- <-]|[? Hx]]%lookup_insert_Some; [by exists a|by exists x]. }
  constructor.
  - intros i x (y & Hy & F1 & _)%Hback. rewrite F1. by eapply Hk.
  - intros i j x y (x' & Hx & _ & F2 & F3 & _)%Hback (y' & Hy & _ & G2 & G3 & _)%Hback. rewrite F2, F3, G2, G3. by apply Hn.
  - intros i j x y (x' & Hx & _ & F2 & _ & F4)%Hback (y' & Hy & _ & G2 & _ & G4)%Hback. rewrite F2, F4, G2, G4. by apply Hd.
Qed.

Lemma shape_create t set : sets_shape t → t !! KeySet_ID set = None → KeySet_IsDefault set = false →
  (∀ i a, t !! i = Some a → KeySet_OwnerID a = KeySet_OwnerID set → KeySet_Name a = KeySet_Name set → False) →
  sets_shape (<[KeySet_ID set := set]> t).
Proof.
  intros [Hk Hn Hd] Hf Hdef Hfree. constructor.
  - intros i x Hx. apply lookup_insert_Some in Hx as [ [E F]|[_ Hx]]; [by subst|by eapply Hk].
  - intros i j x y Hx Hy. apply lookup_insert_Some in Hx as [ [E F]|[_ Hx]]; apply lookup_insert_Some in Hy as [ [E' F']|[_ Hy]];
      [congruence| | |by apply Hn]; intros E1 E2; exfalso; [by eapply (Hfree j y); congruence|by eapply (Hfree i x); congruence].
  - intros i j x y Hx Hy. apply lookup_insert_Some in Hx as [ [E F]|[_ Hx]]; apply lookup_insert_Some in Hy as [ [E' F']|[_ Hy]];
      [congruence|congruence|congruence|by apply Hd].
Qed.

Lemma lookup_designate ownerID id set t i x : t !! id = Some set → designate ownerID id set t !! i = Some x →
  ∃ y, t !! i = Some y ∧ KeySet_ID x = KeySet_ID y ∧ KeySet_OwnerID x = KeySet_OwnerID y ∧ KeySet_Name x = KeySet_Name y ∧ KeySet_State x = KeySet_State y ∧
    (KeySet_IsDefault x = true ↔ i = id ∨ (KeySet_OwnerID y ≠ ownerID ∧ KeySet_IsDefault y = true)).
Proof.
  intros Hid. unfold designate. destruct (decide (i = id)) as [->|Hne].
  - rewrite lookup_insert_eq. intros [= <-]. exists set. split_and!; try done. split; [by left|done].
  - rewrite lookup_insert_ne, lookup_fmap by done. destruct (t !! i) as [y|] eqn:Ey; simpl; [|done]. intros [= <-]. exists y. unfold clear_default.
    destruct (decide (KeySet_OwnerID y = ownerID)) as [Ho|Ho].
    + rewrite (bool_decide_eq_true_2 _ Ho). simpl. destruct (KeySet_IsDefault y) eqn:Ed; simpl; (split_and!; try done); rewrite ?Ed; (split; [done|intros [?|[? _]]; done]).
    + rewrite (bool_decide_eq_false_2 _ Ho). simpl. split_and!; try done. split; [by right|by intros [?|[_ ?]]].
Qed.

Lemma shape_designate ownerID id set t : t !! id = Some set → KeySet_OwnerID set = ownerID → sets_shape t → sets_shape (designate ownerID id set t).
Proof.
  intros Hid Ho [Hk Hn Hd]. constructor.
  - intros i x Hx. destruct (lookup_designate _ _ _ _ _ _ Hid Hx) as (y & Hy & -> & _). by eapply Hk.
  - intros i j x y Hx Hy. destruct (lookup_designate _ _ _ _ _ _ Hid Hx) as (x' & Hx' & _ & -> & -> & _).
    destruct (lookup_designate _ _ _ _ _ _ Hid Hy) as (y' & Hy' & _ & -> & -> & _). by apply Hn.
  - intros i j x y Hx Hy. destruct (lookup_designate _ _ _ _ _ _ Hid Hx) as (x' & Hx' & _ & -> & _ & _ & Dx).
    destruct (lookup_designate _ _ _ _ _ _ Hid Hy) as (y' & Hy' & _ & -> & _ & _ & Dy). intros E D1 D2.
    apply Dx in D1 as [->|[N1 D1]]; apply Dy in D2 as [->|[N2 D2]]; try done; [congruence|congruence|by eapply Hd].
Qed.

Lemma live_designate ownerID id set t : t !! id = Some set → KeySet_State set = NameStateActive →
  defaults_live (λ o, o ≠ ownerID) t → defaults_live (λ _, True) (designate ownerID id set t).
Proof.
  intros Hid Ha Hl i x Hx D _. destruct (lookup_designate _ _ _ _ _ _ Hid Hx) as (y & Hy & _ & _ & _ & E & Dx).
  rewrite E. destruct (proj1 Dx D) as [Ei|[N D2]]; [congruence|by eapply Hl].
Qed.

Lemma has_default_designate o ownerID id set t : t !! id = Some set → KeySet_OwnerID set = ownerID → has_default o t → has_default o (designate ownerID id set t).
Proof.
  intros Hid Ho (i & a & Ha & Eo & D). destruct (decide (o = ownerID)) as [->|Hne].
  - exists id, (with_default true set). unfold designate. by rewrite lookup_insert_eq.
  - exists i, a. split; [|done]. unfold designate. rewrite lookup_insert_ne by congruence. rewrite lookup_fmap, Ha. simpl. unfold clear_default.
    by rewrite bool_decide_eq_false_2 by congruence.
Qed.

Lemma has_default_update o t id a b : t !! id = Some a → same_identity a b → has_default o t → has_default o (<[id := b]> t).
Proof.
  intros Ha (_ & E2 & _ & E4) (i & x & Hx & Ho & D). destruct (decide (i = id)) as [->|Hne].
  - exists id, b. rewrite lookup_insert_eq. rewrite E2, E4. simplify_eq. done.
  - exists i, x. by rewrite lookup_insert_ne.
Qed.

Lemma has_default_create o t id b : t !! id = None → has_default o t → has_default o (<[id := b]> t).
Proof. intros Hf (i & x & Hx & H). exists i, x. rewrite lookup_insert_ne by congruence. done. Qed.

(** How many rows an owner has depends on the owners of the rows only. *)
Definition owned_rows (o : gostring) (t : gmap gostring KeySet) : nat := length (filter (.= o) (rows (KeySet_OwnerID <$> t))).

Lemma sets_of_owned_rows o d : length (sets_of o d) = owned_rows o (keysets d).
Proof.
  unfold sets_of, owned_rows, rows. rewrite map_to_list_fmap, <- list_fmap_compose.
  induction (map_to_list (keysets d)) as [|x l IH]; [done|]. rewrite !fmap_cons, !filter_cons. simpl. repeat case_decide; simpl; try done; lia.
Qed.

Lemma owned_rows_owners o t t' : KeySet_OwnerID <$> t' = KeySet_OwnerID <$> t → owned_rows o t' = owned_rows o t.
Proof. unfold owned_rows. by intros ->. Qed.

Lemma owners_update (t : gmap gostring KeySet) id a b : t !! id = Some a → KeySet_OwnerID b = KeySet_OwnerID a → KeySet_OwnerID <$> <[id := b]> t = KeySet_OwnerID <$> t.
Proof. intros Ha E. rewrite fmap_insert, E. apply insert_id. by rewrite lookup_fmap, Ha. Qed.

Lemma owners_designate ownerID id set t : t !! id = Some set → KeySet_OwnerID <$> designate ownerID id set t = KeySet_OwnerID <$> t.
Proof.
  intros Hid. unfold designate. rewrite (owners_update _ _ (clear_default ownerID set)).
  - rewrite <- map_fmap_compose. apply map_fmap_ext. intros i x _. apply clear_default_owner.
  - by rewrite lookup_fmap, Hid.
  - simpl. by rewrite clear_default_owner.
Qed.

Lemma owned_rows_create o t id set : t !! id = None →
  owned_rows o (<[id := set]> t) = (owned_rows o t + (if decide (KeySet_OwnerID set = o) then 1 else 0))%nat.
Proof.
  intros Hf. unfold owned_rows, rows. rewrite fmap_insert. rewrite map_to_list_insert by (by rewrite lookup_fmap, Hf).
  rewrite fmap_cons, filter_cons. simpl. repeat case_decide; simpl; try done; lia.
Qed.

Lemma owned_rows_delete o t id : (owned_rows o (delete id t) ≤ owned_rows o t)%nat.
Proof.
  destruct (t !! id) as [a|] eqn:E; [|by rewrite delete_id].
  rewrite <- (insert_id t id a) at 2 by done. rewrite <- insert_delete_eq. rewrite owned_rows_create by apply lookup_delete_eq. lia.
Qed.

(** *** Rename *)

Section renamed.
Context (ownerID id newID name : gostring) (until now : time) (old : KeySet) (t : gmap gostring KeySet).
Hypothesis (Hold : t !! id = Some old) (Hown : KeySet_OwnerID old = ownerID) (Hact : KeySet_State old = NameStateActive).
Hypothesis (Hfresh : t !! newID = None).
Hypothesis Hfree : ∀ i a, t !! i = Some a → KeySet_OwnerID a = ownerID → KeySet_Name a = name → False.
Hypothesis Hok : sets_ok t.

Let new := fresh_set newID ownerID name (KeySet_Visibility old) now.
Let t1 := <[KeySet_ID old := tombstoned until now old]> (<[newID := new]> t).

Lemma rename_old_id : KeySet_ID old = id.
Proof. by eapply (sh_keyed _ (proj1 Hok)). Qed.

Lemma rename_old_t1 : <[newID := new]> t !! KeySet_ID old = Some old.
Proof. rewrite rename_old_id, lookup_insert_ne by congruence. done. Qed.

Lemma rename_new_t1 : t1 !! newID = Some new.
Proof. unfold t1. rewrite lookup_insert_ne by (rewrite rename_old_id; congruence). apply lookup_insert_eq. Qed.

Lemma rename_shape_t1 : sets_shape t1.
Proof. eapply shape_update; [|apply rename_old_t1|done]. apply (shape_create t new); [by destruct Hok|done..]. Qed.

(** Only the renamed set's owner may be left with a default out of service. *)
Lemma rename_live_t1 : defaults_live (λ o, o ≠ ownerID) t1.
Proof.
  intros i a Ha D Hne. unfold t1 in Ha. rewrite lookup_insert_Some in Ha. destruct Ha as [ [E F]|[_ Ha]]; [subst a; by simpl in Hne|].
  rewrite lookup_insert_Some in Ha. destruct Ha as [ [E F]|[_ Ha]]; [by subst a|]. by eapply (proj2 Hok).
Qed.

Lemma renamed_ok : sets_ok (renamed_sets ownerID newID name until now old t).
Proof.
  unfold renamed_sets. fold new. fold t1. destruct (KeySet_IsDefault old) eqn:Ed.
  - split; [apply shape_designate; [apply rename_new_t1|done|apply rename_shape_t1]|].
    apply live_designate; [apply rename_new_t1|done|apply rename_live_t1].
  - split; [apply rename_shape_t1|]. intros i a Ha D _. unfold t1 in Ha. rewrite lookup_insert_Some in Ha. destruct Ha as [ [E F]|[_ Ha]]; [subst a; simpl in D; congruence|].
    rewrite lookup_insert_Some in Ha. destruct Ha as [ [E F]|[_ Ha]]; [by subst a|]. by eapply (proj2 Hok).
Qed.

Lemma renamed_has_default o : has_default o t → has_default o (renamed_sets ownerID newID name until now old t).
Proof.
  intros H. assert (has_default o t1) as H1.
  { eapply has_default_update; [apply rename_old_t1|done|]. by apply has_default_create. }
  unfold renamed_sets. fold new. fold t1. destruct (KeySet_IsDefault old); [|done]. apply has_default_designate; [apply rename_new_t1|done..].
Qed.

Lemma renamed_rows o : owned_rows o (renamed_sets ownerID newID name until now old t) = (owned_rows o t + (if decide (ownerID = o) then 1 else 0))%nat.
Proof.
  assert (owned_rows o t1 = owned_rows o t + (if decide (ownerID = o) then 1 else 0))%nat as E.
  { unfold t1. rewrite (owned_rows_owners _ (<[newID := new]> t)); [by rewrite owned_rows_create by done|].
    eapply owners_update; [apply rename_old_t1|done]. }
  rewrite <- E. unfold renamed_sets. fold new. fold t1. destruct (KeySet_IsDefault old); [|done].
  apply owned_rows_owners, owners_designate, rename_new_t1.
Qed.

(** What the table says afterwards. *)
Lemma renamed_lookup_new : renamed_sets ownerID newID name until now old t !! newID = Some (with_default (KeySet_IsDefault old) new).
Proof.
  unfold renamed_sets. fold new. fold t1. destruct (KeySet_IsDefault old); [unfold designate; by rewrite lookup_insert_eq|]. rewrite rename_new_t1. done.
Qed.

Lemma renamed_lookup_old : renamed_sets ownerID newID name until now old t !! id = Some (with_default false (tombstoned until now old)).
Proof.
  unfold renamed_sets. fold new. fold t1. assert (t1 !! id = Some (tombstoned until now old)) as E by (unfold t1; rewrite rename_old_id; apply lookup_insert_eq).
  destruct (KeySet_IsDefault old) eqn:Ed.
  - unfold designate. rewrite lookup_insert_ne by congruence. rewrite lookup_fmap, E. simpl. unfold clear_default. simpl. rewrite Hown, Ed.
    by rewrite bool_decide_eq_true_2.
  - rewrite E. unfold with_default, tombstoned. simpl. by rewrite Ed.
Qed.

Lemma renamed_lookup_other i : i ≠ id → i ≠ newID → renamed_sets ownerID newID name until now old t !! i = t !! i.
Proof.
  intros H1 H2. unfold renamed_sets. fold new. fold t1. assert (t1 !! i = t !! i) as E by (unfold t1; rewrite rename_old_id, !lookup_insert_ne; done).
  destruct (KeySet_IsDefault old) eqn:Ed; [|done]. unfold designate. rewrite lookup_insert_ne by done. rewrite lookup_fmap, E.
  destruct (t !! i) as [x|] eqn:Ex; [|done]. simpl. unfold clear_default. case_bool_decide as Ho; [|done]. destruct (KeySet_IsDefault x) eqn:Dx; [|done].
  exfalso. apply H1. eapply (sh_default _ (proj1 Hok)); [exact Ex|exact Hold|congruence|done..].
Qed.

Lemma renamed_dom i : is_Some (t !! i) → is_Some (renamed_sets ownerID newID name until now old t !! i).
Proof.
  intros Hi. destruct (decide (i = id)) as [->|H1]; [rewrite renamed_lookup_old; eauto|].
  destruct (decide (i = newID)) as [->|H2]; [rewrite renamed_lookup_new; eauto|].
  by rewrite renamed_lookup_other.
Qed.
End renamed.

(** *** The whole catalogue *)

Record catalog_ok (d : db) : Prop := MkCatalogOk {
  cat_sets : sets_ok (keysets d);
  cat_members : ∀ sid kid m, members d !! (sid, kid) = Some m →
    KeySetMembership_KeySetID m = sid ∧ KeySetMembership_PublicKeyID m = kid ∧ is_Some (keysets d !! sid);
  cat_keys : ∀ id k, accesskeys d !! id = Some k → is_Some (keysets d !! AccessKey_KeySetID k);
}.

(** Access keys change, none comes to refer to a set that is not there. *)
Definition keys_refer (d d' : db) : Prop := ∀ id k', accesskeys d' !! id = Some k' →
  is_Some (keysets d !! AccessKey_KeySetID k') ∨ ∃ k, accesskeys d !! id = Some k ∧ AccessKey_KeySetID k = AccessKey_KeySetID k'.

(** The writes that reach these tables. *)
Inductive catalog_change (s : ks_service) (d d' : db) : Prop :=
| cc_keys : keysets d' = keysets d → members d' = members d → keys_refer d d' → catalog_change s d d'
| cc_create set : admissible s (KeySet_OwnerID set) (KeySet_ID set) (KeySet_Name set) d → KeySet_IsDefault set = false →
    keysets d' = <[KeySet_ID set := set]> (keysets d) → members d' = members d → accesskeys d' = accesskeys d → catalog_change s d d'
| cc_visibility id set v now : keysets d !! id = Some set → keysets d' = <[id := with_visibility v now set]> (keysets d) →
    members d' = members d → accesskeys d' = accesskeys d → catalog_change s d d'
| cc_default ownerID id set : keysets d !! id = Some set → KeySet_OwnerID set = ownerID → KeySet_State set = NameStateActive →
    keysets d' = designate ownerID id set (keysets d) → members d' = members d → accesskeys d' = accesskeys d → catalog_change s d d'
| cc_delete id set : keysets d !! id = Some set → KeySet_IsDefault set = false → keys_of_set id d = [] →
    keysets d' = delete id (keysets d) → members d' = disband id (members d) → accesskeys d' = accesskeys d → catalog_change s d d'
| cc_rename ownerID id newID name until now old ms : keysets d !! id = Some old → KeySet_OwnerID old = ownerID → KeySet_State old = NameStateActive →
    admissible s ownerID newID name d →
    keysets d' = renamed_sets ownerID newID name until now old (keysets d) → members d' = enrolled newID now ms (members d) →
    accesskeys d' = accesskeys d → catalog_change s d d'
| cc_join sid kid now : is_Some (keysets d !! sid) → members d' = <[(sid, kid) := MkKeySetMembership sid kid now]> (members d) →
    keysets d' = keysets d → accesskeys d' = accesskeys d → catalog_change s d d'
| cc_leave sid kid : members d' = delete (sid, kid) (members d) → keysets d' = keysets d → accesskeys d' = accesskeys d → catalog_change s d d'.

Lemma lookup_enrolled setID now ms t sid kid :
  enrolled setID now ms t !! (sid, kid) =
  if decide (sid = setID ∧ kid ∈ KeySetMembership_PublicKeyID <$> ms) then Some (MkKeySetMembership setID kid now) else t !! (sid, kid).
Proof.
  unfold enrolled. revert t. induction ms as [|m ms IH]; intros t; simpl.
  - rewrite decide_False; [done|]. by intros [_ ?%not_elem_of_nil].
  - rewrite IH. destruct (decide (sid = setID ∧ kid ∈ KeySetMembership_PublicKeyID <$> ms)) as [ [-> Hin]|Hno].
    + rewrite decide_True; [done|]. split; [done|]. apply elem_of_cons. by right.
    + destruct (decide (sid = setID ∧ kid = KeySetMembership_PublicKeyID m)) as [ [-> ->]|Hm].
      * rewrite lookup_insert_eq, decide_True; [done|]. split; [done|apply elem_of_cons; by left].
      * rewrite lookup_insert_ne by naive_solver. rewrite decide_False; [done|]. intros [-> [->|?]%elem_of_cons]; tauto.
Qed.

Lemma keys_of_set_nil id d : keys_of_set id d = [] → ∀ i k, accesskeys d !! i = Some k → AccessKey_KeySetID k ≠ id.
Proof.
  intros E i k Hk Hid. apply (not_elem_of_nil k). rewrite <- E. apply list_elem_of_filter. split; [done|]. apply elem_of_rows. eauto.
Qed.

Lemma live_update t id a b : t !! id = Some a → KeySet_IsDefault b = KeySet_IsDefault a → KeySet_State b = KeySet_State a →
  defaults_live (λ _, True) t → defaults_live (λ _, True) (<[id := b]> t).
Proof.
  intros Ha Ed Es Hl i x Hx D _. apply lookup_insert_Some in Hx as [ [E F]|[_ Hx]]; [subst|by eapply Hl].
  rewrite Es. eapply Hl; [exact Ha|congruence|done].
Qed.

Lemma live_create t set : KeySet_IsDefault set = false → defaults_live (λ _, True) t → defaults_live (λ _, True) (<[KeySet_ID set := set]> t).
Proof. intros Hd Hl i x Hx D _. apply lookup_insert_Some in Hx as [ [E F]|[_ Hx]]; [subst; congruence|by eapply Hl]. Qed.

Lemma shape_delete t id : sets_shape t → sets_shape (delete id t).
Proof.
  intros [Hk Hn Hd]. constructor.
  - intros i x [_ Hx]%lookup_delete_Some. by eapply Hk.
  - intros i j x y [_ Hx]%lookup_delete_Some [_ Hy]%lookup_delete_Some. by apply Hn.
  - intros i j x y [_ Hx]%lookup_delete_Some [_ Hy]%lookup_delete_Some. by apply Hd.
Qed.

Lemma change_sets s d d' : catalog_change s d d' → sets_ok (keysets d) → sets_ok (keysets d').
Proof.
  intros H Hok. pose proof Hok as [Hsh Hl].
  destruct H as [E _ _|set (_ & Hf & Hn) Hd E _ _|id set v now Hs E _ _|ownerID id set Hs Ho Ha E _ _|id set Hs Hd _ E _ _
    |ownerID id newID name until now old ms Hs Ho Ha (_ & Hf & Hn) E _ _|? ? ? _ _ E _|? ? _ E _]; rewrite E; try done.
  - split; [apply shape_create|apply live_create]; try done. by apply named_set_nil.
  - split; [by eapply shape_update|by eapply live_update].
  - split; [by apply shape_designate|apply live_designate; [done|done|]]. intros i a Hi D _. by eapply Hl.
  - split; [by apply shape_delete|]. intros i x [_ Hx]%lookup_delete_Some D _. by eapply Hl.
  - apply (renamed_ok _ id); try done. by apply named_set_nil.
Qed.

(** A set goes only when nothing refers to it. *)
Lemma change_keeps s d d' sid : catalog_change s d d' → sets_ok (keysets d) → is_Some (keysets d !! sid) →
  is_Some (keysets d' !! sid) ∨ keys_of_set sid d = [] ∧ keysets d' !! sid = None ∧ members d' = disband sid (members d).
Proof.
  intros H Hok Hsid.
  destruct H as [E _ _|set (_ & Hf & Hn) Hd E _ _|id set v now Hs E _ _|ownerID id set Hs Ho Ha E _ _|id set Hs Hd Hk E Em _
    |ownerID id newID name until now old ms Hs Ho Ha (_ & Hf & Hn) E _ _|? ? ? _ _ E _|? ? _ E _]; rewrite E; auto.
  - left. apply lookup_insert_is_Some'. auto.
  - left. apply lookup_insert_is_Some'. auto.
  - left. unfold designate. apply lookup_insert_is_Some'. right. rewrite lookup_fmap. by apply fmap_is_Some.
  - destruct (decide (id = sid)) as [->|Hne]; [right; by rewrite lookup_delete_eq|left; by rewrite lookup_delete_ne].
  - left. by apply (renamed_dom _ id).
Qed.

Lemma change_ok s d d' : catalog_change s d d' → catalog_ok d → catalog_ok d'.
Proof.
  intros H [Hsets Hmem Hkeys]. constructor; [by eapply change_sets| |].
  - intros sid kid m Hm. assert (members d !! (sid, kid) = Some m → KeySetMembership_KeySetID m = sid ∧ KeySetMembership_PublicKeyID m = kid ∧ is_Some (keysets d' !! sid)) as Hold.
    { intros Hm'. destruct (Hmem _ _ _ Hm') as (? & ? & Hs). split_and!; try done.
      destruct (change_keeps _ _ _ _ H Hsets Hs) as [?|(_ & _ & E)]; [done|]. rewrite E in Hm. apply map_lookup_filter_Some in Hm as [_ Hne]. by simpl in Hne. }
    destruct H as [_ E _|set _ _ _ E _|id set v now _ _ E _|ownerID id set _ _ _ _ E _|id set _ _ _ _ E _
      |ownerID id newID name until now old ms Hs Ho Ha (_ & Hf & Hn) Ek E _|sid' kid' now Hs E Ek _|? ? E _ _]; rewrite E in Hm; auto.
    + apply map_lookup_filter_Some in Hm as [Hm _]. auto.
    + rewrite lookup_enrolled in Hm. case_decide as Hd; [|auto]. destruct Hd as [-> _]. injection Hm as <-. simpl. split_and!; try done.
      rewrite Ek. erewrite renamed_lookup_new; eauto; try done.
    + apply lookup_insert_Some in Hm as [ [ [= <- <-] <-]|[_ Hm]]; [|auto]. simpl. rewrite Ek. done.
    + apply lookup_delete_Some in Hm as [_ Hm]. auto.
  - intros id k' Hk'. assert (is_Some (keysets d !! AccessKey_KeySetID k')) as Hd.
    { destruct H as [_ _ Hr|? _ _ _ _ E|? ? ? ? _ _ _ E|? ? ? _ _ _ _ _ E|? ? _ _ _ _ _ E|? ? ? ? ? ? ? ? _ _ _ _ _ _ E|? ? ? _ _ _ E|? ? _ _ E];
        [destruct (Hr _ _ Hk') as [?|(k & Hk & <-)]; [done|by eapply Hkeys]|rewrite E in Hk'; by eapply Hkeys..]. }
    destruct (change_keeps _ _ _ _ H Hsets Hd) as [?|(Hnil & Hnone & _)]; [done|]. exfalso.
    destruct H as [E _ _|? _ _ _ _ E|? ? ? ? _ _ _ E|? ? ? _ _ _ _ _ E|? ? _ _ _ _ _ E|? ? ? ? ? ? ? ? _ _ _ _ _ _ E|? ? ? _ _ _ E|? ? _ _ E];
      [rewrite E in Hnone; destruct Hd; congruence|rewrite E in Hk'; by eapply keys_of_set_nil..].
Qed.

Lemma change_has_default s d d' o : catalog_change s d d' → sets_ok (keysets d) → has_default o (keysets d) → has_default o (keysets d').
Proof.
  intros H Hok Hd.
  destruct H as [E _ _|set (_ & Hf & Hn) _ E _ _|id set v now Hs E _ _|ownerID id set Hs Ho Ha E _ _|id set Hs Hdef _ E _ _
    |ownerID id newID name until now old ms Hs Ho Ha (_ & Hf & Hn) E _ _|? ? ? _ _ E _|? ? _ E _]; rewrite E; try done.
  - by apply has_default_create.
  - by eapply has_default_update.
  - by apply has_default_designate.
  - destruct Hd as (i & a & Hi & H). exists i, a. rewrite lookup_delete_ne; [done|]. intros ->. destruct H. congruence.
  - apply (renamed_has_default _ id); try done.
Qed.

Lemma change_count s d d' o : catalog_change s d d' → sets_ok (keysets d) →
  Z.of_nat (owned_rows o (keysets d')) ≤ Z.max (Z.of_nat (owned_rows o (keysets d))) (ks_maxSets s).
Proof.
  intros H Hok.
  destruct H as [E _ _|set (Hc & Hf & Hn) _ E _ _|id set v now Hs E _ _|ownerID id set Hs Ho Ha E _ _|id set Hs Hdef _ E _ _
    |ownerID id newID name until now old ms Hs Ho Ha (Hc & Hf & Hn) E _ _|? ? ? _ _ E _|? ? _ E _]; rewrite E; try lia.
  - rewrite owned_rows_create by done. rewrite sets_of_owned_rows in Hc. case_decide; subst; lia.
  - rewrite (owned_rows_owners o (keysets d)); [lia|]. by eapply owners_update.
  - rewrite (owned_rows_owners o (keysets d)); [lia|]. by apply owners_designate.
  - pose proof (owned_rows_delete o (keysets d) id). lia.
  - rewrite (renamed_rows _ id) by done. rewrite sets_of_owned_rows in Hc. case_decide; subst; lia.
Qed.

(** *** The calls *)

Inductive catalog_step {UF : UnicodeFold} {U : UnicodeData} (s : ks_service) (a : ak_service) (c c' : conn) : Prop :=
| cs_Create now newID st ownerID name requestID r : ks_Create s now newID st ownerID name requestID c = (r, c') → catalog_step s a c c'
| cs_Rename now newID st ownerID id name requestID r : ks_Rename s now newID st ownerID id name requestID c = (r, c') → catalog_step s a c c'
| cs_Delete st ownerID id confirm requestID r : ks_Delete st ownerID id confirm requestID c = (r, c') → catalog_step s a c c'
| cs_SetDefault now st ownerID id requestID r : ks_SetDefault now st ownerID id requestID c = (r, c') → catalog_step s a c c'
| cs_SetVisibility now st ownerID id v requestID r : ks_SetVisibility now st ownerID id v requestID c = (r, c') → catalog_step s a c c'
| cs_AddMember ownerID sid kid now r : keyset_AddMember ownerID sid kid now c = (r, c') → catalog_step s a c c'
| cs_RemoveMember ownerID sid kid r : keyset_RemoveMember ownerID sid kid c = (r, c') → catalog_step s a c c'
| cs_Mint now raw text st ownerID setID name requestID r : ak_Mint a now raw text st ownerID setID name requestID c = (r, c') → catalog_step s a c c'
| cs_Revoke now st ownerID id requestID r : ak_Revoke now st ownerID id requestID c = (r, c') → catalog_step s a c c'
| cs_Rotate now raw text st1 st2 ownerID id requestID r : ak_Rotate a now raw text st1 st2 ownerID id requestID c = (r, c') → catalog_step s a c c'
| cs_ExpireGrace now sts limit r : ak_ExpireGrace now sts limit c = (r, c') → catalog_step s a c c'
| cs_other : keysets (data c') = keysets (data c) → members (data c') = members (data c) → accesskeys (data c') = accesskeys (data c) → catalog_step s a c c'.

Section calls.
Context {UF : UnicodeFold} {U : UnicodeData} (s : ks_service) (a : ak_service).

Lemma cc_same d d' : keysets d' = keysets d → members d' = members d → accesskeys d' = accesskeys d → catalog_change s d d'.
Proof. intros E1 E2 E3. apply cc_keys; try done. intros id k Hk. rewrite E3 in Hk. eauto. Qed.

Lemma committed_tables {A} (x : A) st ev d1 r d' : committed x st ev d1 r d' →
  keysets d' = keysets d1 ∧ members d' = members d1 ∧ accesskeys d' = accesskeys d1.
Proof. by intros [[_ ->]|(e & _ & ->)]. Qed.

(** Access keys that appear or change refer to sets that are there. *)
Lemma keys_refer_insert d d' id k : accesskeys d' = <[id := k]> (accesskeys d) →
  is_Some (keysets d !! AccessKey_KeySetID k) ∨ (∃ k0, accesskeys d !! id = Some k0 ∧ AccessKey_KeySetID k0 = AccessKey_KeySetID k) → keys_refer d d'.
Proof.
  intros E Hk i k' Hi. rewrite E in Hi. destruct (decide (i = id)) as [->|Hne].
  - rewrite lookup_insert_eq in Hi. injection Hi as <-. done.
  - rewrite lookup_insert_ne in Hi by done. eauto.
Qed.

Lemma expire_refer b now sts ks n d : wp b (expire_loop now sts ks n) d (λ _ d', keysets d' = keysets d ∧ members d' = members d ∧
  ∀ id k', accesskeys d' !! id = Some k' → ∃ k, accesskeys d !! id = Some k ∧ AccessKey_KeySetID k = AccessKey_KeySetID k').
Proof.
  revert sts n d. induction ks as [|k ks IH]; intros sts n d; simpl; [wp_step; eauto|].
  destruct (ak_keyDetails _ _ _) as [details|]; [|wp_step; eauto]. wp_step. apply wp_accesskey_Revoke.
  - intros e _. destruct (errors_is e ErrNotFound); [apply IH|wp_step; eauto].
  - intros k0 Hk0 _. wp_step. unfold ak_emitSystem.
    assert (∀ id k', <[AccessKey_ID k := retired_key now k0]> (accesskeys d) !! id = Some k' →
      ∃ k, accesskeys d !! id = Some k ∧ AccessKey_KeySetID k = AccessKey_KeySetID k') as Hstep.
    { intros id k' [[<- <-]|[_ H]]%lookup_insert_Some; eauto. }
    apply wp_Emit; [intros e; wp_step; simpl; auto|]. intros _ _ _. eapply wp_mono; [apply IH|]. simpl. intros _ d' (E1 & E2 & H).
    split_and!; [done|done|]. intros id k' Hk'. destruct (H _ _ Hk') as (k1 & Hk1 & E). destruct (Hstep _ _ Hk1) as (k2 & Hk2 & E'). exists k2. split; [done|congruence].
Qed.

Lemma call_changes c c' : catalog_step s a c c' → catalog_ok (data c) → catalog_change s (data c) (data c').
Proof.
  intros H Hok. pose proof (sh_keyed _ (proj1 (cat_sets _ Hok))) as Hkeyed.
  assert (∀ o sid set, owned_set o sid (data c) = Some set → is_Some (keysets (data c) !! KeySet_ID set)) as Hset.
  { intros o sid set [Hs _]%of_owner_Some. rewrite (Hkeyed _ _ Hs). eauto. }
  destruct H as [now newID st ownerID name requestID r E|now newID st ownerID id name requestID r E|st ownerID id confirm requestID r E
    |now st ownerID id requestID r E|now st ownerID id v requestID r E|ownerID sid kid now r E|ownerID sid kid r E
    |now raw text st ownerID setID name requestID r E|now st ownerID id requestID r E|now raw text st1 st2 ownerID id requestID r E|now sts limit r E|E1 E2 E3].
  - apply (wp_run false _ _ _ _ _ _ (Create_spec s false now newID st ownerID name requestID _) eq_refl) in E; [|done].
    destruct E as [(e & _ & ->)|(_ & Hadm & details & Hc)]; [by apply cc_same|]. apply committed_tables in Hc as (E1 & E2 & E3).
    by apply (cc_create _ _ _ (fresh_set newID ownerID name VisibilityProtected now)).
  - apply (wp_run false _ _ _ _ _ _ (Rename_spec s false now newID st ownerID id name requestID _ Hkeyed) eq_refl) in E; [|done].
    destruct E as [(e & _ & ->)|(old & ms & details & Hold & Ho & Ha & _ & Hadm & _ & _ & Hc)]; [by apply cc_same|]. apply committed_tables in Hc as (E1 & E2 & E3).
    by apply (cc_rename _ _ _ ownerID id newID name (now + ks_quarantine s) now old ms).
  - apply (wp_run false _ _ _ _ _ _ (Delete_spec false st ownerID id confirm requestID _) eq_refl) in E; [|done].
    destruct E as [(e & _ & ->)|(set & details & Hs & _ & _ & Hd & _ & Hk & Hc)]; [by apply cc_same|]. apply committed_tables in Hc as (E1 & E2 & E3).
    by apply (cc_delete _ _ _ id set).
  - apply (wp_run false _ _ _ _ _ _ (SetDefault_spec false now st ownerID id requestID _) eq_refl) in E; [|done].
    destruct E as [(e & _ & ->)|(set & details & Hs & Ho & Ha & Hc)]; [by apply cc_same|]. apply committed_tables in Hc as (E1 & E2 & E3).
    by apply (cc_default _ _ _ ownerID id set).
  - apply (wp_run false _ _ _ _ _ _ (SetVisibility_spec false now st ownerID id v requestID _ Hkeyed) eq_refl) in E; [|done].
    destruct E as [(e & _ & ->)|(set & details & Hs & _ & _ & _ & Hc)]; [by apply cc_same|]. apply committed_tables in Hc as (E1 & E2 & E3).
    by apply (cc_visibility _ _ _ id set v now).
  - apply (wp_run false _ (data c) (λ _ d', catalog_change s (data c) d')) in E; [done| |done|done].
    apply wp_AddMember; [intros; by apply cc_same|]. intros _ [set [Hs _]%of_owner_Some] _. eapply (cc_join _ _ _ sid kid now); eauto.
  - apply (wp_run false _ (data c) (λ _ d', catalog_change s (data c) d')) in E; [done| |done|done].
    unfold keyset_RemoveMember. wp_step. wp_step; [by apply cc_same|]. repeat (destruct (owned_set _ _ _) || destruct (owned_pubkey _ _ _) || destruct (members _ !! _));
      wp_step; try done; try by apply cc_same. by apply (cc_leave _ _ _ sid kid).
  - apply (wp_run false _ _ _ _ _ _ (Mint_spec a false now raw text st ownerID setID name requestID _) eq_refl) in E; [|done].
    destruct E as [(e & _ & ->)|(set & clean & _ & _ & Hs & _ & _ & _ & [(e & _ & ->)|(de & _ & _ & ->)])]; [by apply cc_same| |];
      (apply cc_keys; try done; eapply keys_refer_insert; [reflexivity|left; by eapply Hset]).
  - apply (wp_run false _ _ _ _ _ _ (Revoke_spec false now st ownerID id requestID _) eq_refl) in E; [|done].
    destruct E as [(e & _ & ->)|(k & Hk & _ & _ & [(e & _ & ->)|(de & _ & _ & ->)])]; [by apply cc_same| |];
      (apply cc_keys; try done; eapply keys_refer_insert; [reflexivity|right; eauto]).
  - apply (wp_run false _ _ _ _ _ _ (Rotate_spec a false now raw text st1 st2 ownerID id requestID _) eq_refl) in E; [|done].
    destruct E as [(e & _ & ->)|(old & set & Hk & Ho & Ha & _ & Hs & _ & Hn & [au ->] & _)]; [by apply cc_same|].
    apply cc_keys; try done. intros i k' Hi. simpl in Hi. apply lookup_insert_Some in Hi as [ [<- <-]|[_ Hi]]; [right; eauto|].
    apply lookup_insert_Some in Hi as [ [_ <-]|[_ Hi]]; [left; by eapply Hset|right; eauto].
  - apply (wp_run false _ (data c) (λ _ d', catalog_change s (data c) d')) in E; [done| |done|done].
    unfold ak_ExpireGrace, accesskey_ListExpiredGrace. wp_step; [wp_step; by apply cc_same|]. wp_step. rewrite (proj2 (Z.leb_gt _ _)) by lia.
    wp_step; [wp_step; by apply cc_same|]. eapply wp_mono; [apply expire_refer|]. intros _ d' (E1 & E2 & H). apply cc_keys; try done. intros i k Hk. right. eauto.
  - by apply cc_same.
Qed.
End calls.

(** ** Theorems *)

Section theorems.
Context {UF : UnicodeFold} {U : UnicodeData} (s : ks_service) (a : ak_service).

Lemma catalog_steps_ok c c' : steps (catalog_step s a) c c' → catalog_ok (data c) → catalog_ok (data c') ∧
  ∀ o, (has_default o (keysets (data c)) → has_default o (keysets (data c'))) ∧
    Z.of_nat (length (sets_of o (data c'))) ≤ Z.max (Z.of_nat (length (sets_of o (data c)))) (ks_maxSets s).
Proof.
  induction 1 as [c|c c1 c2 H _ IH]; intros Hok; [split; [done|intros o; split; [done|lia]]|].
  pose proof (call_changes s a _ _ H Hok) as Hc. pose proof (cat_sets _ Hok) as Hs. destruct (IH (change_ok _ _ _ Hc Hok)) as [Hok2 Ho].
  split; [done|]. intros o. destruct (Ho o) as [Hd Hn]. split.
  - intros H1. apply Hd. by eapply change_has_default.
  - pose proof (change_count s _ _ o Hc Hs). rewrite !sets_of_owned_rows in *. lia.
Qed.

(** C18. The catalogue stays consistent under any sequence of calls of the key set and
    access key services and of membership changes, whichever statements fail: rows are
    under their ids, an owner's names differ, at most one set of an owner is the default
    and it is active, memberships and access keys refer to sets that exist; an owner
    who has a default never loses it, and no owner comes to hold more sets than the
    limit, tombstones included. *)
Theorem catalogue_invariant c c' : steps (catalog_step s a) c c' → catalog_ok (data c) →
  catalog_ok (data c') ∧
  ∀ o, (has_default o (keysets (data c)) → has_default o (keysets (data c'))) ∧
    Z.of_nat (length (sets_of o (data c'))) ≤ Z.max (Z.of_nat (length (sets_of o (data c)))) (ks_maxSets s).
Proof. apply catalog_steps_ok. Qed.

Lemma members_of_iff d id kid : catalog_ok d → (kid ∈ KeySetMembership_PublicKeyID <$> members_of id d ↔ is_Some (members d !! (id, kid))).
Proof.
  intros Hok. rewrite list_elem_of_fmap. split.
  - intros (m & -> & [Hid Hm]%list_elem_of_filter). apply list_elem_of_fmap in Hm as ([ [sid kid] m'] & -> & Hm). apply elem_of_map_to_list in Hm. simpl in *.
    destruct (cat_members _ Hok _ _ _ Hm) as (E1 & E2 & _). rewrite E2. rewrite <- Hid, E1. eauto.
  - intros [m Hm]. destruct (cat_members _ Hok _ _ _ Hm) as (E1 & E2 & _). exists m. split; [done|]. apply list_elem_of_filter. split; [done|].
    apply list_elem_of_fmap. exists ((id, kid), m). split; [done|by apply elem_of_map_to_list].
Qed.

(** The state a rename leaves. *)
Definition rename_done (now : time) (newID ownerID id name : gostring) (old : KeySet) (d d' : db) : Prop :=
  keysets d' !! newID = Some (with_default (KeySet_IsDefault old) (fresh_set newID ownerID name (KeySet_Visibility old) now)) ∧
  keysets d' !! id = Some (with_default false (tombstoned (now + ks_quarantine s) now old)) ∧
  (∀ i, i ≠ id → i ≠ newID → keysets d' !! i = keysets d !! i) ∧
  (∀ kid, is_Some (members d' !! (newID, kid)) ↔ is_Some (members d !! (id, kid))) ∧
  (∀ sid kid, sid ≠ newID → members d' !! (sid, kid) = members d !! (sid, kid)) ∧
  accesskeys d' = accesskeys d.

Lemma rename_outcome now newID st ownerID id name requestID c r c' :
  catalog_ok (data c) → ks_Rename s now newID st ownerID id name requestID c = (r, c') →
  ((∃ e, r = Err e) ∧ data c' = data c) ∨
  ∃ old, keysets (data c) !! id = Some old ∧ KeySet_OwnerID old = ownerID ∧ KeySet_State old = NameStateActive ∧ keysets (data c) !! newID = None ∧
    named_set ownerID name (data c) = [] ∧
    rename_done now newID ownerID id name old (data c) (data c') ∧
    (∀ set, r = Ok set → keysets (data c') !! newID = Some set ∧ KeySet_ID set = newID).
Proof.
  intros Hok E. apply (wp_run false _ _ _ _ _ _ (Rename_spec s false now newID st ownerID id name requestID _ (sh_keyed _ (proj1 (cat_sets _ Hok)))) eq_refl) in E; [|done].
  destruct E as [(e & -> & ->)|(old & ms & details & Hold & Ho & Ha & _ & (_ & Hf & Hn) & Hne & Hms & Hc)]; [left; eauto|right].
  pose proof (proj1 (named_set_nil _ _ _) Hn) as Hfree. pose proof (cat_sets _ Hok) as Hs.
  pose proof (committed_tables _ _ _ _ _ _ Hc) as (E1 & E2 & E3). simpl in E1, E2, E3.
  assert (rename_done now newID ownerID id name old (data c) (data c')) as Hdone.
  { unfold rename_done. rewrite E1, E2, E3. split_and!; try done.
    - by apply (renamed_lookup_new _ id).
    - by apply renamed_lookup_old.
    - intros i H1 H2. by apply (renamed_lookup_other _ id).
    - intros kid. rewrite lookup_enrolled, <- members_of_iff by done.
      assert (kid ∈ KeySetMembership_PublicKeyID <$> ms ↔ kid ∈ KeySetMembership_PublicKeyID <$> members_of id (data c)) as Hiff
        by (rewrite !list_elem_of_fmap; by setoid_rewrite Hms).
      case_decide as Hd; [split; [intros _; apply Hiff; by destruct Hd|eauto]|]. split; [intros [m Hm]|intros Hk; exfalso; apply Hd; split; [done|by apply Hiff]].
      destruct (cat_members _ Hok _ _ _ Hm) as (_ & _ & [? ?]). congruence.
    - intros sid kid Hsid. rewrite lookup_enrolled. by rewrite decide_False by (intros [? _]; done). }
  exists old. split_and!; try done. intros set ->. destruct Hc as [[ [= ->] _]|(e & ? & _)]; [|done]. split; [apply Hdone|done].
Qed.

(** Renaming is all or nothing.  Whatever fails, a rename leaves every table as it
    was, or completes: the new set is active under the new name with the old one's
    visibility and default flag and exactly its keys, the old row holds its name in
    quarantine until the end of the window and is no longer the default, and no other
    set, membership or access key changes.  A success is always complete. *)
Theorem Rename_atomic now newID st ownerID id name requestID c r c' :
  catalog_ok (data c) → ks_Rename s now newID st ownerID id name requestID c = (r, c') →
  ((∃ e, r = Err e) ∧ data c' = data c) ∨
  ∃ old, keysets (data c) !! id = Some old ∧ KeySet_OwnerID old = ownerID ∧ KeySet_State old = NameStateActive ∧
    rename_done now newID ownerID id name old (data c) (data c') ∧
    (∀ set, r = Ok set → keysets (data c') !! newID = Some set).
Proof.
  intros Hok E. destruct (rename_outcome _ _ _ _ _ _ _ _ _ _ Hok E) as [?|(old & H1 & H2 & H3 & _ & _ & H4 & H5)]; [by left|right].
  exists old. split_and!; try done. intros set Hr. by destruct (H5 set Hr).
Qed.

(** A rename leaves the access keys behind: right after it no token whatsoever opens
    the renamed set, and every consumer of a protected set is locked out until new
    keys are minted. *)
Theorem Rename_strands_access_keys now newID st ownerID id name requestID c set c' :
  catalog_ok (data c) → ks_Rename s now newID st ownerID id name requestID c = (Ok set, c') →
  ∀ c'' later ownerID' presented, data c'' = data c' →
    is_ok (fst (ak_Verify a later ownerID' (KeySet_ID set) presented c'')) = false.
Proof.
  intros Hok E c'' later ownerID' presented Hd.
  destruct (rename_outcome _ _ _ _ _ _ _ _ _ _ Hok E) as [[[? ?] _]|(old & _ & _ & _ & Hf & _ & (_ & _ & _ & _ & _ & Hk) & Hset)]; [done|].
  destruct (Hset set eq_refl) as [_ Hid]. destruct (ak_Verify _ _ _ _ _ c'') as [[k|] c3] eqn:Ev; [|done]. exfalso.
  apply Verify_Ok in Ev as (_ & _ & kid & secret & _ & Hkey & _ & Hsid & _). rewrite Hd, Hk in Hkey.
  destruct (cat_keys _ Hok _ _ Hkey) as [x Hx]. rewrite Hsid, Hid in Hx. congruence.
Qed.

(** A set that ever had an access key cannot be deleted: revoking the key, rotating
    it or letting it expire keeps its row, the row refers to the set, and the store
    refuses the deletion with an error that is none of the documented refusals. *)
Theorem Delete_refused_after_minting c c1 kid k st ownerID id confirm requestID r c2 :
  accesskeys (data c) !! kid = Some k → AccessKey_KeySetID k = id → steps (ak_step a) c c1 →
  ks_Delete st ownerID id confirm requestID c1 = (r, c2) → is_ok r = false ∧ data c2 = data c1.
Proof.
  intros Hk Hid Hst E. apply (steps_map _ key_step (λ c, accesskeys (data c))) in Hst; [|apply ak_step_keys].
  destruct (key_steps_forward _ _ _ _ Hst Hk) as (k' & Hk' & _ & _ & Hset & _).
  apply (wp_run false _ _ _ _ _ _ (Delete_spec false st ownerID id confirm requestID _) eq_refl) in E; [|done].
  destruct E as [(e & -> & ->)|(set & details & _ & _ & _ & _ & _ & Hnil & _)]; [done|]. exfalso. eapply keys_of_set_nil; [exact Hnil|exact Hk'|congruence].
Qed.

(** What a creation needs: a permitted name, a fresh id, and a record the log accepts. *)
Definition creatable (newID : gostring) (st : stamp) (ownerID name requestID : gostring) (d : db) : Prop :=
  ownerID ≠ [] ∧ is_Some (owners d !! ownerID) ∧ Guard_Check (ks_guard s) KindKeySetName OpCreate name = None ∧
  keysets d !! newID = None ∧ Z.of_nat (length (sets_of ownerID d)) < ks_maxSets s ∧ audits d !! stamp_id st = None ∧
  ∃ details, setDetails name requestID = Ok details ∧ is_ok (Emitter_record st (set_event ownerID (go "key_set.created") newID details)) = true.

Lemma Create_succeeds now newID st ownerID name requestID c :
  faults c = [] → creatable newID st ownerID name requestID (data c) → named_set ownerID name (data c) = [] →
  fst (ks_Create s now newID st ownerID name requestID c) = Ok (fresh_set newID ownerID name VisibilityProtected now).
Proof.
  intros Hf (Ho & [o Howner] & Hg & Hfresh & Hcount & Hau & details & Hd & Hrec) Hfree.
  destruct (ks_Create _ _ _ _ _ _ _ c) as [r c'] eqn:E. simpl.
  refine (wp_run true _ (data c) (λ r _, r = Ok _) _ _ _ _ eq_refl (λ _, Hf) E). clear E.
  unfold ks_Create. rewrite bool_decide_eq_false_2 by done. rewrite Hg. wp_step. apply wp_ret_or. rewrite Hd. wp_step.
  wp_step; [done|]. unfold createLocked, keyset_LockOwnerForCreate, keyset_CountByOwner. do 3 wp_step. wp_step; [done|].
  rewrite (proj2 (Z.leb_gt _ _)) by done. wp_step. unfold keyset_Create. wp_step. wp_step; [done|]. simpl. rewrite Hfresh, Hfree, Howner. simpl.
  wp_step. wp_step. split; [|done]. wp_step. unfold ks_emit. apply wp_Emit_ok; [done|done|done|]. by wp_step.
Qed.

(** Deletion frees the name at once.  A delete that succeeds removed the caller's own
    live set, which was not the default and had no keys unless the caller confirmed, and
    its memberships, and nothing else of the catalogue; no row holds the name in
    reserve afterwards, so the owner can create another set under it right away. *)
Theorem Delete_frees_name st ownerID id confirm requestID c c' set :
  catalog_ok (data c) → keysets (data c) !! id = Some set → ks_Delete st ownerID id confirm requestID c = (Ok tt, c') →
  KeySet_OwnerID set = ownerID ∧ KeySet_State set = NameStateActive ∧ KeySet_IsDefault set = false ∧ (members_of id (data c) = [] ∨ confirm = true) ∧
  keysets (data c') = delete id (keysets (data c)) ∧ (∀ sid kid, members (data c') !! (sid, kid) = if decide (sid = id) then None else members (data c) !! (sid, kid)) ∧
  pubkeys (data c') = pubkeys (data c) ∧
  named_set ownerID (KeySet_Name set) (data c') = [] ∧
  ∀ c'' now newID st' requestID', data c'' = data c' → faults c'' = [] → creatable newID st' ownerID (KeySet_Name set) requestID' (data c') →
    is_ok (fst (ks_Create s now newID st' ownerID (KeySet_Name set) requestID' c'')) = true.
Proof.
  intros Hok Hset E. apply (wp_run false _ _ _ _ _ _ (Delete_spec false st ownerID id confirm requestID _) eq_refl) in E; [|done].
  destruct E as [(e & ? & _)|(set' & details & Hset' & Ho & Ha & Hd & Hconf & Hk & [ [_ E]|(e & ? & _)])]; [done| |done].
  rewrite Hset in Hset'. injection Hset' as <-.
  assert (named_set ownerID (KeySet_Name set) (data c') = []) as Hfree.
  { apply named_set_nil. intros i x Hx Ex En. rewrite E in Hx. simpl in Hx. apply lookup_delete_Some in Hx as [Hne Hx]. apply Hne.
    eapply (sh_names _ (proj1 (cat_sets _ Hok))); [exact Hset|exact Hx|congruence..]. }
  split_and!; try done; try (by rewrite E).
  - intros sid kid. rewrite E. simpl. unfold disband. case_decide as Hs.
    + apply map_lookup_filter_None. right. intros m _ Hne. by apply Hne.
    + destruct (members (data c) !! (sid, kid)) as [m|] eqn:Em; [by apply map_lookup_filter_Some|]. apply map_lookup_filter_None. by left.
  - intros c'' now newID st' requestID' Hdata Hf Hc. rewrite Create_succeeds; rewrite ?Hdata; done.
Qed.
End theorems.

(** ** Evaluating *)

Module KsSample.
#[export] Existing Instance AkSample.ascii_only.
#[export] Existing Instance FoldSample.plain.
Definition guard : option (option Matcher) := match FoldSample.matcher with Ok m => Some (Some m) | Err _ => None end.
Definition svc : ks_service := MkKsService guard DefaultMaxSets ks_DefaultQuarantineWindow.
Definition st (n : string) : stamp := MkStamp (go n) 0.
Definition minted : conn := snd AkSample.minted.
Definition created := ks_Create svc 1 (go "s2") (st "a1") (go "o") (go "lab") [] AkSample.c0.
Definition renamed := ks_Rename svc 2 (go "s3") (st "a2") (go "o") (go "set") (go "live") [] minted.
Definition deleted := ks_Delete (st "a3") (go "o") (go "s2") false [] (snd created).
Definition refused := ks_Delete (st "a3") (go "o") (go "set") true [] minted.

Lemma d0_ok : catalog_ok AkSample.d0.
Proof.
  constructor; [split; [constructor|]| |]; try (intros id x H; by apply lookup_empty_Some in H); unfold AkSample.d0; simpl.
  - apply AkSample.keyed_sets.
  - intros i j x y [<- _]%lookup_singleton_Some [<- _]%lookup_singleton_Some. reflexivity.
  - intros i j x y [<- _]%lookup_singleton_Some [<- _]%lookup_singleton_Some. reflexivity.
  - intros i x [_ <-]%lookup_singleton_Some. reflexivity.
  - intros sid kid m H. rewrite lookup_empty in H. discriminate.
  - intros i k H. rewrite lookup_empty in H. discriminate.
Qed.

Lemma minted_ok : catalog_ok (data minted).
Proof.
  refine (proj1 (catalog_steps_ok svc AkSample.svc _ _ (steps_one _ _ _ (cs_Mint _ _ AkSample.c0 minted 0 AkSample.raw1 AkSample.id1 (AkSample.st "r1")
    (go "o") (go "set") (go "ci") [] (fst AkSample.minted) _)) d0_ok)).
  apply surjective_pairing.
Qed.

Lemma created_ok : catalog_ok (data (snd created)).
Proof.
  refine (proj1 (catalog_steps_ok svc AkSample.svc _ _ (steps_one _ _ _ (cs_Create _ _ AkSample.c0 (snd created) 1 (go "s2") (st "a1")
    (go "o") (go "lab") [] (fst created) _)) d0_ok)).
  apply surjective_pairing.
Qed.
End KsSample.
#[local] Existing Instance AkSample.ascii_only.
#[local] Existing Instance FoldSample.plain.

Lemma catalogue_invariant_witness : is_ok (fst KsSample.renamed) = true ∧ catalog_ok (data (snd KsSample.renamed)) ∧
  has_default (go "o") (keysets (data (snd KsSample.renamed))).
Proof.
  split; [vm_compute; reflexivity|].
  destruct (catalogue_invariant KsSample.svc AkSample.svc KsSample.minted (snd KsSample.renamed)) as [Hok H].
  { apply steps_one. apply (cs_Rename _ _ _ _ 2 (go "s3") (KsSample.st "a2") (go "o") (go "set") (go "live") [] (fst KsSample.renamed)).
    unfold KsSample.renamed. apply surjective_pairing. }
  { exact KsSample.minted_ok. }
  split; [exact Hok|]. apply (H (go "o")). exists (go "set"), AkSample.set.
  assert (keysets (data KsSample.minted) !! go "set" = Some AkSample.set) as E by (vm_compute; reflexivity). rewrite E. done.
Defined.

Lemma Rename_atomic_witness : ∃ old, keysets (data KsSample.minted) !! go "set" = Some old ∧
  rename_done KsSample.svc 2 (go "s3") (go "o") (go "set") (go "live") old (data KsSample.minted) (data (snd KsSample.renamed)).
Proof.
  assert (is_ok (fst KsSample.renamed) = true) as Hr by (vm_compute; reflexivity).
  destruct (Rename_atomic KsSample.svc 2 (go "s3") (KsSample.st "a2") (go "o") (go "set") (go "live") [] KsSample.minted (fst KsSample.renamed) (snd KsSample.renamed)
    KsSample.minted_ok) as [[[e He] _]|(old & Hold & _ & _ & Hdone & _)].
  - unfold KsSample.renamed. apply surjective_pairing.
  - rewrite He in Hr. discriminate Hr.
  - exists old. split; [exact Hold|exact Hdone].
Defined.

Lemma Rename_strands_access_keys_witness :
  is_ok (fst (ak_Verify AkSample.svc 1 (go "o") (go "set") (token_of AkSample.raw1 AkSample.id1) KsSample.minted)) = true ∧
  ∃ set, fst KsSample.renamed = Ok set ∧ KeySet_Visibility set = VisibilityProtected ∧
  is_ok (fst (ak_Verify AkSample.svc 3 (go "o") (KeySet_ID set) (token_of AkSample.raw1 AkSample.id1) (snd KsSample.renamed))) = false.
Proof.
  split; [vm_compute; reflexivity|].
  assert (match fst KsSample.renamed with Ok set => KeySet_Visibility set = VisibilityProtected | Err _ => False end) as Hr by (vm_compute; reflexivity).
  destruct KsSample.renamed as [[set|] c'] eqn:E; simpl in Hr |- *; [|destruct Hr]. exists set. split; [reflexivity|]. split; [exact Hr|].
  unfold KsSample.renamed in E.
  apply (Rename_strands_access_keys KsSample.svc AkSample.svc 2 (go "s3") (KsSample.st "a2") (go "o") (go "set") (go "live") [] KsSample.minted set c'
    KsSample.minted_ok E). reflexivity.
Defined.

Lemma Delete_refused_after_minting_witness : is_ok (fst KsSample.refused) = false ∧ data (snd KsSample.refused) = data KsSample.minted.
Proof.
  assert (is_Some (accesskeys (data KsSample.minted) !! AkSample.id1)) as [k Hk] by (vm_compute; by eexists).
  apply (Delete_refused_after_minting AkSample.svc KsSample.minted KsSample.minted AkSample.id1 k (KsSample.st "a3") (go "o") (go "set") true []).
  - exact Hk.
  - assert ((AccessKey_KeySetID <$> accesskeys (data KsSample.minted) !! AkSample.id1) = Some (go "set")) as H by (vm_compute; reflexivity).
    rewrite Hk in H. by injection H.
  - apply steps_nil.
  - unfold KsSample.refused. apply surjective_pairing.
Defined.

Lemma Delete_frees_name_witness : fst KsSample.deleted = Ok tt ∧ named_set (go "o") (go "lab") (data (snd KsSample.deleted)) = [].
Proof.
  assert (fst KsSample.deleted = Ok tt) as Hr by (vm_compute; reflexivity). split; [exact Hr|].
  assert (keysets (data (snd KsSample.created)) !! go "s2" = Some (fresh_set (go "s2") (go "o") (go "lab") VisibilityProtected 1)) as Hs by (vm_compute; reflexivity).
  destruct (Delete_frees_name KsSample.svc (KsSample.st "a3") (go "o") (go "s2") false [] (snd KsSample.created) (snd KsSample.deleted) _
    KsSample.created_ok Hs) as (_ & _ & _ & _ & _ & _ & _ & Hn & _); [|exact Hn].
  rewrite <- Hr. unfold KsSample.deleted. apply surjective_pairing.
Defined.
