(* ===== verification/Handles.v ===== *)
(** * Handles

    [internal/storage/sqlite/handle.go] and [internal/service/handle]: the public names
    owners publish under.  Renaming quarantines the old name and claims the new one
    in one transaction; a sweep releases names whose quarantine has ended; a
    recomputation refolds stored names when the folding tables change. *)

From stdpp Require Import sorting.
From S2P Require Import Prelude DomainErrors GoLib Domain Blocklist Database StoreLogic AuditLog KeyRepos AccessKey.

Open Scope Z_scope.
Open Scope stm_scope.

(** ** The table *)

Definition handle_rows (d : db) : list HandleRow := rows (handles d).
Definition named (name : gostring) (d : db) : list HandleRow := filter (λ r, Handle_Name (hr_handle r) = name) (handle_rows d).
Definition folded (fold : gostring) (d : db) : list HandleRow := filter (λ r, hr_fold r = fold) (handle_rows d).
Definition active_of (ownerID : gostring) (d : db) : list HandleRow :=
  filter (λ r, Handle_OwnerID (hr_handle r) = ownerID ∧ Handle_State (hr_handle r) = NameStateActive) (handle_rows d).

(** The unique indexes, for a row [r] that replaces whatever [id] holds: by name, by
    skeleton, and by owner among active handles. *)
Definition clashes (id : gostring) (r : HandleRow) (d : db) : bool :=
  existsb (λ '(j, x), negb (bool_decide (j = id)) &&
     (bool_decide (Handle_Name (hr_handle x) = Handle_Name (hr_handle r)) || bool_decide (hr_fold x = hr_fold r) ||
      (bool_decide (Handle_OwnerID (hr_handle x) = Handle_OwnerID (hr_handle r)) &&
       bool_decide (Handle_State (hr_handle x) = NameStateActive) && bool_decide (Handle_State (hr_handle r) = NameStateActive))))
    (map_to_list (handles d)).

(** [UPDATE handles SET ... WHERE id = ?] under the indexes and the CHECK on the state. *)
Definition update_handle (sel : db → option HandleRow) (upd : HandleRow → HandleRow) (id : gostring) : stM conn unit :=
  let! n := exec (λ d, match sel d with
                       | Some r =>
                           let r' := upd r in
                           if negb (NameState_IsValid (Handle_State (hr_handle r'))) then inl check_failed else
                           if clashes id r' d then inl UniqueViolation else inr (1, set_handles <[id := r']> d)
                       | None => inr (0, d)
                       end) in requireAffected n.

Section repo.
Context {UF : UnicodeFold}.

(** src/internal/storage/sqlite/handle.go:209-223, handleRepo.refuseIfFoldStale *)
Definition refuseIfFoldStale : stM conn unit :=
  let! stale := query (λ d, existsb (λ r, negb (hr_version r =? TableVersion)) (handle_rows d)) in
  if (stale : bool) then st_fail (errorf "sqlite: handle fold table stale" [ErrFoldStale]) else st_ret tt.

(** src/internal/storage/sqlite/handle.go:30-80, handleRepo.Register *)
Definition handle_Register (h : Handle) : stM conn unit :=
  let! _ := refuseIfFoldStale in
  let! _ := exec (λ d,
    let r := MkHandleRow h (Skeleton (Handle_Name h)) TableVersion in
    match handles d !! Handle_ID h with
    | Some _ => inl UniqueViolation
    | None =>
        if negb (NameState_IsValid (Handle_State h)) then inl check_failed else
        if clashes (Handle_ID h) r d then inl UniqueViolation else
        match owners d !! Handle_OwnerID h with
        | Some _ => inr (1, set_handles <[Handle_ID h := r]> d)
        | None => inl fk_failed
        end
    end) in st_ret tt.

(** src/internal/storage/sqlite/handle.go:82-90, handleRepo.GetByName *)
Definition handle_GetByName (name : gostring) : stM conn Handle := query_row (λ d, hr_handle <$> head (named name d)).

Definition owned_handle (ownerID id : gostring) (d : db) : option HandleRow :=
  of_owner (λ r, Handle_OwnerID (hr_handle r)) ownerID (handles d !! id).

(** src/internal/storage/sqlite/handle.go:92-97, handleRepo.Get *)
Definition handle_Get (ownerID id : gostring) : stM conn Handle := query_row (λ d, hr_handle <$> owned_handle ownerID id d).

(** src/internal/storage/sqlite/handle.go:99-104, handleRepo.GetActiveByOwner *)
Definition handle_GetActiveByOwner (ownerID : gostring) : stM conn Handle := query_row (λ d, hr_handle <$> head (active_of ownerID d)).

Definition by_handle_creation (a b : Handle) : bool :=
  (Handle_CreatedAt a <? Handle_CreatedAt b) || ((Handle_CreatedAt a =? Handle_CreatedAt b) && bytes_le (Handle_ID a) (Handle_ID b)).

(** src/internal/storage/sqlite/handle.go:106-116, handleRepo.ListByOwner *)
Definition handle_ListByOwner (ownerID : gostring) : stM conn (list Handle) :=
  query (λ d, ordered_by by_handle_creation (filter (λ h, Handle_OwnerID h = ownerID) (hr_handle <$> handle_rows d))).

(** The columns UPDATE sets. *)
Definition updated_handle (h : Handle) (r : HandleRow) : HandleRow :=
  let o := hr_handle r in
  MkHandleRow (MkHandle (Handle_ID o) (Handle_OwnerID o) (Handle_Name o) (Handle_State h) (Handle_QuarantineUntil h)
    (Handle_FlaggedForReview h) (Handle_QuarantineOnRelease h) (Handle_CreatedAt o) (Handle_UpdatedAt h)) (hr_fold r) (hr_version r).

(** src/internal/storage/sqlite/handle.go:118-162, handleRepo.Update *)
Definition handle_Update (tx : bool) (h : Handle) : stM conn unit :=
  withLocalTx tx (
    let! current := query_row (λ d, Handle_Name ∘ hr_handle <$> owned_handle (Handle_OwnerID h) (Handle_ID h) d) in
    if negb (bool_decide (current = Handle_Name h)) then st_fail ErrImmutable else
    update_handle (owned_handle (Handle_OwnerID h) (Handle_ID h)) (updated_handle h) (Handle_ID h)).

Definition lapsed (now : time) (h : Handle) : bool :=
  bool_decide (Handle_State h = NameStateQuarantined) && match Handle_QuarantineUntil h with Some t => t <=? now | None => false end.
Definition by_handle_quarantine (a b : Handle) : bool :=
  let t h := default 0 (Handle_QuarantineUntil h) in (t a <? t b) || ((t a =? t b) && bytes_le (Handle_ID a) (Handle_ID b)).

(** src/internal/storage/sqlite/handle.go:164-188, handleRepo.ListExpiredQuarantine *)
Definition handle_ListExpiredQuarantine (now : time) (limit : Z) : stM conn (list Handle) :=
  if limit <=? 0 then st_fail (errorf "sqlite: list limit must be positive" [ErrInvalidInput]) else
  query (λ d, take (Z.to_nat limit) (ordered_by by_handle_quarantine (filter (λ h, lapsed now h = true) (hr_handle <$> handle_rows d)))).

(** src/internal/storage/sqlite/handle.go:190-207, handleRepo.Release *)
Definition handle_Release (id : gostring) (now : time) : stM conn unit :=
  let! n := exec (λ d, match handles d !! id with
                       | Some r => if lapsed now (hr_handle r) then inr (1, set_handles (delete id) d) else inr (0, d)
                       | None => inr (0, d)
                       end) in requireAffected n.

(** src/internal/storage/sqlite/handle.go:225-237, handleRepo.ListStaleFolds *)
Definition handle_ListStaleFolds (version : Z) : stM conn (list Handle) :=
  query (λ d, ordered_by by_handle_creation (hr_handle <$> filter (λ r, hr_version r ≠ version) (handle_rows d))).

Definition refolded (fold : gostring) (version : Z) (now : time) (r : HandleRow) : HandleRow :=
  let o := hr_handle r in
  MkHandleRow (MkHandle (Handle_ID o) (Handle_OwnerID o) (Handle_Name o) (Handle_State o) (Handle_QuarantineUntil o)
    (Handle_FlaggedForReview o) (Handle_QuarantineOnRelease o) (Handle_CreatedAt o) now) fold version.

(** src/internal/storage/sqlite/handle.go:239-253, handleRepo.SetFold *)
Definition handle_SetFold (id fold : gostring) (version : Z) (now : time) : stM conn unit :=
  update_handle (λ d, handles d !! id) (refolded fold version now) id.

Definition held_for_review (now : time) (r : HandleRow) : HandleRow :=
  let o := hr_handle r in
  MkHandleRow (MkHandle (Handle_ID o) (Handle_OwnerID o) (Handle_Name o) NameStateQuarantined None
    true (Handle_QuarantineOnRelease o) (Handle_CreatedAt o) now) (hr_fold r) (hr_version r).

(** src/internal/storage/sqlite/handle.go:255-271, handleRepo.QuarantineLookalike *)
Definition handle_QuarantineLookalike (id : gostring) (now : time) : stM conn unit :=
  update_handle (λ d, handles d !! id) (held_for_review now) id.

(** ** The service *)

(** src/internal/service/handle/handle.go:61-70, DefaultMaxHeldNames *)
Definition DefaultMaxHeldNames : Z := 5.

(** src/internal/service/handle/handle.go:54-59, DefaultQuarantineWindow *)
Definition handle_DefaultQuarantineWindow : duration := 30 * 24 * Hour.

(** src/internal/service/handle/handle.go:72-75, ErrNotFound *)
Definition handle_ErrNotFound : goerror := errorf "handle: not found" [ErrNotFound].

(** src/internal/service/handle/handle.go:77-81, ErrNameTaken *)
Definition ErrNameTaken : goerror := errorf "handle: name is not available" [ErrConflict].

(** src/internal/service/handle/handle.go:83-85, ErrTooManyNames *)
Definition ErrTooManyNames : goerror := errorf "handle: too many held names" [ErrLimitExceeded].

(** src/internal/service/handle/handle.go:106-116, Service *)
Record handle_service := MkHandleService {
  hs_guard : option (option Matcher);
  hs_maxNames : Z;
  hs_quarantine : duration;
}.

Context {U : UnicodeData} (s : handle_service).

(** src/internal/service/handle/handle.go:509-526, mapErr *)
Definition handle_mapErr (e : goerror) : goerror :=
  if errors_is e ErrConflict then ErrNameTaken else if errors_is e ErrNotFound then handle_ErrNotFound else e.

(** src/internal/service/handle/handle.go:551-567, handleDetails *)
Definition handleDetails (name requestID : gostring) : result Details :=
  let d := set_if (Details_Set no_details DetailHandle name) DetailRequestID requestID in
  match D_err d with
  | Some _ => Err (errorf "handle: name cannot be recorded" [ErrInvalidInput])
  | None => Ok d
  end.

(** src/internal/service/handle/handle.go:569-584, renameDetails *)
Definition handle_renameDetails (from to requestID : gostring) : result Details :=
  match handleDetails to requestID with
  | Err e => Err e
  | Ok d =>
      let d := Details_Set (Details_Set d DetailFrom from) DetailTo to in
      match D_err d with
      | Some _ => Err (errorf "handle: name cannot be recorded" [ErrInvalidInput])
      | None => Ok d
      end
  end.

(** src/internal/service/handle/handle.go:353-371, reclaims *)
Definition reclaims (held : list Handle) (name : gostring) : bool :=
  existsb (λ h, bool_decide (Handle_Name h = name) && bool_decide (Handle_State h = NameStateQuarantined)) held.

Definition with_state (st : NameState) (until : option time) (now : time) (h : Handle) : Handle :=
  MkHandle (Handle_ID h) (Handle_OwnerID h) (Handle_Name h) st until (Handle_FlaggedForReview h) (Handle_QuarantineOnRelease h)
    (Handle_CreatedAt h) now.

(** src/internal/service/handle/handle.go:528-549, Service.emitTx *)
Definition handle_emitTx (st : stamp) (action ownerID id : gostring) (details : Details) : stM conn unit :=
  Emit st (MkEvent ActorTypeOwner ownerID action TargetTypeHandle id details).

(** src/internal/service/handle/handle.go:373-434, Service.claim
    ([newID]: the identifier drawn for a fresh handle) *)
Definition handle_claim (newID ownerID name : gostring) (now : time) : stM conn (Handle * bool) :=
  try! r := handle_GetByName name in
  match r with
  | Ok existing =>
      if negb (bool_decide (Handle_OwnerID existing = ownerID)) || negb (bool_decide (Handle_State existing = NameStateQuarantined))
      then st_fail ErrNameTaken else
      let existing := with_state NameStateActive None now existing in
      let! _ := handle_Update true existing in
      st_ret (existing, true)
  | Err e =>
      if errors_is e ErrNotFound then
        let fresh := MkHandle newID ownerID name NameStateActive None false false now now in
        let! _ := handle_Register fresh in
        st_ret (fresh, false)
      else st_fail e
  end.

Definition rename_tx (now now' : time) (newID : gostring) (st : stamp) (ownerID name requestID : gostring) : stM conn Handle :=
  let! old := handle_GetActiveByOwner ownerID in
  if bool_decide (Handle_Name old = name) then st_fail ErrNameTaken else
  let! held := handle_ListByOwner ownerID in
  if negb (reclaims held name) && (hs_maxNames s <=? Z.of_nat (length held)) then st_fail ErrTooManyNames else
  let! details := ret_or (handle_renameDetails (Handle_Name old) name requestID) in
  let! _ := handle_Update true (with_state NameStateQuarantined (Some (time_add now' (hs_quarantine s))) now old) in
  let! claimed := handle_claim newID ownerID name now in
  let! _ := handle_emitTx st (if (claimed.2 : bool) then go "handle.reclaimed" else go "handle.renamed") ownerID
              (Handle_ID claimed.1) details in
  st_ret claimed.1.

(** src/internal/service/handle/handle.go:226-351, Service.Rename
    (the clock is read twice: [now] and [now']) *)
Definition handle_Rename (now now' : time) (newID : gostring) (st : stamp) (ownerID name requestID : gostring) : stM conn Handle :=
  if bool_decide (ownerID = []) then st_fail (errorf "handle: missing owner" [ErrInvalidInput]) else
  match Guard_Check (hs_guard s) KindHandle OpRename name with
  | Some e => st_fail e
  | None =>
      try! r := WithTx (rename_tx now now' newID st ownerID name requestID) in
      match r with
      | Err e => st_fail (handle_mapErr e)
      | Ok h => st_ret h
      end
  end.

Definition release_tx (now : time) (st : stamp) (h : Handle) (details : Details) : stM conn unit :=
  let! _ := handle_Release (Handle_ID h) now in
  handle_emitTx st (go "handle.released") (Handle_OwnerID h) (Handle_ID h) details.

Definition release_loop (now : time) : list stamp → list Handle → Z → stM conn (Z * option goerror) := fix loop sts hs released :=
  match hs with
  | [] => st_ret (released, None)
  | h :: hs' =>
      match handleDetails (Handle_Name h) [] with
      | Err e => st_ret (released, Some e)
      | Ok details =>
          try! r := WithTx (release_tx now (default (MkStamp [] 0) (head sts)) h details) in
          match r with
          | Err e => if errors_is e ErrNotFound then loop (tail sts) hs' released
                     else st_ret (released, Some (errorf "handle: release" [e]))
          | Ok _ => loop (tail sts) hs' (released + 1)
          end
      end
  end.

(** src/internal/service/handle/handle.go:436-507, Service.ReleaseExpired *)
Definition handle_ReleaseExpired (now : time) (sts : list stamp) (limit : Z) : stM conn (Z * option goerror) :=
  try! r := handle_ListExpiredQuarantine now limit in
  match r with
  | Err e => st_ret (0, Some (errorf "handle: list expired quarantine" [e]))
  | Ok expired => release_loop now sts expired 0
  end.

(** ** Refolding *)

(** src/internal/service/handle/recompute.go:220-227, foldPlaceholder *)
Definition foldPlaceholder (id : gostring) : gostring := byte_of 33 :: id.

(** The stale handles of one skeleton, groups in order of first appearance. *)
Definition add_to_group (groups : list (gostring * list Handle)) (h : Handle) : list (gostring * list Handle) :=
  let sk := Skeleton (Handle_Name h) in
  if bool_decide (sk ∈ groups.*1) then (λ '(k, hs), if bool_decide (k = sk) then (k, hs ++ [h]) else (k, hs)) <$> groups
  else groups ++ [(sk, [h])].
Definition group_by_skeleton (stale : list Handle) : list (gostring * list Handle) := foldl add_to_group [] stale.

(** src/internal/service/handle/recompute.go:192-218, Recomputer.emitQuarantine *)
Definition emitQuarantine (st : stamp) (loser : Handle) (survivorName : gostring) : stM conn unit :=
  let d := Details_Set no_details DetailHandle (Handle_Name loser) in
  let d := Details_Set d DetailTo survivorName in
  let d := Details_Set d DetailReason (go "quarantined as a look-alike of an existing handle") in
  match D_err d with
  | Some _ => st_fail (errorf "handle: quarantine cannot be recorded" [ErrInvalidInput])
  | None => Emit st (MkEvent ActorTypeSystem [] (go "handle.quarantined") TargetTypeHandle (Handle_ID loser) d)
  end.

Definition place_loop (now : time) : list Handle → stM conn unit := fix loop hs :=
  match hs with
  | [] => st_ret tt
  | h :: hs' => let! _ := handle_SetFold (Handle_ID h) (foldPlaceholder (Handle_ID h)) TableVersion now in loop hs'
  end.

Definition losers_loop (now : time) (survivor : Handle) : list stamp → list Handle → stM conn (list stamp) := fix loop sts hs :=
  match hs with
  | [] => st_ret sts
  | h :: hs' =>
      let! _ := handle_QuarantineLookalike (Handle_ID h) now in
      let! _ := emitQuarantine (default (MkStamp [] 0) (head sts)) h (Handle_Name survivor) in
      loop (tail sts) hs'
  end.

Definition groups_loop (now : time) : list stamp → list (gostring * list Handle) → Z * Z → stM conn (Z * Z) := fix loop sts gs res :=
  match gs with
  | [] => st_ret res
  | (sk, []) :: gs' => loop sts gs' res
  | (sk, survivor :: losers) :: gs' =>
      let! _ := handle_SetFold (Handle_ID survivor) sk TableVersion now in
      let! sts' := losers_loop now survivor sts losers in
      loop sts' gs' (res.1 + 1, res.2 + Z.of_nat (length losers))
  end.

Definition recompute_tx (now : time) (sts : list stamp) : stM conn (Z * Z) :=
  let! stale := handle_ListStaleFolds TableVersion in
  if bool_decide (length stale = 0%nat) then st_ret (0, 0) else
  let! _ := place_loop now stale in
  groups_loop now sts (group_by_skeleton stale) (0, 0).

(** src/internal/service/handle/recompute.go:88-190, Recomputer.Run
    (the counts of refolded and of quarantined handles) *)
Definition Recomputer_Run (now : time) (sts : list stamp) : stM conn (Z * Z) :=
  try! r := handle_ListStaleFolds TableVersion in
  match r with
  | Err e => st_fail (errorf "handle: list stale folds" [e])
  | Ok precheck =>
      if bool_decide (length precheck = 0%nat) then st_ret (0, 0) else
      try! r := WithTx (recompute_tx now sts) in
      match r with
      | Err e => st_fail (errorf "handle: recompute folds" [e])
      | Ok res => st_ret res
      end
  end.
End repo.
Close Scope stm_scope.

(** ** The unique indexes *)

Definition row_id (r : HandleRow) : gostring := Handle_ID (hr_handle r).
Definition row_owner (r : HandleRow) : gostring := Handle_OwnerID (hr_handle r).
Definition row_name (r : HandleRow) : gostring := Handle_Name (hr_handle r).
Definition row_state (r : HandleRow) : NameState := Handle_State (hr_handle r).

(** Two rows the indexes allow side by side. *)
Definition apart (x y : HandleRow) : Prop :=
  row_name x ≠ row_name y ∧ hr_fold x ≠ hr_fold y ∧ (row_owner x = row_owner y → row_state x = NameStateActive → row_state y = NameStateActive → False).

Definition clear_of (id : gostring) (r : HandleRow) (t : gmap gostring HandleRow) : Prop := ∀ j x, t !! j = Some x → j ≠ id → apart x r.

Lemma clashes_false id r d : clashes id r d = false → clear_of id r (handles d).
Proof.
  intros H j x Hx Hj. apply not_true_iff_false in H. unfold apart. split_and!.
  - intros E. apply H, existsb_exists. exists (j, x). split; [apply list_elem_of_In, elem_of_map_to_list; done|].
    rewrite (bool_decide_eq_false_2 _ Hj). unfold row_name in E. by rewrite (bool_decide_eq_true_2 _ E).
  - intros E. apply H, existsb_exists. exists (j, x). split; [apply list_elem_of_In, elem_of_map_to_list; done|].
    rewrite (bool_decide_eq_false_2 _ Hj), (bool_decide_eq_true_2 _ E). simpl. by rewrite orb_true_r.
  - intros E1 E2 E3. apply H, existsb_exists. exists (j, x). split; [apply list_elem_of_In, elem_of_map_to_list; done|].
    unfold row_owner, row_state in *. rewrite (bool_decide_eq_false_2 _ Hj), (bool_decide_eq_true_2 _ E1), (bool_decide_eq_true_2 _ E2), (bool_decide_eq_true_2 _ E3).
    simpl. by rewrite orb_true_r.
Qed.

Lemma clashes_clear id r d : clear_of id r (handles d) → clashes id r d = false.
Proof.
  intros H. apply not_true_iff_false. intros ([j x] & Hin & Hb)%existsb_exists. apply list_elem_of_In, elem_of_map_to_list in Hin.
  apply andb_true_iff in Hb as [Hj Hb]. apply negb_true_iff, bool_decide_eq_false in Hj. destruct (H _ _ Hin Hj) as (H1 & H2 & H3).
  apply orb_true_iff in Hb as [Hb|Hb]; [apply orb_true_iff in Hb as [Hb|Hb]|]; reflect_bools.
  - by apply H1.
  - by apply H2.
  - by apply H3.
Qed.

(** ** What writes do *)

(** The identity of a claim, which no write changes. *)
Definition row_keeps (r r' : HandleRow) : Prop := row_id r' = row_id r ∧ row_owner r' = row_owner r ∧ row_name r' = row_name r.

Section moves.
Context {UF : UnicodeFold}.

(** The fold a row of the running table's version holds: the skeleton of its name, or
    the placeholder of a handle put aside as a look-alike. *)
Definition well_folded (id : gostring) (r : HandleRow) : Prop :=
  hr_version r = TableVersion → hr_fold r = Skeleton (row_name r) ∨ hr_fold r = foldPlaceholder id.

(** The writes; rows in [P] may be released. *)
Inductive hstep (P : HandleRow → Prop) (t : gmap gostring HandleRow) : gmap gostring HandleRow → Prop :=
| hs_register h : t !! Handle_ID h = None → clear_of (Handle_ID h) (MkHandleRow h (Skeleton (Handle_Name h)) TableVersion) t →
    hstep P t (<[Handle_ID h := MkHandleRow h (Skeleton (Handle_Name h)) TableVersion]> t)
| hs_update id r r' : t !! id = Some r → row_keeps r r' → (well_folded id r → well_folded id r') → clear_of id r' t → hstep P t (<[id := r']> t)
| hs_release id r : t !! id = Some r → P r → hstep P t (delete id t).

Record handles_ok (t : gmap gostring HandleRow) : Prop := MkHandlesOk {
  ho_keyed : keyed row_id t;
  ho_apart : ∀ i j x y, t !! i = Some x → t !! j = Some y → i ≠ j → apart x y;
}.

Definition handles_folded (t : gmap gostring HandleRow) : Prop := ∀ id r, t !! id = Some r → well_folded id r.

Lemma apart_sym x y : apart x y → apart y x.
Proof. intros (H1 & H2 & H3). split_and!; [congruence|congruence|]. intros E A B. apply H3; congruence. Qed.

Lemma apart_insert t id r : clear_of id r t → (∀ i j x y, t !! i = Some x → t !! j = Some y → i ≠ j → apart x y) →
  ∀ i j x y, <[id := r]> t !! i = Some x → <[id := r]> t !! j = Some y → i ≠ j → apart x y.
Proof.
  intros Hc H i j x y Hx Hy Hij. apply lookup_insert_Some in Hx as [ [E1 F1]|[N1 Hx]]; apply lookup_insert_Some in Hy as [ [E2 F2]|[N2 Hy]]; subst.
  - done.
  - apply apart_sym. by eapply Hc.
  - by eapply Hc.
  - by eapply H.
Qed.

Lemma hstep_ok P t t' : hstep P t t' → handles_ok t → handles_ok t'.
Proof.
  intros H [Hk Ha]. destruct H as [h Hn Hc|id r r' Hr Hid _ Hc|id r Hr _]; constructor.
  - intros i x Hx. apply lookup_insert_Some in Hx as [ [E F]|[_ Hx]]; [by subst|by apply Hk].
  - by apply apart_insert.
  - intros i x Hx. apply lookup_insert_Some in Hx as [ [E F]|[_ Hx]]; [subst; destruct Hid as (-> & _); by apply Hk|by apply Hk].
  - by apply apart_insert.
  - intros i x [_ Hx]%lookup_delete_Some. by apply Hk.
  - intros i j x y [_ Hx]%lookup_delete_Some [_ Hy]%lookup_delete_Some. by apply Ha.
Qed.

Lemma hsteps_ok P t t' : steps (hstep P) t t' → handles_ok t → handles_ok t'.
Proof. intros H Hok. eapply steps_invariant; [|exact Hok|exact H]. intros x y Hx Hxy. by eapply hstep_ok. Qed.

Lemma hstep_folded P t t' : hstep P t t' → handles_folded t → handles_folded t'.
Proof.
  intros H Hf. destruct H as [h Hn _|id r r' Hr _ Hup _|id r Hr _]; intros i x Hx.
  - apply lookup_insert_Some in Hx as [[<- <-]|[_ Hx]]; [intros _; by left|by apply Hf].
  - apply lookup_insert_Some in Hx as [[<- <-]|[_ Hx]]; [by apply Hup, Hf|by apply Hf].
  - apply lookup_delete_Some in Hx as [_ Hx]. by apply Hf.
Qed.

Lemma hsteps_folded P t t' : steps (hstep P) t t' → handles_folded t → handles_folded t'.
Proof. intros H Hok. eapply steps_invariant; [|exact Hok|exact H]. intros x y Hx Hxy. by eapply hstep_folded. Qed.

(** Two handles folded with the running table, neither put aside, do not look alike. *)
Lemma folded_skeletons t i j x y : handles_ok t → handles_folded t → t !! i = Some x → t !! j = Some y → i ≠ j →
  hr_version x = TableVersion → hr_version y = TableVersion → hr_fold x ≠ foldPlaceholder i → hr_fold y ≠ foldPlaceholder j →
  Skeleton (row_name x) ≠ Skeleton (row_name y).
Proof.
  intros Hok Hf Hx Hy Hij Vx Vy Nx Ny. destruct (ho_apart _ Hok _ _ _ _ Hx Hy Hij) as (_ & Hne & _).
  destruct (Hf _ _ Hx Vx) as [Fx|]; [|done]. destruct (Hf _ _ Hy Vy) as [Fy|]; [|done]. congruence.
Qed.

(** A row stays what it is, unless it is one of those that may be released. *)
Lemma hsteps_rows P t t' id r : steps (hstep P) t t' → t !! id = Some r →
  (∃ r', t' !! id = Some r' ∧ row_keeps r r') ∨ ∃ r', P r' ∧ row_keeps r r'.
Proof.
  intros H. revert r. induction H as [t|t1 t2 t3 H _ IH]; intros r Hr; [left; exists r; split; [done|by split_and!]|].
  assert ((∃ r2, t2 !! id = Some r2 ∧ row_keeps r r2) ∨ P r) as [(r2 & H2 & K2)|HP].
  { destruct H as [h Hn _|id' x x' Hx Hid _ _|id' x Hx HP].
    - left. exists r. split; [|by split_and!]. rewrite lookup_insert_ne by congruence. done.
    - left. destruct (decide (id' = id)) as [->|Hne]; [|exists r; split; [by rewrite lookup_insert_ne|by split_and!]].
      exists x'. rewrite lookup_insert_eq. rewrite Hr in Hx. injection Hx as <-. done.
    - destruct (decide (id' = id)) as [->|Hne]; [right; congruence|]. left. exists r. split; [by rewrite lookup_delete_ne|by split_and!]. }
  - destruct (IH _ H2) as [(r' & H3 & K3)|(r' & HP & K3)]; [left|right]; exists r'; (split; [done|]);
      destruct K2 as (A1 & A2 & A3), K3 as (B1 & B2 & B3); split_and!; congruence.
  - right. exists r. split; [done|by split_and!].
Qed.

(** Programs whose effect on the table is a sequence of such writes. *)
Definition moves (P : HandleRow → Prop) {A} (m : stM conn A) : Prop :=
  ∀ d, handles_ok (handles d) → wp false m d (λ _ d', steps (hstep P) (handles d) (handles d')).

Lemma moves_ret P {A} (a : A) : moves P (st_ret a).
Proof. intros d _. wp_step. constructor. Qed.
Lemma moves_fail P {A} e : moves P (@st_fail conn A e).
Proof. intros d _. wp_step. constructor. Qed.
Lemma moves_query P {A} (f : db → A) : moves P (query f).
Proof. intros d _. wp_step; constructor. Qed.
Lemma moves_query_row P {A} (f : db → option A) : moves P (query_row f).
Proof. intros d _. wp_step; [constructor|]. destruct (f d); constructor. Qed.
Lemma moves_bind P {A B} (m : stM conn A) (f : A → stM conn B) : moves P m → (∀ a, moves P (f a)) → moves P (st_bind m f).
Proof.
  intros Hm Hf d Hok. wp_step. eapply wp_mono; [by apply Hm|]. intros [a|e] d' H; [|done].
  eapply wp_mono; [apply Hf; by eapply hsteps_ok|]. intros r d2 H2. by eapply steps_app.
Qed.
Lemma moves_try P {A B} (m : stM conn A) (f : result A → stM conn B) : moves P m → (∀ a, moves P (f a)) → moves P (st_try m f).
Proof.
  intros Hm Hf d Hok. wp_step. eapply wp_mono; [by apply Hm|]. intros r d' H.
  eapply wp_mono; [apply Hf; eapply hsteps_ok; [exact H|done]|]. intros r' d2 H2. exact (steps_app _ _ _ _ H H2).
Qed.
Lemma moves_WithTx P {A} (m : stM conn A) : moves P m → moves P (WithTx m).
Proof.
  intros Hm d Hok. wp_step; [constructor|]. eapply wp_mono; [by apply Hm|].
  intros [a|e] d' H; [split; [exact H|intros _ e]|]; apply steps_nil.
Qed.
Lemma moves_withLocalTx P {A} tx (m : stM conn A) : moves P m → moves P (withLocalTx tx m).
Proof. intros Hm. destruct tx; [done|by apply moves_WithTx]. Qed.
Lemma moves_ret_or P {A} (r : result A) : moves P (ret_or r).
Proof. destruct r; [apply moves_ret|apply moves_fail]. Qed.
Lemma moves_Emit P {U : UnicodeData} st ev : moves P (Emit st ev).
Proof. intros d _. apply wp_Emit; [intros; apply steps_nil|]. intros; apply steps_nil. Qed.

Lemma wp_update_moves P sel upd id d : (∀ r, sel d = Some r → handles d !! id = Some r) → (∀ r, row_keeps r (upd r)) →
  (∀ r, handles d !! id = Some r → well_folded id r → well_folded id (upd r)) →
  wp false (update_handle sel upd id) d (λ _ d', steps (hstep P) (handles d) (handles d') ∧
    ∀ j r, handles d !! j = Some r → ∃ r', handles d' !! j = Some r' ∧ row_keeps r r').
Proof.
  intros Hsel Hupd Hfold.
  assert (∀ j r, handles d !! j = Some r → ∃ r', handles d !! j = Some r' ∧ row_keeps r r') as Hsame by (intros j r H; exists r; by split_and!).
  unfold update_handle. wp_step. wp_step; [by split; [apply steps_nil|]|].
  destruct (sel d) as [r|] eqn:Es; [|wp_step; by split; [apply steps_nil|]].
  destruct (negb _); [by split; [apply steps_nil|]|]. destruct (clashes id (upd r) d) eqn:Ec; [by split; [apply steps_nil|]|].
  specialize (Hsel _ eq_refl). wp_step; [done|]. split.
  - apply steps_one. eapply hs_update; [done..|by apply Hfold|by apply clashes_false].
  - intros j x Hx. simpl. destruct (decide (id = j)) as [<-|Hne]; [|rewrite lookup_insert_ne by done; by apply Hsame].
    rewrite lookup_insert_eq. exists (upd r). split; [done|]. by simplify_eq.
Qed.

Lemma moves_update P sel upd id : (∀ d r, sel d = Some r → handles d !! id = Some r) → (∀ r, row_keeps r (upd r)) →
  (∀ r, well_folded id r → well_folded id (upd r)) → moves P (update_handle sel upd id).
Proof. intros Hsel Hupd Hfold d _. eapply wp_mono; [apply wp_update_moves; auto|]. by intros r d' [? _]. Qed.

Lemma owned_handle_Some ownerID id d r : owned_handle ownerID id d = Some r → handles d !! id = Some r.
Proof. intros H. by apply of_owner_Some in H as [? _]. Qed.

Lemma moves_Register P h : moves P (handle_Register h).
Proof.
  unfold handle_Register, refuseIfFoldStale. apply moves_bind; [apply moves_bind; [apply moves_query|]; intros []; [apply moves_fail|apply moves_ret]|]. intros _ d _.
  wp_step. wp_step; [apply steps_nil|]. destruct (handles d !! Handle_ID h) eqn:Eh; [apply steps_nil|]. destruct (negb _); [apply steps_nil|].
  destruct (clashes _ _ d) eqn:Ec; [apply steps_nil|]. destruct (owners d !! _); [|apply steps_nil]. wp_step. apply steps_one. apply hs_register; [done|by apply clashes_false].
Qed.

Lemma moves_Release now id : moves (λ r, lapsed now (hr_handle r) = true) (handle_Release id now).
Proof.
  intros d _. unfold handle_Release. wp_step. wp_step; [apply steps_nil|]. destruct (handles d !! id) as [r|] eqn:Er; [|wp_step; apply steps_nil].
  destruct (lapsed now (hr_handle r)) eqn:El; wp_step; try done; [|apply steps_nil]. apply steps_one. by eapply hs_release.
Qed.
End moves.
Create HintDb moves.
#[export] Hint Resolve moves_ret moves_fail moves_query moves_query_row moves_WithTx moves_withLocalTx moves_ret_or moves_Emit moves_Register moves_Release : moves.
#[export] Hint Extern 2 (moves _ (st_bind _ _)) => apply moves_bind; [|intros ?] : moves.
#[export] Hint Extern 2 (moves _ (st_try _ _)) => apply moves_try; [|intros ?] : moves.
#[export] Hint Extern 3 (moves _ (match ?x with _ => _ end)) => destruct x : moves.

Section calls.
Context {UF : UnicodeFold} {U : UnicodeData} (s : handle_service).

Lemma moves_Update P tx h : moves P (handle_Update tx h).
Proof.
  unfold handle_Update. apply moves_withLocalTx, moves_bind; [apply moves_query_row|]. intros name. destruct (negb _); [apply moves_fail|].
  apply moves_update; [apply owned_handle_Some|by intros r; split_and!|done].
Qed.
#[local] Hint Resolve moves_Update : moves.
#[local] Hint Unfold handle_GetByName handle_GetActiveByOwner handle_ListByOwner handle_ListStaleFolds handle_emitTx : moves.

Lemma moves_Rename P now now' newID st ownerID name requestID : moves P (handle_Rename s now now' newID st ownerID name requestID).
Proof.
  unfold handle_Rename, rename_tx, handle_claim, handle_GetByName, handle_GetActiveByOwner, handle_ListByOwner, handle_emitTx.
  destruct (bool_decide _); [auto with moves|]. destruct (Guard_Check _ _ _ _); [auto with moves|].
  apply moves_try; [apply moves_WithTx|intros []; auto with moves]. apply moves_bind; [auto with moves|]. intros old.
  destruct (bool_decide _); [auto with moves|]. apply moves_bind; [auto with moves|]. intros held. destruct (_ && _); [auto with moves|].
  apply moves_bind; [auto with moves|]. intros details. apply moves_bind; [auto with moves|]. intros _.
  apply moves_bind; [|intros claimed; auto with moves]. apply moves_try; [auto with moves|]. intros [existing|e].
  - destruct (_ || _); auto with moves.
  - destruct (errors_is _ _); auto with moves.
Qed.

Lemma moves_ReleaseExpired now sts limit : moves (λ r, lapsed now (hr_handle r) = true) (handle_ReleaseExpired now sts limit).
Proof.
  unfold handle_ReleaseExpired, handle_ListExpiredQuarantine. apply moves_try; [destruct (limit <=? 0); auto with moves|]. intros [hs|e]; [|auto with moves].
  generalize 0. revert sts. induction hs as [|h hs IH]; intros sts n; simpl; [auto with moves|].
  destruct (handleDetails _ _); [|auto with moves]. apply moves_try; [unfold release_tx, handle_emitTx; auto with moves|].
  intros []; [auto with moves|]. destruct (errors_is _ _); auto with moves.
Qed.

(** *** Refolding

    The transaction works from the handles it listed: as long as it runs, each of them
    is in the table under its name. *)
Definition listed (hs : list Handle) (t : gmap gostring HandleRow) : Prop :=
  ∀ h, h ∈ hs → ∃ r, t !! Handle_ID h = Some r ∧ row_name r = Handle_Name h.

Definition refolds (P : HandleRow → Prop) (hs : list Handle) {A} (m : stM conn A) : Prop :=
  ∀ d, listed hs (handles d) → wp false m d (λ _ d', steps (hstep P) (handles d) (handles d') ∧ listed hs (handles d')).

Lemma refolds_ret P hs {A} (a : A) : refolds P hs (st_ret a).
Proof. intros d H. wp_step. split; [apply steps_nil|done]. Qed.
Lemma refolds_bind P hs {A B} (m : stM conn A) (f : A → stM conn B) :
  refolds P hs m → (∀ a, refolds P hs (f a)) → refolds P hs (st_bind m f).
Proof.
  intros Hm Hf d Hl. wp_step. eapply wp_mono; [by apply Hm|]. intros [a|e] d' [H Hl']; [|done].
  eapply wp_mono; [by apply Hf|]. intros r d2 [H2 ?]. split; [by eapply steps_app|done].
Qed.
Lemma refolds_update P hs upd id : (∀ r, row_keeps r (upd r)) →
  (∀ d r, listed hs (handles d) → handles d !! id = Some r → well_folded id r → well_folded id (upd r)) →
  refolds P hs (update_handle (λ d, handles d !! id) upd id).
Proof.
  intros Hupd Hfold d Hl. eapply wp_mono; [by apply wp_update_moves; [done..|]; intros; eapply Hfold|].
  intros _ d' [H Hrows]. split; [done|]. intros h Hh. destruct (Hl _ Hh) as (r & Hr & Hn).
  destruct (Hrows _ _ Hr) as (r' & ? & _ & _ & ?). exists r'. split; [done|congruence].
Qed.
Lemma refolds_Quarantine P hs id now : refolds P hs (handle_QuarantineLookalike id now).
Proof. by apply refolds_update; [intros r; split_and!|]. Qed.
Lemma refolds_SetFold P hs id fold now : fold = foldPlaceholder id ∨ (∃ h, h ∈ hs ∧ Handle_ID h = id ∧ Skeleton (Handle_Name h) = fold) →
  refolds P hs (handle_SetFold id fold TableVersion now).
Proof.
  intros Hf. apply refolds_update; [by intros r; split_and!|]. intros d r Hl Hr _ _.
  destruct Hf as [->|(h & Hh & <- & <-)]; [by right|left]. destruct (Hl _ Hh) as (r' & Hr' & Hn). simplify_eq. by rewrite <- Hn.
Qed.
Lemma refolds_emit P hs st h name : refolds P hs (emitQuarantine st h name).
Proof.
  intros d Hl. unfold emitQuarantine. destruct (D_err _); [wp_step; by split; [apply steps_nil|]|].
  apply wp_Emit; intros; (split; [apply steps_nil|done]).
Qed.

(** Every handle of a group has the group's skeleton, and comes from the list. *)
Definition grouped (hs : list Handle) (gs : list (gostring * list Handle)) : Prop :=
  ∀ sk g h, (sk, g) ∈ gs → h ∈ g → h ∈ hs ∧ Skeleton (Handle_Name h) = sk.

Lemma add_to_group_grouped hs gs h : h ∈ hs → grouped hs gs → grouped hs (add_to_group gs h).
Proof.
  intros Hh Hg sk g x. unfold add_to_group. case_bool_decide.
  - intros ([k l] & E & Hin)%list_elem_of_fmap Hx. case_bool_decide; simplify_eq; [|by eapply Hg].
    apply elem_of_app in Hx as [Hx|Hx%list_elem_of_singleton]; [by eapply Hg|by subst].
  - intros [Hin|E%list_elem_of_singleton]%elem_of_app Hx; [by eapply Hg|]. simplify_eq. by apply list_elem_of_singleton in Hx as ->.
Qed.
Lemma group_by_skeleton_grouped hs : grouped hs (group_by_skeleton hs).
Proof.
  unfold group_by_skeleton. assert (∀ l gs, (∀ h, h ∈ l → h ∈ hs) → grouped hs gs → grouped hs (foldl add_to_group gs l)) as H.
  { induction l as [|h l IH]; intros gs Hl Hg; [done|]. simpl. apply IH; [intros; apply Hl; by right|].
    apply add_to_group_grouped; [apply Hl; by left|done]. }
  apply H; [done|]. intros ??? Hin. by apply elem_of_nil in Hin.
Qed.

Lemma refolds_place P now hs l : refolds P hs (place_loop now l).
Proof. induction l as [|h l IH]; simpl; [apply refolds_ret|]. apply refolds_bind; [apply refolds_SetFold; by left|done]. Qed.
Lemma refolds_losers P now hs sv sts l : refolds P hs (losers_loop now sv sts l).
Proof.
  revert sts. induction l as [|h l IH]; intros sts; simpl; [apply refolds_ret|].
  apply refolds_bind; [apply refolds_Quarantine|intros _]. apply refolds_bind; [apply refolds_emit|done].
Qed.
Lemma refolds_groups P now hs gs sts res : grouped hs gs → refolds P hs (groups_loop now sts gs res).
Proof.
  revert sts res. induction gs as [|[sk [|h l]] gs IH]; intros sts res Hg; simpl; [apply refolds_ret|apply IH|]; try by (intros ??? Hin; apply Hg; right).
  apply refolds_bind; [|intros _; apply refolds_bind; [apply refolds_losers|intros sts'; apply IH; intros ??? Hin; apply Hg; by right]].
  apply refolds_SetFold. right. destruct (Hg sk (h :: l) h) as [? ?]; [by left|by left|]. by exists h.
Qed.

Lemma listed_stale version d : keyed row_id (handles d) →
  listed (ordered_by by_handle_creation (hr_handle <$> filter (λ r, hr_version r ≠ version) (handle_rows d))) (handles d).
Proof.
  intros Hk h Hh. apply elem_of_ordered, list_elem_of_fmap in Hh as (r & -> & [_ [id Hr]%elem_of_rows]%list_elem_of_filter).
  exists r. split; [|done]. by rewrite <- (Hk _ _ Hr) in Hr.
Qed.

Lemma moves_recompute_tx P now sts : moves P (recompute_tx now sts).
Proof.
  intros d Hok. unfold recompute_tx, handle_ListStaleFolds. wp_step. wp_step; [apply steps_nil|].
  pose proof (listed_stale TableVersion d (ho_keyed _ Hok)) as Hl. revert Hl. generalize (ordered_by by_handle_creation (hr_handle <$> filter (λ r, hr_version r ≠ TableVersion) (handle_rows d))).
  intros stale Hl. case_bool_decide; [wp_step; apply steps_nil|].
  eapply wp_mono; [apply (refolds_bind P stale); [apply refolds_place|intros _; apply refolds_groups, group_by_skeleton_grouped|done]|].
  by intros r d' [? _].
Qed.

Lemma moves_Recompute P now sts : moves P (Recomputer_Run now sts).
Proof.
  unfold Recomputer_Run, handle_ListStaleFolds. apply moves_try; [auto with moves|]. intros [pre|e]; [|auto with moves].
  destruct (bool_decide _); [auto with moves|]. apply moves_try; [apply moves_WithTx, moves_recompute_tx|intros []; auto with moves].
Qed.

(** The calls that reach the table, at the instant [now]. *)
Inductive handle_call (now : time) (c c' : conn) : Prop :=
| hc_Register h r : handle_Register h c = (r, c') → handle_call now c c'
| hc_Rename now' newID st ownerID name requestID r : handle_Rename s now now' newID st ownerID name requestID c = (r, c') → handle_call now c c'
| hc_ReleaseExpired sts limit r : handle_ReleaseExpired now sts limit c = (r, c') → handle_call now c c'
| hc_Recompute sts r : Recomputer_Run now sts c = (r, c') → handle_call now c c'
| hc_other : handles (data c') = handles (data c) → handle_call now c c'.

Lemma handle_call_steps now c c' : handles_ok (handles (data c)) → handle_call now c c' → steps (hstep (λ r, lapsed now (hr_handle r) = true)) (handles (data c)) (handles (data c')).
Proof.
  intros Hok [h r E|now' newID st ownerID name requestID r E|sts limit r E|sts r E|E].
  - exact (wp_run false _ _ _ _ _ _ (moves_Register _ h (data c) Hok) eq_refl ltac:(done) E).
  - exact (wp_run false _ _ _ _ _ _ (moves_Rename _ now now' newID st ownerID name requestID (data c) Hok) eq_refl ltac:(done) E).
  - exact (wp_run false _ _ _ _ _ _ (moves_ReleaseExpired now sts limit (data c) Hok) eq_refl ltac:(done) E).
  - exact (wp_run false _ _ _ _ _ _ (moves_Recompute _ now sts (data c) Hok) eq_refl ltac:(done) E).
  - rewrite E. apply steps_nil.
Qed.

(** A sequence of calls at the given instants. *)
Inductive handle_calls : list time → conn → conn → Prop :=
| calls_nil c : handle_calls [] c c
| calls_cons now ts c c1 c2 : handle_call now c c1 → handle_calls ts c1 c2 → handle_calls (now :: ts) c c2.

(** Each claim is there with its owner and its name, or its quarantine lapsed. *)
Definition calls_keep (ts : list time) (t t' : gmap gostring HandleRow) : Prop := ∀ id r, t !! id = Some r →
  (∃ r', t' !! id = Some r' ∧ row_keeps r r') ∨
  ∃ now r', now ∈ ts ∧ row_keeps r r' ∧ row_state r' = NameStateQuarantined ∧ ∃ q, Handle_QuarantineUntil (hr_handle r') = Some q ∧ q ≤ now.

Lemma calls_keep_step now ts t t1 t2 : steps (hstep (λ r, lapsed now (hr_handle r) = true)) t t1 → calls_keep ts t1 t2 → calls_keep (now :: ts) t t2.
Proof.
  intros H Hrows id r Hr. destruct (hsteps_rows _ _ _ _ _ H Hr) as [(r1 & Hr1 & K1)|(r1 & Hl & K1)].
  - destruct (Hrows _ _ Hr1) as [(r2 & Hr2 & K2)|(now' & r2 & Hin & K2 & Hq)]; [left|right].
    + exists r2. split; [done|]. destruct K1 as (A1 & A2 & A3), K2 as (B1 & B2 & B3). split_and!; congruence.
    + exists now', r2. split; [by right|]. split; [|done]. destruct K1 as (A1 & A2 & A3), K2 as (B1 & B2 & B3). split_and!; congruence.
  - right. exists now, r1. split; [by left|]. split; [done|]. unfold lapsed in Hl. apply andb_true_iff in Hl as [Hq Ht]. apply bool_decide_eq_true_1 in Hq.
    split; [done|]. destruct (Handle_QuarantineUntil _) as [q|]; [|done]. apply Z.leb_le in Ht. eauto.
Qed.

End calls.

(** ** What a rename does *)

Section rename.
Context {UF : UnicodeFold} {U : UnicodeData} (s : handle_service).

Definition updatable (h : Handle) (r : HandleRow) (d : db) : Prop :=
  handles d !! Handle_ID h = Some r ∧ row_owner r = Handle_OwnerID h ∧ row_name r = Handle_Name h ∧ clear_of (Handle_ID h) (updated_handle h r) (handles d).

Lemma wp_Update b h d Q :
  (∀ e, (b = true → ∀ r, updatable h r d → NameState_IsValid (Handle_State h) = true → False) → Q (Err e) d) →
  (∀ r, updatable h r d → Q (Ok tt) (set_handles <[Handle_ID h := updated_handle h r]> d)) →
  wp b (handle_Update true h) d Q.
Proof.
  intros He Ho. unfold handle_Update, withLocalTx. wp_step. wp_step; [apply He; by intros ->|].
  destruct (owned_handle (Handle_OwnerID h) (Handle_ID h) d) as [r|] eqn:Er; simpl.
  - apply of_owner_Some in Er as Er'. destruct Er' as [Hr Hown]. destruct (decide (Handle_Name (hr_handle r) = Handle_Name h)) as [Hn|Hn].
    + rewrite (bool_decide_eq_true_2 _ Hn). simpl. unfold update_handle. wp_step. wp_step; [apply He; by intros ->|]. rewrite Er.
      destruct (NameState_IsValid _) eqn:Ev; simpl; [|apply He; intros _ r'; simpl in Ev; congruence].
      destruct (clashes _ _ d) eqn:Ec.
      * apply He. intros _ r' (Hr' & _ & _ & Hc) _. rewrite Hr in Hr'. injection Hr' as <-. apply clashes_clear in Hc. congruence.
      * wp_step; [done|]. apply Ho. split_and!; try done. by apply clashes_false.
    + rewrite (bool_decide_eq_false_2 _ Hn). simpl. wp_step. apply He. intros _ r' (Hr' & _ & Hn' & _) _. unfold row_name in Hn'. congruence.
  - apply He. intros _ r' (Hr' & Ho' & _ & _) _. unfold owned_handle, of_owner in Er. rewrite Hr' in Er. unfold row_owner in Ho'. rewrite Ho' in Er. by rewrite bool_decide_eq_true_2 in Er.
Qed.

Definition held_names (ownerID : gostring) (d : db) : list Handle := filter (λ h, Handle_OwnerID h = ownerID) (hr_handle <$> handle_rows d).

(** The claim of a name: a fresh row, or the owner's own held one back in service. *)
Inductive claim_of (newID ownerID name : gostring) (now : time) (t : gmap gostring HandleRow) : Handle → bool → HandleRow → Prop :=
| claim_fresh : let h := MkHandle newID ownerID name NameStateActive None false false now now in
    t !! newID = None → clear_of newID (MkHandleRow h (Skeleton name) TableVersion) t → claim_of newID ownerID name now t h false (MkHandleRow h (Skeleton name) TableVersion)
| claim_held r : let h := with_state NameStateActive None now (hr_handle r) in
    t !! row_id r = Some r → row_owner r = ownerID → row_name r = name → row_state r = NameStateQuarantined →
    clear_of (row_id r) (updated_handle h r) t → claim_of newID ownerID name now t h true (updated_handle h r).

Lemma wp_Register b h d Q :
  (∀ e, Q (Err e) d) →
  (handles d !! Handle_ID h = None → clear_of (Handle_ID h) (MkHandleRow h (Skeleton (Handle_Name h)) TableVersion) (handles d) →
     Q (Ok tt) (set_handles <[Handle_ID h := MkHandleRow h (Skeleton (Handle_Name h)) TableVersion]> d)) →
  wp b (handle_Register h) d Q.
Proof.
  intros He Ho. unfold handle_Register, refuseIfFoldStale. wp_step. wp_step. wp_step; [apply He|].
  destruct (existsb _ _); [apply wp_fail, He|]. wp_step. wp_step. wp_step; [apply He|].
  destruct (handles d !! _) eqn:En; [apply He|]. destruct (negb _); [apply He|]. destruct (clashes _ _ d) eqn:Ec; [apply He|].
  destruct (owners d !! _); [|apply He]. wp_step. apply Ho; [done|by apply clashes_false].
Qed.

Lemma claim_spec b newID ownerID name now d : keyed row_id (handles d) →
  wp b (handle_claim newID ownerID name now) d (λ r d', (∃ e, r = Err e) ∨
    ∃ h back row, r = Ok (h, back) ∧ claim_of newID ownerID name now (handles d) h back row ∧ d' = set_handles <[Handle_ID h := row]> d).
Proof.
  intros Hk. unfold handle_claim, handle_GetByName. wp_step.
  assert (∀ e, wp b (if errors_is e ErrNotFound
      then st_bind (handle_Register (MkHandle newID ownerID name NameStateActive None false false now now))
             (λ _, st_ret (MkHandle newID ownerID name NameStateActive None false false now now, false))
      else st_fail e) d (λ r d', (∃ e, r = Err e) ∨
    ∃ h back row, r = Ok (h, back) ∧ claim_of newID ownerID name now (handles d) h back row ∧ d' = set_handles <[Handle_ID h := row]> d)) as Hreg.
  { intros e. destruct (errors_is e ErrNotFound); [|wp_step; eauto]. wp_step. apply wp_Register; [eauto|]. simpl. intros Hn Hc. wp_step.
    right. eexists _, false, _. split_and!; [done|by apply claim_fresh|done]. }
  wp_step; [apply Hreg|]. destruct (head (named name d)) as [r|] eqn:Eh; simpl; [|apply (Hreg ErrNotFound)].
  apply head_Some_elem_of in Eh. apply list_elem_of_filter in Eh as [Hn Hin]. apply elem_of_rows in Hin as [id Hr]. rewrite <- (Hk _ _ Hr) in Hr.
  destruct (_ || _) eqn:Eo; [wp_step; eauto|]. apply orb_false_iff in Eo as [Eo1 Eo2].
  apply negb_false_iff, bool_decide_eq_true_1 in Eo1. apply negb_false_iff, bool_decide_eq_true_1 in Eo2.
  apply wp_bind. apply (wp_Update b (with_state NameStateActive None now (hr_handle r))); [eauto|]. intros r' (Hr' & _ & _ & Hc). simpl in Hr'. unfold row_id in Hr. rewrite Hr in Hr'. injection Hr' as <-.
  wp_step. right. eexists _, true, _. split_and!; [done|by apply claim_held|done].
Qed.

Definition set_aside (now now' : time) (r : HandleRow) : HandleRow :=
  updated_handle (with_state NameStateQuarantined (Some (now' + hs_quarantine s)) now (hr_handle r)) r.

Definition rename_action (back : bool) : gostring := if back then go "handle.reclaimed" else go "handle.renamed".

(** The table, and the record, a rename leaves. *)
Definition renamed (now now' : time) (newID : gostring) (st : stamp) (ownerID name : gostring) (d : db) (h : Handle) (d' : db) : Prop :=
  ∃ ro back row details, handles d !! row_id ro = Some ro ∧ row_owner ro = ownerID ∧ row_state ro = NameStateActive ∧ row_name ro ≠ name ∧
    (back = false → Z.of_nat (length (held_names ownerID d)) < hs_maxNames s) ∧
    claim_of newID ownerID name now (<[row_id ro := set_aside now now' ro]> (handles d)) h back row ∧
    d' = set_audits <[stamp_id st := emitted st (MkEvent ActorTypeOwner ownerID (rename_action back) TargetTypeHandle (Handle_ID h) details)]>
           (set_handles (λ t, <[Handle_ID h := row]> (<[row_id ro := set_aside now now' ro]> t)) d).

(** A name in the owner's list that it may take back is not free to register. *)
Lemma reclaims_held held ownerID name newID now t h row :
  (∀ x, x ∈ held → ∃ j r, t !! j = Some r ∧ row_name r = Handle_Name x) →
  reclaims held name = true → ¬ claim_of newID ownerID name now t h false row.
Proof.
  intros Hheld Hr Hc. apply existsb_exists in Hr as (x & Hx%list_elem_of_In & Hb). apply andb_true_iff in Hb as [Hb _]. apply bool_decide_eq_true_1 in Hb.
  destruct (Hheld x Hx) as (j & r & Hj & Hn). inversion Hc as [h0 Hnone Hclear E1 E2|]; subst. destruct (Hclear _ _ Hj) as (Hne & _); [congruence|]. by apply Hne.
Qed.

Lemma handle_rename_tx_spec b now now' newID st ownerID name requestID d : keyed row_id (handles d) →
  wp b (rename_tx s now now' newID st ownerID name requestID) d (λ r d', (∃ e, r = Err e) ∨ ∃ h, r = Ok h ∧ renamed now now' newID st ownerID name d h d').
Proof.
  intros Hk. unfold rename_tx, handle_GetActiveByOwner. wp_step. wp_step; [eauto|].
  destruct (head (active_of ownerID d)) as [ro|] eqn:Eh; simpl; [|eauto]. apply head_Some_elem_of in Eh.
  apply list_elem_of_filter in Eh as [[Hown Hact] Hin]. apply elem_of_rows in Hin as [i Hro]. rewrite <- (Hk _ _ Hro) in Hro.
  wp_step; [wp_step; eauto|]. rename n into Hname. wp_step. unfold handle_ListByOwner. wp_step; [eauto|]. fold (held_names ownerID d).
  set (held := ordered_by _ _). destruct (_ && _) eqn:Ecap; [wp_step; eauto|]. wp_step. apply wp_ret_or.
  destruct (handle_renameDetails _ _ _) as [details|]; [|eauto]. apply wp_bind. apply (wp_Update b (with_state NameStateQuarantined (Some (time_add now' (hs_quarantine s))) now (hr_handle ro))); [eauto|].
  intros r (Hr & _ & _ & _). simpl in Hr. unfold row_id in Hro. rewrite Hro in Hr. injection Hr as <-.
  change (updated_handle _ ro) with (set_aside now now' ro). set (d1 := set_handles _ d).
  assert (keyed row_id (handles d1)) as Hk1.
  { unfold d1. simpl. intros j x Hx. apply lookup_insert_Some in Hx as [ [E F]|[_ Hx]]; [by subst|by apply Hk]. }
  apply wp_bind. eapply wp_mono; [by apply claim_spec|]. intros res d2 [[e ->]|(h & back & row & -> & Hclaim & ->)]; [eauto|]. cbn [fst snd].
  apply wp_bind. unfold handle_emitTx. apply wp_Emit; [eauto|]. intros _ _ _. wp_step. right. exists h. split; [done|].
  exists ro, back, row, details. split_and!; try done.
  intros ->. apply andb_false_iff in Ecap as [Ecap|Ecap].
  - apply negb_false_iff in Ecap. exfalso. eapply reclaims_held; [|exact Ecap|exact Hclaim]. intros x Hx. apply elem_of_ordered, list_elem_of_filter in Hx as [_ Hx].
    apply list_elem_of_fmap in Hx as (r & -> & Hr). apply elem_of_rows in Hr as [j Hr]. unfold d1. simpl.
    destruct (decide (j = Handle_ID (hr_handle ro))) as [->|Hj]; [exists (Handle_ID (hr_handle ro)), (set_aside now now' ro); rewrite lookup_insert_eq; split; [done|]; rewrite Hro in Hr; by injection Hr as <-|].
    exists j, r. by rewrite lookup_insert_ne.
  - apply Z.leb_gt in Ecap. unfold held, ordered_by in Ecap. by rewrite merge_sort_Permutation in Ecap.
Qed.

Lemma handle_Rename_spec b now now' newID st ownerID name requestID d : keyed row_id (handles d) →
  wp b (handle_Rename s now now' newID st ownerID name requestID) d (λ r d', (∃ e, r = Err e ∧ d' = d) ∨ ∃ h, r = Ok h ∧ renamed now now' newID st ownerID name d h d').
Proof.
  intros Hk. unfold handle_Rename. wp_step; [wp_step; eauto|]. destruct (Guard_Check _ _ _ name); [wp_step; eauto|]. wp_step. wp_step; [wp_step; eauto|].
  eapply wp_mono; [by apply handle_rename_tx_spec|]. intros r d' [[e ->]|(h & -> & H)]; [wp_step; eauto|]. split; [wp_step; eauto|]. intros; wp_step; eauto.
Qed.

(** A rename of a handle is all or nothing, record included.  It fails and changes
    nothing, or the owner's active handle is set aside until the end of its quarantine,
    the new name - which no other owner held, not even in quarantine - is the owner's
    active handle, every other handle is as before, and the record of it is in the log;
    a fresh claim is only made below the limit of held names, and its look-alike
    skeleton was no one's. *)
Theorem handle_Rename_atomic now now' newID st ownerID name requestID c r c' :
  handles_ok (handles (data c)) → handle_Rename s now now' newID st ownerID name requestID c = (r, c') →
  ((∃ e, r = Err e) ∧ data c' = data c) ∨
  ∃ h old ro row,
    r = Ok h ∧ Handle_OwnerID h = ownerID ∧ Handle_Name h = name ∧ Handle_State h = NameStateActive ∧
    handles (data c') !! Handle_ID h = Some row ∧ hr_handle row = h ∧
    handles (data c) !! Handle_ID old = Some ro ∧ hr_handle ro = old ∧ Handle_OwnerID old = ownerID ∧ Handle_State old = NameStateActive ∧ Handle_ID old ≠ Handle_ID h ∧
    hr_handle <$> handles (data c') !! Handle_ID old = Some (with_state NameStateQuarantined (Some (now' + hs_quarantine s)) now old) ∧
    (∀ j x, handles (data c) !! j = Some x → row_owner x ≠ ownerID → row_name x ≠ name) ∧
    (handles (data c) !! Handle_ID h = None → Z.of_nat (length (held_names ownerID (data c))) < hs_maxNames s ∧
       ∀ j x, handles (data c) !! j = Some x → hr_fold x ≠ Skeleton name) ∧
    (∀ j, j ≠ Handle_ID h → j ≠ Handle_ID old → handles (data c') !! j = handles (data c) !! j) ∧
    ∃ rec, audits (data c') !! stamp_id st = Some rec ∧ Audit_ActorID rec = ownerID ∧ Audit_TargetID rec = Handle_ID h.
Proof.
  intros Hok E. pose proof (wp_run false _ _ _ _ _ _ (handle_Rename_spec false now now' newID st ownerID name requestID _ (ho_keyed _ Hok)) eq_refl ltac:(done) E) as
    [(e & -> & ->)|(h & -> & ro & back & row & details & Hro & Hown & Hact & Hname & Hcap & Hclaim & Hd)]; [left; eauto|right].
  set (t1 := <[row_id ro := set_aside now now' ro]> (handles (data c))) in *.
  assert (Handle_OwnerID h = ownerID ∧ Handle_Name h = name ∧ Handle_State h = NameStateActive ∧ hr_handle row = h ∧ row_id ro ≠ Handle_ID h) as (H1 & H2 & H3 & H4 & H5).
  { destruct Hclaim as [h0 Hn Hc|r h0 Hr Ho Hnm Hst Hc]; unfold h0; simpl.
    - split_and!; try done. unfold t1 in Hn. apply lookup_insert_None in Hn as [_ Hn]. exact Hn.
    - split_and!; try done. intros Heq. unfold t1 in Hr. apply lookup_insert_Some in Hr as [ [_ Hr]|[Hne _]]; [|by apply Hne]. subst r. by apply Hname. }
  exists h, (hr_handle ro), ro, row. rewrite Hd. simpl. split_and!; try done.
  - by rewrite lookup_insert_eq.
  - fold (row_id ro). rewrite lookup_insert_ne by done. by rewrite lookup_insert_eq.
  - intros j x Hx Hother Hn. assert (j ≠ row_id ro) as Hj by (intros ->; congruence).
    assert (t1 !! j = Some x) as Hx1 by (unfold t1; by rewrite lookup_insert_ne).
    destruct Hclaim as [h0 Hnone Hc|r h0 Hr Ho Hnm Hst Hc].
    + destruct (Hc _ _ Hx1) as (Hne & _); [intros ->; congruence|]. by apply Hne.
    + destruct (decide (j = row_id r)) as [->|Hjr]; [rewrite Hx1 in Hr; injection Hr as ->; congruence|]. destruct (Hc _ _ Hx1 Hjr) as (Hne & _). by apply Hne; rewrite Hn.
  - intros Hnone. destruct Hclaim as [h0 Hn Hc|r h0 Hr Ho Hnm Hst Hc].
    + split; [by apply Hcap|]. intros j x Hx. destruct (decide (j = row_id ro)) as [->|Hj].
      * rewrite Hro in Hx. injection Hx as <-. assert (t1 !! row_id ro = Some (set_aside now now' ro)) as Hx1 by (unfold t1; by rewrite lookup_insert_eq).
        destruct (Hc _ _ Hx1) as (_ & Hne & _); [by intros Ej; apply H5|]. exact Hne.
      * assert (t1 !! j = Some x) as Hx1 by (unfold t1; by rewrite lookup_insert_ne). destruct (Hc _ _ Hx1) as (_ & Hne & _); [intros ->; simpl in Hnone; congruence|]. exact Hne.
    + exfalso. unfold t1 in Hr. rewrite lookup_insert_ne in Hr by (intros Ej; by apply H5). simpl in Hnone. unfold row_id in Hr. congruence.
  - intros j Hj1 Hj2. rewrite lookup_insert_ne by done. rewrite lookup_insert_ne by done. done.
  - eexists. rewrite lookup_insert_eq. split; [reflexivity|done].
Qed.

Lemma head_of {A} (l : list A) a : a ∈ l → (∀ b, b ∈ l → b = a) → head l = Some a.
Proof. destruct l as [|b l]; [by intros ?%not_elem_of_nil|]. intros _ H. simpl. f_equal. apply H. by left. Qed.

Lemma apart_same t i j x y : handles_ok t → t !! i = Some x → t !! j = Some y → ¬ apart x y → x = y.
Proof. intros Hok Hx Hy Hn. destruct (decide (i = j)) as [->|Hij]; [congruence|]. exfalso. apply Hn. by eapply ho_apart. Qed.

(** An owner can always take a held name back, for whatever reason it is held.  When
    the store answers, the name is permitted and the move can be recorded, renaming to
    one of the owner's quarantined names succeeds and puts that very row back in
    service - with its review flag still set when the name was put aside as a look-alike
    of someone else's, a hold that is documented to last until a review. *)
Theorem held_name_reclaimed now now' newID st ownerID name requestID c ro rx details :
  handles_ok (handles (data c)) → faults c = [] → ownerID ≠ [] →
  handles (data c) !! row_id ro = Some ro → row_owner ro = ownerID → row_state ro = NameStateActive →
  handles (data c) !! row_id rx = Some rx → row_owner rx = ownerID → row_state rx = NameStateQuarantined → row_name rx = name →
  Guard_Check (hs_guard s) KindHandle OpRename name = None → handle_renameDetails (row_name ro) name requestID = Ok details →
  audits (data c) !! stamp_id st = None →
  is_ok (Emitter_record st (MkEvent ActorTypeOwner ownerID (go "handle.reclaimed") TargetTypeHandle (row_id rx) details)) = true →
  ∃ c', handle_Rename s now now' newID st ownerID name requestID c = (Ok (with_state NameStateActive None now (hr_handle rx)), c') ∧
    ∃ row, handles (data c') !! row_id rx = Some row ∧ row_state row = NameStateActive ∧
      Handle_FlaggedForReview (hr_handle row) = Handle_FlaggedForReview (hr_handle rx).
Proof.
  intros Hok Hf Hne Hro Hown Hact Hrx Hownx Hq Hn Hg Hdet Hau Hrec.
  assert (row_id rx ≠ row_id ro) as Hids by (intros Ei; rewrite Ei in Hrx; congruence).
  destruct (handle_Rename s now now' newID st ownerID name requestID c) as [r c'] eqn:E. exists c'.
  enough (r = Ok (with_state NameStateActive None now (hr_handle rx)) ∧ ∃ row, handles (data c') !! row_id rx = Some row ∧ row_state row = NameStateActive ∧
      Handle_FlaggedForReview (hr_handle row) = Handle_FlaggedForReview (hr_handle rx)) as [-> Hrow] by done.
  refine (wp_run true _ (data c) (λ r d', r = Ok (with_state NameStateActive None now (hr_handle rx)) ∧ ∃ row, handles d' !! row_id rx = Some row ∧
    row_state row = NameStateActive ∧ Handle_FlaggedForReview (hr_handle row) = Handle_FlaggedForReview (hr_handle rx)) _ _ _ _ eq_refl (λ _, Hf) E). clear E.
  unfold handle_Rename. rewrite bool_decide_eq_false_2 by done. rewrite Hg. wp_step. wp_step; [done|]. unfold rename_tx, handle_GetActiveByOwner. wp_step. wp_step; [done|].
  rewrite (head_of (active_of ownerID (data c)) ro).
  2: { apply list_elem_of_filter. split; [done|]. apply elem_of_rows. eauto. }
  2: { intros x [[Hox Hax] [j Hx]%elem_of_rows]%list_elem_of_filter. eapply apart_same; [exact Hok|exact Hx|exact Hro|]. intros (_ & _ & Ha). apply Ha; try done. unfold row_owner at 1. congruence. }
  simpl. assert (row_name ro ≠ name) as Hname.
  { intros En. assert (rx = ro) as -> by (eapply apart_same; [exact Hok|exact Hrx|exact Hro|]; intros (Ha & _); apply Ha; congruence). done. }
  rewrite bool_decide_eq_false_2 by done. wp_step. unfold handle_ListByOwner. wp_step; [done|].
  assert (reclaims (ordered_by by_handle_creation (held_names ownerID (data c))) name = true) as Hrecl.
  { apply existsb_exists. exists (hr_handle rx). split; [|by rewrite (bool_decide_eq_true_2 _ Hn), (bool_decide_eq_true_2 _ Hq)].
    apply list_elem_of_In, elem_of_ordered, list_elem_of_filter. split; [done|]. apply list_elem_of_fmap. exists rx. split; [done|]. apply elem_of_rows. eauto. }
  unfold held_names in Hrecl. rewrite Hrecl. simpl andb. cbn iota. wp_step. apply wp_ret_or. unfold row_name in Hdet. rewrite Hdet. apply wp_bind.
  apply (wp_Update true (with_state NameStateQuarantined (Some (time_add now' (hs_quarantine s))) now (hr_handle ro))).
  { intros e He. exfalso. apply (He eq_refl ro); [|done]. split_and!; try done. intros j x Hx Hj. destruct (ho_apart _ Hok _ _ _ _ Hx Hro Hj) as (A1 & A2 & _). by split_and!. }
  intros r1 (Hr1 & _ & _ & _). simpl in Hr1. unfold row_id in Hro. rewrite Hro in Hr1. injection Hr1 as <-. change (updated_handle _ ro) with (set_aside now now' ro).
  set (d1 := set_handles _ _). apply wp_bind.
  assert (handles d1 !! row_id rx = Some rx) as Hrx1 by (unfold d1; simpl; by rewrite lookup_insert_ne).
  assert (∀ j x, handles d1 !! j = Some x → j ≠ row_id rx → row_name x ≠ row_name rx ∧ hr_fold x ≠ hr_fold rx ∧ (row_owner x = ownerID → row_state x = NameStateActive → False)) as Hother.
  { intros j x Hx Hj. unfold d1 in Hx. simpl in Hx. apply lookup_insert_Some in Hx as [ [<- <-]|[Hjo Hx]].
    - destruct (ho_apart _ Hok _ _ _ _ Hro Hrx) as (A1 & A2 & _); [by intros Ej; apply Hids|]. by split_and!.
    - destruct (ho_apart _ Hok _ _ _ _ Hx Hrx Hj) as (A1 & A2 & _). split_and!; try done. intros Hox Hax.
      destruct (ho_apart _ Hok _ _ _ _ Hx Hro) as (_ & _ & A3); [done|]. apply A3; [congruence|done|done]. }
  unfold handle_claim, handle_GetByName. wp_step. wp_step; [done|]. rewrite (head_of (named name d1) rx).
  2: { apply list_elem_of_filter. split; [done|]. apply elem_of_rows. eauto. }
  2: { intros x [Hnx [j Hx]%elem_of_rows]%list_elem_of_filter. destruct (decide (j = row_id rx)) as [->|Hj]; [congruence|]. destruct (Hother _ _ Hx Hj) as (A1 & _). exfalso. apply A1. rewrite Hn. exact Hnx. }
  simpl. unfold row_owner in Hownx. unfold row_state in Hq. rewrite (bool_decide_eq_true_2 _ Hownx), (bool_decide_eq_true_2 _ Hq). simpl. apply wp_bind.
  apply (wp_Update true (with_state NameStateActive None now (hr_handle rx))).
  { intros e He. exfalso. apply (He eq_refl rx); [|done]. split_and!; try done. intros j x Hx Hj. destruct (Hother _ _ Hx Hj) as (A1 & A2 & A3). split_and!; try done.
    intros Hox Hax _. apply A3; [|done]. unfold row_owner in Hox at 2. simpl in Hox. congruence. }
  intros r2 (Hr2 & _ & _ & _). assert (Some r2 = Some rx) as [= ->] by exact (eq_trans (eq_sym Hr2) Hrx1). wp_step. apply wp_bind. unfold handle_emitTx.
  apply wp_Emit_ok; [done|done|done|]. wp_step. split; [|done]. wp_step. split; [done|]. eexists. simpl. split; [apply lookup_insert_eq|done].
Qed.
End rename.

(** ** Evaluating *)

Module HandleSample.
#[export] Existing Instance AkSample.ascii_only.
#[export] Existing Instance FoldSample.plain.
Definition guard : option (option Matcher) := match FoldSample.matcher with Ok m => Some (Some m) | Err _ => None end.
Definition svc : handle_service := MkHandleService guard DefaultMaxHeldNames handle_DefaultQuarantineWindow.
Definition st (n : string) : stamp := MkStamp (go n) 0.
(** One owner's active handle, a name of theirs put aside as a look-alike, and the
    handle it looks like. *)
Definition alice : HandleRow := MkHandleRow (MkHandle (go "h1") (go "o1") (go "alice") NameStateActive None false false 0 0) (go "alice") TableVersion.
Definition bob : HandleRow := MkHandleRow (MkHandle (go "h2") (go "o1") (go "bob") NameStateQuarantined None true false 0 0) (foldPlaceholder (go "h2")) TableVersion.
Definition b0b : HandleRow := MkHandleRow (MkHandle (go "h3") (go "o2") (go "b0b") NameStateActive None false false 0 0) (Skeleton (go "b0b")) TableVersion.
Definition owner (id : string) : Owner := MkOwner (go id) OwnerStatusActive 0 0 None.
Definition d0 : db := set_handles (λ _, <[go "h1" := alice]> (<[go "h2" := bob]> {[ go "h3" := b0b ]}))
  (set_owners (λ _, <[go "o1" := owner "o1"]> {[ go "o2" := owner "o2" ]}) empty_db).
Definition c0 : conn := MkConn d0 [].
Definition to_carol := handle_Rename svc 5 5 (go "h4") (st "r1") (go "o1") (go "carol") [] c0.
Definition to_bob := handle_Rename svc 5 5 (go "h4") (st "r1") (go "o1") (go "bob") [] c0.

Lemma handles0_rows i x : handles d0 !! i = Some x → (i = go "h1" ∧ x = alice) ∨ (i = go "h2" ∧ x = bob) ∨ (i = go "h3" ∧ x = b0b).
Proof.
  intros H. unfold d0 in H. simpl in H. apply lookup_insert_Some in H as [[<- <-]|[_ H]]; [left; split; reflexivity|].
  apply lookup_insert_Some in H as [[<- <-]|[_ H]]; [right; left; split; reflexivity|]. apply lookup_singleton_Some in H as [<- <-]. right; right; split; reflexivity.
Qed.

Lemma handles0_ok : handles_ok (handles d0).
Proof.
  constructor.
  - intros i x H. destruct (handles0_rows _ _ H) as [[-> ->]|[[-> ->]|[-> ->]]]; reflexivity.
  - intros i j x y Hx Hy Hij. destruct (handles0_rows _ _ Hx) as [[-> ->]|[[-> ->]|[-> ->]]], (handles0_rows _ _ Hy) as [[-> ->]|[[-> ->]|[-> ->]]];
      try (exfalso; apply Hij; reflexivity); (split; [discriminate|split; [vm_compute; discriminate|intros; discriminate]]).
Qed.

Lemma handles0_folded : handles_folded (handles d0).
Proof.
  intros i x H _. destruct (handles0_rows _ _ H) as [[-> ->]|[[-> ->]|[-> ->]]];
    first [left; vm_compute; reflexivity|right; vm_compute; reflexivity].
Qed.
End HandleSample.
#[local] Existing Instance AkSample.ascii_only.
#[local] Existing Instance FoldSample.plain.


Lemma handle_Rename_atomic_witness : ∃ h, fst HandleSample.to_carol = Ok h ∧ Handle_Name h = go "carol".
Proof.
  assert (is_ok (fst HandleSample.to_carol) = true) as Hr by (vm_compute; reflexivity).
  destruct (handle_Rename_atomic HandleSample.svc 5 5 (go "h4") (HandleSample.st "r1") (go "o1") (go "carol") [] HandleSample.c0 (fst HandleSample.to_carol) (snd HandleSample.to_carol)
    HandleSample.handles0_ok) as [[[e He] _]|(h & old & ro & row & Hh & _ & Hn & _)].
  - unfold HandleSample.to_carol. apply surjective_pairing.
  - rewrite He in Hr. discriminate Hr.
  - exists h. split; [exact Hh|exact Hn].
Defined.

(** The look-alike goes back in service next to the handle it looks like. *)
Lemma held_name_reclaimed_witness : hr_fold HandleSample.b0b = Skeleton (go "bob") ∧
  ∃ row, handles (data (snd HandleSample.to_bob)) !! go "h2" = Some row ∧ row_state row = NameStateActive ∧ Handle_FlaggedForReview (hr_handle row) = true.
Proof.
  split; [vm_compute; reflexivity|].
  assert (∃ details, handle_renameDetails (go "alice") (go "bob") [] = Ok details) as [details Hd] by (eexists; vm_compute; reflexivity).
  assert (is_ok (Emitter_record (HandleSample.st "r1") (MkEvent ActorTypeOwner (go "o1") (go "handle.reclaimed") TargetTypeHandle (go "h2")
    match handle_renameDetails (go "alice") (go "bob") [] with Ok d => d | Err _ => no_details end)) = true) as Hrec by (vm_compute; reflexivity).
  rewrite Hd in Hrec.
  assert (Guard_Check (hs_guard HandleSample.svc) KindHandle OpRename (go "bob") = None) as Hg by (vm_compute; reflexivity).
  assert (handles (data HandleSample.c0) !! row_id HandleSample.alice = Some HandleSample.alice) as Ha by (vm_compute; reflexivity).
  assert (handles (data HandleSample.c0) !! row_id HandleSample.bob = Some HandleSample.bob) as Hb by (vm_compute; reflexivity).
  assert (go "o1" ≠ []) as Hne by discriminate.
  assert (audits (data HandleSample.c0) !! stamp_id (HandleSample.st "r1") = None) as Hau by (vm_compute; reflexivity).
  destruct (held_name_reclaimed HandleSample.svc 5 5 (go "h4") (HandleSample.st "r1") (go "o1") (go "bob") [] HandleSample.c0 HandleSample.alice HandleSample.bob details
    HandleSample.handles0_ok eq_refl Hne Ha eq_refl eq_refl Hb eq_refl eq_refl eq_refl Hg Hd Hau Hrec) as (c' & E & row & Hrow & Hst & Hfl).
  exists row. unfold HandleSample.to_bob. rewrite E. split; [exact Hrow|]. split; [exact Hst|exact Hfl].
Defined.
