(* ===== verification/DeviceKeys.v ===== *)
(** * Devices and public keys

    [internal/service/device] and [internal/service/publickey]: registering and revoking
    devices, enrolling public keys on them and revoking keys.  The clock, the new
    identifier and the audit stamp of a call are its arguments; a call is a read, one
    write and the record of it, each its own statement. *)

From stdpp Require Import sorting.
From S2P Require Import Prelude DomainErrors GoLib Domain Keys Blocklist Database StoreLogic AuditLog KeyRepos AccessKey.

Open Scope Z_scope.
Open Scope stm_scope.

(** ** The device service *)

(** src/internal/service/device/device.go:56-62, ErrNotFound *)
Definition dev_ErrNotFound : goerror := errorf "device: not found" [ErrNotFound].

Definition dev_missing_owner : goerror := errorf "device: missing owner" [ErrInvalidInput].

Section device.
Context `{!UnicodeFold} {U : UnicodeData} (guard : option (option Matcher)).

(** src/internal/service/device/device.go:239-250, registerDetails *)
Definition registerDetails (name requestID : gostring) : result Details :=
  let d := set_if (Details_Set no_details DetailDeviceName name) DetailRequestID requestID in
  match D_err d with
  | Some _ => Err (errorf "device: name cannot be recorded" [ErrInvalidInput])
  | None => Ok d
  end.

(** src/internal/service/device/device.go:326-344, Service.emit *)
Definition dev_emit (st : stamp) (action ownerID id : gostring) (details : Details) : stM conn unit :=
  Emit st (MkEvent ActorTypeOwner ownerID action TargetTypeDevice id details).

Definition new_device (newID ownerID name : gostring) (now : time) : Device :=
  MkDevice newID ownerID name DeviceStatusActive now now None.

(** src/internal/service/device/device.go:153-237, Service.Register *)
Definition dev_Register (now : time) (newID : gostring) (st : stamp) (ownerID name requestID : gostring) : stM conn Device :=
  if bool_decide (ownerID = []) then st_fail dev_missing_owner else
  match Guard_Check guard KindDeviceName OpCreate name with
  | Some e => st_fail e
  | None =>
      let! details := ret_or (registerDetails name requestID) in
      let d := new_device newID ownerID name now in
      let! _ := device_Create d in
      let! _ := dev_emit st (go "device.registered") ownerID (Device_ID d) details in
      st_ret d
  end.

(** src/internal/service/device/device.go:252-265, Service.List *)
Definition dev_List (ownerID : gostring) : stM conn (list Device) :=
  if bool_decide (ownerID = []) then st_fail dev_missing_owner else device_ListByOwner ownerID.

Definition dev_verdict (e : goerror) : goerror := if errors_is e ErrNotFound then dev_ErrNotFound else e.

(** src/internal/service/device/device.go:267-324, Service.Revoke *)
Definition dev_Revoke (now : time) (st : stamp) (ownerID id requestID : gostring) : stM conn unit :=
  if bool_decide (ownerID = []) then st_fail dev_missing_owner else
  if bool_decide (id = []) then st_fail dev_ErrNotFound else
  try! r := device_Get ownerID id in
  match r with
  | Err e => st_fail (dev_verdict e)
  | Ok d =>
      if bool_decide (Device_Status d = DeviceStatusRevoked) then st_fail dev_ErrNotFound else
      match registerDetails (Device_Name d) requestID with
      | Err _ => st_fail (errors_new "device: stored name cannot be recorded")
      | Ok details =>
          try! r := device_Revoke ownerID id now in
          match r with
          | Err e => st_fail (dev_verdict e)
          | Ok _ => dev_emit st (go "device.revoked") ownerID (Device_ID d) details
          end
      end
  end.
End device.

(** ** The public key service *)

(** src/internal/service/publickey/publickey.go:73-79, ErrNotFound *)
Definition pk_ErrNotFound : goerror := errorf "publickey: not found" [ErrNotFound].

(** src/internal/service/publickey/publickey.go:81-89, ErrDuplicate *)
Definition pk_ErrDuplicate : goerror := errorf "publickey: key already enrolled" [ErrConflict].

Definition pk_missing_owner : goerror := errorf "publickey: missing owner" [ErrInvalidInput].
Definition pk_verdict (e : goerror) : goerror := if errors_is e ErrNotFound then pk_ErrNotFound else e.

Section publickey.
Context {K : Type} `{!Ssh K} {U : UnicodeData}.

(** src/internal/service/publickey/publickey.go:242-265, Service.device *)
Definition pk_device (ownerID deviceID : gostring) : stM conn Device :=
  if bool_decide (deviceID = []) then st_fail pk_ErrNotFound else
  try! r := device_Get ownerID deviceID in
  match r with
  | Err e => st_fail (pk_verdict e)
  | Ok d => if bool_decide (Device_Status d = DeviceStatusActive) then st_ret d else st_fail pk_ErrNotFound
  end.

(** src/internal/service/publickey/publickey.go:267-287, keyDetails *)
Definition pk_keyDetails (fingerprint : gostring) (alg : Algorithm) (requestID : gostring) : result Details :=
  let d := Details_Set (Details_Set no_details DetailFingerprint fingerprint) DetailAlgorithm (Algorithm_string alg) in
  let d := set_if d DetailRequestID requestID in
  match D_err d with
  | Some _ => Err (errorf "publickey: key cannot be recorded" [ErrInvalidInput])
  | None => Ok d
  end.

(** src/internal/service/publickey/publickey.go:363-379, Service.emit *)
Definition pk_emit (st : stamp) (action ownerID id : gostring) (details : Details) : stM conn unit :=
  Emit st (MkEvent ActorTypeOwner ownerID action TargetTypePublicKey id details).

(** src/internal/service/publickey/publickey.go:216-228, Service.Add (the row) *)
Definition enrolled_key (newID ownerID deviceID : gostring) (p : ParsedKey) (now : time) : PublicKey :=
  MkPublicKey newID ownerID deviceID (PK_Algorithm p) (PK_Blob p) (PK_Comment p) (PK_Fingerprint p) (PK_BitLen p)
    KeyStatusActive now now None None.

(** src/internal/service/publickey/publickey.go:171-240, Service.Add *)
Definition pk_Add (now : time) (newID : gostring) (st : stamp) (ownerID deviceID : gostring) (raw : bytes) (requestID : gostring) :
    stM conn PublicKey :=
  if bool_decide (ownerID = []) then st_fail pk_missing_owner else
  let! parsed := ret_or (Parse (K:=K) raw) in
  let! device := pk_device ownerID deviceID in
  let! details := ret_or (pk_keyDetails (PK_Fingerprint parsed) (PK_Algorithm parsed) requestID) in
  let k := enrolled_key newID ownerID (Device_ID device) parsed now in
  try! r := pubkey_Create k in
  match r with
  | Err e => if errors_is e ErrConflict then st_fail pk_ErrDuplicate else st_fail e
  | Ok _ =>
      let! _ := pk_emit st (go "key.added") ownerID (PublicKey_ID k) details in
      st_ret k
  end.

(** src/internal/service/publickey/publickey.go:289-306, Service.List *)
Definition pk_List (ownerID : gostring) : stM conn (list PublicKey) :=
  if bool_decide (ownerID = []) then st_fail pk_missing_owner else pubkey_ListByOwner ownerID.

(** src/internal/service/publickey/publickey.go:308-361, Service.Revoke *)
Definition pk_Revoke (now : time) (st : stamp) (ownerID id requestID : gostring) : stM conn unit :=
  if bool_decide (ownerID = []) then st_fail pk_missing_owner else
  if bool_decide (id = []) then st_fail pk_ErrNotFound else
  try! r := pubkey_Get ownerID id in
  match r with
  | Err e => st_fail (pk_verdict e)
  | Ok k =>
      if negb (bool_decide (PublicKey_Status k = KeyStatusActive)) then st_fail pk_ErrNotFound else
      match pk_keyDetails (PublicKey_Fingerprint k) (PublicKey_Algorithm k) requestID with
      | Err _ => st_fail (errors_new "publickey: stored key cannot be recorded")
      | Ok details =>
          try! r := pubkey_Revoke ownerID id now in
          match r with
          | Err e => st_fail (pk_verdict e)
          | Ok _ => pk_emit st (go "key.revoked") ownerID id details
          end
      end
  end.
End publickey.

(** ** Specifications *)

Lemma registerDetails_built {U : UnicodeData} name requestID d : registerDetails name requestID = Ok d → built d.
Proof. unfold registerDetails. case_match; [done|]. intros [= <-]. auto with vallet. Qed.

Lemma pk_keyDetails_built {U : UnicodeData} fp alg requestID d : pk_keyDetails fp alg requestID = Ok d → built d.
Proof. unfold pk_keyDetails. case_match; [done|]. intros [= <-]. auto with vallet. Qed.

(** The record of a change an owner made. *)
Definition owner_record (st : stamp) (action ownerID : gostring) (target : TargetType) (id : gostring) (details : Details) (d : db) : db :=
  set_audits <[stamp_id st := emitted st (MkEvent ActorTypeOwner ownerID action target id details)]> d.

(** A write and the record of it: nothing happened, the write happened and the call
    failed, or both happened and the call succeeded. *)
Definition recorded {U : UnicodeData} {A} (st : stamp) (action ownerID : gostring) (target : TargetType) (id : gostring) (a : A) (d1 : db)
    (r : result A) (d' : db) : Prop :=
  (∃ e, r = Err e ∧ d' = d1) ∨ ∃ details, built details ∧ r = Ok a ∧ d' = owner_record st action ownerID target id details d1.

Definition revoked_device (now : time) (v : Device) : Device :=
  MkDevice (Device_ID v) (Device_OwnerID v) (Device_Name v) DeviceStatusRevoked (Device_CreatedAt v) now (Some now).

Section specs.
Context {K : Type} `{!Ssh K} `{!UnicodeFold} {U : UnicodeData}.

Lemma Register_spec guard b now newID st ownerID name requestID d :
  wp b (dev_Register guard now newID st ownerID name requestID) d (λ r d',
    (∃ e, r = Err e ∧ d' = d) ∨
    let v := new_device newID ownerID name now in
    ownerID ≠ [] ∧ Guard_Check guard KindDeviceName OpCreate name = None ∧ devices d !! newID = None ∧ is_Some (owners d !! ownerID) ∧
    recorded st (go "device.registered") ownerID TargetTypeDevice newID v (set_devices <[newID := v]> d) r d').
Proof.
  unfold dev_Register. wp_step; [wp_step; eauto|]. destruct (Guard_Check _ _ _ name) eqn:Eg; [wp_step; eauto|].
  wp_step. apply wp_ret_or. destruct (registerDetails _ _) as [details|] eqn:Ed; [|eauto]. wp_step.
  unfold device_Create. do 2 wp_step; [eauto|]. simpl. destruct (devices d !! newID) eqn:En; [eauto|]. destruct (owners d !! ownerID) eqn:Eo; [|eauto].
  wp_step. wp_step. unfold dev_emit. simpl. apply wp_Emit.
  - intros e. right. split_and!; try done. left. eauto.
  - intros _ _ _. wp_step. right. split_and!; try done. right. exists details. split_and!; try done. by eapply registerDetails_built.
Qed.

Lemma dev_Revoke_spec b now st ownerID id requestID d :
  wp b (dev_Revoke now st ownerID id requestID) d (λ r d',
    (∃ e, r = Err e ∧ d' = d) ∨
    ∃ v, devices d !! id = Some v ∧ Device_OwnerID v = ownerID ∧ Device_Status v ≠ DeviceStatusRevoked ∧
      recorded st (go "device.revoked") ownerID TargetTypeDevice (Device_ID v) tt (set_devices <[id := revoked_device now v]> d) r d').
Proof.
  unfold dev_Revoke, device_Get. wp_step; [wp_step; eauto|]. wp_step; [wp_step; eauto|]. wp_step. wp_step; [wp_step; eauto|].
  destruct (owned_device ownerID id d) as [v|] eqn:Ev; [|wp_step; eauto]. pose proof Ev as [Hv Ho]%of_owner_Some.
  wp_step; [wp_step; eauto|]. destruct (registerDetails _ _) as [details|] eqn:Ed; [|wp_step; eauto].
  wp_step. unfold device_Revoke. apply wp_update_required; [intros; wp_step; eauto|]. rewrite Ev. unfold dev_emit. apply wp_Emit.
  - intros e. right. exists v. split_and!; try done. left. eauto.
  - intros _ _ _. right. exists v. split_and!; try done. right. exists details. split_and!; try done. by eapply registerDetails_built.
Qed.

Lemma wp_pk_device b ownerID deviceID d Q :
  (∀ e, Q (Err e) d) →
  (∀ v, devices d !! deviceID = Some v → Device_OwnerID v = ownerID → Device_Status v = DeviceStatusActive → Q (Ok v) d) →
  wp b (pk_device ownerID deviceID) d Q.
Proof.
  intros He Ho. unfold pk_device, device_Get. wp_step; [by wp_step|]. wp_step. wp_step; [by wp_step|].
  destruct (owned_device _ _ d) as [v|] eqn:Ev; [|by wp_step]. apply of_owner_Some in Ev as [? ?]. wp_step; wp_step; auto.
Qed.

Lemma same_fingerprint_nil k d : same_fingerprint k d = [] →
  ∀ j x, pubkeys d !! j = Some x → PublicKey_OwnerID x = PublicKey_OwnerID k → PublicKey_Fingerprint x ≠ PublicKey_Fingerprint k.
Proof.
  intros Hnil j x Hx Ho Hf. assert (x ∈ same_fingerprint k d) as Hin; [|rewrite Hnil in Hin; by apply not_elem_of_nil in Hin].
  apply list_elem_of_filter. split; [done|]. apply elem_of_rows. eauto.
Qed.

Lemma wp_pubkey_Create b k d Q :
  (∀ e, Q (Err e) d) →
  (pubkeys d !! PublicKey_ID k = None → same_fingerprint k d = [] → is_Some (owners d !! PublicKey_OwnerID k) →
     is_Some (owned_device (PublicKey_OwnerID k) (PublicKey_DeviceID k) d) → Q (Ok tt) (set_pubkeys <[PublicKey_ID k := unsigned k]> d)) →
  wp b (pubkey_Create k) d Q.
Proof.
  intros He Ho. unfold pubkey_Create. do 2 wp_step; [auto|].
  destruct (pubkeys d !! _) eqn:En; [auto|]. destruct (same_fingerprint k d) eqn:Ef; [|auto].
  destruct (owners d !! _) eqn:Eo; [|auto]. destruct (owned_device _ _ d) eqn:Ed; [|auto]. destruct (KeyStatus_IsValid _); [|auto].
  wp_step. eauto.
Qed.

Lemma Add_spec b now newID st ownerID deviceID raw requestID d :
  wp b (pk_Add (K:=K) now newID st ownerID deviceID raw requestID) d (λ r d',
    (∃ e, r = Err e ∧ d' = d) ∨
    ∃ p v, Parse (K:=K) raw = Ok p ∧ devices d !! deviceID = Some v ∧ Device_OwnerID v = ownerID ∧ Device_Status v = DeviceStatusActive ∧
      let k := enrolled_key newID ownerID (Device_ID v) p now in
      pubkeys d !! newID = None ∧ same_fingerprint k d = [] ∧
      recorded st (go "key.added") ownerID TargetTypePublicKey newID k (set_pubkeys <[newID := k]> d) r d').
Proof.
  unfold pk_Add. wp_step; [wp_step; eauto|]. wp_step. apply wp_ret_or. destruct (Parse raw) as [p|] eqn:Ep; [|eauto].
  wp_step. apply wp_pk_device; [eauto|]. intros v Hv Ho Ha. wp_step. apply wp_ret_or. destruct (pk_keyDetails _ _ _) as [details|] eqn:Ed; [|eauto].
  wp_step. apply wp_pubkey_Create; [intros e; wp_step; wp_step; eauto|]. simpl. intros Hn Hf _ _. unfold unsigned. cbn -[set_pubkeys].
  wp_step. unfold pk_emit. simpl. apply wp_Emit.
  - intros e. right. exists p, v. split_and!; try done. left. eauto.
  - intros _ _ _. wp_step. right. exists p, v. split_and!; try done. right. exists details. split_and!; try done. by eapply pk_keyDetails_built.
Qed.

Lemma pk_Revoke_spec b now st ownerID id requestID d :
  wp b (pk_Revoke now st ownerID id requestID) d (λ r d',
    (∃ e, r = Err e ∧ d' = d) ∨
    ∃ k, pubkeys d !! id = Some k ∧ PublicKey_OwnerID k = ownerID ∧ PublicKey_Status k = KeyStatusActive ∧
      recorded st (go "key.revoked") ownerID TargetTypePublicKey id tt (set_pubkeys <[id := revoked_key now k]> d) r d').
Proof.
  unfold pk_Revoke, pubkey_Get. wp_step; [wp_step; eauto|]. wp_step; [wp_step; eauto|]. wp_step. wp_step; [wp_step; eauto|].
  destruct (owned_pubkey ownerID id d) as [k|] eqn:Ek; [|wp_step; eauto]. pose proof Ek as [Hk Ho]%of_owner_Some.
  destruct (decide (PublicKey_Status k = KeyStatusActive)) as [Hs|Hs]; [rewrite (bool_decide_eq_true_2 _ Hs)|rewrite (bool_decide_eq_false_2 _ Hs)]; simpl negb;
    cbn iota; [|wp_step; eauto].
  destruct (pk_keyDetails _ _ _) as [details|] eqn:Ed; [|wp_step; eauto].
  wp_step. unfold pubkey_Revoke. apply wp_update_required; [intros; wp_step; eauto|]. rewrite Ek. unfold pk_emit. apply wp_Emit.
  - intros e. right. exists k. split_and!; try done. left. eauto.
  - intros _ _ _. right. exists k. split_and!; try done. right. exists details. split_and!; try done. by eapply pk_keyDetails_built.
Qed.
End specs.

(** ** The life of a public key *)

Section life.
Context {K : Type} `{HK : !Ssh K}.

(** A row that can be printed. *)
Definition prints (k : PublicKey) (line : gostring) : Prop :=
  AuthorizedKeyLineFrom (K:=K) (PublicKey_Algorithm k) (PublicKey_Blob k) (PublicKey_Comment k) = Ok line.

(** A row whose fingerprint is that of the key in its blob. *)
Definition genuine (k : PublicKey) : Prop :=
  ∃ pub : K, ParsePublicKey (PublicKey_Blob k) = Some pub ∧ PublicKey_Fingerprint k = FingerprintSHA256 pub.

(** The two ways the table of keys changes. *)
Inductive pk_move (t : gmap gostring PublicKey) : gmap gostring PublicKey → Prop :=
| pm_enroll k : t !! PublicKey_ID k = None → (∃ line, prints k line) → genuine k →
    (∀ j x, t !! j = Some x → PublicKey_OwnerID x = PublicKey_OwnerID k → PublicKey_Fingerprint x ≠ PublicKey_Fingerprint k) →
    pk_move t (<[PublicKey_ID k := k]> t)
| pm_revoke id k now : t !! id = Some k → pk_move t (<[id := revoked_key now k]> t).

(** Rows are under their ids, an owner's fingerprints differ, revoked keys included,
    every row prints, and its fingerprint is that of its blob. *)
Record pubkeys_ok (t : gmap gostring PublicKey) : Prop := MkPubkeysOk {
  po_keyed : keyed PublicKey_ID t;
  po_unique : ∀ i j x y, t !! i = Some x → t !! j = Some y → PublicKey_OwnerID x = PublicKey_OwnerID y →
    PublicKey_Fingerprint x = PublicKey_Fingerprint y → i = j;
  po_prints : ∀ i x, t !! i = Some x → ∃ line, prints x line;
  po_genuine : ∀ i x, t !! i = Some x → genuine x;
}.

(** What never changes of a row, and that revocation is final. *)
Definition pk_forward (k k' : PublicKey) : Prop :=
  PublicKey_ID k' = PublicKey_ID k ∧ PublicKey_OwnerID k' = PublicKey_OwnerID k ∧ PublicKey_DeviceID k' = PublicKey_DeviceID k ∧
  PublicKey_Algorithm k' = PublicKey_Algorithm k ∧ PublicKey_Blob k' = PublicKey_Blob k ∧ PublicKey_Comment k' = PublicKey_Comment k ∧
  PublicKey_Fingerprint k' = PublicKey_Fingerprint k ∧ (PublicKey_Status k' = PublicKey_Status k ∨ PublicKey_Status k' = KeyStatusRevoked).

Lemma pk_forward_refl k : pk_forward k k.
Proof. repeat split. by left. Qed.

Lemma pk_forward_trans a b c : pk_forward a b → pk_forward b c → pk_forward a c.
Proof.
  intros (?&?&?&?&?&?&?&Hs) (?&?&?&?&?&?&?&Hs'). split_and!; try congruence.
  destruct Hs' as [->| ->]; [done|by right].
Qed.

Lemma pk_move_forward t t' id k : pk_move t t' → t !! id = Some k → ∃ k', t' !! id = Some k' ∧ pk_forward k k'.
Proof.
  intros [n Hn _ _ _|i x now Hx] Hk.
  - exists k. rewrite lookup_insert_ne by congruence. split; [done|apply pk_forward_refl].
  - destruct (decide (i = id)) as [->|Hne].
    + rewrite Hx in Hk. injection Hk as ->. exists (revoked_key now k). rewrite lookup_insert_eq. split; [done|]. repeat split. by right.
    + exists k. rewrite lookup_insert_ne by done. split; [done|apply pk_forward_refl].
Qed.

Lemma pk_moves_forward t t' id k : steps pk_move t t' → t !! id = Some k → ∃ k', t' !! id = Some k' ∧ pk_forward k k'.
Proof.
  intros H. revert k. induction H as [|a b c Hab _ IH]; intros k Hk; [eauto using pk_forward_refl|].
  destruct (pk_move_forward _ _ _ _ Hab Hk) as (k1 & Hk1 & Hf). destruct (IH _ Hk1) as (k2 & Hk2 & Hf2). eauto using pk_forward_trans.
Qed.

Lemma pk_move_ok t t' : pk_move t t' → pubkeys_ok t → pubkeys_ok t'.
Proof.
  intros [k Hn Hp Hg Hf|id k now Hk] [Hkey Hu Hpr Hge].
  - split.
    + intros i x. destruct (decide (PublicKey_ID k = i)) as [<-|Hi]; [rewrite lookup_insert_eq; by intros [= <-]|].
      rewrite lookup_insert_ne by done. apply Hkey.
    + intros i j x y. destruct (decide (PublicKey_ID k = i)) as [<-|Hi], (decide (PublicKey_ID k = j)) as [<-|Hj];
        rewrite ?lookup_insert_eq, ?lookup_insert_ne by done; intros; simplify_eq; try done; [exfalso; by eapply Hf|exfalso; by eapply (Hf i x)|eauto].
    + intros i x. destruct (decide (PublicKey_ID k = i)) as [<-|Hi]; [rewrite lookup_insert_eq; by intros [= <-]|].
      rewrite lookup_insert_ne by done. apply Hpr.
    + intros i x. destruct (decide (PublicKey_ID k = i)) as [<-|Hi]; [rewrite lookup_insert_eq; by intros [= <-]|].
      rewrite lookup_insert_ne by done. apply Hge.
  - assert (∀ i x, <[id := revoked_key now k]> t !! i = Some x → ∃ y, t !! i = Some y ∧ PublicKey_ID x = PublicKey_ID y ∧
      PublicKey_OwnerID x = PublicKey_OwnerID y ∧ PublicKey_Fingerprint x = PublicKey_Fingerprint y ∧ PublicKey_Blob x = PublicKey_Blob y ∧ ∀ l, prints y l → prints x l) as Hold.
    { intros i x. destruct (decide (id = i)) as [<-|Hi]; [rewrite lookup_insert_eq; intros [= <-]; by exists k|].
      rewrite lookup_insert_ne by done. eauto 10. }
    split.
    + intros i x (y & Hy & -> & _)%Hold. by apply Hkey.
    + intros i j x y (x' & Hx & _ & -> & -> & _)%Hold (y' & Hy & _ & -> & -> & _)%Hold. by apply Hu.
    + intros i x (y & Hy & _ & _ & _ & _ & Hpy)%Hold. destruct (Hpr _ _ Hy) as [l Hl]. eauto.
    + intros i x (y & Hy & _ & _ & Ef & Eb & _)%Hold. unfold genuine. rewrite Ef, Eb. by apply (Hge i).
Qed.

Lemma pk_moves_ok t t' : steps pk_move t t' → pubkeys_ok t → pubkeys_ok t'.
Proof. intros H Hok. eapply steps_invariant; [|exact Hok|exact H]. intros a b Ha Hab. by eapply pk_move_ok. Qed.

(** One step of the system, as the table of keys sees it: a call of either service,
    or anything that leaves the table alone. *)
Inductive pk_step `{!UnicodeFold} {U : UnicodeData} (guard : option (option Matcher)) (c c' : conn) : Prop :=
| ps_Add now newID st ownerID deviceID raw requestID r :
    pk_Add (K:=K) now newID st ownerID deviceID raw requestID c = (r, c') → pk_step guard c c'
| ps_Revoke now st ownerID id requestID r : pk_Revoke now st ownerID id requestID c = (r, c') → pk_step guard c c'
| ps_device_Register now newID st ownerID name requestID r :
    dev_Register guard now newID st ownerID name requestID c = (r, c') → pk_step guard c c'
| ps_device_Revoke now st ownerID id requestID r : dev_Revoke now st ownerID id requestID c = (r, c') → pk_step guard c c'
| ps_write id now ownerID r : pubkey_Revoke ownerID id now c = (r, c') → pk_step guard c c'
| ps_other : pubkeys (data c') = pubkeys (data c) → pk_step guard c c'.

Context `{!SshLaws K}.

(** Every key the parser accepts can be printed, whatever row it is stored in. *)
Lemma enrolled_prints raw p newID ownerID deviceID now : Parse (K:=K) raw = Ok p → ∃ line, prints (enrolled_key newID ownerID deviceID p now) line.
Proof. intros Hp. destruct (Parse_prints _ _ Hp) as [line Hl]. exists line. exact Hl. Qed.

Lemma enrolled_genuine raw p newID ownerID deviceID now : Parse (K:=K) raw = Ok p → genuine (enrolled_key newID ownerID deviceID p now).
Proof.
  intros (pub & comment & Hf)%Parse_ok. apply finalize_ok in Hf as (bits & _ & _ & ->). exists pub. simpl. by rewrite ParsePublicKey_Marshal.
Qed.

Lemma pk_step_moves `{!UnicodeFold} {U : UnicodeData} guard c c' : pk_step guard c c' → steps pk_move (pubkeys (data c)) (pubkeys (data c')).
Proof.
  intros [now newID st ownerID deviceID raw requestID r E|now st ownerID id requestID r E|now newID st ownerID name requestID r E
    |now st ownerID id requestID r E|id now ownerID r E|E].
  - apply (wp_run false _ _ _ _ _ _ (Add_spec false now newID st ownerID deviceID raw requestID _) eq_refl) in E; [|done].
    destruct E as [(e & _ & ->)|(p & v & Hp & _ & _ & _ & Hn & Hf & Hr)]; [constructor|].
    assert (pk_move (pubkeys (data c)) (pubkeys (set_pubkeys <[newID := enrolled_key newID ownerID (Device_ID v) p now]> (data c)))) as Hm
      by (apply (pm_enroll _ (enrolled_key newID ownerID (Device_ID v) p now)); [done|by eapply enrolled_prints|by eapply enrolled_genuine|by apply same_fingerprint_nil]).
    destruct Hr as [(e & _ & ->)|(det & _ & _ & ->)]; by apply steps_one.
  - apply (wp_run false _ _ _ _ _ _ (pk_Revoke_spec false now st ownerID id requestID _) eq_refl) in E; [|done].
    destruct E as [(e & _ & ->)|(k & Hk & _ & _ & [(e & _ & ->)|(det & _ & _ & ->)])]; [constructor| |]; apply steps_one; by apply pm_revoke.
  - apply (wp_run false _ _ _ _ _ _ (Register_spec guard false now newID st ownerID name requestID _) eq_refl) in E; [|done].
    destruct E as [(e & _ & ->)|(_ & _ & _ & _ & [(e & _ & ->)|(det & _ & _ & ->)])]; constructor.
  - apply (wp_run false _ _ _ _ _ _ (dev_Revoke_spec false now st ownerID id requestID _) eq_refl) in E; [|done].
    destruct E as [(e & _ & ->)|(v & _ & _ & _ & [(e & _ & ->)|(det & _ & _ & ->)])]; constructor.
  - apply (wp_run false _ (data c) (λ _ d', d' = data c ∨ ∃ k, pubkeys (data c) !! id = Some k ∧ d' = set_pubkeys <[id := revoked_key now k]> (data c)) _ _ _) in E;
      [|unfold pubkey_Revoke; apply wp_update_required; [eauto|];
        destruct (owned_pubkey ownerID id (data c)) as [k|] eqn:Ek; [apply of_owner_Some in Ek as [? _]; eauto|eauto]|done|done].
    destruct E as [->|(k & Hk & ->)]; [constructor|]. apply steps_one. by apply pm_revoke.
  - rewrite E. constructor.
Qed.

Lemma pk_steps_moves `{!UnicodeFold} {U : UnicodeData} guard c c' : steps (pk_step guard) c c' → steps pk_move (pubkeys (data c)) (pubkeys (data c')).
Proof. apply (steps_map _ pk_move (λ c, pubkeys (data c))). apply pk_step_moves. Qed.
End life.
