(* ===== verification/Publish.v ===== *)
(** * Publishing

    [internal/service/publish]: the authorized_keys document of a handle and one of its
    key sets.  What it asks of the access-key service is the class [Verifier], with its
    laws [VerifierLaws]; the service of [AccessKey] is an instance.  The theorems are
    proved against the class. *)

From stdpp Require Import sorting.
From S2P Require Import Prelude DomainErrors GoLib Domain Keys Blocklist Sha256 Tokens Database StoreLogic AuditLog KeyRepos AccessKey KeySets Handles DeviceKeys.

Open Scope Z_scope.
Open Scope stm_scope.

(** ** The interface to the access keys *)

(** src/internal/service/publish/publish.go:27-43, Verifier *)
Class Verifier (V : Type) := {
  v_Verify : V → gostring → gostring → gostring → stM conn AccessKey;
}.

(** What publishing relies on: verifying only reads; a success means the token is
    accepted, and on a store that answers a refusal means it is not and wraps the one
    negative verdict. *)
Class VerifierLaws (V : Type) `{!Verifier V} := {
  v_accepts : V → gostring → gostring → gostring → db → Prop;
  v_spec b v ownerID setID presented d : wp b (v_Verify v ownerID setID presented) d (λ r d', d' = d ∧
    match r with
    | Ok _ => v_accepts v ownerID setID presented d
    | Err e => b = true → ¬ v_accepts v ownerID setID presented d ∧ errors_is e ErrNotFound = true
    end);
}.

(** ** The service *)

(** src/internal/service/publish/publish.go:16-20, ErrNotFound *)
Definition publish_ErrNotFound : goerror := errors_new "publish: not found".

(** src/internal/service/publish/publish.go:59-72, Result *)
Record PublishResult := MkPublishResult { PR_Body : bytes; PR_Protected : bool }.

Section publish.
Context {K : Type} `{!Ssh K} {V : Type} `{!Verifier V}.

(** src/internal/service/publish/publish.go:362-374, notFoundOr *)
Definition notFoundOr (e : goerror) (context : string) : goerror :=
  if errors_is e ErrNotFound then publish_ErrNotFound else errorf context [e].

(** src/internal/service/publish/publish.go:329-358, render (the loop) *)
Fixpoint render_loop (ownerID : gostring) (sorted : list PublicKey) : result bytes :=
  match sorted with
  | [] => Ok []
  | k :: rest =>
      if negb (bool_decide (PublicKey_OwnerID k = ownerID)) then Err (errors_new "publish: key crosses owner boundary") else
      if negb (bool_decide (PublicKey_Status k = KeyStatusActive)) then Err (errors_new "publish: key is not active") else
      match AuthorizedKeyLineFrom (K:=K) (PublicKey_Algorithm k) (PublicKey_Blob k) (PublicKey_Comment k) with
      | Err e => Err (errorf "publish: render key" [e])
      | Ok line => match render_loop ownerID rest with Ok body => Ok (line ++ body) | Err e => Err e end
      end
  end.

(** src/internal/service/publish/publish.go:315-360, render
    (sort.Slice by id; the ids of rows are distinct, so any sort gives this order) *)
Definition render (ownerID : gostring) (active : list PublicKey) : result bytes :=
  render_loop ownerID (ordered_by by_key_id active).

(** src/internal/service/publish/publish.go:237-274, Service.resolveOwner *)
Definition resolveOwner (handle : gostring) : stM conn gostring :=
  try! r := handle_GetByName handle in
  match r with
  | Err e => st_fail (notFoundOr e "publish: get handle")
  | Ok h =>
      if negb (bool_decide (Handle_State h = NameStateActive)) then st_fail publish_ErrNotFound else
      try! r := owner_Get (Handle_OwnerID h) in
      match r with
      | Err e => st_fail (notFoundOr e "publish: get owner")
      | Ok o =>
          if negb (bool_decide (Owner_Status o = OwnerStatusActive)) || negb (bool_decide (Owner_DeletedAt o = None))
          then st_fail publish_ErrNotFound else st_ret (Owner_ID o)
      end
  end.

(** src/internal/service/publish/publish.go:276-313, Service.resolveSet *)
Definition resolveSet (ownerID name : gostring) : stM conn KeySet :=
  try! r := (if bool_decide (name = []) then keyset_GetDefault ownerID else keyset_GetByName ownerID name) in
  match r with
  | Err e => st_fail (notFoundOr e "publish: get key set")
  | Ok set => if negb (bool_decide (KeySet_State set = NameStateActive)) then st_fail publish_ErrNotFound else st_ret set
  end.

(** src/internal/service/publish/publish.go:170-235, Service.resolveAccess *)
Definition resolveAccess (verifier : option V) (ownerID : gostring) (set : KeySet) (presented : gostring) : stM conn bool :=
  if bool_decide (KeySet_Visibility set = VisibilityPublic) then st_ret false else
  if negb (bool_decide (KeySet_Visibility set = VisibilityProtected)) then st_fail publish_ErrNotFound else
  match verifier with
  | None => st_fail publish_ErrNotFound
  | Some v =>
      try! r := v_Verify v ownerID (KeySet_ID set) presented in
      match r with
      | Err e => if errors_is e ErrNotFound then st_fail publish_ErrNotFound else st_fail (errorf "publish: verify access key" [e])
      | Ok _ => st_ret true
      end
  end.

(** src/internal/service/publish/publish.go:111-168, Service.Resolve *)
Definition Resolve (verifier : option V) (handle setName presented : gostring) : stM conn PublishResult :=
  if bool_decide (ValidateHandle handle ≠ None) then st_fail publish_ErrNotFound else
  if negb (bool_decide (setName = [])) && bool_decide (ValidateSetName setName ≠ None) then st_fail publish_ErrNotFound else
  let! ownerID := resolveOwner handle in
  let! set := resolveSet ownerID setName in
  let! protected := resolveAccess verifier ownerID set presented in
  try! r := pubkey_ListActiveByKeySet ownerID (KeySet_ID set) in
  match r with
  | Err e => st_fail (errorf "publish: list active keys" [e])
  | Ok active =>
      match render ownerID active with
      | Err e => st_fail e
      | Ok body => st_ret (MkPublishResult body protected)
      end
  end.
End publish.

(** ** What may be published *)

(** The owner a handle speaks for. *)
Definition speaks_for (handle : gostring) (d : db) (o : Owner) : Prop :=
  ∃ i r, handles d !! i = Some r ∧ row_name r = handle ∧ row_state r = NameStateActive ∧ owners d !! row_owner r = Some o ∧
    Owner_Status o = OwnerStatusActive ∧ Owner_DeletedAt o = None.

(** The set a name means, none standing for the default. *)
Definition means_set (ownerID setName : gostring) (d : db) (set : KeySet) : Prop :=
  ∃ i, keysets d !! i = Some set ∧ KeySet_OwnerID set = ownerID ∧ KeySet_State set = NameStateActive ∧
    if decide (setName = []) then KeySet_IsDefault set = true else KeySet_Name set = setName.

(** The keys of a set that are in force. *)
Definition in_force (ownerID setID : gostring) (d : db) (k : PublicKey) : Prop :=
  (∃ i, pubkeys d !! i = Some k) ∧ PublicKey_OwnerID k = ownerID ∧ joined setID d k ∧ PublicKey_Status k = KeyStatusActive.

(** The document of a set: one line for every key in force, in the order of their ids,
    and nothing else. *)
Definition document {K} `{!Ssh K} (ownerID setID : gostring) (d : db) (body : bytes) : Prop :=
  ∃ ks lines, (∀ k, k ∈ ks ↔ in_force ownerID setID d k) ∧ StronglySorted (λ a b, by_key_id a b = true) ks ∧ NoDup (PublicKey_ID <$> ks) ∧
    Forall2 (prints (K:=K)) ks lines ∧ body = mjoin lines.

(** Who may read what: the handle speaks for an active owner, the name means an active
    set of theirs, and the set is public, or protected and the token accepted for it. *)
Record entitled {V} `{!Verifier V, !VerifierLaws V} (verifier : option V) (handle setName presented : gostring) (d : db) (o : Owner) (set : KeySet)
    (protected : bool) : Prop := MkEntitled {
  ent_handle : ValidateHandle handle = None;
  ent_name : setName = [] ∨ ValidateSetName setName = None;
  ent_owner : speaks_for handle d o;
  ent_set : means_set (Owner_ID o) setName d set;
  ent_access : KeySet_Visibility set = VisibilityPublic ∧ protected = false ∨
    KeySet_Visibility set = VisibilityProtected ∧ protected = true ∧
      ∃ v, verifier = Some v ∧ v_accepts v (Owner_ID o) (KeySet_ID set) presented d;
}.

(** The state the services keep: see [handles_never_shared], [catalogue_invariant] and
    [pk_moves_ok]. *)
Record well_kept {K} `{!Ssh K} (d : db) : Prop := MkWellKept {
  wk_handles : handles_ok (handles d);
  wk_sets : sets_ok (keysets d);
  wk_keys : pubkeys_ok (K:=K) (pubkeys d);
}.

Section specs.
Context {K : Type} `{HK : !Ssh K} {V : Type} `{HV : !Verifier V} `{HL : !VerifierLaws V}.

Lemma speaks_for_unique handle d o o' : handles_ok (handles d) → speaks_for handle d o → speaks_for handle d o' → o = o'.
Proof.
  intros [_ Ha] (i & r & Hr & Hn & _ & Ho & _) (j & r' & Hr' & Hn' & _ & Ho' & _).
  destruct (decide (i = j)) as [->|Hij]; [congruence|]. destruct (Ha _ _ _ _ Hr Hr' Hij) as [Hname _]. unfold row_name in *. congruence.
Qed.

Lemma means_set_unique ownerID name d s s' : sets_ok (keysets d) → means_set ownerID name d s → means_set ownerID name d s' → s = s'.
Proof.
  intros [[Hk Hn Hd] _] (i & Hs & Ho & _ & Hm) (j & Hs' & Ho' & _ & Hm'). assert (i = j) as ->; [|congruence].
  case_decide; [apply (Hd i j s s')|apply (Hn i j s s')]; congruence.
Qed.

(** A step of the resolution: what it finds, and the one verdict when there is nothing
    to be found. *)
Definition resolves {A} (b : bool) (m : stM conn A) (d : db) (P : A → Prop) : Prop :=
  wp b m d (λ r d', d' = d ∧ match r with Ok a => P a | Err e => b = true → e = publish_ErrNotFound ∧ ∀ a, ¬ P a end).

Lemma head_filter_Some {A} (P : A → Prop) `{!∀ x, Decision (P x)} l a : head (filter P l) = Some a → a ∈ l ∧ P a.
Proof. intros Hh. assert (a ∈ filter P l) as [? ?]%list_elem_of_filter; [|done]. destruct (filter P l); [done|]. injection Hh as ->. left. Qed.

Lemma head_filter_None {A} (P : A → Prop) `{!∀ x, Decision (P x)} l a : head (filter P l) = None → a ∈ l → ¬ P a.
Proof. intros Hh Hin HP. assert (a ∈ filter P l) as Ha by by apply list_elem_of_filter. destruct (filter P l); [by apply not_elem_of_nil in Ha|done]. Qed.

Lemma resolveOwner_spec b handle d : handles_ok (handles d) →
  resolves b (resolveOwner handle) d (λ oid, ∃ o, speaks_for handle d o ∧ oid = Owner_ID o).
Proof.
  intros Hok. unfold resolves, resolveOwner, handle_GetByName, owner_Get. wp_step. wp_step; [wp_step; split; [done|by intros ->]|].
  destruct (head (named handle d)) as [r|] eqn:Eh; simpl.
  2:{ wp_step. split; [done|]. intros _. split; [done|]. intros _ (o & (i & r & Hr & Hn & _) & _).
      eapply (head_filter_None _ _ r Eh); [apply elem_of_rows; eauto|done]. }
  apply head_filter_Some in Eh as [ [i Hi]%elem_of_rows Hn].
  assert (∀ o, speaks_for handle d o → row_state r = NameStateActive ∧ owners d !! row_owner r = Some o ∧ Owner_Status o = OwnerStatusActive ∧ Owner_DeletedAt o = None) as Honly.
  { intros o (j & r' & Hr' & Hn' & Hrest). destruct (decide (i = j)) as [->|Hij]; [|destruct (ho_apart _ Hok _ _ _ _ Hi Hr' Hij) as [Hne _]; unfold row_name in *; congruence].
    rewrite Hi in Hr'. by injection Hr' as <-. }
  destruct (decide (Handle_State (hr_handle r) = NameStateActive)) as [Ha|Ha]; [rewrite (bool_decide_eq_true_2 _ Ha)|rewrite (bool_decide_eq_false_2 _ Ha)];
    simpl negb; cbn iota.
  2:{ wp_step. split; [done|]. intros _. split; [done|]. by intros _ (o & (? & _)%Honly & _). }
  wp_step. wp_step; [wp_step; split; [done|by intros ->]|]. destruct (owners d !! Handle_OwnerID (hr_handle r)) as [o|] eqn:Eo.
  2:{ wp_step. split; [done|]. intros _. split; [done|]. intros _ (o & (_ & Ho & _)%Honly & _). unfold row_owner in Ho. congruence. }
  destruct (decide (Owner_Status o = OwnerStatusActive)) as [Hs|Hs]; [rewrite (bool_decide_eq_true_2 _ Hs)|rewrite (bool_decide_eq_false_2 _ Hs)];
    (destruct (decide (Owner_DeletedAt o = None)) as [Hd|Hd]; [rewrite (bool_decide_eq_true_2 _ Hd)|rewrite (bool_decide_eq_false_2 _ Hd)]);
    simpl; cbn iota; wp_step; (split; [done|]).
  - exists o. split; [|done]. exists i, r. done.
  - intros _. split; [done|]. intros _ (o' & (_ & Ho & _ & ?)%Honly & _). unfold row_owner in Ho. congruence.
  - intros _. split; [done|]. intros _ (o' & (_ & Ho & ? & _)%Honly & _). unfold row_owner in Ho. congruence.
  - intros _. split; [done|]. intros _ (o' & (_ & Ho & ? & _)%Honly & _). unfold row_owner in Ho. congruence.
Qed.

Lemma resolveSet_spec b ownerID name d : sets_ok (keysets d) → resolves b (resolveSet ownerID name) d (means_set ownerID name d).
Proof.
  intros Hok. unfold resolves, resolveSet, keyset_GetDefault, keyset_GetByName. wp_step.
  assert (∃ (P : KeySet → Prop) (D : ∀ s, Decision (P s)),
    (∀ s, P s ↔ KeySet_OwnerID s = ownerID ∧ if decide (name = []) then KeySet_IsDefault s = true else KeySet_Name s = name) ∧
    (if bool_decide (name = []) then query_row (λ d, head (default_set ownerID d)) else query_row (λ d, head (named_set ownerID name d))) =
      query_row (λ d, head (filter P (rows (keysets d))))) as (P & D & HP & ->).
  { destruct (decide (name = [])) as [Hn|Hn]; [rewrite (bool_decide_eq_true_2 _ Hn)|rewrite (bool_decide_eq_false_2 _ Hn)].
    - exists (λ s, KeySet_OwnerID s = ownerID ∧ KeySet_IsDefault s = true), _. split; [|reflexivity]. done.
    - exists (λ s, KeySet_OwnerID s = ownerID ∧ KeySet_Name s = name), _. split; [|reflexivity]. done. }
  wp_step; [wp_step; split; [done|by intros ->]|].
  destruct (head (filter P _)) as [set|] eqn:Eh.
  2:{ wp_step. split; [done|]. intros _. split; [done|]. intros s (i & Hs & Ho & _ & Hm). eapply (head_filter_None P _ s Eh); [apply elem_of_rows; eauto|by apply HP]. }
  apply head_filter_Some in Eh as [ [i Hi]%elem_of_rows [Ho Hm]%HP].
  destruct (decide (KeySet_State set = NameStateActive)) as [Ha|Ha]; [rewrite (bool_decide_eq_true_2 _ Ha)|rewrite (bool_decide_eq_false_2 _ Ha)];
    simpl negb; cbn iota; wp_step; (split; [done|]).
  - exists i. done.
  - intros _. split; [done|]. intros s Hs. apply Ha. destruct Hs as (j & Hj & Ho' & Ha' & Hm'). assert (set = s) as ->; [|done].
    destruct Hok as [[_ Hn Hd] _]. assert (i = j) as ->; [|congruence]. case_decide; [apply (Hd i j set s)|apply (Hn i j set s)]; congruence.
Qed.

Definition gate (verifier : option V) (ownerID : gostring) (set : KeySet) (presented : gostring) (d : db) (protected : bool) : Prop :=
  KeySet_Visibility set = VisibilityPublic ∧ protected = false ∨
  KeySet_Visibility set = VisibilityProtected ∧ protected = true ∧ ∃ v, verifier = Some v ∧ v_accepts v ownerID (KeySet_ID set) presented d.

Lemma resolveAccess_spec b verifier ownerID set presented d :
  resolves b (resolveAccess verifier ownerID set presented) d (gate verifier ownerID set presented d).
Proof.
  unfold resolves, resolveAccess, gate. destruct (KeySet_Visibility set) as [| |x] eqn:Ev.
  - rewrite bool_decide_eq_true_2 by done. wp_step. split; [done|]. by left.
  - rewrite (bool_decide_eq_false_2 (VisibilityProtected = VisibilityPublic)), (bool_decide_eq_true_2 (VisibilityProtected = VisibilityProtected)) by done. simpl negb. cbn iota.
    destruct verifier as [v|]; [|wp_step; split; [done|]; intros _; split; [done|]; by intros a [ [? _]|(_ & _ & v & ? & _)]].
    wp_step. eapply wp_mono; [apply v_spec|]. intros [k|e] d' [-> Hv]; simpl.
    + wp_step. split; [done|]. right. eauto.
    + destruct b.
      * destruct (Hv eq_refl) as [Hno ->]. wp_step. split; [done|]. intros _. split; [done|]. intros a [ [? _]|(_ & _ & v' & [= <-] & ?)]; [discriminate|by apply Hno].
      * destruct (errors_is e ErrNotFound); wp_step; by split.
  - rewrite !bool_decide_eq_false_2 by done. simpl negb. cbn iota. wp_step. split; [done|]. intros _. split; [done|]. by intros a [ [? _]|(? & _)].
Qed.

Lemma render_loop_ok ownerID ks body : render_loop (K:=K) ownerID ks = Ok body → ∃ lines, Forall2 prints ks lines ∧ body = mjoin lines.
Proof.
  revert body. induction ks as [|k ks IH]; intros body; simpl; [intros [= <-]; exists []; split; [constructor|done]|].
  do 2 (case_bool_decide; [|done]). simpl. destruct (AuthorizedKeyLineFrom _ _ _) as [line|] eqn:El; [|done].
  destruct (render_loop ownerID ks) as [rest|]; [|done]. intros [= <-]. destruct (IH _ eq_refl) as (lines & Hl & ->).
  exists (line :: lines). split; [by constructor|done].
Qed.

Lemma render_loop_total ownerID ks :
  Forall (λ k, PublicKey_OwnerID k = ownerID ∧ PublicKey_Status k = KeyStatusActive ∧ ∃ line, prints (K:=K) k line) ks → ∃ body, render_loop (K:=K) ownerID ks = Ok body.
Proof.
  induction 1 as [|k ks (Ho & Hs & line & Hl) _ [body IH]]; [by eexists|]. simpl. rewrite !bool_decide_eq_true_2 by done. simpl.
  unfold prints in Hl. rewrite Hl, IH. by eexists.
Qed.

Lemma by_key_id_order t : keyed PublicKey_ID t → ∀ l, (∀ k, k ∈ l → ∃ i, t !! i = Some k) → total_order by_key_id l.
Proof.
  intros Hk l Hl. split.
  - intros a b c. apply bytes_le_trans.
  - intros a b. unfold by_key_id. destruct (bytes_le (PublicKey_ID a) (PublicKey_ID b)) eqn:E; [by left|right; by apply bytes_le_total].
  - intros a b [i Ha]%Hl [j Hb]%Hl Hab Hba. assert (PublicKey_ID a = PublicKey_ID b) as E by by apply bytes_le_antisym.
    rewrite (Hk _ _ Ha), (Hk _ _ Hb) in E. congruence.
Qed.

Definition listed (ownerID setID : gostring) (d : db) : list PublicKey :=
  filter (λ k, PublicKey_OwnerID k = ownerID ∧ is_Some (members d !! (setID, PublicKey_ID k)) ∧ PublicKey_Status k = KeyStatusActive) (rows (pubkeys d)).

Lemma elem_of_listed ownerID setID d k : k ∈ listed ownerID setID d ↔ in_force ownerID setID d k.
Proof. unfold listed, in_force, joined. rewrite list_elem_of_filter, elem_of_rows. tauto. Qed.

(** Rendering a well-kept table prints exactly the document. *)
Lemma render_document ownerID setID d : pubkeys_ok (K:=K) (pubkeys d) →
  ∃ body, render (K:=K) ownerID (ordered_by by_key_id (listed ownerID setID d)) = Ok body ∧ document (K:=K) ownerID setID d body.
Proof.
  intros Hok. unfold render. set (ks := ordered_by by_key_id (ordered_by by_key_id (listed ownerID setID d))).
  assert (∀ k, k ∈ ks ↔ in_force ownerID setID d k) as Hks by (intros k; unfold ks; by rewrite !elem_of_ordered, elem_of_listed).
  destruct (render_loop_total ownerID ks) as [body Hb].
  { apply Forall_forall. intros k ([i Hi] & Ho & _ & Hs)%Hks. split_and!; [done|done|]. by eapply po_prints. }
  exists body. split; [done|]. destruct (render_loop_ok _ _ _ Hb) as (lines & Hl & ->). exists ks, lines. split_and!; try done.
  - apply (ordered_sorted by_key_id ks). apply (by_key_id_order (pubkeys d)); [apply Hok|]. by intros k [? _]%Hks.
  - apply (NoDup_fmap_2_strong PublicKey_ID).
    + intros a b ([i Ha] & _)%Hks ([j Hb'] & _)%Hks E. rewrite (po_keyed _ Hok _ _ Ha), (po_keyed _ Hok _ _ Hb') in E. congruence.
    + unfold ks, ordered_by. rewrite !merge_sort_Permutation. apply NoDup_filter. eapply NoDup_fmap_1, keyed_NoDup, Hok.
Qed.

Lemma Resolve_spec b verifier handle setName presented d : well_kept (K:=K) d →
  wp b (Resolve (K:=K) verifier handle setName presented) d (λ r d', d' = d ∧
    match r with
    | Ok res => ∃ o set, entitled verifier handle setName presented d o set (PR_Protected res) ∧ document (K:=K) (Owner_ID o) (KeySet_ID set) d (PR_Body res)
    | Err e => b = true → e = publish_ErrNotFound ∧ ∀ o set protected, ¬ entitled verifier handle setName presented d o set protected
    end).
Proof.
  intros [Hh Hs Hk]. unfold Resolve. wp_step; [wp_step; split; [done|]; intros _; split; [done|]; by intros o set p [? _]|].
  assert (∀ A (x y : stM conn A) Q, ((setName = [] ∨ ValidateSetName setName = None) → wp b y d Q) →
    (¬ (setName = [] ∨ ValidateSetName setName = None) → wp b x d Q) →
    wp b (if negb (bool_decide (setName = [])) && bool_decide (ValidateSetName setName ≠ None) then x else y) d Q) as Hname.
  { intros A x y Q Hy Hx. case_bool_decide; simpl; [auto|]. case_bool_decide as Hv; [apply Hx; by intros [?|?]|].
    apply Hy. by right. }
  apply Hname; clear Hname; intros Hname; [|wp_step; split; [done|]; intros _; split; [done|]; by intros o set p [_ ? _]].
  wp_step. eapply wp_mono; [by apply resolveOwner_spec|]. intros [oid|e] d' [-> Ho].
  2:{ split; [done|]. intros Hb. destruct (Ho Hb) as [-> Hno]. split; [done|]. intros o set p Hent. eapply Hno. exists o. split; [apply Hent|done]. }
  destruct Ho as (o & Ho & ->). wp_step. eapply wp_mono; [by apply resolveSet_spec|]. intros [set|e] d' [-> Hset].
  2:{ split; [done|]. intros Hb. destruct (Hset Hb) as [-> Hno]. split; [done|]. intros o' set p Hent. eapply (Hno set).
      rewrite (speaks_for_unique _ _ _ _ Hh Ho (ent_owner _ _ _ _ _ _ _ _ Hent)). apply Hent. }
  wp_step. eapply wp_mono; [apply resolveAccess_spec|]. intros [p|e] d' [-> Hgate].
  2:{ split; [done|]. intros Hb. destruct (Hgate Hb) as [-> Hno]. split; [done|]. intros o' set' p Hent. eapply (Hno p).
      pose proof (speaks_for_unique _ _ _ _ Hh Ho (ent_owner _ _ _ _ _ _ _ _ Hent)) as <-.
      rewrite (means_set_unique _ _ _ _ _ Hs Hset (ent_set _ _ _ _ _ _ _ _ Hent)). apply (ent_access _ _ _ _ _ _ _ _ Hent). }
  unfold pubkey_ListActiveByKeySet. wp_step. wp_step; [wp_step; split; [done|by intros ->]|].
  destruct (render_document (Owner_ID o) (KeySet_ID set) d Hk) as (body & Hb & Hdoc). unfold listed in Hb. rewrite Hb.
  wp_step. split; [done|]. exists o, set. split; [|done]. split; [|done..].
  by destruct (ValidateHandle handle); [exfalso; auto|].
Qed.
End specs.

(** ** The access-key service as verifier *)

(** A service and a reading of its clock. *)
#[export] Instance ak_verifier : Verifier (ak_service * time) :=
  {| v_Verify p ownerID setID presented := ak_Verify p.1 p.2 ownerID setID presented |}.

Lemma Verify_refusal s now ownerID setID presented d :
  wp true (ak_Verify s now ownerID setID presented) d (λ r _, match r with Ok _ => True | Err e => errors_is e ErrNotFound = true end).
Proof.
  unfold ak_Verify, accesskey_Get. destruct (_ || _); [by wp_step|]. destruct (parseToken presented) as [[id secret]|]; [|by wp_step].
  wp_step. wp_step; [done|]. destruct (owned_key ownerID id d) as [k|]; [|by wp_step].
  do 3 (match goal with |- wp _ (if ?x then _ else _) _ _ => destruct x; [by wp_step|] end). by wp_step.
Qed.

#[export] Instance ak_verifier_laws : VerifierLaws (ak_service * time).
Proof.
  refine {| v_accepts p ownerID setID presented d := ∃ k, accepts p.1 p.2 ownerID setID presented d k |}.
  intros b [s now] ownerID setID presented d. simpl. destruct b.
  - intros c r c' Hd Hf E. destruct (Verify_spec true s now ownerID setID presented d _ _ _ Hd Hf E) as [[-> Hr] Hc].
    destruct (Verify_refusal s now ownerID setID presented d _ _ _ Hd Hf E) as [He _]. split; [|done]. split; [done|].
    destruct r as [k|e]; [by exists k|]. intros _. split; [|done]. intros [k Hk]. by apply (Hr eq_refl k).
  - eapply wp_mono; [apply Verify_spec|]. intros r d' [-> Hr]. split; [done|]. destruct r as [k|e]; [by exists k|done].
Defined.

(** ** Claims *)

Section claims.
Context {K : Type} `{HK : !Ssh K}.

(** Everyone entitled is served, when the store answers. *)
Lemma Resolve_served {V} `{!Verifier V, !VerifierLaws V} verifier handle setName presented c o set protected : well_kept (K:=K) (data c) → faults c = [] →
  entitled verifier handle setName presented (data c) o set protected →
  ∃ body, fst (Resolve (K:=K) (V:=V) verifier handle setName presented c) = Ok (MkPublishResult body protected) ∧
    document (K:=K) (Owner_ID o) (KeySet_ID set) (data c) body.
Proof.
  intros Hk Hf Hent. destruct (Resolve _ _ _ _ c) as [r c'] eqn:E.
  destruct (wp_run _ _ _ _ _ _ _ (Resolve_spec true verifier handle setName presented _ Hk) eq_refl (λ _, Hf) E) as [_ Hc].
  destruct r as [[body p']|e]; [|by destruct (Hc eq_refl) as [_ Hno]; destruct (Hno _ _ _ Hent)].
  destruct Hc as (o' & set' & Hent' & Hdoc).
  pose proof (speaks_for_unique _ _ _ _ (wk_handles _ Hk) (ent_owner _ _ _ _ _ _ _ _ Hent) (ent_owner _ _ _ _ _ _ _ _ Hent')) as <-.
  pose proof (means_set_unique _ _ _ _ _ (wk_sets _ Hk) (ent_set _ _ _ _ _ _ _ _ Hent) (ent_set _ _ _ _ _ _ _ _ Hent')) as <-.
  exists body. split; [|done]. simpl in *. do 2 f_equal.
  destruct (ent_access _ _ _ _ _ _ _ _ Hent) as [ [Hv ->]|(Hv & -> & _)], (ent_access _ _ _ _ _ _ _ _ Hent') as [ [Hv' ->]|(Hv' & -> & _)]; congruence.
Qed.

(** The line of a key in force is in the document. *)
Lemma document_line ownerID setID d body k : document (K:=K) ownerID setID d body → in_force ownerID setID d k →
  ∃ line pre post, prints (K:=K) k line ∧ body = pre ++ line ++ post.
Proof.
  intros (ks & lines & Hks & _ & _ & Hl & ->) Hk. apply Hks, list_elem_of_lookup_1 in Hk as [i Hi].
  destruct (Forall2_lookup_l _ _ _ _ _ Hl Hi) as (line & Hline & Hp). exists line, (mjoin (take i lines)), (mjoin (drop (S i) lines)). split; [done|].
  rewrite <- (take_drop_middle _ _ _ Hline) at 1. by rewrite join_app.
Qed.

(** Publishing is exact, and has one negative answer.  Whoever asks for whatever
    handle, set and token, nothing is written; a document is only served to someone
    entitled to it - the handle is active and of an active owner, the set is active and
    theirs, and public or opened by an accepted token - and it is one line for every key
    of the set that is in force, in the order of their ids.  When the store answers,
    everyone entitled is served, and everyone else gets the same error whatever the
    reason. *)
Theorem Resolve_exact {V} `{!Verifier V, !VerifierLaws V} verifier handle setName presented c r c' : well_kept (K:=K) (data c) →
  Resolve (K:=K) (V:=V) verifier handle setName presented c = (r, c') →
  data c' = data c ∧
  (∀ res, r = Ok res → ∃ o set, entitled verifier handle setName presented (data c) o set (PR_Protected res) ∧
     document (K:=K) (Owner_ID o) (KeySet_ID set) (data c) (PR_Body res)) ∧
  (faults c = [] → ∀ o set protected, entitled verifier handle setName presented (data c) o set protected →
     ∃ body, r = Ok (MkPublishResult body protected) ∧ document (K:=K) (Owner_ID o) (KeySet_ID set) (data c) body) ∧
  (faults c = [] → (∀ o set protected, ¬ entitled verifier handle setName presented (data c) o set protected) → r = Err publish_ErrNotFound).
Proof.
  intros Hk E. split_and!.
  - by destruct (wp_run _ _ _ _ _ _ _ (Resolve_spec false verifier handle setName presented _ Hk) eq_refl ltac:(done) E).
  - intros res ->. by destruct (wp_run _ _ _ _ _ _ _ (Resolve_spec false verifier handle setName presented _ Hk) eq_refl ltac:(done) E).
  - intros Hf o set p Hent. destruct (Resolve_served _ _ _ _ _ _ _ _ Hk Hf Hent) as (body & Hr & Hdoc). rewrite E in Hr. eauto.
  - intros Hf Hno. destruct (wp_run _ _ _ _ _ _ _ (Resolve_spec true verifier handle setName presented _ Hk) eq_refl (λ _, Hf) E) as [_ Hc].
    destruct r as [res|e]; [|by destruct (Hc eq_refl) as [-> _]]. destruct Hc as (o & set & Hent & _). by destruct (Hno _ _ _ Hent).
Qed.

(** C15. A revoked key is never served again.  Once [Revoke] of a public key has
    succeeded, whatever calls follow - enrolling the same key again included - no
    document of its owner holds a line of a key with its wire form. *)
Theorem revoked_key_never_published `{!SshLaws K} `{!UnicodeFold} {U : UnicodeData} {V} `{!Verifier V, !VerifierLaws V}
    guard now st ownerID id requestID c c1 c2 k : pubkeys_ok (K:=K) (pubkeys (data c)) → pubkeys (data c) !! id = Some k →
  pk_Revoke now st ownerID id requestID c = (Ok tt, c1) → steps (pk_step (K:=K) guard) c1 c2 →
  handles_ok (handles (data c2)) → sets_ok (keysets (data c2)) →
  ∀ verifier handle setName presented res c3, Resolve (K:=K) (V:=V) verifier handle setName presented c2 = (Ok res, c3) →
  ∃ o ks lines, speaks_for handle (data c2) o ∧ Forall2 (prints (K:=K)) ks lines ∧ PR_Body res = mjoin lines ∧
    (Owner_ID o = ownerID → ∀ k', k' ∈ ks → PublicKey_Blob k' ≠ PublicKey_Blob k).
Proof.
  intros Hok Hk Er Hst Hh Hs verifier handle setName presented res c3 E.
  apply (wp_run false _ _ _ _ _ _ (pk_Revoke_spec false now st ownerID id requestID _) eq_refl) in Er; [|done].
  destruct Er as [(e & ? & _)|(k0 & Hk0 & Ho & _ & [(e & ? & _)|(det & _ & _ & Hd1)])]; [done..|]. rewrite Hk in Hk0. injection Hk0 as <-.
  assert (pubkeys (data c1) !! id = Some (revoked_key now k)) as Hk1 by (rewrite Hd1; simpl; by rewrite lookup_insert_eq).
  apply pk_steps_moves in Hst. assert (pubkeys_ok (K:=K) (pubkeys (data c2))) as Hok2.
  { eapply pk_moves_ok; [exact Hst|]. rewrite Hd1. simpl. eapply pk_move_ok; [by apply pm_revoke|done]. }
  destruct (pk_moves_forward _ _ _ _ Hst Hk1) as (k2 & Hk2 & _ & Ho2 & _ & _ & Hb2 & _ & Hf2 & Hs2). simpl in *.
  destruct (wp_run _ _ _ _ _ _ _ (Resolve_spec false verifier handle setName presented _ (MkWellKept _ _ _ Hh Hs Hok2)) eq_refl ltac:(done) E)
    as [_ (o & set & Hent & ks & lines & Hks & _ & _ & Hl & Hb)].
  exists o, ks, lines. split_and!; [apply Hent|done|done|]. intros Hoo k' ([i Hi] & Ho' & _ & Hact)%Hks Hblob.
  destruct (po_genuine _ Hok2 _ _ Hi) as (pub' & Hp' & Hf'), (po_genuine _ Hok2 _ _ Hk2) as (pub2 & Hp2 & Hf2').
  assert (i = id) as -> by (eapply (po_unique _ Hok2 i id k' k2); try done; congruence).
  rewrite Hi in Hk2. injection Hk2 as ->. destruct Hs2 as [Hs2|Hs2]; congruence.
Qed.

(** Revoking a device leaves its keys published.  After a successful [Revoke] of a
    device everyone who was entitled to a document is still served it, as it was before,
    with the lines of the device's keys in it. *)
Theorem device_revoke_keeps_publishing {U : UnicodeData} now st ownerID id requestID c c1 s later handle setName presented o set protected :
  well_kept (K:=K) (data c) → dev_Revoke now st ownerID id requestID c = (Ok tt, c1) → faults c1 = [] →
  entitled (Some (s, later)) handle setName presented (data c) o set protected →
  ∃ body, fst (Resolve (K:=K) (Some (s, later)) handle setName presented c1) = Ok (MkPublishResult body protected) ∧
    document (K:=K) (Owner_ID o) (KeySet_ID set) (data c) body ∧
    ∀ k, in_force (Owner_ID o) (KeySet_ID set) (data c) k → PublicKey_DeviceID k = id → ∃ line pre post, prints (K:=K) k line ∧ body = pre ++ line ++ post.
Proof.
  intros Hk Er Hf Hent. apply (wp_run false _ _ _ _ _ _ (dev_Revoke_spec false now st ownerID id requestID _) eq_refl) in Er; [|done].
  destruct Er as [(e & ? & _)|(v & _ & _ & _ & [(e & ? & _)|(det & _ & _ & Hd1)])]; [done..|].
  assert (well_kept (K:=K) (data c1)) as Hk1 by (rewrite Hd1; destruct Hk; by split).
  assert (entitled (Some (s, later)) handle setName presented (data c1) o set protected) as Hent1 by (rewrite Hd1; destruct Hent; by split).
  destruct (Resolve_served _ _ _ _ _ _ _ _ Hk1 Hf Hent1) as (body & Hr & Hdoc). exists body.
  assert (document (K:=K) (Owner_ID o) (KeySet_ID set) (data c) body) as Hdoc0 by (by rewrite Hd1 in Hdoc).
  split_and!; [done|done|]. intros k Hin _. by eapply document_line.
Qed.
End claims.

(** ** Evaluating *)

Module PublishSample.
#[export] Existing Instance Keys.OneKey.
#[export] Existing Instance Keys.OneKey_laws.
#[export] Existing Instance AkSample.ascii_only.
#[export] Existing Instance FoldSample.plain.
Definition guard := HandleSample.guard.
Definition st (n : string) : stamp := MkStamp (go n) 0.
Definition alice : HandleRow := MkHandleRow (MkHandle (go "h") (go "o") (go "alice") NameStateActive None false false 0 0) (go "alice") TableVersion.
(** An owner with a handle and a protected default set registers a device, enrols a key
    on it, puts it in the set and mints an access key for the set. *)
Definition d0 : db := set_handles (λ _, {[ go "h" := alice ]}) AkSample.d0.
Definition c0 : conn := MkConn d0 [].
Definition registered := dev_Register guard 1 (go "dev") (st "a1") (go "o") (go "laptop") [] c0.
Definition added := pk_Add (K:=unit) 2 (go "key") (st "a2") (go "o") (go "dev") (go "ssh-ed25519 YmxvYg== me") [] (snd registered).
Definition joined := keyset_AddMember (go "o") (go "set") (go "key") 3 (snd added).
Definition minted := ak_Mint AkSample.svc 4 AkSample.raw1 AkSample.id1 (st "a3") (go "o") (go "set") (go "ci") [] (snd joined).
Definition token := token_of AkSample.raw1 AkSample.id1.
Definition c1 : conn := snd minted.
Definition served := Resolve (K:=unit) (Some (AkSample.svc, 5)) (go "alice") [] token c1.

Lemma same_handles : handles (data c1) = {[ go "h" := alice ]}.
Proof. vm_compute. reflexivity. Qed.
Lemma same_sets : keysets (data c1) = keysets AkSample.d0.
Proof. vm_compute. reflexivity. Qed.

Lemma c1_keys : pubkeys_ok (K:=unit) (pubkeys (data c1)).
Proof.
  apply (pk_moves_ok (pubkeys (data c0))).
  - apply (pk_steps_moves guard). eapply steps_cons; [|eapply steps_cons; [|apply steps_one]].
    + apply (ps_device_Register (K:=unit) guard c0 (snd registered) 1 (go "dev") (st "a1") (go "o") (go "laptop") [] (fst registered)). apply surjective_pairing.
    + apply (ps_Add (K:=unit) guard _ (snd added) 2 (go "key") (st "a2") (go "o") (go "dev") (go "ssh-ed25519 YmxvYg== me") [] (fst added)). unfold added. apply surjective_pairing.
    + apply ps_other. vm_compute. reflexivity.
  - change (pubkeys (data c0)) with (∅ : gmap gostring PublicKey). split; [intros i x H|intros i j x y H|intros i x H|intros i x H]; rewrite lookup_empty in H; discriminate H.
Qed.

Lemma c1_kept : well_kept (K:=unit) (data c1).
Proof.
  constructor; [rewrite same_handles; constructor|rewrite same_sets; apply (cat_sets _ KsSample.d0_ok)|apply c1_keys].
  - intros i x [<- <-]%lookup_singleton_Some. reflexivity.
  - intros i j x y [<- _]%lookup_singleton_Some [<- _]%lookup_singleton_Some Hij. exfalso. by apply Hij.
Qed.

Lemma c1_entitled : entitled (Some (AkSample.svc, 5)) (go "alice") [] token (data c1) AkSample.owner AkSample.set true.
Proof.
  constructor.
  - vm_compute. reflexivity.
  - left. reflexivity.
  - exists (go "h"), alice. split_and!; [rewrite same_handles; apply lookup_singleton_eq|reflexivity|reflexivity|vm_compute; reflexivity|reflexivity|reflexivity].
  - exists (go "set"). split_and!; [rewrite same_sets; vm_compute; reflexivity|reflexivity..].
  - right. split_and!; [reflexivity|reflexivity|]. exists (AkSample.svc, 5). split; [reflexivity|].
    assert (is_ok (fst (ak_Verify AkSample.svc 5 (go "o") (go "set") token c1)) = true) as Hok by (vm_compute; reflexivity).
    destruct (ak_Verify AkSample.svc 5 (go "o") (go "set") token c1) as [[k|e] c'] eqn:E; [|discriminate Hok]. exists k. by apply (Verify_Ok _ _ _ _ _ _ _ _ E).
Qed.
Lemma same_body b b' p p' : Ok (MkPublishResult b p) = Ok (MkPublishResult b' p') → b = b'.
Proof. congruence. Qed.
End PublishSample.
#[local] Existing Instance Keys.OneKey.
#[local] Existing Instance Keys.OneKey_laws.
#[local] Existing Instance AkSample.ascii_only.
#[local] Existing Instance FoldSample.plain.

Lemma Resolve_exact_witness : fst PublishSample.served = Ok (MkPublishResult (go "ssh-ed25519 YmxvYg== me" ++ [LF]) true) ∧
  document (K:=unit) (go "o") (go "set") (data PublishSample.c1) (go "ssh-ed25519 YmxvYg== me" ++ [LF]).
Proof.
  assert (fst PublishSample.served = Ok (MkPublishResult (go "ssh-ed25519 YmxvYg== me" ++ [LF]) true)) as Hr by (vm_compute; reflexivity).
  split; [exact Hr|].
  destruct (Resolve_exact (K:=unit) (Some (AkSample.svc, 5)) (go "alice") [] PublishSample.token PublishSample.c1 (fst PublishSample.served) (snd PublishSample.served)
    PublishSample.c1_kept) as (_ & _ & H & _); [unfold PublishSample.served; apply surjective_pairing|].
  destruct (H ltac:(vm_compute; reflexivity) AkSample.owner AkSample.set true PublishSample.c1_entitled) as (body & Hb & Hd).
  rewrite Hr in Hb. apply PublishSample.same_body in Hb. rewrite Hb. exact Hd.
Defined.

Lemma revoked_key_never_published_witness : let revoked := pk_Revoke 6 (PublishSample.st "a4") (go "o") (go "key") [] PublishSample.c1 in
  let again := pk_Add (K:=unit) 7 (go "key2") (PublishSample.st "a5") (go "o") (go "dev") (go "ssh-ed25519 YmxvYg== other") [] (snd revoked) in
  fst revoked = Ok tt ∧ fst again = Err pk_ErrDuplicate ∧
  ∃ o ks lines, speaks_for (go "alice") (data (snd again)) o ∧ Forall2 (prints (K:=unit)) ks lines ∧ [] = mjoin lines ∧
    (Owner_ID o = go "o" → ∀ k', k' ∈ ks → PublicKey_Blob k' ≠ go "blob").
Proof.
  intros revoked again. assert (fst revoked = Ok tt) as Hr by (vm_compute; reflexivity). split; [exact Hr|]. split; [vm_compute; reflexivity|].
  set (k := enrolled_key (go "key") (go "o") (go "dev") (MkParsedKey AlgEd25519 (go "blob") (go "me") (FingerprintSHA256 tt) 256) 2).
  destruct (Resolve (K:=unit) (Some (AkSample.svc, 8)) (go "alice") [] PublishSample.token (snd again)) as [r c3] eqn:E.
  assert (fst (Resolve (K:=unit) (Some (AkSample.svc, 8)) (go "alice") [] PublishSample.token (snd again)) = Ok (MkPublishResult [] true)) as Hres by (vm_compute; reflexivity).
  rewrite E in Hres. simpl in Hres. subst r.
  assert (handles (data (snd again)) = handles (data PublishSample.c1)) as Hh by (vm_compute; reflexivity).
  assert (keysets (data (snd again)) = keysets (data PublishSample.c1)) as Hs by (vm_compute; reflexivity).
  apply (revoked_key_never_published (K:=unit) PublishSample.guard 6 (PublishSample.st "a4") (go "o") (go "key") [] PublishSample.c1 (snd revoked) (snd again) k
    PublishSample.c1_keys) with (verifier := Some (AkSample.svc, 8)) (setName := []) (presented := PublishSample.token) (res := MkPublishResult [] true) (c3 := c3).
  - vm_compute. reflexivity.
  - rewrite <- Hr. unfold revoked. apply surjective_pairing.
  - apply steps_one. apply (ps_Add (K:=unit) PublishSample.guard _ (snd again) 7 (go "key2") (PublishSample.st "a5") (go "o") (go "dev") (go "ssh-ed25519 YmxvYg== other") [] (fst again)).
    unfold again. apply surjective_pairing.
  - rewrite Hh. apply PublishSample.c1_kept.
  - rewrite Hs. apply PublishSample.c1_kept.
  - exact E.
Defined.

Lemma device_revoke_keeps_publishing_witness : let revoked := dev_Revoke 6 (PublishSample.st "a4") (go "o") (go "dev") [] PublishSample.c1 in
  fst revoked = Ok tt ∧ ∃ body, fst (Resolve (K:=unit) (Some (AkSample.svc, 5)) (go "alice") [] PublishSample.token (snd revoked)) = Ok (MkPublishResult body true) ∧
    body = go "ssh-ed25519 YmxvYg== me" ++ [LF].
Proof.
  intros revoked. assert (fst revoked = Ok tt) as Hr by (vm_compute; reflexivity). split; [exact Hr|].
  destruct (device_revoke_keeps_publishing (K:=unit) 6 (PublishSample.st "a4") (go "o") (go "dev") [] PublishSample.c1 (snd revoked) AkSample.svc 5 (go "alice") []
    PublishSample.token AkSample.owner AkSample.set true PublishSample.c1_kept) as (body & Hb & _).
  - rewrite <- Hr. unfold revoked. apply surjective_pairing.
  - vm_compute. reflexivity.
  - exact PublishSample.c1_entitled.
  - exists body. split; [exact Hb|].
    assert (fst (Resolve (K:=unit) (Some (AkSample.svc, 5)) (go "alice") [] PublishSample.token (snd revoked)) = Ok (MkPublishResult (go "ssh-ed25519 YmxvYg== me" ++ [LF]) true)) as Hv
      by (vm_compute; reflexivity).
    rewrite Hv in Hb. apply PublishSample.same_body in Hb. symmetry. exact Hb.
Defined.
