(* ===== verification/TokenService.v ===== *)
(** * The token service: issuing, exchanging and revoking refresh credentials

    [internal/auth/tokenservice.go] over the SQLite store and any counter store for
    the denylist.  A refresh credential is single use: exchanging it retires it and
    mints a successor in the same lineage; presenting a retired one is taken as
    evidence of theft and revokes the lineage. *)

From S2P Require Import Prelude DomainErrors Counter GoLib Domain Sha256 Tokens Authz Database.

Open Scope Z_scope.

(** src/internal/auth/tokenservice.go:15-43, Issued *)
Record Issued := MkIssued {
  Iss_RefreshToken : gostring;
  Iss_RefreshExpiresAt : time;
  Iss_AccessToken : gostring;
  Iss_AccessExpiresAt : time;
  Iss_OwnerID : gostring;
  Iss_LineageID : gostring;
  Iss_Scopes : list Scope;
}.

(** The random bytes one call draws: for the credential id, for its secret, and for
    the id of the access token. *)
Record entropy := MkEntropy { ent_id : bytes; ent_secret : bytes; ent_token : bytes }.

(** src/internal/auth/tokenservice.go:464-489, TokenService.mint *)
Definition mint (signer : AccessTokenSigner) (ent : entropy) (cred : RefreshCredential) (secret : bytes) (now : time)
    : result Issued :=
  let access := MkAccessToken (rawurl_b64 (ent_token ent)) (Cred_OwnerID cred) (Cred_ID cred) (Cred_Scopes cred)
                  now (time_add now AccessTokenLifetime) in
  match signer_Issue signer access with
  | Err e => Err (errorf "auth: issuing access token" [e])
  | Ok raw =>
      Ok (MkIssued (formatRefreshToken (Cred_ID cred) secret) (Cred_ExpiresAt cred) raw
            (AccessToken_ExpiresAt access) (Cred_OwnerID cred) (Cred_LineageID cred) (Cred_Scopes cred))
  end.

(** A computation that touches no state. *)
Definition lift {S A} (r : result A) : stM S A := λ s, (r, s).

Open Scope stm_scope.

(** src/internal/auth/tokenservice.go:153-196, TokenService.Issue *)
Definition service_Issue (signer : AccessTokenSigner) (ent : entropy) (ownerID : gostring) (scopes : list Scope)
    (clientLabel : gostring) (now : time) : stM conn Issued :=
  if bool_decide (ownerID = []) then st_fail (errorf "auth: owner id must not be empty" [ErrInvalidInput]) else
  match ValidateScopes scopes, validateClientLabel clientLabel with
  | Some e, _ => st_fail e
  | None, Some e => st_fail e
  | None, None =>
      let id := newCredentialID (ent_id ent) in
      let secret := ent_secret ent in
      let cred := MkRefreshCredential id ownerID id (hashRefreshSecret secret) scopes clientLabel None
                    now (time_add now RefreshLineageLifetime) CredentialStatusActive None in
      try! r := cred_Create cred in
      match r with
      | Err e => st_fail (errorf "auth: creating refresh credential" [e])
      | Ok _ => lift (mint signer ent cred secret now)
      end
  end.

(** src/internal/auth/tokenservice.go:436-462, TokenService.revokeLineage *)
Definition service_revokeLineage (cred : RefreshCredential) (now : time) : stM conn (list RefreshCredential) :=
  let! _ := cred_RevokeLineage (Cred_OwnerID cred) (Cred_LineageID cred) now in
  try! r := cred_ListByLineage (Cred_OwnerID cred) (Cred_LineageID cred) in
  match r with
  | Err _ => st_ret []                     (* the listing failed: revoked in storage all the same *)
  | Ok revoked => st_ret revoked
  end.

(** What the transaction leaves in the variables it captures. *)
Abbreviation tx_out := (option Issued * list RefreshCredential)%type.
Definition nothing : tx_out := (None, []).

Definition child_of (ent : entropy) (cred : RefreshCredential) (now : time) : RefreshCredential :=
  MkRefreshCredential (newCredentialID (ent_id ent)) (Cred_OwnerID cred) (Cred_LineageID cred)
    (hashRefreshSecret (ent_secret ent)) (Cred_Scopes cred) (Cred_ClientLabel cred) (Some (Cred_ID cred))
    now (Cred_ExpiresAt cred) CredentialStatusActive None.

(** src/internal/auth/tokenservice.go:300-367, Exchange (the transaction from the status test on) *)
Definition exchange_active (signer : AccessTokenSigner) (ent : entropy) (cred : RefreshCredential) (now : time)
    : stM conn tx_out :=
  if negb (bool_decide (Cred_Status cred = CredentialStatusActive)) then
    let! revoked := service_revokeLineage cred now in st_ret (None, revoked) else
  if negb (time_before now (Cred_ExpiresAt cred)) then st_ret nothing else
  match ValidateScopes (Cred_Scopes cred) with
  | Some _ => st_ret nothing
  | None =>
      try! r := cred_MarkRotated (Cred_OwnerID cred) (Cred_ID cred) now in
      match r with
      | Err e =>
          if errors_is e ErrConflict
          then let! revoked := service_revokeLineage cred now in st_ret (None, revoked)
          else st_fail e
      | Ok _ =>
          let child := child_of ent cred now in
          let! _ := cred_Create child in
          let! issued := lift (mint signer ent child (ent_secret ent) now) in
          st_ret (Some issued, [])
      end
  end.

(** src/internal/auth/tokenservice.go:231-299, Exchange (the transaction up to the status test) *)
Definition exchange_tx (signer : AccessTokenSigner) (ent : entropy) (id : gostring) (secret : bytes) (now : time)
    : stM conn tx_out :=
  try! r := cred_GetByID id in
  match r with
  | Err e => if errors_is e ErrNotFound then st_ret nothing else st_fail e
  | Ok cred =>
      if negb (bool_decide (Cred_ID cred = id)) then st_ret nothing else
      if negb (secretMatches (Cred_SecretHash cred) secret) then st_ret nothing else
      if bool_decide (Cred_OwnerID cred = []) || bool_decide (Cred_LineageID cred = []) then st_ret nothing else
      try! ro := owner_Get (Cred_OwnerID cred) in
      match ro with
      | Err e => if errors_is e ErrNotFound then st_ret nothing else st_fail e
      | Ok owner =>
          if negb (bool_decide (Owner_ID owner = Cred_OwnerID cred)) then st_ret nothing else
          if negb (bool_decide (Owner_Status owner = OwnerStatusActive)) || bool_decide (Owner_DeletedAt owner ≠ None)
          then st_ret nothing else
          exchange_active signer ent cred now
      end
  end.

Close Scope stm_scope.

Section Service.
Context {S : Type} `{!Store S}.

(** The database connection and the denylist's counter store. *)
Record service := MkService { svc_conn : conn; svc_deny : S }.

(** src/internal/auth/tokenservice.go:389-407, TokenService.denyRevoked
    (an error is only logged) *)
Definition denyRevoked (ctx : context) (clock : nat → time) (revoked : list RefreshCredential) (now : time) (s : S) : S :=
  if bool_decide (revoked = []) then s else snd (RevokeLineage ctx clock revoked now s).

(** src/internal/auth/tokenservice.go:208-387, TokenService.Exchange *)
Definition Exchange (signer : AccessTokenSigner) (ent : entropy) (ctx : context) (clock : nat → time)
    (presented : gostring) (now : time) (w : service) : result Issued * service :=
  match parseRefreshToken presented with
  | Err _ => (Err ErrAuthFailed, w)
  | Ok (id, secret) =>
      match WithTx (exchange_tx signer ent id secret now) (svc_conn w) with
      | (Err _, c) => (Err ErrAuthFailed, MkService c (svc_deny w))
      | (Ok (out, revoked), c) =>
          let w := MkService c (denyRevoked ctx clock revoked now (svc_deny w)) in
          match out with
          | None => (Err ErrAuthFailed, w)
          | Some issued => (Ok issued, w)
          end
      end
  end.

(** src/internal/auth/tokenservice.go:409-434, TokenService.Verify *)
Definition service_Verify (signer : AccessTokenSigner) (ctx : context)
    (clock : time) (presented : gostring) (now : time) (w : service) : result AccessToken * service :=
  match signer_Verify signer presented now with
  | Err e => (Err e, w)
  | Ok tok =>
      match denylist_Check ctx clock tok (svc_deny w) with
      | (Some _, s) => (Err ErrAuthFailed, MkService (svc_conn w) s)
      | (None, s) => (Ok tok, MkService (svc_conn w) s)
      end
  end.
End Service.
Arguments service : clear implicits.
Arguments MkService {S}.

(** ** What the transaction does to the tables *)

Definition revoked_db (cred : RefreshCredential) (now : time) (d : db) : db :=
  set_creds (fmap (revoke_row (Cred_OwnerID cred) (Cred_LineageID cred) now)) d.

Definition rotated_db (ent : entropy) (cred : RefreshCredential) (now : time) (d : db) : db :=
  set_creds (λ t, <[newCredentialID (ent_id ent) := child_of ent cred now]>
                    (<[Cred_ID cred := set_status CredentialStatusRotated (Cred_RevokedAt cred) cred]> t)) d.

Lemma service_revokeLineage_inv cred now c r c' : service_revokeLineage cred now c = (r, c') →
  ((∃ l, r = Ok l ∧ data c' = revoked_db cred now (data c)) ∨ (is_ok r = false ∧ data c' = data c)) ∧
  (faults c = [] → faults c' = [] ∧ ∃ l, r = Ok l ∧ data c' = revoked_db cred now (data c) ∧
     ∀ x, x ∈ l ↔ ∃ k, creds (data c') !! k = Some x ∧ in_lineage (Cred_OwnerID cred) (Cred_LineageID cred) x).
Proof.
  unfold service_revokeLineage, st_bind, st_try.
  destruct (cred_RevokeLineage _ _ _ c) as [[n|e] c1] eqn:E1; apply exec_inv in E1 as [H1 F1].
  2:{ destruct H1 as [(? & ? & ? & _)|(e' & ? & Hd)]; [done|]. intros. simplify_eq. split; [by right|].
      intros Hf. by destruct (F1 Hf) as [_ H]; destruct (H _ _ eq_refl). }
  destruct H1 as [(n' & d & _ & Hf1 & Hd1)|(? & ? & _)]; [|done]. injection Hf1 as _ <-.
  destruct (cred_ListByLineage _ _ c1) as [r2 c2] eqn:E2. apply query_inv in E2 as (Hd2 & Ha & F2).
  destruct r2 as [l|e]; unfold st_ret; intros; simplify_eq; rewrite Hd2, Hd1; (split; [eauto|]);
    intros Hf; destruct (F1 Hf) as [Hf1 _]; destruct (F2 Hf1) as [-> Hr]; [|done].
  split; [done|]. exists l. split_and!; [done|done|]. intros x. rewrite (Ha _ eq_refl), Hd1.
  rewrite elem_of_ordered, list_elem_of_filter, elem_of_rows. unfold in_lineage.
  split; [intros [? [k ?]]; exists k; by split|intros (k & ? & ?); split; [done|by exists k]].
Qed.

Lemma cred_MarkRotated_inv ownerID id now c r c' : cred_MarkRotated ownerID id now c = (r, c') →
  (r = Ok tt ∧ ∃ c0, owned_cred ownerID id (data c) = Some c0 ∧ Cred_Status c0 = CredentialStatusActive ∧
     data c' = set_creds <[id := set_status CredentialStatusRotated (Cred_RevokedAt c0) c0]> (data c)) ∨
  (is_ok r = false ∧ data c' = data c).
Proof.
  unfold cred_MarkRotated, st_bind. destruct (exec _ c) as [[n|e] c1] eqn:E; apply exec_inv in E as [H _];
    [|destruct H as [(? & ? & ? & _)|(? & ? & Hd)]; [done|]; intros; simplify_eq; by right].
  destruct H as [(n' & d & Hn & Hf & Hd)|(? & ? & _)]; [|done]. injection Hn as ->. unfold classifyConditional.
  destruct (owned_cred ownerID id (data c)) as [c0|] eqn:Ho; [case_bool_decide as Hs|]; injection Hf as <- <-; simpl.
  - intros. unfold st_ret in *. simplify_eq. left. eauto 6.
  - unfold st_bind. destruct (query_row _ c1) as [[x|e] c2] eqn:Eq; apply query_row_inv in Eq as (Hd2 & _);
      unfold st_fail; intros; simplify_eq; right; (split; [done|by rewrite Hd2]).
  - unfold st_bind. destruct (query_row _ c1) as [[x|e] c2] eqn:Eq; apply query_row_inv in Eq as (Hd2 & _);
      unfold st_fail; intros; simplify_eq; right; (split; [done|by rewrite Hd2]).
Qed.

Lemma cred_Create_inv cr c r c' : cred_Create cr c = (r, c') →
  (r = Ok tt ∧ creds (data c) !! Cred_ID cr = None ∧ is_Some (owners (data c) !! Cred_OwnerID cr) ∧
     data c' = set_creds <[Cred_ID cr := cr]> (data c)) ∨
  (is_ok r = false ∧ data c' = data c).
Proof.
  unfold cred_Create, st_bind. destruct (exec _ c) as [[n|e] c1] eqn:E; apply exec_inv in E as [H _];
    [|destruct H as [(? & ? & ? & _)|(? & ? & Hd)]; [done|]; intros; simplify_eq; by right].
  destruct H as [(n' & d & _ & Hf & Hd)|(? & ? & _)]; [|done].
  destruct (creds (data c) !! Cred_ID cr) eqn:Hc, (owners (data c) !! Cred_OwnerID cr) eqn:Ho; try done.
  destruct (CredentialStatus_IsValid _); [|done]. injection Hf as _ <-. unfold st_ret. intros. simplify_eq. left. by split_and!.
Qed.

(** The outcomes of the transaction once the presenter proved to hold [cred]. *)
Definition exchanged (signer : AccessTokenSigner) (ent : entropy) (cred : RefreshCredential) (now : time)
    (out : tx_out) (d d' : db) : Prop :=
  (fst out = None ∧ (d' = d ∨ d' = revoked_db cred now d)) ∨
  (∃ issued, out = (Some issued, []) ∧ Cred_Status cred = CredentialStatusActive ∧ now < Cred_ExpiresAt cred ∧
     ValidateScopes (Cred_Scopes cred) = None ∧ newCredentialID (ent_id ent) ≠ Cred_ID cred ∧
     creds d !! newCredentialID (ent_id ent) = None ∧ d' = rotated_db ent cred now d ∧
     mint signer ent (child_of ent cred now) (ent_secret ent) now = Ok issued).

Lemma exchange_active_inv signer ent cred now c out c' :
  creds (data c) !! Cred_ID cred = Some cred →
  exchange_active signer ent cred now c = (Ok out, c') → exchanged signer ent cred now out (data c) (data c').
Proof.
  intros Hrow. unfold exchange_active.
  assert (∀ c0 out, data c0 = data c →
    (let! revoked := service_revokeLineage cred now in st_ret (None, revoked))%stm c0 = (Ok out, c') →
    exchanged signer ent cred now out (data c) (data c')) as Hrev.
  { intros c0 out0 Hd0 E. unfold st_bind in E.
    destruct (service_revokeLineage cred now c0) as [[l|e] c1] eqn:E1; [|done]. unfold st_ret in E. simplify_eq.
    apply service_revokeLineage_inv in E1 as [[(l' & _ & Hd)|[? _]] _]; [|done]. left. rewrite Hd, Hd0. auto. }
  case_bool_decide as Hst; cbn [negb]; [|by apply Hrev].
  unfold time_before. destruct (now <? Cred_ExpiresAt cred) eqn:Hexp; cbn [negb];
    [|unfold st_ret; intros; simplify_eq; left; auto].
  destruct (ValidateScopes (Cred_Scopes cred)) eqn:Hsc; [unfold st_ret; intros; simplify_eq; left; auto|].
  unfold st_try. destruct (cred_MarkRotated _ _ _ c) as [r c1] eqn:E1.
  apply cred_MarkRotated_inv in E1 as [(-> & c0 & Ho & _ & Hd1)|[Hr Hd1]].
  2:{ destruct r as [|e]; [done|]. destruct (errors_is e ErrConflict); [by apply Hrev|done]. }
  unfold owned_cred in Ho. rewrite Hrow in Ho. rewrite bool_decide_eq_true_2 in Ho by done. simplify_eq.
  unfold st_bind, lift. destruct (cred_Create _ c1) as [[[]|e] c2] eqn:E2; [|done].
  apply cred_Create_inv in E2 as [(_ & Hfresh & _ & Hd2)|[? _]]; [|done].
  destruct (mint signer ent _ _ now) as [issued|] eqn:Hm; [|done]. unfold st_ret. intros. simplify_eq. right.
  rewrite Hd1 in Hfresh. simpl in Hfresh. apply lookup_insert_None in Hfresh as [Hf1 Hf2].
  exists issued. reflect_bools. split_and!; try done.
  rewrite Hd2, Hd1. done.
Qed.

Lemma exchange_tx_inv signer ent id secret now c out c' :
  exchange_tx signer ent id secret now c = (Ok out, c') →
  (out = nothing ∧ data c' = data c) ∨
  (∃ cred owner, creds (data c) !! id = Some cred ∧ Cred_ID cred = id ∧
     Cred_SecretHash cred = hashRefreshSecret secret ∧ owners (data c) !! Cred_OwnerID cred = Some owner ∧
     Owner_Status owner = OwnerStatusActive ∧ Owner_DeletedAt owner = None ∧
     exchanged signer ent cred now out (data c) (data c')).
Proof.
  unfold exchange_tx, st_try. destruct (cred_GetByID id c) as [r c1] eqn:E1. apply query_row_inv in E1 as (Hd1 & Hrow & _).
  destruct r as [cred|e]; [|destruct (errors_is e ErrNotFound); unfold st_ret; intros; simplify_eq; by left].
  specialize (Hrow _ eq_refl). case_bool_decide as Hid; cbn [negb]; [|unfold st_ret; intros; simplify_eq; by left].
  unfold secretMatches. case_bool_decide as Hsec; cbn [negb]; [|unfold st_ret; intros; simplify_eq; by left].
  destruct (_ || _); [unfold st_ret; intros; simplify_eq; by left|].
  destruct (owner_Get _ c1) as [ro c2] eqn:E2. apply query_row_inv in E2 as (Hd2 & Hown & _).
  destruct ro as [owner|e];
    [|destruct (errors_is e ErrNotFound); unfold st_ret; intros; simplify_eq; left; split; congruence].
  specialize (Hown _ eq_refl). case_bool_decide as Hoid; cbn [negb];
    [|unfold st_ret; intros; simplify_eq; left; split; congruence].
  destruct (negb _ || _) eqn:Hact; [unfold st_ret; intros; simplify_eq; left; split; congruence|].
  apply orb_false_iff in Hact as [Hst Hdel]. reflect_bools. intros E. right. exists cred, owner.
  rewrite <- Hd1, <- Hd2 in Hrow. rewrite <- Hid in Hrow. apply exchange_active_inv in E; [|done].
  rewrite Hd2, Hd1 in E. rewrite Hd2, Hd1, Hid in Hrow. rewrite Hd1 in Hown.
  split_and!; try done. by destruct (Owner_DeletedAt owner); [destruct Hdel|].
Qed.

Lemma mint_ok signer ent cred secret now issued : mint signer ent cred secret now = Ok issued →
  Iss_RefreshToken issued = formatRefreshToken (Cred_ID cred) secret ∧
  Iss_RefreshExpiresAt issued = Cred_ExpiresAt cred ∧ Iss_AccessExpiresAt issued = now + AccessTokenLifetime ∧
  Iss_OwnerID issued = Cred_OwnerID cred ∧ Iss_LineageID issued = Cred_LineageID cred ∧
  Iss_Scopes issued = Cred_Scopes cred.
Proof. unfold mint. destruct (signer_Issue _ _); [|done]. intros. by simplify_eq. Qed.

(** What one call of [Exchange] does to the tables. *)
Lemma Exchange_inv {S} `{!Store S} signer ent ctx clock presented now (w w' : service S) r :
  Exchange signer ent ctx clock presented now w = (r, w') →
  let d := data (svc_conn w) in let d' := data (svc_conn w') in
  (r = Err ErrAuthFailed ∧ d' = d) ∨
  (∃ id secret cred owner, parseRefreshToken presented = Ok (id, secret) ∧ creds d !! id = Some cred ∧ Cred_ID cred = id ∧
     Cred_SecretHash cred = hashRefreshSecret secret ∧ owners d !! Cred_OwnerID cred = Some owner ∧
     Owner_Status owner = OwnerStatusActive ∧ Owner_DeletedAt owner = None ∧
     ((r = Err ErrAuthFailed ∧ (d' = d ∨ d' = revoked_db cred now d)) ∨
      (∃ issued, r = Ok issued ∧ svc_deny w' = svc_deny w ∧ exchanged signer ent cred now (Some issued, []) d d'))).
Proof.
  unfold Exchange. destruct (parseRefreshToken presented) as [[id secret]|]; [|intros; simplify_eq; by left].
  destruct (WithTx _ _) as [rt c] eqn:E. intros Hres.
  destruct (WithTx_inv _ _ _ _ E) as [[Hrt Hd]|(out & c0 & c1 & -> & Hd0 & Hfn & Hd1)].
  { destruct rt; [done|]. simplify_eq. by left. }
  destruct out as [out rev]. destruct (exchange_tx_inv _ _ _ _ _ _ _ _ Hfn) as [[Hout Hd]|H].
  { unfold nothing in Hout. simplify_eq. left. split; [done|]. simpl. congruence. }
  destruct H as (cred & owner & Hrow & Hid & Hsec & Hown & Hst & Hdel & Hx). rewrite Hd0 in *. rewrite <- Hd1 in Hx.
  right. exists id, secret, cred, owner. split_and!; try done.
  destruct out as [issued|]; simplify_eq; simpl.
  - right. exists issued. destruct Hx as [[? _]|(i & Ho & Hx)]; [done|]. injection Ho as <- ->.
    split_and!; try done. right. by exists issued.
  - left. split; [done|]. destruct Hx as [[_ H]|(i & Ho & _)]; [exact H|done].
Qed.

(** ** The lineage invariant *)

Record lineage_inv (d : db) : Prop := {
  li_key : ∀ k c, creds d !! k = Some c → Cred_ID c = k;
  li_scopes : ∀ k c, creds d !! k = Some c → ValidateScopes (Cred_Scopes c) = None;
  li_same : ∀ k1 k2 c1 c2, creds d !! k1 = Some c1 → creds d !! k2 = Some c2 → Cred_LineageID c1 = Cred_LineageID c2 →
    Cred_OwnerID c1 = Cred_OwnerID c2 ∧ Cred_Scopes c1 = Cred_Scopes c2 ∧ Cred_ExpiresAt c1 = Cred_ExpiresAt c2;
  li_one : ∀ k1 k2 c1 c2, creds d !! k1 = Some c1 → creds d !! k2 = Some c2 → Cred_LineageID c1 = Cred_LineageID c2 →
    Cred_Status c1 = CredentialStatusActive → Cred_Status c2 = CredentialStatusActive → k1 = k2;
}.

(** [c'] is [c], with its status changed to anything but active. *)
Definition demoted (c c' : RefreshCredential) : Prop :=
  Cred_ID c' = Cred_ID c ∧ Cred_OwnerID c' = Cred_OwnerID c ∧ Cred_LineageID c' = Cred_LineageID c ∧
  Cred_Scopes c' = Cred_Scopes c ∧ Cred_ExpiresAt c' = Cred_ExpiresAt c ∧
  (Cred_Status c' = CredentialStatusActive → Cred_Status c = CredentialStatusActive).

Lemma demoted_refl c : demoted c c.
Proof. by repeat split. Qed.

Lemma demoted_status st rev c : st ≠ CredentialStatusActive → demoted c (set_status st rev c).
Proof. by repeat split. Qed.

Lemma inv_demote d d' :
  (∀ k c', creds d' !! k = Some c' → ∃ c, creds d !! k = Some c ∧ demoted c c') → lineage_inv d → lineage_inv d'.
Proof.
  intros Hd [Hk Hs Hsame Hone]. split.
  - intros k c' H. destruct (Hd _ _ H) as (c & Hc & -> & _). by apply Hk.
  - intros k c' H. destruct (Hd _ _ H) as (c & Hc & _ & _ & _ & -> & _). by eapply Hs.
  - intros k1 k2 c1' c2' H1 H2. destruct (Hd _ _ H1) as (c1 & Hc1 & _ & -> & -> & -> & -> & _).
    destruct (Hd _ _ H2) as (c2 & Hc2 & _ & -> & -> & -> & -> & _). by eapply Hsame.
  - intros k1 k2 c1' c2' H1 H2. destruct (Hd _ _ H1) as (c1 & Hc1 & _ & _ & -> & _ & _ & Ha1).
    destruct (Hd _ _ H2) as (c2 & Hc2 & _ & _ & -> & _ & _ & Ha2). intros. by eapply Hone; eauto.
Qed.

Lemma inv_insert d c : creds d !! Cred_ID c = None → ValidateScopes (Cred_Scopes c) = None →
  (∀ k c0, creds d !! k = Some c0 → Cred_LineageID c0 = Cred_LineageID c →
     Cred_OwnerID c0 = Cred_OwnerID c ∧ Cred_Scopes c0 = Cred_Scopes c ∧ Cred_ExpiresAt c0 = Cred_ExpiresAt c ∧
     Cred_Status c0 ≠ CredentialStatusActive) →
  lineage_inv d → lineage_inv (set_creds <[Cred_ID c := c]> d).
Proof.
  intros Hf Hv Hl [Hk Hs Hsame Hone]. split; simpl.
  - intros k c' [[<- <-]|[_ H]]%lookup_insert_Some; [done|by apply Hk].
  - intros k c' [[<- <-]|[_ H]]%lookup_insert_Some; [done|by eapply Hs].
  - intros k1 k2 c1 c2 [[<- <-]|[_ H1]]%lookup_insert_Some [[<- <-]|[_ H2]]%lookup_insert_Some E; try done.
    + by destruct (Hl _ _ H2) as (-> & -> & -> & _).
    + by destruct (Hl _ _ H1) as (-> & -> & -> & _).
    + by eapply Hsame.
  - intros k1 k2 c1 c2 [[<- <-]|[_ H1]]%lookup_insert_Some [[<- <-]|[_ H2]]%lookup_insert_Some E Ha1 Ha2; try done.
    + by destruct (Hl _ _ H2) as (_ & _ & _ & []).
    + by destruct (Hl _ _ H1) as (_ & _ & _ & []).
    + by eapply Hone.
Qed.

Lemma revoke_row_demoted ownerID lineageID now c : demoted c (revoke_row ownerID lineageID now c).
Proof. unfold revoke_row. destruct (_ && _ && _); [by apply demoted_status|apply demoted_refl]. Qed.

Lemma revoke_row_revokes ownerID lineageID now c :
  in_lineage ownerID lineageID (revoke_row ownerID lineageID now c) →
  Cred_Status (revoke_row ownerID lineageID now c) = CredentialStatusRevoked.
Proof.
  unfold revoke_row, in_lineage. destruct (_ && _ && _) eqn:E; [done|]. intros [Ho Hl].
  rewrite !bool_decide_eq_true_2 in E by done. simpl in E. reflect_bools. done.
Qed.

Lemma revoke_row_other ownerID lineageID now c :
  ¬ in_lineage ownerID lineageID c → revoke_row ownerID lineageID now c = c.
Proof.
  unfold revoke_row, in_lineage. intros H. destruct (_ && _ && _) eqn:E; [|done]. reflect_bools.
  destruct H. by split.
Qed.

Lemma inv_revoked cred now d : lineage_inv d → lineage_inv (revoked_db cred now d).
Proof.
  apply inv_demote. intros k c'. simpl. rewrite lookup_fmap. destruct (creds d !! k) as [c|]; [|done].
  simpl. intros [= <-]. eexists. split; [done|apply revoke_row_demoted].
Qed.

Lemma inv_set_status d id c st rev : creds d !! id = Some c → st ≠ CredentialStatusActive →
  lineage_inv d → lineage_inv (set_creds <[id := set_status st rev c]> d).
Proof.
  intros Hc Hst. apply inv_demote. intros k c'. simpl. intros [[<- <-]|[_ H]]%lookup_insert_Some.
  - exists c. split; [done|by apply demoted_status].
  - exists c'. split; [done|apply demoted_refl].
Qed.

Lemma inv_rotated ent cred now d : creds d !! Cred_ID cred = Some cred → Cred_Status cred = CredentialStatusActive →
  newCredentialID (ent_id ent) ≠ Cred_ID cred → creds d !! newCredentialID (ent_id ent) = None →
  lineage_inv d → lineage_inv (rotated_db ent cred now d).
Proof.
  intros Hc Ha Hne Hf Hinv. pose proof Hinv as [Hk Hs Hsame Hone].
  set (d1 := set_creds <[Cred_ID cred := set_status CredentialStatusRotated (Cred_RevokedAt cred) cred]> d).
  change (lineage_inv (set_creds <[Cred_ID (child_of ent cred now) := child_of ent cred now]> d1)).
  apply inv_insert.
  - simpl. by rewrite lookup_insert_ne.
  - simpl. by eapply Hs.
  - intros k c0. simpl. intros [[<- <-]|[Hkne H]]%lookup_insert_Some El; [done|].
    destruct (Hsame _ _ _ _ H Hc El) as (? & ? & ?). split_and!; try done.
    intros Ha0. apply Hkne. symmetry. by eapply Hone.
  - by apply inv_set_status.
Qed.

(** Everything that writes to the two tables, and any change to the others. *)
Inductive cred_step {S} `{!Store S} : db → db → Prop :=
| step_issue signer ent ownerID scopes label now c r c' :
    (∀ k x, creds (data c) !! k = Some x → Cred_LineageID x ≠ newCredentialID (ent_id ent)) →
    service_Issue signer ent ownerID scopes label now c = (r, c') → cred_step (data c) (data c')
| step_exchange signer ent ctx clock presented now (w w' : service S) r :
    Exchange signer ent ctx clock presented now w = (r, w') →
    cred_step (data (svc_conn w)) (data (svc_conn w'))
| step_revoke ownerID id now c r c' :
    cred_Revoke ownerID id now c = (r, c') → cred_step (data c) (data c')
| step_revoke_lineage ownerID lineageID now c r c' :
    cred_RevokeLineage ownerID lineageID now c = (r, c') → cred_step (data c) (data c')
| step_expire cutoff limit c r c' :
    cred_DeleteExpired cutoff limit c = (r, c') → cred_step (data c) (data c')
| step_owner_create o c r c' : owner_Create o c = (r, c') → cred_step (data c) (data c')
| step_owner_status id st now c r c' : owner_UpdateStatus id st now c = (r, c') → cred_step (data c) (data c')
| step_owner_delete id now c r c' : owner_SoftDelete id now c = (r, c') → cred_step (data c) (data c')
| step_other_tables d d' : creds d' = creds d → owners d' = owners d → cred_step d d'.

(** A statement whose update keeps the invariant keeps it whether it fails or not. *)
Lemma exec_keeps (P : db → Prop) {A} f (g : Z → stM conn A) c r c' :
  P (data c) → (∀ n d, f (data c) = inr (n, d) → P d) → (∀ n c0 r0 c0', g n c0 = (r0, c0') → data c0' = data c0) →
  st_bind (exec f) g c = (r, c') → P (data c').
Proof.
  intros Hp Hf Hg. unfold st_bind. destruct (exec f c) as [[n|e] c1] eqn:E; apply exec_inv in E as [H _].
  - destruct H as [(n' & d & _ & Hfd & Hd)|(? & ? & _)]; [|done]. intros E. apply Hg in E. rewrite E, Hd. by eapply Hf.
  - destruct H as [(? & ? & ? & _)|(? & _ & Hd)]; [done|]. intros. simplify_eq. by rewrite Hd.
Qed.

Lemma requireAffected_data n c r c' : requireAffected n c = (r, c') → data c' = data c.
Proof. unfold requireAffected, st_fail, st_ret. destruct (n =? 0); intros; by simplify_eq. Qed.

Lemma inv_owners f d : lineage_inv d → lineage_inv (set_owners f d).
Proof. intros [Hk Hs Hsame Hone]. by split. Qed.

Lemma inv_step {S} `{!Store S} d d' : lineage_inv d → cred_step (S:=S) d d' → lineage_inv d'.
Proof.
  intros Hinv Hstep. destruct Hstep as [signer ent ownerID scopes label now c r c' Hfresh E|
    signer ent ctx clock presented now w w' r E|ownerID id now c r c' E|ownerID lin now c r c' E|cutoff limit c r c' E|
    o c r c' E|id st now c r c' E|id now c r c' E|d d' Hc _].
  - revert E. unfold service_Issue, st_fail. case_bool_decide; [intros; by simplify_eq|].
    destruct (ValidateScopes scopes) eqn:Hv; [intros; by simplify_eq|].
    destruct (validateClientLabel label); [intros; by simplify_eq|]. unfold st_try.
    destruct (cred_Create _ c) as [rc c1] eqn:Ec. intros E.
    apply cred_Create_inv in Ec as [(-> & Hnone & _ & Hd)|[Hr Hd]].
    + unfold lift in E. simplify_eq. rewrite Hd. apply inv_insert; try done.
      intros k c0 Hk El. simpl in El. by destruct (Hfresh _ _ Hk).
    + destruct rc; [done|]. simplify_eq. by rewrite Hd.
  - destruct (Exchange_inv _ _ _ _ _ _ _ _ _ E) as [[_ ->]|(id & secret & cred & owner & _ & Hrow & Hid & _ & _ & _ & _ & H)]; [done|].
    destruct H as [[_ [-> | ->]]|(issued & _ & _ & Hx)]; [done|by apply inv_revoked|].
    destruct Hx as [[? _]|(i & _ & Ha & _ & _ & Hne & Hf & -> & _)]; [done|]. apply inv_rotated; try done. by rewrite Hid.
  - refine (exec_keeps _ _ _ _ _ _ Hinv _ _ E); [|intros; by eapply requireAffected_data]. intros n d.
    unfold owned_cred. destruct (creds (data c) !! id) as [x|] eqn:Hx; [case_bool_decide|]; intros [= _ <-]; try done.
    by apply inv_set_status.
  - unfold cred_RevokeLineage in E. apply exec_inv in E as [[(n & d & _ & [= _ <-] & ->)|(? & _ & ->)] _]; [|done].
    revert Hinv. apply inv_demote. intros k c0. simpl. rewrite lookup_fmap.
    destruct (creds (data c) !! k) as [x|]; [|done]. intros [= <-]. eexists. split; [done|apply revoke_row_demoted].
  - unfold cred_DeleteExpired, st_fail in E. destruct (limit <=? 0); [by simplify_eq|].
    apply exec_inv in E as [[(n & d & _ & [= _ <-] & ->)|(? & _ & ->)] _]; [|done].
    revert Hinv. apply inv_demote. intros k c0. simpl. intros [Hk _]%map_lookup_filter_Some.
    exists c0. split; [done|apply demoted_refl].
  - refine (exec_keeps _ _ _ _ _ _ Hinv _ _ E); [|unfold st_ret; intros; by simplify_eq]. intros n d.
    destruct (owners (data c) !! _); [done|]. intros [= _ <-]. by apply inv_owners.
  - refine (exec_keeps _ _ _ _ _ _ Hinv _ _ E); [|intros; by eapply requireAffected_data]. intros n d.
    destruct (owners (data c) !! _); intros [= _ <-]; [by apply inv_owners|done].
  - refine (exec_keeps _ _ _ _ _ _ Hinv _ _ E); [|intros; by eapply requireAffected_data]. intros n d.
    destruct (owners (data c) !! _); intros [= _ <-]; [by apply inv_owners|done].
  - revert Hinv. apply inv_demote. intros k c0. rewrite Hc. intros H. exists c0. split; [done|apply demoted_refl].
Qed.

(** ** Claims *)

(** C1. A refresh credential is redeemed once, for no more than it was worth.  When
    [Exchange] succeeds -- whatever statements failed -- the token named a stored
    credential that was active and unexpired, its secret hashes to the stored digest,
    and its owner is active and not deleted.  The call retired exactly that credential
    and added exactly one new row: an active successor of the same owner, lineage,
    scopes and expiry.  The caller gets that expiry, those scopes and an access token
    of fifteen minutes; nothing else changed, in any table or on the denylist. *)
Theorem Exchange_rotates {S} `{!Store S} signer ent ctx clock presented now (w w' : service S) issued :
  Exchange signer ent ctx clock presented now w = (Ok issued, w') →
  let d := data (svc_conn w) in
  ∃ id secret cred owner, parseRefreshToken presented = Ok (id, secret) ∧ creds d !! id = Some cred ∧
    Cred_SecretHash cred = sha256 secret ∧ Cred_Status cred = CredentialStatusActive ∧ now < Cred_ExpiresAt cred ∧
    owners d !! Cred_OwnerID cred = Some owner ∧ Owner_Status owner = OwnerStatusActive ∧ Owner_DeletedAt owner = None ∧
    let new := newCredentialID (ent_id ent) in
    creds d !! new = None ∧
    svc_deny w' = svc_deny w ∧
    data (svc_conn w') = set_creds (λ t,
      <[new := MkRefreshCredential new (Cred_OwnerID cred) (Cred_LineageID cred) (sha256 (ent_secret ent)) (Cred_Scopes cred)
                 (Cred_ClientLabel cred) (Some id) now (Cred_ExpiresAt cred) CredentialStatusActive None]>
      (<[id := set_status CredentialStatusRotated (Cred_RevokedAt cred) cred]> t)) d ∧
    Iss_RefreshToken issued = formatRefreshToken new (ent_secret ent) ∧
    Iss_RefreshExpiresAt issued = Cred_ExpiresAt cred ∧ Iss_Scopes issued = Cred_Scopes cred ∧
    Iss_OwnerID issued = Cred_OwnerID cred ∧ Iss_LineageID issued = Cred_LineageID cred ∧
    Iss_AccessExpiresAt issued = now + AccessTokenLifetime.
Proof.
  intros E. cbv zeta.
  destruct (Exchange_inv _ _ _ _ _ _ _ _ _ E) as [[? _]|(id & secret & cred & owner & Hp & Hrow & Hid & Hsec & Hown & Hst & Hdel & H)]; [done|].
  destruct H as [[? _]|(i & [= <-] & Hdeny & Hx)]; [done|].
  destruct Hx as [[? _]|(i & [= <-] & Ha & Hexp & _ & _ & Hf & Hd & Hm)]; [done|].
  destruct (mint_ok _ _ _ _ _ _ Hm) as (H1 & H2 & H3 & H4 & H5 & H6).
  exists id, secret, cred, owner. rewrite Hd. unfold rotated_db, child_of. rewrite Hid. split_and!; done.
Qed.

(** C2. Lineages.  In every state that issuing, exchanging, revoking, expiring and
    owner changes can lead to from an empty database -- with any statement failing --
    the credentials of a lineage have one owner, one scope set and one expiry, and at
    most one of them is active: rotation can neither widen a grant nor extend it nor
    fork it.  (A new lineage's identifier is taken to be unused by a stored one; it is
    16 random bytes.) *)
Theorem lineage_never_widens {S} `{!Store S} d :
  steps (cred_step (S:=S)) empty_db d →
  ∀ k1 k2 c1 c2, creds d !! k1 = Some c1 → creds d !! k2 = Some c2 → Cred_LineageID c1 = Cred_LineageID c2 →
    Cred_OwnerID c1 = Cred_OwnerID c2 ∧ Cred_Scopes c1 = Cred_Scopes c2 ∧ Cred_ExpiresAt c1 = Cred_ExpiresAt c2 ∧
    (Cred_Status c1 = CredentialStatusActive → Cred_Status c2 = CredentialStatusActive → k1 = k2).
Proof.
  intros Hs. assert (lineage_inv d) as [_ _ Hsame Hone].
  { eapply (steps_invariant _ lineage_inv); [intros; by eapply inv_step| |exact Hs]. split; intros; simplify_map_eq. }
  intros k1 k2 c1 c2 H1 H2 El. destruct (Hsame _ _ _ _ H1 H2 El) as (? & ? & ?). split_and!; try done.
  intros. by eapply Hone.
Qed.

(** A credential after its lineage was revoked at an instant. *)
Definition revoked_in (ownerID lineageID : gostring) (now : time) (c : RefreshCredential) : RefreshCredential :=
  if decide (Cred_OwnerID c = ownerID ∧ Cred_LineageID c = lineageID ∧ Cred_Status c ≠ CredentialStatusRevoked)
  then set_status CredentialStatusRevoked (Some now) c else c.

Lemma revoke_row_revoked_in ownerID lineageID now c : revoke_row ownerID lineageID now c = revoked_in ownerID lineageID now c.
Proof.
  unfold revoke_row, revoked_in. case_decide as H.
  - destruct H as (-> & -> & Hs). by rewrite (bool_decide_eq_false_2 _ Hs), !bool_decide_eq_true_2.
  - destruct (_ && _ && _) eqn:E; [|done]. destruct H. apply andb_true_iff in E as [[E1 E2]%andb_true_iff E3%negb_true_iff].
    apply bool_decide_eq_true_1 in E1, E2. apply bool_decide_eq_false_1 in E3. done.
Qed.
Lemma revoked_in_lineage ownerID lineageID now o l c : in_lineage o l (revoked_in ownerID lineageID now c) ↔ in_lineage o l c.
Proof. unfold revoked_in. by case_decide. Qed.

Lemma query_row_calm {A} (f : db → option A) c a : faults c = [] → f (data c) = Some a → query_row f c = (Ok a, c).
Proof. intros Hf Ha. unfold query_row, st_bind, next_fault. rewrite Hf. by rewrite Ha. Qed.

(** C3. Replay is theft.  Presenting the secret of a credential of an active owner that is
    no longer active -- already exchanged, revoked or expired -- on a database that
    answers is refused, and revokes its whole lineage: afterwards every credential that
    the lineage had, the successor a thief may hold included, is there and revoked, at
    this instant unless it was before; no other row of any table changed; and the list
    handed to the denylist is exactly those credentials. *)
Theorem replay_revokes_lineage {S} `{!Store S} signer ent ctx clock presented now (w : service S) id secret cred owner :
  let d := data (svc_conn w) in
  faults (svc_conn w) = [] → parseRefreshToken presented = Ok (id, secret) →
  creds d !! id = Some cred → Cred_ID cred = id → Cred_SecretHash cred = sha256 secret →
  Cred_Status cred ≠ CredentialStatusActive → Cred_OwnerID cred ≠ [] → Cred_LineageID cred ≠ [] →
  owners d !! Cred_OwnerID cred = Some owner → Owner_ID owner = Cred_OwnerID cred →
  Owner_Status owner = OwnerStatusActive → Owner_DeletedAt owner = None →
  ∃ w' l, Exchange signer ent ctx clock presented now w = (Err ErrAuthFailed, w') ∧
    data (svc_conn w') = set_creds (fmap (revoked_in (Cred_OwnerID cred) (Cred_LineageID cred) now)) d ∧
    svc_deny w' = snd (RevokeLineage ctx clock l now (svc_deny w)) ∧
    (∀ x, x ∈ l ↔ ∃ k c, creds d !! k = Some c ∧ in_lineage (Cred_OwnerID cred) (Cred_LineageID cred) c ∧
       x = revoked_in (Cred_OwnerID cred) (Cred_LineageID cred) now c).
Proof.
  cbv zeta. intros Hf Hp Hrow Hid Hsec Hst Ho Hl Hown Hoid Hact Hdel.
  destruct (service_revokeLineage cred now (svc_conn w)) as [rl c1] eqn:Er.
  destruct (service_revokeLineage_inv _ _ _ _ _ Er) as [_ HF]. destruct (HF Hf) as (Hf1 & l & -> & Hd & Hin).
  assert (exchange_tx signer ent id secret now (svc_conn w) = (Ok (None, l), c1)) as Htx.
  { unfold exchange_tx, st_try, cred_GetByID, owner_Get. rewrite (query_row_calm _ _ cred Hf Hrow).
    rewrite Hid, bool_decide_eq_true_2 by done. unfold secretMatches, hashRefreshSecret.
    rewrite bool_decide_eq_true_2, !bool_decide_eq_false_2 by done. cbn [negb orb].
    rewrite (query_row_calm _ _ owner Hf Hown). rewrite Hoid, Hact, Hdel. rewrite !bool_decide_eq_true_2 by done.
    rewrite bool_decide_eq_false_2 by (intros []; done). cbn [negb orb]. unfold exchange_active.
    rewrite bool_decide_eq_false_2 by done. cbn [negb]. unfold st_bind. by rewrite Er. }
  assert (l ≠ []) as Hne.
  { intros ->. destruct (Hin (revoke_row (Cred_OwnerID cred) (Cred_LineageID cred) now cred)) as [_ H].
    apply (not_elem_of_nil _ ) in H; [done|]. exists id. rewrite Hd. simpl. rewrite lookup_fmap, Hrow. split; [done|].
    unfold revoke_row. destruct (_ && _ && _); by split. }
  exists (MkService c1 (snd (RevokeLineage ctx clock l now (svc_deny w)))), l. split_and!.
  - unfold Exchange. rewrite Hp, (WithTx_no_faults _ _ Hf _ _ Htx Hf1). unfold denyRevoked.
    by rewrite bool_decide_eq_false_2.
  - simpl. rewrite Hd. unfold revoked_db, set_creds. f_equal. apply map_fmap_ext. intros k c _. apply revoke_row_revoked_in.
  - done.
  - intros x. rewrite Hin, Hd. simpl. setoid_rewrite lookup_fmap. setoid_rewrite fmap_Some. split.
    + intros (k & (c & Hk & ->) & Hx). exists k, c. rewrite revoke_row_revoked_in in *. by rewrite revoked_in_lineage in Hx.
    + intros (k & c & Hk & Hx & ->). exists k. rewrite revoked_in_lineage. split; [|done]. exists c. by rewrite revoke_row_revoked_in.
Qed.

(** ** Witnesses *)

Definition w_secret : bytes := go "0123456789abcdef0123456789abcdef".
Definition w_token : gostring := go "svr_MDEyMzQ1Njc4OWFiY2RlZg.MDEyMzQ1Njc4OWFiY2RlZjAxMjM0NTY3ODlhYmNkZWY".
Definition w_id : gostring := go "MDEyMzQ1Njc4OWFiY2RlZg".
Definition w_owner : Owner := MkOwner (go "o") OwnerStatusActive 0 0 None.
Definition w_cred : RefreshCredential :=
  MkRefreshCredential w_id (go "o") w_id (sha256 w_secret) [MkScope ScopeFullOwner []] (go "cli") None 0 (90 * 24 * Hour)
    CredentialStatusActive None.
Definition w_ent : entropy := MkEntropy (go "fedcba9876543210") (go "fedcba9876543210fedcba9876543210") (go "0000111122223333").
Definition w_service (st : CredentialStatus) : service MemoryStore :=
  MkService (MkConn (set_owners (λ _, {[ go "o" := w_owner ]}) (set_creds (λ _, {[ w_id := set_status st None w_cred ]}) empty_db)) []) (MkMemoryStore ∅ 0).

Lemma Exchange_rotates_witness :
  let r := Exchange sample_signer w_ent None (λ _, Hour) w_token Hour (w_service CredentialStatusActive) in
  ∃ issued, fst r = Ok issued ∧ Iss_RefreshExpiresAt issued = 90 * 24 * Hour ∧
    size (creds (data (svc_conn (snd r)))) = 2%nat.
Proof.
  intros r. assert (is_ok (fst r) = true) as Hok by (vm_compute; reflexivity).
  assert (size (creds (data (svc_conn (snd r)))) = 2%nat) as Hsz by (vm_compute; reflexivity).
  destruct r as [[issued|e] w'] eqn:E; [|discriminate]. exists issued.
  destruct (Exchange_rotates _ _ _ _ _ _ _ _ _ E) as (id & secret & cred & owner & Hp & Hrow & _ & _ & _ & _ & _ & _ & _ & _ & _ & _ & Hexp & _).
  split; [reflexivity|]. split; [|exact Hsz]. rewrite Hexp.
  assert (parseRefreshToken w_token = Ok (w_id, w_secret)) as Hp' by (vm_compute; reflexivity).
  rewrite Hp' in Hp. injection Hp as <- <-.
  assert (creds (data (svc_conn (w_service CredentialStatusActive))) !! w_id = Some (set_status CredentialStatusActive None w_cred)) as Hr'
    by (vm_compute; reflexivity).
  rewrite Hr' in Hrow. injection Hrow as <-. reflexivity.
Defined.

Definition w_ent0 : entropy := MkEntropy (go "0123456789abcdef") w_secret (go "0000111122223333").
Definition w_conn1 : conn := snd (owner_Create w_owner (MkConn empty_db [])).
Definition w_conn2 : conn := snd (service_Issue sample_signer w_ent0 (go "o") [MkScope ScopeFullOwner []] (go "cli") 0 w_conn1).
Definition w_service3 : service MemoryStore :=
  snd (Exchange sample_signer w_ent None (λ _, Hour) w_token Hour (MkService w_conn2 (MkMemoryStore ∅ 0))).

Lemma lineage_never_widens_witness :
  size (creds (data (svc_conn w_service3))) = 2%nat ∧
  ∀ k1 k2 c1 c2, creds (data (svc_conn w_service3)) !! k1 = Some c1 → creds (data (svc_conn w_service3)) !! k2 = Some c2 →
    Cred_LineageID c1 = Cred_LineageID c2 → Cred_ExpiresAt c1 = Cred_ExpiresAt c2.
Proof.
  assert (creds (data w_conn1) = ∅) as Hempty by (vm_compute; reflexivity).
  assert (steps (cred_step (S:=MemoryStore)) empty_db (data (svc_conn w_service3))) as Hs.
  { eapply steps_cons; [exact (step_owner_create w_owner (MkConn empty_db []) _ w_conn1 (surjective_pairing _))|].
    eapply steps_cons; [refine (step_issue sample_signer w_ent0 _ _ _ _ w_conn1 _ w_conn2 _ (surjective_pairing _))|].
    { intros k x Hk. rewrite Hempty in Hk. discriminate Hk. }
    eapply steps_cons; [|apply steps_nil].
    exact (step_exchange sample_signer w_ent None (λ _, Hour) w_token Hour (MkService w_conn2 (MkMemoryStore ∅ 0)) w_service3 _
      (surjective_pairing _)). }
  split; [vm_compute; reflexivity|].
  intros k1 k2 c1 c2 H1 H2 El. destruct (lineage_never_widens _ Hs _ _ _ _ H1 H2 El) as (_ & _ & H & _). exact H.
Defined.

Lemma replay_revokes_lineage_witness : ∃ w' l,
  Exchange sample_signer w_ent None (λ _, Hour) w_token Hour (w_service CredentialStatusRotated) = (Err ErrAuthFailed, w') ∧
  svc_deny w' = snd (RevokeLineage None (λ _, Hour) l Hour (MkMemoryStore ∅ 0)) ∧
  (∀ x, x ∈ l ↔ ∃ k c, creds (data (svc_conn (w_service CredentialStatusRotated))) !! k = Some c ∧ in_lineage (go "o") w_id c ∧ x = revoked_in (go "o") w_id Hour c).
Proof.
  pose (c := set_status CredentialStatusRotated None w_cred). pose (w := w_service CredentialStatusRotated).
  assert (faults (svc_conn w) = []) as H1 by (vm_compute; reflexivity).
  assert (parseRefreshToken w_token = Ok (w_id, w_secret)) as H2 by (vm_compute; reflexivity).
  assert (creds (data (svc_conn w)) !! w_id = Some c) as H3 by (vm_compute; reflexivity).
  assert (owners (data (svc_conn w)) !! Cred_OwnerID c = Some w_owner) as H4 by (vm_compute; reflexivity).
  assert (Cred_SecretHash c = sha256 w_secret) as H5 by reflexivity.
  destruct (replay_revokes_lineage sample_signer w_ent None (λ _, Hour) w_token Hour w w_id w_secret c w_owner
    H1 H2 H3 eq_refl H5 ltac:(discriminate) ltac:(discriminate) ltac:(discriminate) H4 eq_refl eq_refl eq_refl)
    as (w' & l & HE & _ & Hdeny & Hin).
  exists w', l. split; [exact HE|]. split; [exact Hdeny|exact Hin].
Defined.
