(* ===== verification/Migrate.v ===== *)
(** * Schema migrations

    [internal/migrate]: the registry, the ledger, and the runner that applies and
    reverts migrations.  What a SQL statement does to the schema is the database
    engine's: [run_sql] and the catalog query [table_present] are parameters.  The
    ledger table is kept in key order, which is the order it is selected in.  Every
    statement, and beginning and committing a transaction, can fail ([m_faults]). *)

From stdpp Require Import sorting.
From S2P Require Import Prelude DomainErrors GoLib Domain Sha256 Database.

Open Scope Z_scope.

(** ** Data *)

(** src/internal/migrate/migrate.go:18-29, Engine *)
Inductive Engine := EngineSQLite | EnginePostgres | EngineOther (s : gostring).

#[export] Instance Engine_eq_dec : EqDecision Engine.
Proof. solve_decision. Defined.

(** src/internal/migrate/migrate.go:31-39, Engine.Valid *)
Definition Engine_Valid (e : Engine) : bool := match e with EngineOther _ => false | _ => true end.

(** src/internal/migrate/migration.go:5-14, Steps *)
Record Steps := MkSteps { Steps_SQLite : list gostring; Steps_Postgres : list gostring }.

(** src/internal/migrate/migration.go:16-26, Steps.forEngine *)
Definition forEngine (s : Steps) (e : Engine) : list gostring :=
  match e with
  | EngineSQLite => Steps_SQLite s
  | EnginePostgres => Steps_Postgres s
  | EngineOther _ => []
  end.

(** src/internal/migrate/preconditions.go:10-44, TableExists
    (the two preconditions the package builds) *)
Inductive Precondition :=
| TableExists (name : gostring)
| TableAbsent (name : gostring).

(** src/internal/migrate/migration.go:28-43, Precondition
    (its description, for names [%q] does not escape) *)
Definition pc_Description (p : Precondition) : gostring :=
  let quoted n := byte_of 34 :: n ++ [byte_of 34] in
  match p with
  | TableExists n => go "table " ++ quoted n ++ go " must exist"
  | TableAbsent n => go "table " ++ quoted n ++ go " must be absent"
  end.

(** src/internal/migrate/migration.go:45-72, Migration *)
Record Migration := MkMigration {
  M_ID : gostring;
  M_Name : gostring;
  M_Requires : list gostring;
  M_Preconditions : list Precondition;
  M_Up : Steps;
  M_Down : Steps;
  M_Destructive : bool;
  M_IrreversibleReason : gostring;
}.

(** src/internal/migrate/ledger.go:11-24, Ledger *)
Record Ledger := MkLedger {
  L_ID : gostring;
  L_Name : gostring;
  L_Checksum : gostring;
  L_AppliedAt : time;
  L_Engine : Engine;
}.

(** src/internal/migrate/errors.go:9-49, ErrInvalidRegistry *)
Definition ErrInvalidRegistry : goerror := errorf "migrate: invalid registry" [ErrInvalidInput].
Definition ErrChecksumMismatch : goerror := errorf "migrate: checksum mismatch" [ErrConflict].
Definition ErrLedgerAhead : goerror := errorf "migrate: ledger ahead of registry" [ErrConflict].
Definition ErrLedgerOrder : goerror := errorf "migrate: ledger order invalid" [ErrConflict].
Definition ErrEngineMismatch : goerror := errorf "migrate: engine mismatch" [ErrConflict].
Definition ErrDependencyUnmet : goerror := errorf "migrate: dependency unmet" [ErrConflict].
Definition ErrPreconditionFailed : goerror := errorf "migrate: precondition failed" [ErrConflict].
Definition ErrDestructiveBlocked : goerror := errorf "migrate: destructive migration blocked" [ErrForbidden].
Definition ErrIrreversible : goerror := errorf "migrate: migration is irreversible" [ErrForbidden].
Definition ErrUnknownTarget : goerror := errorf "migrate: unknown target" [ErrNotFound].

(** [strings.Join(parts, sep)] with a one-byte separator. *)
Definition join (sep : ascii) (parts : list gostring) : gostring :=
  match parts with [] => [] | p :: ps => foldl (λ acc x, acc ++ sep :: x) p ps end.

(** src/internal/migrate/checksum.go:14-30, ChecksumFor *)
Definition ChecksumFor (m : Migration) (e : Engine) : gostring :=
  hex_encode (sha256 (join (byte_of 0) (M_ID m :: M_Name m :: forEngine (M_Up m) e))).

(** ** The registry *)

(** src/internal/migrate/registry.go:11-19, Registry *)
Record Registry := MkRegistry { ordered : list Migration; byID : gmap gostring Migration }.

(** src/internal/migrate/registry.go:8-9, idPattern *)
Definition idPattern (s : gostring) : bool :=
  (length s =? 4)%nat && forallb (λ c, (48 <=? byte_val c) && (byte_val c <=? 57)) s.

(** src/internal/migrate/registry.go:34-70, NewRegistry
    (one turn of the loop; [prevID] is [None] before the first) *)
Definition register (reg : Registry) (prevID : option gostring) (m : Migration) : result Registry :=
  let invalid := Err ErrInvalidRegistry in
  if negb (idPattern (M_ID m)) then invalid else
  if bool_decide (is_Some (byID reg !! M_ID m)) then invalid else
  if match prevID with Some p => bytes_le (M_ID m) p | None => false end then invalid else
  if bool_decide (M_Name m = []) then invalid else
  if bool_decide (Steps_SQLite (M_Up m) = []) || bool_decide (Steps_Postgres (M_Up m) = []) then invalid else
  if bool_decide (M_IrreversibleReason m = []) &&
     (bool_decide (Steps_SQLite (M_Down m) = []) || bool_decide (Steps_Postgres (M_Down m) = [])) then invalid else
  if existsb (λ p, bool_decide (pc_Description p = [])) (M_Preconditions m) then invalid else
  if existsb (λ r, bool_decide (byID reg !! r = None)) (M_Requires m) then invalid else
  Ok (MkRegistry (ordered reg ++ [m]) (<[M_ID m := m]> (byID reg))).

Fixpoint register_all (reg : Registry) (prevID : option gostring) (ms : list Migration) : result Registry :=
  match ms with
  | [] => Ok reg
  | m :: ms' => reg' ← register reg prevID m; register_all reg' (Some (M_ID m)) ms'
  end.

(** src/internal/migrate/registry.go:21-73, NewRegistry
    (every way a migration can be malformed is the one error) *)
Definition NewRegistry (ms : list Migration) : result Registry := register_all (MkRegistry [] ∅) None ms.

(** src/internal/migrate/registry.go:92-100, Registry.Get *)
Definition Registry_Get (reg : Registry) (id : gostring) : option Migration := byID reg !! id.

(** ** The database, as the runner sees it *)

Section Runner.
Context {D : Type} (run_sql : gostring → D → result D) (table_present : gostring → D → bool).

Record mconn := MkMconn {
  m_schema : D;
  m_ledger : option (list Ledger);          (* [None]: the table does not exist *)
  m_faults : list (option goerror);
}.

Open Scope stm_scope.

Definition m_fault : stM mconn unit := λ c,
  match m_faults c with
  | Some e :: fs => (Err e, MkMconn (m_schema c) (m_ledger c) fs)
  | None :: fs => (Ok tt, MkMconn (m_schema c) (m_ledger c) fs)
  | [] => (Ok tt, c)
  end.

Definition with_msg {A} (msg : string) (m : stM mconn A) : stM mconn A := λ c,
  match m c with (Ok a, c') => (Ok a, c') | (Err e, c') => (Err (errorf msg [e]), c') end.

(** A transaction: begin, the body, commit; anything failing rolls back. *)
Definition in_tx {A} (body : stM mconn A) : stM mconn A := λ c,
  match with_msg "migrate: begin transaction" m_fault c with
  | (Err e, c) => (Err e, c)
  | (Ok _, c) =>
      let rollback c' := MkMconn (m_schema c) (m_ledger c) (m_faults c') in
      match body c with
      | (Err e, c') => (Err e, rollback c')
      | (Ok a, c') =>
          match with_msg "migrate: commit" m_fault c' with
          | (Err e, c'') => (Err e, rollback c'')
          | (Ok _, c'') => (Ok a, c'')
          end
      end
  end.

Definition no_table : goerror := errors_new "no such table: schema_migrations".

(** src/internal/migrate/ledger.go:59-63, ensureLedgerTable *)
Definition ensureLedgerTable : stM mconn unit :=
  let! _ := m_fault in
  λ c, match m_ledger c with
       | Some _ => (Ok tt, c)
       | None => (Ok tt, MkMconn (m_schema c) (Some []) (m_faults c))
       end.

(** A row goes to its place in key order; its key must be new. *)
Fixpoint insert_row (l : Ledger) (rows : list Ledger) : option (list Ledger) :=
  match rows with
  | [] => Some [l]
  | r :: rows' =>
      if bool_decide (L_ID l = L_ID r) then None
      else if bytes_le (L_ID l) (L_ID r) then Some (l :: rows)
      else (r ::.) <$> insert_row l rows'
  end.

(** src/internal/migrate/ledger.go:65-70, insertLedger
    (the instant is stored to the second) *)
Definition insertLedger (l : Ledger) : stM mconn unit :=
  let! _ := m_fault in
  λ c, match m_ledger c with
       | None => (Err no_table, c)
       | Some rows =>
           match insert_row (MkLedger (L_ID l) (L_Name l) (L_Checksum l)
                               (unix_time (time_unix (L_AppliedAt l))) (L_Engine l)) rows with
           | None => (Err (errors_new "UNIQUE constraint failed: schema_migrations.id"), c)
           | Some rows' => (Ok tt, MkMconn (m_schema c) (Some rows') (m_faults c))
           end
       end.

(** src/internal/migrate/ledger.go:72-76, deleteLedger *)
Definition deleteLedger (id : gostring) : stM mconn unit :=
  let! _ := m_fault in
  λ c, match m_ledger c with
       | None => (Err no_table, c)
       | Some rows => (Ok tt, MkMconn (m_schema c) (Some (filter (λ r, L_ID r ≠ id) rows)) (m_faults c))
       end.

(** src/internal/migrate/ledger.go:78-110, loadLedger *)
Definition loadLedger : stM mconn (list Ledger) :=
  with_msg "migrate: load ledger" (
    let! _ := m_fault in
    λ c, match m_ledger c with None => (Err no_table, c) | Some rows => (Ok rows, c) end).

(** src/internal/migrate/preconditions.go:60-83, tablePresent *)
Definition tablePresent (name : gostring) : stM mconn bool :=
  with_msg "migrate: catalog query" (let! _ := m_fault in λ c, (Ok (table_present name (m_schema c)), c)).

(** src/internal/migrate/preconditions.go:15-43, TableExists ([pc.Check]) *)
Definition pc_Check (p : Precondition) : stM mconn unit :=
  match p with
  | TableExists n =>
      let! present := tablePresent n in
      if present then st_ret tt else st_fail (errorf "migrate: required table is absent" [ErrConflict])
  | TableAbsent n =>
      let! present := tablePresent n in
      if present then st_fail (errorf "migrate: table must be absent but exists" [ErrConflict]) else st_ret tt
  end.

Fixpoint check_preconditions (ps : list Precondition) : stM mconn unit :=
  match ps with
  | [] => st_ret tt
  | p :: ps' =>
      try! r := pc_Check p in
      match r with
      | Err e =>
          st_fail (errorf "migrate: migration precondition"
                     [if errors_is e ErrConflict then ErrPreconditionFailed else e])
      | Ok _ => check_preconditions ps'
      end
  end.

(** [tx.Exec] of one statement and of a list of them. *)
Definition exec_sql (stmt : gostring) : stM mconn unit :=
  let! _ := m_fault in
  λ c, match run_sql stmt (m_schema c) with
       | Ok d => (Ok tt, MkMconn d (m_ledger c) (m_faults c))
       | Err e => (Err e, c)
       end.
Fixpoint exec_steps (msg : string) (stmts : list gostring) : stM mconn unit :=
  match stmts with
  | [] => st_ret tt
  | s :: stmts' => let! _ := with_msg msg (exec_sql s) in exec_steps msg stmts'
  end.

(** ** The runner *)

(** src/internal/migrate/runner.go:12-22, Runner *)
Record Runner := MkRunner { r_engine : Engine; r_reg : Registry; r_allowDestructive : bool }.

(** src/internal/migrate/runner.go:37-61, NewRunner
    (the clock is an argument of [Up]; a nil database or registry has no value here) *)
Definition NewRunner (engine : Engine) (reg : Registry) (allowDestructive : bool) : result Runner :=
  if negb (Engine_Valid engine) then Err (errorf "migrate: unknown engine" [ErrInvalidInput])
  else Ok (MkRunner engine reg allowDestructive).

(** src/internal/migrate/runner.go:307-326, checkDependencies *)
Fixpoint checkDependencies (have : gset gostring) (pending : list Migration) : option goerror :=
  match pending with
  | [] => None
  | m :: pending' =>
      if existsb (λ req, bool_decide (req ∉ have)) (M_Requires m) then
        Some (errorf "migrate: migration requires another that is not applied" [ErrDependencyUnmet])
      else checkDependencies ({[M_ID m]} ∪ have) pending'
  end.

(** src/internal/migrate/runner.go:188-199, Runner.verify (one ledger row) *)
Definition check_row (r : Runner) (row : Ledger) : option goerror :=
  match Registry_Get (r_reg r) (L_ID row) with
  | None => Some (errorf "migrate: ledger records a migration absent from the registry" [ErrLedgerAhead])
  | Some m =>
      if negb (bool_decide (L_Engine row = r_engine r)) then
        Some (errorf "migrate: ledger migration was applied under another engine" [ErrEngineMismatch])
      else if negb (bool_decide (L_Checksum row = ChecksumFor m (r_engine r))) then
        Some (errorf "migrate: ledger migration checksum does not match the registry" [ErrChecksumMismatch])
      else None
  end.
(** The error of the first element that has one. *)
Fixpoint first_error {A} (f : A → option goerror) (l : list A) : option goerror :=
  match l with
  | [] => None
  | a :: l' => match f a with Some e => Some e | None => first_error f l' end
  end.

(** src/internal/migrate/runner.go:164-218, Runner.verify *)
Definition verify (r : Runner) : stM mconn (list Ledger * list Migration) :=
  let! applied := loadLedger in
  let all := ordered (r_reg r) in
  if (length all <? length applied)%nat then
    st_fail (errorf "migrate: ledger records more migrations than the registry contains" [ErrLedgerAhead]) else
  match first_error (check_row r) applied with
  | Some e => st_fail e
  | None =>
      match first_error (λ '(row, m), if negb (bool_decide (L_ID row = M_ID m)) then
                           Some (errorf "migrate: applied migrations are not a contiguous registry prefix" [ErrLedgerOrder])
                         else None) (zip applied all) with
      | Some e => st_fail e
      | None =>
          let pending := drop (length applied) all in
          match checkDependencies (list_to_set (L_ID <$> applied)) pending with
          | Some e => st_fail e
          | None => st_ret (applied, pending)
          end
      end
  end.

(** src/internal/migrate/runner.go:101-144, Runner.applyOne *)
Definition applyOne (r : Runner) (now : time) (m : Migration) : stM mconn Ledger :=
  in_tx (
    let! _ := check_preconditions (M_Preconditions m) in
    let! _ := exec_steps "migrate: migration up step" (forEngine (M_Up m) (r_engine r)) in
    let l := MkLedger (M_ID m) (M_Name m) (ChecksumFor m (r_engine r)) now (r_engine r) in
    let! _ := with_msg "migrate: migration: record ledger" (insertLedger l) in
    st_ret l).

(** src/internal/migrate/runner.go:90-98, Runner.Up (the loop; [clock] is read once per migration) *)
Fixpoint apply_all (r : Runner) (clock : nat → time) (pending : list Migration) (applied : list Ledger) (c : mconn)
    : (list Ledger * option goerror) * mconn :=
  match pending with
  | [] => ((applied, None), c)
  | m :: pending' =>
      match applyOne r (clock (length pending')) m c with
      | (Err e, c) => ((applied, Some e), c)
      | (Ok l, c) => apply_all r clock pending' (applied ++ [l]) c
      end
  end.

(** src/internal/migrate/runner.go:72-99, Runner.Up *)
Definition Up (r : Runner) (clock : nat → time) (c : mconn) : (list Ledger * option goerror) * mconn :=
  match ensureLedgerTable c with
  | (Err e, c) => (([], Some e), c)
  | (Ok _, c) =>
      match verify r c with
      | (Err e, c) => (([], Some e), c)
      | (Ok (_, pending), c) => apply_all r clock pending [] c
      end
  end.

(** src/internal/migrate/runner.go:285-305, Runner.revertOne *)
Definition revertOne (r : Runner) (m : Migration) : stM mconn unit :=
  in_tx (
    let! _ := exec_steps "migrate: migration down step" (forEngine (M_Down m) (r_engine r)) in
    with_msg "migrate: migration: delete ledger" (deleteLedger (M_ID m))).

(** src/internal/migrate/runner.go:259-270, Runner.Down
    (the guards, checked for every migration before any is reverted) *)
Definition check_revert (r : Runner) (l : Ledger) : option goerror :=
  match Registry_Get (r_reg r) (L_ID l) with
  | None => Some (errorf "migrate: ledger records a migration absent from the registry" [ErrLedgerAhead])
  | Some m =>
      if negb (bool_decide (M_IrreversibleReason m = [])) then
        Some (errorf "migrate: migration is irreversible" [ErrIrreversible])
      else if M_Destructive m && negb (r_allowDestructive r) then
        Some (errorf "migrate: migration is destructive and reverting it requires AllowDestructive" [ErrDestructiveBlocked])
      else None
  end.

(** src/internal/migrate/runner.go:272-282, Runner.Down
    (the loop, newest first: [todo] is the rows to revert, reversed) *)
Fixpoint revert_all (r : Runner) (todo : list Ledger) (reverted : list Ledger) (c : mconn)
    : (list Ledger * option goerror) * mconn :=
  match todo with
  | [] => ((reverted, None), c)
  | l :: todo' =>
      match Registry_Get (r_reg r) (L_ID l) with
      | None => ((reverted, None), c)          (* unreachable: [check_revert] found it *)
      | Some m =>
          match revertOne r m c with
          | (Err e, c) => ((reverted, Some e), c)
          | (Ok _, c) => revert_all r todo' (reverted ++ [l]) c
          end
      end
  end.

(** src/internal/migrate/runner.go:238-252, Runner.Down
    (the number of rows to keep: none for an empty target, else up to the target) *)
Definition keep_upto (toID : gostring) (applied : list Ledger) : option nat :=
  if bool_decide (toID = []) then Some 0%nat
  else (λ p, S (fst p)) <$> list_find (λ l, L_ID l = toID) applied.

(** src/internal/migrate/runner.go:220-283, Runner.Down *)
Definition Down (r : Runner) (toID : gostring) (c : mconn) : (list Ledger * option goerror) * mconn :=
  match ensureLedgerTable c with
  | (Err e, c) => (([], Some e), c)
  | (Ok _, c) =>
      match verify r c with
      | (Err e, c) => (([], Some e), c)
      | (Ok (applied, _), c) =>
          match keep_upto toID applied with
          | None => (([], Some (errorf "migrate: down target is not an applied migration" [ErrUnknownTarget])), c)
          | Some keep =>
              let toRevert := drop keep applied in
              match first_error (check_revert r) toRevert with
              | Some e => (([], Some e), c)
              | None => revert_all r (rev toRevert) [] c
              end
          end
      end
  end.

(** src/internal/migrate/runner.go:146-162, Runner.Status
    (the applied rows and the identifiers of the pending migrations) *)
Definition Status (r : Runner) : stM mconn (list Ledger * list gostring) :=
  let! _ := ensureLedgerTable in
  let! v := verify r in
  st_ret (fst v, M_ID <$> snd v).

Close Scope stm_scope.
End Runner.
Arguments mconn : clear implicits.
Arguments MkMconn {D}.
Arguments m_schema {D}.
Arguments m_ledger {D}.
Arguments m_faults {D}.

(** ** Lemmas on identifiers and the registry *)

(** [a] sorts strictly before [b]. *)
Definition before (a b : gostring) : Prop := bytes_le b a = false.

Lemma before_trans a b c : before a b → before b c → before a c.
Proof.
  unfold before. intros H1 H2. apply not_true_iff_false. intros H.
  destruct (bytes_le_total _ _ H1) as [H1' _]. rewrite (bytes_le_trans _ _ _ H H1') in H2. done.
Qed.

Lemma before_ne a b : before a b → a ≠ b.
Proof. unfold before. intros H ->. by rewrite bytes_le_refl in H. Qed.

(** What [NewRegistry] establishes. *)
Record registry_ok (reg : Registry) : Prop := {
  ro_get : ∀ id m, byID reg !! id = Some m ↔ m ∈ ordered reg ∧ M_ID m = id;
  ro_sorted : StronglySorted before (M_ID <$> ordered reg);
  ro_requires : ∀ i m req, ordered reg !! i = Some m → req ∈ M_Requires m →
    ∃ j m', (j < i)%nat ∧ ordered reg !! j = Some m' ∧ M_ID m' = req;
}.

Lemma StronglySorted_snoc (l : list gostring) x : StronglySorted before l → Forall (λ y, before y x) l →
  StronglySorted before (l ++ [x]).
Proof.
  induction 1 as [|y l Hs IH Hy]; intros Hall; simpl; [repeat constructor|].
  apply Forall_cons in Hall as [Hyx Hall]. constructor; [by apply IH|]. apply Forall_app_2; [done|by constructor].
Qed.

Lemma StronglySorted_last (l : list gostring) x : StronglySorted before (l ++ [x]) → Forall (λ y, before y x) l.
Proof.
  induction l as [|y l IH]; simpl; intros H; [constructor|]. inversion H as [|?? Hs Hy]; subst.
  apply Forall_app in Hy as [_ Hy]. apply Forall_cons in Hy as [Hy _]. constructor; [done|by apply IH].
Qed.

Lemma register_ok reg prev m reg' : registry_ok reg → last (M_ID <$> ordered reg) = prev →
  register reg prev m = Ok reg' → registry_ok reg' ∧ ordered reg' = ordered reg ++ [m].
Proof.
  intros [Hget Hsort Hreq] Hlast. unfold register. destruct (idPattern _); [|done]. case_bool_decide as Hdup; [done|].
  destruct (match prev with Some p => _ | None => _ end) eqn:Hprev; [done|]. case_bool_decide; [done|].
  destruct (bool_decide (Steps_SQLite (M_Up m) = []) || _); [done|].
  destruct (bool_decide (M_IrreversibleReason m = []) && _); [done|].
  cbn [negb]. destruct (existsb _ (M_Preconditions m)); [done|]. destruct (existsb _ (M_Requires m)) eqn:Hr; [done|].
  intros. simplify_eq. split; [|done].
  assert (Forall (λ y, before y (M_ID m)) (M_ID <$> ordered reg)) as Hlt.
  { revert Hsort Hprev. generalize (M_ID <$> ordered reg).
    intros l Hsort Hprev. destruct l as [|x l _] using rev_ind; [constructor|]. rewrite last_snoc in Hprev.
    apply Forall_app_2; [|by constructor]. eapply Forall_impl; [by apply StronglySorted_last|].
    intros y Hy. exact (before_trans _ _ _ Hy Hprev). }
  split; simpl.
  - intros id x. rewrite lookup_insert_Some, Hget, elem_of_app, list_elem_of_singleton. split.
    + intros [[<- <-]|[Hne [Hin <-]]]; auto.
    + intros [[Hin| ->] <-]; [|by left]. right. split; [|done]. intros E.
      apply Hdup. rewrite E. eexists. by apply Hget.
  - rewrite fmap_app. by apply StronglySorted_snoc.
  - intros i x req Hi Hx. apply lookup_app_Some in Hi as [Hi|[Hi Hs]].
    + destruct (Hreq _ _ _ Hi Hx) as (j & m' & Hj & Hm' & <-). exists j, m'. split_and!; try done. by apply lookup_app_l_Some.
    + apply list_lookup_singleton_Some in Hs as [Hi' <-]. apply not_true_iff_false in Hr.
      destruct (byID reg !! req) as [m'|] eqn:Hm'.
      * apply Hget in Hm' as [Hin <-]. apply list_elem_of_lookup in Hin as [j Hj]. exists j, m'.
        split_and!; [apply lookup_lt_Some in Hj; lia|by apply lookup_app_l_Some|done].
      * exfalso. apply Hr, existsb_exists. exists req. split; [by apply list_elem_of_In|by apply bool_decide_eq_true].
Qed.

Lemma register_all_ok ms : ∀ reg prev reg', registry_ok reg → last (M_ID <$> ordered reg) = prev →
  register_all reg prev ms = Ok reg' → registry_ok reg' ∧ ordered reg' = ordered reg ++ ms.
Proof.
  induction ms as [|m ms IH]; intros reg prev reg' Hok Hlast; simpl.
  { intros. simplify_eq. by rewrite app_nil_r. }
  destruct (register reg prev m) as [reg1|] eqn:E; [|done]. simpl. intros H.
  destruct (register_ok _ _ _ _ Hok Hlast E) as [Hok1 Ho1].
  destruct (IH reg1 (Some (M_ID m)) reg' Hok1) as [? Ho]; [by rewrite Ho1, fmap_app; simpl; rewrite last_snoc|done|].
  split; [done|]. by rewrite Ho, Ho1, <- app_assoc.
Qed.

Lemma NewRegistry_ok ms reg : NewRegistry ms = Ok reg → registry_ok reg ∧ ordered reg = ms.
Proof.
  intros H. unfold NewRegistry in H.
  destruct (register_all_ok ms (MkRegistry [] ∅) None reg) as [? ?]; try done.
  split; simpl; [|constructor|done]. intros id m. rewrite lookup_empty, elem_of_nil. by split; [|intros []].
Qed.

Lemma first_error_None {A} (f : A → option goerror) l : first_error f l = None ↔ Forall (λ a, f a = None) l.
Proof.
  induction l as [|a l IH]; simpl; [by split; [constructor|]|]. rewrite Forall_cons, <- IH.
  destruct (f a); split; [done|by intros [? _]|done|by intros [_ ?]].
Qed.

Section RunnerLemmas.
Context {D : Type} (run_sql : gostring → D → result D) (table_present : gostring → D → bool).

(** The ledger rows; a missing table counts as empty. *)
Definition rows_of (c : mconn D) : list Ledger := default [] (m_ledger c).

(** Statements [stmts] run one after the other. *)
Fixpoint run_all (stmts : list gostring) (d : D) : result D :=
  match stmts with [] => Ok d | s :: stmts' => d' ← run_sql s d; run_all stmts' d' end.

Lemma run_all_app a b d : run_all (a ++ b) d = (d' ← run_all a d; run_all b d').
Proof. revert d. induction a as [|s a IH]; intros d; simpl; [done|]. destruct (run_sql s d); simpl; [apply IH|done]. Qed.

(** [m] leaves schema and ledger as they are. *)
Definition reads {A} (m : stM (mconn D) A) : Prop :=
  ∀ c r c', m c = (r, c') → m_schema c' = m_schema c ∧ m_ledger c' = m_ledger c.

Lemma reads_ret {A} (a : A) : reads (st_ret a).
Proof. intros c r c' H. unfold st_ret in H. by simplify_eq. Qed.
Lemma reads_fail {A} e : reads (@st_fail (mconn D) A e).
Proof. intros c r c' H. unfold st_fail in H. by simplify_eq. Qed.
Lemma reads_fault : reads m_fault.
Proof. intros c r c' H. unfold m_fault in H. by destruct (m_faults c) as [|[|]]; simplify_eq. Qed.
Lemma reads_bind {A B} (m : stM (mconn D) A) (f : A → stM (mconn D) B) : reads m → (∀ a, reads (f a)) → reads (st_bind m f).
Proof.
  intros Hm Hf c r c' H. unfold st_bind in H. destruct (m c) as [[a|e] c1] eqn:E; destruct (Hm _ _ _ E) as [<- <-].
  - by apply (Hf a _ r).
  - by simplify_eq.
Qed.
Lemma reads_try {A B} (m : stM (mconn D) A) (f : result A → stM (mconn D) B) : reads m → (∀ a, reads (f a)) → reads (st_try m f).
Proof.
  intros Hm Hf c r c' H. unfold st_try in H. destruct (m c) as [x c1] eqn:E. destruct (Hm _ _ _ E) as [<- <-].
  by apply (Hf x _ r).
Qed.
Lemma reads_msg {A} msg (m : stM (mconn D) A) : reads m → reads (with_msg msg m).
Proof.
  intros Hm c r c' H. unfold with_msg in H. destruct (m c) as [[a|e] c1] eqn:E; simplify_eq; by apply (Hm _ _ _ E).
Qed.

Lemma reads_preconditions ps : reads (check_preconditions table_present ps).
Proof.
  induction ps as [|p ps IH]; simpl; [apply reads_ret|]. apply reads_try.
  - unfold pc_Check, tablePresent. destruct p; (apply reads_bind;
      [apply reads_msg, reads_bind; [apply reads_fault|intros _ c r c' H; by simplify_eq]
      |intros []; by try apply reads_ret; apply reads_fail]).
  - intros [|]; [apply IH|apply reads_fail].
Qed.

Lemma reads_load : reads (@loadLedger D).
Proof.
  apply reads_msg, reads_bind; [apply reads_fault|]. intros _ c r c' H. by destruct (m_ledger c) eqn:?; simplify_eq.
Qed.

Lemma exec_steps_inv msg stmts c r c' : exec_steps run_sql msg stmts c = (r, c') →
  m_ledger c' = m_ledger c ∧ (is_ok r = true → run_all stmts (m_schema c) = Ok (m_schema c')).
Proof.
  revert c. induction stmts as [|s stmts IH]; intros c; simpl; [unfold st_ret; intros; by simplify_eq|].
  unfold st_bind, with_msg, exec_sql. unfold st_bind. destruct (m_fault c) as [[[]|e] c1] eqn:E;
    destruct (reads_fault _ _ _ E) as [Hs Hl]; [|intros; by simplify_eq].
  rewrite <- Hs. destruct (run_sql s (m_schema c1)) as [d|e]; simpl; [|intros; by simplify_eq].
  intros H. destruct (IH _ H) as [Hl' Hok]. simpl in *. by rewrite Hl', Hl.
Qed.

(** A transaction that fails changes nothing. *)
Lemma in_tx_inv {A} (body : stM (mconn D) A) c r c' : in_tx body c = (r, c') →
  (is_ok r = false ∧ m_schema c' = m_schema c ∧ m_ledger c' = m_ledger c) ∨
  (∃ a c0 c1, r = Ok a ∧ m_schema c0 = m_schema c ∧ m_ledger c0 = m_ledger c ∧ body c0 = (Ok a, c1) ∧
     m_schema c' = m_schema c1 ∧ m_ledger c' = m_ledger c1).
Proof.
  unfold in_tx. destruct (with_msg _ m_fault c) as [[[]|e] c0] eqn:E0;
    destruct (reads_msg _ _ reads_fault _ _ _ E0) as [Hs0 Hl0]; [|intros; simplify_eq; by left].
  destruct (body c0) as [[a|e] c1] eqn:E1; [|intros; simplify_eq; by left].
  destruct (with_msg _ m_fault c1) as [[[]|e] c2] eqn:E2;
    destruct (reads_msg _ _ reads_fault _ _ _ E2) as [Hs2 Hl2]; intros; simplify_eq; [right|by left].
  by exists a, c0, c1.
Qed.

(** ** Ledger and registry agree *)

Context (r : Runner).
#[local] Abbreviation all := (ordered (r_reg r)).

(** [row] is what applying [m] records. *)
Definition row_for (m : Migration) (row : Ledger) : Prop :=
  L_ID row = M_ID m ∧ L_Engine row = r_engine r ∧ L_Checksum row = ChecksumFor m (r_engine r).

Definition up_stmts (ms : list Migration) : list gostring := ms ≫= λ m, forEngine (M_Up m) (r_engine r).

(** The ledger records exactly the first [k] migrations, and the schema is [s0] with
    their up steps run. *)
Record in_sync (s0 : D) (k : nat) (c : mconn D) : Prop := {
  sync_len : (k <= length all)%nat;
  sync_rows : Forall2 row_for (take k all) (rows_of c);
  sync_schema : run_all (up_stmts (take k all)) s0 = Ok (m_schema c);
}.

Context (Hreg : registry_ok (r_reg r)).

Lemma row_for_ids ms rows : Forall2 row_for ms rows → L_ID <$> rows = M_ID <$> ms.
Proof. induction 1 as [|m row ms rows [H _] _ IH]; csimpl; [done|by rewrite H, IH]. Qed.

Lemma sync_length s0 k c : in_sync s0 k c → length (rows_of c) = k.
Proof. intros H. rewrite <- (Forall2_length _ _ _ (sync_rows _ _ _ H)), length_take. pose proof (sync_len _ _ _ H). lia. Qed.

Lemma check_row_None row : check_row r row = None ↔ ∃ m, m ∈ all ∧ row_for m row.
Proof.
  unfold check_row, Registry_Get, row_for. destruct (byID (r_reg r) !! L_ID row) as [m|] eqn:E.
  - apply (ro_get _ Hreg) in E as [Hin Hid]. split.
    + repeat case_bool_decide; try done. intros _. by exists m.
    + intros (m' & Hin' & Hid' & He & Hc).
      assert (m' = m) as ->.
      { assert (byID (r_reg r) !! M_ID m = Some m) as H1 by (by apply (ro_get _ Hreg)).
        assert (byID (r_reg r) !! M_ID m = Some m') as H2 by (apply (ro_get _ Hreg); split; congruence).
        congruence. }
      by rewrite !bool_decide_eq_true_2.
  - split; [done|]. intros (m & Hin & Hid & _).
    assert (byID (r_reg r) !! L_ID row = Some m) by (by apply (ro_get _ Hreg)). congruence.
Qed.

Lemma checkDependencies_ok post : ∀ pre have, all = pre ++ post → list_to_set (M_ID <$> pre) ⊆ have →
  checkDependencies have post = None.
Proof.
  induction post as [|m post IH]; intros pre have Hall Hsub; simpl; [done|].
  destruct (existsb _ _) eqn:E.
  - exfalso. apply existsb_exists in E as (req & Hin & Hn). apply bool_decide_eq_true in Hn. apply Hn, Hsub, elem_of_list_to_set.
    destruct (ro_requires _ Hreg (length pre) m req) as (j & m' & Hj & Hm' & <-).
    + by rewrite Hall, list_lookup_middle.
    + by apply list_elem_of_In.
    + rewrite Hall, lookup_app_l in Hm' by done. apply list_elem_of_fmap. exists m'. split; [done|].
      by apply list_elem_of_lookup_2 in Hm'.
  - apply (IH (pre ++ [m])); [by rewrite <- app_assoc|]. rewrite fmap_app, list_to_set_app. simpl.
    intros x. rewrite !elem_of_union, elem_of_empty. intros [Hx|[Hx|[]]]; [right; by apply Hsub|by left].
Qed.

Lemma order_check_None rows : ∀ ms, (length rows <= length ms)%nat →
  first_error (λ '(row, m), if negb (bool_decide (L_ID row = M_ID m)) then
                 Some (errorf "migrate: applied migrations are not a contiguous registry prefix" [ErrLedgerOrder])
               else None) (zip rows ms) = None ↔ L_ID <$> rows = M_ID <$> take (length rows) ms.
Proof.
  induction rows as [|row rows IH]; intros [|m ms] Hlen; simpl in *; [done|done|lia|]. case_bool_decide as E; simpl.
  - rewrite IH by lia. rewrite E. split; [intros H; by f_equal|by injection 1].
  - split; [done|]. by injection 1.
Qed.

Lemma verify_Ok (c : mconn D) rows pending c' : verify r c = (Ok (rows, pending), c') →
  m_schema c' = m_schema c ∧ m_ledger c' = Some rows ∧ m_ledger c = Some rows ∧
  (length rows <= length all)%nat ∧ Forall2 row_for (take (length rows) all) rows ∧ pending = drop (length rows) all.
Proof.
  unfold verify, st_bind. destruct (loadLedger c) as [[rows'|e] c1] eqn:E; [|done].
  destruct (reads_load _ _ _ E) as [<- Hl].
  assert (m_ledger c1 = Some rows') as Hrows.
  { unfold loadLedger, with_msg, st_bind in E. destruct (m_fault c) as [[[]|e] c2]; [|done].
    destruct (m_ledger c2) eqn:?; by simplify_eq. }
  destruct (length all <? length rows')%nat eqn:Hlen; [done|]. apply Nat.ltb_ge in Hlen.
  destruct (first_error _ rows') eqn:Hrow; [done|]. destruct (first_error _ (zip _ _)) eqn:Hord; [done|].
  destruct (checkDependencies _ _); [done|]. unfold st_ret. intros. simplify_eq.
  split_and!; try done; [congruence|].
  apply order_check_None in Hord; [|done]. apply first_error_None in Hrow.
  apply Forall2_same_length_lookup. split; [rewrite length_take; lia|].
  intros i m row Hm Hi. apply lookup_take_Some in Hm as [Hm Hlt].
  eapply Forall_lookup_1 in Hrow as (m' & Hin & Hrf)%check_row_None; [|done].
  assert (L_ID row = M_ID m) as Hid.
  { assert ((L_ID <$> rows) !! i = Some (L_ID row)) as H1 by (by rewrite list_lookup_fmap, Hi).
    rewrite Hord, list_lookup_fmap, lookup_take_lt, Hm in H1 by done. simpl in H1. congruence. }
  assert (byID (r_reg r) !! L_ID row = Some m) as H1.
  { apply (ro_get _ Hreg). split; [by apply list_elem_of_lookup_2 in Hm|done]. }
  assert (byID (r_reg r) !! L_ID row = Some m') as H2.
  { apply (ro_get _ Hreg). split; [done|]. symmetry. apply Hrf. }
  congruence.
Qed.

Lemma verify_complete (c : mconn D) rows : m_faults c = [] → m_ledger c = Some rows → (length rows <= length all)%nat →
  Forall2 row_for (take (length rows) all) rows → verify r c = (Ok (rows, drop (length rows) all), c).
Proof.
  intros Hf Hl Hlen Hrows. unfold verify, st_bind, loadLedger, with_msg, st_bind, m_fault. rewrite Hf, Hl.
  apply Nat.ltb_ge in Hlen as Hlt. rewrite Hlt.
  replace (first_error (check_row r) rows) with (@None goerror).
  2:{ symmetry. apply first_error_None, Forall_lookup_2. intros i row Hi. apply check_row_None.
      destruct (Forall2_lookup_r _ _ _ _ _ Hrows Hi) as (m & Hm & Hrf). exists m. split; [|done].
      apply lookup_take_Some in Hm as [Hm _]. by apply list_elem_of_lookup_2 in Hm. }
  pose proof (row_for_ids _ _ Hrows) as Hids.
  replace (first_error _ (zip rows all)) with (@None goerror).
  2:{ symmetry. by apply order_check_None. }
  rewrite (checkDependencies_ok _ (take (length rows) all)); [done|by rewrite take_drop|by rewrite Hids].
Qed.

Lemma with_msg_Ok {A} msg (m : stM (mconn D) A) c a c' : with_msg msg m c = (Ok a, c') → m c = (Ok a, c').
Proof. unfold with_msg. by destruct (m c) as [[|] ?]; intros; simplify_eq. Qed.

(** The row as it is stored: the instant cut to the second. *)
Definition stored (l : Ledger) : Ledger :=
  MkLedger (L_ID l) (L_Name l) (L_Checksum l) (unix_time (time_unix (L_AppliedAt l))) (L_Engine l).

Lemma insertLedger_Ok l (c : mconn D) u c' : insertLedger l c = (Ok u, c') →
  m_schema c' = m_schema c ∧
  ∃ rows rows', m_ledger c = Some rows ∧ insert_row (stored l) rows = Some rows' ∧ m_ledger c' = Some rows'.
Proof.
  unfold insertLedger, st_bind. destruct (m_fault c) as [[[]|e] c1] eqn:E; [|done].
  destruct (reads_fault _ _ _ E) as [Hs Hl]. rewrite <- Hs, <- Hl.
  destruct (m_ledger c1) as [rows|] eqn:Hr; [|done]. fold (stored l).
  destruct (insert_row (stored l) rows) as [rows'|] eqn:Hi; [|done]. intros. simplify_eq. split; [done|]. by exists rows, rows'.
Qed.

Lemma insert_row_last l rows : Forall (λ y, before y (L_ID l)) (L_ID <$> rows) → insert_row l rows = Some (rows ++ [l]).
Proof.
  induction rows as [|x rows IH]; csimpl; [done|]. intros [Hx Hall]%Forall_cons.
  rewrite bool_decide_eq_false_2 by (intros E; by apply (before_ne _ _ Hx)). unfold before in Hx. rewrite Hx, IH by done. done.
Qed.

Lemma applyOne_inv now m c res c' : applyOne run_sql table_present r now m c = (res, c') →
  (is_ok res = false ∧ m_schema c' = m_schema c ∧ m_ledger c' = m_ledger c) ∨
  (∃ l rows rows', res = Ok l ∧ row_for m l ∧ m_ledger c = Some rows ∧ insert_row (stored l) rows = Some rows' ∧
     m_ledger c' = Some rows' ∧ run_all (forEngine (M_Up m) (r_engine r)) (m_schema c) = Ok (m_schema c')).
Proof.
  intros [?|(l & c0 & c1 & -> & Hs0 & Hl0 & Hbody & Hs' & Hl')]%in_tx_inv; [by left|right].
  unfold st_bind at 1 in Hbody. destruct (check_preconditions _ _ c0) as [[[]|e] c2] eqn:Ep; [|done].
  destruct (reads_preconditions _ _ _ _ Ep) as [Hs2 Hl2].
  unfold st_bind at 1 in Hbody. destruct (exec_steps _ _ _ c2) as [[[]|e] c3] eqn:Ee; [|done].
  destruct (exec_steps_inv _ _ _ _ _ Ee) as [Hl3 Hrun]. specialize (Hrun eq_refl).
  unfold st_bind in Hbody. destruct (with_msg _ _ c3) as [[[]|e] c4] eqn:Ei; [|done].
  apply with_msg_Ok, insertLedger_Ok in Ei as [Hs4 (rows & rows' & Hr & Hi & Hr')].
  unfold st_ret in Hbody. simplify_eq. eexists _, rows, rows'. split_and!; [done|done| |done|congruence|congruence].
  congruence.
Qed.

Lemma row_for_stored m l : row_for m l → row_for m (stored l).
Proof. done. Qed.

Lemma all_before k m : all !! k = Some m → Forall (λ y, before y (M_ID m)) (M_ID <$> take k all).
Proof.
  intros Hm. apply StronglySorted_last.
  pose proof (ro_sorted _ Hreg) as Hs. rewrite <- (take_drop (S k) all), fmap_app, (take_S_r _ _ _ Hm), fmap_app in Hs.
  by apply StronglySorted_app_1_l in Hs.
Qed.

Lemma in_sync_next s0 k c m l d : in_sync s0 k c → all !! k = Some m → row_for m l →
  run_all (forEngine (M_Up m) (r_engine r)) (m_schema c) = Ok d →
  insert_row (stored l) (rows_of c) = Some (rows_of c ++ [stored l]) ∧
  ∀ c', m_ledger c' = Some (rows_of c ++ [stored l]) → m_schema c' = d → in_sync s0 (S k) c'.
Proof.
  intros [Hlen Hrows Hsch] Hm Hl Hrun. split.
  - apply insert_row_last. rewrite (row_for_ids _ _ Hrows). destruct Hl as [Hid _]. simpl. rewrite Hid. by apply all_before.
  - intros c' Hc' <-. split; [by apply lookup_lt_Some in Hm| |].
    + unfold rows_of at 1. rewrite Hc', (take_S_r _ _ _ Hm). simpl. apply Forall2_app; [done|]. by repeat constructor; apply Hl.
    + rewrite (take_S_r _ _ _ Hm). unfold up_stmts. rewrite bind_app, run_all_app. fold (up_stmts (take k all)).
      rewrite Hsch. cbn. by rewrite app_nil_r.
Qed.

(** The loop of [Up] from an agreeing state. *)
Lemma apply_all_sync s0 clock pending : ∀ k acc c res err c', in_sync s0 k c → is_Some (m_ledger c) → pending = drop k all →
  apply_all run_sql table_present r clock pending acc c = ((res, err), c') →
  ∃ k', (k <= k')%nat ∧ in_sync s0 k' c' ∧ L_ID <$> res = (L_ID <$> acc) ++ (M_ID <$> take (k' - k) pending) ∧
    (err = None → k' = length all).
Proof.
  induction pending as [|m pending IH]; intros k acc c res err c' Hs Hl Hp; simpl.
  { intros. simplify_eq. exists k. rewrite take_nil, app_nil_r. split_and!; try done. intros _.
    pose proof (sync_len _ _ _ Hs). symmetry in Hp. apply (f_equal length) in Hp. rewrite length_drop in Hp. simpl in Hp. lia. }
  assert (all !! k = Some m) as Hm.
  { rewrite <- (Nat.add_0_r k), <- lookup_drop, <- Hp. done. }
  destruct (applyOne _ _ _ _ _ _) as [res1 c1] eqn:E. apply applyOne_inv in E as [(Herr & Hs1 & Hl1)|E].
  - destruct res1; [done|]. intros. simplify_eq. exists k. rewrite Nat.sub_diag, app_nil_r. split_and!; try done.
    destruct Hs as [? Hr Hsch]. split; [done|unfold rows_of; by rewrite Hl1|by rewrite Hs1].
  - destruct E as (l & rows & rows' & -> & Hrf & Hrows & Hins & Hl1 & Hrun).
    destruct (in_sync_next _ _ _ _ _ _ Hs Hm Hrf Hrun) as [Hins' Hnext].
    assert (rows_of c = rows) as Hro by (unfold rows_of; by rewrite Hrows). rewrite Hro in *.
    rewrite Hins in Hins'. simplify_eq. intros H.
    assert (pending = drop (S k) all) as Hp' by (by rewrite <- Nat.add_1_r, <- drop_drop, <- Hp).
    destruct (IH (S k) _ _ _ _ _ (Hnext _ Hl1 eq_refl) (ex_intro _ _ Hl1) Hp' H) as (k' & Hk & Hsync & Hres & Herr).
    exists k'. split_and!; [lia|done| |done]. replace (k' - k)%nat with (S (k' - S k)) by lia. rewrite Hres, fmap_app, <- app_assoc.
    csimpl. by rewrite (proj1 Hrf).
Qed.

Lemma ensure_inv (c : mconn D) res c' : ensureLedgerTable c = (res, c') →
  m_schema c' = m_schema c ∧ rows_of c' = rows_of c ∧ (is_ok res = true → is_Some (m_ledger c')).
Proof.
  unfold ensureLedgerTable, st_bind. destruct (m_fault c) as [[[]|e] c1] eqn:E; destruct (reads_fault _ _ _ E) as [Hs Hl];
    unfold rows_of; rewrite <- Hs, <- Hl.
  - destruct (m_ledger c1) eqn:El; intros; simplify_eq; simpl; rewrite ?El; eauto.
  - intros. by simplify_eq.
Qed.

Lemma in_sync_eq s0 k c c' : m_schema c' = m_schema c → rows_of c' = rows_of c → in_sync s0 k c → in_sync s0 k c'.
Proof. intros Hs Hr [? ? ?]. split; [done|by rewrite Hr|by rewrite Hs]. Qed.

Lemma verify_reads : reads (@verify D r).
Proof.
  apply reads_bind; [apply reads_load|]. intros rows. cbv zeta.
  repeat case_match; try apply reads_fail. apply reads_ret.
Qed.

Lemma reads_rows {A} (m : stM (mconn D) A) c x c' : reads m → m c = (x, c') → m_schema c' = m_schema c ∧ rows_of c' = rows_of c.
Proof. intros Hm E. destruct (Hm _ _ _ E) as [Hs Hl]. unfold rows_of. by rewrite Hl. Qed.

Lemma Up_sync s0 k clock c res err c' : in_sync s0 k c → Up run_sql table_present r clock c = ((res, err), c') →
  ∃ k', (k <= k')%nat ∧ in_sync s0 k' c' ∧ L_ID <$> res = M_ID <$> take (k' - k) (drop k all) ∧ (err = None → k' = length all).
Proof.
  intros Hs. unfold Up. destruct (ensureLedgerTable c) as [res1 c1] eqn:E1.
  destruct (ensure_inv _ _ _ E1) as (Hs1 & Hr1 & Hok). pose proof (in_sync_eq _ _ _ _ Hs1 Hr1 Hs) as Hsync1.
  destruct res1 as [[]|e]; [|intros; simplify_eq; exists k; rewrite Nat.sub_diag; by split_and!].
  destruct (verify r c1) as [[[rows pending]|e] c2] eqn:E2;
    destruct (reads_rows _ _ _ _ verify_reads E2) as [Hs2 Hr2];
    pose proof (in_sync_eq _ _ _ _ Hs2 Hr2 Hsync1) as Hsync2.
  - apply verify_Ok in E2 as (_ & Hl2 & _ & _ & _ & ->).
    assert (length rows = k) as <-. { rewrite <- (sync_length _ _ _ Hsync2). unfold rows_of. by rewrite Hl2. }
    intros H. by apply (apply_all_sync _ _ _ _ [] _ _ _ _ Hsync2 (ex_intro _ _ Hl2) eq_refl H).
  - intros. simplify_eq. exists k. rewrite Nat.sub_diag. by split_and!.
Qed.

(** ** Reverting *)

Lemma deleteLedger_Ok id (c : mconn D) u c' : deleteLedger id c = (Ok u, c') →
  m_schema c' = m_schema c ∧
  ∃ rows, m_ledger c = Some rows ∧ m_ledger c' = Some (filter (λ x, L_ID x ≠ id) rows).
Proof.
  unfold deleteLedger, st_bind. destruct (m_fault c) as [[[]|e] c1] eqn:E; [|done].
  destruct (reads_fault _ _ _ E) as [Hs Hl]. rewrite <- Hs, <- Hl.
  destruct (m_ledger c1) as [rows|] eqn:Hr; [|done]. intros. simplify_eq. split; [done|]. by exists rows.
Qed.

Lemma revertOne_inv m c res c' : revertOne run_sql r m c = (res, c') →
  (is_ok res = false ∧ m_schema c' = m_schema c ∧ m_ledger c' = m_ledger c) ∨
  (∃ rows, res = Ok tt ∧ m_ledger c = Some rows ∧ m_ledger c' = Some (filter (λ x, L_ID x ≠ M_ID m) rows) ∧
     run_all (forEngine (M_Down m) (r_engine r)) (m_schema c) = Ok (m_schema c')).
Proof.
  intros [?|([] & c0 & c1 & -> & Hs0 & Hl0 & Hbody & Hs' & Hl')]%in_tx_inv; [by left|right].
  unfold st_bind at 1 in Hbody. destruct (exec_steps _ _ _ c0) as [[[]|e] c3] eqn:Ee; [|done].
  destruct (exec_steps_inv _ _ _ _ _ Ee) as [Hl3 Hrun]. specialize (Hrun eq_refl).
  apply with_msg_Ok, deleteLedger_Ok in Hbody as [Hs4 (rows & Hr & Hr')].
  exists rows. split_and!; [done|congruence|congruence|congruence].
Qed.

Lemma filter_last_row rows l : Forall (λ y, before y (L_ID l)) (L_ID <$> rows) →
  filter (λ x, L_ID x ≠ L_ID l) (rows ++ [l]) = rows.
Proof.
  rewrite filter_app, filter_cons_False, filter_nil, app_nil_r by auto.
  induction rows as [|x rows IH]; [done|]. intros [Hx Hall]%Forall_cons.
  rewrite filter_cons_True by (by apply before_ne). by rewrite IH.
Qed.

Lemma in_sync_prev s0 k c : in_sync s0 (S k) c →
  ∃ m l rows d, all !! k = Some m ∧ row_for m l ∧ rows_of c = rows ++ [l] ∧ Forall2 row_for (take k all) rows ∧
    run_all (up_stmts (take k all)) s0 = Ok d ∧ run_all (forEngine (M_Up m) (r_engine r)) d = Ok (m_schema c).
Proof.
  intros [Hlen Hrows Hsch]. destruct (lookup_lt_is_Some_2 all k) as [m Hm]; [done|].
  rewrite (take_S_r _ _ _ Hm) in Hrows, Hsch.
  apply Forall2_app_inv_l in Hrows as (rows & last & Hr & Hl & Hro). apply Forall2_cons_inv_l in Hl as (l & ? & Hl & Hnil & ->).
  apply Forall2_nil_inv_l in Hnil as ->.
  unfold up_stmts in Hsch. rewrite bind_app, run_all_app in Hsch. fold (up_stmts (take k all)) in Hsch.
  destruct (run_all _ s0) as [d|] eqn:Hd; [|done]. cbn in Hsch. rewrite app_nil_r in Hsch. by exists m, l, rows, d.
Qed.

Lemma check_revert_None l : check_revert r l = None →
  ∃ m, m ∈ all ∧ M_ID m = L_ID l ∧ M_IrreversibleReason m = [] ∧ (M_Destructive m = true → r_allowDestructive r = true).
Proof.
  unfold check_revert, Registry_Get. destruct (byID _ !! _) as [m|] eqn:E; [|done]. apply (ro_get _ Hreg) in E as [Hin Hid].
  case_bool_decide as Hir; simpl; [|done]. intros H. exists m. split_and!; try done.
  by destruct (M_Destructive m), (r_allowDestructive r).
Qed.

(** The down steps of a reversible migration undo its up steps. *)
Definition down_undoes_up : Prop := ∀ m d d1 d2, m ∈ all → M_IrreversibleReason m = [] →
  run_all (forEngine (M_Up m) (r_engine r)) d = Ok d1 → run_all (forEngine (M_Down m) (r_engine r)) d1 = Ok d2 → d2 = d.

Lemma revert_all_sync s0 keep todo : down_undoes_up →
  ∀ k acc c res err c', in_sync s0 k c → is_Some (m_ledger c) → (keep <= k)%nat →
  todo = rev (drop keep (rows_of c)) → Forall (λ l, check_revert r l = None) todo →
  revert_all run_sql r todo acc c = ((res, err), c') →
  ∃ k', (keep <= k' <= k)%nat ∧ in_sync s0 k' c' ∧ res = acc ++ take (k - k') todo ∧ (err = None → k' = keep).
Proof.
  intros Hundo. induction todo as [|l todo IH]; intros k acc c res err c' Hs Hl Hk Htodo Hguard; simpl.
  { intros. simplify_eq. exists k. rewrite take_nil, app_nil_r. split_and!; try done. intros _.
    apply (f_equal length) in Htodo. rewrite length_rev, length_drop, (sync_length _ _ _ Hs) in Htodo. simpl in Htodo. lia. }
  destruct k as [|k]; [exfalso|].
  { apply (f_equal length) in Htodo. rewrite length_rev, length_drop, (sync_length _ _ _ Hs) in Htodo. simpl in Htodo. lia. }
  apply Forall_cons in Hguard as [Hg Hguard].
  destruct (in_sync_prev _ _ _ Hs) as (m & l' & rows & d & Hm & Hrf & Hro & Hrows & Hd & Hup).
  pose proof (Forall2_length _ _ _ Hrows) as Hlen. rewrite length_take in Hlen. pose proof (sync_len _ _ _ Hs) as Hle.
  assert (keep ≠ S k) as Hne.
  { intros ->. rewrite drop_ge in Htodo by (rewrite (sync_length _ _ _ Hs); lia). done. }
  rewrite Hro, drop_app_le, rev_app_distr in Htodo by lia. simpl in Htodo. injection Htodo as <- Htodo.
  assert (Registry_Get (r_reg r) (L_ID l) = Some m) as Hget.
  { apply (ro_get _ Hreg). split; [by apply list_elem_of_lookup_2 in Hm|]. symmetry. apply Hrf. }
  rewrite Hget. destruct (revertOne run_sql r m c) as [res1 c1] eqn:E. apply revertOne_inv in E as [(Herr & Hs1 & Hl1)|E].
  - destruct res1; [done|]. intros. simplify_eq. exists (S k). rewrite Nat.sub_diag, app_nil_r. split_and!; try done.
    apply (in_sync_eq _ _ c); [done|unfold rows_of; by rewrite Hl1|done].
  - destruct E as (rows1 & -> & Hl0 & Hl1 & Hdown).
    assert (rows1 = rows ++ [l]) as -> by (unfold rows_of in Hro; by rewrite Hl0 in Hro).
    destruct (check_revert_None _ Hg) as (m' & Hin' & Hid' & Hrev & _).
    assert (m' = m) as ->.
    { assert (Registry_Get (r_reg r) (L_ID l) = Some m') by (by apply (ro_get _ Hreg)). congruence. }
    pose proof (Hundo _ _ _ _ Hin' Hrev Hup Hdown) as Hback.
    rewrite Hid', filter_last_row in Hl1.
    2:{ rewrite (row_for_ids _ _ Hrows), <- Hid'. by apply all_before. }
    assert (in_sync s0 k c1) as Hs1.
    { split; [lia| |by rewrite Hback]. unfold rows_of. by rewrite Hl1. }
    assert (todo = rev (drop keep (rows_of c1))) as Htodo1 by (unfold rows_of; by rewrite Hl1).
    assert (keep <= k)%nat as Hk1 by lia.
    intros H. destruct (IH k _ c1 _ _ _ Hs1 (ex_intro _ _ Hl1) Hk1 Htodo1 Hguard H) as (k' & Hk' & Hsync & Hres & Herr).
    exists k'. split_and!; [lia|lia|done| |done]. rewrite Hres, <- app_assoc. by replace (S k - k')%nat with (S (k - k')) by lia.
Qed.

(** ** Without failures *)

Definition holds (d : D) (p : Precondition) : bool :=
  match p with TableExists n => table_present n d | TableAbsent n => negb (table_present n d) end.

(** Each migration finds its preconditions met and its statements run. *)
Fixpoint can_apply (ms : list Migration) (d : D) : Prop :=
  match ms with
  | [] => True
  | m :: ms' => forallb (holds d) (M_Preconditions m) = true ∧
      ∃ d', run_all (forEngine (M_Up m) (r_engine r)) d = Ok d' ∧ can_apply ms' d'
  end.

Lemma m_fault_none (c : mconn D) : m_faults c = [] → m_fault c = (Ok tt, c).
Proof. unfold m_fault. by intros ->. Qed.

Lemma check_preconditions_ok ps c : m_faults c = [] → forallb (holds (m_schema c)) ps = true →
  check_preconditions table_present ps c = (Ok tt, c).
Proof.
  intros Hf. induction ps as [|p ps IH]; simpl; [done|]. intros [Hp Hps]%andb_prop.
  unfold st_try. replace (pc_Check table_present p c) with ((Ok tt, c) : result unit * mconn D); [by apply IH|].
  unfold pc_Check, tablePresent, with_msg, st_bind.
  destruct p; rewrite (m_fault_none _ Hf); simpl in Hp; [by rewrite Hp|apply negb_true_iff in Hp; by rewrite Hp].
Qed.

Lemma exec_steps_ok msg stmts d c : m_faults c = [] → run_all stmts (m_schema c) = Ok d →
  exec_steps run_sql msg stmts c = (Ok tt, MkMconn d (m_ledger c) []).
Proof.
  revert c. induction stmts as [|x stmts IH]; intros c Hf; simpl.
  { intros. simplify_eq. destruct c; simpl in *. by subst. }
  unfold st_bind, with_msg, exec_sql, st_bind. rewrite (m_fault_none _ Hf).
  destruct (run_sql x (m_schema c)) as [d'|]; [|done]. cbn. intros H. rewrite Hf. by apply (IH (MkMconn d' (m_ledger c) [])).
Qed.

Lemma applyOne_ok now m d rows rows' c : m_faults c = [] → forallb (holds (m_schema c)) (M_Preconditions m) = true →
  run_all (forEngine (M_Up m) (r_engine r)) (m_schema c) = Ok d → m_ledger c = Some rows →
  let l := MkLedger (M_ID m) (M_Name m) (ChecksumFor m (r_engine r)) now (r_engine r) in
  insert_row (stored l) rows = Some rows' →
  applyOne run_sql table_present r now m c = (Ok l, MkMconn d (Some rows') []).
Proof.
  intros Hf Hpc Hrun Hl l Hins. unfold applyOne, in_tx, with_msg at 1, m_fault at 1. rewrite Hf.
  unfold st_bind at 1. rewrite check_preconditions_ok by done. unfold st_bind at 1. rewrite (exec_steps_ok _ _ d) by done.
  unfold st_bind at 1, with_msg at 1, insertLedger, st_bind at 1, m_fault at 1. cbn. rewrite Hl.
  fold l. change (MkLedger _ _ _ _ _) with (stored l). by rewrite Hins.
Qed.

Lemma apply_all_ok s0 clock pending : ∀ k acc c, m_faults c = [] → in_sync s0 k c → is_Some (m_ledger c) →
  pending = drop k all → can_apply pending (m_schema c) → ∃ res c', apply_all run_sql table_present r clock pending acc c = ((res, None), c').
Proof.
  induction pending as [|m pending IH]; intros k acc c Hf Hs [rows Hl] Hp Hcan; simpl; [by eauto|].
  destruct Hcan as (Hpc & d & Hrun & Hcan).
  assert (all !! k = Some m) as Hm by (by rewrite <- (Nat.add_0_r k), <- lookup_drop, <- Hp).
  set (now := clock (length pending)).
  set (l := MkLedger (M_ID m) (M_Name m) (ChecksumFor m (r_engine r)) now (r_engine r)).
  assert (row_for m l) as Hrf by done.
  destruct (in_sync_next _ _ _ _ l _ Hs Hm Hrf Hrun) as [Hins Hnext].
  assert (rows_of c = rows) as Hro by (unfold rows_of; by rewrite Hl). rewrite Hro in *.
  rewrite (applyOne_ok now m d rows _ c Hf Hpc Hrun Hl Hins). fold l.
  apply (IH (S k)); [done|by apply Hnext|done|by rewrite <- Nat.add_1_r, <- drop_drop, <- Hp|done].
Qed.

Lemma ensure_ok (c : mconn D) : m_faults c = [] → ensureLedgerTable c = (Ok tt, MkMconn (m_schema c) (Some (rows_of c)) []).
Proof.
  intros Hf. unfold ensureLedgerTable, st_bind, m_fault, rows_of. rewrite Hf. destruct c as [d [rows|] fs]; simpl in *; by subst.
Qed.

(** ** The target and the guards of [Down] *)

Lemma keep_upto_Some toID rows keep : keep_upto toID rows = Some keep →
  (keep <= length rows)%nat ∧
  if bool_decide (toID = []) then keep = 0%nat else ∃ k0 l, keep = S k0 ∧ rows !! k0 = Some l ∧ L_ID l = toID.
Proof.
  unfold keep_upto. case_bool_decide; [intros; simplify_eq; split; [lia|done]|].
  destruct (list_find _ rows) as [[i l]|] eqn:E; [|done]. apply list_find_Some in E as (Hi & Hid & _).
  simpl. intros. simplify_eq. split; [by apply lookup_lt_Some in Hi|]. by exists i, l.
Qed.

Lemma guard_all s0 k c keep : in_sync s0 k c → Forall (λ l, check_revert r l = None) (drop keep (rows_of c)) →
  ∀ m i, all !! i = Some m → (keep <= i < k)%nat →
    M_IrreversibleReason m = [] ∧ (M_Destructive m = true → r_allowDestructive r = true).
Proof.
  intros Hs Hg m i Hm [Hi Hk]. assert (take k all !! i = Some m) as Ht by (by rewrite lookup_take_lt).
  destruct (Forall2_lookup_l _ _ _ _ _ (sync_rows _ _ _ Hs) Ht) as (l & Hl & Hid & _).
  assert (drop keep (rows_of c) !! (i - keep)%nat = Some l) as Hd by (rewrite lookup_drop; by replace (keep + (i - keep))%nat with i by lia).
  eapply Forall_lookup_1 in Hg; [|exact Hd]. destruct (check_revert_None _ Hg) as (m' & Hin & Hid' & Hrev & Hdes).
  assert (Some m' = Some m) as [= ->].
  { assert (m ∈ all) by (by apply list_elem_of_lookup_2 in Hm).
    rewrite <- (proj2 (ro_get _ Hreg (L_ID l) m')) by done. by apply (ro_get _ Hreg). }
  done.
Qed.

Lemma Down_sync s0 k toID c res err c' : down_undoes_up → in_sync s0 k c → Down run_sql r toID c = ((res, err), c') →
  (∃ e, err = Some e ∧ res = [] ∧ in_sync s0 k c') ∨
  (∃ k' keep, keep_upto toID (rows_of c) = Some keep ∧ (keep <= k' <= k)%nat ∧ in_sync s0 k' c' ∧
     res = take (k - k') (rev (drop keep (rows_of c))) ∧ (err = None → k' = keep) ∧
     Forall (λ l, check_revert r l = None) (drop keep (rows_of c))).
Proof.
  intros Hundo Hs. unfold Down. destruct (ensureLedgerTable c) as [res1 c1] eqn:E1.
  destruct (ensure_inv _ _ _ E1) as (Hs1 & Hr1 & Hok). pose proof (in_sync_eq _ _ _ _ Hs1 Hr1 Hs) as Hsync1.
  destruct res1 as [[]|e]; [|intros; simplify_eq; left; by eexists].
  destruct (verify r c1) as [[[rows pending]|e] c2] eqn:E2;
    destruct (reads_rows _ _ _ _ verify_reads E2) as [Hs2 Hr2];
    pose proof (in_sync_eq _ _ _ _ Hs2 Hr2 Hsync1) as Hsync2; [|intros; simplify_eq; left; by eexists].
  apply verify_Ok in E2 as (_ & Hl2 & _).
  assert (rows_of c2 = rows) as Hro by (unfold rows_of; by rewrite Hl2). rewrite <- Hr1, <- Hr2, Hro.
  destruct (keep_upto toID rows) as [keep|] eqn:Hkeep; [|intros; simplify_eq; left; by eexists].
  destruct (first_error _ _) eqn:Hg; [intros; simplify_eq; left; by eexists|]. apply first_error_None in Hg.
  intros H. right. pose proof (keep_upto_Some _ _ _ Hkeep) as [Hle _]. rewrite <- Hro, (sync_length _ _ _ Hsync2) in Hle.
  assert (rev (drop keep rows) = rev (drop keep (rows_of c2))) as Htodo by (by rewrite Hro).
  assert (Forall (λ l, check_revert r l = None) (rev (drop keep rows))) as Hg' by (by apply Forall_rev).
  destruct (revert_all_sync _ _ _ Hundo _ _ _ _ _ _ Hsync2 (ex_intro _ _ Hl2) Hle Htodo Hg' H) as (k' & Hk & Hsync & Hres & Herr).
  by exists k', keep.
Qed.
End RunnerLemmas.

(** ** Claims *)

(** A registry that [NewRegistry] accepts holds exactly the migrations given, in
    their order, with strictly increasing identifiers; lookup by identifier finds
    exactly those; and every migration a migration requires stands before it. *)
Theorem NewRegistry_wellformed ms reg : NewRegistry ms = Ok reg →
  ordered reg = ms ∧ StronglySorted before (M_ID <$> ms) ∧
  (∀ id m, Registry_Get reg id = Some m ↔ m ∈ ms ∧ M_ID m = id) ∧
  (∀ i m req, ms !! i = Some m → req ∈ M_Requires m →
     ∃ j m', (j < i)%nat ∧ ms !! j = Some m' ∧ M_ID m' = req).
Proof. intros [[Hget Hs Hreq] Ho]%NewRegistry_ok. rewrite Ho in *. by split_and!. Qed.

(** When no statement fails, [verify] accepts a ledger exactly when it is a prefix
    of the registry, row by row the identifier, engine and checksum of the migration
    at that position; it then returns the rows and the migrations after them, and
    writes nothing.  In particular no dependency check fails on such a ledger. *)
Theorem verify_accepts_prefixes {D} (r : Runner) ms (c : mconn D) rows : NewRegistry ms = Ok (r_reg r) →
  m_faults c = [] → m_ledger c = Some rows →
  ((∃ res, verify r c = (Ok res, c)) ↔
     (length rows <= length ms)%nat ∧ Forall2 (row_for r) (take (length rows) ms) rows) ∧
  (∀ applied pending c', verify r c = (Ok (applied, pending), c') → applied = rows ∧ pending = drop (length rows) ms).
Proof.
  intros [Hok Ho]%NewRegistry_ok Hf Hl. split; [split|].
  - intros [[applied pending] H]. apply verify_Ok in H as (_ & _ & Hl' & Hlen & Hrows & _); [|done].
    assert (rows = applied) as -> by congruence. by rewrite <- Ho.
  - intros [Hlen Hrows]. rewrite <- Ho in Hlen, Hrows. eexists. by apply verify_complete.
  - intros applied pending c' H. apply verify_Ok in H as (_ & _ & Hl' & _ & _ & ->); [|done].
    assert (rows = applied) as -> by congruence. by rewrite Ho.
Qed.

(** C36. Whatever fails on the way, [Up] leaves ledger and schema in agreement: starting
    with the first [k] migrations recorded and their statements run on [s0], it ends
    with the first [k'] recorded and run, [k' >= k]; it reports exactly the migrations
    between; and when it reports no error every migration is applied. *)
Theorem Up_keeps_agreement {D} run_sql table_present (r : Runner) ms (s0 : D) k clock c res err c' :
  NewRegistry ms = Ok (r_reg r) → in_sync run_sql r s0 k c →
  Up run_sql table_present r clock c = ((res, err), c') →
  ∃ k', (k <= k')%nat ∧ in_sync run_sql r s0 k' c' ∧ L_ID <$> res = M_ID <$> take (k' - k) (drop k ms) ∧
    (err = None → k' = length ms).
Proof. intros [Hok <-]%NewRegistry_ok. by apply Up_sync. Qed.

(** When no statement fails, the pending migrations find their preconditions met and
    their statements run, [Up] succeeds from any agreeing state. *)
Theorem Up_completes {D} run_sql table_present (r : Runner) ms (s0 : D) k clock c :
  NewRegistry ms = Ok (r_reg r) → in_sync run_sql r s0 k c → m_faults c = [] →
  can_apply run_sql table_present r (drop k ms) (m_schema c) →
  ∃ res c', Up run_sql table_present r clock c = ((res, None), c').
Proof.
  intros [Hok Ho]%NewRegistry_ok Hs Hf Hcan. subst ms. unfold Up. rewrite ensure_ok by done.
  pose proof (sync_length _ _ _ _ _ Hs) as Hk. set (c1 := MkMconn _ _ _).
  assert (in_sync run_sql r s0 k c1) as Hs1 by (by apply (in_sync_eq _ _ _ _ c)).
  rewrite (verify_complete _ Hok c1 (rows_of c)); [|done|done|rewrite Hk; by apply Hs|rewrite Hk; by apply Hs].
  rewrite Hk. by apply (apply_all_ok run_sql table_present r Hok s0 clock _ k [] c1).
Qed.

(** [Down] reverts the newest migrations first and, whatever fails on the way, leaves
    ledger and schema in agreement, provided down steps undo up steps: [k' <= k]
    migrations remain, the rows reported are those reverted, newest first, and without
    an error exactly the migrations up to the target remain.  Nothing is reverted
    unless every migration above the target is reversible and, if destructive,
    destruction is allowed. *)
Theorem Down_keeps_agreement {D} run_sql (r : Runner) ms (s0 : D) k toID c res err c' :
  NewRegistry ms = Ok (r_reg r) → down_undoes_up run_sql r → in_sync run_sql r s0 k c →
  Down run_sql r toID c = ((res, err), c') →
  ∃ k', (k' <= k)%nat ∧ in_sync run_sql r s0 k' c' ∧ res = take (k - k') (rev (rows_of c)) ∧
    (err = None → if bool_decide (toID = []) then k' = 0%nat
                  else ∃ k0 m, k' = S k0 ∧ ms !! k0 = Some m ∧ M_ID m = toID) ∧
    (k' = k ∨ ∃ keep, keep_upto toID (rows_of c) = Some keep ∧ (keep <= k')%nat ∧
       ∀ m i, ms !! i = Some m → (keep <= i < k)%nat →
         M_IrreversibleReason m = [] ∧ (M_Destructive m = true → r_allowDestructive r = true)).
Proof.
  intros [Hok Ho]%NewRegistry_ok Hundo Hs H. subst ms.
  destruct (Down_sync run_sql r Hok _ _ _ _ _ _ _ Hundo Hs H) as [(e & -> & -> & Hs')|(k' & keep & Hkeep & Hk & Hs' & -> & Herr & Hg)].
  - exists k. rewrite Nat.sub_diag. split_and!; try done. by left.
  - exists k'. pose proof (keep_upto_Some _ _ _ Hkeep) as [Hle Htgt].
    pose proof (sync_length _ _ _ _ _ Hs) as Hlen. split_and!; [lia|done| | |right; exists keep; split_and!; [done|lia|]].
    + rewrite <- (take_drop keep (rows_of c)) at 2. rewrite rev_app_distr, take_app_le; [done|].
      rewrite length_rev, length_drop. lia.
    + intros ->%Herr. case_bool_decide; [done|]. destruct Htgt as (k0 & l & -> & Hl & <-).
      destruct (Forall2_lookup_r _ _ _ _ _ (sync_rows _ _ _ _ _ Hs) Hl) as (m & Hm & Hid & _).
      apply lookup_take_Some in Hm as [Hm _]. by exists k0, m.
    + by apply (guard_all run_sql r Hok s0 k c).
Qed.

(** ** A concrete registry

    Two migrations, the second requiring the first, over a schema that is a list of
    table names: "+t" creates a table, "-t" drops it. *)
Module Sample.
Definition run_sql (stmt : gostring) (d : list gostring) : result (list gostring) :=
  match stmt with
  | op :: t => if bool_decide (op = "+"%char) then Ok (t :: d)
               else match d with x :: d' => if bool_decide (x = t) then Ok d' else Err no_table | [] => Err no_table end
  | [] => Ok d
  end.
Definition present (t : gostring) (d : list gostring) : bool := bool_decide (t ∈ d).

Definition both (s : string) : Steps := MkSteps [go s] [go s].
Definition m1 : Migration := MkMigration (go "0001") (go "owners") [] [TableAbsent (go "a")] (both "+a") (both "-a") false [].
Definition m2 : Migration := MkMigration (go "0002") (go "keys") [go "0001"] [TableExists (go "a")] (both "+b") (both "-b") true [].
Definition reg : Registry := Eval vm_compute in match NewRegistry [m1; m2] with Ok reg => reg | Err _ => MkRegistry [] ∅ end.
Definition run : Runner := MkRunner EngineSQLite reg true.
Definition clock (n : nat) : time := unix_time (1000 + Z.of_nat n).

Lemma reg_ok : NewRegistry [m1; m2] = Ok reg.
Proof. vm_compute. reflexivity. Qed.

Definition empty (fs : list (option goerror)) : mconn (list gostring) := MkMconn [] None fs.
(** After [Up]. *)
Definition full : mconn (list gostring) := snd (Up run_sql present run clock (empty [])).

Lemma empty_sync fs : in_sync run_sql run [] 0 (empty fs).
Proof. split; [lia|constructor|done]. Qed.

Lemma full_sync : in_sync run_sql run [] 2 full.
Proof.
  split; [vm_compute; lia| |vm_compute; reflexivity].
  let rows := eval vm_compute in (rows_of full) in assert (rows_of full = rows) as -> by (vm_compute; reflexivity).
  change (take 2 _) with [m1; m2].
  constructor; [|constructor; [|constructor]]; unfold row_for; split_and!; vm_compute; reflexivity.
Qed.

Lemma undo : down_undoes_up run_sql run.
Proof.
  intros m d e1 e2 Hin _ Hup Hdown. destruct m as [i n rq pc u dn ds ir].
  assert (u = both "+a" ∧ dn = both "-a" ∨ u = both "+b" ∧ dn = both "-b") as [[-> ->]|[-> ->]].
  { apply list_elem_of_In in Hin. destruct Hin as [H|[H|[]]]; injection H; intros; subst; auto. }
  all: vm_compute in Hup; injection Hup as <-; vm_compute in Hdown; by injection Hdown as ->.
Qed.

End Sample.
Import Sample.

Lemma NewRegistry_wellformed_witness : ordered reg = [m1; m2].
Proof. apply (NewRegistry_wellformed [m1; m2] reg reg_ok). Defined.

Lemma verify_accepts_prefixes_witness : ∃ res, verify run full = (Ok res, full).
Proof.
  assert (m_faults full = []) as Hf by (vm_compute; reflexivity).
  assert (m_ledger full = Some (rows_of full)) as Hl by (vm_compute; reflexivity).
  apply (verify_accepts_prefixes run [m1; m2] full (rows_of full) reg_ok Hf Hl).
  pose proof (sync_length _ _ _ _ _ full_sync) as Hlen. rewrite Hlen. split; [simpl; lia|]. apply (sync_rows _ _ _ _ _ full_sync).
Defined.

(** The third statement after the ledger is read fails: the first migration is undone. *)
Lemma Up_keeps_agreement_witness : ∃ res err c',
  Up run_sql present run clock (empty [None; None; None; None; Some no_table]) = ((res, err), c') ∧ err ≠ None ∧
  ∃ k', in_sync run_sql run [] k' c'.
Proof.
  destruct (Up _ _ _ _ _) as [[res err] c'] eqn:E. exists res, err, c'. split; [done|].
  assert (err ≠ None) as Herr.
  { change err with (snd (res, err)). change (res, err) with (fst ((res, err), c')). rewrite <- E. by vm_compute. }
  split; [done|].
  destruct (Up_keeps_agreement run_sql present run [m1; m2] [] 0 clock _ res err c' reg_ok (empty_sync _) E) as (k' & _ & H & _).
  by exists k'.
Defined.

Lemma Up_completes_witness : ∃ res c', Up run_sql present run clock (empty []) = ((res, None), c').
Proof.
  apply (Up_completes run_sql present run [m1; m2] [] 0 clock (empty []) reg_ok (empty_sync [])); [done|].
  split; [vm_compute; reflexivity|]. exists [go "a"]. split; [vm_compute; reflexivity|].
  split; [vm_compute; reflexivity|]. exists [go "b"; go "a"]. split; [vm_compute; reflexivity|done].
Defined.

Lemma Down_keeps_agreement_witness : ∃ res c' k', Down run_sql run (go "0001") full = ((res, None), c') ∧
  in_sync run_sql run [] k' c' ∧ k' = 1%nat.
Proof.
  destruct (Down run_sql run (go "0001") full) as [[res err] c'] eqn:E.
  assert (err = None) as Herr.
  { change err with (snd (res, err)). change (res, err) with (fst ((res, err), c')). rewrite <- E. by vm_compute. }
  subst err.
  destruct (Down_keeps_agreement run_sql run [m1; m2] [] 2 (go "0001") full res None c' reg_ok undo full_sync E)
    as (k' & _ & H & _ & Hk & _).
  exists res, c', k'. split_and!; [done|done|]. destruct (Hk eq_refl) as ([|[|k0]] & m & -> & Hm & Hid); [done| |done].
  exfalso. injection Hm as <-. discriminate Hid.
Defined.
