(* ===== verification/PairingCode.v ===== *)
(** * Pairing codes

    [internal/auth/pairingcode.go]: the long device code a pairing client keeps and
    the short user code a person transcribes, with their digests.  Random bytes are
    arguments. *)

From S2P Require Import Prelude DomainErrors GoLib Domain Sha256 Tokens.

Open Scope Z_scope.

(** src/internal/auth/pairingcode.go:15-34, PairingLifetime *)
Definition PairingLifetime : duration := 10 * Minute.
Definition PairingPollInterval : duration := 5 * Second.

(** src/internal/auth/pairingcode.go:39-81, pairingSecretBytes *)
Definition pairingSecretBytes : Z := 32.
Definition userCodeLen : nat := 8.
Definition userCodeGroup : nat := 4.

(** src/internal/auth/pairingcode.go:84-108, userCodeAlphabet *)
Definition userCodeAlphabet : gostring := go "23456789ABCDEFGHJKLMNPQRSTUVWXYZ".
(** src/internal/auth/pairingcode.go:110-112, userCodeMask *)
Definition userCodeMask : Z := 0x1f.
(** src/internal/auth/pairingcode.go:114-117, deviceCodePrefix *)
Definition deviceCodePrefix : gostring := go "svd_".

(** src/internal/auth/pairingcode.go:131-132, pairingDeviceTag *)
Definition pairingDeviceTag : gostring := go "vallet.auth.pairing.device.v1" ++ [byte_of 0].
Definition pairingUserTag : gostring := go "vallet.auth.pairing.user.v1" ++ [byte_of 0].

(** src/internal/auth/pairingcode.go:135-141, newPairingID *)
Definition newPairingID (rnd : bytes) : gostring := rawurl_b64 rnd.

(** src/internal/auth/pairingcode.go:151-163, hashDeviceSecret *)
Definition hashDeviceSecret (secret : bytes) : bytes := sha256 (pairingDeviceTag ++ secret).

(** src/internal/auth/pairingcode.go:165-175, deviceSecretMatches *)
Definition deviceSecretMatches (stored secret : bytes) : bool := bool_decide (stored = hashDeviceSecret secret).

(** src/internal/auth/pairingcode.go:177-199, hashUserCode *)
Definition hashUserCode (code : gostring) : bytes := sha256 (pairingUserTag ++ code).

(** [userCodeAlphabet[r & userCodeMask]] *)
Definition userSymbol (r : ascii) : ascii :=
  default (byte_of 0) (userCodeAlphabet !! Z.to_nat (Z.land (byte_val r) userCodeMask)).

Fixpoint user_code_loop (i : nat) (raw : bytes) (shown plain : gostring) : gostring * gostring :=
  match raw with
  | [] => (shown, plain)
  | r :: raw' =>
      let shown := if (0 <? i)%nat && (i mod userCodeGroup =? 0)%nat then shown ++ [byte_of 45] else shown in
      let sym := userSymbol r in
      user_code_loop (S i) raw' (shown ++ [sym]) (plain ++ [sym])
  end.

(** src/internal/auth/pairingcode.go:201-227, newUserCode
    (the code as displayed and in canonical form) *)
Definition newUserCode (raw : bytes) : gostring * gostring := user_code_loop 0 raw [] [].

(** [unicode.ToUpper] of a code point, when that is ASCII: besides ASCII itself only
    U+0131 and U+017F have an upper case there. *)
Definition upper_ascii (r : Z) : option Z :=
  if (97 <=? r) && (r <=? 122) then Some (r - 32)
  else if r <? 128 then Some r
  else if r =? 0x131 then Some 73
  else if r =? 0x17F then Some 83
  else None.

Fixpoint normalize_loop (rs : list (option Z)) (b : gostring) : result gostring :=
  match rs with
  | [] => if negb (length b =? userCodeLen)%nat then Err ErrAuthFailed else Ok b
  | None :: _ => Err ErrAuthFailed                  (* outside the alphabet *)
  | Some r :: rs' =>
      if (r =? 45) || (r =? 32) then normalize_loop rs' b else
      let r := if (r =? 49) || (r =? 73) then 76 else r in
      if negb (mem_byte (byte_of r) userCodeAlphabet) then Err ErrAuthFailed else
      if (length b =? userCodeLen)%nat then Err ErrAuthFailed else
      normalize_loop rs' (b ++ [byte_of r])
  end.

(** src/internal/auth/pairingcode.go:229-275, normalizeUserCode *)
Definition normalizeUserCode (code : gostring) : result gostring :=
  normalize_loop ((λ '(r, _), upper_ascii r) <$> runes code) [].

(** src/internal/auth/pairingcode.go:277-286, formatDeviceCode *)
Definition formatDeviceCode (id : gostring) (secret : bytes) : gostring :=
  deviceCodePrefix ++ id ++ [tokenSeparator] ++ rawurl_b64 secret.

(** src/internal/auth/pairingcode.go:288-314, parseDeviceCode *)
Definition parseDeviceCode (presented : gostring) : result (gostring * bytes) :=
  match cut_prefix deviceCodePrefix presented with
  | None => Err ErrAuthFailed
  | Some body =>
      let '(idPart, secretPart, ok) := cut tokenSeparator body in
      if negb ok || contains [tokenSeparator] secretPart then Err ErrAuthFailed else
      if negb (len idPart =? credentialIDChars) then Err ErrAuthFailed else
      match rawurl_decode idPart with
      | None => Err ErrAuthFailed
      | Some _ =>
          match rawurl_decode secretPart with
          | None => Err ErrAuthFailed
          | Some secret =>
              if negb (len secret =? pairingSecretBytes) then Err ErrAuthFailed
              else Ok (idPart, secret)
          end
      end
  end.

(** ** Lemmas *)

#[local] Arguments mem_byte : simpl never.

Lemma userSymbol_in r : userSymbol r ∈ userCodeAlphabet.
Proof.
  unfold userSymbol. assert (Z.to_nat (Z.land (byte_val r) userCodeMask) < 32)%nat as H.
  { pose proof (byte_val_range r). change userCodeMask with (Z.ones 5). rewrite Z.land_ones by lia.
    pose proof (Z.mod_pos_bound (byte_val r) (2 ^ 5)). lia. }
  destruct (lookup_lt_is_Some_2 userCodeAlphabet (Z.to_nat (Z.land (byte_val r) userCodeMask))) as [c Hc]; [done|].
  rewrite Hc. by apply list_elem_of_lookup_2 in Hc.
Qed.

(** What the loop makes of one typed character, separators aside. *)
Definition fold_symbol (c : ascii) : ascii :=
  let u := if (97 <=? byte_val c) && (byte_val c <=? 122) then byte_val c - 32 else byte_val c in
  if (u =? 49) || (u =? 73) then byte_of 76 else byte_of u.

Definition separator (c : ascii) : bool := bool_decide (c = byte_of 45) || bool_decide (c = byte_of 32).

(** The symbols a typed code stands for. *)
Definition canonical_of (typed : gostring) : gostring := fold_symbol <$> List.filter (λ c, negb (separator c)) typed.

Lemma separator_val c : byte_val c < 128 →
  separator c = ((byte_val c =? 45) || (byte_val c =? 32)).
Proof.
  intros _. unfold separator. f_equal.
  - apply eq_true_iff_eq. rewrite bool_decide_eq_true, Z.eqb_eq. split; [by intros ->|].
    intros H. apply byte_val_inj. rewrite H. done.
  - apply eq_true_iff_eq. rewrite bool_decide_eq_true, Z.eqb_eq. split; [by intros ->|].
    intros H. apply byte_val_inj. rewrite H. done.
Qed.

Lemma mem_byte_In c cs : mem_byte c cs = true ↔ c ∈ cs.
Proof.
  unfold mem_byte. rewrite existsb_exists. split.
  - intros (x & Hx & E%bool_decide_eq_true). subst. by apply list_elem_of_In.
  - intros H. exists c. split; [by apply list_elem_of_In|by apply bool_decide_eq_true].
Qed.

Lemma upper_fold c : byte_val c < 128 → separator c = false →
  ∃ u, upper_ascii (byte_val c) = Some u ∧ ((u =? 45) || (u =? 32)) = false ∧
    byte_of (if (u =? 49) || (u =? 73) then 76 else u) = fold_symbol c.
Proof.
  intros Hc Hs. rewrite separator_val in Hs by done. unfold upper_ascii, fold_symbol. apply orb_false_iff in Hs as [H1 H2].
  apply Z.eqb_neq in H1, H2. destruct ((97 <=? byte_val c) && (byte_val c <=? 122)) eqn:E.
  - reflect_bools. eexists. split; [done|]. split; [apply orb_false_iff; rewrite !Z.eqb_neq; lia|].
    by destruct ((byte_val c - 32 =? 49) || (byte_val c - 32 =? 73)).
  - rewrite (proj2 (Z.ltb_lt _ _) Hc). eexists. split; [done|]. split; [apply orb_false_iff; rewrite !Z.eqb_neq; lia|].
    by destruct ((byte_val c =? 49) || (byte_val c =? 73)).
Qed.

Lemma normalize_loop_ascii s : ∀ b, Forall (λ c, byte_val c < 128) s → (length b <= userCodeLen)%nat →
  Forall (.∈ userCodeAlphabet) b →
  normalize_loop ((λ '(r, _), upper_ascii r) <$> ((λ c, (byte_val c, 1%nat)) <$> s)) b =
  if bool_decide (length (b ++ canonical_of s) = userCodeLen ∧ Forall (.∈ userCodeAlphabet) (b ++ canonical_of s))
  then Ok (b ++ canonical_of s) else Err ErrAuthFailed.
Proof.
  induction s as [|c s IH]; intros b Hs Hb Hall.
  - simpl. rewrite app_nil_r. destruct (length b =? userCodeLen)%nat eqn:E; simpl; [apply Nat.eqb_eq in E|apply Nat.eqb_neq in E].
    + by rewrite bool_decide_eq_true_2.
    + by rewrite bool_decide_eq_false_2 by (by intros [? _]).
  - apply Forall_cons in Hs as [Hc Hs]. csimpl. destruct (separator c) eqn:Hsep.
    + unfold canonical_of. cbn [List.filter]. rewrite Hsep. cbn [negb]. rewrite separator_val in Hsep by done.
      assert (upper_ascii (byte_val c) = Some (byte_val c)) as ->.
      { pose proof Hsep as Hv. rewrite orb_true_iff, !Z.eqb_eq in Hv. by destruct Hv as [-> | ->]. }
      rewrite Hsep. by apply IH.
    + unfold canonical_of. cbn [List.filter]. rewrite Hsep. cbn [negb]. csimpl. fold (canonical_of s).
      destruct (upper_fold _ Hc Hsep) as (u & -> & -> & ->).
      destruct (mem_byte (fold_symbol c) userCodeAlphabet) eqn:Hm; cbn [negb].
      2:{ rewrite bool_decide_eq_false_2; [done|]. intros [_ H]. apply Forall_app in H as [_ H]. apply Forall_cons in H as [H _].
          apply mem_byte_In in H. congruence. }
      destruct (length b =? userCodeLen)%nat eqn:E; [apply Nat.eqb_eq in E|apply Nat.eqb_neq in E].
      * rewrite bool_decide_eq_false_2; [done|]. intros [H _]. rewrite length_app in H. simpl in H. lia.
      * rewrite IH; [|done|rewrite length_app; simpl; lia|apply Forall_app; split; [done|]; constructor; [by apply mem_byte_In|constructor]].
        by rewrite <- !app_assoc.
Qed.

(** Typed in ASCII, a code is read as the symbols it stands for, if those are eight
    of the alphabet, and is refused otherwise. *)
Lemma normalizeUserCode_ascii s : Forall (λ c, byte_val c < 128) s →
  normalizeUserCode s =
  if bool_decide (length (canonical_of s) = userCodeLen ∧ Forall (.∈ userCodeAlphabet) (canonical_of s))
  then Ok (canonical_of s) else Err ErrAuthFailed.
Proof. intros Hs. unfold normalizeUserCode. rewrite runes_all_ascii by done. apply normalize_loop_ascii; [done|simpl; lia|constructor]. Qed.

Lemma normalize_loop_ok rs : ∀ b c, Forall (.∈ userCodeAlphabet) b → normalize_loop rs b = Ok c →
  length c = userCodeLen ∧ Forall (.∈ userCodeAlphabet) c.
Proof.
  induction rs as [|[r|] rs IH]; intros b c Hb; simpl; [|cbv zeta|done].
  - destruct (length b =? userCodeLen)%nat eqn:E; simpl; [|done]. intros [= <-]. by apply Nat.eqb_eq in E.
  - destruct (_ || _); [by apply IH|]. destruct (mem_byte _ _) eqn:Hm; simpl; [|done]. destruct (_ =? _)%nat; [done|].
    apply IH. apply Forall_app. split; [done|]. constructor; [by apply mem_byte_In|constructor].
Qed.

Lemma symbol_fold c : c ∈ userCodeAlphabet → byte_val c < 128 ∧ separator c = false ∧ fold_symbol c = c.
Proof.
  assert (forallb (λ c, (byte_val c <? 128) && negb (separator c) && bool_decide (fold_symbol c = c)) userCodeAlphabet = true) as H
    by (vm_compute; reflexivity).
  intros Hc%list_elem_of_In. apply (proj1 (forallb_forall _ _) H), andb_prop in Hc as [[H1 H2]%andb_prop H3%bool_decide_eq_true].
  by apply Z.ltb_lt in H1; apply negb_true_iff in H2.
Qed.

Lemma canonical_symbols s : Forall (.∈ userCodeAlphabet) s → canonical_of s = s.
Proof.
  unfold canonical_of. induction 1 as [|c s Hc Hs IH]; [done|]. destruct (symbol_fold _ Hc) as (_ & Hsep & Hfold).
  cbn [List.filter]. rewrite Hsep. csimpl. by rewrite Hfold, IH.
Qed.

(** The display form is the canonical one with separators put in. *)
Lemma user_code_loop_inv raw : ∀ i shown plain, Forall (λ c, byte_val c < 128) shown → canonical_of shown = plain →
  let '(shown', plain') := user_code_loop i raw shown plain in
  Forall (λ c, byte_val c < 128) shown' ∧ canonical_of shown' = plain' ∧ plain' = plain ++ (userSymbol <$> raw).
Proof.
  assert (∀ a b, canonical_of (a ++ b) = canonical_of a ++ canonical_of b) as Happ.
  { intros a b. unfold canonical_of. by rewrite List.filter_app, fmap_app. }
  induction raw as [|r raw IH]; intros i shown plain Hs Hc; simpl; [by rewrite app_nil_r|].
  destruct (symbol_fold _ (userSymbol_in r)) as (Hlt & _ & _).
  assert (canonical_of [userSymbol r] = [userSymbol r]) as Hsym
    by (apply canonical_symbols; constructor; [apply userSymbol_in|constructor]).
  specialize (IH (S i) ((if (0 <? i)%nat && (i mod userCodeGroup =? 0)%nat then shown ++ [byte_of 45] else shown) ++ [userSymbol r])
    (plain ++ [userSymbol r])).
  destruct (user_code_loop _ _ _ _) as [shown' plain']. csimpl. rewrite <- app_assoc in IH. apply IH.
  - apply Forall_app. split; [|by repeat constructor]. destruct (_ && _); [|done]. apply Forall_app. split; [done|]. by repeat constructor.
  - rewrite Happ, Hsym. f_equal. destruct (_ && _); [|done]. rewrite Happ, Hc. change (canonical_of [byte_of 45]) with (@nil ascii).
    apply app_nil_r.
Qed.

Lemma Forall_symbols raw : Forall (.∈ userCodeAlphabet) (userSymbol <$> raw).
Proof. induction raw; csimpl; constructor; [apply userSymbol_in|done]. Qed.

Lemma userSymbol_inj r1 r2 : userSymbol r1 = userSymbol r2 ↔ byte_val r1 mod 32 = byte_val r2 mod 32.
Proof.
  assert (∀ r, userSymbol r = default (byte_of 0) (userCodeAlphabet !! Z.to_nat (byte_val r mod 32))) as E.
  { intros r. unfold userSymbol. change userCodeMask with (Z.ones 5). by rewrite Z.land_ones. }
  rewrite !E. split; [|by intros ->].
  assert (NoDup userCodeAlphabet) as Hnd by (apply (bool_decide_unpack _); vm_compute; exact I).
  pose proof (Z.mod_pos_bound (byte_val r1) 32). pose proof (Z.mod_pos_bound (byte_val r2) 32).
  destruct (lookup_lt_is_Some_2 userCodeAlphabet (Z.to_nat (byte_val r1 mod 32))) as [c1 H1]; [change (length _) with 32%nat; lia|].
  destruct (lookup_lt_is_Some_2 userCodeAlphabet (Z.to_nat (byte_val r2 mod 32))) as [c2 H2]; [change (length _) with 32%nat; lia|].
  rewrite H1, H2. simpl. intros ->. pose proof (NoDup_lookup _ _ _ _ Hnd H1 H2). lia.
Qed.

(** ** Claims *)

(** Pairing codes read back as what was issued.  A device code of a 16-byte
    identifier and a 32-byte secret parses to both.  A user code drawn from eight
    random bytes is accepted as it is displayed and in any ASCII transcription that
    differs only in case, in hyphens and spaces, and in writing L as 1 or I; whatever
    is accepted, from any input, is eight symbols of the alphabet; and two draws
    give the same code only when all their low five bits agree, so codes are as
    uniform as the bytes. *)
Theorem pairing_codes_roundtrip rnd secret raw : length rnd = 16%nat → length secret = 32%nat → length raw = userCodeLen →
  let '(display, canonical) := newUserCode raw in
  parseDeviceCode (formatDeviceCode (newPairingID rnd) secret) = Ok (newPairingID rnd, secret) ∧
  normalizeUserCode display = Ok canonical ∧
  (∀ typed, Forall (λ c, byte_val c < 128) typed → normalizeUserCode typed = Ok canonical ↔ canonical_of typed = canonical) ∧
  (∀ typed code, normalizeUserCode typed = Ok code → length code = userCodeLen ∧ Forall (.∈ userCodeAlphabet) code) ∧
  (∀ raw', length raw' = userCodeLen → snd (newUserCode raw') = canonical ↔
     (λ c, byte_val c mod 32) <$> raw' = (λ c, byte_val c mod 32) <$> raw).
Proof.
  intros Hr Hs Hraw.
  assert (∀ raw', snd (newUserCode raw') = userSymbol <$> raw') as Hsnd.
  { intros raw'. pose proof (user_code_loop_inv raw' 0 [] [] (Forall_nil_2 _) eq_refl) as H. unfold newUserCode.
    destruct (user_code_loop _ _ _ _) as [d' c']. by destruct H as (_ & _ & ->). }
  pose proof (user_code_loop_inv raw 0 [] [] (Forall_nil_2 _) eq_refl) as H. unfold newUserCode at 1.
  destruct (user_code_loop 0 raw [] []) as [display canonical]. destruct H as (Ha & Hc & Hcan). simpl in Hcan.
  assert (∀ typed, Forall (λ c, byte_val c < 128) typed → normalizeUserCode typed = Ok canonical ↔ canonical_of typed = canonical) as Htyped.
  { intros typed Hty. rewrite normalizeUserCode_ascii by done. split.
    - case_bool_decide; [|done]. by intros [= ->].
    - intros ->. rewrite bool_decide_eq_true_2; [done|]. rewrite Hcan, length_fmap. split; [done|apply Forall_symbols]. }
  split_and!.
  - unfold parseDeviceCode, formatDeviceCode. rewrite cut_prefix_app. simpl app. rewrite cut_app by apply rawurl_no_sep. simpl.
    rewrite (proj2 (contains_byte _ _)) by apply rawurl_no_sep. unfold newPairingID.
    change (rawurl_b64 rnd) with (newCredentialID rnd). rewrite newCredentialID_len by done. unfold newCredentialID.
    rewrite !rawurl_decode_encode. unfold len. by rewrite Hs.
  - by apply Htyped.
  - done.
  - intros typed code. apply normalize_loop_ok. constructor.
  - intros raw' _. rewrite Hsnd, Hcan. clear. revert raw. induction raw' as [|r raw' IH]; intros [|r' raw]; csimpl; try done.
    split; intros H; injection H as H1 H2; f_equal; try (by apply IH); by apply userSymbol_inj.
Qed.

Lemma pairing_codes_roundtrip_witness :
  normalizeUserCode (go "abcd-1f2 3") = Ok (go "ABCDLF23") ∧ normalizeUserCode (go "ABCD-LF23") = Ok (go "ABCDLF23").
Proof.
  assert (newUserCode (byte_of <$> [8; 9; 10; 11; 18; 13; 0; 1]) = (go "ABCD-LF23", go "ABCDLF23")) as E by (vm_compute; reflexivity).
  pose proof (pairing_codes_roundtrip (go "0123456789abcdef") (go "0123456789abcdef0123456789abcdef")
    (byte_of <$> [8; 9; 10; 11; 18; 13; 0; 1]) eq_refl eq_refl eq_refl) as H.
  rewrite E in H. destruct H as (_ & Hd & Ht & _). split; [|exact Hd].
  apply Ht; [repeat (constructor; [vm_compute; reflexivity|]); constructor|vm_compute; reflexivity].
Defined.

(** Two letters outside ASCII are read as symbols too, since [strings.ToUpper] maps
    them to S and I. *)
Example long_s_accepted : normalizeUserCode (go "ABCDEFG" ++ (byte_of <$> [0xC5; 0xBF])) = Ok (go "ABCDEFGS") ∧
  normalizeUserCode (go "ABCDEFG" ++ (byte_of <$> [0xC4; 0xB1])) = Ok (go "ABCDEFGL").
Proof. split; vm_compute; reflexivity. Qed.
