(* ===== verification/PairingRepo.v ===== *)
(** * Storage: device pairings and linked identities

    [internal/storage/sqlite/pairing.go] and [linkedidentity.go], one definition per
    statement, over the tables of [Database].  In device_pairings an empty owner or
    user-code digest is NULL, which no comparison matches.  (The service never
    approves for an empty owner, the one way an empty text could be stored instead.) *)

From stdpp Require Import sorting.
From S2P Require Import Prelude DomainErrors GoLib Domain Database.

Open Scope Z_scope.
Open Scope stm_scope.

(** ** device_pairings *)

(** src/internal/storage/sqlite/pairing.go:29-60, pairingRepo.Create
    (primary key and the CHECK on the status) *)
Definition pair_Create (p : DevicePairing) : stM conn unit :=
  let! _ := exec (λ d, match pairings d !! Pair_ID p with
                       | Some _ => inl UniqueViolation
                       | None =>
                           if PairingStatus_IsValid (Pair_Status p) then inr (1, set_pairings <[Pair_ID p := p]> d)
                           else inl (Driver (errors_new "CHECK constraint failed"))
                       end) in st_ret tt.

(** src/internal/storage/sqlite/pairing.go:62-73, pairingRepo.GetByID *)
Definition pair_GetByID (id : gostring) : stM conn DevicePairing := query_row (λ d, pairings d !! id).

(** src/internal/storage/sqlite/pairing.go:75-98, pairingRepo.GetByUserCodeHash
    (should several rows match, the query yields one of them) *)
Definition pair_GetByUserCodeHash (hash : bytes) : stM conn DevicePairing :=
  if bool_decide (hash = []) then st_fail ErrNotFound else
  query_row (λ d, head (filter (λ p, Pair_UserCodeHash p = hash) (rows (pairings d)))).

(** [WHERE id = ? AND owner_id = ?] *)
Definition owned_pairing (ownerID id : gostring) (d : db) : option DevicePairing :=
  match pairings d !! id with
  | Some p => if bool_decide (Pair_OwnerID p = ownerID) && negb (bool_decide (ownerID = [])) then Some p else None
  | None => None
  end.

(** src/internal/storage/sqlite/pairing.go:100-106, pairingRepo.Get *)
Definition pair_Get (ownerID id : gostring) : stM conn DevicePairing := query_row (owned_pairing ownerID id).

Definition by_creation (a b : DevicePairing) : bool :=
  (Pair_CreatedAt a <? Pair_CreatedAt b) ||
  ((Pair_CreatedAt a =? Pair_CreatedAt b) && bytes_le (Pair_ID a) (Pair_ID b)).

(** src/internal/storage/sqlite/pairing.go:108-118, pairingRepo.ListByOwner *)
Definition pair_ListByOwner (ownerID : gostring) : stM conn (list DevicePairing) :=
  query (λ d, ordered_by by_creation
    (filter (λ p, Pair_OwnerID p = ownerID ∧ ownerID ≠ []) (rows (pairings d)))).

(** src/internal/storage/sqlite/pairing.go:248-271, pairingRepo.classifyByID *)
Definition classifyByID (n : Z) (id : gostring) : stM conn unit :=
  if 0 <? n then st_ret tt else
  let! _ := query_row (λ d, pairings d !! id) in st_fail ErrConflict.

(** src/internal/storage/sqlite/pairing.go:273-292, pairingRepo.classifyByOwner *)
Definition classifyByOwner (n : Z) (ownerID id : gostring) : stM conn unit :=
  if 0 <? n then st_ret tt else
  let! _ := query_row (owned_pairing ownerID id) in st_fail ErrConflict.

(** The columns each UPDATE sets. *)
Definition approved_row (ownerID : gostring) (now : time) (p : DevicePairing) : DevicePairing :=
  MkDevicePairing (Pair_ID p) ownerID (Pair_DeviceCodeHash p) (Pair_UserCodeHash p) (Pair_ClientLabel p) (Pair_Scopes p)
    PairingStatusApproved (Pair_LineageID p) (Pair_NextPollAt p) (Pair_CreatedAt p) (Pair_ExpiresAt p)
    (Some now) (Pair_RedeemedAt p) (Pair_RevokedAt p).
Definition redeemed_row (lineageID : gostring) (now : time) (p : DevicePairing) : DevicePairing :=
  MkDevicePairing (Pair_ID p) (Pair_OwnerID p) (Pair_DeviceCodeHash p) (Pair_UserCodeHash p) (Pair_ClientLabel p) (Pair_Scopes p)
    PairingStatusRedeemed lineageID (Pair_NextPollAt p) (Pair_CreatedAt p) (Pair_ExpiresAt p)
    (Pair_ApprovedAt p) (Some now) (Pair_RevokedAt p).
Definition revoked_row (now : time) (p : DevicePairing) : DevicePairing :=
  MkDevicePairing (Pair_ID p) (Pair_OwnerID p) (Pair_DeviceCodeHash p) (Pair_UserCodeHash p) (Pair_ClientLabel p) (Pair_Scopes p)
    PairingStatusRevoked (Pair_LineageID p) (Pair_NextPollAt p) (Pair_CreatedAt p) (Pair_ExpiresAt p)
    (Pair_ApprovedAt p) (Pair_RedeemedAt p) (Some now).
Definition touched_row (nextPollAt : time) (p : DevicePairing) : DevicePairing :=
  MkDevicePairing (Pair_ID p) (Pair_OwnerID p) (Pair_DeviceCodeHash p) (Pair_UserCodeHash p) (Pair_ClientLabel p) (Pair_Scopes p)
    (Pair_Status p) (Pair_LineageID p) nextPollAt (Pair_CreatedAt p) (Pair_ExpiresAt p)
    (Pair_ApprovedAt p) (Pair_RedeemedAt p) (Pair_RevokedAt p).

(** [UPDATE device_pairings SET ... WHERE id = ? AND ...]: the row [sel] picks, if it
    satisfies [cond], becomes [upd] of it. *)
Definition update_pairing (sel : db → option DevicePairing) (cond : DevicePairing → bool)
    (upd : DevicePairing → DevicePairing) (id : gostring) : stM conn Z :=
  exec (λ d, match sel d with
             | Some p => if cond p then inr (1, set_pairings <[id := upd p]> d) else inr (0, d)
             | None => inr (0, d)
             end).

(** src/internal/storage/sqlite/pairing.go:120-147, pairingRepo.Approve *)
Definition pair_Approve (id ownerID : gostring) (now : time) : stM conn unit :=
  let! n := update_pairing (λ d, pairings d !! id) (λ p, bool_decide (Pair_Status p = PairingStatusPending))
              (approved_row ownerID now) id in
  classifyByID n id.

(** src/internal/storage/sqlite/pairing.go:149-173, pairingRepo.MarkRedeemed *)
Definition pair_MarkRedeemed (ownerID id lineageID : gostring) (now : time) : stM conn unit :=
  let! n := update_pairing (owned_pairing ownerID id) (λ p, bool_decide (Pair_Status p = PairingStatusApproved))
              (redeemed_row lineageID now) id in
  classifyByOwner n ownerID id.

(** src/internal/storage/sqlite/pairing.go:175-197, pairingRepo.Revoke *)
Definition pair_Revoke (ownerID id : gostring) (now : time) : stM conn unit :=
  let! n := update_pairing (owned_pairing ownerID id)
              (λ p, bool_decide (Pair_Status p = PairingStatusPending) || bool_decide (Pair_Status p = PairingStatusApproved))
              (revoked_row now) id in
  classifyByOwner n ownerID id.

(** src/internal/storage/sqlite/pairing.go:199-217, pairingRepo.Touch *)
Definition pair_Touch (id : gostring) (nextPollAt : time) : stM conn unit :=
  let! n := update_pairing (λ d, pairings d !! id) (λ _, true) (touched_row nextPollAt) id in
  requireAffected n.

Definition by_pair_expiry (a b : DevicePairing) : bool :=
  (Pair_ExpiresAt a <? Pair_ExpiresAt b) ||
  ((Pair_ExpiresAt a =? Pair_ExpiresAt b) && bytes_le (Pair_ID a) (Pair_ID b)).

(** src/internal/storage/sqlite/pairing.go:219-236, pairingRepo.DeleteExpired *)
Definition pair_DeleteExpired (cutoff : time) (limit : Z) : stM conn Z :=
  if limit <=? 0 then st_fail (errorf "sqlite: delete limit must be positive" [ErrInvalidInput]) else
  exec (λ d,
    let doomed := Pair_ID <$> take (Z.to_nat limit)
                    (ordered_by by_pair_expiry (filter (λ p, Pair_ExpiresAt p ≤ cutoff) (rows (pairings d)))) in
    inr (Z.of_nat (length doomed), set_pairings (filter (λ kp, kp.1 ∉ doomed)) d)).

(** ** linked_identities *)

Definition links_of (provider subject : gostring) (d : db) : list LinkedIdentity :=
  filter (λ l, Link_Provider l = provider ∧ Link_Subject l = subject) (rows (links d)).

(** src/internal/storage/sqlite/linkedidentity.go:26-52, linkedIdentityRepo.Create
    (the primary key, the unique pair of provider and subject, the reference to owners) *)
Definition link_Create (l : LinkedIdentity) : stM conn unit :=
  let! _ := exec (λ d, match links d !! Link_ID l, links_of (Link_Provider l) (Link_Subject l) d, owners d !! Link_OwnerID l with
                       | Some _, _, _ | None, _ :: _, _ => inl UniqueViolation
                       | None, [], None => inl (Driver (errors_new "FOREIGN KEY constraint failed"))
                       | None, [], Some _ => inr (1, set_links <[Link_ID l := l]> d)
                       end) in st_ret tt.

(** src/internal/storage/sqlite/linkedidentity.go:54-66, linkedIdentityRepo.GetByProviderSubject *)
Definition link_GetByProviderSubject (provider subject : gostring) : stM conn LinkedIdentity :=
  query_row (λ d, head (links_of provider subject d)).

Definition by_link_creation (a b : LinkedIdentity) : bool :=
  (Link_CreatedAt a <? Link_CreatedAt b) ||
  ((Link_CreatedAt a =? Link_CreatedAt b) && bytes_le (Link_ID a) (Link_ID b)).

(** src/internal/storage/sqlite/linkedidentity.go:68-94, linkedIdentityRepo.ListByOwner *)
Definition link_ListByOwner (ownerID : gostring) : stM conn (list LinkedIdentity) :=
  query (λ d, ordered_by by_link_creation (filter (λ l, Link_OwnerID l = ownerID) (rows (links d)))).

(** src/internal/storage/sqlite/linkedidentity.go:96-107, linkedIdentityRepo.Delete *)
Definition link_Delete (ownerID id : gostring) : stM conn unit :=
  let! n := exec (λ d, match links d !! id with
                       | Some l => if bool_decide (Link_OwnerID l = ownerID) then inr (1, set_links (delete id) d) else inr (0, d)
                       | None => inr (0, d)
                       end) in requireAffected n.

(** src/internal/storage/sqlite/linkedidentity.go:109-126, linkedIdentityRepo.DeleteByOwner *)
Definition link_DeleteByOwner (ownerID : gostring) : stM conn Z :=
  exec (λ d, inr (Z.of_nat (length (filter (λ l, Link_OwnerID l = ownerID) (rows (links d)))),
                  set_links (filter (λ kl, Link_OwnerID kl.2 ≠ ownerID)) d)).

Close Scope stm_scope.

(** ** What the statements do *)

(** The tails of the UPDATE statements: they read at most, and report success exactly
    when a row changed. *)
Definition reports (g : Z → stM conn unit) : Prop :=
  ∀ n c r c', g n c = (r, c') → data c' = data c ∧ (n = 1 → r = Ok tt) ∧ (n = 0 → is_ok r = false) ∧ (faults c = [] → faults c' = []).

Lemma reports_conflict {A} (f : db → option A) :
  reports (λ n, if 0 <? n then st_ret tt else st_bind (query_row f) (λ _, st_fail ErrConflict)).
Proof.
  intros n c r c'. destruct (0 <? n) eqn:E; [apply Z.ltb_lt in E|apply Z.ltb_ge in E].
  - unfold st_ret. intros. simplify_eq. split_and!; try done; lia.
  - unfold st_bind. destruct (query_row f c) as [[a|e] c1] eqn:Eq; apply query_row_inv in Eq as (Hd & _ & Hf); unfold st_fail; intros;
      simplify_eq; (split_and!; [done|lia|done|intros H; destruct (Hf H) as [-> _]; done]).
Qed.

Lemma reports_affected : reports requireAffected.
Proof.
  intros n c r c'. unfold requireAffected, st_fail, st_ret. destruct (n =? 0) eqn:E; [apply Z.eqb_eq in E|apply Z.eqb_neq in E];
    intros; simplify_eq; split_and!; try done; lia.
Qed.

Lemma update_pairing_inv sel cond upd id g c r c' : reports g → st_bind (update_pairing sel cond upd id) g c = (r, c') →
  ((r = Ok tt ∧ ∃ p, sel (data c) = Some p ∧ cond p = true ∧ data c' = set_pairings <[id := upd p]> (data c)) ∨
   (is_ok r = false ∧ data c' = data c)) ∧
  (faults c = [] → faults c' = [] ∧ ∀ p, sel (data c) = Some p → is_ok r = cond p).
Proof.
  intros Hg. unfold st_bind. destruct (update_pairing sel cond upd id c) as [[n|e] c1] eqn:E; apply exec_inv in E as [H HF].
  - destruct H as [(n' & d & [= <-] & Hf & Hd)|(? & ? & _)]; [|done]. intros Er. destruct (Hg _ _ _ _ Er) as (Hd' & Hr1 & Hr0 & Hff).
    rewrite Hd', Hd. destruct (sel (data c)) as [p|] eqn:Hs; [destruct (cond p) eqn:Hc|]; injection Hf as <- <-.
    + rewrite Hr1 by done. split; [left; split; [done|by exists p]|]. intros Hfs. split; [apply Hff, HF, Hfs|]. intros ? [= <-]. done.
    + split; [right; by rewrite Hr0|]. intros Hfs. split; [apply Hff, HF, Hfs|]. intros ? [= <-]. by rewrite Hr0.
    + split; [right; by rewrite Hr0|]. intros Hfs. split; [apply Hff, HF, Hfs|done].
  - destruct H as [(? & ? & ? & _)|(e' & _ & Hd)]; [done|]. intros. simplify_eq. split; [by right|].
    intros Hfs. destruct (HF Hfs) as [_ H]. destruct (sel (data c)) as [p|] eqn:Hs; [destruct (cond p)|]; by destruct (H _ _ eq_refl).
Qed.

Lemma owned_pairing_Some ownerID id d p : owned_pairing ownerID id d = Some p →
  pairings d !! id = Some p ∧ Pair_OwnerID p = ownerID ∧ ownerID ≠ [].
Proof.
  unfold owned_pairing. destruct (pairings d !! id) as [q|]; [|done]. repeat case_bool_decide; simpl; try done. by intros [= <-].
Qed.

Lemma pair_Create_inv p c r c' : pair_Create p c = (r, c') →
  (r = Ok tt ∧ pairings (data c) !! Pair_ID p = None ∧ data c' = set_pairings <[Pair_ID p := p]> (data c)) ∨
  (is_ok r = false ∧ data c' = data c).
Proof.
  unfold pair_Create, st_bind. destruct (exec _ c) as [[n|e] c1] eqn:E; apply exec_inv in E as [H _].
  - destruct H as [(n' & d & _ & Hf & Hd)|(? & ? & _)]; [|done]. destruct (pairings (data c) !! _) eqn:Hp; [done|].
    destruct (PairingStatus_IsValid _); [|done]. injection Hf as _ <-. unfold st_ret. intros. simplify_eq. by left.
  - destruct H as [(? & ? & ? & _)|(? & _ & Hd)]; [done|]. intros. simplify_eq. by right.
Qed.

Lemma link_Create_inv l c r c' : link_Create l c = (r, c') →
  (r = Ok tt ∧ links (data c) !! Link_ID l = None ∧ links_of (Link_Provider l) (Link_Subject l) (data c) = [] ∧
     is_Some (owners (data c) !! Link_OwnerID l) ∧ data c' = set_links <[Link_ID l := l]> (data c)) ∨
  (is_ok r = false ∧ data c' = data c).
Proof.
  unfold link_Create, st_bind. destruct (exec _ c) as [[n|e] c1] eqn:E; apply exec_inv in E as [H _].
  - destruct H as [(n' & d & _ & Hf & Hd)|(? & ? & _)]; [|done]. destruct (links (data c) !! _) eqn:Hp; [done|].
    destruct (links_of _ _ _) eqn:Hl; [|done]. destruct (owners _ !! _) eqn:Ho; [|done].
    injection Hf as _ <-. unfold st_ret. intros. simplify_eq. left. by split_and!.
  - destruct H as [(? & ? & ? & _)|(? & _ & Hd)]; [done|]. intros. simplify_eq. by right.
Qed.

Lemma pair_Approve_inv id ownerID now c r c' : pair_Approve id ownerID now c = (r, c') →
  (r = Ok tt ∧ ∃ p, pairings (data c) !! id = Some p ∧ Pair_Status p = PairingStatusPending ∧
     data c' = set_pairings <[id := approved_row ownerID now p]> (data c)) ∨
  (is_ok r = false ∧ data c' = data c).
Proof.
  intros E. apply update_pairing_inv in E as [H _]; [|apply reports_conflict].
  destruct H as [(-> & p & Hp & Hc%bool_decide_eq_true & Hd)|?]; [left; split; [done|by exists p]|by right].
Qed.

Lemma pair_MarkRedeemed_inv ownerID id lineageID now c r c' : pair_MarkRedeemed ownerID id lineageID now c = (r, c') →
  ((r = Ok tt ∧ ∃ p, pairings (data c) !! id = Some p ∧ Pair_OwnerID p = ownerID ∧ ownerID ≠ [] ∧
     Pair_Status p = PairingStatusApproved ∧ data c' = set_pairings <[id := redeemed_row lineageID now p]> (data c)) ∨
   (is_ok r = false ∧ data c' = data c)) ∧
  (faults c = [] → faults c' = []).
Proof.
  intros E. apply update_pairing_inv in E as [H HF]; [|apply reports_conflict]. split; [|apply HF].
  destruct H as [(-> & p & (Hp & Ho & Hne)%owned_pairing_Some & Hc%bool_decide_eq_true & Hd)|?];
    [left; split; [done|by exists p]|by right].
Qed.

Lemma pair_Revoke_inv ownerID id now c r c' : pair_Revoke ownerID id now c = (r, c') →
  ((r = Ok tt ∧ ∃ p, pairings (data c) !! id = Some p ∧ Pair_OwnerID p = ownerID ∧ ownerID ≠ [] ∧
     (Pair_Status p = PairingStatusPending ∨ Pair_Status p = PairingStatusApproved) ∧
     data c' = set_pairings <[id := revoked_row now p]> (data c)) ∨
   (is_ok r = false ∧ data c' = data c)) ∧
  (faults c = [] → faults c' = []).
Proof.
  intros E. apply update_pairing_inv in E as [H HF]; [|apply reports_conflict]. split; [|apply HF].
  destruct H as [(-> & p & (Hp & Ho & Hne)%owned_pairing_Some & Hc & Hd)|?]; [left; split; [done|]|by right].
  exists p. split_and!; try done. rewrite orb_true_iff, !bool_decide_eq_true in Hc. done.
Qed.

Lemma pair_Touch_inv id t c r c' : pair_Touch id t c = (r, c') →
  (∃ p, pairings (data c) !! id = Some p ∧ data c' = set_pairings <[id := touched_row t p]> (data c)) ∨ data c' = data c.
Proof.
  intros E. apply update_pairing_inv in E as [H _]; [|apply reports_affected].
  destruct H as [(-> & p & Hp & _ & Hd)|[_ ?]]; [left; by exists p|by right].
Qed.

(** ** The life of a pairing *)

(** What one statement can make of a row. *)
Definition row_move (p p' : DevicePairing) : Prop :=
  (∃ o now, Pair_Status p = PairingStatusPending ∧ o ≠ [] ∧ p' = approved_row o now p) ∨
  (∃ l now, Pair_Status p = PairingStatusApproved ∧ l ≠ [] ∧ p' = redeemed_row l now p) ∨
  (∃ now, (Pair_Status p = PairingStatusPending ∨ Pair_Status p = PairingStatusApproved) ∧ p' = revoked_row now p) ∨
  (∃ t, p' = touched_row t p).

(** A row as it is created: pending and nobody's, or approved for its owner. *)
Definition new_row (p : DevicePairing) : Prop :=
  ((Pair_Status p = PairingStatusPending ∧ Pair_OwnerID p = []) ∨
   (Pair_Status p = PairingStatusApproved ∧ Pair_OwnerID p ≠ [])) ∧ Pair_LineageID p = [].

(** What statements do to the table, [fst] being the identifiers ever drawn: every
    new pairing draws a fresh one. *)
Inductive table_step : gset gostring * gmap gostring DevicePairing → gset gostring * gmap gostring DevicePairing → Prop :=
| ts_create used t p : Pair_ID p ∉ used → new_row p → table_step (used, t) ({[Pair_ID p]} ∪ used, <[Pair_ID p := p]> t)
| ts_burn used t id : table_step (used, t) ({[id]} ∪ used, t)
| ts_move used t id p p' : t !! id = Some p → row_move p p' → table_step (used, t) (used, <[id := p']> t)
| ts_delete used t doomed : table_step (used, t) (used, filter (λ kp, kp.1 ∉ (doomed : list gostring)) t).

(** Owner, lineage and status fit together. *)
Definition row_ok (p : DevicePairing) : Prop :=
  match Pair_Status p with
  | PairingStatusPending => Pair_OwnerID p = [] ∧ Pair_LineageID p = []
  | PairingStatusApproved => Pair_OwnerID p ≠ [] ∧ Pair_LineageID p = []
  | PairingStatusRedeemed => Pair_OwnerID p ≠ [] ∧ Pair_LineageID p ≠ []
  | PairingStatusRevoked => Pair_LineageID p = []
  | PairingStatusOther _ => False
  end.

Lemma row_move_ok p p' : row_ok p → row_move p p' → row_ok p'.
Proof.
  unfold row_ok. intros Hok [(o & now & Hs & Ho & ->)|[(l & now & Hs & Hl & ->)|[(now & Hs & ->)|(t & ->)]]]; simpl.
  - rewrite Hs in Hok. by destruct Hok.
  - rewrite Hs in Hok. by destruct Hok.
  - destruct Hs as [Hs|Hs]; rewrite Hs in Hok; apply Hok.
  - done.
Qed.

Lemma new_row_ok p : new_row p → row_ok p.
Proof. unfold row_ok. by intros [[[-> ?]|[-> ?]] ?]. Qed.

(** How far a row has come: [p'] is a later state of [p]. *)
Record forward (p p' : DevicePairing) : Prop := {
  fw_fixed : Pair_ID p' = Pair_ID p ∧ Pair_DeviceCodeHash p' = Pair_DeviceCodeHash p ∧ Pair_UserCodeHash p' = Pair_UserCodeHash p ∧
    Pair_ClientLabel p' = Pair_ClientLabel p ∧ Pair_Scopes p' = Pair_Scopes p ∧ Pair_CreatedAt p' = Pair_CreatedAt p ∧
    Pair_ExpiresAt p' = Pair_ExpiresAt p;
  fw_owner : Pair_Status p ≠ PairingStatusPending → Pair_OwnerID p' = Pair_OwnerID p ∧ Pair_ApprovedAt p' = Pair_ApprovedAt p;
  fw_status : match Pair_Status p with
    | PairingStatusPending => True
    | PairingStatusApproved => Pair_Status p' ≠ PairingStatusPending
    | st => Pair_Status p' = st ∧ Pair_LineageID p' = Pair_LineageID p
    end;
  fw_final : Pair_Status p = PairingStatusRedeemed ∨ Pair_Status p = PairingStatusRevoked →
    Pair_RedeemedAt p' = Pair_RedeemedAt p ∧ Pair_RevokedAt p' = Pair_RevokedAt p;
}.

Lemma forward_refl p : forward p p.
Proof. split; [done|done| |done]. by destruct (Pair_Status p). Qed.

Lemma forward_trans p q s : forward p q → forward q s → forward p s.
Proof.
  intros [F1 O1 S1 L1] [F2 O2 S2 L2]. split.
  - destruct F2 as (-> & -> & -> & -> & -> & -> & ->). done.
  - intros Hp. destruct O2 as [-> ->]; [|by apply O1]. intros E. destruct (Pair_Status p); try done; destruct S1 as [S1 _]; congruence.
  - destruct (Pair_Status p) eqn:Ep; try done.
    + destruct (Pair_Status q) eqn:Eq; try done; destruct S2 as [-> _]; done.
    + destruct S1 as [Eq Hl]. rewrite Eq in S2. destruct S2 as [-> ->]. by split.
    + destruct S1 as [Eq Hl]. rewrite Eq in S2. destruct S2 as [-> ->]. by split.
    + destruct S1 as [Eq Hl]. rewrite Eq in S2. destruct S2 as [-> ->]. by split.
  - intros Hp. destruct L2 as [-> ->]; [|by apply L1]. by destruct Hp as [E|E]; rewrite E in *; destruct S1 as [-> _]; [left|right].
Qed.

Lemma row_move_forward p p' : row_move p p' → forward p p'.
Proof.
  intros [(o & now & Hs & Ho & ->)|[(l & now & Hs & Hl & ->)|[(now & Hs & ->)|(t & ->)]]]; split; simpl; try done.
  all: first [by rewrite Hs|by rewrite Hs; intros [?|?]|by destruct Hs as [-> | ->]|by destruct Hs as [-> | ->]; intros [?|?]|by destruct (Pair_Status p)].
Qed.

(** Every row is well formed, under its identifier, which was drawn. *)
Definition table_ok (s : gset gostring * gmap gostring DevicePairing) : Prop :=
  ∀ k p, snd s !! k = Some p → row_ok p ∧ Pair_ID p = k ∧ k ∈ fst s.

Lemma row_move_id p p' : row_move p p' → Pair_ID p' = Pair_ID p.
Proof. intros H. apply (fw_fixed _ _ (row_move_forward _ _ H)). Qed.

Lemma table_step_ok s s' : table_ok s → table_step s s' → table_ok s'.
Proof.
  intros Hok Hstep k q. destruct Hstep as [used t p Hf Hn|used t id|used t id p p' Hp Hm|used t doomed]; simpl.
  - rewrite elem_of_union, elem_of_singleton. intros [[<- <-]|[_ H]]%lookup_insert_Some; [by split_and!; [apply new_row_ok| |left]|].
    destruct (Hok _ _ H) as (? & ? & ?). by split_and!; [| |right].
  - rewrite elem_of_union. intros H. destruct (Hok _ _ H) as (? & ? & ?). by split_and!; [| |right].
  - intros [[<- <-]|[_ H]]%lookup_insert_Some; [|by apply Hok]. destruct (Hok _ _ Hp) as (? & ? & ?). split_and!; [by eapply row_move_ok| |done].
    by rewrite (row_move_id _ _ Hm).
  - intros [H _]%map_lookup_filter_Some. by apply Hok.
Qed.

(** A row that is still there moved forward. *)
Lemma table_steps_forward s s' : table_ok s → steps table_step s s' →
  table_ok s' ∧ ∀ k p p', snd s !! k = Some p → snd s' !! k = Some p' → forward p p'.
Proof.
  intros Hok Hs. split; [by apply (steps_invariant table_step table_ok s s' table_step_ok Hok Hs)|].
  intros k p p' Hp. revert p'.
  enough (k ∈ fst s' ∧ ∀ p', snd s' !! k = Some p' → forward p p') as [_ H] by exact H.
  refine (steps_invariant table_step (λ s, k ∈ fst s ∧ ∀ p', snd s !! k = Some p' → forward p p') s s' _ _ Hs).
  - intros x y [Hin Hfw] Hstep. destruct Hstep as [used t q Hf Hn|used t id|used t id q q' Hq Hm|used t doomed]; simpl in *.
    + split; [set_solver|]. intros p' [[E _]|[_ H]]%lookup_insert_Some; [by rewrite E in Hf|by apply Hfw].
    + split; [set_solver|done].
    + split; [done|]. intros p' [[-> <-]|[_ H]]%lookup_insert_Some; [|by apply Hfw].
      apply (forward_trans _ q); [by apply Hfw|by apply row_move_forward].
    + split; [done|]. intros p' [H _]%map_lookup_filter_Some. by apply Hfw.
  - split; [by apply (Hok _ _ Hp)|]. intros p' Hp'. rewrite Hp in Hp'. simplify_eq. apply forward_refl.
Qed.

(** ** Statements of concurrent calls, in any order *)

(** A statement on device_pairings that writes. *)
Inductive pstmt :=
| SCreate (p : DevicePairing)
| SApprove (id ownerID : gostring) (now : time)
| SRedeem (ownerID id lineageID : gostring) (now : time)
| SRevoke (ownerID id : gostring) (now : time)
| STouch (id : gostring) (nextPollAt : time)
| SExpire (cutoff : time) (limit : Z).

Definition run_pstmt (s : pstmt) (c : conn) : bool * conn :=
  let ok {A} (r : result A * conn) := (is_ok (fst r), snd r) in
  match s with
  | SCreate p => ok (pair_Create p c)
  | SApprove id ownerID now => ok (pair_Approve id ownerID now c)
  | SRedeem ownerID id lineageID now => ok (pair_MarkRedeemed ownerID id lineageID now c)
  | SRevoke ownerID id now => ok (pair_Revoke ownerID id now c)
  | STouch id t => ok (pair_Touch id t c)
  | SExpire cutoff limit => ok (pair_DeleteExpired cutoff limit c)
  end.

(** Running them one after the other, with what each reported. *)
Fixpoint run_pstmts (ss : list pstmt) (c : conn) : list (pstmt * bool) * conn :=
  match ss with
  | [] => ([], c)
  | s :: ss' => let '(b, c1) := run_pstmt s c in let '(l, c2) := run_pstmts ss' c1 in ((s, b) :: l, c2)
  end.

Definition created (ss : list pstmt) : list gostring :=
  omap (λ s, match s with SCreate p => Some (Pair_ID p) | _ => None end) ss.

(** A redemption of pairing [id] that took effect. *)
Definition redeems (id : gostring) (e : pstmt * bool) : bool :=
  match e with (SRedeem _ id' _ _, true) => bool_decide (id' = id) | _ => false end.

(** The redemptions still possible: of a row, and of [id] in table [t] when the
    pairings [later] are yet to be created. *)
Definition weight (p : DevicePairing) : nat :=
  match Pair_Status p with PairingStatusPending | PairingStatusApproved => 1 | _ => 0 end.
Definition potential (id : gostring) (later : list gostring) (t : gmap gostring DevicePairing) : nat :=
  match t !! id with
  | Some p => weight p
  | None => if bool_decide (id ∈ later) then 1 else 0
  end.

Lemma weight_le p : (weight p <= 1)%nat.
Proof. unfold weight. destruct (Pair_Status p); lia. Qed.

Lemma potential_insert id later t k p p' (n : nat) : t !! k = Some p → (weight p' + n <= weight p)%nat →
  (potential id later (<[k := p']> t) + (if bool_decide (k = id) then n else 0) <= potential id later t)%nat.
Proof.
  intros Hk Hw. unfold potential. destruct (decide (k = id)) as [->|E].
  - rewrite (bool_decide_eq_true_2 (id = id)) by done. by rewrite lookup_insert_eq, Hk.
  - rewrite (bool_decide_eq_false_2 (k = id)), lookup_insert_ne by done. lia.
Qed.

(** No row that exists is among those created later. *)
Definition separate (later : list gostring) (t : gmap gostring DevicePairing) : Prop :=
  ∀ k, is_Some (t !! k) → k ∉ later.

Lemma separate_insert later t k p p' : t !! k = Some p → separate later t → separate later (<[k := p']> t).
Proof.
  intros Hk Hs j Hj. apply Hs. destruct (decide (j = k)) as [->|Hne]; [by rewrite Hk|]. by rewrite lookup_insert_ne in Hj.
Qed.

Lemma potential_expire id later t doomed : separate later t →
  (potential id later (filter (λ kp, kp.1 ∉ (doomed : list gostring)) t) <= potential id later t)%nat.
Proof.
  intros Hs. unfold potential. destruct (filter _ t !! id) as [p|] eqn:E.
  - apply map_lookup_filter_Some in E as [-> _]. done.
  - destruct (t !! id) as [p|] eqn:Ht; [|done]. rewrite bool_decide_eq_false_2; [lia|]. apply Hs. by rewrite Ht.
Qed.

(** What one statement does to what is still possible. *)
Lemma run_pstmt_potential id s later c b c1 : run_pstmt s c = (b, c1) →
  separate (created [s] ++ later) (pairings (data c)) → NoDup (created [s] ++ later) →
  (potential id later (pairings (data c1)) + (if redeems id (s, b) then 1 else 0) <=
     potential id (created [s] ++ later) (pairings (data c)))%nat ∧ separate later (pairings (data c1)).
Proof.
  assert (∀ p p' k n, pairings (data c) !! k = Some p → (weight p' + n <= weight p)%nat → separate later (pairings (data c)) →
    (potential id later (<[k := p']> (pairings (data c))) + (if bool_decide (k = id) then n else 0) <= potential id later (pairings (data c)))%nat ∧
    separate later (<[k := p']> (pairings (data c)))) as Hins.
  { intros p p' k n Hk Hw Hs. split; [by apply (potential_insert _ _ _ _ p)|by apply (separate_insert _ _ _ p)]. }
  destruct s as [p|i o now|o i l now|o i now|i t|cutoff limit]; simpl; intros E Hs Hnd.
  - destruct (pair_Create p c) as [r c'] eqn:E1. injection E as <- <-. apply NoDup_cons in Hnd as [Hp Hnd].
    assert (separate later (pairings (data c))) as Hsep by (intros k Hk Hin; apply (Hs k Hk); by right).
    apply pair_Create_inv in E1 as [(-> & Hnone & ->)|[_ ->]]; simpl.
    + split.
      * unfold potential. destruct (decide (Pair_ID p = id)) as [<-|Hne].
        -- rewrite lookup_insert_eq, Hnone, bool_decide_eq_true_2 by (by left). pose proof (weight_le p). lia.
        -- rewrite lookup_insert_ne by done. destruct (pairings _ !! id); [lia|]. repeat case_bool_decide; try lia.
           exfalso. eauto using list_elem_of_further.
      * intros k Hk. destruct (decide (k = Pair_ID p)) as [->|Hne]; [done|]. apply Hsep. by rewrite lookup_insert_ne in Hk.
    + split; [|done]. unfold potential. destruct (pairings _ !! id); [lia|]. repeat case_bool_decide; try lia.
      exfalso. eauto using list_elem_of_further.
  - destruct (pair_Approve i o now c) as [r c'] eqn:E1. injection E as <- <-.
    apply pair_Approve_inv in E1 as [(_ & p & Hp & Hst & ->)|[_ ->]]; [|split; [lia|done]].
    destruct (Hins p (approved_row o now p) i 0%nat Hp) as [H1 H2]; [unfold weight; simpl; rewrite Hst; lia|done|].
    split; [|done]. simpl in *. destruct (bool_decide (i = id)); lia.
  - destruct (pair_MarkRedeemed o i l now c) as [r c'] eqn:E1. injection E as <- <-.
    apply pair_MarkRedeemed_inv in E1 as [[(-> & p & Hp & _ & _ & Hst & ->)|[-> ->]] _]; [|split; [lia|done]].
    apply (Hins p (redeemed_row l now p) i 1%nat Hp); [unfold weight; simpl; rewrite Hst; lia|done].
  - destruct (pair_Revoke o i now c) as [r c'] eqn:E1. injection E as <- <-.
    apply pair_Revoke_inv in E1 as [[(_ & p & Hp & _ & _ & Hst & ->)|[_ ->]] _]; [|split; [lia|done]].
    destruct (Hins p (revoked_row now p) i 0%nat Hp) as [H1 H2]; [unfold weight; simpl; lia|done|].
    split; [|done]. simpl in *. destruct (bool_decide (i = id)); lia.
  - destruct (pair_Touch i t c) as [r c'] eqn:E1. injection E as <- <-.
    apply pair_Touch_inv in E1 as [(p & Hp & ->)| ->]; [|split; [lia|done]].
    destruct (Hins p (touched_row t p) i 0%nat Hp) as [H1 H2]; [unfold weight; simpl; lia|done|].
    split; [|done]. simpl in *. destruct (bool_decide (i = id)); lia.
  - destruct (pair_DeleteExpired cutoff limit c) as [r c'] eqn:E1. injection E as <- <-.
    unfold pair_DeleteExpired, st_fail in E1. destruct (limit <=? 0); [simplify_eq; split; [lia|done]|].
    apply exec_inv in E1 as [[(n & d & _ & [= _ <-] & ->)|(? & _ & ->)] _]; [|split; [lia|done]]. simpl. split.
    + rewrite Nat.add_0_r. by apply potential_expire.
    + intros k Hk. apply Hs. destruct Hk as [p Hk]. apply map_lookup_filter_Some in Hk as [-> _]. done.
Qed.

Lemma created_cons s ss : created (s :: ss) = created [s] ++ created ss.
Proof. by destruct s. Qed.

Lemma run_pstmts_potential id ss : ∀ c l c', run_pstmts ss c = (l, c') →
  separate (created ss) (pairings (data c)) → NoDup (created ss) →
  (length (List.filter (redeems id) l) <= potential id (created ss) (pairings (data c)))%nat.
Proof.
  induction ss as [|s ss IH]; intros c l c'; [intros [= <- <-] _ _; simpl; lia|]. cbn [run_pstmts].
  destruct (run_pstmt s c) as [b c1] eqn:E. destruct (run_pstmts ss c1) as [l1 c2] eqn:El. intros [= <- <-].
  rewrite created_cons. intros Hs Hnd. destruct (run_pstmt_potential id _ _ _ _ _ E Hs Hnd) as [Hp Hs1].
  apply NoDup_app in Hnd as (_ & _ & Hnd). specialize (IH _ _ _ El Hs1 Hnd).
  cbn [List.filter]. revert Hp. destruct (redeems id (s, b)); cbn [length]; lia.
Qed.

(** ** Claims *)

(** C7. A pairing is redeemed at most once, however calls overlap.  Take any sequence of
    the statements concurrent enrollment calls execute, in any order, with any
    arguments and any of them failing: of all redemptions of one pairing at most one
    takes effect.  (Two pairings never get the same identifier, 16 random bytes.) *)
Theorem redeemed_at_most_once ss c id : pairings (data c) = ∅ → NoDup (created ss) →
  (length (List.filter (redeems id) (fst (run_pstmts ss c))) <= 1)%nat.
Proof.
  intros He Hnd. destruct (run_pstmts ss c) as [l c'] eqn:E. simpl.
  assert (separate (created ss) (pairings (data c))) as Hs by (rewrite He; intros k [p Hk]; by rewrite lookup_empty in Hk).
  pose proof (run_pstmts_potential id ss c l c' E Hs Hnd) as H. rewrite He in H. unfold potential in H.
  rewrite lookup_empty in H. destruct (bool_decide _); lia.
Qed.

Definition w_pairing : DevicePairing :=
  MkDevicePairing (go "p") (go "o") (go "h") [] (go "laptop") [MkScope ScopeFullOwner []] PairingStatusApproved []
    0 0 1000 (Some 0) None None.
Definition w_race : list pstmt :=
  [SCreate w_pairing; SRedeem (go "o") (go "p") (go "l1") 5; SRedeem (go "o") (go "p") (go "l2") 6].

(** Two redemptions race: the first takes effect, the second does not. *)
Lemma redeemed_at_most_once_witness :
  snd <$> fst (run_pstmts w_race (MkConn empty_db [])) = [true; true; false] ∧
  (length (List.filter (redeems (go "p")) (fst (run_pstmts w_race (MkConn empty_db [])))) <= 1)%nat.
Proof.
  split; [vm_compute; reflexivity|].
  apply (redeemed_at_most_once w_race (MkConn empty_db []) (go "p") eq_refl). vm_compute. repeat constructor. by intros ?%elem_of_nil.
Defined.
