(* ===== verification/Authenticator.v ===== *)
(** * Authentication: providers, identities, and resolution to an owner

    [internal/auth]: auth.go (identities), registry.go, authenticator.go and
    apitoken.go.  A provider is its identifier and what it does with a presented
    secret; the clock it reads is an argument of the provider built. *)

From S2P Require Import Prelude DomainErrors GoLib Domain Tokens Database PairingCode PairingRepo.

Open Scope Z_scope.

(** src/internal/auth/auth.go:86-93, MaxProviderIDLen *)
Definition MaxProviderIDLen : Z := 32.
Definition MaxPrincipalLen : Z := 255.

(** src/internal/auth/auth.go:120-133, ProviderID.Validate
    ([providerIDRe] is the pattern of a slug) *)
Definition ProviderID_Validate (p : gostring) : option goerror :=
  if bool_decide (p = []) then Some (errorf "auth: provider id must not be empty" [ErrInvalidInput]) else
  if MaxProviderIDLen <? len p then Some (errorf "auth: provider id exceeds 32 characters" [ErrInvalidInput]) else
  if negb (slugRe p) then
    Some (errorf "auth: provider id must be lowercase [a-z0-9-] with no leading or trailing hyphen" [ErrInvalidInput])
  else None.

(** src/internal/auth/auth.go:150-175, Principal.Validate *)
Definition Principal_Validate (p : gostring) : option goerror :=
  if bool_decide (p = []) then Some (errorf "auth: principal must not be empty" [ErrInvalidInput]) else
  if MaxPrincipalLen <? len p then Some (errorf "auth: principal exceeds 255 bytes" [ErrInvalidInput]) else
  if negb (valid_utf8 p) then Some (errorf "auth: principal must be valid UTF-8" [ErrInvalidInput]) else
  if mem_byte (byte_of 0) p then Some (errorf "auth: principal must not contain NUL" [ErrInvalidInput])
  else None.

(** src/internal/auth/auth.go:177-191, Identity *)
Record Identity := MkIdentity { Identity_Provider : gostring; Identity_Principal : gostring }.

(** src/internal/auth/auth.go:193-199, Identity.Validate *)
Definition Identity_Validate (i : Identity) : option goerror :=
  match ProviderID_Validate (Identity_Provider i) with
  | Some e => Some e
  | None => Principal_Validate (Identity_Principal i)
  end.

(** src/internal/auth/auth.go:246-277, AuthProvider
    (the credential is the revealed secret) *)
Record AuthProvider := MkProvider {
  prov_ID : gostring;
  prov_Authenticate : gostring → stM conn Identity;
}.

(** ** The registry of providers *)

(** src/internal/auth/registry.go:9-25, Registry *)
Definition ProviderRegistry : Type := gmap gostring AuthProvider.

Fixpoint register_providers (ps : list AuthProvider) (m : ProviderRegistry) : result ProviderRegistry :=
  match ps with
  | [] => Ok m
  | p :: ps' =>
      match ProviderID_Validate (prov_ID p) with
      | Some e => Err (errorf "auth: provider" [e])
      | None =>
          if bool_decide (is_Some (m !! prov_ID p)) then Err (errorf "auth: duplicate provider id" [ErrConflict])
          else register_providers ps' (<[prov_ID p := p]> m)
      end
  end.

(** src/internal/auth/registry.go:27-52, NewRegistry *)
Definition NewProviderRegistry (ps : list AuthProvider) : result ProviderRegistry := register_providers ps ∅.

(** src/internal/auth/registry.go:54-71, Registry.Lookup *)
Definition Registry_Lookup (reg : ProviderRegistry) (id : gostring) : result AuthProvider :=
  match ProviderID_Validate id with
  | Some _ => Err ErrAuthFailed
  | None => match reg !! id with Some p => Ok p | None => Err ErrAuthFailed end
  end.

Open Scope stm_scope.

(** ** The api-token provider *)

(** src/internal/auth/apitoken.go:13-16, APITokenProviderID *)
Definition APITokenProviderID : gostring := go "api-token".

(** src/internal/auth/apitoken.go:79-149, APITokenProvider.Authenticate *)
Definition apitoken_Authenticate (now : time) (secret : gostring) : stM conn Identity :=
  match parseDeviceCode secret with
  | Err _ => st_fail ErrAuthFailed
  | Ok (id, secret) =>
      try! r := pair_GetByID id in
      match r with
      | Err e => if errors_is e ErrNotFound then st_fail ErrAuthFailed
                 else st_fail (errorf "auth: reading device pairing" [e])
      | Ok pairing =>
          if negb (bool_decide (Pair_ID pairing = id)) then st_fail ErrAuthFailed else
          if negb (deviceSecretMatches (Pair_DeviceCodeHash pairing) secret) then st_fail ErrAuthFailed else
          if negb (bool_decide (Pair_Status pairing = PairingStatusApproved)) then st_fail ErrAuthFailed else
          if bool_decide (Pair_OwnerID pairing = []) then st_fail ErrAuthFailed else
          if negb (time_before now (Pair_ExpiresAt pairing)) then st_fail ErrAuthFailed else
          st_ret (MkIdentity APITokenProviderID (Pair_ID pairing))
      end
  end.

(** src/internal/auth/apitoken.go:58-72, NewAPITokenProvider *)
Definition NewAPITokenProvider (now : time) : AuthProvider := MkProvider APITokenProviderID (apitoken_Authenticate now).

(** ** The authenticator *)

(** src/internal/auth/authenticator.go:91-191, Authenticator.resolve *)
Definition resolve (i : Identity) : stM conn gostring :=
  try! r := link_GetByProviderSubject (Identity_Provider i) (Identity_Principal i) in
  match r with
  | Err _ => st_fail ErrAuthFailed
  | Ok li =>
      if negb (bool_decide (Link_Provider li = Identity_Provider i)) || negb (bool_decide (Link_Subject li = Identity_Principal i))
      then st_fail ErrAuthFailed else
      if bool_decide (Link_OwnerID li = []) then st_fail ErrAuthFailed else
      try! ro := owner_Get (Link_OwnerID li) in
      match ro with
      | Err _ => st_fail ErrAuthFailed
      | Ok owner =>
          if negb (bool_decide (Owner_ID owner = Link_OwnerID li)) then st_fail ErrAuthFailed else
          if negb (bool_decide (Owner_Status owner = OwnerStatusActive)) || bool_decide (Owner_DeletedAt owner ≠ None)
          then st_fail ErrAuthFailed else
          st_ret (Link_OwnerID li)
      end
  end.

(** src/internal/auth/authenticator.go:48-89, Authenticator.Authenticate *)
Definition Authenticate (reg : ProviderRegistry) (providerID secret : gostring) : stM conn gostring :=
  match Registry_Lookup reg providerID with
  | Err _ => st_fail ErrAuthFailed
  | Ok provider =>
      try! r := prov_Authenticate provider secret in
      match r with
      | Err _ => st_fail ErrAuthFailed
      | Ok i =>
          if negb (bool_decide (Identity_Provider i = prov_ID provider)) then st_fail ErrAuthFailed else
          match Identity_Validate i with
          | Some _ => st_fail ErrAuthFailed
          | None => resolve i
          end
      end
  end.

Close Scope stm_scope.

(** The registry the server is started with. *)
Definition api_registry (now : time) : ProviderRegistry :=
  match NewProviderRegistry [NewAPITokenProvider now] with Ok reg => reg | Err _ => ∅ end.

Lemma api_registry_lookup now : Registry_Lookup (api_registry now) APITokenProviderID = Ok (NewAPITokenProvider now).
Proof. reflexivity. Qed.

(** ** What authentication establishes *)

Lemma quiet_apitoken now secret : quiet (apitoken_Authenticate now secret).
Proof. unfold apitoken_Authenticate, pair_GetByID. auto 20 with quiet. Qed.

Lemma quiet_resolve i : quiet (resolve i).
Proof. unfold resolve, link_GetByProviderSubject, owner_Get. auto 20 with quiet. Qed.

Lemma quiet_Authenticate now providerID secret : quiet (Authenticate (api_registry now) providerID secret).
Proof.
  unfold Authenticate, Registry_Lookup. destruct (ProviderID_Validate _); [apply quiet_fail|].
  destruct (api_registry now !! providerID) as [p|] eqn:E; [|apply quiet_fail].
  assert (p = NewAPITokenProvider now) as ->.
  { change (api_registry now) with (<[APITokenProviderID := NewAPITokenProvider now]> (∅ : gmap gostring AuthProvider)) in E.
    apply lookup_insert_Some in E as [[_ <-]|[_ E]]; [done|]. exfalso.
    by apply (lookup_empty_Some providerID p). }
  apply quiet_try; [apply quiet_apitoken|]. pose proof quiet_resolve. auto 20 with quiet.
Qed.

(** The provider accepts a device code whose pairing is approved, unexpired and has
    its secret's digest. *)
Lemma apitoken_ok now s c i c' : apitoken_Authenticate now s c = (Ok i, c') →
  ∃ id secret p, parseDeviceCode s = Ok (id, secret) ∧ pairings (data c) !! id = Some p ∧ Pair_ID p = id ∧
    Pair_DeviceCodeHash p = hashDeviceSecret secret ∧ Pair_Status p = PairingStatusApproved ∧ Pair_OwnerID p ≠ [] ∧
    now < Pair_ExpiresAt p ∧ i = MkIdentity APITokenProviderID id.
Proof.
  unfold apitoken_Authenticate. destruct (parseDeviceCode s) as [[id secret]|]; [|done]. unfold st_try.
  destruct (pair_GetByID id c) as [[p|e] c1] eqn:E; [|by destruct (errors_is _ _)].
  apply query_row_inv in E as (_ & Hp & _). specialize (Hp _ eq_refl).
  unfold deviceSecretMatches, time_before. repeat case_bool_decide; simpl; try done.
  destruct (now <? Pair_ExpiresAt p) eqn:Ht; simpl; [|done]. apply Z.ltb_lt in Ht.
  unfold st_ret. intros. simplify_eq. by exists (Pair_ID p), secret, p.
Qed.

(** An identity resolves to the active owner it is linked to. *)
Lemma resolve_ok i c o c' : resolve i c = (Ok o, c') →
  ∃ li owner, li ∈ links_of (Identity_Provider i) (Identity_Principal i) (data c) ∧ Link_OwnerID li = o ∧ o ≠ [] ∧
    owners (data c) !! o = Some owner ∧ Owner_Status owner = OwnerStatusActive ∧ Owner_DeletedAt owner = None.
Proof.
  unfold resolve, st_try. destruct (link_GetByProviderSubject _ _ c) as [[li|e] c1] eqn:E; [|done].
  apply query_row_inv in E as (Hd & Hl & _). specialize (Hl _ eq_refl). apply head_Some_elem_of in Hl.
  destruct (negb _ || negb _); [done|]. case_bool_decide as Hne; [done|].
  destruct (owner_Get _ c1) as [[owner|e] c2] eqn:Eo; [|done]. apply query_row_inv in Eo as (_ & Ho & _). specialize (Ho _ eq_refl).
  case_bool_decide; simpl; [|done]. case_bool_decide as Hst; simpl; [|done]. case_bool_decide as Hdel; [done|].
  unfold st_ret. intros. simplify_eq. rewrite Hd in Ho. exists li, owner. by split_and!.
Qed.

Lemma Authenticate_ok now s c o c' : Authenticate (api_registry now) APITokenProviderID s c = (Ok o, c') →
  ∃ id secret p li owner, parseDeviceCode s = Ok (id, secret) ∧ pairings (data c) !! id = Some p ∧ Pair_ID p = id ∧
    Pair_DeviceCodeHash p = hashDeviceSecret secret ∧ Pair_Status p = PairingStatusApproved ∧ Pair_OwnerID p ≠ [] ∧
    now < Pair_ExpiresAt p ∧ li ∈ links_of APITokenProviderID id (data c) ∧ Link_OwnerID li = o ∧ o ≠ [] ∧
    owners (data c) !! o = Some owner ∧ Owner_Status owner = OwnerStatusActive ∧ Owner_DeletedAt owner = None.
Proof.
  unfold Authenticate. rewrite api_registry_lookup. unfold st_try. simpl.
  destruct (apitoken_Authenticate now s c) as [[i|e] c1] eqn:E; [|done]. pose proof (quiet_apitoken _ _ _ _ _ E) as Hd.
  apply apitoken_ok in E as (id & secret & p & Hp & Hrow & Hid & Hh & Hst & Hne & Hexp & ->). simpl.
  destruct (Identity_Validate _); [done|].
  intros (li & owner & Hli & Ho & Hne' & Hown & Hact & Hdel)%resolve_ok. rewrite Hd in Hli, Hown.
  exists id, secret, p, li, owner. by split_and!.
Qed.
