(* ===== verification/Enrollment.v ===== *)
(** * Enrollment: pairing a device with an owner's account

    [internal/auth/enrollment.go]: the device-authorization grant and the manual
    mint, approval, polling, redemption and revocation of pairings, over the SQLite
    store and one counter store shared by the approval limiter and the denylist, as
    the server wires them.  Random bytes and clock readings are arguments. *)

From S2P Require Import Prelude DomainErrors Counter GoLib Domain Sha256 Tokens Authz Database TokenService PairingCode PairingRepo Authenticator.

Open Scope Z_scope.

(** src/internal/auth/enrollment.go:17-29, MaxApprovalAttempts *)
Definition MaxApprovalAttempts : Z := 20.
(** src/internal/auth/enrollment.go:31-35, approvalLimitPrefix *)
Definition approvalLimitPrefix : gostring := go "vallet.auth.approval.v1".

(** src/internal/auth/enrollment.go:37-57, Grant *)
Record Grant := MkGrant {
  Grant_PairingID : gostring;
  Grant_DeviceCode : gostring;
  Grant_UserCode : gostring;
  Grant_ExpiresAt : time;
  Grant_PollInterval : duration;
}.

(** The random bytes a grant draws: identifier, device secret, user code. *)
Record pair_entropy := MkPairEntropy { pe_id : bytes; pe_secret : bytes; pe_user : bytes }.

Open Scope stm_scope.

(** A pairing before [create] fills it in: what the caller decides. *)
Record draft := MkDraft {
  dr_OwnerID : gostring;
  dr_UserCodeHash : bytes;
  dr_ClientLabel : gostring;
  dr_Scopes : list Scope;
  dr_Status : PairingStatus;
  dr_ApprovedAt : option time;
}.

Definition filled (ent : pair_entropy) (now : time) (dr : draft) : DevicePairing :=
  MkDevicePairing (newPairingID (pe_id ent)) (dr_OwnerID dr) (hashDeviceSecret (pe_secret ent)) (dr_UserCodeHash dr)
    (dr_ClientLabel dr) (dr_Scopes dr) (dr_Status dr) [] now now (time_add now PairingLifetime) (dr_ApprovedAt dr) None None.

(** src/internal/auth/enrollment.go:261-283, EnrollmentService.create *)
Definition enroll_create (ent : pair_entropy) (now : time) (dr : draft) (userCode : gostring) : stM conn Grant :=
  let pairing := filled ent now dr in
  try! r := pair_Create pairing in
  match r with
  | Err e => st_fail (errorf "auth: creating device pairing" [e])
  | Ok _ => st_ret (MkGrant (Pair_ID pairing) (formatDeviceCode (Pair_ID pairing) (pe_secret ent)) userCode
                      (Pair_ExpiresAt pairing) PairingPollInterval)
  end.

(** src/internal/auth/enrollment.go:162-190, EnrollmentService.StartDeviceGrant *)
Definition StartDeviceGrant (ent : pair_entropy) (now : time) (clientLabel : gostring) (scopes : list Scope) : stM conn Grant :=
  match ValidateScopes scopes, validateClientLabel clientLabel with
  | Some e, _ => st_fail e
  | None, Some e => st_fail e
  | None, None =>
      let '(userCode, canonical) := newUserCode (pe_user ent) in
      enroll_create ent now (MkDraft [] (hashUserCode canonical) clientLabel scopes PairingStatusPending None) userCode
  end.

(** src/internal/auth/enrollment.go:344-367, EnrollmentService.link *)
Definition enroll_link (id ownerID : gostring) (now : time) : stM conn unit :=
  try! r := link_Create (MkLinkedIdentity id ownerID APITokenProviderID id None now now) in
  match r with
  | Err e => st_fail (errorf "auth: linking pairing identity" [e])
  | Ok _ => st_ret tt
  end.

(** src/internal/auth/enrollment.go:223-259, EnrollmentService.mintInto
    ([approved] and [now] are two readings of the clock) *)
Definition mintInto (ent : pair_entropy) (approved now : time) (ownerID clientLabel : gostring) (scopes : list Scope)
    : stM conn Grant :=
  if bool_decide (ownerID = []) then st_fail (errorf "auth: owner id must not be empty" [ErrInvalidInput]) else
  match ValidateScopes scopes, validateClientLabel clientLabel with
  | Some e, _ => st_fail e
  | None, Some e => st_fail e
  | None, None =>
      let! grant := enroll_create ent now (MkDraft ownerID [] clientLabel scopes PairingStatusApproved (Some approved)) [] in
      let! _ := enroll_link (newPairingID (pe_id ent)) ownerID approved in
      st_ret grant
  end.

(** src/internal/auth/enrollment.go:192-205, EnrollmentService.Mint *)
Definition Mint := mintInto.

Close Scope stm_scope.

Section Enrollment.
Context {S : Type} `{!Store S}.

(** A call on the database part of the service. *)
Definition on_conn {A} (m : stM conn A) (w : service S) : result A * service S :=
  let '(r, c) := m (svc_conn w) in (r, MkService c (svc_deny w)).

(** The counter key of an owner's attempts, a digest. *)
Definition approvalKey (ownerID : gostring) : gostring :=
  rawurl_b64 (sha256 (approvalLimitPrefix ++ [byte_of 0] ++ ownerID)).
(** src/internal/auth/enrollment.go:369-390, EnrollmentService.checkApprovalLimit *)
Definition checkApprovalLimit (ctx : context) (t : time) (ownerID : gostring) (s : S) : option goerror * S :=
  match Increment ctx t (approvalKey ownerID) 1 PairingLifetime s with
  | (Err _, s) => (Some ErrAuthFailed, s)
  | (Ok got, s) => (if MaxApprovalAttempts <? Value got then Some ErrAuthFailed else None, s)
  end.

(** src/internal/auth/enrollment.go:285-342, EnrollmentService.Approve
    ([now] is the service's clock, [t] the counter store's) *)
Definition Approve (ctx : context) (t now : time) (ownerID userCode : gostring) (w : service S) : option goerror * service S :=
  if bool_decide (ownerID = []) then (Some ErrAuthFailed, w) else
  match checkApprovalLimit ctx t ownerID (svc_deny w) with
  | (Some e, s) => (Some e, MkService (svc_conn w) s)
  | (None, s) =>
      let w := MkService (svc_conn w) s in
      match normalizeUserCode userCode with
      | Err _ => (Some ErrAuthFailed, w)
      | Ok code =>
          match on_conn (pair_GetByUserCodeHash (hashUserCode code)) w with
          | (Err _, w) => (Some ErrAuthFailed, w)
          | (Ok pairing, w) =>
              if negb (bool_decide (Pair_Status pairing = PairingStatusPending)) then (Some ErrAuthFailed, w) else
              if negb (time_before now (Pair_ExpiresAt pairing)) then (Some ErrAuthFailed, w) else
              match on_conn (pair_Approve (Pair_ID pairing) ownerID now) w with
              | (Err _, w) => (Some ErrAuthFailed, w)
              | (Ok _, w) =>
                  match on_conn (enroll_link (Pair_ID pairing) ownerID now) w with
                  | (Err _, w) => (Some ErrAuthFailed, w)
                  | (Ok _, w) => (None, w)
                  end
              end
          end
      end
  end.

(** src/internal/auth/enrollment.go:503-526, EnrollmentService.revokeLineage
    (what fails is only logged) *)
Definition enroll_revokeLineage (ctx : context) (clock : nat → time) (ownerID lineage : gostring) (now : time) (w : service S)
    : service S :=
  match on_conn (cred_RevokeLineage ownerID lineage now) w with
  | (Err _, w) => w
  | (Ok _, w) =>
      match on_conn (cred_ListByLineage ownerID lineage) w with
      | (Err _, w) => w
      | (Ok rows, w) => MkService (svc_conn w) (snd (RevokeLineage ctx clock rows now (svc_deny w)))
      end
  end.

(** src/internal/auth/enrollment.go:392-461, EnrollmentService.Redeem
    ([t_auth] is the clock of the provider) *)
Definition Redeem (signer : AccessTokenSigner) (ent : entropy) (ctx : context) (clock : nat → time) (t_auth now : time)
    (deviceCode : gostring) (w : service S) : result Issued * service S :=
  match parseDeviceCode deviceCode with
  | Err _ => (Err ErrAuthFailed, w)
  | Ok (id, _) =>
      match on_conn (Authenticate (api_registry t_auth) APITokenProviderID deviceCode) w with
      | (Err _, w) => (Err ErrAuthFailed, w)
      | (Ok ownerID, w) =>
          match on_conn (pair_Get ownerID id) w with
          | (Err _, w) => (Err ErrAuthFailed, w)
          | (Ok pairing, w) =>
              if negb (bool_decide (Pair_ID pairing = id)) || negb (bool_decide (Pair_OwnerID pairing = ownerID))
              then (Err ErrAuthFailed, w) else
              match ValidateScopes (Pair_Scopes pairing) with
              | Some _ => (Err ErrAuthFailed, w)
              | None =>
                  match on_conn (service_Issue signer ent ownerID (Pair_Scopes pairing) (Pair_ClientLabel pairing) now) w with
                  | (Err _, w) => (Err ErrAuthFailed, w)
                  | (Ok issued, w) =>
                      match on_conn (pair_MarkRedeemed ownerID id (Iss_LineageID issued) now) w with
                      | (Err _, w) => (Err ErrAuthFailed, enroll_revokeLineage ctx clock ownerID (Iss_LineageID issued) now w)
                      | (Ok _, w) => (Ok issued, w)
                      end
                  end
              end
          end
      end
  end.

(** src/internal/auth/enrollment.go:463-501, EnrollmentService.Revoke *)
Definition enroll_Revoke (ctx : context) (clock : nat → time) (now : time) (ownerID id : gostring) (w : service S)
    : option goerror * service S :=
  if bool_decide (ownerID = []) || bool_decide (id = []) then
    (Some (errorf "auth: owner id and pairing id are required" [ErrInvalidInput]), w) else
  match on_conn (pair_Get ownerID id) w with
  | (Err e, w) => (Some (errorf "auth: reading device pairing" [e]), w)
  | (Ok pairing, w) =>
      if negb (bool_decide (Pair_OwnerID pairing = ownerID)) then (Some (errorf "auth: device pairing" [ErrNotFound]), w) else
      match on_conn (pair_Revoke ownerID id now) w with
      | (Err e, w) => (Some (errorf "auth: revoking device pairing" [e]), w)
      | (Ok _, w) =>
          (None, if bool_decide (Pair_LineageID pairing ≠ [])
                 then enroll_revokeLineage ctx clock ownerID (Pair_LineageID pairing) now w else w)
      end
  end.

(** src/internal/auth/enrollment.go:538-546, errPollPending *)
Definition errPollPending : goerror := errors_new "auth: pairing not yet approved".

(** src/internal/auth/enrollment.go:548-592, EnrollmentService.Poll *)
Definition Poll (now : time) (deviceCode : gostring) (c : conn) : option goerror * conn :=
  match parseDeviceCode deviceCode with
  | Err _ => (Some ErrAuthFailed, c)
  | Ok (id, secret) =>
      match pair_GetByID id c with
      | (Err _, c) => (Some ErrAuthFailed, c)
      | (Ok pairing, c) =>
          if negb (bool_decide (Pair_ID pairing = id)) then (Some ErrAuthFailed, c) else
          if negb (deviceSecretMatches (Pair_DeviceCodeHash pairing) secret) then (Some ErrAuthFailed, c) else
          if negb (time_before now (Pair_ExpiresAt pairing)) then (Some ErrAuthFailed, c) else
          if time_before now (Pair_NextPollAt pairing) then
            (Some ErrAuthFailed, snd (pair_Touch id (time_add now PairingPollInterval) c)) else
          match pair_Touch id (time_add now PairingPollInterval) c with
          | (Err _, c) => (Some ErrAuthFailed, c)
          | (Ok _, c) =>
              (if bool_decide (Pair_Status pairing = PairingStatusApproved) then None
               else if bool_decide (Pair_Status pairing = PairingStatusPending) then Some errPollPending
               else Some ErrAuthFailed, c)
          end
      end
  end.
End Enrollment.

(** ** Effects of the calls *)

Section Effects.
Context {S : Type} `{!Store S}.

#[local] Abbreviation tbl w := (data (svc_conn w)).

Lemma on_conn_inv {A} (m : stM conn A) (w w' : service S) r : on_conn m w = (r, w') →
  m (svc_conn w) = (r, svc_conn w') ∧ svc_deny w' = svc_deny w.
Proof. unfold on_conn. destruct (m (svc_conn w)) as [x c]. intros. by simplify_eq. Qed.

Lemma on_conn_quiet {A} (m : stM conn A) (w w' : service S) r : quiet m → on_conn m w = (r, w') →
  tbl w' = tbl w ∧ svc_deny w' = svc_deny w.
Proof. intros Hq [E H]%on_conn_inv. by rewrite (Hq _ _ _ E). Qed.

(** The first credential of a new lineage. *)
Definition first_cred (ent : entropy) (ownerID : gostring) (scopes : list Scope) (label : gostring) (now : time) : RefreshCredential :=
  let id := newCredentialID (ent_id ent) in
  MkRefreshCredential id ownerID id (hashRefreshSecret (ent_secret ent)) scopes label None
    now (time_add now RefreshLineageLifetime) CredentialStatusActive None.

Lemma service_Issue_inv signer ent ownerID scopes label now c r c' :
  service_Issue signer ent ownerID scopes label now c = (r, c') →
  let cred := first_cred ent ownerID scopes label now in
  data c' = data c ∧ is_ok r = false ∨
  data c' = set_creds <[Cred_ID cred := cred]> (data c) ∧ creds (data c) !! Cred_ID cred = None ∧
    r = mint signer ent cred (ent_secret ent) now.
Proof.
  unfold service_Issue, st_fail. case_bool_decide; [intros; simplify_eq; by left|].
  destruct (ValidateScopes scopes), (validateClientLabel label); try (intros; simplify_eq; by left). unfold st_try.
  fold (first_cred ent ownerID scopes label now).
  destruct (cred_Create _ c) as [rc c1] eqn:Ec. apply cred_Create_inv in Ec as [(-> & Hnone & _ & Hd)|[Hr Hd]].
  - unfold lift. intros. simplify_eq. right. by split_and!.
  - destruct rc; [done|]. intros. simplify_eq. by left.
Qed.

Lemma enroll_create_inv ent now dr code c r c' : enroll_create ent now dr code c = (r, c') →
  data c' = data c ∧ is_ok r = false ∨
  data c' = set_pairings <[newPairingID (pe_id ent) := filled ent now dr]> (data c) ∧
    pairings (data c) !! newPairingID (pe_id ent) = None ∧
    r = Ok (MkGrant (newPairingID (pe_id ent)) (formatDeviceCode (newPairingID (pe_id ent)) (pe_secret ent)) code
              (time_add now PairingLifetime) PairingPollInterval).
Proof.
  unfold enroll_create, st_try. destruct (pair_Create _ c) as [rc c1] eqn:E.
  apply pair_Create_inv in E as [(-> & Hn & Hd)|[Hr Hd]].
  - unfold st_ret. intros. simplify_eq. right. by split_and!.
  - destruct rc; [done|]. unfold st_fail. intros. simplify_eq. by left.
Qed.

Lemma enroll_link_inv id ownerID now c r c' : enroll_link id ownerID now c = (r, c') →
  data c' = data c ∧ is_ok r = false ∨
  r = Ok tt ∧ data c' = set_links <[id := MkLinkedIdentity id ownerID APITokenProviderID id None now now]> (data c).
Proof.
  unfold enroll_link, st_try. destruct (link_Create _ c) as [rc c1] eqn:E.
  apply link_Create_inv in E as [(-> & _ & _ & _ & Hd)|[Hr Hd]].
  - unfold st_ret. intros. simplify_eq. right. by split_and!.
  - destruct rc; [done|]. unfold st_fail. intros. simplify_eq. by left.
Qed.

(** Revoking a lineage leaves every table but the credentials alone. *)
Lemma enroll_revokeLineage_tables ctx clock o l now (w : service S) :
  let w' := enroll_revokeLineage ctx clock o l now w in
  owners (tbl w') = owners (tbl w) ∧ pairings (tbl w') = pairings (tbl w) ∧ links (tbl w') = links (tbl w).
Proof.
  unfold enroll_revokeLineage. destruct (on_conn (cred_RevokeLineage _ _ _) w) as [[n|e] w1] eqn:E1;
    apply on_conn_inv in E1 as [E1 _]; apply exec_inv in E1 as [H _];
    (assert (owners (tbl w1) = owners (tbl w) ∧ pairings (tbl w1) = pairings (tbl w) ∧ links (tbl w1) = links (tbl w)) as Ht
      by (destruct H as [(? & ? & _ & [= _ <-] & ->)|(? & _ & ->)]; done)); [|done].
  destruct (on_conn (cred_ListByLineage _ _) w1) as [[rows|e] w2] eqn:E2;
    (apply on_conn_quiet in E2 as [E2 _]; [|unfold cred_ListByLineage; auto with quiet]); simpl; by rewrite E2.
Qed.

(** A redemption: what holds when it reaches the consuming statement, and how it ends. *)
Lemma Redeem_inv signer ent ctx clock t_auth now code (w w' : service S) r :
  Redeem signer ent ctx clock t_auth now code w = (r, w') →
  is_ok r = false ∧ tbl w' = tbl w ∨
  ∃ id secret p li owner, let o := Pair_OwnerID p in
    let cred := first_cred ent o (Pair_Scopes p) (Pair_ClientLabel p) now in
    parseDeviceCode code = Ok (id, secret) ∧ pairings (tbl w) !! id = Some p ∧ Pair_ID p = id ∧
    Pair_DeviceCodeHash p = hashDeviceSecret secret ∧ Pair_Status p = PairingStatusApproved ∧ o ≠ [] ∧
    t_auth < Pair_ExpiresAt p ∧ li ∈ links_of APITokenProviderID id (tbl w) ∧ Link_OwnerID li = o ∧
    owners (tbl w) !! o = Some owner ∧ Owner_Status owner = OwnerStatusActive ∧ Owner_DeletedAt owner = None ∧
    ValidateScopes (Pair_Scopes p) = None ∧ creds (tbl w) !! Cred_ID cred = None ∧
    ((is_ok r = false ∧ owners (tbl w') = owners (tbl w) ∧ pairings (tbl w') = pairings (tbl w) ∧ links (tbl w') = links (tbl w)) ∨
     (∃ issued, r = Ok issued ∧ mint signer ent cred (ent_secret ent) now = Ok issued ∧ svc_deny w' = svc_deny w ∧
        tbl w' = set_pairings <[id := redeemed_row (Cred_ID cred) now p]> (set_creds <[Cred_ID cred := cred]> (tbl w)))).
Proof.
  unfold Redeem. destruct (parseDeviceCode code) as [[id secret]|] eqn:Hparse; [|intros; simplify_eq; by left].
  destruct (on_conn (Authenticate _ _ _) w) as [[o|e] w1] eqn:E1.
  2:{ apply on_conn_quiet in E1 as [Hd _]; [|apply quiet_Authenticate]. intros. simplify_eq. by left. }
  pose proof E1 as [Hd1 Hy1]%on_conn_quiet; [|apply quiet_Authenticate].
  apply on_conn_inv in E1 as [(id' & secret' & p & li & owner & Hp' & Hrow & Hid & Hh & Hst & Hne & Hexp & Hli & Hlo & Ho & Hown & Hact & Hdel)%Authenticate_ok _].
  rewrite Hparse in Hp'. injection Hp' as <- <-.
  destruct (on_conn (pair_Get o id) w1) as [[q|e] w2] eqn:E2.
  2:{ apply on_conn_quiet in E2 as [Hd _]; [|unfold pair_Get; auto with quiet]. intros. simplify_eq. rewrite Hd, Hd1. by left. }
  pose proof E2 as [Hd2 Hy2]%on_conn_quiet; [|unfold pair_Get; auto with quiet].
  apply on_conn_inv in E2 as [E2 _]. apply query_row_inv in E2 as (_ & Hq & _). specialize (Hq _ eq_refl).
  apply owned_pairing_Some in Hq as (Hq & Hqo & _). rewrite Hd1, Hrow in Hq. injection Hq as <-.
  destruct (negb _ || negb _); [intros; simplify_eq; rewrite Hd2, Hd1; by left|].
  destruct (ValidateScopes (Pair_Scopes p)) eqn:Hv; [intros; simplify_eq; rewrite Hd2, Hd1; by left|].
  destruct (on_conn (service_Issue _ _ _ _ _ _) w2) as [ri w3] eqn:E3. apply on_conn_inv in E3 as [E3 Hy3].
  apply service_Issue_inv in E3 as [[Hd3 Hr]|(Hd3 & Hnone & Hm)].
  { destruct ri; [done|]. intros. simplify_eq. rewrite Hd3, Hd2, Hd1. by left. }
  rewrite Hd2, Hd1 in Hd3, Hnone. intros H. right. exists id, secret, p, li, owner. rewrite Hqo.
  split_and!; try done. destruct ri as [issued|e]; [|left; simplify_eq; rewrite Hd3; by split_and!].
  destruct (mint_ok _ _ _ _ _ _ (eq_sym Hm)) as (_ & _ & _ & _ & Hlin & _).
  destruct (on_conn (pair_MarkRedeemed _ _ _ _) w3) as [rr w4] eqn:E4. apply on_conn_inv in E4 as [E4 Hy4].
  apply pair_MarkRedeemed_inv in E4 as [[(-> & q & Hq & _ & _ & _ & Hd4)|[Hrr Hd4]] _].
  - simplify_eq. right. exists issued. rewrite Hd3 in Hq, Hd4. simpl in Hq. rewrite Hrow in Hq. simplify_eq.
    split_and!; [done|by symmetry|congruence|]. rewrite Hd4, Hlin. done.
  - destruct rr; [done|]. injection H as <- <-. left.
    destruct (enroll_revokeLineage_tables ctx clock o (Iss_LineageID issued) now w4) as (-> & -> & ->).
    rewrite Hd4, Hd3. done.
Qed.

(** An approval: refused with nothing changed, or the pairing it found was bound. *)
Lemma Approve_inv ctx t now o typed (w w' : service S) r : Approve ctx t now o typed w = (r, w') →
  r = Some ErrAuthFailed ∧ tbl w' = tbl w ∨
  ∃ got s code k q p, o ≠ [] ∧ Increment ctx t (approvalKey o) 1 PairingLifetime (svc_deny w) = (Ok got, s) ∧
    Value got ≤ MaxApprovalAttempts ∧ svc_deny w' = s ∧ normalizeUserCode typed = Ok code ∧
    pairings (tbl w) !! k = Some q ∧ Pair_UserCodeHash q = hashUserCode code ∧ Pair_Status q = PairingStatusPending ∧
    now < Pair_ExpiresAt q ∧ pairings (tbl w) !! Pair_ID q = Some p ∧ Pair_Status p = PairingStatusPending ∧
    let d := set_pairings <[Pair_ID q := approved_row o now p]> (tbl w) in
    (r = Some ErrAuthFailed ∧ tbl w' = d ∨
     r = None ∧ tbl w' = set_links <[Pair_ID q := MkLinkedIdentity (Pair_ID q) o APITokenProviderID (Pair_ID q) None now now]> d).
Proof.
  unfold Approve. case_bool_decide as Hne; [intros; simplify_eq; by left|]. unfold checkApprovalLimit.
  destruct (Increment _ _ _ _ _ _) as [[got|e] s] eqn:Ei; [|intros; simplify_eq; by left].
  destruct (MaxApprovalAttempts <? Value got) eqn:Hmax; [intros; simplify_eq; by left|]. apply Z.ltb_ge in Hmax.
  destruct (normalizeUserCode typed) as [code|] eqn:Hcode; [|intros; simplify_eq; by left]. set (w0 := MkService (svc_conn w) s).
  assert (quiet (pair_GetByUserCodeHash (hashUserCode code))) as Hq by (unfold pair_GetByUserCodeHash; auto with quiet).
  destruct (on_conn (pair_GetByUserCodeHash _) w0) as [[q|e] w1] eqn:E1;
    pose proof E1 as [Hd1 Hy1]%on_conn_quiet; try done; [|intros; simplify_eq; by left].
  apply on_conn_inv in E1 as [E1 _]. unfold pair_GetByUserCodeHash in E1. case_bool_decide as Hempty; [done|].
  apply query_row_inv in E1 as (_ & Hrow & _). specialize (Hrow _ eq_refl). apply head_Some_elem_of, list_elem_of_filter in Hrow as [Hh [k Hk]%elem_of_rows].
  case_bool_decide as Hst; cbn [negb]; [|intros; simplify_eq; by left].
  unfold time_before. destruct (now <? Pair_ExpiresAt q) eqn:Ht; cbn [negb]; [apply Z.ltb_lt in Ht|intros; simplify_eq; by left].
  destruct (on_conn (pair_Approve _ _ _) w1) as [r2 w2] eqn:E2. apply on_conn_inv in E2 as [E2 Hy2].
  apply pair_Approve_inv in E2 as [(-> & p & Hp & Hpst & Hd2)|[Hr Hd2]].
  2:{ destruct r2; [done|]. intros. simplify_eq. left. by rewrite Hd2, Hd1. }
  rewrite Hd1 in Hp, Hd2.
  destruct (on_conn (enroll_link _ _ _) w2) as [r3 w3] eqn:E3. apply on_conn_inv in E3 as [E3 Hy3].
  intros H. right. exists got, s, code, k, q, p.
  apply enroll_link_inv in E3 as [[Hd3 Hr3]|[-> Hd3]]; rewrite Hd2 in Hd3.
  - destruct r3; [done|]. injection H as <- <-. split_and!; try done; [by rewrite Hy3, Hy2, Hy1|]. by left.
  - injection H as <- <-. split_and!; try done; [by rewrite Hy3, Hy2, Hy1|]. by right.
Qed.

Lemma enroll_Revoke_inv ctx clock now o id (w w' : service S) r : enroll_Revoke ctx clock now o id w = (r, w') →
  (∃ e, r = Some e) ∧ tbl w' = tbl w ∧ svc_deny w' = svc_deny w ∨
  ∃ p, r = None ∧ pairings (tbl w) !! id = Some p ∧ Pair_OwnerID p = o ∧ o ≠ [] ∧
    (Pair_Status p = PairingStatusPending ∨ Pair_Status p = PairingStatusApproved) ∧
    pairings (tbl w') = <[id := revoked_row now p]> (pairings (tbl w)) ∧ owners (tbl w') = owners (tbl w) ∧
    links (tbl w') = links (tbl w) ∧ (Pair_LineageID p = [] → creds (tbl w') = creds (tbl w) ∧ svc_deny w' = svc_deny w).
Proof.
  unfold enroll_Revoke. destruct (bool_decide (o = []) || _); [intros; simplify_eq; left; by split_and!; [eexists| |]|].
  destruct (on_conn (pair_Get o id) w) as [[q|e] w1] eqn:E1;
    (pose proof E1 as [Hd1 Hy1]%on_conn_quiet; [|unfold pair_Get; auto with quiet]);
    [|intros; simplify_eq; left; by split_and!; [eexists| |]].
  case_bool_decide as Hown; cbn [negb]; [|intros; simplify_eq; left; by split_and!; [eexists| |]].
  apply on_conn_inv in E1 as [E1 _]. apply query_row_inv in E1 as (_ & Hq & _). specialize (Hq _ eq_refl).
  apply owned_pairing_Some in Hq as (Hq & Hqo & Hne).
  destruct (on_conn (pair_Revoke _ _ _) w1) as [r2 w2] eqn:E2. apply on_conn_inv in E2 as [E2 Hy2].
  apply pair_Revoke_inv in E2 as [[(-> & p & Hp & Ho & _ & Hst & Hd2)|[Hr Hd2]] _].
  - rewrite Hd1, Hq in Hp. injection Hp as <-. rewrite Hd1 in Hd2. intros H. injection H as <- <-. right. exists q. split_and!; try done.
    + case_bool_decide as Hlin; [|by rewrite Hd2]. destruct (enroll_revokeLineage_tables ctx clock o (Pair_LineageID q) now w2) as (_ & -> & _). by rewrite Hd2.
    + case_bool_decide as Hlin; [|by rewrite Hd2]. destruct (enroll_revokeLineage_tables ctx clock o (Pair_LineageID q) now w2) as (-> & _ & _). by rewrite Hd2.
    + case_bool_decide as Hlin; [|by rewrite Hd2]. destruct (enroll_revokeLineage_tables ctx clock o (Pair_LineageID q) now w2) as (_ & _ & ->). by rewrite Hd2.
    + intros Hl. rewrite bool_decide_eq_false_2 by (by intros []). rewrite Hd2. split; [done|congruence].
  - destruct r2; [done|]. intros. simplify_eq. left. split_and!; [by eexists|congruence|congruence].
Qed.

Lemma Poll_inv now code c r c' : Poll now code c = (r, c') →
  data c' = data c ∨ ∃ id p t, pairings (data c) !! id = Some p ∧ data c' = set_pairings <[id := touched_row t p]> (data c).
Proof.
  unfold Poll. destruct (parseDeviceCode code) as [[id secret]|]; [|intros; simplify_eq; by left].
  destruct (pair_GetByID id c) as [[p|e] c1] eqn:E1; apply query_row_inv in E1 as (Hd1 & _); [|intros; simplify_eq; by left].
  do 3 (case_match; [intros; simplify_eq; by left|]).
  assert (∀ t rt c2, pair_Touch id t c1 = (rt, c2) → data c2 = data c ∨
    ∃ id p t, pairings (data c) !! id = Some p ∧ data c2 = set_pairings <[id := touched_row t p]> (data c)) as Ht.
  { intros t rt c2 [(q & Hq & Hd)|Hd]%pair_Touch_inv; rewrite Hd1 in *; [right; by exists id, q, t|by left]. }
  destruct (pair_Touch _ _ c1) as [rt c2] eqn:E2. specialize (Ht _ _ _ E2).
  case_match; [intros; by simplify_eq|]. destruct rt; intros; by simplify_eq.
Qed.
End Effects.

(** ** Runs of the service *)

Section Runs.
Context {S : Type} `{!Store S}.

(** One call, with any arguments, clock readings and failing statements.  The first
    component collects the pairing identifiers drawn: 16 random bytes, taken not to
    repeat.  Calls of other services leave the pairings alone. *)
Inductive enroll_step : gset gostring * service S → gset gostring * service S → Prop :=
| es_start used ent now label scopes r w w' : newPairingID (pe_id ent) ∉ used →
    on_conn (StartDeviceGrant ent now label scopes) w = (r, w') →
    enroll_step (used, w) ({[newPairingID (pe_id ent)]} ∪ used, w')
| es_mint used ent approved now o label scopes r w w' : newPairingID (pe_id ent) ∉ used →
    on_conn (mintInto ent approved now o label scopes) w = (r, w') →
    enroll_step (used, w) ({[newPairingID (pe_id ent)]} ∪ used, w')
| es_approve used ctx t now o typed r w w' :
    Approve ctx t now o typed w = (r, w') → enroll_step (used, w) (used, w')
| es_redeem used signer ent ctx clock t_auth now code r w w' : length (ent_id ent) = 16%nat →
    Redeem signer ent ctx clock t_auth now code w = (r, w') → enroll_step (used, w) (used, w')
| es_revoke used ctx clock now o id r w w' :
    enroll_Revoke ctx clock now o id w = (r, w') → enroll_step (used, w) (used, w')
| es_poll used now code r w c :
    Poll now code (svc_conn w) = (r, c) → enroll_step (used, w) (used, MkService c (svc_deny w))
| es_expire used cutoff limit r w w' :
    on_conn (pair_DeleteExpired cutoff limit) w = (r, w') → enroll_step (used, w) (used, w')
| es_other used w w' : pairings (data (svc_conn w')) = pairings (data (svc_conn w)) → enroll_step (used, w) (used, w').

Definition table_of (s : gset gostring * service S) : gset gostring * gmap gostring DevicePairing :=
  (fst s, pairings (data (svc_conn (snd s)))).

Lemma newCredentialID_ne rnd : length rnd = 16%nat → newCredentialID rnd ≠ [].
Proof. intros H E. pose proof (newCredentialID_len _ H) as Hl. by rewrite E in Hl. Qed.

(** Every call is a sequence of steps of the table. *)
Lemma enroll_step_table s s' : enroll_step s s' → table_ok (table_of s) → steps table_step (table_of s) (table_of s').
Proof.
  intros Hstep Hok. destruct Hstep as [used ent now label scopes r w w' Hf E|used ent approved now o label scopes r w w' Hf E|
    used ctx t now o typed r w w' E|used signer ent ctx clock t_auth now code r w w' Hlen E|used ctx clock now o id r w w' E|
    used now code r w c E|used cutoff limit r w w' E|used w w' E]; unfold table_of in *; simpl in *.
  - apply on_conn_inv in E as [E _]. unfold StartDeviceGrant, st_fail in E.
    destruct (ValidateScopes scopes), (validateClientLabel label); try (injection E as _ <-; apply steps_one, ts_burn).
    destruct (newUserCode _) as [shown canonical]. apply enroll_create_inv in E as [[-> _]|(-> & _ & _)]; [apply steps_one, ts_burn|].
    apply steps_one. apply (ts_create used _ (filled ent now (MkDraft [] _ label scopes PairingStatusPending None))); [done|].
    split; [by left|done].
  - apply on_conn_inv in E as [E _]. unfold mintInto, st_fail in E. case_bool_decide as Ho; [injection E as _ <-; apply steps_one, ts_burn|].
    destruct (ValidateScopes scopes), (validateClientLabel label); try (injection E as _ <-; apply steps_one, ts_burn). unfold st_bind in E.
    destruct (enroll_create _ _ _ _ _) as [[g|e] c1] eqn:E1; apply enroll_create_inv in E1 as [[Hd1 Hr]|(Hd1 & _ & Hr)]; try done;
      [|injection E as _ <-; rewrite Hd1; apply steps_one, ts_burn].
    assert (pairings (data (svc_conn w')) = pairings (data c1)) as ->.
    { destruct (enroll_link _ _ _ c1) as [[u|e] c2] eqn:E2; apply enroll_link_inv in E2 as [[Hd2 Hr2]|[Hr2 Hd2]];
        unfold st_ret in E; try done; injection E as _ <-; by rewrite Hd2. }
    rewrite Hd1. apply steps_one.
    apply (ts_create used _ (filled ent now (MkDraft o [] label scopes PairingStatusApproved (Some approved)))); [done|].
    split; [by right|done].
  - apply Approve_inv in E as [[_ ->]|(got & s & code & k & q & p & Ho & _ & _ & _ & _ & Hk & _ & _ & _ & Hp & Hst & H)]; [apply steps_nil|].
    apply steps_one. assert (pairings (data (svc_conn w')) = <[Pair_ID q := approved_row o now p]> (pairings (data (svc_conn w)))) as ->
      by (by destruct H as [[_ ->]|[_ ->]]).
    apply (ts_move _ _ _ p); [done|]. left. by exists o, now.
  - apply Redeem_inv in E as [[_ ->]|(id & secret & p & li & owner & _ & Hp & _ & _ & Hst & _ & _ & _ & _ & _ & _ & _ & _ & _ & H)]; [apply steps_nil|].
    destruct H as [(_ & _ & -> & _)|(issued & _ & _ & _ & ->)]; [apply steps_nil|]. apply steps_one. simpl.
    apply (ts_move _ _ _ p); [done|]. right; left. exists (newCredentialID (ent_id ent)), now. split_and!; [done|by apply newCredentialID_ne|done].
  - apply enroll_Revoke_inv in E as [(_ & -> & _)|(p & _ & Hp & _ & _ & Hst & -> & _)]; [apply steps_nil|].
    apply steps_one, (ts_move _ _ _ p); [done|]. right; right; left. by exists now.
  - apply Poll_inv in E as [->|(id & p & t & Hp & ->)]; [apply steps_nil|]. apply steps_one, (ts_move _ _ _ p); [done|].
    right; right; right. by exists t.
  - apply on_conn_inv in E as [E _]. unfold pair_DeleteExpired, st_fail in E. destruct (limit <=? 0); [injection E as _ <-; apply steps_nil|].
    apply exec_inv in E as [[(n & d & _ & [= _ <-] & ->)|(? & _ & ->)] _]; [|apply steps_nil]. apply steps_one, ts_delete.
  - rewrite E. apply steps_nil.
Qed.

Lemma enroll_steps_table s s' : steps enroll_step s s' → table_ok (table_of s) → steps table_step (table_of s) (table_of s').
Proof.
  induction 1 as [s|s1 s2 s3 Hstep _ IH]; intros Hok; [apply steps_nil|]. pose proof (enroll_step_table _ _ Hstep Hok) as H12.
  apply (steps_app _ _ (table_of s2)); [done|]. apply IH. by apply (table_steps_forward _ _ Hok H12).
Qed.
End Runs.

Lemma empty_table_ok {S} (w0 : service S) : pairings (data (svc_conn w0)) = ∅ → table_ok (table_of (∅, w0)).
Proof. unfold table_ok, table_of. simpl. intros -> k p H. by rewrite lookup_empty in H. Qed.

(** ** Claims *)

(** C9. The life of a pairing.  In every state the enrollment calls can lead to from an
    empty table, in any order, with any arguments and any statement failing: a pairing
    is stored under its identifier; while pending it belongs to nobody, once approved
    or redeemed to some owner; it names a lineage exactly when it is redeemed.  And it
    only moves forward: from any point to any later one at which it is still stored,
    digests, label, scopes, the instants of creation and expiry stay; once it is not
    pending it never is again, and its owner and the instant of its approval stay; and a
    redeemed or revoked one keeps status, lineage and the instants of that for good, so
    that only the instant of the next poll can still change. *)
Theorem pairing_lifecycle {S} `{!Store S} (w0 w1 w2 : service S) used1 used2 :
  pairings (data (svc_conn w0)) = ∅ → steps enroll_step (∅, w0) (used1, w1) → steps enroll_step (used1, w1) (used2, w2) →
  (∀ k p, pairings (data (svc_conn w1)) !! k = Some p → Pair_ID p = k ∧
     match Pair_Status p with
     | PairingStatusPending => Pair_OwnerID p = [] ∧ Pair_LineageID p = []
     | PairingStatusApproved => Pair_OwnerID p ≠ [] ∧ Pair_LineageID p = []
     | PairingStatusRedeemed => Pair_OwnerID p ≠ [] ∧ Pair_LineageID p ≠ []
     | PairingStatusRevoked => Pair_LineageID p = []
     | PairingStatusOther _ => False
     end) ∧
  (∀ k p p', pairings (data (svc_conn w1)) !! k = Some p → pairings (data (svc_conn w2)) !! k = Some p' →
     Pair_DeviceCodeHash p' = Pair_DeviceCodeHash p ∧ Pair_UserCodeHash p' = Pair_UserCodeHash p ∧
     Pair_ClientLabel p' = Pair_ClientLabel p ∧ Pair_Scopes p' = Pair_Scopes p ∧
     Pair_CreatedAt p' = Pair_CreatedAt p ∧ Pair_ExpiresAt p' = Pair_ExpiresAt p ∧
     (Pair_Status p ≠ PairingStatusPending → Pair_OwnerID p' = Pair_OwnerID p ∧ Pair_ApprovedAt p' = Pair_ApprovedAt p ∧ Pair_Status p' ≠ PairingStatusPending) ∧
     (Pair_Status p = PairingStatusRedeemed ∨ Pair_Status p = PairingStatusRevoked →
        Pair_Status p' = Pair_Status p ∧ Pair_LineageID p' = Pair_LineageID p ∧
        Pair_RedeemedAt p' = Pair_RedeemedAt p ∧ Pair_RevokedAt p' = Pair_RevokedAt p)).
Proof.
  intros Hok0%empty_table_ok H1 H2. apply enroll_steps_table in H1; [|done].
  destruct (table_steps_forward _ _ Hok0 H1) as [Hok1 _]. apply enroll_steps_table in H2; [|done].
  destruct (table_steps_forward _ _ Hok1 H2) as [_ Hfw]. split.
  - intros k p Hp. destruct (Hok1 _ _ Hp) as (? & ? & _). by split.
  - intros k p p' Hp Hp'. destruct (Hfw _ _ _ Hp Hp') as [(_ & ? & ? & ? & ? & ? & ?) Ho Hst Hfin]. split_and!; try done.
    + intros Hne. split_and!; [by apply Ho..|]. destruct (Pair_Status p); try done; destruct Hst as [-> _]; done.
    + intros Hr. specialize (Hfin Hr). by destruct Hr as [E|E]; rewrite E in Hst |- *; destruct Hst.
Qed.

(** C8. What redeeming a device code takes and gives.  When [Redeem] hands out tokens,
    whatever statements failed: the code parsed to the identifier of a stored pairing
    and a secret with its digest; the pairing was approved, unexpired, and its owner,
    who is also the owner it is linked to, is active and not deleted.  The call made
    the pairing redeemed with the new lineage, and stored one active credential of
    that owner with the pairing's scopes and label; nothing else changed. *)
Theorem Redeem_sound {S} `{!Store S} signer ent ctx clock t_auth now code (w w' : service S) issued :
  Redeem signer ent ctx clock t_auth now code w = (Ok issued, w') →
  let d := data (svc_conn w) in let d' := data (svc_conn w') in
  ∃ id secret p owner, parseDeviceCode code = Ok (id, secret) ∧ pairings d !! id = Some p ∧
    Pair_DeviceCodeHash p = hashDeviceSecret secret ∧ Pair_Status p = PairingStatusApproved ∧ t_auth < Pair_ExpiresAt p ∧
    (∃ li, li ∈ links_of APITokenProviderID id d ∧ Link_OwnerID li = Pair_OwnerID p) ∧
    owners d !! Pair_OwnerID p = Some owner ∧ Owner_Status owner = OwnerStatusActive ∧ Owner_DeletedAt owner = None ∧
    let new := newCredentialID (ent_id ent) in
    creds d !! new = None ∧ svc_deny w' = svc_deny w ∧
    d' = set_pairings <[id := redeemed_row new now p]> (set_creds <[new := first_cred ent (Pair_OwnerID p) (Pair_Scopes p) (Pair_ClientLabel p) now]> d) ∧
    Iss_OwnerID issued = Pair_OwnerID p ∧ Iss_LineageID issued = new ∧ Iss_Scopes issued = Pair_Scopes p.
Proof.
  intros [[? _]|(id & secret & p & li & owner & Hp & Hrow & _ & Hh & Hst & _ & Hexp & Hli & Hlo & Hown & Hact & Hdel & _ & Hnone & H)]%Redeem_inv; [done|].
  destruct H as [[? _]|(i & [= <-] & Hm & Hy & Hd)]; [done|]. destruct (mint_ok _ _ _ _ _ _ Hm) as (_ & _ & _ & Ho & Hl & Hs).
  cbv zeta. exists id, secret, p, owner. rewrite Hd. split_and!; try done. by exists li.
Qed.

(** What approving takes and gives.  [Approve] answers success or the one error.
    On success the typed code reads as one whose digest a pending, unexpired pairing
    carries; that pairing becomes approved and bound to the caller and linked to him,
    and nothing else in the tables changed.  On an error no pairing is bound to
    anyone but the caller: the tables are as before, or that pairing was approved for
    the caller and only its link is missing.  Either change takes an attempt within
    the caller's budget: the counter of his attempts reached at most twenty. *)
Theorem Approve_binds {S} `{!Store S} ctx t now o typed (w w' : service S) r :
  (∀ k p, pairings (data (svc_conn w)) !! k = Some p → Pair_ID p = k) → Approve ctx t now o typed w = (r, w') →
  let d := data (svc_conn w) in let d' := data (svc_conn w') in
  (r = None ∨ r = Some ErrAuthFailed) ∧
  (r = None ∨ d' ≠ d → ∃ code id p got s, o ≠ [] ∧ normalizeUserCode typed = Ok code ∧ pairings d !! id = Some p ∧
     Pair_UserCodeHash p = hashUserCode code ∧ Pair_Status p = PairingStatusPending ∧ now < Pair_ExpiresAt p ∧
     Increment ctx t (approvalKey o) 1 PairingLifetime (svc_deny w) = (Ok got, s) ∧ Value got ≤ MaxApprovalAttempts ∧
     pairings d' = <[id := approved_row o now p]> (pairings d) ∧ owners d' = owners d ∧ creds d' = creds d ∧
     links d' = match r with
       | None => <[id := MkLinkedIdentity id o APITokenProviderID id None now now]> (links d)
       | Some _ => links d
       end).
Proof.
  intros Hkey [[-> Hd]|(got & s & code & k & q & p & Ho & Hi & Hv & _ & Hc & Hk & Hh & Hst & Hexp & Hp & Hpst & H)]%Approve_inv; cbv zeta.
  - split; [by right|]. intros [?|Hne]; [done|]. by destruct Hne.
  - rewrite (Hkey _ _ Hk) in Hp. rewrite Hk in Hp. injection Hp as <-. rewrite (Hkey _ _ Hk) in H. cbv zeta in H.
    assert (r = None ∨ r = Some ErrAuthFailed) as Hr by (destruct H as [[-> _]|[-> _]]; auto). split; [done|].
    intros _. exists code, k, q, got, s. destruct H as [[-> ->]|[-> ->]]; by split_and!.
Qed.

(** Revoking a pairing never reaches the credentials it issued.  In every state the
    enrollment calls can lead to, [Revoke] of a redeemed pairing fails and changes
    nothing; and no call of [Revoke] at all, successful or not, revokes a credential
    or lists one on the denylist. *)
Theorem Revoke_never_reaches_credentials {S} `{!Store S} ctx clock now o id (w0 w w' : service S) used r :
  pairings (data (svc_conn w0)) = ∅ → steps enroll_step (∅, w0) (used, w) → enroll_Revoke ctx clock now o id w = (r, w') →
  creds (data (svc_conn w')) = creds (data (svc_conn w)) ∧ svc_deny w' = svc_deny w ∧
  (∀ p, pairings (data (svc_conn w)) !! id = Some p → Pair_Status p = PairingStatusRedeemed →
     (∃ e, r = Some e) ∧ data (svc_conn w') = data (svc_conn w)).
Proof.
  intros Hok0%empty_table_ok Hrun E.
  apply enroll_steps_table in Hrun; [|done]. destruct (table_steps_forward _ _ Hok0 Hrun) as [Hok _].
  apply enroll_Revoke_inv in E as [(Hr & -> & ->)|(p & -> & Hp & _ & _ & Hst & _ & _ & _ & Hl)]; [done|].
  destruct (Hok _ _ Hp) as (Hrow & _ & _). unfold row_ok in Hrow.
  destruct Hl as [-> ->]; [by destruct Hst as [E|E]; rewrite E in Hrow; apply Hrow|]. split_and!; try done.
  intros q Hq Hqs. rewrite Hp in Hq. injection Hq as <-. destruct Hst; congruence.
Qed.

(** ** A concrete enrollment

    An owner mints a pairing, a device redeems it; another pairing is started by a
    client and approved by the owner. *)
Module Sample.
Definition scopes : list Scope := [MkScope ScopeReadOnly []].
Definition w0 : service MemoryStore :=
  MkService (MkConn (set_owners (λ _, {[ go "o" := w_owner ]}) empty_db) []) (MkMemoryStore ∅ 0).
Definition pe1 : pair_entropy := MkPairEntropy (go "0123456789abcdef") w_secret (go "abcdefgh").
Definition pe2 : pair_entropy := MkPairEntropy (go "fedcba9876543210") w_secret (go "hgfedcba").
Definition code1 : gostring := formatDeviceCode (newPairingID (pe_id pe1)) w_secret.
Definition id1 : gostring := newPairingID (pe_id pe1).

Definition minted := on_conn (mintInto pe1 0 0 (go "o") (go "laptop") scopes) w0.
Definition redeemed := Redeem sample_signer w_ent None (λ _, 5) 5 5 code1 (snd minted).
Definition revoked := enroll_Revoke None (λ _, 6) 6 (go "o") id1 (snd redeemed).
Definition started := on_conn (StartDeviceGrant pe2 7 (go "ci") scopes) (snd redeemed).
Definition typed2 : gostring := fst (newUserCode (pe_user pe2)).
Definition approved := Approve None 8 8 (go "o") typed2 (snd started).

Definition used1 : gset gostring := {[id1]} ∪ ∅.
Definition used2 : gset gostring := {[newPairingID (pe_id pe2)]} ∪ used1.

Lemma run_redeemed : steps enroll_step (∅, w0) (used1, snd redeemed).
Proof.
  eapply steps_cons; [apply (es_mint ∅ pe1 0 0 (go "o") (go "laptop") scopes (fst minted) w0 (snd minted)); [apply not_elem_of_empty|apply surjective_pairing]|].
  eapply steps_cons; [|apply steps_nil].
  apply (es_redeem _ sample_signer w_ent None (λ _, 5) 5 5 code1 (fst redeemed)); [reflexivity|apply surjective_pairing].
Qed.

Lemma run_approved : steps enroll_step (used1, snd redeemed) (used2, snd approved).
Proof.
  unfold used2. eapply steps_cons; [apply (es_start used1 pe2 7 (go "ci") scopes (fst started) (snd redeemed) (snd started)); [|apply surjective_pairing]|].
  - apply (bool_decide_unpack _). vm_compute. exact I.
  - apply steps_one. apply (es_approve _ None 8 8 (go "o") typed2 (fst approved) (snd started) (snd approved)).
    unfold approved. apply surjective_pairing.
Qed.
End Sample.

Lemma pairing_lifecycle_witness : ∃ p, pairings (data (svc_conn (snd Sample.approved))) !! Sample.id1 = Some p ∧
  Pair_Status p = PairingStatusRedeemed ∧ Pair_LineageID p ≠ [].
Proof.
  assert (is_Some (pairings (data (svc_conn (snd Sample.approved))) !! Sample.id1)) as [p Hp] by (vm_compute; by eexists).
  assert (is_Some (pairings (data (svc_conn (snd Sample.redeemed))) !! Sample.id1)) as [q Hq] by (vm_compute; by eexists).
  assert ((Pair_Status <$> pairings (data (svc_conn (snd Sample.redeemed))) !! Sample.id1) = Some PairingStatusRedeemed) as Hs
    by (vm_compute; reflexivity).
  rewrite Hq in Hs. injection Hs as Hs.
  destruct (pairing_lifecycle Sample.w0 (snd Sample.redeemed) (snd Sample.approved) Sample.used1 Sample.used2 eq_refl
    Sample.run_redeemed Sample.run_approved) as [Hok Hfw].
  destruct (Hfw _ _ _ Hq Hp) as (_ & _ & _ & _ & _ & _ & _ & H). destruct H as (H1 & H2 & _); [by left|].
  exists p. split; [exact Hp|]. rewrite H1, H2, Hs. split; [reflexivity|]. destruct (Hok _ _ Hq) as [_ Hst]. rewrite Hs in Hst. apply Hst.
Defined.

Lemma Redeem_sound_witness : ∃ issued, fst Sample.redeemed = Ok issued ∧ Iss_Scopes issued = Sample.scopes ∧ Iss_OwnerID issued = go "o".
Proof.
  assert (is_ok (fst Sample.redeemed) = true) as Hok by (vm_compute; reflexivity).
  destruct Sample.redeemed as [[issued|e] w'] eqn:E; [|discriminate]. exists issued. split; [reflexivity|].
  destruct (Redeem_sound sample_signer w_ent None (λ _, 5) 5 5 Sample.code1 _ _ _ E)
    as (id & secret & p & owner & Hp & Hrow & _ & _ & _ & _ & _ & _ & _ & _ & _ & _ & Ho & _ & Hs).
  rewrite Ho, Hs.
  assert (parseDeviceCode Sample.code1 = Ok (Sample.id1, w_secret)) as Hp' by (vm_compute; reflexivity).
  rewrite Hp' in Hp. injection Hp as <- <-.
  assert ((λ p, (Pair_Scopes p, Pair_OwnerID p)) <$> pairings (data (svc_conn (snd Sample.minted))) !! Sample.id1 = Some (Sample.scopes, go "o")) as Hr
    by (vm_compute; reflexivity).
  rewrite Hrow in Hr. injection Hr as -> ->. by split.
Defined.

Lemma Approve_binds_witness : fst Sample.approved = None ∧
  ∃ id p, pairings (data (svc_conn (snd Sample.approved))) !! id = Some p ∧ Pair_Status p = PairingStatusApproved ∧ Pair_OwnerID p = go "o".
Proof.
  assert (fst Sample.approved = None) as Hn by (vm_compute; reflexivity). split; [exact Hn|].
  assert (∀ k p, pairings (data (svc_conn (snd Sample.started))) !! k = Some p → Pair_ID p = k) as Hkey.
  { apply map_Forall_lookup. apply (bool_decide_unpack _). vm_compute. exact I. }
  destruct (Approve_binds None 8 8 (go "o") Sample.typed2 (snd Sample.started) (snd Sample.approved) (fst Sample.approved) Hkey) as [_ H].
  { unfold Sample.approved. apply surjective_pairing. }
  destruct H as (code & id & p & got & s & _ & _ & _ & _ & _ & _ & _ & _ & Hp & _); [by left|].
  exists id, (approved_row (go "o") 8 p). rewrite Hp, lookup_insert_eq. by split_and!.
Defined.

(** The device was paired; its owner revokes the pairing; the call fails and the
    device's credential stays active. *)
Lemma Revoke_never_reaches_credentials_witness :
  (∃ e, fst Sample.revoked = Some e ∧ errors_is e ErrConflict = true) ∧
  Cred_Status <$> creds (data (svc_conn (snd Sample.revoked))) !! newCredentialID (ent_id w_ent) = Some CredentialStatusActive.
Proof.
  split; [eexists; split; vm_compute; reflexivity|].
  destruct (Revoke_never_reaches_credentials None (λ _, 6) 6 (go "o") Sample.id1 Sample.w0 (snd Sample.redeemed) (snd Sample.revoked) Sample.used1
    (fst Sample.revoked) eq_refl Sample.run_redeemed) as (-> & _ & _).
  { unfold Sample.revoked. apply surjective_pairing. }
  vm_compute. reflexivity.
Defined.
