(* ===== verification/Erasure.v ===== *)
(** * Erasure and retention

    [internal/erasure]: the pseudonyms that replace an erased owner's identifiers
    (erasure.go), the traversal that finds those identifiers (graph.go), the erasure of
    an owner (owner.go), the bounded purge of old records (retention.go) and the pass
    the scheduler runs (scheduler.go); and the table of salts of
    [internal/storage/sqlite/ownersalt.go].  A fresh salt is an argument; so are the
    clock readings and, for a purge, what the context answers when it is asked. *)

From stdpp Require Import sorting pretty.
From S2P Require Import Prelude DomainErrors GoLib GoNum Domain Blocklist Sha256 Tokens Database StoreLogic AuditLog KeyRepos AccessKey KeySets Handles PairingRepo.

Open Scope Z_scope.
Open Scope stm_scope.

(** ** Salts *)

(** src/internal/storage/sqlite/ownersalt.go:109-118, getOwnerSalt *)
Definition getOwnerSalt (ownerID : gostring) : stM conn bytes := query_row (λ d, salts d !! ownerID).

(** src/internal/storage/sqlite/ownersalt.go:58-83, ensureOwnerSalt *)
Definition ensureOwnerSalt (fresh : bytes) (ownerID : gostring) : stM conn bytes :=
  try! existing := getOwnerSalt ownerID in
  match existing with
  | Ok salt => st_ret salt
  | Err e =>
      if negb (errors_is e ErrNotFound) then st_fail e else
      try! r := exec (λ d, match salts d !! ownerID with
                           | Some _ => inl UniqueViolation
                           | None => inr (1, set_salts <[ownerID := fresh]> d)
                           end) in
      match r with
      | Err e => if errors_is e ErrConflict then getOwnerSalt ownerID else st_fail e
      | Ok _ => st_ret fresh
      end
  end.

(** src/internal/storage/sqlite/ownersalt.go:32-56, ownerSaltRepo.Ensure *)
Definition salt_Ensure (tx : bool) (fresh : bytes) (ownerID : gostring) : stM conn bytes :=
  if bool_decide (ownerID = []) then st_fail (errorf "sqlite: empty owner id" [ErrInvalidInput]) else
  withLocalTx tx (ensureOwnerSalt fresh ownerID).

(** src/internal/storage/sqlite/ownersalt.go:100-107, ownerSaltRepo.Get *)
Definition salt_Get (ownerID : gostring) : stM conn bytes := getOwnerSalt ownerID.

(** src/internal/storage/sqlite/ownersalt.go:120-135, ownerSaltRepo.Destroy *)
Definition salt_Destroy (ownerID : gostring) : stM conn unit :=
  let! _ := exec (λ d, inr (match salts d !! ownerID with Some _ => 1 | None => 0 end, set_salts (delete ownerID) d)) in st_ret tt.

(** ** Pseudonyms *)

(** src/internal/erasure/erasure.go:116-120, tombstonePrefix *)
Definition tombstonePrefix : gostring := go "anon:".

(** src/internal/erasure/erasure.go:140-151, Tombstone *)
Definition Tombstone (salt : bytes) (id : gostring) : gostring := tombstonePrefix ++ rawurl_b64 (hmac_sha256 salt id).

(** src/internal/erasure/erasure.go:153-162, Verify *)
Definition tombstone_Verify (salt : bytes) (id tombstone : gostring) : bool := bool_decide (Tombstone salt id = tombstone).

(** src/internal/erasure/erasure.go:164-183, isTombstone *)
Definition isTombstone (s : gostring) : bool :=
  match cut_prefix tombstonePrefix s with
  | None => false
  | Some rest => match rawurl_decode rest with Some raw => len raw =? 32 | None => false end
  end.

(** The values an erasure replaces. *)
Definition scrubbable (k v : gostring) : bool := negb (bool_decide (v = []) || isTombstone v || negb (IsErasableDetail k)).

(** src/internal/erasure/erasure.go:185-209, scrubDetails *)
Definition scrubDetails (meta : gmap gostring gostring) (salt : bytes) : gmap gostring gostring * bool :=
  (map_imap (λ k v, Some (if scrubbable k v then Tombstone salt v else v)) meta,
   existsb (λ kv, scrubbable kv.1 kv.2) (map_to_list meta)).

(** The updates [scrubMetadata] asks for. *)
Definition scrub_updates (salt : bytes) (recs : list AuditRecord) : list (gostring * gmap gostring gostring) :=
  omap (λ r, let '(m, changed) := scrubDetails (Audit_Metadata r) salt in if changed then Some (Audit_ID r, m) else None) recs.

(** src/internal/erasure/erasure.go:271-296, Eraser.scrubMetadata *)
Definition scrubMetadata (ids : list gostring) (salt : bytes) : stM conn unit :=
  let! recs := audit_RecordsForErasure ids in
  if bool_decide (scrub_updates salt recs = []) then st_ret tt else
  let! _ := audit_ScrubMetadata false (scrub_updates salt recs) in st_ret tt.

Definition rewrite_loop (salt : bytes) : list gostring → Z → stM conn (Z * option goerror) := fix loop ids rewritten :=
  match ids with
  | [] => st_ret (rewritten, None)
  | id :: ids' =>
      try! r := audit_Pseudonymize false [id] (Tombstone salt id) in
      match r with
      | Err e => st_ret (rewritten, Some (errorf "erasure: pseudonymize" [e]))
      | Ok n => loop ids' (rewritten + n)
      end
  end.

(** src/internal/erasure/erasure.go:211-269, Eraser.EraseOwner
    (the count is meaningful next to an error too) *)
Definition Eraser_EraseOwner (fresh : bytes) (ownerID : gostring) (ids : list gostring) : stM conn (Z * option goerror) :=
  if bool_decide (ownerID = []) then st_ret (0, Some (errorf "erasure: empty owner id" [ErrInvalidInput])) else
  try! r := salt_Ensure false fresh ownerID in
  match r with
  | Err e => st_ret (0, Some (errorf "erasure: load salt" [e]))
  | Ok salt =>
      try! r := scrubMetadata ids salt in
      match r with
      | Err e => st_ret (0, Some (errorf "erasure: scrub metadata" [e]))
      | Ok _ =>
          let! out := rewrite_loop salt ids 0 in
          match out with
          | (rewritten, Some e) => st_ret (rewritten, Some e)
          | (rewritten, None) =>
              try! r := salt_Destroy ownerID in
              match r with
              | Err e => st_ret (rewritten, Some (errorf "erasure: destroy salt" [e]))
              | Ok _ => st_ret (rewritten, None)
              end
          end
      end
  end.

(** ** The owner graph *)

(** The closure [add]: identifiers in the order found, none twice, none empty. *)
Definition add_id (out : list gostring) (id : gostring) : list gostring :=
  if bool_decide (id = []) || bool_decide (id ∈ out) then out else out ++ [id].

(** src/internal/erasure/graph.go:245-267, collectInto *)
Definition collectInto {A} (list_ : stM conn (list A)) (id : A → gostring) (table : string) (out : list gostring) : stM conn (list gostring) :=
  try! r := list_ in
  match r with
  | Err e => st_fail (errorf ("erasure: collect " ++ table) [e])
  | Ok rs => st_ret (foldl add_id out (id <$> rs))
  end.

(** src/internal/erasure/graph.go:171-243, Graph.Collect *)
Definition Collect (ownerID : gostring) : stM conn (list gostring) :=
  if bool_decide (ownerID = []) then st_fail (errorf "erasure: empty owner id" [ErrInvalidInput]) else
  let! out := collectInto (handle_ListByOwner ownerID) Handle_ID "handles" (add_id [] ownerID) in
  let! out := collectInto (device_ListByOwner ownerID) Device_ID "devices" out in
  let! out := collectInto (pubkey_ListByOwner ownerID) PublicKey_ID "public keys" out in
  let! out := collectInto (keyset_ListByOwner ownerID) KeySet_ID "key sets" out in
  let! out := collectInto (accesskey_ListByOwner ownerID) AccessKey_ID "access keys" out in
  let! out := collectInto (cred_ListByOwner ownerID) Cred_ID "refresh credentials" out in
  let! out := collectInto (link_ListByOwner ownerID) Link_ID "linked identities" out in
  collectInto (pair_ListByOwner ownerID) Pair_ID "pairings" out.

Section owner.
Context {U : UnicodeData}.

Definition owner_erased_event (ownerID : gostring) : Event := MkEvent ActorTypeSystem [] (go "owner.erased") TargetTypeOwner ownerID no_details.

(** src/internal/erasure/owner.go:156-180, OwnerEraser.record *)
Definition record_erasure (st : stamp) (ownerID : gostring) : stM conn unit :=
  try! r := Emit st (owner_erased_event ownerID) in
  match r with
  | Err e => st_fail (errorf "erasure: record owner erasure" [e])
  | Ok _ => st_ret tt
  end.

(** src/internal/erasure/owner.go:117-154, OwnerEraser.EraseOwner *)
Definition OwnerEraser_EraseOwner (fresh : bytes) (st : stamp) (ownerID : gostring) : stM conn (Z * option goerror) :=
  if bool_decide (ownerID = []) then st_ret (0, Some (errorf "erasure: empty owner id" [ErrInvalidInput])) else
  try! r := Collect ownerID in
  match r with
  | Err e => st_ret (0, Some (errorf "erasure: collect owner graph" [e]))
  | Ok ids =>
      try! r := record_erasure st ownerID in
      match r with
      | Err e => st_ret (0, Some e)
      | Ok _ => Eraser_EraseOwner fresh ownerID ids
      end
  end.
End owner.

(** ** Retention *)

(** src/internal/erasure/retention.go:12-17, DefaultRetention *)
Definition DefaultRetention : duration := 365 * 24 * Hour.

(** src/internal/erasure/retention.go:19-23, DefaultPurgeBatch *)
Definition DefaultPurgeBatch : Z := 500.

(** src/internal/erasure/retention.go:25-35, DefaultMaxPerRun *)
Definition DefaultMaxPerRun : Z := 100000.

(** src/internal/erasure/retention.go:37-59, Purger *)
Record Purger := MkPurger { p_retention : duration; p_batch : Z; p_maxPerRun : Z }.

(** src/internal/erasure/retention.go:87-120, NewPurger
    (an option left out is [None]) *)
Definition NewPurger (retention : option duration) (batch maxPerRun : option Z) : result Purger :=
  let p := MkPurger (default DefaultRetention retention) (default DefaultPurgeBatch batch) (default DefaultMaxPerRun maxPerRun) in
  if p_retention p <=? 0 then Err (errorf "erasure: retention must be positive" [ErrInvalidInput]) else
  if p_batch p <=? 0 then Err (errorf "erasure: batch size must be positive" [ErrInvalidInput]) else
  if p_maxPerRun p <=? 0 then Err (errorf "erasure: max per run must be positive" [ErrInvalidInput]) else Ok p.

(** src/internal/erasure/retention.go:122-127, Purger.Cutoff *)
Definition Cutoff (p : Purger) (now : time) : time := time_add now (- p_retention p).

(** The loop of [PurgeOnce]; [ctx] are the answers of [ctx.Err()], one per turn.  [None]
    is an exhausted [fuel]. *)
Fixpoint purge_loop (fuel : nat) (p : Purger) (cutoff : time) (ctx : list (option goerror)) (total : Z) : stM conn (option (Z * option goerror)) :=
  match fuel with
  | O => st_ret None
  | S fuel =>
      if total <? p_maxPerRun p then
        match default None (head ctx) with
        | Some e => st_ret (Some (total, Some e))
        | None =>
            let remaining := p_maxPerRun p - total in
            let limit := if remaining <? p_batch p then remaining else p_batch p in
            try! r := audit_PurgeOlderThan cutoff limit in
            match r with
            | Err e => st_ret (Some (total, Some (errorf "erasure: purge" [e])))
            | Ok n => if n <? limit then st_ret (Some (total + n, None)) else purge_loop fuel p cutoff (tail ctx) (total + n)
            end
        end
      else st_ret (Some (total, None))
  end.

(** src/internal/erasure/retention.go:129-175, Purger.PurgeOnce *)
Definition PurgeOnce (p : Purger) (now : time) (ctx : list (option goerror)) : stM conn (option (Z * option goerror)) :=
  purge_loop (S (Z.to_nat (p_maxPerRun p))) p (Cutoff p now) ctx 0.

(** ** The scheduler's pass *)

Definition FormatInt (n : Z) : gostring := go (pretty n).

(** [t.Format(time.RFC3339)] of an instant in UTC. *)
Definition RFC3339 (t : time) : gostring :=
  let secs := t / Second in
  let '(y, m, d) := civil (secs / 86400) in
  let s := secs mod 86400 in
  padded 4 y ++ go "-" ++ padded 2 m ++ go "-" ++ padded 2 d ++ go "T" ++
  padded 2 (s / 3600) ++ go ":" ++ padded 2 (s / 60 mod 60) ++ go ":" ++ padded 2 (s mod 60) ++ go "Z".

Definition context_Canceled : goerror := errors_new "context canceled".
Definition context_DeadlineExceeded : goerror := errors_new "context deadline exceeded".

Section scheduler.
Context {U : UnicodeData}.

Definition purge_event (cutoff : time) (deleted : Z) : Event :=
  MkEvent ActorTypeSystem [] (go "audit.purged") TargetTypeAuditLog AuditLogTargetID
    (Details_Set (Details_Set no_details DetailCount (FormatInt deleted)) DetailTo (RFC3339 cutoff)).

(** src/internal/erasure/scheduler.go:260-299, Scheduler.recordPass
    (with the error it logs) *)
Definition recordPass (sink : bool) (st : stamp) (cutoff : time) (deleted : Z) : stM conn (option goerror) :=
  if negb sink then st_ret None else
  try! r := Emit st (purge_event cutoff deleted) in
  st_ret (match r with Err e => Some e | Ok _ => None end).

(** src/internal/erasure/scheduler.go:237-258, Scheduler.report *)
Definition report (sink : bool) (st : stamp) (cutoff : time) (deleted : Z) : stM conn (option goerror) :=
  if deleted =? 0 then st_ret None else recordPass sink st cutoff deleted.

(** src/internal/erasure/scheduler.go:179-218, Scheduler.pass
    ([now], [now']: the clock when the pass starts and when it reports; the outcome of
    the purge with the error the record logs) *)
Definition pass (p : Purger) (sink : bool) (now now' : time) (st : stamp) (ctx : list (option goerror)) :
    stM conn (option (Z * option goerror) * option goerror) :=
  let! out := PurgeOnce p now ctx in
  match out with
  | None => st_ret (None, None)
  | Some (deleted, err) =>
      let! logged :=
        match err with
        | None => report sink st (Cutoff p now') deleted
        | Some e =>
            if errors_is e context_Canceled || errors_is e context_DeadlineExceeded then report sink st (Cutoff p now') deleted
            else if 0 <? deleted then report sink st (Cutoff p now') deleted else st_ret None
        end in
      st_ret (Some (deleted, err), logged)
  end.
End scheduler.

Close Scope stm_scope.

Example RFC3339_leap_day : RFC3339 (951827696 * Second) = go "2000-02-29T12:34:56Z".
Proof. vm_compute. reflexivity. Qed.
Example RFC3339_epoch : RFC3339 0 = go "1970-01-01T00:00:00Z".
Proof. vm_compute. reflexivity. Qed.

(** ** The purge *)

Lemma oldest_iff a b : oldest a b = true ↔
  Audit_OccurredAt a < Audit_OccurredAt b ∨ Audit_OccurredAt a = Audit_OccurredAt b ∧ bytes_le (Audit_ID a) (Audit_ID b) = true.
Proof. unfold oldest. by rewrite orb_true_iff, andb_true_iff, Z.ltb_lt, Z.eqb_eq. Qed.

Lemma oldest_order d : keyed Audit_ID (audits d) → total_order oldest (rows (audits d)).
Proof.
  intros Hk. constructor.
  - intros a b c. rewrite !oldest_iff. intros [H1|[E1 H1]] [H2|[E2 H2]]; [left; lia|left; lia|left; lia|right]. split; [lia|by eapply bytes_le_trans].
  - intros a b. rewrite !oldest_iff. destruct (decide (Audit_OccurredAt a = Audit_OccurredAt b)) as [E|E]; [|lia].
    destruct (bytes_le (Audit_ID a) (Audit_ID b)) eqn:Eb; [by left; right|]. apply bytes_le_total in Eb as [Eb _]. right. right. done.
  - intros a b Ha Hb. rewrite !oldest_iff. intros [H1|[E1 H1]] [H2|[E2 H2]]; try lia. eapply keyed_eq; eauto. by apply bytes_le_antisym.
Qed.

Lemma ordered_by_perm {A} (le : A → A → bool) l : ordered_by le l ≡ₚ l.
Proof. unfold ordered_by. by rewrite merge_sort_Permutation. Qed.

(** The log without the [k] oldest of the records at or before the cutoff. *)
Definition purged (cutoff : time) (k : nat) (d : db) : db :=
  set_audits (filter (λ kr, kr.1 ∉ Audit_ID <$> take k (aged cutoff d))) d.

Lemma aged_order cutoff d : keyed Audit_ID (audits d) → total_order oldest (filter (λ r, Audit_OccurredAt r ≤ cutoff) (rows (audits d))).
Proof.
  intros Hk. destruct (oldest_order d Hk) as [H1 H2 H3]. constructor; try done.
  intros a b [_ Ha]%list_elem_of_filter [_ Hb]%list_elem_of_filter. by apply H3.
Qed.

Lemma aged_NoDup cutoff d : keyed Audit_ID (audits d) → NoDup (Audit_ID <$> aged cutoff d).
Proof.
  intros Hk. unfold aged. assert (ordered_by oldest (filter (λ r, Audit_OccurredAt r ≤ cutoff) (rows (audits d))) ≡ₚ filter (λ r, Audit_OccurredAt r ≤ cutoff) (rows (audits d))) as ->
    by (unfold ordered_by; by rewrite merge_sort_Permutation).
  eapply sublist_NoDup; [exact (keyed_NoDup _ _ Hk)|]. apply fmap_sublist, sublist_filter.
Qed.

Lemma drop_filter {A} (f : A → gostring) k (l : list A) : NoDup (f <$> l) → filter (λ a, f a ∉ f <$> take k l) l = drop k l.
Proof.
  intros Hnd. enough (filter (λ a, f a ∉ f <$> take k l) (take k l ++ drop k l) = drop k l) as E by (by rewrite take_drop in E).
  rewrite filter_app. assert (filter (λ a, f a ∉ f <$> take k l) (take k l) = []) as ->.
  { apply elem_of_nil_inv. intros a [Hn Ha]%list_elem_of_filter. apply Hn, list_elem_of_fmap. eauto. }
  simpl. apply filter_all, Forall_forall. intros a Ha Hin. rewrite <- (take_drop k l), fmap_app in Hnd. apply NoDup_app in Hnd as (_ & Hd & _).
  eapply Hd; [exact Hin|]. apply list_elem_of_fmap. eauto.
Qed.

(** Rows of a table restricted by its keys. *)
Lemma rows_filter_keyed {A} (id_of : A → gostring) (P : gostring → Prop) `{!∀ x, Decision (P x)} (t : gmap gostring A) : keyed id_of t →
  rows (filter (λ kr, P kr.1) t) ≡ₚ filter (λ a, P (id_of a)) (rows t).
Proof.
  intros Hk. apply NoDup_Permutation.
  - eapply NoDup_fmap_1. apply (keyed_NoDup id_of). intros i a [Ha _]%map_lookup_filter_Some. by apply Hk.
  - apply NoDup_filter. eapply NoDup_fmap_1. by apply (keyed_NoDup id_of).
  - intros a. rewrite elem_of_rows, list_elem_of_filter, elem_of_rows. setoid_rewrite map_lookup_filter_Some. split.
    + intros (i & Ha & Hp). simpl in Hp. rewrite (Hk _ _ Ha). eauto.
    + intros [Hp [i Ha]]. exists i. split; [done|]. simpl. by rewrite <- (Hk _ _ Ha).
Qed.

Lemma aged_purged cutoff k d : keyed Audit_ID (audits d) → aged cutoff (purged cutoff k d) = drop k (aged cutoff d).
Proof.
  intros Hk. rewrite <- (drop_filter Audit_ID) by (by apply aged_NoDup). unfold aged at 1. simpl. apply ordered_unique.
  - constructor.
    + apply (to_trans _ _ (oldest_order d Hk)).
    + apply (to_total _ _ (oldest_order d Hk)).
    + intros a b [_ [i [Ha _]%map_lookup_filter_Some]%elem_of_rows]%list_elem_of_filter [_ [j [Hb _]%map_lookup_filter_Some]%elem_of_rows]%list_elem_of_filter.
      apply (to_antisym _ _ (oldest_order d Hk)); apply elem_of_rows; eauto.
  - pose proof (rows_filter_keyed Audit_ID (λ i, i ∉ Audit_ID <$> take k (aged cutoff d)) (audits d) Hk) as Hp. cbn beta in Hp. rewrite Hp.
    set (ids := Audit_ID <$> take k (aged cutoff d)). unfold aged. rewrite ordered_by_perm.
    rewrite !list_filter_filter. apply reflexive_eq, list_filter_iff. intros a. tauto.
  - apply StronglySorted_filter. by eapply ordered_sorted, (oldest_order d).
Qed.

Lemma purged_purged cutoff k n d : keyed Audit_ID (audits d) → purged cutoff n (purged cutoff k d) = purged cutoff (k + n) d.
Proof.
  intros Hk. unfold purged at 1. rewrite aged_purged by done. unfold purged, set_audits. simpl. f_equal.
  rewrite map_filter_filter. apply map_filter_ext. intros i r _. simpl. rewrite <- take_take_drop, fmap_app, elem_of_app. tauto.
Qed.

Lemma keyed_purged cutoff k d : keyed Audit_ID (audits d) → keyed Audit_ID (audits (purged cutoff k d)).
Proof. intros Hk i r [Hr _]%map_lookup_filter_Some. by apply Hk. Qed.

Lemma purged_0 cutoff d : purged cutoff 0 d = d.
Proof. unfold purged, set_audits. destruct d; simpl. f_equal. apply map_filter_id. intros i r _ ?%not_elem_of_nil. done. Qed.

Lemma wp_PurgeOlderThan b cutoff limit d Q :
  (∀ e, (b = true → limit ≤ 0) → Q (Err e) d) →
  (let n := Nat.min (Z.to_nat limit) (length (aged cutoff d)) in Q (Ok (Z.of_nat n)) (purged cutoff n d)) →
  wp b (audit_PurgeOlderThan cutoff limit) d Q.
Proof.
  intros He Ho. unfold audit_PurgeOlderThan. wp_step; [wp_step; apply He; lia|]. wp_step; [apply He; by intros ->|].
  rewrite length_fmap, length_take. simpl in Ho.
  destruct (decide (Z.to_nat limit ≤ length (aged cutoff d))%nat).
  - by rewrite Nat.min_l in Ho |- * by lia.
  - rewrite Nat.min_r in Ho |- * by lia. unfold purged in Ho. rewrite take_ge in Ho |- * by lia. done.
Qed.

(** The state of the loop after removing the [total] oldest aged records of [d]. *)
Lemma purge_loop_spec b p cutoff ctx d fuel (k : nat) :
  keyed Audit_ID (audits d) → 0 < p_batch p → Z.of_nat k ≤ p_maxPerRun p → (k ≤ length (aged cutoff d))%nat → p_maxPerRun p - Z.of_nat k < Z.of_nat fuel →
  wp b (purge_loop fuel p cutoff ctx (Z.of_nat k)) (purged cutoff k d) (λ r d', ∃ (m : nat) err,
    r = Ok (Some (Z.of_nat m, err)) ∧ (k ≤ m ≤ length (aged cutoff d))%nat ∧ Z.of_nat m ≤ p_maxPerRun p ∧ d' = purged cutoff m d ∧
    (err = None → Z.of_nat m = Z.min (p_maxPerRun p) (Z.of_nat (length (aged cutoff d)))) ∧
    (b = true → Forall (λ e, e = None) ctx → err = None)).
Proof.
  intros Hk Hb. revert ctx k. induction fuel as [|fuel IH]; intros ctx k Hmax Hlen Hfuel; [lia|]. cbn [purge_loop].
  destruct (Z.of_nat k <? p_maxPerRun p) eqn:E; reflect_bools; [|wp_step; exists k, None; split_and!; try done; try lia].
  destruct (default None (head ctx)) as [e|] eqn:Ectx.
  { wp_step. exists k, (Some e). split_and!; try done; try lia. intros _ Hall. destruct ctx as [|x ctx]; [done|]. simpl in Ectx. rewrite (Forall_inv Hall) in Ectx. done. }
  set (limit := if p_maxPerRun p - Z.of_nat k <? p_batch p then _ else _).
  assert (0 < limit ≤ p_maxPerRun p - Z.of_nat k) as Hlimit by (unfold limit; destruct (_ <? _) eqn:El; reflect_bools; lia).
  wp_step. apply wp_PurgeOlderThan.
  { intros e He. wp_step. exists k. eexists. split_and!; try done; try lia. intros Hbt. specialize (He Hbt). lia. }
  rewrite aged_purged, length_drop by done. set (n := Nat.min _ _). simpl. rewrite purged_purged by done.
  destruct (Z.of_nat n <? limit) eqn:En; reflect_bools.
  - wp_step. exists (k + n)%nat, None. split_and!; try done; try lia. do 3 f_equal. lia.
  - rewrite <- Nat2Z.inj_add. eapply wp_mono; [apply IH; lia|].
    intros r d' (m & err & Hr & Hm & Hmx & Hd & Hn & Hc). exists m, err. split_and!; try done; try lia.
    intros Hbt Hall. apply Hc; [done|]. destruct ctx; [done|]. by apply Forall_tail in Hall.
Qed.

(** C24. A purge is bounded, exact and ends.  Whatever the store and the context do, it
    removes the oldest records at or before the cutoff, in order, as many as it reports
    and never more than the limit per run; nothing newer than the cutoff and no other
    table is touched.  When it reports no error it has removed all of them or reached
    the limit, and on a store that answers, without a cancellation, it reports none. *)
Theorem PurgeOnce_exact p now ctx c r c' :
  keyed Audit_ID (audits (data c)) → 0 < p_batch p → 0 < p_maxPerRun p → PurgeOnce p now ctx c = (r, c') →
  let doomed := aged (Cutoff p now) (data c) in
  ∃ (total : nat) err, r = Ok (Some (Z.of_nat total, err)) ∧ Z.of_nat total ≤ p_maxPerRun p ∧ (total ≤ length doomed)%nat ∧
    data c' = set_audits (filter (λ kr, kr.1 ∉ Audit_ID <$> take total doomed)) (data c) ∧
    (∀ id rec, audits (data c) !! id = Some rec → Cutoff p now < Audit_OccurredAt rec → audits (data c') !! id = Some rec) ∧
    (err = None → Z.of_nat total = Z.min (p_maxPerRun p) (Z.of_nat (length doomed))) ∧
    (faults c = [] → Forall (λ e, e = None) ctx → err = None).
Proof.
  intros Hk Hb Hm E doomed.
  assert (∀ b, wp b (PurgeOnce p now ctx) (data c) (λ r d', ∃ (m : nat) err,
    r = Ok (Some (Z.of_nat m, err)) ∧ (0 ≤ m ≤ length doomed)%nat ∧ Z.of_nat m ≤ p_maxPerRun p ∧ d' = purged (Cutoff p now) m (data c) ∧
    (err = None → Z.of_nat m = Z.min (p_maxPerRun p) (Z.of_nat (length doomed))) ∧ (b = true → Forall (λ e, e = None) ctx → err = None))) as Hwp.
  { intros b. rewrite <- (purged_0 (Cutoff p now) (data c)) at 1. apply (purge_loop_spec b p _ ctx (data c) _ 0); [done|done|lia|lia|lia]. }
  pose proof (wp_run false _ _ _ _ _ _ (Hwp false) eq_refl ltac:(done) E) as (m & err & -> & Hlen & Hmx & Hd & Hn & _).
  exists m, err. split_and!; try done; try lia.
  - intros id rec Hr Hnew. rewrite Hd. apply map_lookup_filter_Some. split; [done|]. simpl. intros (x & -> & Hx)%list_elem_of_fmap.
    apply list_elem_of_lookup_1 in Hx as [i Hx]. apply lookup_take_Some in Hx as [Hx _]. apply list_elem_of_lookup_2 in Hx.
    unfold aged in Hx. rewrite elem_of_ordered in Hx. apply list_elem_of_filter in Hx as [Hle [j Hj]%elem_of_rows]. rewrite (Hk _ _ Hj) in Hr. rewrite Hr in Hj. injection Hj as ->. lia.
  - intros Hf Hall. pose proof (wp_run true _ _ _ _ _ _ (Hwp true) eq_refl (λ _, Hf) E) as (m' & err' & [= _ ->] & _ & _ & _ & _ & H). by apply H.
Qed.

(** Retention passes leave no trace in the log: the record of a pass has a target
    kind the table refuses, so a scheduler that was given a sink logs an error after
    every pass that removed something, and the log itself never shows one. *)
Theorem purge_pass_never_recorded {U : UnicodeData} p now now' st ctx c out logged c' :
  pass p true now now' st ctx c = (Ok (Some out, logged), c') → 0 < out.1 →
  is_Some logged ∧ ∃ c1, PurgeOnce p now ctx c = (Ok (Some out), c1) ∧ data c' = data c1.
Proof.
  unfold pass, st_bind. destruct (PurgeOnce p now ctx c) as [[[[deleted err]|]|e] c1] eqn:E; [|done|done].
  assert (∀ cutoff n c r c', 0 < n → report true st cutoff n c = (r, c') → data c' = data c ∧ ∃ e, r = Ok (Some e)) as Hrep.
  { intros cutoff n c0 r c2 Hn H. refine (wp_run false _ (data c0) (λ r d', d' = data c0 ∧ ∃ e, r = Ok (Some e)) _ _ _ _ eq_refl ltac:(done) H).
    unfold report, recordPass. rewrite (proj2 (Z.eqb_neq _ _)) by lia. simpl negb. cbn iota. wp_step.
    apply wp_Emit; [intros e; wp_step; eauto|]. done. }
  intros H Hpos.
  assert (∀ m, (m = report true st (Cutoff p now') deleted ∨ deleted ≤ 0) → (let (r, s') := m c1 in match r with Ok a => st_ret (Some (deleted, err), a) s' | Err e => (Err e, s') end) = (Ok (Some out, logged), c') →
    is_Some logged ∧ ∃ c1', (Ok (Some (deleted, err)), c1) = (Ok (Some out), c1') ∧ data c' = data c1') as Hgen.
  { intros m [->|Hle] Hm.
    - destruct (report true st (Cutoff p now') deleted c1) as [r2 c2] eqn:Er. destruct (decide (0 < deleted)) as [Hd|Hd].
      + destruct (Hrep _ _ _ _ _ Hd Er) as [Hdat [e ->]]. unfold st_ret in Hm. simplify_eq. split; [eauto|]. eauto.
      + destruct r2; unfold st_ret in Hm; simplify_eq; simpl in Hpos; lia.
    - destruct (m c1) as [[a|] c2]; unfold st_ret in Hm; simplify_eq; simpl in Hpos; lia. }
  destruct err as [e|].
  - destruct (_ || _); [by apply (Hgen _ (or_introl eq_refl))|]. destruct (0 <? deleted) eqn:Ed; reflect_bools; [by apply (Hgen _ (or_introl eq_refl))|].
    apply (Hgen (st_ret None)); [right; lia|done].
  - by apply (Hgen _ (or_introl eq_refl)).
Qed.

(** ** Erasing an owner *)

(** What becomes of a record that names one of the identifiers. *)
Definition scrubbed (salt : bytes) (r : AuditRecord) : gmap gostring gostring := (scrubDetails (Audit_Metadata r) salt).1.
Definition erase_id (ids : list gostring) (salt : bytes) (x : gostring) : gostring := if decide (x ∈ ids) then Tombstone salt x else x.
Definition erase_row (ids : list gostring) (salt : bytes) (r : AuditRecord) : AuditRecord :=
  if decide (names ids r) then
    MkAuditRecord (Audit_ID r) (Audit_ActorType r) (erase_id ids salt (Audit_ActorID r)) (Audit_Action r) (Audit_TargetType r)
      (erase_id ids salt (Audit_TargetID r)) (Audit_OccurredAt r) (scrubbed salt r) true
  else r.

(** *** Finding the records *)

Lemma chunks_elem {A} (n fuel : nat) (l : list A) x : (0 < n)%nat → (length l ≤ fuel)%nat → x ∈ l ↔ ∃ b, b ∈ chunks fuel n l ∧ x ∈ b.
Proof.
  intros Hn. revert l. induction fuel as [|fuel IH]; intros l Hl.
  - destruct l; [|simpl in Hl; lia]. simpl. split; [by intros ?%not_elem_of_nil|by intros (b & ?%not_elem_of_nil & _)].
  - destruct l as [|a l]; [simpl; split; [by intros ?%not_elem_of_nil|by intros (b & ?%not_elem_of_nil & _)]|].
    cbn [chunks]. set (l' := a :: l) in *. rewrite <- (take_drop n l') at 1. rewrite elem_of_app, (IH (drop n l')) by (rewrite length_drop; simpl in *; lia).
    split; [intros [H|(b & Hb & Hx)]|intros (b & [->|Hb]%elem_of_cons & Hx)].
    + exists (take n l'). split; [by left|done].
    + exists b. split; [by right|done].
    + by left.
    + right. eauto.
Qed.

Lemma batches_elem ids x : x ∈ ids ↔ ∃ b, b ∈ batches ids ∧ x ∈ b.
Proof. unfold batches. apply chunks_elem; [unfold maxPseudonymizeBatch; lia|done]. Qed.

Lemma names_batches ids r : names ids r ↔ ∃ b, b ∈ batches ids ∧ names b r.
Proof. unfold names. rewrite (batches_elem ids (Audit_ActorID r)), (batches_elem ids (Audit_TargetID r)). split.
  - intros [(b & Hb & H)|(b & Hb & H)]; exists b; auto.
  - intros (b & Hb & [H|H]); [left|right]; eauto.
Qed.

(** Records read more than once are kept once; none is lost. *)
Lemma add_new_elem d out recs r : keyed Audit_ID (audits d) → (∀ x, x ∈ out ++ recs → x ∈ rows (audits d)) →
  r ∈ add_new out recs ↔ r ∈ out ∨ r ∈ recs.
Proof.
  intros Hk. revert out. induction recs as [|a recs IH]; intros out Hin; simpl; [split; [by left|intros [?|?%not_elem_of_nil]; done]|]. unfold add_new in IH |- *. simpl.
  assert (a ∈ rows (audits d)) as Ha by (apply Hin, elem_of_app; right; by left).
  case_bool_decide as Hid.
  - rewrite IH by (intros x [Hx|Hx]%elem_of_app; apply Hin, elem_of_app; [by left|right; by right]).
    rewrite elem_of_cons. split; [tauto|]. intros [?|[->|?]]; [by left| |by right]. left.
    apply list_elem_of_fmap in Hid as (y & Ey & Hy). rewrite (keyed_eq Audit_ID (audits d) a y); try done. apply Hin, elem_of_app. by left.
  - rewrite IH.
    + rewrite elem_of_app, list_elem_of_singleton, elem_of_cons. tauto.
    + intros x [[Hx|Hx%list_elem_of_singleton]%elem_of_app|Hx]%elem_of_app; [apply Hin, elem_of_app; by left|by subst|apply Hin, elem_of_app; right; by right].
Qed.

Lemma erasure_loop_spec b bs out d : keyed Audit_ID (audits d) → (∀ x, x ∈ out → x ∈ rows (audits d)) →
  wp b (erasure_loop bs out) d (λ r d', d' = d ∧ ∀ recs, r = Ok recs →
    ∀ x, x ∈ recs ↔ x ∈ out ∨ x ∈ rows (audits d) ∧ ∃ ids, ids ∈ bs ∧ names ids x).
Proof.
  intros Hk. revert out. induction bs as [|ids bs IH]; intros out Hin; simpl.
  - wp_step. split; [done|]. intros recs [= <-] x. split; [by left|]. intros [?|(_ & ids & ?%not_elem_of_nil & _)]; done.
  - wp_step. wp_step; [done|]. set (recs := filter _ _).
    assert (∀ x, x ∈ out ++ recs → x ∈ rows (audits d)) as Hall.
    { intros x [Hx|Hx]%elem_of_app; [by apply Hin|]. by apply list_elem_of_filter in Hx as [_ Hx]. }
    eapply wp_mono; [apply IH|].
    + intros x. rewrite (add_new_elem d) by done. rewrite <- elem_of_app. apply Hall.
    + intros r d' [-> H]. split; [done|]. intros recs' Hr x. rewrite (H recs' Hr x), (add_new_elem d) by done.
      unfold recs. rewrite list_elem_of_filter. fold (names ids x). split.
      * intros [[?|[? ?]]|(? & ids' & ? & ?)]; [by left|right|right]; (split; [done|]); [exists ids|exists ids']; (split; [|done]); apply elem_of_cons; auto.
      * intros [?|(? & ids' & [->|?]%elem_of_cons & ?)]; [by left; left|by left; right|right; eauto].
Qed.

Lemma RecordsForErasure_spec b ids d : keyed Audit_ID (audits d) →
  wp b (audit_RecordsForErasure ids) d (λ r d', d' = d ∧ ∀ recs, r = Ok recs → ∀ x, x ∈ recs ↔ x ∈ rows (audits d) ∧ names ids x).
Proof.
  intros Hk. unfold audit_RecordsForErasure. wp_step.
  - wp_step. split; [done|]. intros recs [= <-] x. subst ids. split; [by intros ?%not_elem_of_nil|]. by intros [_ [?%not_elem_of_nil|?%not_elem_of_nil]].
  - eapply wp_mono; [apply erasure_loop_spec; [done|by intros x ?%not_elem_of_nil]|]. intros r d' [-> H]. split; [done|]. intros recs Hr x.
    rewrite (H _ Hr), names_batches. split; [by intros [?%not_elem_of_nil|?]|by right].
Qed.

(** *** Scrubbing their details *)

Lemma scrub_unchanged salt meta : (scrubDetails meta salt).2 = false → (scrubDetails meta salt).1 = meta.
Proof.
  simpl. intros H. apply map_eq. intros k. rewrite map_lookup_imap. destruct (meta !! k) as [v|] eqn:E; [|done]. simpl.
  destruct (scrubbable k v) eqn:Es; [|done]. exfalso. apply not_true_iff_false in H. apply H, existsb_exists. exists (k, v). split; [|done].
  apply list_elem_of_In. by apply elem_of_map_to_list.
Qed.

Lemma cons_other (id i : gostring) l : i ≠ id → i ∈ l ↔ i ∈ id :: l.
Proof. intros Hne. rewrite elem_of_cons. tauto. Qed.

Lemma scrub_loop_spec (b : bool) (F : gostring → gmap gostring gostring) us (n : Z) (d : db) :
  Forall (λ u, u.2 = F u.1) us →
  wp b (scrub_loop us n) d (λ r d', (∃ e, r = Err e) ∨
    ∃ t, d' = set_audits (λ _, t) d ∧ ∀ i, t !! i = if decide (i ∈ us.*1) then set_metadata (F i) <$> audits d !! i else audits d !! i).
Proof.
  revert n d. induction us as [|[id m] us IH]; intros n d Hus; cbn [scrub_loop].
  - wp_step. right. exists (audits d). split; [by destruct d|]. intros i. by rewrite decide_False by apply not_elem_of_nil.
  - apply Forall_cons in Hus as [Hm Hus]. simpl in Hm. subst m. wp_step; [wp_step; eauto|]. wp_step. wp_step; [eauto|].
    destruct (audits d !! id) as [r|] eqn:Er.
    + eapply wp_mono; [by apply IH|]. intros res d' [?|(t & -> & Ht)]; [by left|right]. exists t. split; [by destruct d|]. intros i. rewrite Ht. cbn [audits set_audits].
      destruct (decide (i = id)) as [->|Hne].
      * rewrite lookup_insert_eq, Er. assert (id ∈ ((id, F id) :: us).*1) by (rewrite fmap_cons; by left). repeat case_decide; done.
      * rewrite lookup_insert_ne by done. rewrite fmap_cons. by apply decide_ext, cons_other.
    + eapply wp_mono; [by apply IH|]. intros res d' [?|(t & -> & Ht)]; [by left|right]. exists t. split; [done|]. intros i. rewrite Ht.
      destruct (decide (i = id)) as [->|Hne]; [rewrite Er; repeat case_decide; done|]. rewrite fmap_cons. by apply decide_ext, cons_other.
Qed.

Definition scrub_row (ids : list gostring) (salt : bytes) (r : AuditRecord) : AuditRecord :=
  if decide (names ids r) then set_metadata (scrubbed salt r) r else r.

Lemma set_metadata_same r : set_metadata (Audit_Metadata r) r = r.
Proof. by destruct r. Qed.

Lemma scrub_updates_elem salt recs id m : (id, m) ∈ scrub_updates salt recs ↔
  ∃ r, r ∈ recs ∧ (scrubDetails (Audit_Metadata r) salt).2 = true ∧ id = Audit_ID r ∧ m = scrubbed salt r.
Proof.
  unfold scrub_updates. rewrite list_elem_of_omap. split.
  - intros (r & Hr & E). exists r. unfold scrubbed. destruct (scrubDetails (Audit_Metadata r) salt) as [m' []] eqn:Es; [|done]. by injection E as <- <-.
  - intros (r & Hr & Hc & -> & ->). exists r. split; [done|]. unfold scrubbed. destruct (scrubDetails (Audit_Metadata r) salt) as [m' []]; done.
Qed.

Lemma scrubbed_table ids salt recs d t : keyed Audit_ID (audits d) → (∀ x, x ∈ recs ↔ x ∈ rows (audits d) ∧ names ids x) →
  (∀ i, t !! i = if decide (i ∈ (scrub_updates salt recs).*1)
                 then set_metadata (match audits d !! i with Some r => scrubbed salt r | None => ∅ end) <$> audits d !! i else audits d !! i) →
  t = scrub_row ids salt <$> audits d.
Proof.
  intros Hk Hrecs Ht. apply map_eq. intros i. rewrite Ht, lookup_fmap. destruct (audits d !! i) as [r|] eqn:Er; [|by case_decide]. simpl.
  assert (i ∈ (scrub_updates salt recs).*1 ↔ names ids r ∧ (scrubDetails (Audit_Metadata r) salt).2 = true) as Hiff.
  { rewrite list_elem_of_fmap. split.
    - intros ([id m] & -> & (r' & [ [j Hr'']%elem_of_rows Hn]%Hrecs & Hc & E & _)%scrub_updates_elem). simpl in *. rewrite (Hk _ _ Hr'') in E. subst j. rewrite Er in Hr''. by injection Hr'' as <-.
    - intros [Hn Hc]. exists (i, scrubbed salt r). split; [done|]. apply scrub_updates_elem. exists r. rewrite (Hk _ _ Er). split_and!; try done.
      apply Hrecs. split; [apply elem_of_rows; eauto|done]. }
  unfold scrub_row. case_decide as Hd.
  - apply Hiff in Hd as [Hn _]. by rewrite decide_True.
  - case_decide as Hn; [|done]. destruct (scrubDetails (Audit_Metadata r) salt).2 eqn:Hc; [exfalso; apply Hd, Hiff; done|].
    unfold scrubbed. rewrite scrub_unchanged by done. by rewrite set_metadata_same.
Qed.

Lemma scrubMetadata_spec b ids salt d : keyed Audit_ID (audits d) →
  wp b (scrubMetadata ids salt) d (λ r d', (∃ e, r = Err e ∧ d' = d) ∨ r = Ok tt ∧ d' = set_audits (fmap (scrub_row ids salt)) d).
Proof.
  intros Hk. unfold scrubMetadata. wp_step. eapply wp_mono; [by apply RecordsForErasure_spec|]. intros [recs|e] ? [-> Hrecs]; [|eauto].
  specialize (Hrecs recs eq_refl). set (F := λ i, match audits d !! i with Some r => scrubbed salt r | None => ∅ end).
  assert (Forall (λ u, u.2 = F u.1) (scrub_updates salt recs)) as HF.
  { apply Forall_forall. intros [id m] (r & [ [j Hr]%elem_of_rows _]%Hrecs & _ & -> & ->)%scrub_updates_elem. unfold F. simpl. rewrite (Hk _ _ Hr). by rewrite Hr. }
  wp_step.
  - wp_step. right. split; [done|]. unfold set_audits. rewrite <- (scrubbed_table ids salt recs d (audits d) Hk Hrecs); [by destruct d|].
    intros i. rewrite decide_False; [done|]. rewrite e. apply not_elem_of_nil.
  - wp_step. unfold audit_ScrubMetadata. rewrite bool_decide_eq_false_2 by done. unfold withLocalTx. wp_step; [eauto|].
    eapply wp_mono; [by apply (scrub_loop_spec b F)|]. intros r d' [[e ->]|(t & -> & Ht)]; [eauto|].
    rewrite (scrubbed_table ids salt recs d t Hk Hrecs Ht). destruct r as [x|e]; [|eauto]. split; [wp_step; right; split; [done|by destruct d]|eauto].
Qed.

(** *** Rewriting the identifiers *)

Definition rewrite_row (salt : bytes) (ids : list gostring) (r : AuditRecord) : AuditRecord :=
  foldl (λ r id, pseudonymize_row [id] (Tombstone salt id) r) r ids.

Lemma wp_Pseudonymize_one b id p d Q :
  (∀ e, Q (Err e) d) → (∀ n, Q (Ok n) (set_audits (fmap (pseudonymize_row [id] p)) d)) → wp b (audit_Pseudonymize false [id] p) d Q.
Proof.
  intros He Ho. unfold audit_Pseudonymize. wp_step; [wp_step; apply He|]. destruct (bool_decide ([] ∈ [id])); [wp_step; apply He|].
  rewrite bool_decide_eq_false_2 by done. unfold withLocalTx. wp_step; [apply He|]. cbn. unfold pseudonymizeBatch. wp_step. wp_step; [apply He|]. wp_step. auto.
Qed.

Lemma rewrite_loop_spec b salt ids n d :
  wp b (rewrite_loop salt ids n) d (λ r d', ∃ m, (r = Ok (m, None) ∧ d' = set_audits (fmap (rewrite_row salt ids)) d) ∨
    (∃ e done, r = Ok (m, Some e) ∧ done `prefix_of` ids ∧ d' = set_audits (fmap (rewrite_row salt done)) d)).
Proof.
  assert (∀ d, set_audits (fmap (rewrite_row salt [])) d = d) as Hnil.
  { intros d0. unfold set_audits. rewrite map_fmap_id. by destruct d0. }
  revert n d. induction ids as [|id ids IH]; intros n d; cbn [rewrite_loop].
  - wp_step. exists n. left. by rewrite Hnil.
  - wp_step. apply wp_Pseudonymize_one.
    + intros e. wp_step. exists n. right. eexists _, []. split_and!; [done|apply prefix_nil|]. by rewrite Hnil.
    + intros k. eapply wp_mono; [apply IH|]. intros r d' [m Hm]. exists m.
      assert (∀ l, set_audits (fmap (rewrite_row salt l)) (set_audits (fmap (pseudonymize_row [id] (Tombstone salt id))) d) = set_audits (fmap (rewrite_row salt (id :: l))) d) as Hcomp.
      { intros l. unfold set_audits. simpl. f_equal. by rewrite <- map_fmap_compose. }
      destruct Hm as [[-> ->]|(e & dn & -> & Hp & ->)]; rewrite Hcomp; [by left|right]. exists e, (id :: dn). split_and!; try done. by apply prefix_cons.
Qed.

(** An identifier that does not itself read as a pseudonym. *)
Definition plain_id (i : gostring) : Prop := has_prefix tombstonePrefix i = false.

#[export] Instance plain_id_dec i : Decision (plain_id i).
Proof. unfold plain_id. apply _. Defined.

Lemma has_prefix_app p s : has_prefix p (p ++ s) = true.
Proof. induction p as [|a p IH]; simpl; [by destruct s|]. by rewrite bool_decide_eq_true_2, IH. Qed.

Lemma Tombstone_not_plain salt x : ¬ plain_id (Tombstone salt x).
Proof. unfold plain_id, Tombstone. by rewrite has_prefix_app. Qed.

Lemma pseudonymize_one_eq id p r :
  pseudonymize_row [id] p r = MkAuditRecord (Audit_ID r) (Audit_ActorType r) (if decide (Audit_ActorID r = id) then p else Audit_ActorID r) (Audit_Action r)
    (Audit_TargetType r) (if decide (Audit_TargetID r = id) then p else Audit_TargetID r) (Audit_OccurredAt r) (Audit_Metadata r)
    (if decide (names [id] r) then true else Audit_Pseudonymized r).
Proof.
  unfold pseudonymize_row, names. destruct (decide (Audit_ActorID r ∈ [id] ∨ Audit_TargetID r ∈ [id])) as [Hn|Hn].
  - rewrite (bool_decide_eq_true_2 _ Hn). clear Hn. destruct (decide (Audit_ActorID r = id)) as [Ha|Ha], (decide (Audit_TargetID r = id)) as [Ht|Ht];
      rewrite <- list_elem_of_singleton in Ha, Ht; rewrite ?(bool_decide_eq_true_2 _ Ha), ?(bool_decide_eq_false_2 _ Ha), ?(bool_decide_eq_true_2 _ Ht), ?(bool_decide_eq_false_2 _ Ht); done.
  - rewrite (bool_decide_eq_false_2 _ Hn). rewrite !list_elem_of_singleton in Hn. rewrite !decide_False by tauto. by destruct r.
Qed.

Lemma decide_or (P Q R : Prop) `{!Decision P, !Decision Q, !Decision R} (b : bool) : (R ↔ Q ∨ P) →
  (if decide P then true else if decide Q then true else b) = (if decide R then true else b).
Proof. intros H. repeat case_decide; tauto. Qed.

Lemma rewrite_row_eq salt ids r : Forall plain_id ids →
  rewrite_row salt ids r = MkAuditRecord (Audit_ID r) (Audit_ActorType r) (erase_id ids salt (Audit_ActorID r)) (Audit_Action r) (Audit_TargetType r)
    (erase_id ids salt (Audit_TargetID r)) (Audit_OccurredAt r) (Audit_Metadata r) (if decide (names ids r) then true else Audit_Pseudonymized r).
Proof.
  intros Hp. revert r. induction Hp as [|id ids Hid Hp IH]; intros r.
  - unfold erase_id, names. rewrite !decide_False by (rewrite ?elem_of_nil; tauto). by destruct r.
  - change (rewrite_row salt (id :: ids) r) with (rewrite_row salt ids (pseudonymize_row [id] (Tombstone salt id) r)). rewrite IH, pseudonymize_one_eq. simpl.
    assert (∀ x, erase_id ids salt (if decide (x = id) then Tombstone salt id else x) = erase_id (id :: ids) salt x) as He.
    { intros x. unfold erase_id. destruct (decide (x = id)) as [->|Hne].
      - rewrite decide_False; [by rewrite decide_True by (by left)|]. intros Hin. rewrite Forall_forall in Hp. by apply (Tombstone_not_plain salt id), Hp.
      - by apply decide_ext, cons_other. }
    rewrite !He. f_equal. unfold names. simpl.
    assert (∀ x, x ∈ id :: ids ↔ x ∈ [id] ∨ (if decide (x = id) then Tombstone salt id else x) ∈ ids) as Hin.
    { intros x. rewrite elem_of_cons, list_elem_of_singleton. case_decide; tauto. }
    apply decide_or. pose proof (Hin (Audit_ActorID r)). pose proof (Hin (Audit_TargetID r)). tauto.
Qed.

Lemma erase_row_eq ids salt r : Forall plain_id ids → rewrite_row salt ids (scrub_row ids salt r) = erase_row ids salt r.
Proof.
  intros Hp. rewrite rewrite_row_eq by done. unfold scrub_row, erase_row. destruct (decide (names ids r)) as [Hn|Hn]; simpl.
  - unfold names in *. simpl. by rewrite decide_True.
  - rewrite decide_False by done. unfold erase_id. rewrite !decide_False by (unfold names in Hn; tauto). by destruct r.
Qed.

(** *** The owner's identifiers *)

(** Rows of the owner, in any of the tables. *)
Definition owns (ownerID : gostring) (d : db) (x : gostring) : Prop :=
  (∃ h, h ∈ rows (handles d) ∧ Handle_OwnerID (hr_handle h) = ownerID ∧ Handle_ID (hr_handle h) = x) ∨
  (∃ v, v ∈ rows (devices d) ∧ Device_OwnerID v = ownerID ∧ Device_ID v = x) ∨
  (∃ k, k ∈ rows (pubkeys d) ∧ PublicKey_OwnerID k = ownerID ∧ PublicKey_ID k = x) ∨
  (∃ s, s ∈ rows (keysets d) ∧ KeySet_OwnerID s = ownerID ∧ KeySet_ID s = x) ∨
  (∃ k, k ∈ rows (accesskeys d) ∧ AccessKey_OwnerID k = ownerID ∧ AccessKey_ID k = x) ∨
  (∃ k, k ∈ rows (creds d) ∧ Cred_OwnerID k = ownerID ∧ Cred_ID k = x) ∨
  (∃ l, l ∈ rows (links d) ∧ Link_OwnerID l = ownerID ∧ Link_ID l = x) ∨
  (∃ p, p ∈ rows (pairings d) ∧ Pair_OwnerID p = ownerID ∧ Pair_ID p = x).

Lemma add_ids_elem ids out x : x ∈ foldl add_id out ids ↔ x ∈ out ∨ x ∈ ids ∧ x ≠ [].
Proof.
  revert out. induction ids as [|i ids IH]; intros out; simpl; [split; [by left|intros [?|[?%not_elem_of_nil _]]; done]|].
  rewrite IH, elem_of_cons. unfold add_id. destruct (decide (i = [])) as [->|Hi]; [rewrite bool_decide_eq_true_2 by done; simpl; split; [tauto|]; intros [?|[[->|?] ?]]; tauto|].
  rewrite (bool_decide_eq_false_2 _ Hi). simpl. case_bool_decide as Hin; [|rewrite elem_of_app, list_elem_of_singleton]; (split; [|intros [?|[[->|?] ?]]]; try tauto).
  intros [[?|Hx]|?]; [tauto|subst; tauto|tauto].
Qed.

Lemma wp_collectInto {A} b (m : stM conn (list A)) (f : db → list A) id table out d (Q : result (list gostring) → db → Prop) :
  wp b m d (λ r d', d' = d ∧ ∀ l, r = Ok l → l = f d) → (∀ e, Q (Err e) d) →
  (∀ out', (∀ x, x ∈ out' ↔ x ∈ out ∨ x ∈ id <$> f d ∧ x ≠ []) → Q (Ok out') d) → wp b (collectInto m id table out) d Q.
Proof.
  intros Hm He Ho. unfold collectInto. wp_step. eapply wp_mono; [exact Hm|]. intros [l|e] ? [-> Hl]; [|by wp_step]. wp_step. rewrite (Hl l eq_refl).
  apply Ho. intros x. apply add_ids_elem.
Qed.

Lemma wp_list {A} b (f : db → list A) d : wp b (query f) d (λ r d', d' = d ∧ ∀ l, r = Ok l → l = f d).
Proof. wp_step; [done|]. split; [done|]. intros l [= <-]. done. Qed.

(** What a listing of an owner's rows yields. *)
Lemma listed_rows {A} (le : A → A → bool) (id_of owner_of : A → gostring) ownerID (l : list A) x :
  x ∈ id_of <$> ordered_by le (filter (λ a, owner_of a = ownerID) l) ↔ ∃ a, a ∈ l ∧ owner_of a = ownerID ∧ id_of a = x.
Proof.
  rewrite list_elem_of_fmap. setoid_rewrite elem_of_ordered. setoid_rewrite list_elem_of_filter. split; intros (a & H).
  - exists a. destruct H as (-> & Ho & Ha). done.
  - exists a. destruct H as (Ha & Ho & <-). done.
Qed.

Lemma Collect_spec b ownerID d : wp b (Collect ownerID) d (λ r d', d' = d ∧
  ∀ ids, r = Ok ids → ownerID ≠ [] ∧ ∀ x, x ∈ ids ↔ x ≠ [] ∧ (x = ownerID ∨ owns ownerID d x)).
Proof.
  unfold Collect. wp_step; [by wp_step|].
  do 7 (wp_step; eapply wp_collectInto; [apply wp_list|done|]; intros ? ?). eapply wp_collectInto; [apply wp_list|done|]. intros ids Hids.
  split; [done|]. intros ids' [= <-]. split; [done|]. intros x.
  repeat match goal with H : ∀ x, x ∈ ?l ↔ _ |- context [_ ∈ ?l] => rewrite H end.
  unfold sets_of. rewrite !listed_rows. unfold add_id. rewrite (bool_decide_eq_false_2 (ownerID = [])) by done. simpl.
  rewrite list_elem_of_singleton.
  assert (x ∈ Pair_ID <$> ordered_by by_creation (filter (λ p, Pair_OwnerID p = ownerID ∧ ownerID ≠ []) (rows (pairings d))) ↔
    ∃ p, p ∈ rows (pairings d) ∧ Pair_OwnerID p = ownerID ∧ Pair_ID p = x) as ->.
  { rewrite <- (listed_rows by_creation). by rewrite (list_filter_iff (λ p, Pair_OwnerID p = ownerID ∧ ownerID ≠ []) (λ p, Pair_OwnerID p = ownerID)) by (intros; tauto). }
  assert ((∃ a, a ∈ hr_handle <$> handle_rows d ∧ Handle_OwnerID a = ownerID ∧ Handle_ID a = x) ↔
    ∃ h, h ∈ rows (handles d) ∧ Handle_OwnerID (hr_handle h) = ownerID ∧ Handle_ID (hr_handle h) = x) as ->.
  { unfold handle_rows. split; [intros (y & Hy & Hh2); apply list_elem_of_fmap in Hy as (h & -> & Hh); eauto|]. intros (h & Hh & Hh2). exists (hr_handle h). split; [apply list_elem_of_fmap; eauto|done]. }
  unfold owns. assert (x = ownerID → x ≠ []) by congruence. tauto.
Qed.

Lemma Ensure_spec b fresh ownerID d : wp b (salt_Ensure false fresh ownerID) d (λ r d',
  (∃ e, r = Err e ∧ d' = d) ∨
  (∃ salt, r = Ok salt ∧ salts d !! ownerID = Some salt ∧ d' = d) ∨
  (r = Ok fresh ∧ salts d !! ownerID = None ∧ d' = set_salts <[ownerID := fresh]> d)).
Proof.
  unfold salt_Ensure. wp_step; [wp_step; eauto|]. unfold withLocalTx. wp_step; [eauto|]. unfold ensureOwnerSalt, getOwnerSalt. wp_step.
  wp_step; [destruct (negb _); [wp_step; eauto|]; wp_step; wp_step; [destruct (errors_is _ ErrConflict); [wp_step; [eauto|]|wp_step; eauto]|]|].
  - destruct (salts d !! ownerID) eqn:Es; [|eauto]. split; [right; left; eauto|]. eauto.
  - destruct (salts d !! ownerID) as [salt|] eqn:Es; [|wp_step; split; eauto 6].
    simpl. wp_step; [eauto|]. rewrite Es. split; [right; left; eauto|eauto].
  - destruct (salts d !! ownerID) as [salt|] eqn:Es; [wp_step; split; [right; left; eauto|eauto]|]. simpl. wp_step.
    wp_step; [destruct (errors_is _ ErrConflict); [wp_step; [eauto|]; by rewrite Es; eauto|wp_step; eauto]|]. rewrite Es. wp_step. split; eauto 6.
Qed.

(** What an erasure keeps of every record: what happened, to which kind of thing, when,
    and the details that identify nobody. *)
Definition same_shape (r r' : AuditRecord) : Prop :=
  Audit_ID r' = Audit_ID r ∧ Audit_ActorType r' = Audit_ActorType r ∧ Audit_Action r' = Audit_Action r ∧ Audit_TargetType r' = Audit_TargetType r ∧
  Audit_OccurredAt r' = Audit_OccurredAt r ∧ ∀ k, IsErasableDetail k = false → Audit_Metadata r' !! k = Audit_Metadata r !! k.

Lemma same_shape_refl r : same_shape r r.
Proof. by split_and!. Qed.
Lemma same_shape_trans r1 r2 r3 : same_shape r1 r2 → same_shape r2 r3 → same_shape r1 r3.
Proof.
  intros (A1 & A2 & A3 & A4 & A5 & A6) (B1 & B2 & B3 & B4 & B5 & B6). split_and!; try congruence. intros k Hk. rewrite B6, A6 by done. done.
Qed.

Lemma scrubbed_lookup salt r k : scrubbed salt r !! k = (λ v, if scrubbable k v then Tombstone salt v else v) <$> Audit_Metadata r !! k.
Proof. unfold scrubbed, scrubDetails. simpl. rewrite map_lookup_imap. by destruct (Audit_Metadata r !! k). Qed.

Lemma scrubbed_kept salt r k : IsErasableDetail k = false → scrubbed salt r !! k = Audit_Metadata r !! k.
Proof.
  intros Hk. rewrite scrubbed_lookup. destruct (Audit_Metadata r !! k) as [v|]; [|done]. simpl. unfold scrubbable. rewrite Hk. simpl. by rewrite orb_true_r.
Qed.

(** What an identifier or a detail is replaced by: [anon:] and the keyed digest of the
    value under the owner's salt, in unpadded URL-safe base 64. *)
Definition pseudonym (salt : bytes) (x : gostring) : gostring := go "anon:" ++ rawurl_b64 (hmac_sha256 salt x).

(** A value that is a pseudonym already: the prefix alone does not make it one. *)
Definition reads_as_pseudonym (v : gostring) : Prop :=
  ∃ enc raw, v = go "anon:" ++ enc ∧ rawurl_decode enc = Some raw ∧ len raw = 32.

Lemma isTombstone_iff v : isTombstone v = true ↔ reads_as_pseudonym v.
Proof.
  unfold isTombstone, reads_as_pseudonym. split.
  - destruct (cut_prefix tombstonePrefix v) as [rest|] eqn:Ec; [|done]. apply cut_prefix_sound in Ec.
    destruct (rawurl_decode rest) as [raw|] eqn:Er; [|done]. intros Hl%Z.eqb_eq. by exists rest, raw.
  - intros (enc & raw & -> & Hr & Hl). change (go "anon:") with tombstonePrefix. rewrite cut_prefix_app, Hr. by apply Z.eqb_eq.
Qed.

(** A detail that identifies someone is replaced, unless it is empty or a pseudonym
    already; the others are left. *)
Lemma scrubbed_exact salt r k v : Audit_Metadata r !! k = Some v →
  (IsErasableDetail k = true → v ≠ [] → ¬ reads_as_pseudonym v → scrubbed salt r !! k = Some (pseudonym salt v)) ∧
  (IsErasableDetail k = false ∨ v = [] ∨ reads_as_pseudonym v → scrubbed salt r !! k = Some v).
Proof.
  intros Hv. rewrite scrubbed_lookup, Hv. simpl. unfold scrubbable. rewrite <- isTombstone_iff. split.
  - intros -> Hne Hp%not_true_iff_false. by rewrite (bool_decide_eq_false_2 _ Hne), Hp.
  - intros [-> | [-> | ->]]; simpl; rewrite ?orb_true_r; done.
Qed.

(** The rows an interrupted erasure leaves: each value is as it was or the pseudonym the
    complete erasure gives it. *)
Definition part_erased (salt : bytes) (r r' : AuditRecord) : Prop :=
  same_shape r r' ∧ (Audit_ActorID r' = Audit_ActorID r ∨ Audit_ActorID r' = pseudonym salt (Audit_ActorID r)) ∧
  (Audit_TargetID r' = Audit_TargetID r ∨ Audit_TargetID r' = pseudonym salt (Audit_TargetID r)) ∧
  ∀ k, Audit_Metadata r' !! k = Audit_Metadata r !! k ∨
    ∃ v, Audit_Metadata r !! k = Some v ∧ Audit_Metadata r' !! k = Some (pseudonym salt v).

Lemma part_erased_refl salt r : part_erased salt r r.
Proof. split_and!; [apply same_shape_refl|by left..|by left]. Qed.

Lemma scrub_row_shape ids salt r : same_shape r (scrub_row ids salt r).
Proof. unfold scrub_row. case_decide; [|apply same_shape_refl]. split_and!; try done. intros k. apply scrubbed_kept. Qed.

Lemma rewrite_row_shape salt ids r : same_shape r (rewrite_row salt ids r).
Proof.
  revert r. induction ids as [|id ids IH]; intros r; [apply same_shape_refl|]. eapply same_shape_trans; [|apply IH]. rewrite pseudonymize_one_eq. by split_and!.
Qed.

Lemma part_erased_row salt ids dn r : Forall plain_id ids → dn `prefix_of` ids → part_erased salt r (rewrite_row salt dn (scrub_row ids salt r)).
Proof.
  intros Hp [rest ->]. apply Forall_app in Hp as [Hp _].
  split; [eapply same_shape_trans; [apply scrub_row_shape|apply rewrite_row_shape]|]. rewrite rewrite_row_eq by done. cbn [Audit_ActorID Audit_TargetID Audit_Metadata].
  assert (∀ x, erase_id dn salt x = x ∨ erase_id dn salt x = pseudonym salt x) as He by (intros x; unfold erase_id; case_decide; auto).
  unfold scrub_row. case_decide; simpl; split_and!; auto. intros k. rewrite scrubbed_lookup.
  destruct (Audit_Metadata r !! k) as [v|]; simpl; [|by left]. destruct (scrubbable k v); [right; by exists v|by left].
Qed.

(** Only the log and the salts change. *)
Definition log_and_salts (d d' : db) : Prop := d' = set_salts (λ _, salts d') (set_audits (λ _, audits d') d).

(** A salt is never replaced: it is kept, or made where there was none. *)
Definition salt_kept (fresh : bytes) (ownerID : gostring) (d d' : db) : Prop :=
  salts d' = salts d ∨ (salts d !! ownerID = None ∧ salts d' = <[ownerID := fresh]> (salts d)).

(** Everything is done, or the run stopped early: records only change to what a retry
    under the same salt would make of them. *)
Definition eraser_post (fresh : bytes) (ownerID : gostring) (ids : list gostring) (d : db) (r : result (Z * option goerror)) (d' : db) : Prop :=
  ∃ n err, r = Ok (n, err) ∧
    ((err = None ∧ d' = set_salts (delete ownerID) (set_audits (fmap (erase_row ids (default fresh (salts d !! ownerID)))) d)) ∨
     (is_Some err ∧ log_and_salts d d' ∧ salt_kept fresh ownerID d d' ∧ ∃ f, (∀ r, part_erased (default fresh (salts d !! ownerID)) r (f r)) ∧
        audits d' = f <$> audits d ∧ (audits d' = audits d ∨ salts d' !! ownerID = Some (default fresh (salts d !! ownerID))))).

Lemma Eraser_spec b fresh ownerID ids d : keyed Audit_ID (audits d) → Forall plain_id ids →
  wp b (Eraser_EraseOwner fresh ownerID ids) d (eraser_post fresh ownerID ids d).
Proof.
  intros Hk Hp. unfold Eraser_EraseOwner. set (salt := default fresh (salts d !! ownerID)).
  assert (∀ d1 n e, d1 = d ∨ (salts d !! ownerID = None ∧ d1 = set_salts <[ownerID := fresh]> d) → eraser_post fresh ownerID ids d (Ok (n, Some e)) d1) as Hstop.
  { intros d1 n e Hd. exists n, (Some e). split; [done|]. right.
    split_and!; [eauto|unfold log_and_salts; destruct Hd as [-> | [_ ->]]; by destruct d|destruct Hd as [-> | [? ->]]; [by left|by right]|].
    exists (λ r, r). split_and!; [apply part_erased_refl|..]; destruct Hd as [-> | [_ ->]]; simpl; rewrite ?map_fmap_id; auto. }
  wp_step; [wp_step; apply Hstop; auto|]. wp_step. eapply wp_mono; [apply Ensure_spec|].
  intros r d1 Hr. assert ((∃ e, r = Err e ∧ d1 = d) ∨
    (r = Ok salt ∧ (d1 = d ∨ (salts d !! ownerID = None ∧ d1 = set_salts <[ownerID := fresh]> d)) ∧ salts d1 !! ownerID = Some salt ∧ delete ownerID (salts d1) = delete ownerID (salts d))) as Hr'.
  { unfold salt. destruct Hr as [(e & -> & ->)|[(s & -> & Hs & ->)|(-> & Hs & ->)]]; [eauto|right|right]; rewrite Hs; simpl; split_and!; auto;
      [by rewrite lookup_insert_eq|by rewrite delete_insert_eq]. }
  clear Hr. destruct Hr' as [(e & -> & ->)|(-> & Hd1 & Hsalt & Hdel)]; [wp_step; apply Hstop; auto|].
  assert (audits d1 = audits d) as Haud by (by destruct Hd1 as [-> | [_ ->]]).
  assert (∀ f n e, (∀ r, part_erased salt r (f r)) → eraser_post fresh ownerID ids d (Ok (n, Some e)) (set_audits (fmap f) d1)) as Hpart.
  { intros f k e Hf. exists k, (Some e). split; [done|]. right.
    split_and!; [eauto|unfold log_and_salts; destruct Hd1 as [-> | [_ ->]]; by destruct d|destruct Hd1 as [-> | [? ->]]; [by left|by right]|].
    exists f. split_and!; [done|simpl; by rewrite Haud|by right]. }
  assert (∀ f g, set_audits (fmap g) (set_audits (fmap f) d1) = set_audits (fmap (g ∘ f)) d1) as Hcomp
    by (intros; unfold set_audits; simpl; by rewrite map_fmap_compose).
  wp_step. eapply wp_mono; [apply scrubMetadata_spec; by rewrite Haud|]. intros r d2 [(e & -> & ->)|[-> ->]]; [wp_step; apply Hstop; auto|].
  wp_step. eapply wp_mono; [apply rewrite_loop_spec|]. intros r d3 [m [[-> ->]|(e & dn & -> & Hdn & ->)]]; rewrite Hcomp.
  - wp_step. unfold salt_Destroy. wp_step. wp_step.
    + wp_step. apply Hpart. intros r. by apply part_erased_row.
    + wp_step. wp_step. exists m, None. split; [done|]. left. split; [done|].
      assert ((rewrite_row salt ids ∘ scrub_row ids salt) <$> audits d1 = erase_row ids salt <$> audits d) as E.
      { rewrite Haud. apply map_fmap_ext. intros i r _. simpl. by apply erase_row_eq. }
      unfold set_salts, set_audits. simpl. rewrite E, Hdel. by destruct Hd1 as [-> | [_ ->]].
  - wp_step. apply Hpart. intros r. by apply part_erased_row.
Qed.

(** ** Theorems *)

Section theorems.
Context {U : UnicodeData}.

(** The identifiers that stand for the owner: its own and those of its rows. *)
Definition identifies (ownerID : gostring) (d : db) (x : gostring) : Prop := x ≠ [] ∧ (x = ownerID ∨ owns ownerID d x).

Definition identified (ownerID : gostring) (d : db) (r : AuditRecord) : Prop :=
  identifies ownerID d (Audit_ActorID r) ∨ identifies ownerID d (Audit_TargetID r).

(** The outcome of an erasure, with the identifiers it collected. *)
Definition owner_post (fresh : bytes) (st : stamp) (ownerID : gostring) (d : db) (r : result (Z * option goerror)) (d' : db) : Prop :=
  ∃ n err, r = Ok (n, err) ∧
    ((err = None ∧ ∃ ids, (∀ x, x ∈ ids ↔ identifies ownerID d x) ∧ Forall plain_id ids ∧ audits d !! stamp_id st = None ∧
        d' = set_salts (delete ownerID) (set_audits (λ t, erase_row ids (default fresh (salts d !! ownerID)) <$>
          <[stamp_id st := emitted st (owner_erased_event ownerID)]> t) d)) ∨
     (is_Some err ∧ log_and_salts d d' ∧ salt_kept fresh ownerID d d' ∧
        ∀ i rec, audits d !! i = Some rec → ∃ rec', audits d' !! i = Some rec' ∧ part_erased (default fresh (salts d !! ownerID)) rec rec' ∧
          (rec' = rec ∨ salts d' !! ownerID = Some (default fresh (salts d !! ownerID))))).

Lemma owner_erasure_outcome fresh st ownerID c r c' :
  keyed Audit_ID (audits (data c)) → (∀ x, identifies ownerID (data c) x → plain_id x) →
  OwnerEraser_EraseOwner fresh st ownerID c = (r, c') → owner_post fresh st ownerID (data c) r (data c').
Proof.
  intros Hk Hplain E. refine (wp_run false _ (data c) _ _ _ _ _ eq_refl ltac:(done) E). clear E. unfold OwnerEraser_EraseOwner.
  assert (∀ e n, owner_post fresh st ownerID (data c) (Ok (n, Some e)) (data c)) as Hstop.
  { intros e n. exists n, (Some e). split; [done|]. right. split_and!; [eauto|unfold log_and_salts; by destruct (data c)|by left|].
    intros i rec Hrec. exists rec. split_and!; [done|apply part_erased_refl|by left]. }
  wp_step; [wp_step; apply Hstop|]. wp_step. eapply wp_mono; [apply Collect_spec|]. intros [ids|e] ? [-> Hids]; [|wp_step; apply Hstop].
  destruct (Hids ids eq_refl) as [_ Hin]. clear Hids.
  assert (Forall plain_id ids) as Hpl by (apply Forall_forall; intros x Hx; apply Hplain; by apply Hin).
  wp_step. unfold record_erasure. wp_step. apply wp_Emit; [intros e; wp_step; wp_step; apply Hstop|]. intros Hf _ _. wp_step.
  eapply wp_mono; [apply Eraser_spec; [|done]|].
  { simpl. intros i rec [[<- <-]|[_ Hrec]]%lookup_insert_Some; [done|by apply Hk]. }
  intros r' d' (cnt & err & -> & [[-> ->]|(He & Hfr & Hs & f & Hf' & Haud & Hsalt)]).
  - exists cnt, None. split; [done|]. left. split; [done|]. exists ids. split_and!; done.
  - exists cnt, err. split; [done|]. right. split_and!; [done|exact Hfr|exact Hs|]. intros i rec Hrec. exists (f rec).
    assert (audits d' !! i = Some (f rec)) as Hi by (rewrite Haud, lookup_fmap; simpl; rewrite lookup_insert_ne by congruence; by rewrite Hrec).
    split_and!; [done|apply Hf'|]. destruct Hsalt as [Hsame|]; [left|by right].
    rewrite Hsame in Hi. simpl in Hi. rewrite lookup_insert_ne in Hi by congruence. congruence.
Qed.

(** What a record of the log becomes, [salt] being the salt the erasure works with: its
    actor and target are replaced where they identify the owner, and if either does,
    every detail that can identify someone. *)
Definition erased_record (salt : bytes) (ownerID : gostring) (d : db) (rec rec' : AuditRecord) : Prop :=
  same_shape rec rec' ∧
  (¬ identified ownerID d rec → rec' = rec) ∧
  (identified ownerID d rec →
     (identifies ownerID d (Audit_ActorID rec) → Audit_ActorID rec' = pseudonym salt (Audit_ActorID rec)) ∧
     (¬ identifies ownerID d (Audit_ActorID rec) → Audit_ActorID rec' = Audit_ActorID rec) ∧
     (identifies ownerID d (Audit_TargetID rec) → Audit_TargetID rec' = pseudonym salt (Audit_TargetID rec)) ∧
     (¬ identifies ownerID d (Audit_TargetID rec) → Audit_TargetID rec' = Audit_TargetID rec) ∧
     dom (Audit_Metadata rec') = dom (Audit_Metadata rec) ∧
     ∀ k v, Audit_Metadata rec !! k = Some v →
       (IsErasableDetail k = true → v ≠ [] → ¬ reads_as_pseudonym v → Audit_Metadata rec' !! k = Some (pseudonym salt v)) ∧
       (IsErasableDetail k = false ∨ v = [] ∨ reads_as_pseudonym v → Audit_Metadata rec' !! k = Some v)).

Lemma erase_row_record salt ownerID d ids rec : (∀ x, x ∈ ids ↔ identifies ownerID d x) → Forall plain_id ids →
  erased_record salt ownerID d rec (erase_row ids salt rec).
Proof.
  intros Hin Hpl. assert (names ids rec ↔ identified ownerID d rec) as Hn by (unfold names, identified; by rewrite !Hin). split_and!.
  - rewrite <- erase_row_eq by done. eapply same_shape_trans; [apply scrub_row_shape|apply rewrite_row_shape].
  - intros Hno. unfold erase_row. by rewrite decide_False by (by rewrite Hn).
  - intros Hyes. unfold erase_row. rewrite decide_True by (by apply Hn). cbn [Audit_ActorID Audit_TargetID Audit_Metadata]. unfold erase_id.
    rewrite <- !Hin. split_and!; try (intros ?; by rewrite ?decide_True, ?decide_False by done).
    + apply set_eq. intros k. rewrite !elem_of_dom, scrubbed_lookup, fmap_is_Some. done.
    + intros k v. apply scrubbed_exact.
Qed.

(** C22. A successful erasure leaves no trace of the owner's present rows.  Afterwards no
    record in the log has the owner's identifier, or that of any row the owner had when
    the erasure began, as its actor or target: each such identifier has become [anon:] and
    its HMAC-SHA-256 under the owner's salt, in unpadded URL base 64, and so has, in those
    records, every detail that can identify someone, unless it is empty or already of
    that form; what happened, when and to which kind of thing is kept, records that did
    not concern the owner are untouched, one record of the erasure is added, and the
    owner's salt, which could link the pseudonyms back, is gone, the salts of the others
    are not.  When anything fails no salt is replaced -- the owner's is as it was, or
    was made where there was none -- and each record is there, each of its values as it
    was or replaced by the pseudonym under the salt that is still stored, so that a
    retry gives the same pseudonyms.  No other table changes.  Rows deleted before are
    not found: [erasure_misses_deleted_sets]. *)
Theorem owner_erasure_complete fresh st ownerID c r c' :
  keyed Audit_ID (audits (data c)) → (∀ x, identifies ownerID (data c) x → plain_id x) →
  OwnerEraser_EraseOwner fresh st ownerID c = (r, c') →
  let salt := default fresh (salts (data c) !! ownerID) in
  ∃ n err, r = Ok (n, err) ∧ log_and_salts (data c) (data c') ∧
    (err = None →
       salts (data c') = delete ownerID (salts (data c)) ∧
       (∀ i rec x, audits (data c') !! i = Some rec → identifies ownerID (data c) x → Audit_ActorID rec ≠ x ∧ Audit_TargetID rec ≠ x) ∧
       (∀ i rec, audits (data c) !! i = Some rec → ∃ rec', audits (data c') !! i = Some rec' ∧ erased_record salt ownerID (data c) rec rec') ∧
       audits (data c) !! stamp_id st = None ∧
       ∀ i rec', audits (data c) !! i = None → audits (data c') !! i = Some rec' →
         i = stamp_id st ∧ Audit_Action rec' = go "owner.erased" ∧ Audit_TargetID rec' = pseudonym salt ownerID) ∧
    (is_Some err →
       (salts (data c') = salts (data c) ∨ (salts (data c) !! ownerID = None ∧ salts (data c') = <[ownerID := fresh]> (salts (data c)))) ∧
       ∀ i rec, audits (data c) !! i = Some rec → ∃ rec', audits (data c') !! i = Some rec' ∧ part_erased salt rec rec' ∧
         (rec' = rec ∨ salts (data c') !! ownerID = Some salt)).
Proof.
  intros Hk Hplain E salt. destruct (owner_erasure_outcome _ _ _ _ _ _ Hk Hplain E) as (n & err & -> & Hout). exists n, err. split; [done|].
  destruct Hout as [[-> (ids & Hin & Hpl & Hst & Hd)]|(He & Hfr & Hs & Hshape)]; [|split_and!; [done|intros ->; by destruct He|done]].
  split; [rewrite Hd; unfold log_and_salts; by destruct (data c)|]. split; [intros _|by intros [? ?]]. fold salt in Hd.
  rewrite Hd. split_and!; simpl; [done| | |done|].
  - intros i rec x Hrec Hx. rewrite lookup_fmap in Hrec. destruct (<[stamp_id st := _]> (audits (data c)) !! i) as [rec0|]; [|done]. injection Hrec as <-.
    assert (x ∈ ids) as Hxi by (by apply Hin). assert (plain_id x) as Hpx by (by apply Hplain).
    assert (∀ y, erase_id ids salt y ≠ x) as Hne.
    { intros y. unfold erase_id. case_decide as Hy; intros Ey; [|by subst]. apply (Tombstone_not_plain salt y). by rewrite Ey. }
    unfold erase_row. case_decide as Hnm; simpl; [split; apply Hne|]. unfold names in Hnm. split; intros Ey; rewrite Ey in Hnm; tauto.
  - intros i rec Hrec. exists (erase_row ids salt rec). split; [|by apply erase_row_record].
    rewrite lookup_fmap, lookup_insert_ne by congruence. by rewrite Hrec.
  - intros i rec' Hi. rewrite lookup_fmap. destruct (decide (stamp_id st = i)) as [<-|Hne]; [|rewrite lookup_insert_ne, Hi by done; done].
    rewrite lookup_insert_eq. intros [= <-]. split; [done|].
    destruct (decide (ownerID = [])) as [->|Hown].
    { unfold OwnerEraser_EraseOwner in E. rewrite bool_decide_eq_true_2 in E by done. discriminate. }
    destruct (erase_row_record salt _ _ _ (emitted st (owner_erased_event ownerID)) Hin Hpl) as ((_ & _ & Ha & _) & _ & Hyes).
    rewrite Ha. split; [done|]. apply Hyes; [right|]; (split; [done|by left]).
Qed.

(** An erasure cannot find what was deleted before it: the record of a deleted key
    set still has the set's identifier as its target after the erasure of its owner has
    succeeded, because identifiers are collected from rows, and the row is gone. *)
Theorem erasure_misses_deleted_sets `{!UnicodeFold} st ownerID id confirm requestID c c1 fresh st2 n c2 :
  catalog_ok (data c) → keyed Audit_ID (audits (data c)) →
  ks_Delete st ownerID id confirm requestID c = (Ok tt, c1) →
  (∀ x, identifies ownerID (data c1) x → plain_id x) → ¬ identifies ownerID (data c1) id →
  OwnerEraser_EraseOwner fresh st2 ownerID c1 = (Ok (n, None), c2) →
  ∃ rec, audits (data c2) !! stamp_id st = Some rec ∧ Audit_TargetID rec = id ∧ has_prefix tombstonePrefix (Audit_ActorID rec) = true.
Proof.
  intros Hok Hk Hdel Hplain Hid Herase.
  pose proof (wp_run false _ _ _ _ _ _ (Delete_spec false st ownerID id confirm requestID _) eq_refl ltac:(done) Hdel) as HD.
  destruct HD as [(e & ? & _)|(set & details & _ & Ho & _ & _ & _ & _ & [ [_ E]|(e & ? & _)])]; [done| |done].
  assert (ownerID ≠ []) as Hne. { intros ->. unfold ks_Delete in Hdel. rewrite bool_decide_eq_true_2 in Hdel by done. discriminate. }
  assert (audits (data c1) !! stamp_id st = Some (emitted st (set_event ownerID (go "key_set.deleted") id details))) as Hrec
    by (rewrite E; apply lookup_insert_eq).
  assert (keyed Audit_ID (audits (data c1))) as Hk1.
  { rewrite E. intros i r Hr. cbn in Hr. apply lookup_insert_Some in Hr as [ [<- <-]|[_ Hr]]; [done|by apply Hk]. }
  destruct (owner_erasure_outcome _ _ _ _ _ _ Hk1 Hplain Herase) as (n' & err & [= <- <-] & [[_ (ids & Hin & _ & Hst & Hd)]|[ [? ?] _]]); [|done].
  eexists. rewrite Hd. split; [|split].
  - cbn [set_salts set_audits audits]. rewrite lookup_fmap, lookup_insert_ne by congruence. rewrite Hrec. reflexivity.
  - unfold erase_row. case_decide; [|done]. cbn [Audit_TargetID emitted]. unfold erase_id. rewrite decide_False; [done|]. by rewrite Hin.
  - assert (ownerID ∈ ids) as Hown by (apply Hin; split; [done|by left]).
    unfold erase_row. rewrite decide_True by (by left). cbn [Audit_ActorID emitted set_event Ev_ActorID]. unfold erase_id. rewrite decide_True by done. apply has_prefix_app.
Qed.
End theorems.

(** ** Evaluating *)

Module ErasureSample.
#[export] Existing Instance AkSample.ascii_only.
#[export] Existing Instance FoldSample.plain.
Definition st (n : string) : stamp := MkStamp (go n) 0.
Definition salt : bytes := go "0123456789abcdef0123456789abcdef".
(** A minted access key, its record in the log, and the owner erased. *)
Definition erased := OwnerEraser_EraseOwner salt (st "e1") (go "o") KsSample.minted.
(** A deleted set, and the owner erased. *)
Definition erased_late := OwnerEraser_EraseOwner salt (st "e1") (go "o") (snd KsSample.deleted).
(** A purge of two of three records. *)
Definition purger : Purger := MkPurger 10 1 2.
Definition purge := PurgeOnce purger 19 [] (snd LogSample.c3).
Definition passed := pass purger true 19 19 (st "p1") [] (snd LogSample.c3).

Lemma log_keyed : keyed Audit_ID (audits (data (snd LogSample.c3))).
Proof.
  rewrite LogSample.three. intros i r Hr. repeat (apply lookup_insert_Some in Hr as [[<- <-]|[_ Hr]]; [reflexivity|]).
  apply lookup_singleton_Some in Hr as [<- <-]. reflexivity.
Qed.

(** Identifiers of a store, listed, to decide facts about them. *)
Definition all_ids (d : db) : list gostring :=
  (Handle_ID ∘ hr_handle <$> rows (handles d)) ++ (Device_ID <$> rows (devices d)) ++ (PublicKey_ID <$> rows (pubkeys d)) ++ (KeySet_ID <$> rows (keysets d)) ++
  (AccessKey_ID <$> rows (accesskeys d)) ++ (Cred_ID <$> rows (creds d)) ++ (Link_ID <$> rows (links d)) ++ (Pair_ID <$> rows (pairings d)).

Lemma identifies_listed o d x : identifies o d x → x = o ∨ x ∈ all_ids d.
Proof.
  intros [_ [?|H]]; [by left|right]. unfold all_ids. rewrite !elem_of_app, !list_elem_of_fmap.
  destruct H as [(h & Hh & _ & <-)|[(h & Hh & _ & <-)|[(h & Hh & _ & <-)|[(h & Hh & _ & <-)|[(h & Hh & _ & <-)|[(h & Hh & _ & <-)|[(h & Hh & _ & <-)|(h & Hh & _ & <-)]]]]]]];
    eauto 12.
Qed.
End ErasureSample.
#[local] Existing Instance AkSample.ascii_only.
#[local] Existing Instance FoldSample.plain.

Lemma PurgeOnce_exact_witness : fst ErasureSample.purge = Ok (Some (2, None)) ∧ (length (aged 9 (data (snd LogSample.c3))) = 3)%nat ∧
  Z.of_nat 2 = Z.min 2 3 ∧ faults (snd LogSample.c3) = [].
Proof.
  assert (fst ErasureSample.purge = Ok (Some (2, None))) as Hr by (vm_compute; reflexivity).
  assert (length (aged 9 (data (snd LogSample.c3))) = 3%nat) as Hl by (vm_compute; reflexivity).
  destruct (PurgeOnce_exact ErasureSample.purger 19 [] (snd LogSample.c3) (fst ErasureSample.purge) (snd ErasureSample.purge) ErasureSample.log_keyed)
    as (total & err & E & _ & _ & _ & _ & Hn & _); [reflexivity|reflexivity|unfold ErasureSample.purge; apply surjective_pairing|].
  rewrite Hr in E. injection E as Et <-. specialize (Hn eq_refl).
  change (Cutoff ErasureSample.purger 19) with 9 in Hn. rewrite Hl, <- Et in Hn.
  split; [exact Hr|]. split; [exact Hl|]. split; [exact Hn|]. vm_compute. reflexivity.
Defined.

Lemma purge_pass_never_recorded_witness : ∃ logged, fst ErasureSample.passed = Ok (Some (2, None), Some logged).
Proof.
  assert (match fst ErasureSample.passed with Ok (Some (2, None), _) => True | _ => False end) as H by (vm_compute; exact I).
  destruct ErasureSample.passed as [[[[[d err]|] logged]|] c'] eqn:E; simpl in H |- *; try (exfalso; exact H).
  unfold ErasureSample.passed in E. destruct (purge_pass_never_recorded _ _ _ _ _ _ _ _ _ E) as [ [e ->] _].
  - simpl. destruct d as [|[p|[p|p|]|]|]; try (exfalso; exact H). reflexivity.
  - exists e. destruct d as [|[p|[p|p|]|]|]; try (exfalso; exact H). destruct err; [exfalso; exact H|reflexivity].
Defined.

Lemma owner_erasure_complete_witness : (∃ n, fst ErasureSample.erased = Ok (n, None)) ∧
  ∀ i rec, audits (data (snd ErasureSample.erased)) !! i = Some rec → Audit_ActorID rec ≠ go "o" ∧ Audit_TargetID rec ≠ go "o".
Proof.
  assert (match fst ErasureSample.erased with Ok (_, None) => True | _ => False end) as H by (vm_compute; exact I).
  assert (keyed Audit_ID (audits (data KsSample.minted))) as Hk.
  { assert (map_Forall (λ id r, Audit_ID r = id) (audits (data KsSample.minted))) as Hf by (apply (bool_decide_unpack _); vm_compute; exact I).
    intros id r Hr. exact (Hf id r Hr). }
  assert (Forall plain_id (go "o" :: ErasureSample.all_ids (data KsSample.minted))) as Hp by (apply (bool_decide_unpack _); vm_compute; exact I).
  destruct (owner_erasure_complete ErasureSample.salt (ErasureSample.st "e1") (go "o") KsSample.minted (fst ErasureSample.erased) (snd ErasureSample.erased) Hk)
    as (n & err & E & _ & Hs & _).
  - intros x [->|Hx]%ErasureSample.identifies_listed; [exact (Forall_inv Hp)|]. apply Forall_inv_tail in Hp. rewrite Forall_forall in Hp. exact (Hp x Hx).
  - unfold ErasureSample.erased. apply surjective_pairing.
  - rewrite E in H. destruct err; [exfalso; exact H|]. destruct (Hs eq_refl) as (_ & Hno & _). split; [exists n; exact E|].
    intros i rec Hrec. apply (Hno i rec (go "o") Hrec). split; [discriminate|left; reflexivity].
Defined.

Lemma erasure_misses_deleted_sets_witness : ∃ rec, audits (data (snd ErasureSample.erased_late)) !! go "a3" = Some rec ∧ Audit_TargetID rec = go "s2".
Proof.
  assert (match fst ErasureSample.erased_late with Ok (_, None) => True | _ => False end) as H by (vm_compute; exact I).
  assert (fst KsSample.deleted = Ok tt) as Hd by (vm_compute; reflexivity).
  assert (Forall plain_id (go "o" :: ErasureSample.all_ids (data (snd KsSample.deleted)))) as Hp by (apply (bool_decide_unpack _); vm_compute; exact I).
  assert (go "s2" ∉ go "o" :: ErasureSample.all_ids (data (snd KsSample.deleted))) as Hn by (apply (bool_decide_unpack _); vm_compute; exact I).
  assert (∃ n, ErasureSample.erased_late = (Ok (n, None), snd ErasureSample.erased_late)) as [n E].
  { destruct ErasureSample.erased_late as [[[n [e|]]|] c'] eqn:E; simpl in H |- *; try (exfalso; exact H). exists n. reflexivity. }
  unfold ErasureSample.erased_late in E at 1.
  destruct (erasure_misses_deleted_sets (KsSample.st "a3") (go "o") (go "s2") false [] (snd KsSample.created) (snd KsSample.deleted)
    ErasureSample.salt (ErasureSample.st "e1") n (snd ErasureSample.erased_late) KsSample.created_ok) as (rec & Hrec & Ht & _).
  - assert (map_Forall (λ id r, Audit_ID r = id) (audits (data (snd KsSample.created)))) as Hf by (apply (bool_decide_unpack _); vm_compute; exact I).
    intros id r Hr. exact (Hf id r Hr).
  - rewrite <- Hd. unfold KsSample.deleted. apply surjective_pairing.
  - intros x [->|Hx]%ErasureSample.identifies_listed; [exact (Forall_inv Hp)|]. apply Forall_inv_tail in Hp. rewrite Forall_forall in Hp. exact (Hp x Hx).
  - intros Hx. apply Hn. apply ErasureSample.identifies_listed in Hx as [->|Hx]; [left|right; exact Hx].
  - exact E.
  - exists rec. split; [exact Hrec|exact Ht].
Defined.
