(* ===== verification/Administrators.v ===== *)
(** * Administrators

    [internal/auth/admintoken.go], the signed bearer tokens of administrators, and the
    statements of [internal/storage/sqlite/admin.go] and [listoverride.go], the tables of
    administrators and of their edits to the name lists. *)

From stdpp Require Import sorting.
From S2P Require Import Prelude DomainErrors GoLib GoJson Domain Sha256 Tokens Database StoreLogic KeyRepos.

Open Scope Z_scope.

(** ** Admin tokens *)

(** src/internal/auth/token.go:78-84, adminTokenPrefix *)
Definition adminTokenPrefix : gostring := go "sadm_".

(** src/internal/auth/admintoken.go:17-22, adminTokenVersion *)
Definition adminTokenVersion : Z := 1.

(** src/internal/auth/admintoken.go:24-61, AdminTokenSigner *)
Record AdminTokenSigner := MkAdminSigner { admin_key : bytes }.

(** src/internal/auth/admintoken.go:63-77, NewAdminTokenSigner *)
Definition NewAdminTokenSigner (key : bytes) : result AdminTokenSigner :=
  if len key <? MinSigningKeyLen then Err (errorf "auth: admin token signing key is too short" [ErrInvalidInput])
  else Ok (MkAdminSigner key).

(** src/internal/auth/admintoken.go:128-139, adminClaims *)
Record adminClaims := MkAdminClaims {
  ac_Ver : Z;
  ac_ID : gostring;
  ac_Admin : gostring;
  ac_IssuedAt : Z;
  ac_Expires : Z;
}.

(** [json.Marshal] of the claims, with their tags, and the strict decoder. *)
Definition admin_claims_json (c : adminClaims) : jvalue :=
  VObj [(go "v", VNum (json_int (ac_Ver c))); (go "jti", VStr (ac_ID c)); (go "adm", VStr (ac_Admin c)); (go "iat", VNum (json_int (ac_IssuedAt c))); (go "exp", VNum (json_int (ac_Expires c)))].
Definition marshal_admin_claims (c : adminClaims) : gostring := print (admin_claims_json c).
Definition admin_claims_fields : list (string * store adminClaims) :=
  [("v", λ v c, x ← into_int64 v (ac_Ver c); Some (MkAdminClaims x (ac_ID c) (ac_Admin c) (ac_IssuedAt c) (ac_Expires c)));
   ("jti", λ v c, x ← into_string v (ac_ID c); Some (MkAdminClaims (ac_Ver c) x (ac_Admin c) (ac_IssuedAt c) (ac_Expires c)));
   ("adm", λ v c, x ← into_string v (ac_Admin c); Some (MkAdminClaims (ac_Ver c) (ac_ID c) x (ac_IssuedAt c) (ac_Expires c)));
   ("iat", λ v c, x ← into_int64 v (ac_IssuedAt c); Some (MkAdminClaims (ac_Ver c) (ac_ID c) (ac_Admin c) x (ac_Expires c)));
   ("exp", λ v c, x ← into_int64 v (ac_Expires c); Some (MkAdminClaims (ac_Ver c) (ac_ID c) (ac_Admin c) (ac_IssuedAt c) x))]%string.
Definition decode_admin_claims (payload : bytes) : option adminClaims := fst <$> Decode (into_struct true admin_claims_fields) payload (MkAdminClaims 0 [] [] 0 0).

(** src/internal/auth/admintoken.go:244-249, AdminTokenSigner.mac *)
Definition admin_mac (s : AdminTokenSigner) (msg : bytes) : bytes := hmac_sha256 (admin_key s) msg.

Definition admin_claims (id jti : gostring) (issuedAt expiresAt : time) : adminClaims :=
  MkAdminClaims adminTokenVersion jti id (time_unix issuedAt) (time_unix expiresAt).

(** src/internal/auth/admintoken.go:141-173, AdminTokenSigner.Issue
    ([json.Marshal] cannot fail on these types) *)
Definition admin_Issue (s : AdminTokenSigner) (id jti : gostring) (issuedAt expiresAt : time) : result gostring :=
  if bool_decide (id = []) || bool_decide (jti = []) then Err (errorf "auth: admin token is missing an identifier" [ErrInvalidInput]) else
  if negb (time_before issuedAt expiresAt) then Err (errorf "auth: admin token expires at or before it is issued" [ErrInvalidInput]) else
  let encoded := rawurl_b64 (marshal_admin_claims (admin_claims id jti issuedAt expiresAt)) in
  Ok (adminTokenPrefix ++ encoded ++ [tokenSeparator] ++ rawurl_b64 (admin_mac s encoded)).

(** src/internal/auth/admintoken.go:175-242, AdminTokenSigner.Verify *)
Definition admin_Verify (s : AdminTokenSigner) (presented : gostring) (now : time) : result gostring :=
  match cut_prefix adminTokenPrefix presented with
  | None => Err ErrAuthFailed
  | Some body =>
    let '(encoded, macPart, ok) := cut tokenSeparator body in
    if negb ok || contains [tokenSeparator] macPart then Err ErrAuthFailed else
    match rawurl_decode macPart with
    | None => Err ErrAuthFailed
    | Some presentedMAC =>
      if negb (bool_decide (presentedMAC = admin_mac s encoded)) then Err ErrAuthFailed else
      match rawurl_decode encoded with
      | None => Err ErrAuthFailed
      | Some payload =>
        match decode_admin_claims payload with
        | None => Err ErrAuthFailed
        | Some claims =>
          if negb (ac_Ver claims =? adminTokenVersion) then Err ErrAuthFailed else
          if bool_decide (ac_Admin claims = []) then Err ErrAuthFailed else
          let issued := unix_time (ac_IssuedAt claims) in
          let expires := unix_time (ac_Expires claims) in
          if time_before now issued || negb (time_before now expires) then Err ErrAuthFailed
          else Ok (ac_Admin claims)
        end
      end
    end
  end.

(** Claims that JSON can carry. *)
Definition admin_carried (c : adminClaims) : Prop :=
  int64_range (ac_Ver c) ∧ valid_utf8 (ac_ID c) = true ∧ valid_utf8 (ac_Admin c) = true ∧ int64_range (ac_IssuedAt c) ∧ int64_range (ac_Expires c).

Lemma decode_marshal_admin c : admin_carried c → decode_admin_claims (marshal_admin_claims c) = Some c.
Proof.
  intros (Hv & Hid & Ha & Hi & He). unfold decode_admin_claims, Decode, marshal_admin_claims.
  rewrite <- (app_nil_r (print _)), decode_print; [|..|done].
  - cbn [mbind option_bind]. unfold admin_claims_json, json_int. store_struct with (rewrite Atoi_FormatInt by done). by destruct c.
  - cbn. split_and!; try done; by eexists.
  - unfold max_depth. cbn. lia.
Qed.

(** An issued token verifies exactly inside its interval, cut to whole seconds. *)
Lemma admin_Verify_Issue s id jti issuedAt expiresAt t now :
  let claims := admin_claims id jti issuedAt expiresAt in
  admin_carried claims → admin_Issue s id jti issuedAt expiresAt = Ok t →
  admin_Verify s t now =
    if (unix_time (time_unix issuedAt) <=? now) && (now <? unix_time (time_unix expiresAt)) then Ok id else Err ErrAuthFailed.
Proof.
  intros claims Hjson%decode_marshal_admin. unfold admin_Issue. destruct (_ || _) eqn:Hid; [done|]. destruct (negb (time_before issuedAt _)); [done|]. intros Ht.
  match type of Ht with Ok ?x = _ => assert (t = x) as -> by congruence end. clear Ht.
  reflect_bools. repeat match goal with H : bool_decide _ = false |- _ => apply bool_decide_eq_false in H end.
  unfold admin_Verify. rewrite cut_prefix_app. cbn [app]. rewrite cut_app by apply rawurl_no_sep. cbn [negb orb].
  rewrite (proj2 (contains_byte _ _)) by apply rawurl_no_sep. rewrite !rawurl_decode_encode.
  rewrite bool_decide_eq_true_2 by done. cbn [negb]. fold claims. rewrite Hjson. cbn [ac_Ver ac_Admin ac_IssuedAt ac_Expires claims admin_claims].
  rewrite Z.eqb_refl. cbn [negb]. rewrite bool_decide_eq_false_2 by done. unfold time_before. rewrite Z.leb_antisym. by destruct (now <? _), (now <? _).
Qed.

(** An accepted token names an administrator and carries the HMAC of its payload. *)
Lemma admin_Verify_sound s presented id now : admin_Verify s presented now = Ok id →
  id ≠ [] ∧ ∃ encoded m, presented = adminTokenPrefix ++ encoded ++ tokenSeparator :: m ∧ rawurl_decode m = Some (hmac_sha256 (admin_key s) encoded).
Proof.
  unfold admin_Verify. destruct (cut_prefix _ presented) as [body|] eqn:Hp; [|done].
  destruct (cut tokenSeparator body) as [[encoded m] ok] eqn:Hc. destruct ok; [|done].
  destruct (contains _ _); [done|]. cbn [negb orb]. destruct (rawurl_decode m) as [pm|] eqn:Hm; [|done].
  case_bool_decide as Hmac; [|done]. cbn [negb]. destruct (rawurl_decode encoded); [|done].
  destruct (decode_admin_claims _) as [cl|]; [|done]. destruct (ac_Ver cl =? _); [|done]. cbn [negb]. case_bool_decide; [done|].
  destruct (time_before now _ || _); [done|]. intros. simplify_eq. split; [done|]. exists encoded, m. split; [|by rewrite Hm].
  by rewrite (cut_prefix_sound _ _ _ Hp), (cut_sound _ _ _ _ Hc).
Qed.

(** ** The table of administrators *)

Open Scope stm_scope.

Abbreviation invalid msg := (errorf msg [ErrInvalidInput]).

(** src/internal/storage/sqlite/admin.go:42-66, adminRepo.Create *)
Definition admin_Create (a : Administrator) : stM conn unit :=
  if bool_decide (Admin_ID a = []) then st_fail (invalid "sqlite: empty administrator id") else
  if negb (AdminStatus_IsValid (Admin_Status a)) then st_fail (invalid "sqlite: invalid administrator status") else
  let! _ := exec (λ d, match admins d !! Admin_ID a with
                       | Some _ => inl UniqueViolation
                       | None => inr (1, set_admins <[Admin_ID a := a]> d)
                       end) in st_ret tt.

(** src/internal/storage/sqlite/admin.go:68-80, adminRepo.Get
    (a row with an unknown status cannot be stored) *)
Definition admin_Get (id : gostring) : stM conn Administrator :=
  if bool_decide (id = []) then st_fail (invalid "sqlite: empty administrator id") else
  query_row (λ d, admins d !! id).

(** src/internal/storage/sqlite/admin.go:82-105, adminRepo.List *)
Definition admin_List : stM conn (list Administrator) :=
  query (λ d, ordered_by (λ a b, bytes_le (Admin_ID a) (Admin_ID b)) (rows (admins d))).

(** src/internal/storage/sqlite/admin.go:130-152, adminRepo.update *)
Definition admin_update (id : gostring) (upd : Administrator → Administrator) : stM conn unit :=
  if bool_decide (id = []) then st_fail (invalid "sqlite: empty administrator id") else
  let! n := update_row set_admins (λ d, admins d !! id) (λ _, true) upd id in
  if n =? 0 then st_fail (errorf "sqlite: administrator" [ErrNotFound]) else st_ret tt.

(** src/internal/storage/sqlite/admin.go:107-113, adminRepo.SetLabel *)
Definition admin_SetLabel (id label : gostring) (now : time) : stM conn unit :=
  admin_update id (λ a, MkAdministrator (Admin_ID a) label (Admin_Status a) (Admin_CreatedAt a) now).

(** src/internal/storage/sqlite/admin.go:115-128, adminRepo.UpdateStatus *)
Definition admin_UpdateStatus (id : gostring) (status : AdminStatus) (now : time) : stM conn unit :=
  if negb (AdminStatus_IsValid status) then st_fail (invalid "sqlite: invalid administrator status") else
  admin_update id (λ a, MkAdministrator (Admin_ID a) (Admin_Label a) status (Admin_CreatedAt a) now).

(** ** The table of list overrides *)

Definition override_key (o : ListOverride) : gostring * gostring := (ListKind_string (LO_List o), LO_Skeleton o).

(** src/internal/storage/sqlite/listoverride.go:42-92, listOverrideRepo.Put *)
Definition override_Put (o : ListOverride) : stM conn unit :=
  if negb (ListKind_IsValid (LO_List o)) then st_fail (invalid "sqlite: invalid list kind") else
  if negb (ListOverrideState_IsValid (LO_State o)) then st_fail (invalid "sqlite: invalid list override state") else
  if bool_decide (LO_Skeleton o = []) then st_fail (invalid "sqlite: empty list override skeleton") else
  if bool_decide (LO_Entry o = []) then st_fail (invalid "sqlite: empty list override entry") else
  if bool_decide (LO_ActorID o = []) then st_fail (invalid "sqlite: empty list override actor id") else
  let! _ := exec (λ d, inr (1, set_overrides <[override_key o := o]> d)) in st_ret tt.

Definition by_override_key (a b : ListOverride) : bool :=
  if bool_decide (ListKind_string (LO_List a) = ListKind_string (LO_List b)) then bytes_le (LO_Skeleton a) (LO_Skeleton b)
  else bytes_le (ListKind_string (LO_List a)) (ListKind_string (LO_List b)).

(** src/internal/storage/sqlite/listoverride.go:94-123, listOverrideRepo.List *)
Definition override_List : stM conn (list ListOverride) :=
  query (λ d, ordered_by by_override_key (snd <$> map_to_list (overrides d))).
