(* ===== verification/ListAdmin.v ===== *)
(** * Administration of the name lists

    [internal/service/listadmin]: audited edits of the allowlist and of the extra blocked
    terms (listadmin.go), and the policy composed at start-up from the seed and the
    durable record of the edits (policy.go, seed.go).  The matcher in memory is passed in
    and the new one returned: an edit that fails leaves it as it was.  The seed file is
    read and decoded by code outside the repository, so its lists are an argument. *)

From stdpp Require Import sorting.
From S2P Require Import Prelude DomainErrors GoLib Domain Blocklist Database StoreLogic AuditLog KeyRepos AccessKey Administrators.

Open Scope Z_scope.
Open Scope stm_scope.

(** src/internal/service/listadmin/listadmin.go:42-45, maxEntryLen *)
Definition maxEntryLen : Z := MaxInputBytes.

Section listadmin.
Context `{UF : !UnicodeFold}.

(** ** The matcher's lists *)

(** src/internal/blocklist/allowlist.go:83-105, Matcher.Allowlist *)
Definition Allowlist (m : Matcher) : list gostring :=
  if negb (m_ready m) then [] else
  match m_allow m with
  | None => []
  | Some set => ordered_by bytes_le (snd <$> map_to_list set)
  end.

(** src/internal/blocklist/allowlist.go:157-173, Matcher.ExtraTerms *)
Definition ExtraTerms (m : Matcher) : list gostring :=
  if negb (m_ready m) then [] else
  match m_extra m with
  | None => []
  | Some cl => ordered_by bytes_le (ct_raw <$> (snd <$> map_to_list (cl_whole cl)))
  end.

(** ** Edits *)

(** src/internal/service/listadmin/listadmin.go:198-216, listOp *)
Record listOp := MkListOp {
  op_target : TargetType;
  op_action : gostring;
  op_kind : ListKind;
  op_current : Matcher → list gostring;
  op_apply : Matcher → list gostring → option goerror * Matcher;
  op_add : bool;
  op_weakens : bool;
}.

(** src/internal/service/listadmin/listadmin.go:360-367, listOp.state *)
Definition op_state (o : listOp) : ListOverrideState := if op_add o then ListOverridePresent else ListOverrideRemoved.

(** src/internal/service/listadmin/listadmin.go:452-470, validateEntry *)
Definition validateEntry (entry : gostring) : option goerror :=
  if bool_decide (entry = []) then Some (invalid "listadmin: empty entry") else
  if maxEntryLen <? len entry then Some (invalid "listadmin: entry is too long") else
  if bool_decide (Skeleton entry = []) then Some (invalid "listadmin: entry has no comparable content") else None.

(** [slices.IndexFunc] of the entry with the same skeleton, and [slices.Delete] there. *)
Definition without (sk : gostring) : list gostring → option (list gostring) := fix loop l :=
  match l with
  | [] => None
  | e :: l' => if bool_decide (Skeleton e = sk) then Some l' else (cons e) <$> loop l'
  end.

(** src/internal/service/listadmin/listadmin.go:369-410, nextSet *)
Definition nextSet (current : list gostring) (entry : gostring) (add : bool) : result (list gostring) :=
  match without (Skeleton entry) current with
  | Some rest => if add then Err (errorf "listadmin: entry is already present" [ErrConflict]) else Ok rest
  | None => if add then Ok (current ++ [entry]) else Err (errorf "listadmin: entry is not present" [ErrNotFound])
  end.

(** src/internal/service/listadmin/listadmin.go:412-450, Service.authorize *)
Definition la_authorize (actor : gostring) : stM conn unit :=
  if bool_decide (actor = []) then st_fail (errorf "listadmin: no administrator named" [ErrUnauthorized]) else
  try! r := admin_Get actor in
  match r with
  | Err e =>
      if errors_is e ErrNotFound then st_fail (errorf "listadmin: not an administrator" [ErrUnauthorized])
      else st_fail (errorf "listadmin: administrator lookup failed, refusing the edit" [e])
  | Ok admin =>
      if negb (bool_decide (Admin_Status admin = AdminStatusActive)) then st_fail (errorf "listadmin: administrator is not active" [ErrForbidden])
      else st_ret tt
  end.

Context {U : UnicodeData}.

Definition edit_event (actor entry : gostring) (op : listOp) : Event :=
  MkEvent ActorTypeAdministrator actor (op_action op) (op_target op) entry no_details.

Definition wrapped {A} (msg : string) (m : stM conn A) : stM conn A :=
  try! r := m in match r with Ok a => st_ret a | Err e => st_fail (errorf msg [e]) end.

(** src/internal/service/listadmin/listadmin.go:321-339, Service.audit *)
Definition la_audit (st : stamp) (actor entry : gostring) (op : listOp) : stM conn unit :=
  wrapped "listadmin: audit the edit before applying it" (Emit st (edit_event actor entry op)).

Definition edit_override (now : time) (actor entry : gostring) (op : listOp) : ListOverride :=
  MkListOverride (op_kind op) (Skeleton entry) entry (op_state op) actor now.

(** src/internal/service/listadmin/listadmin.go:341-358, Service.persist *)
Definition la_persist (now : time) (actor entry : gostring) (op : listOp) : stM conn unit :=
  wrapped "listadmin: persist the edit before applying it" (override_Put (edit_override now actor entry op)).

(** src/internal/service/listadmin/listadmin.go:273-319, Service.edit *)
Definition la_edit (m : Matcher) (now : time) (st : stamp) (actor entry : gostring) (op : listOp) : stM conn Matcher :=
  match validateEntry entry with
  | Some e => st_fail e
  | None =>
      let! _ := la_authorize actor in
      let! next := ret_or (nextSet (op_current op m) entry (op_add op)) in
      let! _ := (if op_weakens op then
                   let! _ := la_audit st actor entry op in la_persist now actor entry op
                 else
                   let! _ := la_persist now actor entry op in la_audit st actor entry op) in
      match op_apply op m next with
      | (Some e, _) => st_fail (errorf "listadmin: apply the edit" [e])
      | (None, m') => st_ret m'
      end
  end.

(** src/internal/service/listadmin/listadmin.go:116-131, Service.AddAllowlistEntry *)
Definition AddAllowlistEntry : listOp :=
  MkListOp TargetTypeAllowlistEntry (go "allowlist.entry_added") ListKindAllowlist Allowlist SetAllowlist true true.

(** src/internal/service/listadmin/listadmin.go:133-156, Service.RemoveAllowlistEntry *)
Definition RemoveAllowlistEntry : listOp :=
  MkListOp TargetTypeAllowlistEntry (go "allowlist.entry_removed") ListKindAllowlist Allowlist SetAllowlist false false.

(** src/internal/service/listadmin/listadmin.go:158-172, Service.AddBlocklistTerm *)
Definition AddBlocklistTerm : listOp :=
  MkListOp TargetTypeBlocklistEntry (go "blocklist.entry_added") ListKindBlocklistTerm ExtraTerms SetExtraTerms true false.

(** src/internal/service/listadmin/listadmin.go:174-190, Service.RemoveBlocklistTerm *)
Definition RemoveBlocklistTerm : listOp :=
  MkListOp TargetTypeBlocklistEntry (go "blocklist.entry_removed") ListKindBlocklistTerm ExtraTerms SetExtraTerms false true.

(** ** Start-up *)

(** The lists of the configuration and of the seed file. *)
Record seed := MkSeed { seed_extra : list gostring; seed_allow : list gostring }.

(** src/internal/service/listadmin/seed.go:75-96, seedLists
    ([file] is what reading and decoding the named seed file gave) *)
Definition seedLists (cfg : seed) (file : option (result seed)) : result seed :=
  match file with
  | None => Ok cfg
  | Some (Err e) => Err e
  | Some (Ok f) => Ok (MkSeed (seed_extra cfg ++ seed_extra f) (seed_allow cfg ++ seed_allow f))
  end.

(** src/internal/service/listadmin/seed.go:114-128, applyBoth *)
Definition applyBoth (m : Matcher) (extra allow : list gostring) : option goerror * Matcher :=
  match SetExtraTerms m extra with
  | (Some e, m) => (Some (errorf "listadmin: seed blocklist terms" [e]), m)
  | (None, m) =>
      match SetAllowlist m allow with
      | (Some e, m) => (Some (errorf "listadmin: seed allowlist entries" [e]), m)
      | (None, m) => (None, m)
      end
  end.

(** src/internal/service/listadmin/seed.go:98-112, install *)
Definition install (m : Matcher) (extra allow : list gostring) : option goerror * Matcher :=
  match NewMatcher [] with
  | Err e => (Some (errorf "listadmin: build a scratch matcher to validate the policy" [e]), m)
  | Ok scratch =>
      match applyBoth scratch extra allow with
      | (Some e, _) => (Some e, m)
      | (None, _) => applyBoth m extra allow
      end
  end.

(** src/internal/service/listadmin/seed.go:30-73, ApplySeed *)
Definition ApplySeed (m : Matcher) (cfg : seed) (file : option (result seed)) : option goerror * Matcher :=
  match seedLists cfg file with
  | Err e => (Some e, m)
  | Ok s => install m (seed_extra s) (seed_allow s)
  end.

(** The two maps [replay] builds from the rows of one kind. *)
Definition tombstones (rows : list ListOverride) (kind : ListKind) : list gostring :=
  LO_Skeleton <$> filter (λ o, LO_List o = kind ∧ LO_State o = ListOverrideRemoved) rows.
Definition additions (rows : list ListOverride) (kind : ListKind) : list ListOverride :=
  filter (λ o, LO_List o = kind ∧ LO_State o = ListOverridePresent) rows.

(** The seed without its tombstoned entries. *)
Definition surviving (tombstoned : list gostring) (seed : list gostring) : list gostring :=
  filter (λ raw, Skeleton raw ∉ tombstoned) seed.

(** The additions in order, each unless its skeleton is already there. *)
Fixpoint append_missing (added : list ListOverride) (present : gset gostring) : list gostring :=
  match added with
  | [] => []
  | o :: added' =>
      if decide (LO_Skeleton o ∈ present) then append_missing added' present
      else LO_Entry o :: append_missing added' ({[LO_Skeleton o]} ∪ present)
  end.

(** src/internal/service/listadmin/policy.go:70-138, replay
    (one row per list and skeleton, so the map of additions holds each row's own entry) *)
Definition replay (seed : list gostring) (rows : list ListOverride) (kind : ListKind) : list gostring :=
  if bool_decide (tombstones rows kind = []) && bool_decide (additions rows kind = []) then seed else
  let kept := surviving (tombstones rows kind) seed in
  kept ++ append_missing (additions rows kind) (list_to_set (Skeleton <$> kept)).

(** src/internal/service/listadmin/policy.go:13-68, LoadPolicy *)
Definition LoadPolicy (m : Matcher) (cfg : seed) (file : option (result seed)) : stM conn Matcher :=
  match seedLists cfg file with
  | Err e => st_fail e
  | Ok s =>
      let! rows := wrapped "listadmin: read the persisted list overrides" override_List in
      match install m (replay (seed_extra s) rows ListKindBlocklistTerm) (replay (seed_allow s) rows ListKindAllowlist) with
      | (Some e, _) => st_fail e
      | (None, m') => st_ret m'
      end
  end.
End listadmin.

(** ** The lists as sets of skeletons *)

Section lists.
Context `{UF : !UnicodeFold}.

(** Entries that can be installed: none folds to nothing, no two fold alike. *)
Definition fair (l : list gostring) : Prop := Forall (λ raw, Skeleton raw ≠ []) l ∧ NoDup (Skeleton <$> l).

Lemma fair_cons raw l : fair (raw :: l) ↔ Skeleton raw ≠ [] ∧ (Skeleton raw ∉ Skeleton <$> l) ∧ fair l.
Proof. unfold fair. rewrite Forall_cons, fmap_cons, NoDup_cons. tauto. Qed.

Lemma fair_elem l raw raw' : fair l → raw ∈ l → raw' ∈ l → Skeleton raw = Skeleton raw' → raw = raw'.
Proof.
  induction l as [|x l IH]; intros Hf Hr Hr' E; [by apply not_elem_of_nil in Hr|]. apply fair_cons in Hf as (_ & Hn & Hf).
  apply elem_of_cons in Hr, Hr'. destruct Hr as [->|Hr], Hr' as [->|Hr']; [done|..|by apply IH].
  - destruct Hn. rewrite E. by apply list_elem_of_fmap_2.
  - destruct Hn. rewrite <- E. by apply list_elem_of_fmap_2.
Qed.

Lemma compile_entries_fair l acc : fair l → (∀ raw, raw ∈ l → acc !! Skeleton raw = None) →
  ∃ m, compile_entries l acc = Ok m ∧ ∀ sk raw, m !! sk = Some raw ↔ acc !! sk = Some raw ∨ raw ∈ l ∧ Skeleton raw = sk.
Proof.
  revert acc. induction l as [|x l IH]; intros acc Hf Hacc.
  { exists acc. split; [done|]. intros sk raw. split; [by left|]. intros [?|[Hn _]]; [done|by apply not_elem_of_nil in Hn]. }
  apply fair_cons in Hf as (Hx & Hn & Hf). simpl. rewrite bool_decide_eq_false_2 by done. rewrite Hacc by left.
  destruct (IH (<[Skeleton x := x]> acc)) as (m & Hm & Hin); [done| |].
  { intros raw Hr. rewrite lookup_insert_ne; [apply Hacc; by right|]. intros E. apply Hn. rewrite E. by apply list_elem_of_fmap_2. }
  exists m. split; [done|]. intros sk raw. rewrite Hin, elem_of_cons. destruct (decide (sk = Skeleton x)) as [->|Hne].
  - rewrite lookup_insert_eq, (Hacc x) by left. split.
    + intros [[= <-]|[Hr E]]; [by right; split; [left|]|right; split; [by right|done]].
    + intros [?|[[->|Hr] E]]; [done|by left|right; done].
  - rewrite lookup_insert_ne by done. split; [intros [?|[? ?]]; auto|]. intros [?|[[->|Hr] E]]; [by left|by destruct Hne|by right].
Qed.

Lemma compile_terms_fair l seen out : fair l → (∀ raw, raw ∈ l → seen !! Skeleton raw = None) →
  ∃ m out', compile_terms l seen out = Ok (m, out') ∧
    ∀ sk t, m !! sk = Some t ↔ seen !! sk = Some t ∨ ∃ raw, raw ∈ l ∧ Skeleton raw = sk ∧ t = MkCompiledTerm sk raw.
Proof.
  revert seen out. induction l as [|x l IH]; intros seen out Hf Hacc.
  { exists seen, out. split; [done|]. intros sk t. split; [by left|]. intros [?|(raw & Hn & _)]; [done|by apply not_elem_of_nil in Hn]. }
  apply fair_cons in Hf as (Hx & Hn & Hf). simpl. rewrite bool_decide_eq_false_2 by done. rewrite Hacc by left.
  destruct (IH (<[Skeleton x := MkCompiledTerm (Skeleton x) x]> seen) (out ++ [MkCompiledTerm (Skeleton x) x])) as (m & out' & Hm & Hin); [done| |].
  { intros raw Hr. rewrite lookup_insert_ne; [apply Hacc; by right|]. intros E. apply Hn. rewrite E. by apply list_elem_of_fmap_2. }
  exists m, out'. split; [done|]. intros sk t. rewrite Hin. destruct (decide (sk = Skeleton x)) as [->|Hne].
  - rewrite lookup_insert_eq, (Hacc x) by left. split.
    + intros [[= <-]|(raw & Hr & E & ->)]; right; [exists x|exists raw]; (split; [|done]); [left|by right].
    + intros [?|(raw & [->|Hr]%elem_of_cons & E & ->)]; [done|by left|right; by exists raw].
  - rewrite lookup_insert_ne by done. split.
    + intros [?|(raw & ? & ?)]; [by left|right; exists raw; split; [by right|done]].
    + intros [?|(raw & [->|Hr]%elem_of_cons & E & ->)]; [by left|by destruct Hne|right; by exists raw].
Qed.

(** What is on a list of the matcher. *)
Definition holds (m : Matcher) (kind : ListKind) (sk : gostring) : Prop :=
  match kind with
  | ListKindAllowlist => is_Some (allowlisted m sk)
  | ListKindBlocklistTerm => ∃ cl, m_extra m = Some cl ∧ is_Some (cl_whole cl !! sk)
  | ListKindOther _ => False
  end.

(** A built matcher whose maps are keyed by the skeletons of their entries. *)
Record tidy (m : Matcher) : Prop := MkTidy {
  td_ready : m_ready m = true;
  td_allow : ∀ set sk raw, m_allow m = Some set → set !! sk = Some raw → Skeleton raw = sk ∧ sk ≠ [];
  td_extra : ∀ cl sk t, m_extra m = Some cl → cl_whole cl !! sk = Some t → Skeleton (ct_raw t) = sk ∧ sk ≠ [];
}.

(** A list of the matcher: how to read it and how to replace it. *)
Record slot (kind : ListKind) (get : Matcher → list gostring) (set : Matcher → list gostring → option goerror * Matcher) : Prop := MkSlot {
  sl_fair m : tidy m → fair (get m);
  sl_get m sk : tidy m → sk ∈ Skeleton <$> get m ↔ holds m kind sk;
  sl_set m l : tidy m → fair l → ∃ m', set m l = (None, m') ∧ tidy m' ∧ m_lists m' = m_lists m ∧
    (∀ sk, holds m' kind sk ↔ sk ∈ Skeleton <$> l) ∧ (∀ kind' sk, kind' ≠ kind → holds m' kind' sk ↔ holds m kind' sk);
}.

Lemma fair_perm l l' : l ≡ₚ l' → fair l → fair l'.
Proof. unfold fair. by intros ->. Qed.

Lemma fair_values {A} (f : A → gostring) (t : gmap gostring A) : (∀ sk a, t !! sk = Some a → Skeleton (f a) = sk ∧ sk ≠ []) →
  fair (f <$> (snd <$> map_to_list t)) ∧ ∀ sk, sk ∈ Skeleton <$> (f <$> (snd <$> map_to_list t)) ↔ is_Some (t !! sk).
Proof.
  intros Ht. assert (Skeleton <$> (f <$> (snd <$> map_to_list t)) = fst <$> map_to_list t) as E.
  { rewrite <- !list_fmap_compose. apply list_fmap_ext. intros i [sk a] Hi. simpl. apply Ht. apply elem_of_map_to_list. by eapply list_elem_of_lookup_2. }
  split; [split|].
  - apply Forall_forall. intros raw (a & -> & Ha)%list_elem_of_fmap. apply elem_of_rows in Ha as [sk Hsk]. destruct (Ht _ _ Hsk) as [-> ?]. done.
  - rewrite E. apply NoDup_fst_map_to_list.
  - intros sk. rewrite E, list_elem_of_fmap. split.
    + intros ([k a] & -> & Hin). apply elem_of_map_to_list in Hin. by eexists.
    + intros [a Ha]. exists (sk, a). split; [done|]. by apply elem_of_map_to_list.
Qed.

Lemma ordered_perm {A} (le : A → A → bool) l : ordered_by le l ≡ₚ l.
Proof. apply merge_sort_Permutation. Qed.

Lemma allow_slot : slot ListKindAllowlist Allowlist SetAllowlist.
Proof.
  assert (∀ m, tidy m → fair (Allowlist m) ∧ ∀ sk, sk ∈ Skeleton <$> Allowlist m ↔ is_Some (allowlisted m sk)) as Hget.
  { intros m [Hr Ha _]. unfold Allowlist, allowlisted. rewrite Hr. simpl. destruct (m_allow m) as [set|].
    - destruct (fair_values id set) as [Hf Hin]; [intros sk raw; apply (Ha set sk raw eq_refl)|]. rewrite list_fmap_id in Hf, Hin. simpl. split.
      + by eapply fair_perm; [symmetry; apply ordered_perm|].
      + intros sk. by rewrite ordered_perm.
    - split; [repeat constructor|]. intros sk. simpl. split; [by intros ?%not_elem_of_nil|by intros [? ?]]. }
  split; [apply Hget|intros m sk Hm; by apply Hget|]. intros m l [Hr Ha He] Hl. unfold SetAllowlist. rewrite Hr. simpl.
  destruct (compile_entries_fair l ∅ Hl) as (t & -> & Hin); [intros; apply lookup_empty|]. eexists. split; [done|].
  assert (∀ sk raw, t !! sk = Some raw ↔ raw ∈ l ∧ Skeleton raw = sk) as Ht.
  { intros sk raw. rewrite Hin, lookup_empty. split; [by intros [?|?]|by right]. }
  split_and!; [split; try done|done| |].
  - intros set sk raw [= <-] [Hr' <-]%Ht. split; [done|]. destruct Hl as [Hl _]. rewrite Forall_forall in Hl. by apply Hl.
  - intros sk. simpl. unfold allowlisted. simpl. rewrite list_elem_of_fmap. split; [intros [raw [? <-]%Ht]; eauto|intros (raw & -> & Hx); exists raw; by apply Ht].
  - intros [] sk Hk; done.
Qed.

Lemma extra_slot : slot ListKindBlocklistTerm ExtraTerms SetExtraTerms.
Proof.
  assert (∀ m, tidy m → fair (ExtraTerms m) ∧ ∀ sk, sk ∈ Skeleton <$> ExtraTerms m ↔ holds m ListKindBlocklistTerm sk) as Hget.
  { intros m [Hr _ He]. unfold ExtraTerms, holds. rewrite Hr. simpl. destruct (m_extra m) as [cl|].
    - destruct (fair_values ct_raw (cl_whole cl)) as [Hf Hin]; [intros sk t; apply (He cl sk t eq_refl)|]. split.
      + by eapply fair_perm; [symmetry; apply ordered_perm|].
      + intros sk. rewrite ordered_perm, Hin. split; [by exists cl|by intros (? & [= <-] & ?)].
    - split; [repeat constructor|]. intros sk. split; [by intros ?%not_elem_of_nil|by intros (? & ? & _)]. }
  split; [apply Hget|intros m sk Hm; by apply Hget|]. intros m l [Hr Ha He] Hl. unfold SetExtraTerms. rewrite Hr. simpl.
  destruct (compile_terms_fair l ∅ [] Hl) as (t & out & -> & Hin); [intros; apply lookup_empty|]. eexists. split; [done|].
  assert (∀ sk x, t !! sk = Some x ↔ ∃ raw, raw ∈ l ∧ Skeleton raw = sk ∧ x = MkCompiledTerm sk raw) as Ht.
  { intros sk x. rewrite Hin, lookup_empty. split; [by intros [?|?]|by right]. }
  split_and!; [split; try done|done| |].
  - intros cl sk x [= <-] (raw & Hx & <- & ->)%Ht. simpl. split; [done|]. destruct Hl as [Hl _]. rewrite Forall_forall in Hl. by apply Hl.
  - intros sk. simpl. rewrite list_elem_of_fmap. split.
    + intros (? & [= <-] & x & (raw & ? & <- & _)%Ht). eauto.
    + intros (raw & -> & Hx). eexists. split; [done|]. simpl. eexists. apply Ht. eauto.
  - intros [] sk Hk; done.
Qed.
End lists.

(** ** What is recorded *)

Section policy.
Context `{UF : !UnicodeFold}.

Lemma without_spec sk l : fair l →
  match without sk l with
  | Some rest => sk ∈ Skeleton <$> l ∧ fair rest ∧ ∀ x, x ∈ Skeleton <$> rest ↔ x ∈ Skeleton <$> l ∧ x ≠ sk
  | None => sk ∉ Skeleton <$> l
  end.
Proof.
  induction l as [|e l IH]; intros Hf; [apply not_elem_of_nil|]. apply fair_cons in Hf as (Hne & Hn & Hf). specialize (IH Hf). simpl without.
  rewrite fmap_cons. case_bool_decide as He.
  - subst sk. split_and!; [left|done|]. intros x. rewrite elem_of_cons. split; [intros Hx; split; [by right|by intros ->]|by intros [[->|?] ?]].
  - destruct (without sk l) as [rest|].
    + change (match _ with Some r => _ | None => _ end) with (sk ∈ Skeleton e :: (Skeleton <$> l) ∧ fair (e :: rest) ∧
        ∀ x, x ∈ Skeleton <$> e :: rest ↔ x ∈ Skeleton e :: (Skeleton <$> l) ∧ x ≠ sk).
      destruct IH as (Hin & Hfr & Hx). split_and!; [by right| |].
      * apply fair_cons. split_and!; [done|by intros [? _]%Hx|done].
      * intros x. rewrite fmap_cons, !elem_of_cons, Hx. split; [intros [->|[? ?]]; auto|]. intros [[->|?] ?]; auto.
    + apply not_elem_of_cons. auto.
Qed.

Lemma nextSet_spec cur entry add next : fair cur → Skeleton entry ≠ [] → nextSet cur entry add = Ok next →
  fair next ∧ ∀ x, x ∈ Skeleton <$> next ↔ if add then x ∈ Skeleton <$> cur ∨ x = Skeleton entry else x ∈ Skeleton <$> cur ∧ x ≠ Skeleton entry.
Proof.
  intros Hf He. unfold nextSet. pose proof (without_spec (Skeleton entry) cur Hf) as Hw. destruct (without _ cur) as [rest|]; destruct add; try done; intros [= <-].
  - by destruct Hw as (_ & ? & ?).
  - destruct Hf as [Hf Hnd]. split.
    + split; [by apply Forall_app; split; [|constructor]|]. rewrite fmap_app. apply NoDup_app. split_and!; [done| |apply NoDup_singleton].
      intros x Hx Hx'. apply list_elem_of_singleton in Hx' as ->. done.
    + intros x. rewrite fmap_app, elem_of_app. cbn [fmap list_fmap]. by rewrite list_elem_of_singleton.
Qed.

Definition seed_of (s : seed) (kind : ListKind) : list gostring :=
  match kind with ListKindAllowlist => seed_allow s | ListKindBlocklistTerm => seed_extra s | ListKindOther _ => [] end.

(** What the record of edits says of an entry: the last edit of it decides, and the
    seed when there was none. *)
Definition decided (s : seed) (t : gmap (gostring * gostring) ListOverride) (kind : ListKind) (sk : gostring) : Prop :=
  match t !! (ListKind_string kind, sk) with
  | Some o => LO_State o = ListOverridePresent
  | None => sk ∈ Skeleton <$> seed_of s kind
  end.

Definition override_ok (key : gostring * gostring) (o : ListOverride) : Prop :=
  override_key o = key ∧ Skeleton (LO_Entry o) = LO_Skeleton o ∧ LO_Skeleton o ≠ [] ∧ ListKind_IsValid (LO_List o) = true ∧
  (LO_State o = ListOverridePresent ∨ LO_State o = ListOverrideRemoved).

Definition overrides_ok (t : gmap (gostring * gostring) ListOverride) : Prop := map_Forall override_ok t.

Lemma kind_of_string k k' : ListKind_IsValid k = true → ListKind_IsValid k' = true → ListKind_string k = ListKind_string k' → k = k'.
Proof. by destruct k, k'. Qed.

Section replay.
Context (t : gmap (gostring * gostring) ListOverride) (Ht : overrides_ok t) (rows : list ListOverride)
  (Hrows : ∀ o, o ∈ rows ↔ ∃ key, t !! key = Some o) (kind : ListKind) (Hkind : ListKind_IsValid kind = true).

Lemma row_at o : o ∈ rows → LO_List o = kind → t !! (ListKind_string kind, LO_Skeleton o) = Some o.
Proof. intros [key Ho]%Hrows <-. destruct (Ht _ _ Ho) as (<- & _). exact Ho. Qed.

Lemma at_row sk o : t !! (ListKind_string kind, sk) = Some o → o ∈ rows ∧ LO_List o = kind ∧ LO_Skeleton o = sk.
Proof.
  intros Ho. destruct (Ht _ _ Ho) as (Hk & _ & _ & Hv & _). injection Hk as Hl <-. split_and!; [apply Hrows; eauto|by apply kind_of_string|done].
Qed.

Lemma elem_tombstones sk : sk ∈ tombstones rows kind ↔ ∃ o, t !! (ListKind_string kind, sk) = Some o ∧ LO_State o = ListOverrideRemoved.
Proof.
  unfold tombstones. rewrite list_elem_of_fmap. split.
  - intros (o & -> & [[Hk Hs] Ho]%list_elem_of_filter). exists o. split; [by apply row_at|done].
  - intros (o & Ho & Hs). destruct (at_row _ _ Ho) as (Hin & Hk & <-). exists o. split; [done|]. by apply list_elem_of_filter.
Qed.

Lemma elem_additions sk : sk ∈ LO_Skeleton <$> additions rows kind ↔ ∃ o, t !! (ListKind_string kind, sk) = Some o ∧ LO_State o = ListOverridePresent.
Proof.
  unfold additions. rewrite list_elem_of_fmap. split.
  - intros (o & -> & [[Hk Hs] Ho]%list_elem_of_filter). exists o. split; [by apply row_at|done].
  - intros (o & Ho & Hs). destruct (at_row _ _ Ho) as (Hin & Hk & <-). exists o. split; [done|]. by apply list_elem_of_filter.
Qed.

Lemma additions_fold o : o ∈ additions rows kind → Skeleton (LO_Entry o) = LO_Skeleton o ∧ LO_Skeleton o ≠ [].
Proof. intros [_ [key Ho]%Hrows]%list_elem_of_filter. by destruct (Ht _ _ Ho) as (_ & ? & ? & _). Qed.

Lemma append_missing_spec added present : (∀ o, o ∈ added → Skeleton (LO_Entry o) = LO_Skeleton o ∧ LO_Skeleton o ≠ []) →
  fair (append_missing added present) ∧
  ∀ sk, sk ∈ Skeleton <$> append_missing added present ↔ sk ∈ LO_Skeleton <$> added ∧ sk ∉ present.
Proof.
  revert present. induction added as [|o added IH]; intros present Ha; simpl.
  { split; [repeat constructor|]. intros sk. split; [by intros ?%not_elem_of_nil|by intros [?%not_elem_of_nil _]]. }
  destruct (Ha o) as [Ho Hne]; [left|].
  destruct (decide (LO_Skeleton o ∈ present)) as [Hin|Hout].
  - destruct (IH present) as [Hf Hsk]; [intros; apply Ha; by right|]. split; [done|]. intros sk. rewrite Hsk, elem_of_cons.
    split; [intros [? ?]; auto|]. intros [[->|?] ?]; [done|auto].
  - destruct (IH ({[LO_Skeleton o]} ∪ present)) as [Hf Hsk]; [intros; apply Ha; by right|]. split.
    + apply fair_cons. rewrite Ho. split_and!; [done| |done]. intros [_ Hn]%Hsk. apply Hn, elem_of_union. left. by apply elem_of_singleton.
    + intros sk. rewrite fmap_cons, Ho, !elem_of_cons, Hsk, not_elem_of_union, not_elem_of_singleton. split.
      * intros [->|(? & ? & ?)]; [split; [by left|done]|split; [by right|done]].
      * intros [[->|?] ?]; [by left|]. destruct (decide (sk = LO_Skeleton o)); [by left|right; done].
Qed.

Lemma fair_filter (P : gostring → Prop) `{!∀ x, Decision (P x)} l : fair l → fair (filter P l).
Proof.
  intros [Hf Hn]. split.
  - rewrite Forall_forall in Hf |- *. intros x [_ Hx]%list_elem_of_filter. by apply Hf.
  - eapply sublist_NoDup; [exact Hn|]. apply fmap_sublist, sublist_filter.
Qed.

Lemma replay_spec s : fair (seed_of s kind) →
  fair (replay (seed_of s kind) rows kind) ∧ ∀ sk, sk ∈ Skeleton <$> replay (seed_of s kind) rows kind ↔ decided s t kind sk.
Proof.
  intros Hf. unfold replay, decided. destruct (bool_decide (tombstones rows kind = []) && _) eqn:E.
  - split; [done|]. intros sk. apply andb_true_iff in E as [E1%bool_decide_eq_true E2%bool_decide_eq_true].
    destruct (t !! _) as [o|] eqn:Eo; [|done]. exfalso. destruct (Ht _ _ Eo) as (_ & _ & _ & _ & [Hs|Hs]).
    + assert (sk ∈ LO_Skeleton <$> additions rows kind) as Hin by (apply elem_additions; eauto). rewrite E2 in Hin. by apply not_elem_of_nil in Hin.
    + assert (sk ∈ tombstones rows kind) as Hin by (apply elem_tombstones; eauto). rewrite E1 in Hin. by apply not_elem_of_nil in Hin.
  - clear E. set (kept := surviving (tombstones rows kind) (seed_of s kind)).
    assert (fair kept) as Hk by by apply fair_filter.
    assert (∀ sk, sk ∈ Skeleton <$> kept ↔ sk ∈ Skeleton <$> seed_of s kind ∧ sk ∉ tombstones rows kind) as Hkept.
    { intros sk. unfold kept, surviving. rewrite !list_elem_of_fmap. split.
      - intros (raw & -> & [Hn Hin]%list_elem_of_filter). eauto.
      - intros [(raw & -> & Hin) Hn]. exists raw. split; [done|]. by apply list_elem_of_filter. }
    destruct (append_missing_spec (additions rows kind) (list_to_set (Skeleton <$> kept)) additions_fold) as [Ha Hadd]. split.
    + split; [apply Forall_app; split; [apply Hk|apply Ha]|]. rewrite fmap_app. apply NoDup_app. split_and!; [apply Hk| |apply Ha].
      intros sk Hin [_ Hn]%Hadd. by apply Hn, elem_of_list_to_set.
    + intros sk. rewrite fmap_app, elem_of_app, Hadd, elem_of_list_to_set, elem_additions, Hkept, elem_tombstones.
      destruct (t !! _) as [o|] eqn:Eo.
      * destruct (Ht _ _ Eo) as (_ & _ & _ & _ & Hst). split.
        -- intros [[_ Hn]|[(o' & [= <-] & ?) _]]; [|done]. destruct Hst as [?|Hst]; [done|]. exfalso. apply Hn. eauto.
        -- intros Hp. assert (¬ ∃ o', Some o = Some o' ∧ LO_State o' = ListOverrideRemoved) as Hn by (intros (? & [= <-] & ?); congruence).
           destruct (decide (sk ∈ Skeleton <$> seed_of s kind)); [by left|right]. split; [eauto|]. by intros [? _].
      * split; [intros [[? _]|[(? & ? & _) _]]; done|]. intros Hin. left. split; [done|]. by intros (? & ? & _).
Qed.
End replay.

Definition fair_seed (s : seed) : Prop := fair (seed_extra s) ∧ fair (seed_allow s).

(** The matcher holds exactly what is recorded. *)
Definition in_step (s : seed) (m : Matcher) (t : gmap (gostring * gostring) ListOverride) : Prop :=
  ∀ kind sk, ListKind_IsValid kind = true → holds m kind sk ↔ decided s t kind sk.

(** A restart would refuse at least as much: what is recorded exempts nothing the
    matcher does not exempt, and blocks all it blocks. *)
Definition no_laxer (s : seed) (m : Matcher) (t : gmap (gostring * gostring) ListOverride) : Prop :=
  (∀ sk, decided s t ListKindAllowlist sk → holds m ListKindAllowlist sk) ∧
  (∀ sk, holds m ListKindBlocklistTerm sk → decided s t ListKindBlocklistTerm sk).

Lemma wp_wrapped {A} b msg (p : stM conn A) d Q :
  wp b p d (λ r d', Q (match r with Ok a => Ok a | Err e => Err (errorf msg [e]) end) d') → wp b (wrapped msg p) d Q.
Proof. intros H. unfold wrapped. wp_step. eapply wp_mono; [exact H|]. intros [a|e] d' HQ; by wp_step. Qed.

Lemma install_spec m extra allow : tidy m → fair extra → fair allow →
  ∃ m', install m extra allow = (None, m') ∧ tidy m' ∧ m_lists m' = m_lists m ∧
    (∀ sk, holds m' ListKindBlocklistTerm sk ↔ sk ∈ Skeleton <$> extra) ∧ (∀ sk, holds m' ListKindAllowlist sk ↔ sk ∈ Skeleton <$> allow).
Proof.
  intros Hm He Ha.
  assert (∀ m, tidy m → ∃ m', applyBoth m extra allow = (None, m') ∧ tidy m' ∧ m_lists m' = m_lists m ∧
    (∀ sk, holds m' ListKindBlocklistTerm sk ↔ sk ∈ Skeleton <$> extra) ∧ (∀ sk, holds m' ListKindAllowlist sk ↔ sk ∈ Skeleton <$> allow)) as Hboth.
  { clear m Hm. intros m Hm. unfold applyBoth. destruct (sl_set _ _ _ extra_slot m extra Hm He) as (m1 & -> & Hm1 & Hl1 & Hx1 & _).
    destruct (sl_set _ _ _ allow_slot m1 allow Hm1 Ha) as (m2 & -> & Hm2 & Hl2 & Hx2 & Ho2). exists m2. split_and!; [done|done|congruence| |done].
    intros sk. by rewrite Ho2, Hx1. }
  unfold install. cbn [NewMatcher compile_lists]. destruct (Hboth (MkMatcher true [] None None)) as (scratch & Hs & _); [by split|].
  unfold NewMatcher. cbn [compile_lists]. rewrite !filter_nil. cbn [app]. rewrite Hs. by apply Hboth.
Qed.

Lemma LoadPolicy_spec b m cfg file s d : seedLists cfg file = Ok s → fair_seed s → tidy m → overrides_ok (overrides d) →
  wp b (LoadPolicy m cfg file) d (λ r d', d' = d ∧
    match r with
    | Ok m' => tidy m' ∧ m_lists m' = m_lists m ∧ in_step s m' (overrides d)
    | Err _ => b = false
    end).
Proof.
  intros Hseed [Hfe Hfa] Hm Ht. unfold LoadPolicy. rewrite Hseed. wp_step. apply wp_wrapped. unfold override_List. wp_step; [by split|].
  set (rows := ordered_by _ _). assert (∀ o, o ∈ rows ↔ ∃ key, overrides d !! key = Some o) as Hrows.
  { intros o. unfold rows. rewrite elem_of_ordered, list_elem_of_fmap. split.
    - intros ([key x] & -> & Hx%elem_of_map_to_list). eauto.
    - intros [key Ho]. exists (key, o). split; [done|]. by apply elem_of_map_to_list. }
  destruct (replay_spec _ Ht rows Hrows ListKindBlocklistTerm eq_refl s Hfe) as [Hf1 Hd1].
  destruct (replay_spec _ Ht rows Hrows ListKindAllowlist eq_refl s Hfa) as [Hf2 Hd2].
  change (seed_of s ListKindBlocklistTerm) with (seed_extra s) in Hf1, Hd1. change (seed_of s ListKindAllowlist) with (seed_allow s) in Hf2, Hd2.
  destruct (install_spec m _ _ Hm Hf1 Hf2) as (m' & -> & Hm' & Hl & He & Ha). wp_step. split_and!; [done|done|done|].
  intros [] sk Hv; [rewrite (Ha sk); apply Hd2|rewrite (He sk); apply Hd1|discriminate Hv].
Qed.
End policy.

(** ** Edits *)

Section edits.
Context `{UF : !UnicodeFold} {U : UnicodeData}.

(** The four operations. *)
Inductive is_op : listOp → Prop :=
| op_allow_add : is_op AddAllowlistEntry
| op_allow_remove : is_op RemoveAllowlistEntry
| op_term_add : is_op AddBlocklistTerm
| op_term_remove : is_op RemoveBlocklistTerm.

Lemma op_slot op : is_op op → slot (op_kind op) (op_current op) (op_apply op).
Proof.
  intros []; cbn [op_kind op_current op_apply AddAllowlistEntry RemoveAllowlistEntry AddBlocklistTerm RemoveBlocklistTerm];
    [exact allow_slot|exact allow_slot|exact extra_slot|exact extra_slot].
Qed.

Lemma wp_authorize b actor d Q : (∀ e, Q (Err e) d) →
  (∀ a, actor ≠ [] → admins d !! actor = Some a → Admin_Status a = AdminStatusActive → Q (Ok tt) d) → wp b (la_authorize actor) d Q.
Proof.
  intros He Ho. unfold la_authorize, admin_Get. destruct (decide (actor = [])) as [Ha|Ha]; [rewrite (bool_decide_eq_true_2 _ Ha)|rewrite (bool_decide_eq_false_2 _ Ha)].
  - wp_step. apply He.
  - wp_step. wp_step; [wp_step; wp_step; apply He|]. destruct (admins d !! actor) as [a|] eqn:Ea; [|wp_step; wp_step; apply He].
    destruct (decide (Admin_Status a = AdminStatusActive)) as [Hs|Hs]; [rewrite (bool_decide_eq_true_2 _ Hs)|rewrite (bool_decide_eq_false_2 _ Hs)];
      simpl negb; cbn iota; wp_step; eauto.
Qed.

Lemma validateEntry_ok entry : validateEntry entry = None → Skeleton entry ≠ [].
Proof. unfold validateEntry. case_bool_decide; [done|]. destruct (_ <? _); [done|]. by case_bool_decide. Qed.

(** What an edit does to the tables. *)
Definition put (now : time) (actor entry : gostring) (op : listOp) (d : db) : db :=
  set_overrides <[override_key (edit_override now actor entry op) := edit_override now actor entry op]> d.
Definition log (st : stamp) (actor entry : gostring) (op : listOp) (d : db) : db :=
  set_audits <[stamp_id st := emitted st (edit_event actor entry op)]> d.

Lemma wp_persist b now actor entry op d Q : is_op op → (∀ e, Q (Err e) d) → Q (Ok tt) (put now actor entry op d) → wp b (la_persist now actor entry op) d Q.
Proof.
  intros Hop He Ho. unfold la_persist. apply wp_wrapped. unfold override_Put.
  repeat match goal with |- wp _ (if ?x then _ else _) _ _ => destruct x; [wp_step; apply He|] end.
  do 2 wp_step; [apply He|]. by wp_step.
Qed.

Lemma wp_audit b st actor entry op d Q : (∀ e, Q (Err e) d) → Q (Ok tt) (log st actor entry op d) → wp b (la_audit st actor entry op) d Q.
Proof. intros He Ho. unfold la_audit. apply wp_wrapped. apply wp_Emit; [intros; apply He|done]. Qed.

Definition active_admin (actor : gostring) (d : db) : Prop := ∃ a, admins d !! actor = Some a ∧ Admin_Status a = AdminStatusActive.

(** The outcomes of an edit: refused with nothing written but perhaps the record of a
    weakening that did not happen; a tightening written but not recorded; or done, with
    both written and the list replaced. *)
Inductive edited (m : Matcher) (now : time) (st : stamp) (actor entry : gostring) (op : listOp) (d : db) : result Matcher → db → Prop :=
| ed_refused e d' : overrides d' = overrides d → edited m now st actor entry op d (Err e) d'
| ed_half e : op_weakens op = false → validateEntry entry = None → active_admin actor d → edited m now st actor entry op d (Err e) (put now actor entry op d)
| ed_done m' d' : op_apply op m (if op_add op then op_current op m ++ [entry] else default [] (without (Skeleton entry) (op_current op m))) = (None, m') →
    (is_Some (without (Skeleton entry) (op_current op m)) ↔ op_add op = false) →
    overrides d' = overrides (put now actor entry op d) → audits d' !! stamp_id st = Some (emitted st (edit_event actor entry op)) →
    validateEntry entry = None → active_admin actor d → edited m now st actor entry op d (Ok m') d'.

Lemma edit_spec b m now st actor entry op d : is_op op → tidy m →
  wp b (la_edit m now st actor entry op) d (edited m now st actor entry op d).
Proof.
  intros Hop Hm. unfold la_edit. destruct (validateEntry entry) eqn:Ev; [wp_step; by apply ed_refused|].
  wp_step. apply wp_authorize; [intros e; by apply ed_refused|]. intros a _ Ha Hs. assert (active_admin actor d) as Hadm by by exists a.
  wp_step. apply wp_ret_or. destruct (nextSet _ _ _) as [next|e] eqn:En; [|by apply ed_refused].
  assert (next = (if op_add op then op_current op m ++ [entry] else default [] (without (Skeleton entry) (op_current op m))) ∧
    (is_Some (without (Skeleton entry) (op_current op m)) ↔ op_add op = false)) as [-> Hw].
  { unfold nextSet in En. destruct (without _ _), (op_add op); simplify_eq; split; try done; split; try done; by intros [? ?]. }
  destruct (nextSet_spec _ _ _ _ (sl_fair _ _ _ (op_slot op Hop) m Hm) (validateEntry_ok _ Ev) En) as [Hfair _].
  destruct (sl_set _ _ _ (op_slot op Hop) m _ Hm Hfair) as (m' & Happ & _).
  assert (∀ d', overrides d' = overrides (put now actor entry op d) → audits d' !! stamp_id st = Some (emitted st (edit_event actor entry op)) →
    wp b (match op_apply op m (if op_add op then op_current op m ++ [entry] else default [] (without (Skeleton entry) (op_current op m))) with
          | (Some e, _) => st_fail (errorf "listadmin: apply the edit" [e]) | (None, m') => st_ret m' end) d' (edited m now st actor entry op d)) as Happly.
  { intros d' H1 H2. rewrite Happ. wp_step. by apply ed_done. }
  wp_step. destruct (op_weakens op) eqn:Ew.
  - wp_step. apply wp_audit; [intros; by apply ed_refused|]. apply wp_persist; [done|intros; by apply ed_refused|].
    apply Happly; [done|]. simpl. by rewrite lookup_insert_eq.
  - wp_step. apply wp_persist; [done|intros; by apply ed_refused|]. apply wp_audit; [intros; by apply ed_half|].
    apply Happly; [done|]. simpl. by rewrite lookup_insert_eq.
Qed.

Context (s : seed).

Lemma decided_put now actor entry op d kind sk : is_op op → ListKind_IsValid kind = true →
  decided s (overrides (put now actor entry op d)) kind sk ↔
  if decide (kind = op_kind op ∧ sk = Skeleton entry) then op_add op = true else decided s (overrides d) kind sk.
Proof.
  intros Hop Hv. unfold decided, put. cbn [set_overrides overrides]. unfold override_key. cbn [LO_List LO_Skeleton edit_override].
  assert (ListKind_IsValid (op_kind op) = true) as Hv' by by destruct Hop.
  case_decide as Hd.
  - destruct Hd as [-> ->]. rewrite lookup_insert_eq. cbn [LO_State edit_override]. unfold op_state. by destruct (op_add op).
  - rewrite lookup_insert_ne; [done|]. intros [= Hk Hs]. apply Hd. split; [symmetry; by apply kind_of_string|done].
Qed.

Lemma put_ok now actor entry op d : is_op op → validateEntry entry = None → overrides_ok (overrides d) → overrides_ok (overrides (put now actor entry op d)).
Proof.
  intros Hop Hv Ht. unfold put. cbn [set_overrides overrides]. apply map_Forall_insert_2; [|done]. split_and!; try done.
  - by apply validateEntry_ok.
  - by destruct Hop.
  - simpl. unfold op_state. destruct (op_add op); auto.
Qed.

(** The matcher after a completed edit. *)
Lemma done_holds m now st actor entry op d m' d' : is_op op → tidy m → edited m now st actor entry op d (Ok m') d' →
  tidy m' ∧ m_lists m' = m_lists m ∧
  ∀ kind sk, holds m' kind sk ↔ if decide (kind = op_kind op ∧ sk = Skeleton entry) then op_add op = true else holds m kind sk.
Proof.
  intros Hop Hm He. inversion He as [| |m1 d1 Happ Hw _ _ Hv _]; subst. pose proof (op_slot op Hop) as Hsl.
  assert (nextSet (op_current op m) entry (op_add op) = Ok (if op_add op then op_current op m ++ [entry] else default [] (without (Skeleton entry) (op_current op m)))) as En.
  { unfold nextSet. destruct (without _ _), (op_add op); try done; exfalso; [by assert (true = false) by (apply Hw; by eexists)|destruct (proj2 Hw eq_refl); done]. }
  destruct (nextSet_spec _ _ _ _ (sl_fair _ _ _ Hsl m Hm) (validateEntry_ok _ Hv) En) as [Hf Hin].
  destruct (sl_set _ _ _ Hsl m _ Hm Hf) as (m2 & Happ2 & Hm2 & Hl2 & Hh2 & Ho2). rewrite Happ in Happ2. injection Happ2 as <-.
  split_and!; [done|done|]. intros kind sk. destruct (decide (kind = op_kind op)) as [->|Hk].
  - pose proof (sl_get _ _ _ Hsl m sk Hm) as Hg. rewrite Hh2, Hin. clear - Hg. destruct (decide (sk = Skeleton entry)) as [->|Hsk].
    + rewrite decide_True by done. destruct (op_add op); split; try done; [by right|by intros [_ ?]].
    + rewrite decide_False by (by intros [_ ?]). destruct (op_add op); rewrite Hg; split; auto; [by intros [?|?]|by intros [? _]].
  - rewrite decide_False by (by intros [? _]). by apply Ho2.
Qed.

(** One step: an edit, or anything that leaves the record and the matcher alone. *)
Inductive la_step : Matcher * conn → Matcher * conn → Prop :=
| la_ok m c now st actor entry op m' c' : is_op op → la_edit m now st actor entry op c = (Ok m', c') → la_step (m, c) (m', c')
| la_err m c now st actor entry op e c' : is_op op → la_edit m now st actor entry op c = (Err e, c') → la_step (m, c) (m, c')
| la_other m c c' : overrides (data c') = overrides (data c) → la_step (m, c) (m, c').

(** The steps of which no edit failed half-way. *)
Inductive la_clean : Matcher * conn → Matcher * conn → Prop :=
| lc_ok m c now st actor entry op m' c' : is_op op → la_edit m now st actor entry op c = (Ok m', c') → la_clean (m, c) (m', c')
| lc_other m c c' : overrides (data c') = overrides (data c) → la_clean (m, c) (m, c').

Record kept (lists : list compiledList) (x : Matcher * conn) : Prop := MkKept {
  kp_tidy : tidy x.1;
  kp_lists : m_lists x.1 = lists;
  kp_record : overrides_ok (overrides (data x.2));
  kp_safe : no_laxer s x.1 (overrides (data x.2));
}.

Lemma run_edited m now st actor entry op c r c' : is_op op → tidy m → la_edit m now st actor entry op c = (r, c') →
  edited m now st actor entry op (data c) r (data c').
Proof. intros Hop Hm E. apply (wp_run _ _ _ _ _ _ _ (edit_spec false m now st actor entry op (data c) Hop Hm) eq_refl ltac:(done) E). Qed.

Lemma step_kept lists x y : la_step x y → kept lists x → kept lists y.
Proof.
  intros [m c now st actor entry op m' c' Hop E|m c now st actor entry op e c' Hop E|m c c' E] [Hm Hl Ht [Ha Hb]]; simpl in *; subst lists.
  - apply run_edited in E; [|done|done]. destruct (done_holds _ _ _ _ _ _ _ _ _ Hop Hm E) as (Hm' & Hl' & Hh).
    inversion E as [| |m1 d1 _ _ Ho _ Hv _]; subst. split; simpl; try done; rewrite Ho; [by apply put_ok|].
    split; intros sk; rewrite decided_put, Hh by done; case_decide; first [done|exact (Ha sk)|exact (Hb sk)].
  - apply run_edited in E; [|done|done]. inversion E as [e' d1 Ho|e' Hw Hv _|]; subst.
    { split; simpl; rewrite ?Ho; done. }
    split; simpl; try done; match goal with Hd : _ = data c' |- _ => rewrite <- Hd end.
    + by apply put_ok.
    + split; intros sk; rewrite decided_put by done; case_decide as Hd; try first [exact (Ha sk)|exact (Hb sk)]; destruct Hd as [Hk _]; by destruct Hop.
  - split; simpl; by rewrite ?E.
Qed.

Lemma clean_in_step x y : la_clean x y → tidy x.1 → in_step s x.1 (overrides (data x.2)) → in_step s y.1 (overrides (data y.2)).
Proof.
  intros [m c now st actor entry op m' c' Hop E|m c c' E] Hm Hin; simpl in *; [|by rewrite E].
  apply run_edited in E; [|done|done]. destruct (done_holds _ _ _ _ _ _ _ _ _ Hop Hm E) as (_ & _ & Hh).
  inversion E as [| |m1 d1 _ _ Ho _ Hv _]; subst. intros kind sk Hk. rewrite Ho, decided_put, Hh by done. case_decide; [done|by apply Hin].
Qed.

(** Exempting less and blocking more refuses more. *)
Lemma laxer_refuses m m' name : m_ready m' = true → m_ready m = true → m_lists m' = m_lists m →
  (∀ sk, holds m' ListKindAllowlist sk → holds m ListKindAllowlist sk) →
  (∀ sk, holds m ListKindBlocklistTerm sk → holds m' ListKindBlocklistTerm sk) →
  Res_Allowed (Matcher_Check (Some m') name) = true → Res_Allowed (Matcher_Check (Some m) name) = true.
Proof.
  intros Hr' Hr Hl Ha Hb. rewrite !Matcher_Check_iff. intros (? & [= <-] & _ & Hlen & Hne & Hcase). exists m. split_and!; try done.
  destruct Hcase as [Hal|[Hamb Hc]]; [left; by apply Ha|right]. split; [done|]. intros c Hrd Hlist. apply (Hc c Hrd).
  destruct Hlist as [He|(cl & Hcl & Hit)]; [left; by apply Hb|right]. exists cl. by rewrite Hl.
Qed.
End edits.

(** ** Claims *)

Section claims.
Context `{UF : !UnicodeFold} {U : UnicodeData}.

Definition permits (m : Matcher) (name : gostring) : Prop := Res_Allowed (Matcher_Check (Some m) name) = true.

Lemma in_step_kept s m c lists : tidy m → m_lists m = lists → overrides_ok (overrides (data c)) → in_step s m (overrides (data c)) → kept s lists (m, c).
Proof. intros Hm Hl Ht Hi. split; try done. split; intros sk; [apply (Hi ListKindAllowlist sk eq_refl)|apply (Hi ListKindBlocklistTerm sk eq_refl)]. Qed.

Lemma steps_kept s lists x y : steps la_step x y → kept s lists x → kept s lists y.
Proof. intros H Hk. eapply steps_invariant; [|exact Hk|exact H]. intros a b Ha Hab. by eapply step_kept. Qed.

Lemma clean_steps_in_step s lists x y : steps la_clean x y → kept s lists x → in_step s x.1 (overrides (data x.2)) → in_step s y.1 (overrides (data y.2)).
Proof.
  intros H Hk Hi. induction H as [|a b c Hab _ IH]; [done|]. apply IH.
  - eapply step_kept; [|exact Hk]. destruct Hab; [by eapply la_ok|by eapply la_other].
  - eapply clean_in_step; [exact Hab|apply Hk|done].
Qed.

(** C21. A restart never reopens a name.  Take the policy loaded at start-up and any
    sequence of edits by administrators, whichever of their writes fail; loading the
    policy again from the same seed and the record of the edits succeeds, and permits no
    name that was refused before the restart.  When no edit failed it permits exactly
    the same names. *)
Theorem restart_never_weakens s cfg file m0 c m1 c1 m2 c2 c3 : seedLists cfg file = Ok s → fair_seed s → tidy m0 → overrides_ok (overrides (data c)) →
  LoadPolicy m0 cfg file c = (Ok m1, c1) → steps la_step (m1, c1) (m2, c2) → data c3 = data c2 → faults c3 = [] →
  ∃ m3, fst (LoadPolicy m0 cfg file c3) = Ok m3 ∧ (∀ name, permits m3 name → permits m2 name) ∧
    (steps la_clean (m1, c1) (m2, c2) → ∀ name, permits m3 name ↔ permits m2 name).
Proof.
  intros Hs Hf Hm0 Ht E Hst Hd Hfl.
  destruct (wp_run _ _ _ _ _ _ _ (LoadPolicy_spec false m0 cfg file s _ Hs Hf Hm0 Ht) eq_refl ltac:(done) E) as (Hd1 & Hm1 & Hl1 & Hi1).
  rewrite <- Hd1 in Ht, Hi1. pose proof (in_step_kept s m1 c1 (m_lists m0) Hm1 Hl1 Ht Hi1) as Hk1.
  destruct (steps_kept _ _ _ _ Hst Hk1) as [Hm2 Hl2 Ht2 [Ha2 Hb2]]. simpl in Hm2, Hl2, Ht2.
  destruct (LoadPolicy m0 cfg file c3) as [r c4] eqn:E3.
  rewrite <- Hd in Ht2. destruct (wp_run _ _ _ _ _ _ _ (LoadPolicy_spec true m0 cfg file s _ Hs Hf Hm0 Ht2) eq_refl (λ _, Hfl) E3) as [_ Hr].
  destruct r as [m3|e]; [|done]. destruct Hr as (Hm3 & Hl3 & Hi3). rewrite Hd in Hi3. exists m3. split; [done|].
  assert (∀ name, permits m3 name → permits m2 name) as Hle.
  { intros name. unfold permits. apply laxer_refuses; [apply Hm3|apply Hm2|congruence| |].
    - intros sk Hh. apply Ha2. by apply (Hi3 ListKindAllowlist sk eq_refl).
    - intros sk Hh. apply (Hi3 ListKindBlocklistTerm sk eq_refl). by apply Hb2. }
  split; [done|]. intros Hcl name. split; [apply Hle|]. pose proof (clean_steps_in_step _ _ _ _ Hcl Hk1 Hi1) as Hi2. simpl in Hi2.
  unfold permits. apply laxer_refuses; [apply Hm2|apply Hm3|congruence| |].
  - intros sk Hh. apply (Hi3 ListKindAllowlist sk eq_refl). by apply (Hi2 ListKindAllowlist sk eq_refl).
  - intros sk Hh. apply (Hi2 ListKindBlocklistTerm sk eq_refl). by apply (Hi3 ListKindBlocklistTerm sk eq_refl).
Qed.

(** An edit is authorized, recorded and exact.  A success means that an active
    administrator asked for it, that the record of it is in the audit log and the entry
    in the record of edits, and that the list gained or lost exactly what folds like the
    entry, the other list being as it was.  A failure leaves the record of edits alone,
    unless the edit only makes the lists stricter: then it may already be in the record
    of edits though the log has nothing of it. *)
Theorem list_edit_exact m now st actor entry op c r c' : is_op op → tidy m → la_edit m now st actor entry op c = (r, c') →
  (∀ m', r = Ok m' → active_admin actor (data c) ∧
     audits (data c') !! stamp_id st = Some (emitted st (edit_event actor entry op)) ∧
     overrides (data c') !! (ListKind_string (op_kind op), Skeleton entry) = Some (edit_override now actor entry op) ∧
     tidy m' ∧ m_lists m' = m_lists m ∧
     ∀ kind sk, holds m' kind sk ↔ if decide (kind = op_kind op ∧ sk = Skeleton entry) then op_add op = true else holds m kind sk) ∧
  (∀ e, r = Err e → overrides (data c') = overrides (data c) ∨
     op_weakens op = false ∧ active_admin actor (data c) ∧
     data c' = set_overrides <[(ListKind_string (op_kind op), Skeleton entry) := edit_override now actor entry op]> (data c)).
Proof.
  intros Hop Hm E. apply run_edited in E as He; [|done|done]. split.
  - intros m' ->. destruct (done_holds _ _ _ _ _ _ _ _ _ Hop Hm He) as (Hm' & Hl' & Hh).
    inversion He as [| |m1 d1 _ _ Ho Hau _ Ha]; subst. split_and!; try done. rewrite Ho. unfold put, override_key. simpl. by rewrite lookup_insert_eq.
  - intros e ->. inversion He as [e' d1 Ho|e' Hw Hv Ha Hd|]; subst; [by left|right]. done.
Qed.

(** A tightening whose entry the log refuses takes effect unrecorded: the caller gets an
    error, nothing is written to the log, but the entry is in the record of edits and
    in force after the next start-up. *)
Lemma unrecorded_tightening s m now st actor entry c e : tidy m → faults c = [] → actor ≠ [] → active_admin actor (data c) →
  validateEntry entry = None → without (Skeleton entry) (ExtraTerms m) = None → Event_validate (edit_event actor entry AddBlocklistTerm) = Some e →
  ∃ e' c', la_edit m now st actor entry AddBlocklistTerm c = (Err e', c') ∧ audits (data c') = audits (data c) ∧
    decided s (overrides (data c')) ListKindBlocklistTerm (Skeleton entry).
Proof.
  intros Hm Hf Hne (a & Ha & Hs) Hv Hw Hev. destruct (la_edit _ _ _ _ _ _ c) as [r c'] eqn:E.
  refine (_ (wp_run true _ (data c) (λ r d', (∃ e', r = Err e') ∧ d' = put now actor entry AddBlocklistTerm (data c)) c r c' _ eq_refl (λ _, Hf) E)).
  { intros [[e' ->] Hd]. exists e', c'. rewrite Hd. split_and!; [done|done|]. apply (decided_put s); [constructor|done|]. by rewrite decide_True. }
  clear E. unfold la_edit. rewrite Hv. wp_step. unfold la_authorize, admin_Get. rewrite !bool_decide_eq_false_2 by done. wp_step. wp_step; [done|]. rewrite Ha.
  rewrite (bool_decide_eq_true_2 _ Hs). simpl negb. cbn iota. wp_step. wp_step. apply wp_ret_or. unfold nextSet. simpl op_current. rewrite Hw. simpl op_add. cbn iota.
  wp_step. simpl op_weakens. cbn iota. wp_step. unfold la_persist. apply wp_wrapped. unfold override_Put. cbn [LO_List LO_State LO_Skeleton LO_Entry LO_ActorID edit_override].
  rewrite (bool_decide_eq_false_2 (Skeleton entry = [])) by by apply validateEntry_ok.
  assert (entry ≠ []) as Hent by (intros ->; discriminate Hv). rewrite (bool_decide_eq_false_2 _ Hent), (bool_decide_eq_false_2 _ Hne). simpl negb. cbn iota.
  wp_step. wp_step; [done|]. wp_step. unfold la_audit. apply wp_wrapped. unfold Emit, Emitter_record. rewrite Hev. wp_step. eauto.
Qed.
End claims.

(** ** Evaluating *)

Module ListSample.
#[export] Existing Instance AkSample.ascii_only.
#[export] Existing Instance FoldSample.plain.
Definition cfg : seed := MkSeed [go "tinker"] [go "scunthorpe"].
Definition m0 : Matcher := match FoldSample.matcher with Ok m => m | Err _ => MkMatcher true [] None None end.
Definition admin : Administrator := MkAdministrator (go "adm") (go "Ada") AdminStatusActive 0 0.
Definition c0 : conn := MkConn (set_admins (λ _, {[ go "adm" := admin ]}) empty_db) [].
Definition st (n : string) : stamp := MkStamp (go n) 0.
Definition booted := LoadPolicy m0 cfg None c0.
Definition m1 : Matcher := match fst booted with Ok m => m | Err _ => m0 end.
Definition edited1 := la_edit m1 1 (st "a1") (go "adm") (go "badword") AddBlocklistTerm (snd booted).
Definition m2 : Matcher := match fst edited1 with Ok m => m | Err _ => m0 end.
Definition edited2 := la_edit m2 2 (st "a2") (go "adm") (go "scunthorpe") RemoveAllowlistEntry (snd edited1).
Definition m3 : Matcher := match fst edited2 with Ok m => m | Err _ => m0 end.

Lemma m0_tidy : tidy m0.
Proof.
  assert (m_allow m0 = None ∧ m_extra m0 = None) as [Ha He] by (vm_compute; split; reflexivity).
  split; [vm_compute; reflexivity|rewrite Ha; discriminate|rewrite He; discriminate].
Qed.
Lemma cfg_fair : fair_seed cfg.
Proof. unfold fair_seed, fair. apply (bool_decide_unpack _). vm_compute. exact I. Qed.
Lemma booted_ok : booted = (Ok m1, snd booted).
Proof.
  assert (is_ok (fst booted) = true) as H by (vm_compute; reflexivity). unfold m1. destruct booted as [[m|e] c]; [reflexivity|discriminate H].
Qed.
Lemma edited1_ok : edited1 = (Ok m2, snd edited1).
Proof.
  assert (is_ok (fst edited1) = true) as H by (vm_compute; reflexivity). unfold m2. destruct edited1 as [[m|e] c]; [reflexivity|discriminate H].
Qed.
Lemma edited2_ok : edited2 = (Ok m3, snd edited2).
Proof.
  assert (is_ok (fst edited2) = true) as H by (vm_compute; reflexivity). unfold m3. destruct edited2 as [[m|e] c]; [reflexivity|discriminate H].
Qed.
Lemma m1_tidy : tidy m1.
Proof.
  refine (_ (wp_run false _ _ _ c0 _ _ (LoadPolicy_spec false m0 cfg None cfg (data c0) eq_refl cfg_fair m0_tidy _) eq_refl ltac:(done) booted_ok)).
  - intros (_ & H & _). exact H.
  - change (overrides_ok ∅). apply map_Forall_empty.
Qed.
End ListSample.
#[local] Existing Instance AkSample.ascii_only.
#[local] Existing Instance FoldSample.plain.

Lemma restart_never_weakens_witness : ∃ m, fst (LoadPolicy ListSample.m0 ListSample.cfg None (snd ListSample.edited2)) = Ok m ∧
  ¬ permits ListSample.m3 (go "badword") ∧ ¬ permits m (go "badword") ∧ (permits m (go "carol") ↔ permits ListSample.m3 (go "carol")).
Proof.
  destruct (restart_never_weakens ListSample.cfg ListSample.cfg None ListSample.m0 ListSample.c0 ListSample.m1 (snd ListSample.booted) ListSample.m3 (snd ListSample.edited2)
    (snd ListSample.edited2) eq_refl ListSample.cfg_fair ListSample.m0_tidy) as (m & Hm & Hle & Heq).
  - change (overrides_ok ∅). apply map_Forall_empty.
  - exact ListSample.booted_ok.
  - eapply steps_cons; [|apply steps_one].
    + apply (la_ok _ _ 1 (ListSample.st "a1") (go "adm") (go "badword") AddBlocklistTerm ListSample.m2 (snd ListSample.edited1)); [constructor|exact ListSample.edited1_ok].
    + apply (la_ok _ _ 2 (ListSample.st "a2") (go "adm") (go "scunthorpe") RemoveAllowlistEntry ListSample.m3 (snd ListSample.edited2)); [constructor|exact ListSample.edited2_ok].
  - reflexivity.
  - vm_compute. reflexivity.
  - assert (¬ permits ListSample.m3 (go "badword")) as Hno by (unfold permits; vm_compute; discriminate).
    exists m. split; [exact Hm|]. split; [exact Hno|]. split; [intros H; apply Hno, Hle, H|]. apply Heq.
    eapply steps_cons; [|apply steps_one].
    + apply (lc_ok _ _ 1 (ListSample.st "a1") (go "adm") (go "badword") AddBlocklistTerm ListSample.m2 (snd ListSample.edited1)); [constructor|exact ListSample.edited1_ok].
    + apply (lc_ok _ _ 2 (ListSample.st "a2") (go "adm") (go "scunthorpe") RemoveAllowlistEntry ListSample.m3 (snd ListSample.edited2)); [constructor|exact ListSample.edited2_ok].
Defined.

Lemma list_edit_exact_witness : holds ListSample.m2 ListKindBlocklistTerm (go "badword") ∧
  audits (data (snd ListSample.edited1)) !! go "a1" = Some (emitted (ListSample.st "a1") (edit_event (go "adm") (go "badword") AddBlocklistTerm)).
Proof.
  pose proof ListSample.edited1_ok as E. unfold ListSample.edited1 at 1 in E.
  destruct (list_edit_exact ListSample.m1 1 (ListSample.st "a1") (go "adm") (go "badword") AddBlocklistTerm (snd ListSample.booted) (Ok ListSample.m2) (snd ListSample.edited1)
    op_term_add ListSample.m1_tidy E) as [H _].
  destruct (H ListSample.m2 eq_refl) as (_ & Hau & _ & _ & _ & Hh). split; [|exact Hau]. apply Hh.
  assert (go "badword" = Skeleton (go "badword")) as Hsk by (vm_compute; reflexivity). rewrite decide_True by (split; [reflexivity|exact Hsk]). reflexivity.
Defined.
