(* ===== verification/Onboarding.v ===== *)
(** * Onboarding

    [internal/service/bootstrap], which seeds an owner with a published key from the
    command line, and [internal/service/onboarding], with which an administrator
    provisions an owner and hands out an enrolment code.  Identifiers, clock readings,
    random bytes and audit stamps are arguments. *)

From stdpp Require Import sorting.
From S2P Require Import Prelude DomainErrors GoLib Domain Keys Blocklist Sha256 Tokens Database StoreLogic AuditLog KeyRepos AccessKey KeySets Handles DeviceKeys Publish PairingCode PairingRepo Authenticator Enrollment Administrators ListAdmin.

Open Scope Z_scope.
Open Scope stm_scope.

(** src/internal/service/bootstrap/bootstrap.go:28-31, DefaultSetName *)
Definition DefaultSetName : gostring := go "default".

(** src/internal/service/bootstrap/bootstrap.go:33-37, DefaultDeviceName *)
Definition DefaultDeviceName : gostring := go "bootstrap".

(** src/internal/service/onboarding/onboarding.go:60-64, DefaultClientLabel *)
Definition DefaultClientLabel : gostring := go "owner-enrollment".

Section accounts.
Context {K : Type} `{HK : !Ssh K} `{UF : !UnicodeFold} {U : UnicodeData}.

(** The identifiers of a new account. *)
Record account_ids := MkAccountIds { id_owner : gostring; id_handle : gostring; id_set : gostring }.

Definition account_owner (ids : account_ids) (now : time) : Owner := MkOwner (id_owner ids) OwnerStatusActive now now None.
Definition account_handle (ids : account_ids) (handle : gostring) (now : time) : Handle :=
  MkHandle (id_handle ids) (id_owner ids) handle NameStateActive None false false now now.
Definition account_set (ids : account_ids) (setName : gostring) (now : time) : KeySet :=
  MkKeySet (id_set ids) (id_owner ids) setName VisibilityPublic true NameStateActive None false false now now.

(** src/internal/service/bootstrap/bootstrap.go:136-170, Seed (the rows of the account;
    onboarding.go writes the same three) *)
Definition open_account (ids : account_ids) (handle setName : gostring) (now : time) : stM conn unit :=
  let! _ := wrapped "create owner" (owner_Create (account_owner ids now)) in
  let! _ := wrapped "register handle" (handle_Register (account_handle ids handle now)) in
  wrapped "create key set" (keyset_Create (account_set ids setName now)).

(** src/internal/service/bootstrap/bootstrap.go:101-112, Seed (the set's name) *)
Definition chosen_set (guard : option (option Matcher)) (setName : gostring) : result gostring :=
  if bool_decide (setName = []) then Ok DefaultSetName else
  match Guard_Check guard KindKeySetName OpCreate setName with
  | Some e => Err (errorf "set name" [e])
  | None => Ok setName
  end.

(** src/internal/service/bootstrap/bootstrap.go:217-286, AddKey *)
Definition AddKey (guard : option (option Matcher)) (deviceID keyID ownerID keySetID deviceName : gostring) (key : ParsedKey) (now : time) : stM conn unit :=
  match Guard_Check guard KindDeviceName OpCreate deviceName with
  | Some e => st_fail (errorf "bootstrap: device name" [e])
  | None =>
      let! _ := wrapped "create device" (device_Create (new_device deviceID ownerID deviceName now)) in
      let! _ := wrapped "create public key" (pubkey_Create (enrolled_key keyID ownerID deviceID key now)) in
      wrapped "add set member" (keyset_AddMember ownerID keySetID keyID now)
  end.

(** src/internal/service/bootstrap/bootstrap.go:39-61, Params *)
Record SeedParams := MkSeedParams {
  sp_Handle : gostring;
  sp_SetName : gostring;
  sp_DeviceName : gostring;
  sp_KeyLine : bytes;
  sp_Now : time;
  sp_Guard : option (option Matcher);
}.

Definition parse_line (line : bytes) : result (option ParsedKey) :=
  if bool_decide (line = []) then Ok None else
  match Parse (K:=K) line with
  | Err e => Err (errorf "bootstrap: parse key" [e])
  | Ok k => Ok (Some k)
  end.

(** src/internal/service/bootstrap/bootstrap.go:81-200, Seed
    (returns the set's name and the key; the identifiers are those passed in) *)
Definition Seed (ids : account_ids) (deviceID keyID : gostring) (p : SeedParams) : stM conn (gostring * option ParsedKey) :=
  match Guard_Check (sp_Guard p) KindHandle OpCreate (sp_Handle p) with
  | Some e => st_fail (errorf "bootstrap: handle" [e])
  | None =>
      let! setName := ret_or (chosen_set (sp_Guard p) (sp_SetName p)) in
      let! parsed := ret_or (parse_line (sp_KeyLine p)) in
      let! _ := wrapped "bootstrap" (WithTx (
        let! _ := open_account ids (sp_Handle p) setName (sp_Now p) in
        match parsed with
        | None => st_ret tt
        | Some k =>
            let deviceName := if bool_decide (sp_DeviceName p = []) then DefaultDeviceName else sp_DeviceName p in
            AddKey (sp_Guard p) deviceID keyID (id_owner ids) (id_set ids) deviceName k (sp_Now p)
        end)) in
      st_ret (setName, parsed)
  end.

(** src/internal/service/onboarding/onboarding.go:324-347, Service.authorize *)
Definition ob_authorize (actor : gostring) : stM conn unit :=
  if bool_decide (actor = []) then st_fail (errorf "onboarding: no administrator named" [ErrUnauthorized]) else
  try! r := admin_Get actor in
  match r with
  | Err e =>
      if errors_is e ErrNotFound then st_fail (errorf "onboarding: not an administrator" [ErrUnauthorized])
      else st_fail (errorf "onboarding: administrator lookup failed, refusing" [e])
  | Ok admin =>
      if negb (bool_decide (Admin_Status admin = AdminStatusActive)) then st_fail (errorf "onboarding: administrator is not active" [ErrForbidden])
      else st_ret tt
  end.

(** src/internal/service/onboarding/onboarding.go:153-162, Request *)
Record OnboardRequest := MkOnboardRequest { rq_Handle : gostring; rq_SetName : gostring; rq_ClientLabel : gostring }.

Definition created_details (handle setName : gostring) : Details :=
  Details_Set (Details_Set no_details DetailHandle handle) DetailKeySetName setName.

Definition created_event (actor ownerID handle setName : gostring) : Event :=
  MkEvent ActorTypeAdministrator actor (go "owner.created") TargetTypeOwner ownerID (created_details handle setName).

(** src/internal/service/onboarding/onboarding.go:184-322, Service.ProvisionOwner
    (the minter is the enrolment service; [approved] and [minted] are its clock readings) *)
Definition ProvisionOwner (guard : option (option Matcher)) (ids : account_ids) (ent : pair_entropy) (now approved minted : time) (st : stamp)
    (actor : gostring) (req : OnboardRequest) : stM conn (gostring * Grant) :=
  let! _ := ob_authorize actor in
  match Guard_Check guard KindHandle OpCreate (rq_Handle req) with
  | Some e => st_fail (errorf "onboarding: handle" [e])
  | None =>
      let! setName := ret_or (chosen_set guard (rq_SetName req)) in
      let clientLabel := if bool_decide (rq_ClientLabel req = []) then DefaultClientLabel else rq_ClientLabel req in
      let! grant := wrapped "onboarding" (WithTx (
        let! _ := open_account ids (rq_Handle req) setName now in
        let! _ := wrapped "audit owner created" (Emit st (created_event actor (id_owner ids) (rq_Handle req) setName)) in
        wrapped "mint enrollment credential" (mintInto ent approved minted (id_owner ids) clientLabel [MkScope ScopeFullOwner []]))) in
      st_ret (setName, grant)
  end.
End accounts.

(** ** Specifications *)

Section specs.
Context {K : Type} `{HK : !Ssh K} `{UF : !UnicodeFold} {U : UnicodeData}.

Definition handle_row (ids : account_ids) (handle : gostring) (now : time) : HandleRow :=
  MkHandleRow (account_handle ids handle now) (Skeleton handle) TableVersion.

(** The account's rows are new, and its names free. *)
Record vacant (ids : account_ids) (handle setName : gostring) (now : time) (d : db) : Prop := MkVacant {
  vc_owner : owners d !! id_owner ids = None;
  vc_handle : handles d !! id_handle ids = None;
  vc_clear : clear_of (id_handle ids) (handle_row ids handle now) (handles d);
  vc_set : keysets d !! id_set ids = None;
  vc_name : named_set (id_owner ids) setName d = [];
  vc_default : default_set (id_owner ids) d = [];
}.

Definition with_account (ids : account_ids) (handle setName : gostring) (now : time) (d : db) : db :=
  set_keysets <[id_set ids := account_set ids setName now]>
    (set_handles <[id_handle ids := handle_row ids handle now]> (set_owners <[id_owner ids := account_owner ids now]> d)).

Lemma open_account_spec b ids handle setName now d :
  wp b (open_account ids handle setName now) d (λ r d', (∃ e, r = Err e) ∨ r = Ok tt ∧ vacant ids handle setName now d ∧ d' = with_account ids handle setName now d).
Proof.
  unfold open_account, owner_Create. wp_step. apply wp_wrapped. do 2 wp_step; [eauto|]. cbn [Owner_ID account_owner].
  destruct (owners d !! id_owner ids) eqn:Eo; [eauto|]. wp_step. wp_step. apply wp_wrapped. apply wp_Register; [eauto|].
  cbn [Handle_ID Handle_Name account_handle handles set_owners]. intros Hh Hc. apply wp_wrapped. unfold keyset_Create. do 2 wp_step; [eauto|].
  cbn [KeySet_ID KeySet_OwnerID KeySet_Name KeySet_IsDefault KeySet_Visibility KeySet_State account_set keysets set_handles set_owners].
  destruct (keysets d !! id_set ids) eqn:Es; [eauto|].
  change (named_set (id_owner ids) setName _) with (named_set (id_owner ids) setName d). destruct (named_set _ _ d) eqn:En; [|eauto].
  change (default_set (id_owner ids) _) with (default_set (id_owner ids) d).
  destruct (decide (default_set (id_owner ids) d = [])) as [Hd|Hd]; [rewrite (bool_decide_eq_true_2 _ Hd)|rewrite (bool_decide_eq_false_2 _ Hd)]; simpl; [|eauto].
  rewrite lookup_insert_eq. wp_step. right. split_and!; [done| |done]. by split.
Qed.

Definition with_key (deviceID keyID ownerID setID deviceName : gostring) (k : ParsedKey) (now : time) (d : db) : db :=
  set_members <[(setID, keyID) := MkKeySetMembership setID keyID now]>
    (set_pubkeys <[keyID := enrolled_key keyID ownerID deviceID k now]>
      (set_devices <[deviceID := new_device deviceID ownerID deviceName now]> d)).

Lemma AddKey_spec b guard deviceID keyID ownerID setID deviceName k now d :
  wp b (AddKey guard deviceID keyID ownerID setID deviceName k now) d (λ r d', (∃ e, r = Err e) ∨
    r = Ok tt ∧ pubkeys d !! keyID = None ∧ same_fingerprint (enrolled_key keyID ownerID deviceID k now) d = [] ∧
    d' = with_key deviceID keyID ownerID setID deviceName k now d).
Proof.
  unfold AddKey. destruct (Guard_Check _ _ _ _); [wp_step; eauto|]. wp_step. apply wp_wrapped. unfold device_Create. do 2 wp_step; [eauto|].
  cbn [Device_ID Device_OwnerID new_device]. destruct (devices d !! _); [eauto|]. destruct (owners d !! ownerID) eqn:Eo; [|eauto].
  cbn [Device_Status new_device]. simpl DeviceStatus_IsValid. cbn iota. wp_step. wp_step. apply wp_wrapped. apply wp_pubkey_Create; [eauto|].
  cbn [PublicKey_ID enrolled_key pubkeys set_devices]. intros Hk Hf _ _. apply wp_wrapped. apply wp_AddMember; [eauto|]. intros _ _ _. right. done.
Qed.

Lemma Seed_spec b ids deviceID keyID p d :
  wp b (Seed (K:=K) ids deviceID keyID p) d (λ r d', (∃ e, r = Err e) ∧ d' = d ∨
    ∃ setName parsed, r = Ok (setName, parsed) ∧ Guard_Check (sp_Guard p) KindHandle OpCreate (sp_Handle p) = None ∧ parse_line (K:=K) (sp_KeyLine p) = Ok parsed ∧
      let d1 := with_account ids (sp_Handle p) setName (sp_Now p) d in
      vacant ids (sp_Handle p) setName (sp_Now p) d ∧
      match parsed with
      | None => d' = d1
      | Some k => ∃ deviceName, pubkeys d !! keyID = None ∧ same_fingerprint (enrolled_key keyID (id_owner ids) deviceID k (sp_Now p)) d = [] ∧
          d' = with_key deviceID keyID (id_owner ids) (id_set ids) deviceName k (sp_Now p) d1
      end).
Proof.
  unfold Seed. destruct (Guard_Check _ _ _ _) eqn:Eg; [wp_step; eauto|]. wp_step. apply wp_ret_or. destruct (chosen_set _ _) as [setName|]; [|eauto].
  wp_step. apply wp_ret_or. destruct (parse_line _) as [parsed|] eqn:Ep; [|eauto]. wp_step. apply wp_wrapped. wp_step; [eauto|].
  wp_step. eapply wp_mono; [apply open_account_spec|]. intros r d1 [[e ->]|(-> & Hv & ->)]; [eauto|]. cbn iota. destruct parsed as [k|].
  - eapply wp_mono; [apply AddKey_spec|]. intros r d2 [[e ->]|(-> & Hk & Hf & ->)]; [eauto|]. split; [|intros; eauto]. wp_step. right.
    exists setName, (Some k). split_and!; try done. eexists. split_and!; done.
  - wp_step. split; [|intros; eauto]. wp_step. right. exists setName, None. done.
Qed.

(** What every run of a call satisfies. *)
Lemma wp_every {A} (m : stM conn A) d Q : (∀ c r c', data c = d → m c = (r, c') → Q r (data c')) → wp false m d Q.
Proof. intros H c r c' Hd _ E. split; [by apply (H c)|done]. Qed.

Definition enrolment (ent : pair_entropy) (approved minted : time) (ownerID label : gostring) (scopes : list Scope) : DevicePairing :=
  filled ent minted (MkDraft ownerID [] label scopes PairingStatusApproved (Some approved)).

Lemma mintInto_spec ent approved now ownerID label scopes d :
  wp false (mintInto ent approved now ownerID label scopes) d (λ r d', (∃ e, r = Err e) ∨
    let pid := newPairingID (pe_id ent) in
    pairings d !! pid = None ∧
    r = Ok (MkGrant pid (formatDeviceCode pid (pe_secret ent)) [] (time_add now PairingLifetime) PairingPollInterval) ∧
    d' = set_links <[pid := MkLinkedIdentity pid ownerID APITokenProviderID pid None approved approved]>
           (set_pairings <[pid := enrolment ent approved now ownerID label scopes]> d)).
Proof.
  unfold mintInto. destruct (decide (ownerID = [])) as [Ho|Ho]; [rewrite (bool_decide_eq_true_2 _ Ho)|rewrite (bool_decide_eq_false_2 _ Ho)]; [wp_step; eauto|].
  destruct (ValidateScopes scopes); [wp_step; eauto|]. destruct (validateClientLabel label); [wp_step; eauto|]. wp_step.
  apply wp_every. intros c r c' <- E. apply enroll_create_inv in E as [[_ Hr]|(-> & Hn & ->)]; [destruct r; [done|eauto]|]. cbn iota.
  wp_step. apply wp_every. intros c1 r1 c1' Hd1 E. apply enroll_link_inv in E as [[_ Hr]|[-> ->]]; [destruct r1; [done|eauto]|]. rewrite Hd1. wp_step. right. done.
Qed.

Lemma wp_ob_authorize b actor d Q : (∀ e, Q (Err e) d) → (actor ≠ [] → active_admin actor d → Q (Ok tt) d) → wp b (ob_authorize actor) d Q.
Proof.
  intros He Ho. unfold ob_authorize, admin_Get. destruct (decide (actor = [])) as [Ha|Ha]; [rewrite (bool_decide_eq_true_2 _ Ha)|rewrite (bool_decide_eq_false_2 _ Ha)].
  - wp_step. apply He.
  - wp_step. wp_step; [wp_step; wp_step; apply He|]. destruct (admins d !! actor) as [a|] eqn:Ea; [|wp_step; wp_step; apply He].
    destruct (decide (Admin_Status a = AdminStatusActive)) as [Hs|Hs]; [rewrite (bool_decide_eq_true_2 _ Hs)|rewrite (bool_decide_eq_false_2 _ Hs)];
      simpl negb; cbn iota; wp_step; [|done]. apply Ho; [done|]. by exists a.
Qed.

(** Everything a provisioned owner has. *)
Definition provisioned (ids : account_ids) (ent : pair_entropy) (now approved minted : time) (st : stamp) (actor handle setName label : gostring) (d : db) : db :=
  let pid := newPairingID (pe_id ent) in
  set_links <[pid := MkLinkedIdentity pid (id_owner ids) APITokenProviderID pid None approved approved]>
    (set_pairings <[pid := enrolment ent approved minted (id_owner ids) label [MkScope ScopeFullOwner []]]>
      (set_audits <[stamp_id st := emitted st (created_event actor (id_owner ids) handle setName)]> (with_account ids handle setName now d))).

Lemma ProvisionOwner_spec guard ids ent now approved minted st actor req d :
  wp false (ProvisionOwner guard ids ent now approved minted st actor req) d (λ r d', (∃ e, r = Err e) ∧ d' = d ∨
    ∃ setName label grant, r = Ok (setName, grant) ∧ active_admin actor d ∧ Guard_Check guard KindHandle OpCreate (rq_Handle req) = None ∧
      chosen_set guard (rq_SetName req) = Ok setName ∧ vacant ids (rq_Handle req) setName now d ∧
      Grant_PairingID grant = newPairingID (pe_id ent) ∧ Grant_DeviceCode grant = formatDeviceCode (newPairingID (pe_id ent)) (pe_secret ent) ∧
      pairings d !! newPairingID (pe_id ent) = None ∧
      d' = provisioned ids ent now approved minted st actor (rq_Handle req) setName label d).
Proof.
  unfold ProvisionOwner. wp_step. apply wp_ob_authorize; [eauto|]. intros _ Hadm. destruct (Guard_Check _ _ _ _) eqn:Eg; [wp_step; eauto|].
  wp_step. apply wp_ret_or. destruct (chosen_set _ _) as [setName|] eqn:Es; [|eauto]. wp_step. apply wp_wrapped. wp_step; [eauto|].
  wp_step. eapply wp_mono; [apply open_account_spec|]. intros r d1 [[e ->]|(-> & Hv & ->)]; [eauto|]. cbn iota. wp_step. apply wp_wrapped. apply wp_Emit; [eauto|].
  intros _ _ _. apply wp_wrapped. eapply wp_mono; [apply mintInto_spec|]. intros r d2 [[e ->]|(Hp & -> & ->)]; [eauto|]. cbn iota.
  split; [|intros; eauto]. wp_step. right. eexists setName, _, _. split_and!; try done.
Qed.
End specs.

(** ** What the invariants make of a new account *)

Section claims.
Context {K : Type} `{HK : !Ssh K} `{HKL : !SshLaws K} `{UF : !UnicodeFold} {U : UnicodeData}.

Lemma default_set_nil ownerID d i a : default_set ownerID d = [] → keysets d !! i = Some a → KeySet_OwnerID a = ownerID → KeySet_IsDefault a = false.
Proof.
  intros Hn Ha Ho. destruct (KeySet_IsDefault a) eqn:Ed; [|done]. assert (a ∈ default_set ownerID d) as Hin; [|rewrite Hn in Hin; by apply not_elem_of_nil in Hin].
  apply list_elem_of_filter. split; [done|]. apply elem_of_rows. eauto.
Qed.

Lemma account_sets ids handle setName now d : vacant ids handle setName now d → sets_ok (keysets d) → sets_ok (keysets (with_account ids handle setName now d)).
Proof.
  intros Hv [[Hk Hn Hd] Hl]. unfold with_account. cbn [keysets set_keysets set_handles set_owners].
  assert (∀ i a, keysets d !! i = Some a → KeySet_OwnerID a = id_owner ids → KeySet_Name a ≠ setName ∧ KeySet_IsDefault a = false) as Hfree.
  { intros i a Ha Ho. split; [|by eapply (default_set_nil _ _ _ _ (vc_default _ _ _ _ _ Hv))]. intros Hnm. by apply (proj1 (named_set_nil _ _ _) (vc_name _ _ _ _ _ Hv) i a). }
  split; [split|].
  - intros i a [[<- <-]|[_ Ha]]%lookup_insert_Some; [done|by apply Hk].
  - intros i j a b [[<- <-]|[_ Ha]]%lookup_insert_Some [[<- <-]|[_ Hb]]%lookup_insert_Some Ho Hnm; [done|exfalso; by eapply Hfree|exfalso; by eapply (Hfree i a)|by eapply Hn].
  - intros i j a b [[<- <-]|[_ Ha]]%lookup_insert_Some [[<- <-]|[_ Hb]]%lookup_insert_Some Ho Da Db; [done|..|by eapply Hd].
    + destruct (Hfree j b) as [_ ?]; [done|done|congruence].
    + destruct (Hfree i a) as [_ ?]; [done|done|congruence].
  - intros i a [[<- <-]|[_ Ha]]%lookup_insert_Some Hda; [done|by eapply Hl].
Qed.

Lemma account_handles ids handle setName now d : vacant ids handle setName now d → handles_ok (handles d) → handles_ok (handles (with_account ids handle setName now d)).
Proof.
  intros [_ Hn Hc _ _ _] Hok. unfold with_account. cbn [handles set_keysets set_handles set_owners].
  refine (hstep_ok (λ _, True) _ _ _ Hok). exact (hs_register _ _ (account_handle ids handle now) Hn Hc).
Qed.

(** C20. Provisioning is all or nothing, and enrols.  A call that fails changes nothing.
    One that succeeds was asked for by an active administrator, with a permitted handle;
    it added an active owner, their active handle, a public default set, the record of
    it, and an approved pairing for the whole account, linked to the owner and opened by
    exactly the code returned - and nothing else, keeping handles and sets consistent. *)
Theorem ProvisionOwner_atomic guard ids ent now approved minted st actor req c r c' :
  ProvisionOwner guard ids ent now approved minted st actor req c = (r, c') →
  (∃ e, r = Err e) ∧ data c' = data c ∨
  ∃ setName label grant, r = Ok (setName, grant) ∧ active_admin actor (data c) ∧ Guard_Check guard KindHandle OpCreate (rq_Handle req) = None ∧
    vacant ids (rq_Handle req) setName now (data c) ∧
    data c' = provisioned ids ent now approved minted st actor (rq_Handle req) setName label (data c) ∧
    (∃ p, pairings (data c) !! Grant_PairingID grant = None ∧ pairings (data c') !! Grant_PairingID grant = Some p ∧
       Pair_Status p = PairingStatusApproved ∧ Pair_OwnerID p = id_owner ids ∧ Pair_Scopes p = [MkScope ScopeFullOwner []] ∧
       Grant_DeviceCode grant = formatDeviceCode (Grant_PairingID grant) (pe_secret ent) ∧ Pair_DeviceCodeHash p = hashDeviceSecret (pe_secret ent)) ∧
    (handles_ok (handles (data c)) → handles_ok (handles (data c'))) ∧ (sets_ok (keysets (data c)) → sets_ok (keysets (data c'))).
Proof.
  intros E. destruct (wp_run _ _ _ _ _ _ _ (ProvisionOwner_spec guard ids ent now approved minted st actor req _) eq_refl ltac:(done) E)
    as [?|(setName & label & grant & -> & Ha & Hg & _ & Hv & Hid & Hcode & Hn & Hd)]; [by left|right].
  exists setName, label, grant. split_and!; try done.
  - exists (enrolment ent approved minted (id_owner ids) label [MkScope ScopeFullOwner []]). rewrite Hid, Hd. split_and!; try done. simpl. by rewrite lookup_insert_eq.
  - rewrite Hd. by apply account_handles.
  - rewrite Hd. by apply account_sets.
Qed.

Lemma Guard_handle_syntax guard op name : Guard_Check guard KindHandle op name = None → ValidateHandle name = None.
Proof. unfold Guard_Check. destruct guard; [|done]. destruct (_ && _); [done|]. simpl. by destruct (ValidateHandle name). Qed.

(** The document of a set with one key in force is its line. *)
Lemma document_single ownerID setID d body k line : document (K:=K) ownerID setID d body → in_force ownerID setID d k →
  (∀ k', in_force ownerID setID d k' → k' = k) → prints (K:=K) k line → body = line.
Proof.
  intros (ks & lines & Hks & _ & Hnd & Hl & ->) Hin Hone Hp.
  assert (ks = [k]) as ->.
  { destruct ks as [|a ks]; [apply Hks in Hin; by apply not_elem_of_nil in Hin|]. assert (a = k) as -> by (apply Hone, Hks; left).
    destruct ks as [|b ks]; [done|]. assert (b = k) as -> by (apply Hone, Hks; right; left). rewrite !fmap_cons in Hnd.
    apply NoDup_cons in Hnd as [Hn _]. exfalso. apply Hn. left. }
  apply Forall2_cons_inv_l in Hl as (line' & rest & Hp' & Hr & ->). apply Forall2_nil_inv_l in Hr as ->. unfold prints in *. rewrite Hp in Hp'. injection Hp' as ->.
  simpl. by rewrite app_nil_r.
Qed.

(** A seeded key is published.  Whoever seeds an owner with a key line finds, at the
    handle, a document that is the canonical line of exactly that key - anyone is served
    it, with or without a token.  The services' invariants hold afterwards. *)
Theorem seeded_key_published ids deviceID keyID p setName k c c' : well_kept (K:=K) (data c) → catalog_ok (data c) →
  Seed (K:=K) ids deviceID keyID p c = (Ok (setName, Some k), c') →
  well_kept (K:=K) (data c') ∧ Parse (K:=K) (sp_KeyLine p) = Ok k ∧
  ∃ line, AuthorizedKeyLine (K:=K) k = Ok line ∧
    ∀ V (HV : Verifier V) (HL : VerifierLaws V) (verifier : option V) presented c2, data c2 = data c' → faults c2 = [] →
      fst (Resolve (K:=K) verifier (sp_Handle p) [] presented c2) = Ok (MkPublishResult line false).
Proof.
  intros [Hh Hs Hk] Hcat E. destruct (wp_run _ _ _ _ _ _ _ (Seed_spec false ids deviceID keyID p _) eq_refl ltac:(done) E)
    as [[[e ?] _]|(setName' & parsed & [= <- <-] & Hg & Hp & Hv & deviceName & Hfresh & Hfp & Hd)]; [done|].
  unfold parse_line in Hp. case_bool_decide; [done|]. destruct (Parse (sp_KeyLine p)) as [k'|] eqn:Epk; [|done]. injection Hp as ->.
  assert (well_kept (K:=K) (data c')) as Hw.
  { rewrite Hd. split; [by eapply account_handles|by eapply account_sets|].
    eapply pk_move_ok; [apply (pm_enroll _ (enrolled_key keyID (id_owner ids) deviceID k (sp_Now p)))|exact Hk].
    - exact Hfresh.
    - by eapply enrolled_prints.
    - by eapply enrolled_genuine.
    - by apply same_fingerprint_nil. }
  split_and!; [done|done|]. destruct (Parse_prints _ _ Epk) as [line Hline]. exists line. split; [done|].
  intros V HV HL verifier presented c2 Hd2 Hf2.
  assert (entitled verifier (sp_Handle p) [] presented (data c2) (account_owner ids (sp_Now p)) (account_set ids setName (sp_Now p)) false) as Hent.
  { rewrite Hd2, Hd. split; [by eapply Guard_handle_syntax|by left| | |by left].
    - exists (id_handle ids), (handle_row ids (sp_Handle p) (sp_Now p)). split_and!; try done; simpl; by rewrite lookup_insert_eq.
    - exists (id_set ids). split_and!; try done. simpl. by rewrite lookup_insert_eq. }
  rewrite <- Hd2 in Hw. destruct (Resolve_served _ _ _ _ _ _ _ _ Hw Hf2 Hent) as (body & -> & Hdoc). do 2 f_equal.
  rewrite Hd2, Hd in Hdoc. eapply (document_single _ _ _ _ (enrolled_key keyID (id_owner ids) deviceID k (sp_Now p))); [exact Hdoc| | |exact Hline].
  - split_and!; try done; [exists keyID; simpl; by rewrite lookup_insert_eq|unfold joined; simpl; by rewrite lookup_insert_eq].
  - intros k1 ([i Hi] & _ & Hj & _). unfold joined in Hj. cbn [members set_members with_key] in Hj.
    assert (PublicKey_ID k1 = keyID) as Hid.
    { destruct (decide (PublicKey_ID k1 = keyID)) as [?|Hne]; [done|]. rewrite lookup_insert_ne in Hj by congruence. destruct Hj as [x Hx].
      destruct (cat_members _ Hcat _ _ _ Hx) as (_ & _ & [y Hy]). pose proof (vc_set _ _ _ _ _ Hv). simpl in Hy. congruence. }
    rewrite Hd2, Hd in Hw. pose proof (po_keyed _ (wk_keys _ Hw) _ _ Hi) as Hi'. rewrite Hid in Hi'. subst i.
    cbn [pubkeys set_members set_pubkeys with_key] in Hi. rewrite lookup_insert_eq in Hi. by injection Hi.
Qed.
End claims.

(** ** Samples *)

Module OnboardSample.
#[export] Existing Instance Keys.OneKey.
#[export] Existing Instance Keys.OneKey_laws.
#[export] Existing Instance AkSample.ascii_only.
#[export] Existing Instance FoldSample.plain.
Definition ids : account_ids := MkAccountIds (go "o") (go "h") (go "s").
Definition ent : pair_entropy := MkPairEntropy (repeat (byte_of 7) 16) (repeat (byte_of 9) 32) (repeat (byte_of 3) 16).
Definition st : stamp := MkStamp (go "a1") 0.
Definition c0 : conn := ListSample.c0.
Definition req : OnboardRequest := MkOnboardRequest (go "carol") [] [].
Definition done_ := ProvisionOwner HandleSample.guard ids ent 1 2 3 st (go "adm") req c0.
Definition params : SeedParams := MkSeedParams (go "carol") [] [] (go "ssh-ed25519 YmxvYg== me") 1 HandleSample.guard.
Definition seeded := Seed (K:=unit) ids (go "dev") (go "key") params c0.
Definition line : bytes := go "ssh-ed25519 YmxvYg== me" ++ [LF].

Lemma c0_kept : well_kept (K:=unit) (data c0).
Proof.
  constructor.
  - split; intros i; intros; simpl in *; by rewrite lookup_empty in *.
  - split; [split|]; intros i; intros; simpl in *; by rewrite lookup_empty in *.
  - split; intros i; intros; simpl in *; by rewrite lookup_empty in *.
Qed.
Lemma c0_catalog : catalog_ok (data c0).
Proof. constructor; [apply (wk_sets _ c0_kept)|..]; intros i; intros; simpl in *; by rewrite lookup_empty in *. Qed.
End OnboardSample.
#[local] Existing Instance Keys.OneKey.
#[local] Existing Instance Keys.OneKey_laws.
#[local] Existing Instance AkSample.ascii_only.
#[local] Existing Instance FoldSample.plain.

Lemma ProvisionOwner_atomic_witness : is_ok (fst OnboardSample.done_) = true ∧ active_admin (go "adm") (data OnboardSample.c0) ∧
  handles_ok (handles (data (snd OnboardSample.done_))).
Proof.
  assert (is_ok (fst OnboardSample.done_) = true) as Hok by (vm_compute; reflexivity).
  destruct (ProvisionOwner_atomic HandleSample.guard OnboardSample.ids OnboardSample.ent 1 2 3 OnboardSample.st (go "adm") OnboardSample.req OnboardSample.c0
    (fst OnboardSample.done_) (snd OnboardSample.done_)) as [[[e He] _]|(s & l & g & _ & Ha & _ & _ & _ & _ & Hh & _)].
  - unfold OnboardSample.done_. apply surjective_pairing.
  - rewrite He in Hok. discriminate Hok.
  - split; [exact Hok|]. split; [exact Ha|]. apply Hh. apply (wk_handles _ OnboardSample.c0_kept).
Defined.

Lemma seeded_key_published_witness :
  fst (Resolve (K:=unit) (None : option (ak_service * time)) (go "carol") [] [] (snd OnboardSample.seeded)) = Ok (MkPublishResult OnboardSample.line false).
Proof.
  assert (∃ k, fst OnboardSample.seeded = Ok (go "default", Some k)) as [k Hk] by (vm_compute; eexists; reflexivity).
  destruct (seeded_key_published OnboardSample.ids (go "dev") (go "key") OnboardSample.params (go "default") k OnboardSample.c0 (snd OnboardSample.seeded)
    OnboardSample.c0_kept OnboardSample.c0_catalog) as (_ & Hp & line & Hl & Hr).
  - rewrite <- Hk. unfold OnboardSample.seeded. apply surjective_pairing.
  - specialize (Hr _ ak_verifier ak_verifier_laws None [] (snd OnboardSample.seeded) eq_refl ltac:(vm_compute; reflexivity)).
    assert (match Parse (K:=unit) (sp_KeyLine OnboardSample.params) with Ok k => AuthorizedKeyLine (K:=unit) k | Err e => Err e end = Ok OnboardSample.line) as Hline
      by (vm_compute; reflexivity).
    rewrite Hp, Hl in Hline. injection Hline as <-. exact Hr.
Defined.
