(* ===== verification/Sweep.v ===== *)
(** * Periodic work

    [internal/sweep]: jobs that run now and then on a store they share with the server, until the process is told to stop.
    The goroutine of a job is a step relation; the jobs interleave with each other, with
    the rest of the program and with the cancellation.  A pass begins, goes through any
    number of steps of its work -- each sees whether the context is done and may touch
    the store -- and ends, if it ends: the work is a parameter, which may block, run for
    ever or ignore the context.  Logging and the test hook are output only. *)

From Stdlib Require Import SpecFloat.
From S2P Require Import Prelude DomainErrors GoLib RateLimit NetIP GoNum.

Open Scope Z_scope.

(** How the work of a pass ends. *)
Inductive outcome := Returned (e : option goerror) | Panicked.

Section sweep.
(** The store, and what is left to do of a pass. *)
Context {S W : Type}.

(** src/internal/sweep/sweep.go:63-77, Job
    (the work as it is at the start of a pass at a given instant; [None] is a nil function) *)
Record Job := MkJob { Job_Name : gostring; Job_Interval : duration; Job_Run : option (time → W) }.

(** src/internal/sweep/sweep.go:52-61, DefaultJitter *)
Definition DefaultJitter : spec_float := float_of_ratio false 1 10.

(** src/internal/sweep/sweep.go:79-89, Runner *)
Record Runner := MkRunner { r_jitter : spec_float; r_jobs : list Job }.

(** src/internal/sweep/sweep.go:107-125, NewRunner
    (with the one option that carries a value, [WithJitter]) *)
Definition NewRunner (jitter : option spec_float) : result Runner :=
  let j := default DefaultJitter jitter in
  if float_lt j (S754_zero false) then Err (errorf "sweep: jitter must not be negative" [ErrInvalidInput]) else Ok (MkRunner j []).

(** src/internal/sweep/sweep.go:127-155, Runner.AddJob *)
Definition AddJob (r : Runner) (j : Job) : result Runner :=
  if bool_decide (Job_Name j = []) then Err (errorf "sweep: job name is required" [ErrInvalidInput]) else
  if Job_Interval j <=? 0 then Err (errorf "sweep: job interval must be positive" [ErrInvalidInput]) else
  match Job_Run j with
  | None => Err (errorf "sweep: job has no work function" [ErrInvalidInput])
  | Some _ =>
      if existsb (λ existing, bool_decide (Job_Name existing = Job_Name j)) (r_jobs r) then
        Err (errorf "sweep: job is already registered" [ErrInvalidInput])
      else Ok (MkRunner (r_jitter r) (r_jobs r ++ [j]))
  end.

(** src/internal/sweep/sweep.go:229-238, Runner.wait
    ([rand]: the random number in [0, 1)) *)
Definition wait (r : Runner) (interval : duration) (rand : spec_float) : duration :=
  match r_jitter r with
  | S754_zero _ => interval
  | j => wrap64 (interval + float_trunc (SFmul prec emax (SFmul prec emax rand j) (float_of_Z interval)))
  end.

(** src/internal/sweep/sweep.go:269-303, Runner.runGuarded
    (what the deferred function makes of the way the work ended) *)
Definition runGuarded (o : outcome) : option goerror :=
  match o with
  | Returned e => e
  | Panicked => Some (errorf "sweep: job panicked" [])
  end.

(** Where the goroutine of a job is: before its first pass, in a pass -- [None] is about
    to call a nil function --, waiting for its timer, or gone. *)
Inductive phase := Starting | Running (w : option W) | Waiting | Stopped.

(** A job with the errors of the passes it has ended so far, the latest first. *)
Record running := MkRunning { rn_job : Job; rn_phase : phase; rn_passes : list (option goerror) }.

Definition to_phase (ph : phase) (g : running) : running := MkRunning (rn_job g) ph (rn_passes g).

(** The work of the jobs: from what is left of a pass and the store, knowing whether the
    context is done, to what is left then, or how the work ended, and the store. *)
Context (work : bool → W → S → W + outcome → S → Prop).

(** The work of a pass, a nil function included: calling that panics. *)
Inductive guarded (cancelled : bool) : option W → S → option W + outcome → S → Prop :=
| gd_next w s w' s' : work cancelled w s (inl w') s' → guarded cancelled (Some w) s (inl (Some w')) s'
| gd_end w s o s' : work cancelled w s (inr o) s' → guarded cancelled (Some w) s (inr o) s'
| gd_nil s : guarded cancelled None s (inr Panicked) s.

(** src/internal/sweep/sweep.go:240-267, Runner.pass
    (its end: the error is reported and dropped) *)
Definition pass (g : running) (o : outcome) : running := MkRunning (rn_job g) Waiting (runGuarded o :: rn_passes g).

(** The start of a pass. *)
Definition begin (g : running) (now : time) : running := to_phase (Running ((λ run, run now) <$> Job_Run (rn_job g))) g.

(** src/internal/sweep/sweep.go:181-227, Runner.runJob
    ([cancelled]: whether the context is done when the goroutine looks; the timer can be
    found to have fired after that, and then the context is looked at again) *)
Inductive job_step (cancelled : bool) : running * S → running * S → Prop :=
| js_first g s now : rn_phase g = Starting → cancelled = false → job_step cancelled (g, s) (begin g now, s)
| js_first_cancelled g s : rn_phase g = Starting → cancelled = true → job_step cancelled (g, s) (to_phase Waiting g, s)
| js_work g s w w' s' : rn_phase g = Running w → guarded cancelled w s (inl w') s' → job_step cancelled (g, s) (to_phase (Running w') g, s')
| js_end g s w o s' : rn_phase g = Running w → guarded cancelled w s (inr o) s' → job_step cancelled (g, s) (pass g o, s')
| js_tick g s now : rn_phase g = Waiting → cancelled = false → job_step cancelled (g, s) (begin g now, s)
| js_stop g s : rn_phase g = Waiting → cancelled = true → job_step cancelled (g, s) (to_phase Stopped g, s).

(** The process: its jobs, whether it was told to stop, and the store. *)
Record process := MkProcess { ps_jobs : list running; ps_cancelled : bool; ps_store : S }.

(** What else the program does to the store. *)
Context (served : S → S → Prop).

(** src/internal/sweep/sweep.go:157-179, Runner.Start
    (one goroutine per job; the function it returns waits for all of them) *)
Inductive process_step : process → process → Prop :=
| ps_job i g g' jobs cancelled s s' : jobs !! i = Some g → job_step cancelled (g, s) (g', s') →
    process_step (MkProcess jobs cancelled s) (MkProcess (<[i := g']> jobs) cancelled s')
| ps_cancel jobs s : process_step (MkProcess jobs false s) (MkProcess jobs true s)
| ps_serve jobs cancelled s s' : served s s' → process_step (MkProcess jobs cancelled s) (MkProcess jobs cancelled s').

(** src/internal/sweep/sweep.go:157-179, Runner.Start
    (the goroutines it begins with) *)
Definition Start (r : Runner) (s : S) : process := MkProcess ((λ j, MkRunning j Starting []) <$> r_jobs r) false s.

(** Waiting for the jobs returns. *)
Definition joined (p : process) : Prop := Forall (λ g, rn_phase g = Stopped) (ps_jobs p).

(** ** Runs *)

Definition in_pass (g : running) : Prop := ∃ w, rn_phase g = Running w.

(** The passes a job has begun. *)
Definition begun (g : running) : nat := (length (rn_passes g) + match rn_phase g with Running _ => 1 | _ => 0 end)%nat.

(** How far the goroutine of a job is from its end, once it is told to stop. *)
Definition stage (g : running) : nat := match rn_phase g with Starting | Running _ => 2 | Waiting => 1 | Stopped => 0 end.

(** The goroutine of job [i] gets on: it leaves its start, its pass or its wait. *)
Definition moves_on (i : nat) (p p' : process) : Prop := stage <$> ps_jobs p' !! i ≠ stage <$> ps_jobs p !! i.

Definition is_run (p : process) (run : nat → process) : Prop := run 0%nat = p ∧ ∀ t, process_step (run t) (run (t + 1)%nat).

(** A goroutine that is not in a pass is scheduled some time: that is the runtime's part. *)
Definition scheduled (run : nat → process) : Prop :=
  ∀ t i g, ps_jobs (run t) !! i = Some g → rn_phase g ≠ Stopped → ¬ in_pass g → ∃ t', (t ≤ t')%nat ∧ moves_on i (run t') (run (t' + 1)%nat).

(** Every pass in progress ends some time: that is what [Job.Run] is asked for. *)
Definition passes_end (run : nat → process) : Prop :=
  ∀ t i g, ps_jobs (run t) !! i = Some g → in_pass g → ∃ t', (t ≤ t')%nat ∧ moves_on i (run t') (run (t' + 1)%nat).
End sweep.
Arguments Job : clear implicits.
Arguments Runner : clear implicits.
Arguments phase : clear implicits.
Arguments running : clear implicits.
Arguments process : clear implicits.

(** ** Theorems *)

Section claims.
Context {S W : Type} (work : bool → W → S → W + outcome → S → Prop) (served : S → S → Prop).
Abbreviation step := (process_step work served).

(** Once told to stop: it stays so, no job begins a pass, and every goroutine only gets
    nearer to its end. *)
Lemma cancelled_step p p' i : step p p' → ps_cancelled p = true → ps_cancelled p' = true ∧
  begun <$> ps_jobs p' !! i = begun <$> ps_jobs p !! i ∧
  (∀ g, ps_jobs p !! i = Some g → ∃ g', ps_jobs p' !! i = Some g' ∧ (stage g' ≤ stage g)%nat).
Proof.
  intros [j g g' jobs cancelled s s' Hj Hg|jobs s|jobs cancelled s s' _] Hc; simpl in *; [|split_and!; [done..|]; intros g H; exists g; auto..].
  split; [done|]. destruct (decide (j = i)) as [->|Hne]; [|rewrite list_lookup_insert_ne by done; split; [done|]; intros x Hx; by exists x; auto].
  rewrite list_lookup_insert_eq, Hj by (by eapply lookup_lt_Some). unfold begun, stage. split.
  - inversion Hg; simplify_eq/=; try done; repeat match goal with H : rn_phase _ = _ |- _ => rewrite H end; simpl; f_equal; lia.
  - intros x [= <-]. exists g'. split; [done|].
    inversion Hg; simplify_eq/=; try done; repeat match goal with H : rn_phase _ = _ |- _ => rewrite H end; simpl; lia.
Qed.

Lemma cancelled_steps p p' : steps step p p' → ps_cancelled p = true → ps_cancelled p' = true ∧ begun <$> ps_jobs p' = begun <$> ps_jobs p.
Proof.
  induction 1 as [p|p1 p2 p3 H _ IH]; [done|]. intros Hc.
  destruct (cancelled_step _ _ 0%nat H Hc) as [Hc2 _]. destruct (IH Hc2) as [? ->]. split; [done|].
  apply list_eq. intros i. rewrite !list_lookup_fmap. by destruct (cancelled_step _ _ i H Hc) as (_ & ? & _).
Qed.

(** Jobs go on until they are told to stop. *)
Lemma alive_until_told r s p : steps step (Start r s) p → ps_cancelled p = false → Forall (λ g, rn_phase g ≠ Stopped) (ps_jobs p).
Proof.
  intros H. pattern p. revert H. apply steps_invariant.
  - intros p1 p2 IH H. revert IH. destruct H as [i g g' jobs cancelled s1 s2 Hi Hj|jobs s1|jobs cancelled s1 s2 _]; intros IH Hc; simpl in *; [|done|by apply IH].
    apply Forall_insert; [by apply IH|]. subst. inversion Hj; by simplify_eq/=.
  - intros _. simpl. by apply Forall_fmap, Forall_forall.
Qed.

(** What is left to do until every goroutine has ended. *)
Definition left_over (jobs : list (running W)) : nat := sum_list (stage <$> jobs).

Lemma left_over_cons g jobs : left_over (g :: jobs) = (stage g + left_over jobs)%nat.
Proof. done. Qed.

Lemma left_over_0 jobs : left_over jobs = 0%nat ↔ Forall (λ g, rn_phase g = Stopped) jobs.
Proof.
  induction jobs as [|g jobs IH]; [done|]. rewrite Forall_cons, <- IH, left_over_cons, Nat.eq_add_0. unfold stage.
  destruct (rn_phase g); split; intros [? ?]; try discriminate; by split.
Qed.

Lemma left_over_some jobs : left_over jobs ≠ 0%nat → ∃ i g, jobs !! i = Some g ∧ stage g ≠ 0%nat.
Proof.
  induction jobs as [|g jobs IH]; [done|]. rewrite left_over_cons. intros Hn. destruct (decide (stage g = 0%nat)) as [Hz|Hz]; [|by exists 0%nat, g].
  destruct IH as (i & x & Hi & Hx); [lia|]. by exists (Datatypes.S i), x.
Qed.

Lemma left_over_le jobs : (left_over jobs ≤ 2 * length jobs)%nat.
Proof.
  induction jobs as [|g jobs IH]; [done|]. rewrite left_over_cons. cbn [length]. assert (stage g ≤ 2)%nat by (unfold stage; destruct (rn_phase g); lia). lia.
Qed.

Lemma left_over_insert i g g' jobs : jobs !! i = Some g → (left_over (<[i := g']> jobs) + stage g = left_over jobs + stage g')%nat.
Proof.
  revert i. induction jobs as [|x jobs IH]; intros [|i] Hi; [done|done| |]; simplify_eq/=; rewrite !left_over_cons; [lia|]. specialize (IH _ Hi). lia.
Qed.

(** After the cancellation what is left to do never grows, and it shrinks when a
    goroutine moves on. *)
Lemma left_over_step p p' : step p p' → ps_cancelled p = true →
  (left_over (ps_jobs p') ≤ left_over (ps_jobs p))%nat ∧ ∀ i, moves_on i p p' → (left_over (ps_jobs p') < left_over (ps_jobs p))%nat.
Proof.
  intros Hst Hc. unfold moves_on. pose proof (λ i, cancelled_step _ _ i Hst Hc) as Hi.
  destruct Hst as [j g g' jobs cancelled s s' Hj Hg|jobs s|jobs cancelled s s' _]; simpl in *; [|split; [lia|done]..].
  pose proof (left_over_insert j g g' jobs Hj) as Hsum. destruct (Hi j) as (_ & _ & Hle). destruct (Hle _ Hj) as (x & Hx & Hs).
  rewrite list_lookup_insert_eq in Hx by (by eapply lookup_lt_Some). injection Hx as <-. split; [lia|].
  intros i Hm. destruct (decide (j = i)) as [->|Hne]; [|by rewrite list_lookup_insert_ne in Hm by done].
  rewrite list_lookup_insert_eq, Hj in Hm by (by eapply lookup_lt_Some). simpl in Hm. assert (stage g' ≠ stage g) by congruence. lia.
Qed.

Lemma run_cancelled p run : is_run work served p run → ps_cancelled p = true → ∀ t, ps_cancelled (run t) = true.
Proof.
  intros [<- Hr] Hc t. induction t as [|t IH]; [done|]. specialize (Hr t). rewrite Nat.add_1_r in Hr. by destruct (cancelled_step _ _ 0%nat Hr IH).
Qed.

Lemma run_left_over p run t t' : is_run work served p run → ps_cancelled p = true → (t ≤ t')%nat →
  (left_over (ps_jobs (run t')) ≤ left_over (ps_jobs (run t)))%nat.
Proof.
  intros Hr Hc. induction 1 as [|t' _ IH]; [lia|]. pose proof (run_cancelled p run Hr Hc t') as Hct. destruct Hr as [_ Hr]. specialize (Hr t').
  rewrite Nat.add_1_r in Hr. destruct (left_over_step _ _ Hr Hct) as [? _]. lia.
Qed.

(** A run in which every goroutine gets on comes to rest. *)
Lemma run_joins p run : is_run work served p run → ps_cancelled p = true → scheduled run → passes_end run → ∃ t, joined (run t).
Proof.
  intros Hr Hc Hsch Hend. cut (∀ n t, (left_over (ps_jobs (run t)) ≤ n)%nat → ∃ t, joined (run t)); [intros H; by apply (H (left_over (ps_jobs (run 0%nat))) 0%nat)|].
  induction n as [|n IH]; intros t Hn; [exists t; apply left_over_0; lia|].
  destruct (decide (left_over (ps_jobs (run t)) = 0%nat)) as [Hz|(i & g & Hi & Hg)%left_over_some]; [exists t; by apply left_over_0|].
  assert (∃ t', (t ≤ t')%nat ∧ moves_on i (run t') (run (t' + 1)%nat)) as (t' & Ht & Hm).
  { unfold stage in Hg. destruct (rn_phase g) as [|w| |] eqn:Ep; [| | |done].
    - apply (Hsch t i g Hi); [congruence|]. intros [? ?]. congruence.
    - apply (Hend t i g Hi). by exists w.
    - apply (Hsch t i g Hi); [congruence|]. intros [? ?]. congruence. }
  apply (IH (t' + 1)%nat). pose proof (run_left_over p run t t' Hr Hc Ht). pose proof (run_cancelled p run Hr Hc t') as Hct. destruct Hr as [_ Hr].
  destruct (left_over_step _ _ (Hr t') Hct) as [_ Hlt]. specialize (Hlt _ Hm). lia.
Qed.

(** What every step of the work, and the rest of the program, keep, holds all along. *)
Lemma process_invariant (P : S → Prop) p p' : (∀ s s', served s s' → P s → P s') →
  (∀ c w s o s', work c w s o s' → P s → P s') → steps step p p' → P (ps_store p) → P (ps_store p').
Proof.
  intros Hs Hw Hst HP. revert Hst. apply (steps_invariant _ (λ p, P (ps_store p))); [|done].
  intros p1 p2 H1 H. revert H1. destruct H as [i g g' jobs cancelled s s' Hi Hg|jobs s|jobs cancelled s s' Hsv]; intros H1; simpl in *; [|done|by apply (Hs s)].
  inversion Hg; simplify_eq/=; try done; match goal with H : guarded _ _ _ _ _ _ |- _ => inversion H; simplify_eq/=; eauto end.
Qed.

End claims.

(** ** Evaluating *)

Module SweepSample.
(** Three jobs on a counter: one counts in two steps, one always panics, one never
    returns. *)
Inductive code := Count (n : nat) | Crash | Spin.
Definition code_step (cancelled : bool) (w : code) (s : Z) (r : code + outcome) (s' : Z) : Prop :=
  match w with
  | Count 0 => r = inr (Returned None) ∧ s' = s
  | Count (Datatypes.S n) => r = inl (Count n) ∧ s' = s + 1
  | Crash => r = inr Panicked ∧ s' = s
  | Spin => r = inl Spin ∧ s' = s
  end.
Definition count : Job code := MkJob (go "count") 10 (Some (λ _, Count 1)).
Definition crash : Job code := MkJob (go "crash") 10 (Some (λ _, Crash)).
Definition spin : Job code := MkJob (go "spin") 10 (Some (λ _, Spin)).
Definition runner : Runner code := MkRunner DefaultJitter [count; crash; spin].
Definition idle (a b : Z) : Prop := a = b.
Abbreviation go_on := (process_step code_step idle).
Definition crashing : running code := MkRunning crash (Running (Some Crash)) [].
(** One job crashes in its pass, another one spins in its own. *)
Definition p1 : process Z code := MkProcess [MkRunning count Starting []; crashing; MkRunning spin (Running (Some Spin)) []] false 0.
Lemma reached : steps go_on (Start runner 0) p1.
Proof.
  apply (steps_cons _ _ (MkProcess [MkRunning count Starting []; crashing; MkRunning spin Starting []] false 0)).
  - apply (ps_job code_step idle 1 (MkRunning crash Starting []) crashing [MkRunning count Starting []; MkRunning crash Starting []; MkRunning spin Starting []] false 0 0);
      [reflexivity|]. apply (js_first code_step false (MkRunning crash Starting []) 0 0); reflexivity.
  - apply steps_one, (ps_job code_step idle 2 (MkRunning spin Starting []) (MkRunning spin (Running (Some Spin)) []) [MkRunning count Starting []; crashing; MkRunning spin Starting []] false 0 0);
      [reflexivity|]. apply (js_first code_step false (MkRunning spin Starting []) 0 0); reflexivity.
Qed.
End SweepSample.

