(* ===== verification/Secrets.v ===== *)
(** * Secret references

    [internal/secrets]: references of the form scheme:opaque, how they and the secrets
    they name are rendered, the resolver with its providers, and the two built-in
    providers.  The environment and the files are arguments: a lookup function, and what
    opening, examining and reading a path gives.  The warning a lax permission mode logs
    is output only. *)

From S2P Require Import Prelude GoLib NetIP.

Open Scope Z_scope.

(** ** References *)

(** src/internal/secrets/secrets.go:27-32, Ref *)
Definition Ref : Type := gostring.

(** src/internal/secrets/secrets.go:34-35, Ref.IsZero *)
Definition Ref_IsZero (r : Ref) : bool := bool_decide (r = []).

(** src/internal/secrets/secrets.go:57-69, Ref.split *)
Definition Ref_split (r : Ref) : option (gostring * gostring) :=
  match index_byte COLON r with
  | Some (S i) => Some (take (S i) r, drop (S (S i)) r)
  | _ => None
  end.

(** src/internal/secrets/secrets.go:37-45, Ref.Scheme *)
Definition Ref_Scheme (r : Ref) : gostring := match Ref_split r with Some (scheme, _) => scheme | None => [] end.
(** src/internal/secrets/secrets.go:47-55, Ref.Opaque *)
Definition Ref_Opaque (r : Ref) : gostring := match Ref_split r with Some (_, opaque) => opaque | None => [] end.

(** src/internal/secrets/redact.go:9-13, redactedMarker *)
Definition redactedMarker : gostring := go "[REDACTED]".

(** src/internal/secrets/secrets.go:71-101, Ref.Validate *)
Definition Ref_Validate (r : Ref) : option goerror :=
  match Ref_split r with
  | None => Some (errorf "secrets: malformed reference: want scheme:opaque, e.g. env:VALLET_PG_DSN or file:/run/secrets/pg-dsn" [])
  | Some (_, opaque) =>
      if bool_decide (opaque = []) then Some (errorf "secrets: reference has empty opaque part" []) else
      if bool_decide (opaque = redactedMarker) then Some (errorf "secrets: reference is redacted, not a usable reference" []) else None
  end.

(** src/internal/secrets/redact.go:141-143, maxSchemeLen *)
Definition maxSchemeLen : nat := 32.

Definition letter (c : ascii) : bool := let v := byte_val c in ((97 <=? v) && (v <=? 122)) || ((65 <=? v) && (v <=? 90)).
Definition scheme_tail (c : ascii) : bool := letter c || bool_decide (is_Some (digit c)) || mem_byte c (go "+-.").

(** src/internal/secrets/redact.go:145-162, schemeShaped *)
Definition schemeShaped (s : gostring) : bool :=
  match s with
  | [] => false
  | c :: t => (length s <=? maxSchemeLen)%nat && letter c && forallb scheme_tail t
  end.

(** src/internal/secrets/redact.go:164-217, Ref.redacted
    (what every way of formatting, marshalling and logging a reference writes) *)
Definition Ref_redacted (r : Ref) : gostring :=
  match Ref_split r with
  | Some (scheme, _) => if schemeShaped scheme then scheme ++ COLON :: redactedMarker else redactedMarker
  | None => redactedMarker
  end.

(** ** Secrets *)

(** src/internal/secrets/redact.go:15-28, Redacted *)
Definition Redacted : Type := gostring.

(** src/internal/secrets/redact.go:75-109, Redacted.String
    (and the other ways of formatting, marshalling and logging a secret) *)
Definition Redacted_String (r : Redacted) : gostring := redactedMarker.

Fixpoint join_with (sep : gostring) (parts : list gostring) : gostring :=
  match parts with
  | [] => []
  | [p] => p
  | p :: parts' => p ++ sep ++ join_with sep parts'
  end.

(** src/internal/secrets/redact.go:30-45, Join *)
Definition Redacted_Join (sep : gostring) (parts : list Redacted) : Redacted := join_with sep parts.

(** src/internal/secrets/redact.go:47-73, Redacted.IsBlank *)
Definition IsBlank (r : Redacted) : bool := bool_decide (trim_space r = []).

(** ** Providers *)

(** src/internal/secrets/secrets.go:103-116, Provider *)
Record Provider := MkProvider { prov_Scheme : gostring; prov_Resolve : gostring → result Redacted }.

(** src/internal/secrets/secrets.go:118-121, Resolver *)
Record Resolver := MkResolver { providers : gmap gostring Provider }.

Fixpoint add_providers (ps : list Provider) (m : gmap gostring Provider) : result (gmap gostring Provider) :=
  match ps with
  | [] => Ok m
  | p :: ps' =>
      let scheme := prov_Scheme p in
      if bool_decide (scheme = []) then Err (errors_new "secrets: provider with empty scheme") else
      match m !! scheme with
      | Some _ => Err (errorf "secrets: duplicate provider for scheme" [])
      | None => add_providers ps' (<[scheme := p]> m)
      end
  end.

(** src/internal/secrets/secrets.go:123-138, NewResolver *)
Definition NewResolver (ps : list Provider) : result Resolver :=
  match add_providers ps ∅ with Ok m => Ok (MkResolver m) | Err e => Err e end.

(** src/internal/secrets/secrets.go:151-172, Resolver.Resolve *)
Definition Resolver_Resolve (r : Resolver) (ref : Ref) : result Redacted :=
  match Ref_Validate ref with
  | Some e => Err e
  | None =>
      match providers r !! Ref_Scheme ref with
      | None => Err (errorf "secrets: no provider for reference" [])
      | Some p => prov_Resolve p (Ref_Opaque ref)
      end
  end.

(** src/internal/secrets/env.go:9-10, envScheme *)
Definition envScheme : gostring := go "env".
(** src/internal/secrets/file.go:12-13, fileScheme *)
Definition fileScheme : gostring := go "file".

(** src/internal/secrets/env.go:24-47, EnvProvider.Resolve *)
Definition env_Resolve (lookup : gostring → option gostring) (opaque : gostring) : result Redacted :=
  match lookup opaque with
  | None => Err (errorf "secrets: environment variable is not set" [])
  | Some value => if IsBlank value then Err (errorf "secrets: environment variable is blank (empty or whitespace only)" []) else Ok value
  end.

(** What a path holds: opening, [Stat] and reading can fail. *)
Record opened := MkOpened { op_stat : result (bool * Z); op_data : result bytes }.
Abbreviation files := (gostring → result opened).

(** src/internal/secrets/file.go:15-26, PermMode *)
Inductive PermMode := PermError | PermWarn.

(** src/internal/secrets/file.go:28-30, worldReadableBits *)
Definition worldReadableBits : Z := 63.

(** src/internal/secrets/file.go:121-127, stripOneTrailingNewline *)
Definition stripOneTrailingNewline (s : gostring) : gostring := trim_suffix [byte_of 13] (trim_suffix [byte_of 10] s).

(** src/internal/secrets/file.go:55-119, FileProvider.Resolve *)
Definition file_Resolve (mode : PermMode) (fs : files) (opaque : gostring) : result Redacted :=
  match fs opaque with
  | Err e => Err (errorf "secrets: cannot open file for reference" [e])
  | Ok f =>
      match op_stat f with
      | Err e => Err (errorf "secrets: cannot stat file for reference" [e])
      | Ok (regular, perm) =>
          if negb regular then Err (errorf "secrets: reference is not a regular file" []) else
          if negb (Z.land perm worldReadableBits =? 0) && match mode with PermError => true | PermWarn => false end then
            Err (errorf "secrets: file for reference has insecure permissions (group/other access); want 0600 or stricter" []) else
          match op_data f with
          | Err e => Err (errorf "secrets: cannot read file for reference" [e])
          | Ok data =>
              let secret := stripOneTrailingNewline data in
              if IsBlank secret then Err (errorf "secrets: file for reference is blank (empty or whitespace only)" []) else Ok secret
          end
      end
  end.

(** src/internal/secrets/secrets.go:174-181, Builtin *)
Definition Builtin (mode : PermMode) (lookup : gostring → option gostring) (fs : files) : list Provider :=
  [MkProvider envScheme (env_Resolve lookup); MkProvider fileScheme (file_Resolve mode fs)].

(** ** Lemmas *)

Lemma index_byte_Some c s i : index_byte c s = Some i ↔ ∃ a b, s = a ++ c :: b ∧ length a = i ∧ c ∉ a.
Proof.
  split.
  - revert i. induction s as [|x s IH]; intros i; simpl; [done|]. destruct (decide (x = c)) as [->|Hx].
    + intros [= <-]. exists [], s. split_and!; [done|done|]. by apply not_elem_of_nil.
    + intros (j & (a & b & -> & <- & Ha)%IH & ->)%fmap_Some. exists (x :: a), b. split_and!; [done|done|]. apply not_elem_of_cons. auto.
  - intros (a & b & -> & <- & Ha). by apply index_byte_app.
Qed.

Lemma Ref_split_Some r s o : Ref_split r = Some (s, o) ↔ r = s ++ COLON :: o ∧ s ≠ [] ∧ COLON ∉ s.
Proof.
  unfold Ref_split. split.
  - destruct (index_byte COLON r) as [[|i]|] eqn:E; [done| |done]. apply index_byte_Some in E as (a & b & -> & Hl & Ha).
    rewrite <- Hl. rewrite take_app_length. change (S (length a)) with (1 + length a)%nat. rewrite drop_app_ge by lia.
    replace (1 + length a - length a)%nat with 1%nat by lia. intros [= <- <-]. split_and!; [done|by destruct a|done].
  - intros (-> & Hs & Hc). destruct s as [|x s]; [done|]. rewrite (index_byte_app COLON (x :: s) o Hc). cbn [length].
    change (S (length s)) with (length (x :: s)). rewrite take_app_length. f_equal. f_equal.
    rewrite drop_app_ge by lia. by replace (S (length (x :: s)) - length (x :: s))%nat with 1%nat by lia.
Qed.

Lemma Ref_Validate_None r : Ref_Validate r = None ↔ ∃ s o, Ref_split r = Some (s, o) ∧ o ≠ [] ∧ o ≠ redactedMarker.
Proof.
  unfold Ref_Validate. destruct (Ref_split r) as [[s o]|]; [|by split; [|intros (? & ? & ? & _)]].
  repeat case_bool_decide; split; try done; try (intros (? & ? & [= <- <-] & ? & ?); done). intros _. eauto.
Qed.

Lemma schemeShaped_length s : schemeShaped s = true → (length s ≤ maxSchemeLen)%nat.
Proof. destruct s as [|c s]; [done|]. intros [[H%Nat.leb_le _]%andb_true_iff _]%andb_true_iff. done. Qed.

Lemma Ref_redacted_scheme r r' : Ref_Scheme r' = Ref_Scheme r → Ref_redacted r' = Ref_redacted r.
Proof.
  unfold Ref_Scheme, Ref_redacted. destruct (Ref_split r) as [[s o]|], (Ref_split r') as [[s' o']|]; [by intros ->| | |done].
  - by intros <-.
  - by intros ->.
Qed.

Lemma NewResolver_Builtin mode lookup fs : NewResolver (Builtin mode lookup fs) =
  Ok (MkResolver (<[fileScheme := MkProvider fileScheme (file_Resolve mode fs)]> (<[envScheme := MkProvider envScheme (env_Resolve lookup)]> ∅))).
Proof.
  unfold NewResolver, Builtin. cbn [add_providers prov_Scheme]. rewrite (bool_decide_eq_false_2 (envScheme = [])) by done.
  rewrite lookup_empty. rewrite (bool_decide_eq_false_2 (fileScheme = [])) by done. rewrite lookup_insert_ne by done. by rewrite lookup_empty.
Qed.

Lemma env_Resolve_Ok lookup o s : env_Resolve lookup o = Ok s ↔ IsBlank s = false ∧ lookup o = Some s.
Proof.
  unfold env_Resolve. destruct (lookup o) as [v|]; [|by split; [|intros [_ ?]]]. destruct (IsBlank v) eqn:E.
  - split; [done|]. intros [Hb [= ->]]. congruence.
  - split; [intros [= <-]; done|]. by intros [_ [= ->]].
Qed.

Lemma file_Resolve_Ok mode fs o s : file_Resolve mode fs o = Ok s ↔ ∃ f perm data, IsBlank s = false ∧ fs o = Ok f ∧ op_stat f = Ok (true, perm) ∧
  (mode = PermError → Z.land perm worldReadableBits = 0) ∧ op_data f = Ok data ∧ s = stripOneTrailingNewline data.
Proof.
  unfold file_Resolve. split.
  - destruct (fs o) as [f|]; [|done]. destruct (op_stat f) as [[[|] perm]|] eqn:Est; [|done..]. cbn [negb].
    destruct (negb _ && _) eqn:Ep; [done|]. destruct (op_data f) as [data|] eqn:Ed; [|done]. destruct (IsBlank _) eqn:Eb; [done|]. intros [= <-].
    exists f, perm, data. split_and!; try done. intros ->. rewrite andb_true_r in Ep. by apply negb_false_iff, Z.eqb_eq in Ep.
  - intros (f & perm & data & Hb & -> & -> & Hp & -> & ->). cbn [negb]. rewrite Hb. destruct mode; [|by rewrite andb_false_r].
    rewrite (Hp eq_refl). done.
Qed.

Lemma Resolve_unfold res ref s : Resolver_Resolve res ref = Ok s ↔
  ∃ sc o p, Ref_split ref = Some (sc, o) ∧ o ≠ [] ∧ o ≠ redactedMarker ∧ providers res !! sc = Some p ∧ prov_Resolve p o = Ok s.
Proof.
  unfold Resolver_Resolve, Ref_Scheme, Ref_Opaque. destruct (Ref_Validate ref) eqn:Ev.
  - split; [done|]. intros (sc & o & p & Es & Ho & Hm & _). assert (Ref_Validate ref = None) by (apply Ref_Validate_None; eauto). congruence.
  - apply Ref_Validate_None in Ev as (sc & o & Es & Ho & Hm). rewrite Es. split.
    + destruct (providers res !! sc) as [p|] eqn:Ep; [|done]. intros. exists sc, o, p. by split_and!.
    + intros (sc' & o' & p & [= <- <-] & _ & _ & -> & Hr). done.
Qed.

Lemma builtin_not_blank mode lookup fs res ref s : NewResolver (Builtin mode lookup fs) = Ok res → Resolver_Resolve res ref = Ok s → IsBlank s = false.
Proof.
  rewrite NewResolver_Builtin. intros [= <-]. rewrite Resolve_unfold. cbn [providers]. intros (sc & o & p & _ & _ & _ & Hp & Hr).
  apply lookup_insert_Some in Hp as [[<- <-]|[_ [[<- <-]|[_ Hp]]%lookup_insert_Some]]; [..|by rewrite lookup_empty in Hp]; simpl in Hr.
  - by apply file_Resolve_Ok in Hr as (f & perm & data & ? & _).
  - by apply env_Resolve_Ok in Hr as [? _].
Qed.

Lemma builtin_split sc o : sc = envScheme ∨ sc = fileScheme → Ref_split (sc ++ COLON :: o) = Some (sc, o).
Proof. intros H. apply Ref_split_Some. split_and!; [done|by destruct H as [-> | ->]|]. destruct H as [-> | ->]; apply (bool_decide_unpack _); vm_compute; exact I. Qed.

(** ** Theorems *)

(** Rendering a reference is safe.  Whatever was put in the field, the rendering only
    depends on what stands before its first colon, is short, and is not itself a
    reference: a configuration that was written out and read back is refused instead of
    looking for a secret of that name. *)
Theorem redacted_reference_safe r : (∀ r', Ref_Scheme r' = Ref_Scheme r → Ref_redacted r' = Ref_redacted r) ∧
  (length (Ref_redacted r) ≤ 43)%nat ∧ Ref_Validate (Ref_redacted r) ≠ None.
Proof.
  assert (Ref_Validate redactedMarker ≠ None) as Hm by (vm_compute; discriminate).
  assert (length redactedMarker = 10%nat) as Hl by reflexivity.
  split_and!; [apply Ref_redacted_scheme|..]; unfold Ref_redacted; destruct (Ref_split r) as [[s o]|] eqn:Es; try done; try lia.
  - destruct (schemeShaped s) eqn:E; [|lia]. apply schemeShaped_length in E. rewrite length_app. cbn [length]. unfold maxSchemeLen in E. lia.
  - destruct (schemeShaped s) eqn:E; [|done]. apply Ref_split_Some in Es as (_ & Hs & Hc).
    intros (s' & o' & E' & _ & Ho)%Ref_Validate_None. pose proof (proj2 (Ref_split_Some _ s redactedMarker) (conj eq_refl (conj Hs Hc))) as E2.
    rewrite E2 in E'. by injection E' as <- <-.
Qed.

(** What a reference resolves to.  The built-in resolver exists, and gives a secret
    exactly when it is not blank and the reference names an environment variable that
    holds it, or a regular file - private to its owner, unless warnings were chosen -
    whose content it is up to one line end.  Anything else is an error. *)
Theorem builtin_Resolve_exact mode lookup fs : ∃ res, NewResolver (Builtin mode lookup fs) = Ok res ∧ ∀ ref s, Resolver_Resolve res ref = Ok s ↔
  IsBlank s = false ∧
  ((∃ name, ref = go "env:" ++ name ∧ name ≠ [] ∧ name ≠ redactedMarker ∧ lookup name = Some s) ∨
   (∃ path f perm data, ref = go "file:" ++ path ∧ path ≠ [] ∧ path ≠ redactedMarker ∧ fs path = Ok f ∧ op_stat f = Ok (true, perm) ∧
      (mode = PermError → Z.land perm worldReadableBits = 0) ∧ op_data f = Ok data ∧ s = stripOneTrailingNewline data)).
Proof.
  exists (MkResolver (<[fileScheme := MkProvider fileScheme (file_Resolve mode fs)]> (<[envScheme := MkProvider envScheme (env_Resolve lookup)]> ∅))).
  split; [apply NewResolver_Builtin|]. intros ref s. rewrite Resolve_unfold. cbn [providers]. split.
  - intros (sc & o & p & (-> & Hne & Hc)%Ref_split_Some & Ho & Hm & Hp & Hr).
    apply lookup_insert_Some in Hp as [[<- <-]|[_ [[<- <-]|[_ Hp]]%lookup_insert_Some]]; [..|by rewrite lookup_empty in Hp]; simpl in Hr.
    + apply file_Resolve_Ok in Hr as (f & perm & data & ? & ? & ? & ? & ? & ?). split; [done|]. right. exists o, f, perm, data. by split_and!.
    + apply env_Resolve_Ok in Hr as [? ?]. split; [done|]. left. exists o. by split_and!.
  - intros (Hb & [(o & -> & Ho & Hm & Hl)|(o & f & perm & data & -> & Ho & Hm & Hf & Hst & Hp & Hd & ->)]).
    + exists envScheme, o, (MkProvider envScheme (env_Resolve lookup)). split_and!; [exact (builtin_split envScheme o (or_introl eq_refl))|done|done| |by apply env_Resolve_Ok].
      rewrite lookup_insert_ne by done. by rewrite lookup_insert_eq.
    + exists fileScheme, o, (MkProvider fileScheme (file_Resolve mode fs)). split_and!; [exact (builtin_split fileScheme o (or_intror eq_refl))|done|done|by rewrite lookup_insert_eq|].
      apply file_Resolve_Ok. exists f, perm, data. by split_and!.
Qed.
