(* ===== verification/Config.v ===== *)
(** * Configuration

    [internal/config]: the configuration record with its defaults, the validation every
    start of the server runs, and the secrets a configuration needs.  A validation
    message is the format string of the source, without the values it quotes.  A
    floating-point number is a [spec_float], the Standard Library's reading of IEEE 754.
    [url.Parse] is a parameter: it gives the parts of a URL the code looks at.  The
    decoding of YAML is a library's; the overlay of the environment is in [ConfigEnv]. *)

From Stdlib Require Import SpecFloat.
From S2P Require Import Prelude DomainErrors GoLib RateLimit NetIP Domain Database Secrets.

Open Scope Z_scope.

(** ** The record *)

(** src/internal/config/config.go:41-62, ServerConfig *)
Record ServerConfig := MkServerConfig {
  Srv_Environment : gostring;
  Srv_ListenAddr : gostring;
  Srv_PublicBaseURL : gostring;
  Srv_TrustedProxies : list gostring;
  Srv_HealthListenAddr : gostring;
}.
(** src/internal/config/config.go:127-180, ACMEDNSConfig *)
Record ACMEDNSConfig := MkACMEDNSConfig {
  ADNS_Mode : gostring;
  ADNS_Provider : gostring;
  ADNS_CredentialsRef : Ref;
  ADNS_CredentialsRefs : gmap gostring Ref;
  ADNS_Server : gostring;
  ADNS_TSIGKeyName : gostring;
  ADNS_TSIGAlgorithm : gostring;
}.
(** src/internal/config/config.go:79-125, ACMEConfig *)
Record ACMEConfig := MkACMEConfig {
  ACME_DirectoryURL : gostring;
  ACME_Solver : gostring;
  ACME_AccountKeyFile : gostring;
  ACME_CacheDir : gostring;
  ACME_ContactEmail : gostring;
  ACME_AcceptTOS : bool;
  ACME_DNS : ACMEDNSConfig;
}.
(** src/internal/config/config.go:182-240, CloudflareOriginConfig *)
Record CloudflareOriginConfig := MkCloudflareOriginConfig { CFO_APITokenRef : Ref; CFO_CacheDir : gostring; CFO_ValidityDays : Z }.
(** src/internal/config/config.go:242-246, ManualTLSConfig *)
Record ManualTLSConfig := MkManualTLSConfig { Man_CertFile : gostring; Man_KeyFile : gostring }.
(** src/internal/config/config.go:248-269, CSRTLSConfig *)
Record CSRTLSConfig := MkCSRTLSConfig { CSRc_KeyFile : gostring; CSRc_CSRFile : gostring; CSRc_CertFile : gostring }.
(** src/internal/config/config.go:271-291, UpstreamTLSConfig *)
Record UpstreamTLSConfig := MkUpstreamTLSConfig { Up_RequireForwardedProto : bool; Up_ListenAddr : gostring }.
(** src/internal/config/config.go:64-77, TLSConfig *)
Record TLSConfig := MkTLSConfig {
  TLS_Mode : gostring;
  TLS_MinVersion : gostring;
  TLS_ACME : ACMEConfig;
  TLS_CloudflareOrigin : CloudflareOriginConfig;
  TLS_Manual : ManualTLSConfig;
  TLS_CSR : CSRTLSConfig;
  TLS_Upstream : UpstreamTLSConfig;
  TLS_AllowSelfSignedInProduction : bool;
  TLS_Domain : gostring;
  TLS_SANs : list gostring;
}.
(** src/internal/config/config.go:300-303, SQLiteConfig *)
Record SQLiteConfig := MkSQLiteConfig { SQLite_Path : gostring }.
(** src/internal/config/config.go:305-308, PostgresConfig *)
Record PostgresConfig := MkPostgresConfig { PG_DSNRef : Ref }.
(** src/internal/config/config.go:293-298, DatabaseConfig *)
Record DatabaseConfig := MkDatabaseConfig { DB_Driver : gostring; DB_SQLite : SQLiteConfig; DB_Postgres : PostgresConfig }.
(** src/internal/config/config.go:391-394, APITokenProvider *)
Record APITokenProvider := MkAPITokenProvider { PApi_Enabled : bool }.
(** src/internal/config/config.go:396-399, PasskeyProvider *)
Record PasskeyProvider := MkPasskeyProvider { PPass_Enabled : bool }.
(** src/internal/config/config.go:401-404, OIDCProvider *)
Record OIDCProvider := MkOIDCProvider { POidc_Enabled : bool }.
(** src/internal/config/config.go:384-389, AuthProviders *)
Record AuthProviders := MkAuthProviders { Provs_APIToken : APITokenProvider; Provs_Passkey : PasskeyProvider; Provs_OIDC : OIDCProvider }.
(** src/internal/config/config.go:310-382, AuthConfig *)
Record AuthConfig := MkAuthConfig {
  Ath_AccessTokenTTL : duration;
  Ath_RefreshTokenMaxAge : duration;
  Ath_TokenSigningKeyRef : Ref;
  Ath_AdminTokenSigningKeyRef : Ref;
  Ath_AccessKeyPepperRef : Ref;
  Ath_AccessKeyGraceWindow : duration;
  Ath_Providers : AuthProviders;
}.
(** src/internal/config/config.go:414-418, SharedRateLimitConfig *)
Record SharedRateLimitConfig := MkSharedRateLimitConfig { Shr_Address : gostring; Shr_PasswordRef : Ref }.
(** src/internal/config/config.go:428-432, Tier *)
Record TierConfig := MkTierConfig { Tr_Requests : Z; Tr_Window : duration }.
(** src/internal/config/config.go:420-426, RateLimitTiers *)
Record RateLimitTiers := MkRateLimitTiers { Trs_Auth : TierConfig; Trs_Publish : TierConfig; Trs_Management : TierConfig; Trs_Admin : TierConfig }.
(** src/internal/config/config.go:406-412, RateLimitConfig *)
Record RateLimitConfig := MkRateLimitConfig { RL_Enabled : bool; RL_Store : gostring; RL_Shared : SharedRateLimitConfig; RL_Tiers : RateLimitTiers }.
(** src/internal/config/config.go:441-445, LogConfig *)
Record LogConfig := MkLogConfig { Log_Level : gostring; Log_Format : gostring }.
(** src/internal/config/config.go:453-491, PrometheusConfig *)
Record PrometheusConfig := MkPrometheusConfig { Prom_Enabled : bool; Prom_ListenAddr : gostring; Prom_Path : gostring }.
(** src/internal/config/config.go:493-498, OTLPMetricsConfig *)
Record OTLPMetricsConfig := MkOTLPMetricsConfig { OTLP_Enabled : bool; OTLP_Endpoint : gostring; OTLP_HeadersRef : Ref }.
(** src/internal/config/config.go:447-451, MetricsConfig *)
Record MetricsConfig := MkMetricsConfig { Met_Prometheus : PrometheusConfig; Met_OTLP : OTLPMetricsConfig }.
(** src/internal/config/config.go:500-511, TracesConfig *)
Record TracesConfig := MkTracesConfig { Trc_Enabled : bool; Trc_Endpoint : gostring; Trc_SampleRatio : spec_float }.
(** src/internal/config/config.go:434-439, TelemetryConfig *)
Record TelemetryConfig := MkTelemetryConfig { Tel_Log : LogConfig; Tel_Metrics : MetricsConfig; Tel_Traces : TracesConfig }.
(** src/internal/config/config.go:513-516, OnboardingConfig *)
Record OnboardingConfig := MkOnboardingConfig { Onb_Mode : gostring }.
(** src/internal/config/config.go:518-523, BlocklistConfig *)
Record BlocklistConfig := MkBlocklistConfig { Blk_SeedFile : gostring; Blk_ExtraEntries : list gostring; Blk_AllowEntries : list gostring }.
(** src/internal/config/config.go:525-613, RetentionConfig *)
Record RetentionConfig := MkRetentionConfig {
  Ret_HandleQuarantine : duration;
  Ret_AuditRetention : duration;
  Ret_AuditPurgeInterval : duration;
  Ret_AuditPurgeBatch : Z;
  Ret_AuditPurgeMaxPerRun : Z;
  Ret_HandleQuarantineSweepInterval : duration;
  Ret_HandleQuarantineSweepBatch : Z;
  Ret_AccessKeyGraceSweepInterval : duration;
  Ret_AccessKeyGraceSweepBatch : Z;
  Ret_MaxSetsPerOwner : Z;
}.
(** src/internal/config/config.go:615-630, InstallConfig *)
Record InstallConfig := MkInstallConfig { Inst_Enabled : bool }.
(** src/internal/config/config.go:632-652, DocsConfig *)
Record DocsConfig := MkDocsConfig { Docs_Enabled : bool }.
(** src/internal/config/config.go:26-39, Config *)
Record Config := MkConfig {
  Cfg_Server : ServerConfig;
  Cfg_TLS : TLSConfig;
  Cfg_Database : DatabaseConfig;
  Cfg_Auth : AuthConfig;
  Cfg_RateLimit : RateLimitConfig;
  Cfg_Telemetry : TelemetryConfig;
  Cfg_Onboarding : OnboardingConfig;
  Cfg_Blocklist : BlocklistConfig;
  Cfg_Retention : RetentionConfig;
  Cfg_Install : InstallConfig;
  Cfg_Docs : DocsConfig;
}.

(** ** Defaults *)

(** src/internal/config/defaults.go:5-6, leDirectoryURL *)
Definition leDirectoryURL : gostring := go "https://acme-v02.api.letsencrypt.org/directory".
(** src/internal/config/defaults.go:8-9, day *)
Definition day : duration := 24 * Hour.
(** src/internal/config/defaults.go:11-14, defaultOriginValidityDays *)
Definition defaultOriginValidityDays : Z := 365.

Definition float_zero : spec_float := S754_zero false.
Definition float_one : spec_float := S754_finite false 4503599627370496 (-52).

(** src/internal/config/defaults.go:16-149, Default *)
Definition Default : Config :=
  MkConfig
    (MkServerConfig (go "production") (go ":8443") [] [] [])
    (MkTLSConfig [] (go "1.2")
       (MkACMEConfig leDirectoryURL [] [] [] [] false (MkACMEDNSConfig [] [] [] ∅ [] [] []))
       (MkCloudflareOriginConfig [] [] defaultOriginValidityDays)
       (MkManualTLSConfig [] []) (MkCSRTLSConfig [] [] []) (MkUpstreamTLSConfig true []) false [] [])
    (MkDatabaseConfig (go "sqlite") (MkSQLiteConfig (go "./data/vallet.db")) (MkPostgresConfig []))
    (MkAuthConfig (15 * Minute) (90 * day) [] [] [] (24 * Hour)
       (MkAuthProviders (MkAPITokenProvider true) (MkPasskeyProvider false) (MkOIDCProvider false)))
    (MkRateLimitConfig true (go "memory") (MkSharedRateLimitConfig [] [])
       (MkRateLimitTiers (MkTierConfig 5 Minute) (MkTierConfig 60 Minute) (MkTierConfig 120 Minute) (MkTierConfig 60 Minute)))
    (MkTelemetryConfig (MkLogConfig (go "info") (go "json"))
       (MkMetricsConfig (MkPrometheusConfig true [] (go "/metrics")) (MkOTLPMetricsConfig false [] []))
       (MkTracesConfig false [] float_one))
    (MkOnboardingConfig (go "invite"))
    (MkBlocklistConfig [] [] [])
    (MkRetentionConfig (30 * day) (365 * day) (24 * Hour) 500 100000 Hour 200 0 200 100)
    (MkInstallConfig true)
    (MkDocsConfig true).

(** ** Validation *)

(** src/internal/config/validate.go:15-20, ValidationError *)
Record ValidationError := MkValidationError { VE_Field : gostring; VE_Msg : gostring }.

(** The errors one check adds. *)
Definition add (field msg : string) : list ValidationError := [MkValidationError (go field) (go msg)].
Definition when {A} (b : bool) (l : list A) : list A := if b then l else [].
Definition eqs (s : gostring) (lit : string) : bool := bool_decide (s = go lit).
Definition empty (s : gostring) : bool := bool_decide (s = []).
Definition one_of (s : gostring) (l : list string) : bool := existsb (eqs s) l.

(** src/internal/config/validate.go:90-133, validatePrivateBindAddr *)
Definition validatePrivateBindAddr (field : string) (addr : gostring) : list ValidationError :=
  match SplitHostPort addr with
  | None => add field "must be a host:port address, got %q"
  | Some host =>
      if equal_fold host (go "localhost") then [] else
      match ParseIP host with
      | None => add field "must bind a loopback or private address (127.0.0.0/8, ::1, RFC1918, or ULA), got %q"
      | Some ip =>
          if IsUnspecified ip then add field "must not bind a wildcard address (%q reaches every interface); use a loopback or private address" else
          if IsLoopback ip || IsPrivate ip then [] else
          add field "must bind a loopback or private address (127.0.0.0/8, ::1, RFC1918, or ULA), got a globally-routable address %q"
      end
  end.

(** One entry of the trusted proxies. *)
Definition proxy_errors (i : nat) (entry : gostring) : list ValidationError :=
  let at_i msg := [MkValidationError (go "server.trusted_proxies[" ++ FormatInt (Z.of_nat i) ++ go "]") (go msg)] in
  if empty entry then at_i "must not be empty; want an IP or CIDR" else
  match ParseIP entry with
  | Some _ => []
  | None => match ParseCIDR entry with Some _ => [] | None => at_i "must be an IP or CIDR, got %q" end
  end.

(** src/internal/config/validate.go:135-154, Config.validateTrustedProxies *)
Definition validateTrustedProxies (c : Config) : list ValidationError := mjoin (imap proxy_errors (Srv_TrustedProxies (Cfg_Server c))).

(** src/internal/config/validate.go:71-88, Config.validateServer *)
Definition validateServer (c : Config) (prod : bool) : list ValidationError :=
  let s := Cfg_Server c in
  when (negb (one_of (Srv_Environment s) ["production"; "development"]%string)) (add "server.environment" "must be production or development, got %q") ++
  when prod (if empty (Srv_PublicBaseURL s) then add "server.public_base_url" "required in production"
             else when (negb (has_prefix (go "https://") (Srv_PublicBaseURL s))) (add "server.public_base_url" "must use https:// in production, got %q")) ++
  validateTrustedProxies c ++
  when (negb (empty (Srv_HealthListenAddr s))) (validatePrivateBindAddr "server.health_listen_addr" (Srv_HealthListenAddr s)).

(** src/internal/config/validate.go:156-160, tlsModes *)
Definition tlsModes : list string := ["acme"; "cloudflare_origin"; "manual"; "csr"; "upstream"; "self_signed"]%string.
(** src/internal/config/validate.go:162-166, tlsMinVersions *)
Definition tlsMinVersions : list string := ["1.2"; "1.3"]%string.
(** src/internal/config/validate.go:237-242, originValidityDays *)
Definition originValidityDays : list Z := [7; 30; 90; 365; 730; 1095; 5475].

(** src/internal/config/validate.go:443-453, isFQDN *)
Definition isFQDN (host : gostring) : bool :=
  if empty host || eqs host "localhost" then false else
  match ParseIP host with Some _ => false | None => contains (go ".") host end.

(** src/internal/config/validate.go:244-292, Config.validateCloudflareOrigin *)
Definition validateCloudflareOrigin (c : Config) (prod : bool) : list ValidationError :=
  let o := TLS_CloudflareOrigin (Cfg_TLS c) in
  when (Ref_IsZero (CFO_APITokenRef o)) (add "tls.cloudflare_origin.api_token_ref" "required for cloudflare_origin mode") ++
  when (empty (CFO_CacheDir o)) (add "tls.cloudflare_origin.cache_dir" "required for cloudflare_origin mode (it is the restart-storm control)") ++
  when (negb (bool_decide (CFO_ValidityDays o ∈ originValidityDays)))
    (add "tls.cloudflare_origin.validity_days" "must be one of 7, 30, 90, 365, 730, 1095, 5475 (Cloudflare's accepted values), got %d") ++
  (if empty (TLS_Domain (Cfg_TLS c)) then add "tls.domain" "required for cloudflare_origin mode"
   else when (prod && negb (isFQDN (TLS_Domain (Cfg_TLS c))))
     (add "tls.domain" "must be a fully-qualified domain (not an IP, localhost, or dotless name) in production, got %q")) ++
  when (bool_decide (Srv_TrustedProxies (Cfg_Server c) = []))
    (add "server.trusted_proxies" "at least one required for cloudflare_origin mode: an Origin CA certificate is trusted only by the Cloudflare edge, so the Cloudflare IP ranges must be declared and the origin must not be served directly").

(** src/internal/config/secretsref.go:12-22, SortedRefNames *)
Definition SortedRefNames (m : gmap gostring Ref) : list gostring := ordered_by bytes_le (map_to_list m).*1.

Definition named (m : gmap gostring Ref) (name : gostring) : Ref := default [] (m !! name).

(** src/internal/config/validate.go:363-397, validateACMEDNSCredentials *)
Definition validateACMEDNSCredentials (d : ACMEDNSConfig) : list ValidationError :=
  let hasSingle := negb (Ref_IsZero (ADNS_CredentialsRef d)) in
  let hasNamed := negb (bool_decide (ADNS_CredentialsRefs d = ∅)) in
  if hasSingle && hasNamed then add "tls.acme.dns.credentials_refs" "set either credentials_ref or credentials_refs, not both"
  else if negb hasSingle && negb hasNamed then
    add "tls.acme.dns.credentials_ref" "required for dns_01 api mode (set credentials_ref or credentials_refs)"
  else if hasNamed then
    mjoin ((λ name,
      if empty (trim_space name) then add "tls.acme.dns.credentials_refs" "credential name must not be empty"
      else when (Ref_IsZero (named (ADNS_CredentialsRefs d) name)) [MkValidationError (go "tls.acme.dns.credentials_refs." ++ name) (go "must not be empty")])
      <$> SortedRefNames (ADNS_CredentialsRefs d))
  else [].

(** src/internal/config/validate.go:399-415, tsigAlgorithms *)
Definition tsigAlgorithms : list string := ["hmac-sha224"; "hmac-sha256"; "hmac-sha384"; "hmac-sha512"]%string.

(** src/internal/config/validate.go:417-441, validateACMEDNSRFC2136 *)
Definition validateACMEDNSRFC2136 (d : ACMEDNSConfig) : list ValidationError :=
  when (empty (trim_space (ADNS_Server d))) (add "tls.acme.dns.server" "required for the rfc2136 provider (host:port of the authoritative nameserver)") ++
  when (empty (trim_space (ADNS_TSIGKeyName d))) (add "tls.acme.dns.tsig_key_name" "required for the rfc2136 provider") ++
  (if empty (trim_space (ADNS_TSIGAlgorithm d)) then add "tls.acme.dns.tsig_algorithm" "required for the rfc2136 provider"
   else when (negb (one_of (to_lower (trim_space (ADNS_TSIGAlgorithm d))) tsigAlgorithms))
     (add "tls.acme.dns.tsig_algorithm" "unsupported algorithm %q (want hmac-sha224, hmac-sha256, hmac-sha384 or hmac-sha512)")).

(** src/internal/config/validate.go:337-361, Config.validateACMEDNS *)
Definition validateACMEDNS (c : Config) : list ValidationError :=
  let d := ACME_DNS (TLS_ACME (Cfg_TLS c)) in
  if eqs (ADNS_Mode d) "manual" then []
  else if eqs (ADNS_Mode d) "api" then
    when (empty (ADNS_Provider d)) (add "tls.acme.dns.provider" "required for dns_01 api mode") ++
    validateACMEDNSCredentials d ++
    when (eqs (ADNS_Provider d) "rfc2136") (validateACMEDNSRFC2136 d)
  else if empty (ADNS_Mode d) then add "tls.acme.dns.mode" "required for dns_01 solver (manual or api)"
  else add "tls.acme.dns.mode" "unknown mode %q (want manual or api)".

(** src/internal/config/validate.go:294-335, Config.validateACME *)
Definition validateACME (c : Config) (prod : bool) : list ValidationError :=
  let a := TLS_ACME (Cfg_TLS c) in
  (if empty (TLS_Domain (Cfg_TLS c)) then add "tls.domain" "required for acme mode"
   else when (prod && negb (isFQDN (TLS_Domain (Cfg_TLS c))))
     (add "tls.domain" "must be a fully-qualified domain (not an IP, localhost, or dotless name) in production, got %q")) ++
  (if one_of (ACME_Solver a) ["tls_alpn_01"; "dns_01"]%string then []
   else if empty (ACME_Solver a) then add "tls.acme.solver" "required for acme mode (tls_alpn_01 or dns_01)"
   else add "tls.acme.solver" "unknown solver %q") ++
  when (eqs (ACME_Solver a) "dns_01") (validateACMEDNS c) ++
  when (empty (ACME_DirectoryURL a)) (add "tls.acme.directory_url" "required for acme mode") ++
  when (empty (ACME_AccountKeyFile a)) (add "tls.acme.account_key_file" "required for acme mode") ++
  when (empty (ACME_CacheDir a)) (add "tls.acme.cache_dir" "required for acme mode (it is the restart-storm rate-limit control)") ++
  when (negb (ACME_AcceptTOS a)) (add "tls.acme.accept_tos" "must be true: the CA requires the operator to accept its terms of service").

(** What each mode of TLS requires. *)
Definition mode_errors (c : Config) (prod : bool) : list ValidationError :=
  let t := Cfg_TLS c in
  let mode := TLS_Mode t in
  if eqs mode "acme" then validateACME c prod
  else if eqs mode "cloudflare_origin" then validateCloudflareOrigin c prod
  else if eqs mode "manual" then
    when (empty (Man_CertFile (TLS_Manual t))) (add "tls.manual.cert_file" "required for manual mode") ++
    when (empty (Man_KeyFile (TLS_Manual t))) (add "tls.manual.key_file" "required for manual mode")
  else if eqs mode "csr" then
    when (empty (TLS_Domain t)) (add "tls.domain" "required for csr mode") ++
    when (empty (CSRc_KeyFile (TLS_CSR t))) (add "tls.csr.key_file" "required for csr mode") ++
    when (empty (CSRc_CSRFile (TLS_CSR t))) (add "tls.csr.csr_file" "required for csr mode") ++
    when (empty (CSRc_CertFile (TLS_CSR t))) (add "tls.csr.cert_file" "required for csr mode")
  else if eqs mode "upstream" then
    when (bool_decide (Srv_TrustedProxies (Cfg_Server c) = [])) (add "server.trusted_proxies" "at least one required for upstream TLS mode") ++
    (if empty (Up_ListenAddr (TLS_Upstream t))
     then add "tls.upstream.listen_addr" "required for upstream TLS mode (the plaintext address the app listens on behind the proxy)"
     else validatePrivateBindAddr "tls.upstream.listen_addr" (Up_ListenAddr (TLS_Upstream t)))
  else if eqs mode "self_signed" then
    when (prod && negb (TLS_AllowSelfSignedInProduction t))
      (add "tls.mode" "self_signed refused in production unless allow_self_signed_in_production is set")
  else [].

(** src/internal/config/validate.go:168-235, Config.validateTLS *)
Definition validateTLS (c : Config) (prod : bool) : list ValidationError :=
  let t := Cfg_TLS c in
  when (negb (one_of (TLS_MinVersion t) tlsMinVersions)) (add "tls.min_version" "must be 1.2 or 1.3, got %q") ++
  if empty (TLS_Mode t) then add "tls.mode" "required (one of acme, cloudflare_origin, manual, csr, upstream, self_signed)"
  else if negb (one_of (TLS_Mode t) tlsModes) then add "tls.mode" "unknown mode %q"
  else
    mode_errors c prod ++
    when (negb (eqs (TLS_Mode t) "upstream") && negb (empty (Up_ListenAddr (TLS_Upstream t))))
      (add "tls.upstream.listen_addr" "must be empty unless tls.mode is upstream; a plaintext listener is never bound while this process terminates TLS").

(** src/internal/config/validate.go:474-487, Config.validateDatabase *)
Definition validateDatabase (c : Config) : list ValidationError :=
  let d := Cfg_Database c in
  if eqs (DB_Driver d) "sqlite" then when (empty (SQLite_Path (DB_SQLite d))) (add "database.sqlite.path" "required for sqlite driver")
  else if eqs (DB_Driver d) "postgres" then when (Ref_IsZero (PG_DSNRef (DB_Postgres d))) (add "database.postgres.dsn_ref" "required for postgres driver")
  else add "database.driver" "unknown driver %q (want sqlite or postgres)".

(** src/internal/config/validate.go:489-531, Config.validateAuth *)
Definition validateAuth (c : Config) (prod : bool) : list ValidationError :=
  let a := Cfg_Auth c in
  let ttl := Ath_AccessTokenTTL a in
  let w := Ath_AccessKeyGraceWindow a in
  when ((ttl <=? 0) || (24 * Hour <? ttl)) (add "auth.access_token_ttl" "must be in (0, 24h], got %v") ++
  when (Ath_RefreshTokenMaxAge a <=? ttl) (add "auth.refresh_token_max_age" "must be greater than access_token_ttl (%v)") ++
  when ((w <=? 0) || (30 * 24 * Hour <? w)) (add "auth.access_key_grace_window" "must be in (0, 720h], got %v") ++
  when (negb (PApi_Enabled (Provs_APIToken (Ath_Providers a))) && negb (PPass_Enabled (Provs_Passkey (Ath_Providers a))) && negb (POidc_Enabled (Provs_OIDC (Ath_Providers a))))
    (add "auth.providers" "at least one authentication provider must be enabled") ++
  when (prod && Ref_IsZero (Ath_TokenSigningKeyRef a)) (add "auth.token_signing_key_ref" "required in production") ++
  when (prod && Ref_IsZero (Ath_AdminTokenSigningKeyRef a)) (add "auth.admin_token_signing_key_ref" "required in production") ++
  when (prod && Ref_IsZero (Ath_AccessKeyPepperRef a)) (add "auth.access_key_pepper_ref" "required in production").

(** What [url.Parse] gives, as far as it is used: the scheme in lower case, the host with
    its port, the user information - whether it has a password - and the text of the URL
    with the password hidden. *)
Record URL := MkURL { u_Scheme : gostring; u_Host : gostring; u_User : option bool; u_Redacted : gostring }.

Section validate.
Context (url_Parse : gostring → option URL).
(** The order in which Go visits the entries of a map. *)
Context (visit : list (string * TierConfig) → list (string * TierConfig)).

(** src/internal/config/validate.go:573-596, inspectRedisAddress *)
Definition inspectRedisAddress (address : gostring) : bool * gostring :=
  let raw := if contains (go "://") address then address else go "redis://" ++ address in
  match url_Parse raw with
  | None => (false, go "[unparseable redis address]")
  | Some u => (default false (u_User u), u_Redacted u)
  end.

Definition tier_errors (named_tier : string * TierConfig) : list ValidationError :=
  let '(name, t) := named_tier in
  when (Tr_Requests t <=? 0) (add ("rate_limit.tiers." ++ name ++ ".requests") "must be > 0, got %d") ++
  when (Tr_Window t <=? 0) (add ("rate_limit.tiers." ++ name ++ ".window") "must be > 0, got %v").

Definition tiers (c : Config) : list (string * TierConfig) :=
  let t := RL_Tiers (Cfg_RateLimit c) in
  [("auth", Trs_Auth t); ("publish", Trs_Publish t); ("management", Trs_Management t); ("admin", Trs_Admin t)]%string.

(** src/internal/config/validate.go:533-571, Config.validateRateLimit *)
Definition validateRateLimit (c : Config) : list ValidationError :=
  let r := Cfg_RateLimit c in
  let address := Shr_Address (RL_Shared r) in
  if negb (RL_Enabled r) then [] else
  when (eqs (RL_Store r) "shared" && empty address) (add "rate_limit.shared.address" "required when store is shared") ++
  when (eqs (RL_Store r) "shared" && negb (empty address) && fst (inspectRedisAddress address))
    (add "rate_limit.shared.address" "must not embed an AUTH password (got %s); set it via rate_limit.shared.password_ref instead (ADR-0022: secrets never in the config file)") ++
  when (negb (one_of (RL_Store r) ["memory"; "shared"]%string)) (add "rate_limit.store" "unknown store %q (want memory or shared)") ++
  mjoin (tier_errors <$> visit (tiers c)).

(** src/internal/logging/logger.go:11-22, levels *)
Definition levels : list string := ["debug"; "info"; "warn"; "error"]%string.
(** src/internal/logging/logger.go:24-31, formats *)
Definition formats : list string := ["json"; "text"]%string.
(** src/internal/logging/logger.go:49-67, ParseLevel
    (levels are known by their names) *)
Definition ParseLevel (name : gostring) : result gostring :=
  let key := to_lower (trim_space name) in
  if one_of key levels then Ok key else Err (errorf "unknown log level %q (want one of: debug, error, info, warn)" []).
(** src/internal/logging/logger.go:69-76, ValidateFormat *)
Definition ValidateFormat (name : gostring) : option goerror :=
  if one_of (to_lower (trim_space name)) formats then None else Some (errorf "unknown log format %q (want one of: json, text)" []).

(** src/internal/config/validate.go:629-655, validateExportEndpoint *)
Definition validateExportEndpoint (field : string) (endpoint : gostring) : list ValidationError :=
  match url_Parse endpoint with
  | None => add field "must be a valid URL"
  | Some u =>
      when (negb (one_of (u_Scheme u) ["http"; "https"]%string)) (add field "must be an http:// or https:// URL") ++
      when (empty (u_Host u)) (add field "must include a host") ++
      when (bool_decide (is_Some (u_User u))) (add field "must not embed credentials in the URL; use headers_ref instead")
  end.

(** src/internal/config/validate.go:722-726, isWildcardHost *)
Definition isWildcardHost (h : gostring) : bool := empty h || one_of h ["0.0.0.0"; "::"]%string.

(** src/internal/config/validate.go:693-720, addrsOverlap *)
Definition addrsOverlap (a b : gostring) : bool :=
  match split_host_port a, split_host_port b with
  | Some (ah, ap), Some (bh, bp) => bool_decide (ap = bp) && (isWildcardHost ah || isWildcardHost bh || bool_decide (ah = bh))
  | _, _ => false
  end.

(** src/internal/config/validate.go:657-691, Config.validatePrometheus *)
Definition validatePrometheus (c : Config) : list ValidationError :=
  let p := Met_Prometheus (Tel_Metrics (Cfg_Telemetry c)) in
  if empty (Prom_ListenAddr p) then [] else
  when (bool_decide (split_host_port (Prom_ListenAddr p) = None)) (add "telemetry.metrics.prometheus.listen_addr" "must be a host:port address, got %q") ++
  when (addrsOverlap (Prom_ListenAddr p) (Srv_ListenAddr (Cfg_Server c)))
    (add "telemetry.metrics.prometheus.listen_addr" "must not overlap server.listen_addr; the scrape endpoint is served on its own listener and is never mounted on the public API") ++
  when (negb (has_prefix (go "/") (Prom_Path p))) (add "telemetry.metrics.prometheus.path" "must be an absolute path beginning with /, got %q").

(** A ratio outside [0, 1], or no number at all. *)
Definition bad_ratio (r : spec_float) : bool :=
  SFltb r float_zero || SFltb float_one r || match r with S754_nan => true | _ => false end.

(** src/internal/config/validate.go:598-627, Config.validateTelemetry *)
Definition validateTelemetry (c : Config) : list ValidationError :=
  let t := Cfg_Telemetry c in
  let otlp := Met_OTLP (Tel_Metrics t) in
  when (negb (is_ok (ParseLevel (Log_Level (Tel_Log t))))) (add "telemetry.log.level" "%v") ++
  when (bool_decide (is_Some (ValidateFormat (Log_Format (Tel_Log t))))) (add "telemetry.log.format" "%v") ++
  when (OTLP_Enabled otlp)
    (if empty (OTLP_Endpoint otlp) then add "telemetry.metrics.otlp.endpoint" "required when otlp metrics are enabled"
     else validateExportEndpoint "telemetry.metrics.otlp.endpoint" (OTLP_Endpoint otlp)) ++
  when (Trc_Enabled (Tel_Traces t))
    (if empty (Trc_Endpoint (Tel_Traces t)) then add "telemetry.traces.endpoint" "required when traces are enabled"
     else validateExportEndpoint "telemetry.traces.endpoint" (Trc_Endpoint (Tel_Traces t))) ++
  when (bad_ratio (Trc_SampleRatio (Tel_Traces t))) (add "telemetry.traces.sample_ratio" "must be between 0 and 1, got %v") ++
  validatePrometheus c.

(** src/internal/config/validate.go:728-733, namedListener *)
Record namedListener := MkNamedListener { nl_field : string; nl_addr : gostring }.

(** src/internal/config/validate.go:735-764, Config.activeListeners *)
Definition activeListeners (c : Config) : list namedListener :=
  (if eqs (TLS_Mode (Cfg_TLS c)) "upstream" then MkNamedListener "tls.upstream.listen_addr" (Up_ListenAddr (TLS_Upstream (Cfg_TLS c)))
   else MkNamedListener "server.listen_addr" (Srv_ListenAddr (Cfg_Server c))) ::
  when (negb (empty (Srv_HealthListenAddr (Cfg_Server c)))) [MkNamedListener "server.health_listen_addr" (Srv_HealthListenAddr (Cfg_Server c))].

Definition overlap_errors (a b : namedListener) : list ValidationError :=
  when (addrsOverlap (nl_addr a) (nl_addr b))
    (add (nl_field b) "overlaps %s: %q and %q would bind the same socket (a wildcard host shadows a specific bind on the same port); give each listener a distinct host:port").

Fixpoint pair_errors (l : list namedListener) : list ValidationError :=
  match l with
  | [] => []
  | a :: l' => mjoin (overlap_errors a <$> l') ++ pair_errors l'
  end.

(** src/internal/config/validate.go:766-796, Config.validateListenerOverlap *)
Definition validateListenerOverlap (c : Config) : list ValidationError := pair_errors (activeListeners c).

(** src/internal/config/validate.go:798-804, Config.validateOnboarding *)
Definition validateOnboarding (c : Config) : list ValidationError :=
  when (negb (one_of (Onb_Mode (Cfg_Onboarding c)) ["invite"; "open"]%string)) (add "onboarding.mode" "must be invite or open, got %q").

(** src/internal/config/validate.go:806-864, Config.validateRetention *)
Definition validateRetention (c : Config) : list ValidationError :=
  let r := Cfg_Retention c in
  when (Ret_HandleQuarantine r <=? 0) (add "retention.handle_quarantine" "must be > 0") ++
  when (Ret_AuditRetention r <=? 0)
    [MkValidationError (go "retention.audit_retention") (go "must be > 0 (set retention.audit_purge_interval to 0 to disable purging; 0 here does not mean "
      ++ byte_of 34 :: go "keep nothing" ++ byte_of 34 :: go ")")] ++
  when (Ret_AuditPurgeInterval r <? 0) (add "retention.audit_purge_interval" "must be >= 0 (0 disables purging)") ++
  when (Ret_AuditPurgeBatch r <? 1) (add "retention.audit_purge_batch" "must be >= 1, got %d") ++
  when (Ret_AuditPurgeMaxPerRun r <? 1) (add "retention.audit_purge_max_per_run" "must be >= 1, got %d") ++
  when (Ret_HandleQuarantineSweepInterval r <? 0)
    (add "retention.handle_quarantine_sweep_interval" "must be >= 0 (0 disables the quarantine release sweep)") ++
  when (Ret_HandleQuarantineSweepBatch r <? 1) (add "retention.handle_quarantine_sweep_batch" "must be >= 1, got %d") ++
  when (Ret_AccessKeyGraceSweepInterval r <? 0)
    (add "retention.access_key_grace_sweep_interval" "must be >= 0 (0 disables the access key grace sweep)") ++
  when (Ret_AccessKeyGraceSweepBatch r <? 1) (add "retention.access_key_grace_sweep_batch" "must be >= 1, got %d") ++
  when ((0 <? Ret_AccessKeyGraceSweepInterval r) && Ref_IsZero (Ath_AccessKeyPepperRef (Cfg_Auth c)))
    (add "auth.access_key_pepper_ref" "is required when retention.access_key_grace_sweep_interval is set") ++
  when (Ret_MaxSetsPerOwner r <? 1) (add "retention.max_sets_per_owner" "must be >= 1, got %d").

(** src/internal/config/validate.go:888-892, refField *)
Record refField := MkRefField { rf_field : gostring; rf_ref : Ref }.

Definition named_refs (c : Config) : list refField :=
  let m := ADNS_CredentialsRefs (ACME_DNS (TLS_ACME (Cfg_TLS c))) in
  (λ name, MkRefField (go "tls.acme.dns.credentials_refs." ++ name) (named m name)) <$> SortedRefNames m.

(** src/internal/config/validate.go:894-915, Config.allRefs *)
Definition allRefs (c : Config) : list refField :=
  [MkRefField (go "tls.acme.dns.credentials_ref") (ADNS_CredentialsRef (ACME_DNS (TLS_ACME (Cfg_TLS c))));
   MkRefField (go "tls.cloudflare_origin.api_token_ref") (CFO_APITokenRef (TLS_CloudflareOrigin (Cfg_TLS c)));
   MkRefField (go "database.postgres.dsn_ref") (PG_DSNRef (DB_Postgres (Cfg_Database c)));
   MkRefField (go "auth.token_signing_key_ref") (Ath_TokenSigningKeyRef (Cfg_Auth c));
   MkRefField (go "auth.admin_token_signing_key_ref") (Ath_AdminTokenSigningKeyRef (Cfg_Auth c));
   MkRefField (go "auth.access_key_pepper_ref") (Ath_AccessKeyPepperRef (Cfg_Auth c));
   MkRefField (go "rate_limit.shared.password_ref") (Shr_PasswordRef (RL_Shared (Cfg_RateLimit c)));
   MkRefField (go "telemetry.metrics.otlp.headers_ref") (OTLP_HeadersRef (Met_OTLP (Tel_Metrics (Cfg_Telemetry c))))] ++
  named_refs c.

(** src/internal/config/validate.go:866-886, Config.validateRefs *)
Definition validateRefs (c : Config) : list ValidationError :=
  mjoin ((λ r, when (negb (Ref_IsZero (rf_ref r)) && bool_decide (is_Some (Ref_Validate (rf_ref r))))
    [MkValidationError (rf_field r) (go "malformed secret reference: want scheme:opaque (for example env:VAR or file:/path)")]) <$> allRefs c).

(** src/internal/config/validate.go:46-69, Config.Validate *)
Definition Validate (c : Config) : list ValidationError :=
  let prod := eqs (Srv_Environment (Cfg_Server c)) "production" in
  validateServer c prod ++ validateTLS c prod ++ validateDatabase c ++ validateAuth c prod ++ validateRateLimit c ++
  validateTelemetry c ++ validateOnboarding c ++ validateRetention c ++ validateRefs c ++ validateListenerOverlap c.

(** src/internal/config/validate.go:455-472, Config.ValidateDatabase *)
Definition ValidateDatabase (c : Config) : list ValidationError := validateDatabase c.

(** ** The secrets a configuration needs *)

(** src/internal/config/secretsref.go:31-102, Config.RequiredSecretRefs *)
Definition RequiredSecretRefs (c : Config) : list refField :=
  let prod := eqs (Srv_Environment (Cfg_Server c)) "production" in
  let t := Cfg_TLS c in
  let d := ACME_DNS (TLS_ACME t) in
  let a := Cfg_Auth c in
  let shared := Shr_PasswordRef (RL_Shared (Cfg_RateLimit c)) in
  let otlp := Met_OTLP (Tel_Metrics (Cfg_Telemetry c)) in
  when (eqs (DB_Driver (Cfg_Database c)) "postgres") [MkRefField (go "database.postgres.dsn_ref") (PG_DSNRef (DB_Postgres (Cfg_Database c)))] ++
  (if eqs (TLS_Mode t) "cloudflare_origin" then
     [MkRefField (go "tls.cloudflare_origin.api_token_ref") (CFO_APITokenRef (TLS_CloudflareOrigin t))]
   else when (eqs (TLS_Mode t) "acme" && eqs (ACME_Solver (TLS_ACME t)) "dns_01" && eqs (ADNS_Mode d) "api")
     (if bool_decide (ADNS_CredentialsRefs d = ∅) then [MkRefField (go "tls.acme.dns.credentials_ref") (ADNS_CredentialsRef d)] else named_refs c)) ++
  when prod [MkRefField (go "auth.token_signing_key_ref") (Ath_TokenSigningKeyRef a);
             MkRefField (go "auth.admin_token_signing_key_ref") (Ath_AdminTokenSigningKeyRef a)] ++
  when (prod || negb (Ref_IsZero (Ath_AccessKeyPepperRef a))) [MkRefField (go "auth.access_key_pepper_ref") (Ath_AccessKeyPepperRef a)] ++
  when (RL_Enabled (Cfg_RateLimit c) && eqs (RL_Store (Cfg_RateLimit c)) "shared" && negb (Ref_IsZero shared)) [MkRefField (go "rate_limit.shared.password_ref") shared] ++
  when (OTLP_Enabled otlp && negb (Ref_IsZero (OTLP_HeadersRef otlp))) [MkRefField (go "telemetry.metrics.otlp.headers_ref") (OTLP_HeadersRef otlp)].

Fixpoint resolve_all (r : Resolver) (reqs : list refField) : list (gostring * Redacted) * list goerror :=
  match reqs with
  | [] => ([], [])
  | req :: reqs' =>
      let '(vals, errs) := resolve_all r reqs' in
      match Resolver_Resolve r (rf_ref req) with
      | Ok v => ((rf_field req, v) :: vals, errs)
      | Err e => (vals, errorf "unresolved" [e] :: errs)
      end
  end.

(** src/internal/config/secretsref.go:112-132, Config.ResolveRequiredSecrets *)
Definition ResolveRequiredSecrets (c : Config) (r : Resolver) : result (list (gostring * Redacted)) :=
  match resolve_all r (RequiredSecretRefs c) with
  | (vals, []) => Ok vals
  | (_, errs) => Err (errorf "config: unresolved required secrets" errs)
  end.
End validate.

(** ** Lemmas *)

Lemma when_nil {A} b (l : list A) : when b l = [] ↔ b = false ∨ l = [].
Proof. destruct b; simpl; split; auto; by intros [?|?]. Qed.
Lemma when_add b f m : when b (add f m) = [] ↔ b = false.
Proof. by destruct b. Qed.
Lemma add_nil f m : add f m = [] ↔ False.
Proof. done. Qed.
Lemma empty_true s : empty s = true ↔ s = [].
Proof. apply bool_decide_eq_true. Qed.
Lemma empty_false s : empty s = false ↔ s ≠ [].
Proof. apply bool_decide_eq_false. Qed.
Lemma eqs_true s l : eqs s l = true ↔ s = go l.
Proof. apply bool_decide_eq_true. Qed.
Lemma zero_false r : Ref_IsZero r = false ↔ r ≠ [].
Proof. apply bool_decide_eq_false. Qed.
Lemma join_nil {A} (ls : list (list A)) : mjoin ls = [] ↔ Forall (λ l, l = []) ls.
Proof. induction ls as [|l ls IH]; [done|]. simpl. rewrite app_nil, IH, Forall_cons. done. Qed.
Lemma join_fmap_nil {A B} (f : A → list B) l : mjoin (f <$> l) = [] ↔ ∀ x, x ∈ l → f x = [].
Proof. rewrite join_nil, Forall_fmap, Forall_forall. done. Qed.

Lemma elem_of_when {A} b (l : list A) x : x ∈ when b l ↔ b = true ∧ x ∈ l.
Proof. destruct b; simpl; [tauto|]. rewrite elem_of_nil. by split; [|intros [? _]]. Qed.

Ltac known_ref := apply elem_of_app; left; repeat first [apply list_elem_of_here | apply list_elem_of_further].

(** The branch of each mode. *)
Lemma mode_acme c prod : TLS_Mode (Cfg_TLS c) = go "acme" → mode_errors c prod = validateACME c prod.
Proof. intros E. unfold mode_errors. rewrite E. reflexivity. Qed.
Lemma mode_cloudflare c prod : TLS_Mode (Cfg_TLS c) = go "cloudflare_origin" → mode_errors c prod = validateCloudflareOrigin c prod.
Proof. intros E. unfold mode_errors. rewrite E. reflexivity. Qed.
Lemma mode_upstream c prod : TLS_Mode (Cfg_TLS c) = go "upstream" → mode_errors c prod =
  when (bool_decide (Srv_TrustedProxies (Cfg_Server c) = [])) (add "server.trusted_proxies" "at least one required for upstream TLS mode") ++
  (if empty (Up_ListenAddr (TLS_Upstream (Cfg_TLS c)))
   then add "tls.upstream.listen_addr" "required for upstream TLS mode (the plaintext address the app listens on behind the proxy)"
   else validatePrivateBindAddr "tls.upstream.listen_addr" (Up_ListenAddr (TLS_Upstream (Cfg_TLS c)))).
Proof. intros E. unfold mode_errors. rewrite E. reflexivity. Qed.
Lemma mode_self_signed c prod : TLS_Mode (Cfg_TLS c) = go "self_signed" → mode_errors c prod =
  when (prod && negb (TLS_AllowSelfSignedInProduction (Cfg_TLS c))) (add "tls.mode" "self_signed refused in production unless allow_self_signed_in_production is set").
Proof. intros E. unfold mode_errors. rewrite E. reflexivity. Qed.

(** A configuration that validates passes every group of checks. *)
Section valid.
Context (url_Parse : gostring → option URL) (visit : list (string * TierConfig) → list (string * TierConfig)).
Context (c : Config) (Hc : Validate url_Parse visit c = []).
Let prod := eqs (Srv_Environment (Cfg_Server c)) "production".

Lemma valid_parts : validateServer c prod = [] ∧ validateTLS c prod = [] ∧ validateDatabase c = [] ∧ validateAuth c prod = [] ∧
  validateRateLimit url_Parse visit c = [] ∧ validateTelemetry url_Parse c = [] ∧ validateOnboarding c = [] ∧ validateRetention c = [] ∧
  validateRefs c = [] ∧ validateListenerOverlap c = [].
Proof. unfold Validate in Hc. fold prod in Hc. rewrite !app_nil in Hc. tauto. Qed.

Lemma valid_ref r : r ∈ allRefs c → rf_ref r ≠ [] → Ref_Validate (rf_ref r) = None.
Proof.
  intros Hin Hne. destruct valid_parts as (_ & _ & _ & _ & _ & _ & _ & _ & Hr & _). unfold validateRefs in Hr. rewrite join_fmap_nil in Hr.
  specialize (Hr r Hin). simpl in Hr. rewrite (proj2 (zero_false _) Hne) in Hr. apply when_nil in Hr as [Hr|Hr]; [|done].
  apply bool_decide_eq_false in Hr. by destruct (Ref_Validate (rf_ref r)); [destruct Hr|].
Qed.

Lemma valid_database : DB_Driver (Cfg_Database c) = go "postgres" → PG_DSNRef (DB_Postgres (Cfg_Database c)) ≠ [].
Proof.
  destruct valid_parts as (_ & _ & Hd & _). unfold validateDatabase in Hd. intros E. rewrite E in Hd. simpl in Hd.
  by apply when_add, zero_false in Hd.
Qed.

Lemma valid_auth : prod = true → Ath_TokenSigningKeyRef (Cfg_Auth c) ≠ [] ∧ Ath_AdminTokenSigningKeyRef (Cfg_Auth c) ≠ [] ∧ Ath_AccessKeyPepperRef (Cfg_Auth c) ≠ [].
Proof.
  intros Hp. destruct valid_parts as (_ & _ & _ & Ha & _). unfold validateAuth in Ha. rewrite Hp in Ha. rewrite !app_nil, !when_add in Ha.
  destruct Ha as (_ & _ & _ & _ & H1 & H2 & H3). by split_and!; apply zero_false.
Qed.

Lemma valid_mode : TLS_Mode (Cfg_TLS c) ≠ [] ∧ one_of (TLS_Mode (Cfg_TLS c)) tlsModes = true ∧ mode_errors c prod = [] ∧
  (TLS_Mode (Cfg_TLS c) ≠ go "upstream" → Up_ListenAddr (TLS_Upstream (Cfg_TLS c)) = []).
Proof.
  destruct valid_parts as (_ & Ht & _). unfold validateTLS in Ht. rewrite app_nil in Ht. destruct Ht as [_ Ht].
  destruct (empty (TLS_Mode (Cfg_TLS c))) eqn:Ee; [done|]. destruct (one_of (TLS_Mode (Cfg_TLS c)) tlsModes); [|done]. simpl in Ht.
  apply app_nil in Ht as [Hm Hu]. split_and!; [by apply empty_false|done|done|]. intros Hne. apply when_add in Hu.
  unfold eqs in Hu. rewrite (bool_decide_eq_false_2 _ Hne) in Hu. simpl in Hu. by apply negb_false_iff, empty_true in Hu.
Qed.

Lemma valid_named r : TLS_Mode (Cfg_TLS c) = go "acme" → ACME_Solver (TLS_ACME (Cfg_TLS c)) = go "dns_01" → ADNS_Mode (ACME_DNS (TLS_ACME (Cfg_TLS c))) = go "api" →
  let d := ACME_DNS (TLS_ACME (Cfg_TLS c)) in
  r ∈ (if bool_decide (ADNS_CredentialsRefs d = ∅) then [MkRefField (go "tls.acme.dns.credentials_ref") (ADNS_CredentialsRef d)] else named_refs c) → rf_ref r ≠ [].
Proof.
  intros Em Es Ed d. destruct valid_mode as (_ & _ & Hm & _). rewrite (mode_acme _ _ Em) in Hm.
  unfold validateACME in Hm. rewrite !app_nil in Hm. destruct Hm as (_ & _ & Hm & _). rewrite (proj2 (eqs_true _ _) Es) in Hm. cbn [when] in Hm.
  unfold validateACMEDNS in Hm. fold d in Ed, Hm. replace (eqs (ADNS_Mode d) "manual") with false in Hm by (by rewrite Ed).
  rewrite (proj2 (eqs_true _ _) Ed) in Hm. rewrite !app_nil in Hm. destruct Hm as (_ & Hm & _).
  unfold validateACMEDNSCredentials in Hm. fold d in Hm |- *. case_bool_decide as Hr; simpl negb in Hm.
  - intros ->%list_elem_of_singleton. simpl. apply zero_false. by destruct (Ref_IsZero (ADNS_CredentialsRef d)).
  - rewrite !andb_true_r, andb_false_r in Hm. destruct (Ref_IsZero (ADNS_CredentialsRef d)); [simpl in Hm|done]. rewrite join_fmap_nil in Hm.
    intros (name & -> & Hname)%list_elem_of_fmap. simpl. specialize (Hm name Hname). simpl in Hm. destruct (empty _); [done|].
    apply when_nil in Hm as [?%zero_false|?]; done.
Qed.

(** What is required is known to validation, and there. *)
Lemma required_set r : r ∈ RequiredSecretRefs c → r ∈ allRefs c ∧ rf_ref r ≠ [].
Proof.
  unfold RequiredSecretRefs. cbv zeta. fold prod. rewrite !elem_of_app, !elem_of_when. unfold allRefs. intros [[E ->%list_elem_of_singleton]|[H|[[E H]|[[E ->%list_elem_of_singleton]|[[E ->%list_elem_of_singleton]|[E ->%list_elem_of_singleton]]]]]].
  - split; [known_ref|]. by apply valid_database, eqs_true.
  - destruct (eqs (TLS_Mode (Cfg_TLS c)) "cloudflare_origin") eqn:Em.
    + apply list_elem_of_singleton in H as ->. split; [known_ref|]. destruct valid_mode as (_ & _ & Hm & _). apply eqs_true in Em.
      rewrite (mode_cloudflare _ _ Em) in Hm. unfold validateCloudflareOrigin in Hm. rewrite !app_nil in Hm.
      destruct Hm as [Hm _]. by apply when_add, zero_false in Hm.
    + apply elem_of_when in H as [[[E1%eqs_true E2%eqs_true]%andb_true_iff E3%eqs_true]%andb_true_iff H]. split; [|by apply valid_named in H].
      case_bool_decide; [|by apply elem_of_app; right]. apply list_elem_of_singleton in H as ->. known_ref.
  - destruct (valid_auth E) as (H1 & H2 & _). apply elem_of_cons in H as [-> | ->%list_elem_of_singleton]; (split; [known_ref|done]).
  - split; [known_ref|]. simpl. apply orb_true_iff in E as [E|E%negb_true_iff%zero_false]; [by destruct (valid_auth E) as (_ & _ & ?)|done].
  - split; [known_ref|]. by apply andb_true_iff in E as [_ ?%negb_true_iff%zero_false].
  - split; [known_ref|]. by apply andb_true_iff in E as [_ ?%negb_true_iff%zero_false].
Qed.
End valid.

(** The hosts that stand for every interface. *)
Definition every_interface (host : gostring) : Prop := host = [] ∨ host = go "0.0.0.0" ∨ host = go "::".
Lemma isWildcardHost_false host : isWildcardHost host = false ↔ ¬ every_interface host.
Proof.
  unfold isWildcardHost, every_interface. cbn [one_of existsb]. rewrite orb_false_r, !orb_false_iff, empty_false.
  unfold eqs. rewrite !bool_decide_eq_false. tauto.
Qed.

(** An address that only this machine or its private network reaches. *)
Definition local_bind (addr : gostring) : Prop := ∃ host port, split_host_port addr = Some (host, port) ∧ ¬ every_interface host ∧
  (equal_fold host (go "localhost") = true ∨ ∃ ip, ParseIP host = Some ip ∧ IsLoopback ip || IsPrivate ip = true).

Lemma validatePrivateBindAddr_nil field addr : validatePrivateBindAddr field addr = [] → local_bind addr.
Proof.
  unfold validatePrivateBindAddr, SplitHostPort, local_bind. destruct (split_host_port addr) as [[host port]|]; [|done]. cbn [fmap option_fmap option_map fst].
  intros H. exists host, port. split; [done|].
  assert (∀ lit, host = go lit → equal_fold (go lit) (go "localhost") = false → default true (IsUnspecified <$> ParseIP (go lit)) = true → False) as Hno.
  { intros lit -> E1 E2. rewrite E1 in H. destruct (ParseIP (go lit)) as [ip|]; [|done]. simpl in E2. by rewrite E2 in H. }
  split.
  - apply isWildcardHost_false. destruct (isWildcardHost host) eqn:Ew; [exfalso|done]. unfold isWildcardHost in Ew. cbn [one_of existsb] in Ew.
    rewrite !orb_true_iff in Ew. destruct Ew as [E%empty_true|[E%eqs_true|[E%eqs_true|?]]]; [..|done].
    + apply (Hno ""%string); [done|vm_compute; reflexivity..].
    + apply (Hno "0.0.0.0"%string); [done|vm_compute; reflexivity..].
    + apply (Hno "::"%string); [done|vm_compute; reflexivity..].
  - destruct (equal_fold host (go "localhost")); [by left|]. right. destruct (ParseIP host) as [ip|]; [|done]. exists ip. split; [done|].
    destruct (IsUnspecified ip); [done|]. by destruct (IsLoopback ip || IsPrivate ip).
Qed.

Lemma addrsOverlap_sym a b : addrsOverlap a b = addrsOverlap b a.
Proof.
  unfold addrsOverlap. destruct (split_host_port a) as [[ah ap]|], (split_host_port b) as [[bh bp]|]; [|done..].
  f_equal; [|f_equal; [apply orb_comm|]]; apply bool_decide_ext; naive_solver.
Qed.

Lemma pair_errors_nil l i j a b : pair_errors l = [] → (i < j)%nat → l !! i = Some a → l !! j = Some b → addrsOverlap (nl_addr a) (nl_addr b) = false.
Proof.
  revert i j. induction l as [|x l IH]; intros i j H Hij Hi Hj; [done|]. simpl in H. apply app_nil in H as [H1 H2].
  destruct j as [|j]; [lia|]. simpl in Hj. destruct i as [|i]; [|by apply (IH i j); [|lia|..]]. injection Hi as ->.
  rewrite join_fmap_nil in H1. apply list_elem_of_lookup_2 in Hj. by apply H1, when_add in Hj.
Qed.

(** Two addresses that one socket cannot serve, as far as their texts say. *)
Definition separate (a b : gostring) : Prop := ∀ ah ap bh bp, split_host_port a = Some (ah, ap) → split_host_port b = Some (bh, bp) →
  ap = bp → ah ≠ bh ∧ ¬ every_interface ah ∧ ¬ every_interface bh.
Lemma overlap_separate a b : addrsOverlap a b = false → separate a b.
Proof.
  unfold addrsOverlap, separate. intros H ah ap bh bp Ha Hb ->. rewrite Ha, Hb, bool_decide_eq_true_2 in H by done. cbn [andb] in H.
  rewrite !orb_false_iff, bool_decide_eq_false, !isWildcardHost_false in H. tauto.
Qed.

(** ** Theorems *)

Section claims.
Context (url_Parse : gostring → option URL) (visit : list (string * TierConfig) → list (string * TierConfig)).

(** A configuration that validates has the secrets it needs.  Every secret that the
    start of the server will ask for is named, and named by a well-formed reference; and
    when all of them resolve, each is there under its field, in order, and with the
    built-in providers none is blank. *)
Theorem validated_secrets c : Validate url_Parse visit c = [] →
  (∀ req, req ∈ RequiredSecretRefs c → rf_ref req ≠ [] ∧ Ref_Validate (rf_ref req) = None) ∧
  ∀ mode lookup fs res vals, NewResolver (Builtin mode lookup fs) = Ok res → ResolveRequiredSecrets c res = Ok vals →
    Forall2 (λ req v, v.1 = rf_field req ∧ Resolver_Resolve res (rf_ref req) = Ok v.2 ∧ IsBlank v.2 = false) (RequiredSecretRefs c) vals.
Proof.
  intros Hc. split.
  - intros req Hreq. destruct (required_set _ _ _ Hc _ Hreq) as [Hin Hne]. split; [done|]. by apply (valid_ref _ _ _ Hc).
  - intros mode lookup fs res vals Hres. unfold ResolveRequiredSecrets. generalize (RequiredSecretRefs c). intros reqs H.
    assert (resolve_all res reqs = (vals, [])) as E by (destruct (resolve_all res reqs) as [? [|? ?]]; [by injection H as ->|done]).
    clear H. revert vals E. induction reqs as [|req reqs IH]; intros vals; simpl; [intros [= <-]; constructor|].
    destruct (resolve_all res reqs) as [vals' errs]. destruct (Resolver_Resolve res (rf_ref req)) as [v|] eqn:Ev; [|done].
    intros [= <- ->]. constructor; [|by apply IH]. split_and!; [done|done|]. by apply (builtin_not_blank _ _ _ _ _ _ Hres Ev).
Qed.

(** C13. What a configuration that validates exposes.  The API is served in plain text only
    when that was asked for, behind a declared proxy and on an address of this machine or
    a private network, never on every interface; and the health listener, which is plain
    text too, binds only such an address.  The API and the health listener, and the scrape
    listener and the configured API address, have different ports or hosts that are
    different texts and none of which is every interface (two spellings of one host are not
    told apart).  In production the base URL is https, a self-signed certificate was asked
    for by name, and the keys that sign tokens are given. *)
Theorem validated_exposure c : Validate url_Parse visit c = [] →
  let t := Cfg_TLS c in let s := Cfg_Server c in let upstream := Up_ListenAddr (TLS_Upstream t) in
  (upstream ≠ [] ↔ TLS_Mode t = go "upstream") ∧
  (TLS_Mode t = go "upstream" → Srv_TrustedProxies s ≠ [] ∧ local_bind upstream) ∧
  (Srv_HealthListenAddr s ≠ [] → local_bind (Srv_HealthListenAddr s)) ∧
  (Srv_HealthListenAddr s ≠ [] → separate (if decide (TLS_Mode t = go "upstream") then upstream else Srv_ListenAddr s) (Srv_HealthListenAddr s)) ∧
  (let scrape := Prom_ListenAddr (Met_Prometheus (Tel_Metrics (Cfg_Telemetry c))) in
   scrape ≠ [] → is_Some (split_host_port scrape) ∧ separate scrape (Srv_ListenAddr s)) ∧
  (Srv_Environment s = go "production" →
     has_prefix (go "https://") (Srv_PublicBaseURL s) = true ∧ (TLS_Mode t = go "self_signed" → TLS_AllowSelfSignedInProduction t = true) ∧
     Ath_TokenSigningKeyRef (Cfg_Auth c) ≠ [] ∧ Ath_AdminTokenSigningKeyRef (Cfg_Auth c) ≠ [] ∧ Ath_AccessKeyPepperRef (Cfg_Auth c) ≠ []).
Proof.
  intros Hc t s upstream. destruct (valid_mode _ _ _ Hc) as (_ & _ & Hm & Hu). destruct (valid_parts _ _ _ Hc) as (Hs & _ & _ & _ & _ & Ht & _ & _ & _ & Ho).
  assert (TLS_Mode t = go "upstream" → Srv_TrustedProxies s ≠ [] ∧ upstream ≠ [] ∧ local_bind upstream) as Hup.
  { intros E. rewrite (mode_upstream _ _ E), app_nil, when_add in Hm. destruct Hm as [H1%bool_decide_eq_false H2]. split; [done|].
    fold t upstream in H2. destruct (empty upstream) eqn:Ee; [done|]. split; [by apply empty_false|by apply validatePrivateBindAddr_nil in H2]. }
  unfold validateServer in Hs. rewrite !app_nil in Hs. destruct Hs as (_ & Hb & _ & Hh). fold s in Hb, Hh. split_and!.
  - split; [|by intros (_ & ? & _)%Hup]. intros Hne. destruct (decide (TLS_Mode t = go "upstream")) as [E|E]; [done|]. by destruct Hne; apply Hu.
  - intros (? & _ & ?)%Hup. done.
  - intros Hne. rewrite (proj2 (empty_false _) Hne) in Hh. by apply validatePrivateBindAddr_nil in Hh.
  - intros Hne. unfold validateListenerOverlap, activeListeners in Ho. fold t s upstream in Ho. rewrite (proj2 (empty_false _) Hne) in Ho. apply overlap_separate.
    eapply (pair_errors_nil _ 0 1) in Ho; [|lia|reflexivity|reflexivity]. cbn [nl_addr] in Ho.
    unfold eqs in Ho. case_decide; case_bool_decide; done.
  - intros scrape Hne. unfold validateTelemetry in Ht. rewrite !app_nil in Ht. destruct Ht as (_ & _ & _ & _ & _ & Hp). unfold validatePrometheus in Hp. fold scrape s in Hp.
    rewrite (proj2 (empty_false _) Hne), !app_nil, !when_add in Hp. destruct Hp as (H1%bool_decide_eq_false & H2 & _). split; [by apply not_eq_None_Some|by apply overlap_separate].
  - intros E. unfold s in *. rewrite (proj2 (eqs_true _ _) E) in Hb. simpl in Hb. split_and!.
    + destruct (empty _); [done|]. by apply when_add, negb_false_iff in Hb.
    + intros Es. rewrite (mode_self_signed _ _ Es), (proj2 (eqs_true _ _) E), when_add in Hm. by apply negb_false_iff in Hm.
    + apply (valid_auth _ _ _ Hc). by apply eqs_true.
    + apply (valid_auth _ _ _ Hc). by apply eqs_true.
    + apply (valid_auth _ _ _ Hc). by apply eqs_true.
Qed.
End claims.

(** ** Evaluating *)

Module ConfigSample.
(** The defaults, completed for a server behind a proxy. *)
Definition c0 : Config :=
  let d := Default in
  MkConfig (MkServerConfig (go "production") (go ":8443") (go "https://keys.example.org") [go "10.0.0.0/8"] (go "127.0.0.1:8081"))
    (MkTLSConfig (go "upstream") (go "1.2") (TLS_ACME (Cfg_TLS d)) (TLS_CloudflareOrigin (Cfg_TLS d)) (TLS_Manual (Cfg_TLS d)) (TLS_CSR (Cfg_TLS d))
       (MkUpstreamTLSConfig true (go "10.1.2.3:8080")) false [] [])
    (Cfg_Database d)
    (MkAuthConfig (15 * Minute) (90 * day) (go "env:SIGN") (go "env:ADMIN") (go "file:/run/pepper") (24 * Hour) (Ath_Providers (Cfg_Auth d)))
    (Cfg_RateLimit d) (Cfg_Telemetry d) (Cfg_Onboarding d) (Cfg_Blocklist d) (Cfg_Retention d) (Cfg_Install d) (Cfg_Docs d).
Definition no_url (s : gostring) : option URL := None.
Definition in_order (l : list (string * TierConfig)) : list (string * TierConfig) := l.
Lemma c0_valid : Validate no_url in_order c0 = [].
Proof. vm_compute. reflexivity. Qed.
Definition lookup (name : gostring) : option gostring := if bool_decide (name = go "SIGN") then Some (go "k1") else if bool_decide (name = go "ADMIN") then Some (go "k2") else None.
Definition fs : files := λ path, if bool_decide (path = go "/run/pepper") then Ok (MkOpened (Ok (true, 384)) (Ok (go "pepper" ++ [byte_of 10]))) else Err (errors_new "no such file").
End ConfigSample.

(** The defaults alone are refused: what has no default must be chosen. *)
Example default_refused : VE_Field <$> Validate ConfigSample.no_url ConfigSample.in_order Default =
  go <$> ["server.public_base_url"; "tls.mode"; "auth.token_signing_key_ref"; "auth.admin_token_signing_key_ref"; "auth.access_key_pepper_ref"]%string.
Proof. vm_compute. reflexivity. Qed.

Lemma validated_secrets_witness : ∃ res vals, NewResolver (Builtin PermError ConfigSample.lookup ConfigSample.fs) = Ok res ∧
  ResolveRequiredSecrets ConfigSample.c0 res = Ok vals ∧ vals.*2 = [go "k1"; go "k2"; go "pepper"] ∧ Forall (λ v, IsBlank v.2 = false) vals.
Proof.
  destruct (validated_secrets ConfigSample.no_url ConfigSample.in_order ConfigSample.c0 ConfigSample.c0_valid) as [_ H].
  pose proof (NewResolver_Builtin PermError ConfigSample.lookup ConfigSample.fs) as Hres. eexists. 
  destruct (ResolveRequiredSecrets ConfigSample.c0 (MkResolver (<[fileScheme := MkProvider fileScheme (file_Resolve PermError ConfigSample.fs)]>
    (<[envScheme := MkProvider envScheme (env_Resolve ConfigSample.lookup)]> ∅)))) as [vals|] eqn:E; [|vm_compute in E; discriminate E].
  exists vals. split; [exact Hres|]. split; [exact E|]. split.
  - vm_compute in E. injection E as <-. vm_compute. reflexivity.
  - pose proof (H _ _ _ _ _ Hres E) as F. clear -F. induction F as [|req v reqs vals (_ & _ & Hv) F IH]; constructor; assumption.
Defined.

Lemma validated_exposure_witness : TLS_Mode (Cfg_TLS ConfigSample.c0) = go "upstream" ∧ local_bind (go "10.1.2.3:8080") ∧ local_bind (go "127.0.0.1:8081").
Proof.
  destruct (validated_exposure ConfigSample.no_url ConfigSample.in_order ConfigSample.c0 ConfigSample.c0_valid) as (_ & H1 & H2 & _).
  split; [reflexivity|]. split; [exact (proj2 (H1 eq_refl))|]. apply H2. discriminate.
Defined.
