(* ===== verification/RedisStore.v ===== *)
(** * The shared counter store

    [internal/redisstore]: the counter port over a Redis server, and [cmd/valletd/counterstore.go],
    which puts it in front of the memory store.  The server is a parameter: the class [Redis] has
    the commands that the scripts call, and [RedisLaws] what their documentation says of them.
    Calls that reach the server or do not, and answers that are lost, are a schedule; under every
    one of them the store answers as the windows of [Counter] do ([redis_keeps_windows]). *)

From S2P Require Import Prelude DomainErrors Counter Failover GoLib Secrets Config.

Open Scope Z_scope.

(** ** The server *)

(** The commands, at an instant of the server's clock in milliseconds, on the keys of the counters.
    [lua_integer]: an integer that has been a number of Lua. *)
Class Redis (D : Type) := {
  INCRBY : Z → gostring → Z → D → result Z * D;
  PTTL : Z → gostring → D → Z;
  PEXPIRE : Z → gostring → Z → D → D;
  GET : Z → gostring → D → option Z;
  DEL : Z → gostring → D → D;
  lua_integer : Z → Z;
}.

(** [seen db t k]: the value and the expiry of a key at an instant.  A key with an expiry goes in
    the millisecond after it, at the latest. *)
Class RedisLaws (D : Type) `{!Redis D} := {
  seen : D → Z → gostring → option (Z * option Z);
  seen_none db t t' k : seen db t k = None → t ≤ t' → seen db t' k = None;
  seen_kept db t t' k v x : seen db t k = Some (v, x) → t ≤ t' → (∀ y, x = Some y → t' < y) → seen db t' k = Some (v, x);
  seen_gone db t t' k v y : seen db t k = Some (v, Some y) → t ≤ t' → y < t' → seen db t' k = None;
  INCRBY_law t k d db v x : default (0, None) (seen db t k) = (v, x) → int64_range (v + d) →
    ∃ db', INCRBY t k d db = (Ok (v + d), db') ∧ seen db' t k = Some (v + d, x) ∧
           ∀ t' k', t ≤ t' → k' ≠ k → seen db' t' k' = seen db t' k';
  PTTL_law t k db : PTTL t k db = match seen db t k with None => -2 | Some (_, None) => -1 | Some (_, Some y) => y - t end;
  PEXPIRE_law t k ms db v x : seen db t k = Some (v, x) →
    seen (PEXPIRE t k ms db) t k = (if ms <=? 0 then None else Some (v, Some (t + ms))) ∧
    ∀ t' k', t ≤ t' → k' ≠ k → seen (PEXPIRE t k ms db) t' k' = seen db t' k';
  GET_law t k db : GET t k db = fst <$> seen db t k;
  DEL_law t k db : seen (DEL t k db) t k = None ∧ ∀ t' k', t ≤ t' → k' ≠ k → seen (DEL t k db) t' k' = seen db t' k';
  lua_integer_exact z : Z.abs z ≤ 2 ^ 53 → lua_integer z = z;
}.

(** What a script returns to the client. *)
Inductive redis_reply := RInt (z : Z) | RBulk (s : gostring) | RNil | RArray (l : list redis_reply).

(** What becomes of a call: it is answered, it does not reach the server, or its answer is lost. *)
Inductive outcome := Answered | Unsent (e : goerror) | Unheard (e : goerror).

(** The server's clock reading of an instant. *)
Definition server_ms (t : time) : Z := t / Millisecond.
(** [Duration.Milliseconds] *)
Definition Milliseconds (d : duration) : Z := d ÷ Millisecond.

(** ** The store *)

(** src/internal/redisstore/redisstore.go:314-318, unavailable *)
Definition redis_unavailable (err : goerror) : goerror := errorf "redisstore" [ErrStoreUnavailable; err].

(** src/internal/redisstore/redisstore.go:305-312, validKey *)
Definition redis_validKey (key : gostring) : option goerror :=
  if bool_decide (key = []) then Some (errorf "counter: empty key" [ErrInvalidKey; ErrInvalidInput]) else None.

(** src/internal/redisstore/redisstore.go:279-303, countFromReply *)
Definition countFromReply (reply : redis_reply) : result Count :=
  match reply with
  | RArray [a0; a1] =>
      match a0 with
      | RInt value =>
          match a1 with
          | RInt pttl =>
              if value =? 0 then Ok zero_Count else
              let pttl := if pttl <? 0 then 0 else pttl in
              Ok (MkCount value (wrap64 (pttl * Millisecond)))
          | _ => Err (redis_unavailable (errors_new "unexpected ttl type %T"))
          end
      | _ => Err (redis_unavailable (errors_new "unexpected value type %T"))
      end
  | _ => Err (redis_unavailable (errors_new "unexpected reply shape %T"))
  end.

Section store.
Context {D : Type} `{!Redis D}.

(** src/internal/redisstore/redisstore.go:54-67, incrementScript *)
Definition incrementScript (key : gostring) (delta ttl : Z) (t : Z) (db : D) : result redis_reply * D :=
  match INCRBY t key delta db with
  | (Err e, db) => (Err e, db)
  | (Ok v, db) =>
      let p := PTTL t key db in
      if p =? -1 then (Ok (RArray [RInt (lua_integer v); RInt (lua_integer ttl)]), PEXPIRE t key ttl db)
      else (Ok (RArray [RInt (lua_integer v); RInt (lua_integer p)]), db)
  end.
(** src/internal/redisstore/redisstore.go:69-78, getScript *)
Definition getScript (key : gostring) (t : Z) (db : D) : result redis_reply * D :=
  match GET t key db with
  | None => (Ok (RArray [RInt 0; RInt 0]), db)
  | Some v =>
      let p := PTTL t key db in
      let p := if p <? 0 then 0 else p in
      (Ok (RArray [RInt (lua_integer v); RInt (lua_integer p)]), db)
  end.

(** The server and what will become of the next calls to it.

    src/internal/redisstore/redisstore.go:96-103, Store *)
Record RedisStore := MkRedis { rs_db : D; rs_next : list outcome }.

(** One call to the server: the client does not try twice.

    src/internal/redisstore/redisstore.go:320-331, redisClient *)
Definition redis_call {A} (f : Z → D → result A * D) (now : time) (s : RedisStore) : result A * RedisStore :=
  match rs_next s with
  | Unsent e :: next => (Err e, MkRedis (rs_db s) next)
  | Unheard e :: next => (Err e, MkRedis (snd (f (server_ms now) (rs_db s))) next)
  | _ => let '(r, db) := f (server_ms now) (rs_db s) in (r, MkRedis db (tail (rs_next s)))
  end.

(** src/internal/redisstore/redisstore.go:214-234, Store.Increment *)
Definition redis_Increment (ctx : context) (now : time) (key : gostring) (delta : Z) (ttl : duration) (s : RedisStore) : result Count * RedisStore :=
  match redis_validKey key with
  | Some err => (Err err, s)
  | None =>
  if delta <=? 0 then (Err (errorf "counter: delta must be positive" [ErrInvalidInput]), s)
  else if ttl <=? 0 then (Err (errorf "counter: ttl must be positive" [ErrInvalidInput]), s)
  else match ctx with
  | Some err => (Err (redis_unavailable err), s)
  | None =>
    match redis_call (incrementScript key delta (Milliseconds ttl)) now s with
    | (Err err, s) => (Err (redis_unavailable err), s)
    | (Ok reply, s) => (countFromReply reply, s)
    end
  end end.

(** src/internal/redisstore/redisstore.go:236-250, Store.Get *)
Definition redis_Get (ctx : context) (now : time) (key : gostring) (s : RedisStore) : result Count * RedisStore :=
  match redis_validKey key with
  | Some err => (Err err, s)
  | None =>
  match ctx with
  | Some err => (Err (redis_unavailable err), s)
  | None =>
    match redis_call (getScript key) now s with
    | (Err err, s) => (Err (redis_unavailable err), s)
    | (Ok reply, s) => (countFromReply reply, s)
    end
  end end.

(** src/internal/redisstore/redisstore.go:252-264, Store.Delete *)
Definition redis_Delete (ctx : context) (now : time) (key : gostring) (s : RedisStore) : result unit * RedisStore :=
  match redis_validKey key with
  | Some err => (Err err, s)
  | None =>
  match ctx with
  | Some err => (Err (redis_unavailable err), s)
  | None =>
    match redis_call (λ t db, (Ok tt, DEL t key db)) now s with
    | (Err err, s) => (Err (redis_unavailable err), s)
    | (Ok _, s) => (Ok tt, s)
    end
  end end.

(** src/internal/redisstore/redisstore.go:266-274, Store.Ping *)
Definition redis_Ping (now : time) (s : RedisStore) : result unit * RedisStore :=
  match redis_call (λ _ db, (Ok tt, db)) now s with
  | (Err err, s) => (Err (redis_unavailable err), s)
  | (Ok _, s) => (Ok tt, s)
  end.

#[export] Instance RedisStore_Store : Store RedisStore := {
  Increment := redis_Increment;
  Get := redis_Get;
  Delete := redis_Delete;
}.
End store.
Arguments RedisStore : clear implicits.

(** ** Its connection *)

(** The fields of [redis.Options] and its [tls.Config] that the code sets. *)
Record redis_tls := MkRedisTls { rt_InsecureSkipVerify : bool; rt_MinVersion : Z }.
Record redis_options := MkRedisOptions {
  ro_Addr : gostring; ro_Password : gostring; ro_MaxRetries : Z;
  ro_DialTimeout : duration; ro_ReadTimeout : duration; ro_WriteTimeout : duration;
  ro_TLSConfig : option redis_tls;
}.

Section options.
(** [redis.ParseURL], and [url.Parse] followed by [URL.Redacted]. *)
Context (ParseURL : gostring → result redis_options) (url_redacted : gostring → option gostring).

Definition with_scheme (address : gostring) : gostring :=
  if negb (contains (go "://") address) then go "redis://" ++ address else address.

(** src/internal/redisstore/redisstore.go:190-209, RedactAddress *)
Definition RedactAddress (address : gostring) : gostring :=
  match url_redacted (with_scheme address) with
  | None => go "[unparseable redis address]"
  | Some s => s
  end.

Definition tlsVersionTLS12 : Z := 0x0303.
(** src/internal/redisstore/redisstore.go:124-188, buildOptions *)
Definition buildOptions (address : gostring) (password : Redacted) : result redis_options :=
  if bool_decide (address = []) then Err (errorf "redisstore: empty address" [ErrInvalidInput]) else
  match ParseURL (with_scheme address) with
  | Err err => Err (errorf "redisstore: invalid address %q" [errors_new (string_of_list_ascii (RedactAddress address)); err; ErrInvalidInput])
  | Ok opt =>
      let raw : gostring := password in
      Ok (MkRedisOptions (ro_Addr opt) (if bool_decide (raw ≠ []) then raw else ro_Password opt) (-1)
            (2 * Second) Second Second
            ((λ c, MkRedisTls false (if rt_MinVersion c =? 0 then tlsVersionTLS12 else rt_MinVersion c)) <$> ro_TLSConfig opt))
  end.

(** src/internal/redisstore/redisstore.go:105-122, New
    ([dial]: the server behind the options, and what becomes of calls to it.) *)
Definition redis_New {D} (dial : redis_options → RedisStore D) (address : gostring) (password : Redacted) : result (RedisStore D) :=
  match buildOptions address password with
  | Err err => Err err
  | Ok opt => Ok (dial opt)
  end.

(** src/cmd/valletd/counterstore.go:13-17, sharedPasswordField *)
Definition sharedPasswordField : gostring := go "rate_limit.shared.password_ref".
(** src/cmd/valletd/counterstore.go:19-71, newSharedCounterStore *)
Definition newSharedCounterStore {D} (dial : redis_options → RedisStore D) (cfg : option Config) (resolved : gmap gostring Redacted)
    : result (option (FailoverStore (RedisStore D) MemoryStore)) :=
  match cfg with
  | None => Ok None
  | Some cfg =>
      let rl := Cfg_RateLimit cfg in
      if negb (RL_Enabled rl) || negb (bool_decide (RL_Store rl = go "shared")) then Ok None else
      match redis_New dial (Shr_Address (RL_Shared rl)) (default [] (resolved !! sharedPasswordField)) with
      | Err err => Err err
      | Ok primary =>
          match NewMemoryStore (Some ()) with
          | Err err => Err err
          | Ok fallback =>
              match NewFailoverStore (Some primary) (Some fallback) [] with
              | Err err => Err err
              | Ok store => Ok (Some store)
              end
          end
      end
  end.
End options.

(** ** The contract *)

Section contract.
Context {D : Type} `{!Redis D, !RedisLaws D}.

Definition redis_step (now : time) (c : call) (s : RedisStore D) : result Count * RedisStore D :=
  match c with
  | CallIncrement ctx k d ttl => redis_Increment ctx now k d ttl s
  | CallGet ctx k => redis_Get ctx now k s
  | CallDelete ctx k => let '(r, s') := redis_Delete ctx now k s in ((λ _, zero_Count) <$> r, s')
  end.

(** The windows of [Counter] behind the same network: a call that is not answered is reported as an
    outage, whether or not it was counted. *)
Definition windows_step (now : time) (c : call) (w : gmap gostring (Z * time) * list outcome)
    : result Count * (gmap gostring (Z * time) * list outcome) :=
  match call_refused c with
  | Some e => (Err e, w)
  | None =>
      match w.2 with
      | Unsent e :: next => (Err (redis_unavailable e), (w.1, next))
      | Unheard e :: next => (Err (redis_unavailable e), ((spec_call now c w.1).2, next))
      | _ => let '(r, m) := spec_call now c w.1 in (r, (m, tail w.2))
      end
  end.

(** The instant at which a window that a call opens closes, and how much the call counts. *)
Definition closes (t : time) (c : call) : list time := match c with CallIncrement _ _ _ ttl => [time_add t ttl] | _ => [] end.
Definition counts (c : call) : Z := match c with CallIncrement _ _ d _ => Z.max 0 d | _ => 0 end.
(** A call whose context is alive, for a duration in whole milliseconds. *)
Definition plain_call (c : call) : Prop :=
  match c with
  | CallIncrement ctx _ _ ttl => ctx = None ∧ (Millisecond | ttl) ∧ ttl ≤ int64_max
  | CallGet ctx _ | CallDelete ctx _ => ctx = None
  end.
(** Calls that are made in whole milliseconds, and not in the very one in which a window closes;
    [closing] are the instants at which a window may close, [room] how much may still be counted. *)
Fixpoint timely (closing : list time) (room : Z) (t0 : time) (cs : list (time * call)) : Prop :=
  match cs with
  | [] => True
  | (t, c) :: cs =>
      t0 ≤ t ∧ (Millisecond | t) ∧ ¬ (t ∈ closing) ∧ plain_call c ∧ counts c ≤ room ∧
      timely (closes t c ++ closing) (room - counts c) t cs
  end.

Definition as_seen (e : Z * time) : Z * option Z := (e.1, Some (e.2 / Millisecond)).

(** The server holds what the windows hold, except in a millisecond in which one closes. *)
Record agrees (closing : list time) (room : Z) (t0 : time) (db : D) (m : gmap gostring (Z * time)) : Prop := MkAgrees {
  agrees_seen T k : t0 ≤ T * Millisecond → T * Millisecond ∉ closing →
    seen db T k = as_seen <$> spec_live m (T * Millisecond) k;
  agrees_windows k v x : m !! k = Some (v, x) →
    x ∈ closing ∧ (Millisecond | x) ∧ 0 < v ∧ v + room ≤ 2 ^ 53 ∧ x - t0 ≤ int64_max;
}.

Lemma agrees_later closing closing' room room' t0 t db m :
  agrees closing room t0 db m → t0 ≤ t → closing ⊆ closing' → room' ≤ room → agrees closing' room' t db m.
Proof.
  intros [Hs Hw] Ht Hc Hr. split.
  - intros T k HT Hn. apply Hs; [lia|]. intros Hin. by apply Hn, Hc.
  - intros k v x Hm. destruct (Hw _ _ _ Hm) as (? & ? & ? & ? & ?). split_and!; [by apply Hc|done|done|lia|lia].
Qed.

(** From one instant of a window to all that follow. *)
Lemma seen_window db t T k v X : seen db t k = Some (v, Some X) → t ≤ T → T ≠ X →
  seen db T k = as_seen <$> shown_at (T * Millisecond) (v, X * Millisecond).
Proof.
  intros H Ht HX. unfold shown_at, time_before, as_seen. cbn [snd].
  destruct (T * Millisecond <? X * Millisecond) eqn:E; cbn.
  - rewrite Z.div_mul by done. apply (seen_kept db t); [done|done|]. intros y [= <-]. unfold Millisecond, Microsecond, Nanosecond in E. lia.
  - apply (seen_gone db t T k v X); [done|done|]. unfold Millisecond, Microsecond, Nanosecond in E. lia.
Qed.

(** What is written at an instant is in agreement from then on. *)
Lemma agrees_insert closing room t db db' m k v X :
  agrees closing room (t * Millisecond) db m →
  seen db' t k = Some (v, Some X) → (∀ T k', t ≤ T → k' ≠ k → seen db' T k' = seen db T k') →
  X * Millisecond ∈ closing → 0 < v → v + room ≤ 2 ^ 53 → X * Millisecond - t * Millisecond ≤ int64_max →
  agrees closing room (t * Millisecond) db' (<[k := (v, X * Millisecond)]> m).
Proof.
  intros [Hs Hw] Hk Hother Hin Hv Hroom Hmax. split.
  - intros T k' HT Hn. assert (t ≤ T) by (unfold Millisecond, Microsecond, Nanosecond in HT; lia).
    rewrite spec_live_insert. case_decide as Hkk; [subst k'|rewrite Hother by done; by apply Hs].
    apply (seen_window db' t); [done|done|]. intros ->. by apply Hn.
  - intros k' v' x' Hm. destruct (decide (k' = k)) as [->|Hne].
    + rewrite lookup_insert_eq in Hm. simplify_eq. split_and!; [done|by exists X|lia|lia|lia].
    + rewrite lookup_insert_ne in Hm by done. by apply (Hw k').
Qed.

Lemma agrees_delete closing room t db db' m k :
  agrees closing room (t * Millisecond) db m →
  seen db' t k = None → (∀ T k', t ≤ T → k' ≠ k → seen db' T k' = seen db T k') →
  agrees closing room (t * Millisecond) db' (delete k m).
Proof.
  intros [Hs Hw] Hk Hother. split.
  - intros T k' HT Hn. assert (t ≤ T) by (unfold Millisecond, Microsecond, Nanosecond in HT; lia).
    rewrite spec_live_delete. case_decide as Hkk; [subst k'; by apply (seen_none db' t)|rewrite Hother by done; by apply Hs].
  - intros k' v' x' [_ Hm]%lookup_delete_Some. by apply (Hw k').
Qed.

Lemma small_int64 z : 0 ≤ z ≤ 2 ^ 53 → int64_range z.
Proof. unfold int64_range, int64_min, int64_max. lia. Qed.

(** The reply of a script is the count of a window. *)
Lemma reply_count v X T : 0 < v ≤ 2 ^ 53 → 0 < X - T → X * Millisecond - T * Millisecond ≤ int64_max →
  countFromReply (RArray [RInt (lua_integer v); RInt (lua_integer (X - T))]) =
  Ok (MkCount v (time_sub (X * Millisecond) (T * Millisecond))).
Proof.
  intros Hv HX Hm. change Millisecond with 1000000 in *. change int64_max with 9223372036854775807 in *.
  rewrite !lua_integer_exact by lia. cbn [countFromReply].
  destruct (v =? 0) eqn:Hz; [lia|]. destruct (X - T <? 0) eqn:Hp; [lia|].
  change Millisecond with 1000000. rewrite time_sub_exact, wrap64_id; [do 2 f_equal; lia|..];
    unfold int64_range, int64_min, int64_max; lia.
Qed.

Section at_instant.
Context (closing : list time) (room : Z) (T : Z) (db : D) (m : gmap gostring (Z * time)).
Local Abbreviation t := (T * Millisecond).
Hypothesis Hag : agrees closing room t db m.
Hypothesis Ht : t ∉ closing.

Lemma live_window k v x : spec_live m t k = Some (v, x) →
  ∃ X, x = X * Millisecond ∧ T < X ∧ x ∈ closing ∧ 0 < v ∧ v + room ≤ 2 ^ 53 ∧ x - t ≤ int64_max ∧ seen db T k = Some (v, Some X).
Proof.
  intros Hl. pose proof (agrees_seen _ _ _ _ _ Hag T k (Z.le_refl _) Ht) as Hseen. rewrite Hl in Hseen.
  unfold spec_live, shown_at, time_before in Hl. destruct (m !! k) as [[v' x']|] eqn:Hm; [|done]. cbn in Hl.
  destruct (_ <? _) eqn:Hlt; simplify_eq. destruct (agrees_windows _ _ _ _ _ Hag _ _ _ Hm) as (? & [X ->] & ? & ? & ?).
  exists X. unfold as_seen in Hseen. cbn in Hseen. rewrite Z.div_mul in Hseen by done.
  change Millisecond with 1000000 in *. split_and!; [done|lia|done..].
Qed.

Lemma increment_windows k d ttl :
  0 < d ≤ room → 0 < ttl ≤ int64_max → (Millisecond | ttl) → 0 ≤ room ≤ 2 ^ 53 →
  let e := window_after t d ttl (spec_live m t k) in
  ∃ reply db', incrementScript k d (Milliseconds ttl) T db = (Ok reply, db') ∧
    countFromReply reply = Ok (MkCount e.1 (time_sub e.2 t)) ∧
    agrees (time_add t ttl :: closing) (room - d) t db' (<[k := e]> m).
Proof.
  intros Hd Httl [n ->] Hroom. unfold incrementScript, Milliseconds. rewrite Z.quot_mul by done.
  assert (0 < n) by (change Millisecond with 1000000 in *; lia).
  pose proof (agrees_later _ (time_add t (n * Millisecond) :: closing) _ (room - d) _ t _ _ Hag (Z.le_refl _)
    (λ x Hx, list_elem_of_further _ _ _ Hx) ltac:(lia)) as Hlater.
  destruct (spec_live m t k) as [[v x]|] eqn:Hl; cbn [window_after fst snd].
  - destruct (live_window _ _ _ Hl) as (X & -> & HX & Hin & Hv & Hvr & Hmax & Hseen).
    destruct (INCRBY_law T k d db v (Some X)) as (db' & -> & Hk & Ho); [by rewrite Hseen|apply small_int64; lia|].
    rewrite PTTL_law, Hk. destruct (X - T =? -1) eqn:E1; [lia|].
    rewrite wrap64_id by (apply small_int64; lia).
    eexists _, _. split_and!; [reflexivity|apply reply_count; lia|].
    apply (agrees_insert _ _ _ db); [done|done|done|by right|lia|lia|lia].
  - assert (seen db T k = None) as Hseen.
    { rewrite (agrees_seen _ _ _ _ _ Hag T k (Z.le_refl _) Ht). by rewrite Hl. }
    destruct (INCRBY_law T k d db 0 None) as (db' & -> & Hk & Ho); [by rewrite Hseen|apply small_int64; lia|].
    rewrite PTTL_law, Hk. cbn. destruct (PEXPIRE_law T k n db' _ _ Hk) as [Hk' Ho'].
    destruct (n <=? 0) eqn:E; [lia|]. rewrite wrap64_id by (apply small_int64; lia).
    assert (time_add t (n * Millisecond) = (T + n) * Millisecond) as Hx by (unfold time_add; lia). rewrite Hx in *.
    eexists _, _. split_and!; [reflexivity| |].
    + replace n with (T + n - T) at 1 by lia. apply reply_count; lia.
    + apply (agrees_insert _ _ _ db); [done|done| |by left|lia|lia|lia].
      intros T' k' HT Hne. rewrite Ho', Ho by done. done.
Qed.

Lemma get_windows k : 0 ≤ room ≤ 2 ^ 53 → ∃ reply, getScript k T db = (Ok reply, db) ∧ countFromReply reply = Ok (count_at t (spec_live m t k)).
Proof.
  intros Hroom. unfold getScript. rewrite GET_law, PTTL_law. destruct (spec_live m t k) as [[v x]|] eqn:Hl.
  - destruct (live_window _ _ _ Hl) as (X & -> & HX & Hin & Hv & Hvr & Hmax & ->). cbn [fmap option_fmap option_map fst].
    destruct (X - T <? 0) eqn:E; [lia|]. eexists. split; [reflexivity|]. apply reply_count; lia.
  - rewrite (agrees_seen _ _ _ _ _ Hag T k (Z.le_refl _) Ht), Hl. cbn. by eexists.
Qed.
End at_instant.

Lemma redis_call_windows {A} (f : Z → D → result A * D) T s r db' :
  f T (rs_db s) = (Ok r, db') →
  redis_call f (T * Millisecond) s =
    match rs_next s with
    | Unsent e :: next => (Err e, MkRedis (rs_db s) next)
    | Unheard e :: next => (Err e, MkRedis db' next)
    | _ => (Ok r, MkRedis db' (tail (rs_next s)))
    end.
Proof.
  intros Hf. unfold redis_call, server_ms. rewrite Z.div_mul, Hf by done. by destruct (rs_next s) as [|[] ?].
Qed.

Lemma step_windows closing room T c s m :
  agrees closing room (T * Millisecond) (rs_db s) m → T * Millisecond ∉ closing → 0 ≤ room ≤ 2 ^ 53 →
  plain_call c → counts c ≤ room →
  ∃ r s' m', redis_step (T * Millisecond) c s = (r, s') ∧
    windows_step (T * Millisecond) c (m, rs_next s) = (r, (m', rs_next s')) ∧
    agrees (closes (T * Millisecond) c ++ closing) (room - counts c) (T * Millisecond) (rs_db s') m'.
Proof.
  intros Hag Ht Hroom Hp Hcount. unfold windows_step.
  assert (Hkeep : agrees (closes (T * Millisecond) c ++ closing) (room - counts c) (T * Millisecond) (rs_db s) m).
  { apply (agrees_later _ _ _ _ _ _ _ _ Hag); [done|set_solver|destruct c; cbn; lia]. }
  destruct c as [ctx k d ttl|ctx k|ctx k]; cbn [redis_step call_refused].
  - destruct Hp as (-> & Hms & Hmax). unfold redis_Increment. change (redis_validKey k) with (validKey k).
    destruct (validKey k) eqn:Hk; [by eexists _, _, _|]. destruct (d <=? 0) eqn:Hd; [by eexists _, _, _|].
    destruct (ttl <=? 0) eqn:Hl; [by eexists _, _, _|]. cbn [counts closes app] in *.
    replace (Z.max 0 d) with d in * by lia.
    destruct (increment_windows _ _ _ _ _ Hag Ht k d ttl) as (reply & db' & Hs & Hr & Hag'); [lia|lia|done|done|].
    rewrite (redis_call_windows _ _ _ _ _ Hs). unfold spec_call. cbn [call_refused]. rewrite Hk, Hd, Hl.
    destruct (rs_next s) as [|[|e|e] next]; cbn; rewrite ?Hr; by eexists _, _, _.
  - cbn in Hp. subst ctx. unfold redis_Get. change (redis_validKey k) with (validKey k).
    destruct (validKey k) eqn:Hk; [by eexists _, _, _|].
    destruct (get_windows _ _ _ _ _ Hag Ht k Hroom) as (reply & Hs & Hr).
    rewrite (redis_call_windows _ _ _ _ _ Hs). unfold spec_call. cbn [call_refused]. rewrite Hk.
    destruct (rs_next s) as [|[|e|e] next]; cbn; rewrite ?Hr; by eexists _, _, _.
  - cbn in Hp. subst ctx. unfold redis_Delete. change (redis_validKey k) with (validKey k).
    destruct (validKey k) eqn:Hk; [by eexists _, _, _|].
    rewrite (redis_call_windows _ T s tt (DEL T k (rs_db s)) eq_refl). unfold spec_call. cbn [call_refused]. rewrite Hk.
    destruct (DEL_law T k (rs_db s)) as [Hd Ho].
    pose proof (agrees_delete _ _ _ _ _ _ k Hkeep Hd Ho).
    destruct (rs_next s) as [|[|e|e] next]; cbn; by eexists _, _, _.
Qed.

Lemma runs_agree cs closing room t0 s m :
  agrees closing room t0 (rs_db s) m → 0 ≤ room ≤ 2 ^ 53 → timely closing room t0 cs →
  (run_calls redis_step cs s).1 = (run_calls windows_step cs (m, rs_next s)).1.
Proof.
  revert closing room t0 s m. induction cs as [|[t c] cs IH]; intros closing room t0 s m Hag Hroom; [done|].
  intros (Hle & [T ->] & Ht & Hp & Hc & Hrest). cbn [run_calls].
  pose proof (agrees_later _ _ _ _ _ _ _ _ Hag Hle (reflexivity closing) (Z.le_refl room)) as Hnow.
  destruct (step_windows _ _ _ c _ _ Hnow Ht Hroom Hp Hc) as (r & s' & m' & -> & -> & Hag').
  specialize (IH _ _ _ _ _ Hag' ltac:(destruct c; cbn in *; lia) Hrest).
  destruct (run_calls redis_step cs s') as [rs s1], (run_calls windows_step cs (m', rs_next s')) as [rs' m1].
  cbn in *. by subst.
Qed.

(** C28. Over any Redis server that does what its commands are documented to do, and whatever becomes of
    the calls on their way, the shared store answers every sequence of [Increment], [Get] and [Delete]
    calls as the fixed windows that the memory store refines: the same counts, the same time left, the
    same refusals, and an outage exactly for a call that was not answered, which may have counted.  The
    calls are in whole milliseconds, the server's unit, and not in the one in which a window closes,
    whose outcome the server leaves open; and they count to at most [2 ^ 53], which a number of Lua
    holds exactly. *)
Theorem redis_keeps_windows (db : D) (net : list outcome) (cs : list (time * call)) (t0 : time) :
  (∀ T k, seen db T k = None) → timely [] (2 ^ 53) t0 cs →
  (run_calls redis_step cs (MkRedis db net)).1 = (run_calls windows_step cs (∅, net)).1.
Proof.
  intros Hempty Htimely. apply (runs_agree cs [] (2 ^ 53) t0 (MkRedis db net)); [|lia|done]. split.
  - intros T k _ _. cbn. rewrite Hempty. unfold spec_live. by rewrite lookup_empty.
  - intros k v x Hm. by rewrite lookup_empty in Hm.
Qed.
End contract.

(** ** A server, and a run *)

Module RedisSample.
Abbreviation table := (gmap gostring (Z * option Z)).
Definition present (t : Z) (e : Z * option Z) : option (Z * option Z) :=
  match e.2 with Some y => if t <? y then Some e else None | None => Some e end.
Definition table_seen (db : table) (t : Z) (k : gostring) : option (Z * option Z) := db !! k ≫= present t.

#[export] Instance sample_redis : Redis table := {
  INCRBY t k d db :=
    let '(v, x) := default (0, None) (table_seen db t k) in
    if bool_decide (int64_min ≤ v + d) && bool_decide (v + d ≤ int64_max) then (Ok (v + d), <[k := (v + d, x)]> db)
    else (Err (errors_new "ERR increment or decrement would overflow"), db);
  PTTL t k db := match table_seen db t k with None => -2 | Some (_, None) => -1 | Some (_, Some y) => y - t end;
  PEXPIRE t k ms db :=
    match table_seen db t k with
    | None => db
    | Some (v, _) => if ms <=? 0 then delete k db else <[k := (v, Some (t + ms))]> db
    end;
  GET t k db := fst <$> table_seen db t k;
  DEL t k db := delete k db;
  lua_integer z := z;
}.

Lemma table_seen_insert db k e t k' :
  table_seen (<[k := e]> db) t k' = if decide (k' = k) then present t e else table_seen db t k'.
Proof. unfold table_seen. case_decide as H; [subst; by rewrite lookup_insert_eq|by rewrite lookup_insert_ne]. Qed.
Lemma table_seen_delete (db : table) k t k' :
  table_seen (delete k db) t k' = if decide (k' = k) then None else table_seen db t k'.
Proof. unfold table_seen. case_decide as H; [subst; by rewrite lookup_delete_eq|by rewrite lookup_delete_ne]. Qed.
Lemma table_seen_Some db t k v x : table_seen db t k = Some (v, x) → db !! k = Some (v, x) ∧ present t (v, x) = Some (v, x).
Proof.
  unfold table_seen, present. destruct (_ !! k) as [[v' [y|]]|]; cbn; intros H; simplify_eq; [|done].
  destruct (t <? y) eqn:E; simplify_eq. cbn. by rewrite E.
Qed.

#[export, refine] Instance sample_laws : RedisLaws table := { seen := table_seen }.
Proof.
  - unfold table_seen, present. intros db t t' k H Ht. destruct (_ !! k) as [[v [y|]]|]; cbn in *; [|done|done].
    destruct (t <? y) eqn:E, (t' <? y) eqn:E'; try done. lia.
  - intros db t t' k v x [Hm _]%table_seen_Some Ht Hx. unfold table_seen, present. rewrite Hm. cbn.
    destruct x as [y|]; [|done]. specialize (Hx y eq_refl). destruct (t' <? y) eqn:E; [done|lia].
  - intros db t t' k v y [Hm _]%table_seen_Some Ht Hy. unfold table_seen, present. rewrite Hm. cbn.
    destruct (t' <? y) eqn:E; [lia|done].
  - intros t k d db v x Hseen Hr. cbn. rewrite Hseen. destruct Hr.
    rewrite !bool_decide_eq_true_2 by done. cbn. eexists. split; [done|].
    split; [|intros t' k' _ Hne; by rewrite table_seen_insert, decide_False].
    rewrite table_seen_insert, decide_True by done. unfold present. cbn. destruct x as [y|]; [|done].
    destruct (table_seen db t k) as [[v' x']|] eqn:E; cbn in Hseen; simplify_eq.
    apply table_seen_Some in E as [_ E]. unfold present in E. cbn in E. by destruct (t <? y).
  - done.
  - intros t k ms db v x Hseen. cbn. rewrite Hseen. destruct (ms <=? 0) eqn:E; split.
    + by rewrite table_seen_delete, decide_True.
    + intros t' k' _ Hne. by rewrite table_seen_delete, decide_False.
    + rewrite table_seen_insert, decide_True by done. unfold present. cbn. destruct (t <? t + ms) eqn:E'; [done|lia].
    + intros t' k' _ Hne. by rewrite table_seen_insert, decide_False.
  - done.
  - intros t k db. cbn. split; [by rewrite table_seen_delete, decide_True|].
    intros t' k' _ Hne. by rewrite table_seen_delete, decide_False.
  - done.
Defined.

Definition down : goerror := errors_new "i/o timeout".
(** A window of ten milliseconds; the answer to the second increment is lost. *)
Definition calls : list (time * call) :=
  [(0, CallIncrement None (go "a") 1 (10 * Millisecond)); (3 * Millisecond, CallIncrement None (go "a") 2 (10 * Millisecond));
   (5 * Millisecond, CallGet None (go "a")); (11 * Millisecond, CallGet None (go "a")); (12 * Millisecond, CallIncrement None [] 1 Millisecond)].
End RedisSample.
Import RedisSample.

Lemma redis_keeps_windows_witness :
  timely [] (2 ^ 53) 0 calls ∧
  (run_calls redis_step calls (MkRedis (∅ : table) [Answered; Unheard down])).1 =
    [Ok (MkCount 1 (10 * Millisecond)); Err (redis_unavailable down); Ok (MkCount 3 (5 * Millisecond)); Ok zero_Count;
     Err (errorf "counter: empty key" [ErrInvalidKey; ErrInvalidInput])].
Proof.
  assert (timely [] (2 ^ 53) 0 calls) as Ht.
  { unfold calls, timely, closes, counts, plain_call, time_add.
    repeat match goal with
    | |- _ ∧ _ => split
    | |- True => exact I
    | |- (_ | ?a) => first [by exists 0|by exists 1|by exists 3|by exists 5|by exists 10|by exists 11|by exists 12]
    | |- _ ∉ _ => refine (bool_decide_unpack _ _); vm_compute; exact I
    | |- _ ≤ _ => vm_compute; congruence
    | |- _ = _ => reflexivity
    end. }
  split; [exact Ht|].
  rewrite (redis_keeps_windows (∅ : table) [Answered; Unheard down] calls 0); [vm_compute; reflexivity| |exact Ht].
  intros T k. cbn. unfold table_seen. by rewrite lookup_empty.
Defined.

(** A window of less than a millisecond is written with an expiry of none, which removes the key: on
    the shared store it never counts past its first increment, where the memory store counts on. *)
Theorem submillisecond_never_counts {D} `{!Redis D, !RedisLaws D} (now : time) (k : gostring) (ttl : duration) (db : D) net :
  k ≠ [] → 0 < ttl < Millisecond → (∀ T, seen db T k = None) →
  ∃ c s, redis_Increment None now k 1 ttl (MkRedis db (Answered :: net)) = (Ok c, s) ∧ Value c = 1 ∧
         seen (rs_db s) (server_ms now) k = None.
Proof.
  intros Hk Ht Hnone. unfold redis_Increment, redis_validKey. rewrite bool_decide_eq_false_2 by done.
  cbn [Z.leb Z.compare Pos.compare]. destruct (ttl <=? 0) eqn:E; [lia|].
  unfold redis_call, incrementScript. cbn [rs_next rs_db tail].
  destruct (INCRBY_law (server_ms now) k 1 db 0 None) as (db' & -> & Hs & _); [by rewrite Hnone|done|].
  rewrite PTTL_law, Hs. cbn [Z.eqb Pos.eqb]. unfold Milliseconds. rewrite Z.quot_small by lia.
  rewrite !lua_integer_exact by lia. cbn. eexists _, _. split_and!; [reflexivity|reflexivity|].
  by destruct (PEXPIRE_law (server_ms now) k 0 db' _ _ Hs) as [H _].
Qed.

Lemma submillisecond_never_counts_witness :
  ∃ c s, redis_Increment None 0 (go "a") 1 (500 * Microsecond) (MkRedis (∅ : table) [Answered]) = (Ok c, s) ∧ Value c = 1 ∧
         seen (rs_db s) (server_ms 0) (go "a") = None.
Proof.
  apply (submillisecond_never_counts 0 (go "a") (500 * Microsecond) (∅ : table) []).
  - discriminate.
  - split; reflexivity.
  - intros T. cbn. unfold table_seen. by rewrite lookup_empty.
Defined.
