(* ===== verification/ConfigEnv.v ===== *)
(** * The environment over the configuration

    [internal/config] duration.go, env.go and load.go: durations in text, the table of
    environment variables with the field each one sets, and the order in which defaults,
    file and environment apply.  A field of the configuration is a lens: how to read it
    and how to change it. *)

From Stdlib Require Import SpecFloat.
From S2P Require Import Prelude DomainErrors GoLib RateLimit NetIP GoNum Domain Database Secrets Config.

Open Scope Z_scope.

(** ** Durations *)

(** src/internal/config/duration.go:68-85, daysToDuration *)
Definition daysToDuration (days : spec_float) : result duration :=
  if is_nan days || is_inf days then Err (errorf "config: invalid duration: not a finite number of days" []) else
  if float_lt days float_zero then Err (errorf "config: negative duration not allowed" []) else
  let nanos := SFmul prec emax days (float_of_Z (24 * Hour)) in
  if float_le (float_of_Z int64_max) nanos then Err (errorf "config: duration out of range (maximum is about 106751 days)" []) else
  Ok (float_trunc nanos).

(** src/internal/config/duration.go:27-66, parseDuration *)
Definition parseDuration (s : gostring) : result duration :=
  let s := trim_space s in
  if bool_decide (s = []) then Err (errorf "config: empty duration" []) else
  match (if has_suffix (go "d") s then ParseFloat (trim_suffix (go "d") s) else None) with
  | Some n => daysToDuration n
  | None =>
      match ParseDuration s with
      | None => Err (errorf "config: invalid duration" [errors_new "time: invalid duration"])
      | Some parsed => if parsed <? 0 then Err (errorf "config: negative duration not allowed" []) else Ok parsed
      end
  end.

(** ** Fields *)

Record lens (A B : Type) := MkLens { view : A → B; over : (B → B) → A → A }.
Arguments MkLens {A B} _ _.
Arguments view {A B} _ _.
Arguments over {A B} _ _ _.
Definition compose {A B C} (f : lens A B) (g : lens B C) : lens A C := MkLens (λ a, view g (view f a)) (λ h, over f (over g h)).
Notation "f ⊚ g" := (compose f g) (at level 40, left associativity) : stdpp_scope.

Definition at_Srv_Environment : lens ServerConfig gostring := MkLens Srv_Environment (λ f x, MkServerConfig (f (Srv_Environment x)) (Srv_ListenAddr x) (Srv_PublicBaseURL x) (Srv_TrustedProxies x) (Srv_HealthListenAddr x)).
Definition at_Srv_ListenAddr : lens ServerConfig gostring := MkLens Srv_ListenAddr (λ f x, MkServerConfig (Srv_Environment x) (f (Srv_ListenAddr x)) (Srv_PublicBaseURL x) (Srv_TrustedProxies x) (Srv_HealthListenAddr x)).
Definition at_Srv_PublicBaseURL : lens ServerConfig gostring := MkLens Srv_PublicBaseURL (λ f x, MkServerConfig (Srv_Environment x) (Srv_ListenAddr x) (f (Srv_PublicBaseURL x)) (Srv_TrustedProxies x) (Srv_HealthListenAddr x)).
Definition at_Srv_TrustedProxies : lens ServerConfig (list gostring) := MkLens Srv_TrustedProxies (λ f x, MkServerConfig (Srv_Environment x) (Srv_ListenAddr x) (Srv_PublicBaseURL x) (f (Srv_TrustedProxies x)) (Srv_HealthListenAddr x)).
Definition at_Srv_HealthListenAddr : lens ServerConfig gostring := MkLens Srv_HealthListenAddr (λ f x, MkServerConfig (Srv_Environment x) (Srv_ListenAddr x) (Srv_PublicBaseURL x) (Srv_TrustedProxies x) (f (Srv_HealthListenAddr x))).
Definition at_ADNS_Mode : lens ACMEDNSConfig gostring := MkLens ADNS_Mode (λ f x, MkACMEDNSConfig (f (ADNS_Mode x)) (ADNS_Provider x) (ADNS_CredentialsRef x) (ADNS_CredentialsRefs x) (ADNS_Server x) (ADNS_TSIGKeyName x) (ADNS_TSIGAlgorithm x)).
Definition at_ADNS_Provider : lens ACMEDNSConfig gostring := MkLens ADNS_Provider (λ f x, MkACMEDNSConfig (ADNS_Mode x) (f (ADNS_Provider x)) (ADNS_CredentialsRef x) (ADNS_CredentialsRefs x) (ADNS_Server x) (ADNS_TSIGKeyName x) (ADNS_TSIGAlgorithm x)).
Definition at_ADNS_CredentialsRef : lens ACMEDNSConfig Ref := MkLens ADNS_CredentialsRef (λ f x, MkACMEDNSConfig (ADNS_Mode x) (ADNS_Provider x) (f (ADNS_CredentialsRef x)) (ADNS_CredentialsRefs x) (ADNS_Server x) (ADNS_TSIGKeyName x) (ADNS_TSIGAlgorithm x)).
Definition at_ADNS_Server : lens ACMEDNSConfig gostring := MkLens ADNS_Server (λ f x, MkACMEDNSConfig (ADNS_Mode x) (ADNS_Provider x) (ADNS_CredentialsRef x) (ADNS_CredentialsRefs x) (f (ADNS_Server x)) (ADNS_TSIGKeyName x) (ADNS_TSIGAlgorithm x)).
Definition at_ADNS_TSIGKeyName : lens ACMEDNSConfig gostring := MkLens ADNS_TSIGKeyName (λ f x, MkACMEDNSConfig (ADNS_Mode x) (ADNS_Provider x) (ADNS_CredentialsRef x) (ADNS_CredentialsRefs x) (ADNS_Server x) (f (ADNS_TSIGKeyName x)) (ADNS_TSIGAlgorithm x)).
Definition at_ADNS_TSIGAlgorithm : lens ACMEDNSConfig gostring := MkLens ADNS_TSIGAlgorithm (λ f x, MkACMEDNSConfig (ADNS_Mode x) (ADNS_Provider x) (ADNS_CredentialsRef x) (ADNS_CredentialsRefs x) (ADNS_Server x) (ADNS_TSIGKeyName x) (f (ADNS_TSIGAlgorithm x))).
Definition at_ACME_DirectoryURL : lens ACMEConfig gostring := MkLens ACME_DirectoryURL (λ f x, MkACMEConfig (f (ACME_DirectoryURL x)) (ACME_Solver x) (ACME_AccountKeyFile x) (ACME_CacheDir x) (ACME_ContactEmail x) (ACME_AcceptTOS x) (ACME_DNS x)).
Definition at_ACME_Solver : lens ACMEConfig gostring := MkLens ACME_Solver (λ f x, MkACMEConfig (ACME_DirectoryURL x) (f (ACME_Solver x)) (ACME_AccountKeyFile x) (ACME_CacheDir x) (ACME_ContactEmail x) (ACME_AcceptTOS x) (ACME_DNS x)).
Definition at_ACME_AccountKeyFile : lens ACMEConfig gostring := MkLens ACME_AccountKeyFile (λ f x, MkACMEConfig (ACME_DirectoryURL x) (ACME_Solver x) (f (ACME_AccountKeyFile x)) (ACME_CacheDir x) (ACME_ContactEmail x) (ACME_AcceptTOS x) (ACME_DNS x)).
Definition at_ACME_CacheDir : lens ACMEConfig gostring := MkLens ACME_CacheDir (λ f x, MkACMEConfig (ACME_DirectoryURL x) (ACME_Solver x) (ACME_AccountKeyFile x) (f (ACME_CacheDir x)) (ACME_ContactEmail x) (ACME_AcceptTOS x) (ACME_DNS x)).
Definition at_ACME_ContactEmail : lens ACMEConfig gostring := MkLens ACME_ContactEmail (λ f x, MkACMEConfig (ACME_DirectoryURL x) (ACME_Solver x) (ACME_AccountKeyFile x) (ACME_CacheDir x) (f (ACME_ContactEmail x)) (ACME_AcceptTOS x) (ACME_DNS x)).
Definition at_ACME_AcceptTOS : lens ACMEConfig bool := MkLens ACME_AcceptTOS (λ f x, MkACMEConfig (ACME_DirectoryURL x) (ACME_Solver x) (ACME_AccountKeyFile x) (ACME_CacheDir x) (ACME_ContactEmail x) (f (ACME_AcceptTOS x)) (ACME_DNS x)).
Definition at_ACME_DNS : lens ACMEConfig ACMEDNSConfig := MkLens ACME_DNS (λ f x, MkACMEConfig (ACME_DirectoryURL x) (ACME_Solver x) (ACME_AccountKeyFile x) (ACME_CacheDir x) (ACME_ContactEmail x) (ACME_AcceptTOS x) (f (ACME_DNS x))).
Definition at_CFO_APITokenRef : lens CloudflareOriginConfig Ref := MkLens CFO_APITokenRef (λ f x, MkCloudflareOriginConfig (f (CFO_APITokenRef x)) (CFO_CacheDir x) (CFO_ValidityDays x)).
Definition at_CFO_CacheDir : lens CloudflareOriginConfig gostring := MkLens CFO_CacheDir (λ f x, MkCloudflareOriginConfig (CFO_APITokenRef x) (f (CFO_CacheDir x)) (CFO_ValidityDays x)).
Definition at_CFO_ValidityDays : lens CloudflareOriginConfig Z := MkLens CFO_ValidityDays (λ f x, MkCloudflareOriginConfig (CFO_APITokenRef x) (CFO_CacheDir x) (f (CFO_ValidityDays x))).
Definition at_Man_CertFile : lens ManualTLSConfig gostring := MkLens Man_CertFile (λ f x, MkManualTLSConfig (f (Man_CertFile x)) (Man_KeyFile x)).
Definition at_Man_KeyFile : lens ManualTLSConfig gostring := MkLens Man_KeyFile (λ f x, MkManualTLSConfig (Man_CertFile x) (f (Man_KeyFile x))).
Definition at_CSRc_KeyFile : lens CSRTLSConfig gostring := MkLens CSRc_KeyFile (λ f x, MkCSRTLSConfig (f (CSRc_KeyFile x)) (CSRc_CSRFile x) (CSRc_CertFile x)).
Definition at_CSRc_CSRFile : lens CSRTLSConfig gostring := MkLens CSRc_CSRFile (λ f x, MkCSRTLSConfig (CSRc_KeyFile x) (f (CSRc_CSRFile x)) (CSRc_CertFile x)).
Definition at_CSRc_CertFile : lens CSRTLSConfig gostring := MkLens CSRc_CertFile (λ f x, MkCSRTLSConfig (CSRc_KeyFile x) (CSRc_CSRFile x) (f (CSRc_CertFile x))).
Definition at_Up_RequireForwardedProto : lens UpstreamTLSConfig bool := MkLens Up_RequireForwardedProto (λ f x, MkUpstreamTLSConfig (f (Up_RequireForwardedProto x)) (Up_ListenAddr x)).
Definition at_Up_ListenAddr : lens UpstreamTLSConfig gostring := MkLens Up_ListenAddr (λ f x, MkUpstreamTLSConfig (Up_RequireForwardedProto x) (f (Up_ListenAddr x))).
Definition at_TLS_Mode : lens TLSConfig gostring := MkLens TLS_Mode (λ f x, MkTLSConfig (f (TLS_Mode x)) (TLS_MinVersion x) (TLS_ACME x) (TLS_CloudflareOrigin x) (TLS_Manual x) (TLS_CSR x) (TLS_Upstream x) (TLS_AllowSelfSignedInProduction x) (TLS_Domain x) (TLS_SANs x)).
Definition at_TLS_MinVersion : lens TLSConfig gostring := MkLens TLS_MinVersion (λ f x, MkTLSConfig (TLS_Mode x) (f (TLS_MinVersion x)) (TLS_ACME x) (TLS_CloudflareOrigin x) (TLS_Manual x) (TLS_CSR x) (TLS_Upstream x) (TLS_AllowSelfSignedInProduction x) (TLS_Domain x) (TLS_SANs x)).
Definition at_TLS_ACME : lens TLSConfig ACMEConfig := MkLens TLS_ACME (λ f x, MkTLSConfig (TLS_Mode x) (TLS_MinVersion x) (f (TLS_ACME x)) (TLS_CloudflareOrigin x) (TLS_Manual x) (TLS_CSR x) (TLS_Upstream x) (TLS_AllowSelfSignedInProduction x) (TLS_Domain x) (TLS_SANs x)).
Definition at_TLS_CloudflareOrigin : lens TLSConfig CloudflareOriginConfig := MkLens TLS_CloudflareOrigin (λ f x, MkTLSConfig (TLS_Mode x) (TLS_MinVersion x) (TLS_ACME x) (f (TLS_CloudflareOrigin x)) (TLS_Manual x) (TLS_CSR x) (TLS_Upstream x) (TLS_AllowSelfSignedInProduction x) (TLS_Domain x) (TLS_SANs x)).
Definition at_TLS_Manual : lens TLSConfig ManualTLSConfig := MkLens TLS_Manual (λ f x, MkTLSConfig (TLS_Mode x) (TLS_MinVersion x) (TLS_ACME x) (TLS_CloudflareOrigin x) (f (TLS_Manual x)) (TLS_CSR x) (TLS_Upstream x) (TLS_AllowSelfSignedInProduction x) (TLS_Domain x) (TLS_SANs x)).
Definition at_TLS_CSR : lens TLSConfig CSRTLSConfig := MkLens TLS_CSR (λ f x, MkTLSConfig (TLS_Mode x) (TLS_MinVersion x) (TLS_ACME x) (TLS_CloudflareOrigin x) (TLS_Manual x) (f (TLS_CSR x)) (TLS_Upstream x) (TLS_AllowSelfSignedInProduction x) (TLS_Domain x) (TLS_SANs x)).
Definition at_TLS_Upstream : lens TLSConfig UpstreamTLSConfig := MkLens TLS_Upstream (λ f x, MkTLSConfig (TLS_Mode x) (TLS_MinVersion x) (TLS_ACME x) (TLS_CloudflareOrigin x) (TLS_Manual x) (TLS_CSR x) (f (TLS_Upstream x)) (TLS_AllowSelfSignedInProduction x) (TLS_Domain x) (TLS_SANs x)).
Definition at_TLS_AllowSelfSignedInProduction : lens TLSConfig bool := MkLens TLS_AllowSelfSignedInProduction (λ f x, MkTLSConfig (TLS_Mode x) (TLS_MinVersion x) (TLS_ACME x) (TLS_CloudflareOrigin x) (TLS_Manual x) (TLS_CSR x) (TLS_Upstream x) (f (TLS_AllowSelfSignedInProduction x)) (TLS_Domain x) (TLS_SANs x)).
Definition at_TLS_Domain : lens TLSConfig gostring := MkLens TLS_Domain (λ f x, MkTLSConfig (TLS_Mode x) (TLS_MinVersion x) (TLS_ACME x) (TLS_CloudflareOrigin x) (TLS_Manual x) (TLS_CSR x) (TLS_Upstream x) (TLS_AllowSelfSignedInProduction x) (f (TLS_Domain x)) (TLS_SANs x)).
Definition at_TLS_SANs : lens TLSConfig (list gostring) := MkLens TLS_SANs (λ f x, MkTLSConfig (TLS_Mode x) (TLS_MinVersion x) (TLS_ACME x) (TLS_CloudflareOrigin x) (TLS_Manual x) (TLS_CSR x) (TLS_Upstream x) (TLS_AllowSelfSignedInProduction x) (TLS_Domain x) (f (TLS_SANs x))).
Definition at_SQLite_Path : lens SQLiteConfig gostring := MkLens SQLite_Path (λ f x, MkSQLiteConfig (f (SQLite_Path x))).
Definition at_PG_DSNRef : lens PostgresConfig Ref := MkLens PG_DSNRef (λ f x, MkPostgresConfig (f (PG_DSNRef x))).
Definition at_DB_Driver : lens DatabaseConfig gostring := MkLens DB_Driver (λ f x, MkDatabaseConfig (f (DB_Driver x)) (DB_SQLite x) (DB_Postgres x)).
Definition at_DB_SQLite : lens DatabaseConfig SQLiteConfig := MkLens DB_SQLite (λ f x, MkDatabaseConfig (DB_Driver x) (f (DB_SQLite x)) (DB_Postgres x)).
Definition at_DB_Postgres : lens DatabaseConfig PostgresConfig := MkLens DB_Postgres (λ f x, MkDatabaseConfig (DB_Driver x) (DB_SQLite x) (f (DB_Postgres x))).
Definition at_PApi_Enabled : lens APITokenProvider bool := MkLens PApi_Enabled (λ f x, MkAPITokenProvider (f (PApi_Enabled x))).
Definition at_PPass_Enabled : lens PasskeyProvider bool := MkLens PPass_Enabled (λ f x, MkPasskeyProvider (f (PPass_Enabled x))).
Definition at_POidc_Enabled : lens OIDCProvider bool := MkLens POidc_Enabled (λ f x, MkOIDCProvider (f (POidc_Enabled x))).
Definition at_Provs_APIToken : lens AuthProviders APITokenProvider := MkLens Provs_APIToken (λ f x, MkAuthProviders (f (Provs_APIToken x)) (Provs_Passkey x) (Provs_OIDC x)).
Definition at_Provs_Passkey : lens AuthProviders PasskeyProvider := MkLens Provs_Passkey (λ f x, MkAuthProviders (Provs_APIToken x) (f (Provs_Passkey x)) (Provs_OIDC x)).
Definition at_Provs_OIDC : lens AuthProviders OIDCProvider := MkLens Provs_OIDC (λ f x, MkAuthProviders (Provs_APIToken x) (Provs_Passkey x) (f (Provs_OIDC x))).
Definition at_Ath_AccessTokenTTL : lens AuthConfig duration := MkLens Ath_AccessTokenTTL (λ f x, MkAuthConfig (f (Ath_AccessTokenTTL x)) (Ath_RefreshTokenMaxAge x) (Ath_TokenSigningKeyRef x) (Ath_AdminTokenSigningKeyRef x) (Ath_AccessKeyPepperRef x) (Ath_AccessKeyGraceWindow x) (Ath_Providers x)).
Definition at_Ath_RefreshTokenMaxAge : lens AuthConfig duration := MkLens Ath_RefreshTokenMaxAge (λ f x, MkAuthConfig (Ath_AccessTokenTTL x) (f (Ath_RefreshTokenMaxAge x)) (Ath_TokenSigningKeyRef x) (Ath_AdminTokenSigningKeyRef x) (Ath_AccessKeyPepperRef x) (Ath_AccessKeyGraceWindow x) (Ath_Providers x)).
Definition at_Ath_TokenSigningKeyRef : lens AuthConfig Ref := MkLens Ath_TokenSigningKeyRef (λ f x, MkAuthConfig (Ath_AccessTokenTTL x) (Ath_RefreshTokenMaxAge x) (f (Ath_TokenSigningKeyRef x)) (Ath_AdminTokenSigningKeyRef x) (Ath_AccessKeyPepperRef x) (Ath_AccessKeyGraceWindow x) (Ath_Providers x)).
Definition at_Ath_AdminTokenSigningKeyRef : lens AuthConfig Ref := MkLens Ath_AdminTokenSigningKeyRef (λ f x, MkAuthConfig (Ath_AccessTokenTTL x) (Ath_RefreshTokenMaxAge x) (Ath_TokenSigningKeyRef x) (f (Ath_AdminTokenSigningKeyRef x)) (Ath_AccessKeyPepperRef x) (Ath_AccessKeyGraceWindow x) (Ath_Providers x)).
Definition at_Ath_AccessKeyPepperRef : lens AuthConfig Ref := MkLens Ath_AccessKeyPepperRef (λ f x, MkAuthConfig (Ath_AccessTokenTTL x) (Ath_RefreshTokenMaxAge x) (Ath_TokenSigningKeyRef x) (Ath_AdminTokenSigningKeyRef x) (f (Ath_AccessKeyPepperRef x)) (Ath_AccessKeyGraceWindow x) (Ath_Providers x)).
Definition at_Ath_AccessKeyGraceWindow : lens AuthConfig duration := MkLens Ath_AccessKeyGraceWindow (λ f x, MkAuthConfig (Ath_AccessTokenTTL x) (Ath_RefreshTokenMaxAge x) (Ath_TokenSigningKeyRef x) (Ath_AdminTokenSigningKeyRef x) (Ath_AccessKeyPepperRef x) (f (Ath_AccessKeyGraceWindow x)) (Ath_Providers x)).
Definition at_Ath_Providers : lens AuthConfig AuthProviders := MkLens Ath_Providers (λ f x, MkAuthConfig (Ath_AccessTokenTTL x) (Ath_RefreshTokenMaxAge x) (Ath_TokenSigningKeyRef x) (Ath_AdminTokenSigningKeyRef x) (Ath_AccessKeyPepperRef x) (Ath_AccessKeyGraceWindow x) (f (Ath_Providers x))).
Definition at_Shr_Address : lens SharedRateLimitConfig gostring := MkLens Shr_Address (λ f x, MkSharedRateLimitConfig (f (Shr_Address x)) (Shr_PasswordRef x)).
Definition at_Shr_PasswordRef : lens SharedRateLimitConfig Ref := MkLens Shr_PasswordRef (λ f x, MkSharedRateLimitConfig (Shr_Address x) (f (Shr_PasswordRef x))).
Definition at_Tr_Requests : lens TierConfig Z := MkLens Tr_Requests (λ f x, MkTierConfig (f (Tr_Requests x)) (Tr_Window x)).
Definition at_Tr_Window : lens TierConfig duration := MkLens Tr_Window (λ f x, MkTierConfig (Tr_Requests x) (f (Tr_Window x))).
Definition at_Trs_Auth : lens RateLimitTiers TierConfig := MkLens Trs_Auth (λ f x, MkRateLimitTiers (f (Trs_Auth x)) (Trs_Publish x) (Trs_Management x) (Trs_Admin x)).
Definition at_Trs_Publish : lens RateLimitTiers TierConfig := MkLens Trs_Publish (λ f x, MkRateLimitTiers (Trs_Auth x) (f (Trs_Publish x)) (Trs_Management x) (Trs_Admin x)).
Definition at_Trs_Management : lens RateLimitTiers TierConfig := MkLens Trs_Management (λ f x, MkRateLimitTiers (Trs_Auth x) (Trs_Publish x) (f (Trs_Management x)) (Trs_Admin x)).
Definition at_Trs_Admin : lens RateLimitTiers TierConfig := MkLens Trs_Admin (λ f x, MkRateLimitTiers (Trs_Auth x) (Trs_Publish x) (Trs_Management x) (f (Trs_Admin x))).
Definition at_RL_Enabled : lens RateLimitConfig bool := MkLens RL_Enabled (λ f x, MkRateLimitConfig (f (RL_Enabled x)) (RL_Store x) (RL_Shared x) (RL_Tiers x)).
Definition at_RL_Store : lens RateLimitConfig gostring := MkLens RL_Store (λ f x, MkRateLimitConfig (RL_Enabled x) (f (RL_Store x)) (RL_Shared x) (RL_Tiers x)).
Definition at_RL_Shared : lens RateLimitConfig SharedRateLimitConfig := MkLens RL_Shared (λ f x, MkRateLimitConfig (RL_Enabled x) (RL_Store x) (f (RL_Shared x)) (RL_Tiers x)).
Definition at_RL_Tiers : lens RateLimitConfig RateLimitTiers := MkLens RL_Tiers (λ f x, MkRateLimitConfig (RL_Enabled x) (RL_Store x) (RL_Shared x) (f (RL_Tiers x))).
Definition at_Log_Level : lens LogConfig gostring := MkLens Log_Level (λ f x, MkLogConfig (f (Log_Level x)) (Log_Format x)).
Definition at_Log_Format : lens LogConfig gostring := MkLens Log_Format (λ f x, MkLogConfig (Log_Level x) (f (Log_Format x))).
Definition at_Prom_Enabled : lens PrometheusConfig bool := MkLens Prom_Enabled (λ f x, MkPrometheusConfig (f (Prom_Enabled x)) (Prom_ListenAddr x) (Prom_Path x)).
Definition at_Prom_ListenAddr : lens PrometheusConfig gostring := MkLens Prom_ListenAddr (λ f x, MkPrometheusConfig (Prom_Enabled x) (f (Prom_ListenAddr x)) (Prom_Path x)).
Definition at_Prom_Path : lens PrometheusConfig gostring := MkLens Prom_Path (λ f x, MkPrometheusConfig (Prom_Enabled x) (Prom_ListenAddr x) (f (Prom_Path x))).
Definition at_OTLP_Enabled : lens OTLPMetricsConfig bool := MkLens OTLP_Enabled (λ f x, MkOTLPMetricsConfig (f (OTLP_Enabled x)) (OTLP_Endpoint x) (OTLP_HeadersRef x)).
Definition at_OTLP_Endpoint : lens OTLPMetricsConfig gostring := MkLens OTLP_Endpoint (λ f x, MkOTLPMetricsConfig (OTLP_Enabled x) (f (OTLP_Endpoint x)) (OTLP_HeadersRef x)).
Definition at_OTLP_HeadersRef : lens OTLPMetricsConfig Ref := MkLens OTLP_HeadersRef (λ f x, MkOTLPMetricsConfig (OTLP_Enabled x) (OTLP_Endpoint x) (f (OTLP_HeadersRef x))).
Definition at_Met_Prometheus : lens MetricsConfig PrometheusConfig := MkLens Met_Prometheus (λ f x, MkMetricsConfig (f (Met_Prometheus x)) (Met_OTLP x)).
Definition at_Met_OTLP : lens MetricsConfig OTLPMetricsConfig := MkLens Met_OTLP (λ f x, MkMetricsConfig (Met_Prometheus x) (f (Met_OTLP x))).
Definition at_Trc_Enabled : lens TracesConfig bool := MkLens Trc_Enabled (λ f x, MkTracesConfig (f (Trc_Enabled x)) (Trc_Endpoint x) (Trc_SampleRatio x)).
Definition at_Trc_Endpoint : lens TracesConfig gostring := MkLens Trc_Endpoint (λ f x, MkTracesConfig (Trc_Enabled x) (f (Trc_Endpoint x)) (Trc_SampleRatio x)).
Definition at_Trc_SampleRatio : lens TracesConfig spec_float := MkLens Trc_SampleRatio (λ f x, MkTracesConfig (Trc_Enabled x) (Trc_Endpoint x) (f (Trc_SampleRatio x))).
Definition at_Tel_Log : lens TelemetryConfig LogConfig := MkLens Tel_Log (λ f x, MkTelemetryConfig (f (Tel_Log x)) (Tel_Metrics x) (Tel_Traces x)).
Definition at_Tel_Metrics : lens TelemetryConfig MetricsConfig := MkLens Tel_Metrics (λ f x, MkTelemetryConfig (Tel_Log x) (f (Tel_Metrics x)) (Tel_Traces x)).
Definition at_Tel_Traces : lens TelemetryConfig TracesConfig := MkLens Tel_Traces (λ f x, MkTelemetryConfig (Tel_Log x) (Tel_Metrics x) (f (Tel_Traces x))).
Definition at_Onb_Mode : lens OnboardingConfig gostring := MkLens Onb_Mode (λ f x, MkOnboardingConfig (f (Onb_Mode x))).
Definition at_Blk_SeedFile : lens BlocklistConfig gostring := MkLens Blk_SeedFile (λ f x, MkBlocklistConfig (f (Blk_SeedFile x)) (Blk_ExtraEntries x) (Blk_AllowEntries x)).
Definition at_Blk_ExtraEntries : lens BlocklistConfig (list gostring) := MkLens Blk_ExtraEntries (λ f x, MkBlocklistConfig (Blk_SeedFile x) (f (Blk_ExtraEntries x)) (Blk_AllowEntries x)).
Definition at_Blk_AllowEntries : lens BlocklistConfig (list gostring) := MkLens Blk_AllowEntries (λ f x, MkBlocklistConfig (Blk_SeedFile x) (Blk_ExtraEntries x) (f (Blk_AllowEntries x))).
Definition at_Ret_HandleQuarantine : lens RetentionConfig duration := MkLens Ret_HandleQuarantine (λ f x, MkRetentionConfig (f (Ret_HandleQuarantine x)) (Ret_AuditRetention x) (Ret_AuditPurgeInterval x) (Ret_AuditPurgeBatch x) (Ret_AuditPurgeMaxPerRun x) (Ret_HandleQuarantineSweepInterval x) (Ret_HandleQuarantineSweepBatch x) (Ret_AccessKeyGraceSweepInterval x) (Ret_AccessKeyGraceSweepBatch x) (Ret_MaxSetsPerOwner x)).
Definition at_Ret_AuditRetention : lens RetentionConfig duration := MkLens Ret_AuditRetention (λ f x, MkRetentionConfig (Ret_HandleQuarantine x) (f (Ret_AuditRetention x)) (Ret_AuditPurgeInterval x) (Ret_AuditPurgeBatch x) (Ret_AuditPurgeMaxPerRun x) (Ret_HandleQuarantineSweepInterval x) (Ret_HandleQuarantineSweepBatch x) (Ret_AccessKeyGraceSweepInterval x) (Ret_AccessKeyGraceSweepBatch x) (Ret_MaxSetsPerOwner x)).
Definition at_Ret_AuditPurgeInterval : lens RetentionConfig duration := MkLens Ret_AuditPurgeInterval (λ f x, MkRetentionConfig (Ret_HandleQuarantine x) (Ret_AuditRetention x) (f (Ret_AuditPurgeInterval x)) (Ret_AuditPurgeBatch x) (Ret_AuditPurgeMaxPerRun x) (Ret_HandleQuarantineSweepInterval x) (Ret_HandleQuarantineSweepBatch x) (Ret_AccessKeyGraceSweepInterval x) (Ret_AccessKeyGraceSweepBatch x) (Ret_MaxSetsPerOwner x)).
Definition at_Ret_AuditPurgeBatch : lens RetentionConfig Z := MkLens Ret_AuditPurgeBatch (λ f x, MkRetentionConfig (Ret_HandleQuarantine x) (Ret_AuditRetention x) (Ret_AuditPurgeInterval x) (f (Ret_AuditPurgeBatch x)) (Ret_AuditPurgeMaxPerRun x) (Ret_HandleQuarantineSweepInterval x) (Ret_HandleQuarantineSweepBatch x) (Ret_AccessKeyGraceSweepInterval x) (Ret_AccessKeyGraceSweepBatch x) (Ret_MaxSetsPerOwner x)).
Definition at_Ret_AuditPurgeMaxPerRun : lens RetentionConfig Z := MkLens Ret_AuditPurgeMaxPerRun (λ f x, MkRetentionConfig (Ret_HandleQuarantine x) (Ret_AuditRetention x) (Ret_AuditPurgeInterval x) (Ret_AuditPurgeBatch x) (f (Ret_AuditPurgeMaxPerRun x)) (Ret_HandleQuarantineSweepInterval x) (Ret_HandleQuarantineSweepBatch x) (Ret_AccessKeyGraceSweepInterval x) (Ret_AccessKeyGraceSweepBatch x) (Ret_MaxSetsPerOwner x)).
Definition at_Ret_HandleQuarantineSweepInterval : lens RetentionConfig duration := MkLens Ret_HandleQuarantineSweepInterval (λ f x, MkRetentionConfig (Ret_HandleQuarantine x) (Ret_AuditRetention x) (Ret_AuditPurgeInterval x) (Ret_AuditPurgeBatch x) (Ret_AuditPurgeMaxPerRun x) (f (Ret_HandleQuarantineSweepInterval x)) (Ret_HandleQuarantineSweepBatch x) (Ret_AccessKeyGraceSweepInterval x) (Ret_AccessKeyGraceSweepBatch x) (Ret_MaxSetsPerOwner x)).
Definition at_Ret_HandleQuarantineSweepBatch : lens RetentionConfig Z := MkLens Ret_HandleQuarantineSweepBatch (λ f x, MkRetentionConfig (Ret_HandleQuarantine x) (Ret_AuditRetention x) (Ret_AuditPurgeInterval x) (Ret_AuditPurgeBatch x) (Ret_AuditPurgeMaxPerRun x) (Ret_HandleQuarantineSweepInterval x) (f (Ret_HandleQuarantineSweepBatch x)) (Ret_AccessKeyGraceSweepInterval x) (Ret_AccessKeyGraceSweepBatch x) (Ret_MaxSetsPerOwner x)).
Definition at_Ret_AccessKeyGraceSweepInterval : lens RetentionConfig duration := MkLens Ret_AccessKeyGraceSweepInterval (λ f x, MkRetentionConfig (Ret_HandleQuarantine x) (Ret_AuditRetention x) (Ret_AuditPurgeInterval x) (Ret_AuditPurgeBatch x) (Ret_AuditPurgeMaxPerRun x) (Ret_HandleQuarantineSweepInterval x) (Ret_HandleQuarantineSweepBatch x) (f (Ret_AccessKeyGraceSweepInterval x)) (Ret_AccessKeyGraceSweepBatch x) (Ret_MaxSetsPerOwner x)).
Definition at_Ret_AccessKeyGraceSweepBatch : lens RetentionConfig Z := MkLens Ret_AccessKeyGraceSweepBatch (λ f x, MkRetentionConfig (Ret_HandleQuarantine x) (Ret_AuditRetention x) (Ret_AuditPurgeInterval x) (Ret_AuditPurgeBatch x) (Ret_AuditPurgeMaxPerRun x) (Ret_HandleQuarantineSweepInterval x) (Ret_HandleQuarantineSweepBatch x) (Ret_AccessKeyGraceSweepInterval x) (f (Ret_AccessKeyGraceSweepBatch x)) (Ret_MaxSetsPerOwner x)).
Definition at_Ret_MaxSetsPerOwner : lens RetentionConfig Z := MkLens Ret_MaxSetsPerOwner (λ f x, MkRetentionConfig (Ret_HandleQuarantine x) (Ret_AuditRetention x) (Ret_AuditPurgeInterval x) (Ret_AuditPurgeBatch x) (Ret_AuditPurgeMaxPerRun x) (Ret_HandleQuarantineSweepInterval x) (Ret_HandleQuarantineSweepBatch x) (Ret_AccessKeyGraceSweepInterval x) (Ret_AccessKeyGraceSweepBatch x) (f (Ret_MaxSetsPerOwner x))).
Definition at_Inst_Enabled : lens InstallConfig bool := MkLens Inst_Enabled (λ f x, MkInstallConfig (f (Inst_Enabled x))).
Definition at_Docs_Enabled : lens DocsConfig bool := MkLens Docs_Enabled (λ f x, MkDocsConfig (f (Docs_Enabled x))).
Definition at_Cfg_Server : lens Config ServerConfig := MkLens Cfg_Server (λ f x, MkConfig (f (Cfg_Server x)) (Cfg_TLS x) (Cfg_Database x) (Cfg_Auth x) (Cfg_RateLimit x) (Cfg_Telemetry x) (Cfg_Onboarding x) (Cfg_Blocklist x) (Cfg_Retention x) (Cfg_Install x) (Cfg_Docs x)).
Definition at_Cfg_TLS : lens Config TLSConfig := MkLens Cfg_TLS (λ f x, MkConfig (Cfg_Server x) (f (Cfg_TLS x)) (Cfg_Database x) (Cfg_Auth x) (Cfg_RateLimit x) (Cfg_Telemetry x) (Cfg_Onboarding x) (Cfg_Blocklist x) (Cfg_Retention x) (Cfg_Install x) (Cfg_Docs x)).
Definition at_Cfg_Database : lens Config DatabaseConfig := MkLens Cfg_Database (λ f x, MkConfig (Cfg_Server x) (Cfg_TLS x) (f (Cfg_Database x)) (Cfg_Auth x) (Cfg_RateLimit x) (Cfg_Telemetry x) (Cfg_Onboarding x) (Cfg_Blocklist x) (Cfg_Retention x) (Cfg_Install x) (Cfg_Docs x)).
Definition at_Cfg_Auth : lens Config AuthConfig := MkLens Cfg_Auth (λ f x, MkConfig (Cfg_Server x) (Cfg_TLS x) (Cfg_Database x) (f (Cfg_Auth x)) (Cfg_RateLimit x) (Cfg_Telemetry x) (Cfg_Onboarding x) (Cfg_Blocklist x) (Cfg_Retention x) (Cfg_Install x) (Cfg_Docs x)).
Definition at_Cfg_RateLimit : lens Config RateLimitConfig := MkLens Cfg_RateLimit (λ f x, MkConfig (Cfg_Server x) (Cfg_TLS x) (Cfg_Database x) (Cfg_Auth x) (f (Cfg_RateLimit x)) (Cfg_Telemetry x) (Cfg_Onboarding x) (Cfg_Blocklist x) (Cfg_Retention x) (Cfg_Install x) (Cfg_Docs x)).
Definition at_Cfg_Telemetry : lens Config TelemetryConfig := MkLens Cfg_Telemetry (λ f x, MkConfig (Cfg_Server x) (Cfg_TLS x) (Cfg_Database x) (Cfg_Auth x) (Cfg_RateLimit x) (f (Cfg_Telemetry x)) (Cfg_Onboarding x) (Cfg_Blocklist x) (Cfg_Retention x) (Cfg_Install x) (Cfg_Docs x)).
Definition at_Cfg_Onboarding : lens Config OnboardingConfig := MkLens Cfg_Onboarding (λ f x, MkConfig (Cfg_Server x) (Cfg_TLS x) (Cfg_Database x) (Cfg_Auth x) (Cfg_RateLimit x) (Cfg_Telemetry x) (f (Cfg_Onboarding x)) (Cfg_Blocklist x) (Cfg_Retention x) (Cfg_Install x) (Cfg_Docs x)).
Definition at_Cfg_Blocklist : lens Config BlocklistConfig := MkLens Cfg_Blocklist (λ f x, MkConfig (Cfg_Server x) (Cfg_TLS x) (Cfg_Database x) (Cfg_Auth x) (Cfg_RateLimit x) (Cfg_Telemetry x) (Cfg_Onboarding x) (f (Cfg_Blocklist x)) (Cfg_Retention x) (Cfg_Install x) (Cfg_Docs x)).
Definition at_Cfg_Retention : lens Config RetentionConfig := MkLens Cfg_Retention (λ f x, MkConfig (Cfg_Server x) (Cfg_TLS x) (Cfg_Database x) (Cfg_Auth x) (Cfg_RateLimit x) (Cfg_Telemetry x) (Cfg_Onboarding x) (Cfg_Blocklist x) (f (Cfg_Retention x)) (Cfg_Install x) (Cfg_Docs x)).
Definition at_Cfg_Install : lens Config InstallConfig := MkLens Cfg_Install (λ f x, MkConfig (Cfg_Server x) (Cfg_TLS x) (Cfg_Database x) (Cfg_Auth x) (Cfg_RateLimit x) (Cfg_Telemetry x) (Cfg_Onboarding x) (Cfg_Blocklist x) (Cfg_Retention x) (f (Cfg_Install x)) (Cfg_Docs x)).
Definition at_Cfg_Docs : lens Config DocsConfig := MkLens Cfg_Docs (λ f x, MkConfig (Cfg_Server x) (Cfg_TLS x) (Cfg_Database x) (Cfg_Auth x) (Cfg_RateLimit x) (Cfg_Telemetry x) (Cfg_Onboarding x) (Cfg_Blocklist x) (Cfg_Retention x) (Cfg_Install x) (f (Cfg_Docs x))).

(** ** Variables *)

(** src/internal/config/env.go:16-24, binding
    (the field a variable sets, and how its text is read) *)
Record binding := MkBinding { b_name : gostring; b_type : Type; b_field : lens Config b_type; b_parse : gostring → result b_type }.

(** src/internal/config/env.go:49-51, setString *)
Definition setString (name : string) (sel : lens Config gostring) : binding := MkBinding (go name) _ sel (λ v, Ok v).
(** src/internal/config/env.go:53-55, setRef *)
Definition setRef (name : string) (sel : lens Config Ref) : binding := MkBinding (go name) _ sel (λ v, Ok v).
(** src/internal/config/env.go:57-66, setBool *)
Definition setBool (name : string) (sel : lens Config bool) : binding :=
  MkBinding (go name) _ sel (λ v, match ParseBool (trim_space v) with Some b => Ok b | None => Err (errorf "invalid bool" []) end).
(** src/internal/config/env.go:68-77, setInt *)
Definition setInt (name : string) (sel : lens Config Z) : binding :=
  MkBinding (go name) _ sel (λ v, match Atoi (trim_space v) with Some n => Ok n | None => Err (errorf "invalid int" []) end).
(** src/internal/config/env.go:79-88, setFloat *)
Definition setFloat (name : string) (sel : lens Config spec_float) : binding :=
  MkBinding (go name) _ sel (λ v, match ParseFloat (trim_space v) with Some f => Ok f | None => Err (errorf "invalid number" []) end).
(** src/internal/config/env.go:90-99, setDuration *)
Definition setDuration (name : string) (sel : lens Config duration) : binding := MkBinding (go name) _ sel parseDuration.

(** src/internal/config/env.go:108-119, splitList *)
Definition splitList (v : gostring) : list gostring := filter (λ p, p ≠ []) (trim_space <$> split_byte (byte_of 44) v).
(** src/internal/config/env.go:101-106, setStringSlice *)
Definition setStringSlice (name : string) (sel : lens Config (list gostring)) : binding := MkBinding (go name) _ sel (λ v, Ok (splitList v)).

(** src/internal/config/env.go:121-229, bindings *)
Definition bindings : list binding :=
  [setString "VALLET_SERVER_ENVIRONMENT" (at_Cfg_Server ⊚ at_Srv_Environment);
   setString "VALLET_SERVER_LISTEN_ADDR" (at_Cfg_Server ⊚ at_Srv_ListenAddr);
   setString "VALLET_SERVER_PUBLIC_BASE_URL" (at_Cfg_Server ⊚ at_Srv_PublicBaseURL);
   setStringSlice "VALLET_SERVER_TRUSTED_PROXIES" (at_Cfg_Server ⊚ at_Srv_TrustedProxies);
   setString "VALLET_SERVER_HEALTH_LISTEN_ADDR" (at_Cfg_Server ⊚ at_Srv_HealthListenAddr);
   setString "VALLET_TLS_MODE" (at_Cfg_TLS ⊚ at_TLS_Mode);
   setString "VALLET_TLS_MIN_VERSION" (at_Cfg_TLS ⊚ at_TLS_MinVersion);
   setString "VALLET_TLS_ACME_DIRECTORY_URL" (at_Cfg_TLS ⊚ (at_TLS_ACME ⊚ at_ACME_DirectoryURL));
   setString "VALLET_TLS_ACME_SOLVER" (at_Cfg_TLS ⊚ (at_TLS_ACME ⊚ at_ACME_Solver));
   setString "VALLET_TLS_ACME_ACCOUNT_KEY_FILE" (at_Cfg_TLS ⊚ (at_TLS_ACME ⊚ at_ACME_AccountKeyFile));
   setString "VALLET_TLS_ACME_CACHE_DIR" (at_Cfg_TLS ⊚ (at_TLS_ACME ⊚ at_ACME_CacheDir));
   setString "VALLET_TLS_ACME_CONTACT_EMAIL" (at_Cfg_TLS ⊚ (at_TLS_ACME ⊚ at_ACME_ContactEmail));
   setBool "VALLET_TLS_ACME_ACCEPT_TOS" (at_Cfg_TLS ⊚ (at_TLS_ACME ⊚ at_ACME_AcceptTOS));
   setString "VALLET_TLS_ACME_DNS_MODE" (at_Cfg_TLS ⊚ (at_TLS_ACME ⊚ (at_ACME_DNS ⊚ at_ADNS_Mode)));
   setString "VALLET_TLS_ACME_DNS_PROVIDER" (at_Cfg_TLS ⊚ (at_TLS_ACME ⊚ (at_ACME_DNS ⊚ at_ADNS_Provider)));
   setRef "VALLET_TLS_ACME_DNS_CREDENTIALS_REF" (at_Cfg_TLS ⊚ (at_TLS_ACME ⊚ (at_ACME_DNS ⊚ at_ADNS_CredentialsRef)));
   setString "VALLET_TLS_ACME_DNS_SERVER" (at_Cfg_TLS ⊚ (at_TLS_ACME ⊚ (at_ACME_DNS ⊚ at_ADNS_Server)));
   setString "VALLET_TLS_ACME_DNS_TSIG_KEY_NAME" (at_Cfg_TLS ⊚ (at_TLS_ACME ⊚ (at_ACME_DNS ⊚ at_ADNS_TSIGKeyName)));
   setString "VALLET_TLS_ACME_DNS_TSIG_ALGORITHM" (at_Cfg_TLS ⊚ (at_TLS_ACME ⊚ (at_ACME_DNS ⊚ at_ADNS_TSIGAlgorithm)));
   setRef "VALLET_TLS_CLOUDFLARE_ORIGIN_API_TOKEN_REF" (at_Cfg_TLS ⊚ (at_TLS_CloudflareOrigin ⊚ at_CFO_APITokenRef));
   setString "VALLET_TLS_CLOUDFLARE_ORIGIN_CACHE_DIR" (at_Cfg_TLS ⊚ (at_TLS_CloudflareOrigin ⊚ at_CFO_CacheDir));
   setInt "VALLET_TLS_CLOUDFLARE_ORIGIN_VALIDITY_DAYS" (at_Cfg_TLS ⊚ (at_TLS_CloudflareOrigin ⊚ at_CFO_ValidityDays));
   setString "VALLET_TLS_MANUAL_CERT_FILE" (at_Cfg_TLS ⊚ (at_TLS_Manual ⊚ at_Man_CertFile));
   setString "VALLET_TLS_MANUAL_KEY_FILE" (at_Cfg_TLS ⊚ (at_TLS_Manual ⊚ at_Man_KeyFile));
   setString "VALLET_TLS_CSR_KEY_FILE" (at_Cfg_TLS ⊚ (at_TLS_CSR ⊚ at_CSRc_KeyFile));
   setString "VALLET_TLS_CSR_CSR_FILE" (at_Cfg_TLS ⊚ (at_TLS_CSR ⊚ at_CSRc_CSRFile));
   setString "VALLET_TLS_CSR_CERT_FILE" (at_Cfg_TLS ⊚ (at_TLS_CSR ⊚ at_CSRc_CertFile));
   setBool "VALLET_TLS_UPSTREAM_REQUIRE_FORWARDED_PROTO" (at_Cfg_TLS ⊚ (at_TLS_Upstream ⊚ at_Up_RequireForwardedProto));
   setString "VALLET_TLS_UPSTREAM_LISTEN_ADDR" (at_Cfg_TLS ⊚ (at_TLS_Upstream ⊚ at_Up_ListenAddr));
   setBool "VALLET_TLS_ALLOW_SELF_SIGNED_IN_PRODUCTION" (at_Cfg_TLS ⊚ at_TLS_AllowSelfSignedInProduction);
   setString "VALLET_TLS_DOMAIN" (at_Cfg_TLS ⊚ at_TLS_Domain);
   setStringSlice "VALLET_TLS_SANS" (at_Cfg_TLS ⊚ at_TLS_SANs);
   setString "VALLET_DATABASE_DRIVER" (at_Cfg_Database ⊚ at_DB_Driver);
   setString "VALLET_DATABASE_SQLITE_PATH" (at_Cfg_Database ⊚ (at_DB_SQLite ⊚ at_SQLite_Path));
   setRef "VALLET_DATABASE_POSTGRES_DSN_REF" (at_Cfg_Database ⊚ (at_DB_Postgres ⊚ at_PG_DSNRef));
   setDuration "VALLET_AUTH_ACCESS_TOKEN_TTL" (at_Cfg_Auth ⊚ at_Ath_AccessTokenTTL);
   setDuration "VALLET_AUTH_REFRESH_TOKEN_MAX_AGE" (at_Cfg_Auth ⊚ at_Ath_RefreshTokenMaxAge);
   setRef "VALLET_AUTH_TOKEN_SIGNING_KEY_REF" (at_Cfg_Auth ⊚ at_Ath_TokenSigningKeyRef);
   setRef "VALLET_AUTH_ADMIN_TOKEN_SIGNING_KEY_REF" (at_Cfg_Auth ⊚ at_Ath_AdminTokenSigningKeyRef);
   setRef "VALLET_AUTH_ACCESS_KEY_PEPPER_REF" (at_Cfg_Auth ⊚ at_Ath_AccessKeyPepperRef);
   setDuration "VALLET_AUTH_ACCESS_KEY_GRACE_WINDOW" (at_Cfg_Auth ⊚ at_Ath_AccessKeyGraceWindow);
   setBool "VALLET_AUTH_PROVIDERS_API_TOKEN_ENABLED" (at_Cfg_Auth ⊚ (at_Ath_Providers ⊚ (at_Provs_APIToken ⊚ at_PApi_Enabled)));
   setBool "VALLET_AUTH_PROVIDERS_PASSKEY_ENABLED" (at_Cfg_Auth ⊚ (at_Ath_Providers ⊚ (at_Provs_Passkey ⊚ at_PPass_Enabled)));
   setBool "VALLET_AUTH_PROVIDERS_OIDC_ENABLED" (at_Cfg_Auth ⊚ (at_Ath_Providers ⊚ (at_Provs_OIDC ⊚ at_POidc_Enabled)));
   setBool "VALLET_RATE_LIMIT_ENABLED" (at_Cfg_RateLimit ⊚ at_RL_Enabled);
   setString "VALLET_RATE_LIMIT_STORE" (at_Cfg_RateLimit ⊚ at_RL_Store);
   setString "VALLET_RATE_LIMIT_SHARED_ADDRESS" (at_Cfg_RateLimit ⊚ (at_RL_Shared ⊚ at_Shr_Address));
   setRef "VALLET_RATE_LIMIT_SHARED_PASSWORD_REF" (at_Cfg_RateLimit ⊚ (at_RL_Shared ⊚ at_Shr_PasswordRef));
   setInt "VALLET_RATE_LIMIT_TIERS_AUTH_REQUESTS" (at_Cfg_RateLimit ⊚ (at_RL_Tiers ⊚ (at_Trs_Auth ⊚ at_Tr_Requests)));
   setDuration "VALLET_RATE_LIMIT_TIERS_AUTH_WINDOW" (at_Cfg_RateLimit ⊚ (at_RL_Tiers ⊚ (at_Trs_Auth ⊚ at_Tr_Window)));
   setInt "VALLET_RATE_LIMIT_TIERS_PUBLISH_REQUESTS" (at_Cfg_RateLimit ⊚ (at_RL_Tiers ⊚ (at_Trs_Publish ⊚ at_Tr_Requests)));
   setDuration "VALLET_RATE_LIMIT_TIERS_PUBLISH_WINDOW" (at_Cfg_RateLimit ⊚ (at_RL_Tiers ⊚ (at_Trs_Publish ⊚ at_Tr_Window)));
   setInt "VALLET_RATE_LIMIT_TIERS_MANAGEMENT_REQUESTS" (at_Cfg_RateLimit ⊚ (at_RL_Tiers ⊚ (at_Trs_Management ⊚ at_Tr_Requests)));
   setDuration "VALLET_RATE_LIMIT_TIERS_MANAGEMENT_WINDOW" (at_Cfg_RateLimit ⊚ (at_RL_Tiers ⊚ (at_Trs_Management ⊚ at_Tr_Window)));
   setInt "VALLET_RATE_LIMIT_TIERS_ADMIN_REQUESTS" (at_Cfg_RateLimit ⊚ (at_RL_Tiers ⊚ (at_Trs_Admin ⊚ at_Tr_Requests)));
   setDuration "VALLET_RATE_LIMIT_TIERS_ADMIN_WINDOW" (at_Cfg_RateLimit ⊚ (at_RL_Tiers ⊚ (at_Trs_Admin ⊚ at_Tr_Window)));
   setString "VALLET_TELEMETRY_LOG_LEVEL" (at_Cfg_Telemetry ⊚ (at_Tel_Log ⊚ at_Log_Level));
   setString "VALLET_TELEMETRY_LOG_FORMAT" (at_Cfg_Telemetry ⊚ (at_Tel_Log ⊚ at_Log_Format));
   setBool "VALLET_TELEMETRY_METRICS_PROMETHEUS_ENABLED" (at_Cfg_Telemetry ⊚ (at_Tel_Metrics ⊚ (at_Met_Prometheus ⊚ at_Prom_Enabled)));
   setString "VALLET_TELEMETRY_METRICS_PROMETHEUS_LISTEN_ADDR" (at_Cfg_Telemetry ⊚ (at_Tel_Metrics ⊚ (at_Met_Prometheus ⊚ at_Prom_ListenAddr)));
   setString "VALLET_TELEMETRY_METRICS_PROMETHEUS_PATH" (at_Cfg_Telemetry ⊚ (at_Tel_Metrics ⊚ (at_Met_Prometheus ⊚ at_Prom_Path)));
   setBool "VALLET_TELEMETRY_METRICS_OTLP_ENABLED" (at_Cfg_Telemetry ⊚ (at_Tel_Metrics ⊚ (at_Met_OTLP ⊚ at_OTLP_Enabled)));
   setString "VALLET_TELEMETRY_METRICS_OTLP_ENDPOINT" (at_Cfg_Telemetry ⊚ (at_Tel_Metrics ⊚ (at_Met_OTLP ⊚ at_OTLP_Endpoint)));
   setRef "VALLET_TELEMETRY_METRICS_OTLP_HEADERS_REF" (at_Cfg_Telemetry ⊚ (at_Tel_Metrics ⊚ (at_Met_OTLP ⊚ at_OTLP_HeadersRef)));
   setBool "VALLET_TELEMETRY_TRACES_ENABLED" (at_Cfg_Telemetry ⊚ (at_Tel_Traces ⊚ at_Trc_Enabled));
   setString "VALLET_TELEMETRY_TRACES_ENDPOINT" (at_Cfg_Telemetry ⊚ (at_Tel_Traces ⊚ at_Trc_Endpoint));
   setFloat "VALLET_TELEMETRY_TRACES_SAMPLE_RATIO" (at_Cfg_Telemetry ⊚ (at_Tel_Traces ⊚ at_Trc_SampleRatio));
   setString "VALLET_ONBOARDING_MODE" (at_Cfg_Onboarding ⊚ at_Onb_Mode);
   setString "VALLET_BLOCKLIST_SEED_FILE" (at_Cfg_Blocklist ⊚ at_Blk_SeedFile);
   setStringSlice "VALLET_BLOCKLIST_EXTRA_ENTRIES" (at_Cfg_Blocklist ⊚ at_Blk_ExtraEntries);
   setStringSlice "VALLET_BLOCKLIST_ALLOW_ENTRIES" (at_Cfg_Blocklist ⊚ at_Blk_AllowEntries);
   setDuration "VALLET_RETENTION_HANDLE_QUARANTINE" (at_Cfg_Retention ⊚ at_Ret_HandleQuarantine);
   setDuration "VALLET_RETENTION_AUDIT_RETENTION" (at_Cfg_Retention ⊚ at_Ret_AuditRetention);
   setDuration "VALLET_RETENTION_AUDIT_PURGE_INTERVAL" (at_Cfg_Retention ⊚ at_Ret_AuditPurgeInterval);
   setInt "VALLET_RETENTION_AUDIT_PURGE_BATCH" (at_Cfg_Retention ⊚ at_Ret_AuditPurgeBatch);
   setInt "VALLET_RETENTION_AUDIT_PURGE_MAX_PER_RUN" (at_Cfg_Retention ⊚ at_Ret_AuditPurgeMaxPerRun);
   setDuration "VALLET_RETENTION_HANDLE_QUARANTINE_SWEEP_INTERVAL" (at_Cfg_Retention ⊚ at_Ret_HandleQuarantineSweepInterval);
   setInt "VALLET_RETENTION_HANDLE_QUARANTINE_SWEEP_BATCH" (at_Cfg_Retention ⊚ at_Ret_HandleQuarantineSweepBatch);
   setDuration "VALLET_RETENTION_ACCESS_KEY_GRACE_SWEEP_INTERVAL" (at_Cfg_Retention ⊚ at_Ret_AccessKeyGraceSweepInterval);
   setInt "VALLET_RETENTION_ACCESS_KEY_GRACE_SWEEP_BATCH" (at_Cfg_Retention ⊚ at_Ret_AccessKeyGraceSweepBatch);
   setInt "VALLET_RETENTION_MAX_SETS_PER_OWNER" (at_Cfg_Retention ⊚ at_Ret_MaxSetsPerOwner);
   setBool "VALLET_INSTALL_ENABLED" (at_Cfg_Install ⊚ at_Inst_Enabled);
   setBool "VALLET_DOCS_ENABLED" (at_Cfg_Docs ⊚ at_Docs_Enabled)].

Abbreviation environment := (gostring → option gostring).

(** Setting the field of one variable. *)
Definition set_binding (b : binding) (env : environment) (cfg : Config) : Config * list goerror :=
  match env (b_name b) with
  | None => (cfg, [])
  | Some raw =>
      match b_parse b raw with
      | Ok v => (over (b_field b) (λ _, v) cfg, [])
      | Err e => (cfg, [errorf "environment variable" [e]])
      end
  end.

Fixpoint set_bindings (bs : list binding) (env : environment) (cfg : Config) : Config * list goerror :=
  match bs with
  | [] => (cfg, [])
  | b :: bs' =>
      let '(cfg, errs) := set_binding b env cfg in
      let '(cfg, errs') := set_bindings bs' env cfg in (cfg, errs ++ errs')
  end.

(** src/internal/config/env.go:26-42, applyEnv *)
Definition applyEnv (cfg : Config) (env : environment) : Config * option goerror :=
  let '(cfg, errs) := set_bindings bindings env cfg in
  (cfg, if bool_decide (errs = []) then None else Some (errorf "" errs)).

(** What the file at a path holds: the decoder of YAML applied to the defaults. *)
Abbreviation decoder := (gostring → Config → result Config).

(** src/internal/config/load.go:13-39, Load *)
Definition Load (decodeFile : decoder) (env : environment) (path : gostring) : result Config :=
  match (if bool_decide (path = []) then Ok Default else decodeFile path Default) with
  | Err e => Err e
  | Ok cfg =>
      match applyEnv cfg env with
      | (cfg, None) => Ok cfg
      | (_, Some e) => Err (errorf "config: environment overrides" [e])
      end
  end.

(** ** Lemmas *)

(** A field keeps what is put in it, and two fields do not touch each other. *)
Definition well_behaved (b : binding) : Prop := ∀ v c, view (b_field b) (over (b_field b) (λ _, v) c) = v.
Definition apart (a b : binding) : Prop :=
  (∀ v c, view (b_field a) (over (b_field b) (λ _, v) c) = view (b_field a) c) ∧ (∀ v c, view (b_field b) (over (b_field a) (λ _, v) c) = view (b_field b) c).

Lemma bindings_well_behaved : Forall well_behaved bindings.
Proof. unfold bindings. repeat (constructor; [intros v c; reflexivity|]). constructor. Qed.

Lemma bindings_apart : ForallOrdPairs apart bindings.
Proof. unfold bindings. repeat (constructor; [repeat (constructor; [split; intros v c; reflexivity|]); constructor|]). constructor. Qed.

Lemma bindings_names : NoDup (b_name <$> bindings) ∧ Forall (λ b, has_prefix (go "VALLET_") (b_name b) = true) bindings.
Proof. split; [apply (bool_decide_unpack _); vm_compute; exact I|]. unfold bindings. repeat (constructor; [reflexivity|]). constructor. Qed.

(** What the field of a variable holds afterwards. *)
Definition outcome (b : binding) (env : environment) (cfg : Config) : b_type b :=
  match env (b_name b) with
  | Some raw => match b_parse b raw with Ok v => v | Err _ => view (b_field b) cfg end
  | None => view (b_field b) cfg
  end.
Definition readable (b : binding) (env : environment) : Prop := ∀ raw, env (b_name b) = Some raw → is_ok (b_parse b raw) = true.

Lemma set_binding_own b env cfg : well_behaved b → view (b_field b) (fst (set_binding b env cfg)) = outcome b env cfg.
Proof. intros Hb. unfold set_binding, outcome. destruct (env _) as [raw|]; [|done]. destruct (b_parse b raw); [apply Hb|done]. Qed.

Lemma set_binding_other a b env cfg : apart a b → view (b_field a) (fst (set_binding b env cfg)) = view (b_field a) cfg.
Proof. intros [H _]. unfold set_binding. destruct (env _) as [raw|]; [|done]. destruct (b_parse b raw); [apply H|done]. Qed.

Lemma set_binding_errs b env cfg : snd (set_binding b env cfg) = [] ↔ readable b env.
Proof.
  unfold set_binding, readable. destruct (env _) as [raw|]; [|by split]. destruct (b_parse b raw) eqn:E; simpl.
  - split; [|done]. intros _ raw' [= <-]. by rewrite E.
  - split; [done|]. intros H. specialize (H raw eq_refl). by rewrite E in H.
Qed.

Lemma set_bindings_untouched {B} (get : Config → B) bs env cfg : Forall (λ b, ∀ v c, get (over (b_field b) (λ _, v) c) = get c) bs →
  get (fst (set_bindings bs env cfg)) = get cfg.
Proof.
  intros H. revert cfg. induction H as [|b bs Hb H IH]; intros cfg; [done|]. simpl. destruct (set_binding b env cfg) as [c1 e1] eqn:E1.
  specialize (IH c1). destruct (set_bindings bs env c1) as [c2 e2]. simpl in *. rewrite IH. unfold set_binding in E1.
  destruct (env _); [|by injection E1 as <- <-]. destruct (b_parse _ _); injection E1 as <- <-; [apply Hb|done].
Qed.

Lemma set_bindings_fields bs env cfg : Forall well_behaved bs → ForallOrdPairs apart bs →
  ∀ b, b ∈ bs → view (b_field b) (fst (set_bindings bs env cfg)) = outcome b env cfg.
Proof.
  intros Hw Ha. revert cfg. induction Ha as [|b bs Hb Ha IH]; intros cfg x Hx; [by apply elem_of_nil in Hx|].
  apply Forall_cons in Hw as [Hwb Hw]. simpl. pose proof (set_binding_own b env cfg Hwb) as Hown.
  pose proof (λ a H, set_binding_other a b env cfg H) as Hoth. destruct (set_binding b env cfg) as [c1 e1]. simpl in Hown, Hoth.
  specialize (IH Hw c1). pose proof (set_bindings_untouched (view (b_field b)) bs env c1) as Hun.
  destruct (set_bindings bs env c1) as [c2 e2]. simpl in *. apply elem_of_cons in Hx as [->|Hx].
  - rewrite Hun; [done|]. eapply Forall_impl; [exact Hb|]. by intros a [? _].
  - rewrite (IH x Hx). unfold outcome. rewrite Hoth; [done|]. rewrite Forall_forall in Hb. destruct (Hb x Hx). by split.
Qed.

Lemma set_bindings_errs bs env cfg : snd (set_bindings bs env cfg) = [] ↔ Forall (λ b, readable b env) bs.
Proof.
  revert cfg. induction bs as [|b bs IH]; intros cfg; [done|]. simpl. pose proof (set_binding_errs b env cfg) as H1.
  destruct (set_binding b env cfg) as [c1 e1]. specialize (IH c1). destruct (set_bindings bs env c1) as [c2 e2]. simpl in *.
  by rewrite app_nil, H1, IH, Forall_cons.
Qed.

Lemma set_bindings_unset bs env cfg : Forall (λ b, env (b_name b) = None) bs → fst (set_bindings bs env cfg) = cfg.
Proof.
  induction 1 as [|b bs Hb H IH]; [done|]. simpl. unfold set_binding. rewrite Hb. by destruct (set_bindings bs env cfg).
Qed.

(** Every whole number of days below a bound, one by one. *)
Definition days_read (n : Z) : bool := match parseDuration (FormatInt n ++ go "d") with Ok d => d =? n * day | Err _ => false end.
Fixpoint all_days_read (fuel : nat) (n : Z) : bool := match fuel with O => true | S fuel => days_read n && all_days_read fuel (n + 1) end.

Lemma whole_days_below (bound : Z) n : 0 ≤ n < bound → all_days_read (Z.to_nat bound) 0 = true → parseDuration (FormatInt n ++ go "d") = Ok (n * day).
Proof.
  intros Hn H.
  assert (∀ fuel k, all_days_read fuel k = true → k ≤ n < k + Z.of_nat fuel → days_read n = true) as Hall.
  { induction fuel as [|fuel IH]; intros k Hk Hr; [lia|]. simpl in Hk. apply andb_true_iff in Hk as [Hk Hk'].
    destruct (decide (k = n)) as [->|]; [done|]. apply (IH (k + 1)); [done|lia]. }
  specialize (Hall _ _ H ltac:(lia)). unfold days_read in Hall. destruct (parseDuration _) as [d|]; [|done]. apply Z.eqb_eq in Hall. by subst.
Qed.

(** ** Theorems *)

(** The environment overrides exactly what it names.  After [applyEnv] the field of every
    variable that is set holds what its text reads as, every other field - and the one
    that no variable reaches - holds what it held; there is an error exactly when some
    variable that is set cannot be read.  No two variables share a name or a field, and
    all carry the program's prefix. *)
Theorem applyEnv_exact cfg env : NoDup (b_name <$> bindings) ∧ Forall (λ b, has_prefix (go "VALLET_") (b_name b) = true) bindings ∧
  let '(cfg', err) := applyEnv cfg env in
  (∀ b, b ∈ bindings → view (b_field b) cfg' = outcome b env cfg) ∧
  ADNS_CredentialsRefs (ACME_DNS (TLS_ACME (Cfg_TLS cfg'))) = ADNS_CredentialsRefs (ACME_DNS (TLS_ACME (Cfg_TLS cfg))) ∧
  (err = None ↔ ∀ b, b ∈ bindings → readable b env) ∧ ((∀ b, b ∈ bindings → env (b_name b) = None) → cfg' = cfg).
Proof.
  split; [apply bindings_names|]. split; [apply bindings_names|]. unfold applyEnv.
  pose proof (set_bindings_fields bindings env cfg bindings_well_behaved bindings_apart) as Hf.
  pose proof (set_bindings_errs bindings env cfg) as He.
  pose proof (set_bindings_untouched (λ c, ADNS_CredentialsRefs (ACME_DNS (TLS_ACME (Cfg_TLS c)))) bindings env cfg) as Hu.
  pose proof (set_bindings_unset bindings env cfg) as Hn.
  destruct (set_bindings bindings env cfg) as [c1 errs]. simpl in *. split_and!; [done| | |].
  - apply Hu. unfold bindings. repeat (constructor; [intros v c; reflexivity|]). constructor.
  - rewrite <- Forall_forall, <- He. by case_bool_decide.
  - intros H. apply Hn. by apply Forall_forall.
Qed.


(** A duration that was read fits its type and is not negative, whether it was written in
    days or in Go's units; and up to ten years a whole number of days is read
    exactly - the arithmetic on doubles loses nothing there. *)
Theorem parseDuration_exact : (∀ s d, parseDuration s = Ok d → 0 ≤ d ≤ int64_max) ∧
  (∀ n, 0 ≤ n ≤ 3650 → parseDuration (FormatInt n ++ go "d") = Ok (n * day)).
Proof.
  split.
  - intros s d. unfold parseDuration. destruct (bool_decide _); [done|]. 
    destruct (if has_suffix _ _ then _ else _) as [n|].
    + unfold daysToDuration. destruct (is_nan n) eqn:En; [done|]. destruct (is_inf n) eqn:Ei; [done|]. cbn [orb].
      destruct (float_lt n float_zero) eqn:El; [done|]. destruct (float_le _ _) eqn:Eb; [done|]. intros [= <-].
      assert (float_nonneg (SFmul prec emax n (float_of_Z (24 * Hour)))) as Hn by (apply SFmul_nonneg; [by apply float_lt_zero|by apply float_of_Z_nonneg]).
      split; [by apply float_trunc_nonneg|by apply float_trunc_fits].
    + destruct (ParseDuration _) as [p|] eqn:Ep; [|done]. apply ParseDuration_fits in Ep. destruct (Z.ltb_spec p 0); [done|]. by intros [= <-].
  - intros n Hn. apply (whole_days_below 3651 n); [lia|]. vm_compute. reflexivity.
Qed.
