(* ===== verification/HttpEdge.v ===== *)
(** * The edge of the server

    [internal/transport/http] up to the handlers: whose address a request counts against
    (clientip.go, trustedproxy.go), the bearer token and the guardian in front of the
    management routes (authz.go), the rate-limit middlewares (ratelimit.go), request ids,
    strict transport security, and the publish handler.

    A handler reads a request and the headers set so far, changes the world and answers.
    Logging has no effect on either and is left out.  The identifiers, random bytes and
    clock readings of a request are its [env]. *)

From S2P Require Import Prelude DomainErrors GoLib NetIP Domain Counter RateLimit Blocklist Sha256 Tokens Authz Database StoreLogic AuditLog TokenService Keys Publish Enrollment Onboarding.

Open Scope Z_scope.

(** ** Requests and responses *)

(** What a handler reads of [http.Request]; header names are canonical, and a name occurs
    once per line received. *)
Record Request := MkRequest {
  r_Method : gostring;
  r_RemoteAddr : gostring;
  r_TLS : bool;
  r_Path : gostring;
  r_Header : list (gostring * gostring);
  r_Body : bytes;
  r_PathValues : list (gostring * gostring);
  r_RequestID : gostring;
}.

Definition Values (r : Request) (name : string) : list gostring := (filter (λ p, p.1 = go name) (r_Header r)).*2.
Definition Header_Get (r : Request) (name : string) : gostring := match Values r name with v :: _ => v | [] => [] end.
Definition PathValue (r : Request) (name : string) : gostring :=
  match (filter (λ p, p.1 = go name) (r_PathValues r)).*2 with v :: _ => v | [] => [] end.

(** Response headers: each name has one value here, since the code only sets. *)
Abbreviation headers := (gmap gostring gostring).
Definition hset (name : string) (value : gostring) (h : headers) : headers := <[go name := value]> h.

(** Response bodies: text, or a JSON object of type [A]. *)
Inductive payload (A : Type) := NoBody | Text (b : bytes) | JStatus (status : gostring) | JOf (a : A).
Arguments NoBody {A}.
Arguments Text {A} b.
Arguments JStatus {A} status.
Arguments JOf {A} a.

Record Response (A : Type) := MkResponse { rs_Status : Z; rs_Header : headers; rs_Body : payload A }.
Arguments MkResponse {A} _ _ _.
Arguments rs_Status {A} _.
Arguments rs_Header {A} _.
Arguments rs_Body {A} _.

(** src/internal/transport/http/health.go:98-113, writeJSON *)
Definition writeJSON {A : Type} (h : headers) (status : Z) (body : payload A) : Response A :=
  MkResponse status
    (hset "X-Content-Type-Options" (go "nosniff") (hset "Cache-Control" (go "no-store") (hset "Content-Type" (go "application/json; charset=utf-8") h)))
    body.

Definition writeError {A : Type} (h : headers) (status : Z) : Response A := writeJSON h status (JStatus (go "error")).

(** ** Trusted proxies and the client's address *)

(** src/internal/transport/http/trustedproxy.go:8-30, trustedPeers *)
Record trustedPeers := MkTrustedPeers { prefixes : list Prefix }.

(** src/internal/transport/http/trustedproxy.go:32-60, newTrustedPeers *)
Definition newTrustedPeers (entries : list gostring) : trustedPeers :=
  MkTrustedPeers (omap (λ entry,
    match ParsePrefix entry with
    | Some p => Some (Masked p)
    | None => (λ a, let a := Unmap a in PrefixFrom a (BitLen a)) <$> ParseAddr entry
    end) entries).

(** src/internal/transport/http/trustedproxy.go:62-63, trustedPeers.empty *)
Definition tp_empty (t : trustedPeers) : bool := bool_decide (prefixes t = []).

(** src/internal/transport/http/trustedproxy.go:101-123, parsePeerAddr *)
Definition parsePeerAddr (remoteAddr : gostring) : option Addr :=
  Unmap <$> ParseAddr (default remoteAddr (SplitHostPort remoteAddr)).

(** src/internal/transport/http/trustedproxy.go:81-99, trustedPeers.trustsAddr *)
Definition trustsAddr (t : trustedPeers) (addr : Addr) : bool :=
  if tp_empty t then false else existsb (λ p, Contains p (Unmap addr)) (prefixes t).

(** src/internal/transport/http/trustedproxy.go:65-79, trustedPeers.trusts *)
Definition trusts (t : trustedPeers) (remoteAddr : gostring) : bool :=
  match parsePeerAddr remoteAddr with
  | None => false
  | Some addr => trustsAddr t addr
  end.

(** src/internal/transport/http/clientip.go:9-14, forwardedForHeader *)
Definition forwardedForHeader : string := "X-Forwarded-For".

(** src/internal/transport/http/clientip.go:16-25, maxForwardedHops *)
Definition maxForwardedHops : nat := 16.

(** src/internal/transport/http/clientip.go:108-121, splitForwarded *)
Definition splitForwarded (values : list gostring) : list gostring :=
  v ← values; part ← split_byte (byte_of 44) v;
  let part := trim_space part in
  if bool_decide (part = []) then [] else [part].

(** src/internal/transport/http/clientip.go:123-135, parseForwardedHop *)
Definition parseForwardedHop (s : gostring) : option Addr :=
  match ParseAddr s with
  | Some addr => Some (Unmap addr)
  | None => parsePeerAddr s
  end.

(** src/internal/transport/http/clientip.go:83-105, clientIP (the walk over the hops, the
    last first; [None]: the peer) *)
Fixpoint walk (proxies : trustedPeers) (budget : nat) (hops : list gostring) : option Addr :=
  match budget, hops with
  | S budget, hop :: hops =>
      match parseForwardedHop hop with
      | None => None
      | Some addr => if trustsAddr proxies addr then walk proxies budget hops else Some addr
      end
  | _, _ => None
  end.

(** src/internal/transport/http/clientip.go:27-106, clientIP *)
Definition clientIP (r : Request) (proxies : trustedPeers) : gostring :=
  match parsePeerAddr (r_RemoteAddr r) with
  | None => []
  | Some peer =>
      if negb (trusts proxies (r_RemoteAddr r)) then Addr_String peer else
      let forwarded := Values r forwardedForHeader in
      if bool_decide (forwarded = []) then Addr_String peer else
      match walk proxies maxForwardedHops (rev (splitForwarded forwarded)) with
      | Some addr => Addr_String addr
      | None => Addr_String peer
      end
  end.

(** ** Request ids and strict transport security *)

(** src/internal/transport/http/requestid.go:8-10, RequestIDHeader *)
Definition RequestIDHeader : string := "X-Request-Id".

(** src/internal/transport/http/requestid.go:12-15, maxRequestIDLen *)
Definition maxRequestIDLen : Z := 128.

(** src/internal/transport/http/requestid.go:35-61, safeRequestID *)
Definition safeRequestID (id : gostring) : bool :=
  negb (bool_decide (id = [])) && (Z.of_nat (length id) <=? maxRequestIDLen) &&
  forallb (λ c, let v := byte_val c in ((97 <=? v) && (v <=? 122)) || ((65 <=? v) && (v <=? 90)) || ((48 <=? v) && (v <=? 57))
                                        || mem_byte c (go "._-")) id.

(** src/internal/transport/http/hsts.go:32-67, hstsValue *)
Definition hstsValue : gostring := go "max-age=31536000; includeSubDomains".

(** src/internal/transport/http/hsts.go:76-88, hstsPolicy *)
Record hstsPolicy := MkHstsPolicy { upstreamTLS : bool; hsts_proxies : trustedPeers }.

(** src/internal/transport/http/hsts.go:103-137, hstsPolicy.requestIsSecure *)
Definition requestIsSecure (p : hstsPolicy) (r : Request) : bool :=
  if r_TLS r then true else
  if negb (upstreamTLS p) || tp_empty (hsts_proxies p) then false else
  if negb (trusts (hsts_proxies p) (r_RemoteAddr r)) then false else
  equal_fold (trim_space (Header_Get r "X-Forwarded-Proto")) (go "https").

(** ** Handlers *)

(** The identifiers, random bytes and clock readings one request is served with. *)
Record env := MkEnv {
  e_ctx : context;
  e_clock : nat → time;
  e_id : gostring;
  e_stamp : stamp;
  e_ent : entropy;
  e_pair : pair_entropy;
  e_ids : account_ids;
  e_requestID : gostring;
}.

(** What the handlers share: the database, the counter store (rate limits, denylist and
    approval attempts use one), and the name policy's matcher, which list edits replace. *)
Record world (S : Type) := MkWorld { w_conn : conn; w_store : S; w_matcher : Matcher }.
Arguments MkWorld {S} _ _ _.
Arguments w_conn {S} _.
Arguments w_store {S} _.
Arguments w_matcher {S} _.

Definition put_conn {S : Type} (c : conn) (w : world S) : world S := MkWorld c (w_store w) (w_matcher w).
Definition put_store {S : Type} (s : S) (w : world S) : world S := MkWorld (w_conn w) s (w_matcher w).

(** A call of a service that works on the database. *)
Definition on_db {S B : Type} (m : stM conn B) (w : world S) : result B * world S :=
  let '(r, c) := m (w_conn w) in (r, put_conn c w).

Section handlers.
Context {A S : Type}.
Abbreviation W := (world S).
Definition handler : Type := env → Request → headers → W → Response A * W.

(** src/internal/transport/http/middleware.go:14-26, chain *)
Definition chain (h : handler) (mw : list (handler → handler)) : handler := foldr (λ m h, m h) h mw.

(** src/internal/transport/http/hsts.go:139-182, hstsMiddleware *)
Definition hstsMiddleware (policy : hstsPolicy) (next : handler) : handler := λ e r h w,
  next e r (if requestIsSecure policy r then hset "Strict-Transport-Security" hstsValue h else h) w.

Definition with_request_id (r : Request) (id : gostring) : Request :=
  MkRequest (r_Method r) (r_RemoteAddr r) (r_TLS r) (r_Path r) (r_Header r) (r_Body r) (r_PathValues r) id.

(** src/internal/transport/http/middleware.go:78-94, requestIDMiddleware *)
Definition requestIDMiddleware (next : handler) : handler := λ e r h w,
  let id := Header_Get r RequestIDHeader in
  let id := if safeRequestID id then id else e_requestID e in
  next e (with_request_id r id) (hset RequestIDHeader id h) w.

(** ** Authorization *)

(** src/internal/transport/http/authz.go:18-25, maxBearerLen *)
Definition maxBearerLen : Z := 4096.

(** src/internal/transport/http/authz.go:222-253, bearerToken *)
Definition bearerToken (r : Request) : option gostring :=
  match Values r "Authorization" with
  | [value] =>
      let '(scheme, credential, ok) := cut (byte_of 32) value in
      if negb ok || negb (equal_fold scheme (go "bearer")) then None else
      let credential := trim_left [byte_of 32; byte_of 9] credential in
      if bool_decide (credential = []) || (maxBearerLen <? Z.of_nat (length credential)) then None else Some credential
  | _ => None
  end.

(** src/internal/transport/http/authz.go:207-220, isMutating *)
Definition isMutating (method : gostring) : bool :=
  negb (bool_decide (method = go "GET" ∨ method = go "HEAD" ∨ method = go "OPTIONS")).

(** src/internal/transport/http/authz.go:34-57, DenyNotFound *)
Inductive DenialStyle := DenyNotFound | DenyUnauthorized.

(** src/internal/transport/http/authz.go:255-309, Guardian.deny *)
Definition deny (style : DenialStyle) (h : headers) (err : goerror) : Response A :=
  let status :=
    if errors_is err ErrForbidden then 403 else
    match style with DenyUnauthorized => 401 | DenyNotFound => 404 end in
  let h := if status =? 401 then hset "WWW-Authenticate" (go "Bearer") h else h in
  writeError (hset "Vary" (go "Authorization") h) status.

Definition ScopedHandler : Type := env → Request → headers → Authorization → W → Response A * W.

(** An authorizer: the guard, or what stands in for a missing one. *)
Definition Authorizer : Type := env → gostring → Access → W → result Authorization * W.

(** src/internal/transport/http/options.go:178-184, denyAllAuthorizer.Authorize *)
Definition denyAllAuthorizer : Authorizer := λ _ _ _ w, (Err ErrAuthFailed, w).

(** src/internal/transport/http/authz.go:104-108, AccountAccess *)
Definition AccountAccess (r : Request) : result Access := Ok (MkAccess [] ResourceNone [] false).

(** src/internal/transport/http/authz.go:142-205, Guardian.Protect
    (a nil AccessFunc or handler is a programming error and panics at wiring time) *)
Definition Protect (authz : Authorizer) (style : DenialStyle) (access : Request → result Access) (hd : ScopedHandler) : handler := λ e r h w,
  let h := hset "Vary" (go "Authorization") h in
  match bearerToken r with
  | None => (deny style h ErrAuthFailed, w)
  | Some token =>
      match access r with
      | Err _ => (deny style h ErrAuthFailed, w)
      | Ok acc =>
          let acc := MkAccess (Acc_Owner acc) (Acc_Resource acc) (Acc_ResourceID acc) (isMutating (r_Method r)) in
          match authz e token acc w with
          | (Err err, w) => (deny style h err, w)
          | (Ok a, w) => hd e r h a w
          end
      end
  end.

(** ** Rate limits *)

(** src/internal/transport/http/ratelimit.go:468-481, writeRateLimited *)
Definition writeRateLimited (h : headers) (d : Decision) : Response A :=
  writeError (hset "Retry-After" (FormatInt (RetryAfterSeconds d)) h) 429.

Context `{!Store S}.

Definition limited (lim : Limiter) (key : gostring) (next : headers → W → Response A * W) (e : env) (h : headers) (w : W) : Response A * W :=
  let '((decision, _), s) := Allow lim (e_ctx e) (e_clock e 0) key (w_store w) in
  let w := put_store s w in
  if negb (Allowed decision) then (writeRateLimited h decision, w) else next h w.

(** src/internal/transport/http/ratelimit.go:410-466, rateLimitMiddleware *)
Definition rateLimitMiddleware (lim : option Limiter) (proxies : trustedPeers) (next : handler) : handler := λ e r h w,
  match lim with
  | None => next e r h w
  | Some lim =>
      let key := clientIP r proxies in
      if bool_decide (key = []) then (writeRateLimited h (MkDecision false (Tier_Window (Limiter_tier lim)) 0 0), w) else
      limited lim key (next e r) e h w
  end.

(** src/internal/transport/http/ratelimit.go:177-292, managementRateLimit *)
Definition managementRateLimit (lim : option Limiter) (next : ScopedHandler) : ScopedHandler := λ e r h a w,
  match lim with
  | None => next e r h a w
  | Some lim =>
      let key := Auth_credential a in
      if bool_decide (key = []) then (writeRateLimited h (MkDecision false (Tier_Window (Limiter_tier lim)) 0 0), w) else
      limited lim key (λ h w, next e r h a w) e h w
  end.

(** Who a request says its administrator is; empty for nobody. *)
Definition AdminIdentifier : Type := env → Request → gostring.

(** src/internal/transport/http/ratelimit.go:118-175, adminRateLimit *)
Definition adminRateLimit (lim : option Limiter) (id : AdminIdentifier) (next : handler) : handler := λ e r h w,
  match lim with
  | None => next e r h w
  | Some lim => limited lim (go "admin:" ++ id e r) (next e r) e h w
  end.

(** src/internal/transport/http/ratelimit.go:368-408, authPrecheck
    ([None]: go on; [Some]: the answer) *)
Definition authPrecheck (lim : AuthLimiter) (key : gostring) (e : env) (h : headers) (w : W) : option (Response A) * W :=
  if bool_decide (key = []) then (Some (writeRateLimited h (MkDecision false (Auth_Window (AuthLimiter_tier lim)) 0 0)), w) else
  let '((decision, _), s) := Check lim (e_ctx e) (e_clock e 0) (e_clock e 1) key (w_store w) in
  let w := put_store s w in
  if negb (Allowed decision) then (Some (writeRateLimited h decision), w) else (None, w).

(** src/internal/transport/http/enrollment.go:284-294, recordAuthFailure *)
Definition recordAuthFailure (lim : AuthLimiter) (key : gostring) (e : env) (w : W) : W :=
  put_store (snd (RecordFailure lim (e_ctx e) (e_clock e 8) (e_clock e 9) key (w_store w))) w.

(** src/internal/transport/http/enrollment.go:296-300, recordAuthSuccess *)
Definition recordAuthSuccess (lim : AuthLimiter) (key : gostring) (e : env) (w : W) : W :=
  put_store (snd (RecordSuccess lim (e_ctx e) (e_clock e 8) key (w_store w))) w.
End handlers.
Arguments handler : clear implicits.
Arguments ScopedHandler : clear implicits.
Arguments Authorizer : clear implicits.

(** ** The publish handler *)

Section publishing.
Context {A S : Type} {K : Type} `{HK : !Ssh K} {V : Type} `{HV : !Verifier V}.

(** src/internal/transport/http/publish.go:34-43, publishMaxAge *)
Definition publishMaxAge : Z := 60.

(** src/internal/transport/http/publish.go:45-47, publishContentType *)
Definition publishContentType : gostring := go "text/plain; charset=utf-8".

(** src/internal/transport/http/publish.go:185-195, entityTag *)
Definition entityTag (body : bytes) : gostring := byte_of 34 :: hex_encode (sha256 body) ++ [byte_of 34].

Definition TrimPrefix (p s : gostring) : gostring := default s (cut_prefix p s).

(** src/internal/transport/http/publish.go:197-222, matchesETag *)
Definition matchesETag (header etag : gostring) : bool :=
  let header := trim_space header in
  if bool_decide (header = []) then false else
  if bool_decide (header = go "*") then true else
  let want := TrimPrefix (go "W/") etag in
  existsb (λ candidate, bool_decide (TrimPrefix (go "W/") (trim_space candidate) = want)) (split_byte (byte_of 44) header).

(** The body of an answer is not sent to HEAD. *)
Definition body_for (r : Request) (b : bytes) : payload A := if bool_decide (r_Method r = go "HEAD") then NoBody else Text b.

(** src/internal/transport/http/publish.go:255-274, writePublishStatus *)
Definition writePublishStatus (h : headers) (r : Request) (status : Z) (body : gostring) : Response A :=
  MkResponse status
    (hset "Content-Length" (FormatInt (Z.of_nat (length body))) (hset "X-Content-Type-Options" (go "nosniff")
      (hset "Cache-Control" (go "no-store") (hset "Content-Type" publishContentType h))))
    (body_for r body).

(** src/internal/transport/http/publish.go:224-247, writePublishNotFound *)
Definition writePublishNotFound (h : headers) (r : Request) : Response A := writePublishStatus h r 404 (go "not found" ++ [byte_of 10]).

(** src/internal/transport/http/publish.go:249-253, writePublishError *)
Definition writePublishError (h : headers) (r : Request) : Response A := writePublishStatus h r 500 (go "internal server error" ++ [byte_of 10]).

(** src/internal/transport/http/publish.go:120-183, writePublishBody *)
Definition writePublishBody (h : headers) (r : Request) (res : PublishResult) : Response A :=
  let etag := entityTag (PR_Body res) in
  let h := hset "ETag" etag h in
  let h := if PR_Protected res
           then hset "Vary" (go "Authorization") (hset "Cache-Control" (go "private, max-age=" ++ FormatInt publishMaxAge) h)
           else hset "Cache-Control" (go "public, max-age=" ++ FormatInt publishMaxAge) h in
  if matchesETag (Header_Get r "If-None-Match") etag then MkResponse 304 h NoBody else
  MkResponse 200
    (hset "Content-Length" (FormatInt (Z.of_nat (length (PR_Body res)))) (hset "X-Content-Type-Options" (go "nosniff")
      (hset "Content-Type" publishContentType h)))
    (body_for r (PR_Body res)).

(** src/internal/transport/http/publish.go:49-118, publishHandler
    (a publisher is known by its verifier of access keys) *)
Definition publishHandler (publisher : option (option V)) : handler A S := λ e r h w,
  match publisher with
  | None => (writePublishError h r, w)
  | Some verifier =>
      let token := default [] (bearerToken r) in
      match on_db (Resolve (K:=K) verifier (PathValue r "handle") (PathValue r "set") token) w with
      | (Err err, w) => (if errors_is err publish_ErrNotFound then writePublishNotFound h r else writePublishError h r, w)
      | (Ok res, w) => (writePublishBody h r res, w)
      end
  end.
End publishing.

(** ** Lemmas and theorems *)

(** A hop our own infrastructure wrote on the way. *)
Definition trusted_hop (proxies : trustedPeers) (hop : gostring) : Prop := ∃ a, parseForwardedHop hop = Some a ∧ trustsAddr proxies a = true.

(** The nearest hop that is not a trusted proxy, within the budget. *)
Definition nearest_untrusted (proxies : trustedPeers) (hops : list gostring) (a : Addr) : Prop := ∃ forged hop near,
  hops = forged ++ hop :: near ∧ (length near < maxForwardedHops)%nat ∧ Forall (trusted_hop proxies) near ∧
  parseForwardedHop hop = Some a ∧ trustsAddr proxies a = false.

Lemma walk_Some proxies budget hops a : walk proxies budget hops = Some a ↔ ∃ near hop rest,
  hops = near ++ hop :: rest ∧ (length near < budget)%nat ∧ Forall (trusted_hop proxies) near ∧ parseForwardedHop hop = Some a ∧ trustsAddr proxies a = false.
Proof.
  revert budget. induction hops as [|hop hops IH]; intros [|budget]; simpl; try (split; [done|]; intros (near & x & rest & E & Hl & _); destruct near; simpl in *; [done || lia|done || lia]).
  destruct (parseForwardedHop hop) as [b|] eqn:Eh.
  - destruct (trustsAddr proxies b) eqn:Et.
    + rewrite IH. split; intros (near & x & rest & E & Hl & Hn & Hx).
      * exists (hop :: near), x, rest. split_and!; [by rewrite E|simpl; lia|constructor; [by exists b|done]|apply Hx..].
      * destruct near as [|y near]; [injection E as -> ->; destruct Hx; congruence|]. injection E as -> ->.
        exists near, x, rest. apply Forall_cons in Hn as [_ Hn]. simpl in Hl. split_and!; [done|lia|done|apply Hx..].
    + split; [intros [= <-]; exists [], hop, hops; simpl; split_and!; [done|lia|constructor|done..]|].
      intros (near & x & rest & E & _ & Hn & Hx & Ha). destruct near as [|y near]; [injection E as -> ->; congruence|].
      injection E as -> ->. apply Forall_cons in Hn as [[? [? ?]] _]. congruence.
  - split; [done|]. intros (near & x & rest & E & _ & Hn & Hx & _). destruct near as [|y near]; [injection E as -> ->; congruence|].
    injection E as -> ->. apply Forall_cons in Hn as [[? [? ?]] _]. congruence.
Qed.

Lemma walk_nearest proxies hops a : walk proxies maxForwardedHops (rev hops) = Some a ↔ nearest_untrusted proxies hops a.
Proof.
  rewrite walk_Some. split.
  - intros (near & hop & rest & E & Hl & Hn & Hx). exists (rev rest), hop, (rev near).
    split_and!; [|by rewrite length_rev|by apply Forall_rev|apply Hx..].
    rewrite <- (rev_involutive hops), E, rev_app_distr. simpl. by rewrite <- app_assoc.
  - intros (forged & hop & near & -> & Hl & Hn & Hx). exists (rev near), hop, (rev forged).
    split_and!; [|by rewrite length_rev|by apply Forall_rev|apply Hx..]. rewrite rev_app_distr. simpl. by rewrite <- app_assoc.
Qed.

(** C12. Nobody chooses the address their requests are counted against.  A client that
    connects directly is counted under its own address, whatever headers it sends.
    Behind trusted proxies it is counted under the nearest hop that is not one of them,
    whatever it put before that hop in the forwarded list; and when the hops near us do
    not lead to such an address - one is malformed, all are proxies, there are too many -
    under the proxy's own.  Only an unreadable peer address has no key. *)
Theorem clientIP_exact r proxies : (clientIP r proxies = [] ↔ parsePeerAddr (r_RemoteAddr r) = None) ∧
  ∀ peer, parsePeerAddr (r_RemoteAddr r) = Some peer →
    (trustsAddr proxies peer = false → clientIP r proxies = Addr_String peer) ∧
    (trustsAddr proxies peer = true → ∀ a, nearest_untrusted proxies (splitForwarded (Values r forwardedForHeader)) a → clientIP r proxies = Addr_String a) ∧
    ((¬ ∃ a, nearest_untrusted proxies (splitForwarded (Values r forwardedForHeader)) a) → clientIP r proxies = Addr_String peer).
Proof.
  unfold clientIP, trusts. destruct (parsePeerAddr (r_RemoteAddr r)) as [peer|]; [|done].
  assert (∀ a, Addr_String a ≠ []) as Hne by apply Addr_String_nonempty. split.
  - destruct (negb _); [by split; [intros ?%Hne|]|]. case_bool_decide; [by split; [intros ?%Hne|]|]. by destruct (walk _ _ _); split; [intros ?%Hne| |intros ?%Hne|].
  - intros ? [= <-]. destruct (trustsAddr proxies peer); cbn [negb]; [|done]. split_and!; [done| |].
    + intros _ a Ha. case_bool_decide as Hv; [rewrite Hv in Ha; destruct Ha as (f & x & n & E & _); by destruct f|].
      by apply walk_nearest in Ha as ->.
    + intros Hno. case_bool_decide; [done|]. destruct (walk _ _ _) as [a|] eqn:E; [|done]. destruct Hno. exists a. by apply walk_nearest.
Qed.
