(* ===== verification/HttpApi.v ===== *)
(** * The API handlers

    [internal/transport/http] device.go, publickey.go, keyset.go, enrollment.go, token.go,
    adminidentity.go, adminlists.go and owneronboard.go: what each route does with a
    request, and how the services' errors become answers.  The decoding of a JSON body is
    a parameter: a function from the bytes to the value and the bytes left over. *)

From S2P Require Import Prelude DomainErrors GoLib NetIP GoJson Domain Counter RateLimit Blocklist Sha256 Tokens Authz Database StoreLogic AuditLog KeyRepos KeySets Handles Keys DeviceKeys Publish TokenService PairingCode Enrollment Erasure Administrators ListAdmin Onboarding HttpEdge.

Open Scope Z_scope.

(** ** Requests and answers *)

(** src/internal/transport/http/device.go:41-47, registerDeviceRequest *)
Record registerDeviceRequest := MkRegisterDeviceRequest { rd_Name : gostring }.

(** src/internal/transport/http/device.go:49-61, deviceResponse *)
Record deviceResponse := MkDeviceResponse {
  dr_ID : gostring; dr_Name : gostring; dr_Status : DeviceStatus; dr_CreatedAt : time; dr_UpdatedAt : time; dr_RevokedAt : option time }.

(** src/internal/transport/http/publickey.go:42-56, addKeyRequest *)
Record addKeyRequest := MkAddKeyRequest { ak_DeviceID : gostring; ak_PublicKey : gostring }.

(** src/internal/transport/http/publickey.go:58-81, publicKeyResponse *)
Record publicKeyResponse := MkPublicKeyResponse {
  pr_ID : gostring; pr_DeviceID : gostring; pr_Algorithm : Algorithm; pr_Comment : gostring; pr_Fingerprint : gostring; pr_BitLen : Z;
  pr_Status : KeyStatus; pr_CreatedAt : time; pr_UpdatedAt : time; pr_RevokedAt : option time }.

(** src/internal/transport/http/keyset.go:43-53, createKeySetRequest *)
Record createKeySetRequest := MkCreateKeySetRequest { ck_Name : gostring }.

(** src/internal/transport/http/keyset.go:55-59, renameKeySetRequest *)
Record renameKeySetRequest := MkRenameKeySetRequest { rk_Name : gostring }.

(** src/internal/transport/http/keyset.go:61-71, deleteKeySetRequest *)
Record deleteKeySetRequest := MkDeleteKeySetRequest { dk_Confirm : bool }.

(** src/internal/transport/http/keyset.go:73-84, setVisibilityRequest *)
Record setVisibilityRequest := MkSetVisibilityRequest { sv_Visibility : gostring }.

(** src/internal/transport/http/keyset.go:86-103, keySetResponse *)
Record keySetResponse := MkKeySetResponse {
  kr_ID : gostring; kr_Name : gostring; kr_Visibility : Visibility; kr_IsDefault : bool; kr_CreatedAt : time; kr_UpdatedAt : time }.

(** src/internal/transport/http/enrollment.go:42-48, wireScope *)
Record wireScope := MkWireScope { ws_Kind : gostring; ws_ResourceID : gostring }.

(** src/internal/transport/http/enrollment.go:50-59, startDeviceGrantRequest *)
Record startDeviceGrantRequest := MkStartDeviceGrantRequest { sg_ClientLabel : gostring; sg_Scopes : list wireScope }.

(** src/internal/transport/http/enrollment.go:61-64, mintRequest *)
Record mintRequest := MkMintRequest { mr_ClientLabel : gostring; mr_Scopes : list wireScope }.

(** src/internal/transport/http/enrollment.go:66-70, approveRequest *)
Record approveRequest := MkApproveRequest { ar_UserCode : gostring }.

(** src/internal/transport/http/enrollment.go:72-74, pollRequest *)
Record pollRequest := MkPollRequest { po_DeviceCode : gostring }.

(** src/internal/transport/http/enrollment.go:76-78, redeemRequest *)
Record redeemRequest := MkRedeemRequest { rr_DeviceCode : gostring }.

(** src/internal/transport/http/enrollment.go:80-91, grantResponse *)
Record grantResponse := MkGrantResponse {
  gr_PairingID : gostring; gr_DeviceCode : gostring; gr_UserCode : gostring; gr_ExpiresAt : time; gr_PollIntervalSeconds : Z }.

(** src/internal/transport/http/enrollment.go:93-102, issuedResponse *)
Record issuedResponse := MkIssuedResponse {
  ir_RefreshToken : gostring; ir_RefreshExpiresAt : time; ir_AccessToken : gostring; ir_AccessExpiresAt : time;
  ir_OwnerID : gostring; ir_Scopes : list wireScope }.

(** src/internal/transport/http/token.go:27-32, exchangeRequest *)
Record exchangeRequest := MkExchangeRequest { xr_RefreshToken : gostring }.

(** src/internal/transport/http/adminlists.go:59-64, adminEntryRequest *)
Record adminEntryRequest := MkAdminEntryRequest { ae_Entry : gostring }.

(** src/internal/transport/http/owneronboard.go:36-42, ownerProvisionRequest *)
Record ownerProvisionRequest := MkOwnerProvisionRequest { op_Handle : gostring; op_SetName : gostring; op_ClientLabel : gostring }.

(** src/internal/transport/http/owneronboard.go:44-56, ownerProvisionResponse *)
Record ownerProvisionResponse := MkOwnerProvisionResponse {
  or_OwnerID : gostring; or_Handle : gostring; or_SetName : gostring; or_EnrollmentCode : gostring; or_ExpiresAt : time; or_PairingID : gostring }.

(** The objects the API answers with; a refused key's reason is the text of the error. *)
Inductive json :=
| JDevice (d : deviceResponse) | JDevices (l : list deviceResponse)
| JKey (k : publicKeyResponse) | JKeys (l : list publicKeyResponse) | JKeyRejected (reason : goerror)
| JKeySet (k : keySetResponse) | JKeySets (l : list keySetResponse) | JConflict (reason : gostring)
| JGrant (g : grantResponse) | JIssued (i : issuedResponse) | JOwner (o : ownerProvisionResponse).

(** ** Bodies *)

(** A request type: its zero value and how JSON is stored into it, unknown members
    refused. *)
Class Decodes (B : Type) := { body_zero : B; body_fields : list (string * store B) }.

Definition io_EOF : goerror := errors_new "EOF".

(** [json.Decoder.Decode]: the value and what is left of the input. *)
Definition json_body {B : Type} `{!Decodes B} (s : bytes) : result (B * bytes) :=
  if bool_decide (skip_blanks s = []) then Err io_EOF else
  match Decode (into_struct true body_fields) s body_zero with Some p => Ok p | None => Err (errors_new "json: cannot be decoded") end.

(** [json.Decoder.More]: there is more unless the input, blanks skipped, is at its end or
    at a closing bracket or brace. *)
Definition json_More (rest : bytes) : bool :=
  match skip_blanks rest with
  | [] => false
  | c :: _ => negb (mem_byte c (go "]}"))
  end.

(** src/internal/transport/http/device.go:203-220, decodeStrictJSON
    (past its limit the reader of the body fails, also where its end was looked for) *)
Definition decodeStrictJSON {B : Type} `{!Decodes B} (limit : Z) (r : Request) : result B :=
  match json_body (take (Z.to_nat limit) (r_Body r)) with
  | Err e => if limit <? len (r_Body r) then Err (errors_new "http: request body too large") else Err e
  | Ok (v, rest) => if json_More rest then Err (errors_new "httpserver: trailing data after JSON body") else Ok v
  end.

(** The members of the request types. *)
#[export] Instance Decodes_registerDevice : Decodes registerDeviceRequest :=
  {| body_zero := MkRegisterDeviceRequest []; body_fields := [("name", λ v b, x ← into_string v (rd_Name b); Some (MkRegisterDeviceRequest x))]%string |}.
#[export] Instance Decodes_addKey : Decodes addKeyRequest :=
  {| body_zero := MkAddKeyRequest [] [];
     body_fields := [("device_id", λ v b, x ← into_string v (ak_DeviceID b); Some (MkAddKeyRequest x (ak_PublicKey b)));
                     ("public_key", λ v b, x ← into_string v (ak_PublicKey b); Some (MkAddKeyRequest (ak_DeviceID b) x))]%string |}.
#[export] Instance Decodes_createKeySet : Decodes createKeySetRequest :=
  {| body_zero := MkCreateKeySetRequest []; body_fields := [("name", λ v b, x ← into_string v (ck_Name b); Some (MkCreateKeySetRequest x))]%string |}.
#[export] Instance Decodes_renameKeySet : Decodes renameKeySetRequest :=
  {| body_zero := MkRenameKeySetRequest []; body_fields := [("name", λ v b, x ← into_string v (rk_Name b); Some (MkRenameKeySetRequest x))]%string |}.
#[export] Instance Decodes_deleteKeySet : Decodes deleteKeySetRequest :=
  {| body_zero := MkDeleteKeySetRequest false; body_fields := [("confirm", λ v b, x ← into_bool v (dk_Confirm b); Some (MkDeleteKeySetRequest x))]%string |}.
#[export] Instance Decodes_setVisibility : Decodes setVisibilityRequest :=
  {| body_zero := MkSetVisibilityRequest []; body_fields := [("visibility", λ v b, x ← into_string v (sv_Visibility b); Some (MkSetVisibilityRequest x))]%string |}.
Definition wire_scope_fields : list (string * store wireScope) :=
  [("kind", λ v s, x ← into_string v (ws_Kind s); Some (MkWireScope x (ws_ResourceID s)));
   ("resource_id", λ v s, x ← into_string v (ws_ResourceID s); Some (MkWireScope (ws_Kind s) x))]%string.
Definition into_scopes : store (list wireScope) := into_list (MkWireScope [] []) (into_struct true wire_scope_fields).
#[export] Instance Decodes_startDeviceGrant : Decodes startDeviceGrantRequest :=
  {| body_zero := MkStartDeviceGrantRequest [] [];
     body_fields := [("client_label", λ v b, x ← into_string v (sg_ClientLabel b); Some (MkStartDeviceGrantRequest x (sg_Scopes b)));
                     ("scopes", λ v b, x ← into_scopes v (sg_Scopes b); Some (MkStartDeviceGrantRequest (sg_ClientLabel b) x))]%string |}.
#[export] Instance Decodes_mint : Decodes mintRequest :=
  {| body_zero := MkMintRequest [] [];
     body_fields := [("client_label", λ v b, x ← into_string v (mr_ClientLabel b); Some (MkMintRequest x (mr_Scopes b)));
                     ("scopes", λ v b, x ← into_scopes v (mr_Scopes b); Some (MkMintRequest (mr_ClientLabel b) x))]%string |}.
#[export] Instance Decodes_approve : Decodes approveRequest :=
  {| body_zero := MkApproveRequest []; body_fields := [("user_code", λ v b, x ← into_string v (ar_UserCode b); Some (MkApproveRequest x))]%string |}.
#[export] Instance Decodes_poll : Decodes pollRequest :=
  {| body_zero := MkPollRequest []; body_fields := [("device_code", λ v b, x ← into_string v (po_DeviceCode b); Some (MkPollRequest x))]%string |}.
#[export] Instance Decodes_redeem : Decodes redeemRequest :=
  {| body_zero := MkRedeemRequest []; body_fields := [("device_code", λ v b, x ← into_string v (rr_DeviceCode b); Some (MkRedeemRequest x))]%string |}.
#[export] Instance Decodes_exchange : Decodes exchangeRequest :=
  {| body_zero := MkExchangeRequest []; body_fields := [("refresh_token", λ v b, x ← into_string v (xr_RefreshToken b); Some (MkExchangeRequest x))]%string |}.
#[export] Instance Decodes_adminEntry : Decodes adminEntryRequest :=
  {| body_zero := MkAdminEntryRequest []; body_fields := [("entry", λ v b, x ← into_string v (ae_Entry b); Some (MkAdminEntryRequest x))]%string |}.
#[export] Instance Decodes_ownerProvision : Decodes ownerProvisionRequest :=
  {| body_zero := MkOwnerProvisionRequest [] [] [];
     body_fields := [("handle", λ v b, x ← into_string v (op_Handle b); Some (MkOwnerProvisionRequest x (op_SetName b) (op_ClientLabel b)));
                     ("set_name", λ v b, x ← into_string v (op_SetName b); Some (MkOwnerProvisionRequest (op_Handle b) x (op_ClientLabel b)));
                     ("client_label", λ v b, x ← into_string v (op_ClientLabel b); Some (MkOwnerProvisionRequest (op_Handle b) (op_SetName b) x))]%string |}.

(** src/internal/transport/http/device.go:34-39, maxDeviceRequestBody *)
Definition maxDeviceRequestBody : Z := 4096.
(** src/internal/transport/http/publickey.go:32-40, maxKeyRequestBody *)
Definition maxKeyRequestBody : Z := 65536.
(** src/internal/transport/http/keyset.go:37-41, maxKeySetRequestBody *)
Definition maxKeySetRequestBody : Z := 4096.
(** src/internal/transport/http/enrollment.go:35-40, maxEnrollRequestBody *)
Definition maxEnrollRequestBody : Z := 8192.
(** src/internal/transport/http/adminlists.go:53-57, maxAdminEntryBody *)
Definition maxAdminEntryBody : Z := 4096.
(** src/internal/transport/http/owneronboard.go:29-34, maxOwnerProvisionBody *)
Definition maxOwnerProvisionBody : Z := 4096.

(** ** Errors *)

Definition is_context_error (err : goerror) : bool := errors_is err context_Canceled || errors_is err context_DeadlineExceeded.

(** src/internal/transport/http/device.go:222-271, writeDeviceError *)
Definition writeDeviceError (h : headers) (err : goerror) : Response json :=
  if errors_is err ErrNotFound then writeError h 404
  else if errors_is err ErrBlockedName then writeError h 400
  else if errors_is err ErrInvalidInput then writeError h 400
  else writeError h 500.

(** src/internal/transport/http/publickey.go:220-262, writeKeyError *)
Definition writeKeyError (h : headers) (err : goerror) : Response json :=
  if errors_is err ErrNotFound then writeError h 404
  else if errors_is err pk_ErrDuplicate then writeError h 409
  else if errors_is err ErrInvalidInput then writeJSON h 400 (JOf (JKeyRejected err))
  else writeError h 500.

(** src/internal/transport/http/keyset.go:486-492, writeKeySetConflict *)
Definition writeKeySetConflict (h : headers) (reason : gostring) : Response json := writeJSON h 409 (JOf (JConflict reason)).

(** src/internal/transport/http/keyset.go:397-465, writeKeySetError
    (its last two branches differ in what they log) *)
Definition writeKeySetError (h : headers) (err : goerror) : Response json :=
  if errors_is err ErrNotFound then writeError h 404
  else if errors_is err ks_ErrDuplicate then writeKeySetConflict h (go "name_taken")
  else if errors_is err ks_ErrLimitExceeded then writeKeySetConflict h (go "limit_reached")
  else if errors_is err ErrDefaultSet then writeKeySetConflict h (go "default_set")
  else if errors_is err ErrConfirmationRequired then writeKeySetConflict h (go "confirmation_required")
  else if errors_is err ErrBlockedName || errors_is err ErrInvalidInput then writeError h 400
  else if is_context_error err then writeError h 500
  else writeError h 500.

(** src/internal/transport/http/enrollment.go:367-387, writeEnrollError *)
Definition writeEnrollError (h : headers) (err : goerror) : Response json :=
  if errors_is err ErrInvalidInput then writeError h 400 else writeError h 500.

(** src/internal/transport/http/adminlists.go:153-197, writeAdminListError *)
Definition writeAdminListError (h : headers) (err : goerror) : Response json :=
  if errors_is err ErrUnauthorized || errors_is err DomainErrors.ErrForbidden then writeError h 403
  else if errors_is err ErrInvalidInput then writeError h 400
  else if errors_is err ErrConflict then writeError h 409
  else if errors_is err ErrNotFound then writeError h 404
  else if is_context_error err then writeError h 500
  else writeError h 500.

(** src/internal/transport/http/owneronboard.go:117-158, writeOwnerProvisionError *)
Definition writeOwnerProvisionError (h : headers) (err : goerror) : Response json :=
  if errors_is err ErrUnauthorized || errors_is err DomainErrors.ErrForbidden then writeError h 403
  else if errors_is err ErrInvalidInput || errors_is err ErrBlockedName then writeError h 400
  else if errors_is err ErrConflict then writeError h 409
  else if is_context_error err then writeError h 500
  else writeError h 500.

Section api.
Context {S : Type} `{HS : !Store S} {K : Type} `{HK : !Ssh K} `{UF : !UnicodeFold} {U : UnicodeData}.
Abbreviation W := (world S).

(** The name guard of the running policy. *)
Definition w_guard (w : W) : option (option Matcher) := Some (Some (w_matcher w)).

(** A call of a service that works on the database and the counter store. *)
Definition on_service {B : Type} (m : service S → B * service S) (w : W) : B * W :=
  let '(r, s) := m (MkService (w_conn w) (w_store w)) in (r, MkWorld (svc_conn s) (svc_deny s) (w_matcher w)).

(** A handler whose service is not mounted. *)
Definition mounted (svc : bool) (hd : ScopedHandler json S) : ScopedHandler json S := λ e r h a w,
  if svc then hd e r h a w else (writeError h 500, w).

(** A handler that first decodes its body. *)
Definition decoding {B : Type} `{!Decodes B} (limit : Z) (r : Request) (h : headers) (next : B → W → Response json * W) (w : W) : Response json * W :=
  match decodeStrictJSON (B:=B) limit r with
  | Err _ => (writeError h 400, w)
  | Ok body => next body w
  end.

(** The answer to a service call on the database. *)
Definition answer {B : Type} (m : stM conn B) (failed : goerror → Response json) (served : B → Response json) (w : W) : Response json * W :=
  match on_db m w with
  | (Err err, w) => (failed err, w)
  | (Ok b, w) => (served b, w)
  end.

(** ** Devices *)

(** src/internal/transport/http/device.go:70-89, DeviceAccess *)
Definition DeviceAccess (r : Request) : result Access :=
  let id := PathValue r "deviceID" in
  if bool_decide (id = []) then Err ErrInvalidInput else Ok (MkAccess [] ResourceDevice id false).

(** src/internal/transport/http/device.go:292-302, toDeviceResponse *)
Definition toDeviceResponse (d : Device) : deviceResponse :=
  MkDeviceResponse (Device_ID d) (Device_Name d) (Device_Status d) (Device_CreatedAt d) (Device_UpdatedAt d) (Device_RevokedAt d).

(** src/internal/transport/http/device.go:91-125, registerDeviceHandler *)
Definition registerDeviceHandler (svc : bool) : ScopedHandler json S := mounted svc (λ e r h a,
  decoding maxDeviceRequestBody r h (λ body w,
    answer (dev_Register (w_guard w) (e_clock e 2) (e_id e) (e_stamp e) (Auth_owner a) (rd_Name body) (r_RequestID r))
      (writeDeviceError h) (λ d, writeJSON h 201 (JOf (JDevice (toDeviceResponse d)))) w)).

(** src/internal/transport/http/device.go:127-149, listDevicesHandler *)
Definition listDevicesHandler (svc : bool) : ScopedHandler json S := mounted svc (λ e r h a,
  answer (dev_List (Auth_owner a)) (writeDeviceError h) (λ ds, writeJSON h 200 (JOf (JDevices (toDeviceResponse <$> ds))))).

(** src/internal/transport/http/device.go:151-190, revokeDeviceHandler *)
Definition revokeDeviceHandler (svc : bool) : ScopedHandler json S := mounted svc (λ e r h a,
  answer (dev_Revoke (e_clock e 2) (e_stamp e) (Auth_owner a) (PathValue r "deviceID") (r_RequestID r))
    (writeDeviceError h) (λ _, MkResponse 204 h NoBody)).

(** ** Public keys *)

(** src/internal/transport/http/publickey.go:283-297, toPublicKeyResponse *)
Definition toPublicKeyResponse (k : PublicKey) : publicKeyResponse :=
  MkPublicKeyResponse (PublicKey_ID k) (PublicKey_DeviceID k) (PublicKey_Algorithm k) (PublicKey_Comment k) (PublicKey_Fingerprint k) (PublicKey_BitLen k)
    (PublicKey_Status k) (PublicKey_CreatedAt k) (PublicKey_UpdatedAt k) (PublicKey_RevokedAt k).

(** src/internal/transport/http/publickey.go:106-150, addKeyHandler *)
Definition addKeyHandler (svc : bool) : ScopedHandler json S := mounted svc (λ e r h a,
  decoding maxKeyRequestBody r h (λ body,
    answer (pk_Add (K:=K) (e_clock e 2) (e_id e) (e_stamp e) (Auth_owner a) (ak_DeviceID body) (ak_PublicKey body) (r_RequestID r))
      (writeKeyError h) (λ k, writeJSON h 201 (JOf (JKey (toPublicKeyResponse k)))))).

(** src/internal/transport/http/publickey.go:152-176, listKeysHandler *)
Definition listKeysHandler (svc : bool) : ScopedHandler json S := mounted svc (λ e r h a,
  answer (pk_List (Auth_owner a)) (writeKeyError h) (λ ks, writeJSON h 200 (JOf (JKeys (toPublicKeyResponse <$> ks))))).

(** src/internal/transport/http/publickey.go:178-208, revokeKeyHandler *)
Definition revokeKeyHandler (svc : bool) : ScopedHandler json S := mounted svc (λ e r h a,
  answer (pk_Revoke (e_clock e 2) (e_stamp e) (Auth_owner a) (PathValue r "keyID") (r_RequestID r))
    (writeKeyError h) (λ _, MkResponse 204 h NoBody)).

(** ** Key sets *)

(** src/internal/transport/http/keyset.go:136-162, KeySetAccess *)
Definition KeySetAccess (r : Request) : result Access :=
  let id := PathValue r "keySetID" in
  if bool_decide (id = []) then Err ErrInvalidInput else Ok (MkAccess [] ResourceKeySet id false).

(** src/internal/transport/http/keyset.go:494-504, toKeySetResponse *)
Definition toKeySetResponse (k : KeySet) : keySetResponse :=
  MkKeySetResponse (KeySet_ID k) (KeySet_Name k) (KeySet_Visibility k) (KeySet_IsDefault k) (KeySet_CreatedAt k) (KeySet_UpdatedAt k).

(** The service as it is wired: the running policy and the default limits. *)
Definition w_keysets (w : W) : ks_service := MkKsService (w_guard w) DefaultMaxSets ks_DefaultQuarantineWindow.

Definition served_set (h : headers) (status : Z) (k : KeySet) : Response json := writeJSON h status (JOf (JKeySet (toKeySetResponse k))).

(** src/internal/transport/http/keyset.go:164-199, createKeySetHandler *)
Definition createKeySetHandler (svc : bool) : ScopedHandler json S := mounted svc (λ e r h a,
  decoding maxKeySetRequestBody r h (λ body w,
    answer (ks_Create (w_keysets w) (e_clock e 2) (e_id e) (e_stamp e) (Auth_owner a) (ck_Name body) (r_RequestID r)) (writeKeySetError h) (served_set h 201) w)).

(** src/internal/transport/http/keyset.go:201-225, listKeySetsHandler *)
Definition listKeySetsHandler (svc : bool) : ScopedHandler json S := mounted svc (λ e r h a,
  answer (ks_List (Auth_owner a)) (writeKeySetError h) (λ ks, writeJSON h 200 (JOf (JKeySets (toKeySetResponse <$> ks))))).

(** src/internal/transport/http/keyset.go:227-266, renameKeySetHandler *)
Definition renameKeySetHandler (svc : bool) : ScopedHandler json S := mounted svc (λ e r h a,
  decoding maxKeySetRequestBody r h (λ body w,
    answer (ks_Rename (w_keysets w) (e_clock e 2) (e_id e) (e_stamp e) (Auth_owner a) (PathValue r "keySetID") (rk_Name body) (r_RequestID r))
      (writeKeySetError h) (served_set h 200) w)).

(** src/internal/transport/http/keyset.go:268-304, deleteKeySetHandler
    (an empty body leaves the request at its zero value) *)
Definition deleteKeySetHandler (svc : bool) : ScopedHandler json S := mounted svc (λ e r h a w,
  let delete confirm := answer (ks_Delete (e_stamp e) (Auth_owner a) (PathValue r "keySetID") confirm (r_RequestID r))
                          (writeKeySetError h) (λ _, MkResponse 204 h NoBody) w in
  match decodeStrictJSON (B:=deleteKeySetRequest) maxKeySetRequestBody r with
  | Err err => if errors_is err io_EOF then delete false else (writeError h 400, w)
  | Ok body => delete (dk_Confirm body)
  end).

(** src/internal/transport/http/keyset.go:306-344, setDefaultKeySetHandler *)
Definition setDefaultKeySetHandler (svc : bool) : ScopedHandler json S := mounted svc (λ e r h a,
  answer (ks_SetDefault (e_clock e 2) (e_stamp e) (Auth_owner a) (PathValue r "keySetID") (r_RequestID r)) (writeKeySetError h) (served_set h 200)).

(** [domain.Visibility(s)] *)
Definition Visibility_of (s : gostring) : Visibility :=
  if bool_decide (s = go "public") then VisibilityPublic else if bool_decide (s = go "protected") then VisibilityProtected else VisibilityOther s.

(** src/internal/transport/http/keyset.go:346-389, setVisibilityKeySetHandler *)
Definition setVisibilityKeySetHandler (svc : bool) : ScopedHandler json S := mounted svc (λ e r h a,
  decoding maxKeySetRequestBody r h (λ body,
    answer (ks_SetVisibility (e_clock e 2) (e_stamp e) (Auth_owner a) (PathValue r "keySetID") (Visibility_of (sv_Visibility body)) (r_RequestID r))
      (writeKeySetError h) (served_set h 200))).

(** ** Enrolment and tokens *)

(** src/internal/transport/http/enrollment.go:319-332, toDomainScopes *)
Definition toDomainScopes (l : list wireScope) : list Scope := (λ s, MkScope (ScopeKind_of (ws_Kind s)) (ws_ResourceID s)) <$> l.

(** src/internal/transport/http/enrollment.go:334-340, fromDomainScopes *)
Definition fromDomainScopes (l : list Scope) : list wireScope := (λ s, MkWireScope (ScopeKind_string (Scope_Kind s)) (Scope_ResourceID s)) <$> l.

(** src/internal/transport/http/enrollment.go:342-352, toGrantResponse *)
Definition toGrantResponse (g : Grant) : grantResponse :=
  MkGrantResponse (Grant_PairingID g) (Grant_DeviceCode g) (Grant_UserCode g) (Grant_ExpiresAt g) (Z.quot (Grant_PollInterval g) Second).

(** src/internal/transport/http/enrollment.go:354-365, toIssuedResponse *)
Definition toIssuedResponse (i : Issued) : issuedResponse :=
  MkIssuedResponse (Iss_RefreshToken i) (Iss_RefreshExpiresAt i) (Iss_AccessToken i) (Iss_AccessExpiresAt i) (Iss_OwnerID i) (fromDomainScopes (Iss_Scopes i)).

(** A handler behind the authentication limiter of the client's address. *)
Definition prechecked (svc : bool) (lim : option AuthLimiter) (proxies : trustedPeers)
    (next : AuthLimiter → gostring → handler json S) : handler json S := λ e r h w,
  match svc, lim with
  | true, Some lim =>
      let key := clientIP r proxies in
      match authPrecheck lim key e h w with
      | (Some resp, w) => (resp, w)
      | (None, w) => next lim key e r h w
      end
  | _, _ => (writeError h 500, w)
  end.

(** src/internal/transport/http/enrollment.go:104-135, startDeviceGrantHandler *)
Definition startDeviceGrantHandler (svc : bool) (lim : option AuthLimiter) (proxies : trustedPeers) : handler json S :=
  prechecked svc lim proxies (λ _ _ e r h,
    decoding maxEnrollRequestBody r h (λ body,
      answer (StartDeviceGrant (e_pair e) (e_clock e 2) (sg_ClientLabel body) (toDomainScopes (sg_Scopes body)))
        (writeEnrollError h) (λ g, writeJSON h 201 (JOf (JGrant (toGrantResponse g)))))).

(** src/internal/transport/http/enrollment.go:137-175, pollHandler *)
Definition pollHandler (svc : bool) (lim : option AuthLimiter) (proxies : trustedPeers) : handler json S :=
  prechecked svc lim proxies (λ _ _ e r h,
    decoding maxEnrollRequestBody r h (λ body w,
      let '(err, c) := Poll (e_clock e 2) (po_DeviceCode body) (w_conn w) in
      (match err with
       | None => writeJSON h 200 (JStatus (go "approved"))
       | Some err => if errors_is err errPollPending then writeJSON h 202 (JStatus (go "pending")) else writeError h 401
       end, put_conn c w))).

(** The clock readings of the services a redemption or an exchange runs through. *)
Definition later (e : env) : nat → time := λ n, e_clock e (20 + n).

(** The outcome of a credential check, fed back to the limiter. *)
Definition judged {B : Type} (lim : AuthLimiter) (key : gostring) (e : env) (refused : Response json) (served : B → Response json)
    (rw : result B * W) : Response json * W :=
  match rw with
  | (Err _, w) => (refused, recordAuthFailure lim key e w)
  | (Ok b, w) => (served b, recordAuthSuccess lim key e w)
  end.

(** src/internal/transport/http/enrollment.go:177-213, redeemHandler *)
Definition redeemHandler (svc : option AccessTokenSigner) (lim : option AuthLimiter) (proxies : trustedPeers) : handler json S :=
  prechecked (bool_decide (is_Some svc)) lim proxies (λ lim key e r h,
    decoding maxEnrollRequestBody r h (λ body w,
      match svc with
      | None => (writeError h 500, w)
      | Some signer =>
          judged lim key e (writeError h 401) (λ i, writeJSON h 200 (JOf (JIssued (toIssuedResponse i))))
            (on_service (Redeem signer (e_ent e) (e_ctx e) (later e) (e_clock e 2) (e_clock e 3) (rr_DeviceCode body)) w)
      end)).

(** src/internal/transport/http/token.go:34-75, exchangeHandler *)
Definition exchangeHandler (svc : option AccessTokenSigner) (lim : option AuthLimiter) (proxies : trustedPeers) : handler json S :=
  prechecked (bool_decide (is_Some svc)) lim proxies (λ lim key e r h,
    decoding maxEnrollRequestBody r h (λ body w,
      match svc with
      | None => (writeError h 500, w)
      | Some signer =>
          judged lim key e (writeError h 401) (λ i, writeJSON h 200 (JOf (JIssued (toIssuedResponse i))))
            (on_service (Exchange signer (e_ent e) (e_ctx e) (later e) (xr_RefreshToken body) (e_clock e 2)) w)
      end)).

(** src/internal/transport/http/enrollment.go:215-242, mintHandler *)
Definition mintHandler (svc : bool) : ScopedHandler json S := mounted svc (λ e r h a,
  decoding maxEnrollRequestBody r h (λ body,
    answer (mintInto (e_pair e) (e_clock e 2) (e_clock e 3) (Auth_owner a) (mr_ClientLabel body) (toDomainScopes (mr_Scopes body)))
      (writeEnrollError h) (λ g, writeJSON h 201 (JOf (JGrant (toGrantResponse g)))))).

(** src/internal/transport/http/enrollment.go:244-282, approveHandler *)
Definition approveHandler (svc : bool) (lim : option AuthLimiter) : ScopedHandler json S := λ e r h a w,
  match svc, lim with
  | true, Some lim =>
      let key := Auth_owner a in
      match authPrecheck lim key e h w with
      | (Some resp, w) => (resp, w)
      | (None, w) =>
          decoding maxEnrollRequestBody r h (λ body w,
            judged lim key e (writeError h 403) (λ _ : unit, MkResponse 204 h NoBody)
              (let '(err, w) := on_service (Approve (e_ctx e) (e_clock e 2) (e_clock e 3) (Auth_owner a) (ar_UserCode body)) w in
               (match err with Some err => Err err | None => Ok tt end, w))) w
      end
  | _, _ => (writeError h 500, w)
  end.

(** ** Administration *)

(** src/internal/transport/http/adminidentity.go:59-81, signedAdminIdentifier.AdministratorID *)
Definition signedAdminIdentifier (signer : AdminTokenSigner) : AdminIdentifier := λ e r,
  match bearerToken r with
  | None => []
  | Some token => match admin_Verify signer token (e_clock e 4) with Err _ => [] | Ok id => id end
  end.

(** src/internal/transport/http/adminlists.go:49-51, denyAllAdminIdentifier.AdministratorID *)
Definition denyAllAdminIdentifier : AdminIdentifier := λ _ _, [].

(** src/internal/transport/http/adminlists.go:66-119, adminListEdit
    (a successful edit replaces the matcher every service holds) *)
Definition adminListEdit (svc : bool) (id : AdminIdentifier) (op : listOp) : handler json S := λ e r h w,
  if svc then
    decoding maxAdminEntryBody r h (λ body w,
      match on_db (la_edit (w_matcher w) (e_clock e 2) (e_stamp e) (id e r) (ae_Entry body) op) w with
      | (Err err, w) => (writeAdminListError h err, w)
      | (Ok m, w) => (MkResponse 204 h NoBody, MkWorld (w_conn w) (w_store w) m)
      end) w
  else (writeError h 500, w).

(** src/internal/transport/http/owneronboard.go:58-115, adminCreateOwnerHandler *)
Definition adminCreateOwnerHandler (svc : bool) (id : AdminIdentifier) : handler json S := λ e r h w,
  if svc then
    decoding maxOwnerProvisionBody r h (λ body w,
      answer (ProvisionOwner (w_guard w) (e_ids e) (e_pair e) (e_clock e 2) (e_clock e 3) (e_clock e 5) (e_stamp e) (id e r)
                (MkOnboardRequest (op_Handle body) (op_SetName body) (op_ClientLabel body)))
        (writeOwnerProvisionError h)
        (λ '(setName, g), writeJSON h 201 (JOf (JOwner (MkOwnerProvisionResponse (id_owner (e_ids e)) (op_Handle body) setName
                             (Grant_DeviceCode g) (Grant_ExpiresAt g) (Grant_PairingID g))))) w) w
  else (writeError h 500, w).
End api.

(** Not every body with more after its value is refused: what follows a closing brace
    or bracket is not looked at.  The body [{"name":"x"}} and more] names a device. *)
Theorem trailing_brace_accepted {B : Type} `{!Decodes B} limit r (b : B) rest :
  json_body (take (Z.to_nat limit) (r_Body r)) = Ok (b, go "}" ++ rest) → decodeStrictJSON limit r = Ok b.
Proof. intros E. unfold decodeStrictJSON. by rewrite E. Qed.
Example trailing_brace_named : decodeStrictJSON (B:=registerDeviceRequest) maxDeviceRequestBody
    (MkRequest (go "POST") [] false [] [] (print (VObj [(go "name", VStr (go "x"))]) ++ go "} and more") [] []) = Ok (MkRegisterDeviceRequest (go "x")).
Proof. vm_compute. reflexivity. Qed.
