(* ===== verification/Isolation.v ===== *)
(** * Who a call can affect

    A calculus of frames: [within R m P] says that [m], whichever statements fail,
    changes the tables only as [R] allows and returns only what satisfies [P].  With it,
    every operation an owner can reach through the API is shown to leave the rows of all
    other owners alone ([owner_frame]), the enrolment calls anybody can make to touch
    pairings and credentials only, and the administrators' calls only what they
    administer. *)

From S2P Require Import Prelude DomainErrors GoLib Domain Counter Blocklist Sha256 Tokens Authz Database StoreLogic AuditLog KeyRepos AccessKey KeySets Handles Keys DeviceKeys TokenService PairingCode PairingRepo Authenticator Enrollment Administrators ListAdmin Onboarding.

Open Scope Z_scope.

(** ** Frames *)

Section calculus.
Context (R : relation db) `{HR : !PreOrder R}.

Definition within {A} (m : stM conn A) (P : A → Prop) : Prop :=
  ∀ d, wp false m d (λ r d', R d d' ∧ ∀ a, r = Ok a → P a).

Abbreviation anything := (λ _, True).

Lemma within_run {A} (m : stM conn A) P c r c' : within m P → m c = (r, c') → R (data c) (data c') ∧ ∀ a, r = Ok a → P a.
Proof. intros H E. exact (wp_run _ _ _ _ _ _ _ (H _) eq_refl ltac:(done) E). Qed.

Lemma within_weaken {A} (m : stM conn A) (P Q : A → Prop) : within m P → (∀ a, P a → Q a) → within m Q.
Proof. intros H HQ d. eapply wp_mono; [apply H|]. intros r d' [? Hp]. split; [done|]. intros a ->. by apply HQ, Hp. Qed.

Lemma within_ret {A} (a : A) (P : A → Prop) : P a → within (st_ret a) P.
Proof. intros H d. wp_step. split; [reflexivity|]. by intros ? [= <-]. Qed.
Lemma within_fail {A} e (P : A → Prop) : within (st_fail e) P.
Proof. intros d. wp_step. split; [reflexivity|done]. Qed.
Lemma within_ret_or {A} (r : result A) (P : A → Prop) : (∀ a, r = Ok a → P a) → within (ret_or r) P.
Proof. intros H. destruct r; [apply within_ret; auto|apply within_fail]. Qed.
Lemma within_query {A} (f : db → A) (P : A → Prop) : (∀ d, P (f d)) → within (query f) P.
Proof. intros H d. wp_step; (split; [reflexivity|]); [done|]. by intros ? [= <-]. Qed.
Lemma within_query_row {A} (f : db → option A) (P : A → Prop) : (∀ d a, f d = Some a → P a) → within (query_row f) P.
Proof. intros H d. wp_step; [split; [reflexivity|done]|]. destruct (f d) eqn:E; (split; [reflexivity|]); [intros ? [= <-]; eauto|done]. Qed.
Lemma within_exec f (P : Z → Prop) : (∀ d n d', f d = inr (n, d') → R d d' ∧ P n) → within (exec f) P.
Proof.
  intros H d. wp_step; [split; [reflexivity|done]|]. destruct (f d) as [e|[n d']] eqn:E; [split; [reflexivity|done]|].
  destruct (H _ _ _ E). split; [done|]. by intros ? [= <-].
Qed.
Lemma within_bind {A B} (m : stM conn A) (f : A → stM conn B) P Q : within m P → (∀ a, P a → within (f a) Q) → within (st_bind m f) Q.
Proof.
  intros Hm Hf d. wp_step. eapply wp_mono; [apply Hm|]. intros [a|e] d' [H Hp]; [|split; [done|done]].
  eapply wp_mono; [apply (Hf a), Hp; done|]. intros r d2 [H2 Hq]. split; [by etransitivity|done].
Qed.
Lemma within_try {A B} (m : stM conn A) (f : result A → stM conn B) P Q : within m P →
  (∀ r, (∀ a, r = Ok a → P a) → within (f r) Q) → within (st_try m f) Q.
Proof.
  intros Hm Hf d. wp_step. eapply wp_mono; [apply Hm|]. intros r d' [H Hp].
  eapply wp_mono; [apply (Hf r), Hp|]. intros r' d2 [H2 Hq]. split; [by etransitivity|done].
Qed.
Lemma within_WithTx {A} (m : stM conn A) P : within m P → within (WithTx m) P.
Proof.
  intros Hm d. wp_step; [split; [reflexivity|done]|]. eapply wp_mono; [apply Hm|]. intros [a|e] d' [H Hp]; [|split; [reflexivity|done]].
  split; [by split|]. intros _ e. split; [reflexivity|done].
Qed.
Lemma within_withLocalTx {A} tx (m : stM conn A) P : within m P → within (withLocalTx tx m) P.
Proof. intros Hm. destruct tx; [done|by apply within_WithTx]. Qed.
Lemma within_requireAffected n : within (requireAffected n) anything.
Proof. unfold requireAffected. destruct (_ =? _); [apply within_fail|by apply within_ret]. Qed.
Lemma within_wrapped {A} msg (m : stM conn A) P : within m P → within (wrapped msg m) P.
Proof. intros Hm. unfold wrapped. eapply within_try; [exact Hm|]. intros [a|e] Hp; [apply within_ret; auto|apply within_fail]. Qed.
Lemma within_quiet {A} (m : stM conn A) : quiet m → within m anything.
Proof. intros H d. eapply wp_mono; [by apply quiet_wp|]. intros r d' ->. split; [reflexivity|done]. Qed.
Lemma within_Emit {U : UnicodeData} st ev : (∀ d a, audits d !! stamp_id st = None → R d (set_audits <[stamp_id st := a]> d)) → within (Emit st ev) anything.
Proof. intros H d. apply wp_Emit; [intros; split; [reflexivity|done]|]. intros Hn _ _. split; [by apply H|done]. Qed.
End calculus.

(** Rows satisfying [P] are the same on both sides. *)
Definition untouched {I} `{Countable I} {A} (P : A → Prop) (t t' : gmap I A) : Prop := ∀ i x, P x → t !! i = Some x ↔ t' !! i = Some x.

#[export] Instance untouched_equiv {I} `{Countable I} {A} (P : A → Prop) : Equivalence (untouched (I:=I) P).
Proof.
  split; [by intros t i x|intros t t' H0 i x Hx; by rewrite (H0 i x Hx)|].
  intros t1 t2 t3 H1 H2 i x Hx. by rewrite (H1 i x Hx), (H2 i x Hx).
Qed.

Section untouched.
Context {I} `{Countable I} {A} (P : A → Prop).
Implicit Types t : gmap I A.

Lemma untouched_insert t i x : (∀ y, t !! i = Some y → ¬ P y) → ¬ P x → untouched P t (<[i := x]> t).
Proof.
  intros Hold Hnew j y Hy. rewrite lookup_insert_Some. split; [|by intros [[_ <-]|[_ ?]]].
  intros Hj. right. split; [|done]. intros ->. by apply (Hold y).
Qed.
Lemma untouched_new t i x : t !! i = None → ¬ P x → untouched P t (<[i := x]> t).
Proof. intros Hn. apply untouched_insert. by rewrite Hn. Qed.
Lemma untouched_delete t i : (∀ y, t !! i = Some y → ¬ P y) → untouched P t (delete i t).
Proof.
  intros Hold j y Hy. rewrite lookup_delete_Some. split; [|by intros [_ ?]]. intros Hj. split; [|done]. intros ->. by apply (Hold y).
Qed.
Lemma untouched_fmap t (f : A → A) : (∀ x, P x → f x = x) → (∀ x, P (f x) → f x = x) → untouched P t (f <$> t).
Proof.
  intros H1 H2 j y Hy. rewrite lookup_fmap. split.
  - intros ->. simpl. by rewrite H1.
  - intros (x & Hx & ->)%fmap_Some. by rewrite H2.
Qed.
End untouched.

(** ** What an owner's calls can change *)

Definition set_is_foreign (o : gostring) (s : gostring) (d : db) : Prop := ∃ k, keysets d !! s = Some k ∧ KeySet_OwnerID k ≠ o.

(** Everything that is not the owner's is as it was; the audit log only grows. *)
Record owner_frame (o : gostring) (d d' : db) : Prop := MkOwnerFrame {
  of_fixed : (owners d', handles d', creds d', salts d', admins d', overrides d') = (owners d, handles d, creds d, salts d, admins d, overrides d);
  of_devices : untouched (λ v, Device_OwnerID v ≠ o) (devices d) (devices d');
  of_pubkeys : untouched (λ k, PublicKey_OwnerID k ≠ o) (pubkeys d) (pubkeys d');
  of_keysets : untouched (λ s, KeySet_OwnerID s ≠ o) (keysets d) (keysets d');
  of_members : ∀ s k, set_is_foreign o s d → members d !! (s, k) = members d' !! (s, k);
  of_accesskeys : untouched (λ k, AccessKey_OwnerID k ≠ o) (accesskeys d) (accesskeys d');
  of_pairings : untouched (λ p, Pair_OwnerID p ≠ o ∧ Pair_Status p ≠ PairingStatusPending) (pairings d) (pairings d');
  of_links : untouched (λ l, Link_OwnerID l ≠ o) (links d) (links d');
  of_audits : audits d ⊆ audits d';
}.

Lemma set_is_foreign_frame o s d d' : owner_frame o d d' → set_is_foreign o s d ↔ set_is_foreign o s d'.
Proof. intros F. split; intros (k & Hk & Ho); exists k; (split; [|done]); by apply (of_keysets _ _ _ F). Qed.

#[export] Instance owner_frame_preorder o : PreOrder (owner_frame o).
Proof.
  split; [by split|]. intros d1 d2 d3 F G. pose proof (set_is_foreign_frame o) as Hs.
  split; try (by etransitivity; [apply F|apply G]); [by rewrite (of_fixed _ _ _ G), (of_fixed _ _ _ F)|].
  intros s k Hf. rewrite (of_members _ _ _ F) by done. apply (of_members _ _ _ G). by apply (Hs s d1 d2).
Qed.

Section tables.
Context (o : gostring) (d : db).

(** A frame for one table replaced. *)
Lemma frame_devices f : untouched (λ v, Device_OwnerID v ≠ o) (devices d) (f (devices d)) → owner_frame o d (set_devices f d).
Proof. intros Ht. by split. Qed.
Lemma frame_pubkeys f : untouched (λ k, PublicKey_OwnerID k ≠ o) (pubkeys d) (f (pubkeys d)) → owner_frame o d (set_pubkeys f d).
Proof. intros Ht. by split. Qed.
Lemma frame_keysets f : untouched (λ s, KeySet_OwnerID s ≠ o) (keysets d) (f (keysets d)) → owner_frame o d (set_keysets f d).
Proof. intros Ht. by split. Qed.
Lemma frame_members f : (∀ s k, set_is_foreign o s d → members d !! (s, k) = f (members d) !! (s, k)) → owner_frame o d (set_members f d).
Proof. intros Ht. by split. Qed.
Lemma frame_pairings f : untouched (λ p, Pair_OwnerID p ≠ o ∧ Pair_Status p ≠ PairingStatusPending) (pairings d) (f (pairings d)) → owner_frame o d (set_pairings f d).
Proof. intros Ht. by split. Qed.
Lemma frame_links f : untouched (λ l, Link_OwnerID l ≠ o) (links d) (f (links d)) → owner_frame o d (set_links f d).
Proof. intros Ht. by split. Qed.
Lemma frame_audits i a : audits d !! i = None → owner_frame o d (set_audits <[i := a]> d).
Proof. intros Hn. split; try done. by apply insert_subseteq. Qed.
End tables.

(** ** The statements an owner's calls run *)

Create HintDb frames.
#[export] Hint Resolve frame_devices frame_pubkeys frame_keysets frame_members frame_pairings frame_links frame_audits : frames.

Abbreviation anything := (λ _, True).

(** What is known of the result of a step: what its lemma says, the value a pure check
    yields, or nothing. *)
Ltac within_first :=
  first
    [ solve [eauto 3 with frames]
    | lazymatch goal with |- within _ (ret_or ?r) ?P => unify P (λ x, r = Ok x); apply within_ret_or; [typeclasses eauto|by intros ? ?] end
    | lazymatch goal with |- @within _ ?A _ ?P => unify P (λ _ : A, True) end ].

(** One step of a frame proof: the construct at the head of the program. *)
Ltac within_rule :=
  lazymatch goal with
  | |- within _ (st_ret _) _ => apply within_ret; [typeclasses eauto|]
  | |- within _ (st_fail _) _ => apply within_fail; typeclasses eauto
  | |- within _ (ret_or _) _ => apply within_ret_or; [typeclasses eauto|intros ? ?]
  | |- within _ (query _) _ => apply within_query; [typeclasses eauto|intros ?]
  | |- within _ (WithTx _) _ => apply within_WithTx; [typeclasses eauto|]
  | |- within _ (withLocalTx _ _) _ => apply within_withLocalTx; [typeclasses eauto|]
  | |- within _ (requireAffected _) _ => apply within_requireAffected; typeclasses eauto
  | |- within _ (wrapped _ _) _ => apply within_wrapped; [typeclasses eauto|]
  | |- within _ (st_bind _ _) _ => eapply within_bind; [typeclasses eauto|within_first|intros ? ?]
  | |- within _ (st_try _ _) _ => eapply within_try; [typeclasses eauto|within_first|intros ? ?]
  | |- within _ (if bool_decide ?P then _ else _) _ => destruct (bool_decide P)
  | |- within _ (if ?b then _ else _) _ => destruct b
  | |- within _ (match ?x with _ => _ end) _ => destruct x
  end.
Ltac within_go := repeat (cbn beta iota zeta; first [solve [eauto 3 with frames]|within_rule]).

Section statements.
Context (o : gostring).
Abbreviation mine := (within (owner_frame o)).

Lemma mine_exec f : (∀ d n d', f d = inr (n, d') → owner_frame o d d') → mine (exec f) anything.
Proof. intros Hf. apply within_exec; [typeclasses eauto|]. intros d n d' E. split; [eauto|done]. Qed.

Lemma mine_Emit {U : UnicodeData} st ev : mine (Emit st ev) anything.
Proof. apply within_Emit; [typeclasses eauto|]. auto with frames. Qed.

Lemma mine_device_Create v : Device_OwnerID v = o → mine (device_Create v) anything.
Proof.
  intros Ho. unfold device_Create. within_rule; [apply mine_exec|by within_rule].
  intros d n d'. destruct (devices d !! _) eqn:En; [done|]. destruct (owners d !! _); [|done]. destruct (DeviceStatus_IsValid _); [|done].
  intros [= _ <-]. apply frame_devices, untouched_new; [done|by intros []].
Qed.

(** A conditional update of one row the owner has. *)
Lemma mine_update_row {B} (set : (gmap gostring B → gmap gostring B) → db → db) (get : db → gmap gostring B) (own : B → gostring) sel cond upd id :
  (∀ d f, untouched (λ x, own x ≠ o) (get d) (f (get d)) → owner_frame o d (set f d)) →
  (∀ d a, sel d = Some a → get d !! id = Some a ∧ own a = o) → (∀ a, own (upd a) = own a) →
  mine (update_row set sel cond upd id) anything.
Proof.
  intros Hset Hsel Hupd. unfold update_row. apply mine_exec. intros d n d'. destruct (sel d) as [a|] eqn:Es; [|by intros [= _ <-]].
  destruct (Hsel _ _ Es) as [Ha Ho]. destruct (cond a); intros [= _ <-]; [|done].
  apply Hset, untouched_insert; [|by rewrite Hupd, Ho; intros []]. rewrite Ha. intros y [= <-]. by intros [].
Qed.

Lemma mine_device_Get id : mine (device_Get o id) (λ v, Device_OwnerID v = o).
Proof. apply within_query_row; [typeclasses eauto|]. intros d a Ha. by apply of_owner_Some in Ha as [_ ?]. Qed.
Lemma mine_device_Revoke id now : mine (device_Revoke o id now) anything.
Proof.
  unfold device_Revoke. within_rule; [|within_rule]. apply (mine_update_row _ devices Device_OwnerID); [apply frame_devices| |done].
  intros d a Ha. by apply of_owner_Some in Ha.
Qed.

Lemma mine_pubkey_Create k : PublicKey_OwnerID k = o → mine (pubkey_Create k) anything.
Proof.
  intros Ho. unfold pubkey_Create. within_rule; [apply mine_exec|by within_rule].
  intros d n d'. destruct (pubkeys d !! _) eqn:En; [done|]. destruct (same_fingerprint _ _); [|done]. destruct (owners d !! _); [|done].
  destruct (owned_device _ _ _); [|done]. destruct (KeyStatus_IsValid _); [|done]. intros [= _ <-]. apply frame_pubkeys, untouched_new; [done|by intros []].
Qed.
Lemma mine_pubkey_Revoke id now : mine (pubkey_Revoke o id now) anything.
Proof.
  unfold pubkey_Revoke. within_rule; [|within_rule]. apply (mine_update_row _ pubkeys PublicKey_OwnerID); [apply frame_pubkeys| |done].
  intros d a Ha. by apply of_owner_Some in Ha.
Qed.

Lemma mine_keyset_Create k : KeySet_OwnerID k = o → mine (keyset_Create k) anything.
Proof.
  intros Ho. unfold keyset_Create. within_rule; [apply mine_exec|by within_rule].
  intros d n d'. destruct (keysets d !! _) eqn:En; [done|]. destruct (named_set _ _ _); [|done]. destruct (_ && _); [done|]. destruct (negb _); [done|].
  destruct (owners d !! _); [|done]. intros [= _ <-]. apply frame_keysets, untouched_new; [done|by intros []].
Qed.

Lemma owned_set_mine id d k : owned_set o id d = Some k → keysets d !! id = Some k ∧ KeySet_OwnerID k = o.
Proof. intros Hk. by apply of_owner_Some in Hk. Qed.

Lemma mine_keyset_Get id : mine (keyset_Get o id) (λ k, KeySet_OwnerID k = o).
Proof. apply within_query_row; [typeclasses eauto|]. intros d a Ha. by apply owned_set_mine in Ha as [_ ?]. Qed.
Lemma mine_keyset_Update k : KeySet_OwnerID k = o → mine (keyset_Update k) anything.
Proof.
  intros Ho. unfold keyset_Update. within_rule; [apply mine_exec|within_rule].
  intros d n d'. rewrite Ho. destruct (owned_set _ _ _) as [old|] eqn:Es; [|by intros [= _ <-]]. apply owned_set_mine in Es as [Hk Hold].
  destruct (_ && _); [|done]. intros [= _ <-]. apply frame_keysets, untouched_insert; [|by intros []]. rewrite Hk. intros y [= <-]. by intros [].
Qed.
Lemma mine_keyset_SetDefault tx id : mine (keyset_SetDefault tx o id) anything.
Proof.
  unfold keyset_SetDefault. within_rule. within_rule; [apply mine_exec|within_rule; [|within_rule]].
  - intros d n d' [= _ <-]. apply frame_keysets, untouched_fmap; intros k Hk; unfold clear_default in *.
    + by rewrite bool_decide_eq_false_2.
    + destruct (bool_decide_reflect (KeySet_OwnerID k = o)); [|done]. destruct (KeySet_IsDefault k); simpl in *; [by destruct Hk|done].
  - apply (mine_update_row _ keysets KeySet_OwnerID); [apply frame_keysets| |done]. intros d k Hk. by apply owned_set_mine.
Qed.
Lemma mine_keyset_AddMember setID keyID now : mine (keyset_AddMember o setID keyID now) anything.
Proof.
  unfold keyset_AddMember. within_rule; [apply mine_exec|within_rule]. intros d n d'. destruct (owned_set _ _ _) as [k|] eqn:Es; [|by intros [= _ <-]].
  apply owned_set_mine in Es as [Hk Ho]. destruct (owned_pubkey _ _ _); [|by intros [= _ <-]]. destruct (members d !! _); [done|]. intros [= _ <-].
  apply frame_members. intros s k' (k2 & Hk2 & Hno). rewrite lookup_insert_ne; [done|]. intros [= <- <-]. congruence.
Qed.

(** Members go before their set does: only if the set is the owner's. *)
Lemma mine_keyset_Delete tx id : mine (keyset_Delete tx o id) anything.
Proof.
  unfold keyset_Delete. within_rule. intros d. wp_step. wp_step; [by split|].
  destruct (owned_set o id d) as [k|] eqn:Es; simpl; [|by split]. apply owned_set_mine in Es as [Hk Ho]. destruct (KeySet_IsDefault k); [wp_step; by split|].
  wp_step. wp_step; [by split|]. cbn beta iota. assert (owner_frame o d (set_members (filter (λ km, km.1.1 ≠ id)) d)) as F.
  { apply frame_members. intros s k' (k2 & Hk2 & Hno). assert (s ≠ id) as Hne by congruence. symmetry.
    destruct (members d !! (s, k')) eqn:E; [by apply map_lookup_filter_Some|]. apply map_lookup_filter_None. by left. }
  wp_step. wp_step; [by split|]. unfold owned_set. cbn [keysets set_members]. rewrite Hk. simpl. rewrite bool_decide_eq_true_2 by done.
  destruct (_ && _); [|by split]. wp_step; (split; [|done]); (etransitivity; [exact F|]);
    apply frame_keysets, untouched_delete; cbn [keysets set_members]; rewrite Hk; intros y [= <-]; by intros [].
Qed.

Lemma mine_pair_Create p : Pair_OwnerID p = o → mine (pair_Create p) anything.
Proof.
  intros Ho. unfold pair_Create. within_rule; [apply mine_exec|by within_rule]. intros d n d'. destruct (pairings d !! _) eqn:En; [done|].
  destruct (PairingStatus_IsValid _); [|done]. intros [= _ <-]. apply frame_pairings, untouched_new; [done|by intros [[] _]].
Qed.
Lemma mine_pair_Approve id now : mine (pair_Approve id o now) anything.
Proof.
  unfold pair_Approve. within_rule; [apply mine_exec|].
  - intros d n d'. destruct (pairings d !! id) as [p|] eqn:Ep; [|by intros [= _ <-]].
    destruct (bool_decide_reflect (Pair_Status p = PairingStatusPending)) as [Hp|]; [|by intros [= _ <-]].
    intros [= _ <-]. apply frame_pairings, untouched_insert; [|by intros [[] _]]. rewrite Ep. intros y [= <-]. by intros [_ []].
  - unfold classifyByID. within_rule; [by within_rule|]. within_rule; [apply within_query_row; [typeclasses eauto|done]|within_rule].
Qed.
Lemma mine_link_Create l : Link_OwnerID l = o → mine (link_Create l) anything.
Proof.
  intros Ho. unfold link_Create. within_rule; [apply mine_exec|by within_rule]. intros d n d'. destruct (links d !! _) eqn:En; [done|].
  destruct (links_of _ _ _); [|done]. destruct (owners d !! _); [|done]. intros [= _ <-]. apply frame_links, untouched_new; [done|by intros []].
Qed.
End statements.
#[export] Hint Resolve mine_Emit mine_device_Create mine_device_Get mine_device_Revoke mine_pubkey_Create mine_pubkey_Revoke mine_keyset_Create
  mine_keyset_Get mine_keyset_Update mine_keyset_SetDefault mine_keyset_AddMember mine_keyset_Delete mine_pair_Create mine_pair_Approve mine_link_Create : frames.

(** ** The services *)

Section services.
Context `{UF : !UnicodeFold} {U : UnicodeData} {K : Type} `{HK : !Ssh K} (o : gostring).
Abbreviation mine := (within (owner_frame o)).

Lemma mine_dev_Register guard now newID st name requestID : mine (dev_Register guard now newID st o name requestID) anything.
Proof. unfold dev_Register, dev_emit. within_go. Qed.
Lemma mine_dev_List : mine (dev_List o) anything.
Proof. unfold dev_List, device_ListByOwner. within_go. Qed.
Lemma mine_dev_Revoke now st id requestID : mine (dev_Revoke now st o id requestID) anything.
Proof. unfold dev_Revoke, dev_emit. within_go. Qed.

Lemma mine_pk_device deviceID : mine (pk_device o deviceID) anything.
Proof. unfold pk_device. within_go. Qed.
Hint Resolve mine_pk_device : frames.
Lemma mine_pk_Add now newID st deviceID raw requestID : mine (pk_Add (K:=K) now newID st o deviceID raw requestID) anything.
Proof. unfold pk_Add, pk_emit. within_go. Qed.
Lemma mine_pk_List : mine (pk_List o) anything.
Proof. unfold pk_List, pubkey_ListByOwner. within_go. Qed.
Lemma mine_pubkey_Get id : mine (pubkey_Get o id) anything.
Proof. apply within_query_row; [typeclasses eauto|done]. Qed.
Hint Resolve mine_pubkey_Get : frames.
Lemma mine_pk_Revoke now st id requestID : mine (pk_Revoke now st o id requestID) anything.
Proof. unfold pk_Revoke, pk_emit. within_go. Qed.

Lemma mine_ListMembers id : mine (keyset_ListMembers o id) anything.
Proof. unfold keyset_ListMembers. within_go. Qed.
Lemma mine_ListByOwner : mine (keyset_ListByOwner o) anything.
Proof. unfold keyset_ListByOwner. within_go. Qed.
Lemma mine_CountByOwner : mine (keyset_CountByOwner o) anything.
Proof. unfold keyset_CountByOwner. within_go. Qed.
Lemma mine_LockOwner : mine (keyset_LockOwnerForCreate o) anything.
Proof. unfold keyset_LockOwnerForCreate. within_go. Qed.
Lemma mine_GetDefault : mine (keyset_GetDefault o) anything.
Proof. by apply within_query_row; [typeclasses eauto|]. Qed.
Hint Resolve mine_ListMembers mine_ListByOwner mine_CountByOwner mine_LockOwner mine_GetDefault : frames.

Lemma ks_live_Ok r k : ks_live r = Ok k → r = Ok k.
Proof. unfold ks_live. destruct r as [k'|e]; [|by destruct (errors_is e _)]. by case_bool_decide. Qed.

Lemma mine_createLocked s k : KeySet_OwnerID k = o → mine (createLocked s o k) anything.
Proof. intros Ho. unfold createLocked. within_go. Qed.
Hint Resolve mine_createLocked : frames.

Lemma mine_ks_Create s now newID st name requestID : mine (ks_Create s now newID st o name requestID) anything.
Proof. unfold ks_Create, ks_emit. within_go. Qed.
Lemma mine_ks_List : mine (ks_List o) anything.
Proof. unfold ks_List. within_go. Qed.
Lemma mine_copy_members newID now ms : mine (copy_members o newID now ms) anything.
Proof. induction ms as [|m ms IH]; simpl; within_go. Qed.
Hint Resolve mine_copy_members : frames.

(** The set read for an owner is the owner's. *)
Lemma live_mine (r : result KeySet) k : (∀ a, r = Ok a → KeySet_OwnerID a = o) → ks_live r = Ok k → KeySet_OwnerID k = o.
Proof. intros Hr Hk. by apply Hr, ks_live_Ok. Qed.

Lemma mine_rename_tx s now newID id name requestID : mine (ks_rename_tx s now newID o id name requestID) anything.
Proof.
  unfold ks_rename_tx. within_go. apply mine_keyset_Update. simpl. by eapply live_mine.
Qed.
Lemma mine_delete_tx id confirm requestID : mine (ks_delete_tx o id confirm requestID) anything.
Proof. unfold ks_delete_tx. within_go. Qed.
Lemma mine_default_tx now id requestID : mine (default_tx now o id requestID) anything.
Proof. unfold default_tx. within_go. Qed.
Lemma mine_visibility_tx now id v requestID : mine (visibility_tx now o id v requestID) anything.
Proof. unfold visibility_tx. within_go. apply mine_keyset_Update. simpl. by eapply live_mine. Qed.
Hint Resolve mine_rename_tx mine_delete_tx mine_default_tx mine_visibility_tx : frames.

Lemma mine_ks_Rename s now newID st id name requestID : mine (ks_Rename s now newID st o id name requestID) anything.
Proof. unfold ks_Rename, ks_emit. within_go. Qed.
Lemma mine_ks_Delete st id confirm requestID : mine (ks_Delete st o id confirm requestID) anything.
Proof. unfold ks_Delete, ks_emit. within_go. Qed.
Lemma mine_ks_SetDefault now st id requestID : mine (ks_SetDefault now st o id requestID) anything.
Proof. unfold ks_SetDefault, ks_emit. within_go. Qed.
Lemma mine_ks_SetVisibility now st id v requestID : mine (ks_SetVisibility now st o id v requestID) anything.
Proof. unfold ks_SetVisibility, ks_emit. within_go. Qed.

Lemma mine_enroll_link id now : mine (enroll_link id o now) anything.
Proof. unfold enroll_link. within_go. Qed.
Lemma mine_enroll_create ent now dr code : dr_OwnerID dr = o → mine (enroll_create ent now dr code) anything.
Proof. intros Ho. unfold enroll_create. within_go. Qed.
Hint Resolve mine_enroll_link mine_enroll_create : frames.
Lemma mine_mintInto ent approved now label scopes : mine (mintInto ent approved now o label scopes) anything.
Proof. unfold mintInto. within_go. Qed.
End services.

(** Calls on the database and the counter store: what they do to the database. *)
Section service_calls.
Context {S : Type} `{!Store S}.

Definition svc_within (R : relation db) {A} (m : service S → A * service S) : Prop :=
  ∀ w r w', m w = (r, w') → R (data (svc_conn w)) (data (svc_conn w')).

Lemma svc_on_conn (R : relation db) `{!PreOrder R} {A} (m : stM conn A) P (w : service S) r w' : within R m P → on_conn m w = (r, w') →
  R (data (svc_conn w)) (data (svc_conn w')) ∧ ∀ a, r = Ok a → P a.
Proof. intros Hm [E _]%on_conn_inv. by apply (within_run R m P _ _ _ Hm). Qed.

(** An approval binds a pending pairing to the owner who approves. *)
Lemma mine_Approve ctx t now o code : svc_within (owner_frame o) (Approve ctx t now o code).
Proof.
  intros w r w'. unfold Approve. case_bool_decide; [by intros [= _ <-]|]. destruct (checkApprovalLimit _ _ _ _) as [[e|] s]; [by intros [= _ <-]|].
  destruct (normalizeUserCode code) as [norm|]; [|by intros [= _ <-]].
  assert (quiet (pair_GetByUserCodeHash (hashUserCode norm))) as Hq by (unfold pair_GetByUserCodeHash; auto with quiet).
  destruct (on_conn (pair_GetByUserCodeHash _) _) as [[p|] w1] eqn:E1; apply (svc_on_conn (owner_frame o) _ anything) in E1 as [F1 _];
    try (apply within_quiet; first [exact Hq|typeclasses eauto]); cbn [svc_conn] in *; [|by intros [= _ <-]].
  destruct (negb _); [by intros [= _ <-]|]. destruct (negb _); [by intros [= _ <-]|].
  destruct (on_conn (pair_Approve _ _ _) _) as [[[]|] w2] eqn:E2; apply (svc_on_conn (owner_frame o) _ anything) in E2 as [F2 _];
    try apply mine_pair_Approve; [|intros [= _ <-]; by etransitivity].
  destruct (on_conn (enroll_link _ _ _) _) as [[[]|] w3] eqn:E3; apply (svc_on_conn (owner_frame o) _ anything) in E3 as [F3 _];
    try apply mine_enroll_link; intros [= _ <-]; (etransitivity; [exact F1|by etransitivity]).
Qed.
End service_calls.

(** ** What anybody's enrolment calls can change *)

(** All tables but pairings and credentials. *)
Definition beyond_sessions (d : db) := (owners d, links d, handles d, devices d, pubkeys d, keysets d, (members d, accesskeys d, audits d, salts d, admins d, overrides d)).

Definition session_frame (d d' : db) : Prop := beyond_sessions d' = beyond_sessions d.
#[export] Instance session_frame_preorder : PreOrder session_frame.
Proof. split; [done|]. unfold session_frame. intros d1 d2 d3 H1 H2. congruence. Qed.

Section sessions.
Context {S : Type} `{!Store S}.
Abbreviation sess := (within session_frame).

Lemma sess_exec f : (∀ d n d', f d = inr (n, d') → session_frame d d') → sess (exec f) anything.
Proof. intros Hf. apply within_exec; [typeclasses eauto|]. eauto. Qed.
Lemma sess_quiet {A} (m : stM conn A) : quiet m → sess m anything.
Proof. apply within_quiet. typeclasses eauto. Qed.
Lemma sess_lift {A} (r : result A) : sess (lift r) anything.
Proof. destruct r; [apply within_ret|apply within_fail]; done || typeclasses eauto. Qed.
Hint Resolve sess_lift : frames.

Ltac by_rows := intros d n d'; repeat case_match; intros; simplify_eq; done.

Lemma sess_pair_Create p : sess (pair_Create p) anything.
Proof. unfold pair_Create. within_rule; [apply sess_exec; by_rows|by within_rule]. Qed.
Lemma sess_pair_Touch id next : sess (pair_Touch id next) anything.
Proof. unfold pair_Touch, update_pairing. within_rule; [apply sess_exec; by_rows|within_rule]. Qed.
Lemma sess_pair_MarkRedeemed o id lineage now : sess (pair_MarkRedeemed o id lineage now) anything.
Proof.
  unfold pair_MarkRedeemed, update_pairing. within_rule; [apply sess_exec; by_rows|]. apply sess_quiet. unfold classifyByOwner. auto with quiet.
Qed.
Lemma sess_cred_Create c : sess (cred_Create c) anything.
Proof. unfold cred_Create. within_rule; [apply sess_exec; by_rows|by within_rule]. Qed.
Lemma sess_cred_MarkRotated o id now : sess (cred_MarkRotated o id now) anything.
Proof. unfold cred_MarkRotated. within_rule; [apply sess_exec; by_rows|]. apply sess_quiet. unfold classifyConditional. auto with quiet. Qed.
Lemma sess_cred_RevokeLineage o lineage now : sess (cred_RevokeLineage o lineage now) anything.
Proof. apply sess_exec. by intros d n d' [= _ <-]. Qed.
Hint Resolve sess_pair_Create sess_cred_Create sess_cred_MarkRotated sess_cred_RevokeLineage : frames.

Lemma sess_StartDeviceGrant ent now label scopes : sess (StartDeviceGrant ent now label scopes) anything.
Proof. unfold StartDeviceGrant, enroll_create. within_go. Qed.
Lemma sess_service_Issue signer ent o scopes label now : sess (service_Issue signer ent o scopes label now) anything.
Proof. unfold service_Issue. within_go. Qed.
Lemma sess_revokeLineage cred now : sess (service_revokeLineage cred now) anything.
Proof. unfold service_revokeLineage, cred_ListByLineage. within_go. Qed.
Hint Resolve sess_revokeLineage : frames.
Lemma sess_exchange_active signer ent cred now : sess (exchange_active signer ent cred now) anything.
Proof. unfold exchange_active. within_go. Qed.
Hint Resolve sess_exchange_active : frames.
Lemma sess_exchange_tx signer ent id secret now : sess (exchange_tx signer ent id secret now) anything.
Proof.
  assert (sess (cred_GetByID id) anything) by (apply sess_quiet; unfold cred_GetByID; auto with quiet).
  assert (∀ o, sess (owner_Get o) anything) by (intros; apply sess_quiet; unfold owner_Get; auto with quiet).
  unfold exchange_tx. within_go.
Qed.

Lemma sess_Exchange signer ent ctx clock presented now : svc_within (S:=S) session_frame (Exchange signer ent ctx clock presented now).
Proof.
  intros w r w'. unfold Exchange. destruct (parseRefreshToken _) as [[id secret]|]; [|by intros [= _ <-]].
  destruct (WithTx _ _) as [r1 c1] eqn:E1. apply (within_run session_frame _ anything) in E1 as [F _];
    [|apply within_WithTx; [typeclasses eauto|apply sess_exchange_tx]].
  destruct r1 as [[out revoked]|]; [destruct out|]; by intros [= _ <-].
Qed.

Lemma sess_enroll_revokeLineage ctx clock o lineage now (w : service S) :
  session_frame (data (svc_conn w)) (data (svc_conn (enroll_revokeLineage ctx clock o lineage now w))).
Proof.
  unfold enroll_revokeLineage. destruct (on_conn (cred_RevokeLineage _ _ _) _) as [[n|] w1] eqn:E1; apply (svc_on_conn session_frame _ anything) in E1 as [F1 _];
    try apply sess_cred_RevokeLineage; [|done].
  destruct (on_conn (cred_ListByLineage _ _) _) as [[l|] w2] eqn:E2; apply (svc_on_conn session_frame _ anything) in E2 as [F2 _];
    try (apply sess_quiet; unfold cred_ListByLineage; auto with quiet); simpl; by etransitivity.
Qed.

Lemma sess_Redeem signer ent ctx clock t now code : svc_within (S:=S) session_frame (Redeem signer ent ctx clock t now code).
Proof.
  intros w r w'. unfold Redeem. destruct (parseDeviceCode code) as [[id secret]|]; [|by intros [= _ <-]].
  destruct (on_conn (Authenticate _ _ _) _) as [[o|] w1] eqn:E1; apply (svc_on_conn session_frame _ anything) in E1 as [F1 _];
    try (apply sess_quiet, quiet_Authenticate); [|by intros [= _ <-]].
  destruct (on_conn (pair_Get _ _) _) as [[p|] w2] eqn:E2; apply (svc_on_conn session_frame _ anything) in E2 as [F2 _];
    try (apply sess_quiet; unfold pair_Get; auto with quiet); [|intros [= _ <-]; by etransitivity].
  assert (session_frame (data (svc_conn w)) (data (svc_conn w2))) as F by (by etransitivity).
  destruct (_ || _); [by intros [= _ <-]|]. destruct (ValidateScopes _); [by intros [= _ <-]|].
  destruct (on_conn (service_Issue _ _ _ _ _ _) _) as [[i|] w3] eqn:E3; apply (svc_on_conn session_frame _ anything) in E3 as [F3 _];
    try apply sess_service_Issue; [|intros [= _ <-]; by etransitivity].
  destruct (on_conn (pair_MarkRedeemed _ _ _ _) _) as [[[]|] w4] eqn:E4; apply (svc_on_conn session_frame _ anything) in E4 as [F4 _];
    try apply sess_pair_MarkRedeemed; intros [= _ <-]; (etransitivity; [exact F|]); (etransitivity; [exact F3|]); [done|].
  etransitivity; [exact F4|]. apply sess_enroll_revokeLineage.
Qed.

Lemma sess_Poll now code c r c' : Poll now code c = (r, c') → session_frame (data c) (data c').
Proof.
  unfold Poll. destruct (parseDeviceCode code) as [[id secret]|]; [|by intros [= _ <-]].
  destruct (pair_GetByID id c) as [[p|] c1] eqn:E1; apply (within_run session_frame _ anything) in E1 as [F1 _];
    try (apply sess_quiet; unfold pair_GetByID; auto with quiet); [|by intros [= _ <-]].
  do 3 (destruct (negb _); [by intros [= _ <-]|]).
  destruct (pair_Touch id _ c1) as [r2 c2] eqn:E2. pose proof (within_run session_frame _ anything _ _ _ (sess_pair_Touch _ _) E2) as [F2 _].
  destruct (time_before _ _); [intros [= _ <-]; simpl; by etransitivity|]. destruct r2; intros [= _ <-]; by etransitivity.
Qed.
End sessions.

(** ** What an administrator's calls can change *)

(** Rows may be added to the account tables and the log, and list overrides change; no
    row that was there changes, and nobody's keys, devices or credentials. *)
Record admin_frame (d d' : db) : Prop := MkAdminFrame {
  af_fixed : (creds d', devices d', pubkeys d', members d', accesskeys d', salts d', admins d') = (creds d, devices d, pubkeys d, members d, accesskeys d, salts d, admins d);
  af_owners : owners d ⊆ owners d';
  af_handles : handles d ⊆ handles d';
  af_keysets : keysets d ⊆ keysets d';
  af_pairings : pairings d ⊆ pairings d';
  af_links : links d ⊆ links d';
  af_audits : audits d ⊆ audits d';
}.
#[export] Instance admin_frame_preorder : PreOrder admin_frame.
Proof.
  split; [by split|]. intros d1 d2 d3 F G. split; try (by etransitivity; [apply F|apply G]). by rewrite (af_fixed _ _ G), (af_fixed _ _ F).
Qed.

Section admins.
Context `{UF : !UnicodeFold} {U : UnicodeData}.
Abbreviation adm := (within admin_frame).

Lemma adm_Emit st ev : adm (Emit st ev) anything.
Proof. apply within_Emit; [typeclasses eauto|]. intros d a Hn. split; try done. by apply insert_subseteq. Qed.
Lemma adm_override_Put o : adm (override_Put o) anything.
Proof.
  unfold override_Put. within_go. apply within_exec; [typeclasses eauto|]. intros d n d' [= _ <-]. by split.
Qed.
Hint Resolve adm_Emit adm_override_Put : frames.

Lemma la_edit_framed m now st actor entry op d :
  wp false (la_edit m now st actor entry op) d (λ _ d', d' = d ∨ actor ≠ [] ∧ active_admin actor d ∧ admin_frame d d').
Proof.
  unfold la_edit. destruct (validateEntry entry); [wp_step; by left|]. wp_step. apply wp_authorize; [intros; by left|]. intros a Hne Ha Hs.
  assert (active_admin actor d) as Hadm by by exists a.
  assert (∀ A (k : stM conn A), adm k anything → wp false k d (λ _ d', d' = d ∨ actor ≠ [] ∧ active_admin actor d ∧ admin_frame d d')) as Hk.
  { intros A k Hw. eapply wp_mono; [apply Hw|]. intros r d' [F _]. by right. }
  apply Hk. unfold la_audit, la_persist. within_go.
Qed.

Ltac adm_new := intros d n d'; repeat case_match; intros; simplify_eq; split; [|done]; split; try done; by apply insert_subseteq.

Lemma adm_owner_Create o : adm (owner_Create o) anything.
Proof. unfold owner_Create. within_go. apply within_exec; [typeclasses eauto|]. adm_new. Qed.
Lemma adm_keyset_Create k : adm (keyset_Create k) anything.
Proof. unfold keyset_Create. within_go. apply within_exec; [typeclasses eauto|]. adm_new. Qed.
Lemma adm_pair_Create p : adm (pair_Create p) anything.
Proof. unfold pair_Create. within_go. apply within_exec; [typeclasses eauto|]. adm_new. Qed.
Lemma adm_link_Create l : adm (link_Create l) anything.
Proof. unfold link_Create. within_go. apply within_exec; [typeclasses eauto|]. adm_new. Qed.
Lemma adm_handle_Register h : adm (handle_Register h) anything.
Proof. intros d. apply wp_Register; [by split|]. intros Hn _. split; [|done]. split; try done. by apply insert_subseteq. Qed.
Hint Resolve adm_owner_Create adm_keyset_Create adm_pair_Create adm_link_Create adm_handle_Register : frames.
Lemma adm_mintInto ent approved now o label scopes : adm (mintInto ent approved now o label scopes) anything.
Proof. unfold mintInto, enroll_create, enroll_link. within_go. Qed.
Lemma adm_open_account ids handle setName now : adm (open_account ids handle setName now) anything.
Proof. unfold open_account. within_go. Qed.
Hint Resolve adm_mintInto adm_open_account : frames.

Lemma ProvisionOwner_framed guard ids ent now approved minted st actor req d :
  wp false (ProvisionOwner guard ids ent now approved minted st actor req) d (λ _ d', d' = d ∨ actor ≠ [] ∧ active_admin actor d ∧ admin_frame d d').
Proof.
  unfold ProvisionOwner. wp_step. apply wp_ob_authorize; [intros; by left|]. intros Hne Hadm.
  assert (∀ A (k : stM conn A), adm k anything → wp false k d (λ _ d', d' = d ∨ actor ≠ [] ∧ active_admin actor d ∧ admin_frame d d')) as Hk.
  { intros A k Hw. eapply wp_mono; [apply Hw|]. intros r d' [F _]. by right. }
  apply Hk. within_go.
Qed.
End admins.
