(* ===== verification/HttpRouter.v ===== *)
(** * The server

    [internal/transport/http/router.go]: the route table over a model of Go's
    [http.ServeMux], and the whole handler with its middlewares.  Its theorems put the
    parts together: who a request can affect, and that every name an owner can have is
    reachable. *)

From S2P Require Import Prelude DomainErrors GoLib NetIP GoJson Domain Counter RateLimit Blocklist Sha256 Tokens Authz Database StoreLogic AuditLog KeyRepos AccessKey KeySets Handles Keys DeviceKeys Publish TokenService PairingCode Enrollment Administrators ListAdmin Onboarding HttpEdge HttpApi Isolation.

Open Scope Z_scope.

(** ** The multiplexer *)

(** A segment of a pattern: a literal, or a wildcard that matches one segment. *)
Inductive segment := Lit (s : gostring) | Wild (name : gostring).

(** A pattern with its method; [pt_slash] for a pattern that ends in /{$}. *)
Record pattern := MkPattern { pt_method : gostring; pt_segments : list segment; pt_slash : bool }.

(** [url.PathUnescape]; a malformed escape leaves the text as it is. *)
Fixpoint unescape_from (fuel : nat) (s : bytes) : option bytes :=
  match fuel with
  | O => None
  | S fuel =>
      match s with
      | [] => Some []
      | c :: s' =>
          if bool_decide (c = PERCENT) then
            match s' with
            | h :: l :: s'' => h ← hexdigit h; l ← hexdigit l; (byte_of (16 * h + l) ::.) <$> unescape_from fuel s''
            | _ => None
            end
          else (c ::.) <$> unescape_from fuel s'
      end
  end.
Definition pathUnescape (s : bytes) : bytes := default s (unescape_from (S (length s)) s).

(** [path.Clean] on the segments of a rooted path. *)
Definition clean_segments (l : list gostring) : list gostring :=
  rev (foldl (λ acc s, if bool_decide (s = [] ∨ s = go ".") then acc else if bool_decide (s = go "..") then tail acc else s :: acc) [] l).

Definition rooted (s : gostring) : gostring := match s with c :: _ => if bool_decide (c = SLASH) then s else SLASH :: s | [] => [SLASH] end.
Definition ends_in_slash (s : gostring) : bool := bool_decide (last s = Some SLASH).

(** The multiplexer's [cleanPath], which keeps a trailing slash. *)
Definition cleanPath (p : gostring) : gostring :=
  let p := rooted p in
  let segs := clean_segments (split_byte SLASH p) in
  SLASH :: join SLASH segs ++ (if ends_in_slash p && negb (bool_decide (segs = [])) then [SLASH] else []).

(** The segments of a clean path, decoded, and whether it ends in a slash. *)
Definition path_segments (p : gostring) : list gostring * bool :=
  let segs := filter (λ s, s ≠ []) (split_byte SLASH p) in
  (pathUnescape <$> segs, ends_in_slash p).

Fixpoint match_segments (ps : list segment) (ss : list gostring) : option (list (gostring * gostring)) :=
  match ps, ss with
  | [], [] => Some []
  | Lit l :: ps, s :: ss => if bool_decide (l = s) then match_segments ps ss else None
  | Wild n :: ps, s :: ss => ((n, s) ::.) <$> match_segments ps ss
  | _, _ => None
  end.

Definition match_path (p : pattern) (path : list gostring * bool) : option (list (gostring * gostring)) :=
  if bool_decide (pt_slash p = path.2) then match_segments (pt_segments p) path.1 else None.

(** A literal beats a wildcard at the first segment where two patterns differ. *)
Fixpoint more_specific (p q : list segment) : bool :=
  match p, q with
  | Lit _ :: p, Lit _ :: q | Wild _ :: p, Wild _ :: q => more_specific p q
  | Lit _ :: _, Wild _ :: _ => true
  | _, _ => false
  end.

Section mux.
Context {B : Type}.

(** What the table says of a method and a path: the most specific match. *)
Fixpoint best_match (routes : list (pattern * B)) (methods : list gostring) (path : list gostring * bool) : option (pattern * B * list (gostring * gostring)) :=
  match routes with
  | [] => None
  | (p, b) :: routes =>
      let rest := best_match routes methods path in
      if bool_decide (pt_method p ∈ methods) then
        match match_path p path with
        | Some vs =>
            match rest with
            | Some (q, b', vs') => if more_specific (pt_segments q) (pt_segments p) then Some (q, b', vs') else Some (p, b, vs)
            | None => Some (p, b, vs)
            end
        | None => rest
        end
      else rest
  end.

Inductive routed := Found (b : B) (vs : list (gostring * gostring)) | Moved (location : gostring) | MethodNotAllowed | NoRoute.

(** A GET pattern also serves HEAD; another method of a known path is refused as such.
    (No pattern of the table is a subtree, so no trailing slash is supplied.) *)
Definition mux (routes : list (pattern * B)) (method path : gostring) : routed :=
  let clean := if bool_decide (method = go "CONNECT") then path else cleanPath path in
  if negb (bool_decide (clean = path)) then Moved clean else
  let segs := path_segments path in
  let find methods := best_match routes methods segs in
  match find [method] with
  | Some (_, b, vs) => Found b vs
  | None =>
      match (if bool_decide (method = go "HEAD") then find [go "GET"] else None) with
      | Some (_, b, vs) => Found b vs
      | None => match best_match routes ((λ pb, pt_method pb.1) <$> routes) segs with Some _ => MethodNotAllowed | None => NoRoute end
      end
  end.
End mux.
Arguments routed : clear implicits.

(** ** The route table *)

(** What the routes lead to. *)
Inductive page := Healthz | Readyz | InstallScript | InstallDigest | DocsRedirect | DocsRoot | DocsJSON | DocsYAML.
Inductive route :=
| RPage (p : page) | RPublish
| RRegisterDevice | RListDevices | RRevokeDevice
| RStartDeviceGrant | RPoll | RRedeem | RExchange | RMint | RApprove
| RAddKey | RListKeys | RRevokeKey
| RCreateKeySet | RListKeySets | RRenameKeySet | RDeleteKeySet | RSetDefault | RSetVisibility
| RAddAllowlistEntry | RRemoveAllowlistEntry | RAddBlocklistTerm | RRemoveBlocklistTerm | RCreateOwner.

Definition lit (l : list string) : list segment := (λ s, Lit (go s)) <$> l.
Definition api (l : list string) : list segment := lit (["api"; "v1"] ++ l).
Definition at_path (method : string) (segs : list segment) (r : route) : pattern * route := (MkPattern (go method) segs false, r).

(** src/internal/transport/http/router.go:110-347, NewHandler (the table) *)
Definition routes : list (pattern * route) :=
  [at_path "GET" (lit ["healthz"]) (RPage Healthz);
   at_path "GET" (lit ["readyz"]) (RPage Readyz);
   at_path "GET" (lit ["install"; "vallet-helper.sh"]) (RPage InstallScript);
   at_path "GET" (lit ["install"; "vallet-helper.sh.sha256"]) (RPage InstallDigest);
   at_path "GET" (lit ["docs"]) (RPage DocsRedirect);
   (MkPattern (go "GET") (lit ["docs"]) true, RPage DocsRoot);
   at_path "GET" (lit ["docs"; "spec"; "openapi.json"]) (RPage DocsJSON);
   at_path "GET" (lit ["docs"; "spec"; "openapi.yaml"]) (RPage DocsYAML);
   at_path "GET" [Wild (go "handle")] RPublish;
   at_path "GET" [Wild (go "handle"); Wild (go "set")] RPublish;
   at_path "POST" (api ["devices"]) RRegisterDevice;
   at_path "GET" (api ["devices"]) RListDevices;
   at_path "DELETE" (api ["devices"] ++ [Wild (go "deviceID")]) RRevokeDevice;
   at_path "POST" (api ["enroll"; "device"]) RStartDeviceGrant;
   at_path "POST" (api ["enroll"; "poll"]) RPoll;
   at_path "POST" (api ["enroll"; "redeem"]) RRedeem;
   at_path "POST" (api ["token"]) RExchange;
   at_path "POST" (api ["enroll"; "mint"]) RMint;
   at_path "POST" (api ["enroll"; "approve"]) RApprove;
   at_path "POST" (api ["keys"]) RAddKey;
   at_path "GET" (api ["keys"]) RListKeys;
   at_path "DELETE" (api ["keys"] ++ [Wild (go "keyID")]) RRevokeKey;
   at_path "POST" (api ["keysets"]) RCreateKeySet;
   at_path "GET" (api ["keysets"]) RListKeySets;
   at_path "PATCH" (api ["keysets"] ++ [Wild (go "keySetID")]) RRenameKeySet;
   at_path "DELETE" (api ["keysets"] ++ [Wild (go "keySetID")]) RDeleteKeySet;
   at_path "PUT" (api ["keysets"] ++ [Wild (go "keySetID"); Lit (go "default")]) RSetDefault;
   at_path "PUT" (api ["keysets"] ++ [Wild (go "keySetID"); Lit (go "visibility")]) RSetVisibility;
   at_path "POST" (api ["admin"; "reserved"; "allowlist"]) RAddAllowlistEntry;
   at_path "DELETE" (api ["admin"; "reserved"; "allowlist"]) RRemoveAllowlistEntry;
   at_path "POST" (api ["admin"; "reserved"; "blocklist"]) RAddBlocklistTerm;
   at_path "DELETE" (api ["admin"; "reserved"; "blocklist"]) RRemoveBlocklistTerm;
   at_path "POST" (api ["admin"; "owners"]) RCreateOwner].

(** ** Limits from the configuration *)

(** The rate-limit part of the configuration: whether limits are on, and per tier the
    requests and the window, zero for the default. *)
Record cfgTier := MkCfgTier { ct_Requests : Z; ct_Window : duration }.
Record cfgLimits := MkCfgLimits { cl_Enabled : bool; cl_Publish : cfgTier; cl_Management : cfgTier; cl_Admin : cfgTier; cl_Auth : cfgTier }.

Definition apply_tier (dst : Tier) (src : cfgTier) : Tier :=
  MkTier (if 0 <? ct_Requests src then ct_Requests src else Tier_Limit dst) (if 0 <? ct_Window src then ct_Window src else Tier_Window dst) (Tier_FailOpen dst).

(** src/internal/transport/http/ratelimit.go:20-64, tiersFromConfig *)
Definition tiersFromConfig (cfg : option cfgLimits) : Tiers :=
  let t := DefaultTiers in
  match cfg with
  | None => t
  | Some c =>
      let a := Auth t in
      MkTiers
        (MkAuthTier (if 0 <? ct_Requests (cl_Auth c) then ct_Requests (cl_Auth c) else Auth_Limit a)
           (if 0 <? ct_Window (cl_Auth c) then ct_Window (cl_Auth c) else Auth_Window a) (Auth_Horizon a) (Auth_Cap a))
        (apply_tier (Publish t) (cl_Publish c)) (apply_tier (Management t) (cl_Management c)) (apply_tier (Admin t) (cl_Admin c))
  end.

(** A limiter, unless limits are off; one that cannot be built is not mounted. *)
Definition mounted_limiter (cfg : option cfgLimits) (name : string) (tier : Tiers → Tier) : option Limiter :=
  if negb (default true (cl_Enabled <$> cfg)) then None else
  match NewLimiter (Some tt) (go name) (tier (tiersFromConfig cfg)) with Ok l => Some l | Err _ => None end.

(** src/internal/transport/http/ratelimit.go:66-78, newPublishLimiter *)
Definition newPublishLimiter (cfg : option cfgLimits) : option Limiter := mounted_limiter cfg "publish" Publish.
(** src/internal/transport/http/ratelimit.go:80-96, newManagementLimiter *)
Definition newManagementLimiter (cfg : option cfgLimits) : option Limiter := mounted_limiter cfg "mgmt" Management.
(** src/internal/transport/http/ratelimit.go:98-116, newAdminLimiter *)
Definition newAdminLimiter (cfg : option cfgLimits) : option Limiter := mounted_limiter cfg "admin" Admin.

(** src/internal/transport/http/ratelimit.go:334-366, newAuthLimiter *)
Definition newAuthLimiter (cfg : option cfgLimits) (name : string) : option AuthLimiter :=
  match NewAuthLimiter (Some tt) (go name) (Auth (tiersFromConfig cfg)) with Ok l => Some l | Err _ => None end.

(** ** The whole handler *)

(** What the server is built from: the limits, the peers it trusts and the strict
    transport policy; whether protected sets can be opened (the access-key service) and
    whether owners and administrators can be recognised (the signers of their tokens). *)
Record server := MkServer {
  sv_limits : option cfgLimits;
  sv_proxies : trustedPeers;
  sv_hsts : hstsPolicy;
  sv_signer : option AccessTokenSigner;
  sv_adminSigner : option AdminTokenSigner;
}.

Section server.
Context {S : Type} `{HS : !Store S} {K : Type} `{HK : !Ssh K} `{UF : !UnicodeFold} {U : UnicodeData} {V : Type} `{HV : !Verifier V}.
Context (pages : page → handler json S).
Context (sv : server) (verifier : env → option V).
Abbreviation W := (world S).

(** The guard over the server's counter store, as an authorizer. *)
Definition guard_authorizer (signer : AccessTokenSigner) : Authorizer S := λ e token acc w,
  let '(r, s) := Authorize signer (e_ctx e) (e_clock e 10) token acc (e_clock e 11) (w_store w) in (r, put_store s w).

(** src/internal/transport/http/options.go:129-172, managementGuardian *)
Definition authorizer : Authorizer S := match sv_signer sv with Some signer => guard_authorizer signer | None => denyAllAuthorizer end.

Definition owners_mounted : bool := bool_decide (is_Some (sv_signer sv)).

Definition adminID : AdminIdentifier :=
  match sv_adminSigner sv with Some signer => signedAdminIdentifier signer | None => denyAllAdminIdentifier end.

(** A management route: the guardian, the limiter, the handler. *)
Definition managed (access : Request → result Access) (hd : bool → ScopedHandler json S) : handler json S :=
  Protect authorizer DenyUnauthorized access (managementRateLimit (newManagementLimiter (sv_limits sv)) (hd owners_mounted)).

Definition authIP : option AuthLimiter := newAuthLimiter (sv_limits sv) "auth-ip".
Definition authApprove : option AuthLimiter := newAuthLimiter (sv_limits sv) "auth-approve".

(** src/internal/transport/http/router.go:110-347, NewHandler (the handlers of the table) *)
Definition dispatch (rt : route) : handler json S :=
  match rt with
  | RPage p => pages p
  | RPublish => chain (λ e, publishHandler (K:=K) (Some (verifier e)) e) [rateLimitMiddleware (newPublishLimiter (sv_limits sv)) (sv_proxies sv)]
  | RRegisterDevice => managed AccountAccess registerDeviceHandler
  | RListDevices => managed AccountAccess listDevicesHandler
  | RRevokeDevice => managed DeviceAccess revokeDeviceHandler
  | RStartDeviceGrant => startDeviceGrantHandler owners_mounted authIP (sv_proxies sv)
  | RPoll => pollHandler owners_mounted authIP (sv_proxies sv)
  | RRedeem => redeemHandler (sv_signer sv) authIP (sv_proxies sv)
  | RExchange => exchangeHandler (sv_signer sv) authIP (sv_proxies sv)
  | RMint => managed AccountAccess mintHandler
  | RApprove => managed AccountAccess (λ svc, approveHandler svc authApprove)
  | RAddKey => managed AccountAccess (addKeyHandler (K:=K))
  | RListKeys => managed AccountAccess listKeysHandler
  | RRevokeKey => managed AccountAccess revokeKeyHandler
  | RCreateKeySet => managed AccountAccess createKeySetHandler
  | RListKeySets => managed AccountAccess listKeySetsHandler
  | RRenameKeySet => managed KeySetAccess renameKeySetHandler
  | RDeleteKeySet => managed KeySetAccess deleteKeySetHandler
  | RSetDefault => managed AccountAccess setDefaultKeySetHandler
  | RSetVisibility => managed KeySetAccess setVisibilityKeySetHandler
  | RAddAllowlistEntry => adminListEdit true adminID AddAllowlistEntry
  | RRemoveAllowlistEntry => adminListEdit true adminID RemoveAllowlistEntry
  | RAddBlocklistTerm => adminListEdit true adminID AddBlocklistTerm
  | RRemoveBlocklistTerm => adminListEdit true adminID RemoveBlocklistTerm
  | RCreateOwner => adminRateLimit (newAdminLimiter (sv_limits sv)) adminID (adminCreateOwnerHandler owners_mounted adminID)
  end.

Definition with_path_values (r : Request) (vs : list (gostring * gostring)) : Request :=
  MkRequest (r_Method r) (r_RemoteAddr r) (r_TLS r) (r_Path r) (r_Header r) (r_Body r) vs (r_RequestID r).

(** The multiplexer's own answers are plain text. *)
Definition plain_error (h : headers) (status : Z) (text : string) : Response json :=
  MkResponse status (hset "X-Content-Type-Options" (go "nosniff") (hset "Content-Type" (go "text/plain; charset=utf-8") h)) (Text (go text ++ [byte_of 10])).

Definition serve_mux : handler json S := λ e r h w,
  match mux routes (r_Method r) (r_Path r) with
  | Found rt vs => dispatch rt e (with_path_values r vs) h w
  | Moved location => (MkResponse 307 (hset "Location" location h) NoBody, w)
  | MethodNotAllowed => (plain_error h 405 "Method Not Allowed", w)
  | NoRoute => (plain_error h 404 "404 page not found", w)
  end.

(** src/internal/transport/http/router.go:349-369, NewHandler (the middlewares; telemetry,
    logging and recovery do not change the answer of a handler that does not panic) *)
Definition NewHandler : handler json S := chain serve_mux [hstsMiddleware (sv_hsts sv); requestIDMiddleware].
End server.

(** ** Lemmas on handlers *)

Abbreviation tables w := (data (w_conn w)).

Section effects.
Context {S : Type} `{HS : !Store S}.

(** What a handler with an authorization does to the tables. *)
Definition scoped_within (hd : ScopedHandler json S) : Prop :=
  ∀ e r h a w resp w', hd e r h a w = (resp, w') → owner_frame (Auth_owner a) (tables w) (tables w').

Lemma on_db_within (R : relation db) {B} (m : stM conn B) P (w : world S) r w' : within R m P → on_db m w = (r, w') → R (tables w) (tables w') ∧ (∀ b, r = Ok b → P b).
Proof. intros Hm. unfold on_db. destruct (m (w_conn w)) as [r1 c1] eqn:E. intros [= <- <-]. simpl. by apply (within_run R _ _ _ _ _ Hm). Qed.

Lemma answer_within (R : relation db) {B} (m : stM conn B) failed served (w : world S) resp w' :
  within R m anything → answer m failed served w = (resp, w') → R (tables w) (tables w').
Proof.
  intros Hm. unfold answer. destruct (on_db m w) as [[b|err] w1] eqn:E; apply (on_db_within R _ _ _ _ _ Hm) in E as [F _]; by intros [= _ <-].
Qed.

Lemma decoding_within (R : relation db) `{!Reflexive R} {B} `{!Decodes B} limit r h (next : B → world S → Response json * world S) w resp w' :
  (∀ b resp w', next b w = (resp, w') → R (tables w) (tables w')) → decoding limit r h next w = (resp, w') → R (tables w) (tables w').
Proof. intros Hn. unfold decoding. destruct (decodeStrictJSON _ _); [apply Hn|]. by intros [= _ <-]. Qed.

Lemma mounted_within svc hd : scoped_within hd → scoped_within (mounted svc hd).
Proof. intros H e r h a w resp w'. unfold mounted. destruct svc; [apply H|]. by intros [= _ <-]. Qed.

Lemma limited_within (R : relation db) `{!Reflexive R} {A} lim key next (e : env) h (w : world S) (resp : Response A) w' :
  (∀ h w resp w', next h w = (resp, w') → R (tables w) (tables w')) → limited lim key next e h w = (resp, w') → R (tables w) (tables w').
Proof.
  intros Hn. unfold limited. destruct (Allow _ _ _ _ _) as [[d o] s]. destruct (negb _); [by intros [= _ <-]|]. intros E. by apply Hn in E.
Qed.

Lemma managementRateLimit_within lim hd : scoped_within hd → scoped_within (managementRateLimit lim hd).
Proof.
  intros H e r h a w resp w'. unfold managementRateLimit. destruct lim as [lim|]; [|apply H]. case_bool_decide; [by intros [= _ <-]|].
  apply limited_within; [typeclasses eauto|]. intros. by eapply H.
Qed.

Lemma judged_within (R : relation db) {B} lim key e refused (served : B → _) rw resp (w w' : world S) :
  R (tables w) (tables (snd rw)) → judged lim key e refused served rw = (resp, w') → R (tables w) (tables w').
Proof. destruct rw as [[b|err] w1]; simpl; intros F [= _ <-]; exact F. Qed.

Lemma prechecked_within (R : relation db) `{!Reflexive R} svc lim proxies next e r h (w : world S) resp w' :
  (∀ lim key w resp w', next lim key e r h w = (resp, w') → R (tables w) (tables w')) → prechecked svc lim proxies next e r h w = (resp, w') → R (tables w) (tables w').
Proof.
  intros Hn. unfold prechecked. destruct svc; [|by intros [= _ <-]]. destruct lim as [lim|]; [|by intros [= _ <-]].
  unfold authPrecheck. case_bool_decide; [by intros [= _ <-]|]. destruct (Check _ _ _ _ _ _) as [[d o] s].
  destruct (negb _); [by intros [= _ <-]|]. intros E. by apply Hn in E.
Qed.
End effects.

Section scoped.
Context {S : Type} `{HS : !Store S} {K : Type} `{HK : !Ssh K} `{UF : !UnicodeFold} {U : UnicodeData}.

Ltac scoped lem :=
  apply mounted_within; intros e r h a w resp w'; try (apply decoding_within; [typeclasses eauto|]; intros body resp' w2);
  apply answer_within, lem.

Ltac reads ops :=
  intros E; symmetry; revert E; unfold mounted; case_match; [|by intros [= _ <-]]; apply answer_within; ops; within_go.

Lemma listDevices_reads svc e r h a (w : world S) resp w' : listDevicesHandler svc e r h a w = (resp, w') → tables w' = tables w.
Proof. unfold listDevicesHandler. reads ltac:(unfold dev_List, device_ListByOwner). Qed.
Lemma listKeys_reads svc e r h a (w : world S) resp w' : listKeysHandler svc e r h a w = (resp, w') → tables w' = tables w.
Proof. unfold listKeysHandler. reads ltac:(unfold pk_List, pubkey_ListByOwner). Qed.
Lemma listKeySets_reads svc e r h a (w : world S) resp w' : listKeySetsHandler svc e r h a w = (resp, w') → tables w' = tables w.
Proof. unfold listKeySetsHandler. reads ltac:(unfold ks_List, keyset_ListByOwner). Qed.

Lemma registerDevice_mine svc : scoped_within (S:=S) (registerDeviceHandler svc).
Proof. scoped mine_dev_Register. Qed.
Lemma revokeDevice_mine svc : scoped_within (S:=S) (revokeDeviceHandler svc).
Proof. scoped mine_dev_Revoke. Qed.
Lemma addKey_mine svc : scoped_within (S:=S) (addKeyHandler (K:=K) svc).
Proof. scoped mine_pk_Add. Qed.
Lemma revokeKey_mine svc : scoped_within (S:=S) (revokeKeyHandler svc).
Proof. scoped mine_pk_Revoke. Qed.
Lemma createKeySet_mine svc : scoped_within (S:=S) (createKeySetHandler svc).
Proof. scoped mine_ks_Create. Qed.
Lemma renameKeySet_mine svc : scoped_within (S:=S) (renameKeySetHandler svc).
Proof. scoped mine_ks_Rename. Qed.
Lemma setDefault_mine svc : scoped_within (S:=S) (setDefaultKeySetHandler svc).
Proof. scoped mine_ks_SetDefault. Qed.
Lemma setVisibility_mine svc : scoped_within (S:=S) (setVisibilityKeySetHandler svc).
Proof. scoped mine_ks_SetVisibility. Qed.
Lemma mint_mine svc : scoped_within (S:=S) (mintHandler svc).
Proof. scoped mine_mintInto. Qed.
Lemma deleteKeySet_mine svc : scoped_within (S:=S) (deleteKeySetHandler svc).
Proof.
  apply mounted_within. intros e r h a w resp w'. cbn zeta.
  destruct (decodeStrictJSON _ _) as [body|err]; [|destruct (errors_is err io_EOF); [|by intros [= _ <-]]]; apply answer_within, mine_ks_Delete.
Qed.

Lemma on_service_within (R : relation db) {B} (m : service S → B * service S) (w : world S) r w' :
  svc_within R m → on_service m w = (r, w') → R (tables w) (tables w').
Proof. intros Hm. unfold on_service. destruct (m _) as [r1 s1] eqn:E. apply Hm in E. by intros [= _ <-]. Qed.

Lemma approve_mine svc lim : scoped_within (S:=S) (approveHandler svc lim).
Proof.
  intros e r h a w resp w'. unfold approveHandler. destruct svc; [|by intros [= _ <-]]. destruct lim as [lim|]; [|by intros [= _ <-]].
  unfold authPrecheck. case_bool_decide; [by intros [= _ <-]|]. destruct (Check _ _ _ _ _ _) as [[d o] s]. destruct (negb _); [by intros [= _ <-]|].
  intros E. change (tables w) with (tables (put_store s w)). revert E. apply decoding_within; [typeclasses eauto|]. intros body resp2 w2.
  destruct (on_service _ _) as [err w3] eqn:E. apply (on_service_within (owner_frame (Auth_owner a))) in E; [|apply mine_Approve].
  by apply judged_within.
Qed.

(** The routes anybody may call: only pairings and credentials. *)
Lemma startDeviceGrant_session svc lim proxies e r h (w : world S) resp w' :
  startDeviceGrantHandler svc lim proxies e r h w = (resp, w') → session_frame (tables w) (tables w').
Proof.
  apply prechecked_within; [typeclasses eauto|]. intros lim' key w1 resp1 w1'. apply decoding_within; [typeclasses eauto|]. intros body resp2 w2.
  apply answer_within, sess_StartDeviceGrant.
Qed.
Lemma poll_session svc lim proxies e r h (w : world S) resp w' : pollHandler svc lim proxies e r h w = (resp, w') → session_frame (tables w) (tables w').
Proof.
  apply prechecked_within; [typeclasses eauto|]. intros lim' key w1 resp1 w1'. apply decoding_within; [typeclasses eauto|]. intros body resp2 w2.
  destruct (Poll _ _ _) as [err c] eqn:E. apply sess_Poll in E. by intros [= _ <-].
Qed.
Lemma redeem_session svc lim proxies e r h (w : world S) resp w' : redeemHandler svc lim proxies e r h w = (resp, w') → session_frame (tables w) (tables w').
Proof.
  apply prechecked_within; [typeclasses eauto|]. intros lim' key w1 resp1 w1'. apply decoding_within; [typeclasses eauto|]. intros body resp2 w2.
  destruct svc as [signer|]; [|by intros [= _ <-]]. apply judged_within. destruct (on_service _ _) as [r3 w3] eqn:E.
  eapply on_service_within; [|exact E]. apply sess_Redeem.
Qed.
Lemma exchange_session svc lim proxies e r h (w : world S) resp w' : exchangeHandler svc lim proxies e r h w = (resp, w') → session_frame (tables w) (tables w').
Proof.
  apply prechecked_within; [typeclasses eauto|]. intros lim' key w1 resp1 w1'. apply decoding_within; [typeclasses eauto|]. intros body resp2 w2.
  destruct svc as [signer|]; [|by intros [= _ <-]]. apply judged_within. destruct (on_service _ _) as [r3 w3] eqn:E.
  eapply on_service_within; [|exact E]. apply sess_Exchange.
Qed.

(** The administrators' routes. *)
Definition by_admin (actor : gostring) (d d' : db) : Prop := d' = d ∨ actor ≠ [] ∧ active_admin actor d ∧ admin_frame d d'.

Lemma adminListEdit_framed svc id op e r h (w : world S) resp w' :
  adminListEdit svc id op e r h w = (resp, w') → by_admin (id e r) (tables w) (tables w').
Proof.
  unfold adminListEdit. destruct svc; [|by intros [= _ <-]; left]. unfold decoding. destruct (decodeStrictJSON _ _) as [body|]; [|by intros [= _ <-]; left].
  unfold on_db. destruct (la_edit _ _ _ _ _ _ _) as [r1 c1] eqn:E. pose proof (wp_run _ _ _ _ _ _ _ (la_edit_framed _ _ _ _ _ _ _) eq_refl ltac:(done) E) as F.
  destruct r1; intros [= _ <-]; exact F.
Qed.

Lemma adminCreateOwner_framed svc id e r h (w : world S) resp w' :
  adminCreateOwnerHandler svc id e r h w = (resp, w') → by_admin (id e r) (tables w) (tables w').
Proof.
  unfold adminCreateOwnerHandler. destruct svc; [|by intros [= _ <-]; left]. unfold decoding. destruct (decodeStrictJSON _ _) as [body|]; [|by intros [= _ <-]; left].
  unfold answer, on_db. destruct (ProvisionOwner _ _ _ _ _ _ _ _ _ _) as [r1 c1] eqn:E.
  pose proof (wp_run _ _ _ _ _ _ _ (ProvisionOwner_framed _ _ _ _ _ _ _ _ _ _) eq_refl ltac:(done) E) as F. destruct r1 as [[sn g]|]; intros [= _ <-]; exact F.
Qed.
End scoped.

(** ** Routing *)

Lemma best_match_Some {B} (rs : list (pattern * B)) ms path p b vs : best_match rs ms path = Some (p, b, vs) →
  (p, b) ∈ rs ∧ pt_method p ∈ ms ∧ match_path p path = Some vs.
Proof.
  revert p b vs. induction rs as [|[q c] rs IH]; intros p b vs; simpl; [done|].
  assert (∀ o, best_match rs ms path = o → o = Some (p, b, vs) → (p, b) ∈ (q, c) :: rs ∧ pt_method p ∈ ms ∧ match_path p path = Some vs) as Hrest.
  { intros o Eo ->. destruct (IH _ _ _ Eo) as (? & ? & ?). split_and!; [by right|done..]. }
  case_bool_decide as Hm; [|by apply Hrest]. destruct (match_path q path) as [vs0|] eqn:Ep; [|by apply Hrest].
  assert (Some (q, c, vs0) = Some (p, b, vs) → (p, b) ∈ (q, c) :: rs ∧ pt_method p ∈ ms ∧ match_path p path = Some vs) as Hhere.
  { intros [= -> -> ->]. split_and!; [by left|done..]. }
  destruct (best_match rs ms path) as [[[q' c'] vs']|]; [|done]. destruct (more_specific _ _); [by apply Hrest|done].
Qed.

Lemma mux_Found {B} (rs : list (pattern * B)) m path b vs : mux rs m path = Found b vs →
  ∃ p, (p, b) ∈ rs ∧ (pt_method p = m ∨ pt_method p = go "GET" ∧ m = go "HEAD") ∧ match_path p (path_segments path) = Some vs.
Proof.
  unfold mux. destruct (negb _); [done|]. destruct (best_match rs [m] _) as [[[p b'] vs']|] eqn:E1.
  - intros [= -> ->]. apply best_match_Some in E1 as (Hin & Hm%list_elem_of_singleton & Hp). exists p. auto.
  - assert (match best_match rs ((λ pb, pt_method pb.1) <$> rs) (path_segments path) with Some _ => MethodNotAllowed | None => NoRoute end ≠ Found b vs) as Hno
      by (destruct (best_match rs ((λ pb, pt_method pb.1) <$> rs) (path_segments path)); discriminate).
    case_bool_decide as Hh; [|done]. destruct (best_match rs [go "GET"] _) as [[[p b'] vs']|] eqn:E2; [|done].
    intros [= -> ->]. apply best_match_Some in E2 as (Hin & Hm%list_elem_of_singleton & Hp). exists p. auto.
Qed.

(** Who a route is for. *)
Inductive audience := ReadersOnly | OwnersOnly | Anybody | AdminsOnly.
Definition audience_of (rt : route) : audience :=
  match rt with
  | RPage _ | RPublish | RListDevices | RListKeys | RListKeySets => ReadersOnly
  | RStartDeviceGrant | RPoll | RRedeem | RExchange => Anybody
  | RAddAllowlistEntry | RRemoveAllowlistEntry | RAddBlocklistTerm | RRemoveBlocklistTerm | RCreateOwner => AdminsOnly
  | _ => OwnersOnly
  end.

(** Routes that change an owner's data have methods that say so. *)
Lemma owners_routes_mutate m path rt vs : mux routes m path = Found rt vs → audience_of rt = OwnersOnly → isMutating m = true.
Proof.
  intros (p & Hin & Hm & _)%mux_Found Ha.
  assert (Forall (λ pr : pattern * route, audience_of pr.2 = OwnersOnly → isMutating (pt_method pr.1) = true ∧ pt_method pr.1 ≠ go "GET") routes) as Hall.
  { unfold routes. repeat constructor; done. }
  rewrite Forall_forall in Hall. destruct (Hall _ Hin Ha) as [Hmut Hget]. simpl in *. by destruct Hm as [<-|[? _]].
Qed.

(** What of an account a route addresses: a set, a device, or the account. *)
Definition addressed (rt : route) (vs : list (gostring * gostring)) (acc : Access) : Prop :=
  let r := MkRequest [] [] false [] [] [] vs [] in
  match rt with
  | RRevokeDevice => DeviceAccess r = Ok acc
  | RRenameKeySet | RDeleteKeySet | RSetVisibility => KeySetAccess r = Ok acc
  | _ => AccountAccess r = Ok acc
  end.

Section confined.
Context {S : Type} `{HS : !Store S} {K : Type} `{HK : !Ssh K} `{UF : !UnicodeFold} {U : UnicodeData} {V : Type} `{HV : !Verifier V} `{HL : !VerifierLaws V}.
Context (pages : page → handler json S).
Context (sv : server) (verifier : env → option V).

(** The request carries a token of the owner's that permits the access. *)
Definition owner_request (e : env) (r : Request) (acc : Access) (o : gostring) : Prop := ∃ signer token tok,
  sv_signer sv = Some signer ∧ bearerToken r = Some token ∧ signer_Verify signer token (e_clock e 11) = Ok tok ∧
  AccessToken_OwnerID tok = o ∧ permitsAccess (AccessToken_Scopes tok) (MkAccess [] (Acc_Resource acc) (Acc_ResourceID acc) (isMutating (r_Method r))) = true.

(** The request carries a token of the administrator's. *)
Definition admin_request (e : env) (r : Request) (actor : gostring) : Prop := ∃ signer token,
  sv_adminSigner sv = Some signer ∧ bearerToken r = Some token ∧ admin_Verify signer token (e_clock e 4) = Ok actor.

Lemma Authorize_Ok signer ctx clock presented acc now (s : S) a s' : Authorize signer ctx clock presented acc now s = (Ok a, s') →
  ∃ tok, signer_Verify signer presented now = Ok tok ∧ AccessToken_OwnerID tok = Auth_owner a ∧ permitsAccess (AccessToken_Scopes tok) acc = true.
Proof.
  unfold Authorize. destruct (Access_validate acc); [done|]. destruct (signer_Verify _ _ _) as [tok|]; [|done]. unfold decide_access.
  case_bool_decide; [done|]. destruct (denylist_Check _ _ _ _) as [[e|] s1]; [done|]. destruct (_ && _); [done|].
  destruct (permitsAccess _ _) eqn:Ep; [|done]. intros [= <- _]. eauto.
Qed.

Lemma managed_confined access hd e r h (w : world S) resp w' : (∀ svc, scoped_within (hd svc)) → (∀ acc, access r = Ok acc → Acc_Owner acc = []) →
  managed sv access hd e r h w = (resp, w') →
  tables w' = tables w ∨ ∃ acc o, access r = Ok acc ∧ owner_request e r acc o ∧ owner_frame o (tables w) (tables w').
Proof.
  intros Hhd Hacc. unfold managed, Protect. destruct (bearerToken r) as [token|] eqn:Et; [|intros [= _ <-]; by left].
  destruct (access r) as [acc|] eqn:Ea; [|intros [= _ <-]; by left]. rewrite (Hacc acc eq_refl).
  unfold authorizer. destruct (sv_signer sv) as [signer|] eqn:Es; [|intros [= _ <-]; by left].
  unfold guard_authorizer. destruct (Authorize _ _ _ _ _ _ _) as [[a|err] s] eqn:Eau; [|intros [= _ <-]; by left].
  intros E. apply (managementRateLimit_within _ _ (Hhd _)) in E. right. exists acc, (Auth_owner a). split_and!; [done| |exact E].
  apply Authorize_Ok in Eau as (tok & Hv & Ho & Hp). exists signer, token, tok. by split_and!.
Qed.

Lemma listed_reads access hd e r h (w : world S) resp w' : (∀ svc e r h a w resp w', hd svc e r h a w = (resp, w') → tables w' = tables w) →
  managed sv access hd e r h w = (resp, w') → tables w' = tables w.
Proof.
  intros Hhd. unfold managed, Protect. destruct (bearerToken r) as [token|] eqn:Et; [|by intros [= _ <-]].
  destruct (access r) as [acc|] eqn:Ea; [|by intros [= _ <-]]. unfold authorizer. destruct (sv_signer sv) as [signer|]; [|by intros [= _ <-]].
  unfold guard_authorizer. destruct (Authorize _ _ _ _ _ _ _) as [[a|err] s]; [|by intros [= _ <-]].
  unfold managementRateLimit. destruct (newManagementLimiter _) as [lim|]; [|apply (Hhd _ _ _ _ _ (put_store s w))].
  case_bool_decide; [by intros [= _ <-]|]. intros E. symmetry. change (tables w) with (tables (put_store s w)). revert E.
  apply (limited_within eq). intros h1 w1 resp1 w1' E. symmetry. exact (Hhd _ _ _ _ _ _ _ _ E).
Qed.

Lemma Resolve_reads (v : option V) handle setName presented : within eq (Resolve (K:=K) v handle setName presented) anything.
Proof.
  assert (∀ A (f : db → option A), within eq (query_row f) anything) as Hrow by (intros; by apply within_query_row; [typeclasses eauto|]).
  assert (∀ v o s t, within eq (v_Verify (V:=V) v o s t) anything) as Hver.
  { intros v0 o s t d. eapply wp_mono; [apply (v_spec false)|]. intros r d' [-> _]. done. }
  unfold Resolve, resolveOwner, resolveSet, resolveAccess, handle_GetByName, owner_Get, keyset_GetDefault, keyset_GetByName, pubkey_ListActiveByKeySet.
  within_go.
Qed.

Lemma publish_reads (v : option V) e r h (w : world S) resp w' : publishHandler (A:=json) (K:=K) (Some v) e r h w = (resp, w') → tables w' = tables w.
Proof.
  unfold publishHandler, on_db. destruct (Resolve _ _ _ _ _) as [r1 c1] eqn:E.
  apply (within_run eq _ anything) in E as [Hd _]; [|apply Resolve_reads]. destruct r1; by intros [= _ <-].
Qed.

Lemma limited_publish_reads lim proxies e r h (w : world S) resp w' :
  rateLimitMiddleware lim proxies (λ e, publishHandler (A:=json) (K:=K) (Some (verifier e)) e) e r h w = (resp, w') → tables w' = tables w.
Proof.
  unfold rateLimitMiddleware. destruct lim as [lim|]; [|apply publish_reads]. case_bool_decide; [by intros [= _ <-]|]. intros E. symmetry. revert E.
  apply (limited_within eq). intros h1 w1 resp1 w1' E. symmetry. exact (publish_reads _ _ _ _ _ _ _ E).
Qed.

(** The decision for one route. *)
Definition confined (e : env) (r : Request) (rt : route) (vs : list (gostring * gostring)) (d d' : db) : Prop :=
  match audience_of rt with
  | ReadersOnly => d' = d
  | OwnersOnly => d' = d ∨ ∃ acc o, addressed rt vs acc ∧ owner_request e r acc o ∧ owner_frame o d d'
  | Anybody => session_frame d d'
  | AdminsOnly => d' = d ∨ ∃ actor, admin_request e r actor ∧ active_admin actor d ∧ admin_frame d d'
  end.

Lemma adminID_path_values e r vs : adminID sv e (with_path_values r vs) = adminID sv e r.
Proof. unfold adminID. by destruct (sv_adminSigner sv). Qed.

Lemma admin_confined e r vs (d d' : db) : by_admin (adminID sv e (with_path_values r vs)) d d' →
  d' = d ∨ ∃ actor, admin_request e r actor ∧ active_admin actor d ∧ admin_frame d d'.
Proof.
  rewrite adminID_path_values.
  intros [->|(Hne & Ha & F)]; [by left|right]. exists (adminID sv e r). split_and!; [|done..].
  unfold adminID, admin_request in *. destruct (sv_adminSigner sv) as [signer|]; [|done].
  unfold signedAdminIdentifier in *. destruct (bearerToken r) as [token|]; [|done]. destruct (admin_Verify _ _ _) as [id|] eqn:Ev; [|done].
  by exists signer, token.
Qed.

Definition pages_read : Prop := ∀ p e r h w, tables (snd (pages p e r h w)) = tables w.

Lemma dispatch_confined e r h (w : world S) resp w' rt vs : pages_read → 
  dispatch (K:=K) pages sv verifier rt e (with_path_values r vs) h w = (resp, w') →
  confined e r rt vs (tables w) (tables w').
Proof.
  intros Hpages. unfold confined.
  assert (∀ access hd, (∀ svc, scoped_within (hd svc)) → (∀ acc, access (with_path_values r vs) = Ok acc → Acc_Owner acc = [] ∧ addressed rt vs acc) →
    managed sv access hd e (with_path_values r vs) h w = (resp, w') →
    tables w' = tables w ∨ ∃ acc o, addressed rt vs acc ∧ owner_request e r acc o ∧ owner_frame o (tables w) (tables w')) as Hm.
  { intros access hd Hhd Hacc E. apply managed_confined in E as [?|(acc & o & Ha & Hr & F)]; [by left| |done|intros acc Ha; by apply Hacc].
    right. exists acc, o. split_and!; [by apply Hacc|exact Hr|done]. }
  assert (∀ acc, AccountAccess (with_path_values r vs) = Ok acc → Acc_Owner acc = [] ∧ AccountAccess (MkRequest [] [] false [] [] [] vs []) = Ok acc) as Hacct by by intros acc [= <-].
  assert (∀ acc, DeviceAccess (with_path_values r vs) = Ok acc → Acc_Owner acc = [] ∧ DeviceAccess (MkRequest [] [] false [] [] [] vs []) = Ok acc) as Hdev.
  { intros acc Ha. split; [|exact Ha]. unfold DeviceAccess in Ha. case_bool_decide; [done|]. by injection Ha as <-. }
  assert (∀ acc, KeySetAccess (with_path_values r vs) = Ok acc → Acc_Owner acc = [] ∧ KeySetAccess (MkRequest [] [] false [] [] [] vs []) = Ok acc) as Hset.
  { intros acc Ha. split; [|exact Ha]. unfold KeySetAccess in Ha. case_bool_decide; [done|]. by injection Ha as <-. }
  destruct rt; cbn [audience_of dispatch].
  - intros E. specialize (Hpages p e (with_path_values r vs) h w). by rewrite E in Hpages.
  - apply limited_publish_reads.
  - apply Hm; [apply registerDevice_mine|exact Hacct].
  - apply listed_reads, listDevices_reads.
  - apply Hm; [apply revokeDevice_mine|exact Hdev].
  - apply startDeviceGrant_session.
  - apply poll_session.
  - apply redeem_session.
  - apply exchange_session.
  - apply Hm; [apply mint_mine|exact Hacct].
  - apply Hm; [intros; apply approve_mine|exact Hacct].
  - apply Hm; [apply addKey_mine|exact Hacct].
  - apply listed_reads, listKeys_reads.
  - apply Hm; [apply revokeKey_mine|exact Hacct].
  - apply Hm; [apply createKeySet_mine|exact Hacct].
  - apply listed_reads, listKeySets_reads.
  - apply Hm; [apply renameKeySet_mine|exact Hset].
  - apply Hm; [apply deleteKeySet_mine|exact Hset].
  - apply Hm; [apply setDefault_mine|exact Hacct].
  - apply Hm; [apply setVisibility_mine|exact Hset].
  - intros E%adminListEdit_framed. exact (admin_confined _ _ _ _ _ E).
  - intros E%adminListEdit_framed. exact (admin_confined _ _ _ _ _ E).
  - intros E%adminListEdit_framed. exact (admin_confined _ _ _ _ _ E).
  - intros E%adminListEdit_framed. exact (admin_confined _ _ _ _ _ E).
  - unfold adminRateLimit. destruct (newAdminLimiter _) as [lim|]; [|intros E%adminCreateOwner_framed; exact (admin_confined _ _ _ _ _ E)].
    unfold limited. destruct (Allow _ _ _ _ _) as [[dec o] s]. destruct (negb _); [intros [= _ <-]; by left|].
    intros E%adminCreateOwner_framed. exact (admin_confined _ _ _ _ _ E).
Qed.

(** C10. Every request is confined to what its bearer may touch.  Whatever is sent to the
    server: a request that no route takes, and every route that only reads, leaves the
    tables as they were.  A management route changes something only for a request with
    a token that verifies, whose scopes permit changing what the path names, and then
    only rows of that token's owner: every row of anybody else stays as it is, but for
    pairings that still wait for an owner.  The routes anybody may call - pairing and tokens - touch only pairings and credentials.
    An administrator's route changes something only for a token of an administrator who
    is active; it adds, and leaves every owner's keys, devices and credentials alone. *)
Theorem request_confined e r h (w : world S) resp w' : pages_read → NewHandler (K:=K) pages sv verifier e r h w = (resp, w') →
  match mux routes (r_Method r) (r_Path r) with
  | Found rt vs => confined e r rt vs (tables w) (tables w') ∧ (audience_of rt = OwnersOnly → isMutating (r_Method r) = true)
  | _ => tables w' = tables w
  end.
Proof.
  intros Hpages. unfold NewHandler, chain, hstsMiddleware, requestIDMiddleware, serve_mux. cbn [foldr r_Method r_Path with_request_id].
  destruct (mux routes (r_Method r) (r_Path r)) as [rt vs|location| |] eqn:Em; [|by intros [= _ <-]..].
  intros E%dispatch_confined; [|done]. split; [|by apply (owners_routes_mutate _ _ _ _ Em)].
  unfold confined in *. destruct (audience_of rt); [exact E|..|exact E|]; (destruct E as [?|(acc & E)]; [by left|right; exists acc; exact E]).
Qed.
End confined.

(** ** Reachability of published names *)

Definition slug_char (c : ascii) : bool := alnum c || bool_decide (c = byte_of 45).

Lemma slugRe_chars s : slugRe s = true → s ≠ [] ∧ Forall (λ c, slug_char c = true) s.
Proof.
  destruct s as [|c t]; [done|]. simpl. intros [Hc Ht]%andb_true_iff. split; [done|]. unfold slug_char. constructor; [by rewrite Hc|].
  rewrite <- (rev_involutive t). destruct (rev t) as [|d m]; [constructor|]. apply andb_true_iff in Ht as [Hd Hm].
  simpl. apply Forall_app. split; [|by repeat constructor; rewrite Hd]. rewrite Forall_forall. intros x Hx%list_elem_of_In%in_rev.
  by apply (proj1 (forallb_forall _ _) Hm).
Qed.

Lemma validateSlug_chars field s : validateSlug field s = None → s ≠ [] ∧ Forall (λ c, slug_char c = true) s.
Proof. unfold validateSlug. case_bool_decide; [done|]. destruct (_ <? _); [done|]. destruct (slugRe s) eqn:E; [|done]. by apply slugRe_chars in E. Qed.

(** A byte that slugs do not have. *)
Lemma slug_without b s : slug_char b = false → Forall (λ c, slug_char c = true) s → b ∉ s.
Proof. rewrite Forall_forall. intros Hb Hs Hin. by rewrite (Hs _ Hin) in Hb. Qed.

Lemma split_byte_none c s : c ∉ s → split_byte c s = [s].
Proof. induction s as [|x s IH]; [done|]. intros [Hx Hs]%not_elem_of_cons. simpl. rewrite bool_decide_eq_false_2 by done. by rewrite IH. Qed.

Lemma split_byte_app c s t : c ∉ s → split_byte c (s ++ c :: t) = s :: split_byte c t.
Proof.
  induction s as [|x s IH]; simpl; [by rewrite bool_decide_eq_true_2|]. intros [Hx Hs]%not_elem_of_cons.
  rewrite bool_decide_eq_false_2 by done. by rewrite IH.
Qed.

Lemma split_byte_join c l : l ≠ [] → Forall (λ s, c ∉ s) l → split_byte c (join c l) = l.
Proof.
  intros Hl H. induction H as [|s l Hs Hl' IH]; [done|]. destruct l as [|t l]; [by apply split_byte_none|].
  change (join c (s :: t :: l)) with (s ++ c :: join c (t :: l)). rewrite split_byte_app by done. by rewrite IH.
Qed.

Lemma unescape_plain fuel s : (length s < fuel)%nat → PERCENT ∉ s → unescape_from fuel s = Some s.
Proof.
  revert fuel. induction s as [|c s IH]; intros [|fuel] Hf Hp; simpl in *; try lia; [done|]. apply not_elem_of_cons in Hp as [Hc Hs].
  rewrite bool_decide_eq_false_2 by done. rewrite IH by (done || lia). done.
Qed.
Lemma pathUnescape_plain s : PERCENT ∉ s → pathUnescape s = s.
Proof. intros. unfold pathUnescape. by rewrite unescape_plain by (done || lia). Qed.

(** A segment that reaches a handler as it was sent. *)
Definition plain_segment (s : gostring) : Prop := s ≠ [] ∧ s ≠ go "." ∧ s ≠ go ".." ∧ (SLASH ∉ s) ∧ (PERCENT ∉ s).

Lemma slug_plain field s : validateSlug field s = None → plain_segment s.
Proof.
  intros [Hne Hs]%validateSlug_chars.
  assert (∀ b, slug_char b = false → b ∉ s) as Hb by (intros; by apply slug_without).
  split_and!; [done| | |apply Hb; by vm_compute|apply Hb; by vm_compute]; intros ->; apply (Hb (byte_of 46)); [by vm_compute|vm_compute; left|by vm_compute|vm_compute; left].
Qed.

Lemma clean_plain l : Forall plain_segment l → clean_segments l = l.
Proof.
  intros H. unfold clean_segments. rewrite <- (rev_involutive l) at 2. f_equal. rewrite <- (app_nil_r (rev l)). generalize (@nil gostring).
  induction H as [|s l (H1 & H2 & H3 & _) Hl IH]; intros acc; [done|]. simpl. rewrite bool_decide_eq_false_2 by (by intros [?|?]).
  rewrite bool_decide_eq_false_2 by done. rewrite IH. simpl. by rewrite <- app_assoc.
Qed.

Lemma last_join c l d : last l = Some d → d ≠ [] → last (join c l) = last d.
Proof.
  induction l as [|s l IH]; [done|]. destruct l as [|t l]; [by intros [= <-]|].
  change (join c (s :: t :: l)) with (s ++ c :: join c (t :: l)). intros Hl Hd. specialize (IH Hl Hd).
  rewrite last_app_cons, last_cons, IH. by destruct (last d) eqn:E; [|apply last_None in E].
Qed.

(** A path of plain segments is clean and has those segments. *)
Lemma plain_path l : l ≠ [] → Forall plain_segment l → let p := SLASH :: join SLASH l in cleanPath p = p ∧ path_segments p = (l, false).
Proof.
  intros Hne H p.
  assert (split_byte SLASH p = [] :: l) as Hs.
  { unfold p. simpl. rewrite split_byte_join; [done|done|]. eapply Forall_impl; [exact H|]. by intros s (_ & _ & _ & ? & _). }
  assert (ends_in_slash p = false) as He.
  { unfold ends_in_slash. apply bool_decide_eq_false_2. unfold p. destruct (last l) as [d|] eqn:Ed; [|by apply last_None in Ed].
    assert (plain_segment d) as (Hd & _ & _ & Hsl & _). { rewrite Forall_forall in H. apply H. by apply last_Some_elem_of. }
    rewrite last_cons, (last_join _ _ _ Ed Hd). destruct (last d) as [x|] eqn:Ex; [|by apply last_None in Ex].
    intros [= ->]. by apply last_Some_elem_of in Ex. }
  split.
  - unfold cleanPath. change (rooted p) with p. cbv zeta. rewrite Hs, He. simpl andb. cbn iota. rewrite app_nil_r.
    unfold clean_segments. cbn [foldl]. rewrite (bool_decide_eq_true_2 (_ ∨ _)) by auto. fold (clean_segments l). by rewrite clean_plain.
  - unfold path_segments. rewrite Hs, He. f_equal. rewrite filter_cons_False by auto.
    clear -H. induction H as [|s l (Hs & _ & _ & _ & Hp) Hl IH]; [done|]. by rewrite filter_cons_True, fmap_cons, IH, pathUnescape_plain.
Qed.

(** The routes with the method and the shape of a path. *)
Definition candidate {B} (ms : list gostring) (n : nat) (slash : bool) (pb : pattern * B) : bool :=
  bool_decide (pt_method pb.1 ∈ ms) && (length (pt_segments pb.1) =? n)%nat && eqb (pt_slash pb.1) slash.

Lemma match_segments_length ps ss vs : match_segments ps ss = Some vs → length ps = length ss.
Proof.
  revert ss vs. induction ps as [|[l|n] ps IH]; intros [|s ss] vs; simpl; try done.
  - case_bool_decide; [|done]. intros ?. by erewrite IH.
  - intros (vs' & E & _)%fmap_Some. by erewrite IH.
Qed.

Lemma best_match_candidates {B} (rs : list (pattern * B)) ms ss slash :
  best_match rs ms (ss, slash) = best_match (List.filter (candidate ms (length ss) slash) rs) ms (ss, slash).
Proof.
  induction rs as [|[p b] rs IH]; [done|]. simpl. unfold candidate at 1. simpl. case_bool_decide as Hm; [|done]. simpl.
  unfold match_path. simpl. destruct (eqb (pt_slash p) slash) eqn:Es.
  - apply eqb_prop in Es. rewrite (bool_decide_eq_true_2 _ Es), andb_true_r. destruct (length (pt_segments p) =? length ss)%nat eqn:El.
    + simpl. rewrite (bool_decide_eq_true_2 _ Hm), <- IH. unfold match_path. simpl. by rewrite (bool_decide_eq_true_2 _ Es).
    + apply Nat.eqb_neq in El. destruct (match_segments _ _) eqn:E; [|done]. by apply match_segments_length in E.
  - apply eqb_false_iff in Es. by rewrite (bool_decide_eq_false_2 _ Es), andb_false_r.
Qed.

Lemma best_match_other {B} m l segs (b : B) rs ms s ss : l ≠ s → best_match ((MkPattern m (Lit l :: segs) false, b) :: rs) ms (s :: ss, false) = best_match rs ms (s :: ss, false).
Proof. intros Hn. simpl. case_bool_decide; [|done]. unfold match_path. simpl. by rewrite (bool_decide_eq_false_2 _ Hn). Qed.

(** The words that a page of the server's own has. *)
Definition taken : list gostring := [go "healthz"; go "readyz"; go "docs"].

Lemma route_one handle : handle ∉ taken →
  best_match routes [go "GET"] ([handle], false) = Some (MkPattern (go "GET") [Wild (go "handle")] false, RPublish, [(go "handle", handle)]).
Proof.
  intros Ht. rewrite best_match_candidates. simpl length.
  assert (List.filter (candidate [go "GET"] 1 false) routes =
    [at_path "GET" [Lit (go "healthz")] (RPage Healthz); at_path "GET" [Lit (go "readyz")] (RPage Readyz); at_path "GET" [Lit (go "docs")] (RPage DocsRedirect);
     at_path "GET" [Wild (go "handle")] RPublish]) as -> by (vm_compute; reflexivity).
  unfold at_path. rewrite !best_match_other by (intros <-; apply Ht; unfold taken; set_solver). reflexivity.
Qed.

Lemma route_two handle set : set ≠ go "vallet-helper.sh" → set ≠ go "vallet-helper.sh.sha256" →
  best_match routes [go "GET"] ([handle; set], false) =
  Some (MkPattern (go "GET") [Wild (go "handle"); Wild (go "set")] false, RPublish, [(go "handle", handle); (go "set", set)]).
Proof.
  intros H1 H2. rewrite best_match_candidates. simpl length.
  assert (List.filter (candidate [go "GET"] 2 false) routes =
    [at_path "GET" [Lit (go "install"); Lit (go "vallet-helper.sh")] (RPage InstallScript);
     at_path "GET" [Lit (go "install"); Lit (go "vallet-helper.sh.sha256")] (RPage InstallDigest);
     at_path "GET" [Wild (go "handle"); Wild (go "set")] RPublish]) as -> by (vm_compute; reflexivity).
  cbn [best_match at_path]. unfold match_path. cbn [match_segments pt_segments pt_slash fst snd]. rewrite !(bool_decide_eq_false_2 (_ = set)) by done.
  by destruct (bool_decide (go "install" = handle)).
Qed.

(** A GET or HEAD request finds what GET finds. *)
Lemma mux_get {B} (rs : list (pattern * B)) method path p b vs : method ∈ [go "GET"; go "HEAD"] → cleanPath path = path →
  (∀ pb, pb ∈ rs → pt_method pb.1 ≠ go "HEAD") → best_match rs [go "GET"] (path_segments path) = Some (p, b, vs) → mux rs method path = Found b vs.
Proof.
  intros Hm Hc Hno E. unfold mux. cbv zeta. rewrite Hc. replace (if bool_decide (method = go "CONNECT") then path else path) with path by by case_bool_decide.
  rewrite (bool_decide_eq_true_2 (path = path)) by done. cbn [negb]. apply elem_of_cons in Hm as [->|Hm]; [by rewrite E|].
  apply list_elem_of_singleton in Hm as ->. destruct (best_match rs [go "HEAD"] _) as [[[q c] us]|] eqn:Eh.
  - apply best_match_Some in Eh as (Hin & Hq%list_elem_of_singleton & _). by destruct (Hno _ Hin).
  - rewrite (bool_decide_eq_true_2 (go "HEAD" = go "HEAD")) by done. by rewrite E.
Qed.

Lemma no_head_route pb : pb ∈ routes → pt_method pb.1 ≠ go "HEAD".
Proof. revert pb. apply Forall_forall. unfold routes. repeat constructor; done. Qed.

Section reachable.
Context `{UF : !UnicodeFold} `{UL : !UnicodeFoldLaws} {U : UnicodeData}.

(** Every published name can be fetched.  Under the built-in lists and whatever terms
    administrators add, as long as no allowlist entry frees the words of the server's
    own pages, a handle that the guard accepted is not shadowed by a page: a GET or a
    HEAD of /handle leads to the publisher with that handle, and of /handle/set, for
    every valid name of a set, with the handle and the set.  The names arrive as they
    are: they have nothing to clean or to decode. *)
Theorem publish_reachable offensive m0 m op handle method : NewMatcher (DefaultLists offensive) = Ok m0 → steps matcher_step m0 m →
  (∀ w, w ∈ taken → allowlisted m (Skeleton w) = None) → Guard_Check (Some (Some m)) KindHandle op handle = None → method ∈ [go "GET"; go "HEAD"] →
  mux routes method (SLASH :: handle) = Found RPublish [(go "handle", handle)] ∧
  ∀ set, ValidateSetName set = None → mux routes method (SLASH :: handle ++ SLASH :: set) = Found RPublish [(go "handle", handle); (go "set", set)].
Proof.
  intros Hnew Hst Hfree Hg Hm. pose proof (Guard_handle_syntax _ _ _ Hg) as Hslug%slug_plain.
  assert (handle ∉ taken) as Ht.
  { intros Hin. revert Hg. 
    apply (listed_word_refused (DefaultLists offensive) m0 m (MkTermList (go "routing") MatchWholeSkeleton routingTerms) handle) with (c := Skeleton handle); [done|done|by left| | |done|by apply Hfree].
    - clear Hslug. revert handle Hin. apply Forall_forall. unfold taken. repeat constructor; apply (bool_decide_unpack _); vm_compute; exact I.
    - apply Forall2_same_length_lookup_2; [done|]. intros i x y Hx Hy. left. congruence. }
  split.
  - destruct (plain_path [handle]) as [Hc Hp]; [done|auto|]. simpl in Hc, Hp. 
    eapply mux_get; [done|exact Hc|exact no_head_route|]. rewrite Hp. by apply route_one.
  - intros set Hset. pose proof (slug_plain _ _ Hset) as Hplain. destruct (plain_path [handle; set]) as [Hc Hp]; [done|auto|]. change (join SLASH [handle; set]) with (handle ++ SLASH :: set) in Hc, Hp.
    eapply mux_get; [done|exact Hc|exact no_head_route|]. rewrite Hp. apply route_two; intros ->; by vm_compute in Hset.
Qed.
End reachable.

(** ** Fetching *)

Section fetch.
Context {S : Type} `{HS : !Store S} {K : Type} `{HK : !Ssh K} `{UF : !UnicodeFold} {U : UnicodeData} {V : Type} `{HV : !Verifier V} `{HL : !VerifierLaws V}.
Context (pages : page → handler json S).
Context (sv : server) (verifier : env → option V).

(** The headers the middlewares set, whatever the answer. *)
Definition edge_headers (e : env) (r : Request) (h : headers) : headers :=
  let h := if requestIsSecure (sv_hsts sv) r then hset "Strict-Transport-Security" hstsValue h else h in
  let id := Header_Get r RequestIDHeader in hset RequestIDHeader (if safeRequestID id then id else e_requestID e) h.

(** The publish limiter refuses the request, or lets it pass and counts it. *)
Lemma NewHandler_publish e r h (w : world S) vs : mux routes (r_Method r) (r_Path r) = Found RPublish vs →
  (is_Some (newPublishLimiter (sv_limits sv)) ∧ ∃ d, fst (NewHandler (K:=K) pages sv verifier e r h w) = writeRateLimited (edge_headers e r h) d) ∨
  ∃ id w1, w_conn w1 = w_conn w ∧ NewHandler (K:=K) pages sv verifier e r h w =
    publishHandler (K:=K) (Some (verifier e)) e (with_path_values (with_request_id r id) vs) (edge_headers e r h) w1.
Proof.
  intros Hmux. unfold NewHandler, chain, hstsMiddleware, requestIDMiddleware, serve_mux. cbn [foldr r_Method r_Path with_request_id].
  rewrite Hmux. cbn [dispatch chain foldr]. unfold rateLimitMiddleware. destruct (newPublishLimiter (sv_limits sv)) as [lim|].
  - case_bool_decide; [left; split; [by eexists|]; by eexists|]. unfold limited. destruct (Allow _ _ _ _ _) as [[d err] s].
    destruct (Allowed d); cbn [negb]; [right; by eexists _, (put_store s w)|left; split; [by eexists|]; by eexists].
  - right. by eexists _, w.
Qed.
(** How long, and by whom, an answer may be kept. *)
Definition cache_policy (protected : bool) : gostring := go (if protected then "private, max-age=60" else "public, max-age=60").

(** What a published document looks like on the wire. *)
Definition serves (r : Request) (body : bytes) (protected : bool) (resp : Response json) : Prop :=
  (if matchesETag (Header_Get r "If-None-Match") (entityTag body) then rs_Status resp = 304 ∧ rs_Body resp = NoBody
   else rs_Status resp = 200 ∧ rs_Body resp = (if bool_decide (r_Method r = go "HEAD") then NoBody else Text body)) ∧
  rs_Header resp !! go "ETag" = Some (entityTag body) ∧
  rs_Header resp !! go "Cache-Control" = Some (cache_policy protected) ∧
  (protected = true → rs_Header resp !! go "Vary" = Some (go "Authorization")).

Lemma writePublishBody_serves h r body protected : serves r body protected (writePublishBody h r (MkPublishResult body protected)).
Proof.
  assert (∀ n m (v : gostring) (h : headers), go n ≠ go m → hset n v h !! go m = h !! go m) as Hne by (intros; by apply lookup_insert_ne).
  assert (∀ n (v : gostring) (h : headers), hset n v h !! go n = Some v) as Heq by (intros; by apply lookup_insert_eq).
  unfold serves, writePublishBody, body_for. cbn [PR_Body PR_Protected]. destruct (matchesETag _ _); cbn [rs_Status rs_Header rs_Body];
    destruct protected; (split_and!; [done|done|repeat (rewrite Heq || rewrite Hne by done); reflexivity..|]); intros; try done; by repeat (rewrite Heq || rewrite Hne by done).
Qed.

(** C11. Fetching is exact on the wire.  For a request that the table leads to the publisher,
    on tables as the services keep them, the answer is the limiter's 429, when there is a
    limiter, or one of three, with the store answering or not: the document - whole, or not
    at all when the tag they sent is the document's own - of a set that the request is
    entitled to, under a tag that only depends on the document, kept by shared caches only
    when the set is public, and varying with the token when it is not; the one 404, which is
    the same whatever the handle, the set, the token and the tables are; or the one 500.
    When the store answers every statement, everyone entitled who is not limited gets the
    document, and everybody else the 404. *)
Theorem fetch_exact e r h (w : world S) vs : mux routes (r_Method r) (r_Path r) = Found RPublish vs → well_kept (K:=K) (tables w) →
  let resp := fst (NewHandler (K:=K) pages sv verifier e r h w) in
  let ask := entitled (verifier e) (PathValue (with_path_values r vs) "handle") (PathValue (with_path_values r vs) "set") (default [] (bearerToken r)) (tables w) in
  let document_served := ∃ o set protected body, ask o set protected ∧ document (K:=K) (Owner_ID o) (KeySet_ID set) (tables w) body ∧ serves r body protected resp in
  let refused := resp = writePublishNotFound (edge_headers e r h) r in
  (is_Some (newPublishLimiter (sv_limits sv)) ∧ rs_Status resp = 429) ∨
  ((document_served ∨ refused ∨ resp = writePublishError (edge_headers e r h) r) ∧
   (faults (w_conn w) = [] → ((∃ o set protected, ask o set protected) → document_served) ∧ ((∀ o set protected, ¬ ask o set protected) → refused))).
Proof.
  intros Hmux Hk resp ask document_served refused. destruct (NewHandler_publish e r h w vs Hmux) as [[Hlim [d Hd]]|(id & w1 & Hw & Eid)].
  { left. split; [done|]. unfold resp. by rewrite Hd. }
  right. assert (resp = fst (publishHandler (K:=K) (Some (verifier e)) e (with_path_values (with_request_id r id) vs) (edge_headers e r h) w1)) as Eresp
    by (unfold resp; by rewrite Eid). clearbody resp. clear Eid.
  assert (∀ body protected, resp = writePublishBody (edge_headers e r h) (with_path_values (with_request_id r id) vs) (MkPublishResult body protected) → serves r body protected resp) as Hserve.
  { clear. intros body protected ->. exact (writePublishBody_serves _ (with_path_values (with_request_id r id) vs) body protected). }
  unfold publishHandler, on_db in Eresp.
  change (bearerToken (with_path_values (with_request_id r id) vs)) with (bearerToken r) in Eresp.
  change (PathValue (with_path_values (with_request_id r id) vs)) with (PathValue (with_path_values r vs)) in Eresp.
  destruct (Resolve _ _ _ _ _) as [r1 c1] eqn:E. rewrite Hw in E. destruct (Resolve_exact _ _ _ _ _ _ _ Hk E) as (_ & Hany & Hent & Hno).
  assert (∀ o set protected body, ask o set protected → r1 = Ok (MkPublishResult body protected) → document (K:=K) (Owner_ID o) (KeySet_ID set) (tables w) body → document_served) as Hdoc.
  { intros o set protected body Ha Er Hb. exists o, set, protected, body. split_and!; [done|done|]. rewrite Er in Eresp. by apply Hserve. }
  split.
  - destruct r1 as [[body protected]|err].
    + left. destruct (Hany _ eq_refl) as (o & set & Ha & Hb). by eapply Hdoc.
    + right. cbn [fst] in Eresp. unfold refused. destruct (errors_is err publish_ErrNotFound); [left|right]; exact Eresp.
  - intros Hf. split.
    + intros (o & set & protected & Ha). destruct (Hent Hf _ _ _ Ha) as (body & Er & Hb). by eapply Hdoc.
    + intros Hn. rewrite (Hno Hf Hn) in Eresp. exact Eresp.
Qed.
End fetch.

(** ** Evaluating *)

Module ServerSample.
#[export] Existing Instance Keys.OneKey.
#[export] Existing Instance Keys.OneKey_laws.
#[export] Existing Instance AkSample.ascii_only.
#[export] Existing Instance FoldSample.plain.

Definition matcher : Matcher := match FoldSample.matcher with Ok m => m | Err _ => MkMatcher false [] None None end.
Lemma matcher_new : FoldSample.matcher = Ok matcher.
Proof. assert (is_ok FoldSample.matcher = true) as H by (vm_compute; reflexivity). unfold matcher. by destruct FoldSample.matcher. Qed.
Definition token : AccessToken := MkAccessToken (go "tok") (go "o") (go "cred") [MkScope ScopeFullOwner []] 0 (900 * Second).
Definition bearer : gostring := match signer_Issue sample_signer token with Ok t => t | Err _ => [] end.
Definition static : page → handler json MemoryStore := λ _ _ _ h w, (plain_error h 404 "404 page not found", w).
Lemma static_reads : pages_read static.
Proof. intros p e r h w. reflexivity. Qed.
Definition sv : server := MkServer (Some (MkCfgLimits false (MkCfgTier 0 0) (MkCfgTier 0 0) (MkCfgTier 0 0) (MkCfgTier 0 0))) (MkTrustedPeers []) (MkHstsPolicy false (MkTrustedPeers [])) (Some sample_signer) None.
Definition verifier (e : env) : option (ak_service * time) := Some (AkSample.svc, 5).
Definition e0 : env := MkEnv None (λ _, 5) (go "dev2") (MkStamp (go "b1") 0) (MkEntropy [] [] []) OnboardSample.ent OnboardSample.ids (go "req").
Definition w0 : world MemoryStore := MkWorld PublishSample.c1 (MkMemoryStore ∅ 0) matcher.
Definition serve := NewHandler (K:=unit) static sv verifier e0.
Definition request (method path : string) (auth : gostring) (body : gostring) : Request :=
  MkRequest (go method) (go "192.0.2.7:4000") false (go path) [(go "Authorization", go "Bearer " ++ auth)] body [] [].
Definition register : Request := request "POST" "/api/v1/devices" bearer (print (VObj [(go "name", VStr (go "tablet"))])).
Definition registered := serve register ∅ w0.
Definition fetch : Request := request "GET" "/alice" PublishSample.token [].
End ServerSample.
#[local] Existing Instance Keys.OneKey.
#[local] Existing Instance Keys.OneKey_laws.
#[local] Existing Instance AkSample.ascii_only.
#[local] Existing Instance FoldSample.plain.

Lemma request_confined_witness : rs_Status (fst ServerSample.registered) = 201 ∧
  ∃ acc o, owner_request ServerSample.sv ServerSample.e0 ServerSample.register acc o ∧
    owner_frame o (tables ServerSample.w0) (tables (snd ServerSample.registered)) ∧ tables (snd ServerSample.registered) ≠ tables ServerSample.w0.
Proof.
  split; [vm_compute; reflexivity|].
  pose proof (request_confined (K:=unit) ServerSample.static ServerSample.sv ServerSample.verifier ServerSample.e0
    ServerSample.register ∅ ServerSample.w0 (fst ServerSample.registered) (snd ServerSample.registered) ServerSample.static_reads
    ltac:(unfold ServerSample.registered, ServerSample.serve; apply surjective_pairing)) as H.
  assert (mux routes (r_Method ServerSample.register) (r_Path ServerSample.register) = Found RRegisterDevice []) as Em by (vm_compute; reflexivity).
  rewrite Em in H.
  assert (tables (snd ServerSample.registered) ≠ tables ServerSample.w0) as Hne.
  { intros E%(f_equal (λ d, size (devices d))). vm_compute in E. discriminate E. }
  destruct H as [[E|(acc & o & _ & Hr & F)] _]; [contradiction|]. exists acc, o. split; [exact Hr|]. split; [exact F|exact Hne].
Defined.

Lemma publish_reachable_witness : Guard_Check (Some (Some ServerSample.matcher)) KindHandle OpCreate (go "alice") = None ∧
  mux routes (go "HEAD") (SLASH :: go "alice") = Found RPublish [(go "handle", go "alice")].
Proof.
  assert (Guard_Check (Some (Some ServerSample.matcher)) KindHandle OpCreate (go "alice") = None) as Hg by (vm_compute; reflexivity).
  split; [exact Hg|].
  refine (proj1 (publish_reachable [go "forbidden"] ServerSample.matcher ServerSample.matcher OpCreate (go "alice") (go "HEAD") _ (steps_nil _ _) _ Hg _)).
  - exact ServerSample.matcher_new.
  - intros w _. unfold allowlisted. assert (m_allow ServerSample.matcher = None) as -> by (vm_compute; reflexivity). reflexivity.
  - right. left.
Defined.

Lemma fetch_exact_witness : ∃ o set protected body, document (K:=unit) (Owner_ID o) (KeySet_ID set) (tables ServerSample.w0) body ∧
  serves ServerSample.fetch body protected (fst (ServerSample.serve ServerSample.fetch ∅ ServerSample.w0)).
Proof.
  destruct (fetch_exact (K:=unit) ServerSample.static ServerSample.sv ServerSample.verifier ServerSample.e0
    ServerSample.fetch ∅ ServerSample.w0 [(go "handle", go "alice")] ltac:(vm_compute; reflexivity) PublishSample.c1_kept) as [[_ H]|[_ H]].
  { exfalso. revert H. vm_compute. discriminate. }
  destruct (H ltac:(vm_compute; reflexivity)) as [Hs _]. destruct Hs as (o & set & protected & body & _ & Hdoc & Hs).
  - exists AkSample.owner, AkSample.set, true.
    assert (PathValue (with_path_values ServerSample.fetch [(go "handle", go "alice")]) "handle" = go "alice") as -> by (vm_compute; reflexivity).
    assert (PathValue (with_path_values ServerSample.fetch [(go "handle", go "alice")]) "set" = []) as -> by (vm_compute; reflexivity).
    assert (default [] (bearerToken ServerSample.fetch) = PublishSample.token) as -> by (vm_compute; reflexivity).
    exact PublishSample.c1_entitled.
  - exists o, set, protected, body. split; [exact Hdoc|exact Hs].
Defined.
