(* ===== verification/Startup.v ===== *)
(** * Starting the server

    [cmd/valletd]: how a configuration becomes a running server.  The keys and the pepper
    are resolved, the services that depend on them are mounted or left out, the name
    policy is built from the lists, the configuration and the stored overrides, and the
    periodic jobs are registered.  Opening the database, migrating it (see [Migrate]),
    telemetry and the listeners are not part of this model; constructors that only refuse
    missing collaborators have them here. *)

From Stdlib Require Import SpecFloat.
From S2P Require Import Prelude DomainErrors GoLib NetIP GoNum Secrets Config ConfigEnv Domain Counter RateLimit Blocklist Sha256 Tokens Authz Database StoreLogic AuditLog KeyRepos AccessKey KeySets Handles Keys DeviceKeys Publish TokenService PairingCode Enrollment Erasure Administrators ListAdmin Onboarding HttpEdge HttpApi Isolation HttpRouter Sweep.

Open Scope Z_scope.

Section startup.
(** The process environment and the files. *)
Context (lookup : gostring → option gostring) (fs : files).

Definition production (cfg : Config) : bool := eqs (Srv_Environment (Cfg_Server cfg)) "production".

(** The mode of the file provider, and resolving one reference. *)
Definition permMode (cfg : Config) : PermMode := if production cfg then PermError else PermWarn.
Definition resolve_ref (cfg : Config) (ref : Ref) : result Redacted :=
  match NewResolver (Builtin (permMode cfg) lookup fs) with Ok r => Resolver_Resolve r ref | Err e => Err e end.

(** src/cmd/valletd/secrets.go:24-80, resolveSecrets *)
Definition resolveSecrets (cfg : Config) : result (gmap gostring Redacted) :=
  match NewResolver (Builtin (permMode cfg) lookup fs) with
  | Err e => Err (errorf "secret resolver" [e])
  | Ok r =>
      match ResolveRequiredSecrets cfg r with
      | Err e => Err e
      | Ok l => Ok (foldl (λ m s, <[s.1 := s.2]> m) ∅ l)
      end
  end.

(** A secret that production requires; empty elsewhere when it is not configured. *)
Definition required_in_production (cfg : Config) (ref : Ref) (missing field : string) : result Redacted :=
  if Ref_IsZero ref then if production cfg then Err (errors_new missing) else Ok []
  else match resolve_ref cfg ref with Ok k => Ok k | Err e => Err (errorf field [e]) end.

(** src/cmd/valletd/publishgate.go:368-426, tokenSigningKey *)
Definition tokenSigningKey (cfg : Config) : result Redacted :=
  required_in_production cfg (Ath_TokenSigningKeyRef (Cfg_Auth cfg))
    "auth.token_signing_key_ref is required in production: without it no access token verifies and the owner management API answers 401 to everyone"
    "auth.token_signing_key_ref".

(** src/cmd/valletd/publishgate.go:474-529, adminTokenSigningKey *)
Definition adminTokenSigningKey (cfg : Config) : result Redacted :=
  required_in_production cfg (Ath_AdminTokenSigningKeyRef (Cfg_Auth cfg))
    "auth.admin_token_signing_key_ref is required in production: without it no administrator token verifies and the admin API answers 403 to everyone"
    "auth.admin_token_signing_key_ref".

(** src/cmd/valletd/publishgate.go:583-640, accessKeyPepper *)
Definition accessKeyPepper (cfg : Config) : result Redacted :=
  required_in_production cfg (Ath_AccessKeyPepperRef (Cfg_Auth cfg))
    "auth.access_key_pepper_ref is required in production: without it no access key verifies and every protected key set answers 404"
    "auth.access_key_pepper_ref".

(** src/cmd/valletd/datastore.go:51-86, postgresDSN *)
Definition postgresDSN (cfg : Config) : result Redacted :=
  let ref := PG_DSNRef (DB_Postgres (Cfg_Database cfg)) in
  if Ref_IsZero ref then Err (errors_new "database.postgres.dsn_ref is required when database.driver is postgres")
  else match resolve_ref cfg ref with Ok d => Ok d | Err e => Err (errorf "database.postgres.dsn_ref" [e]) end.

(** src/cmd/valletd/publishgate.go:196-250, mountOwnerManagement
    (up to the signer; the services mounted after it refuse only missing collaborators) *)
Definition mountOwnerManagement (cfg : Config) : result (option AccessTokenSigner) :=
  match tokenSigningKey cfg with
  | Err e => Err e
  | Ok key =>
      if bool_decide (key = []) then Ok None else
      match NewAccessTokenSigner key with
      | Ok signer => Ok (Some signer)
      | Err e => Err (errorf "access token signer (auth.token_signing_key_ref)" [e])
      end
  end.

(** src/cmd/valletd/publishgate.go:428-472, mountAdminIdentifier *)
Definition mountAdminIdentifier (cfg : Config) : result (option AdminTokenSigner) :=
  match adminTokenSigningKey cfg with
  | Err e => Err e
  | Ok key =>
      if bool_decide (key = []) then Ok None else
      match NewAdminTokenSigner key with
      | Ok signer => Ok (Some signer)
      | Err e => Err (errorf "admin token signer (auth.admin_token_signing_key_ref)" [e])
      end
  end.

(** src/cmd/valletd/publishgate.go:531-581, newPublisher
    (a publisher is known by its verifier of access keys) *)
Definition newPublisher (cfg : Config) : result (option ak_service) :=
  match accessKeyPepper cfg with
  | Err e => Err e
  | Ok pepper =>
      if bool_decide (pepper = []) then Ok None else
      match ak_New pepper None with
      | Ok svc => Ok (Some svc)
      | Err e => Err (errorf "access key service (auth.access_key_pepper_ref)" [e])
      end
  end.

Open Scope stm_scope.

Section policy.
Context `{UF : !UnicodeFold} {U : UnicodeData}.
(** The embedded list of offensive terms, and the reader of seed files. *)
Context (offensive : list gostring) (read_seed : gostring → result seed).

(** src/cmd/valletd/namepolicy.go:36-81, newNamePolicy *)
Definition newNamePolicy (cfg : Config) : stM conn Matcher :=
  match NewMatcher (DefaultLists offensive) with
  | Err e => st_fail (errorf "name policy: build matcher" [e])
  | Ok m =>
      let b := Cfg_Blocklist cfg in
      wrapped "name policy: load composed lists"
        (LoadPolicy m (MkSeed (Blk_ExtraEntries b) (Blk_AllowEntries b)) (if bool_decide (Blk_SeedFile b = []) then None else Some (read_seed (Blk_SeedFile b))))
  end.

(** src/internal/transport/http/hsts.go:90-101, newHSTSPolicy *)
Definition newHSTSPolicy (cfg : Config) : hstsPolicy := MkHstsPolicy (eqs (TLS_Mode (Cfg_TLS cfg)) "upstream") (newTrustedPeers (Srv_TrustedProxies (Cfg_Server cfg))).

(** The limits of the configuration, as the router reads them. *)
Definition limits_of (cfg : Config) : cfgLimits :=
  let tier t := MkCfgTier (Tr_Requests t) (Tr_Window t) in
  let t := RL_Tiers (Cfg_RateLimit cfg) in
  MkCfgLimits (RL_Enabled (Cfg_RateLimit cfg)) (tier (Trs_Publish t)) (tier (Trs_Management t)) (tier (Trs_Admin t)) (tier (Trs_Auth t)).

(** What serves requests: the server, the verifier of access keys and the matcher. *)
Record deps := MkDeps { dp_server : server; dp_verifier : option ak_service; dp_matcher : Matcher }.

(** src/cmd/valletd/publishgate.go:83-194, buildAPIDeps *)
Definition buildAPIDeps (cfg : Config) : stM conn deps :=
  match newPublisher cfg with
  | Err e => st_fail e
  | Ok publisher =>
      let! m := newNamePolicy cfg in
      match mountOwnerManagement cfg with
      | Err e => st_fail e
      | Ok signer =>
          match mountAdminIdentifier cfg with
          | Err e => st_fail e
          | Ok admin =>
              st_ret (MkDeps (MkServer (Some (limits_of cfg)) (newTrustedPeers (Srv_TrustedProxies (Cfg_Server cfg))) (newHSTSPolicy cfg) signer admin) publisher m)
          end
      end
  end.
End policy.

(** ** Periodic jobs *)

(** src/internal/erasure/scheduler.go:85-127, NewScheduler *)
Definition NewScheduler (p : Purger) (interval : duration) : result (Purger * duration) :=
  if interval <=? 0 then Err (errorf "erasure: purge interval must be positive" [ErrInvalidInput]) else Ok (p, interval).

(** src/cmd/valletd/retention.go:14-62, newRetentionScheduler *)
Definition newRetentionScheduler (cfg : Config) : result (option (Purger * duration)) :=
  let r := Cfg_Retention cfg in
  if Ret_AuditPurgeInterval r =? 0 then Ok None else
  match NewPurger (Some (Ret_AuditRetention r)) (Some (Ret_AuditPurgeBatch r)) (Some (Ret_AuditPurgeMaxPerRun r)) with
  | Err e => Err (errorf "audit retention purge" [e])
  | Ok p => match NewScheduler p (Ret_AuditPurgeInterval r) with Ok s => Ok (Some s) | Err e => Err (errorf "audit retention purge" [e]) end
  end.

Section sweeps.
Context `{UF : !UnicodeFold} {U : UnicodeData} (offensive : list gostring).
(** The stamps of the records that a pass writes. *)
Context (stamps : time → list stamp).

(** src/cmd/valletd/sweeps.go:262-304, newHandleSweepService *)
Definition newHandleSweepService (cfg : Config) : result handle_service :=
  match NewMatcher (DefaultLists offensive) with
  | Err e => Err (errorf "name guard" [e])
  | Ok m => Ok (MkHandleService (Some (Some m)) DefaultMaxHeldNames (Ret_HandleQuarantine (Cfg_Retention cfg)))
  end.

(** The work of a sweep, run against the database as a whole: each of its statements can
    fail, as it does when the context is done. *)
Definition sweep_work : Type := conn → outcome * conn.

(** A pass of a sweep over the database: the error it ends with. *)
Definition sweep_pass (m : stM conn (Z * option goerror)) : sweep_work := λ c,
  match m c with
  | (Ok (_, e), c') => (Returned e, c')
  | (Err e, c') => (Returned (Some e), c')
  end.

(** src/cmd/valletd/sweeps.go:98-149, addHandleQuarantineSweep *)
Definition addHandleQuarantineSweep (cfg : Config) (r : Runner sweep_work) : result (bool * Runner sweep_work) :=
  let ret := Cfg_Retention cfg in
  if Ret_HandleQuarantineSweepInterval ret =? 0 then Ok (false, r) else
  match newHandleSweepService cfg with
  | Err e => Err (errorf "handle quarantine release sweep" [e])
  | Ok svc =>
      match AddJob r (MkJob (go "handle_quarantine_release") (Ret_HandleQuarantineSweepInterval ret)
                        (Some (λ now, sweep_pass (handle_ReleaseExpired now (stamps now) (Ret_HandleQuarantineSweepBatch ret))))) with
      | Err e => Err (errorf "maintenance sweeps" [e])
      | Ok r => Ok (true, r)
      end
  end.

(** src/cmd/valletd/sweeps.go:209-260, newAccessKeySweepService *)
Definition newAccessKeySweepService (pepper : Redacted) (graceWindow : duration) : result ak_service := ak_New pepper (Some graceWindow).

(** src/cmd/valletd/sweeps.go:151-207, addAccessKeyGraceSweep *)
Definition addAccessKeyGraceSweep (cfg : Config) (pepper : Redacted) (r : Runner sweep_work) : result (bool * Runner sweep_work) :=
  let ret := Cfg_Retention cfg in
  if Ret_AccessKeyGraceSweepInterval ret =? 0 then Ok (false, r) else
  match newAccessKeySweepService pepper (Ath_AccessKeyGraceWindow (Cfg_Auth cfg)) with
  | Err e => Err (errorf "access key grace expiry sweep" [e])
  | Ok svc =>
      match AddJob r (MkJob (go "access_key_grace_expiry") (Ret_AccessKeyGraceSweepInterval ret)
                        (Some (λ now, sweep_pass (ak_ExpireGrace now (stamps now) (Ret_AccessKeyGraceSweepBatch ret))))) with
      | Err e => Err (errorf "maintenance sweeps" [e])
      | Ok r => Ok (true, r)
      end
  end.

(** src/cmd/valletd/sweeps.go:28-96, newSweepRunner *)
Definition newSweepRunner (cfg : Config) (pepper : Redacted) : result (option (Runner sweep_work)) :=
  match NewRunner None with
  | Err e => Err (errorf "maintenance sweeps" [e])
  | Ok r =>
      match addHandleQuarantineSweep cfg r with
      | Err e => Err e
      | Ok (a, r) =>
          match addAccessKeyGraceSweep cfg pepper r with
          | Err e => Err e
          | Ok (b, r) => Ok (if a || b then Some r else None)
          end
      end
  end.
End sweeps.

(** ** Commands *)

(** src/cmd/valletd/bootstrapadmin.go:29-129, runBootstrapAdmin
    (after its flags are read, the configuration loaded and the database opened and
    migrated; [id] and [jti] are the random identifiers) *)
Definition runBootstrapAdmin (cfg : Config) (label : gostring) (ttl : duration) (now : time) (id jti : gostring) : stM conn (gostring * gostring) :=
  if bool_decide (label = []) then st_fail (errors_new "bootstrap-admin: -label is required") else
  if ttl <=? 0 then st_fail (errors_new "bootstrap-admin: -ttl must be greater than zero") else
  if negb (bool_decide (ValidateDatabase cfg = [])) then st_fail (errorf "invalid configuration" []) else
  match adminTokenSigningKey cfg with
  | Err e => st_fail e
  | Ok key =>
      if bool_decide (key = []) then st_fail (errors_new "bootstrap-admin: auth.admin_token_signing_key_ref must be set to mint an administrator token") else
      match NewAdminTokenSigner key with
      | Err e => st_fail (errorf "bootstrap-admin: admin token signer (auth.admin_token_signing_key_ref)" [e])
      | Ok signer =>
          let! _ := wrapped "bootstrap-admin: create administrator" (admin_Create (MkAdministrator id label AdminStatusActive now now)) in
          match admin_Issue signer id jti now (time_add now ttl) with
          | Err e => st_fail (errorf "bootstrap-admin: mint administrator token" [e])
          | Ok token => st_ret (id, token)
          end
      end
  end.
End startup.

(** ** Lemmas *)

Section lemmas.
Context (lookup : gostring → option gostring) (fs : files).

Lemma resolve_ref_nonempty cfg ref k : resolve_ref lookup fs cfg ref = Ok k → k ≠ [].
Proof.
  unfold resolve_ref. destruct (NewResolver _) as [r|] eqn:Er; [|done]. intros H ->. by pose proof (builtin_not_blank _ _ _ _ _ _ Er H).
Qed.

(** A guard and its secret: it is there with the secret that its reference resolves to, which is
    long enough; or it is left out, nothing being configured, and not in production. *)
Definition guarded_by (cfg : Config) (ref : Ref) (key : option bytes) : Prop :=
  match key with
  | Some k => ref ≠ [] ∧ resolve_ref lookup fs cfg ref = Ok k ∧ (32 ≤ length k)%nat
  | None => ref = [] ∧ production cfg = false
  end.

Lemma required_in_production_Ok cfg ref missing field k : required_in_production lookup fs cfg ref missing field = Ok k →
  (k = [] ∧ ref = [] ∧ production cfg = false) ∨ (k ≠ [] ∧ ref ≠ [] ∧ resolve_ref lookup fs cfg ref = Ok k).
Proof.
  unfold required_in_production. destruct (Ref_IsZero ref) eqn:Ez.
  - apply bool_decide_eq_true in Ez. destruct (production cfg); [done|]. intros [= <-]. by left.
  - apply zero_false in Ez. destruct (resolve_ref lookup fs cfg ref) as [k'|] eqn:Er; [|done]. intros [= <-]. right. by apply resolve_ref_nonempty in Er as ?.
Qed.

Lemma long_enough (k : bytes) : (len k <? 32) = false → (32 ≤ length k)%nat.
Proof. unfold len. lia. Qed.

Lemma mountOwnerManagement_Ok cfg signer : mountOwnerManagement lookup fs cfg = Ok signer →
  guarded_by cfg (Ath_TokenSigningKeyRef (Cfg_Auth cfg)) (signer_key <$> signer).
Proof.
  unfold mountOwnerManagement. destruct (tokenSigningKey lookup fs cfg) as [k|] eqn:Ek; [|done]. apply required_in_production_Ok in Ek as [(-> & ? & ?)|(Hk & ? & ?)].
  - by intros [= <-].
  - rewrite bool_decide_eq_false_2 by done. unfold NewAccessTokenSigner. destruct (len k <? MinSigningKeyLen) eqn:El; [done|]. intros [= <-]. split_and!; [done..|by apply long_enough].
Qed.

Lemma mountAdminIdentifier_Ok cfg signer : mountAdminIdentifier lookup fs cfg = Ok signer →
  guarded_by cfg (Ath_AdminTokenSigningKeyRef (Cfg_Auth cfg)) (admin_key <$> signer).
Proof.
  unfold mountAdminIdentifier. destruct (adminTokenSigningKey lookup fs cfg) as [k|] eqn:Ek; [|done]. apply required_in_production_Ok in Ek as [(-> & ? & ?)|(Hk & ? & ?)].
  - by intros [= <-].
  - rewrite bool_decide_eq_false_2 by done. unfold NewAdminTokenSigner. destruct (len k <? MinSigningKeyLen) eqn:El; [done|]. intros [= <-]. split_and!; [done..|by apply long_enough].
Qed.

Lemma newPublisher_Ok cfg svc : newPublisher lookup fs cfg = Ok svc → guarded_by cfg (Ath_AccessKeyPepperRef (Cfg_Auth cfg)) (ak_pepper <$> svc).
Proof.
  unfold newPublisher. destruct (accessKeyPepper lookup fs cfg) as [k|] eqn:Ek; [|done]. apply required_in_production_Ok in Ek as [(-> & ? & ?)|(Hk & ? & ?)].
  - by intros [= <-].
  - rewrite bool_decide_eq_false_2 by done. unfold ak_New, newHasher. destruct (len k <? MinPepperLen) eqn:El; [done|]. cbn [default]. destruct (_ <=? 0); [done|]. intros [= <-]. split_and!; [done..|by apply long_enough].
Qed.

Section deps.
Context `{UF : !UnicodeFold} {U : UnicodeData} (offensive : list gostring) (read_seed : gostring → result seed).

Lemma buildAPIDeps_Ok cfg c d c' : buildAPIDeps lookup fs offensive read_seed cfg c = (Ok d, c') →
  newPublisher lookup fs cfg = Ok (dp_verifier d) ∧ mountOwnerManagement lookup fs cfg = Ok (sv_signer (dp_server d)) ∧
  mountAdminIdentifier lookup fs cfg = Ok (sv_adminSigner (dp_server d)) ∧ sv_limits (dp_server d) = Some (limits_of cfg) ∧
  sv_proxies (dp_server d) = newTrustedPeers (Srv_TrustedProxies (Cfg_Server cfg)).
Proof.
  unfold buildAPIDeps. destruct (newPublisher lookup fs cfg) as [pub|]; [|done]. unfold st_bind. destruct (newNamePolicy _ _ _ _) as [[m|] c1]; [|done].
  destruct (mountOwnerManagement lookup fs cfg) as [signer|]; [|done]. destruct (mountAdminIdentifier lookup fs cfg) as [admin|]; [|done].
  intros [= <- _]. done.
Qed.

(** C14. The server never starts half locked.  When the parts of the API are built, each of the
    three guards - owners' tokens, administrators' tokens, access keys - either works with
    the very secret that its own reference resolves to, which has at least 32 bytes; or it
    is left out, and then its reference is not configured and this is not production.  So a
    secret that is configured but cannot be resolved or is too short, and one that
    production lacks, stop the start. *)
Theorem start_is_all_or_nothing cfg c d c' : buildAPIDeps lookup fs offensive read_seed cfg c = (Ok d, c') →
  let a := Cfg_Auth cfg in
  let guarded_by (ref : Ref) (key : option bytes) := match key with
    | Some k => ref ≠ [] ∧ resolve_ref lookup fs cfg ref = Ok k ∧ (32 ≤ length k)%nat
    | None => ref = [] ∧ Srv_Environment (Cfg_Server cfg) ≠ go "production"
    end in
  guarded_by (Ath_TokenSigningKeyRef a) (signer_key <$> sv_signer (dp_server d)) ∧
  guarded_by (Ath_AdminTokenSigningKeyRef a) (admin_key <$> sv_adminSigner (dp_server d)) ∧
  guarded_by (Ath_AccessKeyPepperRef a) (ak_pepper <$> dp_verifier d).
Proof.
  intros (H1%newPublisher_Ok & H2%mountOwnerManagement_Ok & H3%mountAdminIdentifier_Ok & _)%buildAPIDeps_Ok a g.
  assert (∀ ref key, guarded_by cfg ref key → g ref key) as Hg.
  { intros ref [k|]; [done|]. intros [? Hp]. split; [done|]. by apply bool_decide_eq_false in Hp. }
  split_and!; by apply Hg.
Qed.
End deps.
End lemmas.

(** ** The jobs of a validated configuration *)

Section jobs.
Context `{UF : !UnicodeFold} {U : UnicodeData} (offensive : list gostring) (stamps : time → list stamp).

Lemma valid_retention url_Parse visit c : Validate url_Parse visit c = [] → let r := Cfg_Retention c in
  0 < Ret_AuditRetention r ∧ 0 ≤ Ret_AuditPurgeInterval r ∧ 1 ≤ Ret_AuditPurgeBatch r ∧ 1 ≤ Ret_AuditPurgeMaxPerRun r ∧
  0 ≤ Ret_HandleQuarantineSweepInterval r ∧ 0 ≤ Ret_AccessKeyGraceSweepInterval r.
Proof.
  intros Hc. destruct (valid_parts _ _ _ Hc) as (_ & _ & _ & _ & _ & _ & _ & Hr & _). unfold validateRetention in Hr.
  rewrite !app_nil, !when_add in Hr. destruct Hr as (_ & H2 & H3 & H4 & H5 & H6 & _ & H8 & _).
  apply when_nil in H2 as [H2|?]; [|done]. reflect_bools. split_and!; lia.
Qed.

Lemma valid_grace url_Parse visit c : Validate url_Parse visit c = [] → 0 < Ath_AccessKeyGraceWindow (Cfg_Auth c).
Proof.
  intros Hc. destruct (valid_parts _ _ _ Hc) as (_ & _ & _ & Ha & _). unfold validateAuth in Ha. rewrite !app_nil, !when_add in Ha.
  destruct Ha as (_ & _ & H & _). apply orb_false_iff in H as [H%Z.leb_gt _]. done.
Qed.

(** The jobs of a runner: their names and how often each runs. *)
Definition schedule (r : option (Runner sweep_work)) : list (gostring * duration) := from_option (λ r, (λ j, (Job_Name j, Job_Interval j)) <$> r_jobs r) [] r.

(** A configuration that validates always starts its jobs, and only those it asks for.
    The audit trail is purged with the configured retention, batch and limit; the
    quarantine sweep and the grace sweep run at the configured intervals; and each of the
    three is left out exactly when its interval is zero. *)
Theorem validated_jobs url_Parse visit c pepper m : Validate url_Parse visit c = [] →
  NewMatcher (DefaultLists offensive) = Ok m → MinPepperLen ≤ len pepper →
  let r := Cfg_Retention c in
  newRetentionScheduler c = Ok (if Ret_AuditPurgeInterval r =? 0 then None
    else Some (MkPurger (Ret_AuditRetention r) (Ret_AuditPurgeBatch r) (Ret_AuditPurgeMaxPerRun r), Ret_AuditPurgeInterval r)) ∧
  ∃ runner, newSweepRunner offensive stamps c pepper = Ok runner ∧
    schedule runner = filter (λ j, j.2 ≠ 0) [(go "handle_quarantine_release", Ret_HandleQuarantineSweepInterval r); (go "access_key_grace_expiry", Ret_AccessKeyGraceSweepInterval r)].
Proof.
  intros Hc Hm Hp r. destruct (valid_retention _ _ _ Hc) as (H1 & H2 & H3 & H4 & H5 & H6). pose proof (valid_grace _ _ _ Hc) as Hg. fold r in H1, H2, H3, H4, H5, H6. split.
  - unfold newRetentionScheduler. fold r. destruct (Z.eqb_spec (Ret_AuditPurgeInterval r) 0); [done|].
    unfold NewPurger, NewScheduler. cbv zeta. cbn [default from_option id p_retention p_batch p_maxPerRun].
    repeat (rewrite (proj2 (Z.leb_gt _ _)) by lia; cbn beta iota). done.
  - unfold newSweepRunner, NewRunner, addHandleQuarantineSweep, addAccessKeyGraceSweep, newHandleSweepService, newAccessKeySweepService, ak_New, newHasher.
    fold r. rewrite Hm, (proj2 (Z.ltb_ge _ _) Hp). cbv zeta. cbn [default from_option id]. rewrite (proj2 (Z.leb_gt _ _) Hg).
    destruct (Z.eqb_spec (Ret_HandleQuarantineSweepInterval r) 0) as [E1|E1], (Z.eqb_spec (Ret_AccessKeyGraceSweepInterval r) 0) as [E2|E2];
      unfold AddJob; cbn [Job_Name Job_Interval Job_Run]; try rewrite (proj2 (Z.leb_gt (Ret_HandleQuarantineSweepInterval r) _)) by lia;
      try rewrite (proj2 (Z.leb_gt (Ret_AccessKeyGraceSweepInterval r) _)) by lia; eexists; (split; [reflexivity|]);
      unfold schedule; rewrite ?E1, ?E2; cbn; repeat (case_decide; try done).
Qed.
End jobs.

(** ** The first administrator *)

Section bootstrap.
Context (lookup : gostring → option gostring) (fs : files).

(** The new administrator's row, and nothing else. *)
Definition enrolled (id label : gostring) (now : time) (d : db) : db := set_admins <[id := MkAdministrator id label AdminStatusActive now now]> d.

Lemma wp_admin_Create b a d Q : (∀ e, Q (Err e) d) → (admins d !! Admin_ID a = None → Admin_ID a ≠ [] → Q (Ok tt) (set_admins <[Admin_ID a := a]> d)) → wp b (admin_Create a) d Q.
Proof.
  intros He Ho. unfold admin_Create. case_bool_decide as Ei; [by wp_step|]. destruct (negb _); [by wp_step|]. wp_step. apply wp_exec; [by intros; apply He|].
  destruct (admins d !! Admin_ID a) eqn:Ea; [done|]. wp_step. by apply Ho.
Qed.

(** What the command prints is what the server accepts.  Under the same configuration the
    server verifies administrators' tokens with the signer that the command signed with; the
    printed token names the new administrator from the second the command ran until its
    lifetime has passed, in whole seconds, and at no other time; and the database gained that one,
    active, administrator.  A command that fails leaves the database as it was. *)
Theorem bootstrap_admin_exact cfg label ttl now id jti c r c' :
  let claims := admin_claims id jti now (time_add now ttl) in
  admin_carried claims → jti ≠ [] →
  runBootstrapAdmin lookup fs cfg label ttl now id jti c = (r, c') →
  match r with
  | Err _ => data c' = data c
  | Ok (id', token) => id' = id ∧ admins (data c) !! id = None ∧ data c' = enrolled id label now (data c) ∧ active_admin id (data c') ∧
      ∃ signer, mountAdminIdentifier lookup fs cfg = Ok (Some signer) ∧
        ∀ t, admin_Verify signer token t = if (unix_time (time_unix now) <=? t) && (t <? unix_time (time_unix (now + ttl))) then Ok id else Err ErrAuthFailed
  end.
Proof.
  intros claims Hjson Hjti. unfold runBootstrapAdmin. case_bool_decide; [by intros [= <- <-]|]. destruct (Z.leb_spec ttl 0) as [|Httl]; [by intros [= <- <-]|].
  destruct (negb _); [by intros [= <- <-]|]. unfold mountAdminIdentifier. destruct (adminTokenSigningKey lookup fs cfg) as [key|e]; [|by intros [= <- <-]].
  case_bool_decide; [by intros [= <- <-]|]. destruct (NewAdminTokenSigner key) as [signer|e] eqn:Es; [|by intros [= <- <-]].
  intros Hrun. pattern r, (data c'). eapply (wp_run false _ (data c)); [|done|done|exact Hrun]. clear Hrun r c'.
  wp_step. apply wp_wrapped, wp_admin_Create; [by intros|]. cbn [Admin_ID]. intros Hnew Hid.
  assert (∃ token, admin_Issue signer id jti now (time_add now ttl) = Ok token) as [token Ht].
  { unfold admin_Issue. rewrite !bool_decide_eq_false_2 by done. unfold time_before, time_add. rewrite (proj2 (Z.ltb_lt _ _)) by lia. by eexists. }
  rewrite Ht. wp_step. split_and!; [done..| |].
  - eexists. unfold enrolled. cbn. rewrite lookup_insert_eq. done.
  - exists signer. split; [done|]. intros t. by apply (admin_Verify_Issue _ _ _ _ _ _ t Hjson Ht).
Qed.
End bootstrap.

(** ** Evaluating *)

Module StartSample.
#[export] Existing Instance AkSample.ascii_only.
#[export] Existing Instance FoldSample.plain.
Definition key : gostring := repeat (byte_of 107) 32.
Definition lookup (name : gostring) : option gostring := if bool_decide (name = go "SIGN") || bool_decide (name = go "ADMIN") then Some key else None.
Definition fs : files := λ path, if bool_decide (path = go "/run/pepper") then Ok (MkOpened (Ok (true, 384)) (Ok (key ++ [byte_of 10]))) else Err (errors_new "no such file").
Definition read_seed (path : gostring) : result seed := Err (errors_new "no such file").
Definition empty_conn : conn := MkConn empty_db [].
Definition claims : adminClaims := admin_claims (go "root") (go "jti") (10 * Second) (10 * Second + Hour).
Definition bootstrap := runBootstrapAdmin lookup fs ConfigSample.c0 (go "ops") Hour (10 * Second) (go "root") (go "jti") empty_conn.
End StartSample.
#[local] Existing Instance AkSample.ascii_only.
#[local] Existing Instance FoldSample.plain.

Lemma start_is_all_or_nothing_witness : ∃ d c', buildAPIDeps StartSample.lookup StartSample.fs [go "forbidden"] StartSample.read_seed ConfigSample.c0 StartSample.empty_conn = (Ok d, c') ∧
  is_Some (sv_signer (dp_server d)) ∧ is_Some (sv_adminSigner (dp_server d)) ∧ is_Some (dp_verifier d).
Proof.
  destruct (buildAPIDeps StartSample.lookup StartSample.fs [go "forbidden"] StartSample.read_seed ConfigSample.c0 StartSample.empty_conn) as [[d|e] c'] eqn:E.
  - exists d, c'. split; [reflexivity|]. destruct (start_is_all_or_nothing _ _ _ _ _ _ _ _ E) as (H1 & H2 & H3).
    destruct (sv_signer (dp_server d)); [|by destruct H1]. destruct (sv_adminSigner (dp_server d)); [|by destruct H2].
    destruct (dp_verifier d); [|by destruct H3]. split_and!; by eexists.
  - exfalso. apply (f_equal (λ x, is_ok (fst x))) in E. vm_compute in E. discriminate E.
Defined.

Lemma validated_jobs_witness : newRetentionScheduler ConfigSample.c0 = Ok (Some (MkPurger (365 * day) 500 100000, 24 * Hour)) ∧
  ∃ runner, newSweepRunner [go "forbidden"] (λ _, []) ConfigSample.c0 StartSample.key = Ok runner ∧
    schedule runner = [(go "handle_quarantine_release", Hour)].
Proof.
  destruct (validated_jobs [go "forbidden"] (λ _, []) ConfigSample.no_url ConfigSample.in_order ConfigSample.c0 StartSample.key ServerSample.matcher
    ConfigSample.c0_valid ServerSample.matcher_new ltac:(vm_compute; discriminate)) as [H1 (runner & H2 & H3)].
  split; [rewrite H1; vm_compute; reflexivity|]. exists runner. split; [exact H2|]. rewrite H3. vm_compute. reflexivity.
Defined.

Lemma bootstrap_admin_exact_witness : ∃ token signer, fst StartSample.bootstrap = Ok (go "root", token) ∧
  mountAdminIdentifier StartSample.lookup StartSample.fs ConfigSample.c0 = Ok (Some signer) ∧
  admin_Verify signer token (11 * Second) = Ok (go "root").
Proof.
  pose proof (bootstrap_admin_exact StartSample.lookup StartSample.fs ConfigSample.c0 (go "ops") Hour (10 * Second) (go "root") (go "jti")
    StartSample.empty_conn (fst StartSample.bootstrap) (snd StartSample.bootstrap) ltac:(repeat split; vm_compute; (reflexivity || discriminate)) ltac:(discriminate)
    ltac:(unfold StartSample.bootstrap; apply surjective_pairing)) as H.
  destruct (fst StartSample.bootstrap) as [[id token]|e] eqn:E.
  - destruct H as (-> & _ & _ & _ & signer & Hs & Hv). exists token, signer. split; [reflexivity|]. split; [exact Hs|]. rewrite Hv. vm_compute. reflexivity.
  - exfalso. apply (f_equal is_ok) in E. vm_compute in E. discriminate E.
Defined.

(** An entry of the trusted proxies with a leading zero in its length passes validation
    and is then dropped: the proxy it names is not trusted. *)
Example leading_zero_dropped : proxy_errors 0 (go "10.0.0.0/08") = [] ∧ newTrustedPeers [go "10.0.0.0/08"] = MkTrustedPeers [] ∧
  newTrustedPeers [go "10.0.0.0/8"] ≠ MkTrustedPeers [].
Proof. split; [vm_compute; reflexivity|]. split; [vm_compute; reflexivity|]. vm_compute. discriminate. Qed.
