(* ===== verification/SafeText.v ===== *)
(** * Bounding text of others

    [internal/safetext]: cutting remote text to a number of bytes without leaving a piece
    of a character at its end. *)

From S2P Require Import Prelude GoLib.

Open Scope Z_scope.

(** Whether the string ends in a byte that no character ends with. *)
Definition ends_in_fragment (s : gostring) : bool := let '(r, w) := decode_last_rune s in (r =? RuneError) && (w =? 1)%nat.

Fixpoint trim_fragments (n : nat) (s : gostring) : gostring :=
  match n with
  | O => s
  | S n =>
      if bool_decide (s = []) then s
      else if ends_in_fragment s then trim_fragments n (take (length s - 1) s) else s
  end.

(** src/internal/safetext/safetext.go:49-81, TrimPartialRune *)
Definition TrimPartialRune (s : gostring) : gostring := trim_fragments 3 s.

(** src/internal/safetext/safetext.go:30-47, Bound *)
Definition Bound (s : gostring) (maxBytes : Z) : gostring :=
  if maxBytes <=? 0 then [] else
  if Z.of_nat (length s) <=? maxBytes then s else TrimPartialRune (take (Z.to_nat maxBytes) s).
