(* ===== verification/Program.v ===== *)
(** * Programs that talk

    Code whose work is to ask others (a remote API, a name server, a certificate authority)
    and to go on from what they answer, whatever that is.  A program is a tree: it ends
    with a value, or it asks and has a continuation for every answer.  [spec] is what holds of
    every conversation; [run] is the conversation with a given environment. *)

From S2P Require Import Prelude.

Inductive prog (E : Type → Type) (A : Type) : Type :=
  | Ret (a : A)
  | Vis (X : Type) (e : E X) (k : X → prog E A).
Arguments Ret {E A} a.
Arguments Vis {E A} X e k.

Declare Scope prog_scope.
Delimit Scope prog_scope with prog.

Section prog.
Context {E : Type → Type}.

Definition ask {X} (e : E X) : prog E X := Vis X e Ret.

Fixpoint bind {A B} (m : prog E A) (f : A → prog E B) : prog E B :=
  match m with
  | Ret a => f a
  | Vis X e k => Vis X e (λ x, bind (k x) f)
  end.

(** [a, err := m(); if err != nil { return ..., err }] *)
Definition bind_ok {A B} (m : prog E (result A)) (f : A → prog E (result B)) : prog E (result B) :=
  bind m (λ r, match r with Ok a => f a | Err e => Ret (Err e) end).

(** What is done with the error on the way out. *)
Definition on_err {A} (wrap : goerror → goerror) (m : prog E (result A)) : prog E (result A) :=
  bind m (λ r, Ret (match r with Ok a => Ok a | Err e => Err (wrap e) end)).

(** ** Conversations *)

Record event := MkEvent { ev_type : Type; ev : E ev_type; ev_answer : ev_type }.

(** Every question satisfies [P] after what was said before it, the newest first, and the
    value satisfies [Q] after all that was said. *)
Fixpoint spec {A} (P : list event → ∀ X, E X → Prop) (Q : list event → A → Prop) (h : list event) (m : prog E A) : Prop :=
  match m with
  | Ret a => Q h a
  | Vis X e k => P h X e ∧ ∀ x, spec P Q (MkEvent X e x :: h) (k x)
  end.

(** A possible conversation, the newest first, and the value at its end. *)
Inductive conversation {A} : prog E A → list event → list event → A → Prop :=
  | conv_ret a h : conversation (Ret a) h h a
  | conv_vis X e k x h h' a : conversation (k x) (MkEvent X e x :: h) h' a → conversation (Vis X e k) h h' a.

Lemma spec_conversation {A} P Q h (m : prog E A) h' a : spec P Q h m → conversation m h h' a → Q h' a.
Proof. intros Hs Hc. induction Hc as [|X e k x h h' a Hc IH]; [done|]. apply IH, Hs. Qed.

Lemma spec_mono {A} (P P' : list event → ∀ X, E X → Prop) (Q Q' : list event → A → Prop) h m :
  (∀ h X e, P h X e → P' h X e) → (∀ h a, Q h a → Q' h a) → spec P Q h m → spec P' Q' h m.
Proof.
  intros HP HQ. revert h. induction m as [a|X e k IH]; intros h; cbn [spec]; [apply HQ|].
  intros [He Hk]. split; [by apply HP|]. intros x. by apply IH.
Qed.

(** Histories grow at their head. *)
Lemma spec_grows {A} P (Q : list event → A → Prop) h m : spec P Q h m → spec P (λ h' a, Q h' a ∧ h `suffix_of` h') h m.
Proof.
  enough (∀ h0, h0 `suffix_of` h → spec P Q h m → spec P (λ h' a, Q h' a ∧ h0 `suffix_of` h') h m) as Hw by by apply Hw.
  revert h. induction m as [a|X e k IH]; intros h h0 Hs; cbn [spec]; [done|]. intros [He Hk]. split; [done|]. intros x. apply IH; [by apply suffix_cons_r|done].
Qed.

Lemma spec_bind {A B} P (R : list event → A → Prop) (Q : list event → B → Prop) h m (f : A → prog E B) :
  spec P R h m → (∀ h a, R h a → spec P Q h (f a)) → spec P Q h (bind m f).
Proof.
  intros Hm Hf. revert h Hm. induction m as [a|X e k IH]; intros h; cbn [spec bind]; [apply Hf|].
  intros [He Hk]. split; [done|]. intros x. by apply IH.
Qed.

Lemma spec_bind_ok {A B} P (R : list event → A → Prop) (Q : list event → result B → Prop) h m (f : A → prog E (result B)) :
  spec P (λ h r, match r with Ok a => R h a | Err e => Q h (Err e) end) h m → (∀ h a, R h a → spec P Q h (f a)) → spec P Q h (bind_ok m f).
Proof. intros Hm Hf. eapply spec_bind; [exact Hm|]. intros h' [a|e] H; [by apply Hf|exact H]. Qed.

Lemma spec_on_err {A} P (Q : list event → result A → Prop) wrap h m :
  spec P (λ h r, Q h (match r with Ok a => Ok a | Err e => Err (wrap e) end)) h m → spec P Q h (on_err wrap m).
Proof. intros Hm. eapply spec_bind; [exact Hm|]. done. Qed.

(** ** A given environment *)

Definition environment (S : Type) : Type := ∀ X, E X → S → X * S.

Fixpoint run {S A} (env : environment S) (m : prog E A) (s : S) : A * S :=
  match m with
  | Ret a => (a, s)
  | Vis X e k => let '(x, s') := env X e s in run env (k x) s'
  end.

Lemma run_bind {S A B} (env : environment S) (m : prog E A) (f : A → prog E B) s :
  run env (bind m f) s = let '(a, s') := run env m s in run env (f a) s'.
Proof. revert s. induction m as [a|X e k IH]; intros s; cbn [bind run]; [done|]. destruct (env X e s) as [x s']. apply IH. Qed.

Lemma run_bind_ok {S A B} (env : environment S) (m : prog E (result A)) (f : A → prog E (result B)) s a s' :
  run env m s = (Ok a, s') → run env (bind_ok m f) s = run env (f a) s'.
Proof. intros H. unfold bind_ok. by rewrite run_bind, H. Qed.

Lemma run_on_err {S A} (env : environment S) wrap (m : prog E (result A)) s a s' :
  run env m s = (Ok a, s') → run env (on_err wrap m) s = (Ok a, s').
Proof. intros H. unfold on_err. by rewrite run_bind, H. Qed.

(** The conversation of a run. *)
Fixpoint trace {S A} (env : environment S) (m : prog E A) (s : S) (h : list event) : list event :=
  match m with
  | Ret a => h
  | Vis X e k => let '(x, s') := env X e s in trace env (k x) s' (MkEvent X e x :: h)
  end.
Lemma trace_conversation {S A} (env : environment S) (m : prog E A) s h : conversation m h (trace env m s h) (run env m s).1.
Proof. revert s h. induction m as [a|X e k IH]; intros s h; cbn [trace run]; [constructor|]. destruct (env X e s) as [x s']. econstructor. apply IH. Qed.

(** What [spec] allows is what a run does. *)
Lemma run_spec {S A} (env : environment S) P (Q : list event → A → Prop) h m s :
  spec P Q h m → ∃ h', Q h' (run env m s).1.
Proof.
  revert h s. induction m as [a|X e k IH]; intros h s; cbn [spec run]; [by exists h|].
  intros [_ Hk]. destruct (env X e s) as [x s'] eqn:E'. by eapply IH.
Qed.
End prog.

Arguments event E : clear implicits.
Arguments environment E S : clear implicits.

Notation "'let!' x ':=' m 'in' k" := (bind_ok m (λ x, k))
  (at level 10, x name, m at level 100, k at level 200, only parsing) : prog_scope.
Notation "'try!' x ':=' m 'in' k" := (bind m (λ x, k))
  (at level 10, x name, m at level 100, k at level 200, only parsing) : prog_scope.

(** ** Programs inside others *)

(** Questions asked as questions of another kind. *)
Fixpoint translate {E F : Type → Type} {A} (f : ∀ X, E X → F X) (m : prog E A) : prog F A :=
  match m with
  | Ret a => Ret a
  | Vis X e k => Vis X (f X e) (λ x, translate f (k x))
  end.

Definition lift_event {E F : Type → Type} (f : ∀ X, E X → F X) (e : event E) : event F := MkEvent (ev_type e) (f _ (ev e)) (ev_answer e).

(** The conversation of the inner program is the newest part of the outer one's. *)
Lemma translate_spec {E F : Type → Type} {A} (f : ∀ X, E X → F X) P (P' : list (event F) → ∀ X, F X → Prop) (Q : list (event E) → A → Prop) h0 h (m : prog E A) :
  (∀ h X e, P h X e → P' ((lift_event f <$> h) ++ h0) X (f X e)) → spec P Q h m →
  spec P' (λ h' a, ∃ h1, h' = (lift_event f <$> h1) ++ h0 ∧ Q h1 a) ((lift_event f <$> h) ++ h0) (translate f m).
Proof.
  intros HP. revert h. induction m as [a|X e k IH]; intros h; cbn [spec translate]; [by exists h|].
  intros [He Hk]. split; [by apply HP|]. intros x. specialize (IH x (MkEvent X e x :: h) (Hk x)). exact IH.
Qed.
