(* ===== verification/Dns01.v ===== *)
(** * DNS-01 records: what the providers share

    [internal/dns01]: the record of a challenge, the credentials of a provider, the walk from
    a record's name to the zone that holds it, names inside a zone, and the check that a value
    is visible on every authoritative name server.  The providers are in [DnsRecords] and
    [DnsSets]. *)

From S2P Require Import Prelude GoLib RateLimit NetIP GoNum GoJson Secrets Program.

Open Scope Z_scope.
Open Scope prog_scope.

(** ** Comparing without regard to case

    [strings.EqualFold].  Inside ASCII the letters fold; the long s and the Kelvin sign fold
    into it; [fold_above] gives every other character one representative of those it folds
    with, and [lower_above] its lower case. *)
Class UnicodeCase := { fold_above : Z → Z; lower_above : Z → Z }.
Class UnicodeCaseLaws `{!UnicodeCase} : Prop := { fold_above_high r : 128 ≤ r → 128 ≤ fold_above r }.

Definition case_fold `{UnicodeCase} (r : Z) : Z :=
  if (65 <=? r) && (r <=? 90) then r + 32 else if r =? 0x17F then 115 else if r =? 0x212A then 107 else if r <? 128 then r else fold_above r.
Definition folded `{UnicodeCase} (s : gostring) : list Z := case_fold ∘ fst <$> runes s.
Definition EqualFold `{UnicodeCase} (s t : gostring) : bool := bool_decide (folded s = folded t).

(** [strings.ToLower] *)
Definition ToLower `{UnicodeCase} (s : gostring) : gostring :=
  (fst <$> runes s) ≫= λ r, encode_rune (if (65 <=? r) && (r <=? 90) then r + 32 else if r <? 128 then r else lower_above r).

(** ** URLs *)

Definition HASH : ascii := byte_of 35.
Definition QMARK : ascii := byte_of 63.
Definition EQUALS : ascii := byte_of 61.
Definition AMP : ascii := byte_of 38.

Definition alnum (c : ascii) : bool := letter c || bool_decide (is_Some (digit c)).
(** Upper-case hexadecimal, as [url.escape] and ["%%%02X"] write it. *)
Definition upper_hex (z : Z) : ascii := byte_of (if z <? 10 then 48 + z else 55 + z).
Definition percent (c : ascii) : gostring := [PERCENT; upper_hex (byte_val c / 16); upper_hex (byte_val c mod 16)].

(** [url.PathEscape] and [url.QueryEscape] *)
Definition PathEscape (s : gostring) : gostring :=
  s ≫= λ c, if alnum c || mem_byte c (go "-_.~$&+=:@") then [c] else percent c.
Definition QueryEscape (s : gostring) : gostring :=
  s ≫= λ c, if alnum c || mem_byte c (go "-_.~") then [c] else if bool_decide (c = byte_of 32) then [PLUS] else percent c.

(** [url.Values.Encode] of values listed in the order of their keys. *)
Definition Encode (vs : list (gostring * gostring)) : gostring :=
  join AMP ((λ kv, QueryEscape kv.1 ++ EQUALS :: QueryEscape kv.2) <$> vs).

(** [url.Parse] of a URL whose scheme and host are fine: control bytes and malformed escapes
    are refused. *)
Fixpoint escapes_ok (s : gostring) : bool :=
  match s with
  | [] => true
  | c :: s' =>
      if bool_decide (c = PERCENT) then
        match s' with
        | h :: l :: s'' => bool_decide (is_Some (hexdigit h)) && bool_decide (is_Some (hexdigit l)) && escapes_ok s''
        | _ => false
        end
      else escapes_ok s'
  end.
Definition url_ok (u : gostring) : bool :=
  negb (existsb (λ c, (byte_val c <? 32) || (byte_val c =? 127)) u) &&
  let '(u, frag, _) := cut HASH u in escapes_ok frag && escapes_ok (cut QMARK u).1.1.

(** ** Requests *)

Record http_req := MkReq { q_Method : gostring; q_URL : gostring; q_Header : list (gostring * gostring); q_Body : option bytes }.
(** Where an answer's [Location] points: nowhere, to what is not a URL, or to a URL, here
    made absolute, with whether its host is that of the first request or one below it. *)
Inductive location := NoLocation | BadLocation | Location (url : gostring) (same : bool).
(** An answer: its status, its location, the bytes of its body, and whether an error ends
    them. *)
Record http_resp := MkResp { p_StatusCode : Z; p_Location : location; p_Body : bytes; p_BodyErr : bool }.

(** Errors of [net/url] and [net/http]: no caller tells them apart. *)
Definition errURL : goerror := errors_new "net/url: invalid URL".
Definition errTransport : goerror := errors_new "net/http: transport error".

(** [io.ReadAll(io.LimitReader(resp.Body, limit))] *)
Definition read_limited (limit : Z) (r : http_resp) : result bytes :=
  if limit <=? Z.of_nat (length (p_Body r)) then Ok (take (Z.to_nat limit) (p_Body r))
  else if p_BodyErr r then Err errTransport else Ok (p_Body r).

(** *** Redirects

    [http.Client], with what becomes of an answer that points elsewhere: without a
    [CheckRedirect] the client goes there, for up to ten requests in all; with one that returns
    [http.ErrUseLastResponse] it returns the answer.  A timeout is a request that is not
    answered. *)
Inductive redirect_policy := Follow | UseLastResponse.
Record http_client := MkClient { hc_CheckRedirect : redirect_policy }.

Definition GET : gostring := go "GET".
Definition HEAD : gostring := go "HEAD".
Definition POST : gostring := go "POST".
Definition PUT : gostring := go "PUT".
Definition DELETE : gostring := go "DELETE".

(** [redirectBehavior]: the method of the next request, and whether it has the body. *)
Definition redirectBehavior (method : gostring) (status : Z) : option (gostring * bool) :=
  if bool_decide (status ∈ [301; 302; 303]) then Some (if bool_decide (method = GET) || bool_decide (method = HEAD) then method else GET, false) else
  if bool_decide (status ∈ [307; 308]) then Some (method, true) else None.

(** Headers that do not go to another host, and those that go with a body. *)
Definition sensitive_headers : list gostring :=
  [go "Authorization"; go "Www-Authenticate"; go "Cookie"; go "Cookie2"; go "Proxy-Authorization"; go "Proxy-Authenticate"].
Definition body_headers : list gostring := [go "Content-Encoding"; go "Content-Language"; go "Content-Location"; go "Content-Type"].
(** [copyHeaders]; the [Referer] that is added, the address of the request before, is left
    out. *)
Definition copyHeaders (header : list (gostring * gostring)) (away body : bool) : list (gostring * gostring) :=
  filter (λ kv, ¬ (away = true ∧ kv.1 ∈ sensitive_headers) ∧ ¬ (body = false ∧ kv.1 ∈ body_headers)) header.

(** [Client.Do]: [first] is the request it was called with, [q] the one that is next,
    [away] that a host other than the first was named, [body] that the body still goes with
    the requests, and [n] how many more may follow. *)
Fixpoint do_from {E} (send_one : http_req → prog E (option http_resp)) (c : http_client) (first : http_req) (n : nat) (away body : bool) (q : http_req) : prog E (option http_resp) :=
  try! answer := send_one q in
  match answer with
  | None => Ret None
  | Some resp =>
      match redirectBehavior (q_Method q) (p_StatusCode resp), p_Location resp with
      | None, _ | _, NoLocation => Ret (Some resp)
      | _, BadLocation => Ret None
      | Some (method, keeps), Location url same =>
          match hc_CheckRedirect c, n with
          | UseLastResponse, _ => Ret (Some resp)
          | Follow, O => Ret None
          | Follow, S n =>
              let away := away || negb same in
              let body := body && keeps in
              do_from send_one c first n away body (MkReq method url (copyHeaders (q_Header first) away body) (if body then q_Body first else None))
          end
      end
  end.
Definition client_Do {E} (send_one : http_req → prog E (option http_resp)) (c : http_client) (q : http_req) : prog E (option http_resp) :=
  do_from send_one c q 9 false true q.

(** *** Dynamic updates

    What the code uses of the messages of [github.com/miekg/dns]: a question for an SOA, or an
    update that inserts and removes TXT records, with its signature; of an answer, the
    code and the owners of the SOA records in it. *)
Record txt_rr := MkTXT { txt_Name : gostring; txt_Ttl : Z; txt_Txt : list gostring }.
Record tsig := MkTsig { tsig_Name : gostring; tsig_Algorithm : gostring; tsig_Fudge : Z; tsig_Time : Z }.
Inductive dns_msg :=
  | SOAQuestion (name : gostring)
  | SignedUpdate (zone : gostring) (insert remove : list txt_rr) (sig : tsig).
Inductive dns_rr := SOA (name : gostring) | OtherRR.
Record dns_reply := MkReply { r_Rcode : Z; r_Answer : list dns_rr; r_Ns : list dns_rr }.

(** What a provider asks of the world: a request sent, answered or not, the time, a change of
    the one number it keeps under its lock, and a message exchanged with a name server, with
    the keys that sign. *)
Inductive api : Type → Type :=
  | Send (q : http_req) : api (option http_resp)
  | Clock : api time
  | Locked (f : option Z → option Z) : api (option Z)
  | Exchange (server : gostring) (secrets : list (gostring * Redacted)) (m : dns_msg) : api (result dns_reply).

Definition client : Type → Type := prog api.

(** [http.NewRequestWithContext] and [client.Do], and the body up to a limit. *)
Definition send (c : http_client) (method url : gostring) (header : list (gostring * gostring)) (body : option bytes) (limit : Z) : client (result (Z * bytes)) :=
  if negb (url_ok url) then Ret (Err (errorf "build request" [errURL])) else
  try! resp := client_Do (λ q, ask (Send q)) c (MkReq method url header body) in
  Ret (match resp with
       | None => Err (errorf "request failed" [errTransport])
       | Some resp => match read_limited limit resp with
                      | Err e => Err (errorf "read response" [e])
                      | Ok raw => Ok (p_StatusCode resp, raw)
                      end
       end).

(** ** Records and credentials *)

(** src/internal/dns01/dns01.go:55-68, Record *)
Record DNSRecord := MkDNSRecord { rec_Name : gostring; rec_Value : gostring }.

(** src/internal/dns01/dns01.go:42-43, challengePrefix *)
Definition challengePrefix : gostring := go "_acme-challenge".
(** src/internal/dns01/dns01.go:70-79, ChallengeRecordName *)
Definition ChallengeRecordName (identifier : gostring) : gostring :=
  challengePrefix ++ DOT :: default identifier (cut_prefix (go "*.") identifier).

(** src/internal/dns01/dns01.go:81-100, CleanupFunc *)
Definition CleanupFunc : Type := client (result unit).

(** Both the cleanup and the error may be there.

    src/internal/dns01/dns01.go:102-128, Provider *)
Record DNSProvider := MkDNSProvider {
  dp_Name : gostring;
  Present : DNSRecord → client (option CleanupFunc * option goerror);
}.

(** src/internal/dns01/credentials.go:11-45, Credentials *)
Record Credentials := MkCredentials { cr_single : Redacted; cr_hasSingle : bool; cr_named : gmap gostring Redacted }.
(** src/internal/dns01/credentials.go:47-52, NewSingleCredential *)
Definition NewSingleCredential (value : Redacted) : Credentials := MkCredentials value true ∅.
(** src/internal/dns01/credentials.go:54-60, NewNamedCredentials *)
Definition NewNamedCredentials (values : gmap gostring Redacted) : Credentials := MkCredentials [] false values.
(** src/internal/dns01/credentials.go:62-67, Credentials.Get *)
Definition Get (c : Credentials) (name : string) : option Redacted := cr_named c !! go name.
(** src/internal/dns01/credentials.go:69-87, Credentials.Single *)
Definition Single (c : Credentials) : option Redacted :=
  if cr_hasSingle c && (size (cr_named c) =? 0)%nat then Some (cr_single c) else
  if negb (cr_hasSingle c) && (size (cr_named c) =? 1)%nat then snd <$> head (map_to_list (cr_named c)) else None.

(** What several constructors do: one secret that is not blank. *)
Definition single_token (api : goerror) (c : Credentials) : result Redacted :=
  match Single c with
  | None => Err (errorf "no credential" [api])
  | Some token => if IsBlank token then Err (errorf "blank credential (empty or whitespace only)" [api]) else Ok token
  end.

(** [Present] up to the point where there is something to clean up, and from there. *)
Definition need {A} (m : client (result A)) (f : A → client (option CleanupFunc * option goerror)) : client (option CleanupFunc * option goerror) :=
  bind m (λ r, match r with Ok a => f a | Err e => Ret (None, Some e) end).
Definition published (cleanup : CleanupFunc) (m : client (result unit)) : client (option CleanupFunc * option goerror) :=
  bind m (λ r, Ret (Some cleanup, match r with Ok _ => None | Err e => Some e end)).

Notation "'need!' x ':=' m 'in' k" := (need m (λ x, k))
  (at level 10, x name, m at level 100, k at level 200, only parsing) : prog_scope.

(** What most providers make of an answer: 404 is an error of its own, any other status
    outside the twohundreds is [reject]ed, and the body is decoded. *)
Definition accept {A} (notFound : goerror) (reject : bytes → goerror) (decode : bytes → option A) (r : Z * bytes) : result A :=
  let '(status, raw) := r in
  if status =? 404 then Err notFound else
  if (status <? 200) || (300 <=? status) then Err (reject raw) else
  match decode raw with Some a => Ok a | None => Err (errorf "unparseable response" []) end.
(** No place to decode into. *)
Definition no_out (raw : bytes) : option unit := Some tt.

Definition json_headers : list (gostring * gostring) :=
  [(go "Content-Type", go "application/json"); (go "Accept", go "application/json")].

(** ** Names and zones *)

(** src/internal/dns01/propagation.go:16-20, maxZoneLabels *)
Definition maxZoneLabels : nat := 32.

(** The loop that strips labels from a name, stops where no dot is left and looks at every
    candidate before; [visit] returns, or has the loop go on. *)
Fixpoint walk {E A} (n : nat) (name : gostring) (visit : gostring → prog E (option A)) (none : A) : prog E A :=
  match n with
  | O => Ret none
  | S n =>
      match index_byte DOT name with
      | None => Ret none
      | Some i =>
          let name := drop (S i) name in
          if negb (mem_byte DOT name) then Ret none else
          bind (visit name) (λ r, match r with Some a => Ret a | None => walk n name visit none end)
      end
  end.
Definition walk_zones {E A} (recordName : gostring) (visit : gostring → prog E (option (result A))) (none : goerror) : prog E (result A) :=
  walk maxZoneLabels (trim_suffix [DOT] recordName) visit (Err none).

(** src/internal/dns01/digitalocean.go:367-383, validDomainName *)
Definition validDomainName (name : gostring) : bool :=
  negb (bool_decide (name = []) || (253 <? Z.of_nat (length name))) && forallb (λ c, alnum c || mem_byte c (go "-._")) name.

(** src/internal/dns01/digitalocean.go:47-49, ErrDigitalOceanAPI *)
Definition ErrDigitalOceanAPI : goerror := errors_new "dns01: digitalocean api".

(** src/internal/dns01/digitalocean.go:340-365, relativeRecordName *)
Definition relativeRecordName `{UnicodeCase} (fqdn domain : gostring) : result gostring :=
  let name := trim_suffix [DOT] fqdn in
  let domain := trim_suffix [DOT] domain in
  if EqualFold name domain then Ok (go "@") else
  let cutat := (length name - length domain)%nat in
  if (length name <=? length domain + 1)%nat || negb (EqualFold (drop cutat name) domain) || negb (bool_decide (name !! (cutat - 1)%nat = Some DOT))
  then Err (errorf "record is not inside domain" [ErrDigitalOceanAPI])
  else Ok (take (cutat - 1) name).

(** Text without the quotes around it. *)
Definition strip_quotes (v : gostring) : gostring :=
  if (2 <=? length v)%nat && bool_decide (head v = Some QUOTE) && bool_decide (last v = Some QUOTE) then take (length v - 2) (drop 1 v) else v.

(** [strings.NewReplacer]: at every place, a backslash and a quote get a backslash before
    them.

    src/internal/dns01/route53.go:519-529, quoteTXT *)
Definition quoteTXT (v : gostring) : gostring :=
  QUOTE :: (v ≫= λ c, if bool_decide (c = BACKSLASH) || bool_decide (c = QUOTE) then [BACKSLASH; c] else [c]) ++ [QUOTE].
Fixpoint unescape_txt (v : gostring) : gostring :=
  match v with
  | [] => []
  | c :: v' =>
      match v' with
      | d :: v'' => if bool_decide (c = BACKSLASH) && (bool_decide (d = BACKSLASH) || bool_decide (d = QUOTE)) then d :: unescape_txt v'' else c :: unescape_txt v'
      | [] => [c]
      end
  end.
(** src/internal/dns01/route53.go:531-538, unquoteTXT *)
Definition unquoteTXT (v : gostring) : gostring := unescape_txt (strip_quotes v).

(** ** The check on the authoritative name servers *)

Inductive resolver : Type → Type :=
  | LookupNS (zone : gostring) : resolver (result (list gostring))
  | LookupIPAddr (host : gostring) : resolver (result (list Addr))
  | LookupTXTAt (server name : gostring) : resolver (result (list gostring))
  | CtxErr : resolver (option goerror).

(** A Go map used as a set; [None] is the nil map.

    src/internal/dns01/propagation.go:128-144, intersect *)
Definition intersect (current : option (gset gostring)) (next : list gostring) : gset gostring :=
  match current with
  | None => list_to_set next
  | Some c => filter (λ v, v ∈ next) c
  end.

(** In the order of the map, which nothing depends on.

    src/internal/dns01/propagation.go:146-154, keys *)
Definition keys (set : gset gostring) : list gostring := elements set.

(** The values that all addresses that answered have; nothing when none did. *)
Fixpoint answered_by (addrs : list gostring) (name : gostring) (answered : option (gset gostring)) : prog resolver (option (gset gostring)) :=
  match addrs with
  | [] => Ret answered
  | addr :: addrs =>
      try! r := ask (LookupTXTAt addr name) in
      answered_by addrs name (match r with Ok values => Some (intersect answered values) | Err _ => answered end)
  end.

(** src/internal/dns01/propagation.go:67-126, commonTXT *)
Fixpoint commonTXT_from (common : option (gset gostring)) (servers : list (list gostring)) (name : gostring) : prog resolver (result (list gostring)) :=
  match servers with
  | [] => Ret (Ok (keys (default ∅ common)))
  | addrs :: servers =>
      try! answered := answered_by addrs name None in
      match answered with
      | None => Ret (Ok [])
      | Some answered =>
          let common := intersect common (keys answered) in
          if (size common =? 0)%nat then Ret (Ok []) else commonTXT_from (Some common) servers name
      end
  end.
Definition commonTXT (servers : list (list gostring)) (name : gostring) : prog resolver (result (list gostring)) := commonTXT_from None servers name.

(** [net.JoinHostPort(ip, "53")] *)
Definition dns_address (ip : Addr) : gostring :=
  let host := Addr_String (Unmap (withoutZone ip)) in
  (if mem_byte COLON host then LBRACKET :: host ++ [RBRACKET] else host) ++ go ":53".

Fixpoint group_addresses (ns : list gostring) : prog resolver (list (list gostring)) :=
  match ns with
  | [] => Ret []
  | host :: ns =>
      try! ips := ask (LookupIPAddr (trim_suffix [DOT] host)) in
      try! rest := group_addresses ns in
      Ret (match ips with
           | Err _ | Ok [] => rest
           | Ok ips => (dns_address <$> ips) :: rest
           end)
  end.

Fixpoint servers_from (n : nat) (zone : gostring) : prog resolver (result (list (list gostring))) :=
  let none := errorf "dns01: no authoritative nameserver found" [] in
  match n with
  | O => Ret (Err none)
  | S n =>
      match index_byte DOT zone with
      | None => Ret (Err none)
      | Some i =>
          let zone := drop (S i) zone in
          try! ns := ask (LookupNS zone) in
          match ns with
          | Err _ =>
              try! ctxErr := ask CtxErr in
              match ctxErr with Some e => Ret (Err e) | None => servers_from n zone end
          | Ok ns =>
              if bool_decide (ns = []) then servers_from n zone else
              try! grouped := group_addresses ns in
              if bool_decide (grouped = []) then servers_from n zone else Ret (Ok grouped)
          end
      end
  end.
(** src/internal/dns01/propagation.go:156-219, authoritativeServers *)
Definition authoritativeServers (name : gostring) : prog resolver (result (list (list gostring))) := servers_from maxZoneLabels (trim_suffix [DOT] name).

(** src/internal/dns01/propagation.go:31-65, NewAuthoritativeTXTLookup *)
Definition AuthoritativeTXTLookup (name : gostring) : prog resolver (result (list gostring)) :=
  let! servers := authoritativeServers name in commonTXT servers name.

(** ** What the check means *)

Definition said (server name : gostring) (values : list gostring) : event resolver := MkEvent _ (LookupTXTAt server name) (Ok values).

Lemma said_inj s1 n1 v1 s2 n2 v2 : said s1 n1 v1 = said s2 n2 v2 → s1 = s2 ∧ n1 = n2 ∧ v1 = v2.
Proof.
  intros H. set (project := λ e : event resolver,
    match ev e in resolver X return X → option (gostring * gostring * list gostring) with
    | LookupTXTAt s n => λ a, match a with Ok v => Some (s, n, v) | Err _ => None end
    | _ => λ _, None
    end (ev_answer e)). apply (f_equal project) in H. cbn in H. by simplify_eq.
Qed.

Lemma elem_of_intersect c next v : v ∈ intersect c next ↔ v ∈ next ∧ ∀ s, c = Some s → v ∈ s.
Proof.
  destruct c as [c|]; cbn [intersect].
  - rewrite elem_of_filter. split; [intros [? ?]; split; [done|by intros ? [= <-]]|intros [? H]; split; [done|by apply H]].
  - rewrite elem_of_list_to_set. split; [by intros ?|by intros [? _]].
Qed.

Definition anything {E : Type → Type} (h : list (event E)) (X : Type) (e : E X) : Prop := True.

(** The addresses of one server: at the end, the values left are those that were left before
    and that each new answer has. *)
Lemma answered_by_spec addrs name acc h : spec anything (λ h' acc', ∃ h1, h' = h1 ++ h ∧
    (is_Some acc' → is_Some acc ∨ ∃ addr values, addr ∈ addrs ∧ said addr name values ∈ h1) ∧
    ∀ s v, acc' = Some s → v ∈ s → (∀ s0, acc = Some s0 → v ∈ s0) ∧ ∀ server values, said server name values ∈ h1 → v ∈ values)
  h (answered_by addrs name acc).
Proof.
  revert acc h. induction addrs as [|addr addrs IH]; intros acc h; cbn [answered_by spec bind ask].
  { exists []. split; [done|]. split; [by left|]. intros s v -> Hv. split; [by intros ? [= <-]|]. intros ? ? []%not_elem_of_nil. }
  split; [done|]. intros r. eapply spec_mono; [done| |apply IH]. cbv beta. intros h' acc' (h1 & -> & Hsome & Hall).
  exists (h1 ++ [MkEvent _ (LookupTXTAt addr name) r]). split; [by rewrite <- app_assoc|]. split.
  - intros Hs. destruct (Hsome Hs) as [Hr|(a & values & Ha & Hin)].
    + destruct r as [values|e]; [|by left]. right. exists addr, values. split; [left|]. apply elem_of_app. right. by apply list_elem_of_singleton.
    + right. exists a, values. split; [by right|]. apply elem_of_app. by left.
  - intros s v Es Hv. destruct (Hall s v Es Hv) as [H1 H2]. split.
    + intros s0 ->. destruct r as [values|e]; [|by apply H1]. specialize (H1 _ eq_refl). apply elem_of_intersect in H1 as [_ H1]. by apply H1.
    + intros server values Hin. apply elem_of_app in Hin as [Hin|Hin]; [by eapply H2|]. apply list_elem_of_singleton in Hin.
      destruct r as [values'|e].
      * change (said server name values = said addr name values') in Hin. apply said_inj in Hin as (-> & _ & ->).
        specialize (H1 _ eq_refl). by apply elem_of_intersect in H1 as [H1 _].
      * apply (f_equal (λ e : event resolver, match ev e in resolver X return X → bool with LookupTXTAt _ _ => is_ok | _ => λ _, true end (ev_answer e))) in Hin. done.
Qed.

Lemma commonTXT_from_spec common servers name h : spec anything (λ h' r, ∃ vs h1, r = Ok vs ∧ h' = h1 ++ h ∧ ∀ v, v ∈ vs →
    (∀ s0, common = Some s0 → v ∈ s0) ∧ (is_Some common ∨ servers ≠ []) ∧
    Forall (λ addrs, ∃ addr values, addr ∈ addrs ∧ said addr name values ∈ h1) servers ∧
    ∀ server values, said server name values ∈ h1 → v ∈ values)
  h (commonTXT_from common servers name).
Proof.
  revert common h. induction servers as [|addrs servers IH]; intros common h; cbn [commonTXT_from].
  { cbn [spec]. exists (keys (default ∅ common)), []. do 2 (split; [done|]). unfold keys. intros v Hv. apply elem_of_elements in Hv.
    destruct common as [c|]; [|set_solver]. split; [by intros ? [= <-]|]. split; [by left; eexists|]. split; [done|]. intros ? ? []%not_elem_of_nil. }
  eapply spec_bind; [apply answered_by_spec|]. cbv beta. intros h' [answered|] (h1 & -> & Hsome & Hall).
  - destruct (_ =? 0)%nat.
    { cbn [spec]. exists [], h1. do 2 (split; [done|]). intros v []%not_elem_of_nil. }
    eapply spec_mono; [done| |apply IH]. cbv beta. intros h' r (vs & h2 & -> & -> & Hv). exists vs, (h2 ++ h1). split; [done|]. split; [by rewrite <- app_assoc|].
    intros v Hin. destruct (Hv v Hin) as (Hc & _ & Hsrv & Hans). specialize (Hc _ eq_refl).
    assert (v ∈ answered ∧ ∀ s0, common = Some s0 → v ∈ s0) as [Ha Hc'].
    { unfold keys in Hc. apply elem_of_intersect in Hc as [Hc ?]. by apply elem_of_elements in Hc. }
    split; [done|]. split; [by right|]. destruct (Hall answered v eq_refl Ha) as [_ Hnew].
    destruct (Hsome ltac:(by eexists)) as [[? ?]|(addr & values & Haddr & Hsaid)]; [done|]. split; [apply Forall_cons; split|].
    + exists addr, values. split; [done|]. apply elem_of_app. by right.
    + eapply Forall_impl; [exact Hsrv|]. intros g (a & v' & ? & ?). exists a, v'. split; [done|]. apply elem_of_app. by left.
    + intros server values' [H|H]%elem_of_app; eauto.
  - cbn [spec]. exists [], h1. do 2 (split; [done|]). intros v []%not_elem_of_nil.
Qed.

(** What name servers answer, as a fixed table. *)
Definition table (at_ : gostring → gostring → result (list gostring)) : environment resolver unit := λ X e s,
  (match e in resolver X return X with
   | LookupTXTAt server name => at_ server name
   | LookupNS _ => Err (errors_new "no ns")
   | LookupIPAddr _ => Err (errors_new "no address")
   | CtxErr => None
   end, s).

Definition good_answer (at_ : gostring → gostring → result (list gostring)) (name v : gostring) (addr : gostring) : Prop :=
  ∀ values, at_ addr name = Ok values → v ∈ values.

Definition answers (at_ : gostring → gostring → result (list gostring)) (name : gostring) (addr : gostring) : Prop := is_ok (at_ addr name) = true.

Lemma answered_by_table at_ addrs name acc : ∃ acc', run (table at_) (answered_by addrs name acc) tt = (acc', tt) ∧
  (is_Some acc' ↔ is_Some acc ∨ Exists (answers at_ name) addrs) ∧
  ∀ s v, acc' = Some s → v ∈ s ↔ (∀ s0, acc = Some s0 → v ∈ s0) ∧ Forall (good_answer at_ name v) addrs.
Proof.
  revert acc. induction addrs as [|addr addrs IH]; intros acc; cbn [answered_by].
  { exists acc. split; [done|]. rewrite Exists_nil. split; [tauto|]. intros s v ->. rewrite Forall_nil. split; [intros Hv; split; [by intros ? [= <-]|done]|intros [H _]; by apply H]. }
  cbn [ask bind run table]. destruct (IH (match at_ addr name with Ok values => Some (intersect acc values) | Err _ => acc end)) as (acc' & Hrun & Hsome & Hall).
  exists acc'. split; [exact Hrun|]. rewrite Exists_cons. unfold answers at 1. split.
  - rewrite Hsome. destruct (at_ addr name); cbn [is_ok]; [|naive_solver]. split; [by right; left|by left; eexists].
  - intros s v Hs. rewrite (Hall s v Hs), Forall_cons. unfold good_answer at 2. destruct (at_ addr name) as [values|e] eqn:E.
    + split.
      * intros [H1 H2]. specialize (H1 _ eq_refl). apply elem_of_intersect in H1 as [Hv H1]. split; [done|]. split; [by intros ? [= <-]|done].
      * intros (H1 & H2 & H3). split; [|done]. intros s0 [= <-]. apply elem_of_intersect. split; [by apply H2|done].
    + split; [intros [H1 H2]; split; [done|]; by split|intros (H1 & _ & H3); by split].
Qed.

Lemma commonTXT_from_table at_ servers name common : ∃ vs, run (table at_) (commonTXT_from common servers name) tt = (Ok vs, tt) ∧
  ∀ v, v ∈ vs ↔ (is_Some common ∨ servers ≠ []) ∧ (∀ s0, common = Some s0 → v ∈ s0) ∧ Forall (λ addrs, Exists (answers at_ name) addrs ∧ Forall (good_answer at_ name v) addrs) servers.
Proof.
  revert common. induction servers as [|addrs servers IH]; intros common; cbn [commonTXT_from].
  { eexists. split; [done|]. intros v. unfold keys. rewrite elem_of_elements, Forall_nil. destruct common as [c|]; cbn [default].
    - split; [intros Hv; split; [by left; eexists|]; split; [by intros ? [= <-]|done]|intros (_ & H & _); by apply H].
    - split; [by intros ?%not_elem_of_empty|intros ([[? ?]|?] & _); done]. }
  rewrite run_bind. destruct (answered_by_table at_ addrs name None) as (acc' & -> & Hsome & Hall). destruct acc' as [answered|].
  - assert (Exists (answers at_ name) addrs) as Hex. { destruct Hsome as [Hsome _]. destruct (Hsome ltac:(by eexists)) as [[? ?]|?]; done. }
    assert (∀ v, v ∈ intersect common (keys answered) ↔ (∀ s0, common = Some s0 → v ∈ s0) ∧ Forall (good_answer at_ name v) addrs) as Hin.
    { intros v. unfold keys. rewrite elem_of_intersect, elem_of_elements, (Hall answered v eq_refl). naive_solver. }
    destruct (size _ =? 0)%nat eqn:E.
    + exists []. split; [done|]. intros v. split; [by intros ?%not_elem_of_nil|]. intros (_ & Hc & [[_ Hg] _]%Forall_cons). apply Nat.eqb_eq, size_empty_inv in E.
      specialize (proj2 (Hin v) (conj Hc Hg)) as Hv. apply (E v) in Hv. by apply not_elem_of_empty in Hv.
    + destruct (IH (Some (intersect common (keys answered)))) as (vs & -> & Hvs). exists vs. split; [done|]. intros v. rewrite Hvs, Forall_cons.
      split; [intros (_ & Hc & Hf); specialize (Hc _ eq_refl); apply Hin in Hc as [Hc Hg]; naive_solver|].
      intros (_ & Hc & [_ Hg] & Hf). split; [by left; eexists|]. split; [|done]. intros ? [= <-]. by apply Hin.
  - exists []. split; [done|]. intros v. split; [by intros ?%not_elem_of_nil|]. intros (_ & _ & [[Hex _] _]%Forall_cons). destruct Hsome as [_ Hsome].
    destruct (Hsome (or_intror Hex)) as [? ?]. done.
Qed.

(** *** Where the servers come from *)

Lemma index_byte_found c s i : index_byte c s = Some i → s = take i s ++ c :: drop (S i) s.
Proof.
  revert i. induction s as [|b s IH]; intros i; [done|]. cbn [index_byte]. destruct (decide (b = c)) as [->|]; [by intros [= <-]|].
  destruct (index_byte c s) as [j|]; cbn [fmap option_fmap option_map]; [|done]. intros [= <-]. cbn [take drop app]. f_equal. by apply IH.
Qed.


(** What was answered about the addresses of a name server, and its addresses then: none if
    they could not be found. *)
Definition looked_up (h : list (event resolver)) (host : gostring) (r : result (list Addr)) : Prop :=
  MkEvent _ (LookupIPAddr (trim_suffix [DOT] host)) r ∈ h.
Definition addresses_in (r : result (list Addr)) : option (list gostring) :=
  match r with Ok (ip :: ips) => Some (dns_address <$> ip :: ips) | _ => None end.

(** The groups are the addresses of all the name servers in the list that have some, in
    order. *)
Lemma group_addresses_spec ns h : spec anything (λ h' grouped, ∃ h1 rs, h' = h1 ++ h ∧ Forall2 (looked_up h') ns rs ∧ grouped = omap addresses_in rs)
  h (group_addresses ns).
Proof.
  revert h. induction ns as [|host ns IH]; intros h; cbn [group_addresses]; [exists [], []; by split_and!|]. cbn [ask bind spec]. split; [done|]. intros ips.
  eapply spec_bind; [apply IH|]. cbv beta. intros h' grouped (h1 & rs & -> & Hall & ->). cbn [spec].
  exists (h1 ++ [MkEvent _ (LookupIPAddr (trim_suffix [DOT] host)) ips]), (ips :: rs).
  rewrite <- app_assoc. cbn [app]. split; [done|]. split; [|by destruct ips as [[|ip ips]|e]]. constructor; [|done]. apply elem_of_app. right. left.
Qed.

(** The servers of a zone above the name: every one that the zone's name server records list
    and that has an address, with all its addresses; there is at least one. *)
Definition served (name : gostring) (servers : list (list gostring)) (h : list (event resolver)) : Prop := servers ≠ [] ∧ ∃ zone ns rs,
  (∃ labels, trim_suffix [DOT] name = labels ++ DOT :: zone) ∧ MkEvent _ (LookupNS zone) (Ok ns) ∈ h ∧
  Forall2 (looked_up h) ns rs ∧ servers = omap addresses_in rs.

Lemma servers_from_spec n zone name h : (trim_suffix [DOT] name = zone ∨ ∃ labels, trim_suffix [DOT] name = labels ++ DOT :: zone) →
  spec anything (λ h' r, match r with Ok servers => served name servers h' | Err _ => True end) h (servers_from n zone).
Proof.
  revert zone h. induction n as [|n IH]; intros zone h Hz; cbn [servers_from]; [done|].
  destruct (index_byte DOT zone) as [i|] eqn:Ei; [|done]. pose proof (index_byte_found _ _ _ Ei) as Hcut.
  assert (∃ labels, trim_suffix [DOT] name = labels ++ DOT :: drop (S i) zone) as Hz'.
  { destruct Hz as [Hz|[labels Hz]]; [exists (take i zone); by rewrite Hz|exists (labels ++ DOT :: take i zone)]. rewrite Hz, Hcut at 1. by rewrite <- app_assoc. }
  set (zone' := drop (S i) zone) in *. clearbody zone'. cbn [ask bind spec]. split; [done|]. intros [ns|e].
  - case_bool_decide as Hns; [apply IH; by right|]. eapply spec_bind; [apply group_addresses_spec|]. cbv beta. intros h' grouped (h1 & rs & -> & Hall & ->).
    case_bool_decide as Hg; [apply IH; by right|]. cbn [spec]. split; [done|]. exists zone', ns, rs. split_and!; [done| |done..]. apply elem_of_app. right. left.
  - cbn [ask bind spec]. split; [done|]. intros [ce|]; [done|]. apply IH. by right.
Qed.

(** What it means that a value is found: a zone above the name has servers, each of them
    answered for the name, and every answer has the value. *)
Definition shown (name v : gostring) (h : list (event resolver)) : Prop := ∃ servers h1 h0, h = h1 ++ h0 ∧ served name servers h0 ∧
  Forall (λ addrs, ∃ addr values, addr ∈ addrs ∧ said addr name values ∈ h1) servers ∧ ∀ server values, said server name values ∈ h1 → v ∈ values.

Lemma AuthoritativeTXTLookup_spec name h :
  spec anything (λ h' r, match r with Ok vs => ∀ v, v ∈ vs → shown name v h' | Err _ => True end) h (AuthoritativeTXTLookup name).
Proof.
  eapply spec_bind_ok with (R := λ h' servers, served name servers h').
  - apply servers_from_spec. by left.
  - intros h0 servers Hs. eapply spec_mono; [done| |apply commonTXT_from_spec]. cbv beta. intros h' r (vs & h1 & -> & -> & Hv) v Hin.
    destruct (Hv v Hin) as (_ & _ & Hall & Hans). by exists servers, h1, h0.
Qed.

(** ** The walk and the requests *)

(** A name with a dot in it, of which [name] is a child. *)
Definition parent (name zone : gostring) : Prop := DOT ∈ zone ∧ ∃ labels, name = labels ++ DOT :: zone.

Lemma mem_byte_elem c cs : mem_byte c cs = true ↔ c ∈ cs.
Proof.
  unfold mem_byte. rewrite existsb_exists. split.
  - intros (d & Hd & E). apply bool_decide_eq_true in E as ->. by apply list_elem_of_In.
  - intros H. exists c. split; [by apply list_elem_of_In|by apply bool_decide_eq_true].
Qed.

Lemma walk_spec {E A} P (I : list (event E) → Prop) (Q : list (event E) → A → Prop) n name visit none h :
  (∀ h zone, I h → parent name zone → spec P (λ h r, match r with Some a => Q h a | None => I h end) h (visit zone)) →
  (∀ h, I h → Q h none) → I h → spec P Q h (walk n name visit none).
Proof.
  intros Hv Hn. revert name h Hv. induction n as [|n IH]; intros name h Hv Hh; cbn [walk]; [by apply Hn|].
  destruct (index_byte DOT name) as [i|] eqn:Ei; [|by apply Hn].
  destruct (mem_byte DOT (drop (S i) name)) eqn:Hm; cbn [negb]; [|by apply Hn]. apply mem_byte_elem in Hm.
  pose proof (index_byte_found _ _ _ Ei) as Hname.
  eapply spec_bind; [apply Hv; [done|]; split; [done|by eexists]|]. intros h' [a|] Hr; [done|]. apply IH; [|done].
  intros h2 zone Hi [Hz [labels Hl]]. apply Hv; [done|]. split; [done|]. exists (take i name ++ DOT :: labels). rewrite Hname at 1. rewrite Hl. by rewrite <- app_assoc.
Qed.

(** Requests that satisfy [P] and no messages to name servers; the other questions are free. *)
Definition sends (P : list (event api) → http_req → Prop) (h : list (event api)) (X : Type) (e : api X) : Prop :=
  match e with Send q => P h q | Exchange _ _ _ => False | _ => True end.

(** A client that does not go where an answer points sends one request and returns its
    answer, or fails. *)
Class Refuses (c : http_client) : Prop := refuses : hc_CheckRedirect c = UseLastResponse.

Lemma client_Do_spec {A} (P : list (event api) → ∀ X, api X → Prop) (Q : list (event api) → A → Prop) h c `{!Refuses c} q (k : option http_resp → client A) :
  P h _ (Send q) → (∀ answer seen, seen = answer ∨ seen = None → spec P Q (MkEvent _ (Send q) answer :: h) (k seen)) →
  spec P Q h (bind (client_Do (λ q, ask (Send q)) c q) k).
Proof.
  intros Hp Hk. unfold client_Do. cbn [do_from ask bind spec]. split; [exact Hp|]. intros [resp|]; [|by apply Hk; left].
  destruct (redirectBehavior _ _) as [[method keeps]|], (p_Location resp); cbn [bind]; rewrite ?refuses; cbn [bind]; apply Hk; auto.
Qed.

Lemma send_spec P (Q : list (event api) → result (Z * bytes) → Prop) h c `{!Refuses c} method url header body limit :
  P h (MkReq method url header body) →
  (∀ h' e, h' = h ∨ (∃ r, h' = MkEvent _ (Send (MkReq method url header body)) r :: h) → Q h' (Err e)) →
  (∀ resp raw, read_limited limit resp = Ok raw → Q (MkEvent _ (Send (MkReq method url header body)) (Some resp) :: h) (Ok (p_StatusCode resp, raw))) →
  spec (sends P) Q h (send c method url header body limit).
Proof.
  intros Hp He Hok. unfold send. destruct (url_ok url); cbn [negb]; [|apply He; by left].
  apply client_Do_spec; [apply _|exact Hp|]. intros answer seen Hseen. cbn [spec].
  destruct seen as [resp|]; [destruct Hseen as [<-|]; [|done]|apply He; right; by eexists].
  destruct (read_limited limit resp) as [raw|e] eqn:E; [by apply Hok|apply He; right; by eexists].
Qed.

(** [send] and [accept]: the answer is decoded only when its status is in the twohundreds. *)
Lemma call_spec {A} P (Q : list (event api) → result A → Prop) h c `{!Refuses c} method url header body limit notFound reject (decode : bytes → option A) :
  P h (MkReq method url header body) →
  (∀ h' e, h' = h ∨ (∃ r, h' = MkEvent _ (Send (MkReq method url header body)) r :: h) → Q h' (Err e)) →
  (∀ resp raw a, 200 ≤ p_StatusCode resp < 300 → read_limited limit resp = Ok raw → decode raw = Some a →
     Q (MkEvent _ (Send (MkReq method url header body)) (Some resp) :: h) (Ok a)) →
  spec (sends P) Q h (bind_ok (send c method url header body limit) (λ r, Ret (accept notFound reject decode r))).
Proof.
  intros Hp He Hok. eapply spec_bind_ok with (R := λ h r, Q h (accept notFound reject decode r)); [|done].
  apply send_spec; [apply _|done|done|]. intros resp raw Hraw. unfold accept.
  assert (∀ e, Q (MkEvent _ (Send (MkReq method url header body)) (Some resp) :: h) (Err e)) as He' by (intros e; apply He; right; by eexists).
  destruct (_ =? 404); [apply He'|]. destruct ((_ <? 200) || (_ <=? _)) eqn:Est; [apply He'|]. reflect_bools.
  destruct (decode raw) as [a|] eqn:Ed; [|apply He']. by apply (Hok resp raw a).
Qed.

(** A request to the API with this address: nothing stands between the address and the path. *)
Definition under (base : gostring) (q : http_req) : Prop := ∃ path, q_URL q = base ++ path ∧ head path = Some SLASH.

Lemma need_spec {A} P (R : list (event api) → A → Prop) Q h (m : client (result A)) f :
  spec P (λ h r, match r with Ok a => R h a | Err e => Q h (None, Some e) end) h m → (∀ h a, R h a → spec P Q h (f a)) → spec P Q h (need m f).
Proof. intros Hm Hf. eapply spec_bind; [exact Hm|]. intros h' [a|e] H; [by apply Hf|exact H]. Qed.

(** A record's name is inside the zone the walk found, up to the zone's own spelling. *)
Definition walked (recordName zone : gostring) : Prop := parent (trim_suffix [DOT] recordName) zone.

Lemma walk_zones_spec {E A} P (Q : list (event E) → result A → Prop) recordName visit none h :
  (∀ h zone, walked recordName zone → spec P (λ h r, match r with Some a => Q h a | None => True end) h (visit zone)) →
  (∀ h, Q h (Err none)) → spec P Q h (walk_zones recordName visit none).
Proof. intros Hv Hn. apply walk_spec with (I := λ _, True); [|by intros; apply Hn|done]. intros h' zone _ Hp. by apply Hv. Qed.

(** A URL written as the API's address and a path. *)
Ltac at_base := eexists; split; [reflexivity|reflexivity].

(** ** Quoting *)

Lemma unescape_txt_esc c v : bool_decide (c = BACKSLASH) || bool_decide (c = QUOTE) = true → unescape_txt (BACKSLASH :: c :: v) = c :: unescape_txt v.
Proof. intros H. cbn [unescape_txt]. rewrite bool_decide_eq_true_2 by done. by rewrite H. Qed.

Lemma unescape_txt_plain c v : bool_decide (c = BACKSLASH) || bool_decide (c = QUOTE) = false → unescape_txt (c :: v) = c :: unescape_txt v.
Proof. intros H. apply orb_false_iff in H as [H _]. destruct v as [|d v]; [done|]. cbn [unescape_txt]. by rewrite H. Qed.

Lemma strip_quotes_quoted s : strip_quotes (QUOTE :: s ++ [QUOTE]) = s.
Proof.
  unfold strip_quotes. rewrite (bool_decide_eq_true_2 (head _ = _)) by done.
  rewrite bool_decide_eq_true_2; [|by rewrite app_comm_cons, last_snoc]. cbn [length]. rewrite length_app. cbn [length].
  replace (2 <=? S (length s + 1))%nat with true by (symmetry; apply Nat.leb_le; lia). cbn [andb drop].
  rewrite drop_0. replace (S (length s + 1) - 2)%nat with (length s) by lia. by rewrite take_app_length.
Qed.

(** Values survive being written and read. *)
Lemma unquote_quote v : unquoteTXT (quoteTXT v) = v.
Proof.
  unfold unquoteTXT, quoteTXT. rewrite strip_quotes_quoted. induction v as [|c v IH]; [done|]. rewrite bind_cons.
  destruct (bool_decide (c = BACKSLASH) || bool_decide (c = QUOTE)) eqn:E; cbn [app]; [rewrite unescape_txt_esc by done|rewrite unescape_txt_plain by done]; by rewrite IH.
Qed.

(** A TXT value of two character strings does not survive being read and written: the quotes
    between them become part of the text. *)
Example two_strings_requoted : let v := [QUOTE] ++ go "a" ++ [QUOTE] ++ go " " ++ [QUOTE] ++ go "b" ++ [QUOTE] in
  quoteTXT (unquoteTXT v) = [QUOTE] ++ go "a\" ++ [QUOTE] ++ go " \" ++ [QUOTE] ++ go "b" ++ [QUOTE] ∧ quoteTXT (unquoteTXT v) ≠ v.
Proof. vm_compute. split; [done|discriminate]. Qed.

(** *** Answers that there is nothing *)

(** Errors of a request that no answer made. *)
Definition call_errors : list goerror :=
  [errorf "build request" [errURL]; errorf "request failed" [errTransport]; errorf "read response" [errTransport]; errorf "unparseable response" []].

(** The not-found error of a provider comes from an answer with that status and from nothing
    else. *)
Lemma call_found_spec {A} P (Q : list (event api) → result A → Prop) h c `{!Refuses c} method url header body limit notFound reject (decode : bytes → option A) :
  P h (MkReq method url header body) →
  Forall (λ e, errors_is e notFound = false) call_errors → (∀ raw, errors_is (reject raw) notFound = false) →
  (∀ h' e, errors_is e notFound = false → Q h' (Err e)) →
  (∀ resp raw, p_StatusCode resp = 404 → read_limited limit resp = Ok raw → Q (MkEvent _ (Send (MkReq method url header body)) (Some resp) :: h) (Err notFound)) →
  (∀ resp raw a, 200 ≤ p_StatusCode resp < 300 → read_limited limit resp = Ok raw → decode raw = Some a →
     Q (MkEvent _ (Send (MkReq method url header body)) (Some resp) :: h) (Ok a)) →
  spec (sends P) Q h (bind_ok (send c method url header body limit) (λ r, Ret (accept notFound reject decode r))).
Proof.
  intros Hp Hnf Hrej He H404 Hok. unfold call_errors in Hnf. rewrite !Forall_cons in Hnf. destruct Hnf as (H1 & H2 & H3 & H4 & _).
  eapply (spec_bind _ (λ h' r, Q h' (match r with Ok a => accept notFound reject decode a | Err e => Err e end))); [|by intros h' [a|e] ?].
  unfold send. destruct (url_ok url); cbn [negb]; [|by apply He]. apply client_Do_spec; [apply _|exact Hp|]. intros answer seen Hseen. cbn [spec].
  destruct seen as [resp|]; [destruct Hseen as [<-|]; [|done]|by apply He]. unfold read_limited in *. set (raw := (if _ <=? _ then _ else _) : result bytes) in *.
  assert (∀ e, raw = Err e → e = errTransport) as Hraw. { intros e. unfold raw. by destruct (_ <=? _), (p_BodyErr resp); intros [= <-]. }
  destruct raw as [b|e] eqn:Eraw; [|rewrite (Hraw e eq_refl); by apply He]. unfold accept.
  destruct (_ =? 404) eqn:E4; reflect_bools; [by eapply H404|]. destruct ((_ <? 200) || (_ <=? _)) eqn:Est; [by apply He|]. reflect_bools.
  destruct (decode b) as [a|] eqn:Ed; [by eapply Hok|by apply He].
Qed.

(** ** The check is exact *)

(** A value is reported if and only if there are servers, each of them has an address that
    answers, and every address that answers has the value. *)
Theorem commonTXT_exact at_ servers name : ∃ vs, run (table at_) (commonTXT servers name) tt = (Ok vs, tt) ∧
  ∀ v, v ∈ vs ↔ servers ≠ [] ∧ Forall (λ addrs, Exists (answers at_ name) addrs ∧ Forall (good_answer at_ name v) addrs) servers.
Proof.
  destruct (commonTXT_from_table at_ servers name None) as (vs & Hrun & Hvs). exists vs. split; [exact Hrun|]. intros v. rewrite Hvs. split.
  - intros ([[? ?]|?] & _ & ?); [done|by split].
  - intros [? ?]. split; [by right|done].
Qed.
