(* ===== verification/Sha1.v ===== *)
(** * SHA-1

    Go's [crypto/sha1] (FIPS 180-4), which the signature of one DNS provider's API is made
    of.  The padding and the words are those of [Sha256]. *)

From S2P Require Import Prelude GoLib Sha256.

Open Scope Z_scope.

Definition rotl (n x : Z) : Z := Z.lor (w32 (Z.shiftl x n)) (Z.shiftr x (32 - n)).

(** Kept newest first: [w(t)] from the last sixteen. *)
Fixpoint sha1_schedule (n : nat) (ws : list Z) : list Z :=
  match n with
  | O => ws
  | S n =>
      let at_ i := default 0 (ws !! i) in
      sha1_schedule n (rotl 1 (Z.lxor (at_ 2%nat) (Z.lxor (at_ 7%nat) (Z.lxor (at_ 13%nat) (at_ 15%nat)))) :: ws)
  end.

Definition sha1_round (st : list Z) (tw : nat * Z) : list Z :=
  match st with
  | [a; b; c; d; e] =>
      let '(t, w) := tw in
      let '(f, k) :=
        if (t <? 20)%nat then (ch b c d, 0x5a827999) else
        if (t <? 40)%nat then (Z.lxor b (Z.lxor c d), 0x6ed9eba1) else
        if (t <? 60)%nat then (maj b c d, 0x8f1bbcdc) else (Z.lxor b (Z.lxor c d), 0xca62c1d6) in
      [add32 (add32 (add32 (rotl 5 a) f) (add32 e k)) w; a; rotl 30 b; c; d]
  | _ => st
  end.

Definition sha1_compress (h block : list Z) : list Z :=
  zip_with add32 h (foldl sha1_round h (zip (seq 0 80) (rev (sha1_schedule 64 (rev block))))).

Fixpoint sha1_blocks (fuel : nat) (ws : list Z) (h : list Z) : list Z :=
  match fuel, ws with
  | O, _ | _, [] => h
  | S fuel, _ => sha1_blocks fuel (drop 16 ws) (sha1_compress h (take 16 ws))
  end.

(** [sha1.Sum] *)
Definition sha1 (s : bytes) : bytes :=
  let p := pad s in
  x ← sha1_blocks (length p) (words p) [0x67452301; 0xefcdab89; 0x98badcfe; 0x10325476; 0xc3d2e1f0]; word_bytes x.

(** The examples of the standard. *)
Example sha1_abc : hex_encode (sha1 (go "abc")) = go "a9993e364706816aba3e25717850c26c9cd0d89d".
Proof. vm_compute. reflexivity. Qed.
Example sha1_two_blocks : hex_encode (sha1 (go "abcdbcdecdefdefgefghfghighijhijkijkljklmklmnlmnomnopnopq")) = go "84983e441c3bd26ebaae4aa1f95129e5e54670f1".
Proof. vm_compute. reflexivity. Qed.
