(* ===== verification/DnsRecords.v ===== *)
(** * DNS providers that create and delete single records

    [internal/dns01]: Cloudflare, DigitalOcean, DNSimple, ArvanCloud and OVH.  What the
    remote API answers is arbitrary; the theorems say what is asked of it. *)

From S2P Require Import Prelude GoLib RateLimit NetIP GoNum GoJson Sha1 Secrets Program Dns01.

Open Scope Z_scope.
Open Scope prog_scope.

Definition str (s : gostring) : jvalue := VStr s.
Definition int (z : Z) : jvalue := VNum (FormatInt z).

(** ** Cloudflare *)

(** src/internal/dns01/cloudflare.go:19-42, cloudflareAPIBase *)
Definition cloudflareAPIBase : gostring := go "https://api.cloudflare.com/client/v4".
Definition cloudflareChallengeTTL : Z := 60.
Definition cloudflareRecordMissingCode : Z := 81044.
Definition cloudflareMaxBody : Z := 2 ^ 20.

(** src/internal/dns01/cloudflare.go:44-46, ErrCloudflareAPI *)
Definition ErrCloudflareAPI : goerror := errors_new "dns01: cloudflare api".
(** src/internal/dns01/cloudflare.go:196-198, errCloudflareNotFound *)
Definition errCloudflareNotFound : goerror := errors_new "record not found".

(** src/internal/dns01/cloudflare.go:48-85, cloudflareProvider *)
Record cloudflareProvider := MkCloudflare { cf_token : Redacted }.

(** src/internal/dns01/cloudflare.go:252-255, cloudflareErr *)
Record cloudflareErr := MkCloudflareErr { cfe_Code : Z; cfe_Message : gostring }.
(** src/internal/dns01/cloudflare.go:245-250, cloudflareEnvelope *)
Record cloudflareEnvelope := MkCloudflareEnvelope { env_Success : bool; env_Errors : list cloudflareErr; env_Result : option jvalue }.

Definition into_cloudflareErr : store cloudflareErr := into_struct false
  [("code"%string, λ v a, c ← into_int64 v (cfe_Code a); Some (MkCloudflareErr c (cfe_Message a)));
   ("message"%string, λ v a, m ← into_string v (cfe_Message a); Some (MkCloudflareErr (cfe_Code a) m))].
Definition into_cloudflareEnvelope : store cloudflareEnvelope := into_struct false
  [("success"%string, λ v a, b ← into_bool v (env_Success a); Some (MkCloudflareEnvelope b (env_Errors a) (env_Result a)));
   ("errors"%string, λ v a, l ← into_list (MkCloudflareErr 0 []) into_cloudflareErr v (env_Errors a); Some (MkCloudflareEnvelope (env_Success a) l (env_Result a)));
   ("result"%string, λ v a, r ← into_raw v (env_Result a); Some (MkCloudflareEnvelope (env_Success a) (env_Errors a) r))].

(** src/internal/dns01/cloudflare.go:312-338, cloudflareErrors *)
Definition cloudflareErrors (errs : list cloudflareErr) : goerror :=
  match errs with
  | [] => errorf "request rejected" []
  | e :: _ => if cfe_Code e =? cloudflareRecordMissingCode then errCloudflareNotFound else errorf "request rejected (code)" []
  end.

(** Redirects are refused.

    src/internal/dns01/cloudflare.go:109-119, NewCloudflare *)
Definition cloudflareClient : http_client := MkClient UseLastResponse.
#[export] Instance cloudflare_refuses : Refuses cloudflareClient := eq_refl.

(** Without a place to decode into, the result is not looked at.

    src/internal/dns01/cloudflare.go:257-310, cloudflareProvider.do *)
Definition cloudflare_do {A} (p : cloudflareProvider) (method path : gostring) (body : option bytes) (out : option jvalue → option A) : client (result A) :=
  let! r := send cloudflareClient method (cloudflareAPIBase ++ path) ((go "Authorization", go "Bearer " ++ cf_token p) :: json_headers) body cloudflareMaxBody in
  Ret (let '(status, raw) := r in
       if status =? 404 then Err errCloudflareNotFound else
       match Unmarshal into_cloudflareEnvelope raw (MkCloudflareEnvelope false [] None) with
       | None => Err (errorf "unparseable response" [])
       | Some env =>
           if negb (env_Success env) then Err (cloudflareErrors (env_Errors env)) else
           match out (env_Result env) with Some a => Ok a | None => Err (errorf "decode result" []) end
       end).

Definition into_id : store gostring := into_struct false [("id"%string, into_string)].

(** src/internal/dns01/cloudflare.go:200-243, cloudflareProvider.zoneID *)
Definition cloudflare_zoneID (p : cloudflareProvider) (recordName : gostring) : client (result gostring) :=
  walk_zones recordName (λ name,
    let query := Encode [(go "name", name); (go "status", go "active")] in
    try! zones := cloudflare_do p GET (go "/zones?" ++ query) None (λ r, v ← r; into_list [] into_id v []) in
    Ret (match zones with
         | Err e => Some (Err (errorf "look up zone" [ErrCloudflareAPI; e]))
         | Ok (id :: _) => if bool_decide (id = []) then None else Some (Ok id)
         | Ok [] => None
         end))
  (errorf "no zone found" [ErrCloudflareAPI]).

(** src/internal/dns01/cloudflare.go:178-194, cloudflareProvider.deleteRecord *)
Definition cloudflare_deleteRecord (p : cloudflareProvider) (zoneID recordID : gostring) : CleanupFunc :=
  try! r := cloudflare_do p DELETE (go "/zones/" ++ zoneID ++ go "/dns_records/" ++ recordID) None (λ _, Some tt) in
  Ret (match r with
       | Ok _ => Ok tt
       | Err e => if errors_is e errCloudflareNotFound then Ok tt else Err (errorf "delete txt record" [ErrCloudflareAPI; e])
       end).

(** src/internal/dns01/cloudflare.go:143-176, cloudflareProvider.Present *)
Definition cloudflare_Present (p : cloudflareProvider) (rec : DNSRecord) : client (option CleanupFunc * option goerror) :=
  need! zoneID := cloudflare_zoneID p (rec_Name rec) in
  let body := print (VObj [(go "comment", str (go "sshpilot-vallet ACME DNS-01 challenge")); (go "content", str (rec_Value rec));
                           (go "name", str (rec_Name rec)); (go "ttl", int cloudflareChallengeTTL); (go "type", str (go "TXT"))]) in
  need! created := on_err (λ e, errorf "create txt record" [ErrCloudflareAPI; e])
    (cloudflare_do p POST (go "/zones/" ++ zoneID ++ go "/dns_records") (Some body) (λ r, v ← r; into_id v [])) in
  if bool_decide (created = []) then Ret (None, Some (errorf "create txt record returned no record id" [ErrCloudflareAPI])) else
  Ret (Some (cloudflare_deleteRecord p zoneID created), None).

(** src/internal/dns01/cloudflare.go:89-122, NewCloudflare *)
Definition NewCloudflare (creds : Credentials) : result DNSProvider :=
  token ← single_token ErrCloudflareAPI creds;
  Ok (MkDNSProvider (go "cloudflare") (cloudflare_Present (MkCloudflare token))).

(** ** DigitalOcean *)

(** src/internal/dns01/digitalocean.go:20-45, digitalOceanAPIBase *)
Definition digitalOceanAPIBase : gostring := go "https://api.digitalocean.com/v2".
Definition digitalOceanChallengeTTL : Z := 60.
Definition digitalOceanMaxBody : Z := 2 ^ 20.
Definition digitalOceanListPerPage : Z := 200.

(** The providers' own not-found errors share one text; the name tells them apart.

    src/internal/dns01/digitalocean.go:385-387, errDigitalOceanNotFound *)
Definition errDigitalOceanNotFound : goerror := errors_new "resource not found (digitalocean)".

(** src/internal/dns01/digitalocean.go:51-106, digitalOceanProvider *)
Record digitalOceanProvider := MkDigitalOcean { do_token : Redacted }.

(** src/internal/dns01/digitalocean.go:469-473, digitalOceanDomainResponse *)
Definition into_digitalOceanDomain : store gostring := into_struct false [("domain"%string, into_struct false [("name"%string, into_string)])].
(** src/internal/dns01/digitalocean.go:475-482, digitalOceanRecordsResponse *)
Record digitalOceanRecord := MkDORecord { dor_ID : Z; dor_Type : gostring; dor_Name : gostring; dor_Data : gostring }.
Definition into_digitalOceanRecord : store digitalOceanRecord := into_struct false
  [("id"%string, λ v a, x ← into_int64 v (dor_ID a); Some (MkDORecord x (dor_Type a) (dor_Name a) (dor_Data a)));
   ("type"%string, λ v a, x ← into_string v (dor_Type a); Some (MkDORecord (dor_ID a) x (dor_Name a) (dor_Data a)));
   ("name"%string, λ v a, x ← into_string v (dor_Name a); Some (MkDORecord (dor_ID a) (dor_Type a) x (dor_Data a)));
   ("data"%string, λ v a, x ← into_string v (dor_Data a); Some (MkDORecord (dor_ID a) (dor_Type a) (dor_Name a) x))].
Definition into_digitalOceanRecords : store (list digitalOceanRecord) :=
  into_struct false [("domain_records"%string, into_list (MkDORecord 0 [] [] []) into_digitalOceanRecord)].

(** The error's id and message.

    src/internal/dns01/digitalocean.go:484-487, digitalOceanErrorResponse *)
Definition into_digitalOceanErrorResponse : store (gostring * gostring) := into_struct false
  [("id"%string, λ v a, x ← into_string v a.1; Some (x, a.2)); ("message"%string, λ v a, x ← into_string v a.2; Some (a.1, x))].
(** src/internal/dns01/digitalocean.go:444-464, digitalOceanError *)
Definition digitalOceanError (raw : bytes) : goerror :=
  match Unmarshal into_digitalOceanErrorResponse raw ([], []) with
  | None | Some ([], _) => errorf "request rejected" []
  | Some _ => errorf "request rejected (id)" []
  end.

(** Redirects are refused.

    src/internal/dns01/digitalocean.go:129-139, NewDigitalOcean *)
Definition digitalOceanClient : http_client := MkClient UseLastResponse.
#[export] Instance digitalOcean_refuses : Refuses digitalOceanClient := eq_refl.

(** src/internal/dns01/digitalocean.go:389-442, digitalOceanProvider.do *)
Definition digitalOcean_do {A} (p : digitalOceanProvider) (method path : gostring) (body : option bytes) (decode : bytes → option A) : client (result A) :=
  let! r := send digitalOceanClient method (digitalOceanAPIBase ++ path) ((go "Authorization", go "Bearer " ++ trim_space (do_token p)) :: json_headers) body digitalOceanMaxBody in
  Ret (accept errDigitalOceanNotFound digitalOceanError decode r).

Section case.
Context {UC : UnicodeCase}.

(** src/internal/dns01/digitalocean.go:283-338, digitalOceanProvider.domainFor *)
Definition digitalOcean_domainFor (p : digitalOceanProvider) (recordName : gostring) : client (result gostring) :=
  walk_zones recordName (λ name,
    if negb (validDomainName name) then Ret (Some (Err (errorf "malformed domain candidate" [ErrDigitalOceanAPI]))) else
    try! r := digitalOcean_do p GET (go "/domains/" ++ PathEscape name) None (λ raw, Unmarshal into_digitalOceanDomain raw []) in
    Ret (match r with
         | Err e => if errors_is e errDigitalOceanNotFound then None else Some (Err (errorf "look up domain" [ErrDigitalOceanAPI; e]))
         | Ok answered => Some (if negb (EqualFold (trim_suffix [DOT] answered) name) then Err (errorf "domain lookup answered for a different domain" [ErrDigitalOceanAPI])
                                else Ok name)
         end))
  (errorf "no domain found" [ErrDigitalOceanAPI]).

Definition digitalOcean_match (relative value : gostring) (r : digitalOceanRecord) : bool :=
  EqualFold (dor_Type r) (go "TXT") && EqualFold (trim_suffix [DOT] (dor_Name r)) relative && bool_decide (dor_Data r = value).

(** src/internal/dns01/digitalocean.go:240-281, digitalOceanProvider.findRecord *)
Definition digitalOcean_findRecord (p : digitalOceanProvider) (domain relative fqdn value : gostring) : client (result (option Z)) :=
  let query := go "?type=TXT&name=" ++ QueryEscape fqdn ++ go "&per_page=" ++ FormatInt digitalOceanListPerPage in
  try! out := digitalOcean_do p GET (go "/domains/" ++ PathEscape domain ++ go "/records" ++ query) None (λ raw, Unmarshal into_digitalOceanRecords raw []) in
  Ret (match out with
       | Err e => if errors_is e errDigitalOceanNotFound then Ok None else Err (errorf "list txt records" [e])
       | Ok rs => match List.find (digitalOcean_match relative value) rs with
                  | None => Ok None
                  | Some r => if dor_ID r <=? 0 then Err (errorf "record has no usable id" []) else Ok (Some (dor_ID r))
                  end
       end).

(** src/internal/dns01/digitalocean.go:210-238, digitalOceanProvider.removeValue *)
Definition digitalOcean_removeValue (p : digitalOceanProvider) (domain relative fqdn value : gostring) : CleanupFunc :=
  let! found := on_err (λ e, errorf "find txt record for cleanup" [ErrDigitalOceanAPI; e]) (digitalOcean_findRecord p domain relative fqdn value) in
  match found with
  | None => Ret (Ok tt)
  | Some id =>
      try! r := digitalOcean_do p DELETE (go "/domains/" ++ PathEscape domain ++ go "/records/" ++ FormatInt id) None no_out in
      Ret (match r with
           | Ok _ => Ok tt
           | Err e => if errors_is e errDigitalOceanNotFound then Ok tt else Err (errorf "delete txt record" [ErrDigitalOceanAPI; e])
           end)
  end.

(** src/internal/dns01/digitalocean.go:158-208, digitalOceanProvider.Present *)
Definition digitalOcean_Present (p : digitalOceanProvider) (rec : DNSRecord) : client (option CleanupFunc * option goerror) :=
  need! domain := digitalOcean_domainFor p (rec_Name rec) in
  need! relative := Ret (relativeRecordName (rec_Name rec) domain) in
  let body := print (VObj [(go "data", str (rec_Value rec)); (go "name", str relative); (go "ttl", int digitalOceanChallengeTTL); (go "type", str (go "TXT"))]) in
  published (digitalOcean_removeValue p domain relative (rec_Name rec) (rec_Value rec))
    (on_err (λ e, errorf "create txt record" [ErrDigitalOceanAPI; e]) (digitalOcean_do p POST (go "/domains/" ++ PathEscape domain ++ go "/records") (Some body) no_out)).

(** src/internal/dns01/digitalocean.go:110-142, NewDigitalOcean *)
Definition NewDigitalOcean (creds : Credentials) : result DNSProvider :=
  token ← single_token ErrDigitalOceanAPI creds;
  Ok (MkDNSProvider (go "digitalocean") (digitalOcean_Present (MkDigitalOcean token))).

(** ** DNSimple *)

(** src/internal/dns01/dnsimple.go:21-48, dnsimpleAPIBase *)
Definition dnsimpleAPIBase : gostring := go "https://api.dnsimple.com/v2".
Definition dnsimpleChallengeTTL : Z := 60.
Definition dnsimpleMaxBody : Z := 2 ^ 20.
Definition dnsimpleListPerPage : Z := 100.

(** src/internal/dns01/dnsimple.go:50-52, ErrDNSimpleAPI *)
Definition ErrDNSimpleAPI : goerror := errors_new "dns01: dnsimple api".
(** src/internal/dns01/dnsimple.go:499-501, errDNSimpleNotFound *)
Definition errDNSimpleNotFound : goerror := errors_new "resource not found (dnsimple)".

(** The account's number is kept under the provider's lock; [None] is the zero it starts from.

    src/internal/dns01/dnsimple.go:54-115, dnsimpleProvider *)
Record dnsimpleProvider := MkDNSimple { ds_token : Redacted }.

(** src/internal/dns01/dnsimple.go:584-594, dnsimpleWhoamiResponse *)
Definition into_dnsimpleWhoami : store (option Z) := into_struct false [("data"%string, into_struct false [("account"%string, λ v old,
  match v with VNull => Some None | _ => Some <$> into_struct false [("id"%string, into_int64)] v (default 0 old) end)])].
(** src/internal/dns01/dnsimple.go:596-600, dnsimpleZoneResponse *)
Definition into_dnsimpleZone : store gostring := into_struct false [("data"%string, into_struct false [("name"%string, into_string)])].
(** src/internal/dns01/dnsimple.go:602-609, dnsimpleRecordsResponse *)
Record dnsimpleRecord := MkDSRecord { dsr_ID : Z; dsr_Type : gostring; dsr_Name : gostring; dsr_Content : gostring }.
Definition into_dnsimpleRecord : store dnsimpleRecord := into_struct false
  [("id"%string, λ v a, x ← into_int64 v (dsr_ID a); Some (MkDSRecord x (dsr_Type a) (dsr_Name a) (dsr_Content a)));
   ("type"%string, λ v a, x ← into_string v (dsr_Type a); Some (MkDSRecord (dsr_ID a) x (dsr_Name a) (dsr_Content a)));
   ("name"%string, λ v a, x ← into_string v (dsr_Name a); Some (MkDSRecord (dsr_ID a) (dsr_Type a) x (dsr_Content a)));
   ("content"%string, λ v a, x ← into_string v (dsr_Content a); Some (MkDSRecord (dsr_ID a) (dsr_Type a) (dsr_Name a) x))].
Definition into_dnsimpleRecords : store (list dnsimpleRecord) :=
  into_struct false [("data"%string, into_list (MkDSRecord 0 [] [] []) into_dnsimpleRecord)].

(** An error body that is only a message. *)
Definition into_message : store gostring := into_struct false [("message"%string, into_string)].
Definition message_error (raw : bytes) : goerror :=
  match Unmarshal into_message raw [] with
  | None | Some [] => errorf "request rejected" []
  | Some _ => errorf "request rejected (message)" []
  end.

(** src/internal/dns01/dnsimple.go:558-579, dnsimpleError *)
Definition dnsimpleError (raw : bytes) : goerror := message_error raw.

(** Redirects are refused.

    src/internal/dns01/dnsimple.go:138-148, NewDNSimple *)
Definition dnsimpleClient : http_client := MkClient UseLastResponse.
#[export] Instance dnsimple_refuses : Refuses dnsimpleClient := eq_refl.

(** src/internal/dns01/dnsimple.go:503-556, dnsimpleProvider.do *)
Definition dnsimple_do {A} (p : dnsimpleProvider) (method path : gostring) (body : option bytes) (decode : bytes → option A) : client (result A) :=
  let! r := send dnsimpleClient method (dnsimpleAPIBase ++ path) ((go "Authorization", go "Bearer " ++ trim_space (ds_token p)) :: json_headers) body dnsimpleMaxBody in
  Ret (accept errDNSimpleNotFound dnsimpleError decode r).

(** src/internal/dns01/dnsimple.go:402-407, dnsimpleProvider.cachedAccount *)
Definition dnsimple_cachedAccount : client Z := try! id := ask (Locked (λ c, c)) in Ret (default 0 id).

(** src/internal/dns01/dnsimple.go:324-400, dnsimpleProvider.account *)
Definition dnsimple_account (p : dnsimpleProvider) : client (result Z) :=
  try! id := dnsimple_cachedAccount in
  if 0 <? id then Ret (Ok id) else
  let! account := on_err (λ e, errorf "resolve account" [ErrDNSimpleAPI; e]) (dnsimple_do p GET (go "/whoami") None (λ raw, Unmarshal into_dnsimpleWhoami raw None)) in
  let none := errorf "token resolves to no account" [ErrDNSimpleAPI] in
  match account with
  | None => Ret (Err none)
  | Some id =>
      if id <=? 0 then Ret (Err none) else
      try! id := ask (Locked (λ c, match c with None => Some id | Some _ => c end)) in Ret (Ok (default 0 id))
  end.

(** src/internal/dns01/dnsimple.go:409-414, dnsimpleZonePath *)
Definition dnsimpleZonePath (account : Z) (zone : gostring) : gostring := go "/" ++ FormatInt account ++ go "/zones/" ++ PathEscape zone.

(** src/internal/dns01/dnsimple.go:416-474, dnsimpleProvider.zoneFor *)
Definition dnsimple_zoneFor (p : dnsimpleProvider) (account : Z) (recordName : gostring) : client (result gostring) :=
  walk_zones recordName (λ name,
    if negb (validDomainName name) then Ret (Some (Err (errorf "malformed zone candidate" [ErrDNSimpleAPI]))) else
    try! r := dnsimple_do p GET (dnsimpleZonePath account name) None (λ raw, Unmarshal into_dnsimpleZone raw []) in
    Ret (match r with
         | Err e => if errors_is e errDNSimpleNotFound then None else Some (Err (errorf "look up zone" [ErrDNSimpleAPI; e]))
         | Ok answered => Some (if negb (EqualFold (trim_suffix [DOT] answered) name) then Err (errorf "zone lookup answered for a different zone" [ErrDNSimpleAPI])
                                else Ok name)
         end))
  (errorf "no zone found" [ErrDNSimpleAPI]).

(** A name inside the zone, where the zone itself has the empty name. *)
Definition apex_as_empty (api : goerror) (fqdn zone : gostring) : result gostring :=
  match relativeRecordName fqdn zone with
  | Err _ => Err (errorf "record is not inside zone" [api])
  | Ok relative => Ok (if bool_decide (relative = go "@") then [] else relative)
  end.
(** src/internal/dns01/dnsimple.go:476-497, dnsimpleRecordName *)
Definition dnsimpleRecordName (fqdn zone : gostring) : result gostring := apex_as_empty ErrDNSimpleAPI fqdn zone.

(** src/internal/dns01/dnsimple.go:301-322, dnsimpleTXTContent *)
Definition dnsimpleTXTContent (content : gostring) : gostring := strip_quotes content.

Definition dnsimple_match (relative value : gostring) (r : dnsimpleRecord) : bool :=
  EqualFold (dsr_Type r) (go "TXT") && EqualFold (trim_suffix [DOT] (dsr_Name r)) relative && bool_decide (dnsimpleTXTContent (dsr_Content r) = value).

(** src/internal/dns01/dnsimple.go:256-299, dnsimpleProvider.findRecord *)
Definition dnsimple_findRecord (p : dnsimpleProvider) (account : Z) (zone relative value : gostring) : client (result (option Z)) :=
  let query := go "?type=TXT&name=" ++ QueryEscape relative ++ go "&per_page=" ++ FormatInt dnsimpleListPerPage in
  try! out := dnsimple_do p GET (dnsimpleZonePath account zone ++ go "/records" ++ query) None (λ raw, Unmarshal into_dnsimpleRecords raw []) in
  Ret (match out with
       | Err e => if errors_is e errDNSimpleNotFound then Ok None else Err (errorf "list txt records" [e])
       | Ok rs => match List.find (dnsimple_match relative value) rs with
                  | None => Ok None
                  | Some r => if dsr_ID r <=? 0 then Err (errorf "record has no usable id" []) else Ok (Some (dsr_ID r))
                  end
       end).

(** src/internal/dns01/dnsimple.go:226-254, dnsimpleProvider.removeValue *)
Definition dnsimple_removeValue (p : dnsimpleProvider) (account : Z) (zone relative value : gostring) : CleanupFunc :=
  let! found := on_err (λ e, errorf "find txt record for cleanup" [ErrDNSimpleAPI; e]) (dnsimple_findRecord p account zone relative value) in
  match found with
  | None => Ret (Ok tt)
  | Some id =>
      try! r := dnsimple_do p DELETE (dnsimpleZonePath account zone ++ go "/records/" ++ FormatInt id) None no_out in
      Ret (match r with
           | Ok _ => Ok tt
           | Err e => if errors_is e errDNSimpleNotFound then Ok tt else Err (errorf "delete txt record" [ErrDNSimpleAPI; e])
           end)
  end.

(** src/internal/dns01/dnsimple.go:167-224, dnsimpleProvider.Present *)
Definition dnsimple_Present (p : dnsimpleProvider) (rec : DNSRecord) : client (option CleanupFunc * option goerror) :=
  need! account := dnsimple_account p in
  need! zone := dnsimple_zoneFor p account (rec_Name rec) in
  need! relative := Ret (dnsimpleRecordName (rec_Name rec) zone) in
  let body := print (VObj [(go "content", str (rec_Value rec)); (go "name", str relative); (go "ttl", int dnsimpleChallengeTTL); (go "type", str (go "TXT"))]) in
  published (dnsimple_removeValue p account zone relative (rec_Value rec))
    (on_err (λ e, errorf "create txt record" [ErrDNSimpleAPI; e]) (dnsimple_do p POST (dnsimpleZonePath account zone ++ go "/records") (Some body) no_out)).

(** src/internal/dns01/dnsimple.go:119-151, NewDNSimple *)
Definition NewDNSimple (creds : Credentials) : result DNSProvider :=
  token ← single_token ErrDNSimpleAPI creds;
  Ok (MkDNSProvider (go "dnsimple") (dnsimple_Present (MkDNSimple token))).

(** ** ArvanCloud *)

(** src/internal/dns01/arvancloud.go:19-53, arvanCloudAPIBase *)
Definition arvanCloudAPIBase : gostring := go "https://napi.arvancloud.ir/cdn/4.0".
Definition arvanCloudChallengeTTL : Z := 600.
Definition arvanCloudMaxBody : Z := 2 ^ 20.
Definition arvanCloudListPerPage : Z := 100.

(** src/internal/dns01/arvancloud.go:55-57, ErrArvanCloudAPI *)
Definition ErrArvanCloudAPI : goerror := errors_new "dns01: arvancloud api".
(** src/internal/dns01/arvancloud.go:362-364, errArvanCloudNotFound *)
Definition errArvanCloudNotFound : goerror := errors_new "resource not found (arvancloud)".

(** src/internal/dns01/arvancloud.go:59-114, arvanCloudProvider *)
Record arvanCloudProvider := MkArvanCloud { ar_token : Redacted }.

(** src/internal/dns01/arvancloud.go:443-448, arvanTXTValue *)
Definition into_arvanTXTValue : store gostring := into_struct false [("text"%string, into_string)].
(** src/internal/dns01/arvancloud.go:450-460, arvanRecordsResponse *)
Record arvanRecord := MkArvanRecord { arr_ID : gostring; arr_Type : gostring; arr_Name : gostring; arr_Value : option jvalue }.
Definition into_arvanRecord : store arvanRecord := into_struct false
  [("id"%string, λ v a, x ← into_string v (arr_ID a); Some (MkArvanRecord x (arr_Type a) (arr_Name a) (arr_Value a)));
   ("type"%string, λ v a, x ← into_string v (arr_Type a); Some (MkArvanRecord (arr_ID a) x (arr_Name a) (arr_Value a)));
   ("name"%string, λ v a, x ← into_string v (arr_Name a); Some (MkArvanRecord (arr_ID a) (arr_Type a) x (arr_Value a)));
   ("value"%string, λ v a, x ← into_raw v (arr_Value a); Some (MkArvanRecord (arr_ID a) (arr_Type a) (arr_Name a) x))].
Definition into_arvanRecords : store (list arvanRecord) := into_struct false [("data"%string, into_list (MkArvanRecord [] [] [] None) into_arvanRecord)].

(** src/internal/dns01/arvancloud.go:422-438, arvanCloudError *)
Definition arvanCloudError (raw : bytes) : goerror := message_error raw.

(** Redirects are refused.

    src/internal/dns01/arvancloud.go:137-147, NewArvanCloud *)
Definition arvanCloudClient : http_client := MkClient UseLastResponse.
#[export] Instance arvanCloud_refuses : Refuses arvanCloudClient := eq_refl.

(** src/internal/dns01/arvancloud.go:366-420, arvanCloudProvider.do *)
Definition arvanCloud_do {A} (p : arvanCloudProvider) (method path : gostring) (body : option bytes) (decode : bytes → option A) : client (result A) :=
  let! r := send arvanCloudClient method (arvanCloudAPIBase ++ path) ((go "Authorization", go "Apikey " ++ trim_space (ar_token p)) :: json_headers) body arvanCloudMaxBody in
  Ret (accept errArvanCloudNotFound arvanCloudError decode r).

(** src/internal/dns01/arvancloud.go:356-360, arvanCloudProvider.recordsPath *)
Definition arvanCloud_recordsPath (domain : gostring) : gostring := go "/domains/" ++ PathEscape domain ++ go "/dns-records".

(** src/internal/dns01/arvancloud.go:299-354, arvanCloudProvider.domainFor *)
Definition arvanCloud_domainFor (p : arvanCloudProvider) (recordName : gostring) : client (result gostring) :=
  walk_zones recordName (λ name,
    if negb (validDomainName name) then Ret (Some (Err (errorf "malformed domain candidate" [ErrArvanCloudAPI]))) else
    try! r := arvanCloud_do p GET (arvanCloud_recordsPath name ++ go "?per_page=1") None no_out in
    Ret (match r with
         | Err e => if errors_is e errArvanCloudNotFound then None else Some (Err (errorf "look up domain" [ErrArvanCloudAPI; e]))
         | Ok _ => Some (Ok name)
         end))
  (errorf "no domain found" [ErrArvanCloudAPI]).

Definition arvanCloud_match (relative value : gostring) (r : arvanRecord) : bool :=
  EqualFold (arr_Type r) (go "txt") && EqualFold (trim_suffix [DOT] (arr_Name r)) relative &&
  match (v ← arr_Value r; into_arvanTXTValue v []) with Some text => bool_decide (text = value) | None => false end.

(** src/internal/dns01/arvancloud.go:246-297, arvanCloudProvider.findRecord *)
Definition arvanCloud_findRecord (p : arvanCloudProvider) (domain relative value : gostring) : client (result (option gostring)) :=
  let search := filter (λ c, c ≠ UNDERSCORE) relative in
  let query := go "?search=" ++ QueryEscape search ++ go "&per_page=" ++ FormatInt arvanCloudListPerPage in
  try! out := arvanCloud_do p GET (arvanCloud_recordsPath domain ++ query) None (λ raw, Unmarshal into_arvanRecords raw []) in
  Ret (match out with
       | Err e => if errors_is e errArvanCloudNotFound then Ok None else Err (errorf "list txt records" [e])
       | Ok rs => match List.find (arvanCloud_match relative value) rs with
                  | None => Ok None
                  | Some r => if bool_decide (arr_ID r = []) then Err (errorf "record has no usable id" []) else Ok (Some (arr_ID r))
                  end
       end).

(** src/internal/dns01/arvancloud.go:216-244, arvanCloudProvider.removeValue *)
Definition arvanCloud_removeValue (p : arvanCloudProvider) (domain relative value : gostring) : CleanupFunc :=
  let! found := on_err (λ e, errorf "find txt record for cleanup" [ErrArvanCloudAPI; e]) (arvanCloud_findRecord p domain relative value) in
  match found with
  | None => Ret (Ok tt)
  | Some id =>
      try! r := arvanCloud_do p DELETE (arvanCloud_recordsPath domain ++ go "/" ++ PathEscape id) None no_out in
      Ret (match r with
           | Ok _ => Ok tt
           | Err e => if errors_is e errArvanCloudNotFound then Ok tt else Err (errorf "delete txt record" [ErrArvanCloudAPI; e])
           end)
  end.

(** src/internal/dns01/arvancloud.go:166-214, arvanCloudProvider.Present *)
Definition arvanCloud_Present (p : arvanCloudProvider) (rec : DNSRecord) : client (option CleanupFunc * option goerror) :=
  need! domain := arvanCloud_domainFor p (rec_Name rec) in
  need! relative := Ret (relativeRecordName (rec_Name rec) domain) in
  let body := print (VObj [(go "name", str relative); (go "ttl", int arvanCloudChallengeTTL); (go "type", str (go "txt")); (go "value", VObj [(go "text", str (rec_Value rec))])]) in
  published (arvanCloud_removeValue p domain relative (rec_Value rec))
    (on_err (λ e, errorf "create txt record" [ErrArvanCloudAPI; e]) (arvanCloud_do p POST (arvanCloud_recordsPath domain) (Some body) no_out)).

(** src/internal/dns01/arvancloud.go:118-150, NewArvanCloud *)
Definition NewArvanCloud (creds : Credentials) : result DNSProvider :=
  token ← single_token ErrArvanCloudAPI creds;
  Ok (MkDNSProvider (go "arvancloud") (arvanCloud_Present (MkArvanCloud token))).

(** ** OVH *)

(** src/internal/dns01/ovh.go:23-63, ovhSignaturePrefix *)
Definition ovhSignaturePrefix : gostring := go "$1$".
Definition ovhDefaultEndpoint : gostring := go "ovh-eu".
Definition ovhChallengeTTL : Z := 60.
Definition ovhMaxBody : Z := 2 ^ 20.

(** src/internal/dns01/ovh.go:65-79, ovhEndpoints *)
Definition ovhEndpoints : gmap gostring gostring := list_to_map
  [(go "ovh-eu", go "https://eu.api.ovh.com/1.0"); (go "ovh-ca", go "https://ca.api.ovh.com/1.0"); (go "ovh-us", go "https://api.us.ovhcloud.com/1.0")].

(** src/internal/dns01/ovh.go:81-84, ErrOVHAPI *)
Definition ErrOVHAPI : goerror := errors_new "dns01: ovh api".
(** src/internal/dns01/ovh.go:532-534, errOVHNotFound *)
Definition errOVHNotFound : goerror := errors_new "resource not found (ovh)".

(** The difference to the server's clock is kept under the provider's lock.

    src/internal/dns01/ovh.go:86-176, ovhProvider *)
Record ovhProvider := MkOVH { ov_applicationKey : Redacted; ov_applicationSecret : Redacted; ov_consumerKey : Redacted; ov_baseURL : gostring }.

(** src/internal/dns01/ovh.go:746-752, ovhRecord *)
Record ovhRecord := MkOVHRecord { ovr_ID : Z; ovr_FieldType : gostring; ovr_SubDomain : gostring; ovr_Target : gostring }.
Definition into_ovhRecord : store ovhRecord := into_struct false
  [("id"%string, λ v a, x ← into_int64 v (ovr_ID a); Some (MkOVHRecord x (ovr_FieldType a) (ovr_SubDomain a) (ovr_Target a)));
   ("fieldType"%string, λ v a, x ← into_string v (ovr_FieldType a); Some (MkOVHRecord (ovr_ID a) x (ovr_SubDomain a) (ovr_Target a)));
   ("subDomain"%string, λ v a, x ← into_string v (ovr_SubDomain a); Some (MkOVHRecord (ovr_ID a) (ovr_FieldType a) x (ovr_Target a)));
   ("target"%string, λ v a, x ← into_string v (ovr_Target a); Some (MkOVHRecord (ovr_ID a) (ovr_FieldType a) (ovr_SubDomain a) x))].
(** src/internal/dns01/ovh.go:754-757, ovhZone *)
Definition into_ovhZone : store gostring := into_struct false [("name"%string, into_string)].
(** src/internal/dns01/ovh.go:738-744, ovhRecordCreate *)
Definition ovhRecordCreate (subDomain target : gostring) (ttl : Z) : jvalue :=
  VObj [(go "fieldType", str (go "TXT")); (go "subDomain", str subDomain); (go "target", str target); (go "ttl", int ttl)].

(** src/internal/dns01/ovh.go:714-732, ovhError *)
Definition ovhError (raw : bytes) : goerror := message_error raw.

(** src/internal/dns01/ovh.go:617-644, ovhProvider.sign *)
Definition ovh_sign (p : ovhProvider) (consumerKey method fullURL body timestamp : gostring) : gostring :=
  ovhSignaturePrefix ++ hex_encode (sha1 (join PLUS [trim_space (ov_applicationSecret p); consumerKey; method; fullURL; body; timestamp])).

(** Redirects are refused.

    src/internal/dns01/ovh.go:212-222, NewOVH *)
Definition ovhClient : http_client := MkClient UseLastResponse.
#[export] Instance ovh_refuses : Refuses ovhClient := eq_refl.

(** src/internal/dns01/ovh.go:685-712, ovhProvider.serverTime *)
Definition ovh_serverTime (p : ovhProvider) : client (result Z) :=
  let! r := on_err (λ e, errorf "fetch server time" [ErrOVHAPI; e]) (send ovhClient GET (ov_baseURL p ++ go "/auth/time") [] None ovhMaxBody) in
  Ret (let '(status, raw) := r in
       if (status <? 200) || (300 <=? status) then Err (ovhError raw) else
       match Atoi (trim_space raw) with Some secs => Ok secs | None => Err (errorf "unparseable server time" [ErrOVHAPI]) end).

(** src/internal/dns01/ovh.go:677-683, ovhProvider.cachedDelta *)
Definition ovh_cachedDelta : client (option Z) := ask (Locked (λ c, c)).

(** src/internal/dns01/ovh.go:646-675, ovhProvider.timestamp *)
Definition ovh_timestamp (p : ovhProvider) : client (result Z) :=
  try! cached := ovh_cachedDelta in
  match cached with
  | Some delta => try! now := ask Clock in Ret (Ok (wrap64 (time_unix now + delta)))
  | None =>
      let! server := ovh_serverTime p in
      try! now := ask Clock in
      let delta := wrap64 (server - time_unix now) in
      try! kept := ask (Locked (λ c, match c with None => Some delta | Some _ => c end)) in
      try! now := ask Clock in
      Ret (Ok (wrap64 (time_unix now + default 0 kept)))
  end.

(** src/internal/dns01/ovh.go:536-615, ovhProvider.do *)
Definition ovh_do {A} (p : ovhProvider) (method path : gostring) (body : option bytes) (decode : bytes → option A) : client (result A) :=
  let fullURL := ov_baseURL p ++ path in
  if negb (url_ok fullURL) then Ret (Err (errorf "build request" [errURL])) else
  let! timestamp := ovh_timestamp p in
  let consumerKey := trim_space (ov_consumerKey p) in
  let header := (match body with Some _ => [(go "Content-Type", go "application/json")] | None => [] end) ++
    [(go "Accept", go "application/json"); (go "X-Ovh-Application", trim_space (ov_applicationKey p)); (go "X-Ovh-Consumer", consumerKey);
     (go "X-Ovh-Timestamp", FormatInt timestamp); (go "X-Ovh-Signature", ovh_sign p consumerKey method fullURL (default [] body) (FormatInt timestamp))] in
  let! r := send ovhClient method fullURL header body ovhMaxBody in
  Ret (accept errOVHNotFound ovhError decode r).

(** src/internal/dns01/ovh.go:505-510, ovhProvider.zonePath *)
Definition ovh_zonePath (zone : gostring) : gostring := go "/domain/zone/" ++ PathEscape zone.
(** src/internal/dns01/ovh.go:442-447, ovhProvider.refresh *)
Definition ovh_refresh (p : ovhProvider) (zone : gostring) : client (result unit) := ovh_do p POST (ovh_zonePath zone ++ go "/refresh") None no_out.

(** src/internal/dns01/ovh.go:449-503, ovhProvider.zoneFor *)
Definition ovh_zoneFor (p : ovhProvider) (recordName : gostring) : client (result gostring) :=
  walk_zones recordName (λ name,
    if negb (validDomainName name) then Ret (Some (Err (errorf "malformed zone candidate" [ErrOVHAPI]))) else
    try! r := ovh_do p GET (ovh_zonePath name) None (λ raw, Unmarshal into_ovhZone raw []) in
    Ret (match r with
         | Err e => if errors_is e errOVHNotFound then None else Some (Err (errorf "look up zone" [ErrOVHAPI; e]))
         | Ok answered => Some (if negb (bool_decide (answered = [])) && negb (EqualFold (trim_suffix [DOT] answered) name)
                                then Err (errorf "zone lookup answered for a different zone" [ErrOVHAPI]) else Ok name)
         end))
  (errorf "no zone found" [ErrOVHAPI]).

(** src/internal/dns01/ovh.go:512-530, ovhRecordName *)
Definition ovhRecordName (fqdn zone : gostring) : result gostring := apex_as_empty ErrOVHAPI fqdn zone.
(** src/internal/dns01/ovh.go:423-440, ovhTXTContent *)
Definition ovhTXTContent (target : gostring) : gostring := strip_quotes target.

Definition ovh_match (subDomain value : gostring) (r : ovhRecord) : bool :=
  EqualFold (ovr_FieldType r) (go "TXT") && EqualFold (trim_suffix [DOT] (ovr_SubDomain r)) subDomain && bool_decide (ovhTXTContent (ovr_Target r) = value).

(** The records by their numbers, one after the other. *)
Fixpoint ovh_find (p : ovhProvider) (zone subDomain value : gostring) (ids : list Z) : client (result (option Z)) :=
  match ids with
  | [] => Ret (Ok None)
  | id :: ids =>
      try! r := ovh_do p GET (ovh_zonePath zone ++ go "/record/" ++ FormatInt id) None (λ raw, Unmarshal into_ovhRecord raw (MkOVHRecord 0 [] [] [])) in
      match r with
      | Err e => if errors_is e errOVHNotFound then ovh_find p zone subDomain value ids else Ret (Err (errorf "read txt record" [e]))
      | Ok r => if ovh_match subDomain value r then Ret (Ok (Some (if ovr_ID r <=? 0 then id else ovr_ID r))) else ovh_find p zone subDomain value ids
      end
  end.
(** src/internal/dns01/ovh.go:377-421, ovhProvider.findRecord *)
Definition ovh_findRecord (p : ovhProvider) (zone subDomain value : gostring) : client (result (option Z)) :=
  let query := go "?fieldType=TXT&subDomain=" ++ QueryEscape subDomain in
  try! ids := ovh_do p GET (ovh_zonePath zone ++ go "/record" ++ query) None (λ raw, Unmarshal (into_list 0 into_int64) raw []) in
  match ids with
  | Err e => Ret (if errors_is e errOVHNotFound then Ok None else Err (errorf "list txt records" [e]))
  | Ok ids => ovh_find p zone subDomain value ids
  end.

(** src/internal/dns01/ovh.go:341-375, ovhProvider.removeValue *)
Definition ovh_removeValue (p : ovhProvider) (zone subDomain value : gostring) : CleanupFunc :=
  let! found := on_err (λ e, errorf "find txt record for cleanup" [ErrOVHAPI; e]) (ovh_findRecord p zone subDomain value) in
  match found with
  | None => Ret (Ok tt)
  | Some id =>
      try! r := ovh_do p DELETE (ovh_zonePath zone ++ go "/record/" ++ FormatInt id) None no_out in
      let refresh := on_err (λ e, errorf "refresh zone after cleanup" [ErrOVHAPI; e]) (ovh_refresh p zone) in
      match r with
      | Err e => if negb (errors_is e errOVHNotFound) then Ret (Err (errorf "delete txt record" [ErrOVHAPI; e])) else refresh
      | Ok _ => refresh
      end
  end.

(** src/internal/dns01/ovh.go:288-339, ovhProvider.Present *)
Definition ovh_Present (p : ovhProvider) (rec : DNSRecord) : client (option CleanupFunc * option goerror) :=
  need! zone := ovh_zoneFor p (rec_Name rec) in
  need! subDomain := Ret (ovhRecordName (rec_Name rec) zone) in
  let body := print (ovhRecordCreate subDomain (rec_Value rec) ovhChallengeTTL) in
  published (ovh_removeValue p zone subDomain (rec_Value rec))
    (let! created := on_err (λ e, errorf "create txt record" [ErrOVHAPI; e]) (ovh_do p POST (ovh_zonePath zone ++ go "/record") (Some body) no_out) in
     on_err (λ e, errorf "refresh zone" [ErrOVHAPI; e]) (ovh_refresh p zone)).

(** src/internal/dns01/ovh.go:234-252, ovhRequiredField *)
Definition ovhRequiredField (creds : Credentials) (field : string) : result Redacted :=
  match Get creds field with
  | None => Err (errorf "missing field" [ErrOVHAPI])
  | Some v => if IsBlank v then Err (errorf "blank field (empty or whitespace only)" [ErrOVHAPI]) else Ok v
  end.
(** src/internal/dns01/ovh.go:254-271, ovhBaseURL *)
Definition ovhBaseURL (creds : Credentials) : result gostring :=
  let name := match Get creds "endpoint" with Some v => if IsBlank v then ovhDefaultEndpoint else trim_space v | None => ovhDefaultEndpoint end in
  match ovhEndpoints !! name with Some base => Ok base | None => Err (errorf "unknown endpoint" [ErrOVHAPI]) end.
(** src/internal/dns01/ovh.go:180-232, NewOVH *)
Definition NewOVH (creds : Credentials) : result DNSProvider :=
  appKey ← ovhRequiredField creds "application_key";
  appSecret ← ovhRequiredField creds "application_secret";
  consumerKey ← ovhRequiredField creds "consumer_key";
  baseURL ← ovhBaseURL creds;
  Ok (MkDNSProvider (go "ovh") (ovh_Present (MkOVH appKey appSecret consumerKey baseURL))).

(** ** What is asked of the remote APIs *)

(** An API with a collection of records per zone: how the collection and a record's name are
    written, and what tells the challenge's own record in a listing. *)
Record record_api := MkRecordApi {
  ra_base : gostring;
  ra_records : gostring → gostring → Prop;
  ra_relative : gostring → gostring → result gostring;
  ra_create : gostring → gostring → jvalue;
  ra_record : Type;
  ra_decode : bytes → option (list ra_record);
  ra_match : gostring → gostring → ra_record → bool;
  ra_unusable : ra_record → bool;
  ra_id : ra_record → gostring;
}.

(** The requests of a challenge: questions; the record created in a zone above its name; and
    deletions, each of a record that the answer just before showed to be the challenge's own
    TXT record with the challenge's own value. *)
Definition record_request (a : record_api) (rec : DNSRecord) (h : list (event api)) (q : http_req) : Prop :=
  under (ra_base a) q ∧
  (q_Method q = GET ∨
   ∃ zone relative records, walked (rec_Name rec) zone ∧ ra_relative a (rec_Name rec) zone = Ok relative ∧ ra_records a zone records ∧
     (q_Method q = POST ∧ q_URL q = ra_base a ++ records ∧ q_Body q = Some (print (ra_create a relative (rec_Value rec))) ∨
      q_Method q = DELETE ∧ ∃ r rs raw resp listing limit h',
        h = MkEvent _ (Send listing) (Some resp) :: h' ∧ read_limited limit resp = Ok raw ∧ ra_decode a raw = Some rs ∧
        r ∈ rs ∧ ra_match a relative (rec_Value rec) r = true ∧ ra_unusable a r = false ∧ q_URL q = ra_base a ++ records ++ go "/" ++ ra_id a r)).

Definition digitalOcean_api : record_api :=
  MkRecordApi digitalOceanAPIBase (λ domain path, path = go "/domains/" ++ PathEscape domain ++ go "/records") relativeRecordName
    (λ relative value, VObj [(go "data", str value); (go "name", str relative); (go "ttl", int digitalOceanChallengeTTL); (go "type", str (go "TXT"))])
    digitalOceanRecord (λ raw, Unmarshal into_digitalOceanRecords raw []) digitalOcean_match (λ r, dor_ID r <=? 0) (λ r, FormatInt (dor_ID r)).
Definition dnsimple_api : record_api :=
  MkRecordApi dnsimpleAPIBase (λ zone path, ∃ account, path = dnsimpleZonePath account zone ++ go "/records") dnsimpleRecordName
    (λ relative value, VObj [(go "content", str value); (go "name", str relative); (go "ttl", int dnsimpleChallengeTTL); (go "type", str (go "TXT"))])
    dnsimpleRecord (λ raw, Unmarshal into_dnsimpleRecords raw []) dnsimple_match (λ r, dsr_ID r <=? 0) (λ r, FormatInt (dsr_ID r)).
Definition arvanCloud_api : record_api :=
  MkRecordApi arvanCloudAPIBase (λ domain path, path = arvanCloud_recordsPath domain) relativeRecordName
    (λ relative value, VObj [(go "name", str relative); (go "ttl", int arvanCloudChallengeTTL); (go "type", str (go "txt")); (go "value", VObj [(go "text", str value)])])
    arvanRecord (λ raw, Unmarshal into_arvanRecords raw []) arvanCloud_match (λ r, bool_decide (arr_ID r = [])) (λ r, PathEscape (arr_ID r)).

Lemma find_elem {A} (f : A → bool) l x : List.find f l = Some x → x ∈ l ∧ f x = true.
Proof. intros H. apply List.find_some in H as [H1 H2]. split; [by apply list_elem_of_In|done]. Qed.

(** A listing, the record chosen from it, and its deletion. *)
Lemma remove_spec {R I} P h c `{!Refuses c} (listing : http_req) limit notFound reject (decode : bytes → option (list R)) (chosen unusable : R → bool) (ident : R → I)
    (w list_err : goerror → goerror) id_err (remove : I → client (result unit)) :
  P h listing →
  (∀ resp raw rs r, read_limited limit resp = Ok raw → decode raw = Some rs → r ∈ rs → chosen r = true → unusable r = false →
     spec (sends P) (λ _ _, True) (MkEvent _ (Send listing) (Some resp) :: h) (remove (ident r))) →
  spec (sends P) (λ _ _, True) h
    (bind_ok (on_err w (bind (bind_ok (send c (q_Method listing) (q_URL listing) (q_Header listing) (q_Body listing) limit) (λ r, Ret (accept notFound reject decode r))) (λ out,
       Ret (match out with
            | Err e => if errors_is e notFound then Ok None else Err (list_err e)
            | Ok rs => match List.find chosen rs with
                       | None => Ok None
                       | Some r => if unusable r then Err id_err else Ok (Some (ident r))
                       end
            end))))
       (λ found, match found with None => Ret (Ok tt) | Some id => remove id end)).
Proof.
  intros Hp Hrm. eapply spec_bind_ok with (R := λ h' found, ∀ id, found = Some id → spec (sends P) (λ _ _, True) h' (remove id)).
  - apply spec_on_err.
    eapply spec_bind with (R := λ h' out, match out with Ok rs => ∃ raw resp, h' = MkEvent _ (Send listing) (Some resp) :: h ∧
      read_limited limit resp = Ok raw ∧ decode raw = Some rs | Err _ => True end).
    { destruct listing. apply call_spec; [apply _|done|done|]. intros resp raw rs _ Hraw Hrs. by exists raw, resp. }
    intros h2 [rs|e] Hrs; cbn [spec]; [|by destruct (errors_is _ _)]. destruct (List.find _ _) as [r|] eqn:Ef; [|done].
    destruct (unusable r) eqn:Eu; [done|]. intros id [= <-]. apply find_elem in Ef as [Hin Hm].
    destruct Hrs as (raw & resp & -> & Hraw & Hrs). by eapply Hrm.
  - intros h2 [id|] Hfound; [by apply Hfound|done].
Qed.

(** Deleting is one request, and nothing depends on its answer. *)
Lemma delete_spec P h c `{!Refuses c} method url header body limit notFound reject (f : result unit → result unit) :
  P h (MkReq method url header body) →
  spec (sends P) (λ _ _, True) h (bind (bind_ok (send c method url header body limit) (λ r, Ret (accept notFound reject no_out r))) (λ r, Ret (f r))).
Proof. intros Hp. eapply spec_bind; [by apply call_spec with (Q := λ _ _, True)|done]. Qed.

(** A zone's candidates are only asked about. *)
Lemma lookup_spec {A} P recordName h c `{!Refuses c} name header limit notFound reject (decode : bytes → option A) url (answer : result A → option (result gostring)) :
  walked recordName name → P h (MkReq GET url header None) → (∀ r d, answer r = Some (Ok d) → d = name) →
  spec (sends P) (λ _ r, match r with Some (Ok d) => walked recordName d | _ => True end) h
    (bind (bind_ok (send c GET url header None limit) (λ r, Ret (accept notFound reject decode r))) (λ r, Ret (answer r))).
Proof.
  intros Hw Hp Ha. eapply spec_bind; [by apply call_spec with (Q := λ _ _, True)|]. intros h' r _. cbn [spec].
  destruct (answer r) as [[d|e]|] eqn:E; [|done|done]. by apply Ha in E as ->.
Qed.

(** What [Present] does once it has a zone: it creates the record and leaves the cleanup. *)
Lemma publish_spec P h cleanup m :
  spec (sends P) (λ _ _, True) h m → (∀ h', spec (sends P) (λ _ _, True) h' cleanup) →
  spec (sends P) (λ _ r, ∀ c, r.1 = Some c → ∀ h', spec (sends P) (λ _ _, True) h' c) h (published cleanup m).
Proof. intros Hm Hc. eapply spec_bind; [exact Hm|]. intros h2 r _. cbn [spec fst]. by intros c [= <-]. Qed.
(** *** DigitalOcean *)

Lemma digitalOcean_domainFor_spec p rec h :
  spec (sends (record_request digitalOcean_api rec)) (λ _ r, match r with Ok d => walked (rec_Name rec) d | Err _ => True end) h (digitalOcean_domainFor p (rec_Name rec)).
Proof.
  apply walk_zones_spec; [|done]. intros h' zone Hz. destruct (validDomainName zone); cbn [negb]; [|done]. apply lookup_spec with (name := zone); [apply _|done| |].
  - split; [at_base|by left].
  - intros [a|e] d; [by destruct (EqualFold _ _); intros [= <-]|by destruct (errors_is _ _)].
Qed.

Lemma digitalOcean_removeValue_spec p rec domain relative h :
  walked (rec_Name rec) domain → relativeRecordName (rec_Name rec) domain = Ok relative →
  spec (sends (record_request digitalOcean_api rec)) (λ _ _, True) h (digitalOcean_removeValue p domain relative (rec_Name rec) (rec_Value rec)).
Proof.
  intros Hw Hrel. apply (remove_spec _ _ _ (MkReq GET _ _ None) _ _ _ _ _ (λ r, dor_ID r <=? 0)); [split; [at_base|by left]|].
  intros resp raw rs r Hraw Hrs Hin Hm Hid. apply delete_spec; [apply _|]. split; [at_base|]. right. eexists domain, relative, _. do 3 (split; [done|]). right. split; [done|].
  eexists r, rs, raw, resp, _, _, _. do 6 (split; [done|]). cbn [q_URL ra_base ra_id digitalOcean_api]. by rewrite <- !app_assoc.
Qed.

Lemma digitalOcean_Present_spec p rec h :
  spec (sends (record_request digitalOcean_api rec))
    (λ _ r, ∀ cleanup, r.1 = Some cleanup → ∀ h', spec (sends (record_request digitalOcean_api rec)) (λ _ _, True) h' cleanup) h (digitalOcean_Present p rec).
Proof.
  eapply need_spec; [eapply spec_mono; [done| |apply digitalOcean_domainFor_spec]|].
  { intros h' [d|e] Hd; [exact Hd|done]. }
  intros h1 domain Hd. destruct (relativeRecordName (rec_Name rec) domain) as [relative|e] eqn:Hrel; cbn [need bind spec]; [|done].
  apply publish_spec; [|by intros h'; apply digitalOcean_removeValue_spec]. apply spec_on_err, call_spec; [apply _| |done|done].
  split; [at_base|]. right. eexists domain, relative, _. do 3 (split; [done|]). by left.
Qed.
(** *** DNSimple *)

Lemma dnsimple_account_spec p rec h : spec (sends (record_request dnsimple_api rec)) (λ _ _, True) h (dnsimple_account p).
Proof.
  cbn [dnsimple_account dnsimple_cachedAccount ask bind spec]. split; [done|]. intros id. destruct (0 <? _); [done|].
  eapply spec_bind_ok with (R := λ _ _, True).
  - apply spec_on_err, call_spec; [apply _|split; [at_base|by left]|done|done].
  - intros h' [a|] _; [|done]. destruct (a <=? 0); [done|]. by cbn [ask bind spec].
Qed.

Lemma dnsimple_zoneFor_spec p account rec h :
  spec (sends (record_request dnsimple_api rec)) (λ _ r, match r with Ok d => walked (rec_Name rec) d | Err _ => True end) h (dnsimple_zoneFor p account (rec_Name rec)).
Proof.
  apply walk_zones_spec; [|done]. intros h' zone Hz. destruct (validDomainName zone); cbn [negb]; [|done]. apply lookup_spec with (name := zone); [apply _|done| |].
  - split; [at_base|by left].
  - intros [a|e] d; [by destruct (EqualFold _ _); intros [= <-]|by destruct (errors_is _ _)].
Qed.

Lemma dnsimple_removeValue_spec p account rec domain relative h :
  walked (rec_Name rec) domain → dnsimpleRecordName (rec_Name rec) domain = Ok relative →
  spec (sends (record_request dnsimple_api rec)) (λ _ _, True) h (dnsimple_removeValue p account domain relative (rec_Value rec)).
Proof.
  intros Hw Hrel. apply (remove_spec _ _ _ (MkReq GET _ _ None) _ _ _ _ _ (λ r, dsr_ID r <=? 0)); [split; [at_base|by left]|].
  intros resp raw rs r Hraw Hrs Hin Hm Hid. apply delete_spec; [apply _|]. split; [at_base|]. right. eexists domain, relative, _. do 2 (split; [done|]). split; [by eexists account|]. right. split; [done|].
  eexists r, rs, raw, resp, _, _, _. do 6 (split; [done|]). cbn [q_URL ra_base ra_id dnsimple_api]. by rewrite <- !app_assoc.
Qed.

Lemma dnsimple_Present_spec p rec h :
  spec (sends (record_request dnsimple_api rec))
    (λ _ r, ∀ cleanup, r.1 = Some cleanup → ∀ h', spec (sends (record_request dnsimple_api rec)) (λ _ _, True) h' cleanup) h (dnsimple_Present p rec).
Proof.
  eapply need_spec with (R := λ _ _, True); [eapply spec_mono; [done| |apply dnsimple_account_spec]|].
  { by intros h' [d|e] _. }
  intros h0 account _. eapply need_spec; [eapply spec_mono; [done| |apply dnsimple_zoneFor_spec]|].
  { intros h' [d|e] Hd; [exact Hd|done]. }
  intros h1 domain Hd. destruct (dnsimpleRecordName (rec_Name rec) domain) as [relative|e] eqn:Hrel; cbn [need bind spec]; [|done].
  apply publish_spec; [|by intros h'; apply dnsimple_removeValue_spec]. apply spec_on_err, call_spec; [apply _| |done|done].
  split; [at_base|]. right. eexists domain, relative, _. do 2 (split; [done|]). split; [by eexists account|]. by left.
Qed.
(** *** ArvanCloud *)

Lemma arvanCloud_domainFor_spec p rec h :
  spec (sends (record_request arvanCloud_api rec)) (λ _ r, match r with Ok d => walked (rec_Name rec) d | Err _ => True end) h (arvanCloud_domainFor p (rec_Name rec)).
Proof.
  apply walk_zones_spec; [|done]. intros h' zone Hz. destruct (validDomainName zone); cbn [negb]; [|done]. apply lookup_spec with (name := zone); [apply _|done| |].
  - split; [at_base|by left].
  - intros [a|e] d; [by intros [= <-]|by destruct (errors_is _ _)].
Qed.

Lemma arvanCloud_removeValue_spec p rec domain relative h :
  walked (rec_Name rec) domain → relativeRecordName (rec_Name rec) domain = Ok relative →
  spec (sends (record_request arvanCloud_api rec)) (λ _ _, True) h (arvanCloud_removeValue p domain relative (rec_Value rec)).
Proof.
  intros Hw Hrel. apply (remove_spec _ _ _ (MkReq GET _ _ None) _ _ _ _ _ (λ r, bool_decide (arr_ID r = []))); [split; [at_base|by left]|].
  intros resp raw rs r Hraw Hrs Hin Hm Hid. apply delete_spec; [apply _|]. split; [at_base|]. right. eexists domain, relative, _. do 3 (split; [done|]). right. split; [done|].
  eexists r, rs, raw, resp, _, _, _. do 6 (split; [done|]). cbn [q_URL ra_base ra_id arvanCloud_api]. done.
Qed.

Lemma arvanCloud_Present_spec p rec h :
  spec (sends (record_request arvanCloud_api rec))
    (λ _ r, ∀ cleanup, r.1 = Some cleanup → ∀ h', spec (sends (record_request arvanCloud_api rec)) (λ _ _, True) h' cleanup) h (arvanCloud_Present p rec).
Proof.
  eapply need_spec; [eapply spec_mono; [done| |apply arvanCloud_domainFor_spec]|].
  { intros h' [d|e] Hd; [exact Hd|done]. }
  intros h1 domain Hd. destruct (relativeRecordName (rec_Name rec) domain) as [relative|e] eqn:Hrel; cbn [need bind spec]; [|done].
  apply publish_spec; [|by intros h'; apply arvanCloud_removeValue_spec]. apply spec_on_err, call_spec; [apply _| |done|done].
  split; [at_base|]. right. eexists domain, relative, _. do 3 (split; [done|]). by left.
Qed.
(** *** OVH *)

(** As above; a record is read by its number before it is deleted, and changes are followed
    by a refresh of the zone. *)
Definition ovh_request (base : gostring) (rec : DNSRecord) (h : list (event api)) (q : http_req) : Prop :=
  under base q ∧
  (q_Method q = GET ∨
   ∃ zone sub, walked (rec_Name rec) zone ∧ ovhRecordName (rec_Name rec) zone = Ok sub ∧
     let path := base ++ ovh_zonePath zone in
     (q_Method q = POST ∧ q_URL q = path ++ go "/record" ∧ q_Body q = Some (print (ovhRecordCreate sub (rec_Value rec) ovhChallengeTTL)) ∨
      q_Method q = POST ∧ q_URL q = path ++ go "/refresh" ∧ q_Body q = None ∨
      q_Method q = DELETE ∧ ∃ id r raw resp asked,
        MkEvent _ (Send asked) (Some resp) ∈ h ∧ q_URL asked = path ++ go "/record/" ++ FormatInt id ∧
        read_limited ovhMaxBody resp = Ok raw ∧ Unmarshal into_ovhRecord raw (MkOVHRecord 0 [] [] []) = Some r ∧ ovh_match sub (rec_Value rec) r = true ∧
        q_URL q = path ++ go "/record/" ++ FormatInt (if ovr_ID r <=? 0 then id else ovr_ID r))).

Section ovh.
Context (p : ovhProvider) (rec : DNSRecord).
Local Abbreviation P := (ovh_request (ov_baseURL p) rec).

(** What was asked before is remembered: [D] is kept by longer conversations. *)
Lemma ovh_timestamp_spec (D : list (event api) → Prop) h : (∀ e h, D h → D (e :: h)) → D h → spec (sends P) (λ h _, D h) h (ovh_timestamp p).
Proof.
  intros Hup Hd. cbn [ovh_timestamp ovh_cachedDelta ask bind spec]. split; [done|]. intros [delta|].
  { cbn [ask bind spec]. split; [done|]. intros now. by do 2 apply Hup. }
  eapply spec_bind_ok with (R := λ h _, D h).
  - eapply spec_bind_ok with (R := λ h _, D h).
    + apply spec_on_err, send_spec; [apply _|split; [at_base|by left]| |].
      * intros h' e [->|[r ->]]; [by apply Hup|by do 2 apply Hup].
      * intros resp raw _. by do 2 apply Hup.
    + intros h' [status raw] Hd'. cbn [spec]. destruct (_ || _); [done|]. by destruct (Atoi _).
  - intros h' server Hd'. cbn [ask bind spec]. split; [done|]. intros now. split; [done|]. intros kept. split; [done|]. intros now2. by do 3 apply Hup.
Qed.

Lemma ovh_do_spec {A} (D : list (event api) → Prop) h method path body (decode : bytes → option A) :
  (∀ e h, D h → D (e :: h)) → D h → (∀ h header, D h → P h (MkReq method (ov_baseURL p ++ path) header body)) →
  spec (sends P) (λ h r, D h ∧ match r with
      | Ok a => ∃ header resp raw, MkEvent _ (Send (MkReq method (ov_baseURL p ++ path) header body)) (Some resp) ∈ h ∧ read_limited ovhMaxBody resp = Ok raw ∧ decode raw = Some a
      | Err _ => True end) h (ovh_do p method path body decode).
Proof.
  intros Hup Hd Hp. unfold ovh_do. destruct (url_ok _); cbn [negb]; [|done].
  eapply spec_bind_ok with (R := λ h _, D h); [eapply spec_mono; [done| |by apply ovh_timestamp_spec]|].
  { by intros h' [?|?] ?. }
  intros h' ts Hd'. apply call_spec; [apply _|by apply Hp| |].
  - by intros h'' e [->|[r ->]]; [|split; [apply Hup|]].
  - intros resp raw a _ Hraw Ha. split; [by apply Hup|]. eexists _, resp, raw. split; [left|done].
Qed.

Lemma ovh_quiet_spec {A} h path body method (decode : bytes → option A) :
  (∀ h header, P h (MkReq method (ov_baseURL p ++ path) header body)) → spec (sends P) (λ _ _, True) h (ovh_do p method path body decode).
Proof. intros Hp. eapply spec_mono; [done| |apply ovh_do_spec with (D := λ _, True)]; [done|done|done|]. intros; by apply Hp. Qed.

Lemma ovh_zoneFor_spec h : spec (sends P) (λ _ r, match r with Ok d => walked (rec_Name rec) d | Err _ => True end) h (ovh_zoneFor p (rec_Name rec)).
Proof.
  apply walk_zones_spec; [|done]. intros h' zone Hz. destruct (validDomainName zone); cbn [negb]; [|done].
  eapply spec_bind; [apply ovh_quiet_spec; split; [at_base|by left]|]. intros h2 [a|e] _; cbn [spec]; [by destruct (_ && _)|by destruct (errors_is _ _)].
Qed.

(** The record found was read, and it is the challenge's own. *)
Definition ovh_found (zone sub : gostring) (found : Z) (h : list (event api)) : Prop := ∃ id r raw resp asked,
  MkEvent _ (Send asked) (Some resp) ∈ h ∧ q_URL asked = (ov_baseURL p ++ ovh_zonePath zone) ++ go "/record/" ++ FormatInt id ∧
  read_limited ovhMaxBody resp = Ok raw ∧ Unmarshal into_ovhRecord raw (MkOVHRecord 0 [] [] []) = Some r ∧ ovh_match sub (rec_Value rec) r = true ∧
  found = (if ovr_ID r <=? 0 then id else ovr_ID r).

Lemma ovh_find_spec zone sub ids h :
  spec (sends P) (λ h r, match r with Ok (Some found) => ovh_found zone sub found h | _ => True end) h (ovh_find p zone sub (rec_Value rec) ids).
Proof.
  revert h. induction ids as [|id ids IH]; intros h; cbn [ovh_find]; [done|].
  eapply spec_bind; [apply ovh_do_spec with (D := λ _, True); [done|done|]; intros; split; [at_base|by left]|].
  intros h' [r|e] [_ Hr]; cbv beta iota; [|by destruct (errors_is _ _); [apply IH|]].
  destruct (ovh_match sub (rec_Value rec) r) eqn:Em; [|apply IH]. cbn [spec]. destruct Hr as (header & resp & raw & Hin & Hraw & Hu).
  eexists id, r, raw, resp, _. split; [exact Hin|]. split; [cbn [q_URL]; by rewrite <- app_assoc|done].
Qed.

Lemma ovh_removeValue_spec zone sub h : walked (rec_Name rec) zone → ovhRecordName (rec_Name rec) zone = Ok sub →
  spec (sends P) (λ _ _, True) h (ovh_removeValue p zone sub (rec_Value rec)).
Proof.
  intros Hw Hsub.
  eapply spec_bind_ok with (R := λ h found, ∀ id, found = Some id → ovh_found zone sub id h).
  - apply spec_on_err. eapply spec_bind; [apply ovh_quiet_spec; split; [at_base|by left]|].
    intros h' [ids|e] _; [|by cbn [spec]; destruct (errors_is _ _)].
    eapply spec_mono; [done| |apply ovh_find_spec]. intros h2 [[id|]|e] Hf; [|done|done]. by intros ? [= <-].
  - intros h' [id|] Hf; [|done]. specialize (Hf id eq_refl). assert (∀ h, spec (sends P) (λ _ _, True) h (ovh_refresh p zone)) as Hrefresh.
    { intros h2. apply ovh_quiet_spec. intros h3 header. split; [at_base|]. right. exists zone, sub. do 2 (split; [done|]). right; left. cbn [q_URL]. by rewrite <- app_assoc. }
    eapply spec_bind; [apply ovh_do_spec with (D := ovh_found zone sub id); [|done|]|].
    + intros e h2 (i & r & raw & resp & asked & Hin & Hrest). exists i, r, raw, resp, asked. split; [by right|done].
    + intros h2 header (i & r & raw & resp & asked & Hin & Hurl & Hraw & Hu & Hm & ->). split; [at_base|]. right. exists zone, sub. do 2 (split; [done|]).
      do 2 right. split; [done|]. exists i, r, raw, resp, asked. do 5 (split; [done|]). cbn [q_URL]. by rewrite <- app_assoc.
    + intros h2 [u|e] _; [|destruct (errors_is _ _)]; [by apply spec_on_err, Hrefresh..|done].
Qed.

Lemma ovh_Present_spec h : spec (sends P) (λ _ r, ∀ cleanup, r.1 = Some cleanup → ∀ h', spec (sends P) (λ _ _, True) h' cleanup) h (ovh_Present p rec).
Proof.
  eapply need_spec; [eapply spec_mono; [done| |apply ovh_zoneFor_spec]|].
  { intros h' [d|e] Hd; [exact Hd|done]. }
  intros h1 zone Hd. destruct (ovhRecordName (rec_Name rec) zone) as [sub|e] eqn:Hrel; cbn [need bind spec]; [|done].
  apply publish_spec; [|by intros h'; apply ovh_removeValue_spec].
  eapply spec_bind_ok with (R := λ _ _, True); [apply spec_on_err; eapply spec_mono; [done| |apply ovh_quiet_spec]; [by intros ? [?|?]|]|].
  - intros h2 header. split; [at_base|]. right. exists zone, sub. do 2 (split; [done|]). left. cbn [q_URL]. by rewrite <- app_assoc.
  - intros h2 u _. apply spec_on_err, ovh_quiet_spec. intros h3 header. split; [at_base|]. right. exists zone, sub. do 2 (split; [done|]). right; left. cbn [q_URL]. by rewrite <- app_assoc.
Qed.
End ovh.
End case.

(** *** Cloudflare *)

Definition cloudflare_create (rec : DNSRecord) : jvalue :=
  VObj [(go "comment", str (go "sshpilot-vallet ACME DNS-01 challenge")); (go "content", str (rec_Value rec));
        (go "name", str (rec_Name rec)); (go "ttl", int cloudflareChallengeTTL); (go "type", str (go "TXT"))].

(** The result that an accepted answer carries. *)
Definition cloudflare_answer (resp : http_resp) (v : jvalue) : Prop := ∃ raw env, read_limited cloudflareMaxBody resp = Ok raw ∧
  Unmarshal into_cloudflareEnvelope raw (MkCloudflareEnvelope false [] None) = Some env ∧ env_Success env = true ∧ env_Result env = Some v.

(** The zone's number is that of the first active zone listed for a parent of the name. *)
Definition cloudflare_zone_listed (rec : DNSRecord) (zoneID : gostring) (h : list (event api)) : Prop := ∃ zone asked resp v ids,
  walked (rec_Name rec) zone ∧ MkEvent _ (Send asked) (Some resp) ∈ h ∧
  q_URL asked = cloudflareAPIBase ++ go "/zones?" ++ Encode [(go "name", zone); (go "status", go "active")] ∧
  cloudflare_answer resp v ∧ into_list [] into_id v [] = Some (zoneID :: ids).

(** Questions, and the record created in such a zone. *)
Definition cloudflare_request (rec : DNSRecord) (h : list (event api)) (q : http_req) : Prop :=
  under cloudflareAPIBase q ∧
  (q_Method q = GET ∨
   q_Method q = POST ∧ q_Body q = Some (print (cloudflare_create rec)) ∧
   ∃ zoneID, q_URL q = cloudflareAPIBase ++ go "/zones/" ++ zoneID ++ go "/dns_records" ∧ cloudflare_zone_listed rec zoneID h).

(** The record that the API said it created. *)
Definition cloudflare_created (zoneID id : gostring) (h : list (event api)) : Prop := ∃ asked resp v,
  MkEvent _ (Send asked) (Some resp) ∈ h ∧ q_Method asked = POST ∧ q_URL asked = cloudflareAPIBase ++ go "/zones/" ++ zoneID ++ go "/dns_records" ∧
  cloudflare_answer resp v ∧ into_id v [] = Some id ∧ id ≠ [].

Lemma cloudflare_do_spec {A} P (Q : list (event api) → result A → Prop) p h method path body (out : option jvalue → option A) :
  (∀ header, P h (MkReq method (cloudflareAPIBase ++ path) header body)) → (∀ h e, Q h (Err e)) →
  (∀ header resp raw env a, read_limited cloudflareMaxBody resp = Ok raw → Unmarshal into_cloudflareEnvelope raw (MkCloudflareEnvelope false [] None) = Some env →
     env_Success env = true → out (env_Result env) = Some a → Q (MkEvent _ (Send (MkReq method (cloudflareAPIBase ++ path) header body)) (Some resp) :: h) (Ok a)) →
  spec (sends P) Q h (cloudflare_do p method path body out).
Proof.
  intros Hp He Hok. eapply spec_bind_ok with (R := λ h' r, ∃ header resp, h' = MkEvent _ (Send (MkReq method (cloudflareAPIBase ++ path) header body)) (Some resp) :: h ∧
    read_limited cloudflareMaxBody resp = Ok r.2).
  - apply send_spec; [apply _|apply Hp|by intros; apply He|]. intros resp raw Hraw. by eexists _, resp.
  - intros h' [status raw] (header & resp & -> & Hraw). cbn [spec snd] in *. destruct (_ =? 404); [apply He|].
    destruct (Unmarshal _ _ _) as [env|] eqn:Eu; [|apply He]. destruct (env_Success env) eqn:Es; cbn [negb]; [|apply He].
    destruct (out _) as [a|] eqn:Ea; [|apply He]. by eapply Hok.
Qed.

Lemma cloudflare_zoneID_spec p rec h :
  spec (sends (cloudflare_request rec)) (λ h r, match r with Ok zoneID => cloudflare_zone_listed rec zoneID h | Err _ => True end) h (cloudflare_zoneID p (rec_Name rec)).
Proof.
  apply walk_zones_spec; [|done]. intros h' zone Hz.
  eapply spec_bind with (R := λ h r, match r with Ok (id :: _) => cloudflare_zone_listed rec id h | _ => True end).
  - apply cloudflare_do_spec; [intros header; split; [at_base|by left]|done|]. intros header resp raw env [|id ids] Hraw Hu Hs Ha; [done|].
    destruct (env_Result env) as [v|] eqn:Ev; [|done]. eexists zone, _, resp, v, ids. split; [done|]. split; [left|]. split; [done|]. split; [by exists raw, env|done].
  - intros h2 [[|id ids]|e] Hl; cbn [spec]; [done| |done]. by destruct (bool_decide _).
Qed.

(** The cleanup is the deletion of the record that was created, and nothing else. *)
Definition cloudflare_cleanup (zoneID id : gostring) (h : list (event api)) (q : http_req) : Prop :=
  q_Method q = DELETE ∧ q_URL q = cloudflareAPIBase ++ go "/zones/" ++ zoneID ++ go "/dns_records/" ++ id.

Lemma cloudflare_Present_spec p rec h :
  spec (sends (cloudflare_request rec)) (λ h r, ∀ cleanup, r.1 = Some cleanup → ∃ zoneID id, cloudflare_created zoneID id h ∧
    ∀ h', spec (sends (cloudflare_cleanup zoneID id)) (λ _ _, True) h' cleanup) h (cloudflare_Present p rec).
Proof.
  eapply need_spec; [eapply spec_mono; [done| |apply cloudflare_zoneID_spec]|].
  { intros h' [d|e] Hd; [exact Hd|done]. }
  intros h1 zoneID Hz.
  eapply need_spec with (R := λ h id, id ≠ [] → cloudflare_created zoneID id h).
  { apply spec_on_err, cloudflare_do_spec; [|done|].
    - intros header. split; [at_base|]. right. do 2 (split; [done|]). by exists zoneID.
    - intros header resp raw env id Hraw Hu Hs Ha Hid. destruct (env_Result env) as [v|] eqn:Ev; [|done].
      eexists _, resp, v. split; [left|]. do 2 (split; [done|]). split; [by exists raw, env|done]. }
  intros h2 created Hc. case_bool_decide as Hid; [done|]. cbn [spec fst]. intros cleanup [= <-]. exists zoneID, created. split; [by apply Hc|].
  intros h'. eapply spec_bind; [apply cloudflare_do_spec with (Q := λ _ _, True); [done|done|done]|done].
Qed.
