(* ===== verification/DnsSets.v ===== *)
(** * DNS providers that replace a whole record set

    [internal/dns01]: Gandi, GoDaddy, Azure and Google Cloud DNS.  A name's TXT values are
    one object at these APIs, so that adding or removing a value is reading the set and
    writing it back. *)

From S2P Require Import Prelude GoLib RateLimit NetIP GoNum GoJson Sha256 Secrets Program Dns01 DnsRecords.

Open Scope Z_scope.
Open Scope prog_scope.

Definition strs (l : list gostring) : jvalue := VArr (str <$> l).

Section sets.
Context {UC : UnicodeCase}.

(** ** Gandi *)

(** src/internal/dns01/gandi.go:20-50, gandiAPIBase *)
Definition gandiAPIBase : gostring := go "https://api.gandi.net/v5/livedns".
Definition gandiChallengeTTL : Z := 300.
Definition gandiMaxBody : Z := 2 ^ 20.

(** src/internal/dns01/gandi.go:52-54, ErrGandiAPI *)
Definition ErrGandiAPI : goerror := errors_new "dns01: gandi api".
(** src/internal/dns01/gandi.go:422-425, errGandiNotFound *)
Definition errGandiNotFound : goerror := errors_new "resource not found (gandi)".

(** src/internal/dns01/gandi.go:56-120, gandiProvider *)
Record gandiProvider := MkGandi { gd_token : Redacted }.

(** src/internal/dns01/gandi.go:506-511, gandiRRSet *)
Record gandiRRSet := MkGandiRRSet { grr_TTL : Z; grr_Values : list gostring }.
Definition into_gandiRRSet : store gandiRRSet := into_struct false
  [("rrset_ttl"%string, λ v a, x ← into_int64 v (grr_TTL a); Some (MkGandiRRSet x (grr_Values a)));
   ("rrset_values"%string, λ v a, x ← into_list [] into_string v (grr_Values a); Some (MkGandiRRSet (grr_TTL a) x))].
Definition gandiRRSet_json (r : gandiRRSet) : jvalue := VObj [(go "rrset_ttl", int (grr_TTL r)); (go "rrset_values", strs (grr_Values r))].
(** src/internal/dns01/gandi.go:513-515, gandiDomainResponse *)
Definition into_gandiDomain : store gostring := into_struct false [("fqdn"%string, into_string)].
(** src/internal/dns01/gandi.go:482-500, gandiError *)
Definition gandiError (raw : bytes) : goerror := message_error raw.

(** Redirects are refused.

    src/internal/dns01/gandi.go:143-153, NewGandi *)
Definition gandiClient : http_client := MkClient UseLastResponse.
#[export] Instance gandi_refuses : Refuses gandiClient := eq_refl.

(** src/internal/dns01/gandi.go:427-480, gandiProvider.do *)
Definition gandi_do {A} (p : gandiProvider) (method path : gostring) (body : option bytes) (decode : bytes → option A) : client (result A) :=
  let! r := send gandiClient method (gandiAPIBase ++ path) ((go "Authorization", go "Bearer " ++ trim_space (gd_token p)) :: json_headers) body gandiMaxBody in
  Ret (accept errGandiNotFound gandiError decode r).

(** src/internal/dns01/gandi.go:346-401, gandiProvider.domainFor *)
Definition gandi_domainFor (p : gandiProvider) (recordName : gostring) : client (result gostring) :=
  walk_zones recordName (λ name,
    if negb (validDomainName name) then Ret (Some (Err (errorf "malformed domain candidate" [ErrGandiAPI]))) else
    try! r := gandi_do p GET (go "/domains/" ++ PathEscape name) None (λ raw, Unmarshal into_gandiDomain raw []) in
    Ret (match r with
         | Err e => if errors_is e errGandiNotFound then None else Some (Err (errorf "look up domain" [ErrGandiAPI; e]))
         | Ok answered => Some (if negb (EqualFold (trim_suffix [DOT] answered) name) then Err (errorf "domain lookup answered for a different domain" [ErrGandiAPI])
                                else Ok name)
         end))
  (errorf "no domain found" [ErrGandiAPI]).

(** The relative name, under the provider's own error. *)
Definition relative_for (api : goerror) (fqdn domain : gostring) : result gostring :=
  match relativeRecordName fqdn domain with Ok relative => Ok relative | Err _ => Err (errorf "record is not inside domain" [api]) end.
(** src/internal/dns01/gandi.go:403-420, gandiRecordName *)
Definition gandiRecordName (fqdn domain : gostring) : result gostring := relative_for ErrGandiAPI fqdn domain.

(** src/internal/dns01/gandi.go:336-344, gandiTXTContent *)
Definition gandiTXTContent (v : gostring) : gostring := strip_quotes v.
(** src/internal/dns01/gandi.go:320-334, indexOfTXT *)
Definition indexOfTXT (values : list gostring) (value : gostring) : option nat := fst <$> list_find (λ v, gandiTXTContent v = value) values.
(** src/internal/dns01/gandi.go:312-318, gandiRRSetPath *)
Definition gandiRRSetPath (domain relative : gostring) : gostring := go "/domains/" ++ PathEscape domain ++ go "/records/" ++ PathEscape relative ++ go "/TXT".

(** src/internal/dns01/gandi.go:269-286, gandiProvider.currentTXT *)
Definition gandi_currentTXT (p : gandiProvider) (domain relative : gostring) : client (result (list gostring * Z)) :=
  try! out := gandi_do p GET (gandiRRSetPath domain relative) None (λ raw, Unmarshal into_gandiRRSet raw (MkGandiRRSet 0 [])) in
  Ret (match out with
       | Err e => if errors_is e errGandiNotFound then Ok ([], 0) else Err (errorf "read txt rrset" [ErrGandiAPI; e])
       | Ok r => Ok (grr_Values r, grr_TTL r)
       end).
(** src/internal/dns01/gandi.go:288-299, gandiProvider.putTXT *)
Definition gandi_putTXT (p : gandiProvider) (domain relative : gostring) (ttl : Z) (values : list gostring) : client (result unit) :=
  gandi_do p PUT (gandiRRSetPath domain relative) (Some (print (gandiRRSet_json (MkGandiRRSet ttl values)))) no_out.
(** src/internal/dns01/gandi.go:301-310, gandiProvider.deleteTXT *)
Definition gandi_deleteTXT (p : gandiProvider) (domain relative : gostring) : client (result unit) :=
  try! r := gandi_do p DELETE (gandiRRSetPath domain relative) None no_out in
  Ret (match r with Ok _ => Ok tt | Err e => if errors_is e errGandiNotFound then Ok tt else Err e end).

(** src/internal/dns01/gandi.go:227-267, gandiProvider.removeValue *)
Definition gandi_removeValue (p : gandiProvider) (domain relative value : gostring) : CleanupFunc :=
  let! current := on_err (λ e, errorf "read txt rrset for cleanup" [ErrGandiAPI; e]) (gandi_currentTXT p domain relative) in
  let '(existing, ttl) := current in
  match indexOfTXT existing value with
  | None => Ret (Ok tt)
  | Some idx =>
      let remaining := delete idx existing in
      if bool_decide (remaining = []) then on_err (λ e, errorf "delete txt rrset" [ErrGandiAPI; e]) (gandi_deleteTXT p domain relative) else
      let ttl := if ttl <? gandiChallengeTTL then gandiChallengeTTL else ttl in
      on_err (λ e, errorf "remove txt value" [ErrGandiAPI; e]) (gandi_putTXT p domain relative ttl remaining)
  end.

(** src/internal/dns01/gandi.go:172-225, gandiProvider.Present *)
Definition gandi_Present (p : gandiProvider) (rec : DNSRecord) : client (option CleanupFunc * option goerror) :=
  need! domain := gandi_domainFor p (rec_Name rec) in
  need! relative := Ret (gandiRecordName (rec_Name rec) domain) in
  need! current := gandi_currentTXT p domain relative in
  let '(existing, ttl) := current in
  let values := match indexOfTXT existing (rec_Value rec) with None => existing ++ [rec_Value rec] | Some _ => existing end in
  let ttl := if ttl <? gandiChallengeTTL then gandiChallengeTTL else ttl in
  published (gandi_removeValue p domain relative (rec_Value rec))
    (on_err (λ e, errorf "publish txt value" [ErrGandiAPI; e]) (gandi_putTXT p domain relative ttl values)).

(** src/internal/dns01/gandi.go:124-156, NewGandi *)
Definition NewGandi (creds : Credentials) : result DNSProvider :=
  token ← single_token ErrGandiAPI creds;
  Ok (MkDNSProvider (go "gandi") (gandi_Present (MkGandi token))).

(** ** GoDaddy *)

(** src/internal/dns01/godaddy.go:20-52, godaddyAPIBase *)
Definition godaddyAPIBase : gostring := go "https://api.godaddy.com/v1".
Definition godaddyChallengeTTL : Z := 600.
Definition godaddyMaxBody : Z := 2 ^ 20.

(** src/internal/dns01/godaddy.go:54-56, ErrGoDaddyAPI *)
Definition ErrGoDaddyAPI : goerror := errors_new "dns01: godaddy api".
(** src/internal/dns01/godaddy.go:490-493, errGoDaddyNotFound *)
Definition errGoDaddyNotFound : goerror := errors_new "resource not found (godaddy)".

(** src/internal/dns01/godaddy.go:58-127, godaddyProvider *)
Record godaddyProvider := MkGoDaddy { gy_credential : Redacted }.

(** A pair of named secrets joined by a colon, or one secret that holds both. *)
Definition packed_pair (api : goerror) (creds : Credentials) (first second : string) : result Redacted :=
  match Get creds first, Get creds second with
  | Some a, Some b => Ok (Redacted_Join [COLON] [a; b])
  | Some _, None | None, Some _ => Err (errorf "named credentials need both halves" [api])
  | None, None => match Single creds with Some packed => Ok packed | None => Err (errorf "no credential supplied" [api]) end
  end.
Definition split_pair (api : goerror) (credential : Redacted) : result (gostring * gostring) :=
  let '(key, secret, found) := cut COLON (trim_space credential) in
  if negb found || bool_decide (trim_space key = []) || bool_decide (trim_space secret = [])
  then Err (errorf "credential must have both halves non-empty" [api]) else Ok (trim_space key, trim_space secret).

(** src/internal/dns01/godaddy.go:171-204, godaddyCredential *)
Definition godaddyCredential (creds : Credentials) : result Redacted := packed_pair ErrGoDaddyAPI creds "api_key" "api_secret".
(** src/internal/dns01/godaddy.go:206-223, splitGoDaddyCredential *)
Definition splitGoDaddyCredential (credential : Redacted) : result (gostring * gostring) := split_pair ErrGoDaddyAPI credential.

(** src/internal/dns01/godaddy.go:584-590, godaddyRecord *)
Record godaddyRecord := MkGoDaddyRecord { gyr_Data : gostring; gyr_TTL : Z }.
Definition into_godaddyRecord : store godaddyRecord := into_struct false
  [("data"%string, λ v a, x ← into_string v (gyr_Data a); Some (MkGoDaddyRecord x (gyr_TTL a)));
   ("ttl"%string, λ v a, x ← into_int64 v (gyr_TTL a); Some (MkGoDaddyRecord (gyr_Data a) x))].
Definition godaddyRecord_json (r : godaddyRecord) : jvalue := VObj [(go "data", str (gyr_Data r)); (go "ttl", int (gyr_TTL r))].
(** src/internal/dns01/godaddy.go:592-594, godaddyDomainResponse *)
Definition into_godaddyDomain : store gostring := into_struct false [("domain"%string, into_string)].
(** The error's code and message.

    src/internal/dns01/godaddy.go:596-599, godaddyErrorResponse *)
Definition into_godaddyErrorResponse : store (gostring * gostring) := into_struct false
  [("code"%string, λ v a, x ← into_string v a.1; Some (x, a.2)); ("message"%string, λ v a, x ← into_string v a.2; Some (a.1, x))].
(** src/internal/dns01/godaddy.go:556-578, godaddyError *)
Definition godaddyError (raw : bytes) : goerror :=
  match Unmarshal into_godaddyErrorResponse raw ([], []) with
  | None | Some (_, []) => errorf "request rejected" []
  | Some ([], _) => errorf "request rejected (message)" []
  | Some _ => errorf "request rejected (code)" []
  end.

(** Redirects are refused.

    src/internal/dns01/godaddy.go:156-166, NewGoDaddy *)
Definition godaddyClient : http_client := MkClient UseLastResponse.
#[export] Instance godaddy_refuses : Refuses godaddyClient := eq_refl.

(** src/internal/dns01/godaddy.go:495-554, godaddyProvider.do *)
Definition godaddy_do {A} (p : godaddyProvider) (method path : gostring) (body : option bytes) (decode : bytes → option A) : client (result A) :=
  let url := godaddyAPIBase ++ path in
  if negb (url_ok url) then Ret (Err (errorf "build request" [errURL])) else
  match splitGoDaddyCredential (gy_credential p) with
  | Err e => Ret (Err e)
  | Ok (key, secret) =>
      let header := (go "Authorization", go "sso-key " ++ key ++ COLON :: secret) ::
        (match body with Some _ => [(go "Content-Type", go "application/json")] | None => [] end) ++ [(go "Accept", go "application/json")] in
      let! r := send godaddyClient method url header body godaddyMaxBody in
      Ret (accept errGoDaddyNotFound godaddyError decode r)
  end.

(** src/internal/dns01/godaddy.go:412-468, godaddyProvider.domainFor *)
Definition godaddy_domainFor (p : godaddyProvider) (recordName : gostring) : client (result gostring) :=
  walk_zones recordName (λ name,
    if negb (validDomainName name) then Ret (Some (Err (errorf "malformed domain candidate" [ErrGoDaddyAPI]))) else
    try! r := godaddy_do p GET (go "/domains/" ++ PathEscape name) None (λ raw, Unmarshal into_godaddyDomain raw []) in
    Ret (match r with
         | Err e => if errors_is e errGoDaddyNotFound then None else Some (Err (errorf "look up domain" [ErrGoDaddyAPI; e]))
         | Ok answered => Some (if negb (EqualFold (trim_suffix [DOT] answered) name) then Err (errorf "domain lookup answered for a different domain" [ErrGoDaddyAPI])
                                else Ok name)
         end))
  (errorf "no domain found" [ErrGoDaddyAPI]).
(** src/internal/dns01/godaddy.go:470-488, godaddyRecordName *)
Definition godaddyRecordName (fqdn domain : gostring) : result gostring := relative_for ErrGoDaddyAPI fqdn domain.
(** src/internal/dns01/godaddy.go:403-410, godaddyRecordPath *)
Definition godaddyRecordPath (domain relative : gostring) : gostring := go "/domains/" ++ PathEscape domain ++ go "/records/TXT/" ++ PathEscape relative.

(** The values and the first lifetime that is not zero. *)
Definition godaddy_set (rs : list godaddyRecord) : list gostring * Z :=
  (gyr_Data <$> rs, foldl (λ ttl r, if ttl =? 0 then gyr_TTL r else ttl) 0 rs).
Definition into_godaddyRecords : store (list godaddyRecord) := into_list (MkGoDaddyRecord [] 0) into_godaddyRecord.
(** src/internal/dns01/godaddy.go:337-367, godaddyProvider.currentTXT *)
Definition godaddy_currentTXT (p : godaddyProvider) (domain relative : gostring) : client (result (list gostring * Z)) :=
  try! out := godaddy_do p GET (godaddyRecordPath domain relative) None (λ raw, Unmarshal into_godaddyRecords raw []) in
  Ret (match out with
       | Err e => if errors_is e errGoDaddyNotFound then Ok ([], 0) else Err (errorf "read txt record" [ErrGoDaddyAPI; e])
       | Ok rs => Ok (godaddy_set rs)
       end).
(** src/internal/dns01/godaddy.go:369-387, godaddyProvider.putTXT *)
Definition godaddy_putTXT (p : godaddyProvider) (domain relative : gostring) (ttl : Z) (values : list gostring) : client (result unit) :=
  godaddy_do p PUT (godaddyRecordPath domain relative) (Some (print (VArr ((λ v, godaddyRecord_json (MkGoDaddyRecord v ttl)) <$> values)))) no_out.
(** src/internal/dns01/godaddy.go:389-401, godaddyProvider.deleteTXT *)
Definition godaddy_deleteTXT (p : godaddyProvider) (domain relative : gostring) : client (result unit) :=
  try! r := godaddy_do p DELETE (godaddyRecordPath domain relative) None no_out in
  Ret (match r with Ok _ => Ok tt | Err e => if errors_is e errGoDaddyNotFound then Ok tt else Err e end).

(** [slices.DeleteFunc] of a value *)
Definition without (value : gostring) (values : list gostring) : list gostring := filter (λ v, v ≠ value) values.
(** The value at the end of those that are there, unless it is one of them. *)
Definition with_value (value : gostring) (values : list gostring) : list gostring := if bool_decide (value ∈ values) then values else values ++ [value].

(** src/internal/dns01/godaddy.go:295-335, godaddyProvider.removeValue *)
Definition godaddy_removeValue (p : godaddyProvider) (domain relative value : gostring) : CleanupFunc :=
  let! current := on_err (λ e, errorf "read txt record for cleanup" [ErrGoDaddyAPI; e]) (godaddy_currentTXT p domain relative) in
  let '(existing, ttl) := current in
  if negb (bool_decide (value ∈ existing)) then Ret (Ok tt) else
  let remaining := without value existing in
  if bool_decide (remaining = []) then on_err (λ e, errorf "delete txt record" [ErrGoDaddyAPI; e]) (godaddy_deleteTXT p domain relative) else
  let ttl := if ttl <? godaddyChallengeTTL then godaddyChallengeTTL else ttl in
  on_err (λ e, errorf "remove txt value" [ErrGoDaddyAPI; e]) (godaddy_putTXT p domain relative ttl remaining).

(** src/internal/dns01/godaddy.go:240-293, godaddyProvider.Present *)
Definition godaddy_Present (p : godaddyProvider) (rec : DNSRecord) : client (option CleanupFunc * option goerror) :=
  need! domain := godaddy_domainFor p (rec_Name rec) in
  need! relative := Ret (godaddyRecordName (rec_Name rec) domain) in
  need! current := godaddy_currentTXT p domain relative in
  let '(existing, ttl) := current in
  let values := with_value (rec_Value rec) existing in
  let ttl := if ttl <? godaddyChallengeTTL then godaddyChallengeTTL else ttl in
  published (godaddy_removeValue p domain relative (rec_Value rec))
    (on_err (λ e, errorf "publish txt value" [ErrGoDaddyAPI; e]) (godaddy_putTXT p domain relative ttl values)).

(** src/internal/dns01/godaddy.go:131-169, NewGoDaddy *)
Definition NewGoDaddy (creds : Credentials) : result DNSProvider :=
  credential ← godaddyCredential creds;
  _ ← splitGoDaddyCredential credential;
  Ok (MkDNSProvider (go "godaddy") (godaddy_Present (MkGoDaddy credential))).

(** ** Azure *)

(** src/internal/dns01/azure.go:20-79, azureManagementBase *)
Definition azureManagementBase : gostring := go "https://management.azure.com".
Definition azureLoginBase : gostring := go "https://login.microsoftonline.com".
Definition azureScope : gostring := go "https://management.azure.com/.default".
Definition azureAPIVersion : gostring := go "2018-05-01".
Definition azureChallengeTTL : Z := 60.
Definition azureMaxBody : Z := 2 ^ 20.
Definition azureMaxZonePages : nat := 100.

(** src/internal/dns01/azure.go:81-84, ErrAzureAPI *)
Definition ErrAzureAPI : goerror := errors_new "dns01: azure api".
(** src/internal/dns01/azure.go:86-98, ErrAzureAmbiguousZone *)
Definition ErrAzureAmbiguousZone : goerror := errors_new "dns01: azure ambiguous dns zone".
(** src/internal/dns01/azure.go:100-102, errAzureNotFound *)
Definition errAzureNotFound : goerror := errors_new "resource not found (azure)".

(** src/internal/dns01/azure.go:104-160, azureProvider *)
Record azureProvider := MkAzure { az_tenantID : Redacted; az_clientID : Redacted; az_clientSecret : Redacted; az_subscriptionID : Redacted }.

(** src/internal/dns01/azure.go:771-775, azureZone *)
Record azureZone := MkAzureZone { azz_name : gostring; azz_resourceGroup : gostring }.
(** The zones of a page by id and name, and the link to the next page.

    src/internal/dns01/azure.go:762-769, azureZoneListResponse *)
Definition into_azureZones : store (list (gostring * gostring) * gostring) := into_struct false
  [("value"%string, λ v a, x ← into_list ([], []) (into_struct false
      [("id"%string, λ v a, x ← into_string v a.1; Some (x, a.2)); ("name"%string, λ v a, x ← into_string v a.2; Some (a.1, x))]) v a.1; Some (x, a.2));
   ("nextLink"%string, λ v a, x ← into_string v a.2; Some (a.1, x))].
(** src/internal/dns01/azure.go:782-785, azureRecordSetProps *)
Record azureRecordSetProps := MkAzureProps { azp_TTL : Z; azp_TXTRecords : list (list gostring) }.
(** src/internal/dns01/azure.go:787-789, azureTXTRecord *)
Definition into_azureTXTRecord : store (list gostring) := into_struct false [("value"%string, into_list [] into_string)].
(** src/internal/dns01/azure.go:777-780, azureRecordSet *)
Definition into_azureRecordSet : store azureRecordSetProps := into_struct false [("properties"%string, into_struct false
  [("TTL"%string, λ v a, x ← into_int64 v (azp_TTL a); Some (MkAzureProps x (azp_TXTRecords a)));
   ("TXTRecords"%string, λ v a, x ← into_list [] into_azureTXTRecord v (azp_TXTRecords a); Some (MkAzureProps (azp_TTL a) x))])].
Definition azureRecordSet_json (props : azureRecordSetProps) : jvalue :=
  VObj [(go "properties", VObj [(go "TTL", int (azp_TTL props)); (go "TXTRecords", VArr ((λ chunks, VObj [(go "value", strs chunks)]) <$> azp_TXTRecords props))])].

(** src/internal/dns01/azure.go:791-797, azureErrorResponse *)
Definition into_azureError : store (gostring * gostring) := into_struct false [("error"%string, into_struct false
  [("code"%string, λ v a, x ← into_string v a.1; Some (x, a.2)); ("message"%string, λ v a, x ← into_string v a.2; Some (a.1, x))])].
(** src/internal/dns01/azure.go:629-648, azureError *)
Definition azureError (raw : bytes) : goerror :=
  match Unmarshal into_azureError raw ([], []) with
  | None | Some ([], _) => errorf "request rejected" []
  | Some _ => errorf "request rejected (code)" []
  end.
(** src/internal/dns01/azure.go:756-760, azureTokenErrorResponse *)
Definition into_tokenError : store (gostring * gostring) := into_struct false
  [("error"%string, λ v a, x ← into_string v a.1; Some (x, a.2)); ("error_description"%string, λ v a, x ← into_string v a.2; Some (a.1, x))].
(** src/internal/dns01/azure.go:650-662, azureTokenError *)
Definition azureTokenError (raw : bytes) : goerror :=
  match Unmarshal into_tokenError raw ([], []) with
  | None | Some ([], _) => errorf "token request rejected" [ErrAzureAPI]
  | Some _ => errorf "token request rejected (error)" [ErrAzureAPI]
  end.
(** src/internal/dns01/azure.go:751-754, azureTokenResponse *)
Definition into_accessToken : store gostring := into_struct false [("access_token"%string, into_string)].

(** The request for a bearer token and what is made of its answer. *)
Definition token_request (c : http_client) (api : goerror) (url : gostring) (form : list (gostring * gostring)) (limit : Z) (reject : bytes → goerror) (missing : gostring → bool) :
    client (result gostring) :=
  let! r := on_err (λ e, errorf "token request failed" [api; e])
    (send c POST url [(go "Content-Type", go "application/x-www-form-urlencoded"); (go "Accept", go "application/json")] (Some (Encode form)) limit) in
  Ret (let '(status, raw) := r in
       if (status <? 200) || (300 <=? status) then Err (reject raw) else
       match Unmarshal into_accessToken raw [] with
       | None => Err (errorf "unparseable token response" [api])
       | Some token => if missing token then Err (errorf "token response carried no access_token" [api]) else Ok token
       end).

(** Redirects are refused.

    src/internal/dns01/azure.go:195-204, NewAzure *)
Definition azureClient : http_client := MkClient UseLastResponse.
#[export] Instance azure_refuses : Refuses azureClient := eq_refl.

(** src/internal/dns01/azure.go:520-573, azureProvider.token *)
Definition azure_token (p : azureProvider) : client (result gostring) :=
  token_request azureClient ErrAzureAPI (azureLoginBase ++ go "/" ++ PathEscape (trim_space (az_tenantID p)) ++ go "/oauth2/v2.0/token")
    [(go "client_id", trim_space (az_clientID p)); (go "client_secret", trim_space (az_clientSecret p)); (go "grant_type", go "client_credentials"); (go "scope", azureScope)]
    azureMaxBody azureTokenError (λ token, bool_decide (trim_space token = [])).

(** src/internal/dns01/azure.go:575-627, azureProvider.do *)
Definition azure_do {A} (method fullURL : gostring) (body : option bytes) (decode : bytes → option A) (token : gostring) : client (result A) :=
  let header := (match body with Some _ => [(go "Content-Type", go "application/json")] | None => [] end) ++
    [(go "Accept", go "application/json"); (go "Authorization", go "Bearer " ++ token)] in
  let! r := send azureClient method fullURL header body azureMaxBody in
  Ret (accept errAzureNotFound azureError decode r).

(** src/internal/dns01/azure.go:499-508, azureProvider.subscriptionPath *)
Definition azure_subscriptionPath (p : azureProvider) (suffix : gostring) : gostring :=
  azureManagementBase ++ go "/subscriptions/" ++ PathEscape (trim_space (az_subscriptionID p)) ++ suffix.
(** src/internal/dns01/azure.go:510-518, azureProvider.recordSetURL *)
Definition azure_recordSetURL (p : azureProvider) (group zone relative : gostring) : gostring :=
  azure_subscriptionPath p (go "/resourceGroups/" ++ PathEscape group ++ go "/providers/Microsoft.Network/dnszones/" ++ PathEscape zone ++ go "/TXT/" ++ PathEscape relative)
  ++ go "?api-version=" ++ azureAPIVersion.

Fixpoint group_after (segments : list gostring) : option gostring :=
  match segments with
  | [] => None
  | s :: rest =>
      match rest with
      | [] => None
      | rg :: _ => if EqualFold s (go "resourceGroups") then (if bool_decide (rg = []) then None else Some rg) else group_after rest
      end
  end.
(** src/internal/dns01/azure.go:694-714, azureResourceGroupFromID *)
Definition azureResourceGroupFromID (id : gostring) : option gostring := group_after (split_byte SLASH (default id (cut_prefix [SLASH] id))).

(** A name of dots only ends in one.

    src/internal/dns01/azure.go:716-745, validResourceGroup *)
Definition validResourceGroup (rg : gostring) : bool :=
  negb (bool_decide (rg = []) || (90 <? Z.of_nat (length rg))) && negb (bool_decide (last rg = Some DOT)) &&
  forallb (λ c, alnum c || mem_byte c (go "_-.()")) rg.

Fixpoint azure_pages (n : nat) (next : gostring) (token : gostring) (zones : list azureZone) : client (result (list azureZone)) :=
  match n with
  | O => Ret (Err (errorf "dns zone list did not terminate" [ErrAzureAPI]))
  | S n =>
      let! out := on_err (λ e, errorf "list dns zones" [ErrAzureAPI; e]) (azure_do GET next None (λ raw, Unmarshal into_azureZones raw ([], [])) token) in
      let '(value, nextLink) := out in
      let zones := zones ++ omap (λ z, MkAzureZone z.2 <$> azureResourceGroupFromID z.1) value in
      if bool_decide (nextLink = []) then Ret (Ok zones) else
      if negb (has_prefix (azureManagementBase ++ go "/") nextLink) then Ret (Err (errorf "zone list continuation left the management host" [ErrAzureAPI]))
      else azure_pages n nextLink token zones
  end.
(** src/internal/dns01/azure.go:410-449, azureProvider.listZones *)
Definition azure_listZones (p : azureProvider) (token : gostring) : client (result (list azureZone)) :=
  azure_pages azureMaxZonePages (azure_subscriptionPath p (go "/providers/Microsoft.Network/dnszones") ++ go "?api-version=" ++ azureAPIVersion) token [].

(** src/internal/dns01/azure.go:346-408, azureProvider.zoneFor *)
Definition azure_zoneFor (p : azureProvider) (token recordName : gostring) : client (result azureZone) :=
  let! zones := azure_listZones p token in
  walk_zones recordName (λ name,
    Ret (match filter (λ z, EqualFold (trim_suffix [DOT] (azz_name z)) name = true) zones with
         | [] => None
         | [m] => Some (if negb (validDomainName (azz_name m)) then Err (errorf "malformed zone name in response" [ErrAzureAPI]) else
                        if negb (validResourceGroup (azz_resourceGroup m)) then Err (errorf "malformed resource group in response" [ErrAzureAPI]) else Ok m)
         | _ => Some (Err (errorf "several dns zones" [ErrAzureAmbiguousZone]))
         end))
  (errorf "no dns zone found" [ErrAzureAPI]).

(** src/internal/dns01/azure.go:664-679, azureRecordName *)
Definition azureRecordName (fqdn zone : gostring) : result gostring := relative_for ErrAzureAPI fqdn zone.
(** src/internal/dns01/azure.go:681-692, azureTXTContent *)
Definition azureTXTContent (chunks : list gostring) : gostring := concat chunks.

(** src/internal/dns01/azure.go:451-471, azureProvider.currentTXT *)
Definition azure_currentTXT (p : azureProvider) (token group zone relative : gostring) : client (result (list gostring * Z)) :=
  try! out := azure_do GET (azure_recordSetURL p group zone relative) None (λ raw, Unmarshal into_azureRecordSet raw (MkAzureProps 0 [])) token in
  Ret (match out with
       | Err e => if errors_is e errAzureNotFound then Ok ([], 0) else Err (errorf "read txt record set" [ErrAzureAPI; e])
       | Ok props => Ok (azureTXTContent <$> azp_TXTRecords props, azp_TTL props)
       end).
(** src/internal/dns01/azure.go:473-487, azureProvider.putRecordSet *)
Definition azure_putRecordSet (p : azureProvider) (token group zone relative : gostring) (ttl : Z) (values : list gostring) : client (result unit) :=
  azure_do PUT (azure_recordSetURL p group zone relative) (Some (print (azureRecordSet_json (MkAzureProps ttl ((λ v, [v]) <$> values))))) no_out token.
(** src/internal/dns01/azure.go:489-497, azureProvider.deleteRecordSet *)
Definition azure_deleteRecordSet (p : azureProvider) (token group zone relative : gostring) : client (result unit) :=
  try! r := azure_do DELETE (azure_recordSetURL p group zone relative) None no_out token in
  Ret (match r with Ok _ => Ok tt | Err e => if errors_is e errAzureNotFound then Ok tt else Err e end).

(** src/internal/dns01/azure.go:300-344, azureProvider.removeValue *)
Definition azure_removeValue (p : azureProvider) (group zone relative value : gostring) : CleanupFunc :=
  let! token := on_err (λ e, errorf "token for cleanup" [ErrAzureAPI; e]) (azure_token p) in
  let! current := on_err (λ e, errorf "read txt record for cleanup" [ErrAzureAPI; e]) (azure_currentTXT p token group zone relative) in
  let '(existing, ttl) := current in
  if negb (bool_decide (value ∈ existing)) then Ret (Ok tt) else
  let remaining := without value existing in
  if bool_decide (remaining = []) then on_err (λ e, errorf "remove txt record set" [ErrAzureAPI; e]) (azure_deleteRecordSet p token group zone relative) else
  let ttl := if ttl <=? 0 then azureChallengeTTL else ttl in
  on_err (λ e, errorf "remove txt value" [ErrAzureAPI; e]) (azure_putRecordSet p token group zone relative ttl remaining).

(** src/internal/dns01/azure.go:250-298, azureProvider.Present *)
Definition azure_Present (p : azureProvider) (rec : DNSRecord) : client (option CleanupFunc * option goerror) :=
  need! token := azure_token p in
  need! m := azure_zoneFor p token (rec_Name rec) in
  let '(zone, group) := (azz_name m, azz_resourceGroup m) in
  need! relative := Ret (azureRecordName (rec_Name rec) zone) in
  need! current := azure_currentTXT p token group zone relative in
  let '(existing, ttl) := current in
  let values := with_value (rec_Value rec) existing in
  let ttl := if ttl <=? 0 then azureChallengeTTL else ttl in
  published (azure_removeValue p group zone relative (rec_Value rec))
    (on_err (λ e, errorf "publish txt value" [ErrAzureAPI; e]) (azure_putRecordSet p token group zone relative ttl values)).

(** src/internal/dns01/azure.go:215-233, azureRequiredField *)
Definition azureRequiredField (creds : Credentials) (field : string) : result Redacted :=
  match Get creds field with
  | None => Err (errorf "missing field" [ErrAzureAPI])
  | Some v => if IsBlank v then Err (errorf "blank field (empty or whitespace only)" [ErrAzureAPI]) else Ok v
  end.
(** src/internal/dns01/azure.go:164-213, NewAzure *)
Definition NewAzure (creds : Credentials) : result DNSProvider :=
  tenantID ← azureRequiredField creds "tenant_id";
  clientID ← azureRequiredField creds "client_id";
  clientSecret ← azureRequiredField creds "client_secret";
  subscriptionID ← azureRequiredField creds "subscription_id";
  Ok (MkDNSProvider (go "azure") (azure_Present (MkAzure tenantID clientID clientSecret subscriptionID))).

(** ** Google Cloud DNS *)

(** src/internal/dns01/gcp.go:27-66, gcpDNSAPIBase *)
Definition gcpDNSAPIBase : gostring := go "https://dns.googleapis.com/dns/v1".
Definition gcpTokenEndpoint : gostring := go "https://oauth2.googleapis.com/token".
Definition gcpDNSScope : gostring := go "https://www.googleapis.com/auth/ndev.clouddns.readwrite".
Definition gcpGrantType : gostring := go "urn:ietf:params:oauth:grant-type:jwt-bearer".
Definition gcpChallengeTTL : Z := 60.
Definition gcpJWTLifetime : duration := 10 * Minute.
Definition gcpMaxBody : Z := 2 ^ 20.

(** src/internal/dns01/gcp.go:68-71, ErrGCPAPI *)
Definition ErrGCPAPI : goerror := errors_new "dns01: gcp api".
(** src/internal/dns01/gcp.go:73-84, ErrGCPAmbiguousZone *)
Definition ErrGCPAmbiguousZone : goerror := errors_new "dns01: gcp ambiguous managed zone".

(** The private key, what reads it from PEM, and the signature it makes of a digest:
    [encoding/pem], [crypto/x509] and [crypto/rsa]. *)
Context {rsa_key : Type} (pem_Decode : bytes → option bytes) (ParsePKCS8 : bytes → option (option rsa_key)) (SignPKCS1v15 : rsa_key → bytes → result bytes).

(** src/internal/dns01/gcp.go:86-141, gcpProvider *)
Record gcpProvider := MkGCP { gc_credential : Redacted; gc_projectID : gostring }.
(** src/internal/dns01/gcp.go:145-152, gcpServiceAccount *)
Record gcpServiceAccount := MkGCPAccount { gca_projectID : gostring; gca_clientEmail : gostring; gca_privateKey : rsa_key }.

(** A lower-case letter, then also digits and dashes. *)
Definition gcp_name (s : gostring) : bool :=
  let lower c := (97 <=? byte_val c) && (byte_val c <=? 122) in
  match s with [] => true | c :: s => lower c && forallb (λ c, lower c || bool_decide (is_Some (digit c)) || bool_decide (c = MINUS)) s end.
(** src/internal/dns01/gcp.go:666-684, validGCPProjectID *)
Definition validGCPProjectID (id : gostring) : bool := negb ((Z.of_nat (length id) <? 6) || (30 <? Z.of_nat (length id))) && gcp_name id.
(** src/internal/dns01/gcp.go:686-703, validGCPZoneName *)
Definition validGCPZoneName (name : gostring) : bool := negb (bool_decide (name = []) || (63 <? Z.of_nat (length name))) && gcp_name name.

Definition into_serviceAccount : store (gostring * gostring * gostring) := into_struct false
  [("project_id"%string, λ v a, x ← into_string v a.1.1; Some (x, a.1.2, a.2)); ("client_email"%string, λ v a, x ← into_string v a.1.2; Some (a.1.1, x, a.2));
   ("private_key"%string, λ v a, x ← into_string v a.2; Some (a.1.1, a.1.2, x))].
(** src/internal/dns01/gcp.go:154-193, parseServiceAccount *)
Definition parseServiceAccount (credential : Redacted) : result gcpServiceAccount :=
  match Unmarshal into_serviceAccount credential ([], [], []) with
  | None => Err (errorf "malformed service account json" [ErrGCPAPI])
  | Some (projectID, clientEmail, privateKey) =>
      if bool_decide (projectID = []) || bool_decide (clientEmail = []) || bool_decide (privateKey = [])
      then Err (errorf "service account json missing project_id, client_email or private_key" [ErrGCPAPI]) else
      if negb (validGCPProjectID projectID) then Err (errorf "malformed project_id in service account json" [ErrGCPAPI]) else
      match pem_Decode privateKey with
      | None => Err (errorf "service account private_key is not valid pem" [ErrGCPAPI])
      | Some block =>
          match ParsePKCS8 block with
          | None => Err (errorf "service account private_key is not a valid pkcs8 key" [ErrGCPAPI])
          | Some None => Err (errorf "service account private_key is not an rsa key" [ErrGCPAPI])
          | Some (Some key) => Ok (MkGCPAccount projectID clientEmail key)
          end
      end
  end.

(** src/internal/dns01/gcp.go:709-712, gcpJWTHeader *)
Definition gcpJWTHeader : jvalue := VObj [(go "alg", str (go "RS256")); (go "typ", str (go "JWT"))].
(** src/internal/dns01/gcp.go:714-720, gcpJWTClaims *)
Definition gcpJWTClaims (issuer scope audience : gostring) (issuedAt expiry : Z) : jvalue :=
  VObj [(go "iss", str issuer); (go "scope", str scope); (go "aud", str audience); (go "iat", int issuedAt); (go "exp", int expiry)].
(** src/internal/dns01/gcp.go:566-587, signJWT *)
Definition gcp_signJWT (claims : jvalue) (key : rsa_key) : result gostring :=
  let signingInput := rawurl_b64 (print gcpJWTHeader) ++ DOT :: rawurl_b64 (print claims) in
  match SignPKCS1v15 key (sha256 signingInput) with
  | Err e => Err (errorf "rsa sign" [e])
  | Ok sig => Ok (signingInput ++ DOT :: rawurl_b64 sig)
  end.

(** src/internal/dns01/gcp.go:649-664, gcpTokenError *)
Definition gcpTokenError (raw : bytes) : goerror :=
  match Unmarshal into_tokenError raw ([], []) with
  | None | Some ([], []) => errorf "token request rejected" [ErrGCPAPI]
  | Some _ => errorf "token request rejected (error)" [ErrGCPAPI]
  end.

(** Redirects are refused.

    src/internal/dns01/gcp.go:225-235, NewGCP *)
Definition gcpClient : http_client := MkClient UseLastResponse.
#[export] Instance gcp_refuses : Refuses gcpClient := eq_refl.

(** src/internal/dns01/gcp.go:499-564, gcpProvider.accessToken *)
Definition gcp_accessToken (p : gcpProvider) : client (result gostring) :=
  match parseServiceAccount (gc_credential p) with
  | Err e => Ret (Err e)
  | Ok sa =>
      try! now := ask Clock in
      let claims := gcpJWTClaims (gca_clientEmail sa) gcpDNSScope gcpTokenEndpoint (time_unix now) (time_unix (time_add now gcpJWTLifetime)) in
      match gcp_signJWT claims (gca_privateKey sa) with
      | Err e => Ret (Err (errorf "sign token assertion" [ErrGCPAPI; e]))
      | Ok assertion => token_request gcpClient ErrGCPAPI gcpTokenEndpoint [(go "assertion", assertion); (go "grant_type", gcpGrantType)] gcpMaxBody gcpTokenError (λ token, bool_decide (token = []))
      end
  end.

(** src/internal/dns01/gcp.go:755-759, gcpErrorResponse *)
Definition into_gcpError : store gostring := into_struct false [("error"%string, into_message)].
(** src/internal/dns01/gcp.go:636-647, gcpAPIError *)
Definition gcpAPIError (raw : bytes) : goerror :=
  match Unmarshal into_gcpError raw [] with
  | None | Some [] => errorf "request rejected" []
  | Some _ => errorf "request rejected (message)" []
  end.

(** src/internal/dns01/gcp.go:589-634, gcpProvider.do *)
Definition gcp_do {A} (token method path : gostring) (body : option bytes) (decode : bytes → option A) : client (result A) :=
  let header := (go "Authorization", go "Bearer " ++ token) ::
    (match body with Some _ => [(go "Content-Type", go "application/json")] | None => [] end) ++ [(go "Accept", go "application/json")] in
  let! r := send gcpClient method (gcpDNSAPIBase ++ path) header body gcpMaxBody in
  Ret (let '(status, raw) := r in
       if (status <? 200) || (300 <=? status) then Err (gcpAPIError raw) else
       match decode raw with Some a => Ok a | None => Err (errorf "unparseable response" []) end).

(** src/internal/dns01/gcp.go:339-344, gcpZone *)
Record gcpZone := MkGCPZone { gcz_name : gostring; gcz_dnsName : gostring }.
(** src/internal/dns01/gcp.go:731-737, gcpManagedZonesListResponse *)
Definition into_gcpZones : store (list (gostring * gostring * gostring)) := into_struct false [("managedZones"%string, into_list ([], [], []) (into_struct false
  [("name"%string, λ v a, x ← into_string v a.1.1; Some (x, a.1.2, a.2)); ("dnsName"%string, λ v a, x ← into_string v a.1.2; Some (a.1.1, x, a.2));
   ("visibility"%string, λ v a, x ← into_string v a.2; Some (a.1.1, a.1.2, x))]))].

Fixpoint gcp_public (dnsName : gostring) (zs : list (gostring * gostring * gostring)) : result (list gcpZone) :=
  match zs with
  | [] => Ok []
  | (name, zdns, visibility) :: zs =>
      if negb (EqualFold (trim_suffix [DOT] zdns) dnsName) || negb (EqualFold visibility (go "public")) then gcp_public dnsName zs else
      if negb (validGCPZoneName name) then Err (errorf "malformed managed zone id in response" [ErrGCPAPI]) else
      rest ← gcp_public dnsName zs; Ok (MkGCPZone name zdns :: rest)
  end.
(** src/internal/dns01/gcp.go:399-433, gcpProvider.publicZonesNamed *)
Definition gcp_publicZonesNamed (p : gcpProvider) (token dnsName : gostring) : client (result (list gcpZone)) :=
  let path := go "/projects/" ++ gc_projectID p ++ go "/managedZones?" ++ Encode [(go "dnsName", dnsName ++ [DOT])] in
  let! zs := on_err (λ e, errorf "look up managed zone" [ErrGCPAPI; e]) (gcp_do token GET path None (λ raw, Unmarshal into_gcpZones raw [])) in
  Ret (gcp_public dnsName zs).

(** src/internal/dns01/gcp.go:346-397, gcpProvider.managedZone *)
Definition gcp_managedZone (p : gcpProvider) (token recordName : gostring) : client (result gcpZone) :=
  walk_zones recordName (λ name,
    if negb (validDomainName name) then Ret (Some (Err (errorf "malformed zone candidate" [ErrGCPAPI]))) else
    try! matches := gcp_publicZonesNamed p token name in
    Ret (match matches with
         | Err e => Some (Err e)
         | Ok [] => None
         | Ok [z] => Some (Ok z)
         | Ok _ => Some (Err (errorf "several public managed zones" [ErrGCPAmbiguousZone]))
         end))
  (errorf "no public managed zone found" [ErrGCPAPI]).

(** src/internal/dns01/gcp.go:743-748, gcpRRSet *)
Record gcpRRSet := MkGCPRRSet { gcr_Name : gostring; gcr_Type : gostring; gcr_TTL : Z; gcr_Rrdatas : list gostring }.
Definition gcpRRSet_json (r : gcpRRSet) : jvalue :=
  VObj [(go "name", str (gcr_Name r)); (go "type", str (gcr_Type r)); (go "ttl", int (gcr_TTL r)); (go "rrdatas", strs (gcr_Rrdatas r))].
(** src/internal/dns01/gcp.go:739-741, gcpResourceRecordSetsListResponse *)
Definition into_gcpRRSets : store (list gcpRRSet) := into_struct false [("rrsets"%string, into_list (MkGCPRRSet [] [] 0 []) (into_struct false
  [("name"%string, λ v a, x ← into_string v (gcr_Name a); Some (MkGCPRRSet x (gcr_Type a) (gcr_TTL a) (gcr_Rrdatas a)));
   ("type"%string, λ v a, x ← into_string v (gcr_Type a); Some (MkGCPRRSet (gcr_Name a) x (gcr_TTL a) (gcr_Rrdatas a)));
   ("ttl"%string, λ v a, x ← into_int64 v (gcr_TTL a); Some (MkGCPRRSet (gcr_Name a) (gcr_Type a) x (gcr_Rrdatas a)));
   ("rrdatas"%string, λ v a, x ← into_list [] into_string v (gcr_Rrdatas a); Some (MkGCPRRSet (gcr_Name a) (gcr_Type a) (gcr_TTL a) x))]))].

(** src/internal/dns01/gcp.go:435-457, gcpProvider.currentTXT *)
Definition gcp_currentTXT (p : gcpProvider) (token : gostring) (zone : gcpZone) (fqdn : gostring) : client (result (list gostring * Z)) :=
  let path := go "/projects/" ++ gc_projectID p ++ go "/managedZones/" ++ gcz_name zone ++ go "/rrsets?" ++ Encode [(go "name", fqdn); (go "type", go "TXT")] in
  let! rrsets := on_err (λ e, errorf "list txt records" [ErrGCPAPI; e]) (gcp_do token GET path None (λ raw, Unmarshal into_gcpRRSets raw [])) in
  Ret (Ok (match List.find (λ r, EqualFold (gcr_Name r) fqdn && bool_decide (gcr_Type r = go "TXT")) rrsets with
           | None => ([], 0)
           | Some r => (unquoteTXT <$> gcr_Rrdatas r, gcr_TTL r)
           end)).

(** src/internal/dns01/gcp.go:488-497, quoteTXTAll *)
Definition quoteTXTAll (values : list gostring) : list gostring := quoteTXT <$> values.
(** Empty members are left out.

    src/internal/dns01/gcp.go:750-753, gcpChange *)
Definition gcpChange (additions deletions : list gcpRRSet) : jvalue :=
  let member k rs := match rs with [] => [] | _ => [(go k, VArr (gcpRRSet_json <$> rs))] end in
  VObj (member "additions"%string additions ++ member "deletions"%string deletions).

(** src/internal/dns01/gcp.go:459-486, gcpProvider.changeRecords *)
Definition gcp_changeRecords (p : gcpProvider) (token : gostring) (zone : gcpZone) (fqdn : gostring) (ttl : Z) (existing desired : list gostring) : client (result unit) :=
  let set values := match values with [] => [] | _ => [MkGCPRRSet fqdn (go "TXT") ttl (quoteTXTAll values)] end in
  if bool_decide (set existing = []) && bool_decide (set desired = []) then Ret (Ok tt) else
  gcp_do token POST (go "/projects/" ++ gc_projectID p ++ go "/managedZones/" ++ gcz_name zone ++ go "/changes") (Some (print (gcpChange (set desired) (set existing)))) no_out.

(** src/internal/dns01/gcp.go:303-337, gcpProvider.removeValue *)
Definition gcp_removeValue (p : gcpProvider) (zone : gcpZone) (fqdn value : gostring) : CleanupFunc :=
  let! token := gcp_accessToken p in
  let! current := on_err (λ e, errorf "read txt record for cleanup" [ErrGCPAPI; e]) (gcp_currentTXT p token zone fqdn) in
  let '(existing, ttl) := current in
  if negb (bool_decide (value ∈ existing)) then Ret (Ok tt) else
  let ttl := if ttl <=? 0 then gcpChallengeTTL else ttl in
  on_err (λ e, errorf "remove txt value" [ErrGCPAPI; e]) (gcp_changeRecords p token zone fqdn ttl existing (without value existing)).

(** src/internal/dns01/gcp.go:255-301, gcpProvider.Present *)
Definition gcp_Present (p : gcpProvider) (rec : DNSRecord) : client (option CleanupFunc * option goerror) :=
  need! token := gcp_accessToken p in
  need! zone := gcp_managedZone p token (rec_Name rec) in
  let fqdn := rec_Name rec ++ [DOT] in
  need! current := gcp_currentTXT p token zone fqdn in
  let '(existing, ttl) := current in
  let ttl := if ttl <=? 0 then gcpChallengeTTL else ttl in
  published (gcp_removeValue p zone fqdn (rec_Value rec))
    (on_err (λ e, errorf "publish txt value" [ErrGCPAPI; e]) (gcp_changeRecords p token zone fqdn ttl existing (with_value (rec_Value rec) existing))).

(** src/internal/dns01/gcp.go:195-238, NewGCP *)
Definition NewGCP (creds : Credentials) : result DNSProvider :=
  credential ← single_token ErrGCPAPI creds;
  sa ← parseServiceAccount credential;
  Ok (MkDNSProvider (go "gcp") (gcp_Present (MkGCP credential (gca_projectID sa)))).
End sets.

(** ** What is asked of the remote APIs *)

(** An API with one object per name and type: how it is addressed, what it holds, and what
    the provider makes of the values to add or to remove one. *)
Record set_api := MkSetApi {
  sa_base : gostring;
  sa_auth : http_req → Prop;
  sa_zone : DNSRecord → gostring → Prop;
  sa_url : gostring → gostring → gostring → Prop;
  sa_relative : gostring → gostring → result gostring;
  sa_decode : bytes → option (list gostring);
  sa_body : Z → list gostring → jvalue;
  sa_has : gostring → list gostring → bool;
  sa_add : gostring → list gostring → list gostring;
  sa_remove : gostring → list gostring → list gostring;
}.

(** The answer just before, to a question about this object, has these values, or says that
    there is no such object. *)
Definition set_seen (a : set_api) (url : gostring) (existing : list gostring) (h : list (event api)) : Prop := ∃ asked resp raw limit h',
  h = MkEvent _ (Send asked) (Some resp) :: h' ∧ q_Method asked = GET ∧ q_URL asked = url ∧ read_limited limit resp = Ok raw ∧
  (p_StatusCode resp = 404 ∧ existing = [] ∨ 200 ≤ p_StatusCode resp < 300 ∧ sa_decode a raw = Some existing).

(** The requests of a challenge: those for a token; questions; and changes of the challenge's
    own object, written from the values just read: all of them and the challenge's value, all
    of them without it, or no object at all when nothing is left. *)
Definition set_request (a : set_api) (rec : DNSRecord) (h : list (event api)) (q : http_req) : Prop :=
  sa_auth a q ∨ under (sa_base a) q ∧
  (q_Method q = GET ∨
   ∃ zone relative existing, sa_zone a rec zone ∧ sa_relative a (rec_Name rec) zone = Ok relative ∧ sa_url a zone relative (q_URL q) ∧ set_seen a (q_URL q) existing h ∧
     (q_Method q = PUT ∧ (∃ ttl, q_Body q = Some (print (sa_body a ttl (sa_add a (rec_Value rec) existing)))) ∨
      sa_has a (rec_Value rec) existing = true ∧
      (q_Method q = PUT ∧ sa_remove a (rec_Value rec) existing ≠ [] ∧ (∃ ttl, q_Body q = Some (print (sa_body a ttl (sa_remove a (rec_Value rec) existing)))) ∨
       q_Method q = DELETE ∧ sa_remove a (rec_Value rec) existing = []))).

(** A challenge that only makes such requests, and whose cleanup does. *)
Definition careful (P : list (event api) → http_req → Prop) (m : client (option CleanupFunc * option goerror)) : Prop :=
  ∀ h, spec (sends P) (λ _ r, ∀ cleanup, r.1 = Some cleanup → ∀ h', spec (sends P) (λ _ _, True) h' cleanup) h m.

Section requests.
Context {UC : UnicodeCase}.

Definition gandi_remove (value : gostring) (existing : list gostring) : list gostring :=
  match indexOfTXT existing value with Some idx => delete idx existing | None => existing end.
Definition gandi_add (value : gostring) (existing : list gostring) : list gostring :=
  match indexOfTXT existing value with Some _ => existing | None => existing ++ [value] end.
Definition gandi_api : set_api :=
  MkSetApi gandiAPIBase (λ _, False) (λ rec zone, walked (rec_Name rec) zone) (λ zone relative url, url = gandiAPIBase ++ gandiRRSetPath zone relative) gandiRecordName
    (λ raw, grr_Values <$> Unmarshal into_gandiRRSet raw (MkGandiRRSet 0 [])) (λ ttl values, gandiRRSet_json (MkGandiRRSet ttl values))
    (λ value existing, bool_decide (is_Some (indexOfTXT existing value))) gandi_add gandi_remove.

Definition godaddy_api : set_api :=
  MkSetApi godaddyAPIBase (λ _, False) (λ rec zone, walked (rec_Name rec) zone) (λ zone relative url, url = godaddyAPIBase ++ godaddyRecordPath zone relative) godaddyRecordName
    (λ raw, (λ rs, (godaddy_set rs).1) <$> Unmarshal into_godaddyRecords raw []) (λ ttl values, VArr ((λ v, godaddyRecord_json (MkGoDaddyRecord v ttl)) <$> values))
    (λ value existing, bool_decide (value ∈ existing)) with_value without.

(** A token is asked for at the login service, with the client's own secret. *)
Definition azure_auth (p : azureProvider) (q : http_req) : Prop :=
  q_Method q = POST ∧ q_URL q = azureLoginBase ++ go "/" ++ PathEscape (trim_space (az_tenantID p)) ++ go "/oauth2/v2.0/token".
(** The only zone of the subscription with a name above the record's, as it spells it. *)
Definition azure_zone (rec : DNSRecord) (zone : gostring) : Prop :=
  validDomainName zone = true ∧ ∃ name, walked (rec_Name rec) name ∧ EqualFold (trim_suffix [DOT] zone) name = true.
Definition azure_api (p : azureProvider) : set_api :=
  MkSetApi azureManagementBase (azure_auth p) azure_zone
    (λ zone relative url, ∃ group, validResourceGroup group = true ∧ url = azure_recordSetURL p group zone relative) azureRecordName
    (λ raw, (λ props, azureTXTContent <$> azp_TXTRecords props) <$> Unmarshal into_azureRecordSet raw (MkAzureProps 0 []))
    (λ ttl values, azureRecordSet_json (MkAzureProps ttl ((λ v, [v]) <$> values))) (λ value existing, bool_decide (value ∈ existing)) with_value without.

Lemma message_error_not raw : errors_is (message_error raw) errGandiNotFound = false.
Proof. unfold message_error. by destruct (Unmarshal _ _ _) as [[|]|]. Qed.

Ltac not_call := repeat (constructor; [reflexivity|]); constructor.

(** *** Gandi *)

Lemma gandi_currentTXT_spec p rec h domain relative :
  spec (sends (set_request gandi_api rec)) (λ h r, match r with Ok (existing, _) => set_seen gandi_api (gandiAPIBase ++ gandiRRSetPath domain relative) existing h | Err _ => True end) h
    (gandi_currentTXT p domain relative).
Proof.
  eapply spec_bind with (R := λ h r, match r with
    | Ok s => set_seen gandi_api (gandiAPIBase ++ gandiRRSetPath domain relative) (grr_Values s) h
    | Err e => errors_is e errGandiNotFound = true → set_seen gandi_api (gandiAPIBase ++ gandiRRSetPath domain relative) [] h end).
  - apply call_found_spec; [apply _|right; split; [at_base|by left]|not_call|apply message_error_not|congruence| |].
    + intros resp raw Hs Hraw _. eexists _, resp, raw, _, _. do 4 (split; [done|]). by left.
    + intros resp raw s Hs Hraw Hd. eexists _, resp, raw, _, _. do 4 (split; [done|]). right. split; [done|]. cbn [sa_decode gandi_api]. by rewrite Hd.
  - intros h' [s|e] Hseen; cbn [spec]; [done|]. destruct (errors_is e _); [by apply Hseen|done].
Qed.

Lemma gandi_domainFor_spec p rec h :
  spec (sends (set_request gandi_api rec)) (λ _ r, match r with Ok d => walked (rec_Name rec) d | Err _ => True end) h (gandi_domainFor p (rec_Name rec)).
Proof.
  apply walk_zones_spec; [|done]. intros h' zone Hz. destruct (validDomainName zone); cbn [negb]; [|done]. apply lookup_spec with (name := zone); [apply _|done| |].
  - right. split; [at_base|by left].
  - intros [a|e] d; [by destruct (EqualFold _ _); intros [= <-]|by destruct (errors_is _ _)].
Qed.

Lemma gandi_removeValue_spec p rec domain relative h : walked (rec_Name rec) domain → gandiRecordName (rec_Name rec) domain = Ok relative →
  spec (sends (set_request gandi_api rec)) (λ _ _, True) h (gandi_removeValue p domain relative (rec_Value rec)).
Proof.
  intros Hw Hrel. eapply spec_bind_ok with (R := λ h r, set_seen gandi_api (gandiAPIBase ++ gandiRRSetPath domain relative) r.1 h).
  { apply spec_on_err. eapply spec_mono; [done| |apply gandi_currentTXT_spec]. by intros ? [[]|]. }
  intros h1 [existing ttl] Hseen. cbn [fst] in Hseen. destruct (indexOfTXT existing (rec_Value rec)) as [idx|] eqn:Ei; [|done].
  assert (gandi_remove (rec_Value rec) existing = delete idx existing) as Er by (unfold gandi_remove; by rewrite Ei).
  assert (sa_has gandi_api (rec_Value rec) existing = true) as Hhas by (apply bool_decide_eq_true_2; by rewrite Ei).
  cbv beta zeta iota. case_bool_decide as Hne.
  - apply spec_on_err, delete_spec; [apply _|]. right. split; [at_base|]. right. exists domain, relative, existing. do 4 (split; [done|]). right. split; [done|]. right. by rewrite <- Er in Hne.
  - apply spec_on_err. apply call_spec; [apply _| |done|done]. right. split; [at_base|]. right. exists domain, relative, existing. do 4 (split; [done|]). right. split; [done|]. left.
    split; [done|]. cbn [sa_remove gandi_api]. rewrite Er. split; [done|by eexists].
Qed.

Lemma gandi_Present_careful p rec : careful (set_request gandi_api rec) (gandi_Present p rec).
Proof.
  intros h. eapply need_spec; [eapply spec_mono; [done| |apply gandi_domainFor_spec]|].
  { intros h' [d|e] Hd; [exact Hd|done]. }
  intros h1 domain Hd. destruct (gandiRecordName (rec_Name rec) domain) as [relative|e] eqn:Hrel; cbn [need bind spec]; [|done].
  eapply need_spec with (R := λ h r, set_seen gandi_api (gandiAPIBase ++ gandiRRSetPath domain relative) r.1 h).
  { eapply spec_mono; [done| |apply gandi_currentTXT_spec]. by intros ? [[]|]. }
  intros h2 [existing ttl] Hseen. cbn [fst] in Hseen. apply publish_spec; [|by intros h'; apply gandi_removeValue_spec].
  apply spec_on_err. apply call_spec; [apply _| |done|done]. right. split; [at_base|]. right. exists domain, relative, existing. do 4 (split; [done|]). left. split; [done|]. by eexists.
Qed.
(** *** GoDaddy *)

Lemma godaddy_do_spec {A} P (Q : list (event api) → result A → Prop) p h method path body (decode : bytes → option A) :
  (∀ header, P h (MkReq method (godaddyAPIBase ++ path) header body)) → (∀ h' e, errors_is e errGoDaddyNotFound = false → Q h' (Err e)) →
  (∀ header resp raw, p_StatusCode resp = 404 → read_limited godaddyMaxBody resp = Ok raw →
     Q (MkEvent _ (Send (MkReq method (godaddyAPIBase ++ path) header body)) (Some resp) :: h) (Err errGoDaddyNotFound)) →
  (∀ header resp raw a, 200 ≤ p_StatusCode resp < 300 → read_limited godaddyMaxBody resp = Ok raw → decode raw = Some a →
     Q (MkEvent _ (Send (MkReq method (godaddyAPIBase ++ path) header body)) (Some resp) :: h) (Ok a)) →
  spec (sends P) Q h (godaddy_do p method path body decode).
Proof.
  intros Hp He H404 Hok. unfold godaddy_do. destruct (url_ok _); cbn [negb]; [|by apply He].
  destruct (splitGoDaddyCredential (gy_credential p)) as [[key secret]|e] eqn:Es.
  - apply call_found_spec; [apply _|apply Hp|not_call| |done|by intros; eapply H404|by intros; eapply Hok].
    intros raw. unfold godaddyError. by destruct (Unmarshal _ _ _) as [[[|] [|]]|].
  - apply He. unfold splitGoDaddyCredential, split_pair in Es. destruct (cut _ _) as [[? ?] ?]. by destruct (_ || _); [injection Es as <-|].
Qed.

Lemma godaddy_currentTXT_spec p rec h domain relative :
  spec (sends (set_request godaddy_api rec)) (λ h r, match r with Ok (existing, _) => set_seen godaddy_api (godaddyAPIBase ++ godaddyRecordPath domain relative) existing h | Err _ => True end) h
    (godaddy_currentTXT p domain relative).
Proof.
  eapply spec_bind with (R := λ h r, match r with
    | Ok rs => set_seen godaddy_api (godaddyAPIBase ++ godaddyRecordPath domain relative) (godaddy_set rs).1 h
    | Err e => errors_is e errGoDaddyNotFound = true → set_seen godaddy_api (godaddyAPIBase ++ godaddyRecordPath domain relative) [] h end).
  - apply godaddy_do_spec; [right; split; [at_base|by left]|congruence| |].
    + intros header resp raw Hs Hraw _. eexists _, resp, raw, _, _. do 4 (split; [done|]). by left.
    + intros header resp raw s Hs Hraw Hd. eexists _, resp, raw, _, _. do 4 (split; [done|]). right. split; [done|]. cbn [sa_decode godaddy_api]. by rewrite Hd.
  - intros h' [s|e] Hseen; cbn [spec]; [done|]. destruct (errors_is e _); [by apply Hseen|done].
Qed.

Lemma godaddy_domainFor_spec p rec h :
  spec (sends (set_request godaddy_api rec)) (λ _ r, match r with Ok d => walked (rec_Name rec) d | Err _ => True end) h (godaddy_domainFor p (rec_Name rec)).
Proof.
  apply walk_zones_spec; [|done]. intros h' zone Hz. destruct (validDomainName zone); cbn [negb]; [|done].
  eapply spec_bind; [apply godaddy_do_spec with (Q := λ _ _, True); [|done|done|done]|]; [right; split; [at_base|by left]|].
  intros h2 [a|e] _; cbn [spec]; [by destruct (EqualFold _ _)|by destruct (errors_is _ _)].
Qed.

Lemma godaddy_removeValue_spec p rec domain relative h : walked (rec_Name rec) domain → godaddyRecordName (rec_Name rec) domain = Ok relative →
  spec (sends (set_request godaddy_api rec)) (λ _ _, True) h (godaddy_removeValue p domain relative (rec_Value rec)).
Proof.
  intros Hw Hrel. eapply spec_bind_ok with (R := λ h r, set_seen godaddy_api (godaddyAPIBase ++ godaddyRecordPath domain relative) r.1 h).
  { apply spec_on_err. eapply spec_mono; [done| |apply godaddy_currentTXT_spec]. by intros ? [[]|]. }
  intros h1 [existing ttl] Hseen. cbn [fst] in Hseen. cbv beta zeta iota. destruct (bool_decide (rec_Value rec ∈ existing)) eqn:Hin; cbn [negb]; [|done].
  destruct (bool_decide (without _ _ = _)) eqn:Hne; [apply bool_decide_eq_true in Hne|apply bool_decide_eq_false in Hne].
  - apply spec_on_err. eapply spec_bind; [apply godaddy_do_spec with (Q := λ _ _, True); [|done|done|done]|done]. intros header.
    right. split; [at_base|]. right. exists domain, relative, existing. do 4 (split; [done|]). right. split; [done|]. by right.
  - apply spec_on_err. apply godaddy_do_spec; [|done|done|done]. intros header. right. split; [at_base|]. right. exists domain, relative, existing. do 4 (split; [done|]).
    right. split; [done|]. left. do 2 (split; [done|]). by eexists.
Qed.

Lemma godaddy_Present_careful p rec : careful (set_request godaddy_api rec) (godaddy_Present p rec).
Proof.
  intros h. eapply need_spec; [eapply spec_mono; [done| |apply godaddy_domainFor_spec]|].
  { intros h' [d|e] Hd; [exact Hd|done]. }
  intros h1 domain Hd. destruct (godaddyRecordName (rec_Name rec) domain) as [relative|e] eqn:Hrel; cbn [need bind spec]; [|done].
  eapply need_spec with (R := λ h r, set_seen godaddy_api (godaddyAPIBase ++ godaddyRecordPath domain relative) r.1 h).
  { eapply spec_mono; [done| |apply godaddy_currentTXT_spec]. by intros ? [[]|]. }
  intros h2 [existing ttl] Hseen. cbn [fst] in Hseen. apply publish_spec; [|by intros h'; apply godaddy_removeValue_spec].
  apply spec_on_err. apply godaddy_do_spec; [|done|done|done]. intros header. right. split; [at_base|]. right. exists domain, relative, existing. do 4 (split; [done|]). left. split; [done|]. by eexists.
Qed.

(** *** Azure *)

Lemma token_request_spec P c `{!Refuses c} api url form limit reject missing h :
  (∀ header body, P h (MkReq POST url header body)) → spec (sends P) (λ _ _, True) h (token_request c api url form limit reject missing).
Proof.
  intros Hp. eapply spec_bind_ok with (R := λ _ _, True).
  - apply spec_on_err, send_spec; [apply _|apply Hp|done|done].
  - by intros h' [status raw] _.
Qed.

Lemma has_prefix_split p s : has_prefix p s = true → ∃ t, s = p ++ t.
Proof.
  revert s. induction p as [|a p IH]; intros s H; [by exists s|]. destruct s as [|b s]; [done|]. cbn [has_prefix] in H. reflect_bools. subst b.
  destruct (IH s) as [t ->]; [done|]. by exists t.
Qed.

Lemma azure_pages_spec p rec n next token zones h : under azureManagementBase (MkReq GET next [] None) →
  spec (sends (set_request (azure_api p) rec)) (λ _ _, True) h (azure_pages n next token zones).
Proof.
  revert next zones h. induction n as [|n IH]; intros next zones h Hu; cbn [azure_pages]; [done|].
  eapply spec_bind_ok with (R := λ _ _, True).
  - apply spec_on_err, call_spec; [apply _| |done|done]. right. split; [exact Hu|by left].
  - intros h' [value nextLink] _. case_bool_decide; [done|]. destruct (has_prefix _ nextLink) eqn:Hp; cbn [negb]; [|done]. apply IH.
    apply has_prefix_split in Hp as [t ->]. exists (go "/" ++ t). split; [cbn [q_URL]; by rewrite <- app_assoc|done].
Qed.

Lemma azure_zoneFor_spec p rec token h :
  spec (sends (set_request (azure_api p) rec)) (λ _ r, match r with Ok m => azure_zone rec (azz_name m) ∧ validResourceGroup (azz_resourceGroup m) = true | Err _ => True end) h
    (azure_zoneFor p token (rec_Name rec)).
Proof.
  eapply spec_bind_ok with (R := λ _ _, True).
  - eapply spec_mono; [done| |apply azure_pages_spec]; [by intros ? []|]. eexists. split; [cbn [q_URL]; unfold azure_subscriptionPath; by rewrite <- !app_assoc|done].
  - intros h1 zones _. apply walk_zones_spec; [|done]. intros h2 name Hw. cbn [spec].
    destruct (filter _ zones) as [|m [|m' ms]] eqn:Ef; [done| |done].
    destruct (validDomainName (azz_name m)) eqn:Hv; cbn [negb]; [|done]. destruct (validResourceGroup _) eqn:Hg; cbn [negb]; [|done].
    split; [|done]. split; [done|]. exists name. split; [done|].
    assert (m ∈ filter (λ z, EqualFold (trim_suffix [DOT] (azz_name z)) name = true) zones) as Hin by (rewrite Ef; left). by apply list_elem_of_filter in Hin as [? _].
Qed.

Section azure.
Context (p : azureProvider) (rec : DNSRecord) (group zone relative : gostring).
Context (Hg : validResourceGroup group = true) (Hz : azure_zone rec zone) (Hrel : azureRecordName (rec_Name rec) zone = Ok relative).
Local Abbreviation url := (azure_recordSetURL p group zone relative).

Lemma azure_under header body method : under azureManagementBase (MkReq method url header body).
Proof using. clear. eexists. split; [cbn [q_URL]; unfold azure_recordSetURL, azure_subscriptionPath; by rewrite <- !app_assoc|done]. Qed.

Lemma azure_currentTXT_spec token h :
  spec (sends (set_request (azure_api p) rec)) (λ h r, match r with Ok (existing, _) => set_seen (azure_api p) url existing h | Err _ => True end) h (azure_currentTXT p token group zone relative).
Proof using.
  clear. eapply spec_bind with (R := λ h r, match r with
    | Ok props => set_seen (azure_api p) url (azureTXTContent <$> azp_TXTRecords props) h
    | Err e => errors_is e errAzureNotFound = true → set_seen (azure_api p) url [] h end).
  - apply call_found_spec; [apply _|right; split; [apply azure_under|by left]|not_call| |congruence| |].
    + intros raw. unfold azureError. by destruct (Unmarshal _ _ _) as [[[|] ?]|].
    + intros resp raw Hs Hraw _. eexists _, resp, raw, _, _. do 4 (split; [done|]). by left.
    + intros resp raw s Hs Hraw Hd. eexists _, resp, raw, _, _. do 4 (split; [done|]). right. split; [done|]. cbn [sa_decode azure_api]. by rewrite Hd.
  - intros h' [s|e] Hseen; cbn [spec]; [done|]. destruct (errors_is e _); [by apply Hseen|done].
Qed.

Lemma azure_removeValue_spec h : spec (sends (set_request (azure_api p) rec)) (λ _ _, True) h (azure_removeValue p group zone relative (rec_Value rec)).
Proof.
  eapply spec_bind_ok with (R := λ _ _, True).
  { apply spec_on_err. eapply spec_mono; [done| |apply token_request_spec; [apply _|]]; [by intros ? []|]. intros header body. by left. }
  intros h0 token _. eapply spec_bind_ok with (R := λ h r, set_seen (azure_api p) url r.1 h).
  { apply spec_on_err. eapply spec_mono; [done| |apply azure_currentTXT_spec]. by intros ? [[]|]. }
  intros h1 [existing ttl] Hseen. cbn [fst] in Hseen. cbv beta zeta iota. destruct (bool_decide (rec_Value rec ∈ existing)) eqn:Hin; cbn [negb]; [|done].
  destruct (bool_decide (without _ _ = _)) eqn:Hne; [apply bool_decide_eq_true in Hne|apply bool_decide_eq_false in Hne].
  - apply spec_on_err. apply delete_spec; [apply _|]. right. split; [apply azure_under|]. right. exists zone, relative, existing. do 2 (split; [done|]).
    split; [by eexists|]. split; [done|]. right. split; [done|]. by right.
  - apply spec_on_err. apply call_spec; [apply _| |done|done]. right. split; [apply azure_under|]. right. exists zone, relative, existing. do 2 (split; [done|]).
    split; [by eexists|]. split; [done|]. right. split; [done|]. left. do 2 (split; [done|]). by eexists.
Qed.
End azure.

Lemma azure_Present_careful p rec : careful (set_request (azure_api p) rec) (azure_Present p rec).
Proof.
  intros h. eapply need_spec with (R := λ _ _, True).
  { eapply spec_mono; [done| |apply token_request_spec; [apply _|]]; [by intros ? []|]. intros header body. by left. }
  intros h0 token _. eapply need_spec; [eapply spec_mono; [done| |apply azure_zoneFor_spec]|].
  { intros h' [d|e] Hd; [exact Hd|done]. }
  intros h1 [zone group] [Hz Hg]. cbn [azz_name azz_resourceGroup] in *. cbv zeta iota.
  destruct (azureRecordName (rec_Name rec) zone) as [relative|e] eqn:Hrel; cbn [need bind spec]; [|done].
  eapply need_spec with (R := λ h r, set_seen (azure_api p) (azure_recordSetURL p group zone relative) r.1 h).
  { eapply spec_mono; [done| |apply azure_currentTXT_spec]. by intros ? [[]|]. }
  intros h2 [existing ttl] Hseen. cbn [fst] in Hseen. apply publish_spec; [|by intros h'; apply azure_removeValue_spec].
  apply spec_on_err. apply call_spec; [apply _| |done|done]. right. split; [apply azure_under|]. right. exists zone, relative, existing. do 2 (split; [done|]).
  split; [by eexists|]. split; [done|]. left. split; [done|]. by eexists.
Qed.
End requests.

(** *** Google Cloud DNS *)

Section gcp.
Context {UC : UnicodeCase} {rsa_key : Type} (pem_Decode : bytes → option bytes) (ParsePKCS8 : bytes → option (option rsa_key)) (SignPKCS1v15 : rsa_key → bytes → result bytes).
Context (p : gcpProvider) (rec : DNSRecord).

Local Abbreviation fqdn := (rec_Name rec ++ [DOT]).
Local Abbreviation zone_path zone := (gcpDNSAPIBase ++ go "/projects/" ++ gc_projectID p ++ go "/managedZones/" ++ gcz_name zone).

Definition gcp_zone_ok (zone : gcpZone) : Prop := validGCPZoneName (gcz_name zone) = true ∧ ∃ name, walked (rec_Name rec) name ∧ EqualFold (trim_suffix [DOT] (gcz_dnsName zone)) name = true.

(** The TXT set of the name in a listing. *)
Definition gcp_set (rrsets : list gcpRRSet) : list gostring * Z :=
  match List.find (λ r, EqualFold (gcr_Name r) fqdn && bool_decide (gcr_Type r = go "TXT")) rrsets with
  | None => ([], 0)
  | Some r => (unquoteTXT <$> gcr_Rrdatas r, gcr_TTL r)
  end.

Definition gcp_seen (zone : gcpZone) (existing : list gostring) (h : list (event api)) : Prop := ∃ asked resp raw rrsets h',
  h = MkEvent _ (Send asked) (Some resp) :: h' ∧ q_Method asked = GET ∧ q_URL asked = zone_path zone ++ go "/rrsets?" ++ Encode [(go "name", fqdn); (go "type", go "TXT")] ∧
  read_limited gcpMaxBody resp = Ok raw ∧ Unmarshal into_gcpRRSets raw [] = Some rrsets ∧ existing = (gcp_set rrsets).1.

Definition gcp_set_of (ttl : Z) (values : list gostring) : list gcpRRSet :=
  match values with [] => [] | _ => [MkGCPRRSet fqdn (go "TXT") ttl (quoteTXTAll values)] end.

(** Tokens at the token endpoint; questions; and a change of the name's TXT set, which takes
    away the values just read and puts back the same with the challenge's, or without it. *)
Definition gcp_request (h : list (event api)) (q : http_req) : Prop :=
  (q_Method q = POST ∧ q_URL q = gcpTokenEndpoint) ∨ under gcpDNSAPIBase q ∧
  (q_Method q = GET ∨
   q_Method q = POST ∧ ∃ zone ttl existing desired, gcp_zone_ok zone ∧ gcp_seen zone existing h ∧ q_URL q = zone_path zone ++ go "/changes" ∧
     (desired = with_value (rec_Value rec) existing ∨ rec_Value rec ∈ existing ∧ desired = without (rec_Value rec) existing) ∧
     q_Body q = Some (print (gcpChange (gcp_set_of ttl desired) (gcp_set_of ttl existing)))).

Lemma gcp_do_spec {A} P (Q : list (event api) → result A → Prop) token h method path body (decode : bytes → option A) :
  (∀ header, P h (MkReq method (gcpDNSAPIBase ++ path) header body)) → (∀ h e, Q h (Err e)) →
  (∀ header resp raw a, read_limited gcpMaxBody resp = Ok raw → decode raw = Some a →
     Q (MkEvent _ (Send (MkReq method (gcpDNSAPIBase ++ path) header body)) (Some resp) :: h) (Ok a)) →
  spec (sends P) Q h (gcp_do token method path body decode).
Proof using.
  clear. intros Hp He Hok. eapply spec_bind_ok with (R := λ h' r, ∃ header resp, h' = MkEvent _ (Send (MkReq method (gcpDNSAPIBase ++ path) header body)) (Some resp) :: h ∧
    read_limited gcpMaxBody resp = Ok r.2).
  - apply send_spec; [apply _|apply Hp|by intros; apply He|]. intros resp raw Hraw. by eexists _, resp.
  - intros h' [status raw] (header & resp & -> & Hraw). cbn [spec snd] in *. destruct (_ || _); [apply He|]. destruct (decode raw) as [a|] eqn:Ea; [|apply He]. by eapply Hok.
Qed.

Lemma gcp_public_ok name zs zones : gcp_public name zs = Ok zones → Forall (λ z, validGCPZoneName (gcz_name z) = true ∧ EqualFold (trim_suffix [DOT] (gcz_dnsName z)) name = true) zones.
Proof using.
  clear. revert zones. induction zs as [|[[n d] v] zs IH]; intros zones; cbn [gcp_public]; [by intros [= <-]|].
  destruct (EqualFold (trim_suffix [DOT] d) name) eqn:Ef; cbn [negb orb]; [|apply IH]. destruct (negb (EqualFold v _)); [apply IH|].
  destruct (validGCPZoneName n) eqn:Ev; cbn [negb]; [|done]. destruct (gcp_public name zs) as [rest|] eqn:Er; [|done]. intros [= <-]. apply Forall_cons. split; [done|by apply IH].
Qed.

Lemma gcp_accessToken_spec h : spec (sends gcp_request) (λ _ _, True) h (gcp_accessToken pem_Decode ParsePKCS8 SignPKCS1v15 p).
Proof.
  unfold gcp_accessToken. destruct (parseServiceAccount _ _ _) as [sa|e]; [|done]. cbn [ask bind spec]. split; [done|]. intros now.
  destruct (gcp_signJWT _ _ _) as [assertion|e]; [|done]. apply token_request_spec; [apply _|]. intros header body. by left.
Qed.

Lemma gcp_managedZone_spec token h : spec (sends gcp_request) (λ _ r, match r with Ok z => gcp_zone_ok z | Err _ => True end) h (gcp_managedZone p token (rec_Name rec)).
Proof.
  apply walk_zones_spec; [|done]. intros h1 name Hw. destruct (validDomainName name); cbn [negb]; [|done].
  eapply spec_bind with (R := λ _ r, ∃ zs, r = gcp_public name zs ∨ ∃ e, r = Err e).
  - eapply spec_bind_ok with (R := λ _ _, True).
    + apply spec_on_err, gcp_do_spec; [intros header; right; split; [at_base|by left]| |done]. intros _ e. exists []. right. by eexists.
    + intros h2 zs _. exists zs. by left.
  - intros h2 r [zs Hr]. cbn [spec]. destruct r as [[|z [|z' zs']]|e]; [done| |done|done]. destruct Hr as [Hr|[e Hr]]; [|done].
    symmetry in Hr. apply gcp_public_ok, Forall_inv in Hr as [Hv Hf]. split; [done|]. by exists name.
Qed.

Lemma gcp_currentTXT_spec token zone h : spec (sends gcp_request) (λ h r, match r with Ok (existing, _) => gcp_seen zone existing h | Err _ => True end) h (gcp_currentTXT p token zone fqdn).
Proof.
  eapply spec_bind_ok with (R := λ h rrsets, gcp_seen zone (gcp_set rrsets).1 h).
  - apply spec_on_err, gcp_do_spec; [intros header; right; split; [at_base|by left]|done|]. intros header resp raw rrsets Hraw Hd.
    eexists _, resp, raw, rrsets, h. do 2 (split; [done|]). split; [cbn [q_URL]; by rewrite <- !app_assoc|done].
  - intros h' rrsets Hs. cbn [spec]. fold (gcp_set rrsets). by destruct (gcp_set rrsets).
Qed.

Lemma gcp_changeRecords_spec token zone ttl existing desired h : gcp_zone_ok zone → gcp_seen zone existing h →
  (desired = with_value (rec_Value rec) existing ∨ rec_Value rec ∈ existing ∧ desired = without (rec_Value rec) existing) →
  spec (sends gcp_request) (λ _ _, True) h (gcp_changeRecords p token zone fqdn ttl existing desired).
Proof.
  intros Hz Hs Hd. unfold gcp_changeRecords. destruct (_ && _); [done|]. apply gcp_do_spec; [|done|done]. intros header. right. split; [at_base|]. right.
  split; [done|]. exists zone, ttl, existing, desired. do 2 (split; [done|]). split; [cbn [q_URL]; by rewrite <- !app_assoc|]. done.
Qed.

Lemma gcp_removeValue_spec zone h : gcp_zone_ok zone →
  spec (sends gcp_request) (λ _ _, True) h (gcp_removeValue pem_Decode ParsePKCS8 SignPKCS1v15 p zone fqdn (rec_Value rec)).
Proof.
  intros Hz. eapply spec_bind_ok with (R := λ _ _, True); [eapply spec_mono; [done| |apply gcp_accessToken_spec]; by intros ? []|].
  intros h1 token _. eapply spec_bind_ok with (R := λ h r, gcp_seen zone r.1 h).
  { apply spec_on_err. eapply spec_mono; [done| |apply gcp_currentTXT_spec]. by intros ? [[]|]. }
  intros h2 [existing ttl] Hs. cbn [fst] in Hs. case_bool_decide as Hin; cbn [negb]; [|done]. apply spec_on_err, gcp_changeRecords_spec; [done|done|by right].
Qed.

Lemma gcp_Present_careful : careful gcp_request (gcp_Present pem_Decode ParsePKCS8 SignPKCS1v15 p rec).
Proof.
  intros h. eapply need_spec with (R := λ _ _, True); [eapply spec_mono; [done| |apply gcp_accessToken_spec]; by intros ? []|].
  intros h1 token _. eapply need_spec; [eapply spec_mono; [done| |apply gcp_managedZone_spec]|].
  { intros h' [d|e] Hd; [exact Hd|done]. }
  intros h2 zone Hz. eapply need_spec with (R := λ h r, gcp_seen zone r.1 h).
  { eapply spec_mono; [done| |apply gcp_currentTXT_spec]. by intros ? [[]|]. }
  intros h3 [existing ttl] Hs. cbn [fst] in Hs. apply publish_spec; [|by intros h'; apply gcp_removeValue_spec].
  apply spec_on_err, gcp_changeRecords_spec; [done|done|by left].
Qed.
End gcp.
