(* ===== verification/DnsXml.v ===== *)
(** * DNS providers with XML answers

    [internal/dns01]: Amazon Route 53 with the signature its requests carry, and Namecheap.
    How XML is read and written is a parameter. *)

From stdpp Require Import sorting.
From S2P Require Import Prelude GoLib RateLimit NetIP GoNum GoJson Sha256 Secrets Program Dns01 DnsRecords DnsSets.

Open Scope Z_scope.
Open Scope prog_scope.

(** ** Signature Version 4 *)

(** src/internal/dns01/awssigv4.go:47-55, sigV4Algorithm *)
Definition sigV4Algorithm : gostring := go "AWS4-HMAC-SHA256".
(** [t.UTC().Format("20060102")] and [t.UTC().Format("20060102T150405Z")] *)
Definition sigV4Date (t : time) : gostring := let '(y, m, d) := civil (time_unix t / 86400) in padded 4 y ++ padded 2 m ++ padded 2 d.
Definition sigV4Time (t : time) : gostring :=
  let s := time_unix t mod 86400 in sigV4Date t ++ go "T" ++ padded 2 (s / 3600) ++ padded 2 (s / 60 mod 60) ++ padded 2 (s mod 60) ++ go "Z".

(** src/internal/dns01/awssigv4.go:183-199, uriEncode *)
Definition uriEncode (s : gostring) : gostring := s ≫= λ c, if alnum c || mem_byte c (go "-_.~") then [c] else percent c.

(** [url.QueryUnescape] *)
Fixpoint query_unescape (s : gostring) : option gostring :=
  match s with
  | [] => Some []
  | c :: s' =>
      if bool_decide (c = PERCENT) then
        match s' with
        | h :: l :: s'' => h ← hexdigit h; l ← hexdigit l; (byte_of (16 * h + l) ::.) <$> query_unescape s''
        | _ => None
        end
      else ((if bool_decide (c = PLUS) then byte_of 32 else c) ::.) <$> query_unescape s'
  end.
(** [url.ParseQuery], which [URL.Query] calls: what does not parse is left out. *)
Definition ParseQuery (query : gostring) : list (gostring * gostring) :=
  omap (λ part, if bool_decide (part = []) || mem_byte (byte_of 59) part then None else
    let '(k, v, _) := cut EQUALS part in k ← query_unescape k; v ← query_unescape v; Some (k, v)) (split_byte AMP query).

Fixpoint bytes_leb (s t : bytes) : bool :=
  match s, t with
  | [], _ => true
  | _ :: _, [] => false
  | a :: s, b :: t => (byte_val a <? byte_val b) || (byte_val a =? byte_val b) && bytes_leb s t
  end.
Definition bytes_le (s t : bytes) : Prop := bytes_leb s t = true.
#[local] Instance bytes_le_dec : RelDecision bytes_le := λ s t, bool_eq_dec (bytes_leb s t) true.

(** The values of each key, and then all pairs, are sorted; that is the pairs, sorted.

    src/internal/dns01/awssigv4.go:164-181, canonicalQuery *)
Definition canonicalQuery (query : gostring) : gostring :=
  join AMP (merge_sort bytes_le ((λ kv, uriEncode kv.1 ++ EQUALS :: uriEncode kv.2) <$> ParseQuery query)).
(** Of a path of bytes that need no escape, which [EscapedPath] returns as it is.

    src/internal/dns01/awssigv4.go:146-162, canonicalURI *)
Definition canonicalURI (path : gostring) : gostring := if bool_decide (path = []) then [SLASH] else path.

(** src/internal/dns01/awssigv4.go:135-139, hmacSHA256 *)
Definition hmacSHA256 (key data : bytes) : bytes := hmac_sha256 key data.
(** src/internal/dns01/awssigv4.go:141-144, sha256Hex *)
Definition sha256Hex (b : bytes) : gostring := hex_encode (sha256 b).
(** src/internal/dns01/awssigv4.go:123-133, signingKey *)
Definition signingKey (secret dateStamp region service : gostring) : bytes :=
  hmacSHA256 (hmacSHA256 (hmacSHA256 (hmacSHA256 (go "AWS4" ++ secret) dateStamp) region) service) (go "aws4_request").

Definition LF : ascii := byte_of 10.

(** What is signed: the method, the path, the query, the headers and the payload. *)
Definition canonicalRequest (method path query : gostring) (contentType : option gostring) (host amzDate : gostring) (payload : bytes) : gostring * gostring :=
  let signed := match contentType with Some _ => [go "content-type"; go "host"; go "x-amz-date"] | None => [go "host"; go "x-amz-date"] end in
  let headers := (match contentType with Some ct => go "content-type:" ++ ct ++ [LF] | None => [] end) ++ go "host:" ++ host ++ LF :: go "x-amz-date:" ++ amzDate ++ [LF] in
  let signedHeaders := join (byte_of 59) signed in
  (join LF [method; canonicalURI path; canonicalQuery query; headers; signedHeaders; sha256Hex payload], signedHeaders).

(** The two headers that are added.

    src/internal/dns01/awssigv4.go:57-121, signV4 *)
Definition signV4 (method host path query : gostring) (contentType : option gostring) (payload : bytes) (accessKeyID secretAccessKey region service : gostring) (now : time)
    : result (list (gostring * gostring)) :=
  if bool_decide (accessKeyID = []) || bool_decide (secretAccessKey = []) then Err (errorf "sigv4: empty credential" []) else
  let amzDate := sigV4Time now in
  let dateStamp := sigV4Date now in
  let '(request, signedHeaders) := canonicalRequest method path query contentType host amzDate payload in
  let credentialScope := join SLASH [dateStamp; region; service; go "aws4_request"] in
  let stringToSign := join LF [sigV4Algorithm; amzDate; credentialScope; sha256Hex request] in
  let signature := hex_encode (hmacSHA256 (signingKey secretAccessKey dateStamp region service) stringToSign) in
  Ok [(go "X-Amz-Date", amzDate);
      (go "Authorization", sigV4Algorithm ++ go " Credential=" ++ accessKeyID ++ go "/" ++ credentialScope ++ go ", SignedHeaders=" ++ signedHeaders ++ go ", Signature=" ++ signature)].

(** The published vector that the program's own test uses. *)
Example signV4_get_vanilla : signV4 GET (go "example.amazonaws.com") (go "/") [] None [] (go "AKIDEXAMPLE") (go "wJalrXUtnFEMI/K7MDENG+bPxRfiCYEXAMPLEKEY") (go "us-east-1") (go "service") (1440938160 * Second) =
  Ok [(go "X-Amz-Date", go "20150830T123600Z");
      (go "Authorization", go "AWS4-HMAC-SHA256 Credential=AKIDEXAMPLE/20150830/us-east-1/service/aws4_request, SignedHeaders=host;x-amz-date, Signature=5fa00fa31553b73ebf1942676e86291e8372ff2a2260956d9b8aae1d763fbf31")].
Proof. vm_compute. reflexivity. Qed.

Section xml.
Context {UC : UnicodeCase}.

(** ** Route 53 *)

(** src/internal/dns01/route53.go:19-48, route53Endpoint *)
Definition route53Endpoint : gostring := go "https://route53.amazonaws.com".
Definition route53Host : gostring := go "route53.amazonaws.com".
Definition route53APIPrefix : gostring := go "/2013-04-01".
Definition route53SigningRegion : gostring := go "us-east-1".
Definition route53Service : gostring := go "route53".
Definition route53ChallengeTTL : Z := 60.
Definition route53MaxBody : Z := 2 ^ 20.

(** src/internal/dns01/route53.go:50-52, ErrRoute53API *)
Definition ErrRoute53API : goerror := errors_new "dns01: route53 api".
(** src/internal/dns01/route53.go:54-66, ErrRoute53AmbiguousZone *)
Definition ErrRoute53AmbiguousZone : goerror := errors_new "dns01: route53 ambiguous hosted zone".

(** src/internal/dns01/route53.go:621-629, listHostedZonesByNameResponse *)
Record hostedZone := MkHostedZone { hz_ID : gostring; hz_Name : gostring; hz_PrivateZone : bool }.
(** src/internal/dns01/route53.go:631-640, listResourceRecordSetsResponse *)
Record resourceRecordSet := MkResourceRecordSet { rrs_Name : gostring; rrs_Type : gostring; rrs_TTL : Z; rrs_Values : list gostring }.
(** A batch of one change.

    src/internal/dns01/route53.go:649-673, changeResourceRecordSetsRequest *)
Record change := MkChange { ch_Comment : gostring; ch_Action : gostring; ch_RecordSet : resourceRecordSet }.

(** The bodies that [encoding/xml] reads and writes: zones, record sets, an error's code and
    message, and a change. *)
Context (xml_zones : bytes → option (list hostedZone)) (xml_rrsets : bytes → option (list resourceRecordSet))
        (xml_error : bytes → option (gostring * gostring)) (xml_change : change → result bytes).

(** src/internal/dns01/route53.go:68-130, route53Provider *)
Record route53Provider := MkRoute53 { r53_credential : Redacted }.

(** src/internal/dns01/route53.go:174-209, route53Credential *)
Definition route53Credential (creds : Credentials) : result Redacted := packed_pair ErrRoute53API creds "access_key_id" "secret_access_key".
(** src/internal/dns01/route53.go:211-226, splitAWSCredential *)
Definition splitAWSCredential (credential : Redacted) : result (gostring * gostring) := split_pair ErrRoute53API credential.

(** src/internal/dns01/route53.go:596-616, route53Error *)
Definition route53Error (raw : bytes) : goerror :=
  match xml_error raw with
  | None | Some ([], _) => errorf "request rejected" []
  | Some _ => errorf "request rejected (code)" []
  end.

(** Redirects are refused.

    src/internal/dns01/route53.go:159-169, NewRoute53 *)
Definition route53Client : http_client := MkClient UseLastResponse.
#[export] Instance route53_refuses : Refuses route53Client := eq_refl.

(** src/internal/dns01/route53.go:540-594, route53Provider.do *)
Definition route53_do {A} (p : route53Provider) (method path : gostring) (body : option bytes) (decode : bytes → option A) : client (result A) :=
  let url := route53Endpoint ++ path in
  if negb (url_ok url) then Ret (Err (errorf "build request" [errURL])) else
  let contentType := match body with Some _ => Some (go "application/xml") | None => None end in
  match splitAWSCredential (r53_credential p) with
  | Err e => Ret (Err e)
  | Ok (keyID, secret) =>
      try! now := ask Clock in
      let '(upath, query, _) := cut QMARK path in
      match signV4 method route53Host upath query contentType (default [] body) keyID secret route53SigningRegion route53Service now with
      | Err e => Ret (Err e)
      | Ok signed =>
          let! r := send route53Client method url ((match contentType with Some ct => [(go "Content-Type", ct)] | None => [] end) ++ signed) body route53MaxBody in
          Ret (let '(status, raw) := r in
               if (status <? 200) || (300 <=? status) then Err (route53Error raw) else
               match decode raw with Some a => Ok a | None => Err (errorf "unparseable response" []) end)
      end
  end.

(** src/internal/dns01/route53.go:419-433, validZoneID *)
Definition validZoneID (id : gostring) : bool := negb (bool_decide (id = []) || (64 <? Z.of_nat (length id))) && forallb alnum id.

Fixpoint route53_public (zoneName : gostring) (zs : list hostedZone) : result (list gostring) :=
  match zs with
  | [] => Ok []
  | z :: zs =>
      if negb (EqualFold (trim_suffix [DOT] (hz_Name z)) zoneName) || hz_PrivateZone z then route53_public zoneName zs else
      let id := default (hz_ID z) (cut_prefix (go "/hostedzone/") (hz_ID z)) in
      if negb (validZoneID id) then Err (errorf "malformed hosted zone id in response" [ErrRoute53API]) else
      rest ← route53_public zoneName zs; Ok (id :: rest)
  end.
(** src/internal/dns01/route53.go:382-417, route53Provider.publicZonesNamed *)
Definition route53_publicZonesNamed (p : route53Provider) (zoneName : gostring) : client (result (list gostring)) :=
  let! zs := on_err (λ e, errorf "look up hosted zone" [ErrRoute53API; e])
    (route53_do p GET (route53APIPrefix ++ go "/hostedzonesbyname?dnsname=" ++ uriEncode (zoneName ++ [DOT])) None xml_zones) in
  Ret (route53_public zoneName zs).

(** src/internal/dns01/route53.go:331-380, route53Provider.hostedZoneID *)
Definition route53_hostedZoneID (p : route53Provider) (recordName : gostring) : client (result gostring) :=
  walk_zones recordName (λ name,
    try! matches := route53_publicZonesNamed p name in
    Ret (match matches with
         | Err e => Some (Err e)
         | Ok [] => None
         | Ok [id] => Some (Ok id)
         | Ok _ => Some (Err (errorf "several public hosted zones" [ErrRoute53AmbiguousZone]))
         end))
  (errorf "no public hosted zone found" [ErrRoute53API]).

(** The TXT set of the name in a listing. *)
Definition route53_set (fqdn : gostring) (rrsets : list resourceRecordSet) : list gostring * Z :=
  match List.find (λ r, EqualFold (rrs_Name r) fqdn && bool_decide (rrs_Type r = go "TXT")) rrsets with
  | None => ([], 0)
  | Some r => (unquoteTXT <$> rrs_Values r, rrs_TTL r)
  end.
(** src/internal/dns01/route53.go:435-463, route53Provider.currentTXT *)
Definition route53_currentTXT (p : route53Provider) (zoneID fqdn : gostring) : client (result (list gostring * Z)) :=
  let path := route53APIPrefix ++ go "/hostedzone/" ++ zoneID ++ go "/rrset?name=" ++ uriEncode fqdn ++ go "&type=TXT&maxitems=1" in
  let! rrsets := on_err (λ e, errorf "list txt records" [ErrRoute53API; e]) (route53_do p GET path None xml_rrsets) in
  Ret (Ok (route53_set fqdn rrsets)).

Definition route53_change (action fqdn : gostring) (ttl : Z) (values : list gostring) : change :=
  MkChange (go "sshpilot-vallet ACME DNS-01 challenge") action (MkResourceRecordSet fqdn (go "TXT") ttl (quoteTXT <$> values)).
(** src/internal/dns01/route53.go:465-517, route53Provider.changeRecords *)
Definition route53_changeRecords (p : route53Provider) (zoneID action fqdn : gostring) (ttl : Z) (values : list gostring) : client (result unit) :=
  match xml_change (route53_change action fqdn ttl values) with
  | Err e => Ret (Err (errorf "encode change batch" [e]))
  | Ok body => route53_do p POST (route53APIPrefix ++ go "/hostedzone/" ++ zoneID ++ go "/rrset/") (Some body) no_out
  end.

(** src/internal/dns01/route53.go:294-329, route53Provider.removeValue *)
Definition route53_removeValue (p : route53Provider) (zoneID fqdn value : gostring) : CleanupFunc :=
  let! current := on_err (λ e, errorf "read txt record for cleanup" [ErrRoute53API; e]) (route53_currentTXT p zoneID fqdn) in
  let '(existing, ttl) := current in
  if negb (bool_decide (value ∈ existing)) then Ret (Ok tt) else
  let remaining := without value existing in
  let '(action, values) := if bool_decide (remaining = []) then (go "DELETE", existing) else (go "UPSERT", remaining) in
  on_err (λ e, errorf "remove txt value" [ErrRoute53API; e]) (route53_changeRecords p zoneID action fqdn ttl values).

(** src/internal/dns01/route53.go:243-292, route53Provider.Present *)
Definition route53_Present (p : route53Provider) (rec : DNSRecord) : client (option CleanupFunc * option goerror) :=
  need! zoneID := route53_hostedZoneID p (rec_Name rec) in
  let fqdn := rec_Name rec ++ [DOT] in
  need! current := route53_currentTXT p zoneID fqdn in
  let '(existing, ttl) := current in
  let ttl := if ttl <=? 0 then route53ChallengeTTL else ttl in
  published (route53_removeValue p zoneID fqdn (rec_Value rec))
    (on_err (λ e, errorf "publish txt value" [ErrRoute53API; e]) (route53_changeRecords p zoneID (go "UPSERT") fqdn ttl (with_value (rec_Value rec) existing))).

(** src/internal/dns01/route53.go:134-172, NewRoute53 *)
Definition NewRoute53 (creds : Credentials) : result DNSProvider :=
  credential ← route53Credential creds;
  _ ← splitAWSCredential credential;
  Ok (MkDNSProvider (go "route53") (route53_Present (MkRoute53 credential))).

(** ** Namecheap *)

(** src/internal/dns01/namecheap.go:20-72, namecheapEndpoint *)
Definition namecheapEndpoint : gostring := go "https://api.namecheap.com/xml.response".
Definition namecheapCmdGetList : gostring := go "namecheap.domains.getList".
Definition namecheapCmdGetHosts : gostring := go "namecheap.domains.dns.getHosts".
Definition namecheapCmdSetHosts : gostring := go "namecheap.domains.dns.setHosts".
Definition namecheapChallengeTTL : gostring := go "60".
Definition namecheapDefaultMXPref : gostring := go "10".
Definition namecheapPageSize : Z := 100.
Definition namecheapMaxPages : nat := 100.
Definition namecheapMaxBody : Z := 2 ^ 20.

(** src/internal/dns01/namecheap.go:74-76, ErrNamecheapAPI *)
Definition ErrNamecheapAPI : goerror := errors_new "dns01: namecheap api".
(** src/internal/dns01/namecheap.go:156-159, namecheapCredentialSep *)
Definition namecheapCredentialSep : ascii := byte_of 0.
(** src/internal/dns01/namecheap.go:161-164, namecheapCredentialFields *)
Definition namecheapCredentialFields : list string := ["api_user"; "api_key"; "username"; "client_ip"]%string.

(** src/internal/dns01/namecheap.go:78-152, namecheapProvider *)
Record namecheapProvider := MkNamecheap { nc_credential : Redacted }.
(** src/internal/dns01/namecheap.go:218-221, namecheapCredentials *)
Record namecheapCredentials := MkNCCreds { ncc_apiUser : gostring; ncc_apiKey : gostring; ncc_userName : gostring; ncc_clientIP : gostring }.
(** src/internal/dns01/namecheap.go:223-245, splitNamecheapCredential *)
Definition splitNamecheapCredential (c : Redacted) : result namecheapCredentials :=
  match split_byte namecheapCredentialSep c with
  | [a; b; c; d] =>
      let out := MkNCCreds (trim_space a) (trim_space b) (trim_space c) (trim_space d) in
      if bool_decide (ncc_apiUser out = []) || bool_decide (ncc_apiKey out = []) || bool_decide (ncc_userName out = []) || bool_decide (ncc_clientIP out = [])
      then Err (errorf "incomplete packed credential" [ErrNamecheapAPI]) else Ok out
  | _ => Err (errorf "malformed packed credential" [ErrNamecheapAPI])
  end.

(** src/internal/dns01/namecheap.go:663-672, namecheapHost *)
Record namecheapHost := MkNCHost { nch_Name : gostring; nch_Type : gostring; nch_Address : gostring; nch_MXPref : gostring; nch_TTL : gostring }.
(** src/internal/dns01/namecheap.go:656-661, namecheapAPIError *)
Record namecheapAPIError := MkNCError { nce_Number : gostring; nce_Description : gostring }.
(** src/internal/dns01/namecheap.go:678-685, namecheapGetHostsResponse *)
Record namecheapHosts := MkNCHosts { ncs_EmailType : gostring; ncs_IsUsingOurDNS : gostring; ncs_Hosts : list namecheapHost }.

(** The header of every answer (its status and errors), and the answers of the three
    commands, as [encoding/xml] reads them. *)
Context (xml_header : bytes → option (gostring * list namecheapAPIError)) (xml_hosts : bytes → option namecheapHosts)
        (xml_set : bytes → option gostring) (xml_list : bytes → option (list gostring * Z)).

(** [url.Values.Set], and [Encode] in the order of the keys. *)
Definition form_set (k v : gostring) (form : list (gostring * gostring)) : list (gostring * gostring) := (k, v) :: filter (λ kv, kv.1 ≠ k) form.
Definition key_le (x y : gostring * gostring) : Prop := bytes_leb x.1 y.1 = true.
#[local] Instance key_le_dec : RelDecision key_le := λ x y, bool_eq_dec (bytes_leb x.1 y.1) true.
Definition form_encode (form : list (gostring * gostring)) : gostring := Encode (merge_sort key_le form).
Definition form_of (kvs : list (gostring * gostring)) : list (gostring * gostring) := foldl (λ form kv, form_set kv.1 kv.2 form) [] kvs.

(** src/internal/dns01/namecheap.go:547-564, namecheapProvider.authParams *)
Definition namecheap_authParams (p : namecheapProvider) : result (list (gostring * gostring)) :=
  creds ← splitNamecheapCredential (nc_credential p);
  Ok (form_of [(go "ApiUser", ncc_apiUser creds); (go "ApiKey", ncc_apiKey creds); (go "UserName", ncc_userName creds); (go "ClientIp", ncc_clientIP creds)]).

(** src/internal/dns01/namecheap.go:628-645, namecheapError *)
Definition namecheapError (errs : list namecheapAPIError) : goerror :=
  match errs with
  | [] => errorf "request rejected" [ErrNamecheapAPI]
  | e :: _ => if bool_decide (nce_Number e = []) then errorf "request rejected (message)" [ErrNamecheapAPI] else errorf "request rejected (error)" [ErrNamecheapAPI]
  end.

(** Redirects are refused.

    src/internal/dns01/namecheap.go:205-213, NewNamecheap *)
Definition namecheapClient : http_client := MkClient UseLastResponse.
#[export] Instance namecheap_refuses : Refuses namecheapClient := eq_refl.

(** src/internal/dns01/namecheap.go:566-626, namecheapProvider.do *)
Definition namecheap_do {A} (p : namecheapProvider) (params : list (gostring * gostring)) (decode : bytes → option A) : client (result A) :=
  match namecheap_authParams p with
  | Err e => Ret (Err e)
  | Ok auth =>
      let body := foldl (λ form kv, form_set kv.1 kv.2 form) auth params in
      let! r := send namecheapClient POST namecheapEndpoint [(go "Content-Type", go "application/x-www-form-urlencoded"); (go "Accept", go "text/xml")] (Some (form_encode body)) namecheapMaxBody in
      Ret (let '(status, raw) := r in
           if (status <? 200) || (300 <=? status) then Err (errorf "request rejected" []) else
           match xml_header raw with
           | None => Err (errorf "unparseable response" [])
           | Some (st, errs) =>
               if negb (EqualFold st (go "OK")) then Err (namecheapError errs) else
               match decode raw with Some a => Ok a | None => Err (errorf "unparseable response" []) end
           end)
  end.

Fixpoint namecheap_pages (n : nat) (p : namecheapProvider) (page : Z) (domains : list gostring) : client (result (list gostring)) :=
  match n with
  | O => Ret (Ok domains)
  | S n =>
      let! out := on_err (λ e, errorf "list account domains" [ErrNamecheapAPI; e])
        (namecheap_do p (form_of [(go "Command", namecheapCmdGetList); (go "Page", FormatInt page); (go "PageSize", FormatInt namecheapPageSize)]) xml_list) in
      let '(listed, totalItems) := out in
      let domains := domains ++ filter (λ d, d ≠ []) listed in
      if bool_decide (listed = []) || (totalItems <=? Z.of_nat (length domains)) then Ret (Ok domains) else namecheap_pages n p (page + 1) domains
  end.
(** src/internal/dns01/namecheap.go:400-426, namecheapProvider.accountDomains *)
Definition namecheap_accountDomains (p : namecheapProvider) : client (result (list gostring)) := namecheap_pages namecheapMaxPages p 1 [].

(** src/internal/dns01/namecheap.go:361-398, namecheapProvider.domainFor *)
Definition namecheap_domainFor (p : namecheapProvider) (recordName : gostring) : client (result gostring) :=
  let! domains := namecheap_accountDomains p in
  let name := ToLower (trim_suffix [DOT] recordName) in
  let best := foldl (λ best d, let cand := ToLower (trim_suffix [DOT] d) in
    if (bool_decide (name = cand) || has_suffix (DOT :: cand) name) && (length best <? length cand)%nat then cand else best) [] domains in
  Ret (if bool_decide (best = []) then Err (errorf "no domain in the account matches" [ErrNamecheapAPI]) else
       if negb (validDomainName best) then Err (errorf "malformed account domain" [ErrNamecheapAPI]) else Ok best).

(** src/internal/dns01/namecheap.go:521-533, splitDomain *)
Definition splitDomain (domain : gostring) : result (gostring * gostring) :=
  let domain := trim_suffix [DOT] domain in
  let none := errorf "not a registrable domain" [ErrNamecheapAPI] in
  match index_byte DOT domain with
  | None => Err none
  | Some idx => if (idx =? 0)%nat || (length domain - 1 <=? idx)%nat then Err none else Ok (take idx domain, drop (S idx) domain)
  end.
(** src/internal/dns01/namecheap.go:535-545, namecheapRecordName *)
Definition namecheapRecordName (fqdn domain : gostring) : result gostring := relative_for ErrNamecheapAPI fqdn domain.

(** The hosts, the mail setting, and whether the domain uses Namecheap's name servers.

    src/internal/dns01/namecheap.go:428-446, namecheapProvider.getHosts *)
Definition namecheap_getHosts (p : namecheapProvider) (sld tld : gostring) : client (result (list namecheapHost * gostring * bool)) :=
  let! resp := on_err (λ e, errorf "read hosts" [ErrNamecheapAPI; e]) (namecheap_do p (form_of [(go "Command", namecheapCmdGetHosts); (go "SLD", sld); (go "TLD", tld)]) xml_hosts) in
  Ret (Ok (ncs_Hosts resp, ncs_EmailType resp, EqualFold (ncs_IsUsingOurDNS resp) (go "true"))).

Definition host_params (i : nat) (h : namecheapHost) : list (gostring * gostring) :=
  let n := FormatInt (Z.of_nat i + 1) in
  [(go "HostName" ++ n, nch_Name h); (go "RecordType" ++ n, nch_Type h); (go "Address" ++ n, nch_Address h);
   (go "MXPref" ++ n, if bool_decide (nch_MXPref h = []) then namecheapDefaultMXPref else nch_MXPref h);
   (go "TTL" ++ n, if bool_decide (nch_TTL h = []) then namecheapChallengeTTL else nch_TTL h)].
Definition setHosts_params (sld tld emailType : gostring) (hosts : list namecheapHost) : list (gostring * gostring) :=
  [(go "Command", namecheapCmdSetHosts); (go "SLD", sld); (go "TLD", tld)] ++ (if bool_decide (emailType = []) then [] else [(go "EmailType", emailType)]) ++
  concat (imap host_params hosts).
(** src/internal/dns01/namecheap.go:448-493, namecheapProvider.setHosts *)
Definition namecheap_setHosts (p : namecheapProvider) (sld tld emailType : gostring) (hosts : list namecheapHost) : client (result unit) :=
  let! isSuccess := namecheap_do p (form_of (setHosts_params sld tld emailType hosts)) xml_set in
  Ret (if EqualFold isSuccess (go "true") then Ok tt else Err (errorf "sethosts reported no success" [ErrNamecheapAPI])).

(** src/internal/dns01/namecheap.go:511-519, namecheapUnquote *)
Definition namecheapUnquote (v : gostring) : gostring := strip_quotes v.
Definition namecheap_own (host value : gostring) (h : namecheapHost) : bool :=
  EqualFold (nch_Name h) host && EqualFold (nch_Type h) (go "TXT") && bool_decide (namecheapUnquote (nch_Address h) = value).
(** src/internal/dns01/namecheap.go:495-509, namecheapIndexOf *)
Definition namecheapIndexOf (hosts : list namecheapHost) (host value : gostring) : option nat := fst <$> list_find (λ h, namecheap_own host value h = true) hosts.

(** src/internal/dns01/namecheap.go:325-359, namecheapProvider.removeValue *)
Definition namecheap_removeValue (p : namecheapProvider) (sld tld host value : gostring) : CleanupFunc :=
  let! got := on_err (λ e, errorf "read hosts for cleanup" [ErrNamecheapAPI; e]) (namecheap_getHosts p sld tld) in
  let '(hosts, emailType, usingOurDNS) := got in
  if negb usingOurDNS then Ret (Ok tt) else
  match namecheapIndexOf hosts host value with
  | None => Ret (Ok tt)
  | Some idx => on_err (λ e, errorf "remove txt value" [ErrNamecheapAPI; e]) (namecheap_setHosts p sld tld emailType (delete idx hosts))
  end.

(** src/internal/dns01/namecheap.go:262-323, namecheapProvider.Present *)
Definition namecheap_Present (p : namecheapProvider) (rec : DNSRecord) : client (option CleanupFunc * option goerror) :=
  need! domain := namecheap_domainFor p (rec_Name rec) in
  need! parts := Ret (splitDomain domain) in
  let '(sld, tld) := parts in
  need! host := Ret (namecheapRecordName (rec_Name rec) domain) in
  need! got := namecheap_getHosts p sld tld in
  let '(hosts, emailType, usingOurDNS) := got in
  if negb usingOurDNS then Ret (None, Some (errorf "domain is not using namecheap dns; refusing to replace its host records" [ErrNamecheapAPI])) else
  let updated := match namecheapIndexOf hosts host (rec_Value rec) with
                 | Some _ => hosts
                 | None => hosts ++ [MkNCHost host (go "TXT") (rec_Value rec) namecheapDefaultMXPref namecheapChallengeTTL]
                 end in
  published (namecheap_removeValue p sld tld host (rec_Value rec))
    (on_err (λ e, errorf "publish txt value" [ErrNamecheapAPI; e]) (namecheap_setHosts p sld tld emailType updated)).

Fixpoint named_fields (creds : Credentials) (names : list string) : result (list Redacted) :=
  match names with
  | [] => Ok []
  | name :: names =>
      let missing := Err (errorf "missing or blank credential" [ErrNamecheapAPI]) in
      match Get creds name with
      | None => missing
      | Some v => if IsBlank v then missing else rest ← named_fields creds names; Ok (v :: rest)
      end
  end.
(** src/internal/dns01/namecheap.go:166-216, NewNamecheap *)
Definition NewNamecheap (creds : Credentials) : result DNSProvider :=
  parts ← named_fields creds namecheapCredentialFields;
  let credential := Redacted_Join [namecheapCredentialSep] parts in
  _ ← splitNamecheapCredential credential;
  Ok (MkDNSProvider (go "namecheap") (namecheap_Present (MkNamecheap credential))).

(** ** What is asked of the remote APIs *)

(** *** Route 53 *)

Section route53.
Context (p : route53Provider) (rec : DNSRecord).
Local Abbreviation fqdn := (rec_Name rec ++ [DOT]).
Local Abbreviation zone_path zoneID := (route53Endpoint ++ route53APIPrefix ++ go "/hostedzone/" ++ zoneID).

(** The last answer, to the question for the name's TXT set. *)
Definition route53_seen (zoneID : gostring) (existing : list gostring) (h : list (event api)) : Prop := ∃ asked resp raw rrsets h',
  h = MkEvent _ (Send asked) (Some resp) :: h' ∧ q_Method asked = GET ∧ q_URL asked = zone_path zoneID ++ go "/rrset?name=" ++ uriEncode fqdn ++ go "&type=TXT&maxitems=1" ∧
  read_limited route53MaxBody resp = Ok raw ∧ xml_rrsets raw = Some rrsets ∧ existing = (route53_set fqdn rrsets).1.

(** Questions, and a change of the name's TXT set, written from the values just read: all of
    them with the challenge's, all of them without it, or the set's deletion when nothing
    would be left. *)
Definition route53_request (h : list (event api)) (q : http_req) : Prop :=
  under route53Endpoint q ∧
  (q_Method q = GET ∨
   q_Method q = POST ∧ ∃ zoneID now h' existing action ttl values body, h = MkEvent _ Clock now :: h' ∧ validZoneID zoneID = true ∧ route53_seen zoneID existing h' ∧
     q_URL q = zone_path zoneID ++ go "/rrset/" ∧ q_Body q = Some body ∧ xml_change (route53_change action fqdn ttl values) = Ok body ∧
     (action = go "UPSERT" ∧ values = with_value (rec_Value rec) existing ∨
      rec_Value rec ∈ existing ∧ without (rec_Value rec) existing ≠ [] ∧ action = go "UPSERT" ∧ values = without (rec_Value rec) existing ∨
      rec_Value rec ∈ existing ∧ without (rec_Value rec) existing = [] ∧ action = go "DELETE" ∧ values = existing)).

Lemma route53_do_spec {A} P (Q : list (event api) → result A → Prop) h method path body (decode : bytes → option A) :
  (∀ header now, P (MkEvent _ Clock now :: h) (MkReq method (route53Endpoint ++ path) header body)) → (∀ h e, Q h (Err e)) →
  (∀ header resp raw a h', read_limited route53MaxBody resp = Ok raw → decode raw = Some a →
     Q (MkEvent _ (Send (MkReq method (route53Endpoint ++ path) header body)) (Some resp) :: h') (Ok a)) →
  spec (sends P) Q h (route53_do p method path body decode).
Proof using.
  intros Hp He Hok. unfold route53_do. destruct (url_ok _); cbn [negb]; [|apply He]. destruct (splitAWSCredential _) as [[keyID secret]|e]; [|apply He].
  cbn [ask bind spec]. split; [done|]. intros now. destruct (cut _ _) as [[upath query] found]. destruct (signV4 _ _ _ _ _ _ _ _ _ _ _) as [signed|e]; [|apply He].
  eapply spec_bind_ok with (R := λ h' r, ∃ header resp h'', h' = MkEvent _ (Send (MkReq method (route53Endpoint ++ path) header body)) (Some resp) :: h'' ∧ read_limited route53MaxBody resp = Ok r.2).
  - apply send_spec; [apply _|apply Hp|by intros; apply He|]. intros resp raw Hraw. by eexists _, resp, _.
  - intros h' [status raw] (header & resp & h'' & -> & Hraw). cbn [spec snd] in *. destruct (_ || _); [apply He|]. destruct (decode raw) as [a|] eqn:Ea; [|apply He]. by eapply Hok.
Qed.

Lemma route53_public_ok name zs ids : route53_public name zs = Ok ids → Forall (λ id, validZoneID id = true) ids.
Proof using.
  revert ids. induction zs as [|z zs IH]; intros ids; cbn [route53_public]; [by intros [= <-]|]. destruct (_ || _); [apply IH|].
  destruct (validZoneID _) eqn:Ev; cbn [negb]; [|done]. destruct (route53_public name zs) as [rest|] eqn:Er; [|done]. intros [= <-]. apply Forall_cons. split; [done|by apply IH].
Qed.

Lemma route53_hostedZoneID_spec h : spec (sends route53_request) (λ _ r, match r with Ok id => validZoneID id = true | Err _ => True end) h (route53_hostedZoneID p (rec_Name rec)).
Proof.
  apply walk_zones_spec; [|done]. intros h1 name Hw. eapply spec_bind with (R := λ _ r, ∃ zs, r = route53_public name zs ∨ ∃ e, r = Err e).
  - eapply spec_bind_ok with (R := λ _ _, True).
    + apply spec_on_err, route53_do_spec; [intros header now; split; [at_base|by left]| |done]. intros _ e. exists []. right. by eexists.
    + intros h2 zs _. exists zs. by left.
  - intros h2 r [zs Hr]. cbn [spec]. destruct r as [[|z [|z' zs']]|e]; [done| |done|done]. destruct Hr as [Hr|[e Hr]]; [|done].
    symmetry in Hr. by apply route53_public_ok, Forall_inv in Hr.
Qed.

Lemma route53_currentTXT_spec zoneID h :
  spec (sends route53_request) (λ h r, match r with Ok (existing, _) => route53_seen zoneID existing h | Err _ => True end) h (route53_currentTXT p zoneID fqdn).
Proof.
  eapply spec_bind_ok with (R := λ h rrsets, route53_seen zoneID (route53_set fqdn rrsets).1 h).
  - apply spec_on_err, route53_do_spec; [intros header now; split; [at_base|by left]|done|]. intros header resp raw rrsets h' Hraw Hd.
    eexists _, resp, raw, rrsets, h'. do 2 (split; [done|]). split; [cbn [q_URL]; by rewrite <- !app_assoc|done].
  - intros h' rrsets Hs. cbn [spec]. by destruct (route53_set fqdn rrsets).
Qed.

Lemma route53_changeRecords_spec zoneID action ttl existing values h : validZoneID zoneID = true → route53_seen zoneID existing h →
  (action = go "UPSERT" ∧ values = with_value (rec_Value rec) existing ∨
   rec_Value rec ∈ existing ∧ without (rec_Value rec) existing ≠ [] ∧ action = go "UPSERT" ∧ values = without (rec_Value rec) existing ∨
   rec_Value rec ∈ existing ∧ without (rec_Value rec) existing = [] ∧ action = go "DELETE" ∧ values = existing) →
  spec (sends route53_request) (λ _ _, True) h (route53_changeRecords p zoneID action fqdn ttl values).
Proof.
  intros Hz Hs Hc. unfold route53_changeRecords. destruct (xml_change _) as [body|e] eqn:Ex; [|done]. apply route53_do_spec; [|done|done].
  intros header now. split; [at_base|]. right. split; [done|]. exists zoneID, now, h, existing, action, ttl, values, body.
  do 3 (split; [done|]). split; [cbn [q_URL]; by rewrite <- !app_assoc|]. done.
Qed.

Lemma route53_removeValue_spec zoneID h : validZoneID zoneID = true → spec (sends route53_request) (λ _ _, True) h (route53_removeValue p zoneID fqdn (rec_Value rec)).
Proof.
  intros Hz. eapply spec_bind_ok with (R := λ h r, route53_seen zoneID r.1 h).
  { apply spec_on_err. eapply spec_mono; [done| |apply route53_currentTXT_spec]. by intros ? [[]|]. }
  intros h2 [existing ttl] Hs. cbn [fst] in Hs. case_bool_decide as Hin; cbn [negb]; [|done]. cbv zeta. case_bool_decide as Hne; cbv iota.
  - apply spec_on_err. eapply route53_changeRecords_spec; [done|done|]. by right; right.
  - apply spec_on_err. eapply route53_changeRecords_spec; [done|done|]. by right; left.
Qed.

Lemma route53_Present_careful : careful route53_request (route53_Present p rec).
Proof.
  intros h. eapply need_spec; [eapply spec_mono; [done| |apply route53_hostedZoneID_spec]|].
  { intros h' [d|e] Hd; [exact Hd|done]. }
  intros h2 zoneID Hz. eapply need_spec with (R := λ h r, route53_seen zoneID r.1 h).
  { eapply spec_mono; [done| |apply route53_currentTXT_spec]. by intros ? [[]|]. }
  intros h3 [existing ttl] Hs. cbn [fst] in Hs. apply publish_spec; [|by intros h'; apply route53_removeValue_spec].
  apply spec_on_err. eapply route53_changeRecords_spec; [done|done|by left].
Qed.
End route53.

(** *** Namecheap *)

Section namecheap.
Context (p : namecheapProvider) (rec : DNSRecord).

(** A command with its parameters, after the credential's own. *)
Definition namecheap_form (params : list (gostring * gostring)) (q : http_req) : Prop := q_Method q = POST ∧ q_URL q = namecheapEndpoint ∧
  ∃ auth, namecheap_authParams p = Ok auth ∧ q_Body q = Some (form_encode (foldl (λ form kv, form_set kv.1 kv.2 form) auth (form_of params))).
Definition getHosts_params (sld tld : gostring) : list (gostring * gostring) := [(go "Command", namecheapCmdGetHosts); (go "SLD", sld); (go "TLD", tld)].

(** The answer just before has these hosts, and the domain uses Namecheap's name servers. *)
Definition namecheap_seen (sld tld : gostring) (hosts : list namecheapHost) (emailType : gostring) (h : list (event api)) : Prop := ∃ asked resp raw out h',
  h = MkEvent _ (Send asked) (Some resp) :: h' ∧ namecheap_form (getHosts_params sld tld) asked ∧ read_limited namecheapMaxBody resp = Ok raw ∧ xml_hosts raw = Some out ∧
  hosts = ncs_Hosts out ∧ emailType = ncs_EmailType out ∧ EqualFold (ncs_IsUsingOurDNS out) (go "true") = true.

(** What replaces the hosts just read: all of them and the challenge's record, or all of them
    but the first that is the challenge's own. *)
Definition namecheap_update (host : gostring) (hosts updated : list namecheapHost) : Prop :=
  match namecheapIndexOf hosts host (rec_Value rec) with
  | None => updated = hosts ++ [MkNCHost host (go "TXT") (rec_Value rec) namecheapDefaultMXPref namecheapChallengeTTL]
  | Some idx => updated = hosts ∨ updated = delete idx hosts
  end.

(** Questions, and the hosts of the domain that holds the record replaced in that way, with the
    mail setting that was read. *)
Definition namecheap_request (h : list (event api)) (q : http_req) : Prop :=
  (∃ page, namecheap_form [(go "Command", namecheapCmdGetList); (go "Page", FormatInt page); (go "PageSize", FormatInt namecheapPageSize)] q) ∨
  ∃ domain sld tld host, validDomainName domain = true ∧ splitDomain domain = Ok (sld, tld) ∧ namecheapRecordName (rec_Name rec) domain = Ok host ∧
    (namecheap_form (getHosts_params sld tld) q ∨
     ∃ hosts emailType updated, namecheap_seen sld tld hosts emailType h ∧ namecheap_update host hosts updated ∧ namecheap_form (setHosts_params sld tld emailType updated) q).

Lemma namecheap_do_spec {A} P (Q : list (event api) → result A → Prop) h params (decode : bytes → option A) :
  (∀ q, namecheap_form params q → P h q) → (∀ h e, Q h (Err e)) →
  (∀ q resp raw a, namecheap_form params q → read_limited namecheapMaxBody resp = Ok raw → decode raw = Some a → Q (MkEvent _ (Send q) (Some resp) :: h) (Ok a)) →
  spec (sends P) Q h (namecheap_do p (form_of params) decode).
Proof using.
  intros Hp He Hok. unfold namecheap_do. destruct (namecheap_authParams p) as [auth|e] eqn:Ea; [|apply He].
  set (body := form_encode _). eapply spec_bind_ok with (R := λ h' r, ∃ q resp, namecheap_form params q ∧ h' = MkEvent _ (Send q) (Some resp) :: h ∧ read_limited namecheapMaxBody resp = Ok r.2).
  - assert (∀ header, namecheap_form params (MkReq POST namecheapEndpoint header (Some body))) as Hf. { intros header. do 2 (split; [done|]). by exists auth. }
    apply send_spec; [apply _|apply Hp, Hf|by intros; apply He|]. intros resp raw Hraw. by eexists _, resp.
  - intros h' [status raw] (q & resp & Hf & -> & Hraw). cbn [spec snd] in *. destruct (_ || _); [apply He|]. destruct (xml_header raw) as [[st errs]|]; [|apply He].
    destruct (negb _); [apply He|]. destruct (decode raw) as [a|] eqn:Ed; [|apply He]. by eapply Hok.
Qed.

Lemma namecheap_pages_spec n page domains h : spec (sends namecheap_request) (λ _ _, True) h (namecheap_pages n p page domains).
Proof.
  revert page domains h. induction n as [|n IH]; intros page domains h; cbn [namecheap_pages]; [done|]. eapply spec_bind_ok with (R := λ _ _, True).
  - apply spec_on_err, namecheap_do_spec; [|done|done]. intros q Hq. left. by exists page.
  - intros h' [listed total] _. destruct (_ || _); [done|apply IH].
Qed.

Lemma namecheap_domainFor_spec h : spec (sends namecheap_request) (λ _ r, match r with Ok d => validDomainName d = true | Err _ => True end) h (namecheap_domainFor p (rec_Name rec)).
Proof.
  eapply spec_bind_ok with (R := λ _ _, True); [eapply spec_mono; [done| |apply namecheap_pages_spec]; by intros ? []|].
  intros h' domains _. cbn [spec]. case_bool_decide; [done|]. destruct (validDomainName _) eqn:Ev; cbn [negb]; [|done]. exact Ev.
Qed.

Section domain.
Context (domain sld tld host : gostring) (Hv : validDomainName domain = true) (Hs : splitDomain domain = Ok (sld, tld)) (Hh : namecheapRecordName (rec_Name rec) domain = Ok host).

Lemma namecheap_getHosts_spec h : spec (sends namecheap_request) (λ h r, match r with
    | Ok (hosts, emailType, ours) => ours = true → namecheap_seen sld tld hosts emailType h | Err _ => True end) h (namecheap_getHosts p sld tld).
Proof.
  eapply spec_bind_ok with (R := λ h out, EqualFold (ncs_IsUsingOurDNS out) (go "true") = true → namecheap_seen sld tld (ncs_Hosts out) (ncs_EmailType out) h).
  - apply spec_on_err, (namecheap_do_spec _ _ _ (getHosts_params sld tld)); [|done|].
    + intros q Hq. right. exists domain, sld, tld, host. do 3 (split; [done|]). by left.
    + intros q resp raw out Hq Hraw Hd Hu. by exists q, resp, raw, out, h.
  - done.
Qed.

Lemma namecheap_setHosts_spec hosts emailType updated h : namecheap_seen sld tld hosts emailType h → namecheap_update host hosts updated →
  spec (sends namecheap_request) (λ _ _, True) h (namecheap_setHosts p sld tld emailType updated).
Proof.
  intros Hseen Hu. eapply spec_bind_ok with (R := λ _ _, True); [|done].
  apply namecheap_do_spec; [|done|done]. intros q Hq. right. exists domain, sld, tld, host. do 3 (split; [done|]). right. by exists hosts, emailType, updated.
Qed.

Lemma namecheap_removeValue_spec h : spec (sends namecheap_request) (λ _ _, True) h (namecheap_removeValue p sld tld host (rec_Value rec)).
Proof.
  eapply spec_bind_ok with (R := λ h r, r.2 = true → namecheap_seen sld tld r.1.1 r.1.2 h).
  { apply spec_on_err. eapply spec_mono; [done| |apply namecheap_getHosts_spec]. by intros ? [[[]]|]. }
  intros h' [[hosts emailType] [|]] Hseen; cbn [negb]; [|done]. specialize (Hseen eq_refl). cbn [fst snd] in Hseen.
  destruct (namecheapIndexOf hosts host (rec_Value rec)) as [idx|] eqn:Ei; [|done]. apply spec_on_err. eapply namecheap_setHosts_spec; [done|].
  unfold namecheap_update. rewrite Ei. by right.
Qed.
End domain.

Lemma namecheap_Present_careful : careful namecheap_request (namecheap_Present p rec).
Proof.
  intros h. eapply need_spec; [eapply spec_mono; [done| |apply namecheap_domainFor_spec]|].
  { intros h' [d|e] Hd; [exact Hd|done]. }
  intros h1 domain Hv. destruct (splitDomain domain) as [[sld tld]|e] eqn:Hs; cbn [need bind spec]; [|done].
  destruct (namecheapRecordName (rec_Name rec) domain) as [host|e] eqn:Hh; cbn [need bind spec]; [|done].
  eapply need_spec with (R := λ h r, r.2 = true → namecheap_seen sld tld r.1.1 r.1.2 h).
  { eapply spec_mono; [done| |by apply (namecheap_getHosts_spec domain sld tld host)]. by intros ? [[[]]|]. }
  intros h2 [[hosts emailType] [|]] Hseen; cbn [negb]; [|done]. specialize (Hseen eq_refl). cbn [fst snd] in Hseen.
  apply publish_spec; [|by intros h'; apply (namecheap_removeValue_spec domain)].
  apply spec_on_err. apply (namecheap_setHosts_spec domain sld tld host Hv Hs Hh hosts); [done|]. unfold namecheap_update.
  by destruct (namecheapIndexOf hosts host (rec_Value rec)); [left|].
Qed.
End namecheap.
End xml.
