(* ===== verification/DnsUpdate.v ===== *)
(** * Dynamic DNS updates

    [internal/dns01/rfc2136.go]: the provider that sends signed updates to a name server.
    [github.com/miekg/dns] is a parameter. *)

From S2P Require Import Prelude GoLib RateLimit NetIP Secrets Config SafeText Program Dns01.

Open Scope Z_scope.
Open Scope prog_scope.

(** The functions of the library that the provider calls, and the names of its algorithms. *)
Class Miekg := {
  IsDomainName : gostring → bool;
  CanonicalName : gostring → gostring;
  Fqdn : gostring → gostring;
  SplitDomainName : gostring → list gostring;
  HmacSHA224 : gostring; HmacSHA256 : gostring; HmacSHA384 : gostring; HmacSHA512 : gostring;
}.

(** The response codes of RFC 1035 that the code names. *)
Definition RcodeSuccess : Z := 0.
Definition RcodeNameError : Z := 3.

Section rfc2136.
Context `{Miekg}.

(** src/internal/dns01/rfc2136.go:19-41, rfc2136ChallengeTTL *)
Definition rfc2136ChallengeTTL : Z := 60.
Definition rfc2136TSIGFudge : Z := 300.
Definition rfc2136MaxNameBytes : Z := 255.
(** src/internal/dns01/rfc2136.go:43-46, ErrRFC2136 *)
Definition ErrRFC2136 : goerror := errors_new "dns01: rfc2136 dynamic update".

(** src/internal/dns01/rfc2136.go:48-61, tsigAlgorithms *)
Definition tsigWire : list (gostring * gostring) :=
  [(go "hmac-sha224", HmacSHA224); (go "hmac-sha256", HmacSHA256); (go "hmac-sha384", HmacSHA384); (go "hmac-sha512", HmacSHA512)].
(** src/internal/dns01/rfc2136.go:63-74, TSIGAlgorithm *)
Definition TSIGAlgorithm (name : gostring) : option gostring := snd <$> find (λ kv, bool_decide (kv.1 = to_lower (trim_space name))) tsigWire.
(** In sorted order, which is that of the table.

    src/internal/dns01/rfc2136.go:76-87, TSIGAlgorithmNames *)
Definition TSIGAlgorithmNames : list gostring := tsigWire.*1.

(** src/internal/dns01/rfc2136.go:89-151, rfc2136Provider *)
Record rfc2136Provider := MkRFC2136 {
  rf_server : gostring;
  rf_keyName : gostring;
  rf_algorithm : gostring;
  rf_secret : Redacted;
}.

(** src/internal/dns01/rfc2136.go:277-286, txtRR *)
Definition txtRR (fqdn value : gostring) (ttl : Z) : txt_rr := MkTXT fqdn ttl [value].

(** src/internal/dns01/rfc2136.go:288-313, rfc2136Provider.update *)
Definition rfc2136_update (p : rfc2136Provider) (zone : gostring) (insert remove : list txt_rr) : client (result unit) :=
  try! now := ask Clock in
  let sig := MkTsig (rf_keyName p) (rf_algorithm p) rfc2136TSIGFudge (time_unix now) in
  try! resp := ask (Exchange (rf_server p) [(rf_keyName p, rf_secret p)] (SignedUpdate zone insert remove sig)) in
  Ret (match resp with
       | Err e => Err (errorf "exchange" [e])
       | Ok r => if negb (r_Rcode r =? RcodeSuccess) then Err (errorf "nameserver rejected update" []) else Ok tt
       end).

Fixpoint first_soa (l : list dns_rr) : option gostring :=
  match l with
  | [] => None
  | SOA name :: _ => Some name
  | OtherRR :: l => first_soa l
  end.
(** In the answer section, or else in the authority section.

    src/internal/dns01/rfc2136.go:344-364, soaOwner *)
Definition soaOwner (resp : dns_reply) : gostring :=
  match first_soa (r_Answer resp ++ r_Ns resp) with
  | Some name => Bound name rfc2136MaxNameBytes
  | None => []
  end.

(** The loop over the suffixes of the name, at most [n] of them. *)
Fixpoint soa_walk (n : nat) (p : rfc2136Provider) (labels : list gostring) : client (result gostring) :=
  match n, labels with
  | S n, _ :: rest =>
      let candidate := Fqdn (join DOT labels) in
      try! resp := ask (Exchange (rf_server p) [] (SOAQuestion candidate)) in
      match resp with
      | Err e => Ret (Err (errorf "soa lookup" [ErrRFC2136; e]))
      | Ok r =>
          if negb (r_Rcode r =? RcodeSuccess) && negb (r_Rcode r =? RcodeNameError) then Ret (Err (errorf "soa lookup rejected" [ErrRFC2136])) else
          if bool_decide (soaOwner r = []) then soa_walk n p rest else Ret (Ok (soaOwner r))
      end
  | _, _ => Ret (Err (errorf "no zone with an SOA found" [ErrRFC2136]))
  end.
(** src/internal/dns01/rfc2136.go:315-342, rfc2136Provider.zoneFor *)
Definition rfc2136_zoneFor (p : rfc2136Provider) (name : gostring) : client (result gostring) :=
  soa_walk maxZoneLabels p (SplitDomainName (Fqdn name)).

(** src/internal/dns01/rfc2136.go:256-275, rfc2136Provider.removeRecord *)
Definition rfc2136_removeRecord (p : rfc2136Provider) (zone fqdn value : gostring) : CleanupFunc :=
  on_err (λ e, errorf "remove txt value" [ErrRFC2136; e]) (rfc2136_update p zone [] [txtRR fqdn value 0]).

(** src/internal/dns01/rfc2136.go:220-254, rfc2136Provider.Present *)
Definition rfc2136_Present (p : rfc2136Provider) (rec : DNSRecord) : client (option CleanupFunc * option goerror) :=
  need! zone := rfc2136_zoneFor p (rec_Name rec) in
  let fqdn := Fqdn (rec_Name rec) in
  published (rfc2136_removeRecord p zone fqdn (rec_Value rec))
    (on_err (λ e, errorf "publish txt value" [ErrRFC2136; e]) (rfc2136_update p zone [txtRR fqdn (rec_Value rec) rfc2136ChallengeTTL] [])).

(** src/internal/dns01/rfc2136.go:155-206, NewRFC2136 *)
Definition NewRFC2136 (server keyName algorithm : gostring) (creds : Credentials) : result DNSProvider :=
  match Single creds with
  | None => Err (errorf "exactly one tsig secret is required" [ErrRFC2136])
  | Some secret =>
      if IsBlank secret then Err (errorf "tsig secret must not be blank" [ErrRFC2136]) else
      match TSIGAlgorithm algorithm with
      | None => Err (errorf "unsupported tsig algorithm" [ErrRFC2136])
      | Some algo =>
          let addr := trim_space server in
          match SplitHostPort addr with
          | None => Err (errorf "server must be host:port" [ErrRFC2136])
          | Some _ =>
              let name := trim_space keyName in
              if bool_decide (name = []) || negb (IsDomainName name) then Err (errorf "malformed tsig key name" [ErrRFC2136]) else
              Ok (MkDNSProvider (go "rfc2136") (rfc2136_Present (MkRFC2136 addr (CanonicalName name) algo secret)))
          end
      end
  end.

(** ** What it sends *)

(** The owner of an SOA that the server answered with. *)
Definition soa_answered (p : rfc2136Provider) (h : list (event api)) (zone : gostring) : Prop :=
  zone ≠ [] ∧ ∃ name r, soaOwner r = zone ∧ MkEvent _ (Exchange (rf_server p) [] (SOAQuestion name)) (Ok r) ∈ h.

(** Questions without keys; updates signed with the key, of a zone that the server named,
    with the changes [ins] and [rem]. *)
Definition update_only (p : rfc2136Provider) (ins rem : list txt_rr) (h : list (event api)) (X : Type) (e : api X) : Prop :=
  match e with
  | Clock => True
  | Exchange server keys (SOAQuestion _) => server = rf_server p ∧ keys = []
  | Exchange server keys (SignedUpdate zone i r sig) =>
      server = rf_server p ∧ keys = [(rf_keyName p, rf_secret p)] ∧ i = ins ∧ r = rem ∧ soa_answered p h zone ∧
      tsig_Name sig = rf_keyName p ∧ tsig_Algorithm sig = rf_algorithm p
  | _ => False
  end.

Lemma soa_walk_spec n p ins rem h labels : spec (update_only p ins rem) (λ h r, match r with Ok zone => soa_answered p h zone | Err _ => True end) h (soa_walk n p labels).
Proof.
  revert h labels. induction n as [|n IH]; intros h labels; [by destruct labels|]. destruct labels as [|l labels]; [done|]. cbn [soa_walk ask bind spec].
  split; [done|]. intros [r|e]; [|done]. destruct (_ && _); [done|]. case_bool_decide as Hz; [apply IH|]. cbn [spec]. split; [done|]. eexists _, r. split; [done|left].
Qed.

Lemma soa_answered_later p h e zone : soa_answered p h zone → soa_answered p (e :: h) zone.
Proof. intros [Hz (name & r & Hr & Hin)]. split; [done|]. exists name, r. split; [done|by right]. Qed.

Lemma update_spec p ins rem zone h : soa_answered p h zone → spec (update_only p ins rem) (λ h' _, soa_answered p h' zone) h (rfc2136_update p zone ins rem).
Proof.
  intros Hz. cbn [rfc2136_update ask bind spec update_only]. split; [done|]. intros now. split.
  - do 4 (split; [done|]). split; [by apply soa_answered_later|done].
  - intros r. cbn [spec]. by do 2 apply soa_answered_later.
Qed.

(** Whatever the answers are, the provider talks to its name server only; questions carry
    no key; an update changes a zone that this server named, by inserting the challenge's record,
    and the cleanup by removing this record and nothing else. *)
Lemma rfc2136_Present_spec p rec h : let fqdn := Fqdn (rec_Name rec) in
  spec (update_only p [txtRR fqdn (rec_Value rec) rfc2136ChallengeTTL] [])
    (λ h' r, ∀ cleanup, r.1 = Some cleanup → spec (update_only p [] [txtRR fqdn (rec_Value rec) 0]) (λ _ _, True) h' cleanup) h (rfc2136_Present p rec).
Proof.
  intros fqdn. eapply spec_bind; [apply soa_walk_spec|]. cbv beta. intros h' [zone|e] Hz; [|by intros ?].
  eapply (spec_bind _ (λ h2 _, soa_answered p h2 zone)); [apply spec_on_err, update_spec, Hz|]. cbv beta. intros h2 r Hz2. cbn [spec fst]. intros cleanup [= <-].
  unfold rfc2136_removeRecord. apply spec_on_err. eapply spec_mono; [done| |by apply update_spec]. done.
Qed.

(** ** A challenge from end to end *)

(** A name server with one zone, whose TXT records are the state. *)
Definition change_of (rr : txt_rr) : gset (gostring * gostring) := list_to_set ((λ v, (txt_Name rr, v)) <$> txt_Txt rr).
Definition nameserver (zone : gostring) : environment api (gset (gostring * gostring)) := λ X e s,
  match e in api X return X * gset (gostring * gostring) with
  | Send q => (None, s)
  | Clock => (0, s)
  | Locked f => (f None, s)
  | Exchange _ _ (SOAQuestion name) => (Ok (if bool_decide (name = zone) then MkReply RcodeSuccess [SOA zone] [] else MkReply RcodeNameError [] [SOA zone]), s)
  | Exchange _ _ (SignedUpdate z ins rem _) =>
      if bool_decide (z = zone) then (Ok (MkReply RcodeSuccess [] []), (s ∖ ⋃ (change_of <$> rem)) ∪ ⋃ (change_of <$> ins)) else (Ok (MkReply 9 [] []), s)
  end.

Lemma Bound_short s n : 0 < n → Z.of_nat (length s) ≤ n → Bound s n = s.
Proof. intros Hn Hs. unfold Bound. destruct (n <=? 0) eqn:E; reflect_bools; [lia|]. by rewrite (proj2 (Z.leb_le _ _)). Qed.

(** A challenge adds its record to the zone and takes it out again, whatever else changed in
    the meantime. *)
Lemma rfc2136_round_trip p zone rec s : zone ≠ [] → Z.of_nat (length zone) ≤ 255 → SplitDomainName (Fqdn (rec_Name rec)) ≠ [] →
  ∃ cleanup, run (nameserver zone) (rfc2136_Present p rec) s = ((Some cleanup, None), s ∪ {[(Fqdn (rec_Name rec), rec_Value rec)]}) ∧
    ∀ s', run (nameserver zone) cleanup s' = (Ok tt, s' ∖ {[(Fqdn (rec_Name rec), rec_Value rec)]}).
Proof.
  intros Hz Hlen Hl. assert (∀ r, first_soa (r_Answer r ++ r_Ns r) = Some zone → soaOwner r = zone) as Ho.
  { intros r Hr. unfold soaOwner. rewrite Hr. by apply Bound_short. }
  exists (rfc2136_removeRecord p zone (Fqdn (rec_Name rec)) (rec_Value rec)).
  assert (∀ s ins rem, run (nameserver zone) (rfc2136_update p zone ins rem) s = (Ok tt, (s ∖ ⋃ (change_of <$> rem)) ∪ ⋃ (change_of <$> ins))) as Hu.
  { intros s0 ins rem. cbn [rfc2136_update ask bind run nameserver]. by rewrite bool_decide_eq_true_2. }
  split.
  - unfold rfc2136_Present, need, rfc2136_zoneFor. rewrite run_bind. destruct (SplitDomainName _) as [|l ls]; [done|].
    unfold maxZoneLabels. cbn [soa_walk ask bind run nameserver]. case_bool_decide.
    + cbn [r_Rcode]. rewrite Ho by done. rewrite bool_decide_eq_false_2 by done. cbn [negb andb run RcodeSuccess Z.eqb]. unfold published. rewrite run_bind.
      erewrite run_on_err by apply Hu. cbn [run fmap list_fmap]. f_equal. cbn. set_solver.
    + cbn [r_Rcode]. rewrite Ho by done. rewrite bool_decide_eq_false_2 by done. cbn [negb andb run RcodeNameError RcodeSuccess Z.eqb Pos.eqb]. unfold published. rewrite run_bind.
      erewrite run_on_err by apply Hu. cbn [run fmap list_fmap]. f_equal. cbn. set_solver.
  - intros s'. unfold rfc2136_removeRecord. erewrite run_on_err by apply Hu. cbn [fmap list_fmap]. f_equal. cbn. set_solver.
Qed.

Lemma find_existsb {V} (a : gostring) (l : list (gostring * V)) :
  is_Some (snd <$> find (λ kv, bool_decide (kv.1 = a)) l) ↔ existsb (λ k, bool_decide (a = k)) l.*1 = true.
Proof.
  induction l as [|[k v] l IH]; cbn [find fmap list_fmap existsb fst]; [by split; [intros [? ?]|]|]. destruct (decide (k = a)) as [->|Hk].
  - rewrite !bool_decide_eq_true_2 by done. split; [done|by eexists].
  - rewrite (bool_decide_eq_false_2 (k = a)), (bool_decide_eq_false_2 (a = k)) by congruence. exact IH.
Qed.

(** The configuration and the provider accept the same algorithms. *)
Lemma TSIG_parity name : is_Some (TSIGAlgorithm name) ↔ one_of (to_lower (trim_space name)) Config.tsigAlgorithms = true.
Proof. unfold TSIGAlgorithm. rewrite find_existsb. reflexivity. Qed.
End rfc2136.
