(* ===== verification/DnsSolver.v ===== *)
(** * The DNS-01 solver

    [internal/dns01] and [internal/transport/http]: the choice of a provider by its name, and
    the solver that publishes a challenge's record, waits until all authoritative name servers
    show it, and withdraws it. *)

From S2P Require Import Prelude GoLib RateLimit NetIP GoNum GoJson Secrets Program Dns01 DnsRecords DnsSets DnsXml.

Open Scope Z_scope.
Open Scope prog_scope.

Section solver.
Context {UC : UnicodeCase}.
(** XML, PEM, PKCS #8 and RSA, as in the providers' files. *)
Context (xml_zones : bytes → option (list hostedZone)) (xml_rrsets : bytes → option (list resourceRecordSet))
        (xml_error : bytes → option (gostring * gostring)) (xml_change : change → result bytes)
        (xml_header : bytes → option (gostring * list namecheapAPIError)) (xml_hosts : bytes → option namecheapHosts)
        (xml_set : bytes → option gostring) (xml_list : bytes → option (list gostring * Z)).
Context {rsa_key : Type} (pem_Decode : bytes → option bytes) (ParsePKCS8 : bytes → option (option rsa_key)) (SignPKCS1v15 : rsa_key → bytes → result bytes).

(** ** Providers by name *)

(** src/internal/dns01/dns01.go:32-40, ErrUnsupportedProvider *)
Definition ErrUnsupportedProvider : goerror := errors_new "dns01: unsupported dns provider".

(** src/internal/dns01/dns01.go:130-180, NewAPIProvider *)
Definition NewAPIProvider (name : gostring) (creds : Credentials) : result DNSProvider :=
  if bool_decide (name = go "cloudflare") then NewCloudflare creds else
  if bool_decide (name = go "route53") then NewRoute53 xml_zones xml_rrsets xml_error xml_change creds else
  if bool_decide (name = go "gcp") then NewGCP pem_Decode ParsePKCS8 SignPKCS1v15 creds else
  if bool_decide (name = go "digitalocean") then NewDigitalOcean creds else
  if bool_decide (name = go "dnsimple") then NewDNSimple creds else
  if bool_decide (name = go "gandi") then NewGandi creds else
  if bool_decide (name = go "godaddy") then NewGoDaddy creds else
  if bool_decide (name = go "arvancloud") then NewArvanCloud creds else
  if bool_decide (name = go "namecheap") then NewNamecheap xml_header xml_hosts xml_set xml_list creds else
  if bool_decide (name = go "ovh") then NewOVH creds else
  if bool_decide (name = go "azure") then NewAzure creds else
  Err (errorf "unsupported" [ErrUnsupportedProvider]).

(** It only tells the operator what to publish, and what to remove.

    src/internal/dns01/manual.go:56-76, manualProvider.Present *)
Definition NewManualProvider : DNSProvider := MkDNSProvider (go "manual") (λ rec, Ret (Some (Ret (Ok tt)), None)).

(** ** The solver *)

Inductive wake := DeadlineDone | Tick.

(** What the solver asks of the world: what its provider asks, what its lookup asks, what
    woke it, and whether its own context was cancelled. *)
Inductive solving : Type → Type :=
  | OfApi X (e : api X) : solving X
  | OfDns X (e : resolver X) : solving X
  | Select : solving wake
  | SolverCtxErr : solving (option goerror).

(** src/internal/transport/http/certacmedns01.go:17-30, dns01PropagationTimeout *)
Definition dns01PropagationTimeout : duration := 10 * Minute.
Definition dns01PollInterval : duration := 10 * Second.
(** src/internal/transport/http/certacmedns01.go:32-40, ErrDNS01Propagation *)
Definition ErrDNS01Propagation : goerror := errors_new "httpserver: dns-01 challenge record did not propagate".

(** src/internal/transport/http/certacmedns01.go:42-70, dns01Solver *)
Record dns01Solver := MkSolver {
  sv_provider : DNSProvider;
  sv_lookup : gostring → prog resolver (result (list gostring));
  sv_propagationTimeout : duration;
  sv_pollInterval : duration;
}.
(** The cleanups that are due, by identifier, which the solver keeps under its lock. *)
Definition pending : Type := gmap gostring CleanupFunc.

(** src/internal/transport/http/certacmedns01.go:74-87, newDNS01Solver *)
Definition newDNS01Solver (provider : DNSProvider) (lookup : gostring → prog resolver (result (list gostring))) : dns01Solver :=
  MkSolver provider lookup dns01PropagationTimeout dns01PollInterval.

(** One look; then, as long as the ticker can fire before the deadline, another after each
    tick. *)
Fixpoint await (ticks : nat) (s : dns01Solver) (rec : DNSRecord) : prog solving (result unit) :=
  try! values := translate OfDns (sv_lookup s (rec_Name rec)) in
  if match values with Ok vs => bool_decide (rec_Value rec ∈ vs) | Err _ => false end then Ret (Ok tt) else
  let stop := try! cause := ask SolverCtxErr in
    Ret (Err (match cause with
              | Some e => errorf "not confirmed before the wait was canceled" [ErrDNS01Propagation; e]
              | None => errorf "not visible on all authoritative nameservers" [ErrDNS01Propagation]
              end)) in
  match ticks with
  | O => stop
  | S ticks => try! w := ask Select in match w with DeadlineDone => stop | Tick => await ticks s rec end
  end.
(** The ticker fires at most so often before the deadline.

    src/internal/transport/http/certacmedns01.go:135-184, dns01Solver.awaitPropagation *)
Definition awaitPropagation (s : dns01Solver) (rec : DNSRecord) : prog solving (result unit) :=
  await (Z.to_nat (sv_propagationTimeout s / sv_pollInterval s)) s rec.

(** [value]: what the ACME client makes of the challenge's token.

    src/internal/transport/http/certacmedns01.go:92-133, dns01Solver.present *)
Definition solver_present (s : dns01Solver) (value : result gostring) (identifier : gostring) (due : pending) : prog solving (result unit * pending) :=
  match value with
  | Err e => Ret (Err (errorf "build dns-01 record value" [e]), due)
  | Ok value =>
      let rec := MkDNSRecord (ChallengeRecordName identifier) value in
      try! presented := translate OfApi (Present (sv_provider s) rec) in
      let '(cleanup, presentErr) := presented in
      let due := match cleanup with Some c => <[identifier := c]> due | None => due end in
      match presentErr with
      | Some e => Ret (Err (errorf "provider" [e]), due)
      | None => try! r := awaitPropagation s rec in Ret (r, due)
      end
  end.

(** A failure is logged and returned.

    src/internal/transport/http/certacmedns01.go:186-220, dns01Solver.cleanup *)
Definition solver_cleanup (identifier : gostring) (due : pending) : prog solving (result unit * pending) :=
  match due !! identifier with
  | None => Ret (Ok tt, delete identifier due)
  | Some fn => try! r := translate OfApi fn in Ret (r, delete identifier due)
  end.

(** ** Where requests go *)

(** The addresses of a provider: its API, and where it gets tokens. *)
Definition homes (name : gostring) : list gostring :=
  if bool_decide (name = go "cloudflare") then [cloudflareAPIBase] else
  if bool_decide (name = go "route53") then [route53Endpoint] else
  if bool_decide (name = go "gcp") then [gcpDNSAPIBase; gcpTokenEndpoint] else
  if bool_decide (name = go "digitalocean") then [digitalOceanAPIBase] else
  if bool_decide (name = go "dnsimple") then [dnsimpleAPIBase] else
  if bool_decide (name = go "gandi") then [gandiAPIBase] else
  if bool_decide (name = go "godaddy") then [godaddyAPIBase] else
  if bool_decide (name = go "arvancloud") then [arvanCloudAPIBase] else
  if bool_decide (name = go "namecheap") then [namecheapEndpoint] else
  if bool_decide (name = go "ovh") then [go "https://eu.api.ovh.com/1.0"; go "https://ca.api.ovh.com/1.0"; go "https://api.us.ovhcloud.com/1.0"] else
  if bool_decide (name = go "azure") then [azureManagementBase; azureLoginBase] else [].

Definition at_home (name : gostring) (h : list (event api)) (q : http_req) : Prop := ∃ base rest,
  base ∈ homes name ∧ q_URL q = base ++ rest ∧ (rest = [] ∨ head rest = Some SLASH).

Lemma careful_mono (P P' : list (event api) → http_req → Prop) m : (∀ h q, P h q → P' h q) → careful P m → careful P' m.
Proof.
  intros HP Hm h. assert (∀ h X (e : api X), sends P h X e → sends P' h X e) as Hs by (intros h' X [q| |f|]; cbn [sends]; auto).
  eapply spec_mono; [exact Hs| |apply Hm]. intros h1 r Hr cleanup Hc h2. eapply spec_mono; [exact Hs|done|by apply Hr].
Qed.

Lemma under_home name h base q : base ∈ homes name → under base q → at_home name h q.
Proof. intros Hb (path & Hu & Hp). exists base, path. by split; [|split; [|right]]. Qed.

Lemma record_home name rec a m : ra_base a ∈ homes name → careful (record_request a rec) m → careful (at_home name) m.
Proof. intros Hb. apply careful_mono. intros h q [Hu _]. by eapply under_home. Qed.

Lemma ovhBaseURL_home creds base : ovhBaseURL creds = Ok base → base ∈ homes (go "ovh").
Proof.
  unfold ovhBaseURL. destruct (ovhEndpoints !! _) as [b|] eqn:E; [|done]. intros [= <-]. unfold ovhEndpoints in E.
  apply elem_of_list_to_map_2 in E. change (homes (go "ovh")) with [go "https://eu.api.ovh.com/1.0"; go "https://ca.api.ovh.com/1.0"; go "https://api.us.ovhcloud.com/1.0"].
  apply list_elem_of_In in E. rewrite list_elem_of_In. cbn [In] in E |- *. destruct E as [E|[E|[E|[]]]]; injection E as _ <-; tauto.
Qed.

Lemma cloudflare_home name rec p : cloudflareAPIBase ∈ homes name → careful (at_home name) (cloudflare_Present p rec).
Proof.
  intros Hb h. eapply spec_mono; [| |apply cloudflare_Present_spec].
  - intros h' X [q| |f|]; cbn [sends]; [|done..]. intros [Hu _]. by eapply under_home.
  - intros h1 r Hr cleanup Hc h2. destruct (Hr cleanup Hc) as (zoneID & id & _ & Hs). eapply spec_mono; [|done|apply Hs].
    intros h3 X [q| |f|]; cbn [sends]; [|done..]. intros [_ Hu]. apply (under_home _ _ cloudflareAPIBase); [done|]. eexists. by split; [exact Hu|].
Qed.

Ltac home := refine (bool_decide_unpack _ _); vm_compute; exact I.

(** The cases of a provider that was made. *)
Lemma NewAPIProvider_cases (G : gostring → DNSProvider → Prop) name creds p : NewAPIProvider name creds = Ok p →
  (∀ t, G (go "cloudflare") (MkDNSProvider (go "cloudflare") (cloudflare_Present (MkCloudflare t)))) →
  (∀ t, G (go "route53") (MkDNSProvider (go "route53") (route53_Present xml_zones xml_rrsets xml_error xml_change (MkRoute53 t)))) →
  (∀ t pid, G (go "gcp") (MkDNSProvider (go "gcp") (gcp_Present pem_Decode ParsePKCS8 SignPKCS1v15 (MkGCP t pid)))) →
  (∀ t, G (go "digitalocean") (MkDNSProvider (go "digitalocean") (digitalOcean_Present (MkDigitalOcean t)))) →
  (∀ t, G (go "dnsimple") (MkDNSProvider (go "dnsimple") (dnsimple_Present (MkDNSimple t)))) →
  (∀ t, G (go "gandi") (MkDNSProvider (go "gandi") (gandi_Present (MkGandi t)))) →
  (∀ t, G (go "godaddy") (MkDNSProvider (go "godaddy") (godaddy_Present (MkGoDaddy t)))) →
  (∀ t, G (go "arvancloud") (MkDNSProvider (go "arvancloud") (arvanCloud_Present (MkArvanCloud t)))) →
  (∀ t, G (go "namecheap") (MkDNSProvider (go "namecheap") (namecheap_Present xml_header xml_hosts xml_set xml_list (MkNamecheap t)))) →
  (∀ k s c base, base ∈ homes (go "ovh") → G (go "ovh") (MkDNSProvider (go "ovh") (ovh_Present (MkOVH k s c base)))) →
  (∀ t c s u, G (go "azure") (MkDNSProvider (go "azure") (azure_Present (MkAzure t c s u)))) → G name p.
Proof.
  unfold NewAPIProvider. intros H Hcf Hr53 Hgcp Hdo Hds Hga Hgy Har Hnc Hov Haz.
  repeat match type of H with (if bool_decide (name = ?n) then _ else _) = _ => destruct (decide (name = n)) as [->|?];
    [rewrite bool_decide_eq_true_2 in H by done|rewrite bool_decide_eq_false_2 in H by done] end; [..|done];
  unfold NewCloudflare, NewRoute53, NewGCP, NewDigitalOcean, NewDNSimple, NewGandi, NewGoDaddy, NewArvanCloud, NewNamecheap, NewOVH, NewAzure in H;
  repeat match type of H with mbind _ ?r = _ => destruct r eqn:?; [cbn [mbind result_bind] in H|done] end; injection H as <-; auto.
  apply Hov. by eapply ovhBaseURL_home.
Qed.

(** C37. Every request of a provider and of its cleanups goes to one of the provider's own
    addresses, whatever the answers are, redirects to other places included, which its
    client refuses; so do its secrets. *)
Theorem requests_stay_home name creds p rec : NewAPIProvider name creds = Ok p → careful (at_home name) (Present p rec).
Proof.
  intros H. refine (NewAPIProvider_cases (λ name p, careful (at_home name) (Present p rec)) name creds p H _ _ _ _ _ _ _ _ _ _ _); cbn [Present].
  - intros t. apply cloudflare_home. home.
  - intros t. eapply careful_mono; [|apply route53_Present_careful]. intros h q [Hu _]. eapply under_home; [|done]; home.
  - intros t pid. eapply careful_mono; [|apply gcp_Present_careful]. intros h q [[_ Hu]|[Hu _]]; [|eapply under_home; [|done]; home].
    exists gcpTokenEndpoint, []. split; [home|]. split; [by rewrite app_nil_r|by left].
  - intros t. eapply record_home; [|intros h; apply digitalOcean_Present_spec]. home.
  - intros t. eapply record_home; [|intros h; apply dnsimple_Present_spec]. home.
  - intros t. eapply careful_mono; [|apply gandi_Present_careful]. intros h q [[]|[Hu _]]. eapply under_home; [|done]; home.
  - intros t. eapply careful_mono; [|apply godaddy_Present_careful]. intros h q [[]|[Hu _]]. eapply under_home; [|done]; home.
  - intros t. eapply record_home; [|intros h; apply arvanCloud_Present_spec]. home.
  - intros t. eapply careful_mono; [|apply namecheap_Present_careful].
    assert (∀ p params h q, namecheap_form p params q → at_home (go "namecheap") h q) as Hf.
    { intros p' params h q (_ & Hu & _). exists namecheapEndpoint, []. split; [home|]. split; [by rewrite app_nil_r|by left]. }
    intros h q [[page Hq]|(domain & sld & tld & host & _ & _ & _ & [Hq|(hosts & em & up & _ & _ & Hq)])]; by eapply Hf.
  - intros k s c base Hb. eapply careful_mono; [|intros h; apply ovh_Present_spec]. intros h q [Hu _]. by eapply under_home.
  - intros t c s u. eapply careful_mono; [|apply azure_Present_careful]. intros h q [[_ Hu]|[Hu _]]; [|eapply under_home; [|done]; home].
    exists azureLoginBase. eexists. split; [home|]. split; [exact Hu|by right].
Qed.

(** ** Cleanups *)

(** Requests that change nothing at the provider: questions, requests for tokens, and
    Namecheap's commands other than the one that replaces the hosts. *)
Definition reading (q : http_req) : Prop :=
  q_Method q = GET ∨ (∃ rest, q_URL q = azureLoginBase ++ rest) ∨ q_URL q = gcpTokenEndpoint ∨
  q_URL q = namecheapEndpoint ∧ ∃ form, q_Body q = Some (form_encode form) ∧ (go "Command", namecheapCmdSetHosts) ∉ form.
Definition event_reads (e : event api) : Prop := match ev e with Send q => reading q | Exchange _ _ (SignedUpdate _ _ _ _) => False | _ => True end.

(** Nothing but reading, whatever the answers. *)
Definition quiet {A} (m : client A) : Prop := ∀ h, Forall event_reads h → spec anything (λ h' _, Forall event_reads h') h m.

Lemma asks_ret {A} (a : A) : quiet (Ret a).
Proof. by intros h H. Qed.
Lemma asks_bind {A B} (m : client A) (f : A → client B) : quiet m → (∀ a, quiet (f a)) → quiet (bind m f).
Proof. intros Hm Hf h Hh. eapply spec_bind; [by apply Hm|]. intros h' a Hh'. by apply Hf. Qed.
Lemma quiet_bind_ok {A B} (m : client (result A)) (f : A → client (result B)) : quiet m → (∀ a, quiet (f a)) → quiet (bind_ok m f).
Proof. intros Hm Hf. apply asks_bind; [done|]. intros [a|e]; [done|apply asks_ret]. Qed.
Lemma quiet_on_err {A} w (m : client (result A)) : quiet m → quiet (on_err w m).
Proof. intros Hm. apply asks_bind; [done|]. intros r. apply asks_ret. Qed.
Lemma quiet_clock : quiet (ask Clock).
Proof. intros h Hh. cbn [ask spec]. split; [done|]. intros t. by constructor. Qed.
Lemma quiet_locked f : quiet (ask (Locked f)).
Proof. intros h Hh. cbn [ask spec]. split; [done|]. intros t. by constructor. Qed.
Lemma quiet_send c `{!Refuses c} method url header body limit : reading (MkReq method url header body) → quiet (send c method url header body limit).
Proof.
  intros Hr. unfold send. destruct (negb _); [apply asks_ret|]. intros h Hh. apply client_Do_spec; [apply _|done|].
  intros answer seen _. by constructor.
Qed.
Lemma quiet_walk {A} n name (visit : gostring → client (option A)) none : (∀ z, quiet (visit z)) → quiet (walk n name visit none).
Proof.
  intros Hv. revert name. induction n as [|n IH]; intros name; cbn [walk]; [apply asks_ret|]. destruct (index_byte _ _); [|apply asks_ret]. destruct (negb _); [apply asks_ret|].
  apply asks_bind; [apply Hv|]. intros [a|]; [apply asks_ret|apply IH].
Qed.
Lemma quiet_get c `{!Refuses c} url header body limit : quiet (send c GET url header body limit).
Proof. apply quiet_send; [apply _|]. by left. Qed.

Ltac quiet := repeat first [match goal with |- ∀ _, _ => intros ? end|apply asks_ret|(apply quiet_get; apply _)|apply quiet_clock|apply quiet_locked|apply quiet_on_err|apply quiet_bind_ok|apply asks_bind|apply quiet_walk|case_match].

(** Nothing was changed, or there is a cleanup. *)
Definition covered (m : client (option CleanupFunc * option goerror)) : Prop :=
  ∀ h, Forall event_reads h → spec anything (λ h' r, r.1 = None → Forall event_reads h') h m.

Lemma covered_fail e : covered (Ret (None, e)).
Proof. by intros h Hh ?. Qed.
Lemma covered_need {A} (m : client (result A)) f : quiet m → (∀ a, covered (f a)) → covered (need m f).
Proof. intros Hm Hf h Hh. eapply spec_bind; [by apply Hm|]. intros h' [a|e] Hh'; [by apply Hf|by intros ?]. Qed.
Lemma covered_published cleanup m : covered (published cleanup m).
Proof.
  intros h Hh. eapply spec_bind with (R := λ _ _, True); [|by intros h' a _ ?]. clear Hh. revert h. induction m as [a|X e k IH]; intros h; [done|]. cbn [spec]. split; [done|]. intros x. apply IH.
Qed.

Lemma quiet_token c `{!Refuses c} api url form limit reject missing : reading (MkReq POST url [(go "Content-Type", go "application/x-www-form-urlencoded"); (go "Accept", go "application/json")] (Some (Encode form))) →
  quiet (token_request c api url form limit reject missing).
Proof. intros Hr. apply quiet_bind_ok; [by apply quiet_on_err; apply quiet_send; [apply _|]|]. intros [? ?]. apply asks_ret. Qed.

Lemma gandi_covered p rec : covered (gandi_Present p rec).
Proof.
  apply covered_need; [unfold gandi_domainFor, walk_zones, gandi_do; quiet|]. intros d. apply covered_need; [apply asks_ret|]. intros relative.
  apply covered_need; [unfold gandi_currentTXT, gandi_do; quiet|]. intros [existing ttl]. apply covered_published.
Qed.
Lemma godaddy_quiet {A} p path (decode : bytes → option A) : quiet (godaddy_do p GET path None decode).
Proof. unfold godaddy_do. quiet. Qed.
Lemma godaddy_covered p rec : covered (godaddy_Present p rec).
Proof.
  apply covered_need; [unfold godaddy_domainFor, walk_zones; apply quiet_walk; intros z; case_match; [apply asks_ret|]; apply asks_bind; [apply godaddy_quiet|quiet]|].
  intros d. apply covered_need; [apply asks_ret|]. intros relative.
  apply covered_need; [apply asks_bind; [apply godaddy_quiet|quiet]|]. intros [existing ttl]. apply covered_published.
Qed.

Lemma digitalOcean_covered p rec : covered (digitalOcean_Present p rec).
Proof.
  apply covered_need; [unfold digitalOcean_domainFor, walk_zones, digitalOcean_do; quiet|]. intros d. apply covered_need; [apply asks_ret|]. intros relative. apply covered_published.
Qed.

Lemma dnsimple_covered p rec : covered (dnsimple_Present p rec).
Proof.
  apply covered_need; [unfold dnsimple_account, dnsimple_cachedAccount, dnsimple_do; quiet|]. intros account.
  apply covered_need; [unfold dnsimple_zoneFor, walk_zones, dnsimple_do; quiet|]. intros z. apply covered_need; [apply asks_ret|]. intros relative. apply covered_published.
Qed.

Lemma arvanCloud_covered p rec : covered (arvanCloud_Present p rec).
Proof.
  apply covered_need; [unfold arvanCloud_domainFor, walk_zones, arvanCloud_do; quiet|]. intros d. apply covered_need; [apply asks_ret|]. intros relative. apply covered_published.
Qed.

Lemma ovh_covered p rec : covered (ovh_Present p rec).
Proof.
  apply covered_need; [unfold ovh_zoneFor, walk_zones, ovh_do, ovh_timestamp, ovh_serverTime, ovh_cachedDelta; quiet|].
  intros z. apply covered_need; [apply asks_ret|]. intros sub. apply covered_published.
Qed.

Lemma azure_quiet_pages n next token zones : quiet (azure_pages n next token zones).
Proof. revert next zones. induction n as [|n IH]; intros next zones; cbn [azure_pages]; [apply asks_ret|]. unfold azure_do. quiet. apply IH. Qed.
Lemma azure_covered p rec : covered (azure_Present p rec).
Proof.
  apply covered_need; [apply quiet_token; [apply _|]; right; left; by eexists|]. intros token.
  apply covered_need; [apply quiet_bind_ok; [apply azure_quiet_pages|unfold walk_zones; quiet]|]. intros [zone group].
  apply covered_need; [apply asks_ret|]. intros relative. apply covered_need; [unfold azure_currentTXT, azure_do; quiet|]. intros [existing ttl]. apply covered_published.
Qed.

Lemma gcp_covered p rec : covered (gcp_Present pem_Decode ParsePKCS8 SignPKCS1v15 p rec).
Proof.
  apply covered_need.
  { unfold gcp_accessToken. case_match; [|apply asks_ret]. apply asks_bind; [apply quiet_clock|]. intros now. case_match; [|apply asks_ret]. apply quiet_token; [apply _|]. by right; right; left. }
  intros token. apply covered_need; [unfold gcp_managedZone, walk_zones, gcp_publicZonesNamed, gcp_do; quiet|]. intros zone.
  apply covered_need; [unfold gcp_currentTXT, gcp_do; quiet|]. intros [existing ttl]. apply covered_published.
Qed.

Lemma route53_quiet {A} p path (decode : bytes → option A) : quiet (route53_do xml_error p GET path None decode).
Proof. unfold route53_do. quiet. Qed.
Lemma route53_covered p rec : covered (route53_Present xml_zones xml_rrsets xml_error xml_change p rec).
Proof.
  apply covered_need.
  { unfold route53_hostedZoneID, walk_zones. apply quiet_walk. intros z. apply asks_bind; [|quiet]. apply quiet_bind_ok; [|quiet]. apply quiet_on_err, route53_quiet. }
  intros zoneID. apply covered_need; [apply quiet_bind_ok; [apply quiet_on_err, route53_quiet|quiet]|]. intros [existing ttl]. apply covered_published.
Qed.

Lemma form_set_elem k v form x : x ∈ form_set k v form → x = (k, v) ∨ x ∈ form.
Proof. unfold form_set. rewrite elem_of_cons, list_elem_of_filter. tauto. Qed.
Lemma form_fold_elem kvs form x : x ∈ foldl (λ form kv, form_set kv.1 kv.2 form) form kvs → x ∈ kvs ∨ x ∈ form.
Proof.
  revert form. induction kvs as [|[k v] kvs IH]; intros form; cbn [foldl]; [by right|]. intros [H|H]%IH; [left; by right|].
  apply form_set_elem in H as [->|H]; [left; left|by right].
Qed.

Lemma namecheap_quiet {A} p params (decode : bytes → option A) : (go "Command", namecheapCmdSetHosts) ∉ params → quiet (namecheap_do xml_header p (form_of params) decode).
Proof.
  intros Hn. unfold namecheap_do. destruct (namecheap_authParams p) as [auth|e] eqn:Ea; [|apply asks_ret].
  apply quiet_bind_ok; [|quiet]. apply quiet_send; [apply _|]. do 3 right. split; [done|]. eexists. split; [done|].
  intros [H|H]%form_fold_elem; [apply form_fold_elem in H as [H|H]; [done|by apply not_elem_of_nil in H]|].
  unfold namecheap_authParams in Ea. destruct (splitNamecheapCredential _) as [c|]; [|done]. injection Ea as <-.
  apply form_fold_elem in H as [H|H]; [|by apply not_elem_of_nil in H]. rewrite !elem_of_cons, elem_of_nil in H.
  destruct H as [H|[H|[H|[H|[]]]]]; by apply (f_equal fst) in H; vm_compute in H.
Qed.
Lemma namecheap_quiet_pages n p page domains : quiet (namecheap_pages xml_header xml_list n p page domains).
Proof.
  revert page domains. induction n as [|n IH]; intros page domains; cbn [namecheap_pages]; [apply asks_ret|].
  apply quiet_bind_ok; [apply quiet_on_err, namecheap_quiet|intros [? ?]; case_match; [apply asks_ret|apply IH]].
  rewrite !elem_of_cons, elem_of_nil. intros [H|[H|[H|[]]]]; [apply (f_equal snd) in H|apply (f_equal fst) in H..]; by vm_compute in H.
Qed.
Lemma namecheap_covered p rec : covered (namecheap_Present xml_header xml_hosts xml_set xml_list p rec).
Proof.
  apply covered_need; [apply quiet_bind_ok; [apply namecheap_quiet_pages|quiet]|]. intros domain. apply covered_need; [apply asks_ret|]. intros [sld tld].
  apply covered_need; [apply asks_ret|]. intros host. apply covered_need.
  { apply quiet_bind_ok; [apply quiet_on_err, namecheap_quiet|quiet]. rewrite !elem_of_cons, elem_of_nil.
    intros [H|[H|[H|[]]]]; [apply (f_equal snd) in H|apply (f_equal fst) in H..]; by vm_compute in H. }
  intros [[hosts emailType] [|]]; [apply covered_published|apply covered_fail].
Qed.

(** C38. Whatever the answers are, a provider other than Cloudflare that sent anything but
    questions returns a cleanup, also when it returns an error. *)
Theorem cleanup_whenever_written name creds p rec : NewAPIProvider name creds = Ok p → name ≠ go "cloudflare" →
  spec anything (λ h r, r.1 = None → Forall event_reads h) [] (Present p rec).
Proof.
  intros H Hne. revert Hne. refine (NewAPIProvider_cases (λ name p, name ≠ go "cloudflare" → spec anything _ [] (Present p rec)) name creds p H _ _ _ _ _ _ _ _ _ _ _); cbn [Present]; intros; try done.
  - by apply route53_covered.
  - by apply gcp_covered.
  - by apply digitalOcean_covered.
  - by apply dnsimple_covered.
  - by apply gandi_covered.
  - by apply godaddy_covered.
  - by apply arvanCloud_covered.
  - by apply namecheap_covered.
  - by apply ovh_covered.
  - by apply azure_covered.
Qed.
(** ** The solver *)

Lemma any_spec {E : Type → Type} {A} h (m : prog E A) : spec anything (λ _ _, True) h m.
Proof. revert h. induction m as [a|X e k IH]; intros h; [done|]. cbn [spec]. split; [done|]. intros x. apply IH. Qed.

(** The last thing that happened was a look that found the value everywhere. *)
Definition confirmed (rec : DNSRecord) (h : list (event solving)) : Prop := ∃ looked h0, h = (lift_event OfDns <$> looked) ++ h0 ∧ shown (rec_Name rec) (rec_Value rec) looked.

Lemma await_spec ticks s rec h : sv_lookup s = AuthoritativeTXTLookup → spec anything (λ h r, r = Ok tt → confirmed rec h) h (await ticks s rec).
Proof.
  intros Hl. revert h. induction ticks as [|ticks IH]; intros h; cbn [await]; rewrite Hl.
  all: eapply spec_bind; [pose proof (translate_spec OfDns anything anything _ h [] (AuthoritativeTXTLookup (rec_Name rec)) ltac:(done) (AuthoritativeTXTLookup_spec _ [])) as Ht; exact Ht|].
  all: cbv beta; intros h' r (looked & -> & Hr).
  all: destruct (match r with Ok vs => bool_decide (rec_Value rec ∈ vs) | Err _ => false end) eqn:Ev.
  - cbn [spec]. intros _. destruct r as [vs|e]; [|done]. apply bool_decide_eq_true in Ev. exists looked, h. split; [done|by apply Hr].
  - cbn [ask bind spec]. split; [done|]. by intros cause.
  - cbn [spec]. intros _. destruct r as [vs|e]; [|done]. apply bool_decide_eq_true in Ev. exists looked, h. split; [done|by apply Hr].
  - cbn [ask bind spec]. split; [done|]. intros [|]; [|apply IH]. cbn [ask bind spec]. split; [done|]. by intros cause.
Qed.

Lemma conversation_spec {E : Type → Type} {A} h (m : prog E A) : spec anything (λ h' a, conversation m h h' a) h m.
Proof.
  revert h. induction m as [a|X e k IH]; intros h; cbn [spec]; [constructor|]. split; [done|]. intros x. eapply spec_mono; [done| |apply IH]. intros h' a Hc. by econstructor.
Qed.

Lemma spec_frame {E : Type → Type} {A} (Q : list (event E) → A → Prop) h1 h m : spec anything Q h1 m → spec anything (λ h' a, ∃ h2, h' = h2 ++ h ∧ Q h2 a) (h1 ++ h) m.
Proof. revert h1. induction m as [a|X e k IH]; intros h1; cbn [spec]; [by exists h1|]. intros [_ Hk]. split; [done|]. intros x. apply (IH x (_ :: h1)), Hk. Qed.

Lemma present_confirms_gen s v identifier due h : sv_lookup s = AuthoritativeTXTLookup →
  let rec := MkDNSRecord (ChallengeRecordName identifier) v in
  spec anything (λ h' r, ∃ presented after cleanup err,
    conversation (Present (sv_provider s) rec) [] presented (cleanup, err) ∧ h' = after ++ (lift_event OfApi <$> presented) ++ h ∧
    r.2 = match cleanup with Some c => <[identifier := c]> due | None => due end ∧
    (r.1 = Ok tt → err = None ∧ confirmed rec after)) h (solver_present s (Ok v) identifier due).
Proof.
  intros Hl rec. unfold solver_present. fold rec.
  eapply spec_bind; [exact (translate_spec OfApi anything anything _ h [] (Present (sv_provider s) rec) ltac:(done) (conversation_spec _ _))|].
  cbv beta. intros h' [cleanup err] (presented & -> & Hc). destruct err as [e|].
  - cbn [spec]. exists presented, [], cleanup, (Some e). by do 3 (split; [done|]).
  - eapply spec_bind; [apply (spec_frame _ [] _ _ (await_spec _ s rec [] Hl))|]. cbv beta. intros h2 r (after & -> & Hr). cbn [spec].
    exists presented, after, cleanup, None. do 3 (split; [done|]). intros Hok. split; [done|by apply Hr].
Qed.

Lemma solver_lookup provider lookup : sv_lookup (newDNS01Solver provider lookup) = lookup.
Proof. reflexivity. Qed.

(** C39. [present] succeeds only if the provider did and, after that, a look found the value on
    every name server that is listed for a zone above the name and has an address: each of
    them, there is at least one, answered at one of its addresses, and every answer had the
    value.  Listed servers whose addresses cannot be looked up are passed over.  The cleanup
    that the provider returned is kept for the identifier, on success and on failure. *)
Theorem present_confirms provider v identifier due h :
  let rec := MkDNSRecord (ChallengeRecordName identifier) v in
  spec anything (λ h' r, ∃ presented after cleanup err,
    conversation (Present provider rec) [] presented (cleanup, err) ∧ h' = after ++ (lift_event OfApi <$> presented) ++ h ∧
    r.2 = match cleanup with Some c => <[identifier := c]> due | None => due end ∧
    (r.1 = Ok tt → err = None ∧ confirmed rec after)) h (solver_present (newDNS01Solver provider AuthoritativeTXTLookup) (Ok v) identifier due).
Proof. exact (present_confirms_gen (newDNS01Solver provider AuthoritativeTXTLookup) v identifier due h (solver_lookup _ _)). Qed.

(** The cleanup that is due is run, once: afterwards none is. *)
Lemma cleanup_runs_once identifier due h : spec anything (λ h' r, r.2 !! identifier = None ∧
    match due !! identifier with
    | None => r = (Ok tt, due) ∧ h' = h
    | Some fn => ∃ ran, conversation fn [] ran r.1 ∧ h' = (lift_event OfApi <$> ran) ++ h ∧ r.2 = delete identifier due
    end) h (solver_cleanup identifier due).
Proof.
  unfold solver_cleanup. destruct (due !! identifier) as [fn|] eqn:E.
  - eapply spec_bind; [exact (translate_spec OfApi anything anything _ h [] fn ltac:(done) (conversation_spec _ _))|]. cbv beta. intros h' r (ran & -> & Hc). cbn [spec snd fst].
    split; [apply lookup_delete_eq|]. by exists ran.
  - cbn [spec snd]. split; [apply lookup_delete_eq|]. split; [|done]. f_equal. by apply delete_id.
Qed.
End solver.

(** ** Samples *)

Module SolverSample.
(** A world without letters beyond ASCII and without XML. *)
#[export] Instance ascii_case : UnicodeCase := {| fold_above := id; lower_above := id |}.
Definition providers : gostring → Credentials → result DNSProvider :=
  NewAPIProvider (λ _, None) (λ _, None) (λ _, None) (λ _, Ok []) (λ _, None) (λ _, None) (λ _, None) (λ _, None) (rsa_key := unit) Some (λ _, Some (Some tt)) (λ _ b, Ok b).
Definition record : DNSRecord := MkDNSRecord (go "_acme-challenge.example.com") (go "value").
End SolverSample.
Import SolverSample.

Lemma requests_stay_home_witness : ∃ p, SolverSample.providers (go "digitalocean") (NewSingleCredential (go "token")) = Ok p ∧
  careful (at_home (go "digitalocean")) (Present p SolverSample.record).
Proof.
  eexists. split; [reflexivity|]. eapply (requests_stay_home (λ _, None) (λ _, None) (λ _, None) (λ _, Ok []) (λ _, None) (λ _, None) (λ _, None) (λ _, None) Some (λ _, Some (Some tt)) (λ _ b, Ok b) (go "digitalocean") (NewSingleCredential (go "token"))). reflexivity.
Defined.

Lemma cleanup_whenever_written_witness : ∃ p, SolverSample.providers (go "digitalocean") (NewSingleCredential (go "token")) = Ok p ∧
  spec anything (λ h r, r.1 = None → Forall event_reads h) [] (Present p SolverSample.record).
Proof.
  eexists. split; [reflexivity|]. eapply (cleanup_whenever_written (λ _, None) (λ _, None) (λ _, None) (λ _, Ok []) (λ _, None) (λ _, None) (λ _, None) (λ _, None) Some (λ _, Some (Some tt)) (λ _ b, Ok b) (go "digitalocean") (NewSingleCredential (go "token"))); [reflexivity|].
  vm_compute. discriminate.
Defined.
