(* ===== verification/DnsTrips.v ===== *)
(** * A challenge from end to end

    A provider against a service that does what its API promises: the record set of the
    challenge's name before, during and after a challenge ([gandi_round_trip]), and a lost
    answer that leaves a record behind ([cloudflare_leak]). *)

From S2P Require Import Prelude GoLib RateLimit NetIP GoNum GoJson Secrets Program Dns01 DnsRecords DnsSets.

Open Scope Z_scope.
Open Scope prog_scope.

(** ** Gandi's service

    It hosts one zone; the state is the TXT record set of one name in it. *)

Section gandi.
Context {UC : UnicodeCase}.
Context (zone relative : gostring).

Definition answer_json (status : Z) (v : jvalue) : option http_resp := Some (MkResp status NoLocation (print v) false).
Definition not_found : option http_resp := answer_json 404 (VObj []).

Definition gandi_answer (q : http_req) (s : option gandiRRSet) : option http_resp * option gandiRRSet :=
  if bool_decide (q_URL q = gandiAPIBase ++ go "/domains/" ++ PathEscape zone) && bool_decide (q_Method q = GET) then (answer_json 200 (VObj [(go "fqdn", str zone)]), s) else
  if bool_decide (q_URL q = gandiAPIBase ++ gandiRRSetPath zone relative) then
    if bool_decide (q_Method q = GET) then (match s with Some r => answer_json 200 (gandiRRSet_json r) | None => not_found end, s) else
    if bool_decide (q_Method q = PUT) then
      match (raw ← q_Body q; Unmarshal into_gandiRRSet raw (MkGandiRRSet 0 [])) with
      | Some r => (answer_json 201 (VObj []), Some r)
      | None => (answer_json 400 (VObj []), s)
      end else
    if bool_decide (q_Method q = DELETE) then (match s with Some _ => answer_json 204 (VObj []) | None => not_found end, None) else (answer_json 405 (VObj []), s)
  else (not_found, s).
Definition gandi_service : environment api (option gandiRRSet) := λ X e s,
  match e in api X return X * option gandiRRSet with
  | Send q => gandi_answer q s
  | Clock => (0, s)
  | Locked f => (f None, s)
  | Exchange _ _ _ => (Err errTransport, s)
  end.

(** *** Plain URLs *)

Definition plain (c : ascii) : bool := alnum c || mem_byte c (go "-._").

Lemma plain_ascii c : plain c = true → byte_val c < 128 ∧ 32 ≤ byte_val c ∧ byte_val c ≠ 127 ∧ c ≠ PERCENT ∧ c ≠ HASH ∧ c ≠ QMARK.
Proof.
  clear. destruct c as [b0 b1 b2 b3 b4 b5 b6 b7]. destruct b0, b1, b2, b3, b4, b5, b6, b7; vm_compute; intros H; (discriminate H || (split_and!; [done|done|done|discriminate..])).
Qed.

Lemma PathEscape_plain s : forallb plain s = true → PathEscape s = s.
Proof.
  induction s as [|c s IH]; [done|]. cbn [forallb]. intros [Hc Hs]%andb_prop. unfold PathEscape in *. rewrite bind_cons, IH by done.
  replace (alnum c || mem_byte c (go "-_.~$&+=:@")) with true; [done|]. symmetry. apply orb_true_iff. apply orb_true_iff in Hc as [Hc|Hc]; [by left|right].
  apply mem_byte_elem in Hc. apply mem_byte_elem. unfold go in *. cbn [list_ascii_of_string] in *. rewrite !elem_of_cons in *. rewrite elem_of_nil in Hc. tauto.
Qed.
Definition safe (c : ascii) : bool := (32 <=? byte_val c) && negb (byte_val c =? 127) && negb (mem_byte c [PERCENT; HASH; QMARK]).

Lemma plain_safe s : forallb plain s = true → forallb safe s = true.
Proof.
  rewrite !forallb_forall. intros H c Hc. apply H, plain_ascii in Hc as (_ & H32 & H127 & Hp & Hh & Hq). unfold safe.
  rewrite (proj2 (Z.leb_le _ _)) by done. rewrite (proj2 (Z.eqb_neq _ _)) by done. cbn [negb andb]. apply negb_true_iff. apply not_true_is_false. intros Hm%mem_byte_elem.
  rewrite !elem_of_cons, elem_of_nil in Hm. destruct Hm as [->|[->|[->|[]]]]; done.
Qed.

Lemma index_byte_absent c s : c ∉ s → index_byte c s = None.
Proof. induction s as [|b s IH]; [done|]. rewrite not_elem_of_cons. intros [Hb Hs]. cbn [index_byte]. rewrite decide_False by done. by rewrite IH. Qed.

Lemma safe_not c s : forallb safe s = true → c ∈ [PERCENT; HASH; QMARK] → c ∉ s.
Proof.
  rewrite forallb_forall. intros H Hc Hin. apply list_elem_of_In in Hin. apply H in Hin. unfold safe in Hin. apply andb_prop in Hin as [_ Hin]. apply negb_true_iff in Hin.
  by rewrite (proj2 (mem_byte_elem _ _) Hc) in Hin.
Qed.

Lemma escapes_ok_absent s : PERCENT ∉ s → escapes_ok s = true.
Proof. induction s as [|b s IH]; [done|]. rewrite not_elem_of_cons. intros [Hb Hs]. cbn [escapes_ok]. rewrite bool_decide_eq_false_2 by done. by apply IH. Qed.

Lemma url_ok_safe u : forallb safe u = true → url_ok u = true.
Proof.
  intros H. unfold url_ok. replace (existsb _ u) with false.
  2:{ symmetry. apply not_true_is_false. intros (c & Hc & E)%existsb_exists. rewrite forallb_forall in H. apply H in Hc. unfold safe in Hc. reflect_bools.
      apply orb_true_iff in E as [E|E]; reflect_bools; lia. }
  cbn [negb andb]. unfold cut. rewrite (index_byte_absent HASH) by (apply (safe_not HASH); [done|]; right; left).
  rewrite (index_byte_absent QMARK) by (apply (safe_not QMARK); [done|]; do 2 right; left). cbn [fst]. apply (escapes_ok_absent u). apply safe_not; [done|left].
Qed.

(** *** Record sets that JSON can carry *)

Definition set_carried (r : gandiRRSet) : Prop :=
  int64_range (grr_TTL r) ∧ Forall (λ v, valid_utf8 v = true) (grr_Values r) ∧ Z.of_nat (length (print (gandiRRSet_json r))) < gandiMaxBody.

Lemma strs_writable l : Forall (λ v, valid_utf8 v = true) l → writable (strs l) ∧ (depth (strs l) ≤ 1)%nat.
Proof.
  intros H. split; [apply writable_arr, Forall_fmap; exact H|]. unfold strs. cbn [depth]. enough (foldr (λ v n, Nat.max (depth v) n) 0%nat (str <$> l) = 0%nat) by lia.
  clear H. induction l as [|v l IH]; [done|]. cbn [fmap list_fmap foldr]. by rewrite IH.
Qed.

Lemma into_strs l old : into_list [] into_string (strs l) old = Some l.
Proof. unfold into_list, strs. apply (mapM_print str into_string). by intros x _. Qed.

Lemma gandiRRSet_read r : set_carried r → Unmarshal into_gandiRRSet (print (gandiRRSet_json r)) (MkGandiRRSet 0 []) = Some r.
Proof.
  intros (Ht & Hv & _). destruct (strs_writable _ Hv) as [Hw Hd]. unfold Unmarshal. rewrite whole_print.
  - cbn [mbind option_bind]. unfold gandiRRSet_json, int, into_gandiRRSet.
    store_struct with (first [rewrite Atoi_FormatInt by done | rewrite into_strs]). by destruct r.
  - cbn [writable gandiRRSet_json foldr]. split_and!; try done. by eexists.
  - cbn [depth gandiRRSet_json foldr snd int]. unfold max_depth. lia.
Qed.
Lemma json_chars_length fuel s : (length (json_chars fuel s) ≤ 6 * length s)%nat.
Proof.
  revert s. induction fuel as [|fuel IH]; intros [|c s]; cbn [json_chars length]; [lia..|]. destruct (decode_rune (c :: s)) as [r w] eqn:E.
  pose proof (decode_rune_width c s) as Hw. rewrite E in Hw. cbn [snd length] in Hw. rewrite length_app. specialize (IH (drop w (c :: s))). rewrite length_drop in IH. cbn [length] in IH.
  assert (length (json_rune r w (c :: s)) ≤ 6 * w)%nat; [|lia]. unfold json_rune, json_hex. repeat (case_match; [unfold go; cbn [length app list_ascii_of_string]; lia|]). rewrite length_take. lia.
Qed.

Lemma valid_utf8_ascii s : Forall (λ c, byte_val c < 128) s → valid_utf8 s = true.
Proof.
  intros H. unfold valid_utf8. rewrite runes_all_ascii by done. apply forallb_forall. intros [r w] Hin. apply list_elem_of_In, list_elem_of_fmap in Hin as (c & [= -> ->] & Hc).
  rewrite Forall_forall in H. specialize (H c Hc). cbv beta in H. unfold RuneError. destruct (_ =? 65533) eqn:E; [reflect_bools; lia|done].
Qed.

Lemma trim_suffix_id c s : last s ≠ Some c → trim_suffix [c] s = s.
Proof.
  intros H. unfold trim_suffix, has_suffix. destruct s as [|d l _] using rev_ind; [done|]. rewrite rev_app_distr. cbn [rev app has_prefix].
  rewrite bool_decide_eq_false_2; [done|]. intros ->. by rewrite last_snoc in H.
Qed.

(** *** The service answers *)

Section domain.
Context (Hv : validDomainName zone = true) (Hdot : DOT ∈ zone) (Hlast : last zone ≠ Some DOT) (Hrel : relative = challengePrefix).
Context (p : gandiProvider).

Lemma zone_plain : forallb plain zone = true.
Proof. unfold validDomainName in Hv. by apply andb_prop in Hv as [_ ?]. Qed.
Lemma zone_ascii : Forall (λ c, byte_val c < 128) zone.
Proof. apply Forall_forall. intros c Hc. pose proof zone_plain as H. rewrite forallb_forall in H. apply list_elem_of_In, H, plain_ascii in Hc. tauto. Qed.
Lemma zone_length : (length zone ≤ 253)%nat.
Proof. unfold validDomainName in Hv. apply andb_prop in Hv as [H _]. reflect_bools. lia. Qed.

Definition zone_url : gostring := gandiAPIBase ++ go "/domains/" ++ PathEscape zone.
Definition set_url : gostring := gandiAPIBase ++ gandiRRSetPath zone relative.

Lemma zone_url_ok : url_ok zone_url = true.
Proof. apply url_ok_safe. unfold zone_url. rewrite (PathEscape_plain zone zone_plain), !forallb_app, (plain_safe zone zone_plain). by vm_compute. Qed.
Lemma set_url_ok : url_ok set_url = true.
Proof.
  apply url_ok_safe. unfold set_url, gandiRRSetPath. rewrite (PathEscape_plain zone zone_plain), Hrel. rewrite !forallb_app, (plain_safe zone zone_plain). by vm_compute.
Qed.
Lemma urls_differ : set_url ≠ zone_url.
Proof.
  unfold set_url, zone_url, gandiRRSetPath. intros H. apply (f_equal length) in H. rewrite !length_app in H. unfold go in H. cbn [length list_ascii_of_string] in H. lia.
Qed.

(** A call whose answer is read whole. *)
Lemma gandi_do_run {A} method path body (decode : bytes → option A) s status v s' :
  url_ok (gandiAPIBase ++ path) = true → Z.of_nat (length (print v)) < gandiMaxBody →
  gandi_answer (MkReq method (gandiAPIBase ++ path) ((go "Authorization", go "Bearer " ++ trim_space (gd_token p)) :: json_headers) body) s = (answer_json status v, s') →
  run gandi_service (gandi_do p method path body decode) s = (accept errGandiNotFound gandiError decode (status, print v), s').
Proof.
  intros Hu Hl Ha. unfold gandi_do, bind_ok, send, client_Do. rewrite Hu. cbn [negb do_from ask bind]. cbn [run gandi_service]. rewrite Ha. unfold answer_json. cbn [bind p_Location p_StatusCode].
  destruct (redirectBehavior _ _) as [[]|]; cbn [bind run]; unfold read_limited; cbn [p_Body p_BodyErr p_StatusCode]; by rewrite (proj2 (Z.leb_gt _ _)) by done.
Qed.

Lemma empty_short : Z.of_nat (length (print (VObj []))) < gandiMaxBody.
Proof. by vm_compute. Qed.

Lemma domain_answer_run s : run gandi_service (gandi_do p GET (go "/domains/" ++ PathEscape zone) None (λ raw, Unmarshal into_gandiDomain raw [])) s = (Ok zone, s).
Proof.
  erewrite (gandi_do_run _ _ _ _ _ 200 (VObj [(go "fqdn", str zone)])); [|exact zone_url_ok| |].
  - unfold accept. cbn [Z.eqb Z.ltb Z.leb Z.compare orb Pos.eqb Pos.compare Pos.compare_cont]. unfold Unmarshal. rewrite whole_print.
    + done.
    + cbn. split_and!; try done. apply valid_utf8_ascii, zone_ascii.
    + cbn. unfold max_depth. lia.
  - cbn [print fmap list_fmap fst snd json_seq]. unfold json_member, json_string, str. cbn [print]. unfold json_string. pose proof (json_chars_length (length zone) zone) as H1. pose proof zone_length as H2.
    unfold json_seq. repeat (rewrite ?length_app; cbn [length app json_tail]). pose proof (json_chars_length (length (go "fqdn")) (go "fqdn")) as H3. change (length (go "fqdn")) with 4%nat in *. change gandiMaxBody with 1048576. lia.
  - unfold gandi_answer. cbn [q_URL q_Method]. by rewrite !bool_decide_eq_true_2 by done.
Qed.
Definition recordName : gostring := challengePrefix ++ DOT :: zone.

Lemma recordName_trim : trim_suffix [DOT] recordName = recordName.
Proof.
  apply trim_suffix_id. unfold recordName. destruct zone as [|c z]; [by apply not_elem_of_nil in Hdot|]. intros H. apply Hlast. rewrite <- H. by rewrite last_app_cons.
Qed.

Lemma index_byte_prefix c s t : c ∉ s → index_byte c (s ++ c :: t) = Some (length s).
Proof. induction s as [|b s IH]; cbn [app index_byte length]; [by rewrite decide_True|]. rewrite not_elem_of_cons. intros [Hb Hs]. rewrite decide_False by done. by rewrite IH. Qed.

Lemma EqualFold_refl s : EqualFold s s = true.
Proof. by apply bool_decide_eq_true_2. Qed.

Lemma folded_length s : Forall (λ c, byte_val c < 128) s → length (folded s) = length s.
Proof. intros H. unfold folded. rewrite length_fmap, runes_all_ascii by done. by rewrite length_fmap. Qed.

Lemma domainFor_run s : run gandi_service (gandi_domainFor p recordName) s = (Ok zone, s).
Proof.
  unfold gandi_domainFor, walk_zones. rewrite recordName_trim. unfold maxZoneLabels. cbn [walk].
  assert (index_byte DOT recordName = Some (length challengePrefix)) as ->. { apply index_byte_prefix. refine (bool_decide_unpack _ _). vm_compute. exact I. }
  assert (drop (S (length challengePrefix)) recordName = zone) as ->. { unfold recordName. rewrite (drop_app_ge _ _ (S _)) by lia. by replace (S (length challengePrefix) - length challengePrefix)%nat with 1%nat by lia. }
  rewrite (proj2 (mem_byte_elem _ _) Hdot). cbn [negb]. rewrite Hv. cbn [negb]. rewrite run_bind, run_bind, domain_answer_run. cbn [run].
  by rewrite (trim_suffix_id DOT zone), EqualFold_refl by done.
Qed.

Lemma recordName_relative : gandiRecordName recordName zone = Ok relative.
Proof.
  unfold gandiRecordName, relative_for, relativeRecordName. rewrite recordName_trim, (trim_suffix_id DOT zone) by done.
  assert (length recordName = length challengePrefix + S (length zone))%nat as Hlen by (unfold recordName; by rewrite length_app).
  assert (EqualFold recordName zone = false) as ->.
  { apply bool_decide_eq_false_2. intros H. apply (f_equal length) in H. pose proof zone_ascii as Ha. rewrite !folded_length in H; [|done|].
    - lia.
    - apply Forall_app. split; [|constructor; [done|exact Ha]]. refine (bool_decide_unpack _ _). vm_compute. exact I. }
  rewrite (proj2 (Nat.leb_gt _ _)). 2:{ rewrite Hlen. change (length challengePrefix) with 15%nat. lia. }
  replace (length recordName - length zone)%nat with (S (length challengePrefix)) by lia.
  assert (drop (S (length challengePrefix)) recordName = zone) as ->. { unfold recordName. rewrite (drop_app_ge _ _ (S _)) by lia. by replace (S (length challengePrefix) - length challengePrefix)%nat with 1%nat by lia. }
  rewrite EqualFold_refl. cbn [negb orb]. replace (S (length challengePrefix) - 1)%nat with (length challengePrefix) by lia.
  rewrite bool_decide_eq_true_2. 2:{ unfold recordName. by rewrite list_lookup_middle. }
  cbn [negb]. unfold recordName. by rewrite take_app_length, Hrel.
Qed.

(** What is read of a set, as values and lifetime. *)
Definition set_view (s : option gandiRRSet) : list gostring * Z := match s with Some r => (grr_Values r, grr_TTL r) | None => ([], 0) end.

Ltac no_zone_url := rewrite (bool_decide_eq_false_2 (_ = gandiAPIBase ++ go "/domains/" ++ PathEscape zone)) by (apply urls_differ).

Lemma currentTXT_run s : (∀ r, s = Some r → set_carried r) → run gandi_service (gandi_currentTXT p zone relative) s = (Ok (set_view s), s).
Proof.
  intros Hs. unfold gandi_currentTXT. rewrite run_bind. destruct s as [r|].
  - destruct (Hs r eq_refl) as (Ht & Hvs & Hl).
    rewrite (gandi_do_run _ _ _ _ _ 200 (gandiRRSet_json r) (Some r)); [|exact set_url_ok|exact Hl|].
    + unfold accept. cbn [Z.eqb Z.ltb Z.leb Z.compare orb Pos.eqb Pos.compare Pos.compare_cont]. by rewrite gandiRRSet_read by done.
    + unfold gandi_answer. cbn [q_URL q_Method]. no_zone_url. cbn [andb]. by rewrite !bool_decide_eq_true_2 by done.
  - rewrite (gandi_do_run _ _ _ _ _ 404 (VObj []) None); [done|exact set_url_ok|exact empty_short|].
    unfold gandi_answer. cbn [q_URL q_Method]. no_zone_url. cbn [andb]. by rewrite !bool_decide_eq_true_2 by done.
Qed.

Lemma putTXT_run s ttl values : set_carried (MkGandiRRSet ttl values) → run gandi_service (gandi_putTXT p zone relative ttl values) s = (Ok tt, Some (MkGandiRRSet ttl values)).
Proof.
  intros Hc. unfold gandi_putTXT. rewrite (gandi_do_run _ _ _ _ _ 201 (VObj []) (Some (MkGandiRRSet ttl values))); [done|exact set_url_ok|exact empty_short|].
  unfold gandi_answer. cbn [q_URL q_Method q_Body]. no_zone_url. cbn [andb]. rewrite (bool_decide_eq_true_2 (_ = gandiAPIBase ++ gandiRRSetPath zone relative)) by done.
  rewrite (bool_decide_eq_false_2 (PUT = GET)) by done. rewrite (bool_decide_eq_true_2 (PUT = PUT)) by done. cbn [mbind option_bind]. by rewrite gandiRRSet_read by done.
Qed.

Lemma deleteTXT_run r : run gandi_service (gandi_deleteTXT p zone relative) (Some r) = (Ok tt, None).
Proof.
  unfold gandi_deleteTXT. rewrite run_bind. rewrite (gandi_do_run _ _ _ _ _ 204 (VObj []) None); [done|exact set_url_ok|exact empty_short|].
  unfold gandi_answer. cbn [q_URL q_Method q_Body]. no_zone_url. cbn [andb]. rewrite (bool_decide_eq_true_2 (_ = gandiAPIBase ++ gandiRRSetPath zone relative)) by done.
  rewrite (bool_decide_eq_false_2 (DELETE = GET)), (bool_decide_eq_false_2 (DELETE = PUT)) by done. by rewrite (bool_decide_eq_true_2 (DELETE = DELETE)) by done.
Qed.
Definition raised (ttl : Z) : Z := if ttl <? gandiChallengeTTL then gandiChallengeTTL else ttl.

(** The set with the value taken out of it. *)
Definition withdrawn (value : gostring) (s : option gandiRRSet) : option gandiRRSet :=
  match indexOfTXT (set_view s).1 value with
  | None => s
  | Some idx => let remaining := delete idx (set_view s).1 in if bool_decide (remaining = []) then None else Some (MkGandiRRSet (raised (set_view s).2) remaining)
  end.

Lemma removeValue_run value s : (∀ r, s = Some r → set_carried r) → (∀ r, withdrawn value s = Some r → set_carried r) →
  run gandi_service (gandi_removeValue p zone relative value) s = (Ok tt, withdrawn value s).
Proof.
  intros Hs Hw. unfold gandi_removeValue. erewrite run_bind_ok; [|by apply run_on_err, currentTXT_run]. unfold withdrawn in *. destruct (set_view s) as [existing ttl] eqn:Ev. cbn [fst snd] in *.
  destruct (indexOfTXT existing value) as [idx|] eqn:Ei; [|done]. cbv zeta in *. case_bool_decide as He.
  - destruct s as [r|]; [by apply run_on_err, deleteTXT_run|]. injection Ev as <- <-. done.
  - apply run_on_err, putTXT_run. by apply Hw.
Qed.

Lemma Present_run value s : (∀ r, s = Some r → set_carried r) → indexOfTXT (set_view s).1 value = None →
  let published := MkGandiRRSet (raised (set_view s).2) ((set_view s).1 ++ [value]) in set_carried published →
  run gandi_service (gandi_Present p (MkDNSRecord recordName value)) s = ((Some (gandi_removeValue p zone relative value), None), Some published).
Proof.
  intros Hs Hi published Hp. unfold gandi_Present, need. cbn [rec_Name rec_Value]. rewrite run_bind, domainFor_run, recordName_relative. cbn [bind].
  rewrite run_bind, currentTXT_run by done. destruct (set_view s) as [existing ttl]. cbn [fst snd] in *. rewrite Hi. unfold Dns01.published. rewrite run_bind.
  erewrite run_on_err; [done|]. by apply putTXT_run.
Qed.
End domain.
End gandi.

Lemma indexOfTXT_snoc values value : strip_quotes value = value → indexOfTXT values value = None → indexOfTXT (values ++ [value]) value = Some (length values).
Proof.
  intros Hq H. unfold indexOfTXT in *. destruct (list_find _ values) as [[i x]|] eqn:E; [done|].
  rewrite (list_find_app_r _ _ _ E). cbn [list_find]. by rewrite decide_True by done.
Qed.

(** At a service that does what its API says, a challenge for a zone or for its wildcard adds
    its value to those that the name has and takes it out again, later, from whatever the name
    has then; if nothing else changed, what was there is there again. *)
Theorem gandi_round_trip `{UnicodeCase} creds prov zone identifier value s :
  NewGandi creds = Ok prov → validDomainName zone = true → DOT ∈ zone → last zone ≠ Some DOT → identifier = zone ∨ identifier = go "*." ++ zone →
  (∀ r, s = Some r → set_carried r) → indexOfTXT (set_view s).1 value = None → strip_quotes value = value →
  let published := MkGandiRRSet (raised (set_view s).2) ((set_view s).1 ++ [value]) in set_carried published →
  let service := gandi_service zone challengePrefix in
  ∃ cleanup, run service (Present prov (MkDNSRecord (ChallengeRecordName identifier) value)) s = ((Some cleanup, None), Some published) ∧
    (∀ s', (∀ r, s' = Some r → set_carried r) → (∀ r, withdrawn value s' = Some r → set_carried r) → run service cleanup s' = (Ok tt, withdrawn value s')) ∧
    withdrawn value (Some published) = match (set_view s).1 with [] => None | vs => Some (MkGandiRRSet (raised (set_view s).2) vs) end.
Proof.
  intros Hnew Hv Hdot Hlast Hid Hs Hi Hq published Hp service. unfold NewGandi in Hnew. destruct (single_token _ _) as [token|]; [|done]. injection Hnew as <-. cbn [Present].
  assert (ChallengeRecordName identifier = recordName zone) as ->.
  { unfold ChallengeRecordName, recordName. do 2 f_equal. destruct Hid as [->| ->].
    - unfold cut_prefix. destruct (has_prefix (go "*.") zone) eqn:E; [|done]. destruct zone as [|c z]; [done|]. exfalso. unfold go in E. cbn [list_ascii_of_string has_prefix] in E.
      reflect_bools. subst c. unfold validDomainName in Hv. apply andb_prop in Hv as [_ Hv]. by vm_compute in Hv.
    - done. }
  exists (gandi_removeValue (MkGandi token) zone challengePrefix value). split; [by apply Present_run|]. split; [by intros s' Hs' Hw; apply removeValue_run|].
  unfold withdrawn. cbn [set_view published grr_Values grr_TTL fst snd]. rewrite indexOfTXT_snoc by done.
  rewrite (delete_middle (set_view s).1 [] value), app_nil_r. cbv zeta.
  assert (raised (raised (set_view s).2) = raised (set_view s).2) as Hr. { unfold raised. destruct ((set_view s).2 <? gandiChallengeTTL) eqn:E; [done|by rewrite E]. }
  rewrite Hr. by destruct (set_view s).1.
Qed.

Module GandiSample.
#[export] Instance ascii_case : UnicodeCase := {| fold_above := id; lower_above := id |}.
Definition before : option gandiRRSet := Some (MkGandiRRSet 600 [go "other"]).
Definition after : gandiRRSet := MkGandiRRSet 600 [go "other"; go "value"].
End GandiSample.
Import GandiSample.

Lemma carried_sample l : l = [go "other"] ∨ l = [go "other"; go "value"] → set_carried (MkGandiRRSet 600 l).
Proof.
  intros [->| ->]; (split; [split; vm_compute; discriminate|]); (split; [repeat constructor|]); vm_compute; reflexivity.
Qed.

Lemma gandi_round_trip_witness : ∃ p cleanup, NewGandi (NewSingleCredential (go "token")) = Ok p ∧
  let service := gandi_service (go "example.com") challengePrefix in
  run service (Present p (MkDNSRecord (ChallengeRecordName (go "*.example.com")) (go "value"))) GandiSample.before = ((Some cleanup, None), Some GandiSample.after) ∧
  run service cleanup (Some GandiSample.after) = (Ok tt, GandiSample.before).
Proof.
  assert (∀ r, GandiSample.before = Some r → set_carried r) as Hb by (intros r [= <-]; apply carried_sample; by left).
  eexists. destruct (gandi_round_trip (NewSingleCredential (go "token")) _ (go "example.com") (go "*.example.com") (go "value") GandiSample.before
    eq_refl eq_refl ltac:(refine (bool_decide_unpack _ _); vm_compute; exact I) ltac:(vm_compute; discriminate) (or_intror eq_refl) Hb eq_refl eq_refl
    (carried_sample _ (or_intror eq_refl))) as (cleanup & Hrun & Hclean & Hback).
  exists cleanup. split; [reflexivity|]. split; [exact Hrun|].
  specialize (Hclean (Some GandiSample.after)). replace (withdrawn (go "value") (Some GandiSample.after)) with GandiSample.before in Hclean by (symmetry; exact Hback).
  apply Hclean; [|exact Hb]. intros r [= <-]. apply carried_sample. by right.
Defined.

(** ** Cloudflare's service, with a lost answer

    Every zone that is asked for exists; a record is created, but the answer does not arrive. *)

Definition zone_answer : jvalue := VObj [(go "success", VBool true); (go "errors", VArr []); (go "result", VArr [VObj [(go "id", str (go "z1"))]])].
Definition lossy_service : environment api (list bytes) := λ X e s,
  match e in api X return X * list bytes with
  | Send q => if bool_decide (q_Method q = POST) then (None, s ++ option_list (q_Body q)) else (answer_json 200 zone_answer, s)
  | Clock => (0, s)
  | Locked f => (f None, s)
  | Exchange _ _ _ => (Err errTransport, s)
  end.

(** The record is there and no cleanup was returned. *)
Theorem cloudflare_leak : ∃ e body,
  (let '(r, s) := run lossy_service (cloudflare_Present (MkCloudflare (go "token")) (MkDNSRecord (go "_acme-challenge.example.com") (go "value"))) [] in
   r = (None, Some e) ∧ s = [body]).
Proof. do 2 eexists. vm_compute. split; reflexivity. Qed.
