(* ===== verification/CertFiles.v ===== *)
(** * Certificates: keys and files

    [internal/transport/http] certprovider.go and certcsr.go: what may be presented to a client,
    and the files that keys and certificates are kept in.  Certificates, keys and PEM are
    parameters ([X509]), with the laws that reading back needs ([X509Laws]). *)

From S2P Require Import Prelude GoLib ManagedBlock RateLimit NetIP GoNum Secrets Config Program Dns01 DnsSolver.

Open Scope Z_scope.
Open Scope prog_scope.

(** ** Certificates and keys *)

(** [x509.Certificate], as far as it is looked at. *)
Record Certificate {pubkey : Type} := MkCertificate { NotBefore : time; NotAfter : time; PublicKey : pubkey }.
Arguments Certificate : clear implicits.
Arguments MkCertificate {pubkey}.

(** What a [crypto.PrivateKey] can be. *)
Inductive PrivateKey {signer : Type} :=
  | NilKey
  | NotSigner
  | Incomparable
  | Signer (k : signer).
Arguments PrivateKey : clear implicits.

(** [ParsePKCS8PrivateKey] has an error, or a key that may not be one that signs; [pem_Decode]
    gives the next block, its type and bytes, and the rest. *)
Class X509 := {
  signer : Type;
  pubkey : Type;
  Public : signer → pubkey;
  pub_Equal : pubkey → pubkey → bool;
  ParseCertificate : bytes → option (Certificate pubkey);
  ParsePKCS8PrivateKey : bytes → option (option signer);
  MarshalPKCS8PrivateKey : signer → option bytes;
  pem_Decode : bytes → option ((gostring * bytes) * bytes);
  pem_Encode : gostring → bytes → bytes;
}.
Class X509Laws `{!X509} : Prop := {
  pem_decode_encode t b rest : pem_Decode (pem_Encode t b ++ rest) = Some ((t, b), rest);
  pem_decode_nil : pem_Decode [] = None;
  pem_decode_shorter s b rest : pem_Decode s = Some (b, rest) → (length rest < length s)%nat;
  pkcs8_parse_marshal k b : MarshalPKCS8PrivateKey k = Some b → ParsePKCS8PrivateKey b = Some (Some k);
}.

(** [tls.Certificate] *)
Record tls_cert `{X509} := MkTLSCert { tc_Certificate : list bytes; tc_PrivateKey : PrivateKey signer; tc_Leaf : option (Certificate pubkey) }.
Arguments MkTLSCert {_}.

(** ** Errors *)

(** src/internal/transport/http/errors.go:9-14, ErrTLSModeUnsupported *)
Definition ErrTLSModeUnsupported : goerror := errors_new "httpserver: tls mode unsupported".
(** src/internal/transport/http/errors.go:16-21, ErrSelfSignedInProduction *)
Definition ErrSelfSignedInProduction : goerror := errors_new "httpserver: self-signed certificate refused in production".
(** src/internal/transport/http/errors.go:23-25, ErrTLSMinVersion *)
Definition ErrTLSMinVersion : goerror := errors_new "httpserver: unsupported tls min version".
(** src/internal/transport/http/errors.go:27-35, ErrTLSCertificateInvalid *)
Definition ErrTLSCertificateInvalid : goerror := errors_new "httpserver: invalid tls certificate material".
(** src/internal/transport/http/errors.go:37-45, ErrTLSCertificateExpired *)
Definition ErrTLSCertificateExpired : goerror := errors_new "httpserver: tls certificate outside its validity window".
(** src/internal/transport/http/errors.go:47-56, ErrTLSCertificateUnavailable *)
Definition ErrTLSCertificateUnavailable : goerror := errors_new "httpserver: no tls certificate available".
(** src/internal/transport/http/errors.go:58-67, ErrTLSCSRPending *)
Definition ErrTLSCSRPending : goerror := errors_new "httpserver: awaiting an externally signed certificate".
(** src/internal/transport/http/errors.go:69-74, ErrACMEAccount *)
Definition ErrACMEAccount : goerror := errors_new "httpserver: acme account unavailable".
(** src/internal/transport/http/errors.go:76-84, ErrACMETermsNotAccepted *)
Definition ErrACMETermsNotAccepted : goerror := errors_new "httpserver: acme terms of service not accepted".
(** src/internal/transport/http/errors.go:86-96, ErrACMEIssuance *)
Definition ErrACMEIssuance : goerror := errors_new "httpserver: acme certificate unavailable".
(** src/internal/transport/http/errors.go:98-107, ErrOriginCACredential *)
Definition ErrOriginCACredential : goerror := errors_new "httpserver: cloudflare origin ca credential unavailable".
(** src/internal/transport/http/errors.go:109-117, ErrOriginCAIssuance *)
Definition ErrOriginCAIssuance : goerror := errors_new "httpserver: cloudflare origin ca certificate unavailable".
(** src/internal/transport/http/errors.go:119-130, ErrOriginCADirectClient *)
Definition ErrOriginCADirectClient : goerror := errors_new "httpserver: origin certificate withheld from a non-proxy peer".
(** src/internal/transport/http/errors.go:132-139, ErrTLSKeyPermissions *)
Definition ErrTLSKeyPermissions : goerror := errors_new "httpserver: tls private key has unsafe file permissions".

(** ** What may be presented *)

(** src/internal/transport/http/certprovider.go:186-222, checkKeyMatchesLeaf *)
Definition checkKeyMatchesLeaf `{X509} (key : PrivateKey signer) (leaf : Certificate pubkey) : option goerror :=
  match key with
  | NilKey => Some (errorf "certificate has no private key" [ErrTLSCertificateInvalid])
  | NotSigner => Some (errorf "private key cannot sign" [ErrTLSCertificateInvalid])
  | Incomparable => Some (errorf "private key cannot be compared to the certificate" [ErrTLSCertificateInvalid])
  | Signer k => if negb (pub_Equal (Public k) (PublicKey leaf)) then Some (errorf "private key does not match the certificate" [ErrTLSCertificateInvalid]) else None
  end.

(** src/internal/transport/http/certprovider.go:132-184, validateCertificate *)
Definition validateCertificate `{X509} (cert : tls_cert) (now : time) : option goerror :=
  match tc_Certificate cert with
  | [] => Some (errorf "certificate chain is empty" [ErrTLSCertificateInvalid])
  | der :: _ =>
      match ParseCertificate der with
      | None => Some (errorf "parse leaf" [ErrTLSCertificateInvalid])
      | Some leaf =>
          match checkKeyMatchesLeaf (tc_PrivateKey cert) leaf with
          | Some e => Some e
          | None =>
              if now <? NotBefore leaf then Some (errorf "not valid before" [ErrTLSCertificateExpired]) else
              if NotAfter leaf <? now then Some (errorf "expired" [ErrTLSCertificateExpired]) else None
          end
      end
  end.

(** ** The world

    What the code that provides certificates asks: files and directories, the clock, keys and
    signatures (which are random), the certificate authority of ACME, an HTTP server, what a
    DNS-01 solver asks; waits; and its writes to what handshakes read, which other goroutines
    see as soon as they are made. *)

(** [acme.Challenge], [acme.Authorization] and [acme.Order]. *)
Record Challenge := MkChallenge { ch_Type : gostring; ch_URI : gostring; ch_Token : gostring }.
Record Authorization := MkAuthorization { az_Status : gostring; az_Identifier : gostring; az_Challenges : list Challenge }.
Record Order := MkOrder { or_URI : gostring; or_AuthzURLs : list gostring; or_FinalizeURL : gostring; or_CertURL : gostring }.

(** The names that a request for a certificate, or a certificate, is made for. *)
Record names := MkNames { nm_CommonName : gostring; nm_DNSNames : list gostring; nm_IPAddresses : list Addr }.

Inductive waited := Stopped | Fired.

Inductive world `{X509} : Type → Type :=
  | ReadFile (path : gostring) : world (result bytes)
  | Stat (path : gostring) : world (result Z)
  | MkdirAll (path : gostring) (mode : Z) : world (option goerror)
  | CreateTemp (dir : gostring) : world (result gostring)
  | FileChmod (name : gostring) (perm : Z) : world (option goerror)
  | FileWrite (name : gostring) (data : bytes) : world (option goerror)
  | FileSync (name : gostring) : world (option goerror)
  | FileClose (name : gostring) : world (option goerror)
  | Rename (from to : gostring) : world (option goerror)
  | RemoveFile (name : gostring) : world (option goerror)
  | Now : world time
  | GenerateKey : world (result signer)
  | CreateCSR (n : names) (k : signer) : world (result bytes)
  | CreateSelfSigned (n : names) (notBefore notAfter : time) : world (result (bytes * signer))
  | LoadKeyPair (certFile keyFile : gostring) : world (result tls_cert)
  | RandomNumber : world (result Z)
  | Register (contact : list gostring) : world (option goerror)
  | AuthorizeOrder (domains : list gostring) : world (result Order)
  | GetAuthorization (url : gostring) : world (result Authorization)
  | AcceptChallenge (c : Challenge) : world (option goerror)
  | WaitAuthorization (url : gostring) : world (option goerror)
  | WaitOrder (uri : gostring) : world (result Order)
  | CreateOrderCert (url : gostring) (csr : bytes) : world (result (list bytes))
  | FetchCert (url : gostring) : world (result (list bytes))
  | TLSALPN01ChallengeCert (token identifier : gostring) : world (result tls_cert)
  | DNS01ChallengeRecord (token : gostring) : world (result gostring)
  | HTTPDo (q : http_req) : world (option http_resp)
  | OfSolving X (e : solving X) : world X
  | SelectTimer (wait : duration) : world waited
  | SetCurrent (c : tls_cert) : world unit
  | SetChallenge (name : gostring) (c : tls_cert) : world unit
  | ClearChallenge (name : gostring) : world unit.

Section files.
Context `{X509}.

Definition proc : Type → Type := prog world.

(** [filepath.Join] of two elements, and [filepath.Dir]. *)
Definition filepath_Join (dir name : gostring) : gostring :=
  match dir, name with
  | [], [] => []
  | [], _ => filepath_Clean name
  | _, [] => filepath_Clean dir
  | _, _ => filepath_Clean (dir ++ slash :: name)
  end.
Definition filepath_Dir (p : gostring) : gostring := filepath_Clean (filepath_Split p).1.

(** ** Files *)

(** src/internal/transport/http/certcsr.go:23-38, keyFileMode *)
Definition keyFileMode : Z := 6 * 64. (* 0o600 *)
Definition csrFileMode : Z := 6 * 64 + 4 * 8 + 4. (* 0o644 *)
Definition groupOtherReadWrite : Z := 7 * 8 + 7. (* 0o077 *)

(** Steps that each may fail, until one does. *)
Fixpoint first_error (steps : list (proc (option goerror))) : proc (option goerror) :=
  match steps with
  | [] => Ret None
  | m :: steps => try! r := m in match r with Some e => Ret (Some e) | None => first_error steps end
  end.

(** The deferred calls close and remove the temporary file on every way out.

    src/internal/transport/http/certcsr.go:261-313, atomicWriteFile *)
Definition atomicWriteFile (path : gostring) (data : bytes) (perm : Z) : proc (option goerror) :=
  try! tmp := ask (CreateTemp (filepath_Dir path)) in
  match tmp with
  | Err e => Ret (Some e)
  | Ok name =>
      try! err := first_error [ask (FileChmod name perm); ask (FileWrite name data); ask (FileSync name); ask (FileClose name); ask (Rename name path)] in
      try! closed := ask (FileClose name) in
      try! removed := ask (RemoveFile name) in
      Ret err
  end.

(** src/internal/transport/http/certcsr.go:128-161, parseKey *)
Definition parseKey (path : gostring) (raw : bytes) : proc (result signer) :=
  try! info := ask (Stat path) in
  Ret (match info with
       | Err e => Err (errorf "stat key" [ErrTLSCertificateInvalid; e])
       | Ok mode =>
           if negb (Z.land mode groupOtherReadWrite =? 0) then Err (errorf "key must not be accessible to group or other" [ErrTLSKeyPermissions]) else
           match pem_Decode raw with
           | None => Err (errorf "key contains no PEM block" [ErrTLSCertificateInvalid])
           | Some ((_, der), _) =>
               match ParsePKCS8PrivateKey der with
               | None => Err (errorf "parse key" [ErrTLSCertificateInvalid])
               | Some None => Err (errorf "key cannot sign" [ErrTLSCertificateInvalid])
               | Some (Some k) => Ok k
               end
           end
       end).

Definition wrap_all (msg : string) (wraps : list goerror) (m : proc (option goerror)) : proc (result unit) :=
  try! r := m in Ret (match r with Some e => Err (errorf msg (wraps ++ [e])) | None => Ok tt end).

(** src/internal/transport/http/certcsr.go:163-192, createKey *)
Definition createKey (path : gostring) : proc (result signer) :=
  let! key := on_err (λ e, errorf "httpserver: generate csr key" [e]) (ask GenerateKey) in
  match MarshalPKCS8PrivateKey key with
  | None => Ret (Err (errorf "httpserver: marshal csr key" []))
  | Some der =>
      let! _ := wrap_all "write key" [ErrTLSCertificateInvalid] (atomicWriteFile path (pem_Encode (go "PRIVATE KEY") der) keyFileMode) in
      Ret (Ok key)
  end.

(** src/internal/transport/http/certcsr.go:103-126, loadOrCreateKey *)
Definition loadOrCreateKey (path : gostring) : proc (result signer) :=
  try! raw := ask (ReadFile path) in
  match raw with
  | Ok raw => parseKey path raw
  | Err e => if errors_is e ErrNotExist then createKey path else Ret (Err (errorf "read key" [ErrTLSCertificateInvalid; e]))
  end.

(** src/internal/transport/http/certacme.go:879-891, loadExistingKey *)
Definition loadExistingKey (path : gostring) : proc (result signer) :=
  let! raw := on_err (λ e, errorf "read cached key" [ErrACMEIssuance; e]) (ask (ReadFile path)) in
  parseKey path raw.

(** The blocks of type CERTIFICATE; every turn consumes some of the input.

    src/internal/transport/http/certcloudflare.go:553-570, parseCertChainPEM *)
Fixpoint parseCertChainPEM (fuel : nat) (rest : bytes) : list bytes :=
  match fuel with
  | O => []
  | S fuel =>
      match pem_Decode rest with
      | None => []
      | Some ((typ, der), rest) => (if bool_decide (typ = go "CERTIFICATE") then [der] else []) ++ parseCertChainPEM fuel rest
      end
  end.

(** src/internal/transport/http/certcsr.go:224-259, loadCertChain *)
Definition loadCertChain (path : gostring) : proc (result (list bytes)) :=
  try! raw := ask (ReadFile path) in
  Ret (match raw with
       | Err e => if errors_is e ErrNotExist then Err (errorf "no signed certificate yet" [ErrTLSCSRPending])
                  else Err (errorf "read certificate" [ErrTLSCertificateInvalid; e])
       | Ok raw =>
           let chain := parseCertChainPEM (S (length raw)) raw in
           if bool_decide (chain = []) then Err (errorf "contains no CERTIFICATE block" [ErrTLSCertificateInvalid]) else Ok chain
       end).

(** ** Names *)

Definition default_hosts : list gostring := [go "localhost"; go "127.0.0.1"; go "::1"].
(** src/internal/transport/http/certselfsigned.go:162-177, certHosts *)
Definition certHosts (cfg : Config) : list gostring :=
  let t := Cfg_TLS cfg in
  let hosts := (if bool_decide (TLS_Domain t = []) then [] else [TLS_Domain t]) ++ TLS_SANs t in
  if bool_decide (hosts = []) then default_hosts else hosts.

(** Addresses apart from names, as every request and certificate has them. *)
Definition names_of (commonName : gostring) (hosts : list gostring) : names :=
  MkNames commonName (filter (λ h, ParseIP h = None) hosts) (omap ParseIP hosts).

(** ** External signing *)

(** src/internal/transport/http/certcsr.go:194-222, writeCSR *)
Definition writeCSR (path : gostring) (key : signer) (cfg : Config) : proc (result unit) :=
  let! der := on_err (λ e, errorf "httpserver: create csr" [e]) (ask (CreateCSR (names_of (TLS_Domain (Cfg_TLS cfg)) (certHosts cfg)) key)) in
  wrap_all "httpserver: write csr" [] (atomicWriteFile path (pem_Encode (go "CERTIFICATE REQUEST") der) csrFileMode).

(** src/internal/transport/http/certcsr.go:59-90, newCSRProvider *)
Definition newCSRProvider (cfg : Config) : proc (result tls_cert) :=
  let paths := TLS_CSR (Cfg_TLS cfg) in
  let! key := loadOrCreateKey (CSRc_KeyFile paths) in
  let! _ := writeCSR (CSRc_CSRFile paths) key cfg in
  let! chain := loadCertChain (CSRc_CertFile paths) in
  Ret (Ok (MkTLSCert chain (Signer key) None)).

(** ** The cache of issued certificates

    ACME and the origin CA keep theirs in the same way, in files of their own. *)
Definition loadCached (cacheDir keyFile certFile : gostring) : proc (result tls_cert) :=
  let! key := loadExistingKey (filepath_Join cacheDir keyFile) in
  let! chain := loadCertChain (filepath_Join cacheDir certFile) in
  let cert := MkTLSCert chain (Signer key) None in
  try! now := ask Now in
  Ret (match validateCertificate cert now with Some e => Err e | None => Ok cert end).

Definition chain_pem (chain : list bytes) : bytes := mjoin (pem_Encode (go "CERTIFICATE") <$> chain).
Definition storeCached (sentinel : goerror) (cacheDir keyFile certFile : gostring) (cert : tls_cert) : proc (result unit) :=
  match tc_PrivateKey cert with
  | Signer k =>
      match MarshalPKCS8PrivateKey k with
      | None => Ret (Err (errorf "marshal certificate key" [sentinel]))
      | Some der =>
          let! _ := wrap_all "write certificate key" [sentinel] (atomicWriteFile (filepath_Join cacheDir keyFile) (pem_Encode (go "PRIVATE KEY") der) keyFileMode) in
          wrap_all "write certificate" [sentinel] (atomicWriteFile (filepath_Join cacheDir certFile) (chain_pem (tc_Certificate cert)) keyFileMode)
      end
  | _ => Ret (Err (errorf "marshal certificate key" [sentinel]))
  end.
End files.
