(* ===== verification/Acme.v ===== *)
(** * Certificates from ACME

    [internal/transport/http/certacme.go]: one order, the two solvers, the cache, the renewal
    loop with its backoff, and what a handshake is given meanwhile. *)

From S2P Require Import Prelude GoLib RateLimit NetIP GoNum Secrets Config Program Dns01 DnsSolver CertFiles.

Open Scope Z_scope.
Open Scope prog_scope.

(** [tls.ClientHelloInfo]: the protocols offered, the name asked for, and the peer's address;
    there may be no connection, or one without an address. *)
Record ClientHello := MkHello { SupportedProtos : list gostring; ServerName : gostring; RemoteAddr : option (option gostring) }.

(** The protocol of TLS-ALPN-01 (RFC 8737), and the status of an authorization that holds (RFC
    8555). *)
Definition ALPNProto : gostring := go "acme-tls/1".
Definition StatusValid : gostring := go "valid".

Section acme.
Context `{X509}.

(** src/internal/transport/http/certacme.go:67-103, acmeCertFile *)
Definition acmeCertFile : gostring := go "certificate.pem".
Definition acmeKeyFile : gostring := go "certificate.key".
Definition acmeCacheDirMode : Z := 7 * 64. (* 0o700 *)
Definition acmeRenewFraction : Z := 3.
Definition acmeRenewCheckInterval : duration := Hour.
Definition acmeBackoffMin : duration := Minute.
Definition acmeBackoffMax : duration := 6 * Hour.
Definition acmeBackoffFactor : Z := 2.

(** The solver's own state, the cleanups that are due, goes through.

    src/internal/transport/http/certacme.go:29-61, acmeSolver *)
Record acmeSolver := MkAcmeSolver {
  sl_name : gostring;
  sl_challengeType : gostring;
  sl_protos : list gostring;
  sl_present : Challenge → gostring → pending → proc (result unit * pending);
  sl_cleanup : gostring → pending → proc (result unit * pending);
}.

(** src/internal/transport/http/certacme.go:105-172, acmeProvider *)
Record acmeProvider := MkAcme { ap_domains : list gostring; ap_cacheDir : gostring; ap_solver : acmeSolver }.

(** ** The solvers *)

(** src/internal/transport/http/certacme.go:450-469, tlsALPNSolver.present *)
Definition tlsALPN_present (chal : Challenge) (identifier : gostring) (due : pending) : proc (result unit * pending) :=
  try! cert := ask (TLSALPN01ChallengeCert (ch_Token chal) identifier) in
  match cert with
  | Err e => Ret (Err (errorf "build challenge certificate" [e]), due)
  | Ok cert => try! _ := ask (SetChallenge identifier cert) in Ret (Ok tt, due)
  end.
(** src/internal/transport/http/certacme.go:471-476, tlsALPNSolver.cleanup *)
Definition tlsALPN_cleanup (identifier : gostring) (due : pending) : proc (result unit * pending) :=
  try! _ := ask (ClearChallenge identifier) in Ret (Ok tt, due).
(** src/internal/transport/http/certacme.go:431-448, newTLSALPNSolver *)
Definition newTLSALPNSolver : acmeSolver := MkAcmeSolver (go "tls_alpn_01") (go "tls-alpn-01") [ALPNProto] tlsALPN_present tlsALPN_cleanup.

(** src/internal/transport/http/certacmedns01.go:89-90, dns01Solver *)
Definition dns01_solver (s : dns01Solver) : acmeSolver := MkAcmeSolver (go "dns_01") (go "dns-01") []
  (λ chal identifier due, try! value := ask (DNS01ChallengeRecord (ch_Token chal)) in translate OfSolving (solver_present s value identifier due))
  (λ identifier due, translate OfSolving (solver_cleanup identifier due)).

(** ** What a handshake is given *)

(** src/internal/transport/http/certacme.go:351-363, isACMEChallengeHello *)
Definition isACMEChallengeHello (hello : option ClientHello) : bool :=
  match hello with Some h => bool_decide (SupportedProtos h = [ALPNProto]) | None => false end.

(** src/internal/transport/http/certacme.go:365-382, acmeProvider.challengeCert *)
Definition challengeCert (challenge : gmap gostring tls_cert) (name : gostring) : result tls_cert :=
  match challenge !! name with
  | Some cert => Ok cert
  | None => Err (errorf "no challenge pending" [ErrACMEIssuance])
  end.

(** src/internal/transport/http/certacme.go:319-349, acmeProvider.GetCertificate *)
Definition acme_GetCertificate (current : option tls_cert) (challenge : gmap gostring tls_cert) (hello : option ClientHello) : result tls_cert :=
  if isACMEChallengeHello hello then challengeCert challenge (match hello with Some h => ServerName h | None => [] end) else
  match current with
  | Some cert => Ok cert
  | None => Err (errorf "no certificate issued yet" [ErrACMEIssuance])
  end.

(** ** One order *)

(** src/internal/transport/http/certacme.go:500-527, registerACMEAccount *)
Definition registerACMEAccount (ErrAccountAlreadyExists : goerror) (contactEmail : gostring) : proc (result unit) :=
  try! r := ask (Register (if bool_decide (contactEmail = []) then [] else [go "mailto:" ++ contactEmail])) in
  Ret (match r with
       | Some e => if errors_is e ErrAccountAlreadyExists then Ok tt else Err (errorf "register account" [ErrACMEAccount; e])
       | None => Ok tt
       end).

(** src/internal/transport/http/certacme.go:634-642, findACMEChallenge *)
Definition findACMEChallenge (authz : Authorization) (typ : gostring) : option Challenge :=
  find (λ c, bool_decide (ch_Type c = typ)) (az_Challenges authz).

(** The deferred cleanup runs on every way out, detached from the order's context.

    src/internal/transport/http/certacme.go:581-632, acmeProvider.solveAuthorization *)
Definition solveAuthorization (p : acmeProvider) (authzURL : gostring) (due : pending) : proc (result unit * pending) :=
  try! authz := ask (GetAuthorization authzURL) in
  match authz with
  | Err e => Ret (Err (errorf "get authorization" [ErrACMEIssuance; e]), due)
  | Ok authz =>
      if bool_decide (az_Status authz = StatusValid) then Ret (Ok tt, due) else
      match findACMEChallenge authz (sl_challengeType (ap_solver p)) with
      | None => Ret (Err (errorf "no challenge offered" [ErrACMEIssuance]), due)
      | Some chal =>
          try! presented := sl_present (ap_solver p) chal (az_Identifier authz) due in
          let '(r, due) := presented in
          try! r :=
            match r with
            | Err e => Ret (Err (errorf "present challenge" [ErrACMEIssuance; e]))
            | Ok _ =>
                try! accepted := ask (AcceptChallenge chal) in
                match accepted with
                | Some e => Ret (Err (errorf "accept challenge" [ErrACMEIssuance; e]))
                | None => wrap_all "authorization failed" [ErrACMEIssuance] (ask (WaitAuthorization authzURL))
                end
            end in
          try! released := sl_cleanup (ap_solver p) (az_Identifier authz) due in
          Ret (r, released.2)
      end
  end.

Fixpoint solve_all (p : acmeProvider) (urls : list gostring) (due : pending) : proc (result unit * pending) :=
  match urls with
  | [] => Ret (Ok tt, due)
  | url :: urls =>
      try! solved := solveAuthorization p url due in
      match solved.1 with
      | Err e => Ret (Err e, solved.2)
      | Ok _ => solve_all p urls solved.2
      end
  end.

(** src/internal/transport/http/certacme.go:695-714, acmeProvider.awaitIssuedCert *)
Definition awaitIssuedCert (orderURI : gostring) : proc (result (list bytes)) :=
  let! order := on_err (λ e, errorf "wait for issuance" [e]) (ask (WaitOrder orderURI)) in
  if bool_decide (or_CertURL order = []) then Ret (Err (errors_new "order completed without a certificate url")) else
  on_err (λ e, errorf "fetch certificate" [e]) (ask (FetchCert (or_CertURL order))).

(** src/internal/transport/http/certacme.go:644-693, acmeProvider.finalize *)
Definition finalize (p : acmeProvider) (orderURI : gostring) (order : Order) : proc (result tls_cert) :=
  let! key := on_err (λ e, errorf "generate certificate key" [ErrACMEIssuance; e]) (ask GenerateKey) in
  let! csr := on_err (λ e, errorf "create csr" [ErrACMEIssuance; e]) (ask (CreateCSR (names_of (default [] (head (ap_domains p))) (ap_domains p)) key)) in
  try! created := ask (CreateOrderCert (or_FinalizeURL order) csr) in
  let! der := match created with
              | Ok der => Ret (Ok der)
              | Err _ => on_err (λ e, errorf "finalize order" [ErrACMEIssuance; e]) (awaitIssuedCert orderURI)
              end in
  Ret (Ok (MkTLSCert der (Signer key) None)).

(** src/internal/transport/http/certacme.go:716-744, acmeProvider.loadCachedCert *)
Definition acme_loadCachedCert (p : acmeProvider) : proc (result tls_cert) := loadCached (ap_cacheDir p) acmeKeyFile acmeCertFile.
(** src/internal/transport/http/certacme.go:746-778, acmeProvider.storeCachedCert *)
Definition acme_storeCachedCert (p : acmeProvider) (cert : tls_cert) : proc (result unit) := storeCached ErrACMEIssuance (ap_cacheDir p) acmeKeyFile acmeCertFile cert.

(** It returns the certificate that it installed.

    src/internal/transport/http/certacme.go:529-579, acmeProvider.obtain *)
Definition acme_obtain (p : acmeProvider) (due : pending) : proc (result tls_cert * pending) :=
  try! order := ask (AuthorizeOrder (ap_domains p)) in
  match order with
  | Err e => Ret (Err (errorf "authorize order" [ErrACMEIssuance; e]), due)
  | Ok order =>
      try! solved := solve_all p (or_AuthzURLs order) due in
      let '(r, due) := solved in
      try! cert :=
        let! _ := Ret r in
        let orderURI := or_URI order in
        let! order := on_err (λ e, errorf "wait order" [ErrACMEIssuance; e]) (ask (WaitOrder orderURI)) in
        let! cert := finalize p orderURI order in
        try! now := ask Now in
        match validateCertificate cert now with
        | Some e => Ret (Err (errorf "issued certificate rejected" [ErrACMEIssuance; e]))
        | None =>
            let! _ := acme_storeCachedCert p cert in
            try! _ := ask (SetCurrent cert) in Ret (Ok cert)
        end in
      Ret (cert, due)
  end.

(** ** Renewal *)

(** src/internal/transport/http/certacme.go:847-852, acmeNeedsRenewal *)
Definition acmeNeedsRenewal (leaf : Certificate pubkey) (now : time) : bool :=
  let lifetime := time_sub (NotAfter leaf) (NotBefore leaf) in
  NotAfter leaf + Z.quot (wrap64 (- lifetime)) acmeRenewFraction <? now.

(** src/internal/transport/http/certacme.go:817-845, acmeProvider.needsIssuance *)
Definition needsIssuance (current : option tls_cert) (now : time) : bool :=
  match current with
  | None => true
  | Some cert =>
      match tc_Certificate cert with
      | [] => true
      | der :: _ => match ParseCertificate der with None => true | Some leaf => acmeNeedsRenewal leaf now end
      end
  end.

(** [rand.Int]: a number from zero up to [max], made of what the generator gives. *)
Definition rand_Int (random max : Z) : Z := random mod max.

(** src/internal/transport/http/certacme.go:854-877, nextACMEBackoff *)
Definition nextACMEBackoff (current : duration) : proc duration :=
  let next := wrap64 (current * acmeBackoffFactor) in
  let next := if next <? acmeBackoffMin then acmeBackoffMin else next in
  let next := if acmeBackoffMax <? next then acmeBackoffMax else next in
  try! spread := ask RandomNumber in
  Ret (match spread with Err _ => next | Ok s => wrap64 (next + rand_Int s (Z.quot next 4)) end).

(** The first [n] turns of the loop; [obtain] is the provider's.  The clock is read in every
    turn here, in the code when there is a certificate to look at.

    src/internal/transport/http/certacme.go:780-815, acmeProvider.renewalLoop *)
Fixpoint renewalLoop (n : nat) (obtain : pending → proc (result tls_cert * pending)) (wait backoff : duration) (current : option tls_cert) (due : pending) : proc unit :=
  match n with
  | O => Ret tt
  | S n =>
      try! w := ask (SelectTimer wait) in
      match w with
      | Stopped => Ret tt
      | Fired =>
          try! now := ask Now in
          if needsIssuance current now then
            try! issued := obtain due in
            match issued with
            | (Ok cert, due) => renewalLoop n obtain acmeRenewCheckInterval 0 (Some cert) due
            | (Err _, due) => try! backoff := nextACMEBackoff backoff in renewalLoop n obtain backoff backoff current due
            end
          else renewalLoop n obtain acmeRenewCheckInterval backoff current due
      end
  end.

(** ** The life of a provider *)

(** The provider, and the cached certificate that it starts with.

    src/internal/transport/http/certacme.go:229-272, newACMEProviderWithClient *)
Definition newACMEProviderWithClient (ErrAccountAlreadyExists : goerror) (cfg : Config) (solver : acmeSolver) : proc (result (acmeProvider * option tls_cert)) :=
  let a := TLS_ACME (Cfg_TLS cfg) in
  let! _ := registerACMEAccount ErrAccountAlreadyExists (ACME_ContactEmail a) in
  let p := MkAcme (certHosts cfg) (ACME_CacheDir a) solver in
  try! cached := acme_loadCachedCert p in
  match cached with
  | Ok cert => try! _ := ask (SetCurrent cert) in Ret (Ok (p, Some cert))
  | Err _ => Ret (Ok (p, None))
  end.

(** src/internal/transport/http/certacme.go:182-218, newACMEProvider *)
Definition newACMEProvider (ErrAccountAlreadyExists : goerror) (cfg : Config) (solver : acmeSolver) : proc (result (acmeProvider * option tls_cert)) :=
  let a := TLS_ACME (Cfg_TLS cfg) in
  if negb (ACME_AcceptTOS a) then Ret (Err (errorf "tls.acme.accept_tos is not set" [ErrACMETermsNotAccepted])) else
  let! key := loadOrCreateKey (ACME_AccountKeyFile a) in
  let! _ := wrap_all "create cache dir" [ErrACMEIssuance] (ask (MkdirAll (ACME_CacheDir a) acmeCacheDirMode)) in
  newACMEProviderWithClient ErrAccountAlreadyExists cfg solver.

(** The start, and the first [n] turns of the loop that it leaves running. *)
Definition acme_life (n : nat) (ErrAccountAlreadyExists : goerror) (cfg : Config) (solver : acmeSolver) : proc (result unit) :=
  let! started := newACMEProvider ErrAccountAlreadyExists cfg solver in
  try! _ := renewalLoop n (acme_obtain started.1) 0 0 started.2 ∅ in Ret (Ok tt).
End acme.
