(* ===== verification/AcmeSafety.v ===== *)
(** * What ACME does, whatever the authority answers

    Every moment of a provider's life ([acme_life_safe]): which certificate a handshake can be
    given, when a challenge is accepted, how often orders are made, and how keys are written.
    The two solvers are used through what they promise ([SolverLaws]). *)

From S2P Require Import Prelude GoLib RateLimit NetIP GoNum Secrets Config Program Dns01 DnsSolver CertFiles Acme.

Open Scope Z_scope.
Open Scope prog_scope.

Section safety.
Context `{X509}.

Definition history : Type := list (event world).

(** ** What handshakes see after a history, the newest first *)

Fixpoint current_of (h : history) : option tls_cert :=
  match h with
  | [] => None
  | e :: h => match ev e with SetCurrent c => Some c | _ => current_of h end
  end.
Fixpoint challenge_of (h : history) : gmap gostring tls_cert :=
  match h with
  | [] => ∅
  | e :: h => match ev e with SetChallenge n c => <[n := c]> (challenge_of h) | ClearChallenge n => delete n (challenge_of h) | _ => challenge_of h end
  end.

(** The leaf was signed for the key and is inside its window. *)
Definition servable (cert : tls_cert) (now : time) : Prop := ∃ der rest leaf k,
  tc_Certificate cert = der :: rest ∧ ParseCertificate der = Some leaf ∧ tc_PrivateKey cert = Signer k ∧
  pub_Equal (Public k) (PublicKey leaf) = true ∧ NotBefore leaf ≤ now ≤ NotAfter leaf.

Ltac no_way := split; [done|intros (? & ? & ? & ? & ? & ? & ? & ? & ?); simplify_eq; congruence].

Lemma validateCertificate_exact cert now : validateCertificate cert now = None ↔ servable cert now.
Proof.
  unfold validateCertificate, servable. destruct (tc_Certificate cert) as [|der rest]; [no_way|]. destruct (ParseCertificate der) as [leaf|] eqn:El; [|no_way].
  unfold checkKeyMatchesLeaf. destruct (tc_PrivateKey cert) as [| | |k]; [no_way..|]. destruct (pub_Equal _ _) eqn:Ek; cbn [negb]; [|no_way].
  destruct (now <? NotBefore leaf) eqn:E1; reflect_bools; [split; [done|intros (? & ? & ? & ? & ? & ? & ? & ? & ?); simplify_eq; lia]|].
  destruct (NotAfter leaf <? now) eqn:E2; reflect_bools; [split; [done|intros (? & ? & ? & ? & ? & ? & ? & ? & ?); simplify_eq; lia]|].
  split; [|done]. intros _. exists der, rest, leaf, k. repeat split; (done || lia).
Qed.

(** A temporary file that is complete: closed after it was flushed, written whole and
    restricted before, in this order and with nothing in between. *)
Definition sealed (name : gostring) (perm : Z) (h : history) : Prop := ∃ data dir h0,
  h = MkEvent _ (FileClose name) None :: MkEvent _ (FileSync name) None :: MkEvent _ (FileWrite name data) None ::
      MkEvent _ (FileChmod name perm) None :: MkEvent _ (CreateTemp dir) (Ok name) :: h0.

(** No order, and no request, since a wait of a minute or more. *)
Fixpoint rested (h : history) : Prop :=
  match h with
  | [] => True
  | e :: h => match ev e with SelectTimer d => acmeBackoffMin ≤ d ∨ rested h | AuthorizeOrder _ | HTTPDo _ => False | _ => rested h end
  end.

(** The challenge can be answered: its certificate is there, or its record was seen on every
    authoritative name server. *)
Definition answerable (h : history) (identifier : gostring) (chal : Challenge) : Prop :=
  if bool_decide (ch_Type chal = go "tls-alpn-01")
  then ∃ cert, challenge_of h !! identifier = Some cert ∧ MkEvent _ (TLSALPN01ChallengeCert (ch_Token chal) identifier) (Ok cert) ∈ h
  else ∃ value h1 h0, MkEvent _ (DNS01ChallengeRecord (ch_Token chal)) (Ok value) ∈ h0 ∧ h = (lift_event OfSolving <$> h1) ++ h0 ∧
         confirmed (MkDNSRecord (ChallengeRecordName identifier) value) h1.

(** ** The rules of a provider *)

(** What a provider is for: the files that it keeps, the names and the challenges of its orders,
    its requests, and whether its client goes where an answer points. *)
Record terms := MkTerms { tm_files : list gostring; tm_domains : list gostring; tm_type : gostring; tm_request : http_req → Prop; tm_follow : bool }.

(** The requests that were the last things done. *)
Fixpoint streak (h : history) : nat :=
  match h with
  | [] => 0
  | e :: h => match ev e with HTTPDo _ => S (streak h) | _ => 0 end
  end.

(** The request goes where the answer to the one just made points, with headers of that one,
    without an [Authorization] if the host is another, and not after ten requests. *)
Definition redirected (h : history) (q : http_req) : Prop := ∃ q0 resp h0 url same,
  h = MkEvent _ (HTTPDo q0) (Some resp) :: h0 ∧ is_Some (redirectBehavior (q_Method q0) (p_StatusCode resp)) ∧ p_Location resp = Location url same ∧
  q_URL q = url ∧ (∀ kv, kv ∈ q_Header q → kv ∈ q_Header q0) ∧ (same = false → ∀ v, (go "Authorization", v) ∉ q_Header q) ∧ (streak h < 10)%nat.

(** What may be asked after a history. *)
Definition rules (t : terms) (h : history) (X : Type) (e : world X) : Prop :=
  match e with
  | SetCurrent c => ∃ now, servable c now ∧ MkEvent _ Now now ∈ h
  | SetChallenge n c => ∃ token, MkEvent _ (TLSALPN01ChallengeCert token n) (Ok c) ∈ h
  | AcceptChallenge c => ∃ url authz, MkEvent _ (GetAuthorization url) (Ok authz) ∈ h ∧ az_Status authz ≠ StatusValid ∧
      findACMEChallenge authz (tm_type t) = Some c ∧ answerable h (az_Identifier authz) c
  | AuthorizeOrder ds => ds = tm_domains t ∧ rested h
  | HTTPDo q => (tm_request t q ∧ rested h) ∨ (tm_follow t = true ∧ redirected h q)
  | SelectTimer d => challenge_of h = ∅
  | FileWrite name data => ∃ h0, h = MkEvent _ (FileChmod name keyFileMode) None :: h0
  | Rename from to => to ∈ tm_files t ∧ sealed from keyFileMode h
  | _ => True
  end.

(** What the rules keep: a certificate in use was checked, and a challenge certificate was
    made for its name. *)
Definition in_order (h : history) : Prop :=
  (∀ c, current_of h = Some c → ∃ now, servable c now ∧ MkEvent _ Now now ∈ h) ∧
  (∀ n c, challenge_of h !! n = Some c → ∃ token, MkEvent _ (TLSALPN01ChallengeCert token n) (Ok c) ∈ h).

Lemma in_order_later h X (e : world X) x :
  in_order h → current_of (MkEvent X e x :: h) = current_of h → challenge_of (MkEvent X e x :: h) = challenge_of h → in_order (MkEvent X e x :: h).
Proof.
  intros [Hc Hn] E1 E2. split.
  - rewrite E1. intros c Hcur. destruct (Hc c Hcur) as (now & ? & ?). exists now. split; [done|by right].
  - rewrite E2. intros n c Hch. destruct (Hn n c Hch) as (token & ?). exists token. by right.
Qed.

Lemma rules_in_order t h X (e : world X) x : in_order h → rules t h X e → in_order (MkEvent X e x :: h).
Proof.
  intros Hi Hr. destruct e; try (by apply in_order_later). 
  - destruct Hi as [Hc Hn], Hr as (now & Hs & Hin). split; cbn [current_of challenge_of ev].
    + intros c' [= <-]. exists now. split; [done|by right].
    + intros n c' Hch. destruct (Hn n c' Hch) as (token & ?). exists token. by right.
  - destruct Hi as [Hc Hn], Hr as (token & Hin). split; cbn [current_of challenge_of ev].
    + intros c' Hcur. destruct (Hc c' Hcur) as (now & ? & ?). exists now. split; [done|by right].
    + intros n c' [[-> ->]|[_ Hch]]%lookup_insert_Some; [exists token; by right|]. destruct (Hn n c' Hch) as (token' & ?). exists token'. by right.
  - destruct Hi as [Hc Hn]. split; cbn [current_of challenge_of ev].
    + intros c' Hcur. destruct (Hc c' Hcur) as (now & ? & ?). exists now. split; [done|by right].
    + intros n c' [_ Hch]%lookup_delete_Some. destruct (Hn n c' Hch) as (token' & ?). exists token'. by right.
Qed.

Lemma spec_in_order {A} t (Q : history → A → Prop) h (m : proc A) : in_order h → spec (rules t) Q h m →
  spec (λ h X e, in_order h ∧ rules t h X e) (λ h a, in_order h ∧ Q h a) h m.
Proof.
  intros Hi. revert h Hi. induction m as [a|X e k IH]; intros h Hi; cbn [spec]; [done|]. intros [He Hk]. split; [done|]. intros x. apply IH, Hk. by eapply rules_in_order.
Qed.

(** ** What a solver promises *)

(** A solver writes only challenge certificates, which it had made for their names. *)
Definition solver_rules (h : history) (X : Type) (e : world X) : Prop :=
  match e with
  | SetChallenge n c => ∃ token, MkEvent _ (TLSALPN01ChallengeCert token n) (Ok c) ∈ h
  | ClearChallenge _ | TLSALPN01ChallengeCert _ _ | DNS01ChallengeRecord _ | OfSolving _ _ => True
  | _ => False
  end.

Lemma solver_rules_rules t h X (e : world X) : solver_rules h X e → rules t h X e.
Proof. by destruct e. Qed.

(** [Presented]: what holds from [present] to [cleanup]. *)
Class SolverLaws (s : acmeSolver) := {
  Presented : gostring → history → pending → Prop;
  presented_later ident h due X (e : world X) x : Presented ident h due → challenge_of (MkEvent X e x :: h) = challenge_of h → Presented ident (MkEvent X e x :: h) due;
  present_law chal ident h : ch_Type chal = sl_challengeType s → challenge_of h = ∅ →
    spec solver_rules (λ h' r, Presented ident h' r.2 ∧ (r.1 = Ok tt → answerable h' ident chal)) h (sl_present s chal ident ∅);
  cleanup_law ident h due : Presented ident h due → spec solver_rules (λ h' r, challenge_of h' = ∅ ∧ r.2 = ∅) h (sl_cleanup s ident due);
}.

Lemma only_key {V} (m : gmap gostring V) k : (∀ n, n ≠ k → m !! n = None) → delete k m = ∅.
Proof. intros Hm. apply map_empty. intros n. destruct (decide (n = k)) as [->|Hn]; [apply lookup_delete_eq|]. rewrite lookup_delete_ne by done. by apply Hm. Qed.

#[export] Instance tlsALPN_laws : SolverLaws newTLSALPNSolver.
Proof.
  refine {| Presented ident h due := due = ∅ ∧ ∀ n, n ≠ ident → challenge_of h !! n = None |}.
  - intros ident h due X e x [Hd Hn] E. by rewrite E.
  - intros chal ident h Ht Hh. cbn [newTLSALPNSolver sl_present tlsALPN_present ask bind spec]. split; [done|]. intros [cert|e].
    + cbn [spec solver_rules]. split; [eexists; left|]. intros []. cbn [spec fst snd challenge_of ev]. rewrite Hh. split; [split; [done|]|].
      * intros n Hn. by rewrite lookup_insert_ne, lookup_empty by done.
      * intros _. unfold answerable. cbn [newTLSALPNSolver sl_challengeType] in Ht. rewrite bool_decide_eq_true_2 by done. exists cert. cbn [challenge_of ev]. split; [apply lookup_insert_eq|right; left].
    + cbn [spec fst snd challenge_of ev]. rewrite Hh. split; [|done]. split; [done|]. intros n _. apply lookup_empty.
  - intros ident h due [-> Hn]. cbn [newTLSALPNSolver sl_cleanup tlsALPN_cleanup ask bind spec solver_rules]. split; [done|]. intros []. cbn [spec challenge_of ev snd]. split; [|done]. by apply only_key.
Defined.

Lemma challenge_of_solving (h1 : list (event solving)) h : challenge_of ((lift_event OfSolving <$> h1) ++ h) = challenge_of h.
Proof. induction h1 as [|e h1 IH]; [done|]. cbn [fmap list_fmap app challenge_of lift_event ev]. exact IH. Qed.

#[export] Instance dns01_laws provider : SolverLaws (dns01_solver (newDNS01Solver provider AuthoritativeTXTLookup)).
Proof.
  refine {| Presented ident h due := challenge_of h = ∅ ∧ ∀ n, n ≠ ident → due !! n = None |}.
  - intros ident h due X e x [Hh Hd] E. by rewrite E.
  - intros chal ident h Ht Hh. cbn [dns01_solver sl_present ask bind spec solver_rules]. split; [done|]. intros [value|e].
    + set (h0 := MkEvent _ (DNS01ChallengeRecord (ch_Token chal)) (Ok value) :: h).
      eapply spec_mono; [| |exact (translate_spec OfSolving anything solver_rules _ h0 [] _ ltac:(done)
        (present_confirms_gen _ value ident ∅ [] (solver_lookup _ _)))]; [done|]. cbv beta.
      intros h' r (h1 & -> & presented & after & cleanup & err & _ & -> & Hr2 & Hok). split; [split|].
      * by rewrite challenge_of_solving.
      * intros n Hn. rewrite Hr2. destruct cleanup as [c|]; [|apply lookup_empty]. etransitivity; [by apply lookup_insert_ne|apply lookup_empty].
      * intros H1. destruct (Hok H1) as [_ (looked & h2 & -> & Hs)]. unfold answerable. rewrite Ht. cbn [dns01_solver sl_challengeType]. rewrite bool_decide_eq_false_2 by done.
        exists value. eexists. exists h0. split; [left|]. split; [done|]. rewrite <- app_assoc. by eexists _, _.
    + cbn [solver_present translate spec fst snd]. split; [|done]. split; [done|]. intros n _. apply lookup_empty.
  - intros ident h due [Hh Hd]. cbn [dns01_solver sl_cleanup].
    eapply spec_mono; [| |exact (translate_spec OfSolving anything solver_rules _ h [] _ ltac:(done) (cleanup_runs_once ident due []))]; [done|]. cbv beta.
    intros h' r (h1 & -> & Hr & Hcase). rewrite challenge_of_solving. split; [done|]. apply map_empty. intros n. destruct (decide (n = ident)) as [->|Hn]; [done|].
    destruct (due !! ident) as [fn|]; [|destruct Hcase as [-> _]; by apply Hd]. destruct Hcase as (ran & _ & _ & ->). etransitivity; [by apply lookup_delete_ne|by apply Hd].
Defined.

(** ** Every step keeps the rules *)

Section provider.
Context (t : terms).
Local Abbreviation R := (rules t).

(** What leaves the challenge certificates alone and makes no order. *)
Definition calm (h h' : history) : Prop := challenge_of h' = challenge_of h ∧ (rested h → rested h').
Definition keeps {A} (h : history) (h' : history) (a : A) : Prop := calm h h'.

Lemma calm_trans h1 h2 h3 : calm h1 h2 → calm h2 h3 → calm h1 h3.
Proof. intros [E1 R1] [E2 R2]. split; [by rewrite E2|by auto]. Qed.

Lemma keeps_bind {A B} (Q : history → B → Prop) h (m : proc A) (f : A → proc B) :
  spec R (keeps h) h m → (∀ h' a, calm h h' → spec R Q h' (f a)) → spec R Q h (bind m f).
Proof. intros Hm Hf. eapply spec_bind; [exact Hm|]. intros h' a Hk. by apply Hf. Qed.
Lemma keeps_bind_ok {A B} h (m : proc (result A)) (f : A → proc (result B)) :
  spec R (keeps h) h m → (∀ h' a, calm h h' → spec R (keeps h) h' (f a)) → spec R (keeps h) h (bind_ok m f).
Proof. intros Hm Hf. apply keeps_bind; [done|]. intros h' [a|e] Hk; [by apply Hf|done]. Qed.
Lemma keeps_on_err {A} w h (m : proc (result A)) : spec R (keeps h) h m → spec R (keeps h) h (on_err w m).
Proof. intros Hm. apply keeps_bind; [done|]. by intros h' a Hk. Qed.
Lemma keeps_wrap msg ws h (m : proc (option goerror)) : spec R (keeps h) h m → spec R (keeps h) h (wrap_all msg ws m).
Proof. intros Hm. apply keeps_bind; [done|]. by intros h' a Hk. Qed.
Lemma keeps_from {A} h h0 (m : proc A) : calm h0 h → spec R (keeps h) h m → spec R (keeps h0) h m.
Proof. intros E. apply spec_mono; [done|]. intros h' a. by apply calm_trans. Qed.
Lemma keeps_ask {X} h (e : world X) : R h X e → (∀ x, calm h (MkEvent X e x :: h)) → spec R (keeps h) h (ask e).
Proof. intros He Hx. cbn [ask spec]. split; [done|]. intros x. apply Hx. Qed.

Lemma atomicWriteFile_keeps path data h : path ∈ tm_files t → spec R (keeps h) h (atomicWriteFile path data keyFileMode).
Proof.
  intros Hp. cbn [atomicWriteFile ask bind spec]. split; [done|]. intros [name|e]; [|done]. cbn [first_error ask bind spec].
  split; [done|]. intros [e1|]; [by cbn [spec]|]. cbn [spec]. split; [by eexists|]. intros [e2|]; [by cbn [spec]|]. cbn [spec].
  split; [done|]. intros [e3|]; [by cbn [spec]|]. cbn [spec]. split; [done|]. intros [e4|]; [by cbn [spec]|]. cbn [spec].
  split; [split; [done|by eexists _, _, _]|]. by intros [e5|]; cbn [spec].
Qed.

Lemma parseKey_keeps path raw h : spec R (keeps h) h (parseKey path raw).
Proof. by cbn [parseKey ask bind spec]. Qed.

Ltac step_as a := let h' := fresh "h" in let E := fresh "E" in intros h' a E; apply (keeps_from h' _ _ E); clear E.
Tactic Notation "step" ident(a) := step_as a.

Lemma loadOrCreateKey_keeps path h : path ∈ tm_files t → spec R (keeps h) h (loadOrCreateKey path).
Proof.
  intros Hp. unfold loadOrCreateKey. apply keeps_bind; [by apply keeps_ask|]. step a. destruct a as [raw|e]; [apply parseKey_keeps|]. case_match; [|done].
  unfold createKey. apply keeps_bind_ok; [by apply keeps_on_err, keeps_ask|]. step x1. case_match; [|done].
  apply keeps_bind_ok; [by apply keeps_wrap, atomicWriteFile_keeps|]. by step u.
Qed.

Lemma storeCached_keeps sentinel dir keyFile certFile cert h : filepath_Join dir keyFile ∈ tm_files t → filepath_Join dir certFile ∈ tm_files t →
  spec R (keeps h) h (storeCached sentinel dir keyFile certFile cert).
Proof.
  intros H1 H2. unfold storeCached. destruct (tc_PrivateKey cert) as [| | |k]; [done..|]. case_match; [|done].
  apply keeps_bind_ok; [by apply keeps_wrap, atomicWriteFile_keeps|]. step x2. by apply keeps_wrap, atomicWriteFile_keeps.
Qed.

Lemma finalize_keeps p orderURI order h : spec R (keeps h) h (finalize p orderURI order).
Proof.
  unfold finalize. apply keeps_bind_ok; [by apply keeps_on_err, keeps_ask|]. step x3. apply keeps_bind_ok; [by apply keeps_on_err, keeps_ask|]. step x4.
  apply keeps_bind; [by apply keeps_ask|]. step x5. apply keeps_bind_ok; [|by step u]. destruct x5 as [der|e]; [done|]. apply keeps_on_err.
  unfold awaitIssuedCert. apply keeps_bind_ok; [by apply keeps_on_err, keeps_ask|]. step x6. case_bool_decide; [done|]. by apply keeps_on_err, keeps_ask.
Qed.

Lemma loadCached_checked dir keyFile certFile h : spec R (λ h' r, calm h h' ∧ ∀ cert, r = Ok cert → ∃ now, servable cert now ∧ MkEvent _ Now now ∈ h') h
  (loadCached dir keyFile certFile).
Proof.
  unfold loadCached, loadExistingKey, loadCertChain.
  eapply spec_bind; [apply keeps_bind_ok; [by apply keeps_on_err, keeps_ask|step x; apply parseKey_keeps]|]. cbv beta. intros h1 [key|e] E1; [|by split].
  eapply spec_bind; [apply keeps_bind; [by apply keeps_ask|by step x]|]. cbv beta. intros h2 [chain|e] E2; [|split; [by eapply calm_trans|done]].
  cbn [ask bind spec]. split; [done|]. intros now. cbn [spec]. split; [by eapply calm_trans|]. intros cert Hc. exists now. split; [|left].
  apply validateCertificate_exact. destruct (validateCertificate _ now) eqn:Ev; [done|]. injection Hc as <-. exact Ev.
Qed.

Context (p : acmeProvider) {laws : SolverLaws (ap_solver p)}.
Context (Hdomains : tm_domains t = ap_domains p) (Htyp : tm_type t = sl_challengeType (ap_solver p)).
Context (Hkey : filepath_Join (ap_cacheDir p) acmeKeyFile ∈ tm_files t) (Hcert : filepath_Join (ap_cacheDir p) acmeCertFile ∈ tm_files t).

(** No challenge certificate is there and no cleanup is due. *)
Definition settled {A} (h : history) (r : A * pending) : Prop := challenge_of h = ∅ ∧ r.2 = ∅.

Lemma find_type authz typ chal : findACMEChallenge authz typ = Some chal → ch_Type chal = typ.
Proof. unfold findACMEChallenge. intros Hf. apply find_some in Hf as [_ Hf]. by apply bool_decide_eq_true in Hf. Qed.

Lemma solveAuthorization_settles url h : challenge_of h = ∅ → spec R settled h (solveAuthorization p url ∅).
Proof.
  intros Hh. cbn [solveAuthorization ask bind spec]. split; [done|]. intros [authz|e]; [|done]. case_bool_decide as Hv; [done|].
  destruct (findACMEChallenge authz _) as [chal|] eqn:Ef; [|done].
  set (h1 := MkEvent _ (GetAuthorization url) (Ok authz) :: h).
  assert (∀ h2 due (r : result unit), Presented (az_Identifier authz) h2 due →
    spec R settled h2 (try! released := sl_cleanup (ap_solver p) (az_Identifier authz) due in Ret (r, released.2))) as Hclean.
  { intros h2 due r Hp. eapply spec_bind; [eapply spec_mono; [intros ???; apply solver_rules_rules|done|by apply cleanup_law]|]. by intros h3 x [? ?]. }
  eapply spec_bind; [apply spec_grows; eapply spec_mono; [intros ???; apply solver_rules_rules|intros ?? Hp; exact Hp|apply present_law; [by eapply find_type|exact Hh]]|].
  cbv beta. intros h2 [r due] [[Hp Hans] Hsuf]. cbn [fst snd] in *.
  destruct r as [[]|e]; [|by apply Hclean]. cbn [ask bind spec]. split.
  - exists url, authz. split; [|split; [done|split; [by rewrite Htyp|by apply Hans]]]. destruct Hsuf as [h0 ->]. apply elem_of_app. right. left.
  - intros [e|]; [apply Hclean, presented_later; [exact Hp|done]|]. cbn [wrap_all ask bind spec]. split; [done|]. intros x. apply Hclean. by do 2 (apply presented_later; [|done]).
Qed.

Lemma solve_all_settles urls h : challenge_of h = ∅ → spec R settled h (solve_all p urls ∅).
Proof.
  revert h. induction urls as [|url urls IH]; intros h Hh; cbn [solve_all]; [done|]. eapply spec_bind; [by apply solveAuthorization_settles|].
  intros h' [r due] [Hh' Hd]. cbn [fst snd] in *. subst due. destruct r as [[]|e]; [by apply IH|done].
Qed.

Lemma acme_obtain_settles h : challenge_of h = ∅ → rested h → spec R settled h (acme_obtain p ∅).
Proof.
  intros Hh Hr. cbn [acme_obtain ask bind spec]. split; [done|]. intros [order|e]; [|done].
  eapply spec_bind; [by apply solve_all_settles|]. intros h1 [r due] [Hh1 Hd]. cbn [fst snd] in *. subst due.
  eapply (spec_bind _ (keeps h1)); [|intros h2 cert [Hk _]; split; [by rewrite Hk|done]].
  apply keeps_bind_ok; [done|]. step x1. apply keeps_bind_ok; [by apply keeps_on_err, keeps_ask|]. step order'. apply keeps_bind_ok; [apply finalize_keeps|].
  step cert. cbn [ask bind spec]. split; [done|]. intros now. destruct (validateCertificate cert now) as [e|] eqn:Ev; [done|].
  eapply spec_bind; [apply spec_grows, storeCached_keeps; done|]. cbv beta. intros h4 [[]|e] [Hk Hs]; [|exact Hk]. cbn [spec].
  split; [|intros []; exact Hk]. exists now. split; [by apply validateCertificate_exact|]. destruct Hs as [h5 ->]. apply elem_of_app. right. left.
Qed.

Ltac constants := change acmeBackoffMin with 60000000000 in *; change acmeBackoffMax with 21600000000000 in *.

(** The delay after a failure is between a minute and seven and a half hours. *)
Lemma nextACMEBackoff_bounds current h : spec R (λ h' d, calm h h' ∧ acmeBackoffMin ≤ d < acmeBackoffMax + acmeBackoffMax / 4) h (nextACMEBackoff current).
Proof.
  unfold nextACMEBackoff. set (next := if _ <? _ then acmeBackoffMin else _). set (next' := if _ <? next then _ else _).
  assert (acmeBackoffMin ≤ next' ≤ acmeBackoffMax) as Hn.
  { assert (acmeBackoffMin ≤ next) as Hm by (unfold next; destruct (_ <? acmeBackoffMin) eqn:E1; reflect_bools; lia).
    unfold next'. destruct (acmeBackoffMax <? next) eqn:E2; reflect_bools; constants; lia. }
  clearbody next'. clear next. cbn [ask bind spec]. split; [done|]. intros spread. cbn [spec]. split; [done|]. change (acmeBackoffMax + acmeBackoffMax / 4) with 27000000000000. cbv beta iota. destruct spread as [s|e]; [|constants; lia].
  unfold rand_Int. constants. pose proof (Z.quot_div_nonneg next' 4 ltac:(lia) ltac:(lia)) as Eq. rewrite Eq.
  assert (0 < next' / 4 ≤ 5400000000000) as Hq by (Z.to_euclidean_division_equations; lia). pose proof (Z.mod_pos_bound s (next' / 4) ltac:(lia)) as Hm.
  rewrite wrap64_id by (unfold int64_range, int64_min, int64_max; lia). Z.to_euclidean_division_equations; lia.
Qed.

Lemma renewalLoop_keeps obtain n wait backoff current h : (∀ h, challenge_of h = ∅ → rested h → spec R settled h (obtain ∅)) → challenge_of h = ∅ → rested h ∨ acmeBackoffMin ≤ wait →
  spec R (λ h' _, challenge_of h' = ∅) h (renewalLoop n obtain wait backoff current ∅).
Proof.
  intros Hob. revert wait backoff current h. induction n as [|n IH]; intros wait backoff current h Hh Hw; cbn [renewalLoop]; [done|]. cbn [ask bind spec].
  split; [done|]. intros [|]; [done|]. cbn [spec]. split; [done|]. intros now.
  assert (acmeBackoffMin ≤ acmeRenewCheckInterval) as Hi by (by vm_compute).
  destruct (needsIssuance current now); [|apply IH; [done|by right]].
  eapply spec_bind; [apply Hob; [done|cbn [rested ev]; tauto]|]. intros h2 [[cert|e] due] [Hh2 Hd]; cbn [snd] in Hd; subst due.
  - apply IH; [done|by right].
  - eapply spec_bind; [apply nextACMEBackoff_bounds|]. cbv beta. intros h3 d [[Hk _] Hb]. apply IH; [by rewrite Hk|right; lia].
Qed.
End provider.

(** ** The life of a provider *)

(** The solver that a configuration selects: TLS-ALPN-01, or DNS-01 with a provider. *)
Definition solver_of (dns : option DNSProvider) : acmeSolver :=
  match dns with
  | None => newTLSALPNSolver
  | Some provider => dns01_solver (newDNS01Solver provider AuthoritativeTXTLookup)
  end.
#[export] Instance solver_of_laws dns : SolverLaws (solver_of dns).
Proof. destruct dns; apply _. Defined.

(** What a handshake gets: to the validation protocol alone, the challenge certificate made for the
    name asked for; otherwise a certificate that was checked, never a challenge's. *)
Definition handshakes_safe (h : history) : Prop := ∀ hello c, acme_GetCertificate (current_of h) (challenge_of h) hello = Ok c →
  match hello with
  | Some hi => if bool_decide (SupportedProtos hi = [ALPNProto]) then ∃ token, MkEvent _ (TLSALPN01ChallengeCert token (ServerName hi)) (Ok c) ∈ h
               else ∃ now, servable c now ∧ MkEvent _ Now now ∈ h
  | None => ∃ now, servable c now ∧ MkEvent _ Now now ∈ h
  end.

Lemma in_order_handshakes h : in_order h → handshakes_safe h.
Proof.
  intros [Hc Hn] hello c. unfold acme_GetCertificate, isACMEChallengeHello, challengeCert.
  assert (match current_of h with Some cert => Ok cert | None => Err (errorf "no certificate issued yet" [ErrACMEIssuance]) end = Ok c → ∃ now, servable c now ∧ MkEvent _ Now now ∈ h) as Hcur.
  { destruct (current_of h) as [c'|]; [|done]. intros [= ->]. by apply Hc. }
  destruct hello as [hi|]; [|exact Hcur]. case_bool_decide; [|exact Hcur]. destruct (challenge_of h !! _) as [c'|] eqn:Ec; [|done]. intros [= ->]. by apply Hn.
Qed.

Definition acme_terms (cfg : Config) (solver : acmeSolver) : terms :=
  let a := TLS_ACME (Cfg_TLS cfg) in
  MkTerms [ACME_AccountKeyFile a; filepath_Join (ACME_CacheDir a) acmeKeyFile; filepath_Join (ACME_CacheDir a) acmeCertFile]
    (certHosts cfg) (sl_challengeType solver) (λ _, False) false.

Lemma registerACMEAccount_keeps t err email h : spec (rules t) (keeps h) h (registerACMEAccount err email).
Proof. apply keeps_bind; [by apply keeps_ask|]. by intros h' a Hk. Qed.

Lemma newACMEProvider_starts alreadyExists cfg solver :
  spec (rules (acme_terms cfg solver)) (λ h r, match r with
    | Ok (p, _) => challenge_of h = ∅ ∧ rested h ∧ p = MkAcme (certHosts cfg) (ACME_CacheDir (TLS_ACME (Cfg_TLS cfg))) solver
    | Err _ => challenge_of h = ∅ ∧ rested h
    end) [] (newACMEProvider alreadyExists cfg solver).
Proof.
  assert (∀ h, calm [] h → challenge_of h = ∅ ∧ rested h) as Hcalm by (intros h [E Hr]; split; [done|by apply Hr]).
  unfold newACMEProvider. destruct (negb _); [by apply Hcalm|].
  eapply spec_bind; [apply loadOrCreateKey_keeps; left|]. intros h1 [key|e] E1; [|by apply Hcalm].
  eapply spec_bind; [by apply keeps_wrap, keeps_ask|]. intros h2 [[]|e] E2; (eapply calm_trans in E2; [|exact E1]); [|by apply Hcalm].
  eapply spec_bind; [apply registerACMEAccount_keeps|]. intros h3 [[]|e] E3; (eapply calm_trans in E3; [|exact E2]); [|by apply Hcalm].
  eapply spec_bind; [apply loadCached_checked|]. cbv beta. intros h4 r [E4 Hc]. eapply calm_trans in E4; [|exact E3]. apply Hcalm in E4 as [E4 Hrest].
  destruct r as [cert|e]; [|by cbn [spec]]. cbn [ask bind spec]. split; [by apply Hc|]. intros []. by cbn [spec challenge_of rested ev].
Qed.

(** C32. Whatever the authority, the disk, the clock and the name servers answer, at every moment of
    a provider's life: a handshake that offers the validation protocol alone gets at most the
    challenge certificate of its name, and every other handshake at most a certificate that
    matched its key and was inside its window when it was installed; a challenge is
    accepted only if the authority offered it, of the configured type, and its answer is in place;
    two orders are at least a minute apart; between attempts no challenge certificate is
    held for handshakes (a challenge's DNS record is a matter of its provider's cleanup);
    keys and certificates are written only to files that nobody else can read, and
    replaced only by complete ones. *)
Theorem acme_life_safe n alreadyExists cfg dns : let solver := solver_of dns in
  spec (λ h X e, handshakes_safe h ∧ rules (acme_terms cfg solver) h X e) (λ h _, handshakes_safe h ∧ challenge_of h = ∅) []
    (acme_life n alreadyExists cfg solver).
Proof.
  intros solver. eapply spec_mono; [| |eapply spec_in_order; [by split|]].
  { intros h X e [Hi Hr]. split; [by apply in_order_handshakes|exact Hr]. }
  { intros h r [Hi Hr]. split; [by apply in_order_handshakes|exact Hr]. }
  eapply spec_bind; [apply newACMEProvider_starts|]. cbv beta. intros h [[p current]|e]; [|by intros [E _]]. intros (E & Hr & ->). cbn [fst snd].
  eapply spec_bind; [|by intros h5 x Hx; exact Hx].
  apply renewalLoop_keeps; [intros h5; apply (acme_obtain_settles _ _); [done|done|right; left|right; right; left]|done|by left].
Qed.
End safety.
