(* ===== verification/OriginCA.v ===== *)
(** * Certificates from the origin CA

    [internal/transport/http/certcloudflare.go]: certificates that only the edge in front of
    the server trusts, and that are therefore given to nobody else; where a redirect takes the
    credential ([service_key_follows]); and that it never comes back in an error
    ([summary_hides_token]). *)

From S2P Require Import Prelude GoLib RateLimit NetIP GoNum GoJson Secrets Config HttpEdge SafeText Program Dns01 DnsRecords DnsSolver CertFiles Acme AcmeSafety.

Open Scope Z_scope.
Open Scope prog_scope.

(** src/internal/transport/http/certcloudflare.go:31-71, originCAEndpoint *)
Definition originCAEndpoint : gostring := go "https://api.cloudflare.com/client/v4/certificates".
Definition originCARequestType : gostring := go "origin-ecc".
Definition originCAKeyPrefix : gostring := go "v1.0-".
Definition originCACertFile : gostring := go "origin.pem".
Definition originCAKeyFile : gostring := go "origin.key".
Definition originCACacheDirMode : Z := 7 * 64. (* 0o700 *)
Definition originCAMaxResponseBytes : Z := 2 ^ 20.
Definition originCARenewCheckInterval : duration := Hour.

(** ** The API *)

Record originCAResult := MkOriginCAResult { ocr_Certificate : gostring; ocr_ExpiresOn : gostring }.
(** src/internal/transport/http/certcloudflare.go:171-187, originCAResponse *)
Record originCAResponse := MkOriginCAResponse { ocr_Success : bool; ocr_Errors : list cloudflareErr; ocr_Result : originCAResult }.

Definition into_originCAResult : store originCAResult := into_struct false
  [("certificate"%string, λ v a, c ← into_string v (ocr_Certificate a); Some (MkOriginCAResult c (ocr_ExpiresOn a)));
   ("expires_on"%string, λ v a, x ← into_string v (ocr_ExpiresOn a); Some (MkOriginCAResult (ocr_Certificate a) x))].
Definition into_originCAResponse : store originCAResponse := into_struct false
  [("success"%string, λ v a, b ← into_bool v (ocr_Success a); Some (MkOriginCAResponse b (ocr_Errors a) (ocr_Result a)));
   ("errors"%string, λ v a, l ← into_list (MkCloudflareErr 0 []) into_cloudflareErr v (ocr_Errors a); Some (MkOriginCAResponse (ocr_Success a) l (ocr_Result a)));
   ("result"%string, λ v a, r ← into_originCAResult v (ocr_Result a); Some (MkOriginCAResponse (ocr_Success a) (ocr_Errors a) r))].
Definition empty_response : originCAResponse := MkOriginCAResponse false [] (MkOriginCAResult [] []).

(** src/internal/transport/http/certcloudflare.go:486-505, originCAAuthHeader *)
Definition originCAAuthHeader (token : Redacted) : gostring * gostring :=
  if has_prefix originCAKeyPrefix token then (go "X-Auth-User-Service-Key", token) else (go "Authorization", go "Bearer " ++ token).

(** *** Error texts *)

(** [strings.ReplaceAll], for a text that is not empty: from the left, without overlaps. *)
Fixpoint replace_from (fuel : nat) (old new s : gostring) : gostring :=
  match fuel, s with
  | O, _ | _, [] => []
  | S fuel, c :: t => if has_prefix old s then new ++ replace_from fuel old new (drop (length old) s) else c :: replace_from fuel old new t
  end.
Definition ReplaceAll (s old new : gostring) : gostring := replace_from (length s) old new s.

Definition render_error (e : cloudflareErr) : gostring := FormatInt (cfe_Code e) ++ go " " ++ cfe_Message e.
Definition maxSummary : nat := 512.
(** src/internal/transport/http/certcloudflare.go:507-551, originCAErrorSummary *)
Definition originCAErrorSummary (resp : originCAResponse) (token : Redacted) : gostring :=
  match ocr_Errors resp with
  | [] => go "no error detail provided"
  | errs =>
      let s := join_with (go "; ") (render_error <$> errs) in
      let s := if bool_decide (token = []) then s else ReplaceAll s token (go "[REDACTED]") in
      if (maxSummary <? length s)%nat then TrimPartialRune (take maxSummary s) ++ go "..." else s
  end.

Section origin.
Context `{X509}.

(** src/internal/transport/http/certcloudflare.go:73-151, originCAProvider *)
Record originCAProvider := MkOriginCA {
  oc_token : Redacted;
  oc_hosts : list gostring;
  oc_cacheDir : gostring;
  oc_validity : Z;
  oc_peers : trustedPeers;
}.

(** The request, of which the keys of the JSON object are in order. *)
Definition origin_body (p : originCAProvider) (csr : bytes) : bytes :=
  print (VObj [(go "csr", str csr); (go "hostnames", VArr (str <$> oc_hosts p)); (go "request_type", str originCARequestType); (go "requested_validity", int (oc_validity p))]).
Definition origin_request (p : originCAProvider) (csr : bytes) : http_req :=
  MkReq POST originCAEndpoint [(go "Content-Type", go "application/json"); originCAAuthHeader (oc_token p)] (Some (origin_body p csr)).

(** Redirects are followed: there is no [CheckRedirect].

    src/internal/transport/http/certcloudflare.go:222-222, newOriginCAProvider *)
Definition originCAClient : http_client := MkClient Follow.

(** src/internal/transport/http/certcloudflare.go:421-484, originCAProvider.requestCertificate *)
Definition requestCertificate (p : originCAProvider) (csr : bytes) : proc (result (list bytes)) :=
  try! resp := client_Do (λ q, ask (HTTPDo q)) originCAClient (origin_request p csr) in
  Ret (match resp with
       | None => Err (errorf "request failed" [ErrOriginCAIssuance; errTransport])
       | Some resp =>
           match read_limited originCAMaxResponseBytes resp with
           | Err e => Err (errorf "read response" [ErrOriginCAIssuance; e])
           | Ok raw =>
               match Unmarshal into_originCAResponse raw empty_response with
               | None => Err (errorf "malformed response" [ErrOriginCAIssuance])
               | Some decoded =>
                   if negb (p_StatusCode resp =? 200) || negb (ocr_Success decoded) then Err (errorf "api rejected the request" [ErrOriginCAIssuance]) else
                   let certificate := ocr_Certificate (ocr_Result decoded) in
                   let chain := parseCertChainPEM (S (length certificate)) certificate in
                   if bool_decide (chain = []) then Err (errorf "response contained no certificate" [ErrOriginCAIssuance]) else Ok chain
               end
           end
       end).

(** src/internal/transport/http/certcloudflare.go:397-419, originCAProvider.buildCSR *)
Definition buildCSR (p : originCAProvider) (key : signer) : proc (result bytes) :=
  let! der := on_err (λ e, errorf "create csr" [ErrOriginCAIssuance; e]) (ask (CreateCSR (names_of (default [] (head (oc_hosts p))) (oc_hosts p)) key)) in
  Ret (Ok (pem_Encode (go "CERTIFICATE REQUEST") der)).

(** src/internal/transport/http/certcloudflare.go:572-598, originCAProvider.loadCachedCert *)
Definition origin_loadCachedCert (p : originCAProvider) : proc (result tls_cert) := loadCached (oc_cacheDir p) originCAKeyFile originCACertFile.
(** src/internal/transport/http/certcloudflare.go:600-631, originCAProvider.storeCachedCert *)
Definition origin_storeCachedCert (p : originCAProvider) (cert : tls_cert) : proc (result unit) := storeCached ErrOriginCAIssuance (oc_cacheDir p) originCAKeyFile originCACertFile cert.

(** It returns the certificate that it installed.

    src/internal/transport/http/certcloudflare.go:352-395, originCAProvider.obtain *)
Definition origin_obtain (p : originCAProvider) : proc (result tls_cert) :=
  let! key := on_err (λ e, errorf "generate origin key" [ErrOriginCAIssuance; e]) (ask GenerateKey) in
  let! csr := buildCSR p key in
  let! chain := requestCertificate p csr in
  let cert := MkTLSCert chain (Signer key) None in
  try! now := ask Now in
  match validateCertificate cert now with
  | Some e => Ret (Err (errorf "issued certificate is unusable" [ErrOriginCAIssuance; e]))
  | None =>
      let! _ := origin_storeCachedCert p cert in
      try! _ := ask (SetCurrent cert) in Ret (Ok cert)
  end.

(** src/internal/transport/http/certcloudflare.go:297-336, originCAProvider.GetCertificate *)
Definition origin_GetCertificate (peers : trustedPeers) (current : option tls_cert) (hello : option ClientHello) : result tls_cert :=
  let issued := match current with Some cert => Ok cert | None => Err (errorf "no certificate has been issued" [ErrOriginCAIssuance]) end in
  match hello with
  | None => issued
  | Some hi =>
      match RemoteAddr hi with
      | None => Err (errorf "peer address unavailable" [ErrOriginCADirectClient])
      | Some remote =>
          if match remote with None => false | Some addr => trusts peers addr end then issued
          else Err (errorf "connection did not arrive through a configured trusted proxy" [ErrOriginCADirectClient])
      end
  end.

(** The loop is that of ACME, with a first check after an hour.

    src/internal/transport/http/certcloudflare.go:633-674, originCAProvider.renewalLoop *)
Definition origin_renewalLoop (n : nat) (p : originCAProvider) (current : option tls_cert) : proc unit :=
  renewalLoop n (λ due, try! r := origin_obtain p in Ret (r, due)) originCARenewCheckInterval 0 current ∅.

(** The provider and the certificate that it starts with.

    src/internal/transport/http/certcloudflare.go:225-291, newOriginCAProviderWithClient *)
Definition newOriginCAProviderWithClient (cfg : Config) (token : Redacted) : proc (result (originCAProvider * tls_cert)) :=
  let o := TLS_CloudflareOrigin (Cfg_TLS cfg) in
  let peers := newTrustedPeers (Srv_TrustedProxies (Cfg_Server cfg)) in
  if tp_empty peers then Ret (Err (errorf "server.trusted_proxies is empty" [ErrOriginCADirectClient])) else
  let p := MkOriginCA token (certHosts cfg) (CFO_CacheDir o) (CFO_ValidityDays o) peers in
  try! cached := origin_loadCachedCert p in
  match cached with
  | Ok cert => try! _ := ask (SetCurrent cert) in Ret (Ok (p, cert))
  | Err _ => let! cert := origin_obtain p in Ret (Ok (p, cert))
  end.

(** src/internal/transport/http/certcloudflare.go:189-223, newOriginCAProvider *)
Definition newOriginCAProvider (cfg : Config) (resolve : Ref → result Redacted) : proc (result (originCAProvider * tls_cert)) :=
  let o := TLS_CloudflareOrigin (Cfg_TLS cfg) in
  match resolve (CFO_APITokenRef o) with
  | Err e => Ret (Err (errorf "tls.cloudflare_origin.api_token_ref" [ErrOriginCACredential; e]))
  | Ok token =>
      if IsBlank token then Ret (Err (errorf "tls.cloudflare_origin.api_token_ref resolved to a blank value" [ErrOriginCACredential])) else
      let! _ := wrap_all "create cache dir" [ErrOriginCAIssuance] (ask (MkdirAll (CFO_CacheDir o) originCACacheDirMode)) in
      newOriginCAProviderWithClient cfg token
  end.

(** The start, and the first [n] turns of the loop that it leaves running. *)
Definition origin_life (n : nat) (cfg : Config) (token : Redacted) : proc (result unit) :=
  let! started := newOriginCAProviderWithClient cfg token in
  try! _ := origin_renewalLoop n started.1 (Some started.2) in Ret (Ok tt).

(** ** Its life *)

Definition origin_terms (cfg : Config) (token : Redacted) : terms :=
  let o := TLS_CloudflareOrigin (Cfg_TLS cfg) in
  MkTerms [filepath_Join (CFO_CacheDir o) originCAKeyFile; filepath_Join (CFO_CacheDir o) originCACertFile] [] []
    (λ q, q_URL q = originCAEndpoint ∧ q_Method q = POST ∧ originCAAuthHeader token ∈ q_Header q) true.

(** Only a peer that came through a trusted proxy gets a certificate, one that was checked. *)
Definition origin_handshakes (peers : trustedPeers) (h : history) : Prop := ∀ hi c, origin_GetCertificate peers (current_of h) (Some hi) = Ok c →
  (∃ addr, RemoteAddr hi = Some (Some addr) ∧ trusts peers addr = true) ∧ ∃ now, servable c now ∧ MkEvent _ Now now ∈ h.

Lemma in_order_origin peers h : in_order h → origin_handshakes peers h.
Proof.
  intros [Hc _] hi c. unfold origin_GetCertificate. destruct (RemoteAddr hi) as [[addr|]|]; [|done..]. destruct (trusts peers addr) eqn:Et; [|done].
  destruct (current_of h) as [c'|]; [|done]. intros [= ->]. split; [by exists addr|by apply Hc].
Qed.

(** *** Following redirects *)

Lemma copyHeaders_all header : copyHeaders header false true = header.
Proof.
  unfold copyHeaders. induction header as [|kv header IH]; [done|]. rewrite filter_cons_True by (split; intros [? _]; done). by f_equal.
Qed.
Lemma copyHeaders_less header away away' body body' kv : (away = true → away' = true) → (body' = true → body = true) →
  kv ∈ copyHeaders header away' body' → kv ∈ copyHeaders header away body.
Proof.
  intros Ha Hb. unfold copyHeaders. rewrite !list_elem_of_filter. intros [[H1 H2] Hin]. split; [|done]. split.
  - intros [E Hs]. apply H1. auto.
  - intros [E Hs]. apply H2. split; [|done]. destruct body'; [|done]. by rewrite Hb in E.
Qed.
Lemma copyHeaders_away header body v : (go "Authorization", v) ∉ copyHeaders header true body.
Proof. unfold copyHeaders. intros [[Hs _] _]%list_elem_of_filter. apply Hs. split; [done|left]. Qed.

Lemma rested_streak h : rested h → streak h = 0%nat.
Proof. destruct h as [|[X e x] h]; [done|]. by destruct e. Qed.

Lemma do_from_keeps t c first n away body q h : tm_follow t = true → rules t h _ (HTTPDo q) →
  q_Header q = copyHeaders (q_Header first) away body → (streak h + n ≤ 9)%nat →
  spec (rules t) (λ h' _, challenge_of h' = challenge_of h) h (do_from (λ q, ask (HTTPDo q)) c first n away body q).
Proof.
  intros Ht. revert away body q h. induction n as [|n IH]; intros away body q h Hr Hh Hn; cbn [do_from ask bind spec]; (split; [exact Hr|]); intros [resp|]; try done;
    destruct (redirectBehavior _ _) as [[method keep]|] eqn:Eb, (p_Location resp) as [| |url same] eqn:El; try done; destruct (hc_CheckRedirect c); try done.
  set (away' := away || negb same). set (body' := body && keep). eapply spec_mono; [done| |apply IH]; [done| |done|cbn [streak ev]; lia].
  right. split; [done|]. exists q, resp, h, url, same. split_and!; [done|by rewrite Eb|done|done| | |cbn [streak ev]; lia].
  - cbn [q_Header]. rewrite Hh. intros kv. apply copyHeaders_less; [by intros ->|]. unfold body'. by intros [? _]%andb_true_iff.
  - intros -> v. cbn [q_Header]. unfold away'. cbn [negb]. rewrite orb_true_r. apply copyHeaders_away.
Qed.

Lemma client_Do_keeps t c q h : tm_follow t = true → tm_request t q → rested h →
  spec (rules t) (λ h' _, challenge_of h' = challenge_of h) h (client_Do (λ q, ask (HTTPDo q)) c q).
Proof.
  intros Ht Hq Hr. apply do_from_keeps; [done|by left|by rewrite copyHeaders_all|]. by rewrite (rested_streak _ Hr).
Qed.

Lemma origin_obtain_keeps cfg p h : rested h → oc_cacheDir p = CFO_CacheDir (TLS_CloudflareOrigin (Cfg_TLS cfg)) →
  spec (rules (origin_terms cfg (oc_token p))) (λ h' _, challenge_of h' = challenge_of h) h (origin_obtain p).
Proof.
  intros Hr Hdir. unfold origin_obtain.
  eapply spec_bind; [apply keeps_on_err; by apply keeps_ask|]. intros h1 [key|e] [E1 R1]; [|done].
  eapply spec_bind; [apply keeps_bind_ok; [apply keeps_on_err; by apply keeps_ask|by intros h' der Hk]|]. intros h2 [csr|e] [E2 R2]; [|by cbn [spec]; rewrite E2].
  eapply (spec_bind _ (λ h' _, challenge_of h' = challenge_of h2)).
  { eapply (spec_bind _ (λ h' _, challenge_of h' = challenge_of h2)); [|by intros h3 resp E3].
    apply client_Do_keeps; [done| |by auto]. do 2 (split; [done|]). right. left. }
  cbv beta. intros h3 [chain|e] E3; [|by cbn [spec]; rewrite E3, E2].
  cbn [ask bind spec]. split; [done|]. intros now. destruct (validateCertificate _ now) as [e|] eqn:Ev; [by cbn [spec challenge_of ev]; rewrite E3, E2|].
  eapply spec_bind; [apply spec_grows, storeCached_keeps; rewrite Hdir; [left|right; left]|]. cbv beta. intros h4 [[]|e] [[Hk _] Hs]; cbn [challenge_of ev] in Hk; [|by cbn [spec]; rewrite Hk, E3, E2].
  cbn [ask bind spec]. split; [|by intros []; cbn [spec challenge_of ev]; rewrite Hk, E3, E2].
  exists now. split; [by apply validateCertificate_exact|]. destruct Hs as [h5 ->]. apply elem_of_app. right. left.
Qed.

(** C33. Whatever the API, the disk and the clock answer, at every moment of the provider's life: a
    handshake is given a certificate only if its connection came through a trusted proxy, and
    one that matched its key and was inside its window when it was installed; a request is
    made to the one endpoint, with the credential in the one header for its kind and at least
    a minute after the one before, or it goes where the answer to the request just made
    redirects it, as one of at most ten in a row, with headers of that request only, and
    without an [Authorization] if the host is another -- a service key goes with it:
    [service_key_follows]; keys and certificates are written only to files that nobody else
    can read, and replaced only by complete ones. *)
Theorem origin_life_safe n cfg token : let peers := newTrustedPeers (Srv_TrustedProxies (Cfg_Server cfg)) in
  spec (λ h X e, origin_handshakes peers h ∧ rules (origin_terms cfg token) h X e) (λ h _, origin_handshakes peers h) [] (origin_life n cfg token).
Proof.
  intros peers. eapply spec_mono; [| |eapply (spec_in_order _ (λ h _, challenge_of h = ∅)); [by split|]].
  { intros h X e [Hi Hr]. split; [by apply in_order_origin|exact Hr]. }
  { intros h r [Hi Hr]. by apply in_order_origin. }
  unfold origin_life, newOriginCAProviderWithClient. fold peers. destruct (tp_empty peers); [done|].
  set (p := MkOriginCA token _ _ _ peers).
  assert (∀ current h, challenge_of h = ∅ → spec (rules (origin_terms cfg token)) (λ h' _, challenge_of h' = ∅) h (try! _ := origin_renewalLoop n p current in Ret (Ok tt))) as Hloop.
  { intros current h Hh. eapply (spec_bind _ (λ h' _, challenge_of h' = ∅)); [|done]. apply renewalLoop_keeps; [|done|by right]. intros h' Hh' Hr'. eapply spec_bind; [by apply (origin_obtain_keeps cfg p)|].
    cbv beta. intros h2 r Hk. split; [by rewrite Hk|done]. }
  eapply (spec_bind _ (λ h r, challenge_of h = ∅ ∧ match r with Ok (q, _) => q = p | Err _ => True end)); [|intros h [[q cert]|e] [E Hq]; [subst q; by apply Hloop|done]].
  eapply spec_bind; [apply loadCached_checked|]. cbv beta. intros h1 [cert|e] [[E1 R1] Hc].
  - cbn [ask bind spec]. split; [by apply Hc|]. by intros [].
  - eapply spec_bind; [apply (origin_obtain_keeps cfg p); [by apply R1|done]|]. cbv beta. intros h2 [cert|e'] E2; by split; [rewrite E2|].
Qed.

(** The guard of the DNS clients is missing here.  When the endpoint answers the request with
    a 307 or a 308 that points to another host, the same request is sent there, with the
    signing request and with the credential if it is a service key: [net/http] withholds
    [Authorization] from another host, but not [X-Auth-User-Service-Key]. *)
Theorem service_key_follows p csr resp url : has_prefix originCAKeyPrefix (oc_token p) = true →
  p_StatusCode resp = 307 ∨ p_StatusCode resp = 308 → p_Location resp = Location url false →
  ∃ k k', requestCertificate p csr = Vis _ (HTTPDo (origin_request p csr)) k ∧
    k (Some resp) = Vis _ (HTTPDo (MkReq POST url (q_Header (origin_request p csr)) (Some (origin_body p csr)))) k' ∧
    (go "X-Auth-User-Service-Key", oc_token p) ∈ q_Header (origin_request p csr).
Proof.
  intros Hkey Hst Hl. assert (redirectBehavior POST (p_StatusCode resp) = Some (POST, true)) as Hb by (by destruct Hst as [-> | ->]).
  assert (q_Header (origin_request p csr) = [(go "Content-Type", go "application/json"); (go "X-Auth-User-Service-Key", oc_token p)]) as Hh
    by (unfold origin_request, originCAAuthHeader; by rewrite Hkey).
  eexists _, _. split; [reflexivity|]. split; [|rewrite Hh; by right; left].
  cbn [q_Method origin_request]. rewrite Hb, Hl. cbn [hc_CheckRedirect originCAClient negb orb andb bind do_from ask].
  cbn [q_Body origin_request]. change (MkReq POST originCAEndpoint _ _) with (origin_request p csr). rewrite Hh. reflexivity.
Qed.
End origin.

(** ** The credential stays out of error texts *)

Lemma replace_prefix fuel old new s w : head new = Some (byte_of 91) → byte_of 91 ∉ w → w `prefix_of` replace_from fuel old new s → w `prefix_of` s.
Proof.
  intros Hnew. revert s w. induction fuel as [|fuel IH]; intros s w Hw Hp; [by apply prefix_nil_inv in Hp as ->; apply prefix_nil|].
  destruct s as [|c t]; [done|]. destruct w as [|b w]; [apply prefix_nil|]. cbn [replace_from] in Hp. destruct (has_prefix old (c :: t)).
  - exfalso. destruct new as [|n new]; [done|]. injection Hnew as ->. destruct Hp as [k Hk]. injection Hk as <- _. apply Hw. left.
  - apply prefix_cons_inv_1 in Hp as Hb. apply prefix_cons_inv_2 in Hp. subst b. apply prefix_cons, IH; [|done]. intros Hin. apply Hw. by right.
Qed.

Lemma has_prefix_complete p s : p `prefix_of` s → has_prefix p s = true.
Proof. intros [k ->]. induction p as [|c p IH]; [done|]. cbn [app has_prefix]. by rewrite bool_decide_eq_true_2, IH. Qed.

(** A text that is too long for the marker and has no brackets does not come back. *)
Lemma replace_hides fuel token s a b : (10 < length token)%nat → byte_of 91 ∉ token → byte_of 93 ∉ token →
  replace_from fuel token (go "[REDACTED]") s ≠ a ++ token ++ b.
Proof.
  intros Hlen Hl Hr. revert s a. induction fuel as [|fuel IH]; intros s a E.
  { cbn in E. symmetry in E. apply app_eq_nil in E as [_ [-> _]%app_eq_nil]. cbn in Hlen. lia. }
  destruct s as [|c t]; [cbn in E; symmetry in E; apply app_eq_nil in E as [_ [-> _]%app_eq_nil]; cbn in Hlen; lia|].
  cbn [replace_from] in E. destruct (has_prefix token (c :: t)) eqn:Hp.
  - destruct (decide (length a < 10)%nat) as [Ha|Ha].
    + apply (f_equal (λ l, l !! 9%nat)) in E. rewrite lookup_app_l in E by (unfold go; cbn; lia). rewrite lookup_app_r in E by lia. rewrite lookup_app_l in E by lia.
      apply Hr. eapply list_elem_of_lookup_2. symmetry. exact E.
    + assert (∃ a', a = go "[REDACTED]" ++ a') as [a' ->].
      { apply (f_equal (take 10)) in E. rewrite (take_app_le (go _)) in E by (unfold go; cbn; lia). rewrite take_app_le in E by lia. exists (drop 10 a). rewrite <- (take_drop 10 a) at 1. f_equal. by rewrite <- E. }
      rewrite <- app_assoc in E. apply app_inv_head in E. by eapply IH.
  - destruct a as [|c' a]; [|injection E as _ E; by eapply IH]. cbn [app] in E.
    assert (token `prefix_of` c :: t) as Hpre%has_prefix_complete; [|congruence].
    apply (replace_prefix (S fuel) token (go "[REDACTED]")); [done|done|]. cbn [replace_from]. rewrite Hp, E. by eexists.
Qed.

Lemma trim_fragments_prefix n s : trim_fragments n s `prefix_of` s.
Proof.
  revert s. induction n as [|n IH]; intros s; cbn [trim_fragments]; [done|]. case_bool_decide; [done|]. destruct (ends_in_fragment s); [|done].
  etransitivity; [apply IH|apply prefix_take].
Qed.

Lemma infix_of_dots (token s a b : gostring) : s ++ go "..." = a ++ token ++ b → last token ≠ Some DOT → token ≠ [] → ∃ b', s = a ++ token ++ b'.
Proof.
  intros E Hlast Ht. destruct (decide (length (a ++ token) ≤ length s)%nat) as [Hle|Hgt].
  - exists (drop (length (a ++ token)) s). rewrite app_assoc in E. apply (f_equal (take (length (a ++ token)))) in E. rewrite take_app_le in E by lia. rewrite take_app_length in E.
    rewrite app_assoc. etransitivity; [symmetry; apply (take_drop (length (a ++ token)))|by f_equal].
  - exfalso. apply Hlast. destruct token as [|d token _] using rev_ind; [done|]. rewrite last_snoc. f_equal.
    assert ((s ++ go "...") !! length (a ++ token) = Some d) as Hd. { rewrite E. rewrite <- (app_assoc token [d] b), (app_assoc a token). by apply list_lookup_middle. }
    rewrite lookup_app_r in Hd by (rewrite !length_app in *; cbn in *; lia). apply list_elem_of_lookup_2 in Hd. unfold go in Hd. cbn [list_ascii_of_string] in Hd.
    rewrite !elem_of_cons, elem_of_nil in Hd. by destruct Hd as [->|[->|[->|[]]]].
Qed.

(** Whatever the endpoint sends, a credential as the service issues them (longer than the
    fixed texts, without brackets, not ending in a dot) does not occur in the summary of its
    errors, also where this is cut. *)
Theorem summary_hides_token resp token a b : (24 < length token)%nat → byte_of 91 ∉ token → byte_of 93 ∉ token → last token ≠ Some DOT →
  originCAErrorSummary resp token ≠ a ++ token ++ b.
Proof.
  intros Hlen Hl Hr Hlast. assert (token ≠ []) as Hne by (intros ->; cbn in Hlen; lia). unfold originCAErrorSummary. destruct (ocr_Errors resp) as [|e errs].
  { intros E. apply (f_equal length) in E. rewrite !length_app in E. unfold go in E. cbn in E. lia. }
  cbv zeta. rewrite bool_decide_eq_false_2 by done. unfold ReplaceAll. set (s := join_with _ _). set (t := replace_from _ _ _ _).
  assert (∀ a b, t ≠ a ++ token ++ b) as Ht by (intros a' b'; apply replace_hides; [lia|done..]).
  destruct (_ <? _)%nat; [|apply Ht]. intros E. apply infix_of_dots in E as [b' E]; [|done..].
  pose proof (trim_fragments_prefix 3 (take maxSummary t)) as [k Hk]. apply (Ht a (b' ++ k ++ drop maxSummary t)).
  rewrite <- (take_drop maxSummary t) at 1. rewrite Hk. fold (TrimPartialRune (take maxSummary t)). rewrite E. by rewrite <- !app_assoc.
Qed.

Lemma summary_hides_token_witness : ∃ resp, originCAErrorSummary resp (go "v1.0-0123456789abcdef01234") = go "1000 bad credential [REDACTED]" ∧
  ∀ a b, originCAErrorSummary resp (go "v1.0-0123456789abcdef01234") ≠ a ++ go "v1.0-0123456789abcdef01234" ++ b.
Proof.
  exists (MkOriginCAResponse false [MkCloudflareErr 1000 (go "bad credential v1.0-0123456789abcdef01234")] (MkOriginCAResult [] [])).
  split; [vm_compute; reflexivity|]. intros a b. apply summary_hides_token; [vm_compute; lia|refine (bool_decide_unpack _ _); vm_compute; exact I..|vm_compute; discriminate].
Defined.
