(* ===== verification/Tls.v ===== *)
(** * TLS

    [internal/transport/http] certprovider.go, certselfsigned.go and tls.go: the gate that every
    certificate passes on its way to a handshake, the modes, and how a configuration becomes
    the settings of the listener ([tls_start_safe]). *)

From S2P Require Import Prelude GoLib RateLimit NetIP GoNum Secrets Config HttpEdge Startup Program Dns01 DnsSets DnsXml DnsUpdate DnsSolver CertFiles Acme AcmeSafety OriginCA.

Open Scope Z_scope.
Open Scope prog_scope.

Section tls.
Context `{X509}.

(** ** The gate *)

(** What a provider answers, no certificate among it, and the time of the handshake.

    src/internal/transport/http/certprovider.go:88-118, certGuard.GetCertificate *)
Definition guard_GetCertificate (answer : result (option tls_cert)) (now : time) : result tls_cert :=
  match answer with
  | Err e => Err (errorf "provider" [ErrTLSCertificateUnavailable; e])
  | Ok None => Err (errorf "provider returned no certificate" [ErrTLSCertificateUnavailable])
  | Ok (Some cert) => match validateCertificate cert now with Some e => Err (errorf "provider" [e]) | None => Ok cert end
  end.

(** Every handshake gets what the provider answered if it matches its key and is inside its
    window at that time, and an error otherwise. *)
Lemma guard_exact answer now c : guard_GetCertificate answer now = Ok c ↔ answer = Ok (Some c) ∧ servable c now.
Proof.
  unfold guard_GetCertificate. destruct answer as [[cert|]|e]; [|by split; [|intros [? _]]..]. destruct (validateCertificate cert now) eqn:E.
  - split; [done|]. intros [[= ->] Hs%validateCertificate_exact]. congruence.
  - split; [intros [= ->]; split; [done|by apply validateCertificate_exact]|by intros [[= ->] _]].
Qed.

(** ** Self-signed certificates *)

(** src/internal/transport/http/certselfsigned.go:18-43, selfSignedValidity *)
Definition selfSignedValidity : duration := 6 * Hour.
Definition selfSignedRenewBefore : duration := 30 * Minute.
Definition environmentDevelopment : gostring := go "development".

(** src/internal/transport/http/certselfsigned.go:45-69, isProduction *)
Definition isProduction (cfg : option Config) : bool :=
  match cfg with None => true | Some cfg => negb (bool_decide (Srv_Environment (Cfg_Server cfg) = environmentDevelopment)) end.
(** src/internal/transport/http/certselfsigned.go:110-113, allowsSelfSignedInProduction *)
Definition allowsSelfSignedInProduction (cfg : option Config) : bool :=
  match cfg with None => false | Some cfg => TLS_AllowSelfSignedInProduction (Cfg_TLS cfg) end.
(** It returns the names that the certificates are for.

    src/internal/transport/http/certselfsigned.go:90-108, newSelfSignedProvider *)
Definition newSelfSignedProvider (cfg : option Config) : result (list gostring) :=
  if isProduction cfg && negb (allowsSelfSignedInProduction cfg) then Err (errorf "environment is treated as production" [ErrSelfSignedInProduction])
  else Ok (match cfg with None => default_hosts | Some cfg => certHosts cfg end).

(** src/internal/transport/http/certselfsigned.go:179-235, newSelfSignedCert *)
Definition newSelfSignedCert (hosts : list gostring) (now : time) : proc (result tls_cert) :=
  let! created := on_err (λ e, errorf "httpserver: create certificate" [e]) (ask (CreateSelfSigned (names_of [] hosts) (now - Minute) (now + selfSignedValidity))) in
  let '(der, key) := created in
  Ret (match ParseCertificate der with
       | None => Err (errorf "httpserver: parse certificate" [])
       | Some leaf => Ok (MkTLSCert [der] (Signer key) (Some leaf))
       end).

(** The certificate that is kept goes through.

    src/internal/transport/http/certselfsigned.go:129-160, selfSignedProvider.GetCertificate *)
Definition selfSigned_GetCertificate (hosts : list gostring) (kept : option tls_cert) : proc (result tls_cert * option tls_cert) :=
  try! now := ask Now in
  let mint := try! minted := newSelfSignedCert hosts now in Ret (match minted with Ok cert => (Ok cert, Some cert) | Err e => (Err e, kept) end) in
  match kept with
  | Some cert =>
      match tc_Leaf cert with
      | Some leaf => if now <? NotAfter leaf - selfSignedRenewBefore then Ret (Ok cert, kept) else mint
      | None => mint
      end
  | None => mint
  end.

(** ** Operators' certificates *)

(** src/internal/transport/http/tls.go:481-518, newManualProvider *)
Definition newManualProvider (certFile keyFile : gostring) : proc (result tls_cert) :=
  let! cert := on_err (λ e, errorf "load key pair" [ErrTLSCertificateInvalid; e]) (ask (LoadKeyPair certFile keyFile)) in
  Ret (match tc_Leaf cert, tc_Certificate cert with
       | None, der :: _ =>
           match ParseCertificate der with
           | None => Err (errorf "parse leaf" [ErrTLSCertificateInvalid])
           | Some leaf => Ok (MkTLSCert (tc_Certificate cert) (tc_PrivateKey cert) (Some leaf))
           end
       | _, _ => Ok cert
       end).

(** ** Modes *)

(** With what each starts with.

    src/internal/transport/http/certprovider.go:11-60, CertProvider *)
Inductive CertProvider :=
  | SelfSignedProvider (hosts : list gostring)
  | ManualProvider (cert : tls_cert)
  | CSRProvider (cert : tls_cert)
  | ACMEProvider (p : acmeProvider) (current : option tls_cert)
  | OriginCAProvider (p : originCAProvider) (current : tls_cert).

(** The protocols of the challenges that are answered in the handshake.

    src/internal/transport/http/tls.go:128-135, challengeALPNProtos *)
Definition challengeALPNProtos (provider : CertProvider) : list gostring :=
  match provider with ACMEProvider p _ => sl_protos (ap_solver p) | _ => [] end.
(** src/internal/transport/http/certacme.go:298-317, acmeProvider.issuesAfterStartup *)
Definition issuesAfterStartup (provider : CertProvider) : bool := match provider with ACMEProvider _ _ => true | _ => false end.
(** src/internal/transport/http/tls.go:137-152, startupProbeRequired *)
Definition startupProbeRequired (provider : CertProvider) : bool :=
  if issuesAfterStartup provider then false else bool_decide (challengeALPNProtos provider = []).

(** What a provider answers to the probe, a handshake without a client.

    src/internal/transport/http/tls.go:523-529, manualProvider.GetCertificate *)
Definition probe_answer (provider : CertProvider) : proc (result (option tls_cert)) :=
  match provider with
  | SelfSignedProvider hosts => try! r := selfSigned_GetCertificate hosts None in Ret (match r.1 with Ok cert => Ok (Some cert) | Err e => Err e end)
  | ManualProvider cert | CSRProvider cert => Ret (Ok (Some cert))
  | ACMEProvider p current => Ret (match acme_GetCertificate current ∅ None with Ok cert => Ok (Some cert) | Err e => Err e end)
  | OriginCAProvider p current => Ret (match origin_GetCertificate (oc_peers p) (Some current) None with Ok cert => Ok (Some cert) | Err e => Err e end)
  end.

Definition VersionTLS12 : Z := 0x0303.
Definition VersionTLS13 : Z := 0x0304.
(** src/internal/transport/http/tls.go:531-544, parseMinVersion *)
Definition parseMinVersion (v : gostring) : result Z :=
  if bool_decide (v = []) || bool_decide (v = go "1.2") then Ok VersionTLS12 else
  if bool_decide (v = go "1.3") then Ok VersionTLS13 else Err (errorf "want 1.2 or 1.3" [ErrTLSMinVersion]).

(** The numbers of the suites in crypto/tls, each with forward secrecy and authenticated
    encryption.

    src/internal/transport/http/tls.go:428-466, tls12CipherSuites *)
Definition tls12CipherSuites : list Z := [0xc02b; 0xc02c; 0xcca9; 0xc02f; 0xc030; 0xcca8].

(** [tls.Config], as far as it is set; certificates come from the gate alone. *)
Record tls_config := MkTLSConf { tf_MinVersion : Z; tf_CipherSuites : list Z; tf_NextProtos : list gostring; tf_Provider : CertProvider }.

(** ** Providers from a configuration *)

Section configuration.
Context {UC : UnicodeCase} {MK : Miekg}.
Context (xml_zones : bytes → option (list hostedZone)) (xml_rrsets : bytes → option (list resourceRecordSet))
        (xml_error : bytes → option (gostring * gostring)) (xml_change : change → result bytes)
        (xml_header : bytes → option (gostring * list namecheapAPIError)) (xml_hosts : bytes → option namecheapHosts)
        (xml_set : bytes → option gostring) (xml_list : bytes → option (list gostring * Z)).
Context {rsa_key : Type} (pem_Block : bytes → option bytes) (ParsePKCS8 : bytes → option (option rsa_key)) (SignPKCS1v15 : rsa_key → bytes → result bytes).
(** The environment and the files that hold secrets, and the error of an account that exists. *)
Context (lookup : gostring → option gostring) (fs : files) (ErrAccountAlreadyExists : goerror).
Context (cfg : Config).

Definition api_provider : gostring → Credentials → result DNSProvider :=
  NewAPIProvider xml_zones xml_rrsets xml_error xml_change xml_header xml_hosts xml_set xml_list pem_Block ParsePKCS8 SignPKCS1v15.

(** src/internal/transport/http/tls.go:237-264, builtinSecretResolver *)
Definition builtinSecretResolver : Ref → result Redacted := resolve_ref lookup fs cfg.

(** The references in their order; the first that fails ends it. *)
Fixpoint resolve_named (r : Resolver) (refs : gmap gostring Ref) (names : list gostring) (named : gmap gostring Redacted) : result (gmap gostring Redacted) :=
  match names with
  | [] => Ok named
  | name :: names =>
      match Resolver_Resolve r (default [] (refs !! name)) with
      | Err e => Err (errorf "tls.acme.dns.credentials_refs" [ErrTLSCertificateInvalid; e])
      | Ok val => resolve_named r refs names (<[name := val]> named)
      end
  end.
(** src/internal/transport/http/tls.go:374-426, resolveDNSCredentials *)
Definition resolveDNSCredentials : result Credentials :=
  match NewResolver (Builtin (permMode cfg) lookup fs) with
  | Err e => Err (errorf "build secret resolver" [ErrTLSCertificateInvalid; e])
  | Ok r =>
      let d := ACME_DNS (TLS_ACME (Cfg_TLS cfg)) in
      if bool_decide (ADNS_CredentialsRefs d ≠ ∅) then
        match resolve_named r (ADNS_CredentialsRefs d) (SortedRefNames (ADNS_CredentialsRefs d)) ∅ with
        | Err e => Err e
        | Ok named => Ok (NewNamedCredentials named)
        end
      else match Resolver_Resolve r (ADNS_CredentialsRef d) with
           | Err e => Err (errorf "tls.acme.dns.credentials_ref" [ErrTLSCertificateInvalid; e])
           | Ok credential => Ok (NewSingleCredential credential)
           end
  end.

(** src/internal/transport/http/tls.go:324-372, newDNSProvider *)
Definition newDNSProvider : result DNSProvider :=
  let d := ACME_DNS (TLS_ACME (Cfg_TLS cfg)) in
  if bool_decide (ADNS_Mode d = go "manual") then Ok NewManualProvider else
  if bool_decide (ADNS_Mode d = go "api") then
    match resolveDNSCredentials with
    | Err e => Err e
    | Ok creds =>
        if bool_decide (ADNS_Provider d = go "rfc2136") then
          match NewRFC2136 (ADNS_Server d) (ADNS_TSIGKeyName d) (ADNS_TSIGAlgorithm d) creds with
          | Err e => Err (errorf "rfc2136" [ErrTLSCertificateInvalid; e])
          | Ok provider => Ok provider
          end
        else match api_provider (ADNS_Provider d) creds with
             | Err e => if errors_is e ErrUnsupportedProvider then Err (errorf "dns provider" [ErrTLSModeUnsupported]) else Err e
             | Ok provider => Ok provider
             end
    end
  else Err (errorf "acme dns mode" [ErrTLSModeUnsupported]).

Definition as_acme (m : proc (result (acmeProvider * option tls_cert))) : proc (result CertProvider) :=
  let! started := m in Ret (Ok (ACMEProvider started.1 started.2)).

(** src/internal/transport/http/tls.go:300-322, newDNS01ACMEProvider *)
Definition newDNS01ACMEProvider : proc (result CertProvider) :=
  match newDNSProvider with
  | Err e => Ret (Err e)
  | Ok dnsProvider => as_acme (newACMEProvider ErrAccountAlreadyExists cfg (solver_of (Some dnsProvider)))
  end.
(** src/internal/transport/http/tls.go:266-298, newACMEProviderForSolver *)
Definition newACMEProviderForSolver : proc (result CertProvider) :=
  let solver := ACME_Solver (TLS_ACME (Cfg_TLS cfg)) in
  if bool_decide (solver = go "tls_alpn_01") then as_acme (newACMEProvider ErrAccountAlreadyExists cfg (solver_of None)) else
  if bool_decide (solver = go "dns_01") then newDNS01ACMEProvider else
  Ret (Err (errorf "acme solver" [ErrTLSModeUnsupported])).

(** src/internal/transport/http/tls.go:173-212, newCertProvider *)
Definition newCertProvider : proc (result CertProvider) :=
  let t := Cfg_TLS cfg in
  let mode := TLS_Mode t in
  if bool_decide (mode = go "self_signed") then
    Ret (match newSelfSignedProvider (Some cfg) with Ok hosts => Ok (SelfSignedProvider hosts) | Err e => Err e end) else
  if bool_decide (mode = go "manual") then
    let! cert := newManualProvider (Man_CertFile (TLS_Manual t)) (Man_KeyFile (TLS_Manual t)) in Ret (Ok (ManualProvider cert)) else
  if bool_decide (mode = go "csr") then
    let! cert := newCSRProvider cfg in Ret (Ok (CSRProvider cert)) else
  if bool_decide (mode = go "acme") then newACMEProviderForSolver else
  if bool_decide (mode = go "cloudflare_origin") then
    let! started := newOriginCAProvider cfg builtinSecretResolver in Ret (Ok (OriginCAProvider started.1 started.2))
  else Ret (Err (errorf "mode" [ErrTLSModeUnsupported])).

(** src/internal/transport/http/tls.go:18-107, buildTLSConfig *)
Definition buildTLSConfig : proc (result tls_config) :=
  match parseMinVersion (TLS_MinVersion (Cfg_TLS cfg)) with
  | Err e => Ret (Err e)
  | Ok minVersion =>
      let! provider := newCertProvider in
      let challengeProtos := challengeALPNProtos provider in
      let built := MkTLSConf minVersion tls12CipherSuites ([go "h2"; go "http/1.1"] ++ challengeProtos) provider in
      if startupProbeRequired provider then
        try! answer := probe_answer provider in
        try! now := ask Now in
        Ret (match guard_GetCertificate answer now with Err e => Err e | Ok _ => Ok built end)
      else Ret (Ok built)
  end.

(** ** Starting *)

Definition provider_mode (provider : CertProvider) : gostring :=
  match provider with
  | SelfSignedProvider _ => go "self_signed"
  | ManualProvider _ => go "manual"
  | CSRProvider _ => go "csr"
  | ACMEProvider _ _ => go "acme"
  | OriginCAProvider _ _ => go "cloudflare_origin"
  end.

Definition selected (provider : CertProvider) : Prop :=
  provider_mode provider = TLS_Mode (Cfg_TLS cfg) ∧
  match provider with
  | SelfSignedProvider _ => Srv_Environment (Cfg_Server cfg) = environmentDevelopment ∨ TLS_AllowSelfSignedInProduction (Cfg_TLS cfg) = true
  | ACMEProvider p _ => sl_protos (ap_solver p) = if bool_decide (ACME_Solver (TLS_ACME (Cfg_TLS cfg)) = go "tls_alpn_01") then [ALPNProto] else []
  | _ => True
  end.

Definition when_ok {A} (Q : A → Prop) (h : history) (r : result A) : Prop := match r with Ok a => Q a | Err _ => True end.

Lemma any_ok {A B} (Q : B → Prop) h (m : proc (result A)) (f : A → B) : (∀ a, Q (f a)) → spec anything (when_ok Q) h (let! a := m in Ret (Ok (f a))).
Proof. intros Hq. eapply spec_bind; [apply any_spec|]. intros h' [a|e] _; [apply Hq|done]. Qed.

Lemma as_acme_selected solver : TLS_Mode (Cfg_TLS cfg) = go "acme" →
  sl_protos solver = (if bool_decide (ACME_Solver (TLS_ACME (Cfg_TLS cfg)) = go "tls_alpn_01") then [ALPNProto] else []) →
  spec anything (when_ok selected) [] (as_acme (newACMEProvider ErrAccountAlreadyExists cfg solver)).
Proof.
  intros Hm Hs. eapply spec_bind; [eapply spec_mono; [done|intros h r Hr; exact Hr|apply newACMEProvider_starts]|]. cbv beta.
  intros h [[p current]|e] Hr; [|done]. destruct Hr as (_ & _ & ->). split; [done|exact Hs].
Qed.

Lemma newCertProvider_selected : spec anything (when_ok selected) [] newCertProvider.
Proof.
  unfold newCertProvider. case_bool_decide as E1.
  { unfold newSelfSignedProvider, isProduction, allowsSelfSignedInProduction. cbn [spec]. case_bool_decide as Ed; cbn [negb andb]; [by split; [|left]|].
    destruct (TLS_AllowSelfSignedInProduction _) eqn:Ea; cbn [negb]; [by split; [|right]|done]. }
  case_bool_decide as E2; [by apply any_ok|]. case_bool_decide as E3; [by apply any_ok|]. case_bool_decide as E4.
  { unfold newACMEProviderForSolver. case_bool_decide as E5; [apply as_acme_selected; [done|by rewrite bool_decide_eq_true_2]|].
    case_bool_decide as E6; [|done]. unfold newDNS01ACMEProvider. destruct newDNSProvider as [d|e]; [|done]. apply as_acme_selected; [done|by rewrite bool_decide_eq_false_2]. }
  case_bool_decide as E5; [|done]. by apply any_ok.
Qed.

(** A certificate that passed the gate at the start. *)
Definition probed (h : history) (provider : CertProvider) : Prop :=
  match provider with
  | SelfSignedProvider _ => ∃ c now, servable c now ∧ MkEvent _ Now now ∈ h
  | ManualProvider c | CSRProvider c | OriginCAProvider _ c => ∃ now, servable c now ∧ MkEvent _ Now now ∈ h
  | ACMEProvider _ _ => True
  end.

Definition listener_sound (h : history) (conf : tls_config) : Prop :=
  VersionTLS12 ≤ tf_MinVersion conf ∧ provider_mode (tf_Provider conf) = TLS_Mode (Cfg_TLS cfg) ∧
  (TLS_Mode (Cfg_TLS cfg) = go "self_signed" → Srv_Environment (Cfg_Server cfg) = go "development" ∨ TLS_AllowSelfSignedInProduction (Cfg_TLS cfg) = true) ∧
  (ALPNProto ∈ tf_NextProtos conf ↔ TLS_Mode (Cfg_TLS cfg) = go "acme" ∧ ACME_Solver (TLS_ACME (Cfg_TLS cfg)) = go "tls_alpn_01") ∧
  probed h (tf_Provider conf).

Lemma selected_sound h v provider : VersionTLS12 ≤ v → selected provider → probed h provider →
  listener_sound h (MkTLSConf v tls12CipherSuites ([go "h2"; go "http/1.1"] ++ challengeALPNProtos provider) provider).
Proof.
  intros Hv [Hm Hsel] Hp. unfold listener_sound. cbn [tf_MinVersion tf_Provider tf_NextProtos].
  assert (ALPNProto ∈ [go "h2"; go "http/1.1"] ++ challengeALPNProtos provider ↔ ALPNProto ∈ challengeALPNProtos provider) as ->.
  { rewrite elem_of_app. split; [|by right]. intros [Hin|Hin]; [|done]. exfalso. revert Hin. refine (bool_decide_unpack _ _). vm_compute. exact I. }
  do 2 (split; [done|]). rewrite <- Hm. destruct provider as [hosts|c|c|p c|p c]; cbn [provider_mode challengeALPNProtos] in *; (split; [by intros ?|]); (split; [|done]).
  1-3,5: split; [by intros ?%not_elem_of_nil|by intros [? _]].
  rewrite Hsel. case_bool_decide as Es; [by split; [|left]|]. split; [by intros ?%not_elem_of_nil|by intros [_ ?]].
Qed.

Lemma probe_passes v provider h : VersionTLS12 ≤ v → selected provider → startupProbeRequired provider = true →
  let built := MkTLSConf v tls12CipherSuites ([go "h2"; go "http/1.1"] ++ challengeALPNProtos provider) provider in
  spec anything (λ h r, ∀ conf, r = Ok conf → listener_sound h conf) h
    (try! answer := probe_answer provider in try! now := ask Now in Ret (match guard_GetCertificate answer now with Err e => Err e | Ok _ => Ok built end)).
Proof.
  intros Hv Hsel Hreq built.
  assert (spec anything (λ _ answer, ∀ c, answer = Ok (Some c) → match provider with ManualProvider c' | CSRProvider c' | OriginCAProvider _ c' => c = c' | _ => True end) h (probe_answer provider)) as Hans.
  { destruct provider as [hosts|c'|c'|p c'|p c']; cbn [probe_answer]; try (by intros c [= ->]).
    - eapply spec_bind; [apply any_spec|]. by intros h' r _ c _.
    - destruct c'; by intros c ?. }
  eapply spec_bind; [exact Hans|]. cbv beta. intros h1 answer Ha. cbn [ask bind spec]. split; [done|]. intros now conf Hconf.
  destruct (guard_GetCertificate answer now) as [c|e] eqn:Eg; [|done]. injection Hconf as <-. apply guard_exact in Eg as [-> Hs]. specialize (Ha c eq_refl).
  apply selected_sound; [done|done|]. destruct provider as [hosts|c'|c'|p c'|p c']; cbn [probed]; [exists c, now|subst c'; exists now..|done|subst c'; exists now]; (split; [done|left]).
Qed.

(** C31. When the settings of the listener are built, whatever files, authorities and the clock
    answer: TLS is at least 1.2; certificates come from the configured mode and no other;
    self-signed ones only in development or by the explicit override; the protocol of TLS-ALPN-01 is
    offered exactly if this is the configured solver; and in every mode but ACME there
    already is a certificate that matches its key and is inside its window. *)
Theorem tls_start_safe : spec anything (λ h r, ∀ conf, r = Ok conf → listener_sound h conf) [] buildTLSConfig.
Proof.
  unfold buildTLSConfig. destruct (parseMinVersion _) as [v|e] eqn:Ev; [|by intros conf ?].
  assert (VersionTLS12 ≤ v) as Hv. { unfold parseMinVersion in Ev. destruct (_ || _); [by injection Ev as <-|]. case_bool_decide; [|done]. by injection Ev as <-. }
  eapply spec_bind; [apply newCertProvider_selected|]. intros h [provider|e] Hsel; [|by intros conf ?]. cbv zeta.
  destruct (startupProbeRequired provider) eqn:Er; [by apply probe_passes|]. intros conf [= <-]. apply selected_sound; [done|exact Hsel|].
  unfold startupProbeRequired in Er. destruct provider; cbn [issuesAfterStartup challengeALPNProtos] in Er; [by rewrite bool_decide_eq_true_2 in Er..|done|by rewrite bool_decide_eq_true_2 in Er].
Qed.
End configuration.
End tls.
