(* ===== verification/CertCache.v ===== *)
(** * Issued certificates survive a restart

    The cache of ACME and of the origin CA on a disk that does what it is asked: what was stored
    is what the next start loads ([cache_round_trip]). *)

From S2P Require Import Prelude GoLib ManagedBlock RateLimit NetIP GoNum Secrets Config Program Dns01 DnsSolver CertFiles Acme AcmeSafety OriginCA.

Open Scope Z_scope.
Open Scope prog_scope.

(** ** Paths *)

(** A name of one element. *)
Definition element (name : gostring) : Prop := name ≠ [] ∧ (slash ∉ name) ∧ name ≠ go "." ∧ name ≠ go "..".

Lemma split_slash_none s : slash ∉ s → split_slash s = [s].
Proof. induction s as [|c s IH]; [done|]. rewrite not_elem_of_cons. intros [Hc Hs]. cbn [split_slash]. rewrite decide_False by done. by rewrite IH. Qed.
Lemma split_slash_nonnil s : split_slash s ≠ [].
Proof. induction s as [|c s IH]; [done|]. cbn [split_slash]. destruct (decide _); [done|]. by destruct (split_slash s). Qed.
Lemma split_slash_app d s : slash ∉ s → split_slash (d ++ slash :: s) = split_slash d ++ [s].
Proof.
  intros Hs. induction d as [|c d IH]; cbn [app split_slash]; [by rewrite decide_True, split_slash_none|]. destruct (decide (c = slash)); [by rewrite IH|].
  rewrite IH. pose proof (split_slash_nonnil d). by destruct (split_slash d) as [|l ls].
Qed.
Lemma foldl_join_last e es x : x ≠ [] → last (foldl (λ acc x, acc ++ slash :: x) e (es ++ [x])) = last x.
Proof. intros Hx. rewrite foldl_app. cbn [foldl]. destruct x as [|c x _] using rev_ind; [done|]. rewrite app_comm_cons, app_assoc. by rewrite !last_snoc. Qed.

Lemma filepath_Clean_last d name : element name → last (filepath_Clean (d ++ slash :: name)) = last name.
Proof.
  intros (Hne & Hs & Hd & Hdd). unfold filepath_Clean. rewrite split_slash_app by done. rewrite foldl_app. cbn [foldl]. set (rooted := match _ with [] => _ | _ => _ end).
  set (st := foldl _ [] _). assert (clean_step rooted st name = name :: st) as -> by (unfold clean_step; by rewrite !bool_decide_eq_false_2 by done). cbn [rev].
  assert (last (match rev st ++ [name] with [] => [] | e :: es => foldl (λ acc x, acc ++ slash :: x) e es end) = last name) as Hl.
  { destruct (rev st) as [|e es]; [done|]. cbn [app]. by apply foldl_join_last. }
  destruct rooted; [by rewrite last_cons, Hl; destruct name as [|c name _] using rev_ind; [|rewrite last_snoc]|].
  case_bool_decide as Eb; [|exact Hl]. rewrite Eb in Hl. destruct name as [|c name _] using rev_ind; [done|]. by rewrite last_snoc in Hl.
Qed.
Lemma filepath_Join_last dir name : element name → last (filepath_Join dir name) = last name.
Proof.
  intros He. pose proof He as (Hne & _). unfold filepath_Join. destruct dir as [|c dir], name as [|n name]; try done; [|by apply filepath_Clean_last].
  destruct He as (_ & Hs & Hd & Hdd). unfold filepath_Clean. rewrite split_slash_none by done. rewrite (bool_decide_eq_false_2 (n = slash)) by (intros ->; apply Hs; left).
  cbn [foldl]. assert (clean_step false [] (n :: name) = [n :: name]) as -> by (unfold clean_step; by rewrite !bool_decide_eq_false_2 by done). by cbn [rev app foldl].
Qed.
Lemma filepath_Join_ne dir dir' a b : element a → element b → last a ≠ last b → filepath_Join dir a ≠ filepath_Join dir' b.
Proof. intros Ha Hb Hne E. apply Hne. rewrite <- (filepath_Join_last dir a), <- (filepath_Join_last dir' b) by done. by rewrite E. Qed.

(** ** A disk *)

Section disk.
Context `{X509Laws}.

Local Abbreviation disk_state := (gmap gostring (Z * bytes)).
(** Everything that is not about files. *)
Context (elsewhere : environment world disk_state) (now : time).

Definition tempFile : gostring := go ".vallet-tmp-1".
Definition disk : environment world disk_state := λ X e,
  match e in world X return disk_state → X * disk_state with
  | ReadFile path => λ s, (match s !! path with Some f => Ok f.2 | None => Err ErrNotExist end, s)
  | Stat path => λ s, (match s !! path with Some f => Ok f.1 | None => Err ErrNotExist end, s)
  | CreateTemp dir => λ s, let name := filepath_Join dir tempFile in (Ok name, <[name := (keyFileMode, [])]> s)
  | FileChmod name perm => λ s, (None, alter (λ f, (perm, f.2)) name s)
  | FileWrite name data => λ s, (None, alter (λ f, (f.1, f.2 ++ data)) name s)
  | FileSync name => λ s, (None, s)
  | FileClose name => λ s, (None, s)
  | Rename from to => λ s, match s !! from with Some f => (None, <[to := f]> (delete from s)) | None => (Some ErrNotExist, s) end
  | RemoveFile name => λ s, match s !! name with Some _ => (None, delete name s) | None => (Some ErrNotExist, s) end
  | Now => λ s, (now, s)
  | e => elsewhere _ e
  end.

Lemma atomicWriteFile_run path data perm s : path ≠ filepath_Join (filepath_Dir path) tempFile →
  run disk (atomicWriteFile path data perm) s = (None, <[path := (perm, data)]> (delete (filepath_Join (filepath_Dir path) tempFile) s)).
Proof.
  intros Hne. set (tmp := filepath_Join (filepath_Dir path) tempFile) in *. cbn [atomicWriteFile ask bind run disk first_error]. fold tmp.
  rewrite alter_insert_eq, alter_insert_eq. cbn [fst snd app]. rewrite lookup_insert_eq, delete_insert_eq. cbn [run bind ask].
  cbn [disk]. rewrite lookup_insert_ne by done. by rewrite lookup_delete_eq.
Qed.

(** The chain is read back block by block. *)
Lemma parseCertChainPEM_chain chain fuel : (length chain < fuel)%nat → parseCertChainPEM fuel (chain_pem chain) = chain.
Proof.
  revert fuel. induction chain as [|der chain IH]; intros fuel Hf; (destruct fuel as [|fuel]; [cbn in Hf; lia|]); cbn [parseCertChainPEM].
  - change (chain_pem []) with (@nil ascii). by rewrite pem_decode_nil.
  - change (chain_pem (der :: chain)) with (pem_Encode (go "CERTIFICATE") der ++ chain_pem chain). rewrite pem_decode_encode, bool_decide_eq_true_2 by done.
    cbn [app]. f_equal. apply IH. cbn in Hf. lia.
Qed.
Lemma chain_pem_length chain : (length chain ≤ length (chain_pem chain))%nat.
Proof.
  induction chain as [|der chain IH]; [done|]. change (chain_pem (der :: chain)) with (pem_Encode (go "CERTIFICATE") der ++ chain_pem chain).
  pose proof (pem_decode_shorter _ _ _ (pem_decode_encode (go "CERTIFICATE") der (chain_pem chain))). cbn. lia.
Qed.

(** What was stored is loaded, with the same key, by a start at a time when it is still good. *)
Lemma cache_run sentinel dir keyFile certFile chain k pkcs s :
  element keyFile → element certFile → last keyFile ≠ last certFile → last keyFile ≠ last tempFile → last certFile ≠ last tempFile →
  MarshalPKCS8PrivateKey k = Some pkcs → let cert := MkTLSCert chain (Signer k) None in servable cert now →
  ∃ s', run disk (storeCached sentinel dir keyFile certFile cert) s = (Ok tt, s') ∧ run disk (loadCached dir keyFile certFile) s' = (Ok cert, s').
Proof.
  intros Hk Hc Hkc Hkt Hct Hm cert Hs. assert (element tempFile) as Ht by (split_and!; refine (bool_decide_unpack _ _); vm_compute; exact I).
  set (kp := filepath_Join dir keyFile). set (cp := filepath_Join dir certFile).
  assert (kp ≠ cp) as Hne by by apply filepath_Join_ne.
  assert (∀ d, kp ≠ filepath_Join d tempFile) as Hkt' by (intros d; by apply filepath_Join_ne).
  assert (∀ d, cp ≠ filepath_Join d tempFile) as Hct' by (intros d; by apply filepath_Join_ne).
  eexists. split.
  - unfold storeCached, wrap_all, cert. cbn [tc_PrivateKey tc_Certificate]. rewrite Hm. fold kp cp.
    erewrite run_bind_ok; [|rewrite run_bind, atomicWriteFile_run by done; reflexivity]. rewrite run_bind, atomicWriteFile_run by done. reflexivity.
  - unfold loadCached, loadExistingKey. fold kp cp. set (s' := <[cp := _]> _).
    assert (s' !! kp = Some (keyFileMode, pem_Encode (go "PRIVATE KEY") pkcs)) as Hsk.
    { unfold s'. rewrite lookup_insert_ne by done. rewrite lookup_delete_ne by done. by rewrite lookup_insert_eq. }
    assert (s' !! cp = Some (keyFileMode, chain_pem chain)) as Hsc by (unfold s'; by rewrite lookup_insert_eq).
    clearbody s'. erewrite run_bind_ok.
    2:{ erewrite run_bind_ok; [|apply run_on_err; cbn [ask run disk]; rewrite Hsk; reflexivity]. cbn [parseKey ask bind run disk snd]. rewrite Hsk. cbn [fst].
        replace (negb (Z.land keyFileMode groupOtherReadWrite =? 0)) with false by (by vm_compute).
        rewrite <- (app_nil_r (pem_Encode _ pkcs)), pem_decode_encode, (pkcs8_parse_marshal k) by done. reflexivity. }
    erewrite run_bind_ok.
    2:{ unfold loadCertChain. cbn [ask bind run disk]. rewrite Hsc. cbn [snd run]. rewrite parseCertChainPEM_chain by (pose proof (chain_pem_length chain); lia).
        rewrite bool_decide_eq_false_2; [reflexivity|]. destruct Hs as (der & rest & leaf & k' & Hch & _). cbn in Hch. by rewrite Hch. }
    cbn [ask bind run disk]. fold cert. apply validateCertificate_exact in Hs. by rewrite Hs.
Qed.

(** C34. An issued certificate survives a restart: on a disk that does what it is asked, what ACME or the
    origin CA stored is what the next start adopts, key and chain, as long as it is good. *)
Theorem cache_round_trip p q chain k pkcs s : MarshalPKCS8PrivateKey k = Some pkcs → let cert := MkTLSCert chain (Signer k) None in servable cert now →
  (∃ s', run disk (acme_storeCachedCert p cert) s = (Ok tt, s') ∧ run disk (acme_loadCachedCert p) s' = (Ok cert, s')) ∧
  (∃ s', run disk (origin_storeCachedCert q cert) s = (Ok tt, s') ∧ run disk (origin_loadCachedCert q) s' = (Ok cert, s')).
Proof.
  intros Hm cert Hs. split; (eapply cache_run; [..|exact Hm|exact Hs]); (split_and! || idtac); refine (bool_decide_unpack _ _); vm_compute; exact I.
Qed.
End disk.

(** ** A sample *)

Module CacheSample.
(** Blocks that say where they end. *)
Definition enc (s : bytes) : bytes := foldr (λ c acc, "1"%char :: c :: acc) ["0"%char] s.
Fixpoint dec (s : bytes) : option (bytes * bytes) :=
  match s with
  | [] => None
  | mark :: r =>
      if bool_decide (mark = "0"%char) then Some ([], r) else
      match r with
      | [] => None
      | c :: r' => match dec r' with Some (w, rest) => Some (c :: w, rest) | None => None end
      end
  end.
Lemma dec_enc s rest : dec (enc s ++ rest) = Some (s, rest).
Proof. induction s as [|c s IH]; [done|]. cbn [enc foldr app dec]. rewrite bool_decide_eq_false_2 by done. fold (enc s). by rewrite IH. Qed.
Lemma dec_shorter n s w rest : (length s ≤ n)%nat → dec s = Some (w, rest) → (length rest < length s)%nat.
Proof.
  revert s w rest. induction n as [|n IH]; intros s w rest Hn; (destruct s as [|m r]; [done|]); cbn [dec length] in *; [lia|]. case_bool_decide; [intros [= <- <-]; lia|].
  destruct r as [|c r']; [done|]. destruct (dec r') as [[w' rest']|] eqn:E; [|done]. intros [= <- <-]. apply IH in E; cbn [length] in *; lia.
Qed.

Definition x509 : X509 := {|
  signer := unit; pubkey := unit; Public := λ k, k; pub_Equal := λ _ _, true;
  ParseCertificate := λ _, Some (MkCertificate 0 100 tt);
  ParsePKCS8PrivateKey := λ _, Some (Some tt); MarshalPKCS8PrivateKey := λ _, Some [];
  pem_Decode := λ s, match dec s with Some (t, r) => match dec r with Some (b, rest) => Some ((t, b), rest) | None => None end | None => None end;
  pem_Encode := λ t b, enc t ++ enc b;
|}.
Lemma laws : @X509Laws x509.
Proof.
  split; cbn.
  - intros t b rest. rewrite <- app_assoc, dec_enc. by rewrite dec_enc.
  - done.
  - intros s b rest. destruct (dec s) as [[t r]|] eqn:E1; [|done]. destruct (dec r) as [[b' rest']|] eqn:E2; [|done]. intros [= <- <-].
    apply (dec_shorter (length s)) in E1; [|done]. apply (dec_shorter (length r)) in E2; [lia|done].
  - by intros [] b [= <-].
Qed.

Definition silent_api X (e : api X) : X :=
  match e in api X return X with Send _ => None | Clock => 0 | Locked f => f None | Exchange _ _ _ => Err errTransport end.
Definition silent_resolver X (e : resolver X) : X :=
  match e in resolver X return X with LookupNS _ => Err errTransport | LookupIPAddr _ => Err errTransport | LookupTXTAt _ _ => Err errTransport | CtxErr => None end.
Definition silent_solving X (e : solving X) : X :=
  match e in solving X return X with OfApi X e => silent_api X e | OfDns X e => silent_resolver X e | Select => DeadlineDone | SolverCtxErr => None end.
(** Nothing but files works. *)
Definition silent X (e : @world x509 X) : X :=
  match e in world X return X with
  | ReadFile _ | GenerateKey | CreateCSR _ _ | CreateSelfSigned _ _ _ | LoadKeyPair _ _ | RandomNumber | Stat _ | CreateTemp _ | AuthorizeOrder _ | GetAuthorization _
  | WaitOrder _ | CreateOrderCert _ _ | FetchCert _ | TLSALPN01ChallengeCert _ _ | DNS01ChallengeRecord _ => Err errTransport
  | MkdirAll _ _ | FileChmod _ _ | FileWrite _ _ | FileSync _ | FileClose _ | Rename _ _ | RemoveFile _ | Register _ | AcceptChallenge _ | WaitAuthorization _ => None
  | Now => 0
  | HTTPDo _ => None
  | OfSolving X e => silent_solving X e
  | SelectTimer _ => Stopped
  | SetCurrent _ | SetChallenge _ _ | ClearChallenge _ => tt
  end.
Definition env : environment (@world x509) (gmap gostring (Z * bytes)) := @disk x509 (λ X e s, (silent X e, s)) 50.
Definition provider : @acmeProvider x509 := MkAcme [go "example.com"] (go "/var/cache") newTLSALPNSolver.
Definition origin : originCAProvider := MkOriginCA (go "token") [go "example.com"] (go "/var/origin") 90 (HttpEdge.MkTrustedPeers []).
Definition cert : @tls_cert x509 := @MkTLSCert x509 [go "der"] (Signer tt) None.
End CacheSample.
Import CacheSample.

Lemma cache_round_trip_witness :
  (∃ s', run env (acme_storeCachedCert provider cert) ∅ = (Ok tt, s') ∧ run env (acme_loadCachedCert provider) s' = (Ok cert, s')) ∧
  (∃ s', run env (@origin_storeCachedCert x509 origin cert) ∅ = (Ok tt, s') ∧ run env (@origin_loadCachedCert x509 origin) s' = (Ok cert, s')).
Proof.
  apply (@cache_round_trip x509 laws (λ X e s, (silent X e, s)) 50 provider origin [go "der"] tt []); [reflexivity|].
  exists (go "der"), [], (MkCertificate 0 100 tt), tt. repeat split; cbn; lia.
Defined.
